(* ===== verification/_CoqProject ===== *)
-Q . S2P
Prelude.v
RustStr.v
RustNum.v
Sql.v
Json.v
HomeTypes.v
Scripted.v
HomeAction.v
HomePolicy.v
HomeControl.v
HomeGraph.v
HaClient.v
HaProvider.v
Confirmations.v
Ledger.v
RateLimit.v
ToolGate.v
Calc.v
Timer.v
NumberWords.v
CalcInput.v
QuickTables.v
QuickTimer.v
LoopGuard.v
OriginAuth.v
Redaction.v
Session.v
ServiceCtl.v
Governor.v
ControlLine.v
HttpFraming.v
HttpServers.v
ChatGate.v
Conversations.v
LlmProvider.v
PromptSha.v
LlmRequest.v
LlmClient.v
MemoryPolicy.v
Escalation.v
Recall.v
MemoryText.v
MemoryTypes.v
MemoryExtract.v
Embedding.v
MemoryTables.v
MemoryCanon.v
MemoryExport.v
MemoryStore.v
MemoryDream.v
MemorySync.v
MemoryFacts.v
MemoryCapture.v
MemoryQuestions.v
MemoryAnswers.v
MemoryProps.v
MemorySpeech.v
MemoryInject.v
MemoryTools.v
DispatchHome.v
QuickRoute.v
Channel.v
Dispatch.v
QuickSafety.v
ToolParser.v
Safety.v
ChatTurn.v
TurnKeeps.v
MemoryTurn.v
ChatApi.v
LlmApi.v
Telegram.v
TelegramDrivers.v
SkillLoader.v
Ota.v
Config.v
Probe.v
Health.v
SpeakerIdentity.v
VoiceIntent.v
