(* ===== verification/Prelude.v ===== *)
(** * GenieClaw: a verification library for the home-agent runtime

    GenieClaw is a home assistant that runs on a small Linux box: a language
    model proposes tool calls, and a Rust runtime decides which of them happen.
    The library models that runtime, from the bytes of a request to the lock of
    the front door, with its memory of the household and the supervisor that
    gives the device its modes.  Paths below are relative to [src/crates/];
    [core] stands for [genie-core/src].

    ** The program and the files

    A request reaches the process over HTTP, Telegram, the terminal or the
    microphone and is given an origin; a turn takes it up, perhaps answers it
    without the model, or asks the model; the parser finds a tool call in the
    answer; the dispatcher passes it through its gate and runs it; a home action
    is resolved, judged by the policy, perhaps parked until a person confirms it,
    and handed to Home Assistant; a ledger remembers it for undo.  What is said
    about the household is kept in a memory, read out into tables, and answered
    from.  Bottom to top:

    - [Prelude], [RustStr], [RustNum], [Json]: results and the [?] operator, list
      lemmas, automation; [&str] as its UTF-8 bytes; [f64]/[f32] as IEEE values
      that compute in the kernel; [serde_json::Value].
    - [Sql]: what the two stores use of SQLite; statements that may fail,
      transactions, [ORDER BY].
    - [HomeTypes]: origins, entities, actions, the safety configuration, and the
      class [World] of what the process asks of its surroundings (the clock, the
      random source, the [HomeAutomationProvider] trait).  [Scripted] is a
      concrete [World] for runs on given data.
    - [HomeAction], [HomePolicy], [HomeControl]: [core/tools/home_action.rs],
      [core/ha/policy.rs] (the two gates on a home action) and
      [core/tools/home.rs].
    - [HomeGraph], [HaClient], [HaProvider]: [core/ha/provider.rs] with
      [entity_fidelity.rs], and [client.rs]: what Home Assistant reports, the
      resolution of a spoken phrase against it, and the REST calls.  The provider
      is an instance of [World].
    - [Confirmations], [Ledger]: [ConfirmationManager], [ActionLedger] and the
      audit events of [core/tools/actuation.rs].
    - [RateLimit], [ToolGate]: the limiters, the access lists and
      [ToolConfirmationGate] of [core/tools/dispatch/mod.rs].
    - [Calc], [Timer], [NumberWords], [CalcInput]: the arithmetic, the timers, the
      spelled numbers and the spoken decimals of [core/tools/].
    - [QuickTables], [QuickTimer], [QuickRoute], [QuickSafety]:
      [core/tools/quick.rs], from an utterance to a call without the model, and
      what the dispatcher makes of such a call.
    - [LoopGuard], [OriginAuth], [Redaction], [Session]: [core/security/],
      [core/origin_auth.rs] with the secrets of the configuration, and
      [core/session.rs].
    - [ServiceCtl], [Governor], [ControlLine]: [genie-governor/src/service_ctl.rs],
      [governor.rs] (with [genie-common/src/mode.rs]) and [control.rs].
    - [HttpFraming], [HttpServers]: [genie-common/src/http.rs], and the gate and
      the routing of the servers of [genie-api] and [core/server.rs].
    - [ChatGate], [Conversations], [LlmProvider], [Escalation], [Channel],
      [ChatTurn], [ChatApi]: the turn, from [core/server.rs], [conversation.rs],
      [llm/] and [channel/]: one at a time, stored, answered by a model that the
      configuration allows, and written back.
    - [MemoryPolicy], [Recall]: [core/memory/policy.rs], and the fusion of the two
      rankings of [recall.rs].
    - [MemoryText], [MemoryTypes], [MemoryExtract], [Embedding]: what
      [core/memory/] makes of a text: its normal form, its slot and its tokens
      ([mod.rs], [decay.rs]); the tables that type it ([mod.rs]); the facts it
      states ([parse_household.rs], [mod.rs]); its vector ([embedding.rs]).
    - [MemoryTables], [MemoryCanon], [MemoryStore], [MemoryDream]: the fifteen
      tables projected from the memories ([structured.rs]), the files
      ([mod.rs]), [impl Memory], and the cycle of [recall.rs].
    - [MemoryQuestions], [MemoryAnswers]: [structured_household_answer].
    - [MemoryExport], [MemorySync], [MemoryProps], [MemorySpeech]: what holds of
      the store: its files, its tables, its operations, its answers.
    - [MemoryFacts], [MemoryCapture], [MemoryInject], [MemoryTools]:
      [core/memory/extract.rs] (what an utterance states, and what of it is
      stored), [inject.rs] (the memory part of a prompt) and
      [core/tools/dispatch/memory.rs] (recall, status, forget, store).
    - [DispatchHome], [Dispatch]: [core/tools/dispatch/home.rs] and [mod.rs].
    - [ToolParser]: [core/tools/parser.rs].
    - [Safety]: sequences of requests against the dispatcher.
    - [TurnKeeps], [MemoryTurn]: what every turn of [ChatTurn] keeps of its
      surroundings, and the turn closed with the memory store.
    - [PromptSha], [LlmRequest], [LlmClient], [LlmApi]: [core/llm/]: the digest of
      a prompt, requests and their compaction, the exchange and its stream, and
      the providers; [LlmApi] gives the turn its model.
    - [Telegram], [TelegramDrivers]: [core/telegram.rs], the messages and then the
      dispatcher with one driver per chat.
    - [SkillLoader]: [core/skills/] with [core/tools/dispatch/skill.rs].
    - [Ota]: [core/ota/mod.rs].
    - [Config], [Probe], [Health]: [genie-common/src/config.rs] and [probe.rs],
      and [genie-health/src/checker.rs].
    - [SpeakerIdentity], [VoiceIntent]: [core/voice/identity.rs], [intent.rs].

    ** State and operations

    A struct is a [Record] with its field names, an enum an [Inductive] with its
    constructors (in a Module of the enum's name, whose type is [t]).  A method
    that takes [&mut self] or locks a mutex is a function from the state to the
    state and the answer; one that also reads the clock takes the outside world
    [w : W] and returns it, since every reading may move it.  Whole handlers are
    compositions of these functions in the order of the code, early returns
    included; the state of the dispatcher is [DispatchHome.St], all its stores
    side by side with the lines handed to the audit logs.  [Result] and [Option]
    are [result] and [option].  Errors keep their texts, so that a theorem can
    say which refusal was given.

    Each store of the dispatcher sits behind its own mutex and a handler holds
    one for a single method call, so the operations of a store happen one after
    another; the theorems on histories ([Safety], [Confirmations], [RateLimit],
    [Session], [ToolGate]) quantify over every sequence of operations.  The chat
    gate, whose lock and counters change apart, is a step relation; so are the
    drivers of the chats of Telegram, and the loads and calls of native skills,
    whose two locked halves let others between.

    A database connection is its tables and the list of which statements to come
    fail ([Sql.Conn]); a failed statement changes nothing, a failed transaction is
    rolled back, and everything else that was written stays.  The file operations
    of the memory are steps of the same kind.  The rows of the fifteen projected
    tables are one list, each tagged with its columns; the vector of an embedding
    is its list of 32-bit floats, and the JSON list of query hashes a list.  An
    operation of the memory reads the clock once.

    ** What is proved

    - One call of the dispatcher hands the home at most one action; that action
      was cleared by the access lists, the confirmation rules, the rate limit and
      both policy gates, and it is audited ([Safety], [HomeControl],
      [HomePolicy]); a service call of the provider was authorised by one
      ([HaProvider]).  Every call leaves exactly one audit line.
    - A confirmation token is good once, for ten minutes, for the action it was
      issued for ([Confirmations], [Safety.confirm_replays_once]); the two-step
      confirmation of a tool needs a live first leg of the same origin, tool and
      argument text ([ToolGate]).
    - The limiters, the session registry and the memory triggers equal references
      that keep the full history, a recency list and an ungated classification
      ([RateLimit], [Session], [MemoryPolicy]).
    - A restart from the audit log preserves what can be undone ([Safety]).
    - A request speaks for another channel only with a configured secret, or from
      the loopback interface when none is configured ([OriginAuth]); a handler
      runs only for a request that passed its server's gate ([HttpServers]); the
      readers are bounded and blind to how the bytes were cut ([HttpFraming]).
    - A chat request is one turn and at most one tool call; the turn is recorded
      as it was answered; its tokens are those of its reply; turns are counted and
      the gate drains ([ChatApi], [ChatTurn], [ChatGate]).  Nothing leaves the
      device but to a model or proxy the configuration allows ([ChatTurn]).
    - What the quick router answers is a call the dispatcher accepts
      ([QuickSafety]), and the timer of a reminder is the sum of its spans
      ([QuickTimer]).
    - A mode transition ends with the services of its target, or with those of
      the mode it came from ([Governor]).
    - Texts are read as they were written: arithmetic ([Calc]), requests
      ([HttpFraming]), conversations ([Conversations]); secrets are cut out of
      them ([Redaction]).
    - Of the memory: each projected row was read from a sentence that may be
      spoken in a shared room, whatever failed on the way, and an answer is told
      from such rows or refuses to speak a secret ([MemorySync], [MemorySpeech]);
      while nothing fails the tables are the projection of the memories, and a
      rebuild makes them so ([MemorySync]); the exported files do not depend on
      what may not be spoken ([MemoryExport]); tracking stays bounded; a fact with
      one answer supersedes its predecessors, updates are checked first, pruning
      is one filter, and the shopping list follows the last word ([MemoryProps]).
    - Only what policy and speaker allow is stored by the tools and by the capture
      of a turn, only what may be read is put into a prompt, and a forgotten text
      is one that may be read ([MemoryTools], [MemoryCapture], [MemoryInject]);
      over any number of turns the memory keeps its policy ([MemoryTurn]).
    - A streamed reply is the text of its tokens, however the bytes were cut; a
      compacted request keeps the latest turns; the text of a refusal does not
      hold the credential that was sent ([LlmClient], [LlmRequest], [LlmApi]).
    - The messages of a chat are served one at a time and in turn, and one in hand
      is delivered ([TelegramDrivers]).
    - Where signatures are required, no code is mapped that a trusted key did not
      sign; what is offered obeys the policy and its fault budget ([SkillLoader]).
    - The posture that is shown tells no secret ([Config]); an answer to a probe is
      read as its bytes ([Probe]); a service is alerted at the first failure of a
      run and at every tenth ([Health]).
    - Releases are ordered as semantic versions and a rollback brings back what was
      copied ([Ota]); the speaker that is named is the best match
      ([SpeakerIdentity]); a normal form is read in one pass ([VoiceIntent]).

    ** Fuel and bounds

    Recursion is structural wherever the code's is.  Elsewhere: [Calc]'s parser
    recurses on the remaining parenthesis depth, which the code caps at 64, and
    its operator loops run on the number of remaining tokens plus one, each round
    consuming a token; [LoopGuard]'s ping-pong search and [Session]'s eviction
    run on the length of the history and the size of the map, which bound their
    rounds; the header and chunk loops of [HttpFraming] run on the bytes left plus
    one, the search of [Redaction] on the length of the text plus one, the loops
    that strip affixes on the length of the text, those over spoken numbers and
    spans on the number of words, and [MemoryStore.chunks] on the length of the
    list ([MemoryProps.chunks_concat]); decimal and hexadecimal printing run on
    the number of binary digits of the argument; the loop of a channel runs on a
    number of messages.  The loops over a streamed reply and over the answer to a
    probe run on the bytes left plus one ([Probe.fill_fuel],
    [Probe.chunked_fuel]), the splitting of a long message on its characters, the
    chunks of a WAV file on the length of the file.  Machine integers are [N] or [Z] with wrap-around or
    saturation written where the code can reach it, and lemmas or hypotheses bound
    them elsewhere.

    ** What is a parameter

    Code outside the repository is a class or an argument, its documented
    behaviour a hypothesis: [World] and [Machine] (clock, randomness, the home),
    [HttpExchange] and [ClientSerde] (one HTTP exchange with Home Assistant and
    the derived decoders of its answers), [Host] (systemctl, docker, files) with
    [HostLaws], [Unicode] (case tables, fixed on ASCII), [Utf8], [Reader] (a
    connection), [Serde] (reading and printing JSON), [HashOrder] (iteration order
    of a [HashMap]), [DefaultHasher] and [StrHasher], [FloatText] (shortest
    decimal of a float), [Exp] and [Ln1p] (the platform's transcendentals),
    [Gmtime], [Fts] and [NoteFts] (SQLite's full-text index), which statements
    fail and whether foreign keys are enforced, [Pragmas] (what it says of its
    files), [Proxy], [Environment], the lossy UTF-8 decoder, [ChatDecoder] (the
    derived decoder of a model's reply), [Sockets] and [Tls], [Reqwest] (one HTTPS
    request), [BotWorld] (the API of Telegram, files and the transcriber),
    [SkillHost] (files, the linker and native code) with [SkillHostLaws],
    [Ed25519], [ManifestDecoder], [Processes] (a command and its output),
    [Localtime], [Clocks], [VoiceMath] (its cosines, logarithms and powers), [ProfileFiles] and
    [ProfileJson].  The interfaces [Completion] and [Streaming] (a model) and
    [TurnServices] (the memory context and the capture of facts), against which a
    turn is proved, have the instances [LlmApi.completion_of],
    [LlmApi.streaming_of] and those of [MemoryTurn].  The bodies of the tools not
    modelled are the class [ToolBodies]; they see the outside world only.  Each
    theorem that uses such a hypothesis is applied to a concrete instance.

    ** What is not modelled

    The schema migrations of the memory; prompts and context budgets; the capture
    of audio, the recognition and synthesis of speech and the filters between; the
    answers of web search, weather and the state of the machine; the dashboard,
    the command-line client, profile files, the serial coprocessor, [tegrastats],
    the log files and the benchmark suites; the confinement of the process by the
    kernel: input and output around the decisions above, or texts without a
    contract to state. *)

From stdpp Require Export base tactics list gmap strings pretty.
From Stdlib Require Export ZArith NArith Lia Sorted.

#[export] Set Default Goal Selector "!".

(** ** Results *)

(** Rust's [Result<A, E>]; errors are values, as the code has them. *)
Inductive result (A E : Type) : Type :=
| Ok (a : A)
| Err (e : E).
Arguments Ok {A E} a.
Arguments Err {A E} e.

Definition is_ok {A E} (r : result A E) : bool :=
  match r with Ok _ => true | Err _ => false end.

(** The [?] operator. *)
Definition rbind {A B E} (r : result A E) (f : A -> result B E) : result B E :=
  match r with Ok a => f a | Err e => Err e end.

(** [Option::ok_or]. *)
Definition ok_or {A E} (o : option A) (e : E) : result A E :=
  match o with Some a => Ok a | None => Err e end.

(** [Result::ok]. *)
Definition to_option {A E} (r : result A E) : option A :=
  match r with Ok a => Some a | Err _ => None end.

Declare Scope rust_scope.
Delimit Scope rust_scope with rust.
Notation "'let?' x ':=' e 'in' k" := (rbind e (fun x => k))
  (at level 10, x pattern, e at level 200, k at level 200) : rust_scope.

Lemma rbind_ok {A B E} (r : result A E) (f : A -> result B E) b :
  rbind r f = Ok b <-> exists a, r = Ok a /\ f a = Ok b.
Proof. destruct r; simpl; naive_solver. Qed.

Lemma rbind_err {A B E} (r : result A E) (f : A -> result B E) e :
  rbind r f = Err e <-> r = Err e \/ exists a, r = Ok a /\ f a = Err e.
Proof. destruct r; simpl; naive_solver. Qed.

Lemma ok_or_ok {A E} (o : option A) (e : E) a : ok_or o e = Ok a <-> o = Some a.
Proof. destruct o; simpl; naive_solver. Qed.

(** ** Stateful code *)

(** A function that reads and updates a state [S].  A call that can fail is a
    function to [result]: the code's early returns do not undo what was written
    before them, so the state is threaded through both outcomes. *)
Definition M (S A : Type) : Type := S -> A * S.

Definition ret {S A} (a : A) : M S A := fun s => (a, s).
Definition bind {S A B} (m : M S A) (f : A -> M S B) : M S B :=
  fun s => let '(a, s) := m s in f a s.
(** A call on one component of the state. *)
Definition zoom {S T A} (proj : S -> T) (upd : T -> S -> S) (m : M T A) : M S A :=
  fun s => let '(a, t) := m (proj s) in (a, upd t s).

Notation "'let!' x ':=' e 'in' k" := (bind e (fun x => k))
  (at level 10, x pattern, e at level 200, k at level 200) : rust_scope.
(** [?] on a stateful call. *)
Definition ebind {S E A B} (m : M S (result A E)) (f : A -> M S (result B E)) : M S (result B E) :=
  fun s => match m s with
           | (Ok a, s) => f a s
           | (Err e, s) => (Err e, s)
           end.
Notation "'let!?' x ':=' e 'in' k" := (ebind e (fun x => k))
  (at level 10, x pattern, e at level 200, k at level 200) : rust_scope.

Lemma bind_run {S A B} (m : M S A) (f : A -> M S B) s :
  bind m f s = f (m s).1 (m s).2.
Proof. unfold bind. by destruct (m s). Qed.

(** ** Tactics *)

(** Turn boolean facts into propositions. *)
Ltac bool_to_prop :=
  repeat match goal with
  | H : _ && _ = true |- _ => apply andb_true_iff in H; destruct H
  | H : _ || _ = false |- _ => apply orb_false_iff in H; destruct H
  | H : negb _ = true |- _ => apply negb_true_iff in H
  | H : negb _ = false |- _ => apply negb_false_iff in H
  | H : bool_decide _ = true |- _ => apply bool_decide_eq_true in H
  | H : bool_decide _ = false |- _ => apply bool_decide_eq_false in H
  | H : (_ <? _)%nat = true |- _ => apply Nat.ltb_lt in H
  | H : (_ <? _)%nat = false |- _ => apply Nat.ltb_ge in H
  | H : (_ <=? _)%nat = true |- _ => apply Nat.leb_le in H
  | H : (_ <=? _)%nat = false |- _ => apply Nat.leb_gt in H
  | H : (_ =? _)%nat = true |- _ => apply Nat.eqb_eq in H
  | H : (_ =? _)%nat = false |- _ => apply Nat.eqb_neq in H
  | H : (_ <? _)%N = true |- _ => apply N.ltb_lt in H
  | H : (_ <? _)%N = false |- _ => apply N.ltb_ge in H
  | H : (_ <=? _)%N = true |- _ => apply N.leb_le in H
  | H : (_ <=? _)%N = false |- _ => apply N.leb_gt in H
  | H : (_ =? _)%N = true |- _ => apply N.eqb_eq in H
  | H : (_ =? _)%N = false |- _ => apply N.eqb_neq in H
  | H : (_ <? _)%Z = true |- _ => apply Z.ltb_lt in H
  | H : (_ <? _)%Z = false |- _ => apply Z.ltb_ge in H
  | H : (_ <=? _)%Z = true |- _ => apply Z.leb_le in H
  | H : (_ <=? _)%Z = false |- _ => apply Z.leb_gt in H
  | H : (_ =? _)%Z = true |- _ => apply Z.eqb_eq in H
  | H : (_ =? _)%Z = false |- _ => apply Z.eqb_neq in H
  | H : String.eqb _ _ = true |- _ => apply String.eqb_eq in H
  | H : String.eqb _ _ = false |- _ => apply String.eqb_neq in H
  end.

(** The same, with a case for each side of a disjunction. *)
Ltac bool_cases :=
  repeat (bool_to_prop;
    match goal with
    | H : _ && _ = false |- _ => apply andb_false_iff in H; destruct H
    | H : _ || _ = true |- _ => apply orb_true_iff in H; destruct H
    end); bool_to_prop.

(** Case analysis on every match and conditional of a hypothesis, keeping
    the equations. *)
Ltac inv_match H :=
  repeat (first
    [ progress simplify_eq/=
    | match type of H with
      | context [match ?x with _ => _ end] => destruct x eqn:?
      end ]).

(** The same on the goal. *)
Ltac goal_match :=
  repeat (first
    [ progress simplify_eq/=
    | match goal with
      | |- context [match ?x with _ => _ end] => destruct x eqn:?
      end ]).

(** ** Options *)

Definition when {A} (b : bool) (x : A) : option A := if b then Some x else None.
Lemma when_Some {A} (b : bool) (x y : A) : when b x = Some y -> b = true /\ x = y.
Proof. by destruct b; intros [= ->]. Qed.

Definition opt_filter {A} (p : A -> bool) (o : option A) : option A :=
  match o with Some x => if p x then Some x else None | None => None end.

Notation "a <|> b" := (match a with Some x => Some x | None => b end)
  (at level 65, right associativity, only parsing) : rust_scope.

(** ** Rules *)

(** A routine that returns at the first condition that holds is a list of
    conditions and results, in the order they are tried. *)
Fixpoint first_rule {A} (rules : list (bool * A)) : option A :=
  match rules with
  | [] => None
  | (true, r) :: _ => Some r
  | (false, _) :: rules => first_rule rules
  end.

Lemma first_rule_elem {A} (rules : list (bool * A)) r :
  first_rule rules = Some r -> (true, r) ∈ rules.
Proof.
  induction rules as [|[[] x] rules IH]; cbn; [done|intros [= ->]; by left|right; auto].
Qed.

Lemma first_rule_forall {A} (P : A -> Prop) (rules : list (bool * A)) r :
  Forall P rules.*2 -> first_rule rules = Some r -> P r.
Proof.
  rewrite Forall_forall. intros HP Hr. apply first_rule_elem in Hr. apply HP, list_elem_of_fmap. by exists (true, r).
Qed.

(** The first element an option-valued function accepts: a loop that returns
    from its body. *)
Fixpoint find_map {A B} (f : A -> option B) (l : list A) : option B :=
  match l with
  | [] => None
  | x :: l => match f x with Some y => Some y | None => find_map f l end
  end.

Lemma find_map_Some {A B} (f : A -> option B) l y :
  find_map f l = Some y -> exists l1 x l2, l = l1 ++ x :: l2 /\ f x = Some y /\ Forall (fun x => f x = None) l1.
Proof.
  induction l as [|x l IH]; cbn [find_map]; [done|]. destruct (f x) as [z|] eqn:E.
  - intros [= <-]. by exists [], x, l.
  - intros (l1 & x' & l2 & -> & Hf & Hl)%IH. exists (x :: l1), x', l2. split_and!; [done|done|by constructor].
Qed.

Lemma find_map_app {A B} (f : A -> option B) l k :
  Forall (fun x => f x = None) l -> find_map f (l ++ k) = find_map f k.
Proof. induction 1 as [|x l H _ IH]; [done|]. cbn [app find_map]. by rewrite H. Qed.

Lemma find_map_None {A B} (f : A -> option B) l : Forall (fun x => f x = None) l -> find_map f l = None.
Proof. intros H. rewrite <- (app_nil_r l). by rewrite find_map_app. Qed.

Lemma find_map_elem {A B} (f : A -> option B) l y : find_map f l = Some y -> exists x, x ∈ l /\ f x = Some y.
Proof. intros (l1 & x & l2 & -> & Hf & _)%find_map_Some. exists x. split; [set_solver|done]. Qed.

(** ** Lists *)

Section lists.
Context {A B : Type}.
Implicit Types (l : list A).

(** [Iterator::filter_map] on a list. *)
Fixpoint filter_map (f : A -> option B) l : list B :=
  match l with
  | [] => []
  | x :: l => match f x with Some y => y :: filter_map f l | None => filter_map f l end
  end.

Lemma elem_of_filter_map f l y :
  y ∈ filter_map f l <-> exists x, x ∈ l /\ f x = Some y.
Proof.
  induction l as [|x l IH]; simpl; [set_solver|].
  destruct (f x) eqn:?; set_solver.
Qed.

Lemma length_filter_map f l : length (filter_map f l) <= length l.
Proof. induction l as [|x l IH]; simpl; [lia|]. destruct (f x); simpl; lia. Qed.

Lemma filter_map_app f l l' : filter_map f (l ++ l') = filter_map f l ++ filter_map f l'.
Proof. induction l as [|x l IH]; simpl; [done|]. destruct (f x); simpl; by rewrite IH. Qed.

Lemma in_take n l x : x ∈ take n l -> x ∈ l.
Proof. intros Hx. rewrite <- (take_drop n l). apply elem_of_app. by left. Qed.

(** The list without its longest prefix of elements that satisfy [p]. *)
Fixpoint drop_while (p : A -> bool) l : list A :=
  match l with
  | [] => []
  | x :: l' => if p x then drop_while p l' else l
  end.

Fixpoint take_while (p : A -> bool) l : list A :=
  match l with
  | [] => []
  | x :: l' => if p x then x :: take_while p l' else []
  end.

Lemma take_drop_while p l : take_while p l ++ drop_while p l = l.
Proof. induction l as [|x l IH]; simpl; [done|]. destruct (p x); simpl; by rewrite ?IH. Qed.

Lemma Forall_take_while p l : Forall (fun x => p x = true) (take_while p l).
Proof. induction l as [|x l IH]; simpl; [constructor|]. destruct (p x) eqn:?; by constructor. Qed.

Lemma drop_while_hd p l x l' : drop_while p l = x :: l' -> p x = false.
Proof. induction l as [|y l IH]; simpl; [done|]. destruct (p y) eqn:?; naive_solver. Qed.

Lemma drop_while_suffix p l : drop_while p l `suffix_of` l.
Proof. exists (take_while p l). by rewrite take_drop_while. Qed.

Lemma drop_while_none p l : Forall (fun x => p x = false) l -> drop_while p l = l.
Proof. destruct 1 as [|x l Hx _]; simpl; by rewrite ?Hx. Qed.

Lemma drop_while_all p l l' :
  Forall (fun x => p x = true) l -> drop_while p (l ++ l') = drop_while p l'.
Proof. induction 1 as [|x l Hx _ IH]; simpl; by rewrite ?Hx. Qed.

(** The last [n] elements. *)
Definition last_n (n : nat) l : list A := drop (length l - n) l.

Lemma length_last_n n l : length (last_n n l) = Nat.min n (length l).
Proof. unfold last_n. rewrite length_drop. lia. Qed.

Lemma last_n_suffix n l : last_n n l `suffix_of` l.
Proof. exists (take (length l - n) l). unfold last_n. by rewrite take_drop. Qed.

Lemma last_n_all n l : length l <= n -> last_n n l = l.
Proof. intros H. unfold last_n. replace (length l - n) with 0 by lia. done. Qed.

Lemma last_n_snoc n l x : last_n n (last_n n l ++ [x]) = last_n n (l ++ [x]).
Proof.
  unfold last_n. rewrite !length_app, length_drop. cbn [length].
  destruct (decide (length l <= n)) as [Hl|Hl].
  - replace (length l - n) with 0 by lia. by rewrite drop_0, Nat.sub_0_r.
  - replace (length l - (length l - n) + 1 - n) with 1 by lia.
    replace (length l + 1 - n) with ((length l - n) + 1) by lia.
    rewrite <- drop_drop. f_equal. rewrite drop_app_le by lia. done.
Qed.

Lemma existsb_elem (p : A -> bool) l : existsb p l = true <-> exists x, x ∈ l /\ p x = true.
Proof.
  rewrite existsb_exists.
  split; intros (x & ? & ?); exists x; split; auto; by apply list_elem_of_In.
Qed.

Lemma forallb_elem (p : A -> bool) l : forallb p l = true <-> forall x, x ∈ l -> p x = true.
Proof.
  rewrite forallb_forall.
  split; intros Hp x Hx; apply Hp; by apply list_elem_of_In.
Qed.

Lemma filter_all (P : A -> Prop) `{!forall x, Decision (P x)} l :
  Forall P l -> base.filter P l = l.
Proof. induction 1; [done|]. rewrite filter_cons_True by done. by f_equal. Qed.

End lists.

(** ** Sorting *)

(** [sort_by_key]: a stable sort by a numeric key. *)
Section sort.
Context {A : Type} (key : A -> N).

Fixpoint insert_by_key (x : A) (l : list A) : list A :=
  match l with
  | [] => [x]
  | y :: l' => if (key x <=? key y)%N then x :: l else y :: insert_by_key x l'
  end.

Definition sort_by_key (l : list A) : list A := foldr insert_by_key [] l.

Lemma insert_by_key_perm x l : insert_by_key x l ≡ₚ x :: l.
Proof.
  induction l as [|y l IH]; simpl; [done|].
  destruct (key x <=? key y)%N; [done|]. rewrite IH. by constructor.
Qed.

Lemma sort_by_key_perm l : sort_by_key l ≡ₚ l.
Proof. induction l as [|x l IH]; simpl; [done|]. by rewrite insert_by_key_perm, IH. Qed.

Definition key_le (x y : A) : Prop := (key x <= key y)%N.

Lemma insert_by_key_sorted x l :
  StronglySorted key_le l -> StronglySorted key_le (insert_by_key x l).
Proof.
  induction 1 as [|y l Hl IH Hy]; simpl; [by repeat constructor|].
  destruct (key x <=? key y)%N eqn:E; bool_to_prop.
  - constructor; [by constructor|]. constructor; [done|].
    eapply Forall_impl; [exact Hy|]. unfold key_le. intros z ?. lia.
  - constructor; [done|]. rewrite insert_by_key_perm. constructor; [unfold key_le; lia|done].
Qed.

Lemma sort_by_key_sorted l : StronglySorted key_le (sort_by_key l).
Proof. induction l as [|x l IH]; simpl; [constructor|]. by apply insert_by_key_sorted. Qed.

End sort.

Lemma StronglySorted_snoc {A} (R : A -> A -> Prop) l x :
  StronglySorted R l -> Forall (fun y => R y x) l -> StronglySorted R (l ++ [x]).
Proof.
  induction 1 as [|y l Hl IH Hy]; cbn; intros HF; [by repeat constructor|].
  apply Forall_cons in HF as [Hyx HF]. constructor; [by apply IH|].
  apply Forall_app. by split; [|constructor].
Qed.

(** ** Hash maps *)

(** A [HashMap<String, A>] is a [gmap]; the order its iterators visit is not
    specified, so it is an operation of a class. *)
Class HashOrder := {
  hash_iter : forall {A}, gmap string A -> list (string * A);
}.
Class HashOrderLaws (H : HashOrder) : Prop := {
  hash_iter_perm {A} (m : gmap string A) : hash_iter m ≡ₚ map_to_list m;
}.

(** One such order, for concrete runs. *)
Definition key_order : HashOrder := {| hash_iter A m := map_to_list m |}.

#[export] Instance key_order_laws : HashOrderLaws key_order.
Proof. by split. Qed.

(** [HashMap::retain] on the values. *)
Definition retain {A} (p : A -> bool) (m : gmap string A) : gmap string A :=
  filter (fun kv => p kv.2 = true) m.

Lemma lookup_retain {A} (p : A -> bool) (m : gmap string A) k x :
  retain p m !! k = Some x <-> m !! k = Some x /\ p x = true.
Proof. apply map_lookup_filter_Some. Qed.

Lemma retain_subseteq {A} (p : A -> bool) (m : gmap string A) : retain p m ⊆ m.
Proof. apply map_filter_subseteq. Qed.

Lemma size_retain {A} (p : A -> bool) (m : gmap string A) : size (retain p m) <= size m.
Proof. apply map_subseteq_size, retain_subseteq. Qed.

Lemma size_insert_le {A} (m : gmap string A) k x : size (<[k := x]> m) <= S (size m).
Proof. rewrite map_size_insert. destruct (m !! k); simpl; lia. Qed.

Lemma hash_iter_elem {H : HashOrder} `{!HashOrderLaws H} {A} (m : gmap string A) k x :
  (k, x) ∈ hash_iter m <-> m !! k = Some x.
Proof. rewrite hash_iter_perm. apply elem_of_map_to_list. Qed.

(** Lookups in a map that was inserted into, deleted from or filtered. *)
Create HintDb lookups.
#[export] Hint Rewrite @lookup_insert_eq @lookup_delete_eq @lookup_empty : lookups.
#[export] Hint Resolve size_retain retain_subseteq map_size_empty : lookups.
