(* ===== verification/RustStr.v ===== *)
(** * Rust strings

    A Rust [&str] is its UTF-8 bytes, a Stdlib [string].  Byte-level methods
    ([contains], [starts_with], [to_ascii_lowercase], ...) are defined on the
    bytes; character-level methods ([chars], [trim], [split_whitespace]) group
    the bytes into characters first, and a [char] is represented by its UTF-8
    encoding.  Only the case and alphabet tables of Unicode are kept abstract,
    in the class [Unicode], whose laws fix them on ASCII. *)

From S2P Require Import Prelude.
From Stdlib Require Import Ascii String.
Local Open Scope string_scope.
Local Open Scope list_scope.

(** ** Bytes *)

Definition byte_in (lo hi : N) (a : ascii) : bool :=
  (lo <=? N_of_ascii a)%N && (N_of_ascii a <=? hi)%N.

Definition byte_is_ascii (a : ascii) : bool := (N_of_ascii a <? 128)%N.
Definition byte_is_digit : ascii -> bool := byte_in 48 57.
Definition byte_is_lower : ascii -> bool := byte_in 97 122.
Definition byte_is_upper : ascii -> bool := byte_in 65 90.
(** A continuation byte of a multi-byte UTF-8 sequence. *)
Definition byte_is_cont : ascii -> bool := byte_in 128 191.

Definition byte_to_lower (a : ascii) : ascii :=
  if byte_is_upper a then ascii_of_N (N_of_ascii a + 32) else a.

Definition byte_to_upper (a : ascii) : ascii :=
  if byte_is_lower a then ascii_of_N (N_of_ascii a - 32) else a.

Fixpoint smap (f : ascii -> ascii) (s : string) : string :=
  match s with "" => "" | String a s => String (f a) (smap f s) end.

Fixpoint sforall (p : ascii -> bool) (s : string) : bool :=
  match s with "" => true | String a s => p a && sforall p s end.

Fixpoint sexists (p : ascii -> bool) (s : string) : bool :=
  match s with "" => false | String a s => p a || sexists p s end.

Definition is_ascii (s : string) : bool := sforall byte_is_ascii s.
Definition to_ascii_lowercase (s : string) : string := smap byte_to_lower s.
Definition to_ascii_uppercase (s : string) : string := smap byte_to_upper s.
Definition eq_ignore_ascii_case (a b : string) : bool :=
  String.eqb (to_ascii_lowercase a) (to_ascii_lowercase b).

Definition is_empty (s : string) : bool :=
  match s with "" => true | _ => false end.
Definition nonempty (s : string) : bool := negb (is_empty s).

(** [Vec<u8>] of a string and back. *)
Fixpoint bytes (s : string) : list ascii :=
  match s with "" => [] | String a s => a :: bytes s end.
Fixpoint of_bytes (l : list ascii) : string :=
  match l with [] => "" | a :: l => String a (of_bytes l) end.

Lemma of_bytes_bytes s : of_bytes (bytes s) = s.
Proof. induction s; simpl; congruence. Qed.
Lemma bytes_of_bytes l : bytes (of_bytes l) = l.
Proof. induction l; simpl; congruence. Qed.
Lemma bytes_app s t : bytes (s +:+ t) = bytes s ++ bytes t.
Proof. induction s as [|a s IH]; [done|]. simpl. f_equal. exact IH. Qed.
Lemma of_bytes_app l k : of_bytes (l ++ k) = of_bytes l +:+ of_bytes k.
Proof.
  induction l as [|a l IH]; [done|].
  change (String a (of_bytes (l ++ k)) = String a (of_bytes l +:+ of_bytes k)). by rewrite IH.
Qed.
Lemma length_bytes s : List.length (bytes s) = String.length s.
Proof. induction s; simpl; congruence. Qed.
Lemma bytes_inj s t : bytes s = bytes t -> s = t.
Proof. intros H. by rewrite <- (of_bytes_bytes s), H, of_bytes_bytes. Qed.

(** ** Append *)

Lemma sapp_nil_l s : "" +:+ s = s.
Proof. done. Qed.
Lemma sapp_nil_r s : s +:+ "" = s.
Proof. induction s as [|a s IH]; [done|]. change (String a (s +:+ "") = String a s). by rewrite IH. Qed.
Lemma sapp_assoc s t u : s +:+ (t +:+ u) = (s +:+ t) +:+ u.
Proof. induction s as [|a s IH]; [done|]. change (String a (s +:+ (t +:+ u)) = String a ((s +:+ t) +:+ u)). by rewrite IH. Qed.
Lemma sapp_cons a s t : String a s +:+ t = String a (s +:+ t).
Proof. done. Qed.
Lemma length_sapp s t : String.length (s +:+ t) = String.length s + String.length t.
Proof. induction s as [|a s IH]; [done|]. rewrite sapp_cons. simpl. lia. Qed.

Lemma sforall_app p s t : sforall p (s +:+ t) = sforall p s && sforall p t.
Proof. induction s as [|a s IH]; [done|]. rewrite sapp_cons. simpl. by rewrite IH, andb_assoc. Qed.

Lemma smap_app f s t : smap f (s +:+ t) = smap f s +:+ smap f t.
Proof. induction s as [|a s IH]; [done|]. rewrite sapp_cons. simpl. by rewrite IH. Qed.

(** ** Prefixes, suffixes and substrings *)

Fixpoint starts_with (s p : string) {struct p} : bool :=
  match p, s with
  | "", _ => true
  | String a p', String b s' => Ascii.eqb a b && starts_with s' p'
  | String _ _, "" => false
  end.

Lemma starts_with_spec s p : starts_with s p = true <-> exists t, s = p +:+ t.
Proof.
  revert s. induction p as [|a p IH]; intros s; simpl.
  { split; [intros _; by exists s|done]. }
  destruct s as [|b s]; [split; [done|intros [t Ht]; by rewrite sapp_cons in Ht]|].
  rewrite andb_true_iff, Ascii.eqb_eq, IH. split.
  - intros [-> [t ->]]. by exists t.
  - intros [t Ht]. rewrite sapp_cons in Ht. injection Ht as -> ->. split; [done|by exists t].
Qed.

Fixpoint contains (s p : string) : bool :=
  starts_with s p || match s with "" => false | String _ s' => contains s' p end.

Lemma contains_spec s p : contains s p = true <-> exists l r, s = l +:+ (p +:+ r).
Proof.
  induction s as [|a s IH]; simpl.
  - rewrite orb_false_r, starts_with_spec. split.
    + intros [t Ht]. by exists "", t.
    + intros (l & r & H). destruct l; [by exists r|by rewrite sapp_cons in H].
  - rewrite orb_true_iff, IH, starts_with_spec. split.
    + intros [[t Ht]|(l & r & ->)]; [by exists "", t|]. by exists (String a l), r.
    + intros (l & r & H). destruct l as [|b l]; [left; by exists r|right].
      rewrite sapp_cons in H. exists l, r. congruence.
Qed.

Lemma contains_trans s p q :
  contains s p = true -> contains p q = true -> contains s q = true.
Proof.
  rewrite !contains_spec. intros (l & r & ->) (l' & r' & ->).
  exists (l +:+ l'), (r' +:+ r). by rewrite !sapp_assoc.
Qed.

Lemma contains_app_l s t p : contains s p = true -> contains (s +:+ t) p = true.
Proof.
  rewrite !contains_spec. intros (l & r & ->). exists l, (r +:+ t). by rewrite !sapp_assoc.
Qed.
Lemma contains_app_r s t p : contains t p = true -> contains (s +:+ t) p = true.
Proof.
  rewrite !contains_spec. intros (l & r & ->). exists (s +:+ l), r. by rewrite !sapp_assoc.
Qed.
Lemma starts_with_contains s p : starts_with s p = true -> contains s p = true.
Proof. rewrite starts_with_spec, contains_spec. intros [t ->]. by exists "", t. Qed.

Definition contains_any (s : string) (ps : list string) : bool := existsb (contains s) ps.
Definition starts_any (s : string) (ps : list string) : bool := existsb (starts_with s) ps.
Definition is_one_of (s : string) (l : list string) : bool := existsb (String.eqb s) l.

(** [s.split_once(p)]: around the first occurrence; [s.find(p)] is the length
    of the first part. *)
Fixpoint sdrop (n : nat) (s : string) : string :=
  match n, s with S n, String _ s => sdrop n s | _, _ => s end.

Fixpoint split_once (s p : string) : option (string * string) :=
  if starts_with s p then Some ("", sdrop (String.length p) s)
  else match s with
       | "" => None
       | String a s' =>
           match split_once s' p with
           | Some (l, r) => Some (String a l, r)
           | None => None
           end
       end.

Lemma sdrop_app s t : sdrop (String.length s) (s +:+ t) = t.
Proof. induction s as [|a s IH]; [by destruct t|]. done. Qed.

Lemma split_once_Some s p l r : split_once s p = Some (l, r) -> s = l +:+ (p +:+ r).
Proof.
  revert l. induction s as [|a s IH]; intros l; simpl.
  - destruct (starts_with "" p) eqn:Hs; [|done]. intros [= <- <-].
    apply starts_with_spec in Hs as [t Ht]. destruct p; [|by rewrite sapp_cons in Ht]. done.
  - destruct (starts_with _ p) eqn:Hs.
    + intros [= <- <-]. apply starts_with_spec in Hs as [t Ht]. rewrite Ht, sdrop_app. done.
    + destruct (split_once s p) as [[l' r']|]; [|done]. intros [= <- <-].
      rewrite sapp_cons. f_equal. by apply IH.
Qed.

Lemma split_once_None s p : split_once s p = None <-> contains s p = false.
Proof.
  induction s as [|a s IH]; simpl; destruct (starts_with _ p); simpl; try done.
  destruct (split_once s p) as [[??]|]; naive_solver.
Qed.

Definition strip_prefix (s p : string) : option string :=
  if starts_with s p then Some (sdrop (String.length p) s) else None.

Fixpoint ends_with (s p : string) : bool :=
  String.eqb s p || match s with "" => false | String _ s' => ends_with s' p end.

Lemma ends_with_spec s p : ends_with s p = true <-> exists l, s = l +:+ p.
Proof.
  induction s as [|a s IH]; cbn [ends_with]; rewrite orb_true_iff, String.eqb_eq.
  - split; [intros [<-|?]; [by exists ""|done]|].
    intros [l H]. left. by destruct l; [|rewrite sapp_cons in H].
  - rewrite IH. split.
    + intros [<-|[l ->]]; [by exists ""|by exists (String a l)].
    + intros [[|b l] H]; [by left|right]. rewrite sapp_cons in H. exists l. congruence.
Qed.

(** [str::strip_suffix], [str::rsplit_once] and trimming by a pattern. *)
Definition strip_suffix (s p : string) : option string :=
  if ends_with s p then Some (String.substring 0 (String.length s - String.length p) s) else None.

Fixpoint rsplit_once (s p : string) : option (string * string) :=
  match s with
  | "" => match p with "" => Some ("", "") | _ => None end
  | String a s' =>
      match rsplit_once s' p with
      | Some (l, r) => Some (String a l, r)
      | None => (fun r => ("", r)) <$> strip_prefix s p
      end
  end.

Fixpoint trim_end_fuel (n : nat) (s p : string) : string :=
  match n with
  | 0 => s
  | S n => match strip_suffix s p with Some s => trim_end_fuel n s p | None => s end
  end.
Definition trim_end_str (s p : string) : string := trim_end_fuel (String.length s) s p.

Fixpoint trim_start_fuel (n : nat) (s p : string) : string :=
  match n with
  | 0 => s
  | S n => match strip_prefix s p with Some s => trim_start_fuel n s p | None => s end
  end.
Definition trim_start_str (s p : string) : string := trim_start_fuel (String.length s) s p.

(** [s.replace(p, r)] for a non-empty pattern: left to right, no overlap. *)
Fixpoint replace_fuel (n : nat) (s p r : string) : string :=
  match n with
  | O => s
  | S n =>
      match split_once s p with
      | Some (l, t) => l +:+ r +:+ replace_fuel n t p r
      | None => s
      end
  end.
Definition replace (s p r : string) : string := replace_fuel (S (String.length s)) s p r.

(** ** Characters *)

(** One character: a lead byte and the continuation bytes after it. *)
Fixpoint chars (s : string) : list string :=
  match s with
  | "" => []
  | String a s' =>
      match chars s' with
      | (String b _ as c) :: cs =>
          if byte_is_cont b then String a c :: cs else String a "" :: c :: cs
      | cs => String a "" :: cs
      end
  end.

Definition concat_str (l : list string) : string := foldr String.append "" l.

Lemma concat_str_cons a l : concat_str (a :: l) = a +:+ concat_str l.
Proof. done. Qed.

Lemma concat_str_app l k : concat_str (l ++ k) = concat_str l +:+ concat_str k.
Proof.
  induction l as [|a l IH]; [done|].
  change ((a :: l) ++ k) with (a :: (l ++ k)). by rewrite !concat_str_cons, IH, sapp_assoc.
Qed.

Lemma concat_chars s : concat_str (chars s) = s.
Proof.
  induction s as [|a s IH]; [done|]. cbn [chars].
  destruct (chars s) as [|[|b c] cs] eqn:E.
  - by rewrite <- IH.
  - rewrite concat_str_cons, sapp_cons, IH. done.
  - destruct (byte_is_cont b); rewrite concat_str_cons, !sapp_cons; by rewrite <- IH.
Qed.

Lemma chars_nonempty s c : c ∈ chars s -> c <> "".
Proof.
  revert c. induction s as [|a s IH]; intros c; cbn [chars]; [set_solver|].
  destruct (chars s) as [|[|b d] cs] eqn:E; [set_solver|set_solver|].
  destruct (byte_is_cont b); intros Hc; apply elem_of_cons in Hc as [->|Hc]; try done.
  - apply IH. set_solver.
  - by apply IH.
Qed.

(** A string of ASCII bytes: one character per byte. *)
Definition char_of (a : ascii) : string := String a "".
Definition dquote : string := char_of (ascii_of_nat 34).
Definition newline : string := char_of (ascii_of_nat 10).

Lemma byte_ascii_not_cont a : byte_is_ascii a = true -> byte_is_cont a = false.
Proof.
  unfold byte_is_ascii, byte_is_cont, byte_in. intros H. apply N.ltb_lt in H.
  apply andb_false_iff. left. apply N.leb_gt. lia.
Qed.

Lemma chars_ascii s : is_ascii s = true -> chars s = char_of <$> bytes s.
Proof.
  unfold is_ascii. induction s as [|a s IH]; [done|]. cbn [sforall]. intros H. bool_to_prop.
  cbn [chars bytes fmap list_fmap]. rewrite IH by done.
  destruct s as [|b s]; [done|]. cbn [sforall] in *. bool_to_prop.
  cbn [bytes fmap list_fmap]. unfold char_of at 1. by rewrite byte_ascii_not_cont.
Qed.

(** The first byte decides a boundary: characters of an append split there
    when the second part does not start inside a character. *)
Definition starts_char (s : string) : bool :=
  match s with "" => true | String b _ => negb (byte_is_cont b) end.

Lemma chars_head s b c cs : chars s = String b c :: cs -> exists s', s = String b s'.
Proof.
  destruct s as [|a s]; [done|]. cbn [chars].
  destruct (chars s) as [|[|d e] ds]; [naive_solver|naive_solver|].
  destruct (byte_is_cont d); naive_solver.
Qed.

Lemma chars_cons_nil a s : chars (String a s) <> [].
Proof. cbn [chars]. destruct (chars s) as [|[|d e] ds]; [done|done|]. by destruct (byte_is_cont d). Qed.

Lemma chars_app s t : starts_char t = true -> chars (s +:+ t) = chars s ++ chars t.
Proof.
  intros Ht. induction s as [|a s IH]; [done|]. rewrite sapp_cons. cbn [chars].
  rewrite IH. destruct (chars s) as [|c cs] eqn:E; cbn [app].
  - destruct (chars t) as [|[|b c] cs'] eqn:Et; [done|done|].
    destruct (chars_head _ _ _ _ Et) as [t' ->]. cbn [starts_char] in Ht. bool_to_prop.
    by rewrite Ht.
  - destruct c as [|b c]; [done|]. by destruct (byte_is_cont b).
Qed.

(** ASCII classes of a character. *)
Definition char_byte (p : ascii -> bool) (c : string) : bool :=
  match c with String a "" => p a | _ => false end.
Definition is_ascii_digit : string -> bool := char_byte byte_is_digit.

(** [char::is_whitespace]: the code points with property White_Space. *)
Definition utf8 (l : list N) : string := of_bytes (ascii_of_N <$> l).
Definition whitespace_chars : list string :=
  (utf8 <$> [[9]; [10]; [11]; [12]; [13]; [32]; [194; 133]; [194; 160]; [225; 154; 128];
             [226; 128; 128]; [226; 128; 129]; [226; 128; 130]; [226; 128; 131];
             [226; 128; 132]; [226; 128; 133]; [226; 128; 134]; [226; 128; 135];
             [226; 128; 136]; [226; 128; 137]; [226; 128; 138]; [226; 128; 168];
             [226; 128; 169]; [226; 128; 175]; [226; 129; 159]; [227; 128; 128]])%N.
Definition is_whitespace (c : string) : bool := existsb (String.eqb c) whitespace_chars.

(** [str::trim]. *)
Definition trim_end_matches (p : string -> bool) (s : string) : string :=
  concat_str (reverse (drop_while p (reverse (chars s)))).
Definition trim_start_matches (p : string -> bool) (s : string) : string :=
  concat_str (drop_while p (chars s)).
Definition trim_matches (p : string -> bool) (s : string) : string := trim_end_matches p (trim_start_matches p s).
Definition trim (s : string) : string :=
  concat_str (reverse (drop_while is_whitespace (reverse (drop_while is_whitespace (chars s))))).

Definition trim_start (s : string) : string := trim_start_matches is_whitespace s.
Definition trim_end (s : string) : string := trim_end_matches is_whitespace s.

(** [str::split_whitespace]. *)
Fixpoint words_of (cur : string) (cs : list string) : list string :=
  match cs with
  | [] => if is_empty cur then [] else [cur]
  | c :: cs =>
      if is_whitespace c
      then (if is_empty cur then words_of "" cs else cur :: words_of "" cs)
      else words_of (cur +:+ c) cs
  end.
Definition split_whitespace (s : string) : list string := words_of "" (chars s).

(** One of the words of a text is on a list. *)
Definition names_word (s : string) (l : list string) : bool := existsb (fun w => is_one_of w l) (split_whitespace s).

(** [str::split(p)] on a one-character pattern. *)
Fixpoint split_aux (p cur : string) (cs : list string) : list string :=
  match cs with
  | [] => [cur]
  | c :: cs => if String.eqb c p then cur :: split_aux p "" cs else split_aux p (cur +:+ c) cs
  end.
Definition split_char (s p : string) : list string := split_aux p "" (chars s).

(** [str::split] on a class of characters. *)
Fixpoint split_where_aux (p : string -> bool) (cur : string) (cs : list string) : list string :=
  match cs with
  | [] => [cur]
  | c :: cs => if p c then cur :: split_where_aux p "" cs else split_where_aux p (cur +:+ c) cs
  end.
Definition split_where (p : string -> bool) (s : string) : list string := split_where_aux p "" (chars s).

(** [str::lines]: a carriage return is dropped only before its line feed. *)
Fixpoint lines_aux (cur : string) (cs : list string) : list string :=
  match cs with
  | [] => if is_empty cur then [] else [cur]
  | c :: cs =>
      if String.eqb c newline
      then default cur (strip_suffix cur (char_of (ascii_of_nat 13))) :: lines_aux "" cs
      else lines_aux (cur +:+ c) cs
  end.
Definition lines_of (s : string) : list string := lines_aux "" (chars s).

(** [slice::join]. *)
Fixpoint join (sep : string) (l : list string) : string :=
  match l with
  | [] => ""
  | [x] => x
  | x :: l => x +:+ sep +:+ join sep l
  end.

(** ** Unicode tables *)

(** [str::to_lowercase], [str::to_uppercase], [char::is_alphanumeric],
    [char::is_alphabetic] and [char::is_uppercase] read the Unicode tables of the
    standard library; here they are operations of a class. *)
Class Unicode := {
  to_lowercase : string -> string;
  to_uppercase : string -> string;
  is_alphanumeric : string -> bool;
  is_alphabetic : string -> bool;
  is_uppercase : string -> bool;
}.

Definition byte_is_alpha (a : ascii) : bool := byte_is_lower a || byte_is_upper a.
Definition is_ascii_alphanumeric (a : ascii) : bool := byte_is_alpha a || byte_is_digit a.
Definition is_ascii_whitespace (a : ascii) : bool :=
  existsb (Ascii.eqb a) (ascii_of_N <$> [9; 10; 12; 13; 32]%N).

(** What is fixed of the tables: they agree with ASCII on ASCII. *)
Class UnicodeLaws (U : Unicode) : Prop := {
  to_lowercase_ascii s : is_ascii s = true -> to_lowercase s = to_ascii_lowercase s;
  to_uppercase_ascii s : is_ascii s = true -> to_uppercase s = to_ascii_uppercase s;
  is_alphabetic_ascii a : byte_is_ascii a = true -> is_alphabetic (char_of a) = byte_is_alpha a;
  is_alphanumeric_ascii a :
    byte_is_ascii a = true -> is_alphanumeric (char_of a) = byte_is_alpha a || byte_is_digit a;
  is_uppercase_ascii a : byte_is_ascii a = true -> is_uppercase (char_of a) = byte_is_upper a;
}.

(** The tables restricted to ASCII, for concrete runs. *)
Definition ascii_tables : Unicode := {|
  to_lowercase := to_ascii_lowercase;
  to_uppercase := to_ascii_uppercase;
  is_alphanumeric := char_byte (fun a => byte_is_alpha a || byte_is_digit a);
  is_alphabetic := char_byte byte_is_alpha;
  is_uppercase := char_byte byte_is_upper;
|}.

#[export] Instance ascii_tables_laws : UnicodeLaws ascii_tables.
Proof. by split. Qed.

(** ** Lemmas on trimming *)

Lemma trim_no_whitespace s :
  Forall (fun c => is_whitespace c = false) (chars s) -> trim s = s.
Proof.
  intros H. unfold trim. rewrite (drop_while_none _ (chars s)) by done.
  rewrite drop_while_none, reverse_involutive by by apply Forall_reverse.
  apply concat_chars.
Qed.

Lemma sforall_bytes p s : sforall p s = true <-> Forall (fun a => p a = true) (bytes s).
Proof.
  induction s as [|a s IH]; cbn [sforall bytes]; [by split|].
  rewrite andb_true_iff, Forall_cons, IH. done.
Qed.

Lemma sforall_impl (p q : ascii -> bool) s :
  (forall a, p a = true -> q a = true) -> sforall p s = true -> sforall q s = true.
Proof. intros Hpq. rewrite !sforall_bytes. intros H. eapply Forall_impl; [exact H|]. auto. Qed.

Lemma smap_id f s : sforall (fun a => Ascii.eqb (f a) a) s = true -> smap f s = s.
Proof.
  induction s as [|a s IH]; cbn [sforall smap]; [done|]. intros H. bool_to_prop.
  rewrite IH by done. f_equal. by apply Ascii.eqb_eq.
Qed.

(** Facts about a single byte are decided by running over all 256. *)
Definition all_bytes : list ascii := ascii_of_nat <$> seq 0 256.

Lemma all_bytes_complete a : a ∈ all_bytes.
Proof.
  unfold all_bytes. apply list_elem_of_fmap. exists (nat_of_ascii a).
  split; [by rewrite ascii_nat_embedding|]. apply elem_of_seq.
  pose proof (nat_ascii_bounded a). lia.
Qed.

Lemma byte_forall (p : ascii -> bool) : forallb p all_bytes = true -> forall a, p a = true.
Proof. rewrite forallb_elem. intros H a. apply H, all_bytes_complete. Qed.

Lemma byte_forall2 (p q : ascii -> bool) :
  forallb (fun a => implb (p a) (q a)) all_bytes = true ->
  forall a, p a = true -> q a = true.
Proof. intros H a Ha. pose proof (byte_forall _ H a) as Hi. cbn in Hi. by rewrite Ha in Hi. Qed.

Lemma is_ascii_forall s : is_ascii s = true -> chars s = char_of <$> bytes s.
Proof. apply chars_ascii. Qed.

(** A string whose bytes are all ASCII and not white space is not changed by
    [trim]. *)
Lemma trim_ascii_id (p : ascii -> bool) s :
  forallb (fun a => implb (p a) (byte_is_ascii a && negb (is_whitespace (char_of a)))) all_bytes = true ->
  sforall p s = true -> trim s = s.
Proof.
  intros Hp Hs. pose proof (byte_forall2 _ _ Hp) as Hi.
  apply trim_no_whitespace. rewrite chars_ascii.
  - apply Forall_fmap. apply sforall_bytes in Hs. eapply Forall_impl; [exact Hs|].
    intros a Ha. cbn. apply Hi in Ha. bool_to_prop. done.
  - unfold is_ascii. eapply sforall_impl; [|exact Hs]. intros a Ha. apply Hi in Ha. by bool_to_prop.
Qed.

(** Membership in a list of strings, decided by [String.eqb]. *)
Lemma eqb_elem s (l : list string) : existsb (String.eqb s) l = true <-> s ∈ l.
Proof.
  rewrite existsb_elem. split.
  - intros (t & Ht & E). by apply String.eqb_eq in E as ->.
  - intros H. exists s. by rewrite String.eqb_refl.
Qed.

(** ** Lemmas on splitting *)

(** The first separator of one byte. *)
Lemma split_once_first s t c :
  sforall (fun a => negb (Ascii.eqb a c)) s = true ->
  split_once (s +:+ String c t) (char_of c) = Some (s, t).
Proof.
  induction s as [|a s IH]; rewrite ?sapp_nil_l, ?sapp_cons; intros H.
  - cbn [split_once starts_with char_of]. rewrite Ascii.eqb_refl. by destruct t.
  - cbn [sforall] in H. apply andb_true_iff in H as [Ha Hs]. cbn [split_once starts_with char_of].
    rewrite Ascii.eqb_sym. apply negb_true_iff in Ha. rewrite Ha. cbn [andb].
    fold (char_of c). by rewrite IH.
Qed.

(** White space around a text. *)
Lemma trim_white_start c s : is_whitespace (char_of c) = true -> byte_is_ascii c = true ->
  starts_char s = true -> trim (String c s) = trim s.
Proof.
  intros Hc Ha Hs. unfold trim. change (String c s) with (char_of c +:+ s).
  rewrite chars_app by done. rewrite (chars_ascii (char_of c)) by (unfold is_ascii; cbn; by rewrite Ha).
  cbn [bytes char_of fmap list_fmap app drop_while]. fold (char_of c). by rewrite Hc.
Qed.

Lemma ascii_starts_char s : is_ascii s = true -> starts_char s = true.
Proof.
  destruct s as [|a s]; [done|]. unfold is_ascii. cbn [sforall]. intros H.
  apply andb_true_iff in H as [H _]. unfold starts_char. by rewrite byte_ascii_not_cont.
Qed.

(** A word of the text, and the rest after its white space. *)
Lemma words_of_word cur w cs :
  Forall (fun c => is_whitespace c = false) w ->
  words_of cur (w ++ cs) = words_of (cur +:+ concat_str w) cs.
Proof.
  revert cur. induction w as [|c w IH]; intros cur H; cbn [app words_of concat_str foldr].
  { by rewrite sapp_nil_r. }
  apply Forall_cons in H as [Hc Hw]. rewrite Hc, IH by done. f_equal. by rewrite <- sapp_assoc.
Qed.

Lemma split_whitespace_word w c t :
  is_ascii w = true -> sforall (fun a => negb (is_whitespace (char_of a))) w = true -> w <> "" ->
  byte_is_ascii c = true -> is_whitespace (char_of c) = true -> starts_char t = true ->
  split_whitespace (w +:+ String c t) = w :: split_whitespace t.
Proof.
  intros Ha Hw Hne Hca Hc Ht. unfold split_whitespace.
  assert (starts_char (String c t) = true) as Hs by (unfold starts_char; by rewrite byte_ascii_not_cont).
  rewrite chars_app by done. change (String c t) with (char_of c +:+ t). rewrite (chars_app (char_of c)) by done.
  rewrite (chars_ascii (char_of c)) by (unfold is_ascii; cbn; by rewrite Hca).
  rewrite words_of_word.
  - rewrite sapp_nil_l, concat_chars. cbn [bytes char_of fmap list_fmap app words_of]. fold (char_of c).
    rewrite Hc. by destruct w.
  - rewrite chars_ascii by done. apply Forall_fmap. apply sforall_bytes in Hw.
    eapply Forall_impl; [exact Hw|]. intros a H. by apply negb_true_iff in H.
Qed.

(** ** Characters of a part of a text *)

Lemma chars_tail s c cs : chars s = c :: cs -> chars (concat_str cs) = cs /\ starts_char (concat_str cs) = true.
Proof.
  revert c cs. induction s as [|a s IH]; intros c cs; [done|]. cbn [chars].
  destruct (chars s) as [|[|b d] ds] eqn:E.
  - intros [= _ <-]. done.
  - exfalso. apply (chars_nonempty s ""); [rewrite E; set_solver|done].
  - destruct (byte_is_cont b) eqn:Hb; intros [= _ <-]; [by apply (IH (String b d))|].
    rewrite <- E, concat_chars. split; [done|]. destruct (chars_head _ _ _ _ E) as [s' ->].
    cbn [starts_char]. by rewrite Hb.
Qed.

Lemma chars_suffix l cs s :
  chars s = l ++ cs -> chars (concat_str cs) = cs /\ (l <> [] -> starts_char (concat_str cs) = true).
Proof.
  revert s. induction l as [|c l IH]; intros s H.
  - rewrite app_nil_l in H. by rewrite <- H, concat_chars.
  - rewrite <- app_comm_cons in H. apply chars_tail in H as [H Hs]. split; [exact (proj1 (IH _ H))|].
    intros _. destruct l as [|d l]; [done|]. by apply IH in H as [_ H]; apply H.
Qed.

Lemma chars_prefix l cs s : chars s = l ++ cs -> chars (concat_str l) = l.
Proof.
  destruct l as [|c l]; [done|]. intros H. destruct (chars_suffix _ _ _ H) as [Hc Hs].
  specialize (Hs ltac:(done)). pose proof H as E. rewrite <- (concat_chars s), H, concat_str_app, chars_app in E by done.
  rewrite Hc in E. by apply app_inv_tail in E.
Qed.

Lemma chars_segment l m k s : chars s = l ++ (m ++ k) -> chars (concat_str m) = m.
Proof. intros H. destruct (chars_suffix _ _ _ H) as [Hs _]. by apply chars_prefix in Hs. Qed.

Lemma drop_while_idem {A} p (l : list A) : drop_while p (drop_while p l) = drop_while p l.
Proof.
  destruct (drop_while p l) as [|x r] eqn:E; [done|]. apply drop_while_hd in E. cbn [drop_while]. by rewrite E.
Qed.

Lemma chars_trim s :
  chars (trim s) = reverse (drop_while is_whitespace (reverse (drop_while is_whitespace (chars s)))).
Proof.
  set (t := drop_while is_whitespace (chars s)).
  destruct (drop_while_suffix is_whitespace (reverse t)) as [k Hk].
  apply (f_equal reverse) in Hk. rewrite reverse_involutive, reverse_app in Hk.
  destruct (drop_while_suffix is_whitespace (chars s)) as [l Hl]. fold t in Hl. rewrite Hk in Hl.
  by apply chars_segment in Hl.
Qed.

Lemma trim_idem s : trim (trim s) = trim s.
Proof.
  unfold trim at 1. rewrite chars_trim. set (t := drop_while is_whitespace (chars s)).
  set (m := reverse (drop_while is_whitespace (reverse t))).
  assert (drop_while is_whitespace m = m) as Hd.
  { destruct m as [|x r] eqn:E; [done|]. assert (is_whitespace x = false) as Hx.
    { destruct (drop_while_suffix is_whitespace (reverse t)) as [k Hk]. apply (f_equal reverse) in Hk.
      rewrite reverse_involutive, reverse_app in Hk. fold m in Hk. rewrite E in Hk. by apply (drop_while_hd _ (chars s) x (r ++ reverse k)). }
    cbn [drop_while]. by rewrite Hx. }
  rewrite Hd. unfold m at 1. by rewrite reverse_involutive, drop_while_idem.
Qed.

(** ** Folding the case of ASCII letters *)

(** Texts without letters: folding the case of another text neither makes nor
    removes them. *)
Definition caseless (p : string) : bool := sforall (fun a => negb (byte_is_alpha a)) p.

Lemma lower_caseless a b : byte_is_alpha b = false -> byte_to_lower a = b <-> a = b.
Proof.
  intros Hb. split.
  - intros <-. apply Ascii.eqb_eq.
    apply (byte_forall2 (fun a => negb (byte_is_alpha (byte_to_lower a))) (fun a => Ascii.eqb a (byte_to_lower a)));
      [by vm_compute|by rewrite Hb].
  - intros ->. apply Ascii.eqb_eq.
    apply (byte_forall2 (fun a => negb (byte_is_alpha a)) (fun a => Ascii.eqb (byte_to_lower a) a));
      [by vm_compute|by rewrite Hb].
Qed.

Lemma lower_eqb a b : byte_is_alpha b = false -> Ascii.eqb (byte_to_lower a) b = Ascii.eqb a b.
Proof. intros Hb. apply eq_bool_prop_intro. rewrite !Is_true_true, !Ascii.eqb_eq. by apply lower_caseless. Qed.

Lemma lower_seqb s p : caseless p = true -> String.eqb (to_ascii_lowercase s) p = String.eqb s p.
Proof.
  revert p. induction s as [|a s IH]; intros [|b p]; try done. unfold caseless. cbn [sforall]. intros H. bool_to_prop.
  unfold to_ascii_lowercase. cbn [smap String.eqb]. fold (to_ascii_lowercase s). rewrite lower_eqb by done.
  by rewrite IH.
Qed.

Lemma lower_starts_with s p : caseless p = true -> starts_with (to_ascii_lowercase s) p = starts_with s p.
Proof.
  revert s. induction p as [|b p IH]; intros [|a s]; try done. unfold caseless. cbn [sforall]. intros H. bool_to_prop.
  unfold to_ascii_lowercase. cbn [smap starts_with]. fold (to_ascii_lowercase s).
  rewrite (Ascii.eqb_sym b), (Ascii.eqb_sym b a), lower_eqb, IH by done. done.
Qed.

Lemma lower_chars s : chars (to_ascii_lowercase s) = to_ascii_lowercase <$> chars s.
Proof.
  induction s as [|a s IH]; [done|]. unfold to_ascii_lowercase. cbn [smap chars]. fold (to_ascii_lowercase s).
  rewrite IH. destruct (chars s) as [|[|b c] cs]; try done.
  cbn [fmap list_fmap]. unfold to_ascii_lowercase at 1. cbn [smap].
  assert (byte_is_cont (byte_to_lower b) = byte_is_cont b) as ->.
  { apply eqb_prop. apply (byte_forall (fun b => Bool.eqb (byte_is_cont (byte_to_lower b)) (byte_is_cont b))).
    by vm_compute. }
  by destruct (byte_is_cont b).
Qed.

Lemma lower_concat l : concat_str (to_ascii_lowercase <$> l) = to_ascii_lowercase (concat_str l).
Proof.
  induction l as [|c l IH]; [done|]. cbn [fmap list_fmap]. rewrite !concat_str_cons. unfold to_ascii_lowercase in *.
  by rewrite smap_app, IH.
Qed.

Lemma lower_is_whitespace c : is_whitespace (to_ascii_lowercase c) = is_whitespace c.
Proof.
  unfold is_whitespace. assert (forallb caseless whitespace_chars = true) as H by by vm_compute.
  induction whitespace_chars as [|w l IH]; [done|]. cbn [forallb existsb] in *. bool_to_prop.
  by rewrite lower_seqb, IH.
Qed.

Lemma drop_while_fmap {A B} (p : B -> bool) (q : A -> bool) (f : A -> B) l :
  (forall x, p (f x) = q x) -> drop_while p (f <$> l) = f <$> drop_while q l.
Proof. intros H. induction l as [|x l IH]; [done|]. cbn [fmap list_fmap drop_while]. rewrite H. by destruct (q x). Qed.

Lemma lower_trim s : trim (to_ascii_lowercase s) = to_ascii_lowercase (trim s).
Proof.
  unfold trim. rewrite lower_chars, (drop_while_fmap _ is_whitespace) by apply lower_is_whitespace.
  rewrite <- fmap_reverse, (drop_while_fmap _ is_whitespace), <- fmap_reverse by apply lower_is_whitespace.
  apply lower_concat.
Qed.

Lemma length_lower s : String.length (to_ascii_lowercase s) = String.length s.
Proof. induction s as [|a s IH]; [done|]. cbn. f_equal. exact IH. Qed.

Lemma lower_idem s : to_ascii_lowercase (to_ascii_lowercase s) = to_ascii_lowercase s.
Proof.
  induction s as [|a s IH]; [done|]. unfold to_ascii_lowercase in *. cbn [smap]. rewrite IH. f_equal.
  apply Ascii.eqb_eq. revert a. apply byte_forall. by vm_compute.
Qed.

Lemma lower_app s t : to_ascii_lowercase (s +:+ t) = to_ascii_lowercase s +:+ to_ascii_lowercase t.
Proof. apply smap_app. Qed.

Lemma lower_split_char s p :
  caseless p = true -> split_char (to_ascii_lowercase s) p = to_ascii_lowercase <$> split_char s p.
Proof.
  intros Hp. unfold split_char. rewrite lower_chars. change "" with (to_ascii_lowercase "") at 1. generalize "".
  induction (chars s) as [|c cs IH]; intros cur; [done|]. cbn [fmap list_fmap split_aux].
  rewrite lower_seqb by done. destruct (String.eqb c p).
  - cbn [fmap list_fmap]. f_equal. apply (IH "").
  - by rewrite <- lower_app, IH.
Qed.

Lemma lower_sdrop n s : sdrop n (to_ascii_lowercase s) = to_ascii_lowercase (sdrop n s).
Proof. revert n. induction s as [|a s IH]; intros [|n]; try done. cbn. apply IH. Qed.

Lemma lower_split_once s p :
  caseless p = true ->
  split_once (to_ascii_lowercase s) p = prod_map to_ascii_lowercase to_ascii_lowercase <$> split_once s p.
Proof.
  intros Hp. induction s as [|a s IH].
  - change (to_ascii_lowercase "") with "". cbn [split_once]. destruct (starts_with "" p); [|done].
    by destruct (String.length p).
  - change (to_ascii_lowercase (String a s)) with (String (byte_to_lower a) (to_ascii_lowercase s)).
    cbn [split_once].
    change (String (byte_to_lower a) (to_ascii_lowercase s)) with (to_ascii_lowercase (String a s)).
    rewrite lower_starts_with by done. destruct (starts_with (String a s) p).
    + by rewrite lower_sdrop.
    + rewrite IH. by destruct (split_once s p) as [[]|].
Qed.
