(* ===== verification/RustNum.v ===== *)
(** * Rust numbers

    [u64], [u32] and [usize] values are [N] or [nat] with their bounds written
    out where the code relies on them; [f64] and [f32] are IEEE 754 binary64
    and binary32 values of the Standard Library's [SpecFloat], so arithmetic,
    comparison and parsing compute inside the kernel with the rounding the
    hardware has. *)

From S2P Require Import Prelude RustStr.
From Stdlib Require Import Ascii String.
From Stdlib Require Export SpecFloat.
Local Open Scope string_scope.
Local Open Scope list_scope.

(** ** Unsigned integers *)

Definition u64_max : N := 18446744073709551615.
Definition u32_max : N := 4294967295.
Definition u16_max : N := 65535.
Definition u8_max : N := 255.

(** The [{:x}] of [format!]. *)
Fixpoint lower_hex_from (fuel : nat) (n : N) (acc : string) : string :=
  match fuel with
  | O => acc
  | S fuel =>
      let d := (n mod 16)%N in
      let acc := String (ascii_of_N (if (d <? 10)%N then 48 + d else 87 + d)) acc in
      if (n <? 16)%N then acc else lower_hex_from fuel (n / 16) acc
  end.
Definition show_hex (n : N) : string := lower_hex_from (S (N.to_nat (N.log2 n))) n "".

(** [wrapping_add] and the plain [+] of a release build. *)
Definition u64_wrap (n : N) : N := (n mod 18446744073709551616)%N.
Definition u32_wrap (n : N) : N := (n mod 4294967296)%N.

(** [checked_add], [checked_mul], [saturating_add], [saturating_mul];
    [saturating_sub] is [N.sub]. *)
Definition u64_checked (n : N) : option N := if (n <=? u64_max)%N then Some n else None.
Definition u64_saturate (n : N) : N := N.min n u64_max.

Lemma u64_wrap_small n : (n <= u64_max)%N -> u64_wrap n = n.
Proof. unfold u64_wrap, u64_max. intros. apply N.mod_small. lia. Qed.

Lemma u64_saturate_le n : (u64_saturate n <= u64_max)%N.
Proof. unfold u64_saturate. lia. Qed.

(** ** Decimal text *)

Definition digit_char (d : N) : ascii := ascii_of_N (48 + d).
Definition digit_val (a : ascii) : N := (N_of_ascii a - 48)%N.

Fixpoint show_aux (fuel : nat) (n : N) (acc : string) : string :=
  match fuel with
  | O => acc
  | S fuel =>
      let acc := String (digit_char (n mod 10)) acc in
      if (n <? 10)%N then acc else show_aux fuel (n / 10) acc
  end.

(** [n.to_string()]. *)
Definition show_N (n : N) : string := show_aux (S (N.to_nat (N.log2 n))) n "".
Definition show_nat (n : nat) : string := show_N (N.of_nat n).
Definition show_Z (z : Z) : string :=
  if (z <? 0)%Z then "-" +:+ show_N (Z.to_N (- z)) else show_N (Z.to_N z).

Fixpoint digits_val (s : string) (acc : N) : option N :=
  match s with
  | "" => Some acc
  | String a s => if byte_is_digit a then digits_val s (acc * 10 + digit_val a) else None
  end.

(** [str::parse] for the unsigned type with largest value [max]: an optional
    ['+'], then at least one digit, and no overflow. *)
Definition parse_uint (max : N) (s : string) : option N :=
  let body := match s with String "+" s' => s' | _ => s end in
  if is_empty body then None
  else match digits_val body 0 with
       | Some n => if (n <=? max)%N then Some n else None
       | None => None
       end.

Definition parse_u64 : string -> option N := parse_uint u64_max.
Definition parse_u32 : string -> option N := parse_uint u32_max.
Definition parse_u16 : string -> option N := parse_uint u16_max.
Definition parse_u8 : string -> option N := parse_uint u8_max.

Lemma digit_char_val d : (d < 10)%N -> digit_val (digit_char d) = d.
Proof.
  intros Hd. unfold digit_val, digit_char. rewrite N_ascii_embedding by lia. lia.
Qed.

Lemma digit_char_is_digit d : (d < 10)%N -> byte_is_digit (digit_char d) = true.
Proof.
  intros Hd. unfold byte_is_digit, byte_in, digit_char. rewrite N_ascii_embedding by lia.
  apply andb_true_iff. rewrite !N.leb_le. lia.
Qed.

Lemma digits_val_show_aux fuel n t :
  (n < 10 ^ N.of_nat fuel)%N -> digits_val (show_aux fuel n t) 0 = digits_val t n.
Proof.
  revert n t. induction fuel as [|fuel IH]; intros n t Hn; cbn [show_aux].
  { simpl in Hn. assert (n = 0)%N as -> by lia. done. }
  assert (n mod 10 < 10)%N as Hd by (apply N.mod_lt; lia).
  destruct (n <? 10)%N eqn:E; bool_to_prop.
  - cbn [digits_val]. rewrite digit_char_is_digit, digit_char_val by done.
    f_equal. rewrite N.mod_small by done. lia.
  - rewrite IH.
    + cbn [digits_val]. rewrite digit_char_is_digit, digit_char_val by done.
      f_equal. pose proof (N.div_mod n 10). lia.
    + apply N.Div0.div_lt_upper_bound. rewrite Nat2N.inj_succ, N.pow_succ_r' in Hn. lia.
Qed.

Lemma show_fuel_enough n : (n < 10 ^ N.of_nat (S (N.to_nat (N.log2 n))))%N.
Proof.
  rewrite Nat2N.inj_succ, N2Nat.id.
  destruct (decide (n = 0)%N) as [->|Hn]; [done|].
  apply N.lt_le_trans with (2 ^ N.succ (N.log2 n))%N; [apply N.log2_spec; lia|].
  apply N.pow_le_mono_l. lia.
Qed.

Lemma digits_val_show n : digits_val (show_N n) 0 = Some n.
Proof. unfold show_N. by rewrite digits_val_show_aux by apply show_fuel_enough. Qed.

Lemma show_aux_digits fuel n t :
  sforall byte_is_digit t = true -> sforall byte_is_digit (show_aux fuel n t) = true.
Proof.
  revert n t. induction fuel as [|fuel IH]; intros n t Ht; cbn [show_aux]; [done|].
  assert (sforall byte_is_digit (String (digit_char (n mod 10)) t) = true) as Ht'.
  { cbn [sforall]. rewrite Ht, digit_char_is_digit by (apply N.mod_lt; lia). done. }
  destruct (n <? 10)%N; auto.
Qed.

Lemma show_N_digits n : sforall byte_is_digit (show_N n) = true.
Proof. by apply show_aux_digits. Qed.

Lemma show_aux_nonempty fuel n t : t <> "" -> show_aux fuel n t <> "".
Proof.
  revert n t. induction fuel as [|fuel IH]; intros n t Ht; cbn [show_aux]; [done|].
  destruct (n <? 10)%N; [done|]. by apply IH.
Qed.

Lemma show_N_nonempty n : show_N n <> "".
Proof.
  unfold show_N. cbn [show_aux]. destruct (n <? 10)%N; [done|]. by apply show_aux_nonempty.
Qed.

Lemma digit_not_plus s : sforall byte_is_digit s = true -> (match s with String "+" s' => s' | _ => s end) = s.
Proof. destruct s as [|[[] [] [] [] [] [] [] []] s]; done. Qed.

Lemma parse_show_uint max n : (n <= max)%N -> parse_uint max (show_N n) = Some n.
Proof.
  intros Hn. unfold parse_uint. rewrite digit_not_plus by apply show_N_digits.
  pose proof (show_N_nonempty n). destruct (show_N n) eqn:E; [done|]. cbn [is_empty].
  rewrite <- E, digits_val_show. by apply N.leb_le in Hn as ->.
Qed.

(** ** Floats *)

Notation f64 := spec_float (only parsing).
Notation f32 := spec_float (only parsing).

Definition f64_add := SFadd 53 1024.
Definition f64_sub := SFsub 53 1024.
Definition f64_mul := SFmul 53 1024.
Definition f64_div := SFdiv 53 1024.
Definition f64_neg := SFopp.
Definition f64_of_Z (z : Z) : f64 := binary_normalize 53 1024 z 0 false.
Definition f32_mul := SFmul 24 128.
Definition f32_add := SFadd 24 128.
Definition f32_div := SFdiv 24 128.
Definition f32_of_Z (z : Z) : f32 := binary_normalize 24 128 z 0 false.

Definition fl_is_nan (x : spec_float) : bool := match x with S754_nan => true | _ => false end.
Definition fl_is_finite (x : spec_float) : bool :=
  match x with S754_zero _ | S754_finite _ _ _ => true | _ => false end.

(** [f32::max]/[f64::max]: the other operand when one is NaN. *)
Definition fl_max (a b : spec_float) : spec_float :=
  if fl_is_nan a then b else if SFltb a b then b else a.
Definition fl_min (a b : spec_float) : spec_float :=
  if fl_is_nan a then b else if SFltb b a then b else a.

(** The value [m * 10^e], correctly rounded: a decimal literal. *)
Definition fl_of_dec (prec emax : Z) (neg : bool) (m : N) (e : Z) : spec_float :=
  match m with
  | 0%N => S754_zero neg
  | N.pos p =>
      if (0 <=? e)%Z then
        match binary_normalize prec emax (Z.pos p * 10 ^ e) 0 false with
        | x => if neg then SFopp x else x
        end
      else
        let '(mz, ez, lz) := SFdiv_core_binary prec emax (Z.pos p) 0 (10 ^ (- e)) 0 in
        binary_round_aux prec emax neg mz ez lz
  end.
Definition f64_dec := fl_of_dec 53 1024 false.
Definition f32_dec := fl_of_dec 24 128 false.

(** The integer part, towards minus infinity ([floor]) or zero ([trunc]). *)
Definition fl_trunc_Z (x : spec_float) : Z :=
  match x with
  | S754_finite s m e =>
      let q := (if 0 <=? e then Z.pos m * 2 ^ e else Z.pos m / 2 ^ (- e))%Z in
      if s then (- q)%Z else q
  | _ => 0%Z
  end.
(** Whether a finite value is an integer: [x == x.floor()], [x.fract() == 0.0]. *)
Definition fl_is_integral (x : spec_float) : bool :=
  match x with
  | S754_zero _ => true
  | S754_finite _ m e => (0 <=? e)%Z || (Z.pos m mod 2 ^ (- e) =? 0)%Z
  | _ => false
  end.
(** The saturating casts [as u64] and [as i64]. *)
Definition fl_as_u64 (x : spec_float) : N :=
  match x with
  | S754_infinity false => u64_max
  | S754_infinity true | S754_nan => 0%N
  | _ => N.min (Z.to_N (fl_trunc_Z x)) u64_max
  end.
Definition fl_as_i64 (x : spec_float) : Z :=
  match x with
  | S754_infinity false => (2 ^ 63 - 1)%Z
  | S754_infinity true => (- 2 ^ 63)%Z
  | S754_nan => 0%Z
  | _ => Z.max (- 2 ^ 63) (Z.min (fl_trunc_Z x) (2 ^ 63 - 1))
  end.

(** [format!("{x:.d}")]: the exact value rounded to [d] decimals, ties to even. *)
Definition div_half_even (n d : Z) : Z :=
  let q := (n / d)%Z in
  let r := (n mod d)%Z in
  match (2 * r ?= d)%Z with
  | Lt => q
  | Gt => q + 1
  | Eq => if Z.even q then q else q + 1
  end%Z.

Fixpoint pad_zeros (n : nat) (s : string) : string :=
  match n with O => s | S n => pad_zeros n (String "0" s) end.

Definition fmt_scaled (d : nat) (neg : bool) (z : Z) : string :=
  let digits := show_N (Z.to_N z) in
  let digits := pad_zeros (S d - String.length digits) digits in
  let k := String.length digits - d in
  (if neg then "-" else "") +:+ String.substring 0 k digits +:+
  match d with O => "" | _ => "." +:+ sdrop k digits end.

Definition fmt_fixed (d : nat) (x : spec_float) : string :=
  match x with
  | S754_nan => "NaN"
  | S754_infinity s => if s then "-inf" else "inf"
  | S754_zero s => fmt_scaled d s 0
  | S754_finite s m e =>
      let n := (Z.pos m * 10 ^ Z.of_nat d)%Z in
      fmt_scaled d s (if 0 <=? e then n * 2 ^ e else div_half_even n (2 ^ (- e)))%Z
  end.

(** [str::parse::<f64>]: [sign? (inf|infinity|nan|digits[.digits][e sign? digits])]. *)
Fixpoint span_digits (s : string) : string * string :=
  match s with
  | String a s' =>
      if byte_is_digit a then let '(d, r) := span_digits s' in (String a d, r) else ("", s)
  | "" => ("", "")
  end.

Definition opt_sign (s : string) : bool * string :=
  match s with
  | String "-" s => (true, s)
  | String "+" s => (false, s)
  | _ => (false, s)
  end.

Definition parse_exponent (s : string) : option Z :=
  match s with
  | "" => Some 0%Z
  | String a s =>
      if Ascii.eqb a "e" || Ascii.eqb a "E" then
        let '(neg, s) := opt_sign s in
        if is_empty s then None
        else match digits_val s 0 with
             | Some n => Some (if neg then - Z.of_N n else Z.of_N n)%Z
             | None => None
             end
      else None
  end.

Definition parse_float (prec emax : Z) (s : string) : option spec_float :=
  let '(neg, body) := opt_sign s in
  let low := to_ascii_lowercase body in
  if String.eqb low "inf" || String.eqb low "infinity" then Some (S754_infinity neg)
  else if String.eqb low "nan" then Some S754_nan
  else
    let '(ip, rest) := span_digits body in
    let '(fp, rest) := match rest with String "." r => span_digits r | _ => ("", rest) end in
    if is_empty ip && is_empty fp then None
    else
      match parse_exponent rest, digits_val (ip +:+ fp) 0 with
      | Some e, Some m => Some (fl_of_dec prec emax neg m (e - Z.of_nat (String.length fp)))
      | _, _ => None
      end.
Definition parse_f64 : string -> option f64 := parse_float 53 1024.
Definition parse_f32 : string -> option f32 := parse_float 24 128.


(** [{}] and [{:?}] of an [f64]: the shortest decimal that reads back, an
    algorithm of the standard library, kept abstract. *)
Class FloatText := {
  f64_display : f64 -> string;
  f64_debug : f64 -> string;
}.

(** ** Float order *)

(** The order of two finite values of one sign: exponent, then mantissa. *)
Lemma finite_lt_trans (m1 m2 m3 : positive) (e1 e2 e3 : Z) :
  (match (e1 ?= e2)%Z with Eq => Pos.compare_cont Eq m1 m2 | c => c end) = Lt ->
  (match (e2 ?= e3)%Z with Eq => Pos.compare_cont Eq m2 m3 | c => c end) = Lt ->
  (match (e1 ?= e3)%Z with Eq => Pos.compare_cont Eq m1 m3 | c => c end) = Lt.
Proof.
  change (Pos.compare_cont Eq) with Pos.compare.
  destruct (Z.compare_spec e1 e2), (Z.compare_spec e2 e3), (Z.compare_spec e1 e3);
    intros Ha Hb; try done; try lia.
  exact (Pos.lt_trans _ _ _ Ha Hb).
Qed.

Lemma finite_gt_lt (m1 m2 : positive) (e1 e2 : Z) :
  (match (e1 ?= e2)%Z with
   | Lt => Gt | Gt => Lt | Eq => CompOpp (Pos.compare_cont Eq m1 m2) end) = Lt <->
  (match (e2 ?= e1)%Z with Eq => Pos.compare_cont Eq m2 m1 | c => c end) = Lt.
Proof.
  change (Pos.compare_cont Eq) with Pos.compare.
  destruct (Z.compare_spec e1 e2), (Z.compare_spec e2 e1); try lia; try done.
  by rewrite <- Pos.compare_antisym.
Qed.

Lemma SFltb_iff x y : SFltb x y = true <-> SFcompare x y = Some Lt.
Proof. unfold SFltb. destruct (SFcompare x y) as [[]|]; naive_solver. Qed.

Lemma SFltb_trans x y z : SFltb x y = true -> SFltb y z = true -> SFltb x z = true.
Proof.
  rewrite !SFltb_iff. destruct x as [|[]| |[]], y as [|[]| |[]], z as [|[]| |[]]; cbn [SFcompare];
    try done; intros H1 H2; f_equal; injection H1 as H1; injection H2 as H2.
  - apply finite_gt_lt in H1, H2. apply finite_gt_lt. by eapply finite_lt_trans.
  - by eapply finite_lt_trans.
Qed.

Lemma SFltb_irrefl x : SFltb x x = false.
Proof.
  unfold SFltb, SFcompare. destruct x as [|[]| |[] m e]; try done; rewrite Z.compare_refl.
  - assert (Pos.compare_cont Eq m m = Eq) as -> by apply Pos.compare_refl. done.
  - assert (Pos.compare_cont Eq m m = Eq) as -> by apply Pos.compare_refl. done.
Qed.

(** A bar raised by [fl_max] is at least as high. *)
Lemma SFltb_fl_max x r c : SFltb x (fl_max r c) = false -> SFltb x r = false.
Proof.
  unfold fl_max. destruct (fl_is_nan r) eqn:En.
  - intros _. destruct r; try done. by destruct x as [|[]| |].
  - destruct (SFltb r c) eqn:E; [|done]. intros H.
    destruct (SFltb x r) eqn:Ex; [|done]. by rewrite (SFltb_trans x r c) in H.
Qed.
