(* ===== verification/Sql.v ===== *)
(** * SQLite connections

    What the stores of the runtime use of a database: statements that read or
    change tables or fail without changing them, transactions that are rolled
    back when anything in them fails, [ORDER BY] and [LIMIT].  The tables are
    those of the store, so this file is about no schema in particular. *)

From S2P Require Import Prelude RustStr RustNum.
From stdpp Require Import sorting.
Local Open Scope string_scope.
Local Open Scope list_scope.
Local Open Scope rust_scope.

(** ** Statements *)

Section connection.
Context {T : Type}.

(** The tables on the disk, and which of the statements to come meet a failing
    disk. *)
Record Conn := {
  tables : T;
  faults : list bool;
}.

Definition io_error : string := "disk I/O error".

Definition set_tables (t : T) (c : Conn) : Conn := {| tables := t; faults := faults c |}.

(** One statement.  A statement that breaks a constraint reports it and changes
    nothing. *)
Definition statement {A} (f : T -> result (A * T) string) : M Conn (result A string) :=
  fun c =>
    let c' := {| tables := tables c; faults := tail (faults c) |} in
    if default false (head (faults c)) then (Err io_error, c')
    else match f (tables c) with
         | Ok (a, t) => (Ok a, set_tables t c')
         | Err e => (Err e, c')
         end.

(** Statements that only read, and that always can be carried out. *)
Definition query {A} (f : T -> A) : M Conn (result A string) := statement (fun t => Ok (f t, t)).
Definition update (f : T -> T) : M Conn (result unit string) := statement (fun t => Ok (tt, f t)).
(** The number of rows changed. *)
Definition update_count {A} (f : T -> A * T) : M Conn (result A string) := statement (fun t => Ok (f t)).

(** [BEGIN], the body, [COMMIT]; a transaction that is dropped before its commit
    is rolled back. *)
Definition begin_commit {A} (body : M Conn (result A string)) : M Conn (result A string) :=
  let!? _ := query (fun _ => tt) in
  let!? a := body in
  let!? _ := query (fun _ => tt) in
  ret (Ok a).

Definition transaction {A} (body : M Conn (result A string)) : M Conn (result A string) :=
  fun c =>
    match begin_commit body c with
    | (Ok a, c') => (Ok a, c')
    | (Err e, c') => (Err e, set_tables (tables c) c')
    end.

(** No statement to come fails. *)
Definition quiet (c : Conn) : Prop := faults c = [].

Lemma statement_quiet {A} (f : T -> result (A * T) string) c :
  quiet c ->
  statement f c = match f (tables c) with Ok (a, t) => (Ok a, set_tables t c) | Err e => (Err e, c) end.
Proof. unfold quiet, statement, set_tables. destruct c as [t fs]. simpl. intros ->. simpl. by destruct (f t) as [[]|]. Qed.

Lemma query_quiet {A} (f : T -> A) c : quiet c -> query f c = (Ok (f (tables c)), c).
Proof. intros Hq. unfold query. rewrite statement_quiet by done. by destruct c. Qed.

Lemma update_quiet f c : quiet c -> update f c = (Ok tt, set_tables (f (tables c)) c).
Proof. intros Hq. unfold update. by rewrite statement_quiet. Qed.

Lemma update_count_quiet {A} (f : T -> A * T) c :
  quiet c -> update_count f c = (Ok (f (tables c)).1, set_tables (f (tables c)).2 c).
Proof. intros Hq. unfold update_count. rewrite statement_quiet by done. by destruct (f (tables c)). Qed.

Lemma quiet_set t c : quiet c -> quiet (set_tables t c).
Proof. done. Qed.

Lemma transaction_quiet {A} (body : M Conn (result A string)) c a c' :
  quiet c -> body c = (Ok a, c') -> quiet c' -> transaction body c = (Ok a, c').
Proof.
  intros Hq Hb Hq'. unfold transaction, begin_commit, ebind. rewrite query_quiet by done. simpl.
  rewrite Hb, query_quiet by done. done.
Qed.

(** A transaction that reports an error has changed nothing; one that succeeds
    has run its body. *)
Lemma transaction_err {A} (body : M Conn (result A string)) c e c' :
  transaction body c = (Err e, c') -> tables c' = tables c.
Proof.
  unfold transaction. by destruct (begin_commit body c) as [[a|e'] c1]; intros [= <- <-].
Qed.

Lemma statement_fate {A} (f : T -> result (A * T) string) c r c' :
  statement f c = (r, c') ->
  (tables c' = tables c /\ exists e, r = Err e) \/
  (exists a t, f (tables c) = Ok (a, t) /\ r = Ok a /\ tables c' = t).
Proof.
  unfold statement. destruct (default false (head (faults c))).
  - intros [= <- <-]. left. eauto.
  - destruct (f (tables c)) as [[a t]|e] eqn:Ef; intros [= <- <-]; [right|left]; eauto.
Qed.

(** A statement whose fault list is empty leaves it empty; what holds of the
    tables before a statement and is kept by it holds after it, whatever fails. *)
Definition keeps (P : T -> Prop) {A} (m : M Conn (result A string)) : Prop :=
  forall c, P (tables c) -> P (tables (m c).2).

Lemma keeps_statement P {A} (f : T -> result (A * T) string) :
  (forall t a t', P t -> f t = Ok (a, t') -> P t') -> keeps P (statement f).
Proof.
  intros Hf c Hc. destruct (statement f c) as [r c'] eqn:E.
  simpl. apply statement_fate in E as [[-> _]|(a & t & Hs & _ & ->)]; [done|eauto].
Qed.

Lemma keeps_query P {A} (f : T -> A) : keeps P (query f).
Proof. apply keeps_statement. by intros t a t' Ht [= <- <-]. Qed.

Lemma keeps_update P f : (forall t, P t -> P (f t)) -> keeps P (update f).
Proof. intros Hf. apply keeps_statement. intros t a t' Ht [= <- <-]. auto. Qed.

Lemma keeps_update_count P {A} (f : T -> A * T) : (forall t, P t -> P (f t).2) -> keeps P (update_count f).
Proof. intros Hf. apply keeps_statement. intros t a t' Ht [= Heq]. specialize (Hf t Ht). by rewrite Heq in Hf. Qed.

Lemma holds_ret P {A} (r : result A string) : keeps P (ret r).
Proof. by intros c Hc. Qed.

Lemma keeps_ebind P {A B} (m : M Conn (result A string)) (f : A -> M Conn (result B string)) :
  keeps P m -> (forall a, keeps P (f a)) -> keeps P (ebind m f).
Proof.
  intros Hm Hf c Hc. unfold ebind. specialize (Hm c Hc). destruct (m c) as [[a|e] c']; [by apply Hf|done].
Qed.

Lemma keeps_transaction P {A} (body : M Conn (result A string)) : keeps P body -> keeps P (transaction body).
Proof.
  intros Hb c Hc. destruct (transaction body c) as [[a|e] c'] eqn:E; simpl.
  - revert E. unfold transaction.
    assert (keeps P (begin_commit body)) as Hk.
    { apply keeps_ebind; [apply keeps_query|intros _]. apply keeps_ebind; [done|intros a'].
      apply keeps_ebind; [apply keeps_query|intros _]. apply holds_ret. }
    specialize (Hk c Hc). destruct (begin_commit body c) as [[a'|e'] c1]; [|done]. by intros [= _ <-].
  - by rewrite (transaction_err _ _ _ _ E).
Qed.

(** The same connection with no fault to come.  A run that succeeds is the run
    without faults. *)
Definition calm (c : Conn) : Conn := {| tables := tables c; faults := [] |}.

Definition unharmed {A} (m : M Conn (result A string)) : Prop :=
  forall c a c', m c = (Ok a, c') -> m (calm c) = (Ok a, calm c').

Lemma calm_quiet c : quiet (calm c).
Proof. done. Qed.

Lemma unharmed_statement {A} (f : T -> result (A * T) string) : unharmed (statement f).
Proof.
  intros c a c' Hs. unfold statement in *. simpl. destruct (default false (head (faults c))); [done|].
  by destruct (f (tables c)) as [[a' t]|e]; [injection Hs as <- <-|].
Qed.

Lemma unharmed_ret {A} (r : result A string) : unharmed (ret r).
Proof. intros c a c' [= -> <-]. done. Qed.

Lemma unharmed_ebind {A B} (m : M Conn (result A string)) (f : A -> M Conn (result B string)) :
  unharmed m -> (forall a, unharmed (f a)) -> unharmed (ebind m f).
Proof.
  intros Hm Hf c b c' He. unfold ebind in *. destruct (m c) as [[a|e] c1] eqn:Em; [|done].
  rewrite (Hm _ _ _ Em). by apply Hf.
Qed.

Lemma unharmed_query {A} (f : T -> A) : unharmed (query f).
Proof. apply unharmed_statement. Qed.
Lemma unharmed_update f : unharmed (update f).
Proof. apply unharmed_statement. Qed.
Lemma unharmed_update_count {A} (f : T -> A * T) : unharmed (update_count f).
Proof. apply unharmed_statement. Qed.

Lemma unharmed_transaction {A} (body : M Conn (result A string)) : unharmed body -> unharmed (transaction body).
Proof.
  intros Hb c a c' Ht. assert (unharmed (begin_commit body)) as Hbc.
  { apply unharmed_ebind; [apply unharmed_query|intros _]. apply unharmed_ebind; [done|intros a'].
    apply unharmed_ebind; [apply unharmed_query|intros _]. apply unharmed_ret. }
  unfold transaction in *. destruct (begin_commit body c) as [[a'|e] c1] eqn:E; [|done].
  injection Ht as <- <-. by rewrite (Hbc _ _ _ E).
Qed.

End connection.
Arguments Conn T : clear implicits.

Create HintDb sql.
#[export] Hint Resolve unharmed_statement unharmed_ret unharmed_query unharmed_update
  unharmed_update_count unharmed_transaction unharmed_ebind : sql.
#[export] Hint Resolve keeps_query holds_ret keeps_transaction keeps_ebind quiet_set : sql.

(** ** Ordering *)

Section order.
Context {A : Type} (R : A -> A -> Prop) `{forall x y, Decision (R x y)}.

(** [ORDER BY]; rows that compare equal come in an order that is not promised. *)
Definition order_by (l : list A) : list A := merge_sort R l.

Lemma order_by_perm l : order_by l ≡ₚ l.
Proof. apply merge_sort_Permutation. Qed.

Context `{!Transitive R, !Total R}.

Lemma order_by_sorted l : StronglySorted R (order_by l).
Proof. by apply StronglySorted_merge_sort. Qed.

(** Where the rows are told apart by the order there is one answer. *)
Lemma order_by_unique l k :
  (forall x y, x ∈ l -> y ∈ l -> R x y -> R y x -> x = y) ->
  StronglySorted R k -> k ≡ₚ l -> order_by l = k.
Proof.
  intros Hanti Hk Hp. apply (StronglySorted_unique_strong R); [|apply order_by_sorted|done|].
  - intros x y Hx Hy. rewrite order_by_perm in Hx. rewrite Hp in Hy. auto.
  - by rewrite order_by_perm, Hp.
Qed.

End order.

(** ** Row ids *)

(** An [INTEGER PRIMARY KEY] that is left to the database: one more than the
    largest in the table. *)
Definition next_rowid (ids : list Z) : Z := foldr Z.max 0%Z ids + 1.

Lemma next_rowid_fresh ids : Forall (fun i => i < next_rowid ids)%Z ids.
Proof.
  unfold next_rowid. induction ids as [|i ids IH]; constructor; simpl; [lia|].
  eapply Forall_impl; [done|]. simpl. lia.
Qed.

Lemma next_rowid_unused ids : next_rowid ids ∉ ids.
Proof. intros Hin. pose proof (next_rowid_fresh ids) as H. rewrite Forall_forall in H. specialize (H _ Hin). lia. Qed.

Lemma next_rowid_snoc ids : next_rowid (ids ++ [next_rowid ids]) = (next_rowid ids + 1)%Z.
Proof.
  assert (0 <= foldr Z.max 0%Z ids)%Z by (induction ids; simpl; lia).
  unfold next_rowid. rewrite foldr_app. simpl.
  assert (forall k a, foldr Z.max a k = Z.max a (foldr Z.max 0%Z k) \/ (a < 0)%Z) as Hf.
  { intros k a. induction k as [|x k IH]; simpl; lia. }
  pose proof (Hf ids (foldr Z.max 0%Z ids + 1)%Z) as H1.
  rewrite (Z.max_l _ 0) by lia. lia.
Qed.

(** A change of the rows that the order does not look at commutes with it. *)
Section order_map.
Context {A : Type} (R : A -> A -> Prop) `{forall x y, Decision (R x y)} (f : A -> A).
Hypothesis order_blind : forall x y, R (f x) (f y) <-> R x y.

Lemma list_merge_fmap l k : list_merge R (f <$> l) (f <$> k) = f <$> list_merge R l k.
Proof using order_blind.
  revert k. induction l as [|x l IHl]; intros k; [by destruct k|]. induction k as [|y k IHk]; [done|]. cbn.
  destruct (decide (R (f x) (f y))) as [Hxy|Hxy]; rewrite order_blind in Hxy;
    [rewrite decide_True by done|rewrite decide_False by done]; cbn; f_equal; [apply (IHl (y :: k))|apply IHk].
Qed.

Definition map_stack (st : list (option (list A))) : list (option (list A)) :=
  (fun o : option (list A) => (fun l : list A => f <$> l) <$> o) <$> st.

Lemma merge_list_to_stack_fmap st l :
  merge_list_to_stack R (map_stack st) (f <$> l) = map_stack (merge_list_to_stack R st l).
Proof using order_blind.
  revert l. induction st as [|[k|] st IH]; intros l; [done| |done].
  change (None :: merge_list_to_stack R (map_stack st) (list_merge R (f <$> k) (f <$> l)) =
          None :: map_stack (merge_list_to_stack R st (list_merge R k l))). by rewrite list_merge_fmap, IH.
Qed.

Lemma merge_stack_fmap st : merge_stack R (map_stack st) = f <$> merge_stack R st.
Proof using order_blind.
  induction st as [|[k|] st IH]; [done| |exact IH].
  change (list_merge R (f <$> k) (merge_stack R (map_stack st)) = f <$> list_merge R k (merge_stack R st)).
  by rewrite IH, list_merge_fmap.
Qed.

Lemma order_by_fmap l : order_by R (f <$> l) = f <$> order_by R l.
Proof using order_blind.
  unfold order_by, merge_sort. change (@nil (option (list A))) with (map_stack []) at 1. generalize (@nil (option (list A))).
  induction l as [|x l IH]; intros st; [apply merge_stack_fmap|].
  change (merge_sort_aux R (merge_list_to_stack R (map_stack st) (f <$> [x])) (f <$> l) =
          f <$> merge_sort_aux R (merge_list_to_stack R st [x]) l). by rewrite merge_list_to_stack_fmap, IH.
Qed.

End order_map.
