(* ===== verification/Json.v ===== *)
(** * JSON values

    The data of [serde_json::Value] and the accessors the code calls on it.
    Reading and printing JSON text are the crate's own and stay abstract, in
    the class [Serde]. *)

From S2P Require Import Prelude RustStr RustNum.
Local Open Scope string_scope.
Local Open Scope list_scope.

Inductive number : Type :=
| PosInt (n : N)
| NegInt (z : Z)
| Float (x : f64).

Inductive value : Type :=
| Null
| Bool (b : bool)
| Number (n : number)
| Str (s : string)
| Array (items : list value)
| Object (fields : list (string * value)).

(** [serde_json::from_str] and [serde_json::to_string]. *)
Class Serde := {
  from_str : string -> option value;
  to_str : value -> string;
}.

Fixpoint assoc {A} (k : string) (l : list (string * A)) : option A :=
  match l with
  | [] => None
  | (k', v) :: l => if String.eqb k k' then Some v else assoc k l
  end.

(** [Value::get] with a string index. *)
Definition get (v : value) (k : string) : option value :=
  match v with Object fields => assoc k fields | _ => None end.

Definition as_str (v : value) : option string :=
  match v with Str s => Some s | _ => None end.
Definition as_bool (v : value) : option bool :=
  match v with Bool b => Some b | _ => None end.
Definition as_array (v : value) : option (list value) :=
  match v with Array l => Some l | _ => None end.
Definition as_object (v : value) : option (list (string * value)) :=
  match v with Object l => Some l | _ => None end.
Definition as_u64 (v : value) : option N :=
  match v with Number (PosInt n) => Some n | _ => None end.
Definition as_f64 (v : value) : option f64 :=
  match v with
  | Number (PosInt n) => Some (f64_of_Z (Z.of_N n))
  | Number (NegInt z) => Some (f64_of_Z z)
  | Number (Float x) => Some x
  | _ => None
  end.

(** [json!(n)] of an [i64]. *)
Definition json_i64 (z : Z) : value := Number (if (z <? 0)%Z then NegInt z else PosInt (Z.to_N z)).
(** [json!(x)] of an [f64]: JSON has no NaN and no infinity. *)
Definition json_f64 (x : f64) : value := if fl_is_finite x then Number (Float x) else Null.
Definition json_opt_f64 (o : option f64) : value :=
  match o with Some x => json_f64 x | None => Null end.

(** [v.get(k).and_then(as_str)]. *)
Definition get_str (v : value) (k : string) : option string := get v k ≫= as_str.

(** [.map(str::trim).filter(|v| !v.is_empty())]. *)
Definition trimmed_nonempty (o : option string) : option string :=
  match o with
  | Some s => if is_empty (trim s) then None else Some (trim s)
  | None => None
  end.
