(* ===== verification/HomeTypes.v ===== *)
(** * Data of the home boundary

    Request origins ([tools/actuation.rs]), the Home Assistant data model
    ([ha/provider.rs], [ha/client.rs]) and the safety configuration
    ([genie-common/src/config.rs]), with the provider trait as a class of
    operations on an abstract outside world. *)

From S2P Require Import Prelude RustStr RustNum Json.
Local Open Scope string_scope.
Local Open Scope list_scope.

Module RequestOrigin.

Inductive t : Set :=
| Unknown | Voice | Dashboard | Api | Telegram | Repl | Confirmation.

#[export] Instance eq_dec : EqDecision t.
Proof. solve_decision. Defined.

Definition to_N (o : t) : N :=
  match o with
  | Unknown => 0 | Voice => 1 | Dashboard => 2 | Api => 3
  | Telegram => 4 | Repl => 5 | Confirmation => 6
  end.
Definition of_N (n : N) : option t :=
  match n with
  | 0 => Some Unknown | 1 => Some Voice | 2 => Some Dashboard | 3 => Some Api
  | 4 => Some Telegram | 5 => Some Repl | 6 => Some Confirmation | _ => None
  end%N.

#[export] Instance countable : Countable t.
Proof. apply (inj_countable to_N of_N). by intros []. Defined.

Definition from_header (value : string) : t :=
  let key := to_ascii_lowercase (trim value) in
  if String.eqb key "voice" then Voice
  else if String.eqb key "dashboard" then Dashboard
  else if String.eqb key "api" then Api
  else if String.eqb key "telegram" then Telegram
  else if String.eqb key "repl" then Repl
  else if String.eqb key "confirmation" then Confirmation
  else Unknown.

Definition as_policy_key (o : t) : string :=
  match o with
  | Unknown => "unknown" | Voice => "voice" | Dashboard => "dashboard" | Api => "api"
  | Telegram => "telegram" | Repl => "repl" | Confirmation => "confirmation"
  end.

Lemma from_header_policy_key o : from_header (as_policy_key o) = o.
Proof. by destruct o. Qed.

Lemma as_policy_key_inj o o' : as_policy_key o = as_policy_key o' -> o = o'.
Proof. intros H. by rewrite <- (from_header_policy_key o), H, from_header_policy_key. Qed.

End RequestOrigin.
Export (hints) RequestOrigin.

Module HomeActionKind.

Inductive t : Set :=
| TurnOn | TurnOff | Toggle | SetBrightness | SetTemperature
| Open | Close | Lock | Unlock | Activate.

#[export] Instance eq_dec : EqDecision t.
Proof. solve_decision. Defined.

End HomeActionKind.
Export (hints) HomeActionKind.

Module HomeTargetKind.

Inductive t : Set := Entity | Group | Scene | Script.

#[export] Instance eq_dec : EqDecision t.
Proof. solve_decision. Defined.

End HomeTargetKind.
Export (hints) HomeTargetKind.

Record HomeTarget := {
  target_kind : HomeTargetKind.t;
  target_query : string;
  display_name : string;
  entity_ids : list string;
  target_domain : option string;
  target_area : option string;
  target_confidence : f32;
  voice_safe : bool;
}.

Record HomeAction := {
  action_kind : HomeActionKind.t;
  action_target : HomeTarget;
  action_value : option f64;
}.

Record Entity := {
  entity_id : string;
  entity_state : string;
  attributes : value;
}.

Record HomeState := {
  state_target_name : string;
  state_domain : option string;
  state_area : option string;
  state_entities : list Entity;
  available : bool;
  state_summary : string;
}.

Record IntegrationHealth := {
  connected : bool;
  cached_graph : bool;
  health_message : string;
}.

Record ActionResult := {
  result_success : bool;
  spoken_summary : string;
  affected_targets : list string;
  state_snapshot : option HomeState;
  result_confidence : option f32;
}.

(** [ActuationSafetyConfig]; the map by origin is an association list, since
    the code searches it in iteration order. *)
Record ActuationSafetyConfig := {
  safety_enabled : bool;
  min_target_confidence : f32;
  min_sensitive_confidence : f32;
  deny_multi_target_sensitive : bool;
  require_available_state : bool;
  allowed_origins : list string;
  max_actions_per_minute : nat;
  max_actions_per_minute_by_origin : list (string * nat);
}.

Definition default_actuation_safety : ActuationSafetyConfig := {|
  safety_enabled := true;
  min_target_confidence := f32_dec 78 (-2);
  min_sensitive_confidence := f32_dec 90 (-2);
  deny_multi_target_sensitive := true;
  require_available_state := true;
  allowed_origins := ["voice"; "dashboard"; "api"; "telegram"; "repl"; "confirmation"];
  max_actions_per_minute := 12;
  max_actions_per_minute_by_origin := [];
|}.

(** What the runtime calls outside itself: the clock, the entropy source, the
    provider trait [HomeAutomationProvider], and the alias table of the
    household memory.  Each operation returns its answer and the world after
    it. *)
Class World (W : Type) := {
  now_ms : W -> N * W;
  getrandom : W -> list N * W;
  ha_health : W -> IntegrationHealth * W;
  ha_resolve_target :
    string -> option HomeActionKind.t -> W -> result HomeTarget string * W;
  ha_get_state : HomeTarget -> W -> result HomeState string * W;
  ha_execute : HomeAction -> W -> result ActionResult string * W;
  device_alias : string -> W -> option string * W;
}.
