(* ===== verification/Scripted.v ===== *)
(** * A scripted outside world

    A concrete instance of [World], for runs of the definitions on given data:
    a clock that advances by a fixed step at every reading, and a home that
    answers every call from its fields. *)

From S2P Require Import Prelude RustStr RustNum Json HomeTypes.
Local Open Scope string_scope.
Local Open Scope list_scope.

Record scripted := {
  sc_clock : N;
  sc_step : N;
  sc_seed : N;
  sc_connected : bool;
  sc_target : result HomeTarget string;
  sc_state : result HomeState string;
  sc_answer : result ActionResult string;
}.

Definition with_clock (n : N) (w : scripted) : scripted :=
  {| sc_clock := n; sc_step := sc_step w; sc_seed := sc_seed w; sc_connected := sc_connected w;
     sc_target := sc_target w; sc_state := sc_state w; sc_answer := sc_answer w |}.
Definition with_seed (n : N) (w : scripted) : scripted :=
  {| sc_clock := sc_clock w; sc_step := sc_step w; sc_seed := n; sc_connected := sc_connected w;
     sc_target := sc_target w; sc_state := sc_state w; sc_answer := sc_answer w |}.

#[export] Instance scripted_world : World scripted := {|
  now_ms w := (sc_clock w, with_clock (sc_clock w + sc_step w) w);
  getrandom w := (repeat (sc_seed w mod 256)%N 16, with_seed (sc_seed w + 1) w);
  ha_health w :=
    ({| connected := sc_connected w; cached_graph := false; health_message := "scripted" |}, w);
  ha_resolve_target _ _ w := (sc_target w, w);
  ha_get_state _ w := (sc_state w, w);
  ha_execute _ w := (sc_answer w, w);
  device_alias _ w := (None, w);
|}.

(** A single light, resolved with certainty. *)
Definition lamp : HomeTarget := {|
  target_kind := HomeTargetKind.Entity; target_query := "lamp"; display_name := "Lamp";
  entity_ids := ["light.lamp"]; target_domain := Some "light"; target_area := None;
  target_confidence := f32_dec 1 0; voice_safe := true |}.

Definition lamp_state : HomeState := {|
  state_target_name := "Lamp"; state_domain := Some "light"; state_area := None;
  state_entities := [{| entity_id := "light.lamp"; entity_state := "off"; attributes := Object [] |}];
  available := true; state_summary := "Lamp is off." |}.

Definition lamp_world : scripted := {|
  sc_clock := 1000000; sc_step := 1; sc_seed := 7; sc_connected := true;
  sc_target := Ok lamp; sc_state := Ok lamp_state;
  sc_answer := Ok {| result_success := true; spoken_summary := "Lamp on.";
                     affected_targets := ["light.lamp"]; state_snapshot := None;
                     result_confidence := None |} |}.
