(* ===== verification/HomeAction.v ===== *)
(** * Canonical home actions ([tools/home_action.rs])

    The verbs a [home_control] call may carry, the tolerant canonicalisation of
    what a model emits, and the map onto [HomeActionKind]. *)

From S2P Require Import Prelude RustStr RustNum Json HomeTypes.
From Stdlib Require Import Ascii String.
Local Open Scope string_scope.
Local Open Scope list_scope.

Definition HOME_CONTROL_ACTIONS : list string :=
  ["turn_on"; "turn_off"; "toggle"; "set_brightness"; "set_temperature";
   "open"; "close"; "lock"; "unlock"; "activate"].

Definition action_requires_value (action : string) : bool :=
  existsb (String.eqb action) ["set_brightness"; "set_temperature"].

Definition home_action_kind (action : string) : result HomeActionKind.t string :=
  if String.eqb action "turn_on" then Ok HomeActionKind.TurnOn
  else if String.eqb action "turn_off" then Ok HomeActionKind.TurnOff
  else if String.eqb action "toggle" then Ok HomeActionKind.Toggle
  else if String.eqb action "set_brightness" then Ok HomeActionKind.SetBrightness
  else if String.eqb action "set_temperature" then Ok HomeActionKind.SetTemperature
  else if String.eqb action "open" then Ok HomeActionKind.Open
  else if String.eqb action "close" then Ok HomeActionKind.Close
  else if String.eqb action "lock" then Ok HomeActionKind.Lock
  else if String.eqb action "unlock" then Ok HomeActionKind.Unlock
  else if String.eqb action "activate" || String.eqb action "activate_scene"
  then Ok HomeActionKind.Activate
  else Err ("unknown home action: " +:+ action).

(** Already what normalisation would produce: lower-case letters and ['_']. *)
Definition canonical_byte (a : ascii) : bool := Ascii.eqb a "_" || byte_is_lower a.
Definition is_canonical_shape (raw : string) : bool :=
  negb (is_empty raw) && sforall canonical_byte raw.

Definition map_synonym (action : string) : option string :=
  let mapped :=
    if existsb (String.eqb action)
         ["deactivate"; "disable"; "switch_off"; "power_off"; "shut_off"] then "turn_off"
    else if existsb (String.eqb action) ["enable"; "switch_on"; "power_on"] then "turn_on"
    else if String.eqb action "activate_scene" then "activate"
    else action in
  List.find (fun a => String.eqb a mapped) HOME_CONTROL_ACTIONS.

Section unicode.
Context `{U : Unicode}.

(** [raw.trim().to_lowercase().replace([' ', '-'], "_")]. *)
Definition separator_to_underscore (a : ascii) : ascii :=
  if Ascii.eqb a " " || Ascii.eqb a "-" then "_"%char else a.
Definition normalize_action (raw : string) : string :=
  smap separator_to_underscore (to_lowercase (trim raw)).

Definition canon_home_control_action (raw : string) : option string :=
  if is_canonical_shape raw then map_synonym raw
  else map_synonym (normalize_action raw).

Definition canonicalize_household_action
    (action : string) (v : option f64) : option (string * option f64) :=
  match canon_home_control_action action with
  | Some valid => Some (valid, v)
  | None => if String.eqb action "set_level" then Some ("set_brightness", v) else None
  end.

Context `{!UnicodeLaws U}.

(** ** The fast path is the slow path *)

Lemma normalize_canonical_shape raw :
  is_canonical_shape raw = true -> normalize_action raw = raw.
Proof.
  unfold is_canonical_shape, normalize_action. intros H. bool_to_prop.
  rewrite (trim_ascii_id canonical_byte) by done.
  rewrite to_lowercase_ascii.
  - unfold to_ascii_lowercase. rewrite (smap_id byte_to_lower).
    + apply smap_id. eapply sforall_impl; [|done].
      apply byte_forall2. by vm_compute.
    + eapply sforall_impl; [|done]. apply byte_forall2. by vm_compute.
  - eapply sforall_impl; [|done]. apply byte_forall2. by vm_compute.
Qed.

Lemma canon_is_normalized raw :
  canon_home_control_action raw = map_synonym (normalize_action raw).
Proof.
  unfold canon_home_control_action. destruct (is_canonical_shape raw) eqn:E; [|done].
  by rewrite normalize_canonical_shape.
Qed.

End unicode.

(** ** What canonicalisation returns *)

Lemma map_synonym_sound action verb :
  map_synonym action = Some verb -> verb ∈ HOME_CONTROL_ACTIONS.
Proof.
  unfold map_synonym. intros H. apply find_some in H as [H _]. by apply list_elem_of_In.
Qed.

Lemma control_actions_fixed :
  Forall (fun a => map_synonym a = Some a /\ is_canonical_shape a = true /\
                   is_ok (home_action_kind a) = true) HOME_CONTROL_ACTIONS.
Proof. repeat constructor; by vm_compute. Qed.

Lemma control_action_fixed a :
  a ∈ HOME_CONTROL_ACTIONS ->
  map_synonym a = Some a /\ is_canonical_shape a = true /\ is_ok (home_action_kind a) = true.
Proof. pose proof control_actions_fixed as H. rewrite Forall_forall in H. apply H. Qed.

Lemma home_action_kind_err action e :
  home_action_kind action = Err e -> e = "unknown home action: " +:+ action.
Proof. unfold home_action_kind. repeat case_match; naive_solver. Qed.

Lemma home_action_kind_inj a b k :
  a ∈ HOME_CONTROL_ACTIONS -> b ∈ HOME_CONTROL_ACTIONS ->
  home_action_kind a = Ok k -> home_action_kind b = Ok k -> a = b.
Proof.
  intros Ha Hb. unfold HOME_CONTROL_ACTIONS in *.
  repeat (apply elem_of_cons in Ha as [->|Ha]);
    repeat (apply elem_of_cons in Hb as [->|Hb]); vm_compute; try set_solver; congruence.
Qed.
