(* ===== verification/HomePolicy.v ===== *)
(** * The local household policy ([ha/policy.rs])

    Two gates stand between a resolved home action and the device: the policy
    on what the action is ([assess_home_action]) and the runtime safety check
    on the state of the integration ([assess_runtime_home_action]). *)

From S2P Require Import Prelude RustStr RustNum Json HomeTypes.
Local Open Scope string_scope.
Local Open Scope list_scope.

Module ActionRisk.

Inductive t : Set := Low | Medium | High.

#[export] Instance eq_dec : EqDecision t.
Proof. solve_decision. Defined.

(** [matches!(risk, Medium | High)]. *)
Definition is_sensitive (r : t) : bool :=
  match r with Low => false | Medium | High => true end.

End ActionRisk.
Export (hints) ActionRisk.

Record ActionPolicyDecision := {
  risk : ActionRisk.t;
  policy_allowed : bool;
  requires_confirmation : bool;
  policy_reason : string;
}.

Record RuntimeSafetyDecision := {
  runtime_allowed : bool;
  runtime_reason : string;
}.

Definition safety_allow (reason : string) : RuntimeSafetyDecision :=
  {| runtime_allowed := true; runtime_reason := reason |}.
Definition safety_deny (reason : string) : RuntimeSafetyDecision :=
  {| runtime_allowed := false; runtime_reason := reason |}.

Definition policy_allow (r : ActionRisk.t) (reason : string) : ActionPolicyDecision :=
  {| risk := r; policy_allowed := true; requires_confirmation := false; policy_reason := reason |}.
Definition policy_require_confirmation (r : ActionRisk.t) (reason : string) : ActionPolicyDecision :=
  {| risk := r; policy_allowed := false; requires_confirmation := true; policy_reason := reason |}.
Definition policy_deny (reason : string) : ActionPolicyDecision :=
  {| risk := ActionRisk.High; policy_allowed := false; requires_confirmation := false;
     policy_reason := reason |}.

Definition domain_or_empty (target : HomeTarget) : string :=
  match target_domain target with Some d => d | None => "" end.

Definition is_sensitive_domain (d : string) : bool :=
  existsb (String.eqb d) ["lock"; "alarm_control_panel"; "camera"].

Definition action_risk (domain : string) (kind : HomeActionKind.t) : ActionRisk.t :=
  match kind with
  | HomeActionKind.SetTemperature => if String.eqb domain "climate" then ActionRisk.Medium else ActionRisk.Low
  | HomeActionKind.Close => if String.eqb domain "cover" then ActionRisk.Medium else ActionRisk.Low
  | HomeActionKind.Toggle => if String.eqb domain "cover" then ActionRisk.Medium else ActionRisk.Low
  | HomeActionKind.Activate => if String.eqb domain "script" then ActionRisk.Medium else ActionRisk.Low
  | _ => ActionRisk.Low
  end.

Section policy.
Context `{U : Unicode}.

Definition opens_physical_barrier (target : HomeTarget) : bool :=
  let descriptor :=
    to_lowercase (display_name target +:+ " " +:+ target_query target +:+ " " +:+
                  join " " (entity_ids target)) in
  contains descriptor "garage" || contains descriptor "door" || contains descriptor "gate".

Definition assess_home_action (action : HomeAction) : ActionPolicyDecision :=
  let target := action_target action in
  let kind := action_kind action in
  let domain := domain_or_empty target in
  if bool_decide (kind = HomeActionKind.Activate)
     && bool_decide (target_kind target = HomeTargetKind.Script)
     && negb (voice_safe target)
  then policy_deny (display_name target +:+ " is not a voice-safe script")
  else if negb (voice_safe target)
  then policy_require_confirmation ActionRisk.High
         (display_name target +:+ " is not marked voice-safe")
  else if is_sensitive_domain domain
  then policy_require_confirmation ActionRisk.High
         (display_name target +:+ " controls a sensitive " +:+ domain +:+ " device")
  else if bool_decide (kind = HomeActionKind.Unlock)
  then policy_require_confirmation ActionRisk.High
         ("unlocking " +:+ display_name target +:+ " requires confirmation")
  else if bool_decide (kind = HomeActionKind.Open)
          && (String.eqb domain "cover" || opens_physical_barrier target)
  then policy_require_confirmation ActionRisk.High
         ("opening " +:+ display_name target +:+ " requires confirmation")
  else policy_allow (action_risk domain kind) "allowed by local household policy".

(** What the policy lets through without asking anyone. *)
Definition needs_no_confirmation (action : HomeAction) : Prop :=
  let target := action_target action in
  voice_safe target = true /\
  is_sensitive_domain (domain_or_empty target) = false /\
  action_kind action <> HomeActionKind.Unlock /\
  (action_kind action = HomeActionKind.Open ->
   domain_or_empty target <> "cover" /\ opens_physical_barrier target = false).

(** What the policy never lets through. *)
Definition unsafe_script (action : HomeAction) : Prop :=
  action_kind action = HomeActionKind.Activate /\
  target_kind (action_target action) = HomeTargetKind.Script /\
  voice_safe (action_target action) = false.

Lemma assess_allowed action :
  policy_allowed (assess_home_action action) = true <-> needs_no_confirmation action.
Proof.
  unfold assess_home_action, needs_no_confirmation.
  repeat case_match; simpl in *; bool_cases; destruct (voice_safe _); simplify_eq;
    split; try done; intros; destruct_and?; simplify_eq;
    repeat split; try done; naive_solver (bool_to_prop; naive_solver).
Qed.

Lemma assess_denied action :
  policy_allowed (assess_home_action action) = false /\
  requires_confirmation (assess_home_action action) = false <-> unsafe_script action.
Proof.
  unfold assess_home_action, unsafe_script.
  repeat case_match; simpl in *; bool_cases; intuition congruence.
Qed.

(** A decision that asks for a confirmation is rated high. *)
Lemma assess_confirmation_high action :
  requires_confirmation (assess_home_action action) = true ->
  risk (assess_home_action action) = ActionRisk.High /\
  policy_allowed (assess_home_action action) = false.
Proof. unfold assess_home_action. repeat case_match; simpl; naive_solver. Qed.

(** What is allowed outright is rated by its domain and verb. *)
Lemma assess_allowed_risk action :
  policy_allowed (assess_home_action action) = true ->
  risk (assess_home_action action) =
    action_risk (domain_or_empty (action_target action)) (action_kind action).
Proof.
  unfold assess_home_action. destruct (_ && _ && _); [done|].
  destruct (negb _); [done|]. destruct (is_sensitive_domain _); [done|].
  destruct (bool_decide _); [done|]. by destruct (_ && _).
Qed.

End policy.

(** The confidence the runtime gate asks of a target match. *)
Definition origin_floor (origin : RequestOrigin.t) (required : f32) : f32 :=
  match origin with
  | RequestOrigin.Voice => fl_max required (f32_dec 88 (-2))
  | RequestOrigin.Telegram => fl_max required (f32_dec 90 (-2))
  | RequestOrigin.Api => fl_max required (f32_dec 84 (-2))
  | _ => required
  end.

Definition required_confidence (config : ActuationSafetyConfig) (r : ActionRisk.t)
    (origin : RequestOrigin.t) (confirmed : bool) : f32 :=
  let required :=
    if ActionRisk.is_sensitive r then min_sensitive_confidence config
    else min_target_confidence config in
  if confirmed then required else origin_floor origin required.

Definition is_scene_or_script (k : HomeTargetKind.t) : bool :=
  match k with HomeTargetKind.Scene | HomeTargetKind.Script => true | _ => false end.

Definition assess_runtime_home_action (action : HomeAction) (policy : ActionPolicyDecision)
    (health : IntegrationHealth) (current_state : option HomeState)
    (config : ActuationSafetyConfig) (origin : RequestOrigin.t) (confirmed : bool)
    : RuntimeSafetyDecision :=
  let target := action_target action in
  let sensitive := ActionRisk.is_sensitive (risk policy) in
  if negb (safety_enabled config) then safety_allow "runtime safety gate disabled"
  else if negb (connected health) then
    safety_deny ("Home Assistant is not healthy enough for actuation: " +:+ health_message health)
  else if Nat.eqb (length (entity_ids target)) 0 then
    safety_deny "target resolution produced no concrete entities"
  else
    let required := required_confidence config (risk policy) origin confirmed in
    if SFltb (target_confidence target) required then
      safety_deny ("target match confidence " +:+ fmt_fixed 2 (target_confidence target) +:+
                   " is below required " +:+ fmt_fixed 2 required)
    else if deny_multi_target_sensitive config && sensitive
            && Nat.ltb 1 (length (entity_ids target)) then
      safety_deny ("sensitive action targets " +:+ show_nat (length (entity_ids target)) +:+
                   " entities, which is too broad")
    else
      let passed := safety_allow "passed runtime actuation safety checks" in
      if require_available_state config && negb (is_scene_or_script (target_kind target)) then
        match current_state with
        | Some state =>
            if available state then passed
            else safety_deny (display_name target +:+ " is currently unavailable")
        | None =>
            safety_deny ("runtime safety check could not verify current state for " +:+
                         display_name target)
        end
      else passed.

(** The conditions the runtime gate checks. *)
Definition runtime_safe (action : HomeAction) (r : ActionRisk.t) (health : IntegrationHealth)
    (current_state : option HomeState) (config : ActuationSafetyConfig)
    (origin : RequestOrigin.t) (confirmed : bool) : Prop :=
  let target := action_target action in
  connected health = true /\
  entity_ids target <> [] /\
  SFltb (target_confidence target) (required_confidence config r origin confirmed) = false /\
  (deny_multi_target_sensitive config = true -> ActionRisk.is_sensitive r = true ->
   length (entity_ids target) <= 1) /\
  (require_available_state config = true -> is_scene_or_script (target_kind target) = false ->
   exists state, current_state = Some state /\ available state = true).

Lemma runtime_allowed_safe action policy health st config origin confirmed :
  safety_enabled config = true ->
  runtime_allowed (assess_runtime_home_action action policy health st config origin confirmed) = true
  <-> runtime_safe action (risk policy) health st config origin confirmed.
Proof.
  intros Hen. unfold assess_runtime_home_action, runtime_safe. rewrite Hen. cbn [negb].
  destruct (connected health); cbn [negb]; [|naive_solver].
  destruct (entity_ids _) as [|e es] eqn:Ees; cbn [length Nat.eqb]; [naive_solver|].
  destruct (SFltb _ _); [naive_solver|].
  assert (e :: es <> []) as Hne by done.
  destruct (_ && _ && _) eqn:Em.
  { cbn. bool_to_prop. split; [done|]. intros (_&_&_&Hm&_). specialize (Hm ltac:(done) ltac:(done)).
    bool_to_prop. lia. }
  assert (deny_multi_target_sensitive config = true -> ActionRisk.is_sensitive (risk policy) = true ->
          length (e :: es) <= 1) as Hm.
  { intros H1 H2. rewrite H1, H2 in Em. cbn [andb] in Em. apply Nat.ltb_ge in Em. exact Em. }
  destruct (require_available_state config), (is_scene_or_script _); cbn [andb negb];
    [naive_solver| |naive_solver|naive_solver].
  destruct st as [st|]; [destruct (available st) eqn:?|]; naive_solver.
Qed.

Lemma runtime_allowed_when a policy health st config origin confirmed :
  runtime_allowed (assess_runtime_home_action a policy health st config origin confirmed) = true <->
  (safety_enabled config = true -> runtime_safe a (risk policy) health st config origin confirmed).
Proof.
  destruct (safety_enabled config) eqn:E.
  - rewrite runtime_allowed_safe by done. naive_solver.
  - unfold assess_runtime_home_action. rewrite E. naive_solver.
Qed.

(** A confirmed action is held to no higher bar. *)
Lemma runtime_safe_confirmed action r health st config origin :
  runtime_safe action r health st config origin false ->
  runtime_safe action r health st config origin true.
Proof.
  intros (?&?&Hc&?&?). split_and!; [done|done| |done|done]. revert Hc.
  unfold required_confidence, origin_floor. destruct origin; try done; apply SFltb_fl_max.
Qed.

(** ** Properties *)

(** The local policy is a three-way decision.  It allows exactly the actions
    that are voice-safe, outside the sensitive domains, no unlocking and no
    opening of a barrier; it refuses exactly the scripts that are not
    voice-safe; everything else waits for a confirmation and is rated high. *)
Lemma policy_decides_exactly `{U : Unicode} action :
  let d := assess_home_action action in
  (policy_allowed d = true <-> needs_no_confirmation action) /\
  (policy_allowed d = false /\ requires_confirmation d = false <-> unsafe_script action) /\
  (~ needs_no_confirmation action -> ~ unsafe_script action ->
   requires_confirmation d = true /\ risk d = ActionRisk.High).
Proof.
  cbv zeta. split_and!; [apply assess_allowed|apply assess_denied|].
  rewrite <- assess_allowed, <- assess_denied. intros Ha Hd.
  destruct (policy_allowed _); [done|].
  destruct (requires_confirmation _) eqn:Er; [|naive_solver].
  split; [done|]. by apply assess_confirmation_high.
Qed.

(** The runtime gate passes exactly when it is switched off or every check
    holds: a healthy integration, at least one entity, a match at least as
    confident as the risk and the origin ask for, no sensitive action on
    several entities, and an available state for anything but a scene or a
    script.  Confirming an action never makes the gate stricter. *)
Lemma runtime_gate_exact action policy health st config origin confirmed :
  (runtime_allowed (assess_runtime_home_action action policy health st config origin confirmed) = true
   <-> (safety_enabled config = true -> runtime_safe action (risk policy) health st config origin confirmed)) /\
  (runtime_allowed (assess_runtime_home_action action policy health st config origin false) = true ->
   runtime_allowed (assess_runtime_home_action action policy health st config origin true) = true).
Proof.
  split; [apply runtime_allowed_when|]. rewrite !runtime_allowed_when.
  intros H He. apply runtime_safe_confirmed. auto.
Qed.
