(* ===== verification/HomeControl.v ===== *)
(** * Structured home control ([tools/home.rs])

    [control] resolves a target, runs the two gates of [HomePolicy] around the
    confirmation rules, and only then hands the action to the provider.  The
    state is the outside world together with the list of the actions that were
    handed to [HomeAutomationProvider::execute], which is what the safety
    theorems are about. *)

From S2P Require Import Prelude RustStr RustNum Json HomeTypes HomeAction HomePolicy Scripted.
Local Open Scope string_scope.
Local Open Scope list_scope.
Local Open Scope rust_scope.

Record Env (W : Type) := {
  outside : W;
  executed : list HomeAction;
}.
Arguments outside {W} _.
Arguments executed {W} _.

Inductive ControlOutcome :=
| Executed (summary : string) (confidence : option f32)
| ConfirmationRequired (reason target_display : string).

Definition parse_action (action : string) : result HomeActionKind.t string :=
  if String.eqb action "turn_on" then Ok HomeActionKind.TurnOn
  else if String.eqb action "turn_off" then Ok HomeActionKind.TurnOff
  else if String.eqb action "toggle" then Ok HomeActionKind.Toggle
  else if String.eqb action "set_brightness" then Ok HomeActionKind.SetBrightness
  else if String.eqb action "set_temperature" then Ok HomeActionKind.SetTemperature
  else if String.eqb action "open" then Ok HomeActionKind.Open
  else if String.eqb action "close" then Ok HomeActionKind.Close
  else if String.eqb action "lock" then Ok HomeActionKind.Lock
  else if String.eqb action "unlock" then Ok HomeActionKind.Unlock
  else if String.eqb action "activate" || String.eqb action "activate_scene"
  then Ok HomeActionKind.Activate
  else Err ("unknown home action: " +:+ action).

Definition origin_label (origin : RequestOrigin.t) : option string :=
  match origin with
  | RequestOrigin.Voice => Some "voice"
  | RequestOrigin.Telegram => Some "telegram"
  | RequestOrigin.Api => Some "the API"
  | RequestOrigin.Dashboard => Some "the dashboard"
  | RequestOrigin.Repl => Some "the REPL"
  | RequestOrigin.Unknown | RequestOrigin.Confirmation => None
  end.

Section control.
Context {W : Type} `{Ops : World W} `{U : Unicode}.

(** A call on the outside world. *)
Definition world_call {A} (op : W -> A * W) : M (Env W) A :=
  fun s => let '(a, w) := op (outside s) in (a, {| outside := w; executed := executed s |}).

(** [home.execute(action)]: every call is recorded, whatever it returns. *)
Definition call_execute (action : HomeAction) : M (Env W) (result ActionResult string) :=
  fun s => let '(r, w) := ha_execute action (outside s) in
           (r, {| outside := w; executed := executed s ++ [action] |}).

Definition current_state (target : HomeTarget) : M (Env W) (result (option HomeState) string) :=
  if is_scene_or_script (target_kind target) then ret (Ok None)
  else
    let!? st := world_call (ha_get_state target) in
    ret (Ok (Some st)).

Definition control (target_query action : string) (v : option f64)
    (safety_config : ActuationSafetyConfig) (request_origin : RequestOrigin.t)
    (confirmed : bool) : M (Env W) (result ControlOutcome string) :=
  let!? kind := ret (parse_action action) in
  let!? target := world_call (ha_resolve_target target_query (Some kind)) in
  let action := {| action_kind := kind; action_target := target; action_value := v |} in
  let policy := assess_home_action action in
  if negb (policy_allowed policy) && negb (requires_confirmation policy) then
    ret (Err ("Home action blocked by local policy: " +:+ policy_reason policy))
  else if negb (policy_allowed policy) && requires_confirmation policy && negb confirmed then
    ret (Ok (ConfirmationRequired (policy_reason policy) (display_name target)))
  else
    match (if negb confirmed && bool_decide (risk policy <> ActionRisk.Low)
           then origin_label request_origin else None) with
    | Some label =>
        ret (Ok (ConfirmationRequired
          (display_name target +:+ " from " +:+ label +:+ " requires local confirmation")
          (display_name target)))
    | None =>
        let! health := world_call ha_health in
        let!? st := current_state target in
        let runtime :=
          assess_runtime_home_action action policy health st safety_config request_origin confirmed in
        if negb (runtime_allowed runtime) then
          ret (Err ("Home action blocked by runtime safety: " +:+ runtime_reason runtime))
        else
          let!? result := call_execute action in
          ret (Ok (Executed (spoken_summary result) (result_confidence result)))
    end.

Definition status (target_query : string) : M (Env W) (result string string) :=
  let!? target := world_call (ha_resolve_target target_query None) in
  let!? st := world_call (ha_get_state target) in
  ret (Ok (state_summary st)).

(** ** What must hold for an action to reach the provider *)

(** The caller's side: a confirmation, or an action that needs none. *)
Definition authorised (action : HomeAction) (origin : RequestOrigin.t) (confirmed : bool) : Prop :=
  ~ unsafe_script action /\
  (confirmed = true \/
   needs_no_confirmation action /\
   (risk (assess_home_action action) = ActionRisk.Low \/ origin_label origin = None)).

(** The run of [control] up to the provider, read off the outside world: the
    target it resolves, the health and the state it then observes. *)
Definition cleared (target_query action : string) (v : option f64)
    (config : ActuationSafetyConfig) (origin : RequestOrigin.t) (confirmed : bool)
    (w : W) (a : HomeAction) (w' : W) : Prop :=
  exists w1 w2 health st,
    parse_action action = Ok (action_kind a) /\
    ha_resolve_target target_query (Some (action_kind a)) w = (Ok (action_target a), w1) /\
    action_value a = v /\
    authorised a origin confirmed /\
    ha_health w1 = (health, w2) /\
    (if is_scene_or_script (target_kind (action_target a)) then st = None /\ w' = w2
     else exists s, ha_get_state (action_target a) w2 = (Ok s, w') /\ st = Some s) /\
    (safety_enabled config = true ->
     runtime_safe a (risk (assess_home_action a)) health st config origin confirmed).

Lemma authorised_iff a origin confirmed :
  authorised a origin confirmed <->
  ((negb (policy_allowed (assess_home_action a)) && negb (requires_confirmation (assess_home_action a))) = false /\
   (negb (policy_allowed (assess_home_action a)) && requires_confirmation (assess_home_action a) && negb confirmed) = false /\
   (if negb confirmed && bool_decide (risk (assess_home_action a) <> ActionRisk.Low)
    then origin_label origin else None) = None).
Proof.
  unfold authorised. rewrite <- assess_denied, <- assess_allowed.
  destruct (policy_allowed _) eqn:Ea, (requires_confirmation _) eqn:Er, confirmed; cbn [negb andb];
    try (apply assess_confirmation_high in Er as [_ ?]; congruence).
  all: try case_bool_decide; destruct (origin_label origin); naive_solver congruence.
Qed.

Lemma current_state_run target s :
  current_state target s =
  if is_scene_or_script (target_kind target) then (Ok None, s)
  else match ha_get_state target (outside s) with
       | (Ok st, w) => (Ok (Some st), {| outside := w; executed := executed s |})
       | (Err e, w) => (Err e, {| outside := w; executed := executed s |})
       end.
Proof.
  unfold current_state, ebind, world_call, ret. destruct (is_scene_or_script _); [done|].
  destruct (ha_get_state target (outside s)) as [[]]; done.
Qed.

(** [I] is kept by every call on the outside world but [execute]. *)
Definition kept_by_reads (I : W -> Prop) : Prop :=
  (forall q k w r w', ha_resolve_target q k w = (r, w') -> I w -> I w') /\
  (forall t w r w', ha_get_state t w = (r, w') -> I w -> I w') /\
  (forall w h w', ha_health w = (h, w') -> I w -> I w').

Lemma current_state_keeps (I : W -> Prop) target s r s' :
  kept_by_reads I -> current_state target s = (r, s') -> I (outside s) ->
  executed s' = executed s /\ I (outside s').
Proof.
  intros (_ & Hg & _). rewrite current_state_run. destruct (is_scene_or_script _); [by intros [= <- <-]|].
  destruct (ha_get_state target (outside s)) as [[st|e] w] eqn:E; intros [= <- <-] HI; eauto.
Qed.

(** A run that is not cleared leaves the record of executed actions alone; what
    the reads of the outside world keep holds up to the call of the provider. *)
Lemma control_run_keeping (I : W -> Prop) q action v config origin confirmed s r s' :
  kept_by_reads I -> I (outside s) ->
  control q action v config origin confirmed s = (r, s') ->
  (executed s' = executed s /\ I (outside s') /\ (forall m c, r <> Ok (Executed m c))) \/
  exists a w ar w',
    cleared q action v config origin confirmed (outside s) a w /\ I w /\
    ha_execute a w = (ar, w') /\
    s' = {| outside := w'; executed := executed s ++ [a] |} /\
    r = match ar with
        | Ok res => Ok (Executed (spoken_summary res) (result_confidence res))
        | Err e => Err e
        end.
Proof.
  intros HK HI. pose proof HK as (HKr & HKg & HKh).
  unfold control, ebind at 1, ret at 1.
  destruct (parse_action action) as [k|e] eqn:Hk; [|naive_solver].
  unfold ebind at 1, world_call at 1.
  destruct (ha_resolve_target q (Some k) (outside s)) as [[t|e] w1] eqn:Ht;
    apply HKr in Ht as HI1; [|done|naive_solver|done].
  set (a := {| action_kind := k; action_target := t; action_value := v |}).
  change t with (action_target a).
  destruct (negb _ && negb _) eqn:E1; [unfold ret; naive_solver|].
  destruct (negb _ && _ && negb confirmed) eqn:E2; [unfold ret; naive_solver|].
  destruct (if negb confirmed && _ then _ else _) eqn:E3; [unfold ret; naive_solver|].
  unfold bind at 1, world_call at 1. cbn [outside executed].
  destruct (ha_health w1) as [health w2] eqn:Hh. apply HKh in Hh as HI2; [|done].
  unfold ebind at 1.
  destruct (current_state _ _) as [[st|e] s3] eqn:Hs;
    apply (current_state_keeps I) in Hs as Hs'; try done; destruct Hs' as [Hx HI3];
    [|unfold ret; intros [= <- <-]; left; by split_and!].
  destruct (runtime_allowed _) eqn:Hrt; cbn [negb];
    [|unfold ret; intros [= <- <-]; left; by split_and!].
  unfold ebind, call_execute, ret.
  destruct (ha_execute a (outside s3)) as [ar w'] eqn:He. intros Hr. right.
  exists a, (outside s3), ar, w'. rewrite Hx in Hr. cbn [executed] in Hr.
  split_and!; [|done|done|by destruct ar; injection Hr as <- <-|by destruct ar; injection Hr as <- <-].
  exists w1, w2, health, st. rewrite runtime_allowed_when in Hrt.
  assert (authorised a origin confirmed) as Hau by by apply authorised_iff.
  split_and!; try done.
  rewrite current_state_run in Hs. cbn [outside executed] in Hs.
  destruct (is_scene_or_script _); [by injection Hs as <- <-|].
  destruct (ha_get_state _ w2) as [[st'|e] w3] eqn:Hg; [injection Hs as <- <-; eauto|discriminate Hs].
Qed.

Lemma control_run q action v config origin confirmed s r s' :
  control q action v config origin confirmed s = (r, s') ->
  executed s' = executed s /\ (forall m c, r <> Ok (Executed m c)) \/
  exists a w ar w',
    cleared q action v config origin confirmed (outside s) a w /\
    ha_execute a w = (ar, w') /\
    s' = {| outside := w'; executed := executed s ++ [a] |} /\
    r = match ar with
        | Ok res => Ok (Executed (spoken_summary res) (result_confidence res))
        | Err e => Err e
        end.
Proof.
  intros H. apply (control_run_keeping (fun _ => True)) in H; [|by split_and!|done].
  destruct H as [(? & _ & ?)|(a & w & ar & w' & ? & _ & ?)]; [by left|right; by exists a, w, ar, w'].
Qed.

(** A cleared run does reach the provider. *)
Lemma control_cleared_runs q action v config origin confirmed s a w :
  cleared q action v config origin confirmed (outside s) a w ->
  executed (control q action v config origin confirmed s).2 = executed s ++ [a].
Proof.
  intros (w1 & w2 & health & st & Hk & Ht & <- & Hau & Hh & Hst & Hrt).
  unfold control, ebind at 1, ret at 1. rewrite Hk.
  unfold ebind at 1, world_call at 1. rewrite Ht.
  destruct a as [k t v]. cbn [action_kind action_target action_value] in *.
  apply authorised_iff in Hau as (-> & -> & ->).
  unfold bind at 1, world_call at 1. cbn [outside executed]. rewrite Hh.
  unfold ebind at 1. rewrite current_state_run. cbn [outside executed].
  rewrite <- runtime_allowed_when in Hrt.
  destruct (is_scene_or_script _).
  - destruct Hst as [-> ->]. rewrite Hrt. cbn [negb]. unfold ebind, call_execute, ret. cbn [outside executed].
    destruct (ha_execute _ w2) as [[res|e] w']; done.
  - destruct Hst as (st' & Hs & ->). rewrite Hs, Hrt. cbn [negb].
    unfold ebind, call_execute, ret. cbn [outside executed].
    destruct (ha_execute _ w) as [[res|e] w']; done.
Qed.

(** ** Properties *)

(** C2: [control] hands at most one action to the provider, and it does so
    exactly when the run is cleared: the verb parses, the target resolves, the
    action is authorised (the caller confirmed, or the policy asks for nothing
    and the risk is low or the origin has no confirmation surface), it is not
    an unsafe script, and the runtime safety gate holds of the health and the
    state read from the provider.  The action handed over is the one that was
    checked. *)
Theorem control_executes_exactly q action v config origin confirmed s :
  let s' := (control q action v config origin confirmed s).2 in
  (executed s' = executed s /\
   ~ exists a w, cleared q action v config origin confirmed (outside s) a w) \/
  (exists a w, cleared q action v config origin confirmed (outside s) a w /\
               executed s' = executed s ++ [a]).
Proof.
  cbv zeta. destruct (control q action v config origin confirmed s) as [r s'] eqn:E.
  apply control_run in E as Hr. cbn [snd].
  destruct Hr as [[He _]|(a & w & ar & w' & Hc & _ & -> & _)]; [left|right; by exists a, w].
  split; [done|]. intros (a & w & Hc). pose proof (control_cleared_runs _ _ _ _ _ _ _ _ _ Hc) as Hx.
  rewrite E in Hx. cbn [snd] in Hx. rewrite He in Hx. apply (f_equal length) in Hx.
  rewrite length_app in Hx. cbn in Hx. lia.
Qed.

(** Without a confirmation, no run of [control] for an origin that has a
    confirmation surface reaches the provider with an action that is rated
    above low risk or that the policy wants confirmed; it parks a confirmation
    request or fails. *)
Lemma control_unconfirmed_is_low_risk q action v config origin s a :
  origin_label origin <> None ->
  executed (control q action v config origin false s).2 = executed s ++ [a] ->
  needs_no_confirmation a /\ risk (assess_home_action a) = ActionRisk.Low /\
  (safety_enabled config = true -> entity_ids (action_target a) <> []).
Proof.
  intros Ho He. destruct (control q action v config origin false s) as [r s'] eqn:E.
  apply control_run in E as [[He' _]|(a' & w & ar & w' & Hc & _ & -> & _)]; cbn [snd executed] in *.
  { rewrite He' in He. apply (f_equal length) in He. rewrite length_app in He. cbn in He. lia. }
  apply app_inv_head in He. injection He as ->.
  destruct Hc as (w1 & w2 & health & st & _ & _ & _ & Hau & _ & _ & Hrt).
  destruct Hau as [_ [?|[Hn [Hr|?]]]]; [done| |done].
  split_and!; [done|done|]. intros Hen. by destruct (Hrt Hen) as (_ & ? & _).
Qed.

End control.

Section concrete.
#[local] Existing Instance ascii_tables.

Definition lamp_env : Env scripted := {| outside := lamp_world; executed := [] |}.
Definition lamp_on : HomeAction :=
  {| action_kind := HomeActionKind.TurnOn; action_target := lamp; action_value := None |}.

Lemma control_unconfirmed_is_low_risk_witness :
  needs_no_confirmation lamp_on /\ risk (assess_home_action lamp_on) = ActionRisk.Low /\
  (safety_enabled default_actuation_safety = true -> entity_ids (action_target lamp_on) <> []).
Proof.
  apply (control_unconfirmed_is_low_risk "lamp" "turn_on" None default_actuation_safety
           RequestOrigin.Voice lamp_env lamp_on); [discriminate|vm_compute; reflexivity].
Defined.

End concrete.
