(* ===== verification/HomeGraph.v ===== *)
(** * The home graph and target resolution ([ha/provider.rs], [ha/entity_fidelity.rs])

    What Home Assistant reports, indexed by room, domain and spoken alias, and
    the resolution of a spoken phrase to the entities it means.  Scores are
    binary32 values that compute as the code's do. *)

From S2P Require Import Prelude RustStr RustNum Json HomeTypes HomePolicy.
From Stdlib Require Import Ascii.
Local Open Scope string_scope.
Local Open Scope list_scope.

Definition f32_sub := SFsub 24 128.
Definition f32_lit := f32_dec.

(** ** Data *)

Record AreaRef := { ar_id : string; ar_name : string; ar_aliases : list string }.

Record EntityRef := {
  er_entity_id : string;
  er_name : string;
  er_domain : string;
  er_area : option string;
  er_aliases : list string;
  er_state : string;
  er_capabilities : list string;
}.

Record DeviceRef := {
  dr_id : string;
  dr_name : string;
  dr_domain : string;
  dr_area : option string;
  dr_entity_ids : list string;
  dr_aliases : list string;
  dr_capabilities : list string;
}.

Record SceneRef := {
  sn_entity_id : string;
  sn_name : string;
  sn_area : option string;
  sn_aliases : list string;
  sn_voice_safe : bool;
}.

Record ScriptRef := {
  sr_entity_id : string;
  sr_name : string;
  sr_area : option string;
  sr_aliases : list string;
  sr_voice_safe : bool;
}.

Record AliasRef := { al_alias : string; al_target_id : string; al_kind : string }.

Record HomeGraph := {
  areas : list AreaRef;
  devices : list DeviceRef;
  entities : list EntityRef;
  scenes : list SceneRef;
  scripts : list ScriptRef;
  aliases : list AliasRef;
  domains : list string;
  capabilities : list string;
}.

Record AreaTemplateEntry := { at_id : string; at_name : string; at_entities : list string }.

(** [Entity::friendly_name]. *)
Definition friendly_name (e : Entity) : string :=
  match get (attributes e) "friendly_name" with
  | Some v => default (entity_id e) (as_str v)
  | None => entity_id e
  end.

(** [BTreeSet::insert], on the list of the set's elements in order. *)
Fixpoint btree_insert (s : string) (l : list string) : list string :=
  match l with
  | [] => [s]
  | t :: l' =>
      if String.eqb s t then l
      else if String.ltb s t then s :: l
      else t :: btree_insert s l'
  end.

(** [str::split] on the characters that satisfy [p]. *)
Fixpoint split_when (p : string -> bool) (cur : string) (cs : list string) : list string :=
  match cs with
  | [] => [cur]
  | c :: cs => if p c then cur :: split_when p "" cs else split_when p (cur +:+ c) cs
  end.

Definition elem_str (s : string) (l : list string) : bool := existsb (String.eqb s) l.

(** ** Words *)

Definition BENIGN_QUERY_TOKENS : list string :=
  ["all"; "the"; "a"; "an"; "every"; "any"; "my"; "our"; "this"; "that"; "please"; "now"; "here";
   "turn"; "switch"; "set"; "get"; "status"; "of"; "to"; "in"].

(** The arms of [domain_of_word]. *)
Definition domain_words : list (list string * string) :=
  [(["light"; "lights"; "lamp"; "lamps"], "light");
   (["fan"; "fans"], "fan");
   (["thermostat"; "temperature"; "heat"; "heating"; "cooling"; "ac"], "climate");
   (["blind"; "blinds"; "shade"; "shades"; "curtain"; "curtains"; "cover"; "covers"; "garage"], "cover");
   (["lock"; "locks"; "unlock"], "lock");
   (["switch"; "switches"; "plug"; "outlet"], "switch")].

Definition domain_of_word (word : string) : option string :=
  snd <$> find (fun arm => elem_str word arm.1) domain_words.

Definition domain_synonyms (domain : string) : list string :=
  if String.eqb domain "light" then ["light"; "lights"; "lamp"; "lamps"]
  else if String.eqb domain "switch" then ["switch"; "switches"; "plug"; "outlet"]
  else if String.eqb domain "fan" then ["fan"; "fans"]
  else if String.eqb domain "climate" then ["thermostat"; "temperature"; "heater"]
  else if String.eqb domain "cover" then ["cover"; "covers"; "blind"; "blinds"]
  else if String.eqb domain "lock" then ["lock"; "locks"; "door lock"]
  else if String.eqb domain "scene" then ["scene"; "scenes"]
  else if String.eqb domain "script" then ["script"; "routine"]
  else [].

Definition is_voice_relevant_domain (domain : string) : bool :=
  elem_str domain ["light"; "switch"; "fan"; "scene"; "script"; "climate"; "cover"; "lock";
                   "sensor"; "binary_sensor"; "media_player"].

Definition capabilities_for (domain : string) (attributes : value) : list string :=
  [domain] ++
  (if String.eqb domain "light" then
     ["turn_on"; "turn_off"] ++
     match get attributes "brightness" with Some _ => ["set_brightness"] | None => [] end
   else if String.eqb domain "switch" || String.eqb domain "fan" then ["turn_on"; "turn_off"]
   else if String.eqb domain "climate" then ["set_temperature"]
   else if String.eqb domain "cover" then ["open"; "close"]
   else if String.eqb domain "lock" then ["lock"; "unlock"]
   else if String.eqb domain "scene" || String.eqb domain "script" then ["activate"]
   else []).

Definition domain_label (domain : string) (count : nat) : string :=
  let one := Nat.eqb count 1 in
  if String.eqb domain "light" then (if one then "light" else "lights")
  else if String.eqb domain "switch" then (if one then "switch" else "switches")
  else if String.eqb domain "fan" then (if one then "fan" else "fans")
  else if String.eqb domain "cover" then (if one then "cover" else "covers")
  else if String.eqb domain "lock" then (if one then "lock" else "locks")
  else if String.eqb domain "climate" then (if one then "thermostat" else "thermostats")
  else "devices".

Definition domain_plural_label (domain : string) : string :=
  if String.eqb domain "light" then "lights"
  else if String.eqb domain "switch" then "switches"
  else if String.eqb domain "fan" then "fans"
  else if String.eqb domain "cover" then "covers"
  else if String.eqb domain "lock" then "locks"
  else if String.eqb domain "climate" then "thermostats"
  else "devices".

(** [entity_id.split('.').next().unwrap_or("")]. *)
Definition domain_of_id (id : string) : string := default "" (head (split_char id ".")).

(** [dedup_aliases]: trimmed, non-empty, first occurrences. *)
Fixpoint dedup_from (seen : list string) (values : list string) : list string :=
  match values with
  | [] => []
  | v :: values =>
      let v := trim v in
      if negb (is_empty v) && negb (elem_str v seen)
      then v :: dedup_from (v :: seen) values
      else dedup_from seen values
  end.
Definition dedup_aliases (values : list string) : list string := dedup_from [] values.

Definition is_activate_or_none (hint : option HomeActionKind.t) : bool :=
  bool_decide (hint = Some HomeActionKind.Activate) || bool_decide (hint = None).

Section graph.
Context `{U : Unicode}.

Definition query_tokens (text : string) : list string :=
  base.filter (fun s => is_empty s = false)
    (split_when (fun c => negb (is_alphanumeric c)) "" (chars (to_lowercase text))).

Definition normalize (input : string) : string :=
  let spaced :=
    concat_str ((fun ch =>
      if char_byte is_ascii_alphanumeric ch || char_byte is_ascii_whitespace ch then ch else " ")
      <$> chars (to_lowercase input)) in
  join " " (split_whitespace spaced).

(** ** Whole-home fidelity *)

(** [whole_home_resolution_is_trustworthy] on the views of the entities. *)
Definition whole_home_resolution_is_trustworthy (es : list EntityRef) (text : string) : bool :=
  let tokens := query_tokens text in
  match head (filter_map domain_of_word tokens) with
  | None => true
  | Some domain =>
      let valid_place :=
        mjoin (query_tokens <$>
               filter_map er_area (List.filter (fun e => String.eqb (er_domain e) domain) es)) in
      forallb (fun token =>
        match domain_of_word token with Some _ => true | None => false end
        || elem_str token BENIGN_QUERY_TOKENS
        || elem_str token valid_place) tokens
  end.

(** ** Building the graph *)

Definition build_aliases (name domain : string) (area : option string) : list string :=
  dedup_aliases
    ([normalize name] ++ domain_synonyms domain ++
     match area with
     | Some area =>
         let area_norm := normalize area in
         [area_norm +:+ " " +:+ normalize name] ++
         ((fun synonym => area_norm +:+ " " +:+ synonym) <$> domain_synonyms domain)
     | None => []
     end).

Definition is_voice_safe_script (e : Entity) : bool :=
  let raw_name := to_lowercase (friendly_name e) in
  let raw_entity_id := to_lowercase (entity_id e) in
  let name := normalize (friendly_name e) in
  let id := normalize (replace (entity_id e) "." " ") in
  contains raw_name "[voice]" || contains raw_name "(voice)" || starts_with name "voice "
  || contains id " voice " || contains raw_entity_id "voice_" || contains raw_entity_id "genie_".

Definition empty_graph : HomeGraph :=
  {| areas := []; devices := []; entities := []; scenes := []; scripts := []; aliases := [];
     domains := []; capabilities := [] |}.

(** One round of the loop over the areas: the room of each entity, and the
    area with its aliases. *)
Definition add_area (acc : gmap string string * HomeGraph) (area : AreaTemplateEntry)
    : gmap string string * HomeGraph :=
  let '(entity_to_area, g) := acc in
  let als := dedup_aliases [normalize (at_name area)] in
  (foldl (fun m id => <[id := at_name area]> m) entity_to_area (at_entities area),
   {| areas := areas g ++ [{| ar_id := at_id area; ar_name := at_name area; ar_aliases := als |}];
      devices := devices g; entities := entities g; scenes := scenes g; scripts := scripts g;
      aliases := aliases g ++
        ((fun a => {| al_alias := a; al_target_id := at_id area; al_kind := "area" |}) <$> als);
      domains := domains g; capabilities := capabilities g |}).

(** The references to one reported entity. *)
Definition entity_ref (entity_to_area : gmap string string) (e : Entity) : EntityRef :=
  let domain := domain_of_id (entity_id e) in
  let area := entity_to_area !! entity_id e in
  {| er_entity_id := entity_id e; er_name := friendly_name e; er_domain := domain; er_area := area;
     er_aliases := build_aliases (friendly_name e) domain area; er_state := entity_state e;
     er_capabilities := capabilities_for domain (attributes e) |}.

Definition scene_ref (r : EntityRef) : SceneRef :=
  {| sn_entity_id := er_entity_id r; sn_name := er_name r; sn_area := er_area r;
     sn_aliases := er_aliases r; sn_voice_safe := true |}.
Definition script_ref (e : Entity) (r : EntityRef) : ScriptRef :=
  {| sr_entity_id := er_entity_id r; sr_name := er_name r; sr_area := er_area r;
     sr_aliases := er_aliases r; sr_voice_safe := is_voice_safe_script e |}.
Definition device_ref (r : EntityRef) : DeviceRef :=
  {| dr_id := er_entity_id r; dr_name := er_name r; dr_domain := er_domain r; dr_area := er_area r;
     dr_entity_ids := [er_entity_id r]; dr_aliases := er_aliases r;
     dr_capabilities := er_capabilities r |}.

(** One round of the loop over the states. *)
Definition add_state (entity_to_area : gmap string string) (g : HomeGraph) (e : Entity) : HomeGraph :=
  let domain := domain_of_id (entity_id e) in
  if negb (is_voice_relevant_domain domain) then g
  else
    let r := entity_ref entity_to_area e in
    {| areas := areas g;
       devices := devices g ++
         (if String.eqb domain "scene" || String.eqb domain "script" then [] else [device_ref r]);
       entities := entities g ++ [r];
       scenes := scenes g ++ (if String.eqb domain "scene" then [scene_ref r] else []);
       scripts := scripts g ++ (if String.eqb domain "script" then [script_ref e r] else []);
       aliases := aliases g ++
         ((fun a => {| al_alias := a; al_target_id := entity_id e; al_kind := domain |}) <$> er_aliases r);
       domains := btree_insert domain (domains g);
       capabilities := foldl (fun l c => btree_insert c l) (capabilities g) (er_capabilities r) |}.

Definition build_graph (states : list Entity) (area_entries : list AreaTemplateEntry) : HomeGraph :=
  let '(entity_to_area, g) := foldl add_area (∅, empty_graph) area_entries in
  foldl (add_state entity_to_area) g states.

(** ** Scores *)

Definition fuzzy_score (query_words : list string) (query_lower candidate : string) : f32 :=
  let candidate_words := split_whitespace candidate in
  let score :=
    if String.eqb candidate query_lower then f32_add (f32_lit 0 0) (f32_lit 1 0)
    else if contains candidate query_lower || contains query_lower candidate
    then f32_add (f32_lit 0 0) (f32_lit 75 (-2))
    else f32_lit 0 0 in
  let score :=
    if negb (Nat.eqb (length query_words) 0) then
      let matching :=
        length (List.filter (fun qw =>
          existsb (fun cw => contains cw qw || contains qw cw) candidate_words) query_words) in
      f32_add score
        (f32_mul (f32_div (f32_of_Z (Z.of_nat matching)) (f32_of_Z (Z.of_nat (length query_words))))
                 (f32_lit 35 (-2)))
    else score in
  let score :=
    if starts_with candidate query_lower then f32_add score (f32_lit 15 (-2)) else score in
  fl_min score (f32_lit 1 0).

Definition best_alias_score (query_words : list string) (query_lower : string)
    (als : list string) : f32 :=
  foldl fl_max (f32_lit 0 0) (fuzzy_score query_words query_lower <$> als).

(** [best.as_ref().is_none_or(|(s, _)| score > *s)]. *)
Definition beats {A} (score : f32) (best : option (f32 * A)) : bool :=
  match best with Some (s, _) => SFltb s score | None => true end.

Definition best_area_match (ars : list AreaRef) (query : string) : option (string * f32) :=
  let query_words := split_whitespace query in
  foldl (fun best area =>
    let score := best_alias_score query_words query (ar_aliases area) in
    if SFltb (f32_lit 45 (-2)) score
       && match best with Some (_, s) => SFltb s score | None => true end
    then Some (ar_name area, score) else best) None ars.

Definition infer_domain (query : string) : option string :=
  let tokens := query_tokens query in
  find (fun domain =>
    existsb (fun token =>
      match domain_of_word token with Some d => String.eqb d domain | None => false end
      || String.eqb domain "climate" && elem_str token ["warmer"; "cooler"]) tokens)
    ["light"; "switch"; "fan"; "climate"; "cover"; "lock"].

Definition query_is_bare_area_domain (query_lower area_name domain : string) : bool :=
  let area_tokens := split_whitespace (normalize area_name) in
  let domain_tokens := mjoin (split_whitespace <$> domain_synonyms domain) in
  forallb (fun token =>
    elem_str token area_tokens || elem_str token domain_tokens
    || match domain_of_word token with Some d => String.eqb d domain | None => false end)
    (split_whitespace query_lower).

Definition query_is_bare_area (query_lower area_name : string) : bool :=
  let area_tokens := split_whitespace (normalize area_name) in
  forallb (fun token => elem_str token area_tokens) (split_whitespace query_lower).

Definition NAMED_ENTITY_MATCH_THRESHOLD : f32 := f32_lit 42 (-2).
Definition NAMED_ENTITY_TIE_EPSILON : f32 := f32_lit 1 (-3).
Definition WHOLE_HOME_DOMAIN_CONFIDENCE : f32 := f32_lit 90 (-2).

Definition is_scene_or_script_domain (d : string) : bool :=
  String.eqb d "scene" || String.eqb d "script".

(** One round of [tied_named_entity_matches]. *)
Definition tie_step (query_words : list string) (query_lower : string)
    (acc : f32 * list EntityRef) (e : EntityRef) : f32 * list EntityRef :=
  let '(best, tied) := acc in
  if is_scene_or_script_domain (er_domain e) then acc
  else
    let score := best_alias_score query_words query_lower (er_aliases e) in
    if SFleb score NAMED_ENTITY_MATCH_THRESHOLD then acc
    else if SFltb (f32_add best NAMED_ENTITY_TIE_EPSILON) score then (score, [e])
    else if SFleb (SFabs (f32_sub score best)) NAMED_ENTITY_TIE_EPSILON
    then (fl_max best score, tied ++ [e])
    else acc.

Definition tied_named_entity_matches (graph : HomeGraph) (query_lower : string)
    (query_words : list string) : f32 * list EntityRef :=
  foldl (tie_step query_words query_lower) (f32_lit 0 0, []) (entities graph).

Definition top_named_entity_match (graph : HomeGraph) (query_lower : string)
    (query_words : list string) : option (f32 * EntityRef) :=
  match tied_named_entity_matches graph query_lower query_words with
  | (score, [e]) => Some (score, e)
  | _ => None
  end.

Definition ambiguous_named_entity_candidates (graph : HomeGraph) (query : string)
    : option (list string) :=
  let query_lower := normalize query in
  let '(_, tied) := tied_named_entity_matches graph query_lower (split_whitespace query_lower) in
  if Nat.ltb 1 (length tied) then Some (er_name <$> tied) else None.

Definition format_disambiguation_candidates (candidates : list string) : string :=
  match candidates with
  | [] => ""
  | [a] => a
  | [a; b] => a +:+ " or " +:+ b
  | _ => join ", " (take (length candidates - 1) candidates) +:+ ", or " +:+
         default "" (last candidates)
  end.

(** ** Resolution *)

(** The target for one named or identified entity. *)
Definition entity_target (query : string) (e : EntityRef) (confidence : f32) : HomeTarget :=
  {| target_kind := HomeTargetKind.Entity; target_query := query; display_name := er_name e;
     entity_ids := [er_entity_id e]; target_domain := Some (er_domain e); target_area := er_area e;
     target_confidence := confidence; voice_safe := negb (String.eqb (er_domain e) "lock") |}.
Definition scene_target (query : string) (s : SceneRef) (confidence : f32) : HomeTarget :=
  {| target_kind := HomeTargetKind.Scene; target_query := query; display_name := sn_name s;
     entity_ids := [sn_entity_id s]; target_domain := Some "scene"; target_area := sn_area s;
     target_confidence := confidence; voice_safe := true |}.
Definition script_target (query : string) (s : ScriptRef) (confidence : f32) (vs : bool) : HomeTarget :=
  {| target_kind := HomeTargetKind.Script; target_query := query; display_name := sr_name s;
     entity_ids := [sr_entity_id s]; target_domain := Some "script"; target_area := sr_area s;
     target_confidence := confidence; voice_safe := vs |}.

Definition resolve_exact_entity_id (graph : HomeGraph) (query : string)
    (action_hint : option HomeActionKind.t) : option HomeTarget :=
  let query := trim query in
  e ← find (fun e => eq_ignore_ascii_case (er_entity_id e) query) (entities graph);
  if is_scene_or_script_domain (er_domain e) && negb (is_activate_or_none action_hint) then None
  else if String.eqb (er_domain e) "scene" then
    Some {| target_kind := HomeTargetKind.Scene; target_query := query; display_name := er_name e;
            entity_ids := [er_entity_id e]; target_domain := Some (er_domain e);
            target_area := er_area e; target_confidence := f32_lit 1 0; voice_safe := true |}
  else if String.eqb (er_domain e) "script" then
    s ← find (fun s => eq_ignore_ascii_case (sr_entity_id s) query) (scripts graph);
    Some (script_target query s (f32_lit 1 0) (sr_voice_safe s))
  else Some (entity_target query e (f32_lit 1 0)).

Definition resolve_domain_target (graph : HomeGraph) (query domain : string) : option HomeTarget :=
  let ids := er_entity_id <$> List.filter (fun e => String.eqb (er_domain e) domain) (entities graph) in
  if Nat.eqb (length ids) 0 then None
  else if negb (whole_home_resolution_is_trustworthy (entities graph) query) then None
  else
    Some {| target_kind := HomeTargetKind.Group; target_query := query;
            display_name := "All " +:+ domain_plural_label domain;
            entity_ids := ids; target_domain := Some domain; target_area := None;
            target_confidence := WHOLE_HOME_DOMAIN_CONFIDENCE;
            voice_safe := negb (String.eqb domain "lock") |}.

Definition in_room (domain area_name : string) (e : EntityRef) : bool :=
  String.eqb (er_domain e) domain && bool_decide (er_area e = Some area_name).

Definition resolve_group_target (graph : HomeGraph) (query domain area_name : string)
    (confidence : f32) : option HomeTarget :=
  let ids := er_entity_id <$> List.filter (in_room domain area_name) (entities graph) in
  if Nat.eqb (length ids) 0 then None
  else
    Some {| target_kind := HomeTargetKind.Group; target_query := query;
            display_name := area_name +:+ " " +:+ domain_label domain (length ids);
            entity_ids := ids; target_domain := Some domain; target_area := Some area_name;
            target_confidence := confidence; voice_safe := negb (String.eqb domain "lock") |}.

(** The rounds of the scene and of the script loop of [resolve_named_entity]. *)
Definition scene_step (query : string) (query_words : list string) (query_lower : string)
    (best : option (f32 * HomeTarget)) (s : SceneRef) : option (f32 * HomeTarget) :=
  let score := best_alias_score query_words query_lower (sn_aliases s) in
  if SFltb (f32_lit 42 (-2)) score && beats score best
  then Some (score, scene_target query s score) else best.
Definition script_step (query : string) (query_words : list string) (query_lower : string)
    (best : option (f32 * HomeTarget)) (s : ScriptRef) : option (f32 * HomeTarget) :=
  let score := best_alias_score query_words query_lower (sr_aliases s) in
  if sr_voice_safe s && SFltb (f32_lit 42 (-2)) score && beats score best
  then Some (score, script_target query s score true) else best.

Definition resolve_named_entity (graph : HomeGraph) (query : string)
    (action_hint : option HomeActionKind.t) : option HomeTarget :=
  let query_lower := normalize query in
  let query_words := split_whitespace query_lower in
  let best_scene :=
    if bool_decide (action_hint = Some HomeActionKind.Activate) then
      foldl (script_step query query_words query_lower)
        (foldl (scene_step query query_words query_lower) None (scenes graph)) (scripts graph)
    else None in
  let best_entity :=
    '(score, e) ← top_named_entity_match graph query_lower query_words;
    Some (score, entity_target query e score) in
  snd <$> match best_scene with Some b => Some b | None => best_entity end.

(** [Option::or_else], for the early returns. *)
Definition or_try {A} (o : option A) (k : option A) : option A :=
  match o with Some a => Some a | None => k end.

Definition resolve_target_in_graph (graph : HomeGraph) (query : string)
    (action_hint : option HomeActionKind.t) : option HomeTarget :=
  let query_lower := normalize query in
  or_try (resolve_exact_entity_id graph query action_hint) (
  let area_match := best_area_match (areas graph) query_lower in
  let domain_match := infer_domain query_lower in
  or_try
    (match area_match, domain_match with
     | Some (area_name, area_score), Some domain =>
         if query_is_bare_area_domain query_lower area_name domain then
           resolve_group_target graph query domain area_name area_score
         else
           or_try (resolve_named_entity graph query action_hint)
                  (resolve_group_target graph query domain area_name area_score)
     | _, _ => None
     end) (
  or_try
    (match area_match, domain_match with
     | None, Some domain => resolve_domain_target graph query domain
     | _, _ => None
     end) (
  or_try
    (match action_hint, area_match with
     | None, Some (area_name, area_score) =>
         or_try
           (if negb (query_is_bare_area query_lower area_name)
            then resolve_named_entity graph query action_hint else None)
           (resolve_group_target graph query "light" area_name (f32_mul area_score (f32_lit 8 (-1))))
     | _, _ => None
     end)
  (resolve_named_entity graph query action_hint)))).

Definition query_rejects_whole_home_fidelity (graph : HomeGraph) (query : string) : bool :=
  let query_lower := normalize query in
  match best_area_match (areas graph) query_lower, infer_domain query_lower with
  | None, Some _ => negb (whole_home_resolution_is_trustworthy (entities graph) query)
  | _, _ => false
  end.

End graph.

(** ** The graph, declaratively *)

Section built.
Context `{U : Unicode}.

Definition relevant (e : Entity) : bool := is_voice_relevant_domain (domain_of_id (entity_id e)).
Definition has_domain (d : string) (e : Entity) : bool := String.eqb (domain_of_id (entity_id e)) d.

(** The room of an entity: the last area that lists it. *)
Definition area_index (area_entries : list AreaTemplateEntry) : gmap string string :=
  foldl (fun m area => foldl (fun m id => <[id := at_name area]> m) m (at_entities area)) ∅ area_entries.

Lemma fold_areas m g l :
  let r := foldl add_area (m, g) l in
  r.1 = foldl (fun m area => foldl (fun m id => <[id := at_name area]> m) m (at_entities area)) m l /\
  entities r.2 = entities g /\ scenes r.2 = scenes g /\ scripts r.2 = scripts g /\
  devices r.2 = devices g /\
  areas r.2 = areas g ++ ((fun a => {| ar_id := at_id a; ar_name := at_name a;
                                       ar_aliases := dedup_aliases [normalize (at_name a)] |}) <$> l).
Proof.
  cbv zeta. revert m g. induction l as [|a l IH]; intros m g; cbn [foldl].
  - split_and!; try done. cbn. by rewrite app_nil_r.
  - cbn [add_area].
    match goal with |- context [foldl add_area (?m', ?g') l] => destruct (IH m' g') as (->&->&->&->&->&->) end.
    split_and!; try done. cbn. by rewrite <- app_assoc.
Qed.

Lemma fold_states m g l :
  let r := foldl (add_state m) g l in
  let rel := List.filter relevant l in
  areas r = areas g /\
  entities r = entities g ++ (entity_ref m <$> rel) /\
  scenes r = scenes g ++ ((scene_ref ∘ entity_ref m) <$> List.filter (has_domain "scene") rel) /\
  scripts r = scripts g ++ ((fun e => script_ref e (entity_ref m e)) <$> List.filter (has_domain "script") rel) /\
  devices r = devices g ++ ((device_ref ∘ entity_ref m) <$>
    List.filter (fun e => negb (has_domain "scene" e || has_domain "script" e)) rel).
Proof.
  cbv zeta. revert g. induction l as [|e l IH]; intros g; cbn [foldl List.filter].
  { split_and!; try done; cbn; by rewrite app_nil_r. }
  destruct (IH (add_state m g e)) as (->&->&->&->&->). unfold add_state.
  change (is_voice_relevant_domain (domain_of_id (entity_id e))) with (relevant e).
  change (String.eqb (domain_of_id (entity_id e)) "scene") with (has_domain "scene" e).
  change (String.eqb (domain_of_id (entity_id e)) "script") with (has_domain "script" e).
  destruct (relevant e); cbn [negb]; [|split_and!; done].
  cbn [areas entities scenes scripts devices List.filter].
  destruct (has_domain "scene" e), (has_domain "script" e); cbn [orb negb];
    split_and!; try done; rewrite <- ?app_assoc; cbn; rewrite ?app_nil_r; done.
Qed.

(** The loop of [build_graph] is a filter and a map. *)
Lemma build_graph_lists states area_entries :
  let g := build_graph states area_entries in
  let m := area_index area_entries in
  let rel := List.filter relevant states in
  entities g = entity_ref m <$> rel /\
  scenes g = (scene_ref ∘ entity_ref m) <$> List.filter (has_domain "scene") rel /\
  scripts g = (fun e => script_ref e (entity_ref m e)) <$> List.filter (has_domain "script") rel /\
  devices g = (device_ref ∘ entity_ref m) <$>
    List.filter (fun e => negb (has_domain "scene" e || has_domain "script" e)) rel.
Proof.
  cbv zeta. unfold build_graph.
  destruct (fold_areas ∅ empty_graph area_entries) as (E1&E2&E3&E4&E5&_).
  destruct (foldl add_area _ _) as [m g]. cbn [fst snd] in *.
  destruct (fold_states m g states) as (_&->&->&->&->).
  rewrite E2, E3, E4, E5. unfold area_index. by rewrite <- E1.
Qed.

(** ** Well-formed graphs *)

(** Every scene and script is one of the entities, of its domain, and no other
    scene or script is. *)
Definition graph_wf (g : HomeGraph) : Prop :=
  (forall s, s ∈ scenes g ->
    exists e, e ∈ entities g /\ er_entity_id e = sn_entity_id s /\ er_domain e = "scene") /\
  (forall s, s ∈ scripts g ->
    exists e, e ∈ entities g /\ er_entity_id e = sr_entity_id s /\ er_domain e = "script").

Lemma in_filter {A} (p : A -> bool) l x : x ∈ List.filter p l <-> x ∈ l /\ p x = true.
Proof. rewrite !list_elem_of_In. apply filter_In. Qed.

Lemma build_graph_wf states area_entries : graph_wf (build_graph states area_entries).
Proof.
  destruct (build_graph_lists states area_entries) as (He & Hs & Hr & _).
  split; intros s Hin.
  - rewrite Hs in Hin. apply list_elem_of_fmap in Hin as (e & -> & Hin).
    apply in_filter in Hin as [Hin Hd]. exists (entity_ref (area_index area_entries) e).
    rewrite He. split; [by apply list_elem_of_fmap_2|]. split; [done|]. by apply String.eqb_eq in Hd.
  - rewrite Hr in Hin. apply list_elem_of_fmap in Hin as (e & -> & Hin).
    apply in_filter in Hin as [Hin Hd]. exists (entity_ref (area_index area_entries) e).
    rewrite He. split; [by apply list_elem_of_fmap_2|]. split; [done|]. by apply String.eqb_eq in Hd.
Qed.

(** ** Sound targets *)

(** The entities of a group: one domain, in one room or in the whole home. *)
Definition group_members (g : HomeGraph) (d : string) (area : option string) : list EntityRef :=
  List.filter (fun e => String.eqb (er_domain e) d &&
    match area with Some a => bool_decide (er_area e = Some a) | None => true end) (entities g).

(** What a target may be, for the graph it was resolved in. *)
Definition target_sound (g : HomeGraph) (query : string) (hint : option HomeActionKind.t)
    (t : HomeTarget) : Prop :=
  exists d, target_domain t = Some d /\
  entity_ids t <> [] /\
  (forall id, id ∈ entity_ids t ->
    exists e, e ∈ entities g /\ er_entity_id e = id /\ er_domain e = d) /\
  match target_kind t with
  | HomeTargetKind.Entity =>
      is_scene_or_script_domain d = false /\ voice_safe t = negb (String.eqb d "lock") /\
      exists e, e ∈ entities g /\ entity_ids t = [er_entity_id e] /\ target_area t = er_area e
  | HomeTargetKind.Group =>
      is_scene_or_script_domain d = false /\ voice_safe t = negb (String.eqb d "lock") /\
      entity_ids t = er_entity_id <$> group_members g d (target_area t) /\
      (target_area t = None -> whole_home_resolution_is_trustworthy (entities g) query = true)
  | HomeTargetKind.Scene =>
      d = "scene" /\ is_activate_or_none hint = true /\ length (entity_ids t) = 1
  | HomeTargetKind.Script =>
      d = "script" /\ is_activate_or_none hint = true /\
      exists s, s ∈ scripts g /\ entity_ids t = [sr_entity_id s] /\ voice_safe t = sr_voice_safe s
  end.

Lemma foldl_inv {A B} (P : A -> Prop) (Q : B -> Prop) (f : A -> B -> A) a l :
  P a -> (forall a b, P a -> b ∈ l -> P (f a b)) -> P (foldl f a l).
Proof.
  revert a. induction l as [|b l IH]; intros a Ha Hf; cbn [foldl]; [done|].
  apply IH; [apply Hf; [done|left]|]. intros a' b' Ha' Hb'. apply Hf; [done|by right].
Qed.

Lemma find_in {A} (p : A -> bool) l x : find p l = Some x -> x ∈ l /\ p x = true.
Proof. rewrite list_elem_of_In. apply find_some. Qed.

(** Only devices tie. *)
Lemma tied_devices g ql qw e :
  e ∈ (tied_named_entity_matches g ql qw).2 ->
  e ∈ entities g /\ is_scene_or_script_domain (er_domain e) = false.
Proof.
  revert e. unfold tied_named_entity_matches.
  apply (foldl_inv (fun acc : f32 * list EntityRef => forall e, e ∈ acc.2 ->
    e ∈ entities g /\ is_scene_or_script_domain (er_domain e) = false) (fun _ => True)).
  { intros e He. by apply elem_of_nil in He. }
  intros [best tied] b Hacc Hb e. unfold tie_step.
  destruct (is_scene_or_script_domain (er_domain b)) eqn:Ed; [apply Hacc|].
  destruct (SFleb _ _); [apply Hacc|]. destruct (SFltb _ _).
  { intros He. apply list_elem_of_singleton in He as ->. done. }
  destruct (SFleb _ _); [|apply Hacc]. intros He. cbn [snd] in He.
  apply elem_of_app in He as [He|He]; [by apply Hacc|]. by apply list_elem_of_singleton in He as ->.
Qed.

Lemma entity_target_sound g q q0 hint e c :
  e ∈ entities g -> is_scene_or_script_domain (er_domain e) = false ->
  target_sound g q0 hint (entity_target q e c).
Proof.
  intros He Hd. exists (er_domain e). cbn. split_and!; [done|done| |done|done|by exists e].
  intros id Hid. apply list_elem_of_singleton in Hid as ->. by exists e.
Qed.

(** A domain word never means scenes or scripts. *)
Lemma infer_domain_device ql d : infer_domain ql = Some d -> is_scene_or_script_domain d = false.
Proof.
  unfold infer_domain. intros H. apply find_in in H as [H _].
  repeat (apply elem_of_cons in H as [->|H]; [done|]). by apply elem_of_nil in H.
Qed.

Lemma group_sound g q hint d area (t : HomeTarget) :
  is_scene_or_script_domain d = false ->
  target_kind t = HomeTargetKind.Group -> target_domain t = Some d -> target_area t = area ->
  entity_ids t = er_entity_id <$> group_members g d area -> entity_ids t <> [] ->
  voice_safe t = negb (String.eqb d "lock") ->
  (area = None -> whole_home_resolution_is_trustworthy (entities g) q = true) ->
  target_sound g q hint t.
Proof.
  intros Hdev Hk Hd Ha Hids Hne Hv Hw. exists d. rewrite Hk, Ha. split_and!; try done.
  intros id Hid. rewrite Hids in Hid. apply list_elem_of_fmap in Hid as (e & -> & He).
  apply in_filter in He as [He Hp]. bool_to_prop. exists e. by repeat split.
Qed.

Lemma nonempty_ids {A} (l : list A) : Nat.eqb (length l) 0 = false -> l <> [].
Proof. by destruct l. Qed.

Lemma resolve_group_sound g q q0 hint d a c t :
  is_scene_or_script_domain d = false -> resolve_group_target g q d a c = Some t -> target_sound g q0 hint t.
Proof.
  intros Hd. unfold resolve_group_target. destruct (Nat.eqb _ _) eqn:E; [done|]. intros [= <-].
  by eapply (group_sound _ _ _ d (Some a)); cbn; [| | | | |by apply nonempty_ids| |].
Qed.

Lemma filter_true_and {A} (p : A -> bool) l : List.filter (fun x => p x && true) l = List.filter p l.
Proof. apply filter_ext. intros x. apply andb_true_r. Qed.

Lemma resolve_domain_sound g q hint d t :
  is_scene_or_script_domain d = false -> resolve_domain_target g q d = Some t -> target_sound g q hint t.
Proof.
  intros Hd. unfold resolve_domain_target. destruct (Nat.eqb _ _) eqn:E; [done|].
  destruct (whole_home_resolution_is_trustworthy _ _) eqn:Ew; cbn [negb]; [|done]. intros [= <-].
  eapply (group_sound _ _ _ d None); cbn; [done|done|done|done| |by apply nonempty_ids|done|done].
  unfold group_members. by rewrite filter_true_and.
Qed.


Lemma exact_sound g q q0 hint t :
  graph_wf g -> resolve_exact_entity_id g q hint = Some t -> target_sound g q0 hint t.
Proof.
  intros [_ Hscripts]. unfold resolve_exact_entity_id.
  destruct (find _ (entities g)) as [e|] eqn:Hf; cbn [mbind option_bind]; [|done].
  apply find_in in Hf as [He _]. unfold is_scene_or_script_domain.
  destruct (String.eqb (er_domain e) "scene") eqn:Esn; [|destruct (String.eqb (er_domain e) "script") eqn:Esr].
  - destruct (is_activate_or_none hint) eqn:Eh; cbn [orb andb negb]; [|done]. intros [= <-].
    apply String.eqb_eq in Esn. exists "scene". rewrite Esn. cbn. split_and!; try done.
    intros id Hid. apply list_elem_of_singleton in Hid as ->. by exists e.
  - destruct (is_activate_or_none hint) eqn:Eh; cbn [orb andb negb]; [|done].
    destruct (find _ (scripts g)) as [s|] eqn:Hs; cbn [mbind option_bind]; [|done]. intros [= <-].
    apply find_in in Hs as [Hs _]. destruct (Hscripts s Hs) as (e' & He' & Hid' & Hd').
    exists "script". cbn. split_and!; try done; [|by exists s].
    intros id Hid. apply list_elem_of_singleton in Hid as ->. by exists e'.
  - cbn [orb andb]. intros [= <-]. apply entity_target_sound; [done|].
    unfold is_scene_or_script_domain. by rewrite Esn, Esr.
Qed.

(** What the loops over scenes and scripts pick is sound for [Activate]. *)
Lemma activated_sound g q q0 ql qw b :
  graph_wf g ->
  foldl (script_step q qw ql) (foldl (scene_step q qw ql) None (scenes g)) (scripts g) = Some b ->
  target_sound g q0 (Some HomeActionKind.Activate) b.2.
Proof.
  intros [Hscenes Hscripts].
  set (P := fun o : option (f32 * HomeTarget) =>
    forall b, o = Some b -> target_sound g q0 (Some HomeActionKind.Activate) b.2).
  assert (P (foldl (scene_step q qw ql) None (scenes g))) as H1.
  { apply (foldl_inv P (fun _ => True)); [done|]. intros o s Ho Hs. unfold scene_step.
    destruct (_ && _); [|done]. intros b' [= <-]. destruct (Hscenes s Hs) as (e & He & Hid & Hd).
    exists "scene". cbn. split_and!; try done.
    intros id Hin. apply list_elem_of_singleton in Hin as ->. by exists e. }
  assert (P (foldl (script_step q qw ql) (foldl (scene_step q qw ql) None (scenes g)) (scripts g))) as H2.
  { apply (foldl_inv P (fun _ => True)); [done|]. intros o s Ho Hs. unfold script_step.
    destruct (_ && _) eqn:Ev; [|done]. bool_to_prop. intros b' [= <-].
    destruct (Hscripts s Hs) as (e & He & Hid & Hd).
    exists "script". cbn. split_and!; try done; [|by exists s].
    intros id Hin. apply list_elem_of_singleton in Hin as ->. by exists e. }
  intros Hb. by apply H2.
Qed.

Lemma named_sound g q q0 hint t :
  graph_wf g -> resolve_named_entity g q hint = Some t -> target_sound g q0 hint t.
Proof.
  intros Hwf. unfold resolve_named_entity.
  set (best_scene := if bool_decide _ then _ else None).
  destruct best_scene as [b|] eqn:Eb; subst best_scene; cbn [fmap option_fmap option_map].
  - intros [= <-]. case_bool_decide as Hh; [|done]. rewrite Hh. by eapply activated_sound.
  - unfold top_named_entity_match.
    destruct (tied_named_entity_matches _ _ _) as [score [|e [|? ?]]] eqn:Et; try done.
    cbn. intros [= <-]. apply entity_target_sound;
      apply (tied_devices g (normalize q) (split_whitespace (normalize q))); rewrite Et; left.
Qed.

Lemma or_try_some {A} (o k : option A) a : or_try o k = Some a -> o = Some a \/ k = Some a.
Proof. destruct o; naive_solver. Qed.

Ltac or_try_cases :=
  repeat match goal with
  | H : or_try _ _ = Some _ |- _ => apply or_try_some in H as [H|H]
  | H : match ?x with _ => _ end = Some _ |- _ => destruct x eqn:?; try discriminate H
  | H : (if ?x then _ else _) = Some _ |- _ => destruct x eqn:?; try discriminate H
  end.

Lemma resolve_sound g q hint t :
  graph_wf g -> resolve_target_in_graph g q hint = Some t -> target_sound g q hint t.
Proof.
  intros Hwf H. unfold resolve_target_in_graph in H. or_try_cases;
    eauto using exact_sound, named_sound, resolve_group_sound, resolve_domain_sound, infer_domain_device.
  eapply resolve_group_sound; [|exact H]. done.
Qed.

End built.

(** ** Properties *)

Section properties.
Context `{U : Unicode}.

(** The reported entities of a domain the assistant handles, in a room or anywhere. *)
Definition reported_members (states : list Entity) (area_entries : list AreaTemplateEntry)
    (d : string) (area : option string) : list Entity :=
  List.filter (fun e => relevant e && has_domain d e &&
    match area with
    | Some a => bool_decide (area_index area_entries !! entity_id e = Some a)
    | None => true
    end) states.

(** What a resolved target means, in terms of what Home Assistant reported. *)
Definition reported_target (states : list Entity) (area_entries : list AreaTemplateEntry)
    (query : string) (hint : option HomeActionKind.t) (t : HomeTarget) : Prop :=
  exists d, target_domain t = Some d /\
  is_voice_relevant_domain d = true /\
  entity_ids t <> [] /\
  (forall id, id ∈ entity_ids t -> domain_of_id id = d /\ exists e, e ∈ states /\ entity_id e = id) /\
  (d = "lock" -> voice_safe t = false) /\
  match target_kind t with
  | HomeTargetKind.Entity =>
      d <> "scene" /\ d <> "script" /\
      exists id, entity_ids t = [id] /\ target_area t = area_index area_entries !! id
  | HomeTargetKind.Group =>
      d <> "scene" /\ d <> "script" /\
      entity_ids t = entity_id <$> reported_members states area_entries d (target_area t) /\
      (target_area t = None ->
       whole_home_resolution_is_trustworthy
         (entities (build_graph states area_entries)) query = true)
  | HomeTargetKind.Scene =>
      d = "scene" /\ is_activate_or_none hint = true /\ length (entity_ids t) = 1
  | HomeTargetKind.Script =>
      d = "script" /\ is_activate_or_none hint = true /\
      exists e, e ∈ states /\ entity_ids t = [entity_id e] /\ voice_safe t = is_voice_safe_script e
  end.

Lemma filter_filter {A} (p q : A -> bool) l :
  List.filter q (List.filter p l) = List.filter (fun x => p x && q x) l.
Proof.
  induction l as [|x l IH]; cbn [List.filter]; [done|].
  destruct (p x); cbn [List.filter andb]; [destruct (q x)|]; by rewrite ?IH.
Qed.

Lemma filter_fmap {A B} (f : A -> B) (p : B -> bool) l :
  List.filter p (f <$> l) = f <$> List.filter (fun x => p (f x)) l.
Proof.
  induction l as [|x l IH]; cbn; [done|]. destruct (p (f x)); cbn; by rewrite <- IH.
Qed.

Lemma group_members_reported states area_entries d area :
  er_entity_id <$> group_members (build_graph states area_entries) d area =
  entity_id <$> reported_members states area_entries d area.
Proof.
  destruct (build_graph_lists states area_entries) as (He & _).
  unfold group_members, reported_members. rewrite He, filter_fmap, filter_filter, <- list_fmap_compose.
  f_equal. apply filter_ext. intros e. cbn. unfold has_domain. by rewrite andb_assoc.
Qed.

Lemma entity_reported states area_entries e :
  e ∈ entities (build_graph states area_entries) ->
  is_voice_relevant_domain (er_domain e) = true /\ domain_of_id (er_entity_id e) = er_domain e /\
  er_area e = area_index area_entries !! er_entity_id e /\
  exists s, s ∈ states /\ entity_id s = er_entity_id e.
Proof.
  destruct (build_graph_lists states area_entries) as (-> & _). intros He.
  apply list_elem_of_fmap in He as (s & -> & Hs). apply in_filter in Hs as [Hs Hr].
  split_and!; try done. by exists s.
Qed.

Lemma target_sound_reported states area_entries q hint t :
  target_sound (build_graph states area_entries) q hint t ->
  reported_target states area_entries q hint t.
Proof.
  intros (d & Hd & Hne & Hids & Hk). exists d.
  assert (forall id, id ∈ entity_ids t -> is_voice_relevant_domain d = true /\
    domain_of_id id = d /\ exists e, e ∈ states /\ entity_id e = id) as Hids'.
  { intros id Hid. apply Hids in Hid as (e & He & <- & <-).
    by apply entity_reported in He as (? & ? & _ & ?). }
  destruct (entity_ids t) as [|id0 ids] eqn:Ei; [done|].
  split_and!; [done|by apply (Hids' id0); left|done|by intros id Hid; apply Hids'| |].
  - intros ->. destruct (target_kind t); [by destruct Hk as (_ & -> & _)|by destruct Hk as (_ & -> & _)|by destruct Hk|by destruct Hk].
  - destruct (target_kind t).
    + destruct Hk as (Hs & _ & e & He & Hi & Ha). apply entity_reported in He as (_ & _ & Hr & _).
      rewrite Hi, Ha. unfold is_scene_or_script_domain in Hs. bool_to_prop.
      split_and!; [done|done|by eexists].
    + destruct Hk as (Hs & _ & Hi & Hw). unfold is_scene_or_script_domain in Hs. bool_to_prop.
      split_and!; [done|done| |done]. by rewrite Hi, group_members_reported.
    + done.
    + destruct Hk as (-> & Hh & s & Hs & Hi & Hv). split_and!; [done|done|].
      destruct (build_graph_lists states area_entries) as (_ & _ & Hr & _).
      rewrite Hr in Hs. apply list_elem_of_fmap in Hs as (e & -> & He).
      apply in_filter in He as [He _]. apply in_filter in He as [He _]. by exists e.
Qed.

(** What a phrase resolves to was reported by Home Assistant.  Every entity
    of the target exists and is of the target's domain, one the assistant
    handles.  A lock is never marked voice-safe.  A single device is no scene or
    script and carries its room; a group, of no scenes or scripts either, is all
    the reported entities of its domain, in its room, or in the whole home and
    then only when the phrase names no place without such a device; scenes and scripts need a request to
    activate (or a status query), and a script is voice-safe exactly when it
    carries a marker. *)
Lemma resolved_target_reported states area_entries query hint t :
  resolve_target_in_graph (build_graph states area_entries) query hint = Some t ->
  reported_target states area_entries query hint t.
Proof.
  intros H. apply target_sound_reported. eapply resolve_sound; [apply build_graph_wf|done].
Qed.

End properties.

Section concrete.
#[local] Existing Instance ascii_tables.

Definition named (id name : string) : Entity :=
  {| entity_id := id; entity_state := "off"; attributes := Object [("friendly_name", Str name)] |}.

(** Two lamps in two rooms, a lock, and a script nobody marked. *)
Definition sample_states : list Entity :=
  [named "light.sofa" "Sofa Lamp"; named "light.bed" "Bed Lamp"; named "lock.front" "Front Door";
   named "script.pay_invoice_total" "Pay Invoice Total"; named "sun.sun" "Sun"].
Definition sample_areas : list AreaTemplateEntry :=
  [{| at_id := "living_room"; at_name := "Living Room"; at_entities := ["light.sofa"] |};
   {| at_id := "bedroom"; at_name := "Bedroom"; at_entities := ["light.bed"] |}].
Definition sample_graph : HomeGraph := build_graph sample_states sample_areas.

Definition bedroom_light : HomeTarget := {|
  target_kind := HomeTargetKind.Group; target_query := "bedroom lamp";
  display_name := "Bedroom light"; entity_ids := ["light.bed"]; target_domain := Some "light";
  target_area := Some "Bedroom"; target_confidence := S754_finite false 15518925 (-24);
  voice_safe := true |}.

Lemma resolved_target_reported_witness :
  reported_target sample_states sample_areas "bedroom lamp" (Some HomeActionKind.TurnOn) bedroom_light.
Proof. apply resolved_target_reported. vm_compute. reflexivity. Defined.

(** The tie between the two lamps is declined by name, and the phrase is then
    taken for every light of the home. *)
Lemma ambiguous_lamp_means_every_light :
  resolve_named_entity sample_graph "lamp" (Some HomeActionKind.TurnOn) = None /\
  ambiguous_named_entity_candidates sample_graph "lamp" = Some ["Sofa Lamp"; "Bed Lamp"] /\
  (entity_ids <$> resolve_target_in_graph sample_graph "lamp" (Some HomeActionKind.TurnOn)) =
    Some ["light.sofa"; "light.bed"].
Proof. split_and!; vm_compute; reflexivity. Qed.

(** An unmarked script can be voice-safe.  The id [script.pay_invoice_total]
    contains the letters of the marker [voice_], so the script resolves by its
    name as voice-safe, and the household policy, which refuses every script
    that is not, allows it. *)
Lemma invoice_script_passes_for_marked :
  exists t,
    resolve_target_in_graph sample_graph "pay invoice total" (Some HomeActionKind.Activate) = Some t /\
    target_kind t = HomeTargetKind.Script /\
    entity_ids t = ["script.pay_invoice_total"] /\
    voice_safe t = true /\
    policy_allowed (assess_home_action
      {| action_kind := HomeActionKind.Activate; action_target := t; action_value := None |}) = true.
Proof. eexists. split; [vm_compute; reflexivity|]. by vm_compute. Qed.

End concrete.
