(* ===== verification/HaClient.v ===== *)
(** * The Home Assistant client ([ha/client.rs])

    The REST requests of the provider over one HTTP exchange, which is a
    parameter together with the derived decoders of its answers, and the
    reading of the configured URL. *)

From S2P Require Import Prelude RustStr RustNum Json HomeTypes HomeGraph.
From Stdlib Require Import Ascii.
Local Open Scope string_scope.
Local Open Scope list_scope.
Local Open Scope rust_scope.

(** One request and its answer on a fresh connection, deadlines and body cap
    included: the status and the body. *)
Class HttpExchange (W : Type) := {
  http_exchange : string -> string -> option string -> W -> result (N * string) string * W;
  client_host : string;
  client_port : N;
}.

(** The decoders [serde] derives for [Vec<Entity>] and [Vec<AreaTemplateEntry>]. *)
Class ClientSerde := {
  entities_of_str : string -> result (list Entity) string;
  areas_of_str : string -> result (list AreaTemplateEntry) string;
}.

Definition quoted (s : string) : string := dquote +:+ s +:+ dquote.

Definition AREA_TEMPLATE : string :=
  concat_str ((fun l => newline +:+ l)
    <$> ["{% set ns = namespace(items=[]) %}";
         "{% for area_id in areas() %}";
         "  {% set ns.items = ns.items + [{" +:+ quoted "id" +:+ ": area_id, " +:+ quoted "name" +:+
         ": area_name(area_id), " +:+ quoted "entities" +:+ ": area_entities(area_id)}] %}";
         "{% endfor %}";
         "{{ ns.items | to_json }}";
         ""]).

Section client.
Context {W : Type} `{HX : HttpExchange W} `{CS : ClientSerde} `{SD : Serde}.

Definition http_request (method path : string) (body : option string) : M W (result string string) :=
  let!? (status, text) := http_exchange method path body in
  if negb ((200 <=? status) && (status <? 300))%N then
    let detail := replace (trim text) newline " " in
    ret (Err ("Home Assistant HTTP " +:+ show_N status +:+ " for " +:+ method +:+ " " +:+ path +:+
              (if is_empty detail then "" else ": " +:+ detail)))
  else ret (Ok text).

Definition http_get (path : string) : M W (result string string) := http_request "GET" path None.
Definition http_post_json (path body : string) : M W (result string string) :=
  http_request "POST" path (Some body).

Definition test_connection : M W (result unit string) :=
  let!? _ := http_get "/api/" in ret (Ok tt).

Definition get_states : M W (result (list Entity) string) :=
  let!? body := http_get "/api/states" in ret (entities_of_str body).

Definition call_service (domain service : string) (data : value)
    : M W (result (list Entity) string) :=
  let!? body := http_post_json ("/api/services/" +:+ domain +:+ "/" +:+ service) (to_str data) in
  if is_empty (trim body) then ret (Ok [])
  else ret (match entities_of_str body with Ok l => Ok l | Err _ => Ok [] end).

Definition render_template (template : string) : M W (result string string) :=
  http_post_json "/api/template" (to_str (Object [("template", Str template)])).

(** [render_template_json], at the type [load_areas] decodes. *)
Definition render_areas (template : string) : M W (result (list AreaTemplateEntry) string) :=
  let!? body := render_template template in
  ret (match areas_of_str (trim body) with
       | Ok l => Ok l
       | Err _ => Err ("failed to decode Home Assistant template output: " +:+ body)
       end).

End client.

(** ** The configured URL *)

(** [split(c).next()] and [rsplit_once(c)]. *)
Fixpoint until_char (c : ascii) (s : string) : string :=
  match s with
  | "" => ""
  | String a s => if Ascii.eqb a c then "" else String a (until_char c s)
  end.
Fixpoint rsplit_char (c : ascii) (s : string) : option (string * string) :=
  match s with
  | "" => None
  | String a s' =>
      match rsplit_char c s' with
      | Some (l, r) => Some (String a l, r)
      | None => if Ascii.eqb a c then Some ("", s') else None
      end
  end.

Definition parse_http_url (url : string) : result (string * N) string :=
  let? rest := ok_or (strip_prefix url "http://")
    ("unsupported Home Assistant URL '" +:+ url +:+ "': only http:// is supported") in
  let authority := until_char "/" rest in
  if is_empty authority then Err ("invalid Home Assistant URL '" +:+ url +:+ "'")
  else if starts_with authority "[" then
    let? (inside, after) := ok_or (split_once authority "]")
      ("invalid IPv6 Home Assistant URL '" +:+ url +:+ "'") in
    Ok (sdrop 1 inside,
        default 8123%N (strip_prefix after ":" ≫= parse_u16))
  else
    match rsplit_char ":" authority with
    | Some (host, port) =>
        match parse_u16 port with
        | Some port => Ok (host, port)
        | None => Ok (authority, 8123%N)
        end
    | None => Ok (authority, 8123%N)
    end.

(** ** The URL reader inverts the writing of a URL *)

Lemma until_char_app c s t :
  sforall (fun a => negb (Ascii.eqb a c)) s = true ->
  until_char c (s +:+ String c t) = s.
Proof.
  induction s as [|a s IH]; rewrite ?sapp_nil_l, ?sapp_cons; cbn [until_char sforall].
  - by rewrite Ascii.eqb_refl.
  - destruct (Ascii.eqb a c); cbn [negb andb]; [done|]. intros H. by rewrite IH.
Qed.

Lemma until_char_none c s : sforall (fun a => negb (Ascii.eqb a c)) s = true -> until_char c s = s.
Proof.
  induction s as [|a s IH]; cbn [until_char sforall]; [done|].
  destruct (Ascii.eqb a c); cbn [negb andb]; [done|]. intros H. by rewrite IH.
Qed.

Lemma rsplit_char_none c s : sforall (fun a => negb (Ascii.eqb a c)) s = true -> rsplit_char c s = None.
Proof.
  induction s as [|a s IH]; cbn [rsplit_char sforall]; [done|].
  destruct (Ascii.eqb a c); cbn [negb andb]; [done|]. intros H. by rewrite IH.
Qed.

Lemma rsplit_char_app c s t :
  sforall (fun a => negb (Ascii.eqb a c)) t = true ->
  rsplit_char c (s +:+ String c t) = Some (s, t).
Proof.
  intros Ht. induction s as [|a s IH]; rewrite ?sapp_nil_l, ?sapp_cons; cbn [rsplit_char].
  - by rewrite (rsplit_char_none _ _ Ht), Ascii.eqb_refl.
  - by rewrite IH.
Qed.

(** A host name: no separator of a URL, and not an IPv6 literal. *)
Definition host_name (h : string) : Prop :=
  h <> "" /\ starts_with h "[" = false /\
  sforall (fun a => negb (Ascii.eqb a "/") && negb (Ascii.eqb a ":")) h = true.

Lemma show_N_free (p : ascii -> bool) n :
  (forall a, byte_is_digit a = true -> p a = true) -> sforall p (show_N n) = true.
Proof. intros Hp. eapply sforall_impl; [exact Hp|apply show_N_digits]. Qed.

Lemma starts_with_app_l h t p : h <> "" -> starts_with h (String p "") = false ->
  starts_with (h +:+ t) (String p "") = false.
Proof. by destruct h. Qed.

Lemma parse_http_url_roundtrip h port path :
  host_name h -> (port <= u16_max)%N -> (path = "" \/ exists p, path = "/" +:+ p) ->
  parse_http_url ("http://" +:+ h +:+ ":" +:+ show_N port +:+ path) = Ok (h, port).
Proof.
  intros (Hne & Hb & Hh) Hport Hpath. unfold parse_http_url.
  set (authority := h +:+ String ":" (show_N port)).
  assert (until_char "/" (h +:+ ":" +:+ show_N port +:+ path) = authority) as Hu.
  { assert (sforall (fun a => negb (Ascii.eqb a "/")) authority = true) as Ha.
    { unfold authority. rewrite sforall_app. apply andb_true_iff. split.
      - eapply sforall_impl; [|exact Hh]. intros a Ha. by apply andb_true_iff in Ha as [? _].
      - cbn [sforall]. apply andb_true_iff. split; [done|]. apply show_N_free.
        apply (byte_forall2 _ _). by vm_compute. }
    assert (h +:+ ":" +:+ show_N port +:+ path = authority +:+ path) as ->.
    { unfold authority. by rewrite <- sapp_assoc. }
    destruct Hpath as [->|[p ->]]; [by rewrite sapp_nil_r, until_char_none|by apply until_char_app]. }
  assert (strip_prefix ("http://" +:+ h +:+ ":" +:+ show_N port +:+ path) "http://" =
          Some (h +:+ ":" +:+ show_N port +:+ path)) as ->.
  { reflexivity. }
  cbn [ok_or rbind]. rewrite Hu.
  assert (is_empty authority = false) as -> by by destruct h.
  assert (starts_with authority "[" = false) as -> by by apply starts_with_app_l.
  unfold authority. rewrite rsplit_char_app.
  - unfold parse_u16. by rewrite parse_show_uint.
  - apply show_N_free. apply (byte_forall2 _ _). by vm_compute.
Qed.
