(* ===== verification/HaProvider.v ===== *)
(** * The Home Assistant provider ([ha/provider.rs])

    [HomeAssistantProvider]: the cached home graph, the resolution of targets
    against it, the state and the service calls sent to Home Assistant through
    [HaClient].  Every call of a service is recorded, and the provider is an instance of the interface [World] that the rest of
    the runtime is written against. *)

From S2P Require Import Prelude RustStr RustNum Json HomeTypes HomeAction HomePolicy HomeControl HomeGraph HaClient.
From Stdlib Require Import Ascii.
Local Open Scope string_scope.
Local Open Scope list_scope.
Local Open Scope rust_scope.

(** The process around the provider: both clocks ([Instant] in nanoseconds),
    the entropy source and the alias table of the household memory. *)
Class Machine (W : Type) := {
  instant_now : W -> N * W;
  machine_now_ms : W -> N * W;
  machine_getrandom : W -> list N * W;
  machine_alias : string -> W -> option string * W;
}.

Definition GRAPH_CACHE_TTL : N := 300 * 1000000000.

Record CachedGraph := { cg_graph : HomeGraph; synced_at : N }.

Record ServiceCall := { call_domain : string; call_name : string; call_data : value }.

Record Provider (W : Type) := {
  pv_world : W;
  pv_cache : option CachedGraph;
  pv_calls : list ServiceCall;
}.
Arguments pv_world {W} _.
Arguments pv_cache {W} _.
Arguments pv_calls {W} _.

(** ** Numbers *)

(** [round]: to the nearest integer, halves away from zero. *)
Definition fl_round_Z (x : spec_float) : Z :=
  match x with
  | S754_finite s m e =>
      let q := (if 0 <=? e then Z.pos m * 2 ^ e
                else (2 * Z.pos m + 2 ^ (- e)) / (2 * 2 ^ (- e)))%Z in
      if s then (- q)%Z else q
  | _ => 0%Z
  end.
(** [x.round() as uN], for the type with largest value [max]. *)
Definition round_as_uint (max : N) (x : spec_float) : N :=
  match x with
  | S754_infinity false => max
  | S754_infinity true | S754_nan => 0%N
  | _ => N.min (Z.to_N (fl_round_Z x)) max
  end.
Definition fl_clamp (x lo hi : spec_float) : spec_float :=
  let x := if SFltb x lo then lo else x in
  if SFltb hi x then hi else x.

Definition normalize_brightness (v : f64) : N :=
  let hundred := f64_of_Z 100 in
  if SFleb v hundred
  then round_as_uint u8_max
         (f64_mul (f64_div (fl_clamp v (f64_of_Z 0) hundred) hundred) (f64_of_Z 255))
  else round_as_uint u8_max (fl_clamp v (f64_of_Z 0) (f64_of_Z 255)).

(** ** What is said *)

Definition is_active_state (st : string) : bool :=
  elem_str st ["on"; "open"; "unlocked"; "playing"; "heat"; "cool"; "auto"; "heat_cool"; "dry"; "fan_only"].

Definition brightness_percent (v : N) : N :=
  round_as_uint u64_max (f64_div (f64_mul (f64_of_Z (Z.of_N v)) (f64_of_Z 100)) (f64_of_Z 255)).

Definition build_action_summary (action : HomeAction) (snapshot : option HomeState) : string :=
  match snapshot with
  | Some state => state_summary state
  | None =>
      match action_kind action with
      | HomeActionKind.TurnOn => "turned on"
      | HomeActionKind.TurnOff => "turned off"
      | HomeActionKind.Toggle => "toggled"
      | HomeActionKind.SetBrightness => "adjusted"
      | HomeActionKind.SetTemperature => "updated"
      | HomeActionKind.Open => "opened"
      | HomeActionKind.Close => "closed"
      | HomeActionKind.Lock => "locked"
      | HomeActionKind.Unlock => "unlocked"
      | HomeActionKind.Activate => "activated"
      end +:+ " " +:+ display_name (action_target action)
  end.

Section summary.
Context `{FT : FloatText}.

Definition opt_phrase {A} (o : option A) (f : A -> string) : string :=
  match o with Some a => f a | None => "" end.

Definition summarize_state (target_name : string) (domain : option string) (es : list Entity) : string :=
  match es with
  | [] => "I couldn't read the state for " +:+ target_name +:+ "."
  | [e] =>
      let base := target_name +:+ " is " +:+ entity_state e in
      let d := default "" domain in
      if String.eqb d "light" then
        base +:+ opt_phrase (get (attributes e) "brightness" ≫= as_u64)
                   (fun v => ", brightness " +:+ show_N (brightness_percent v) +:+ "%")
      else if String.eqb d "climate" then
        base +:+ opt_phrase (get (attributes e) "current_temperature" ≫= as_f64)
                   (fun v => ", currently " +:+ f64_display v +:+ " degrees")
             +:+ opt_phrase (get (attributes e) "temperature" ≫= as_f64)
                   (fun v => ", target " +:+ f64_display v +:+ " degrees")
      else base
  | _ =>
      let on_like := length (List.filter (fun e => is_active_state (entity_state e)) es) in
      let unavailable := length (List.filter (fun e => String.eqb (entity_state e) "unavailable") es) in
      target_name +:+ ": " +:+ show_nat on_like +:+ " of " +:+ show_nat (length es) +:+ " are active"
      +:+ (if Nat.ltb 0 unavailable then ", " +:+ show_nat unavailable +:+ " unavailable" else "")
  end.

End summary.

(** ** Service calls *)

Definition ensure_domain (domain : string) (allowed : list string) : result unit string :=
  if elem_str domain allowed then Ok tt
  else Err ("action is not supported for Home Assistant domain '" +:+ domain +:+ "'").

Definition entity_payload (target : HomeTarget) (extra : list (string * value)) : value :=
  Object (extra ++ [("entity_id", Array (Str <$> entity_ids target))]).

(** The call that [execute] sends for an action.  A [json!] object keeps its
    keys in order, so [brightness] comes before [entity_id] and [temperature]
    after it. *)
Definition service_call (action : HomeAction) : result ServiceCall string :=
  let target := action_target action in
  let call d s := Ok {| call_domain := d; call_name := s; call_data := entity_payload target [] |} in
  let? domain := ok_or (target_domain target) "unresolved Home Assistant domain" in
  match action_kind action with
  | HomeActionKind.TurnOn => call domain "turn_on"
  | HomeActionKind.TurnOff => call domain "turn_off"
  | HomeActionKind.Toggle => call domain "toggle"
  | HomeActionKind.SetBrightness =>
      let? _ := ensure_domain domain ["light"] in
      let? v := ok_or (action_value action) "set_brightness requires a numeric 'value'" in
      Ok {| call_domain := "light"; call_name := "turn_on";
            call_data := entity_payload target
              [("brightness", Number (PosInt (normalize_brightness v)))] |}
  | HomeActionKind.SetTemperature =>
      let? _ := ensure_domain domain ["climate"] in
      let? v := ok_or (action_value action) "set_temperature requires a numeric 'value'" in
      Ok {| call_domain := "climate"; call_name := "set_temperature";
            call_data := Object [("entity_id", Array (Str <$> entity_ids target));
                                 ("temperature", json_f64 v)] |}
  | HomeActionKind.Open => let? _ := ensure_domain domain ["cover"] in call "cover" "open_cover"
  | HomeActionKind.Close => let? _ := ensure_domain domain ["cover"] in call "cover" "close_cover"
  | HomeActionKind.Lock => let? _ := ensure_domain domain ["lock"] in call "lock" "lock"
  | HomeActionKind.Unlock => let? _ := ensure_domain domain ["lock"] in call "lock" "unlock"
  | HomeActionKind.Activate =>
      match target_kind target with
      | HomeTargetKind.Scene => call "scene" "turn_on"
      | HomeTargetKind.Script =>
          if negb (voice_safe target)
          then Err ("script '" +:+ display_name target +:+ "' is not marked voice-safe for GeniePod")
          else call "script" "turn_on"
      | _ => Err "activate is only supported for scenes or voice-safe scripts"
      end
  end.

Section provider.
Context {W : Type} `{MC : Machine W} `{HX : HttpExchange W} `{CS : ClientSerde} `{SD : Serde}
  `{U : Unicode} `{FT : FloatText}.

(** A call on the process or on the client. *)
Definition outer {A} (op : W -> A * W) : M (Provider W) A :=
  fun s => let '(a, w) := op (pv_world s) in
           (a, {| pv_world := w; pv_cache := pv_cache s; pv_calls := pv_calls s |}).

Definition read_cache : M (Provider W) (option CachedGraph) := fun s => (pv_cache s, s).
Definition write_cache (c : CachedGraph) : M (Provider W) unit :=
  fun s => (tt, {| pv_world := pv_world s; pv_cache := Some c; pv_calls := pv_calls s |}).

(** [self.client.call_service(..)]: every call is recorded, whatever it returns. *)
Definition send (c : ServiceCall) : M (Provider W) (result (list Entity) string) :=
  fun s => let '(r, w) := call_service (call_domain c) (call_name c) (call_data c) (pv_world s) in
           (r, {| pv_world := w; pv_cache := pv_cache s; pv_calls := pv_calls s ++ [c] |}).

Definition health : M (Provider W) IntegrationHealth :=
  let! c := read_cache in
  let cached := match c with Some _ => true | None => false end in
  let! r := outer test_connection in
  ret match r with
      | Ok _ => {| connected := true; cached_graph := cached;
                   health_message := "connected to Home Assistant at " +:+ client_host +:+ ":" +:+
                                     show_N client_port |}
      | Err e => {| connected := false; cached_graph := cached;
                    health_message := "Home Assistant unavailable: " +:+ e |}
      end.

Definition load_areas : M W (result (list AreaTemplateEntry) string) := render_areas AREA_TEMPLATE.

Definition sync_structure : M (Provider W) (result HomeGraph string) :=
  let!? states := outer get_states in
  let! ars := outer load_areas in
  let area_entries := match ars with Ok l => l | Err _ => [] end in
  let g := build_graph states area_entries in
  let! now := outer instant_now in
  let! _ := write_cache {| cg_graph := g; synced_at := now |} in
  ret (Ok g).

Definition synced : M (Provider W) (result (HomeGraph * bool) string) :=
  let!? g := sync_structure in ret (Ok (g, false)).

Definition graph : M (Provider W) (result (HomeGraph * bool) string) :=
  let! c := read_cache in
  match c with
  | Some c =>
      let! now := outer instant_now in
      if (now - synced_at c <? GRAPH_CACHE_TTL)%N then ret (Ok (cg_graph c, true)) else synced
  | None => synced
  end.

(** The refusal, on the graph the first attempt used. *)
Definition resolution_error (g : HomeGraph) (query : string) : string :=
  match ambiguous_named_entity_candidates g query with
  | Some candidates =>
      "'" +:+ query +:+ "' is ambiguous between " +:+ format_disambiguation_candidates candidates +:+
      utf8 [32; 226; 128; 148; 32]%N +:+ "please say which one you mean"
  | None =>
      if query_rejects_whole_home_fidelity g query
      then "I couldn't find '" +:+ query +:+ "' in this home"
      else "no Home Assistant target matched '" +:+ query +:+ "'"
  end.

Definition resolve_target (query : string) (action_hint : option HomeActionKind.t)
    : M (Provider W) (result HomeTarget string) :=
  let query := trim query in
  if is_empty query then ret (Err "missing Home Assistant target")
  else
    let!? (g, from_cache) := graph in
    match resolve_target_in_graph g query action_hint with
    | Some target => ret (Ok target)
    | None =>
        let! refreshed :=
          if from_cache : bool then
            let! r := sync_structure in
            ret (match r with
                 | Ok g' => resolve_target_in_graph g' query action_hint
                 | Err _ => None
                 end)
          else ret None in
        match refreshed with
        | Some target => ret (Ok target)
        | None => ret (Err (resolution_error g query))
        end
    end.

Definition get_live_entities (ids : list string) : M (Provider W) (result (list Entity) string) :=
  let!? states := outer get_states in
  ret (Ok (List.filter (fun e => elem_str (entity_id e) ids) states)).

Definition get_state (target : HomeTarget) : M (Provider W) (result HomeState string) :=
  let!? es := get_live_entities (entity_ids target) in
  if Nat.eqb (length es) 0
  then ret (Err ("no Home Assistant state available for " +:+ display_name target))
  else
    ret (Ok {| state_target_name := display_name target; state_domain := target_domain target;
               state_area := target_area target; state_entities := es;
               available := forallb (fun e => negb (String.eqb (entity_state e) "unavailable")) es;
               state_summary := summarize_state (display_name target) (target_domain target) es |}).

Definition execute (action : HomeAction) : M (Provider W) (result ActionResult string) :=
  let target := action_target action in
  let!? call := ret (service_call action) in
  let!? _ := send call in
  let! snapshot :=
    if is_scene_or_script (target_kind target) then ret None
    else let! r := get_state target in ret (to_option r) in
  ret (Ok {| result_success := true; spoken_summary := build_action_summary action snapshot;
             affected_targets := [display_name target]; state_snapshot := snapshot;
             result_confidence := Some (target_confidence target) |}).

(** [normalize(area) == room] for the filters of the listings. *)
Definition in_listed_room (room : option string) (area : option string) : bool :=
  match room, area with
  | Some room, Some area => String.eqb (normalize area) room
  | Some _, None => false
  | None, _ => true
  end.

Definition list_scenes (room : option string) : M (Provider W) (result (list SceneRef) string) :=
  let!? (g, _) := graph in
  ret (Ok (List.filter (fun s => in_listed_room (normalize <$> room) (sn_area s)) (scenes g))).
Definition list_devices (room : option string) : M (Provider W) (result (list DeviceRef) string) :=
  let!? (g, _) := graph in
  ret (Ok (List.filter (fun d => in_listed_room (normalize <$> room) (dr_area d)) (devices g))).

(** The provider behind the interface of the runtime. *)
#[export] Instance provider_world : World (Provider W) := {|
  now_ms := outer machine_now_ms;
  getrandom := outer machine_getrandom;
  ha_health := health;
  ha_resolve_target := resolve_target;
  ha_get_state := get_state;
  ha_execute := execute;
  device_alias a := outer (machine_alias a);
|}.

End provider.

(** ** What the reads of the provider keep *)

Section reads.
Context {W : Type} `{MC : Machine W} `{HX : HttpExchange W} `{CS : ClientSerde} `{SD : Serde}
  `{U : Unicode} `{FT : FloatText}.
Variable P : list Entity -> Prop.

(** The cached graph was built from a report that satisfies [P]. *)
Definition built_from (g : HomeGraph) : Prop :=
  exists states area_entries, P states /\ g = build_graph states area_entries.
Definition cache_from (p : Provider W) : Prop :=
  forall c, pv_cache p = Some c -> built_from (cg_graph c).

(** Reads send no service call and keep the cache of that origin. *)
Definition reads_only (calls : list ServiceCall) (p : Provider W) : Prop :=
  pv_calls p = calls /\ cache_from p.

Hypothesis reported : forall w states w', get_states w = (Ok states, w') -> P states.

Lemma outer_keeps {A} (op : W -> A * W) calls p r p' :
  outer op p = (r, p') -> reads_only calls p -> reads_only calls p'.
Proof. unfold outer. destruct (op (pv_world p)). by intros [= <- <-]. Qed.

Lemma sync_structure_keeps calls p r p' :
  sync_structure p = (r, p') -> reads_only calls p ->
  reads_only calls p' /\ forall g, r = Ok g -> built_from g.
Proof.
  intros H Hp. unfold sync_structure, ebind at 1 in H.
  destruct (outer get_states p) as [[states|e] p1] eqn:E1;
    apply outer_keeps with (calls := calls) in E1 as Hp1; try done;
    [|by injection H as <- <-].
  assert (P states) as HP.
  { unfold outer in E1. destruct (get_states (pv_world p)) as [r1 w1] eqn:Eg. injection E1 as -> _.
    by eapply reported. }
  unfold bind at 1 in H. destruct (outer load_areas p1) as [ars p2] eqn:E2.
  apply outer_keeps with (calls := calls) in E2 as Hp2; [|done].
  unfold bind at 1 in H. destruct (outer instant_now p2) as [now p3] eqn:E3.
  apply outer_keeps with (calls := calls) in E3 as Hp3; [|done].
  unfold bind, write_cache, ret in H. injection H as <- <-. destruct Hp3 as [Hc _].
  split; [split; [done|]|].
  - intros c [= <-]. by eexists states, _.
  - intros g [= <-]. by eexists states, _.
Qed.

Lemma synced_keeps calls p r p' :
  synced p = (r, p') -> reads_only calls p ->
  reads_only calls p' /\ forall g b, r = Ok (g, b) -> built_from g.
Proof.
  unfold synced, ebind. intros H Hp. destruct (sync_structure p) as [[g|e] p1] eqn:E;
    apply sync_structure_keeps with (calls := calls) in E as [Hp1 Hg]; try done;
    injection H as <- <-; (split; [done|]); intros g' b'; [intros [= <- <-]; by apply Hg|done].
Qed.

Lemma graph_keeps calls p r p' :
  graph p = (r, p') -> reads_only calls p ->
  reads_only calls p' /\ forall g b, r = Ok (g, b) -> built_from g.
Proof.
  unfold graph, bind at 1, read_cache. intros H Hp. destruct (pv_cache p) as [c|] eqn:Ec;
    [|by eapply synced_keeps].
  unfold bind in H. destruct (outer instant_now p) as [now p1] eqn:E1.
  apply outer_keeps with (calls := calls) in E1 as Hp1; [|done].
  destruct (_ <? _)%N; [|by eapply synced_keeps]. injection H as <- <-. split; [done|].
  intros g b [= <- <-]. by apply Hp.
Qed.

Lemma built_sound g q hint t :
  built_from g -> resolve_target_in_graph g q hint = Some t ->
  exists states area_entries, P states /\ reported_target states area_entries q hint t.
Proof.
  intros (states & ars & HP & ->) H. exists states, ars. split; [done|].
  apply target_sound_reported. eapply resolve_sound; [apply build_graph_wf|done].
Qed.

Lemma resolve_target_keeps calls p q hint r p' :
  resolve_target q hint p = (r, p') -> reads_only calls p ->
  reads_only calls p' /\
  forall t, r = Ok t ->
    exists states area_entries, P states /\ reported_target states area_entries (trim q) hint t.
Proof.
  unfold resolve_target. intros H Hp. destruct (is_empty (trim q)).
  { by injection H as <- <-. }
  unfold ebind in H. destruct (graph p) as [[[g cached]|e] p1] eqn:E1;
    apply graph_keeps with (calls := calls) in E1 as [Hp1 Hg]; try done; [|by injection H as <- <-].
  specialize (Hg g cached eq_refl).
  destruct (resolve_target_in_graph g (trim q) hint) as [t|] eqn:Et.
  { injection H as <- <-. split; [done|]. intros ? [= <-]. by eapply built_sound. }
  unfold bind at 1 in H. destruct cached.
  - unfold bind at 1 in H. destruct (sync_structure p1) as [r2 p2] eqn:E2.
    apply sync_structure_keeps with (calls := calls) in E2 as [Hp2 Hg2]; [|done].
    unfold ret in H. destruct r2 as [g2|e2]; [|by injection H as <- <-].
    destruct (resolve_target_in_graph g2 (trim q) hint) as [t|] eqn:Et2; injection H as <- <-;
      [|done]. split; [done|]. intros ? [= <-]. by eapply built_sound; [apply Hg2|].
  - unfold ret in H. by injection H as <- <-.
Qed.

Lemma get_state_keeps calls p t r p' :
  get_state t p = (r, p') -> reads_only calls p -> reads_only calls p'.
Proof.
  unfold get_state, get_live_entities, ebind. intros H Hp.
  destruct (outer get_states p) as [[states|e] p1] eqn:E1;
    apply outer_keeps with (calls := calls) in E1; try done; unfold ret in H; [|by injection H as <- <-].
  destruct (Nat.eqb _ _); by injection H as <- <-.
Qed.

Lemma health_keeps calls p h p' :
  health p = (h, p') -> reads_only calls p -> reads_only calls p'.
Proof.
  unfold health, bind, read_cache. intros H Hp.
  destruct (outer test_connection p) as [r p1] eqn:E1.
  apply outer_keeps with (calls := calls) in E1; [|done]. by injection H as <- <-.
Qed.

Lemma provider_reads calls : kept_by_reads (reads_only calls).
Proof.
  split_and!.
  - intros q k p r p' H Hp. exact (proj1 (resolve_target_keeps _ _ _ _ _ _ H Hp)).
  - intros t p r p' H Hp. exact (get_state_keeps _ _ _ _ _ H Hp).
  - intros p h p' H Hp. exact (health_keeps _ _ _ _ H Hp).
Qed.

(** [execute] sends the call of the action, or nothing. *)
Lemma execute_sends calls p a r p' :
  execute a p = (r, p') -> reads_only calls p ->
  cache_from p' /\
  match service_call a with
  | Ok c => pv_calls p' = calls ++ [c]
  | Err e => pv_calls p' = calls /\ r = Err e
  end.
Proof.
  unfold execute, ebind at 1, ret at 1. intros H [Hc Hca]. destruct (service_call a) as [c|e];
    [|injection H as <- <-; by split].
  unfold ebind, send in H.
  destruct (call_service _ _ _ _) as [[es|e] w1]; [|injection H as <- <-; by rewrite <- Hc].
  unfold bind at 1 in H.
  assert (reads_only (calls ++ [c]) {| pv_world := w1; pv_cache := pv_cache p; pv_calls := pv_calls p ++ [c] |}) as Hp1.
  { split; [by rewrite <- Hc|done]. }
  set (p1 := {| pv_world := w1; pv_cache := _; pv_calls := _ |}) in *. clearbody p1.
  destruct (is_scene_or_script _).
  - unfold ret in H. injection H as <- <-. by destruct Hp1.
  - unfold bind at 1 in H. destruct (get_state _ p1) as [r2 p2] eqn:E2.
    apply get_state_keeps with (calls := calls ++ [c]) in E2 as [? ?]; [|done].
    unfold ret in H. by injection H as <- <-.
Qed.

End reads.

(** ** What an unconfirmed request can send *)

Definition unconfirmed_call (c : ServiceCall) : Prop :=
  call_name c ∈ ["turn_on"; "turn_off"; "toggle"] /\
  call_domain c <> "lock" /\ call_domain c <> "script" /\
  (call_name c = "toggle" -> call_domain c <> "cover").

Lemma service_call_payload a c :
  service_call a = Ok c ->
  get (call_data c) "entity_id" = Some (Array (Str <$> entity_ids (action_target a))).
Proof.
  unfold service_call, ensure_domain, entity_payload. intros H.
  destruct (target_domain _) as [d|]; cbn [ok_or rbind] in H; [|done].
  destruct (action_kind a); try (injection H as <-; done);
    repeat (destruct (elem_str d _); cbn [rbind] in H; [|done]);
    try destruct (action_value a); cbn [ok_or rbind] in H; try done; try (injection H as <-; done).
  all: destruct (target_kind _); try done; [by injection H as <-|];
    destruct (voice_safe _); cbn [negb] in H; [by injection H as <-|done].
Qed.

Lemma elem_str_single d e : elem_str d [e] = true -> d = e.
Proof. unfold elem_str. cbn. rewrite orb_false_r. apply String.eqb_eq. Qed.

Section authorised.
Context `{U : Unicode}.

Lemma unconfirmed_low_call states area_entries q a c origin :
  reported_target states area_entries q (Some (action_kind a)) (action_target a) ->
  authorised a origin false -> origin_label origin <> None ->
  service_call a = Ok c -> unconfirmed_call c.
Proof.
  intros (d & Hd & _ & _ & _ & _ & Hk) [_ [?|[Hn [Hr|?]]]] Ho Hc; try done.
  pose proof Hn as (Hv & Hs & Hu & Hopen).
  assert (risk (assess_home_action a) = action_risk d (action_kind a)) as Hrisk.
  { apply assess_allowed, assess_allowed_risk in Hn. rewrite Hn. unfold domain_or_empty. by rewrite Hd. }
  rewrite Hr in Hrisk. unfold domain_or_empty in Hs, Hopen. rewrite Hd in Hs, Hopen.
  assert (d <> "lock") as Hlock by by intros ->.
  unfold service_call in Hc. rewrite Hd in Hc. cbn [ok_or rbind] in Hc.
  unfold ensure_domain in Hc.
  assert (d = "script" -> action_kind a = HomeActionKind.Activate) as Hscript.
  { intros ->. destruct (target_kind (action_target a)).
    1,2: by destruct Hk as (? & ? & _). 1: by destruct Hk as [? _].
    destruct Hk as (_ & Hh & _). unfold is_activate_or_none in Hh.
    apply orb_true_iff in Hh as [Hh|Hh]; apply bool_decide_eq_true in Hh; [by injection Hh|done]. }
  assert (d = "cover" -> action_kind a <> HomeActionKind.Toggle) as Hcover.
  { intros -> Ha. by rewrite Ha in Hrisk. }
  unfold unconfirmed_call.
  destruct (action_kind a) eqn:Ea; try done;
    repeat (destruct (elem_str d _) eqn:Ed; cbn [rbind] in Hc; [apply elem_str_single in Ed; subst d|done]);
    try (destruct (action_value a); cbn [ok_or rbind] in Hc; [|done]);
    try (injection Hc as <-; cbn [call_name call_domain]).
  5,7: discriminate Hrisk.
  1-4: split_and!; [by apply eqb_elem|done|by intros ?%Hscript|by intros ? ?%Hcover].
  - by destruct (Hopen eq_refl).
  - done.
  - destruct (target_kind (action_target a)); try done.
    + injection Hc as <-. by split_and!; [apply eqb_elem| | |].
    + destruct Hk as (-> & _). discriminate Hrisk.
Qed.

End authorised.

(** ** Properties *)

Section properties.
Context {W : Type} `{MC : Machine W} `{HX : HttpExchange W} `{CS : ClientSerde} `{SD : Serde}
  `{U : Unicode} `{FT : FloatText}.

(** The service call that ends a run of [control]: of a cleared action, whose
    target was reported, carrying exactly the entities of the target. *)
Definition accountable_call (P : list Entity -> Prop) (query action : string) (v : option f64)
    (config : ActuationSafetyConfig) (origin : RequestOrigin.t) (confirmed : bool)
    (p : Provider W) (c : ServiceCall) : Prop :=
  exists a w states area_entries,
    cleared query action v config origin confirmed p a w /\
    P states /\
    reported_target states area_entries (trim query) (Some (action_kind a)) (action_target a) /\
    service_call a = Ok c /\
    get (call_data c) "entity_id" = Some (Array (Str <$> entity_ids (action_target a))) /\
    (confirmed = false -> origin_label origin <> None -> unconfirmed_call c).

(** C8: what [control] sends to Home Assistant.  Let every report of the
    states satisfy [P].  A run sends at most one service call; the call is that
    of an action cleared by both policy gates, on exactly the entities of its
    target, all of which come from a report that satisfies [P]; and without a
    confirmation, for an origin that can ask for one, it only turns things on
    or off or toggles them, never a lock or a script, and toggles no cover. *)
Theorem service_calls_are_authorised (P : list Entity -> Prop) query action v config origin confirmed
    (s : Env (Provider W)) :
  (forall w states w', get_states w = (Ok states, w') -> P states) ->
  cache_from P (outside s) ->
  let p' := outside (control query action v config origin confirmed s).2 in
  cache_from P p' /\
  (pv_calls p' = pv_calls (outside s) \/
   exists c, pv_calls p' = pv_calls (outside s) ++ [c] /\
     accountable_call P query action v config origin confirmed (outside s) c).
Proof.
  intros Hrep Hca. cbv zeta.
  destruct (control query action v config origin confirmed s) as [r s'] eqn:E.
  apply (control_run_keeping (reads_only P (pv_calls (outside s)))) in E; [|by apply provider_reads|done].
  cbn [snd]. destruct E as [(_ & [Hc Hp] & _)|(a & w & ar & w' & Hcl & HI & He & -> & _)];
    [by split; [|left]|]. cbn [outside].
  apply (execute_sends P (pv_calls (outside s))) in He as [Hp Hc]; [|done]. split; [done|].
  destruct (service_call a) as [c|e] eqn:Es; [|left; by destruct Hc]. right. exists c. split; [done|].
  assert (exists states ars, P states /\
    reported_target states ars (trim query) (Some (action_kind a)) (action_target a)) as (states & ars & HP & Ht).
  { destruct Hcl as (w1 & _ & _ & _ & _ & Hres & _).
    by apply (proj2 (resolve_target_keeps P Hrep (pv_calls (outside s)) _ _ _ _ _ Hres (conj eq_refl Hca))). }
  exists a, w, states, ars. split_and!; try done; [by apply service_call_payload|].
  intros -> Ho. destruct Hcl as (_ & _ & _ & _ & _ & _ & _ & Hau & _).
  by eapply unconfirmed_low_call.
Qed.

(** Brightness survives the round trip.  A light set to a whole number of
    percent and read back with the value that was sent is announced with that
    number; and the value sent is always a byte. *)
Lemma brightness_roundtrip (n : N) (name st : string) (id : string) (x : f64) :
  ((n <= 100)%N ->
   summarize_state name (Some "light")
     [{| entity_id := id; entity_state := st;
         attributes := Object [("brightness",
           Number (PosInt (normalize_brightness (f64_of_Z (Z.of_N n)))))] |}] =
   name +:+ " is " +:+ st +:+ ", brightness " +:+ show_N n +:+ "%") /\
  (normalize_brightness x <= u8_max)%N.
Proof.
  split.
  - intros Hn. cbn -[normalize_brightness brightness_percent String.append].
    assert (brightness_percent (normalize_brightness (f64_of_Z (Z.of_N n))) = n) as ->.
    { assert (forallb (fun k => N.eqb (brightness_percent (normalize_brightness (f64_of_Z (Z.of_nat k)))) (N.of_nat k))
                (seq 0 101) = true) as H by by vm_compute.
      assert (N.to_nat n ∈ seq 0 101) as Hin by (apply elem_of_seq; lia).
      apply (proj1 (forallb_elem _ _) H) in Hin. cbv beta in Hin. apply N.eqb_eq in Hin.
      by rewrite N_nat_Z, N2Nat.id in Hin. }
    by rewrite !sapp_assoc.
  - unfold normalize_brightness.
    assert (forall y, (round_as_uint u8_max y <= u8_max)%N) as H.
    { intros [[]|[]| |[]]; unfold round_as_uint, u8_max; lia. }
    by destruct (SFleb _ _).
Qed.

End properties.

Section concrete.
#[local] Existing Instance ascii_tables.

(** A home that answers every request with the sample report. *)
Definition quiet_machine : Machine unit := {|
  instant_now w := (0%N, w); machine_now_ms w := (0%N, w);
  machine_getrandom w := ([], w); machine_alias _ w := (None, w) |}.
Definition sample_http : HttpExchange unit := {|
  http_exchange _ path _ w :=
    (Ok (200%N, if String.eqb path "/api/states" then "states"
                else if String.eqb path "/api/template" then "areas" else ""), w);
  client_host := "localhost"; client_port := 8123 |}.
Definition sample_decoders : ClientSerde := {|
  entities_of_str s := if String.eqb s "states" then Ok sample_states else Err "expected value";
  areas_of_str s := if String.eqb s "areas" then Ok sample_areas else Err "expected value" |}.
Definition sample_json : Serde := {| from_str _ := None; to_str _ := "{}" |}.
Definition sample_text : FloatText := {| f64_display _ := "0"; f64_debug _ := "0.0" |}.
#[local] Existing Instances quiet_machine sample_http sample_decoders sample_json sample_text.

Definition sample_env : Env (Provider unit) :=
  {| outside := {| pv_world := tt; pv_cache := None; pv_calls := [] |}; executed := [] |}.
Definition sample_run : Provider unit :=
  outside (control "bedroom lamp" "turn_on" None default_actuation_safety RequestOrigin.Voice false
             sample_env).2.

Lemma service_calls_are_authorised_witness :
  pv_calls sample_run =
    [{| call_domain := "light"; call_name := "turn_on";
        call_data := Object [("entity_id", Array [Str "light.bed"])] |}] /\
  cache_from (fun l => l = sample_states) sample_run /\
  (pv_calls sample_run = [] \/
   exists c, pv_calls sample_run = [] ++ [c] /\
     accountable_call (fun l => l = sample_states) "bedroom lamp" "turn_on" None
       default_actuation_safety RequestOrigin.Voice false (outside sample_env) c).
Proof.
  split; [vm_compute; reflexivity|].
  apply (service_calls_are_authorised (fun l => l = sample_states) "bedroom lamp" "turn_on" None
           default_actuation_safety RequestOrigin.Voice false sample_env).
  - intros [] states w' H. vm_compute in H. injection H as <- _. reflexivity.
  - intros c H. discriminate H.
Defined.

Lemma brightness_roundtrip_witness :
  summarize_state "Lamp" (Some "light")
    [{| entity_id := "light.lamp"; entity_state := "on";
        attributes := Object [("brightness",
          Number (PosInt (normalize_brightness (f64_of_Z (Z.of_N 75)))))] |}] =
  "Lamp is on, brightness 75%".
Proof.
  apply (proj1 (brightness_roundtrip 75 "Lamp" "on" "light.lamp" (f64_of_Z 0))). lia.
Defined.

End concrete.
