(* ===== verification/Confirmations.v ===== *)
(** * Pending confirmations ([ConfirmationManager] of [tools/actuation.rs])

    A home action that needs a human is parked under an unguessable token; the
    token is good for one confirmation within ten minutes.  Each operation reads
    the clock itself, so the state is paired with the outside world. *)

From S2P Require Import Prelude RustStr RustNum Json HomeTypes Scripted.
From Stdlib Require Import Ascii.
Local Open Scope string_scope.
Local Open Scope list_scope.

Record PendingConfirmation := {
  pc_token : string;
  pc_entity : string;
  pc_action : string;
  pc_value : option f64;
  pc_reason : string;
  pc_requested_by : RequestOrigin.t;
  created_ms : N;
  expires_ms : N;
}.

Record ConfirmationState := {
  cs_next_id : N;
  pending : gmap string PendingConfirmation;
}.

Definition empty_confirmations : ConfirmationState := {| cs_next_id := 0; pending := ∅ |}.

Definition MAX_PENDING_CONFIRMATIONS : nat := 64.
Definition confirmation_ttl_ms : N := 10 * 60 * 1000.

(** ** Tokens *)

Definition hex_digit (n : N) : ascii :=
  match String.get (N.to_nat n) "0123456789abcdef" with Some a => a | None => "0"%char end.

(** [act-] and the two hex digits of each random byte. *)
Definition random_token (rnd : list N) : string :=
  "act-" +:+ of_bytes (flat_map (fun b => [hex_digit (N.shiftr b 4); hex_digit (N.land b 15)]) rnd).

(** [ct_eq]: same length, and no position where the bytes differ. *)
Definition ct_diff (a b : list ascii) : N :=
  foldl (fun diff '(x, y) => N.lor diff (N.lxor (N_of_ascii x) (N_of_ascii y))) 0%N (zip a b).
Definition ct_eq (a b : list ascii) : bool :=
  if negb (Nat.eqb (length a) (length b)) then false else N.eqb (ct_diff a b) 0.

Lemma ct_fold_zero l d :
  foldl (fun diff '(x, y) => N.lor diff (N.lxor (N_of_ascii x) (N_of_ascii y))) d l = 0%N <->
  d = 0%N /\ Forall (fun xy => xy.1 = xy.2) l.
Proof.
  revert d. induction l as [|[x y] l IH]; intros d; cbn [foldl]; [by split; [split|intros []]|].
  rewrite IH, N.lor_eq_0_iff, N.lxor_eq_0_iff, Forall_cons. cbn [fst snd]. split.
  - intros [[-> Hxy] Hl]. split_and!; [done| |done].
    by rewrite <- (ascii_N_embedding x), Hxy, ascii_N_embedding.
  - intros (-> & -> & Hl). done.
Qed.

Lemma ct_eq_iff a b : ct_eq a b = true <-> a = b.
Proof.
  unfold ct_eq, ct_diff. destruct (Nat.eqb_spec (length a) (length b)) as [Hl|Hl]; cbn [negb].
  - rewrite N.eqb_eq, ct_fold_zero. split; [intros [_ H]|intros ->].
    + revert b Hl H. induction a as [|x a IH]; intros [|y b] Hl H; try done.
      cbn [zip] in H. apply Forall_cons in H as [Hx H]. cbn in Hx, Hl. f_equal; [done|].
      apply IH; [lia|done].
    + split; [done|]. clear Hl. induction b; constructor; done.
  - split; [done|]. intros ->. done.
Qed.

(** ** Operations *)

Section operations.
Context {W : Type} `{Ops : World W} `{HO : HashOrder}.

(** [items.retain(item.expires_ms > now)]. *)
Definition prune_at (now : N) (m : gmap string PendingConfirmation) : gmap string PendingConfirmation :=
  retain (fun item => (now <? expires_ms item)%N) m.

Definition prune_expired : M (W * ConfirmationState) unit :=
  fun '(w, st) =>
    let '(now, w) := now_ms w in
    (tt, (w, {| cs_next_id := cs_next_id st; pending := prune_at now (pending st) |})).

Definition issue (entity action : string) (v : option f64) (reason : string)
    (requested_by : RequestOrigin.t) : M (W * ConfirmationState) (option PendingConfirmation) :=
  fun s =>
    let '(_, (w, st)) := prune_expired s in
    if Nat.leb MAX_PENDING_CONFIRMATIONS (size (pending st)) then (None, (w, st))
    else
      let next_id := u64_wrap (cs_next_id st + 1) in
      let '(created, w) := now_ms w in
      let '(rnd, w) := getrandom w in
      let token := random_token rnd in
      let item := {|
        pc_token := token; pc_entity := entity; pc_action := action; pc_value := v;
        pc_reason := reason; pc_requested_by := requested_by;
        created_ms := created; expires_ms := u64_wrap (created + confirmation_ttl_ms) |} in
      (Some item, (w, {| cs_next_id := next_id; pending := <[token := item]> (pending st) |})).

(** The scan compares every key and keeps the last match. *)
Definition scan_keys (token : string) (keys : list string) : option string :=
  foldl (fun matched key => if ct_eq (bytes key) (bytes token) then Some key else matched) None keys.

Definition confirm (token : string) : M (W * ConfirmationState) (option PendingConfirmation) :=
  fun s =>
    let '(_, (w, st)) := prune_expired s in
    match scan_keys token (fst <$> hash_iter (pending st)) with
    | Some key =>
        (pending st !! key,
         (w, {| cs_next_id := cs_next_id st; pending := delete key (pending st) |}))
    | None => (None, (w, st))
    end.

Definition list_pending : M (W * ConfirmationState) (list PendingConfirmation) :=
  fun s =>
    let '(_, (w, st)) := prune_expired s in
    (sort_by_key created_ms (snd <$> hash_iter (pending st)), (w, st)).

(** ** The scan finds the token, in whatever order the map is visited *)

Lemma scan_keys_from token keys m :
  foldl (fun matched key => if ct_eq (bytes key) (bytes token) then Some key else matched) m keys =
  if bool_decide (token ∈ keys) then Some token else m.
Proof.
  revert m. induction keys as [|k keys IH]; intros m; cbn [foldl].
  { case_bool_decide; [set_solver|done]. }
  rewrite IH. destruct (ct_eq (bytes k) (bytes token)) eqn:E.
  - apply ct_eq_iff, bytes_inj in E as ->.
    rewrite (bool_decide_true (token ∈ token :: keys)) by set_solver.
    by destruct (bool_decide _).
  - assert (k <> token) as Hne.
    { intros ->. by rewrite (proj2 (ct_eq_iff _ _) eq_refl) in E. }
    case_bool_decide; case_bool_decide; set_solver.
Qed.

Context `{!HashOrderLaws HO}.

Lemma scan_keys_lookup token (m : gmap string PendingConfirmation) :
  scan_keys token (fst <$> hash_iter m) = if decide (is_Some (m !! token)) then Some token else None.
Proof.
  unfold scan_keys. rewrite scan_keys_from.
  assert (token ∈ fst <$> hash_iter m <-> is_Some (m !! token)) as H.
  { rewrite list_elem_of_fmap. split.
    - intros ([k x] & -> & Hk). apply hash_iter_elem in Hk. by exists x.
    - intros [x Hx]. exists (token, x). by rewrite hash_iter_elem. }
  case_bool_decide; case_decide; naive_solver.
Qed.

(** [confirm] is the lookup and removal of a live token. *)
Lemma confirm_run token w st :
  confirm token (w, st) =
  let '(now, w) := now_ms w in
  let live := prune_at now (pending st) in
  (live !! token, (w, {| cs_next_id := cs_next_id st; pending := delete token live |})).
Proof.
  unfold confirm, prune_expired. destruct (now_ms w) as [now w']. cbn [pending cs_next_id].
  rewrite scan_keys_lookup. case_decide as Hs; [done|].
  apply eq_None_not_Some in Hs. rewrite Hs, delete_id by done. done.
Qed.

End operations.

(** An issued item is parked under its token. *)
Lemma issue_some {W} `{World W} entity action v reason og w c p w' c' :
  issue entity action v reason og (w, c) = (Some p, (w', c')) ->
  pending c' !! pc_token p = Some p /\ pc_requested_by p = og.
Proof.
  unfold issue, prune_expired. destruct (now_ms w) as [now w1]. destruct (Nat.leb _ _); [done|].
  destruct (now_ms w1) as [created w2]. destruct (getrandom w2) as [rnd w3].
  intros [= <- <- <-]. cbn. by rewrite lookup_insert_eq.
Qed.

(** ** Sequences of operations *)

Inductive op :=
| OpIssue (entity action : string) (v : option f64) (reason : string) (by_origin : RequestOrigin.t)
| OpConfirm (token : string)
| OpList.

Inductive outcome :=
| OutIssue (o : option PendingConfirmation)
| OutConfirm (o : option PendingConfirmation)
| OutList (l : list PendingConfirmation).

Definition issued_of (o : outcome) : option PendingConfirmation :=
  match o with OutIssue o => o | _ => None end.
Definition confirmed_of (o : outcome) : option PendingConfirmation :=
  match o with OutConfirm o => o | _ => None end.

Section traces.
Context {W : Type} `{Ops : World W} `{HO : HashOrder}.

Definition run_op (o : op) : M (W * ConfirmationState) outcome :=
  fun s =>
    match o with
    | OpIssue entity action v reason by_origin =>
        let '(r, s) := issue entity action v reason by_origin s in (OutIssue r, s)
    | OpConfirm token => let '(r, s) := confirm token s in (OutConfirm r, s)
    | OpList => let '(r, s) := list_pending s in (OutList r, s)
    end.

Fixpoint run (ops : list op) : M (W * ConfirmationState) (list outcome) :=
  fun s =>
    match ops with
    | [] => ([], s)
    | o :: ops =>
        let '(r, s) := run_op o s in
        let '(rs, s) := run ops s in
        (r :: rs, s)
    end.

Context `{!HashOrderLaws HO}.

Definition live_items (st : ConfirmationState) : list PendingConfirmation :=
  (map_to_list (pending st)).*2.

Lemma live_items_mono (m m' : gmap string PendingConfirmation) :
  m ⊆ m' -> (map_to_list m).*2 ⊆+ (map_to_list m').*2.
Proof. intros H. apply fmap_submseteq. by apply map_to_list_submseteq. Qed.

Lemma live_items_insert (m : gmap string PendingConfirmation) t p :
  (map_to_list (<[t := p]> m)).*2 ⊆+ p :: (map_to_list m).*2.
Proof.
  rewrite <- insert_delete_eq, map_to_list_insert by apply lookup_delete_eq.
  rewrite fmap_cons. apply submseteq_skip, live_items_mono, delete_subseteq.
Qed.

Lemma live_items_delete (m : gmap string PendingConfirmation) t p :
  m !! t = Some p -> p :: (map_to_list (delete t m)).*2 ⊆+ (map_to_list m).*2.
Proof.
  intros H. rewrite <- (map_to_list_delete m t p) by done. by rewrite fmap_cons.
Qed.

(** One operation: what it confirms was live, what is live afterwards was live
    before or is new, and the table stays within its cap. *)
Lemma run_op_step o w st r w' st' :
  run_op o (w, st) = (r, (w', st')) ->
  option_list (confirmed_of r) ++ live_items st' ⊆+ live_items st ++ option_list (issued_of r) /\
  (size (pending st) <= MAX_PENDING_CONFIRMATIONS ->
   size (pending st') <= MAX_PENDING_CONFIRMATIONS).
Proof.
  destruct o as [e a v rs og|token|]; unfold run_op.
  - unfold issue, prune_expired. destruct (now_ms w) as [now w1]. cbn [pending cs_next_id].
    assert (prune_at now (pending st) ⊆ pending st) as Hsub by apply retain_subseteq.
    pose proof (size_retain (fun item => (now <? expires_ms item)%N) (pending st)) as Hsz.
    fold (prune_at now (pending st)) in Hsz.
    destruct (Nat.leb _ _) eqn:Hcap.
    + intros [= <- <- <-]. cbn. rewrite app_nil_r. split; [by apply live_items_mono|lia].
    + bool_to_prop. destruct (now_ms w1) as [created w2]. destruct (getrandom w2) as [rnd w3].
      intros [= <- <- <-]. cbn [confirmed_of issued_of option_list app]. split.
      * unfold live_items. cbn [pending]. etrans; [apply live_items_insert|].
        rewrite (comm (++)). cbn. by apply submseteq_skip, live_items_mono.
      * cbn [pending]. intros _.
        pose proof (size_insert_le (prune_at now (pending st)) (random_token rnd)
          {| pc_token := random_token rnd; pc_entity := e; pc_action := a; pc_value := v;
             pc_reason := rs; pc_requested_by := og; created_ms := created;
             expires_ms := u64_wrap (created + confirmation_ttl_ms) |}).
        lia.
  - rewrite confirm_run. destruct (now_ms w) as [now w1].
    intros [= <- <- <-]. cbn [confirmed_of issued_of pending option_list]. rewrite app_nil_r.
    pose proof (retain_subseteq (fun item => (now <? expires_ms item)%N) (pending st)) as Hsub.
    fold (prune_at now (pending st)) in Hsub. split.
    + unfold live_items. cbn [pending].
      destruct (prune_at now (pending st) !! token) as [p|] eqn:Hp; cbn.
      * etrans; [by apply live_items_delete|by apply live_items_mono].
      * rewrite delete_id by done. by apply live_items_mono.
    + intros. pose proof (map_subseteq_size _ _ Hsub).
      pose proof (map_subseteq_size _ _ (delete_subseteq (prune_at now (pending st)) token)). lia.
  - unfold list_pending, prune_expired. destruct (now_ms w) as [now w1].
    intros [= <- <- <-]. cbn. rewrite app_nil_r.
    pose proof (retain_subseteq (fun item => (now <? expires_ms item)%N) (pending st)) as Hsub.
    split; [by apply live_items_mono|]. intros.
    pose proof (map_subseteq_size _ _ Hsub). unfold prune_at. lia.
Qed.

Lemma run_invariant ops w st outs w' st' :
  run ops (w, st) = (outs, (w', st')) ->
  filter_map confirmed_of outs ++ live_items st' ⊆+ live_items st ++ filter_map issued_of outs /\
  (size (pending st) <= MAX_PENDING_CONFIRMATIONS ->
   size (pending st') <= MAX_PENDING_CONFIRMATIONS).
Proof.
  revert w st outs. induction ops as [|o ops IH]; intros w st outs; cbn [run].
  { intros [= <- <- <-]. cbn. by rewrite app_nil_r. }
  destruct (run_op o (w, st)) as [r [w1 st1]] eqn:Hr.
  destruct (run ops (w1, st1)) as [rs [w2 st2]] eqn:Hrs. intros [= <- <- <-].
  apply run_op_step in Hr as [Hm Hs]. apply IH in Hrs as [Hm' Hs']. split; [|auto].
  assert (filter_map confirmed_of (r :: rs) = option_list (confirmed_of r) ++ filter_map confirmed_of rs) as ->
    by (cbn; by destruct (confirmed_of r)).
  assert (filter_map issued_of (r :: rs) = option_list (issued_of r) ++ filter_map issued_of rs) as ->
    by (cbn; by destruct (issued_of r)).
  rewrite <- app_assoc. etrans; [apply submseteq_app; [done|exact Hm']|].
  rewrite !app_assoc. by apply submseteq_app.
Qed.

(** Every live item sits under its own token, and was parked for ten minutes. *)
Definition well_parked (st : ConfirmationState) : Prop :=
  map_Forall (fun t p => pc_token p = t /\ expires_ms p = u64_wrap (created_ms p + confirmation_ttl_ms))
    (pending st).

Lemma well_parked_sub n m st :
  m ⊆ pending st -> well_parked st -> well_parked {| cs_next_id := n; pending := m |}.
Proof. intros Hsub Hw t p Hp. apply Hw. by eapply lookup_weaken. Qed.

Lemma run_op_well_parked o w st r w' st' :
  run_op o (w, st) = (r, (w', st')) -> well_parked st -> well_parked st'.
Proof.
  intros Hr Hw. destruct o as [e a v rs og|token|]; unfold run_op in Hr.
  - unfold issue, prune_expired in Hr. destruct (now_ms w) as [now w1]. cbn [pending cs_next_id] in Hr.
    pose proof (retain_subseteq (fun item => (now <? expires_ms item)%N) (pending st)) as Hsub.
    destruct (Nat.leb _ _); [injection Hr as <- <- <-; by eapply well_parked_sub|].
    destruct (now_ms w1) as [created w2]. destruct (getrandom w2) as [rnd w3]. injection Hr as <- <- <-.
    apply map_Forall_insert_2; [done|]. intros t p Hp. apply Hw. by eapply lookup_weaken.
  - rewrite confirm_run in Hr. destruct (now_ms w) as [now w1]. injection Hr as <- <- <-.
    eapply well_parked_sub; [|done]. etrans; [apply delete_subseteq|apply retain_subseteq].
  - unfold list_pending, prune_expired in Hr. destruct (now_ms w) as [now w1]. injection Hr as <- <- <-.
    eapply well_parked_sub; [|done]. apply retain_subseteq.
Qed.

Lemma run_well_parked ops w st outs w' st' :
  run ops (w, st) = (outs, (w', st')) -> well_parked st -> well_parked st'.
Proof.
  revert w st outs. induction ops as [|o ops IH]; intros w st outs; cbn [run]; [naive_solver|].
  destruct (run_op o (w, st)) as [r [w1 st1]] eqn:Hr.
  destruct (run ops (w1, st1)) as [rs [w2 st2]] eqn:Hrs. intros [= <- <- <-] Hw.
  eapply IH; [done|]. by eapply run_op_well_parked.
Qed.

Lemma empty_well_parked : well_parked empty_confirmations.
Proof. apply map_Forall_empty. Qed.

End traces.

(** ** Tokens carry every random bit *)

Lemma hex_digit_inj : Forall (fun n => Forall (fun m => hex_digit n = hex_digit m -> n = m)
  (N.of_nat <$> seq 0 16)) (N.of_nat <$> seq 0 16).
Proof. repeat constructor; cbv; intros; (reflexivity || discriminate). Qed.

Lemma hex_digit_inj_lt n m : (n < 16)%N -> (m < 16)%N -> hex_digit n = hex_digit m -> n = m.
Proof.
  intros Hn Hm. pose proof hex_digit_inj as H. rewrite Forall_forall in H.
  assert (forall k, (k < 16)%N -> k ∈ N.of_nat <$> seq 0 16) as Hin.
  { intros k Hk. apply list_elem_of_fmap. exists (N.to_nat k). rewrite N2Nat.id.
    split; [done|]. apply elem_of_seq. lia. }
  specialize (H n (Hin n Hn)). rewrite Forall_forall in H. by apply H, Hin.
Qed.

Lemma byte_nibbles a b :
  N.shiftr a 4 = N.shiftr b 4 -> N.land a 15 = N.land b 15 -> a = b.
Proof.
  change 15%N with (N.ones 4). rewrite !N.shiftr_div_pow2, !N.land_ones.
  change (2 ^ 4)%N with 16%N. pose proof (N.div_mod a 16). pose proof (N.div_mod b 16). lia.
Qed.

Lemma nibbles_lt a : (a < 256)%N -> (N.shiftr a 4 < 16)%N /\ (N.land a 15 < 16)%N.
Proof.
  change 15%N with (N.ones 4). rewrite N.shiftr_div_pow2, N.land_ones.
  change (2 ^ 4)%N with 16%N. split; [apply N.Div0.div_lt_upper_bound|apply N.mod_lt]; lia.
Qed.

Lemma token_bytes_inj l l' :
  Forall (fun b => (b < 256)%N) l -> Forall (fun b => (b < 256)%N) l' ->
  flat_map (fun b => [hex_digit (N.shiftr b 4); hex_digit (N.land b 15)]) l =
  flat_map (fun b => [hex_digit (N.shiftr b 4); hex_digit (N.land b 15)]) l' -> l = l'.
Proof.
  intros Hl. revert l'. induction Hl as [|a l Ha Hl IH]; intros l' Hl' H; destruct l' as [|b l']; try done.
  apply Forall_cons in Hl' as [Hb Hl']. cbn [flat_map app] in H. injection H as H1 H2 H.
  apply nibbles_lt in Ha as [? ?], Hb as [? ?].
  apply hex_digit_inj_lt in H1, H2; try done. f_equal; [by apply byte_nibbles|by apply IH].
Qed.

(** ** Properties *)

(** C27: over any sequence of requests, confirmations and listings, every
    successful confirmation consumes a distinct item that was issued before
    (no token is good twice), and at most 64 items are pending. *)
Theorem confirm_at_most_once {W} `{World W} `{HO : HashOrder} `{!HashOrderLaws HO}
    (ops : list op) (w : W) :
  let '(outs, (_, st)) := run ops (w, empty_confirmations) in
  filter_map confirmed_of outs ⊆+ filter_map issued_of outs /\
  size (pending st) <= MAX_PENDING_CONFIRMATIONS.
Proof.
  destruct (run ops (w, empty_confirmations)) as [outs [w' st]] eqn:E.
  apply run_invariant in E as [Hm Hs]. split.
  - etrans; [|exact Hm]. by apply submseteq_inserts_r.
  - apply Hs. cbn. rewrite map_size_empty. unfold MAX_PENDING_CONFIRMATIONS. lia.
Qed.

(** In every reachable state, [confirm] returns exactly the item that is
    pending under the presented token and has not reached its expiry, ten
    minutes after it was created; whatever it returns, the token is dead
    afterwards. *)
Lemma confirm_live_token {W} `{World W} `{HO : HashOrder} `{!HashOrderLaws HO}
    (ops : list op) (w : W) (token : string) :
  let '(_, (w1, st)) := run ops (w, empty_confirmations) in
  let '(o, (_, st')) := confirm token (w1, st) in
  (forall p, o = Some p <-> pending st !! token = Some p /\ ((now_ms w1).1 < expires_ms p)%N) /\
  (forall p, o = Some p ->
     pc_token p = token /\ expires_ms p = u64_wrap (created_ms p + 10 * 60 * 1000)) /\
  pending st' !! token = None.
Proof.
  destruct (run ops (w, empty_confirmations)) as [outs [w1 st]] eqn:E.
  apply run_well_parked in E; [|apply empty_well_parked].
  rewrite confirm_run. destruct (now_ms w1) as [now w2]. cbn [fst pending].
  assert (forall p, prune_at now (pending st) !! token = Some p <->
            pending st !! token = Some p /\ (now < expires_ms p)%N) as Hp.
  { intros p. unfold prune_at. rewrite lookup_retain. by rewrite N.ltb_lt. }
  split_and!; [exact Hp| |apply lookup_delete_eq].
  intros p [Hl _]%Hp. by apply E in Hl.
Qed.

(** A confirmation token carries all of its random bits: different entropy
    gives different tokens. *)
Lemma random_token_injective (l l' : list N) :
  Forall (fun b => (b < 256)%N) l -> Forall (fun b => (b < 256)%N) l' ->
  random_token l = random_token l' -> l = l'.
Proof.
  intros Hl Hl' H. apply token_bytes_inj; [done|done|].
  unfold random_token in H. apply (f_equal bytes) in H. rewrite !bytes_app in H.
  apply app_inv_head in H. by rewrite !bytes_of_bytes in H.
Qed.

Lemma random_token_injective_witness : [10%N; 255%N] = [10%N; 255%N].
Proof.
  apply random_token_injective; [repeat constructor; lia|repeat constructor; lia|reflexivity].
Defined.

Section concrete.
#[local] Existing Instance key_order.

Definition demo_ops : list op :=
  [OpIssue "front door" "unlock" None "unlocking" RequestOrigin.Voice;
   OpConfirm (random_token (repeat 7%N 16)); OpConfirm (random_token (repeat 7%N 16)); OpList].
Definition demo_outs : list outcome := (run demo_ops (lamp_world, empty_confirmations)).1.
Definition demo_state : ConfirmationState := (run demo_ops (lamp_world, empty_confirmations)).2.2.

Example demo_confirms_once : length (filter_map confirmed_of demo_outs) = 1.
Proof. vm_compute. reflexivity. Qed.

Lemma confirm_at_most_once_witness :
  filter_map confirmed_of demo_outs ⊆+ filter_map issued_of demo_outs /\
  size (pending demo_state) <= MAX_PENDING_CONFIRMATIONS.
Proof.
  pose proof (confirm_at_most_once demo_ops lamp_world) as H.
  unfold demo_outs, demo_state. destruct (run _ _) as [outs [w st]]. exact H.
Defined.

Definition one_issued : list outcome * (scripted * ConfirmationState) :=
  run (firstn 1 demo_ops) (lamp_world, empty_confirmations).

Lemma confirm_live_token_witness :
  is_Some (confirm (random_token (repeat 7%N 16)) one_issued.2).1 /\
  pending (confirm (random_token (repeat 7%N 16)) one_issued.2).2.2
    !! random_token (repeat 7%N 16) = None.
Proof.
  split; [vm_compute; eexists; reflexivity|].
  pose proof (confirm_live_token (firstn 1 demo_ops) lamp_world (random_token (repeat 7%N 16))) as H.
  unfold one_issued. destruct (run _ _) as [outs [w st]]. cbn [snd].
  destruct (confirm _ _) as [o [w' st']]. apply H.
Defined.

End concrete.
