(* ===== verification/Ledger.v ===== *)
(** * The action ledger ([ActionLedger] of [tools/actuation.rs])

    A bounded history of the home actions that ran, with what undoes each of
    them, and the audit events it is rebuilt from after a restart. *)

From S2P Require Import Prelude RustStr RustNum Json HomeTypes.
Local Open Scope string_scope.
Local Open Scope list_scope.

Record UndoRestore := {
  restore_action : string;
  restore_value : option f64;
}.

#[export] Instance spec_float_eq_dec : EqDecision spec_float.
Proof. solve_decision. Defined.

#[export] Instance undo_restore_eq_dec : EqDecision UndoRestore.
Proof. solve_decision. Defined.

Record RecordedAction := {
  ra_id : N;
  ra_undo_of : option N;
  ra_entity : string;
  ra_action : string;
  ra_value : option f64;
  ra_inverse_action : option string;
  ra_undo_restore : option UndoRestore;
  ra_origin : RequestOrigin.t;
  ra_summary : string;
  ra_confidence : option f32;
  ra_executed_ms : N;
}.

Record ActionLedgerState := {
  al_next_id : N;
  al_actions : list RecordedAction;
  undone_action_ids : gset N;
}.

Definition empty_ledger : ActionLedgerState :=
  {| al_next_id := 0; al_actions := []; undone_action_ids := ∅ |}.

Definition ACTION_HISTORY_LIMIT : nat := 32.

Definition inverse_action (action : string) : option string :=
  if String.eqb action "turn_on" then Some "turn_off"
  else if String.eqb action "turn_off" then Some "turn_on"
  else if String.eqb action "open" then Some "close"
  else if String.eqb action "close" then Some "open"
  else if String.eqb action "lock" then Some "unlock"
  else if String.eqb action "unlock" then Some "lock"
  else None.

(** ** Recording *)

(** [while actions.len() > LIMIT]: the oldest leave, and their undo marks. *)
Fixpoint trim_history (actions : list RecordedAction) (undone : gset N)
    : list RecordedAction * gset N :=
  match actions with
  | removed :: rest =>
      if Nat.ltb ACTION_HISTORY_LIMIT (length actions)
      then trim_history rest (undone ∖ {[ra_id removed]})
      else (actions, undone)
  | [] => ([], undone)
  end.

Definition record_internal (now : N) (entity action : string) (v : option f64)
    (origin : RequestOrigin.t) (summary : string) (confidence : option f32)
    (undo_of : option N) (undo_restore : option UndoRestore) (st : ActionLedgerState)
    : RecordedAction * ActionLedgerState :=
  let next_id := u64_wrap (al_next_id st + 1) in
  let item := {|
    ra_id := next_id; ra_undo_of := undo_of; ra_entity := entity; ra_action := action;
    ra_value := v; ra_inverse_action := inverse_action action; ra_undo_restore := undo_restore;
    ra_origin := origin; ra_summary := summary; ra_confidence := confidence;
    ra_executed_ms := now |} in
  let undone :=
    match undo_of with
    | Some original_id => {[original_id]} ∪ undone_action_ids st
    | None => undone_action_ids st
    end in
  let '(actions, undone) := trim_history (al_actions st ++ [item]) undone in
  (item, {| al_next_id := next_id; al_actions := actions; undone_action_ids := undone |}).

Definition record now entity action v origin summary confidence undo_restore :=
  record_internal now entity action v origin summary confidence None undo_restore.
Definition record_undo now original_id entity action v origin summary confidence undo_restore :=
  record_internal now entity action v origin summary confidence (Some original_id) undo_restore.

(** [ActionLedger::list]: newest first. *)
Definition ledger_list (st : ActionLedgerState) : list RecordedAction := reverse (al_actions st).

Definition is_undoable (st : ActionLedgerState) (item : RecordedAction) : bool :=
  match ra_undo_of item with Some _ => false | None => true end
  && negb (bool_decide (ra_id item ∈ undone_action_ids st))
  && (match ra_undo_restore item with Some _ => true | None => false end
      || match ra_inverse_action item with Some _ => true | None => false end).

Definition last_undoable (st : ActionLedgerState) : option RecordedAction :=
  List.find (is_undoable st) (reverse (al_actions st)).

Definition undo_home_control_args (action : RecordedAction) : option value :=
  match ra_undo_restore action with
  | Some restore =>
      Some (Object
        ([("entity", Str (ra_entity action)); ("action", Str (restore_action restore))] ++
         match restore_value restore with
         | Some v => [("value", json_f64 v)]
         | None => []
         end))
  | None =>
      match ra_inverse_action action with
      | Some inverse =>
          Some (Object [("entity", Str (ra_entity action)); ("action", Str inverse)])
      | None => None
      end
  end.

(** [hydrate]: keep the newest entries, and rebuild the marks from their
    [undo_of] fields. *)
Definition hydrate_step (st : ActionLedgerState) (action : RecordedAction) : ActionLedgerState :=
  {| al_next_id := N.max (al_next_id st) (ra_id action);
     al_actions := al_actions st ++ [action];
     undone_action_ids :=
       match ra_undo_of action with
       | Some original_id => {[original_id]} ∪ undone_action_ids st
       | None => undone_action_ids st
       end |}.
Definition hydrate (actions : list RecordedAction) : ActionLedgerState :=
  foldl hydrate_step empty_ledger (last_n ACTION_HISTORY_LIMIT actions).

(** ** What undoes an action whose effect depends on the state before it *)

Definition undo_restore_for_power_state (state : string) : option UndoRestore :=
  let to a := Some {| restore_action := a; restore_value := None |} in
  if String.eqb state "on" then to "turn_on"
  else if String.eqb state "off" then to "turn_off"
  else if String.eqb state "open" then to "open"
  else if String.eqb state "closed" then to "close"
  else if String.eqb state "locked" then to "lock"
  else if String.eqb state "unlocked" then to "unlock"
  else None.

Definition restore_for_entity (action : string) (entity : Entity) : option UndoRestore :=
  if String.eqb action "set_brightness" then
    if String.eqb (entity_state entity) "off"
    then Some {| restore_action := "turn_off"; restore_value := None |}
    else
      b ← get (attributes entity) "brightness" ≫= as_u64;
      Some {| restore_action := "set_brightness";
              restore_value := Some (f64_div (f64_mul (f64_of_Z (Z.of_N b)) (f64_of_Z 100)) (f64_of_Z 255)) |}
  else if String.eqb action "set_temperature" then
    if String.eqb (entity_state entity) "off"
    then Some {| restore_action := "turn_off"; restore_value := None |}
    else
      t ← (match get (attributes entity) "temperature" ≫= as_f64 with
           | Some t => Some t
           | None => get (attributes entity) "target_temp" ≫= as_f64
           end);
      Some {| restore_action := "set_temperature"; restore_value := Some t |}
  else if String.eqb action "toggle" then undo_restore_for_power_state (entity_state entity)
  else None.

(** Float equality, as the derived [PartialEq] of [UndoRestore] has it. *)
Definition restore_eqb (a b : option UndoRestore) : bool :=
  match a, b with
  | Some a, Some b =>
      String.eqb (restore_action a) (restore_action b) &&
      match restore_value a, restore_value b with
      | Some x, Some y => SFeqb x y
      | None, None => true
      | _, _ => false
      end
  | None, None => true
  | _, _ => false
  end.

Definition undo_restore_from_prior (action : string) (prior : HomeState) : option UndoRestore :=
  match state_entities prior with
  | [] => None
  | e :: entities =>
      let restore := restore_for_entity action e in
      if forallb (fun entity => restore_eqb (restore_for_entity action entity) restore) entities
      then restore else None
  end.

(** ** The audit trail *)

Module AuditStatus.

Inductive t : Set := ConfirmationIssued | BlockedPolicy | BlockedRuntime | Executed | Failed.

#[export] Instance eq_dec : EqDecision t.
Proof. solve_decision. Defined.

End AuditStatus.
Export (hints) AuditStatus.

Record AuditEvent := {
  ae_ts_ms : N;
  ae_status : AuditStatus.t;
  ae_origin : RequestOrigin.t;
  ae_entity : string;
  ae_action : string;
  ae_value : option f64;
  ae_reason : string;
  ae_token : option string;
  ae_confidence : option f32;
  ae_action_id : option N;
  ae_undo_of : option N;
  ae_undo_restore : option UndoRestore;
}.

Definition audit_event_to_recorded_action (event : AuditEvent) : option RecordedAction :=
  if bool_decide (ae_status event <> AuditStatus.Executed) then None
  else
    id ← ae_action_id event;
    Some {|
      ra_id := id; ra_undo_of := ae_undo_of event; ra_entity := ae_entity event;
      ra_action := ae_action event; ra_value := ae_value event;
      ra_inverse_action := inverse_action (ae_action event);
      ra_undo_restore := ae_undo_restore event; ra_origin := ae_origin event;
      ra_summary := ae_reason event; ra_confidence := ae_confidence event;
      ra_executed_ms := ae_ts_ms event |}.

(** [read_recent_executed_actions] on the lines that parsed: the last
    [16 * limit] lines are scanned and the last [limit] actions kept. *)
Definition read_recent_executed_actions (limit : nat) (log : list AuditEvent) : list RecordedAction :=
  let lines := last_n (limit * 16) log in
  last_n limit (filter_map audit_event_to_recorded_action lines).

(** ** What restores is a complete call *)

(** The verbs of a restoring call, and whether they carry a value. *)
Definition complete_restore (r : UndoRestore) : Prop :=
  restore_action r ∈ ["turn_on"; "turn_off"; "open"; "close"; "lock"; "unlock"] /\
    restore_value r = None \/
  restore_action r ∈ ["set_brightness"; "set_temperature"] /\ is_Some (restore_value r).

Lemma restore_for_entity_complete action e r :
  restore_for_entity action e = Some r -> complete_restore r.
Proof.
  unfold restore_for_entity, undo_restore_for_power_state, complete_restore. intros H.
  repeat (case_match; simplify_eq/=; try (left; split; [set_solver|done]));
    try (right; split; [set_solver|done]).
  all: apply bind_Some in H as (x & _ & [= <-]); right; split; [set_solver|done].
Qed.

Lemma undo_restore_complete action prior r :
  undo_restore_from_prior action prior = Some r -> complete_restore r.
Proof.
  unfold undo_restore_from_prior. destruct (state_entities prior) as [|e es]; [done|].
  destruct (forallb _ es); [|done]. apply restore_for_entity_complete.
Qed.

Lemma inverse_action_involutive a b : inverse_action a = Some b -> inverse_action b = Some a.
Proof.
  unfold inverse_action. intros H.
  repeat (case_match; bool_to_prop; simplify_eq; try reflexivity).
Qed.

(** ** Invariant *)

Definition ids (st : ActionLedgerState) : list N := ra_id <$> al_actions st.

(** Entries carry increasing ids below the counter, at most the limit of them,
    with the inverse of their own action; every mark names a kept entry or one
    that was never kept, and an undo refers to an earlier entry. *)
Record wf (st : ActionLedgerState) : Prop := {
  wf_sorted : StronglySorted N.lt (ids st);
  wf_below : Forall (fun i => (i <= al_next_id st)%N) (ids st);
  wf_length : length (al_actions st) <= ACTION_HISTORY_LIMIT;
  wf_inverse : Forall (fun a => ra_inverse_action a = inverse_action (ra_action a)) (al_actions st);
}.

Lemma trim_history_short actions undone :
  length actions <= ACTION_HISTORY_LIMIT -> trim_history actions undone = (actions, undone).
Proof.
  intros H. destruct actions as [|a l]; [done|]. unfold trim_history; fold trim_history.
  destruct (Nat.ltb_spec ACTION_HISTORY_LIMIT (length (a :: l))); [lia|done].
Qed.

(** A push makes the history at most one too long. *)
Lemma trim_history_one a l undone :
  length l <= ACTION_HISTORY_LIMIT ->
  trim_history (a :: l) undone =
  if Nat.ltb ACTION_HISTORY_LIMIT (S (length l))
  then (l, undone ∖ {[ra_id a]}) else (a :: l, undone).
Proof.
  intros H. cbn [trim_history length]. destruct (Nat.ltb _ _); [|done].
  by rewrite trim_history_short.
Qed.

Lemma empty_wf : wf empty_ledger.
Proof. split; cbn; try constructor. lia. Qed.

(** ** Histories of operations *)

Inductive ledger_op :=
| LRecord (now : N) (entity action : string) (v : option f64) (origin : RequestOrigin.t)
    (summary : string) (confidence : option f32) (undo_of : option N)
    (undo_restore : option UndoRestore).

Definition ledger_step (st : ActionLedgerState) (o : ledger_op) : ActionLedgerState :=
  match o with
  | LRecord now e a v og sm cf uo ur => (record_internal now e a v og sm cf uo ur st).2
  end.
Definition ledger_run (ops : list ledger_op) : ActionLedgerState :=
  foldl ledger_step empty_ledger ops.

Definition op_undoes (o : ledger_op) : option N :=
  match o with LRecord _ _ _ _ _ _ _ uo _ => uo end.

(** While [i] is kept, it is marked exactly when an undo entry for it is kept. *)
Record marked (st : ActionLedgerState) : Prop := {
  marked_wf : wf st;
  marked_last : last (ids st) = Some (al_next_id st) \/ ids st = [] /\ al_next_id st = 0%N;
  marked_below i : i ∈ undone_action_ids st -> (i <= al_next_id st)%N;
  marked_undo i : i ∈ ids st ->
    i ∈ undone_action_ids st <-> Some i ∈ ra_undo_of <$> al_actions st;
  marked_later a i : a ∈ al_actions st -> ra_undo_of a = Some i -> (i < ra_id a)%N;
}.

Section step.
Context (now : N) (entity action : string) (v : option f64) (origin : RequestOrigin.t)
  (summary : string) (confidence : option f32) (undo_of : option N)
  (undo_restore : option UndoRestore).

Definition new_item (st : ActionLedgerState) : RecordedAction :=
  (record_internal now entity action v origin summary confidence undo_of undo_restore st).1.
Definition next_state (st : ActionLedgerState) : ActionLedgerState :=
  (record_internal now entity action v origin summary confidence undo_of undo_restore st).2.

Definition new_undone (st : ActionLedgerState) : gset N :=
  match undo_of with Some i => {[i]} ∪ undone_action_ids st | None => undone_action_ids st end.

(** The state after a push: nothing leaves, or exactly the oldest entry does. *)
Lemma record_internal_state st :
  length (al_actions st) <= ACTION_HISTORY_LIMIT ->
  (next_state st = {| al_next_id := u64_wrap (al_next_id st + 1);
                      al_actions := al_actions st ++ [new_item st];
                      undone_action_ids := new_undone st |} /\
   length (al_actions st) < ACTION_HISTORY_LIMIT) \/
  exists a l, al_actions st = a :: l /\ length (al_actions st) = ACTION_HISTORY_LIMIT /\
    next_state st = {| al_next_id := u64_wrap (al_next_id st + 1);
                       al_actions := l ++ [new_item st];
                       undone_action_ids := new_undone st ∖ {[ra_id a]} |}.
Proof.
  intros Hl. unfold next_state, new_item, record_internal, new_undone.
  set (item := {| ra_id := _ |}).
  destruct (al_actions st) as [|a l] eqn:E.
  { left. cbn [app]. rewrite trim_history_short by (cbn; unfold ACTION_HISTORY_LIMIT; lia).
    split; [done|cbn; unfold ACTION_HISTORY_LIMIT; lia]. }
  cbn [app length] in *. rewrite trim_history_one by (rewrite length_app; cbn; lia).
  rewrite length_app. cbn [length].
  destruct (Nat.ltb_spec ACTION_HISTORY_LIMIT (S (length l + 1))); cbn.
  - right. exists a, l. split_and!; [done|lia|done].
  - left. split; [done|lia].
Qed.

Lemma new_item_id st : ra_id (new_item st) = u64_wrap (al_next_id st + 1).
Proof. unfold new_item, record_internal. by destruct (trim_history _ _). Qed.
Lemma new_item_undo st : ra_undo_of (new_item st) = undo_of.
Proof. unfold new_item, record_internal. by destruct (trim_history _ _). Qed.
Lemma new_item_inverse st : ra_inverse_action (new_item st) = inverse_action action.
Proof. unfold new_item, record_internal. by destruct (trim_history _ _). Qed.
Lemma new_item_action st : ra_action (new_item st) = action.
Proof. unfold new_item, record_internal. by destruct (trim_history _ _). Qed.

(** The fields of the entry. *)
Lemma new_item_fields st :
  new_item st = {|
    ra_id := u64_wrap (al_next_id st + 1); ra_undo_of := undo_of; ra_entity := entity;
    ra_action := action; ra_value := v; ra_inverse_action := inverse_action action;
    ra_undo_restore := undo_restore; ra_origin := origin; ra_summary := summary;
    ra_confidence := confidence; ra_executed_ms := now |}.
Proof. unfold new_item, record_internal. by destruct (trim_history _ _). Qed.

(** The kept entries are a suffix of the old ones and the new one. *)
Lemma next_state_shape st :
  length (al_actions st) <= ACTION_HISTORY_LIMIT -> (al_next_id st < u64_max)%N ->
  al_next_id (next_state st) = (al_next_id st + 1)%N /\
  ra_id (new_item st) = (al_next_id st + 1)%N /\
  length (al_actions (next_state st)) <= ACTION_HISTORY_LIMIT /\
  exists dropped kept,
    al_actions st = dropped ++ kept /\
    al_actions (next_state st) = kept ++ [new_item st] /\
    (forall i, i ∈ undone_action_ids (next_state st) <->
               i ∈ new_undone st /\ i ∉ (ra_id <$> dropped)).
Proof.
  intros Hl Hn. rewrite new_item_id. rewrite u64_wrap_small by (unfold u64_max in *; lia).
  destruct (record_internal_state st Hl) as [[-> Hlt]|(a & l & E & Hlen & ->)];
    cbn [al_next_id al_actions undone_action_ids]; rewrite length_app; cbn [length];
    rewrite u64_wrap_small by (unfold u64_max in *; lia).
  - split_and!; [done|done|lia|]. exists [], (al_actions st). set_solver.
  - rewrite E in Hlen. cbn in Hlen. split_and!; [done|done|lia|].
    exists [a], l. rewrite E. set_solver.
Qed.

Lemma next_state_last_n st :
  length (al_actions st) <= ACTION_HISTORY_LIMIT ->
  al_actions (next_state st) = last_n ACTION_HISTORY_LIMIT (al_actions st ++ [new_item st]).
Proof.
  intros Hl. unfold last_n. rewrite length_app. cbn [length].
  destruct (record_internal_state st Hl) as [[-> Hlt]|(a & l & E & Hlen & ->)]; cbn [al_actions].
  - replace (length (al_actions st) + 1 - ACTION_HISTORY_LIMIT) with 0 by lia. done.
  - rewrite Hlen, E. replace (ACTION_HISTORY_LIMIT + 1 - ACTION_HISTORY_LIMIT) with 1 by lia. done.
Qed.

Lemma next_state_wf st : (al_next_id st < u64_max)%N -> wf st -> wf (next_state st).
Proof.
  intros Hn [Hs Hb Hl Hi].
  destruct (next_state_shape st Hl Hn) as (Hnext & Hid & Hlen & dr & kept & Ea & Ek & _).
  unfold ids in *. rewrite Ea, fmap_app in Hs, Hb. rewrite Ea in Hi.
  apply Forall_app in Hb as [_ Hb], Hi as [_ Hi].
  assert (StronglySorted N.lt (ra_id <$> kept)) as Hs'.
  { clear -Hs. induction dr as [|a dr IH]; [done|]. apply IH. by inversion Hs. }
  split; unfold ids; rewrite ?Ek, ?fmap_app, ?Hnext; cbn [fmap list_fmap].
  - rewrite Hid. apply StronglySorted_snoc; [done|].
    eapply Forall_impl; [exact Hb|]. cbn. intros. lia.
  - rewrite Hid. apply Forall_app. split; [|repeat constructor; lia].
    eapply Forall_impl; [exact Hb|]. cbn. intros. lia.
  - by rewrite <- Ek.
  - apply Forall_app. split; [done|]. repeat constructor. by rewrite new_item_inverse, new_item_action.
Qed.

End step.

(** Entries that leave are older than those that stay. *)
Lemma sorted_app_lt (l k : list N) i j :
  StronglySorted N.lt (l ++ k) -> i ∈ l -> j ∈ k -> (i < j)%N.
Proof.
  induction l as [|x l IH]; cbn; intros Hs Hi Hj; [set_solver|].
  inversion Hs as [|? ? Hs' Hx]; subst. apply elem_of_cons in Hi as [->|Hi]; [|by apply IH].
  rewrite Forall_forall in Hx. apply Hx. set_solver.
Qed.

Lemma new_undone_elem uo st i :
  i ∈ new_undone uo st <-> i ∈ undone_action_ids st \/ uo = Some i.
Proof. unfold new_undone. destruct uo; set_solver. Qed.

(** The undo of a kept entry is kept with it. *)
Lemma kept_undo st dr kept i :
  marked st -> al_actions st = dr ++ kept -> i ∈ ra_id <$> kept ->
  i ∈ undone_action_ids st <-> Some i ∈ ra_undo_of <$> kept.
Proof.
  intros [Hwf _ _ Hmark Hlater] Ea Hi.
  pose proof (wf_sorted _ Hwf) as Hs. unfold ids in *. rewrite Ea in *. rewrite fmap_app in Hs.
  rewrite Hmark by set_solver. rewrite fmap_app, elem_of_app. split; [|by right].
  intros [Hd|?]; [exfalso|done]. apply list_elem_of_fmap in Hd as (b & Hb & Hd).
  assert (i < ra_id b)%N by (apply Hlater; set_solver).
  assert (ra_id b < i)%N by (eapply sorted_app_lt; [exact Hs| |done]; by apply list_elem_of_fmap_2). lia.
Qed.

Lemma next_state_marked now e a v og sm cf uo ur st :
  (al_next_id st < u64_max)%N ->
  (forall i, uo = Some i -> (i <= al_next_id st)%N) ->
  marked st -> marked (next_state now e a v og sm cf uo ur st).
Proof.
  intros Hn Hu Hm. pose proof Hm as [Hwf Hlast Hbelow Hmark Hlater].
  destruct (next_state_shape now e a v og sm cf uo ur st (wf_length _ Hwf) Hn)
    as (Hnext & Hid & Hlen & dr & kept & Ea & Ek & Hun).
  pose proof (wf_sorted _ Hwf) as Hs. pose proof (wf_below _ Hwf) as Hb.
  pose proof (new_item_undo now e a v og sm cf uo ur st) as Huo.
  set (item := new_item now e a v og sm cf uo ur st) in *.
  unfold ids in *. rewrite Ea, fmap_app in Hs, Hb. rewrite Forall_forall in Hb.
  rewrite Ea in Hlater.
  split; unfold ids; rewrite ?Ek, ?Hnext.
  - by apply next_state_wf.
  - left. rewrite fmap_app. cbn [fmap list_fmap]. by rewrite last_snoc, Hid.
  - intros i. rewrite Hun, new_undone_elem. intros [[Hi|Hi] _]; [apply Hbelow in Hi|apply Hu in Hi]; lia.
  - intros i. rewrite !fmap_app, !elem_of_app, Hun, new_undone_elem. cbn [fmap list_fmap].
    rewrite !list_elem_of_singleton, Huo, Hid. intros [Hi| ->].
    + rewrite (kept_undo st dr kept) by done.
      assert (i ∉ ra_id <$> dr) by (intros Hd; pose proof (sorted_app_lt _ _ _ _ Hs Hd Hi); lia).
      naive_solver.
    + split; intros H; exfalso.
      * destruct H as [[H|H] _]; [apply Hbelow in H|apply Hu in H]; lia.
      * destruct H as [H|H]; [|symmetry in H; apply Hu in H; lia].
        apply list_elem_of_fmap in H as (b & Hb1 & Hb2).
        assert (al_next_id st + 1 < ra_id b)%N by (apply Hlater; set_solver).
        assert (ra_id b <= al_next_id st)%N; [|lia]. apply Hb. set_solver.
  - intros b i. rewrite elem_of_app, list_elem_of_singleton. intros [Hb1| ->].
    + apply Hlater. set_solver.
    + rewrite Huo, Hid. intros H. apply Hu in H. lia.
Qed.

Lemma empty_marked : marked empty_ledger.
Proof.
  split; cbn; try set_solver. apply empty_wf.
Qed.

(** ** Undo *)

Lemma last_undoable_spec st a :
  last_undoable st = Some a ->
  a ∈ al_actions st /\ ra_undo_of a = None /\ ra_id a ∉ undone_action_ids st /\
  (is_Some (ra_undo_restore a) \/ is_Some (ra_inverse_action a)).
Proof.
  unfold last_undoable. intros H. apply find_some in H as [Hin H].
  apply list_elem_of_In in Hin. rewrite elem_of_reverse in Hin. split; [done|].
  unfold is_undoable in H. bool_to_prop. destruct (ra_undo_of a); [done|].
  split_and!; [done|done|]. destruct (ra_undo_restore a), (ra_inverse_action a); naive_solver.
Qed.

Lemma last_undoable_args st a :
  last_undoable st = Some a -> is_Some (undo_home_control_args a).
Proof.
  intros (_ & _ & _ & H)%last_undoable_spec. unfold undo_home_control_args.
  destruct (ra_undo_restore a); [done|]. destruct H as [[]|[? ->]]; done.
Qed.

(** A history in which undos name entries already recorded, and the counter
    does not run out. *)
Definition op_ok (st : ActionLedgerState) (o : ledger_op) : Prop :=
  (al_next_id st < u64_max)%N /\ forall i, op_undoes o = Some i -> (i <= al_next_id st)%N.

Inductive reachable : ActionLedgerState -> Prop :=
| reach_empty : reachable empty_ledger
| reach_step st o : reachable st -> op_ok st o -> reachable (ledger_step st o).

Lemma ledger_step_marked st o : op_ok st o -> marked st -> marked (ledger_step st o).
Proof. destruct o as [now e a v og sm cf uo ur]. intros [Hn Hu]. by apply next_state_marked. Qed.

Lemma reachable_marked st : reachable st -> marked st.
Proof. induction 1; [apply empty_marked|by apply ledger_step_marked]. Qed.

(** ** What was undone stays undone *)

Lemma undone_stays st o i :
  op_ok st o -> wf st ->
  i ∈ undone_action_ids st \/ (i <= al_next_id st)%N /\ i ∉ ids st ->
  i ∈ undone_action_ids (ledger_step st o) \/
  (i <= al_next_id (ledger_step st o))%N /\ i ∉ ids (ledger_step st o).
Proof.
  destruct o as [now e a v og sm cf uo ur]. intros [Hn Hu] Hwf. cbn [ledger_step].
  fold (next_state now e a v og sm cf uo ur st).
  destruct (next_state_shape now e a v og sm cf uo ur st (wf_length _ Hwf) Hn)
    as (Hnext & Hid & Hlen & dr & kept & Ea & Ek & Hun).
  pose proof (wf_sorted _ Hwf) as Hs. pose proof (wf_below _ Hwf) as Hb. rewrite Forall_forall in Hb.
  unfold ids in *. rewrite Ea, fmap_app in *. rewrite Hun, new_undone_elem, Hnext, Ek, fmap_app.
  cbn [fmap list_fmap]. rewrite Hid.
  rewrite !not_elem_of_app, list_elem_of_singleton. intros [Hi|(Hi & Hi1 & Hi2)].
  - destruct (decide (i ∈ ra_id <$> dr)) as [Hd|Hd]; [|by left; split; [left|]]. right.
    assert (i <= al_next_id st)%N by (apply Hb; set_solver). split_and!; [lia| |lia].
    intros Hk. pose proof (sorted_app_lt _ _ _ _ Hs Hd Hk). lia.
  - right. split_and!; [lia|done|lia].
Qed.

Lemma undo_marks st o i :
  op_ok st o -> wf st -> op_undoes o = Some i ->
  i ∈ undone_action_ids (ledger_step st o) \/
  (i <= al_next_id (ledger_step st o))%N /\ i ∉ ids (ledger_step st o).
Proof.
  destruct o as [now e a v og sm cf uo ur]. intros [Hn Hu] Hwf Ho. cbn [ledger_step op_undoes] in *.
  fold (next_state now e a v og sm cf uo ur st).
  destruct (next_state_shape now e a v og sm cf uo ur st (wf_length _ Hwf) Hn)
    as (Hnext & Hid & Hlen & dr & kept & Ea & Ek & Hun).
  pose proof (wf_sorted _ Hwf) as Hs. apply Hu in Ho as Hi.
  unfold ids in *. rewrite Ea, fmap_app in *. rewrite Hun, new_undone_elem, Hnext, Ek, fmap_app.
  cbn [fmap list_fmap]. rewrite Hid, not_elem_of_app, list_elem_of_singleton.
  destruct (decide (i ∈ ra_id <$> dr)) as [Hd|Hd]; [|by left; split; [right|]].
  right. split_and!; [lia| |lia]. intros Hk. pose proof (sorted_app_lt _ _ _ _ Hs Hd Hk). lia.
Qed.

(** One legal operation. *)
Definition ledger_rel (st st' : ActionLedgerState) : Prop :=
  exists o, op_ok st o /\ st' = ledger_step st o.

Lemma undone_forever st st' i :
  rtc ledger_rel st st' -> marked st ->
  i ∈ undone_action_ids st \/ (i <= al_next_id st)%N /\ i ∉ ids st ->
  i ∈ undone_action_ids st' \/ (i <= al_next_id st')%N /\ i ∉ ids st'.
Proof.
  induction 1 as [st|st st1 st2 (o & Hok & ->) _ IH]; intros Hm Hi; [done|].
  apply IH; [by apply ledger_step_marked|]. apply undone_stays; [done|by apply marked_wf|done].
Qed.

(** ** Rebuilding from the audit log *)

(** What an audit line keeps of an entry: everything but the spoken summary and
    the clock reading. *)
Record same_action (a b : RecordedAction) : Prop := {
  same_id : ra_id a = ra_id b;
  same_undo_of : ra_undo_of a = ra_undo_of b;
  same_entity : ra_entity a = ra_entity b;
  same_verb : ra_action a = ra_action b;
  same_value : ra_value a = ra_value b;
  same_inverse : ra_inverse_action a = ra_inverse_action b;
  same_restore : ra_undo_restore a = ra_undo_restore b;
  same_origin : ra_origin a = ra_origin b;
  same_confidence : ra_confidence a = ra_confidence b;
}.

Lemma hydrate_fold l st :
  let st' := foldl hydrate_step st l in
  al_actions st' = al_actions st ++ l /\
  al_next_id st' = foldl N.max (al_next_id st) (ra_id <$> l) /\
  forall i, i ∈ undone_action_ids st' <-> i ∈ undone_action_ids st \/ Some i ∈ ra_undo_of <$> l.
Proof.
  revert st. induction l as [|a l IH]; intros st; cbn [foldl fmap list_fmap].
  { rewrite app_nil_r. set_solver. }
  destruct (IH (hydrate_step st a)) as (-> & -> & Hu). cbn [hydrate_step al_actions al_next_id].
  split_and!; [by rewrite <- app_assoc|done|]. intros i. rewrite Hu, elem_of_cons.
  cbn [hydrate_step undone_action_ids]. destruct (ra_undo_of a) as [u|]; set_solver.
Qed.

Lemma fold_max_last (l : list N) n acc :
  Forall (fun i => (i <= n)%N) l -> last l = Some n -> (acc <= n)%N -> foldl N.max acc l = n.
Proof.
  revert acc. induction l as [|x l IH]; intros acc Hl Hlast Hacc; [done|].
  apply Forall_cons in Hl as [Hx Hl]. cbn [foldl]. destruct l as [|y l].
  - cbn in *. injection Hlast as ->. lia.
  - apply IH; [done|by rewrite last_cons_cons in Hlast|lia].
Qed.

Lemma find_Forall2 {A} (R : A -> A -> Prop) (p q : A -> bool) l k :
  Forall2 (fun a b => R a b /\ p a = q b) l k -> option_Forall2 R (List.find p l) (List.find q k).
Proof.
  induction 1 as [|a b l k [Hab Hpq] _ IH]; cbn; [constructor|].
  rewrite Hpq. destruct (q b); [by constructor|done].
Qed.

Lemma is_undoable_same st st' a b :
  same_action a b ->
  (ra_id b ∈ undone_action_ids st <-> ra_id b ∈ undone_action_ids st') ->
  is_undoable st a = is_undoable st' b.
Proof.
  intros [Hid Hu _ _ _ Hi Hr _ _] H. unfold is_undoable. rewrite Hid, Hu, Hi, Hr.
  by rewrite (bool_decide_ext _ _ H).
Qed.

Lemma same_action_ids l k : Forall2 same_action l k -> ra_id <$> l = ra_id <$> k.
Proof. induction 1 as [|a b l k [Hid _ _ _ _ _ _ _ _] _ IH]; [done|]. cbn. by rewrite Hid, IH. Qed.
Lemma same_action_undos l k : Forall2 same_action l k -> ra_undo_of <$> l = ra_undo_of <$> k.
Proof. induction 1 as [|a b l k [_ Hu _ _ _ _ _ _ _] _ IH]; [done|]. cbn. by rewrite Hu, IH. Qed.

Lemma hydrate_marks st log :
  marked st -> Forall2 same_action (last_n ACTION_HISTORY_LIMIT log) (al_actions st) ->
  forall i, i ∈ ids st -> i ∈ undone_action_ids (hydrate log) <-> i ∈ undone_action_ids st.
Proof.
  intros Hm Hl i Hi. rewrite (marked_undo _ Hm i Hi), <- (same_action_undos _ _ Hl).
  destruct (hydrate_fold (last_n ACTION_HISTORY_LIMIT log) empty_ledger) as (_ & _ & Hu).
  unfold hydrate. rewrite Hu. cbn. set_solver.
Qed.

Lemma hydrate_next_id st log :
  marked st -> Forall2 same_action (last_n ACTION_HISTORY_LIMIT log) (al_actions st) ->
  al_next_id (hydrate log) = al_next_id st.
Proof.
  intros Hm Hl. unfold hydrate.
  destruct (hydrate_fold (last_n ACTION_HISTORY_LIMIT log) empty_ledger) as (_ & -> & _).
  rewrite (same_action_ids _ _ Hl). cbn [empty_ledger al_next_id].
  destruct (marked_last _ Hm) as [Hlast|[He ->]].
  - apply fold_max_last; [apply marked_wf in Hm; apply wf_below, Hm|done|lia].
  - unfold ids in He. by rewrite He.
Qed.

Lemma hydrate_last_undoable st log :
  marked st -> Forall2 same_action (last_n ACTION_HISTORY_LIMIT log) (al_actions st) ->
  option_Forall2 same_action (last_undoable (hydrate log)) (last_undoable st).
Proof.
  intros Hm Hl. pose proof (hydrate_marks st log Hm Hl) as Hmk. unfold last_undoable.
  assert (al_actions (hydrate log) = last_n ACTION_HISTORY_LIMIT log) as ->.
  { unfold hydrate.
    by destruct (hydrate_fold (last_n ACTION_HISTORY_LIMIT log) empty_ledger) as (-> & _). }
  apply find_Forall2, Forall2_reverse.
  unfold ids in Hmk. revert Hmk Hl. generalize (al_actions st) as k.
  generalize (last_n ACTION_HISTORY_LIMIT log) as l. intros l k Hmk Hl.
  induction Hl as [|a b l k Hab Hl IH]; constructor.
  - split; [done|]. apply is_undoable_same; [done|]. apply Hmk. set_solver.
  - apply IH. intros i Hi. apply Hmk. set_solver.
Qed.

(** ** Properties *)

(** An action that was undone is never offered for undo again, whatever is
    recorded afterwards, although old entries and their marks are dropped. *)
Lemma undo_not_repeated st o st' i a :
  reachable st -> op_ok st o -> op_undoes o = Some i ->
  rtc ledger_rel (ledger_step st o) st' -> last_undoable st' = Some a ->
  ra_id a <> i.
Proof.
  intros Hr Hok Hi Hst Ha <-. apply reachable_marked in Hr.
  pose proof (ledger_step_marked _ _ Hok Hr) as Hm.
  pose proof (undone_forever _ _ _ Hst Hm (undo_marks _ _ _ Hok (marked_wf _ Hr) Hi)) as H.
  apply last_undoable_spec in Ha as (Hin & _ & Hn & _).
  destruct H as [H|[_ H]]; [done|]. apply H. unfold ids. by apply list_elem_of_fmap_2.
Qed.

(** The history holds at most 32 entries with strictly increasing ids below
    the counter, each with the inverse of its own verb. *)
Lemma ledger_well_formed st : reachable st -> wf st.
Proof. intros H. by apply marked_wf, reachable_marked. Qed.

(** A ledger rebuilt from an audit log that agrees with it on the kept
    entries continues with the same ids and offers the same action for undo. *)
Lemma hydrate_restores_undo st log :
  reachable st -> Forall2 same_action (last_n ACTION_HISTORY_LIMIT log) (al_actions st) ->
  al_next_id (hydrate log) = al_next_id st /\
  option_Forall2 same_action (last_undoable (hydrate log)) (last_undoable st).
Proof.
  intros Hr%reachable_marked Hl.
  split; [by apply hydrate_next_id|by apply hydrate_last_undoable].
Qed.

Section concrete.

Definition on_lamp : ledger_op :=
  LRecord 5 "lamp" "turn_on" None RequestOrigin.Voice "on" None None None.
Definition on_fan : ledger_op :=
  LRecord 6 "fan" "turn_on" None RequestOrigin.Voice "on" None None None.
Definition undo_fan : ledger_op :=
  LRecord 7 "fan" "turn_off" None RequestOrigin.Voice "off" None (Some 2%N) None.
Definition two_on : ActionLedgerState := ledger_run [on_lamp; on_fan].
Definition one_undone : ActionLedgerState := ledger_step two_on undo_fan.

Lemma two_on_reachable : reachable two_on.
Proof.
  apply (reach_step (ledger_run [on_lamp]) on_fan).
  - apply (reach_step empty_ledger on_lamp); [constructor|]. by split.
  - by split.
Qed.

Lemma undo_fan_ok : op_ok two_on undo_fan.
Proof. split; [done|]. by intros i [= <-]. Qed.

Lemma undo_not_repeated_witness : last_undoable one_undone = head (al_actions two_on) /\ 1%N <> 2%N.
Proof.
  split; [reflexivity|].
  destruct (last_undoable one_undone) as [a|] eqn:E; [|discriminate].
  assert (ra_id a = 1%N) as H by (vm_compute in E; injection E as <-; reflexivity).
  rewrite <- H.
  apply (undo_not_repeated two_on undo_fan one_undone 2%N a);
    [apply two_on_reachable|apply undo_fan_ok|reflexivity|constructor|exact E].
Defined.

Lemma ledger_well_formed_witness : wf two_on.
Proof. apply ledger_well_formed, two_on_reachable. Defined.

Lemma hydrate_restores_undo_witness :
  al_next_id (hydrate (al_actions two_on)) = 2%N /\
  option_Forall2 same_action (last_undoable (hydrate (al_actions two_on))) (last_undoable two_on).
Proof.
  apply (hydrate_restores_undo two_on (al_actions two_on)); [apply two_on_reachable|].
  repeat constructor.
Defined.

End concrete.
