(* ===== verification/RateLimit.v ===== *)
(** * Sliding-window rate limits ([tools/dispatch/mod.rs])

    [ActuationRateLimiter] bounds physical actions by origin and
    [ToolRateLimiter] bounds any tool by name.  Both keep a queue of accepted
    call times per key; the shared queue discipline is [window_step], and it is
    proved equal to a reference limiter that remembers every accepted call. *)

From S2P Require Import Prelude RustStr RustNum Json HomeTypes.
Local Open Scope string_scope.
Local Open Scope list_scope.

Definition ACTUATION_RATE_WINDOW_MS : N := 60000.

Definition count_noun (count : nat) (singular plural : string) : string :=
  if Nat.eqb count 1 then "1 " +:+ singular else show_nat count +:+ " " +:+ plural.

(** Drop what is older than the window, then admit if there is room. *)
Definition window_step (limit : nat) (now : N) (bucket : list N) : bool * list N :=
  let cutoff := (now - ACTUATION_RATE_WINDOW_MS)%N in
  let bucket := drop_while (fun ts => (ts <? cutoff)%N) bucket in
  if Nat.leb limit (length bucket) then (false, bucket) else (true, bucket ++ [now]).

Section limiter.
Context {K : Type} `{Countable K}.

(** [attempts.entry(key).or_default()]: the bucket is stored even on refusal. *)
Definition limiter_step (limit : nat) (k : K) (now : N) (m : gmap K (list N)) : bool * gmap K (list N) :=
  let '(ok, bucket) := window_step limit now (default [] (m !! k)) in
  (ok, <[k := bucket]> m).

(** Decisions of a sequence of calls. *)
Fixpoint limiter_run (limit : K -> nat) (calls : list (K * N)) (m : gmap K (list N)) : list bool :=
  match calls with
  | [] => []
  | (k, now) :: calls =>
      let '(ok, m) := limiter_step (limit k) k now m in
      ok :: limiter_run limit calls m
  end.

(** ** The reference limiter *)

(** The accepted calls of the last minute. *)
Definition recent (now : N) (acc : list N) : list N :=
  base.filter (fun t => (now <= t + ACTUATION_RATE_WINDOW_MS)%N) acc.

(** Remembers every accepted call, and admits when fewer than [limit] of this
    key's are in the last minute. *)
Fixpoint reference_run (limit : K -> nat) (calls : list (K * N)) (acc : K -> list N) : list bool :=
  match calls with
  | [] => []
  | (k, now) :: calls =>
      if Nat.ltb (length (recent now (acc k))) (limit k)
      then true :: reference_run limit calls
             (fun k' => if decide (k' = k) then acc k ++ [now] else acc k')
      else false :: reference_run limit calls acc
  end.

(** The times of the accepted calls of one key. *)
Fixpoint accepted (k : K) (calls : list (K * N)) (oks : list bool) : list N :=
  match calls, oks with
  | (k', now) :: calls, ok :: oks =>
      if ok && bool_decide (k' = k) then now :: accepted k calls oks else accepted k calls oks
  | _, _ => []
  end.

(** The clock does not run backwards over the calls. *)
Definition monotone (calls : list (K * N)) : Prop := StronglySorted N.le (snd <$> calls).

(** ** The queue and the full history agree on the window *)

Definition old (now : N) (ts : N) : bool := (ts <? now - ACTUATION_RATE_WINDOW_MS)%N.

Lemma old_spec now ts : old now ts = true <-> (ts + ACTUATION_RATE_WINDOW_MS < now)%N.
Proof. unfold old, ACTUATION_RATE_WINDOW_MS. rewrite N.ltb_lt. lia. Qed.

Lemma recent_drop_while now acc :
  StronglySorted N.le acc -> recent now acc = drop_while (old now) acc.
Proof.
  unfold recent. induction 1 as [|t l Hl IH Ht]; [done|]. cbn [drop_while].
  destruct (old now t) eqn:E.
  - apply old_spec in E. rewrite filter_cons_False by lia. exact IH.
  - assert (~ (t + ACTUATION_RATE_WINDOW_MS < now)%N) as Hn by (rewrite <- old_spec; congruence).
    rewrite filter_cons_True by lia. f_equal. apply filter_all.
    eapply Forall_impl; [exact Ht|]. cbn. lia.
Qed.

(** [bucket] is what the window keeps of [acc], for every later reading. *)
Definition tracks (since : N) (bucket acc : list N) : Prop :=
  forall now, (since <= now)%N -> drop_while (old now) bucket = drop_while (old now) acc.

Lemma tracks_later since since' bucket acc :
  (since <= since')%N -> tracks since bucket acc -> tracks since' bucket acc.
Proof. intros Hs Ht now Hn. apply Ht. lia. Qed.

Lemma old_mono now now' ts : (now <= now')%N -> old now ts = true -> old now' ts = true.
Proof. rewrite !old_spec. lia. Qed.

(** Pruning at [now] is invisible later, also in front of a new entry. *)
Lemma drop_while_prune now now' l l' :
  (now <= now')%N ->
  drop_while (old now') (drop_while (old now) l ++ l') = drop_while (old now') (l ++ l').
Proof.
  intros Hn. rewrite <- (take_drop_while (old now) l) at 2.
  rewrite <- app_assoc, (drop_while_all (old now') (take_while _ _)); [done|].
  eapply Forall_impl; [apply Forall_take_while|]. cbn. intros t. by apply old_mono.
Qed.

Lemma window_step_tracks limit now bucket acc :
  StronglySorted N.le acc -> tracks now bucket acc ->
  let '(ok, bucket') := window_step limit now bucket in
  ok = Nat.ltb (length (recent now acc)) limit /\
  tracks now bucket' (if ok then acc ++ [now] else acc).
Proof.
  intros Hs Ht. unfold window_step. fold (old now).
  rewrite recent_drop_while by done. rewrite (Ht now) by lia.
  destruct (Nat.leb_spec limit (length (drop_while (old now) acc))) as [Hl|Hl];
    [rewrite (proj2 (Nat.ltb_ge _ _)) by done|rewrite (proj2 (Nat.ltb_lt _ _)) by done]; (split; [done|]).
  - intros now' Hn. pose proof (drop_while_prune now now' acc [] Hn) as Hp. by rewrite !app_nil_r in Hp.
  - intros now' Hn. by apply drop_while_prune.
Qed.

Lemma limiter_run_reference limit calls m acc t0 :
  monotone calls -> Forall (fun c => (t0 <= c.2)%N) calls ->
  (forall k, StronglySorted N.le (acc k) /\ Forall (fun t => (t <= t0)%N) (acc k) /\
             tracks t0 (default [] (m !! k)) (acc k)) ->
  limiter_run limit calls m = reference_run limit calls acc.
Proof.
  unfold monotone. revert m acc t0.
  induction calls as [|[k now] calls IH]; intros m acc t0 Hm Ht Hinv; [done|].
  rewrite fmap_cons in Hm. apply StronglySorted_inv in Hm as [Hm Hnow].
  apply Forall_cons in Ht as [Ht _]. cbn in Ht.
  destruct (Hinv k) as (Hs & Hle & Htr). cbn [limiter_run reference_run]. unfold limiter_step.
  pose proof (window_step_tracks (limit k) now _ _ Hs (tracks_later t0 now _ _ Ht Htr)) as Hw.
  destruct (window_step _ _ _) as [ok bucket]. destruct Hw as [<- Hw].
  assert (Forall (fun c => (now <= c.2)%N) calls) as Hnow' by (rewrite Forall_fmap in Hnow; exact Hnow).
  assert (Forall (fun t => (t <= now)%N) (acc k)) as Hle'.
  { eapply Forall_impl; [exact Hle|]. cbn. lia. }
  destruct ok; f_equal; apply (IH _ _ now); try done; intros k'; (destruct (decide (k' = k)) as [->|Hk];
    [rewrite lookup_insert_eq by done; cbn [default from_option]
    |rewrite lookup_insert_ne by done; destruct (Hinv k') as (?&Hk'&?)]).
  - split_and!; [by apply StronglySorted_snoc| |done]. apply Forall_app. by repeat constructor; [|lia].
  - split_and!; [done| |by eapply tracks_later]. eapply Forall_impl; [exact Hk'|]. cbn. lia.
  - done.
  - split_and!; [done| |by eapply tracks_later]. eapply Forall_impl; [exact Hk'|]. cbn. lia.
Qed.

(** ** Spacing of accepted calls *)

(** Any [limit + 1] consecutive entries span more than the window. *)
Definition spaced (limit : nat) (l : list N) : Prop :=
  forall i a b, l !! i = Some a -> l !! (i + limit) = Some b -> (a + ACTUATION_RATE_WINDOW_MS < b)%N.

Lemma sorted_drop_le l i a :
  StronglySorted N.le l -> l !! i = Some a -> Forall (fun t => (a <= t)%N) (drop i l).
Proof.
  intros Hl. revert i. induction Hl as [|t l Hl IH Ht]; intros [|i] Hi; try done; cbn in *.
  - injection Hi as ->. constructor; [lia|]. eapply Forall_impl; [exact Ht|]. done.
  - by apply IH.
Qed.

Lemma spaced_snoc limit now acc :
  StronglySorted N.le acc -> spaced limit acc ->
  length (recent now acc) < limit -> spaced limit (acc ++ [now]).
Proof.
  intros Hs Hsp Hlt i a b Ha Hb.
  assert (i < length acc) as Hi.
  { apply lookup_lt_Some in Hb. rewrite length_app in Hb. cbn in Hb. lia. }
  rewrite lookup_app_l in Ha by done.
  destruct (decide (i + limit < length acc)) as [Hil|Hil].
  { rewrite lookup_app_l in Hb by done. by eapply Hsp. }
  rewrite lookup_app_r in Hb by lia.
  assert (b = now) as ->.
  { destruct (i + limit - length acc) as [|[]]; cbn in Hb; congruence. }
  destruct (decide (a + ACTUATION_RATE_WINDOW_MS < now)%N) as [|Hn]; [done|exfalso].
  assert (recent now (drop i acc) = drop i acc) as Hr.
  { apply filter_all. eapply Forall_impl; [by apply sorted_drop_le|]. cbn. lia. }
  assert (length (recent now acc) = length (recent now (take i acc)) + length (recent now (drop i acc))) as Hlen.
  { rewrite <- (take_drop i acc) at 1. unfold recent. by rewrite filter_app, length_app. }
  rewrite Hr, length_drop in Hlen.
  apply lookup_lt_Some in Hb. cbn in Hb. lia.
Qed.

Lemma reference_run_spaced limit calls acc k t0 :
  monotone calls -> Forall (fun c => (t0 <= c.2)%N) calls ->
  StronglySorted N.le (acc k) -> Forall (fun t => (t <= t0)%N) (acc k) -> spaced (limit k) (acc k) ->
  spaced (limit k) (acc k ++ accepted k calls (reference_run limit calls acc)).
Proof.
  unfold monotone. revert acc t0.
  induction calls as [|[k' now] calls IH]; intros acc t0 Hm Ht Hs Hle Hsp.
  { cbn. by rewrite app_nil_r. }
  rewrite fmap_cons in Hm. apply StronglySorted_inv in Hm as [Hm Hnow].
  rewrite Forall_fmap in Hnow. apply Forall_cons in Ht as [Ht _]. cbn in Ht.
  assert (Forall (fun t => (t <= now)%N) (acc k)) as Hle'.
  { eapply Forall_impl; [exact Hle|]. cbn. lia. }
  cbn [reference_run]. destruct (Nat.ltb_spec (length (recent now (acc k'))) (limit k')) as [Hlt|Hlt];
    cbn [accepted andb]; [|by apply (IH _ now)].
  case_bool_decide as Hk; [subst k'|].
  - match goal with |- context [reference_run _ _ ?f] => set (acc' := f) end.
    assert (acc' k = acc k ++ [now]) as Ha by (unfold acc'; by rewrite decide_True by done).
    rewrite cons_middle, app_assoc, <- Ha. apply (IH _ now); try done; rewrite Ha.
    + by apply StronglySorted_snoc.
    + apply Forall_app. split; [done|]. repeat constructor. lia.
    + by apply spaced_snoc.
  - match goal with |- context [reference_run _ _ ?f] => set (acc' := f) end.
    assert (acc' k = acc k) as Ha by (unfold acc'; by rewrite decide_False by done).
    rewrite <- Ha. apply (IH _ now); try done; by rewrite Ha.
Qed.

Lemma limiter_run_empty limit calls :
  monotone calls -> limiter_run limit calls ∅ = reference_run limit calls (fun _ => []).
Proof.
  intros Hm. apply (limiter_run_reference _ _ _ _ 0); [done| |].
  - apply Forall_forall. intros. lia.
  - intros k. rewrite lookup_empty. repeat constructor.
Qed.

End limiter.

(** ** The two limiters *)

Record ToolPolicyConfig := {
  policy_enabled : bool;
  allowed_tools_by_origin : gmap string (list string);
  denied_tools_by_origin : gmap string (list string);
  max_actions_per_minute_by_tool : gmap string nat;
  requires_confirmation_tools : list string;
  confirmation_ttl_secs : N;
}.

Definition default_tool_policy : ToolPolicyConfig := {|
  policy_enabled := true;
  allowed_tools_by_origin := ∅;
  denied_tools_by_origin := ∅;
  max_actions_per_minute_by_tool := ∅;
  requires_confirmation_tools := [];
  confirmation_ttl_secs := 120;
|}.

Definition actuation_origin_allowed (config : ActuationSafetyConfig) (origin : RequestOrigin.t) : bool :=
  existsb (fun allowed => eq_ignore_ascii_case (trim allowed) (RequestOrigin.as_policy_key origin))
    (allowed_origins config).

Definition actuation_rate_limit (config : ActuationSafetyConfig) (origin : RequestOrigin.t) : nat :=
  match List.find (fun '(key, _) => eq_ignore_ascii_case (trim key) (RequestOrigin.as_policy_key origin))
          (max_actions_per_minute_by_origin config) with
  | Some (_, limit) => limit
  | None => max_actions_per_minute config
  end.

(** An exact entry, then the catch-all; [None] is no limit. *)
Definition tool_rate_limit (policy : ToolPolicyConfig) (tool : string) : option nat :=
  if negb (policy_enabled policy) then None
  else match max_actions_per_minute_by_tool policy !! tool with
       | Some limit => Some limit
       | None => max_actions_per_minute_by_tool policy !! "*"
       end.

Section operations.
Context {W : Type} `{Ops : World W}.

Definition actuation_check_and_record (config : ActuationSafetyConfig) (origin : RequestOrigin.t)
    : M (W * gmap RequestOrigin.t (list N)) (result unit string) :=
  fun '(w, attempts) =>
    let limit := actuation_rate_limit config origin in
    let key := RequestOrigin.as_policy_key origin in
    if Nat.eqb limit 0 then
      (Err ("actuation from '" +:+ key +:+ "' is rate-limited to zero actions per minute"), (w, attempts))
    else
      let '(now, w) := now_ms w in
      let '(ok, attempts) := limiter_step limit origin now attempts in
      (if ok then Ok tt
       else Err ("actuation from '" +:+ key +:+ "' exceeded " +:+
                 count_noun limit "action" "actions" +:+ " per minute"),
       (w, attempts)).

Definition tool_check_and_record (policy : ToolPolicyConfig) (tool : string)
    : M (W * gmap string (list N)) (result unit string) :=
  fun '(w, attempts) =>
    match tool_rate_limit policy tool with
    | None => (Ok tt, (w, attempts))
    | Some limit =>
        if Nat.eqb limit 0 then
          (Err ("tool '" +:+ tool +:+ "' is rate-limited to zero calls per minute"), (w, attempts))
        else
          let '(now, w) := now_ms w in
          let '(ok, attempts) := limiter_step limit tool now attempts in
          (if ok then Ok tt
           else Err ("tool '" +:+ tool +:+ "' exceeded " +:+
                     count_noun limit "call" "calls" +:+ " per minute"),
           (w, attempts))
    end.

(** A call that is accepted went through [limiter_step] at a reading of the
    clock, under a positive limit. *)
Lemma actuation_accepted config origin w m w' m' :
  actuation_check_and_record config origin (w, m) = (Ok tt, (w', m')) ->
  w' = (now_ms w).2 /\
  limiter_step (actuation_rate_limit config origin) origin (now_ms w).1 m = (true, m').
Proof.
  unfold actuation_check_and_record. destruct (Nat.eqb _ 0); [done|].
  destruct (now_ms w) as [now w1]. cbn [fst snd].
  destruct (limiter_step _ _ _ _) as [[] m1]; naive_solver.
Qed.

End operations.

(** ** Properties *)

(** C29: on a clock that does not run backwards, the pruned queues decide every
    call as the limiter that remembers all accepted calls and counts those of
    the last minute, for all keys at once. *)
Theorem limiter_refines_reference {K} `{Countable K} (limit : K -> nat) (calls : list (K * N)) :
  monotone calls -> limiter_run limit calls ∅ = reference_run limit calls (fun _ => []).
Proof. intros Hm. by apply limiter_run_empty. Qed.

(** On a clock that does not run backwards, any [limit + 1] accepted calls
    of one key span more than a minute, so no minute has more than [limit]. *)
Lemma limiter_bounds_window {K} `{Countable K} (limit : K -> nat) (calls : list (K * N)) k i a b :
  monotone calls ->
  accepted k calls (limiter_run limit calls ∅) !! i = Some a ->
  accepted k calls (limiter_run limit calls ∅) !! (i + limit k) = Some b ->
  (a + ACTUATION_RATE_WINDOW_MS < b)%N.
Proof.
  intros Hm. rewrite limiter_run_empty by done.
  apply (reference_run_spaced limit calls (fun _ => []) k 0); try done.
  - apply Forall_forall. intros. lia.
  - constructor.
Qed.

Section concrete.

Definition two_per_minute (k : string) : nat := 2.
Definition calls : list (string * N) :=
  [("t", 1000); ("t", 2000); ("u", 2000); ("t", 3000); ("t", 61001)]%N.

Example calls_decided : limiter_run two_per_minute calls ∅ = [true; true; true; false; true].
Proof. vm_compute. reflexivity. Qed.

Lemma calls_monotone : monotone calls.
Proof. unfold monotone. cbn. repeat constructor; lia. Qed.

Lemma limiter_refines_reference_witness :
  limiter_run two_per_minute calls ∅ = reference_run two_per_minute calls (fun _ => []).
Proof. apply limiter_refines_reference, calls_monotone. Defined.

Lemma limiter_bounds_window_witness : (1000 + ACTUATION_RATE_WINDOW_MS < 61001)%N.
Proof.
  apply (limiter_bounds_window two_per_minute calls "t" 0);
    [apply calls_monotone|vm_compute; reflexivity|vm_compute; reflexivity].
Defined.

End concrete.
