(* ===== verification/ToolGate.v ===== *)
(** * Tool policy gate ([tools/dispatch/mod.rs])

    The parts of [run_gate]: the per-origin allow and deny lists, the list of
    tools that need a second request, and the two-step confirmation of those
    tools ([ToolConfirmationGate]). *)

From S2P Require Import Prelude RustStr RustNum Json HomeTypes RateLimit Scripted.
From Stdlib Require Import Ascii.
Local Open Scope string_scope.
Local Open Scope list_scope.

(** ** Access lists *)

Definition tool_matches (tools : list string) (tool_name : string) : bool :=
  existsb (fun tool => String.eqb tool "*" || String.eqb tool tool_name) tools.

Definition origin_tool_list (rules : gmap string (list string)) (origin_key : string)
    : option (list string) :=
  match rules !! origin_key with Some l => Some l | None => rules !! "*" end.

Definition tool_list_contains (rules : gmap string (list string)) (origin_key tool_name : string) : bool :=
  match origin_tool_list rules origin_key with
  | Some tools => tool_matches tools tool_name
  | None => false
  end.

Definition tool_origin_allowed (policy : ToolPolicyConfig) (origin : RequestOrigin.t)
    (tool_name : string) : result unit string :=
  let origin_key := RequestOrigin.as_policy_key origin in
  if negb (policy_enabled policy) then Ok tt
  else if tool_list_contains (denied_tools_by_origin policy) origin_key tool_name then
    Err ("tool '" +:+ tool_name +:+ "' is denied for origin '" +:+ origin_key +:+ "'")
  else
    match origin_tool_list (allowed_tools_by_origin policy) origin_key with
    | Some allowed =>
        if tool_matches allowed tool_name then Ok tt
        else Err ("tool '" +:+ tool_name +:+ "' is not in the allowlist for origin '" +:+
                  origin_key +:+ "'")
    | None => Ok tt
    end.

Definition tool_requires_confirmation (policy : ToolPolicyConfig) (tool : string) : bool :=
  policy_enabled policy &&
  existsb (fun entry => String.eqb entry "*" || eq_ignore_ascii_case (trim entry) tool)
    (requires_confirmation_tools policy).

(** A tool is named by a list: literally or by the wildcard. *)
Definition listed (tools : list string) (tool : string) : Prop := "*" ∈ tools \/ tool ∈ tools.

Lemma tool_matches_listed tools tool : tool_matches tools tool = true <-> listed tools tool.
Proof.
  unfold tool_matches, listed. rewrite existsb_elem. split.
  - intros (t & Ht & H). bool_cases; subst; auto.
  - intros [H|H]; eexists; (split; [exact H|]); by rewrite String.eqb_refl, ?orb_true_r.
Qed.

Lemma tool_origin_allowed_iff policy origin tool :
  is_ok (tool_origin_allowed policy origin tool) = true <->
  (policy_enabled policy = true ->
   (forall denied, origin_tool_list (denied_tools_by_origin policy) (RequestOrigin.as_policy_key origin)
                   = Some denied -> ~ listed denied tool) /\
   (forall allowed, origin_tool_list (allowed_tools_by_origin policy) (RequestOrigin.as_policy_key origin)
                    = Some allowed -> listed allowed tool)).
Proof.
  unfold tool_origin_allowed, tool_list_contains.
  destruct (policy_enabled policy); cbn [negb]; [|by split].
  destruct (origin_tool_list (denied_tools_by_origin policy) _) as [denied|];
    [destruct (tool_matches denied tool) eqn:Ed|].
  - cbn. split; [done|]. intros H. destruct (H eq_refl) as [Hd _].
    exfalso. apply (Hd denied); [done|]. by apply tool_matches_listed.
  - assert (~ listed denied tool) as Hd by (rewrite <- tool_matches_listed; congruence).
    destruct (origin_tool_list (allowed_tools_by_origin policy) _) as [allowed|]; [|naive_solver].
    rewrite <- (tool_matches_listed denied) in Hd. setoid_rewrite <- tool_matches_listed.
    destruct (tool_matches allowed tool) eqn:Ea; naive_solver congruence.
  - destruct (origin_tool_list (allowed_tools_by_origin policy) _) as [allowed|]; [|naive_solver].
    setoid_rewrite <- tool_matches_listed.
    destruct (tool_matches allowed tool) eqn:Ea; naive_solver congruence.
Qed.

(** ** Two-step confirmation *)

Definition TOOL_CONFIRMATION_RETENTION_MS : N := 60 * 60 * 1000.
Definition MAX_TOOL_CONFIRMATIONS : nat := 256.

Inductive ToolConfirmDecision :=
| Pending (token : string)
| Confirmed
| Expired.

Definition unit_separator : string := String (ascii_of_nat 31) "".

(** [DefaultHasher] of the standard library, on a string. *)
Class DefaultHasher := { default_hash : string -> N }.

Fixpoint hex_aux (n : nat) (x : N) (acc : string) : string :=
  match n with
  | O => acc
  | S n =>
      let d := match String.get (N.to_nat (x mod 16)) "0123456789abcdef" with
               | Some a => a | None => "0"%char end in
      hex_aux n (x / 16) (String d acc)
  end.

Section gate.
Context {W : Type} `{Ops : World W} `{HO : HashOrder} `{SD : Serde} `{DH : DefaultHasher}.

Definition tool_confirmation_key (origin : RequestOrigin.t) (tool : string) (args : value) : string :=
  RequestOrigin.as_policy_key origin +:+ unit_separator +:+ tool +:+ unit_separator +:+ to_str args.

(** [conf-] and sixteen hex digits of the hash of the key. *)
Definition tool_confirmation_token (key : string) : string :=
  "conf-" +:+ hex_aux 16 (default_hash key) "".

(** [min_by_key]: the first entry with the smallest time. *)
Fixpoint min_by_time (best : string * N) (l : list (string * N)) : string * N :=
  match l with
  | [] => best
  | e :: l => min_by_time (if (e.2 <? best.2)%N then e else best) l
  end.
Definition oldest_entry (m : gmap string N) : option string :=
  match hash_iter m with
  | [] => None
  | e :: l => Some (min_by_time e l).1
  end.

Definition evict_for (key : string) (m : gmap string N) : gmap string N :=
  if Nat.leb MAX_TOOL_CONFIRMATIONS (size m) && negb (bool_decide (is_Some (m !! key)))
  then match oldest_entry m with Some oldest => delete oldest m | None => m end
  else m.

Definition evaluate_at (now : N) (key : string) (ttl_ms : N) (confirmed : bool) (m : gmap string N)
    : ToolConfirmDecision * gmap string N :=
  let m := retain (fun first_seen => (now - first_seen <? TOOL_CONFIRMATION_RETENTION_MS)%N) m in
  if negb confirmed then
    (Pending (tool_confirmation_token key), <[key := now]> (evict_for key m))
  else
    (match m !! key with
     | Some first_seen => if (now - first_seen <=? ttl_ms)%N then Confirmed else Expired
     | None => Expired
     end, delete key m).

Definition evaluate (origin : RequestOrigin.t) (tool : string) (args : value) (ttl_ms : N)
    (confirmed : bool) : M (W * gmap string N) ToolConfirmDecision :=
  fun '(w, m) =>
    let key := tool_confirmation_key origin tool args in
    let '(now, w) := now_ms w in
    let '(d, m) := evaluate_at now key ttl_ms confirmed m in
    (d, (w, m)).

(** ** Sequences of requests *)

Record request := {
  rq_now : N;
  rq_key : string;
  rq_ttl : N;
  rq_confirmed : bool;
}.

Definition is_confirmed (d : ToolConfirmDecision) : bool :=
  match d with Confirmed => true | _ => false end.

(** The log of decided requests, newest first, and the table it leads to. *)
Inductive gate_run : list (request * ToolConfirmDecision) -> gmap string N -> Prop :=
| gate_start : gate_run [] ∅
| gate_next log m rq d m' :
    gate_run log m ->
    evaluate_at (rq_now rq) (rq_key rq) (rq_ttl rq) (rq_confirmed rq) m = (d, m') ->
    gate_run ((rq, d) :: log) m'.

(** The latest request of the key in the log is a first leg at time [t]. *)
Definition awaiting (log : list (request * ToolConfirmDecision)) (key : string) (t : N) : Prop :=
  exists l1 rq d l2,
    log = l1 ++ (rq, d) :: l2 /\ rq_key rq = key /\ rq_confirmed rq = false /\ rq_now rq = t /\
    Forall (fun e => rq_key e.1 <> key) l1.

Lemma awaiting_cons e log key t :
  rq_key e.1 <> key -> awaiting log key t -> awaiting (e :: log) key t.
Proof. intros He (l1 & rq & d & l2 & -> & ? & ? & ? & ?). exists (e :: l1), rq, d, l2. by repeat constructor. Qed.

Lemma evict_for_sub key m : evict_for key m ⊆ m.
Proof.
  unfold evict_for. destruct (_ && _); [|done].
  destruct (oldest_entry m); [apply delete_subseteq|done].
Qed.

Lemma evaluate_at_lookup now key ttl confirmed m d m' k t :
  evaluate_at now key ttl confirmed m = (d, m') -> m' !! k = Some t ->
  k = key /\ t = now /\ confirmed = false \/ k <> key /\ m !! k = Some t.
Proof.
  unfold evaluate_at.
  pose proof (retain_subseteq (fun first_seen => (now - first_seen <? TOOL_CONFIRMATION_RETENTION_MS)%N) m) as Hr.
  destruct confirmed; cbn [negb]; intros [= <- <-] Hk.
  - apply lookup_delete_Some in Hk as [Hne Hk]. right. split; [done|]. by eapply lookup_weaken.
  - apply lookup_insert_Some in Hk as [[<- <-]|[Hne Hk]]; [by left|right].
    split; [done|]. eapply lookup_weaken; [exact Hk|]. etrans; [apply evict_for_sub|done].
Qed.

Lemma gate_awaiting log m k t : gate_run log m -> m !! k = Some t -> awaiting log k t.
Proof.
  intros Hrun. revert k t. induction Hrun as [|log m rq d m' _ IH He]; intros k t Hk; [done|].
  pose proof (evaluate_at_lookup _ _ _ _ _ _ _ _ _ He Hk) as [(-> & -> & Hc)|[Hne Hm]].
  - exists [], rq, d, log. by repeat constructor.
  - apply awaiting_cons; [done|]. by apply IH.
Qed.

(** ** The table is bounded *)

Context `{!HashOrderLaws HO}.

Lemma min_by_time_elem best l : min_by_time best l ∈ best :: l.
Proof.
  revert best. induction l as [|e l IH]; intros best; cbn; [set_solver|].
  specialize (IH (if (e.2 <? best.2)%N then e else best)). destruct (_ <? _)%N; set_solver.
Qed.

Lemma oldest_entry_lookup (m : gmap string N) k : oldest_entry m = Some k -> is_Some (m !! k).
Proof.
  unfold oldest_entry. destruct (hash_iter m) as [|e l] eqn:E; [done|]. intros [= <-].
  pose proof (min_by_time_elem e l) as Hin. rewrite <- E in Hin.
  destruct (min_by_time e l) as [k t]. apply hash_iter_elem in Hin. by exists t.
Qed.

Lemma oldest_entry_some (m : gmap string N) : m <> ∅ -> is_Some (oldest_entry m).
Proof.
  intros Hm. unfold oldest_entry. destruct (hash_iter m) eqn:E; [|done].
  exfalso. apply Hm. apply map_to_list_empty_iff. apply Permutation_nil. rewrite <- E. by rewrite hash_iter_perm.
Qed.

Lemma evict_for_size key m :
  size m <= MAX_TOOL_CONFIRMATIONS -> size (<[key := 0%N]> (evict_for key m)) <= MAX_TOOL_CONFIRMATIONS.
Proof.
  intros Hm. unfold evict_for. destruct (Nat.leb_spec MAX_TOOL_CONFIRMATIONS (size m)) as [Hl|Hl]; cbn [andb].
  - case_bool_decide as Hk; cbn [negb].
    + rewrite map_size_insert_Some by done. done.
    + destruct (oldest_entry_some m) as [k Hko].
      { intros ->. rewrite map_size_empty in Hl. unfold MAX_TOOL_CONFIRMATIONS in Hl. lia. }
      rewrite Hko. apply oldest_entry_lookup in Hko as [t Hko].
      pose proof (size_insert_le (delete k m) key 0%N).
      assert (size (delete k m) = pred (size m)) by (apply map_size_delete_Some; by exists t).
      unfold MAX_TOOL_CONFIRMATIONS in *. lia.
  - pose proof (size_insert_le m key 0%N). lia.
Qed.

Lemma size_insert_any {A} (m : gmap string A) k x y : size (<[k := x]> m) = size (<[k := y]> m).
Proof. by rewrite !map_size_insert. Qed.

Lemma evaluate_at_size now key ttl confirmed m d m' :
  evaluate_at now key ttl confirmed m = (d, m') ->
  size m <= MAX_TOOL_CONFIRMATIONS -> size m' <= MAX_TOOL_CONFIRMATIONS.
Proof.
  unfold evaluate_at. intros He Hm.
  pose proof (size_retain (fun first_seen => (now - first_seen <? TOOL_CONFIRMATION_RETENTION_MS)%N) m) as Hr.
  destruct confirmed; cbn [negb] in He; injection He as <- <-.
  - pose proof (map_subseteq_size _ _ (delete_subseteq
      (retain (fun first_seen => (now - first_seen <? TOOL_CONFIRMATION_RETENTION_MS)%N) m) key)). lia.
  - rewrite (size_insert_any _ _ _ 0%N). apply evict_for_size. lia.
Qed.

Lemma gate_run_size log m : gate_run log m -> size m <= MAX_TOOL_CONFIRMATIONS.
Proof.
  induction 1 as [|log m rq d m' _ IH He]; [rewrite map_size_empty; lia|].
  by eapply evaluate_at_size.
Qed.

End gate.

(** ** Keys *)

Definition no_separator (s : string) : bool :=
  sforall (fun a => negb (Ascii.eqb a (ascii_of_nat 31))) s.

Lemma no_separator_bytes s : no_separator s = true -> ascii_of_nat 31 ∉ bytes s.
Proof.
  unfold no_separator. rewrite sforall_bytes, Forall_forall. intros H Hin. by apply H in Hin.
Qed.

Lemma app_sep_inj {A} (x : A) l1 l2 k1 k2 :
  x ∉ l1 -> x ∉ k1 -> l1 ++ x :: l2 = k1 ++ x :: k2 -> l1 = k1 /\ l2 = k2.
Proof.
  revert k1. induction l1 as [|a l1 IH]; intros [|b k1] Hl Hk; cbn; intros [= ]; subst;
    [done|set_solver|set_solver|].
  destruct (IH k1); set_solver.
Qed.

Lemma app_last_sep_inj {A} (x : A) l1 l2 k1 k2 :
  x ∉ l2 -> x ∉ k2 -> l1 ++ x :: l2 = k1 ++ x :: k2 -> l1 = k1 /\ l2 = k2.
Proof.
  intros Hl Hk H. apply (f_equal reverse) in H. rewrite !reverse_app, !reverse_cons, <- !app_assoc in H.
  cbn in H. apply app_sep_inj in H as [H1 H2].
  - split; by apply (inj reverse).
  - by rewrite elem_of_reverse.
  - by rewrite elem_of_reverse.
Qed.

Lemma policy_key_no_separator o : no_separator (RequestOrigin.as_policy_key o) = true.
Proof. by destruct o. Qed.

(** The three parts of a key can be read back: the origin has no separator, and
    neither has the text of the arguments, in which JSON escapes control
    characters. *)
Lemma confirmation_key_parts `{SD : Serde} o o' t t' a a' :
  no_separator (to_str a) = true -> no_separator (to_str a') = true ->
  tool_confirmation_key o t a = tool_confirmation_key o' t' a' ->
  o = o' /\ t = t' /\ to_str a = to_str a'.
Proof.
  intros Ha Ha' H. unfold tool_confirmation_key in H. apply (f_equal bytes) in H.
  rewrite !bytes_app in H. cbn [bytes unit_separator app] in H.
  apply app_sep_inj in H as [Ho H]; [|apply no_separator_bytes, policy_key_no_separator..].
  apply app_last_sep_inj in H as [Ht H]; [|by apply no_separator_bytes..].
  split_and!; [apply RequestOrigin.as_policy_key_inj|..]; by apply bytes_inj.
Qed.

(** ** Properties *)

(** A tool may be called from an origin exactly when the policy is off, or
    the origin's deny list does not name it and the origin's allow list, if
    there is one, does; the list of an origin is its own or else that of the
    wildcard.  A deny entry wins over any allow entry. *)
Lemma origin_acl_exact policy origin tool :
  (is_ok (tool_origin_allowed policy origin tool) = true <->
   (policy_enabled policy = true ->
    (forall denied, origin_tool_list (denied_tools_by_origin policy) (RequestOrigin.as_policy_key origin)
                    = Some denied -> ~ listed denied tool) /\
    (forall allowed, origin_tool_list (allowed_tools_by_origin policy) (RequestOrigin.as_policy_key origin)
                     = Some allowed -> listed allowed tool))) /\
  (policy_enabled policy = true ->
   forall denied, origin_tool_list (denied_tools_by_origin policy) (RequestOrigin.as_policy_key origin)
                  = Some denied -> listed denied tool ->
   tool_origin_allowed policy origin tool =
     Err ("tool '" +:+ tool +:+ "' is denied for origin '" +:+
          RequestOrigin.as_policy_key origin +:+ "'")).
Proof.
  split; [apply tool_origin_allowed_iff|]. intros He denied Hd Hl.
  unfold tool_origin_allowed, tool_list_contains. rewrite He, Hd. cbn [negb].
  by rewrite (proj2 (tool_matches_listed _ _) Hl).
Qed.

(** C33: in every run of the confirmation gate, a request is confirmed only if
    the latest earlier request with its key is a first leg, made at most the
    time-to-live before it and less than an hour ago: each first leg confirms
    at most one request. *)
Theorem confirmed_has_first_leg `{HO : HashOrder} `{DH : DefaultHasher} log m rq m' :
  gate_run log m ->
  evaluate_at (rq_now rq) (rq_key rq) (rq_ttl rq) (rq_confirmed rq) m = (Confirmed, m') ->
  rq_confirmed rq = true /\
  exists t, awaiting log (rq_key rq) t /\ (rq_now rq - t <= rq_ttl rq)%N /\
            (rq_now rq - t < TOOL_CONFIRMATION_RETENTION_MS)%N.
Proof.
  intros Hrun. unfold evaluate_at.
  destruct (rq_confirmed rq); cbn [negb]; [|done]. intros [= Hd _]. split; [done|].
  destruct (retain _ m !! rq_key rq) as [t|] eqn:Hk; [|done].
  destruct (_ <=? _)%N eqn:Hle; [|done]. apply lookup_retain in Hk as [Hk Hr]. bool_to_prop.
  exists t. split_and!; [by eapply gate_awaiting|done|done].
Qed.

(** The gate never tracks more than 256 first legs, whatever order the
    hash map is visited in. *)
Lemma confirmations_tracked_bounded `{HO : HashOrder} `{DH : DefaultHasher}
    `{!HashOrderLaws HO} log m :
  gate_run log m -> size m <= MAX_TOOL_CONFIRMATIONS.
Proof. apply gate_run_size. Qed.

(** Two requests share a confirmation only if they have the same origin,
    the same tool and the same argument text. *)
Lemma confirmation_key_injective `{SD : Serde} o o' t t' a a' :
  no_separator (to_str a) = true -> no_separator (to_str a') = true ->
  tool_confirmation_key o t a = tool_confirmation_key o' t' a' ->
  o = o' /\ t = t' /\ to_str a = to_str a'.
Proof. apply confirmation_key_parts. Qed.

Section concrete.
#[local] Existing Instance key_order.
#[local] Instance null_hash : DefaultHasher := {| default_hash _ := 0%N |}.
#[local] Instance brace_serde : Serde := {| from_str _ := None; to_str _ := "{}" |}.

Definition first_leg : request := {| rq_now := 1000; rq_key := "k"; rq_ttl := 120000; rq_confirmed := false |}.
Definition second_leg : request := {| rq_now := 2000; rq_key := "k"; rq_ttl := 120000; rq_confirmed := true |}.
Definition one_pending : gmap string N := {["k" := 1000%N]}.

Lemma one_pending_run : gate_run [(first_leg, Pending (tool_confirmation_token "k"))] one_pending.
Proof. eapply gate_next; [constructor|]. vm_compute. reflexivity. Qed.

Lemma confirmed_has_first_leg_witness :
  exists t, awaiting [(first_leg, Pending (tool_confirmation_token "k"))] "k" t /\ (2000 - t <= 120000)%N.
Proof.
  destruct (confirmed_has_first_leg _ one_pending second_leg ∅ one_pending_run) as [_ (t & ? & ? & _)];
    [vm_compute; reflexivity|by exists t].
Defined.

Lemma confirmations_tracked_bounded_witness : size one_pending <= MAX_TOOL_CONFIRMATIONS.
Proof. apply (confirmations_tracked_bounded _ _ one_pending_run). Defined.

Lemma confirmation_key_injective_witness :
  RequestOrigin.Voice = RequestOrigin.Voice /\ "play_media" = "play_media" /\ to_str Null = to_str Null.
Proof. apply confirmation_key_injective; reflexivity. Defined.

End concrete.
