(* ===== verification/Calc.v ===== *)
(** * The calculator ([tools/calc.rs], [tools/dispatch/calculate.rs])

    A hand-written recursive-descent evaluator over [f64].  The parser recurses
    only through parentheses, whose depth it caps, so it is a structural
    recursion on the remaining depth; the two operator loops consume a token per
    round.  The reference is an expression tree with its own evaluator. *)

From S2P Require Import Prelude RustStr RustNum Json.
From Stdlib Require Import Ascii.
Local Open Scope string_scope.
Local Open Scope list_scope.
Local Open Scope rust_scope.

Definition MAX_PAREN_DEPTH : nat := 64.

Inductive Token :=
| TNumber (x : f64)
| TPlus | TMinus | TStar | TSlash | TLParen | TRParen.

(** The error texts of the code, by their format strings. *)
Inductive CalcError :=
| InvalidNumber (num : string)
| UnexpectedCharacter (c : string)
| UnexpectedToken (t : Token)
| UnexpectedEnd
| DivisionByZero
| TooDeep
| MissingParen.

(** ** Tokens *)

Definition is_number_char (c : string) : bool := is_ascii_digit c || String.eqb c ".".

Definition symbol_token (c : string) : option Token :=
  if String.eqb c "+" then Some TPlus
  else if String.eqb c "-" then Some TMinus
  else if String.eqb c "*" then Some TStar
  else if String.eqb c "/" then Some TSlash
  else if String.eqb c "(" then Some TLParen
  else if String.eqb c ")" then Some TRParen
  else None.

Definition is_blank (c : string) : bool :=
  String.eqb c " " || String.eqb c (String (ascii_of_nat 9) "").

(** A finished run of digits and dots. *)
Definition flush_number (num : string) : result (list Token) CalcError :=
  if is_empty num then Ok []
  else match parse_f64 num with
       | Some x => Ok [TNumber x]
       | None => Err (InvalidNumber num)
       end.

Fixpoint tokenize_chars (num : string) (cs : list string) : result (list Token) CalcError :=
  match cs with
  | [] => flush_number num
  | c :: cs =>
      if is_number_char c then tokenize_chars (num +:+ c) cs
      else
        let? here := flush_number num in
        if is_blank c then
          let? rest := tokenize_chars "" cs in Ok (here ++ rest)
        else
          match symbol_token c with
          | Some t => let? rest := tokenize_chars "" cs in Ok (here ++ t :: rest)
          | None => Err (UnexpectedCharacter c)
          end
  end.

Definition tokenize (input : string) : result (list Token) CalcError :=
  tokenize_chars "" (chars input).

(** ** The parser *)

Notation parsed := (result (f64 * list Token) CalcError).

(** One operator of a loop: the combination of the accumulator and the operand. *)
Notation operator := (Token -> option (f64 -> f64 -> result f64 CalcError)).

Definition expr_operator : operator := fun t =>
  match t with
  | TPlus => Some (fun a b => Ok (f64_add a b))
  | TMinus => Some (fun a b => Ok (f64_sub a b))
  | _ => None
  end.

Definition is_zero (x : f64) : bool := SFeqb x (S754_zero false).

Definition term_operator : operator := fun t =>
  match t with
  | TStar => Some (fun a b => Ok (f64_mul a b))
  | TSlash => Some (fun a b => if is_zero b then Err DivisionByZero else Ok (f64_div a b))
  | _ => None
  end.

(** [while *pos < tokens.len()] with an operator and an operand per round; the
    number of rounds is bounded by the tokens left. *)
Fixpoint operator_loop (n : nat) (op : operator) (operand : list Token -> parsed)
    (acc : f64) (ts : list Token) : parsed :=
  match n, ts with
  | S n, t :: ts' =>
      match op t with
      | Some f =>
          let? (x, ts'') := operand ts' in
          let? acc := f acc x in
          operator_loop n op operand acc ts''
      | None => Ok (acc, ts)
      end
  | _, _ => Ok (acc, ts)
  end.

(** The run of leading signs, folded into one flag. *)
Fixpoint parse_signs (factor : list Token -> parsed) (negate : bool) (ts : list Token) : parsed :=
  match ts with
  | TMinus :: ts => parse_signs factor (negb negate) ts
  | TPlus :: ts => parse_signs factor negate ts
  | _ =>
      let? (x, ts) := factor ts in
      Ok (if negate then f64_neg x else x, ts)
  end.

Definition parse_unary (factor : list Token -> parsed) : list Token -> parsed :=
  parse_signs factor false.

Definition parse_term (factor : list Token -> parsed) (ts : list Token) : parsed :=
  let? (x, ts) := parse_unary factor ts in
  operator_loop (length ts) term_operator (parse_unary factor) x ts.

Definition parse_sum (factor : list Token -> parsed) (ts : list Token) : parsed :=
  let? (x, ts) := parse_term factor ts in
  operator_loop (length ts) expr_operator (parse_term factor) x ts.

(** [parse_factor], given what to do inside a parenthesis. *)
Definition parse_factor (inside : option (list Token -> parsed)) (ts : list Token) : parsed :=
  match ts with
  | [] => Err UnexpectedEnd
  | TNumber x :: ts => Ok (x, ts)
  | TLParen :: ts =>
      match inside with
      | None => Err TooDeep
      | Some expr =>
          let? (x, ts) := expr ts in
          match ts with
          | TRParen :: ts => Ok (x, ts)
          | _ => Err MissingParen
          end
      end
  | t :: _ => Err (UnexpectedToken t)
  end.

(** [budget] is how many more parentheses may be opened. *)
Fixpoint parse_expr (budget : nat) (ts : list Token) : parsed :=
  parse_sum
    (parse_factor (match budget with O => None | S budget => Some (parse_expr budget) end)) ts.

Definition evaluate (expr : string) : result f64 CalcError :=
  let? tokens := tokenize expr in
  let? (x, rest) := parse_expr MAX_PAREN_DEPTH tokens in
  match rest with
  | [] => Ok x
  | t :: _ => Err (UnexpectedToken t)
  end.

(** ** The tool *)

Definition parse_calculate_expression (args : value) : result string string :=
  ok_or (trimmed_nonempty (get_str args "expression"))
    "calculate requires non-empty string argument 'expression'".

(** [result.floor()] compared with [result]; [as i64] prints an integer. *)
Definition fl_abs (x : f64) : f64 :=
  match x with
  | S754_zero _ => S754_zero false
  | S754_infinity _ => S754_infinity false
  | S754_nan => S754_nan
  | S754_finite _ m e => S754_finite false m e
  end.

Definition is_floor (x : f64) : bool :=
  fl_is_integral x || match x with S754_infinity _ => true | _ => false end.

Definition format_calc_result (x : f64) : string :=
  if is_floor x && SFltb (fl_abs x) (f64_dec 1 15) then show_Z (fl_as_i64 x)
  else trim_end_matches (fun c => String.eqb c ".")
         (trim_end_matches (fun c => String.eqb c "0") (fmt_fixed 6 x)).

Definition exec_calculate (args : value) : result string (string + CalcError) :=
  match parse_calculate_expression args with
  | Err e => Err (inl e)
  | Ok expr =>
      match evaluate expr with
      | Ok x => Ok (expr +:+ " = " +:+ format_calc_result x)
      | Err e => Err (inr e)
      end
  end.

(** The error texts. *)
Section text.
Context `{FT : FloatText}.

Definition token_debug (t : Token) : string :=
  match t with
  | TNumber x => "Number(" +:+ f64_debug x +:+ ")"
  | TPlus => "Plus" | TMinus => "Minus" | TStar => "Star" | TSlash => "Slash"
  | TLParen => "LParen" | TRParen => "RParen"
  end.

Definition calc_error_text (e : CalcError) : string :=
  match e with
  | InvalidNumber num => "invalid number: " +:+ num
  | UnexpectedCharacter c => "unexpected character: '" +:+ c +:+ "'"
  | UnexpectedToken t => "unexpected token: " +:+ token_debug t
  | UnexpectedEnd => "unexpected end of expression"
  | DivisionByZero => "division by zero"
  | TooDeep => "nested parentheses too deep (max " +:+ show_nat MAX_PAREN_DEPTH +:+ ")"
  | MissingParen => "missing closing parenthesis"
  end.

Definition exec_calculate_text (args : value) : result string string :=
  match exec_calculate args with
  | Ok out => Ok out
  | Err (inl e) => Err e
  | Err (inr e) => Err ("calculation error: " +:+ calc_error_text e)
  end.

End text.

Definition calc_args (e : string) : value := Object [("expression", Str e)].

Example calc_quarter : exec_calculate (calc_args "10 / 4") = Ok "10 / 4 = 2.5".
Proof. vm_compute. reflexivity. Qed.
Example calc_third : exec_calculate (calc_args "1 / 3") = Ok "1 / 3 = 0.333333".
Proof. vm_compute. reflexivity. Qed.
Example calc_signs : exec_calculate (calc_args "3 * -(2 + --4)") = Ok "3 * -(2 + --4) = -18".
Proof. vm_compute. reflexivity. Qed.

(** ** Consumption and fuel *)

(** A parser never returns more tokens than it was given. *)
Definition consuming (p : list Token -> parsed) : Prop :=
  forall ts x ts', p ts = Ok (x, ts') -> length ts' <= length ts.

Lemma operator_loop_consuming n op operand acc :
  consuming operand -> consuming (operator_loop n op operand acc).
Proof.
  intros Hc. revert acc. induction n as [|n IH]; intros acc ts x ts'; cbn [operator_loop].
  { intros [= <- <-]. lia. }
  destruct ts as [|t ts]; [intros [= <- <-]; lia|].
  destruct (op t) as [f|]; [|intros [= <- <-]; lia].
  rewrite rbind_ok. intros ([y ts1] & Ho & H). apply Hc in Ho.
  apply rbind_ok in H as (acc' & _ & H). apply IH in H. cbn. lia.
Qed.

Lemma parse_signs_consuming factor neg : consuming factor -> consuming (parse_signs factor neg).
Proof.
  intros Hc ts. revert neg. induction ts as [|t ts IH]; intros neg x ts'; cbn [parse_signs].
  - rewrite rbind_ok. intros ([y ts1] & Ho & H). apply Hc in Ho. injection H as <- <-. done.
  - destruct t; try (intros H; apply IH in H; cbn; lia);
      rewrite rbind_ok; intros ([y ts1] & Ho & H); apply Hc in Ho; by injection H as <- <-.
Qed.

Lemma parse_term_consuming factor : consuming factor -> consuming (parse_term factor).
Proof.
  intros Hc ts x ts'. unfold parse_term. rewrite rbind_ok. intros ([y ts1] & Ho & H).
  apply parse_signs_consuming in Ho; [|done].
  apply operator_loop_consuming in H; [lia|by apply parse_signs_consuming].
Qed.

Lemma parse_sum_consuming factor : consuming factor -> consuming (parse_sum factor).
Proof.
  intros Hc ts x ts'. unfold parse_sum. rewrite rbind_ok. intros ([y ts1] & Ho & H).
  apply parse_term_consuming in Ho; [|done].
  apply operator_loop_consuming in H; [lia|by apply parse_term_consuming].
Qed.

Definition inner (budget : nat) : option (list Token -> parsed) :=
  match budget with O => None | S budget => Some (parse_expr budget) end.

Lemma parse_expr_sum budget ts : parse_expr budget ts = parse_sum (parse_factor (inner budget)) ts.
Proof. by destruct budget. Qed.

Lemma parse_factor_consuming inside :
  (forall p, inside = Some p -> consuming p) -> consuming (parse_factor inside).
Proof.
  intros Hi [|[n| | | | | | ] ts] x ts'; cbn [parse_factor]; try done.
  - intros [= <- <-]. cbn. lia.
  - destruct inside as [p|]; [|done]. rewrite rbind_ok. intros ([y ts1] & Ho & H).
    apply (Hi p eq_refl) in Ho. destruct ts1 as [|[]]; try done. injection H as <- <-. cbn in *. lia.
Qed.

Lemma parse_expr_consuming budget : consuming (parse_expr budget).
Proof.
  induction budget as [|k IH]; intros ts x ts'; rewrite parse_expr_sum; apply parse_sum_consuming,
    parse_factor_consuming; cbn; naive_solver.
Qed.

Lemma factor_consuming budget : consuming (parse_factor (inner budget)).
Proof.
  apply parse_factor_consuming. intros p Hp. destruct budget; [done|]. injection Hp as <-.
  apply parse_expr_consuming.
Qed.

(** As many rounds as there are tokens are enough. *)
Lemma operator_loop_fuel n m op operand acc ts :
  consuming operand -> length ts <= n -> length ts <= m ->
  operator_loop n op operand acc ts = operator_loop m op operand acc ts.
Proof.
  intros Hc. revert m acc ts. induction n as [|n IH]; intros m acc ts Hn Hm.
  { destruct ts; [|cbn in Hn; lia]. by destruct m. }
  destruct ts as [|t ts]; [by destruct m|]. destruct m as [|m]; [cbn in Hm; lia|].
  cbn [operator_loop]. destruct (op t); [|done].
  destruct (operand ts) as [[x ts1]|] eqn:Ho; [|done]. apply Hc in Ho. cbn in *.
  destruct (r acc x); cbn; [|done]. apply IH; lia.
Qed.

(** ** The reference: trees *)

Inductive binop := Add | Sub | Mul | Div.

Inductive ast :=
| Lit (n : N)
| Neg (a : ast)
| Bin (op : binop) (a b : ast).

Definition apply_binop (op : binop) (x y : f64) : result f64 CalcError :=
  match op with
  | Add => Ok (f64_add x y)
  | Sub => Ok (f64_sub x y)
  | Mul => Ok (f64_mul x y)
  | Div => if is_zero y then Err DivisionByZero else Ok (f64_div x y)
  end.

Fixpoint eval (e : ast) : result f64 CalcError :=
  match e with
  | Lit n => Ok (f64_of_Z (Z.of_N n))
  | Neg a => let? x := eval a in Ok (f64_neg x)
  | Bin op a b =>
      let? x := eval a in
      let? y := eval b in
      apply_binop op x y
  end.

(** A token with its text. *)
Definition lexeme : Type := Token * string.

Definition op_lexeme (op : binop) : lexeme :=
  match op with
  | Add => (TPlus, "+") | Sub => (TMinus, "-") | Mul => (TStar, "*") | Div => (TSlash, "/")
  end.
Definition is_sum (op : binop) : bool := match op with Add | Sub => true | _ => false end.

Definition paren_if (b : bool) (l : list lexeme) : list lexeme :=
  if b then (TLParen, "(") :: l ++ [(TRParen, ")")] else l.

(** Printing with the parentheses the grammar needs: level 0 is [expr], 1 is
    [term], 2 is [unary] and 3 is [factor]. *)
Fixpoint print (level : nat) (e : ast) : list lexeme :=
  match e with
  | Lit n => [(TNumber (f64_of_Z (Z.of_N n)), show_N n)]
  | Neg a => paren_if (Nat.ltb 2 level) ((TMinus, "-") :: print 2 a)
  | Bin op a b =>
      if is_sum op
      then paren_if (Nat.ltb 0 level) (print 0 a ++ op_lexeme op :: print 1 b)
      else paren_if (Nat.ltb 1 level) (print 1 a ++ op_lexeme op :: print 2 b)
  end.

(** The parenthesis depth of what [print] writes. *)
Fixpoint depth (level : nat) (e : ast) : nat :=
  match e with
  | Lit _ => 0
  | Neg a => (if Nat.ltb 2 level then 1 else 0) + depth 2 a
  | Bin op a b =>
      if is_sum op
      then (if Nat.ltb 0 level then 1 else 0) + Nat.max (depth 0 a) (depth 1 b)
      else (if Nat.ltb 1 level then 1 else 0) + Nat.max (depth 1 a) (depth 2 b)
  end.

Definition tokens_of (l : list lexeme) : list Token := l.*1.
Definition text_of (l : list lexeme) : string := concat_str ((fun t => t +:+ " ") <$> l.*2).

(** The next token is not [*] or [/]. *)
Definition no_term_op (ts : list Token) : bool :=
  match ts with (TStar | TSlash) :: _ => false | _ => true end.

Section levels.
Context (k : nat).
Let F := parse_factor (inner k).

Definition sum_loop (x : f64) (ts : list Token) : parsed :=
  operator_loop (length ts) expr_operator (parse_term F) x ts.
Definition term_loop (x : f64) (ts : list Token) : parsed :=
  operator_loop (length ts) term_operator (parse_unary F) x ts.

(** What it means for a printed expression to be read back at each level. *)
Definition reads0 (e : ast) : Prop := forall rest, no_term_op rest = true ->
  parse_sum F (tokens_of (print 0 e) ++ rest) = let? x := eval e in sum_loop x rest.
Definition reads1 (e : ast) : Prop := forall rest,
  parse_term F (tokens_of (print 1 e) ++ rest) = let? x := eval e in term_loop x rest.
Definition reads2 (e : ast) : Prop := forall neg rest,
  parse_signs F neg (tokens_of (print 2 e) ++ rest) =
  let? x := eval e in Ok (if neg then f64_neg x else x, rest).
Definition reads3 (e : ast) : Prop := forall rest,
  F (tokens_of (print 3 e) ++ rest) = let? x := eval e in Ok (x, rest).

Lemma f64_neg_involutive x : f64_neg (f64_neg x) = x.
Proof. destruct x as [[]|[]| |[]]; done. Qed.

Lemma unary_consuming : consuming (parse_unary F).
Proof. apply parse_signs_consuming, factor_consuming. Qed.

Lemma term_loop_stop x rest : no_term_op rest = true -> term_loop x rest = Ok (x, rest).
Proof. intros H. unfold term_loop. destruct rest as [|[] rest]; done. Qed.

Lemma reads1_of_2 e : print 1 e = print 2 e -> reads2 e -> reads1 e.
Proof.
  intros Hp H rest. unfold parse_term, parse_unary. rewrite Hp, H. by destruct (eval e).
Qed.

Lemma reads0_of_1 e : print 0 e = print 1 e -> reads1 e -> reads0 e.
Proof.
  intros Hp H rest Hr. unfold parse_sum. rewrite Hp, H. destruct (eval e) as [x|]; [|done].
  cbn [rbind]. by rewrite term_loop_stop.
Qed.

(** A factor starts with a number or a parenthesis. *)
Lemma print_factor_head e : exists t l, tokens_of (print 3 e) = t :: l /\ t <> TMinus /\ t <> TPlus.
Proof.
  destruct e as [n|a|op a b]; cbn; [by eauto|by eauto|]. destruct (is_sum op); cbn; by eauto.
Qed.

Lemma reads2_of_3 e : print 2 e = print 3 e -> reads3 e -> reads2 e.
Proof.
  intros Hp H neg rest. specialize (H rest). rewrite Hp.
  destruct (print_factor_head e) as (t & l & Hl & Hm & Hpl). rewrite Hl in *. cbn [app] in *.
  assert (parse_signs F neg (t :: l ++ rest) =
          let? (x, ts) := F (t :: l ++ rest) in Ok (if neg then f64_neg x else x, ts)) as ->.
  { destruct t; done. }
  rewrite H. by destruct (eval e).
Qed.

(** One more round of a loop. *)
Lemma sum_loop_step op x b rest :
  is_sum op = true -> reads1 b -> no_term_op rest = true ->
  sum_loop x ((op_lexeme op).1 :: tokens_of (print 1 b) ++ rest) =
  let? y := eval b in let? z := apply_binop op x y in sum_loop z rest.
Proof.
  intros Hop Hb Hr. unfold sum_loop at 1. cbn [length operator_loop].
  destruct op; try done; cbn [op_lexeme fst expr_operator apply_binop];
    rewrite Hb; (destruct (eval b) as [y|]; [|done]); cbn [rbind]; rewrite term_loop_stop by done;
    cbn [rbind]; apply operator_loop_fuel;
    try (apply parse_term_consuming, factor_consuming); try done; rewrite length_app; lia.
Qed.

Lemma term_loop_step op x b rest :
  is_sum op = false -> reads2 b ->
  term_loop x ((op_lexeme op).1 :: tokens_of (print 2 b) ++ rest) =
  let? y := eval b in let? z := apply_binop op x y in term_loop z rest.
Proof.
  intros Hop Hb. unfold term_loop at 1. cbn [length operator_loop].
  destruct op; try done; cbn [op_lexeme fst term_operator apply_binop];
    unfold parse_unary at 1; rewrite Hb; (destruct (eval b) as [y|]; [|done]); cbn [rbind];
    try (destruct (is_zero y); [done|]); cbn [rbind]; apply operator_loop_fuel;
    try apply unary_consuming; try done; rewrite length_app; lia.
Qed.

End levels.

Lemma tokens_of_app l l' : tokens_of (l ++ l') = tokens_of l ++ tokens_of l'.
Proof. apply fmap_app. Qed.

(** Inside parentheses the budget is one less. *)
Lemma reads3_paren k e :
  print 3 e = paren_if true (print 0 e) -> reads0 k e -> reads3 (S k) e.
Proof.
  intros Hp H rest. rewrite Hp. cbn [paren_if tokens_of fmap list_fmap app].
  fold (tokens_of (print 0 e ++ [(TRParen, ")")])). rewrite tokens_of_app, <- app_assoc.
  cbn [parse_factor inner tokens_of fmap list_fmap app]. fold (tokens_of (print 0 e)).
  rewrite parse_expr_sum, H by done. destruct (eval e) as [x|]; [|done]. done.
Qed.

(** Read back at every level the budget allows. *)
Definition reads_back (e : ast) : Prop := forall k,
  (depth 0 e <= k -> reads0 k e) /\ (depth 1 e <= k -> reads1 k e) /\
  (depth 2 e <= k -> reads2 k e) /\ (depth 3 e <= k -> reads3 k e).

Lemma reads_back_lit n : reads_back (Lit n).
Proof.
  intros k. assert (reads3 k (Lit n)) as H3 by done.
  pose proof (reads2_of_3 k (Lit n) eq_refl H3) as H2.
  pose proof (reads1_of_2 k (Lit n) eq_refl H2) as H1.
  pose proof (reads0_of_1 k (Lit n) eq_refl H1) as H0. done.
Qed.

Lemma reads_back_neg a : reads_back a -> reads_back (Neg a).
Proof.
  intros IHa k. assert (forall k, depth 2 (Neg a) <= k -> reads2 k (Neg a)) as H2.
  { clear k. intros k Hd neg rest. destruct (IHa k) as (_ & _ & Ha & _).
    cbn [print Nat.ltb Nat.leb paren_if tokens_of fmap list_fmap app fst parse_signs].
    fold (tokens_of (print 2 a)). cbn in Hd. rewrite (Ha Hd). cbn [eval].
    destruct (eval a) as [x|]; [|done]. cbn [rbind]. by destruct neg; cbn [negb]; rewrite ?f64_neg_involutive. }
  assert (forall k, depth 1 (Neg a) <= k -> reads1 k (Neg a)) as H1.
  { intros. by apply reads1_of_2, H2. }
  assert (forall k, depth 0 (Neg a) <= k -> reads0 k (Neg a)) as H0.
  { intros. by apply reads0_of_1, H1. }
  split_and!; auto. intros Hd. destruct k as [|k]; cbn in Hd; [lia|].
  apply reads3_paren; [done|]. apply H0. cbn. lia.
Qed.

Lemma reads_back_sum op a b :
  is_sum op = true -> reads_back a -> reads_back b -> reads_back (Bin op a b).
Proof.
  intros Hop IHa IHb k.
  assert (forall k, depth 0 (Bin op a b) <= k -> reads0 k (Bin op a b)) as H0.
  { clear k. intros k Hd rest Hr. cbn [depth] in Hd. rewrite Hop in Hd. cbn in Hd.
    destruct (IHa k) as (Ha & _), (IHb k) as (_ & Hb & _).
    cbn [print]. rewrite Hop. cbn [Nat.ltb Nat.leb paren_if]. rewrite tokens_of_app, <- app_assoc.
    cbn [tokens_of fmap list_fmap app]. fold (tokens_of (print 1 b)).
    rewrite Ha by (try lia; by destruct op). cbn [eval]. destruct (eval a) as [x|]; [|done]. cbn [rbind].
    rewrite (sum_loop_step k op x b rest) by (try done; apply Hb; lia).
    destruct (eval b) as [y|]; [|done]. cbn [rbind]. by destruct (apply_binop op x y). }
  assert (forall l, 0 < l -> print l (Bin op a b) = paren_if true (print 0 (Bin op a b)) /\
            depth l (Bin op a b) = S (depth 0 (Bin op a b))) as Hp.
  { intros [|l] ?; [lia|]. cbn [print depth]. by rewrite Hop. }
  assert (forall k, depth 3 (Bin op a b) <= k -> reads3 k (Bin op a b)) as H3.
  { clear k. intros k Hd. destruct (Hp 3) as [Hp3 Hd3]; [lia|]. rewrite Hd3 in Hd.
    destruct k as [|k]; [lia|]. apply reads3_paren; [done|]. apply H0. lia. }
  destruct (Hp 1) as [Hp1 Hd1], (Hp 2) as [Hp2 Hd2], (Hp 3) as [Hp3 Hd3]; try lia.
  rewrite Hd1, Hd2, Hd3.
  assert (S (depth 0 (Bin op a b)) <= k -> reads2 k (Bin op a b)) as H2.
  { intros. apply reads2_of_3; [congruence|]. apply H3. lia. }
  split_and!; [apply H0| |done|rewrite <- Hd3; apply H3].
  intros. apply reads1_of_2; [congruence|]. auto.
Qed.

Lemma reads_back_product op a b :
  is_sum op = false -> reads_back a -> reads_back b -> reads_back (Bin op a b).
Proof.
  intros Hop IHa IHb k.
  assert (forall k, depth 1 (Bin op a b) <= k -> reads1 k (Bin op a b)) as H1.
  { clear k. intros k Hd rest. cbn [depth] in Hd. rewrite Hop in Hd. cbn in Hd.
    destruct (IHa k) as (_ & Ha & _), (IHb k) as (_ & _ & Hb & _).
    cbn [print]. rewrite Hop. cbn [Nat.ltb Nat.leb paren_if]. rewrite tokens_of_app, <- app_assoc.
    cbn [tokens_of fmap list_fmap app]. fold (tokens_of (print 2 b)).
    rewrite Ha by lia. cbn [eval]. destruct (eval a) as [x|]; [|done]. cbn [rbind].
    rewrite (term_loop_step k op x b rest) by (try done; apply Hb; lia).
    destruct (eval b) as [y|]; [|done]. cbn [rbind]. by destruct (apply_binop op x y). }
  assert (print 0 (Bin op a b) = print 1 (Bin op a b) /\
          depth 0 (Bin op a b) = depth 1 (Bin op a b)) as [Hp0 Hd0].
  { cbn [print depth]. by rewrite Hop. }
  assert (forall k, depth 0 (Bin op a b) <= k -> reads0 k (Bin op a b)) as H0.
  { intros k' Hd. apply reads0_of_1; [done|]. apply H1. lia. }
  assert (forall l, 1 < l -> print l (Bin op a b) = paren_if true (print 0 (Bin op a b)) /\
            depth l (Bin op a b) = S (depth 0 (Bin op a b))) as Hp.
  { intros [|[|l]] ?; [lia|lia|]. cbn [print depth]. by rewrite Hop. }
  destruct (Hp 2) as [Hp2 Hd2], (Hp 3) as [Hp3 Hd3]; try lia. rewrite Hd2, Hd3.
  assert (S (depth 0 (Bin op a b)) <= k -> reads3 k (Bin op a b)) as H3.
  { intros Hd. destruct k as [|k]; [lia|]. apply reads3_paren; [done|]. apply H0. lia. }
  split_and!; [apply H0|apply H1| |done].
  intros. apply reads2_of_3; [congruence|]. auto.
Qed.

Lemma print_reads e : reads_back e.
Proof.
  induction e as [n|a IHa|op a IHa b IHb];
    [apply reads_back_lit|by apply reads_back_neg|].
  destruct (is_sum op) eqn:Hop; [by apply reads_back_sum|by apply reads_back_product].
Qed.

(** ** Text *)

Definition symbol_chars : list string := char_of <$> bytes "+-*/()".

Definition char_list (s : string) : list string := char_of <$> bytes s.

(** A lexeme whose text, followed by a blank, is read as its token. *)
Definition lexes (l : lexeme) : Prop :=
  is_ascii l.2 = true /\
  forall cs, tokenize_chars "" (char_list l.2 ++ " " :: cs) =
             let? rest := tokenize_chars "" cs in Ok (l.1 :: rest).

Lemma digit_number_char a : byte_is_digit a = true -> is_number_char (char_of a) = true.
Proof. unfold is_number_char, is_ascii_digit. cbn. by intros ->. Qed.

Lemma tokenize_digits d num cs :
  sforall byte_is_digit d = true ->
  tokenize_chars num (char_list d ++ cs) = tokenize_chars (num +:+ d) cs.
Proof.
  revert num. induction d as [|a d IH]; intros num Hd; [by rewrite sapp_nil_r|].
  cbn [sforall] in Hd. bool_to_prop. unfold char_list. cbn [bytes fmap list_fmap app tokenize_chars].
  rewrite digit_number_char by done. fold (char_list d). rewrite IH by done.
  by rewrite <- sapp_assoc.
Qed.

Lemma span_all_digits d : sforall byte_is_digit d = true -> span_digits d = (d, "").
Proof.
  induction d as [|a d IH]; [done|]. cbn [sforall span_digits]. intros H. bool_to_prop.
  destruct (byte_is_digit a); [|done]. by rewrite IH.
Qed.

Lemma digit_first_facts a d : byte_is_digit a = true ->
  opt_sign (String a d) = (false, String a d) /\
  String.eqb (to_ascii_lowercase (String a d)) "inf" = false /\
  String.eqb (to_ascii_lowercase (String a d)) "infinity" = false /\
  String.eqb (to_ascii_lowercase (String a d)) "nan" = false.
Proof. destruct a as [[] [] [] [] [] [] [] []]; cbn; done. Qed.

(** A decimal integer reads as the nearest float. *)
Lemma parse_f64_show n : parse_f64 (show_N n) = Some (f64_of_Z (Z.of_N n)).
Proof.
  pose proof (show_N_digits n) as Hd. pose proof (show_N_nonempty n) as Hne.
  pose proof (digits_val_show n) as Hv.
  destruct (show_N n) as [|a d] eqn:E; [done|]. cbn [sforall] in Hd.
  apply andb_true_iff in Hd as [Ha Hd]. unfold parse_f64, parse_float.
  destruct (digit_first_facts a d Ha) as (-> & -> & -> & ->). cbn [orb].
  rewrite span_all_digits by (cbn [sforall]; by rewrite Ha). cbn [is_empty andb parse_exponent].
  rewrite sapp_nil_r, Hv. destruct n as [|p]; [done|]. f_equal.
  change (0 - Z.of_nat (String.length ""))%Z with 0%Z. unfold fl_of_dec. cbn [Z.leb Z.compare].
  change (10 ^ 0)%Z with 1%Z. by rewrite Z.mul_1_r.
Qed.

Lemma lexes_number n : lexes (TNumber (f64_of_Z (Z.of_N n)), show_N n).
Proof.
  split; cbn [fst snd].
  - eapply sforall_impl; [|apply show_N_digits]. apply byte_forall2. by vm_compute.
  - intros cs. rewrite tokenize_digits by apply show_N_digits. rewrite sapp_nil_l.
    cbn [tokenize_chars]. assert (is_number_char " " = false) as -> by done.
    unfold flush_number. rewrite parse_f64_show.
    pose proof (show_N_nonempty n). destruct (show_N n); [done|]. cbn [is_empty rbind].
    assert (is_blank " " = true) as -> by done. by destruct (tokenize_chars "" cs).
Qed.

Lemma lexes_symbol t s :
  (t, s) ∈ [(TPlus, "+"); (TMinus, "-"); (TStar, "*"); (TSlash, "/"); (TLParen, "("); (TRParen, ")")] ->
  lexes (t, s).
Proof.
  intros H. split.
  - repeat (apply elem_of_cons in H as [[= -> ->]|H]; [done|]). by apply elem_of_nil in H.
  - intros cs. assert (is_number_char " " = false /\ is_blank " " = true) as [Hn Hb] by done.
    repeat (apply elem_of_cons in H as [[= -> ->]|H];
      [cbn; rewrite ?Hn, ?Hb; cbn; by destruct (tokenize_chars "" cs)|]).
    by apply elem_of_nil in H.
Qed.

Lemma print_lexes level e : Forall lexes (print level e).
Proof.
  assert (forall b l, Forall lexes l -> Forall lexes (paren_if b l)) as Hp.
  { intros [] l Hl; [|done]. cbn. constructor; [apply lexes_symbol; set_solver|].
    apply Forall_app. split; [done|]. constructor; [apply lexes_symbol; set_solver|constructor]. }
  revert level. induction e as [n|a IHa|op a IHa b IHb]; intros level; cbn [print].
  - constructor; [apply lexes_number|constructor].
  - apply Hp. constructor; [apply lexes_symbol; set_solver|done].
  - assert (lexes (op_lexeme op)) by (apply lexes_symbol; destruct op; cbn; set_solver).
    destruct (is_sum op); apply Hp, Forall_app; auto.
Qed.

Lemma text_ascii l : Forall lexes l -> is_ascii (text_of l) = true.
Proof.
  unfold text_of, is_ascii. induction 1 as [|[t s] l [Hs _] _ IH]; [done|].
  cbn [fmap list_fmap snd] in *. rewrite concat_str_cons, !sforall_app.
  unfold is_ascii in Hs. by rewrite Hs, IH.
Qed.

Lemma tokenize_text l : Forall lexes l -> tokenize (text_of l) = Ok (tokens_of l).
Proof.
  intros H. unfold tokenize. rewrite chars_ascii by by apply text_ascii.
  fold (char_list (text_of l)).
  induction H as [|[t s] l [_ Hl] _ IH]; [done|].
  unfold text_of, char_list in *. cbn [fmap list_fmap]. rewrite concat_str_cons, !bytes_app, !fmap_app.
  cbn [bytes fmap list_fmap snd]. rewrite <- app_assoc. cbn [app].
  cbn [fst snd] in Hl. rewrite (Hl (char_of <$> bytes (concat_str ((fun t => t +:+ " ") <$> l.*2)))).
  by rewrite IH.
Qed.

(** ** The depth cap *)

Lemma too_deep k ts : parse_expr k (repeat TLParen (S k) ++ ts) = Err TooDeep.
Proof.
  induction k as [|k IH]; [done|]. rewrite parse_expr_sum. cbn [repeat app] in *.
  unfold parse_sum, parse_term, parse_unary. cbn [parse_signs parse_factor inner].
  by rewrite IH.
Qed.

(** ** Properties *)

(** The calculator computes the value of the expression it reads: any
    expression tree over integer literals, printed with the parentheses the
    grammar needs and no deeper than 64, evaluates to what the tree evaluates
    to, a division by zero included; signs, precedence and left associativity
    are those of the tree. *)
Lemma evaluate_printed e :
  depth 0 e <= MAX_PAREN_DEPTH -> evaluate (text_of (print 0 e)) = eval e.
Proof.
  intros Hd. unfold evaluate. rewrite tokenize_text by apply print_lexes. cbn [rbind].
  rewrite parse_expr_sum. destruct (print_reads e MAX_PAREN_DEPTH) as (H0 & _).
  specialize (H0 Hd [] eq_refl). rewrite app_nil_r in H0. rewrite H0.
  destruct (eval e) as [x|]; done.
Qed.


Section concrete.

Definition demo_ast : ast := Bin Div (Bin Sub (Lit 100) (Bin Mul (Lit 4) (Neg (Lit 8)))) (Bin Add (Lit 1) (Lit 2)).

Example demo_text : text_of (print 0 demo_ast) = "( 100 - 4 * - 8 ) / ( 1 + 2 ) ".
Proof. vm_compute. reflexivity. Qed.

Lemma evaluate_printed_witness :
  evaluate (text_of (print 0 demo_ast)) = eval demo_ast /\ eval demo_ast = Ok (f64_of_Z 44).
Proof.
  split; [apply (evaluate_printed demo_ast); vm_compute; lia|vm_compute; reflexivity].
Defined.


End concrete.
