(* ===== verification/Timer.v ===== *)
(** * Countdown timers ([tools/timer.rs], [tools/dispatch/set_timer.rs])

    A bounded list of labels with their end times, filled by the [set_timer]
    tool and drained by the voice loop. *)

From S2P Require Import Prelude RustStr RustNum Json HomeTypes RateLimit Scripted.
Local Open Scope string_scope.
Local Open Scope list_scope.
Local Open Scope rust_scope.

Definition MAX_ACTIVE_TIMERS : nat := 64.
Definition MAX_TIMER_SECONDS : N := 7 * 24 * 3600.

Record Timer := { timer_label : string; end_ms : N }.

(** ** Arguments of the tool *)

Definition parse_positive_integer_seconds (v : value) : result N string :=
  let not_integer := Err "set_timer requires integer argument 'seconds'" in
  match as_u64 v with
  | Some seconds =>
      if N.eqb seconds 0 then Err "set_timer seconds must be at least 1" else Ok seconds
  | None =>
      match as_f64 v with
      | Some x =>
          if negb (fl_is_finite x) || negb (fl_is_integral x) || SFltb x (f64_of_Z 1) then not_integer
          else
            let seconds := fl_as_u64 x in
            if negb (SFeqb (f64_of_Z (Z.of_N seconds)) x) then not_integer else Ok seconds
      | None => not_integer
      end
  end.

Definition parse_set_timer_label (args : value) : result string string :=
  match get args "label" with
  | None | Some Null => Ok "timer"
  | Some (Str text) => let trimmed := trim text in Ok (if is_empty trimmed then "timer" else trimmed)
  | Some _ => Err "set_timer 'label' must be a string when provided"
  end.

Definition parse_set_timer_args (args : value) : result (N * string) string :=
  let? seconds :=
    match get args "seconds" with
    | Some v => parse_positive_integer_seconds v
    | None => Err "set_timer requires integer argument 'seconds'"
    end in
  let? label := parse_set_timer_label args in
  Ok (seconds, label).

Definition format_timer_duration (total_seconds : N) : string :=
  let hours := (total_seconds / 3600)%N in
  let minutes := ((total_seconds mod 3600) / 60)%N in
  let seconds := (total_seconds mod 60)%N in
  let part n one many := if (0 <? n)%N then [count_noun (N.to_nat n) one many] else [] in
  let parts := part hours "hour" "hours" ++ part minutes "minute" "minutes" ++
               part seconds "second" "seconds" in
  match parts with
  | [] => count_noun (N.to_nat total_seconds) "second" "seconds"
  | _ => join " " parts
  end.

(** ** The timer list *)

Section operations.
Context {W : Type} `{Ops : World W}.

Definition timer_set (seconds : N) (label : string) : M (W * list Timer) (result unit string) :=
  fun '(w, timers) =>
    if N.eqb seconds 0 then (Err "timer duration must be at least 1 second", (w, timers))
    else if (MAX_TIMER_SECONDS <? seconds)%N then
      (Err ("timer duration cannot exceed " +:+ show_N MAX_TIMER_SECONDS +:+ " seconds (7 days)"),
       (w, timers))
    else
      match u64_checked (seconds * 1000) with
      | None => (Err "timer end time overflowed", (w, timers))
      | Some ms =>
          let '(now, w) := now_ms w in
          match u64_checked (now + ms) with
          | None => (Err "timer end time overflowed", (w, timers))
          | Some e =>
              if Nat.leb MAX_ACTIVE_TIMERS (length timers) then
                (Err ("too many active timers (max " +:+ show_nat MAX_ACTIVE_TIMERS +:+
                      "); wait for one to fire before setting another"), (w, timers))
              else (Ok tt, (w, timers ++ [{| timer_label := label; end_ms := e |}]))
          end
      end.

(** [retain]: what is due leaves in order, the rest stays in order. *)
Definition drain (now : N) (timers : list Timer) : list string * list Timer :=
  (timer_label <$> base.filter (fun t => (end_ms t <= now)%N) timers,
   base.filter (fun t => ~ (end_ms t <= now)%N) timers).

Definition check_fired : M (W * list Timer) (list string) :=
  fun '(w, timers) =>
    let '(now, w) := now_ms w in
    let '(fired, timers) := drain now timers in
    (fired, (w, timers)).

Definition exec_set_timer (args : value) : M (W * list Timer) (result string string) :=
  let!? (seconds, label) := ret (parse_set_timer_args args) in
  let!? _ := timer_set seconds label in
  ret (Ok ("Timer set for " +:+ format_timer_duration seconds +:+ ": " +:+ label)).

(** ** Sequences of operations *)

Inductive timer_op := OpSet (seconds : N) (label : string) | OpCheck.

Definition timer_step (o : timer_op) (s : W * list Timer) : W * list Timer :=
  match o with
  | OpSet seconds label => (timer_set seconds label s).2
  | OpCheck => (check_fired s).2
  end.

Lemma timer_set_run seconds label w timers :
  let '(r, (_, timers')) := timer_set seconds label (w, timers) in
  match r with
  | Ok _ =>
      (0 < seconds <= MAX_TIMER_SECONDS)%N /\ length timers < MAX_ACTIVE_TIMERS /\
      ((now_ms w).1 + seconds * 1000 <= u64_max)%N /\
      timers' = timers ++ [{| timer_label := label; end_ms := ((now_ms w).1 + seconds * 1000)%N |}]
  | Err _ => timers' = timers
  end.
Proof.
  unfold timer_set. destruct (N.eqb_spec seconds 0) as [->|Hz]; [done|].
  destruct (N.ltb_spec MAX_TIMER_SECONDS seconds) as [|Hmax]; [done|].
  unfold u64_checked. destruct (N.leb_spec (seconds * 1000) u64_max); [|done].
  destruct (now_ms w) as [now w']. cbn [fst].
  destruct (N.leb_spec (now + seconds * 1000) u64_max); [|done].
  destruct (Nat.leb_spec MAX_ACTIVE_TIMERS (length timers)); [done|].
  split_and!; (done || lia).
Qed.

Lemma timer_step_length o s :
  length s.2 <= MAX_ACTIVE_TIMERS -> length (timer_step o s).2 <= MAX_ACTIVE_TIMERS.
Proof.
  destruct s as [w timers], o as [seconds label|]; cbn [timer_step snd]; intros Hl.
  - pose proof (timer_set_run seconds label w timers) as H.
    destruct (timer_set _ _ _) as [[u|e] [w' ts]]; cbn [snd].
    + destruct H as (_ & ? & _ & ->). rewrite length_app. cbn. lia.
    + by subst.
  - unfold check_fired. destruct (now_ms w) as [now w']. cbn.
    pose proof (length_filter (fun t => ~ (end_ms t <= now)%N) timers). lia.
Qed.

End operations.

(** A duration splits into hours, minutes below 60 and seconds below 60. *)
Definition split_duration (t : N) : N * N * N := (t / 3600, (t mod 3600) / 60, t mod 60)%N.

Lemma split_duration_sum t :
  let '(h, m, s) := split_duration t in (t = 3600 * h + 60 * m + s /\ m < 60 /\ s < 60)%N.
Proof.
  unfold split_duration. pose proof (N.div_mod t 3600). pose proof (N.mod_lt t 3600).
  pose proof (N.div_mod (t mod 3600) 60). pose proof (N.mod_lt (t mod 3600) 60).
  assert ((t mod 3600) mod 60 = t mod 60)%N as Hm.
  { change 3600%N with (60 * 60)%N. rewrite N.Div0.mod_mul_r, (N.mul_comm 60), N.Div0.mod_add. apply N.Div0.mod_mod. }
  assert ((t mod 3600) / 60 < 60)%N by (apply N.Div0.div_lt_upper_bound; lia).
  rewrite <- Hm. lia.
Qed.

(** ** Properties *)

(** [set] accepts exactly the durations from one second to seven days
    while fewer than 64 timers run, and then appends one timer that ends that
    many seconds after the clock reading, with no wrap-around; a refusal leaves
    the list alone; and no sequence of operations exceeds 64 timers. *)
Lemma timer_set_bounds {W} `{World W} seconds label w timers ops :
  (let '(r, (_, timers')) := timer_set seconds label (w, timers) in
   match r with
   | Ok _ =>
       (0 < seconds <= MAX_TIMER_SECONDS)%N /\ length timers < MAX_ACTIVE_TIMERS /\
       ((now_ms w).1 + seconds * 1000 <= u64_max)%N /\
       timers' = timers ++ [{| timer_label := label; end_ms := ((now_ms w).1 + seconds * 1000)%N |}]
   | Err _ => timers' = timers
   end) /\
  ((0 < seconds <= MAX_TIMER_SECONDS)%N -> length timers < MAX_ACTIVE_TIMERS ->
   ((now_ms w).1 + seconds * 1000 <= u64_max)%N ->
   (timer_set seconds label (w, timers)).1 = Ok tt) /\
  length (foldl (fun s o => timer_step o s) (w, []) ops).2 <= MAX_ACTIVE_TIMERS.
Proof.
  split_and!.
  - apply timer_set_run.
  - intros [Hz Hmax] Hlen Hover. unfold timer_set.
    rewrite (proj2 (N.eqb_neq _ _)) by lia. rewrite (proj2 (N.ltb_ge _ _)) by lia.
    unfold u64_checked. rewrite (proj2 (N.leb_le _ _)) by lia.
    destruct (now_ms w) as [now w']. cbn [fst] in Hover.
    rewrite (proj2 (N.leb_le _ _)) by lia. rewrite (proj2 (Nat.leb_gt _ _)) by lia. done.
  - assert (forall s, length s.2 <= MAX_ACTIVE_TIMERS ->
            length (foldl (fun s o => timer_step o s) s ops).2 <= MAX_ACTIVE_TIMERS) as Hf.
    { induction ops as [|o ops IH]; intros s Hs; [done|]. cbn. apply IH. by apply timer_step_length. }
    apply Hf. cbn. lia.
Qed.

(** A check splits the timers without loss or invention, in order: exactly
    those due fire, each once, and the others stay. *)
Lemma check_fired_partitions {W} `{World W} w timers :
  let '(now, _) := now_ms w in
  let '(fired, (_, rest)) := check_fired (w, timers) in
  fired = timer_label <$> base.filter (fun t => (end_ms t <= now)%N) timers /\
  base.filter (fun t => (end_ms t <= now)%N) timers ++ rest ≡ₚ timers /\
  Forall (fun t => (now < end_ms t)%N) rest.
Proof.
  unfold check_fired. destruct (now_ms w) as [now w']. cbn. split_and!.
  - done.
  - induction timers as [|t timers IH]; [done|].
    destruct (decide (end_ms t <= now)%N) as [Hd|Hd].
    + rewrite filter_cons_True by done.
      rewrite (filter_cons_False (fun t => ~ (end_ms t <= now)%N)) by tauto. cbn. by constructor.
    + rewrite filter_cons_False by done.
      rewrite (filter_cons_True (fun t => ~ (end_ms t <= now)%N)) by tauto.
      rewrite <- Permutation_middle. by constructor.
  - apply Forall_forall. intros t Ht. apply list_elem_of_filter in Ht as [Ht _]. lia.
Qed.
