(* ===== verification/NumberWords.v ===== *)
(** * Spoken numbers ([tools/number_words.rs])

    English cardinals as speech recognition spells them, read off a list of
    words.  The reader is proved to invert a reference speller. *)

From S2P Require Import Prelude RustStr RustNum.
From Stdlib Require Import Ascii.
Local Open Scope string_scope.
Local Open Scope list_scope.

Inductive CardinalWord : Set :=
| Value (n : N)
| Hundred
| Thousand.

Definition value_words : list (string * N) :=
  [("zero", 0); ("one", 1); ("a", 1); ("an", 1); ("two", 2); ("three", 3); ("four", 4); ("five", 5);
   ("six", 6); ("seven", 7); ("eight", 8); ("nine", 9); ("ten", 10); ("eleven", 11); ("twelve", 12);
   ("thirteen", 13); ("fourteen", 14); ("fifteen", 15); ("sixteen", 16); ("seventeen", 17);
   ("eighteen", 18); ("nineteen", 19); ("twenty", 20); ("thirty", 30); ("forty", 40); ("fifty", 50);
   ("sixty", 60); ("seventy", 70); ("eighty", 80); ("ninety", 90)]%N.

Fixpoint word_value (token : string) (l : list (string * N)) : option N :=
  match l with
  | [] => None
  | (w, n) :: l => if String.eqb token w then Some n else word_value token l
  end.

Definition cardinal_word (token : string) : option CardinalWord :=
  match word_value token value_words with
  | Some n => Some (Value n)
  | None =>
      if String.eqb token "hundred" then Some Hundred
      else if String.eqb token "thousand" then Some Thousand
      else None
  end.

Definition is_cardinal (token : string) : bool :=
  match cardinal_word token with Some _ => true | None => false end.

(** [while let Some(&token) = tokens.get(index)], over the tokens from [index]
    on; the result is the loop's state when it ends. *)
Fixpoint spoken_loop (l : list string) (total group : N) (matched : bool) (index : nat)
    : N * N * bool * nat :=
  match l with
  | [] => (total, group, matched, index)
  | token :: l' =>
      if matched && String.eqb token "and"
         && match l' with next :: _ => is_cardinal next | [] => false end
      then spoken_loop l' total group matched (S index)
      else
        match cardinal_word token with
        | None => (total, group, matched, index)
        | Some (Value v) => spoken_loop l' total (u64_saturate (group + v)) true (S index)
        | Some Hundred => spoken_loop l' total (u64_saturate (N.max group 1 * 100)) true (S index)
        | Some Thousand =>
            spoken_loop l' (u64_saturate (total + u64_saturate (N.max group 1 * 1000))) 0 true (S index)
        end
  end.

Definition parse_spoken_number (tokens : list string) (start : nat) : option (N * nat) :=
  match tokens !! start ≫= parse_u64 with
  | Some v => Some (v, S start)
  | None =>
      let '(total, group, matched, index) := spoken_loop (drop start tokens) 0 0 false start in
      if matched then Some (u64_saturate (total + group), index) else None
  end.

Definition parse_amount (text : string) : option f64 :=
  let tokens := split_whitespace text in
  let from_digits :=
    token ← List.find (fun token => existsb is_ascii_digit (chars token)) tokens;
    x ← parse_f64 (concat_str (List.filter (fun c => is_ascii_digit c || String.eqb c ".") (chars token)));
    if fl_is_finite x then Some x else None in
  match from_digits with
  | Some x => Some x
  | None =>
      head (filter_map (fun start =>
        '(v, _) ← parse_spoken_number tokens start;
        let x := f64_of_Z (Z.of_N v) in
        if fl_is_finite x then Some x else None) (seq 0 (length tokens)))
  end.

(** ** A reference speller *)

Definition units_words : list string :=
  ["zero"; "one"; "two"; "three"; "four"; "five"; "six"; "seven"; "eight"; "nine"; "ten"; "eleven";
   "twelve"; "thirteen"; "fourteen"; "fifteen"; "sixteen"; "seventeen"; "eighteen"; "nineteen"].
Definition tens_words : list string :=
  ["zero"; "ten"; "twenty"; "thirty"; "forty"; "fifty"; "sixty"; "seventy"; "eighty"; "ninety"].

(** Numbers from 1 to 99. *)
Definition spell_tens (k : nat) : list string :=
  if Nat.ltb k 20 then [default "" (units_words !! k)]
  else default "" (tens_words !! (k / 10)) ::
       (if Nat.eqb (k mod 10) 0 then [] else [default "" (units_words !! (k mod 10))]).

(** The rest after hundreds or thousands, with or without an [and]. *)
Definition joined (with_and : bool) (words : list string) : list string :=
  if with_and then "and" :: words else words.

(** Numbers from 1 to 999. *)
Definition spell_hundreds (with_and : bool) (k : nat) : list string :=
  if Nat.ltb k 100 then spell_tens k
  else spell_tens (k / 100) ++ ["hundred"] ++
       (if Nat.eqb (k mod 100) 0 then [] else joined with_and (spell_tens (k mod 100))).

(** Numbers below a million. *)
Definition spell (with_and : bool) (n : nat) : list string :=
  if Nat.eqb n 0 then ["zero"]
  else if Nat.ltb n 1000 then spell_hundreds with_and n
  else spell_hundreds with_and (n / 1000) ++ ["thousand"] ++
       (if Nat.eqb (n mod 1000) 0 then []
        else joined (with_and && Nat.ltb (n mod 1000) 100) (spell_hundreds with_and (n mod 1000))).

(** ** Reading back *)

(** Reading [w] from a group [g] leaves the group [g'], whatever follows. *)
Definition reads_group (w : list string) (g g' : N) : Prop :=
  w <> [] /\ is_cardinal (default "" (head w)) = true /\ default "" (head w) <> "and" /\
  forall rest total matched index,
    spoken_loop (w ++ rest) total g matched index =
    spoken_loop rest total g' true (length w + index).

Lemma reads_value token v g :
  cardinal_word token = Some (Value v) -> token <> "and" -> (g + v <= u64_max)%N ->
  reads_group [token] g (g + v).
Proof.
  intros Hc Hne Hg. split_and!; [done|unfold is_cardinal; cbn [head from_option id default]; by rewrite Hc|done|].
  intros rest total matched index. cbn [app spoken_loop].
  rewrite (proj2 (String.eqb_neq _ _) Hne), andb_false_r, Hc. cbn [andb].
  unfold u64_saturate. rewrite N.min_l by done. done.
Qed.

Lemma reads_app w w' g g' g'' :
  reads_group w g g' -> reads_group w' g' g'' -> reads_group (w ++ w') g g''.
Proof.
  intros (Hw & Hc & Hn & Hr) (Hw' & _ & _ & Hr'). destruct w as [|x w]; [done|].
  split_and!; [done|done|done|]. intros rest total matched index.
  rewrite <- app_assoc, Hr, Hr', length_app. f_equal. lia.
Qed.

Lemma reads_hundred g :
  (0 < g)%N -> (g * 100 <= u64_max)%N -> reads_group ["hundred"] g (g * 100).
Proof.
  intros Hg Hm. split_and!; [done|done|done|]. intros rest total matched index.
  cbn [app spoken_loop]. change (cardinal_word "hundred") with (Some Hundred).
  change (String.eqb "hundred" "and") with false. rewrite andb_false_r. cbn [andb].
  unfold u64_saturate. rewrite N.max_l, N.min_l by lia. done.
Qed.

Lemma loop_and x l total g index :
  is_cardinal x = true ->
  spoken_loop ("and" :: x :: l) total g true index = spoken_loop (x :: l) total g true (S index).
Proof. intros Hx. remember (x :: l) as l' eqn:El. cbn [spoken_loop]. rewrite El, Hx. done. Qed.

(** An [and] between a number and its rest is skipped. *)
Lemma reads_joined with_and w g g' rest total index :
  reads_group w g g' ->
  spoken_loop (joined with_and w ++ rest) total g true index =
  spoken_loop rest total g' true (length (joined with_and w) + index).
Proof.
  intros (Hw & Hc & Hn & Hr). destruct with_and; cbn [joined]; [|by apply Hr].
  destruct w as [|x w]; [done|]. cbn [head from_option default id] in Hc.
  change (("and" :: x :: w) ++ rest) with ("and" :: x :: (w ++ rest)).
  rewrite loop_and by done. change (x :: (w ++ rest)) with ((x :: w) ++ rest). rewrite Hr.
  cbn [length]. f_equal. lia.
Qed.

(** Every number from 1 to 99 is spelled in one or two value words. *)
Definition spells_tens (k : nat) : bool :=
  match spell_tens k with
  | [a] => match cardinal_word a with Some (Value v) => N.eqb v (N.of_nat k) | _ => false end
           && negb (String.eqb a "and")
  | [a; b] => match cardinal_word a, cardinal_word b with
              | Some (Value v), Some (Value v') => N.eqb (v + v') (N.of_nat k)
              | _, _ => false
              end && negb (String.eqb a "and") && negb (String.eqb b "and")
  | _ => false
  end.

Lemma all_tens_spelled : forallb spells_tens (seq 1 99) = true.
Proof. by vm_compute. Qed.

Lemma reads_tens k g :
  1 <= k < 100 -> (g <= 1000000000)%N -> reads_group (spell_tens k) g (g + N.of_nat k).
Proof.
  intros Hk Hg. pose proof (proj1 (forallb_elem _ _) all_tens_spelled k) as Hs.
  specialize (Hs ltac:(apply elem_of_seq; lia)). unfold spells_tens in Hs. unfold u64_max in *.
  destruct (spell_tens k) as [|a [|b [|? ?]]]; try done.
  - bool_to_prop. destruct (cardinal_word a) as [[v| |]|] eqn:Ha; try done.
    bool_to_prop. subst v. apply reads_value; [done|done|unfold u64_max; lia].
  - bool_to_prop. destruct (cardinal_word a) as [[v| |]|] eqn:Ha; try done.
    destruct (cardinal_word b) as [[v'| |]|] eqn:Hb; try done. bool_to_prop.
    rewrite <- H, N.add_assoc. apply (reads_app [a] [b] g (g + v) (g + v + v'));
      apply reads_value; try done; unfold u64_max; lia.
Qed.

Lemma reads_hundreds with_and k :
  1 <= k < 1000 -> reads_group (spell_hundreds with_and k) 0 (N.of_nat k).
Proof.
  intros Hk. unfold spell_hundreds. destruct (Nat.ltb_spec k 100) as [|Hge].
  { rewrite <- (N.add_0_l (N.of_nat k)). apply reads_tens; lia. }
  assert (1 <= k / 100 < 10) as Hh.
  { split; [apply Nat.div_le_lower_bound; lia|apply Nat.div_lt_upper_bound; lia]. }
  pose proof (Nat.div_mod_eq k 100) as Hdm. pose proof (Nat.mod_upper_bound k 100 ltac:(lia)) as Hmod.
  assert (reads_group (spell_tens (k / 100) ++ ["hundred"]) 0 (N.of_nat (k / 100) * 100)) as Hhun.
  { eapply reads_app; [apply (reads_tens (k / 100) 0); lia|]. rewrite N.add_0_l.
    apply reads_hundred; [lia|unfold u64_max; lia]. }
  rewrite app_assoc. destruct (Nat.eqb_spec (k mod 100) 0) as [Hz|Hz].
  { rewrite app_nil_r. replace (N.of_nat k) with (N.of_nat (k / 100) * 100)%N by lia. done. }
  destruct Hhun as (Hw & Hc & Hn & Hr).
  destruct (spell_tens (k / 100) ++ ["hundred"]) as [|x w]; [done|].
  split_and!; [done|done|done|]. intros rest total matched index.
  rewrite <- app_assoc, Hr.
  rewrite (reads_joined with_and (spell_tens (k mod 100)) _ (N.of_nat (k / 100) * 100 + N.of_nat (k mod 100))) by (apply reads_tens; lia).
  rewrite length_app, Nat.add_assoc. rewrite (Nat.add_comm (length (joined _ _))).
  replace (N.of_nat (k / 100) * 100 + N.of_nat (k mod 100))%N with (N.of_nat k) by lia. done.
Qed.

(** What may follow a number without being read as part of it. *)
Definition ends_number (rest : list string) : Prop :=
  match rest with
  | [] => True
  | [x] => is_cardinal x = false
  | x :: y :: _ => is_cardinal x = false /\ ~ (x = "and" /\ is_cardinal y = true)
  end.

Lemma loop_ends rest total g index :
  ends_number rest -> spoken_loop rest total g true index = (total, g, true, index).
Proof.
  assert (forall x, is_cardinal x = false -> cardinal_word x = None) as Hnone.
  { intros x. unfold is_cardinal. by destruct (cardinal_word x). }
  destruct rest as [|x [|y rest]]; cbn [ends_number]; [done|..].
  - intros Hx. cbn [spoken_loop]. by rewrite andb_false_r, (Hnone x Hx).
  - intros [Hx Hand]. remember (y :: rest) as l eqn:El. cbn [spoken_loop]. rewrite (Hnone x Hx).
    destruct (String.eqb_spec x "and") as [->|]; cbn [andb]; [|done].
    rewrite El. destruct (is_cardinal y) eqn:Ey; [|done]. tauto.
Qed.

(** No word of a number reads as digits. *)
Lemma cardinal_not_digits x : is_cardinal x = true -> parse_u64 x = None.
Proof.
  unfold is_cardinal, cardinal_word.
  assert (forall l n, word_value x l = Some n -> x ∈ l.*1) as Hin.
  { induction l as [|[w n] l IH]; intros m; cbn [word_value]; [done|].
    destruct (String.eqb_spec x w) as [->|]; [by left|]. intros. right. by eapply IH. }
  destruct (word_value x value_words) as [n|] eqn:Ev.
  - apply Hin in Ev. intros _.
    assert (forallb (fun w => negb (bool_decide (is_Some (parse_u64 w)))) (value_words.*1) = true) as Hall
      by by vm_compute.
    pose proof (proj1 (forallb_elem _ _) Hall x Ev) as Hx. cbv beta in Hx. bool_to_prop.
    by apply eq_None_not_Some.
  - destruct (String.eqb_spec x "hundred") as [->|]; [done|].
    destruct (String.eqb_spec x "thousand") as [->|]; done.
Qed.

(** The loop over a spelled number. *)
Lemma spelled_loop with_and n rest index :
  n < 1000 * 1000 ->
  spell with_and n <> [] /\ is_cardinal (default "" (head (spell with_and n))) = true /\
  exists total group,
    spoken_loop (spell with_and n ++ rest) 0 0 false index =
      spoken_loop rest total group true (length (spell with_and n) + index) /\
    (total + group = N.of_nat n)%N.
Proof.
  intros Hn. unfold spell. destruct (Nat.eqb_spec n 0) as [->|Hz].
  { destruct (reads_value "zero" 0 0 eq_refl ltac:(done) ltac:(unfold u64_max; lia)) as (H1 & H2 & _ & Hr).
    split_and!; [done|done|]. exists 0%N, 0%N. split; [apply Hr|done]. }
  destruct (Nat.ltb_spec n 1000) as [Hlt|Hge].
  { destruct (reads_hundreds with_and n ltac:(lia)) as (H1 & H2 & _ & Hr).
    split_and!; [done|done|]. exists 0%N, (N.of_nat n). split; [apply Hr|lia]. }
  pose proof (Nat.div_mod_eq n 1000) as Hdm. pose proof (Nat.mod_upper_bound n 1000 ltac:(lia)) as Hmod.
  assert (1 <= n / 1000 < 1000) as Hq.
  { split; [apply Nat.div_le_lower_bound; lia|apply Nat.div_lt_upper_bound; lia]. }
  destruct (reads_hundreds with_and (n / 1000) Hq) as (H1 & H2 & _ & Hr).
  split_and!.
  { by destruct (spell_hundreds with_and (n / 1000)). }
  { by destruct (spell_hundreds with_and (n / 1000)). }
  set (tail := if Nat.eqb (n mod 1000) 0 then [] else _).
  rewrite <- !app_assoc, Hr.
  assert (forall l i, spoken_loop (["thousand"] ++ l) 0 (N.of_nat (n / 1000)) true i =
            spoken_loop l (N.of_nat (n / 1000) * 1000) 0 true (S i)) as Hth.
  { intros l i. cbn [app spoken_loop]. change (cardinal_word "thousand") with (Some Thousand).
    change (String.eqb "thousand" "and") with false. cbn [andb].
    unfold u64_saturate, u64_max. rewrite N.max_l, !N.min_l by lia. by rewrite N.add_0_l. }
  rewrite Hth. subst tail. rewrite !length_app. cbn [length].
  destruct (Nat.eqb_spec (n mod 1000) 0) as [Hm|Hm].
  - exists (N.of_nat (n / 1000) * 1000)%N, 0%N. split; [|lia]. cbn [app length]. f_equal. lia.
  - exists (N.of_nat (n / 1000) * 1000)%N, (N.of_nat (n mod 1000)). split; [|lia].
    rewrite (reads_joined _ _ 0 (N.of_nat (n mod 1000))) by (apply reads_hundreds; lia).
    f_equal. lia.
Qed.

(** ** Properties *)

(** Every number below a million, spelled in English with or without its
    [and]s, is read back, from any place in a sentence and up to the word after
    it. *)
Lemma spoken_number_roundtrip with_and n pre rest :
  n < 1000 * 1000 -> ends_number rest ->
  parse_spoken_number (pre ++ spell with_and n ++ rest) (length pre) =
  Some (N.of_nat n, length pre + length (spell with_and n)).
Proof.
  intros Hn Hrest. unfold parse_spoken_number.
  destruct (spelled_loop with_and n rest (length pre) Hn) as (Hne & Hc & total & group & Hl & Hsum).
  rewrite drop_app_length, Hl, loop_ends by done.
  assert ((pre ++ spell with_and n ++ rest) !! length pre ≫= parse_u64 = None) as ->.
  { rewrite lookup_app_r, Nat.sub_diag by lia. destruct (spell with_and n) as [|x w]; [done|].
    cbn. by apply cardinal_not_digits. }
  unfold u64_saturate, u64_max. rewrite Hsum, N.min_l by lia. f_equal. f_equal. lia.
Qed.

Lemma spoken_number_roundtrip_witness :
  spell true 2345 = ["two"; "thousand"; "three"; "hundred"; "and"; "forty"; "five"] /\
  parse_spoken_number (["add"] ++ spell true 2345 ++ ["grams"]) (length ["add"]) =
  Some (N.of_nat 2345, length ["add"] + length (spell true 2345)).
Proof.
  split; [vm_compute; reflexivity|].
  apply (spoken_number_roundtrip true 2345 ["add"] ["grams"]); [|reflexivity].
  apply Nat.ltb_lt. vm_compute. reflexivity.
Defined.
