(* ===== verification/CalcInput.v ===== *)
(** * Preparing spoken arithmetic ([tools/calc_input.rs])

    What a question of arithmetic is turned into before it is read: the
    separators are made spaces, thousands are closed up, and a spoken decimal
    ("three point five") becomes one token. *)

From S2P Require Import Prelude RustStr RustNum NumberWords.
Local Open Scope string_scope.
Local Open Scope list_scope.

Definition flanked_by_digits (cs : list string) (index : nat) : bool :=
  let before := match index with 0 => false | S i => match cs !! i with Some c => is_ascii_digit c | None => false end end in
  let after := match cs !! S index with Some c => is_ascii_digit c | None => false end in
  before && after.

Definition parse_single_digit_word (token : string) : option N :=
  word_value token [("zero", 0); ("one", 1); ("two", 2); ("three", 3); ("four", 4); ("five", 5); ("six", 6);
                    ("seven", 7); ("eight", 8); ("nine", 9)]%N.

Definition is_digits (token : string) : bool := negb (is_empty token) && forallb is_ascii_digit (chars token).

(** [iter().position]. *)
Fixpoint position {A} (p : A -> bool) (l : list A) : option nat :=
  match l with
  | [] => None
  | x :: l => if p x then Some 0 else S <$> position p l
  end.

(** The whole part, which has to end where the word "point" stands. *)
Definition fold_whole (tokens : list string) (start point_idx : nat) : option N :=
  t ← tokens !! start;
  if Nat.eqb point_idx (S start) && is_digits t then parse_u64 t
  else '(v, e) ← parse_spoken_number tokens start; if Nat.eqb e point_idx then Some v else None.

Definition match_decimal_fold_at (tokens : list string) (start : nat) : option (nat * string) :=
  point_rel ← position (String.eqb "point") (drop start tokens);
  if Nat.eqb point_rel 0 then None
  else
    let point_idx := start + point_rel in
    frac_token ← tokens !! S point_idx;
    frac ← match parse_single_digit_word frac_token with
           | Some word => Some (show_N word)
           | None => if is_digits frac_token then Some frac_token else None
           end;
    int_val ← fold_whole tokens start point_idx;
    Some (point_idx + 2 - start, show_N int_val +:+ "." +:+ frac).

(** The loop over the tokens; every pass takes one at least. *)
Fixpoint fold_from (fuel : nat) (tokens : list string) (index : nat) (out : string) : string :=
  match fuel, tokens !! index with
  | S fuel, Some token =>
      let out := if is_empty out then out else out +:+ " " in
      match match_decimal_fold_at tokens index with
      | Some (consumed, decimal) => fold_from fuel tokens (index + consumed) (out +:+ decimal)
      | None => fold_from fuel tokens (S index) (out +:+ token)
      end
  | _, _ => out
  end.
Definition fold_spoken_decimals (text : string) : string :=
  let tokens := split_whitespace text in fold_from (length tokens) tokens 0 "".

Section unicode.
Context `{U : Unicode}.

Definition cleaned_char (cs : list string) (index : nat) (current : string) : string :=
  if is_alphanumeric current || is_whitespace current then current
  else if String.eqb current "." && flanked_by_digits cs index then "."
  else if String.eqb current "," && flanked_by_digits cs index then ""
  else if String.eqb current "%" then " % "
  else " ".

Definition prepare (text : string) : string :=
  let cs := chars (to_lowercase text) in
  fold_spoken_decimals (concat_str (imap (cleaned_char cs) cs)).

End unicode.

Section examples.
#[local] Existing Instance ascii_tables.

Example thousands_close_up : prepare "20% of 1,000" = "20 % of 1000".
Proof. vm_compute. reflexivity. Qed.
Example decimals_are_folded : prepare "Ninety eight point six plus 3 point 05!" = "98.6 plus 3.05".
Proof. vm_compute. reflexivity. Qed.

End examples.
