(* ===== verification/QuickTables.v ===== *)
(** * The phrase tables of the quick router ([tools/quick.rs])

    What an utterance is recognised by: the questions that are answered from
    memory, the devices and scenes that have a phrase of their own, the facts
    that are stored.  The text is the normal form of the utterance
    ([QuickRoute.normalize]). *)

From S2P Require Import Prelude RustStr RustNum.
Local Open Scope string_scope.
Local Open Scope list_scope.

(** ** Questions *)

Definition asks_memory_status (text : string) : bool :=
  contains_any text ["memory status"; "memory health"; "memory database"; "memory diagnostics"; "memory index"].

Definition is_structured_household_question (text : string) : bool :=
  starts_any text ["how old is "; "what age is "]
  || contains text "credit score"
  || is_one_of text ["what is my weight"; "what s my weight"; "what's my weight"]
  || contains text "vo2 max"
  || contains_any text ["tv tonight"; "on tv tonight"]
  || contains_any text ["city council meeting"; "what time is my bus"; "bus tomorrow"; "bus pickup tomorrow";
                        "who s coming to dinner"; "who's coming to dinner"; "coming to dinner tonight";
                        "can i have a snack"; "did i finish my chores"; "did mom approve my sleepover";
                        "which leftovers should we eat first"; "who changed the thermostat";
                        "did mia take her allergy medicine"; "can i play outside"; "allowed to play outside";
                        "what do we still need to do before trash day"; "did anyone take the garbage bins out";
                        "which homework needs internet"; "can i use the stove"; "can i use stove";
                        "which sensors need batteries soon"; "did i pack my library book";
                        "why did my alarm not go off"; "what plants need attention"; "why did away mode fail";
                        "make an end of day house summary"; "make an end-of-day house summary";
                        "can i open the front door"; "why is the basement humid"; "what needs charging tonight";
                        "when is the next filter change"; "was the front door locked after";
                        "can i print my homework"; "did my tooth fairy box stay closed";
                        "what changed in the garage today"; "why did the security alarm chirp";
                        "who s in the backyard"; "who's in the backyard"; "what s left on my bedtime chart";
                        "what's left on my bedtime chart"; "did i close the upstairs window before the rain";
                        "what devices are on guest wi fi"; "what devices are on guest wifi";
                        "what devices are on guest wi-fi"; "side path icy"; "why is the office internet slow";
                        "what chores did leo skip this week"; "can the cat sleep in my room";
                        "why is mia s purifier on high"; "why is mia's purifier on high";
                        "did the garage close after jared left"; "did i feed the cat too much";
                        "what s the oldest thing in the fridge"; "what's the oldest thing in the fridge";
                        "why is my lamp flickering"; "can i open the garage door"; "did anyone bypass a sensor";
                        "did dad see my message"; "can i practice drums now";
                        "which automation fired the most today"; "when did the laundry finish";
                        "did my laundry get moved"]
  || starts_with text "can i " && contains text "watch cartoons"
  || contains text "who opened the garage door"
  || is_one_of text ["is mia home"; "is leo home"; "is sarah home"; "is jared home"]
  || contains_any text ["what groceries are low"; "saturday morning routine"; "what s next before school";
                        "what's next before school"]
  || starts_any text ["what channel is "; "what channel s "]
  || contains text "subscription" && contains_any text ["due"; "renew"]
  || starts_with text "what does " && contains text " like"
  || starts_with text "what size shoe does " && contains text " wear"
  || starts_with text "what shoe size does " && contains text " wear"
  || contains text "dishwasher" && contains_any text ["clean"; "dirty"]
  || starts_with text "did " && contains text "trash truck"
  || contains text "temperature" && contains text "attic"
  || starts_with text "is " && contains text "home from school"
  || starts_with text "is " && contains text " allowed"
  || starts_with text "do we have " && contains_any text [" left"; "eggs"]
  || starts_with text "are there " && contains text " left"
  || starts_with text "does " && contains text " have "
  || starts_with text "when is " && contains text "dentist appointment"
  || starts_with text "when is " && contains text "vet appointment"
  || starts_with text "when is " && contains text "checkup"
  || contains_any text ["sun set"; "sunset"]
  || starts_with text "did " && contains_any text [" feed "; " fed "]
  || starts_with text "did " && contains_any text [" brush "; " brushed "]
  || starts_with text "did everyone" && contains text "brush" && contains text "teeth"
  || starts_with text "did " && contains text "allowance"
  || starts_with text "did " && contains text "pay" && contains text "bill"
  || starts_with text "can " && contains text " unlock "
  || contains_any text ["school bus"; "bill due"; "electricity bill"; "trash pickup"; "trash day";
                        "community pool"]
  || contains text "pool" && contains text "open"
  || contains text "library" && contains_any text ["close"; "hours"]
  || contains_any text ["recycling week"; "recycling day"; "parent teacher conference";
                        "parent-teacher conference"; "dentist appointment"; "vet appointment";
                        "turned off the security system"; "disarmed the security system"; "picking up the kids"]
  || contains text "school pickup" && negb (contains text "raining") && negb (starts_with text "is it rain")
  || contains text "shopping list"
  || contains_any text ["allergic"; "allergy"]
  || contains_any text ["homework rule"; "homework rules"].

Definition is_household_note_question (text : string) : bool :=
  starts_any text ["what did i say about "; "what did we say about "; "find my note about "; "find note about ";
                   "find the note about "; "show my note about "; "show the note about ";
                   "what did i write about "; "what did we write about "; "what did the vet say about ";
                   "what did the mechanic say about "; "what color is "; "what colour is ";
                   "what color did we paint "; "what colour did we paint "; "what s the model number ";
                   "what is the model number "; "who took the photos "; "find the warranty for "]
  || starts_with text "find the " && contains text " warranty"
  || starts_any text ["what is the warranty for "; "what s the warranty for "; "what's the warranty for ";
                      "find the receipt for "; "find manual for "; "find the manual for ";
                      "find the user manual for "]
  || starts_with text "find the " && contains text " manual"
  || starts_any text ["find anything about "; "find my essay draft"; "find my debate research";
                      "find the essay draft"; "find the ladder safety note"; "tell me the dinosaur fact";
                      "read me the next step"]
  || contains_any text ["which breaker controls the dishwasher"; "what did we do last time ants";
                        "camping flashlight"; "rain boots"; "slow cooker manual"; "timer chart"]
  || contains text "garage camera" && contains text "bike"
  || contains_any text ["water heater receipt"; "white extension cord"]
  || contains text "chicken recipe" && contains text "peanuts"
  || contains_any text ["vaccination form"; "field trip form"; "photo backdrop instructions"; "red marker"]
  || contains text "furnace" && contains text "code 31"
  || contains text "plumber" && contains text "shutoff valve"
  || contains_any text ["winter poem"; "poem about winter"; "toddler gate instructions"]
  || contains text "recipe" && contains text "green bowl"
  || contains text "flashlight" && contains text "lights go out"
  || contains text "tournament" && contains text "snacks"
  || contains_any text ["why didn t the sprinklers run"; "why didn't the sprinklers run";
                        "cold medicine instructions"; "library book"; "recital outfit"; "blue cup"]
  || contains text "side gate" && contains text "while we were gone"
  || contains text "guest speaker"
  || starts_any text ["find the instructions for "; "find the sewing kit"; "how do i remove ";
                      "how do we remove "; "how long do i boil "; "how long should i boil "; "what bin does "]
  || contains_any text ["science fair checklist"; "tablet charger"; "backpack"; "allergy action plan";
                        "pajama day"; "dishwasher error"; "which filter"]
  || starts_any text ["what is the doctor"; "what s the doctor"; "what's the doctor";
                      "find the manual for the car"; "where are the tax documents"; "what is the license plate";
                      "what s the license plate"; "what's the license plate"; "who do we call for ";
                      "what is the school"; "what s the school"; "what's the school"; "what is the vet";
                      "what s the vet"; "what's the vet"; "what is the phone number for ";
                      "what s the phone number for "; "what's the phone number for ";
                      "what is the ip address of "; "what s the ip address of "; "what's the ip address of ";
                      "how do i reset "; "how do we reset "]
  || contains_any text ["printer wi fi"; "printer wifi"]
  || contains text "grandma" && contains text "wi fi note"
  || contains text "grandma" && contains text "wifi note"
  || contains_any text ["wet soccer shoes"; "blue paint"; "safest way out"]
  || starts_any text ["how do i clean "; "how do we clean "; "what did we have for dinner ";
                      "find the recipe for "; "what s on the hardware store list";
                      "what is on the hardware store list"; "what's on the hardware store list";
                      "we have a leak "; "there is a leak "; "where are "; "where is "; "where s ";
                      "where did i put "; "where did we put "; "what did we watch about ";
                      "what did i watch about "; "what movie "; "what was that movie "].

Definition is_semantic_household_memory_question (text : string) : bool :=
  if contains text "printer" && contains text "out of ink" then false else
  contains_any text ["want to paint"; "stomach ache"; "teach me magic"; "magic trick"; "need a manicure";
                     "good charity"; "learn french"; "suggest a podcast"; "motivating speech";
                     "what shoes go with"]
  || is_one_of text ["i m thirsty"; "i am thirsty"; "i'm thirsty"]
  || contains_any text ["going to yoga"; "yoga class"; "sunbathing"; "guys night"; "order thai food";
                        "have a fever"; "it s snowing"; "it's snowing"; "mia doing her homework"; "i m back";
                        "i'm back"; "bedtime story"; "romantic poem"; "hiking trail"; "extra basil";
                        "craving spicy"; "picture of a sunset"; "photo of a sunset"; "good name for a goldfish";
                        "feel anxious"; "roman empire"; "music fits this mood"; "going camping";
                        "make me a cocktail"; "plan a date night"; "washing machine is leaking";
                        "lock the bike"; "order groceries for a taco bar"; "taco bar";
                        "cold in the living room"; "i m cold"]
  || contains text "reading" && contains text "too bright"
  || contains_any text ["make my room cozy"; "did my package arrive"; "water the garden"]
  || contains text "recipe" && contains text "chickpea"
  || contains text "hallway light" && contains text "turn on"
  || contains_any text ["can t sleep"; "safe at night"]
  || contains text "spilled water" && contains text "outlet"
  || contains_any text ["waking the kids"; "room so hot"; "scared of the dark"; "laptop battery"]
  || contains text "robot vacuum" && contains text "under my bed"
  || contains_any text ["piano practice quiet"; "practicing violin"; "spaceship"; "toddler safe";
                        "toddler-safe"; "smell gas"]
  || contains text "bake cookies" && contains text "waking leo"
  || contains_any text ["robot vacuum stuck"; "package still on the porch"; "beeping sound";
                        "porch light still on"; "heard glass break"; "safest way out"]
  || contains text "bake cookies" && contains text "waking leo"
  || contains_any text ["house better for pollen"; "pollen"; "room good for a video call"; "reading with dad";
                        "work call"]
  || contains text "garage ventilated" && contains text "paint"
  || contains_any text ["calm morning for leo"; "after dinner cleanup"; "after-dinner cleanup"; "board games";
                        "basement humid"; "rain boots"; "fan on low for sleep"; "cold after bath";
                        "desk feels glarey"; "quiet drawing"; "workshop dust control"; "side path icy";
                        "dripping"; "room smells weird"; "too scared to go downstairs";
                        "laundry room not scary"; "need a haircut"; "haircut"; "what should i wear";
                        "wear to the wedding"; "want to meditate"; "teach me spanish"]
  || contains text "hungry" && contains text "spicy"
  || contains_any text ["book a hotel"; "hotel in chicago"; "change the ac filter"; "change ac filter";
                        "what should we do with the kids"; "kids today"; "toilet is clogged"; "toilet clogged";
                        "sew a button"; "need a laugh"; "listen to jazz"; "listen to some jazz"]
  || contains text "suggest" && contains text "book"
  || contains_any text ["bored of cooking"; "ripe banana"; "beach trip"; "freeze tonight"; "pack a lunch";
                        "patio cushion"; "bike ride"; "order dog food"; "what s for breakfast";
                        "what's for breakfast"; "father s day"]
  || contains text "dad" && contains text "gift"
  || contains text "need a break"
  || contains text "wine" && contains text "steak"
  || contains_any text ["order more ink"; "safe to run"]
  || contains text "sarah" && contains text "birthday last year"
  || contains_any text ["game night"; "baby is crying again"; "chicken but no ideas";
                        "who do we know that fixes sinks"; "learn about the solar system"; "keep oversleeping";
                        "when should i leave for the airport"; "buy food for the dinner party";
                        "i m really hot"; "i'm really hot"; "guests coming over"; "baby is awake"; "olive oil";
                        "build a bookshelf"; "toilet keeps running"]
  || contains text "knee" && contains text "run"
  || contains_any text ["side dish for pasta"; "pack my gym bag"; "over budget"; "text mom happy birthday";
                        "driving home in the rain"; "safe to eat"; "dark parking lot"; "movie we haven t seen";
                        "defrost the turkey"; "what s for dinner"; "what's for dinner"; "going for a run"]
  || contains_any text ["feeling cold"; "feel cold"; "i am cold"]
  || contains text "snack" && contains_any text ["lunchbox"; "lunch box"]
  || contains text "detergent" && contains_any text ["like"; "order"; "more"]
  || contains text "movie" && contains text "robot"
  || String.eqb text "i m bored"
  || contains_any text ["weird noise coming from the car"; "printer"; "what can i cook with"; "comfort movie";
                        "warm enough to go to the park"; "date night idea"; "too late to call grandma";
                        "baby is crying"]
  || String.eqb text "i m stressed"
  || contains_any text ["science fair idea"; "what can i bake"; "headache"; "read me a story";
                        "movie for tonight"; "find a movie for tonight"; "order more dog food"; "trip to the zoo"]
  || contains text "hungry" && contains text "diet"
  || contains text "washing machine is shaking"
  || String.eqb text "watch tv"
  || contains_any text ["someone is at the door"; "scary movie"; "need a drink"; "too bright"; "lonely";
                        "sink smells"; "leaving for work"; "make tacos"; "muggy"; "cut my finger";
                        "where are my keys"; "noise outside"; "order pizza"; "start the car"; "math homework";
                        "tired of this song"; "tell me a joke"; "ephemeral"; "build a fort";
                        "running late for the train"]
  || contains text "air quality" && negb (contains text "nursery")
  || contains_any text ["birthday party"; "spider"; "can t find the remote"; "can't find the remote"]
  || contains text "garage freezer" && negb (contains text "too warm").

Definition is_app_only_secret_question (text : string) : bool :=
  (contains_any text ["password"; "passcode"; "gate code"; "door code"; "lock code"; "alarm code";
                     "security code"; "spare keys"; "house keys"]
  || contains text "code" && contains_any text ["account"; "netflix"; "subscription"; "shed"]
  || contains_any text ["combination"; "combo"; "confirmation number"; "account number"; "bank login";
                        "password manager"; "secure vault"; "credentials vault"]) && negb (contains text "guest speaker") && contains_any text ["what"; "show"; "find"; "where"; "number"; "key"; "login"; "credential"; "wifi"; "wi fi"].

Definition asks_action_history (text : string) : bool :=
  if contains text "changed in the garage" then false else
  contains_any text ["what did you do"; "what have you done"; "what changed"; "recent actions";
                     "recent home actions"; "action history"; "pending confirmations"; "pending confirmation"].

Definition asks_home_assistant_status (text : string) : bool :=
  contains_any text ["home assistant status"; "home assistant connected"; "home assistant connection";
                     "is home assistant connected"; "ha status"; "ha connected"].

Definition asks_system_status (text : string) : bool :=
  contains text "memory pressure"
  || is_one_of text ["system status"; "geniepod status"; "genie status"; "status of geniepod";
                     "status of genie"; "uptime"; "load average"; "governor status"].

Definition looks_like_status_query (text : string) : bool :=
  contains text " status"
  || ends_with text " status"
  || starts_any text ["what "; "which "; "is "; "are "; "any "; "check "; "tell me "].

Definition asks_home_undo (text : string) : bool :=
  if is_one_of text ["undo"; "undo that"; "undo it"; "revert that"; "revert it"; "put it back"; "put that back";
                     "reverse that"; "reverse it"] then true else
  let undo_verb := starts_any text ["undo "; "revert "; "reverse "] in
  undo_verb && contains text "last" && contains_any text ["change"; "action"].

(** ** Rules *)

Definition priority_rules_1 (text : string) : list (bool * (string * string * option f64)) := [
  (contains_any text ["after dinner cleanup"; "after-dinner cleanup"], ("after-dinner cleanup", "activate", None));
  (contains text "rainy pickup mode", ("rainy pickup mode", "activate", None));
  (contains text "living room" && contains text "board games", ("living room board games", "activate", None));
  (contains text "block notifications" && contains text "except mom" && contains text "test practice",
   ("mia test-practice notifications", "allow_mom_only", None));
  (contains text "coffee" && contains text "when i wake up", ("coffee maker wake brew", "schedule_on_alarm", None));
  (contains text "cold after bath", ("leo post-bath comfort", "activate", None));
  (contains text "basement flood check", ("basement flood check", "run", None));
  (contains text "temporary code" && contains text "grandma",
   ("grandma temporary door code", "create_until_21", None));
  (contains_any text ["desk feels glarey"; "desk feels glary"], ("mia desk glare comfort", "activate", None));
  (contains text "quiet drawing time", ("leo quiet drawing time", "activate", None));
  (contains text "upstairs cooler" && contains text "leo" && contains text "alone",
   ("upstairs cooling except leo room", "activate", None));
  (contains text "screens" && contains text "family dinner", ("family dinner screens", "pause", None));
  (contains text "stairs bright", ("stairwell lights", "set_level", Some (f64_of_Z 90)));
  (contains text "workshop dust control", ("workshop dust control", "activate", None));
  (contains text "closet light" && contains text "when i open it", ("mia closet light automation", "create", None));
  (contains text "low power mode" && contains text "until five", ("low-power mode", "activate_until_5pm", None));
  (contains text "animal show" && contains text "not loud", ("leo animal show", "play_low_volume", None));
  (contains text "front entry lights" && contains text "until mia gets home",
   ("front entry lights until mia home", "hold", None));
  (contains text "hear dripping", ("nearby leak check", "check_and_alert", None));
  (contains text "room smells weird", ("mia room air-quality safety", "check_and_vent", None));
  (contains_any text ["school night reset"; "school-night reset"], ("school-night reset", "activate", None));
  (contains text "freezer" && contains text "above 10", ("freezer temperature alert", "create_threshold_10", None));
  (contains text "only the mirror lights", ("mia mirror lights only", "activate", None));
  (contains text "backyard lights" && contains text "grilling", ("backyard grilling lights", "activate", None));
  (contains text "too scared to go downstairs", ("downstairs reassurance path lights", "activate", None));
  (contains text "dinner warm" && contains text "jared arrives",
   ("dinner warm until jared arrives", "activate", None));
  (contains text "quiet time" && contains text "after school" && contains text "wednesday",
   ("mia wednesday quiet time", "schedule", None))].

Definition priority_rules_2 (text : string) : list (bool * (string * string * option f64)) := [
  (contains text "open windows" && contains text "outside is cleaner",
   ("cleaner outside air window mode", "activate", None));
  (contains text "holiday lighting schedule", ("holiday lighting schedule", "create", None));
  (contains_any text ["rainy day alarm"; "rainy-day alarm"], ("mia rainy-day alarm", "set_for_tomorrow", None));
  (contains text "guest breakfast mode", ("guest breakfast mode", "activate", None));
  (contains text "laundry room not scary", ("leo laundry-room reassurance", "activate", None));
  (contains text "oven" && contains text "preheats", ("oven preheat reminder", "create", None));
  (contains text "hallway camera" && contains text "sleepover guests change",
   ("hallway camera sleepover privacy", "privacy_20", None));
  (contains text "cookies are cool enough", ("cookie cooling alert", "create", None));
  (contains text "laundry leaks again" && contains text "shut off the water",
   ("automatic laundry leak shutoff", "enable", None));
  (contains text "morning checklist" && contains text "wall", ("leo morning checklist display", "show", None));
  (contains text "upstairs warmer" && contains text "kids are getting ready",
   ("kids morning upstairs warmth", "schedule", None));
  (contains text "final safety sweep", ("final safety sweep", "run", None));
  (contains text "toaster" && contains text "smoky", ("toaster smoke safety", "cut_power_and_vent", None));
  (contains_any text ["house better for pollen"; "pollen mode"], ("pollen mode", "activate", None));
  (contains text "driveway lights" && contains text "pull in",
   ("driveway arrival lights", "schedule_on_arrival", None));
  (contains text "room good for a video call", ("mia video-call room setup", "activate", None));
  (contains text "dishwasher" && contains text "after 9", ("dishwasher", "schedule_after_21", None));
  (contains_any text ["allergy day setup"; "allergy-day setup"], ("allergy-day setup", "activate", None));
  (contains text "wake me with sunlight" && contains text "not sound",
   ("mia sunlight alarm", "schedule_gradual_blinds", None));
  (contains text "guests only" && contains text "wi fi" && contains text "bathroom",
   ("limited guest info display", "show_guest_card", None));
  (contains text "reading with dad", ("leo reading-with-dad scene", "activate", None));
  (contains text "work call" && contains text "quiet", ("work-call quiet mode", "activate", None));
  (contains text "garage ventilated" && contains text "paint", ("garage paint ventilation", "activate", None));
  (contains text "sleepover lights", ("mia sleepover lights", "apply_scene", None));
  (contains text "lights flash" && contains text "cookies are done",
   ("leo cookie timer light alert", "schedule_pulse", None));
  (contains text "calm morning for leo", ("leo calm morning", "activate", None));
  (contains text "homework mode" && contains text "both kids", ("kids homework mode", "activate", None))].

Definition priority_rules_3 (text : string) : list (bool * (string * string * option f64)) := [
  (contains text "put my schedule" && contains text "bathroom mirror",
   ("mia bathroom mirror agenda", "show_agenda", None));
  (contains text "too hot in bed", ("leo bed cooling comfort", "cool_down", Some (f64_of_Z 2)));
  (contains text "water under the sink", ("kitchen sink leak safety", "shut_water_zone", None));
  (contains text "standby power" && contains text "office", ("office standby power", "turn_off", None));
  (contains text "block youtube" && contains text "finish math",
   ("mia youtube access", "block_until_math_done", None));
  (contains text "contractor" && contains text "garage" && contains text " at 10",
   ("contractor garage access", "allow_10_to_10_20", None));
  (contains text "sleepover guest mode", ("sleepover guest mode", "activate", None));
  (contains text "turn on stars" && contains text "closet dark", ("leo stars except closet", "activate", None));
  (contains text "open my blinds slowly" && contains text "school morning",
   ("mia school-morning gradual blinds", "schedule", None));
  (contains text "shower warm" && contains text "not steamy", ("mia warm-not-steamy shower", "activate", None));
  (contains text "security on" && contains text "don t wake the kids", ("quiet armed security", "activate", None));
  (contains text "heard glass break", ("downstairs glass-break safety", "verify_and_alert", None));
  (contains text "call mom" && contains text "kitchen screen",
   ("kitchen screen call mom", "start_video_call", None));
  (contains text "babysitter" && contains text "prep the house", ("babysitter mode", "activate", None));
  (contains text "warm up" && contains text "sarah" && contains text "bathroom",
   ("sarah bathroom comfort", "warm_for_minutes", Some (f64_of_Z 25)));
  (contains text "focus mode" && contains text "until five", ("personal focus mode", "activate_until_5pm", None));
  (contains text "porch" && contains text "waking the kids", ("quiet porch alerts tonight", "activate", None));
  (contains_any text ["start storm prep"; "run storm prep"], ("storm prep", "activate", None));
  (contains text "scared of the dark", ("night reassurance scene", "activate", None));
  (contains text "open blinds" && contains text "morning sun" && contains text "mia",
   ("morning sun blinds except mia room", "open", None));
  (contains_any text ["piano practice quiet"; "quiet for the rest of the house"],
   ("piano practice quiet mode", "activate", None));
  (contains text "smell gas", ("gas safety emergency", "activate", None));
  (contains text "start bedtime" && contains text "mia" && contains text "20 minutes",
   ("bedtime with mia reading override", "activate", None));
  (contains text "vacation mode" && contains text "next week",
   ("scheduled vacation mode next week", "schedule", None));
  (contains text "robot vacuum" && contains text "under my bed", ("leo under-bed vacuum zone", "clean", None));
  (contains text "turn off notifications" && contains text "practicing violin",
   ("mia violin practice notifications", "mute_for_practice", None));
  (contains text "kitchen" && contains_any text ["toddler safe"; "toddler-safe"],
   ("toddler-safe kitchen", "activate", None))].

Definition priority_rules_4 (text : string) : list (bool * (string * string * option f64)) := [
  (contains text "lock everything" && contains text "except" && contains text "back gate",
   ("all locks except back gate", "lock_except", None));
  (contains text "spaceship" && contains text "hallway", ("spaceship hallway", "activate", None));
  (contains text "everything downstairs" && contains text "except" && contains text "kitchen lights",
   ("downstairs except kitchen lights", "turn_off_except", None));
  (is_one_of text ["run movie night"; "start movie night"], ("movie night", "activate", None));
  (contains text "too bright" && contains text "reading", ("reading light comfort", "activate", None));
  (contains_any text ["make my room cozy"; "make the room cozy"], ("personal cozy room scene", "activate", None));
  (contains_any text ["smoke alarm real"; "smoke alert"], ("smoke emergency protocol", "activate", None));
  (contains text "away mode" && contains text "house", ("away mode", "activate", None));
  (contains text "study playlist" && contains text "desk lamp", ("personal study scene", "activate", None));
  (contains text "too loud", ("nearby media volume", "set_volume", Some (f64_of_Z 25)));
  (contains text "night light" && contains text "blue", ("personal night-light", "set_color_blue", None));
  (contains text "pause internet" && contains text "kids" && contains text "until dinner",
   ("kids internet", "pause_until_dinner", None));
  (contains text "safe at night" && contains text "hallway", ("night hallway safety", "activate", None));
  (contains text "dinner prep mode", ("dinner prep mode", "activate", None));
  (contains text "spilled water" && contains text "outlet", ("outlet spill safety protocol", "activate", None));
  (is_one_of text ["warm up the car"; "warm up car"], ("connected car climate", "remote_start", Some (f64_of_Z 72)));
  (is_one_of text ["send this address to my car"; "send address to my car"],
   ("car navigation", "send_destination", None));
  (contains text "fallen" && contains text "can t get up", ("fall emergency alert", "activate", None));
  (contains_any text ["prep the house for vacation"; "prepare the house for vacation"],
   ("vacation mode", "activate", None));
  (contains_any text ["smoky in here"; "smoke in here"], ("smoke ventilation protocol", "activate", None));
  (contains text "working late", ("working late family update", "activate", None));
  (contains_any text ["take a nap"; "going to nap"], ("nap mode", "activate", None));
  (contains text "dark parking lot", ("parking lot safety protocol", "activate", None));
  (contains text "driving home" && contains text "rain", ("arrival rain protocol", "activate", None));
  (contains text "stuffy", ("ventilation comfort scene", "activate", None));
  (contains_any text ["working from home"; "work from home"], ("work from home scene", "activate", None));
  (contains text "locked out", ("front door", "unlock", None))].

Definition priority_home_control_request (text : string) : option (string * string * option f64) :=
  first_rule (priority_rules_1 text ++ priority_rules_2 text ++ priority_rules_3 text ++ priority_rules_4 text).

Definition home_control_rules (text : string) : list (bool * (string * string * option f64)) := [
  (is_one_of text ["turn off the tv"; "turn off tv"], ("tv", "turn_off", None));
  (is_one_of text ["turn on the pool cleaner"; "turn on pool cleaner"; "start the pool cleaner"],
   ("pool cleaner", "start", None));
  (is_one_of text ["set the thermostat to eco mode"; "set thermostat to eco mode"],
   ("thermostat", "set_preset", None));
  (is_one_of text ["turn on the alarm"; "turn on alarm"; "arm the alarm"], ("security alarm", "arm", None));
  (is_one_of text ["start the robot mower"; "start robot mower"], ("robot mower", "start", None));
  (is_one_of text ["test the smoke detectors"; "test smoke detectors"], ("smoke detectors", "test", None));
  (is_one_of text ["turn off upstairs lights"; "turn off the upstairs lights"],
   ("upstairs lights", "turn_off", None));
  (is_one_of text ["turn off holiday lights"; "turn off the holiday lights"],
   ("outdoor holiday lights", "turn_off", None));
  (is_one_of text ["call my phone"; "ring my phone"; "find my phone"], ("phone finder", "activate", None));
  (starts_any text ["set up the slow cooker"; "set up slow cooker"], ("slow cooker chili", "activate", None));
  (starts_any text ["stop the sprinklers"; "pause the sprinklers"], ("sprinklers", "pause", None));
  (is_one_of text ["turn on the porch light when i arrive"; "turn on porch light when i arrive"],
   ("porch light", "schedule_on_arrival", None));
  (is_one_of text ["start the dishwasher"; "start dishwasher"], ("dishwasher normal cycle", "activate", None))].

Definition reminder_rules (text : string) : list (bool * (string * string)) := [
  (contains text "emma" && contains text "come over" && contains text "after school",
   ("permission_requests", "Permission request for Mia: Emma can come over after school; parent approval requested"));
  (contains text "remember that" && contains text "red hoodie" && contains text "dad s car",
   ("item_location_events", "Mia red hoodie location: red hoodie is in Dad's car"));
  (contains text "save this" && contains text "rainy day playlist",
   ("user_media_aliases", "Mia rainy-day playlist: save current media session as rainy-day playlist"));
  (contains text "remember" && contains text "fan on low" && contains text "sleep",
   ("preference", "Mia sleep comfort preference: fan on low for sleep"));
  (contains text "tell dad" && contains text "puzzle is done",
   ("reminders", "Leo puzzle completion reminder: tell Dad when Leo says the puzzle is done"));
  (contains text "remind me" && contains text "water my plant" && contains text "after school",
   ("reminder", "Reminder for Mia after school: water her plant"));
  (contains text "save this temperature" && contains text "rehearsal comfort",
   ("activity_preference_embeddings", "Mia rehearsal comfort preference: save current temperature, fan speed, and humidity"));
  (contains text "add batteries and poster board" && contains text "project list",
   ("project_list_items", "Mia project list supplies: batteries and poster board"));
  (contains text "make my alarm skip holidays",
   ("alarms", "Mia recurring alarm update: skip school holidays when school is closed"));
  (contains text "save this lighting" && contains text "art time",
   ("scene_embeddings", "Art time lighting scene: save current room lights, desk lamp, and blinds for Mia's art time"));
  (contains text "make tomorrow into a checklist",
   ("daily_checklists", "Tomorrow checklist for Mia: build ordered checklist from calendar, school tasks, and reminders"));
  (contains text "remember that" && contains text "green night" && contains text "light",
   ("preference", "Leo likes the green night-light better."));
  (contains text "remind leo" && contains text "soccer cleats" && contains text "tomorrow morning",
   ("reminder", "Reminder for Leo tomorrow morning: bring soccer cleats"))].

Definition late_reminder_rules (text : string) : list (bool * (string * string)) := [
  (contains text "tell me when dad gets home",
   ("presence_alert", "Presence alert for Leo: tell him when Dad gets home"));
  (contains text "save the bathroom" && contains text " at 7" && contains text "hair wash",
   ("reservation", "Bathroom reservation for Mia at 7:00 PM for hair wash"))].

Definition status_rules (text : string) : list (bool * string) := [
  (contains text "lights are still on upstairs"
   || contains text "which lights" && contains text "upstairs", "upstairs lights on");
  (contains_any text ["needs charging tonight"; "need charging tonight"], "family device charging tonight");
  (contains text "basement flood check", "basement flood check");
  (contains text "next filter change", "next filter change");
  (contains text "front door locked after" && contains text "leo", "front door lock after leo arrival");
  (contains text "noisy appliance", "noisy appliance");
  (contains text "tooth fairy box", "leo tooth fairy box");
  (contains text "changed in the garage today", "garage changes today");
  (contains text "security alarm chirp", "security alarm chirp");
  (contains_any text ["who s in the backyard"; "who's in the backyard"], "backyard recognized presence");
  (contains text "bedtime chart", "leo bedtime chart remaining");
  (contains text "upstairs window before the rain", "upstairs window before rain");
  (contains text "devices" && contains_any text ["guest wi fi"; "guest wi-fi"; "guest wifi"], "guest wifi devices");
  (contains text "side path icy", "side path ice risk");
  (contains text "office internet slow", "office internet slow reason");
  (contains text "chores did leo skip", "leo skipped chores this week");
  (contains_any text ["mia s purifier on high"; "mia's purifier on high"], "mia purifier high reason");
  (contains text "outdoor cameras need cleaning", "outdoor camera cleaning report");
  (contains text "garage close after jared left", "garage close after jared left");
  (contains text "feed the cat too much", "cat feeding amount check");
  (contains text "oldest thing in the fridge", "oldest fridge food");
  (contains text "lamp flickering", "mia lamp flicker reason");
  (contains text "sensor" && contains text "bypass", "security sensor bypass report");
  (contains text "room smells weird", "mia room air-quality check");
  (contains text "dad see my message", "leo dad message read status");
  (contains text "backpacks are by the door", "entryway backpacks");
  (contains text "privacy report" && contains text "cameras", "camera privacy report");
  (contains text "automation fired the most", "top automation today");
  (contains text "fridge door" && contains text "close", "fridge door");
  (contains_any text ["sensors need batteries"; "need batteries soon"], "sensor battery report");
  (contains text "plants need attention", "plant attention report");
  (contains text "bathroom free", "upstairs bathroom availability");
  (contains_any text ["end of day house summary"; "end-of-day house summary"], "end-of-day house summary");
  (contains text "compare this week" && contains text "electricity", "weekly electricity comparison");
  (contains text "back burner" && contains text "off", "back burner");
  (contains_any text ["which room seems drafty"; "drafty room"], "drafty room report");
  (contains_any text ["devices are offline"; "which devices are offline"], "offline devices");
  (contains_any text ["using the most electricity"; "most electricity"], "top electricity usage");
  (contains text "freezer door" && contains text "left open", "freezer door");
  (contains_any text ["all the windows closed"; "windows closed"], "open windows");
  (contains text "sprinkler" && contains text "run this morning", "sprinkler run history");
  (contains text "morning readiness report", "morning readiness report");
  (contains_any text ["self cleaning oven"; "self clean oven"], "self-cleaning oven")].

Definition appliance_rules (text : string) : list (bool * string) := [
  (contains_any text ["doors are unlocked"; "what doors are unlocked"], "unlocked doors");
  (contains text "cameras with motion"
   || contains text "camera" && contains text "motion", "cameras with recent motion");
  (contains text "freezer" && contains text "too warm" && contains text "garage", "garage freezer");
  (contains text "freezer" && contains text "too warm", "freezer");
  (contains text "speed limit", "speed limit");
  (contains text "water pressure", "water pressure");
  (contains text "sump pump", "sump pump");
  (contains text "sous vide", "sous vide");
  (contains text "air quality" && contains text "nursery", "nursery air quality");
  (starts_with text "did " && contains text "lock" && contains text "car", "car locks");
  (starts_with text "did " && contains_any text ["package arrive"; "package arrived"], "package");
  (contains text "printer" && contains text "ink", "printer ink");
  (contains text "baby monitor", "baby monitor");
  (contains text "baby" && contains text "breathing", "baby breathing monitor");
  (starts_with text "did " && names_word text ["mail"; "mailbox"; "mailboxes"; "mailman"; "mailmen"], "mailbox");
  (contains text "stove" && starts_with text "did i leave ", "stove")].

Definition late_status_rules (text : string) : list (bool * string) := [
  (contains text "water" && contains text "hot", "water heater");
  (contains text "solar" && contains_any text ["generate"; "generated"], "solar power today")].
