(* ===== verification/QuickTimer.v ===== *)
(** * Spoken durations and timers ([tools/quick.rs])

    How long a timer runs and what it is called, read off the words of an
    utterance.  Amounts are 64-bit and saturate. *)

From S2P Require Import Prelude RustStr RustNum NumberWords CalcInput.
From Stdlib Require Import Ascii.
Local Open Scope string_scope.
Local Open Scope list_scope.
Local Open Scope rust_scope.

Definition sat_mul (a b : N) : N := u64_saturate (a * b).
Definition sat_add (a b : N) : N := u64_saturate (a + b).

(** [tokens[a..b]] where it is in bounds. *)
Definition slice {A} (a b : nat) (l : list A) : list A := take (b - a) (drop a l).

Definition token_is (tokens : list string) (i : nat) (l : list string) : bool :=
  match tokens !! i with Some t => is_one_of t l | None => false end.

(** ** Durations *)

Definition duration_unit_seconds (unit : option string) : option N :=
  u ← unit;
  if is_one_of u ["second"; "seconds"; "sec"; "secs"] then Some 1%N
  else if is_one_of u ["minute"; "minutes"; "min"; "mins"] then Some 60%N
  else if is_one_of u ["hour"; "hours"; "hr"; "hrs"] then Some 3600%N
  else None.

Definition fraction (token : string) : option (N * N) :=
  if String.eqb token "half" then Some (1, 2)%N
  else if String.eqb token "quarter" then Some (1, 4)%N
  else None.

(** A number in front of "and", read off the words before it. *)
Definition whole_before (tokens : list string) (and_index : nat) : option N :=
  let tokens := take and_index tokens in
  find_map (fun start =>
    '(amount, consumed) ← parse_spoken_number tokens start;
    if Nat.eqb consumed and_index then Some amount else None) (seq 0 and_index).

Definition skip (tokens : list string) (words : list string) (i : nat) : nat :=
  if token_is tokens i words then S i else i.

Definition fraction_at (tokens : list string) (i : nat) : option (N * nat) :=
  '(numerator, denominator) ← tokens !! i ≫= fraction;
  let unit_index := skip tokens ["a"; "an"] (skip tokens ["of"] (S i)) in
  unit_seconds ← duration_unit_seconds (tokens !! unit_index);
  let lead := if Nat.ltb 0 i && token_is tokens (i - 1) ["a"; "an"] then i - 1 else i in
  let whole_seconds :=
    if Nat.ltb 0 lead && token_is tokens (lead - 1) ["and"] then
      match whole_before tokens (lead - 1) with Some amount => sat_mul amount unit_seconds | None => 0%N end
    else 0%N in
  Some (sat_add whole_seconds (unit_seconds * numerator / denominator), unit_index).
Definition fractional_duration (tokens : list string) : option (N * nat) :=
  find_map (fraction_at tokens) (seq 0 (length tokens)).

Definition couple_duration (tokens : list string) : option (N * nat) :=
  i ← position (String.eqb "couple") tokens;
  let unit_index := skip tokens ["of"] (S i) in
  multiplier ← duration_unit_seconds (tokens !! unit_index);
  Some (sat_mul 2 multiplier, unit_index).

Definition dozen_duration (tokens : list string) : option (N * nat) :=
  i ← position (String.eqb "dozen") tokens;
  if existsb (fun t => is_one_of t ["half"; "quarter"]) (take 2 (reverse (take i tokens))) then None
  else
    let count :=
      match i with
      | 0 => 1%N
      | S j => match tokens !! j ≫= (fun t => parse_spoken_number [t] 0) with Some (v, _) => v | None => 1%N end
      end in
    let unit_index := skip tokens ["of"] (S i) in
    multiplier ← duration_unit_seconds (tokens !! unit_index);
    Some (sat_mul (sat_mul count 12) multiplier, unit_index).

(** One span of a duration: a number and a unit behind it. *)
Definition span_at (tokens : list string) (start : nat) : option (N * nat) :=
  '(amount, unit_index) ← parse_spoken_number tokens start;
  multiplier ← duration_unit_seconds (tokens !! unit_index);
  Some (sat_mul amount multiplier, unit_index).

(** The spans that follow one another; each takes two words at least. *)
Fixpoint more_spans (fuel : nat) (tokens : list string) (total : N) (last_unit_index : nat) : N * nat :=
  match fuel with
  | 0 => (total, last_unit_index)
  | S fuel =>
      match span_at tokens (skip tokens ["and"] (S last_unit_index)) with
      | Some (seconds, unit_index) => more_spans fuel tokens (sat_add total seconds) unit_index
      | None => (total, last_unit_index)
      end
  end.

Definition parse_duration (tokens : list string) : option (N * nat) :=
  '(total, unit_index) ← find_map (span_at tokens) (seq 0 (length tokens));
  Some (more_spans (length tokens) tokens total unit_index).

Definition extend_duration_with_trailing_spans (tokens : list string) (total : N) (last_unit_index : nat)
    : N * nat :=
  let '(total, last_unit_index) := more_spans (length tokens) tokens total last_unit_index in
  let tail := skip tokens ["a"; "an"] (skip tokens ["and"] (S last_unit_index)) in
  match tokens !! tail ≫= fraction, duration_unit_seconds (tokens !! last_unit_index) with
  | Some (_, divisor), Some unit_seconds => (sat_add total (unit_seconds / divisor), tail)
  | _, _ => (total, last_unit_index)
  end.

(** ** Labels *)

Definition label_after_duration (tokens : list string) (unit_end_index : nat) : option string :=
  if Nat.ltb (length tokens) (S unit_end_index) then None
  else
    let after_unit := drop (S unit_end_index) tokens in
    to_index ← position (String.eqb "to") after_unit;
    if existsb (String.eqb "for") (take to_index after_unit) then None
    else
      let label_tokens := drop (S to_index) after_unit in
      if bool_decide (label_tokens = []) then None else Some (join " " label_tokens).

Definition label_before_duration (tokens : list string) (unit_end_index : nat) : option string :=
  to_index ← position (String.eqb "to") tokens;
  let stop := Nat.min unit_end_index (length tokens) in
  connective_index ← List.find (fun i => token_is tokens i ["in"; "after"])
                       (reverse (seq (S to_index) (stop - S to_index)));
  let label_tokens := slice (S to_index) connective_index tokens in
  if bool_decide (label_tokens = []) then None else Some (join " " label_tokens).

Definition reminder_label (tokens : list string) (unit_end_index : nat) (reminder_style : bool) : option string :=
  match label_after_duration tokens unit_end_index with
  | Some label => Some label
  | None => if reminder_style then label_before_duration tokens unit_end_index else None
  end.

Definition is_time_unit (token : string) : bool :=
  is_one_of token ["second"; "seconds"; "sec"; "secs"; "minute"; "minutes"; "min"; "mins"; "hour"; "hours"; "hr"; "hrs"].

Definition strip_trailing_duration_prefix (tokens : list string) : list string :=
  let n := length tokens in
  if Nat.ltb n 2 || negb (match last tokens with Some t => is_time_unit t | None => false end) then tokens
  else if match tokens !! (n - 2) ≫= parse_u64 with Some _ => true | None => false end then take (n - 2) tokens
  else
    match find_map (fun start =>
            '(_, unit_index) ← parse_spoken_number tokens start;
            if Nat.eqb unit_index (n - 1) then Some (take start tokens) else None)
            (reverse (seq 0 (n - 1))) with
    | Some kept => kept
    | None => tokens
    end.

Definition clean_timer_label (tokens : list string) : option string :=
  let label := join " " tokens in
  let label := trim (default label (find_map (strip_prefix label) ["the "; "a "; "an "])) in
  if is_empty label then None else Some label.

Definition has_duration (tokens : list string) : bool :=
  match parse_duration tokens with Some _ => true | None => false end.
Definition a_label (label_tokens : list string) : bool :=
  negb (bool_decide (label_tokens = [])) && negb (has_duration label_tokens).

Definition timer_for_label_after (tokens : list string) (timer_index : nat) : option string :=
  match drop (S timer_index) tokens with
  | [] => None
  | first :: rest =>
      if negb (String.eqb first "for") || bool_decide (rest = []) then None
      else if has_duration rest then
        for_pos ← position (String.eqb "for") rest;
        if a_label (drop (S for_pos) rest) then clean_timer_label (drop (S for_pos) rest)
        else if a_label (take for_pos rest) then clean_timer_label (take for_pos rest)
        else None
      else clean_timer_label rest
  end.

Definition LABEL_STOP : list string :=
  ["set"; "start"; "create"; "make"; "a"; "an"; "the"; "my"; "our"; "your"; "new"].

(** The words in front of "timer", back to the first that starts the request. *)
Definition label_parts (before_timer : list string) : list string :=
  reverse (take_while (fun t => negb (is_one_of t LABEL_STOP)) (reverse before_timer)).

Definition extract_named_timer_label (tokens : list string) (unit_end_index : nat) : option string :=
  timer_index ← position (String.eqb "timer") tokens;
  if Nat.eqb timer_index 0 then None
  else
    match timer_for_label_after tokens timer_index with
    | Some label => Some label
    | None =>
        if Nat.ltb unit_end_index timer_index && Nat.eqb (S unit_end_index) timer_index then None
        else
          let parts := label_parts (strip_trailing_duration_prefix (take timer_index tokens)) in
          if bool_decide (parts = []) then None else Some (join " " parts)
    end.

(** ** Timers *)

Definition timer_label (text : string) (tokens : list string) (unit_end_index : nat) (reminder_style : bool) : string :=
  default (if starts_with text "remind " then "reminder" else "timer")
    (opt_filter (fun label => negb (is_empty label) && negb (String.eqb label "please"))
      ((fun label => trim_end (trim_end_str label " please")) <$>
        (opt_filter (fun label => negb (is_empty label)) (reminder_label tokens unit_end_index reminder_style)
         <|> extract_named_timer_label tokens unit_end_index))).

Definition timer_request (text : string) : option (N * string) :=
  if negb (contains text "timer" || starts_any text ["remind me "; "remind us "]) then None
  else
    let reminder_style := starts_any text ["remind me "; "remind us "] in
    let tokens := split_whitespace text in
    '(seconds, unit_end_index) ← (fractional_duration tokens <|> couple_duration tokens
                                  <|> dozen_duration tokens <|> parse_duration tokens);
    let '(seconds, unit_end_index) := extend_duration_with_trailing_spans tokens seconds unit_end_index in
    if (seconds =? 0)%N then None
    else Some (seconds, timer_label text tokens unit_end_index reminder_style).

(** ** What is said is what is timed *)

Lemma sat_add_assoc a b c : sat_add (sat_add a b) c = sat_add a (b + c).
Proof. unfold sat_add, u64_saturate. lia. Qed.

(** A word as it stands between two spaces. *)
Definition said_word (w : string) : bool :=
  is_ascii w && sforall (fun a => negb (is_whitespace (char_of a))) w && negb (is_empty w).

Lemma split_said l : Forall (fun w => said_word w = true) l -> split_whitespace (join " " l) = l.
Proof.
  induction l as [|w [|v l] IH]; intros H; [done| |]; apply Forall_cons in H as [Hw Hl];
    unfold said_word in Hw; apply andb_true_iff in Hw as [[Ha Hn]%andb_true_iff He];
    assert (w <> "") as Hne by (by intros ->).
  - cbn [join]. unfold split_whitespace. rewrite <- (app_nil_r (chars w)), words_of_word.
    + rewrite sapp_nil_l, concat_chars. by destruct w.
    + rewrite chars_ascii by done. apply Forall_fmap. apply sforall_bytes in Hn.
      eapply Forall_impl; [exact Hn|]. intros a H. by apply negb_true_iff in H.
  - change (join " " (w :: v :: l)) with (w +:+ String " "%char (join " " (v :: l))).
    rewrite split_whitespace_word; [by rewrite IH|done|done|done|done|done|].
    apply Forall_cons in Hl as [Hv _]. unfold said_word in Hv. apply andb_true_iff in Hv as [[Hb _]%andb_true_iff Hv].
    destruct v as [|b v]; [done|]. unfold is_ascii in Hb. cbn [sforall] in Hb. apply andb_true_iff in Hb as [Hb _].
    destruct l; cbn [join]; rewrite ?sapp_cons; cbn [starts_char]; by rewrite byte_ascii_not_cont.
Qed.

(** The units of time, each with its seconds. *)
Definition unit_seconds : list (string * N) :=
  [("second", 1); ("seconds", 1); ("sec", 1); ("secs", 1); ("minute", 60); ("minutes", 60); ("min", 60); ("mins", 60);
   ("hour", 3600); ("hours", 3600); ("hr", 3600); ("hrs", 3600)]%N.

(** A span said: the words of its number and its unit. *)
Record said_span := { said_and : bool; said_count : nat; said_unit : string * N }.
Definition span_words (s : said_span) : list string := spell (said_and s) (said_count s) ++ [(said_unit s).1].
Definition span_seconds (s : said_span) : N := N.of_nat (said_count s) * (said_unit s).2.
Definition span_ok (s : said_span) : Prop := said_count s < 1000 * 1000 /\ said_unit s ∈ unit_seconds.

(** A duration said: one span, and others behind it with or without an "and". *)
Definition more_words (more : list (bool * said_span)) : list string :=
  concat ((fun m => joined m.1 (span_words m.2)) <$> more).
Definition more_seconds (more : list (bool * said_span)) : N :=
  foldr N.add 0%N ((fun m => span_seconds m.2) <$> more).

Lemma unit_word u : u ∈ unit_seconds ->
  duration_unit_seconds (Some u.1) = Some u.2 /\ is_cardinal u.1 = false /\ u.1 <> "and".
Proof.
  assert (Forall (fun u => duration_unit_seconds (Some u.1) = Some u.2 /\ is_cardinal u.1 = false /\ u.1 <> "and")
            unit_seconds) as H by (repeat constructor; done).
  rewrite Forall_forall in H. apply H.
Qed.

Lemma span_at_said pre s rest :
  span_ok s ->
  span_at (pre ++ span_words s ++ rest) (length pre) =
    Some (u64_saturate (span_seconds s), length pre + length (span_words s) - 1).
Proof.
  intros [Hn Hu]. destruct (unit_word _ Hu) as (Hd & Hc & Ha). unfold span_at, span_words.
  rewrite <- (assoc_L (++)).
  rewrite (spoken_number_roundtrip (said_and s) (said_count s) pre ([(said_unit s).1] ++ rest)) by
    (done || (cbn; destruct rest; [done|split; [done|by intros [? _]]])).
  cbn [mbind option_bind]. rewrite (assoc_L (++)), lookup_app_r by (rewrite length_app; lia).
  rewrite length_app, Nat.sub_diag. cbn [app lookup list_lookup]. rewrite Hd. cbn [mbind option_bind].
  rewrite length_app. cbn [length]. unfold sat_mul, span_seconds. do 2 f_equal. lia.
Qed.

(** No span starts at a word that is no number. *)
Lemma span_at_other tokens i :
  match tokens !! i with Some t => parse_u64 t = None /\ is_cardinal t = false | None => True end ->
  span_at tokens i = None.
Proof.
  intros H. unfold span_at, parse_spoken_number. destruct (tokens !! i) as [t|] eqn:Et; cbn.
  - destruct H as [-> Hc]. rewrite (drop_S tokens t i Et). cbn [spoken_loop]. cbn [andb].
    unfold is_cardinal in Hc. by destruct (cardinal_word t).
  - rewrite drop_ge by by apply lookup_ge_None. done.
Qed.

(** The word after the last span. *)
Definition ends_spans (rest : list string) : Prop :=
  match rest with
  | [] => True
  | t :: _ => parse_u64 t = None /\ is_cardinal t = false /\ t <> "and"
  end.

Lemma skip_and tokens i : skip tokens ["and"] i = if bool_decide (tokens !! i = Some "and") then S i else i.
Proof.
  unfold skip, token_is. destruct (tokens !! i) as [t|]; [|by rewrite bool_decide_false].
  unfold is_one_of. cbn [existsb]. rewrite orb_false_r. destruct (String.eqb_spec t "and") as [->|Hne].
  - by rewrite bool_decide_true.
  - rewrite bool_decide_false by (by intros [= ->]). done.
Qed.

Lemma ends_spans_stop pre rest :
  ends_spans rest -> pre <> [] -> span_at (pre ++ rest) (skip (pre ++ rest) ["and"] (length pre)) = None.
Proof.
  intros Hr _. assert ((pre ++ rest) !! length pre = head rest) as Hl.
  { rewrite lookup_app_r, Nat.sub_diag by lia. by destruct rest. }
  rewrite skip_and, Hl. destruct rest as [|t rest]; cbn [head].
  - rewrite bool_decide_false by done. apply span_at_other. by rewrite Hl.
  - destruct Hr as (H1 & H2 & H3). rewrite bool_decide_false by (by intros [= ->]).
    apply span_at_other. by rewrite Hl.
Qed.

Lemma more_spans_said fuel pre more rest total :
  pre <> [] -> length more < fuel -> Forall (fun m => span_ok m.2) more -> ends_spans rest ->
  more_spans fuel (pre ++ more_words more ++ rest) total (length pre - 1) =
  (fold_left sat_add ((fun m => u64_saturate (span_seconds m.2)) <$> more) total,
   length pre + length (more_words more) - 1).
Proof.
  revert fuel pre total. induction more as [|[c s] more IH]; intros fuel pre total Hpre Hf Hm Hr;
    (destruct fuel as [|fuel]; [cbn in Hf; lia|]).
  - cbn [more_words fmap list_fmap concat app more_spans fold_left length].
    assert (S (length pre - 1) = length pre) as -> by (destruct pre; [done|cbn; lia]).
    rewrite ends_spans_stop by done. by rewrite Nat.add_0_r.
  - apply Forall_cons in Hm as [Hs Hm]. cbn [snd] in Hs. cbn [more_spans].
    assert (S (length pre - 1) = length pre) as -> by (destruct pre; [done|cbn; lia]).
    change (more_words ((c, s) :: more)) with (joined c (span_words s) ++ more_words more).
    assert (exists link, joined c (span_words s) = link ++ span_words s /\
      skip (pre ++ (joined c (span_words s) ++ more_words more) ++ rest) ["and"] (length pre) =
        length (pre ++ link)) as (link & Hj & Hskip).
    { rewrite skip_and. rewrite lookup_app_r, Nat.sub_diag by lia. destruct c; cbn [joined].
      - exists ["and"]. split; [done|]. cbn [app lookup list_lookup]. rewrite bool_decide_true by done.
        rewrite length_app. cbn [length]. lia.
      - exists []. split; [done|]. rewrite app_nil_r.
        destruct (spelled_loop (said_and s) (said_count s) [] 0 (proj1 Hs)) as (Hne & Hc & _).
        unfold span_words. destruct (spell _ _) as [|w ws]; [done|]. cbn in Hc |- *.
        rewrite bool_decide_false; [done|]. intros [= ->]. done. }
    rewrite Hskip, Hj. rewrite <- !(assoc_L (++)). rewrite (assoc_L (++) pre link).
    rewrite span_at_said by done.
    specialize (IH fuel ((pre ++ link) ++ span_words s) (sat_add total (u64_saturate (span_seconds s)))).
    rewrite length_app in IH. rewrite <- (assoc_L (++) (pre ++ link) (span_words s)) in IH. rewrite IH; [|by destruct pre|cbn in Hf; lia|done|done].
    cbn [fmap list_fmap fold_left snd]. f_equal. rewrite !length_app. lia.
Qed.

Lemma fold_sat more total :
  fold_left sat_add ((fun m : bool * said_span => u64_saturate (span_seconds m.2)) <$> more) (u64_saturate total) =
  u64_saturate (total + more_seconds more).
Proof.
  revert total. induction more as [|m more IH]; intros total; cbn [fmap list_fmap fold_left].
  - unfold more_seconds. cbn. by rewrite N.add_0_r.
  - assert (sat_add (u64_saturate total) (u64_saturate (span_seconds m.2)) =
      u64_saturate (total + span_seconds m.2)) as -> by (unfold sat_add, u64_saturate; set (M := u64_max); lia).
    rewrite IH. unfold more_seconds. cbn [fmap list_fmap foldr]. by rewrite N.add_assoc.
Qed.

(** ** The loops end *)

Lemma spoken_loop_index l total group matched index total' group' matched' index' :
  spoken_loop l total group matched index = (total', group', matched', index') ->
  index <= index' /\ (matched' = true -> matched = true \/ index < index').
Proof.
  revert total group matched index. induction l as [|t l IH]; intros total group matched index; cbn [spoken_loop].
  { intros [= <- <- <- <-]. split; [done|by left]. }
  destruct (matched && _ && _).
  { intros [Hi Hm]%IH. split; [lia|]. intros [|]%Hm; [by left|right; lia]. }
  destruct (cardinal_word t) as [[v| |]|]; try (intros [Hi _]%IH; split; [lia|right; lia]).
  intros [= <- <- <- <-]. split; [done|by left].
Qed.

Lemma parse_spoken_after tokens start v stop : parse_spoken_number tokens start = Some (v, stop) -> start < stop.
Proof.
  unfold parse_spoken_number. destruct (_ ≫= parse_u64); [intros [= _ <-]; lia|].
  destruct (spoken_loop _ _ _ _ _) as [[[total group] matched] index] eqn:E.
  apply spoken_loop_index in E as [_ Hm]. destruct matched; [|done]. intros [= _ <-]. destruct (Hm eq_refl); [done|lia].
Qed.

Lemma span_at_after tokens start v stop : span_at tokens start = Some (v, stop) -> start < stop < length tokens.
Proof.
  unfold span_at. destruct (parse_spoken_number tokens start) as [[n e]|] eqn:E; cbn; [|done].
  apply parse_spoken_after in E. destruct (duration_unit_seconds _) eqn:Ed; cbn; [|done]. intros [= _ <-].
  split; [done|]. unfold duration_unit_seconds in Ed. destruct (tokens !! e) eqn:El; [|done].
  by apply lookup_lt_Some in El.
Qed.

Lemma skip_after tokens l i : i <= skip tokens l i.
Proof. unfold skip. destruct (token_is _ _ _); lia. Qed.

(** As many passes as there are words are enough to take all spans. *)
Lemma more_spans_enough fuel k tokens total last_unit_index :
  length tokens <= last_unit_index + fuel ->
  more_spans (fuel + k) tokens total last_unit_index = more_spans fuel tokens total last_unit_index.
Proof.
  revert total last_unit_index. induction fuel as [|fuel IH]; intros total i Hi.
  - destruct k as [|k]; [done|]. cbn [Nat.add more_spans].
    destruct (span_at _ _) as [[v e]|] eqn:E; [|done]. apply span_at_after in E.
    pose proof (skip_after tokens ["and"] (S i)). lia.
  - cbn [Nat.add more_spans]. destruct (span_at _ _) as [[v e]|] eqn:E; [|done]. apply IH.
    apply span_at_after in E. pose proof (skip_after tokens ["and"] (S i)). lia.
Qed.

Definition IDIOMS : list string := ["half"; "quarter"; "couple"; "dozen"].
(** A word that is neither an idiom of durations nor broken by white space. *)
Definition plain_word (w : string) : bool := said_word w && negb (is_one_of w IDIOMS).

Lemma plain_tens k : 1 <= k < 100 -> Forall (fun w => plain_word w = true) (spell_tens k).
Proof.
  intros Hk. assert (forallb (fun k => forallb plain_word (spell_tens k)) (seq 1 99) = true) as H by by vm_compute.
  pose proof (proj1 (forallb_elem _ _) H k ltac:(apply elem_of_seq; lia)) as Hw. cbv beta in Hw.
  apply Forall_forall. intros w Hin. by apply (proj1 (forallb_elem _ _) Hw).
Qed.

Lemma plain_joined c ws :
  Forall (fun w => plain_word w = true) ws -> Forall (fun w => plain_word w = true) (joined c ws).
Proof. destruct c; [|done]. by constructor. Qed.

Lemma plain_hundreds c k : 1 <= k < 1000 -> Forall (fun w => plain_word w = true) (spell_hundreds c k).
Proof.
  intros Hk. unfold spell_hundreds. destruct (Nat.ltb_spec k 100) as [|Hge]; [apply plain_tens; lia|].
  pose proof (Nat.mod_upper_bound k 100 ltac:(lia)).
  apply Forall_app_2; [apply plain_tens; split; [apply Nat.div_le_lower_bound|apply Nat.div_lt_upper_bound]; lia|].
  apply Forall_cons_2; [done|]. destruct (Nat.eqb_spec (k mod 100) 0); [done|]. apply plain_joined, plain_tens. lia.
Qed.

Lemma plain_spell c n : n < 1000 * 1000 -> Forall (fun w => plain_word w = true) (spell c n).
Proof.
  intros Hn. unfold spell. destruct (Nat.eqb_spec n 0); [by repeat constructor|].
  destruct (Nat.ltb_spec n 1000) as [|Hge]; [apply plain_hundreds; lia|].
  pose proof (Nat.mod_upper_bound n 1000 ltac:(lia)).
  apply Forall_app_2; [apply plain_hundreds; split; [apply Nat.div_le_lower_bound|apply Nat.div_lt_upper_bound]; lia|].
  apply Forall_cons_2; [done|]. destruct (Nat.eqb_spec (n mod 1000) 0); [done|]. apply plain_joined, plain_hundreds. lia.
Qed.

Lemma plain_span s : span_ok s -> Forall (fun w => plain_word w = true) (span_words s).
Proof.
  intros [Hn Hu]. apply Forall_app_2; [by apply plain_spell|]. apply Forall_singleton.
  assert (Forall (fun u : string * N => plain_word u.1 = true) unit_seconds) as H by (repeat constructor).
  rewrite Forall_forall in H. by apply H.
Qed.

Lemma plain_more more :
  Forall (fun m => span_ok m.2) more -> Forall (fun w => plain_word w = true) (more_words more).
Proof.
  induction 1 as [|[c s] more Hs _ IH]; [done|]. cbn [more_words fmap list_fmap concat].
  apply Forall_app_2; [by apply plain_joined, plain_span|exact IH].
Qed.

Lemma no_idiom tokens : Forall (fun w => plain_word w = true) tokens ->
  fractional_duration tokens = None /\ couple_duration tokens = None /\ dozen_duration tokens = None.
Proof.
  intros H.
  assert (forall w, w ∈ tokens -> w ∉ IDIOMS) as Hi.
  { rewrite Forall_forall in H. intros w Hw Hin. apply H in Hw. unfold plain_word in Hw.
    apply andb_true_iff in Hw as [_ Hw]. apply negb_true_iff in Hw. apply eqb_elem in Hin.
    unfold is_one_of in Hw. congruence. }
  assert (forall i t, tokens !! i = Some t -> fraction t = None) as Hf.
  { intros i t Ht. apply list_elem_of_lookup_2 in Ht. apply Hi in Ht. unfold fraction, IDIOMS in *.
    destruct (String.eqb_spec t "half") as [->|]; [set_solver|].
    destruct (String.eqb_spec t "quarter") as [->|]; [set_solver|done]. }
  assert (forall x, x ∈ IDIOMS -> position (String.eqb x) tokens = None) as Hp.
  { intros x Hx. clear H Hf. induction tokens as [|t l IH]; [done|]. cbn [position].
    destruct (String.eqb_spec x t) as [->|]; [exfalso; by apply (Hi t); [left|]|].
    rewrite IH; [done|]. intros w Hw. apply Hi. by right. }
  split_and!.
  - apply find_map_None, Forall_forall. intros i _. unfold fraction_at.
    destruct (tokens !! i) as [t|] eqn:Et; cbn; [|done]. by rewrite (Hf i t Et).
  - unfold couple_duration. rewrite Hp; [done|set_solver].
  - unfold dozen_duration. rewrite Hp; [done|set_solver].
Qed.

(** The duration of a sentence that starts with words that are no numbers. *)
Lemma parse_duration_said pre s more rest :
  Forall (fun t => parse_u64 t = None /\ is_cardinal t = false) pre ->
  span_ok s -> Forall (fun m => span_ok m.2) more -> ends_spans rest ->
  parse_duration (pre ++ span_words s ++ more_words more ++ rest) =
  Some (u64_saturate (span_seconds s + more_seconds more),
        length pre + length (span_words s) + length (more_words more) - 1).
Proof.
  intros Hpre Hs Hm Hr. set (tokens := pre ++ span_words s ++ more_words more ++ rest).
  assert (span_words s <> []) as Hne by (unfold span_words; by destruct (spell _ _)).
  assert (length tokens = length pre + S (length tokens - S (length pre))) as Hlen.
  { unfold tokens. rewrite !length_app. destruct (span_words s); [done|cbn; lia]. }
  unfold parse_duration. rewrite Hlen, seq_app, find_map_app.
  - pose proof (span_at_said pre s (more_words more ++ rest) Hs) as Hsp. fold tokens in Hsp.
    cbn [seq find_map Nat.add]. rewrite Hsp. cbn [mbind option_bind]. rewrite <- Hlen. f_equal.
    pose proof (more_spans_said (length tokens) (pre ++ span_words s) more rest (u64_saturate (span_seconds s))) as H.
    rewrite length_app in H. rewrite <- (assoc_L (++) pre (span_words s)) in H. fold tokens in H. rewrite H.
    + by rewrite fold_sat.
    + by destruct pre.
    + unfold tokens. rewrite !length_app. assert (length more <= length (more_words more)).
      { clear. induction more as [|[c s] more IH]; [done|].
        change (more_words ((c, s) :: more)) with (joined c (span_words s) ++ more_words more).
        rewrite length_app. cbn [length]. assert (1 <= length (joined c (span_words s))); [|lia].
        destruct c; cbn [joined length]; [lia|]. unfold span_words. rewrite length_app. cbn [length]. lia. }
      destruct (span_words s); [done|cbn; lia].
    + done.
    + done.
  - apply Forall_forall. intros i Hi. apply elem_of_seq in Hi. apply span_at_other.
    destruct (lookup_lt_is_Some_2 pre i ltac:(lia)) as [t Ht]. unfold tokens.
    rewrite (lookup_app_l_Some _ _ _ _ Ht). by eapply Forall_lookup_1 in Hpre.
Qed.

(** ** Labels *)

Lemma said_chars w : said_word w = true ->
  chars w = char_of <$> bytes w /\ Forall (fun c => is_whitespace c = false) (chars w) /\ chars w <> [].
Proof.
  unfold said_word. intros [[Ha Hn]%andb_true_iff He]%andb_true_iff. rewrite chars_ascii by done.
  split_and!; [done| |by destruct w].
  apply Forall_fmap. apply sforall_bytes in Hn. eapply Forall_impl; [exact Hn|]. intros a H. by apply negb_true_iff in H.
Qed.

Lemma said_starts w s : said_word w = true -> starts_char (w +:+ s) = true.
Proof.
  unfold said_word. intros [[Ha _]%andb_true_iff He]%andb_true_iff. destruct w as [|b w]; [done|].
  unfold is_ascii in Ha. cbn [sforall] in Ha. apply andb_true_iff in Ha as [Ha _].
  rewrite sapp_cons. cbn [starts_char]. by rewrite byte_ascii_not_cont.
Qed.

(** The words of a text and one more word. *)
Lemma words_snoc cur cs w : said_word w = true ->
  words_of cur (cs ++ " " :: chars w) = words_of cur cs ++ [w].
Proof.
  intros Hw. destruct (said_chars w Hw) as (_ & Hn & Hne). revert cur.
  induction cs as [|c cs IH]; intros cur; cbn [app words_of].
  - change (is_whitespace " ") with true. cbv match.
    assert (words_of "" (chars w) = [w]) as Hone.
    { rewrite <- (app_nil_r (chars w)), words_of_word by done. rewrite sapp_nil_l, concat_chars.
      unfold said_word in Hw. apply andb_true_iff in Hw as [_ He]. by destruct w. }
    rewrite Hone. by destruct (is_empty cur).
  - destruct (is_whitespace c); [|apply IH]. rewrite IH. by destruct (is_empty cur).
Qed.

Lemma strip_suffix_spec s p t : strip_suffix s p = Some t -> ends_with s p = true.
Proof. unfold strip_suffix. by destruct (ends_with s p). Qed.

Lemma last_said_char l : l <> [] -> Forall (fun w => said_word w = true) l ->
  exists cs c, chars (join " " l) = cs ++ [c] /\ is_whitespace c = false.
Proof.
  intros Hl Hw. induction l as [|w [|v l] IH]; [done| |].
  - apply Forall_cons in Hw as [Hw _]. destruct (said_chars w Hw) as (_ & Hn & Hne). cbn [join].
    destruct (exists_last Hne) as (cs & c & E). exists cs, c. split; [done|]. rewrite E in Hn.
    apply Forall_app in Hn as [_ Hn]. by apply Forall_cons in Hn as [Hn _].
  - apply Forall_cons in Hw as [Hw Hv]. destruct (IH ltac:(done) Hv) as (cs & c & Hc & Hn).
    exists (chars w ++ " " :: cs), c. split; [|done]. apply Forall_cons in Hv as [Hv _].
    change (join " " (w :: v :: l)) with (w +:+ ((" " +:+ join " " (v :: l)))).
    rewrite chars_app by done. rewrite chars_app, Hc by (destruct l; cbn [join]; [rewrite <- (sapp_nil_r v)|]; by apply said_starts).
    by rewrite <- (assoc_L (++)).
Qed.

Lemma label_kept task : task <> [] -> Forall (fun w => said_word w = true) task -> last task <> Some "please" ->
  trim_end (trim_end_str (join " " task) " please") = join " " task /\ join " " task <> "please" /\ join " " task <> "".
Proof.
  intros Ht Hw Hp. pose proof (split_said _ Hw) as Hs.
  assert (strip_suffix (join " " task) " please" = None) as Hstrip.
  { unfold strip_suffix. destruct (ends_with (join " " task) " please") eqn:He; [|done]. exfalso. apply Hp.
    apply ends_with_spec in He as [y Hy]. rewrite <- Hs, Hy. unfold split_whitespace.
    rewrite chars_app by done. change (chars " please") with (" " :: chars "please").
    by rewrite words_snoc, last_snoc. }
  split_and!.
  - unfold trim_end_str. destruct (last_said_char task Ht Hw) as (cs & c & Hc & Hn).
    assert (trim_end_fuel (String.length (join " " task)) (join " " task) " please" = join " " task) as ->.
    { destruct (String.length _); cbn [trim_end_fuel]; [done|by rewrite Hstrip]. }
    unfold trim_end, trim_end_matches. rewrite Hc, reverse_snoc. cbn [drop_while].
    rewrite Hn, reverse_cons, reverse_involutive, <- Hc. apply concat_chars.
  - intros He. apply Hp. by rewrite <- Hs, He.
  - intros He. apply Ht. by rewrite <- Hs, He.
Qed.


Definition two_hours : said_span := {| said_and := false; said_count := 2; said_unit := ("hours", 3600%N) |}.
Definition twenty_five_minutes : said_span :=
  {| said_and := false; said_count := 25; said_unit := ("minutes", 60%N) |}.
Definition oven_reminder : list string :=
  ["remind"; "me"; "in"] ++ span_words two_hours ++ more_words [(true, twenty_five_minutes)] ++ "to" :: ["check"; "the"; "oven"].


Section examples.

Example hour_and_a_half :
  timer_request "remind me to check the oven in an hour and a half" = Some (5400%N, "check the oven").
Proof. vm_compute. reflexivity. Qed.
Example cookie_timer : timer_request "cookie timer for 1 hour and 12 minutes please" = Some (4320%N, "cookie").
Proof. vm_compute. reflexivity. Qed.
Example pasta : timer_request "set a timer for 5 minutes for the pasta please" = Some (300%N, "pasta").
Proof. vm_compute. reflexivity. Qed.
Example half_a_dozen : timer_request "set a timer for half a dozen minutes" = None.
Proof. vm_compute. reflexivity. Qed.

(** An idiom that is read as a duration is not kept out of the label: only plain
    amounts are recognised behind "timer for". *)
Lemma duration_becomes_label :
  timer_request "set a timer for two and a half hours" = Some (9000%N, "two and a half hours") /\
  timer_request "set a timer for a couple of minutes" = Some (120%N, "couple of minutes") /\
  timer_request "set a timer for two dozen minutes" = Some (1440%N, "two dozen minutes").
Proof. vm_compute. done. Qed.

End examples.
