(* ===== verification/LoopGuard.v ===== *)
(** * The loop guard ([security/loop_guard.rs])

    A circuit breaker for one conversation turn: it counts the calls, the calls
    with the same tool and arguments, and the alternations of two tools. *)

From S2P Require Import Prelude RustStr RustNum.
From Stdlib Require Import Ascii.
Local Open Scope string_scope.
Local Open Scope list_scope.
Local Open Scope rust_scope.

Record LoopGuardConfig := {
  max_repeat_calls : N;
  max_total_calls : N;
  max_pingpong_cycles : N;
}.

Definition default_loop_guard : LoopGuardConfig :=
  {| max_repeat_calls := 3; max_total_calls := 20; max_pingpong_cycles := 3 |}.

Record LoopGuard := {
  call_counts : gmap N N;
  recent_tools : list string;
  total_calls : N;
  guard_config : LoopGuardConfig;
}.

Inductive LoopCheck :=
| Allow
| Warn (message : string)
| Block (message : string).

Definition new_guard (config : LoopGuardConfig) : LoopGuard :=
  {| call_counts := ∅; recent_tools := []; total_calls := 0; guard_config := config |}.

Definition reset (g : LoopGuard) : LoopGuard :=
  {| call_counts := ∅; recent_tools := []; total_calls := 0; guard_config := guard_config g |}.

(** djb2 over the tool, a colon and the arguments. *)
Definition hash_call (tool_name args_json : string) : N :=
  foldl (fun h b => u64_wrap (u64_wrap (h * 33) + N_of_ascii b)) 5381%N
    (bytes tool_name ++ [":"%char] ++ bytes args_json).

(** [while pos >= 4]: the cycles that end the history; [pos] falls by two at
    each round, so the length of the history bounds the rounds. *)
Fixpoint pingpong_cycles (fuel : nat) (tools : list string) (pos : nat) : N :=
  match fuel with
  | S fuel =>
      if Nat.leb 4 pos
         && bool_decide (tools !! (pos - 4) = tools !! (pos - 2))
         && bool_decide (tools !! (pos - 3) = tools !! (pos - 1))
      then 1 + pingpong_cycles fuel tools (pos - 2)
      else 0
  | O => 0
  end.

Definition detect_pingpong (g : LoopGuard) : option string :=
  let tools := recent_tools g in
  let len := length tools in
  if Nat.ltb len 4 then None
  else
    let cycles_2 := pingpong_cycles len tools len in
    if (max_pingpong_cycles (guard_config g) <=? cycles_2)%N
    then Some ("ping-pong blocked: " +:+ default "" (tools !! (len - 2)) +:+ " ↔ " +:+
               default "" (tools !! (len - 1)) +:+ " repeated " +:+ show_N cycles_2 +:+ " cycles")
    else None.

Definition check (tool_name args_json : string) : M LoopGuard LoopCheck :=
  fun g =>
    let config := guard_config g in
    let g := {| call_counts := call_counts g; recent_tools := recent_tools g;
                total_calls := u32_wrap (total_calls g + 1); guard_config := config |} in
    if (max_total_calls config <? total_calls g)%N then
      (Block ("circuit breaker: " +:+ show_N (total_calls g) +:+ " total tool calls exceeded limit of " +:+
              show_N (max_total_calls config)), g)
    else
      let hash := hash_call tool_name args_json in
      let count := u32_wrap (default 0%N (call_counts g !! hash) + 1) in
      let g := {| call_counts := <[hash := count]> (call_counts g); recent_tools := recent_tools g;
                  total_calls := total_calls g; guard_config := config |} in
      if (max_repeat_calls config <? count)%N then
        (Block ("repeat blocked: " +:+ tool_name +:+ " called " +:+ show_N count +:+
                " times with same args (limit: " +:+ show_N (max_repeat_calls config) +:+ ")"), g)
      else if (count =? max_repeat_calls config)%N then
        (Warn ("repeat warning: " +:+ tool_name +:+ " called " +:+ show_N count +:+
               " times — next call will be blocked"), g)
      else
        let g := {| call_counts := call_counts g; recent_tools := recent_tools g ++ [tool_name];
                    total_calls := total_calls g; guard_config := config |} in
        match detect_pingpong g with
        | Some msg => (Block msg, g)
        | None => (Allow, g)
        end.

(** ** A turn *)

Notation tool_call := (string * string)%type (only parsing).

Definition blocked (c : LoopCheck) : bool := match c with Block _ => true | _ => false end.

Fixpoint turn (calls : list tool_call) : M LoopGuard (list LoopCheck) :=
  match calls with
  | [] => ret []
  | (name, args) :: calls =>
      let! c := check name args in
      let! cs := turn calls in
      ret (c :: cs)
  end.

(** Reference: what the checks are meant to count, over the calls so far. *)
Definition seen (h : N) (calls : list tool_call) : N :=
  N.of_nat (length (base.filter (fun c => hash_call c.1 c.2 = h) calls)).

(** The tools that went through to the third check, oldest first. *)
Fixpoint passed (config : LoopGuardConfig) (before calls : list tool_call) : list string :=
  match calls with
  | [] => []
  | c :: calls =>
      let rest := passed config (before ++ [c]) calls in
      if (N.of_nat (length before) <? max_total_calls config)%N
         && (seen (hash_call c.1 c.2) before + 1 <? max_repeat_calls config)%N
      then c.1 :: rest else rest
  end.

(** The last [2 * k + 2] tools alternate between two. *)
Definition alternates (k : N) (tools : list string) : Prop :=
  4 <= length tools /\
  (k = 0%N \/
   2 * N.to_nat k + 2 <= length tools /\
   forall i, length tools - (2 * N.to_nat k + 2) <= i -> i + 2 < length tools ->
     tools !! i = tools !! (i + 2)).

Lemma pingpong_cycles_ge fuel tools pos k :
  pos <= 2 * fuel ->
  (k <= pingpong_cycles fuel tools pos)%N <->
  k = 0%N \/
  2 * N.to_nat k + 2 <= pos /\
  forall i, pos - (2 * N.to_nat k + 2) <= i -> i + 2 < pos -> tools !! i = tools !! (i + 2).
Proof.
  revert pos k. induction fuel as [|fuel IH]; intros pos k Hf; cbn [pingpong_cycles]; [lia|].
  destruct (decide (k = 0%N)) as [->|Hk]; [split; [by left|lia]|].
  destruct (Nat.leb 4 pos && _ && _) eqn:E.
  - bool_to_prop. rename H into Hpos, H1 into H42, H0 into H31.
    assert ((k <= 1 + pingpong_cycles fuel tools (pos - 2))%N <->
            (N.pred k <= pingpong_cycles fuel tools (pos - 2))%N) as -> by lia.
    rewrite IH by lia. split.
    + intros Hc. right. split; [destruct Hc as [|[? _]]; lia|]. intros i Hi Hi2.
      destruct (decide (i = pos - 4)) as [->|];
        [by rewrite H42; replace (pos - 4 + 2) with (pos - 2) by lia|].
      destruct (decide (i = pos - 3)) as [->|];
        [by rewrite H31; replace (pos - 3 + 2) with (pos - 1) by lia|].
      destruct Hc as [|[_ Hc]]; [lia|]. apply Hc; lia.
    + intros [?|[Hl Ht]]; [lia|]. right. split; [lia|]. intros i Hi Hi2. apply Ht; lia.
  - split; [lia|]. intros [?|[Hl Ht]]; [lia|]. exfalso.
    assert (tools !! (pos - 4) = tools !! (pos - 2)) as H42
      by (rewrite (Ht (pos - 4)) by lia; f_equal; lia).
    assert (tools !! (pos - 3) = tools !! (pos - 1)) as H31
      by (rewrite (Ht (pos - 3)) by lia; f_equal; lia).
    rewrite (bool_decide_eq_true_2 _ H42), (bool_decide_eq_true_2 _ H31),
      (proj2 (Nat.leb_le 4 pos)) in E by lia. done.
Qed.

Lemma detect_pingpong_iff g :
  is_Some (detect_pingpong g) <-> alternates (max_pingpong_cycles (guard_config g)) (recent_tools g).
Proof.
  unfold detect_pingpong, alternates. set (len := length (recent_tools g)).
  pose proof (pingpong_cycles_ge len (recent_tools g) len (max_pingpong_cycles (guard_config g))
                ltac:(lia)) as Hc.
  destruct (Nat.ltb_spec len 4) as [|Hl]; [split; [intros [? [=]]|lia]|].
  destruct (N.leb_spec (max_pingpong_cycles (guard_config g)) (pingpong_cycles len (recent_tools g) len)) as [Hle|Hgt].
  - split; [|intros _; eauto]. intros _. split; [done|]. by apply Hc.
  - split; [intros [? [=]]|]. intros [_ Ha]. apply Hc in Ha. lia.
Qed.

(** ** The state counts what the reference counts *)

Definition counts (config : LoopGuardConfig) (calls : list tool_call) (g : LoopGuard) : Prop :=
  guard_config g = config /\ total_calls g = N.of_nat (length calls) /\
  recent_tools g = passed config [] calls /\
  forall h, default 0%N (call_counts g !! h) =
            seen h (take (N.to_nat (max_total_calls config)) calls).

Lemma seen_snoc h calls c :
  seen h (calls ++ [c]) = (seen h calls + if decide (hash_call c.1 c.2 = h) then 1 else 0)%N.
Proof.
  unfold seen. rewrite filter_app, length_app. destruct (decide _) as [Hd|Hd].
  - rewrite (filter_cons_True _ c) by done. cbn. lia.
  - rewrite (filter_cons_False _ c) by done. cbn. lia.
Qed.

Lemma seen_le h calls : (seen h calls <= N.of_nat (length calls))%N.
Proof. unfold seen. pose proof (length_filter (fun c => hash_call c.1 c.2 = h) calls). lia. Qed.

Lemma passed_snoc config before calls c :
  passed config before (calls ++ [c]) = passed config before calls ++ passed config (before ++ calls) [c].
Proof.
  revert before. induction calls as [|c' calls IH]; intros before; cbn [app passed].
  - by rewrite app_nil_r.
  - rewrite IH, <- app_assoc. cbn [app]. destruct (_ && _); done.
Qed.

(** One check, on a state that counts. *)
Definition check_reference (config : LoopGuardConfig) (calls : list tool_call) (c : tool_call)
    (r : LoopCheck) : Prop :=
  let n := N.of_nat (length calls) in
  let s := seen (hash_call c.1 c.2) calls in
  match r with
  | Block _ =>
      (max_total_calls config <= n)%N \/
      (max_repeat_calls config <= s)%N \/
      (s + 1 < max_repeat_calls config)%N /\
      alternates (max_pingpong_cycles config) (passed config [] (calls ++ [c]))
  | Warn _ => (n < max_total_calls config /\ s + 1 = max_repeat_calls config)%N
  | Allow =>
      (n < max_total_calls config /\ s + 1 < max_repeat_calls config)%N /\
      ~ alternates (max_pingpong_cycles config) (passed config [] (calls ++ [c]))
  end.

Lemma check_counts config calls c g :
  (N.of_nat (length calls) < u32_max)%N -> counts config calls g ->
  let '(r, g') := check c.1 c.2 g in
  counts config (calls ++ [c]) g' /\ check_reference config calls c r.
Proof.
  intros Hlen (Hcfg & Htot & Hrec & Hcnt). unfold check. rewrite Hcfg, Htot.
  unfold u32_max in Hlen.
  unfold u32_wrap. rewrite (N.mod_small (N.of_nat (length calls) + 1)) by lia.
  set (n := N.of_nat (length calls)). cbn [total_calls call_counts recent_tools guard_config].
  assert (N.of_nat (length (calls ++ [c])) = n + 1)%N as Hn by (rewrite length_app; subst n; cbn; lia).
  unfold counts, check_reference. rewrite passed_snoc. cbn [app passed].
  destruct (N.ltb_spec (max_total_calls config) (n + 1)) as [Hover|Hin].
  { rewrite (proj2 (N.ltb_ge _ _)) by (subst n; lia). cbn [andb guard_config total_calls recent_tools call_counts].
    rewrite app_nil_r, Hn. split_and!; try done; [|left; subst n; lia].
    intros h. rewrite Hcnt. f_equal. rewrite take_app_le by (subst n; lia). done. }
  assert (take (N.to_nat (max_total_calls config)) calls = calls) as Htake
    by (apply take_ge; subst n; lia).
  assert (take (N.to_nat (max_total_calls config)) (calls ++ [c]) = calls ++ [c]) as Htake'
    by (apply take_ge; rewrite length_app; subst n; cbn; lia).
  rewrite Htake', (Hcnt (hash_call c.1 c.2)), Htake.
  set (s := seen (hash_call c.1 c.2) calls).
  assert (s <= n)%N as Hs by apply seen_le.
  rewrite (N.mod_small (s + 1)) by lia.
  assert (forall h, default 0%N (<[hash_call c.1 c.2 := (s + 1)%N]> (call_counts g) !! h) =
                    seen h (calls ++ [c])) as Hcnt'.
  { intros h. rewrite seen_snoc. destruct (decide (hash_call c.1 c.2 = h)) as [<-|Hne].
    - by rewrite lookup_insert_eq.
    - rewrite lookup_insert_ne by done. rewrite Hcnt, Htake. lia. }
  rewrite (proj2 (N.ltb_lt n _)) by lia. cbn [andb].
  destruct (N.ltb_spec (max_repeat_calls config) (s + 1)) as [Hrep|Hrep].
  { rewrite (proj2 (N.ltb_ge _ _)) by lia. cbn [guard_config total_calls recent_tools call_counts].
    rewrite app_nil_r, Hn. split_and!; try done. right. left. lia. }
  destruct (N.eqb_spec (s + 1) (max_repeat_calls config)) as [Heq|Hneq].
  { rewrite (proj2 (N.ltb_ge _ _)) by lia. cbn [guard_config total_calls recent_tools call_counts].
    rewrite app_nil_r, Hn. split_and!; try done; lia. }
  rewrite (proj2 (N.ltb_lt _ _)) by lia.
  match goal with |- context [detect_pingpong ?x] => pose proof (detect_pingpong_iff x) as Hp end.
  cbn [guard_config recent_tools] in Hp. rewrite Hrec in *.
  destruct (detect_pingpong _) as [msg|]; cbn [guard_config total_calls recent_tools call_counts];
    rewrite Hn; split_and!; try done.
  - right. right. split; [lia|]. apply Hp. eauto.
  - lia.
  - lia.
  - intros Ha. apply Hp in Ha as [? [=]].
Qed.

Lemma counts_new config : counts config [] (new_guard config).
Proof. split_and!; try done. intros h. cbn. by rewrite lookup_empty, take_nil. Qed.

(** A turn is checked call by call against the reference. *)
Lemma turn_counts config before calls g :
  (N.of_nat (length before + length calls) <= u32_max)%N -> counts config before g ->
  let '(cs, g') := turn calls g in
  counts config (before ++ calls) g' /\
  length cs = length calls /\
  forall i c r, calls !! i = Some c -> cs !! i = Some r ->
    check_reference config (before ++ take i calls) c r.
Proof.
  revert before g. induction calls as [|c calls IH]; intros before g Hlen Hg; cbn [turn].
  { unfold ret. rewrite app_nil_r. done. }
  destruct c as [name args]. unfold bind. cbn [length] in Hlen.
  pose proof (check_counts config before (name, args) g) as Hc. cbn [fst snd] in Hc.
  destruct (check name args g) as [r g1]. destruct Hc as [Hg1 Hr]; [unfold u32_max in *; lia|done|].
  specialize (IH (before ++ [(name, args)]) g1).
  destruct (turn calls g1) as [cs g2].
  destruct IH as (Hg2 & Hl & Hi); [rewrite length_app; cbn; lia|done|].
  unfold ret. rewrite <- app_assoc in Hg2. cbn [app] in Hg2. split_and!; [done|cbn; lia|].
  intros [|i] c' r' Hc' Hr'; cbn in Hc', Hr'; simplify_eq.
  - cbn [take]. by rewrite app_nil_r.
  - cbn [take]. specialize (Hi i c' r' Hc' Hr'). by rewrite <- app_assoc in Hi.
Qed.

(** The calls of a turn that were let through. *)
Definition let_through (calls : list tool_call) (cs : list LoopCheck) : list tool_call :=
  (base.filter (fun cr => blocked cr.2 = false) (zip calls cs)).*1.

Lemma let_through_snoc calls cs c r :
  length calls = length cs ->
  let_through (calls ++ [c]) (cs ++ [r]) =
  let_through calls cs ++ (if blocked r then [] else [c]).
Proof.
  intros Hl. unfold let_through. rewrite zip_with_app by done. cbn [zip_with].
  rewrite filter_app, fmap_app. f_equal. destruct (blocked r) eqn:E.
  - rewrite filter_cons_False; [done|]. cbn. congruence.
  - rewrite filter_cons_True by done. done.
Qed.

(** What the reference lets through is bounded. *)
Lemma reference_bounds config calls cs :
  length cs = length calls ->
  (forall i c r, calls !! i = Some c -> cs !! i = Some r -> check_reference config (take i calls) c r) ->
  (N.of_nat (length (let_through calls cs)) <= N.min (max_total_calls config) (N.of_nat (length calls)))%N /\
  forall h, (seen h (let_through calls cs) <= N.min (max_repeat_calls config) (seen h calls))%N.
Proof.
  revert cs. induction calls as [|c calls IH] using rev_ind; intros cs Hl Hr.
  { destruct cs; [|done]. cbn. split; [lia|]. intros h. unfold seen. cbn. lia. }
  destruct (exists_last (l := cs)) as (cs' & r & ->); [intros ->; rewrite length_app in Hl; cbn in Hl; lia|].
  rewrite !length_app in Hl. cbn in Hl. rewrite let_through_snoc by lia.
  destruct (IH cs') as [IHn IHs]; [lia| |].
  { intros i c' r' Hc' Hr'. specialize (Hr i c' r').
    rewrite lookup_app_l, lookup_app_l in Hr by (by eapply lookup_lt_Some).
    rewrite take_app_le in Hr by (apply lookup_lt_Some in Hc'; lia). by apply Hr. }
  specialize (Hr (length calls) c r). rewrite list_lookup_middle in Hr by done.
  rewrite lookup_app_r in Hr by lia. replace (length calls - length cs') with 0 in Hr by lia.
  rewrite take_app_length in Hr. specialize (Hr eq_refl eq_refl).
  split.
  - rewrite !length_app. destruct r; cbn in Hr |- *; lia.
  - intros h. specialize (IHs h). rewrite seen_snoc. destruct (blocked r) eqn:Er; [rewrite app_nil_r; lia|].
    rewrite seen_snoc. destruct (decide (hash_call c.1 c.2 = h)) as [<-|]; [|lia].
    destruct r; cbn in Hr, Er; try done; lia.
Qed.

(** In a turn of any calls, each check answers as the reference that
    recounts the whole turn does: it blocks exactly beyond the limit on all
    calls, beyond the limit on calls with this hash, or when the tools that were
    let through last alternate between two for the configured cycles.  Hence no
    turn lets through more than the limit of calls, nor more than the repeat
    limit of calls with one tool and one argument text. *)
Lemma loop_guard_exact config calls :
  (N.of_nat (length calls) <= u32_max)%N ->
  let cs := (turn calls (new_guard config)).1 in
  length cs = length calls /\
  (forall i c r, calls !! i = Some c -> cs !! i = Some r ->
     check_reference config (take i calls) c r) /\
  (N.of_nat (length (let_through calls cs)) <= max_total_calls config)%N /\
  forall c, (N.of_nat (length (base.filter (fun c' => c' = c) (let_through calls cs))) <=
             max_repeat_calls config)%N.
Proof.
  intros Hlen. pose proof (turn_counts config [] calls (new_guard config) Hlen (counts_new config)) as H.
  destruct (turn calls (new_guard config)) as [cs g']. cbn [fst]. destruct H as (_ & Hl & Hr).
  cbn [app] in Hr. destruct (reference_bounds config calls cs Hl Hr) as [Hn Hs].
  split_and!; [done|done|lia|]. intros c. specialize (Hs (hash_call c.1 c.2)).
  enough (length (base.filter (fun c' => c' = c) (let_through calls cs)) <=
          length (base.filter (fun c' => hash_call c'.1 c'.2 = hash_call c.1 c.2) (let_through calls cs)))
    by (unfold seen in Hs; lia).
  apply submseteq_length, sublist_submseteq. generalize (let_through calls cs). intros l.
  induction l as [|c' l IH]; [done|].
  destruct (decide (c' = c)) as [->|Hne].
  - rewrite !filter_cons_True by done. by apply sublist_skip.
  - rewrite (filter_cons_False (fun c' => c' = c)) by done.
    rewrite filter_cons. case_decide; [by apply sublist_cons|done].
Qed.

(** Different argument texts can share a hash, and then count as repeats. *)
Lemma distinct_calls_share_hash : hash_call "web_search" "ab" = hash_call "web_search" "bA".
Proof. reflexivity. Qed.

(** Four calls of two tools, with the limits that block the fourth. *)
Definition pingpong_config : LoopGuardConfig :=
  {| max_repeat_calls := 100; max_total_calls := 100; max_pingpong_cycles := 1 |}.
Definition pingpong_turn : list tool_call := [("a", "1"); ("b", "2"); ("a", "3"); ("b", "4")].

Lemma loop_guard_exact_witness :
  check_reference pingpong_config (take 3 pingpong_turn) ("b", "4")
    (Block "ping-pong blocked: a ↔ b repeated 1 cycles").
Proof.
  apply (loop_guard_exact pingpong_config pingpong_turn); [vm_compute; discriminate|..]; vm_compute; reflexivity.
Defined.
