(* ===== verification/OriginAuth.v ===== *)
(** * The trusted origin of a request ([origin_auth.rs])

    [OriginResolver] turns the origin a request claims into the origin the
    dispatcher acts for.  Its tokens come from the configuration and from the
    environment; both are read here, so the theorem speaks of the secrets the
    operator set and not only of the resolver's table. *)

From S2P Require Import Prelude RustStr RustNum Json HomeTypes Confirmations.
From Stdlib Require Import Ascii.
Local Open Scope string_scope.
Local Open Scope list_scope.

(** ** Addresses *)

(** The four bytes of an [Ipv4Addr], the eight 16-bit segments of an [Ipv6Addr]. *)
Inductive IpAddr :=
| V4 (a b c d : N)
| V6 (s0 s1 s2 s3 s4 s5 s6 s7 : N).

Definition v4_is_loopback (a b c d : N) : bool := (a =? 127)%N.

Definition ip_is_loopback (ip : IpAddr) : bool :=
  match ip with
  | V4 a b c d => v4_is_loopback a b c d
  | V6 s0 s1 s2 s3 s4 s5 s6 s7 =>
      forallb (N.eqb 0) [s0; s1; s2; s3; s4; s5; s6] && (s7 =? 1)%N
      || (forallb (N.eqb 0) [s0; s1; s2; s3; s4] && (s5 =? 65535)%N
          && v4_is_loopback (N.shiftr s6 8) (N.land s6 255) (N.shiftr s7 8) (N.land s7 255))
  end.

(** ** Configuration *)

Record OriginAuthConfig := {
  require_token : bool;
  cfg_tokens : gmap string string;
}.

Definition KNOWN_ORIGINS : list string := ["voice"; "dashboard"; "telegram"; "repl"].

Definition byte_to_upper (a : ascii) : ascii :=
  if byte_is_lower a then ascii_of_N (N_of_ascii a - 32) else a.
Definition to_ascii_uppercase (s : string) : string := smap byte_to_upper s.

Section config.
Context `{HO : HashOrder}.
Context (env_var : string -> option string).
Context (cfg : OriginAuthConfig).

Definition origin_key (name : string) : string := to_ascii_lowercase (trim name).

(** The configured value, or the environment's when that is blank. *)
Definition token_for (name : string) : string :=
  let from_env :=
    trim (default "" (env_var ("GENIE_ORIGIN_TOKEN_" +:+ to_ascii_uppercase (origin_key name)))) in
  match trim <$> cfg_tokens cfg !! name with
  | Some v => if is_empty v then from_env else v
  | None => from_env
  end.

Definition token_step (out : gmap string string) (name : string) : gmap string string :=
  let key := origin_key name in
  if is_empty key || bool_decide (is_Some (out !! key)) then out
  else
    let token := token_for name in
    if is_empty token then out else <[key := token]> out.

Definition token_names : list string := (hash_iter (cfg_tokens cfg)).*1 ++ KNOWN_ORIGINS.
Definition resolved_tokens : gmap string string := foldl token_step ∅ token_names.

End config.

(** ** The resolver *)

Record OriginResolver := {
  tokens : gmap RequestOrigin.t string;
  strict : bool;
}.

Definition default_resolver : OriginResolver := {| tokens := ∅; strict := false |}.

(** The origins that no header can claim. *)
Definition never_from_wire (o : RequestOrigin.t) : bool :=
  match o with
  | RequestOrigin.Unknown | RequestOrigin.Api | RequestOrigin.Confirmation => true
  | _ => false
  end.

Definition resolver_step (tokens : gmap RequestOrigin.t string) (entry : string * string)
    : gmap RequestOrigin.t string :=
  let '(name, secret) := entry in
  let origin := RequestOrigin.from_header name in
  if never_from_wire origin then tokens else <[origin := secret]> tokens.

Definition from_config `{HashOrder} (env_var : string -> option string) (cfg : OriginAuthConfig)
    : OriginResolver :=
  {| tokens := foldl resolver_step ∅ (hash_iter (resolved_tokens env_var cfg));
     strict := require_token cfg |}.

Definition insert_token (origin : RequestOrigin.t) (token : string) (r : OriginResolver) : OriginResolver :=
  if is_empty (trim token) then r
  else {| tokens := <[origin := trim token]> (tokens r); strict := strict r |}.

(** [constant_time_eq] of this file is the comparison of [actuation.rs]. *)
Definition constant_time_eq (a b : list ascii) : bool := ct_eq a b.

Definition resolve (r : OriginResolver) (peer : option IpAddr)
    (claimed_header token_header : option string) : RequestOrigin.t :=
  let claimed := default RequestOrigin.Unknown (RequestOrigin.from_header <$> claimed_header) in
  if never_from_wire claimed then RequestOrigin.Api
  else
    match tokens r !! claimed with
    | Some expected =>
        let presented := default "" (trim <$> token_header) in
        if negb (is_empty presented) && constant_time_eq (bytes presented) (bytes expected)
        then claimed else RequestOrigin.Api
    | None =>
        let loopback := default false (ip_is_loopback <$> peer) in
        if loopback && negb (strict r) then claimed else RequestOrigin.Api
    end.

(** ** What the tables hold *)

(** The operator set this secret for this origin, in the file or in the
    environment. *)
Definition secret_set (env_var : string -> option string) (cfg : OriginAuthConfig)
    (o : RequestOrigin.t) (secret : string) : Prop :=
  exists name, (is_Some (cfg_tokens cfg !! name) \/ name ∈ KNOWN_ORIGINS) /\
    RequestOrigin.from_header (origin_key name) = o /\
    token_for env_var cfg name = secret /\ secret <> "".

Lemma is_empty_iff s : is_empty s = true <-> s = "".
Proof. by destruct s. Qed.
Lemma is_empty_false s : is_empty s = false <-> s <> "".
Proof. by destruct s. Qed.

Section tables.
Context `{HO : HashOrder} `{!HashOrderLaws HO}.
Context (env_var : string -> option string) (cfg : OriginAuthConfig).
Notation step := (token_step env_var cfg).

(** Every entry has a source among the names, and every name with a token has
    an entry. *)
Lemma token_steps names :
  let out := foldl step ∅ names in
  (forall key s, out !! key = Some s ->
     exists name, name ∈ names /\ origin_key name = key /\ token_for env_var cfg name = s /\ s <> "") /\
  (forall name, name ∈ names -> origin_key name <> "" -> token_for env_var cfg name <> "" ->
     is_Some (out !! origin_key name)).
Proof.
  induction names as [|name names [IHs IHc]] using rev_ind; cbn [foldl] in *; cbv zeta.
  { split; [intros key s; by rewrite lookup_empty|set_solver]. }
  rewrite foldl_app. cbn [foldl]. set (out := foldl step ∅ names) in *.
  unfold token_step. destruct (is_empty (origin_key name)) eqn:Ek; cbn [orb].
  { apply is_empty_iff in Ek. split.
    - intros key s Hs. destruct (IHs key s Hs) as (n & ? & ?). exists n. set_solver.
    - intros n [?| ->%list_elem_of_singleton]%elem_of_app; [by auto|done]. }
  case_bool_decide as Ho.
  { split.
    - intros key s Hs. destruct (IHs key s Hs) as (n & ? & ?). exists n. set_solver.
    - intros n [?| ->%list_elem_of_singleton]%elem_of_app; [by auto|done]. }
  destruct (is_empty (token_for env_var cfg name)) eqn:Et.
  { apply is_empty_iff in Et. split.
    - intros key s Hs. destruct (IHs key s Hs) as (n & ? & ?). exists n. set_solver.
    - intros n [?| ->%list_elem_of_singleton]%elem_of_app; [by auto|done]. }
  apply is_empty_false in Et. split.
  - intros key s. rewrite lookup_insert_Some. intros [[<- <-]|[? Hs]].
    + exists name. set_solver.
    + destruct (IHs key s Hs) as (n & ? & ?). exists n. set_solver.
  - intros n [Hn| ->%list_elem_of_singleton]%elem_of_app Hk Ht.
    + destruct (decide (origin_key n = origin_key name)) as [->|]; [rewrite lookup_insert_eq; eauto|].
      rewrite lookup_insert_ne by done. by apply IHc.
    + rewrite lookup_insert_eq. eauto.
Qed.

Lemma resolver_steps entries o :
  never_from_wire o = false ->
  let out := foldl resolver_step ∅ entries in
  (forall s, out !! o = Some s ->
     exists name, (name, s) ∈ entries /\ RequestOrigin.from_header name = o) /\
  (forall name s, (name, s) ∈ entries -> RequestOrigin.from_header name = o -> is_Some (out !! o)).
Proof.
  intros Ho. induction entries as [|[name s0] entries [IHs IHc]] using rev_ind; cbn [foldl] in *; cbv zeta.
  { split; [intros s; by rewrite lookup_empty|set_solver]. }
  rewrite foldl_app. cbn [foldl resolver_step]. set (out := foldl resolver_step ∅ entries) in *.
  destruct (never_from_wire (RequestOrigin.from_header name)) eqn:En.
  { split.
    - intros s Hs. destruct (IHs s Hs) as (n & ? & ?). exists n. set_solver.
    - intros n s [?|[= -> ->]%list_elem_of_singleton]%elem_of_app Hn; [by eauto|congruence]. }
  split.
  - intros s. rewrite lookup_insert_Some. intros [[<- <-]|[? Hs]].
    + exists name. set_solver.
    + destruct (IHs s Hs) as (n & ? & ?). exists n. set_solver.
  - intros n s [Hn|[= -> ->]%list_elem_of_singleton]%elem_of_app Hf.
    + destruct (decide (o = RequestOrigin.from_header name)) as [->|]; [rewrite lookup_insert_eq; eauto|].
      rewrite lookup_insert_ne by done. eauto.
    + subst o. rewrite lookup_insert_eq. eauto.
Qed.

Lemma token_names_iff name :
  name ∈ token_names cfg <-> is_Some (cfg_tokens cfg !! name) \/ name ∈ KNOWN_ORIGINS.
Proof.
  unfold token_names. rewrite elem_of_app. f_equiv. rewrite list_elem_of_fmap. split.
  - intros ([k x] & -> & Hx%hash_iter_elem). eauto.
  - intros [x Hx]. exists (name, x). split; [done|]. by apply hash_iter_elem.
Qed.

(** The table of [from_config] holds secrets that were set, and one for every
    origin that has any. *)
Lemma from_config_tokens o :
  never_from_wire o = false ->
  (forall s, tokens (from_config env_var cfg) !! o = Some s -> secret_set env_var cfg o s) /\
  (tokens (from_config env_var cfg) !! o = None -> forall s, ~ secret_set env_var cfg o s).
Proof.
  intros Ho. cbn [from_config tokens].
  destruct (resolver_steps (hash_iter (resolved_tokens env_var cfg)) o Ho) as [Hs Hc].
  destruct (token_steps (token_names cfg)) as [Ts Tc].
  change (foldl step ∅ (token_names cfg)) with (resolved_tokens env_var cfg) in Ts, Tc.
  split.
  - intros s Hl. destruct (Hs s Hl) as (key & Hk%hash_iter_elem & <-).
    destruct (Ts key s Hk) as (name & Hn%token_names_iff & <- & Ht & Hne).
    by exists name.
  - intros Hl s (name & Hn%token_names_iff & Hf & <- & Hne).
    destruct (Tc name Hn) as [s' Hs']; [|done|].
    + intros Hk. rewrite Hk in Hf. subst o. discriminate.
    + apply hash_iter_elem in Hs'. destruct (Hc _ _ Hs' Hf) as [s'' Hs'']. congruence.
Qed.

End tables.

Lemma resolve_exact r peer claimed token o :
  o <> RequestOrigin.Api ->
  resolve r peer claimed token = o <->
  RequestOrigin.from_header <$> claimed = Some o /\ never_from_wire o = false /\
  match tokens r !! o with
  | Some secret => secret <> "" /\ trim <$> token = Some secret
  | None => ip_is_loopback <$> peer = Some true /\ strict r = false
  end.
Proof.
  intros Ho. unfold resolve.
  destruct claimed as [c|]; cbn [fmap option_fmap option_map from_option id].
  2:{ cbn. split; [intros <-; congruence|]. intros [[=] _]. }
  destruct (never_from_wire (RequestOrigin.from_header c)) eqn:En.
  { split; [intros <-; congruence|]. intros ([= Hc] & Hn & _). congruence. }
  assert (forall P : Prop, (RequestOrigin.from_header c = o -> P) ->
    ((RequestOrigin.from_header c = o) <-> (Some (RequestOrigin.from_header c) = Some o /\ never_from_wire o = false /\ P))) as Hif.
  { intros P HP. split; [intros Hc; split_and!; [congruence|congruence|by apply HP]|by intros ([= ->] & _)]. }
  destruct (tokens r !! RequestOrigin.from_header c) as [secret|] eqn:Et.
  - destruct (negb _ && _) eqn:E.
    + bool_to_prop. apply ct_eq_iff, bytes_inj in H0. apply is_empty_false in H.
      apply Hif. intros <-. rewrite Et. destruct token as [t|]; cbn in *; [|done]. split; congruence.
    + split; [intros <-; congruence|]. intros ([= <-] & _ & Hm). rewrite Et in Hm. destruct Hm as [Hne Ht].
      destruct token as [t|]; cbn in *; [|done]. injection Ht as Ht. rewrite Ht in E.
      rewrite (proj2 (is_empty_false secret)) in E by done. cbn in E.
      assert (constant_time_eq (bytes secret) (bytes secret) = true) by by apply ct_eq_iff. congruence.
  - destruct (default false _ && _) eqn:E.
    + bool_to_prop. apply Hif. intros <-. rewrite Et.
      destruct peer as [ip|]; cbn in *; [|done]. split; congruence.
    + split; [intros <-; congruence|]. intros ([= <-] & _ & Hm). rewrite Et in Hm. destruct Hm as [Hp Hs].
      destruct peer as [ip|]; cbn in *; [|done]. injection Hp as Hp. by rewrite Hp, Hs in E.
Qed.

(** ** Properties *)

(** C38: a request is acted on for a channel other than the plain API only
    with proof: it claims that channel, the channel can be claimed at all, and
    either it presents a secret the operator set for that channel, or no secret
    at all is set for it and the peer is on the loopback interface of a host
    that does not insist on tokens.  A request with such a claim and such a
    loopback peer is honoured. *)
Theorem origin_needs_proof `{HO : HashOrder} `{!HashOrderLaws HO} env_var cfg peer claimed token o :
  o <> RequestOrigin.Api ->
  let r := from_config env_var cfg in
  (resolve r peer claimed token = o ->
   o ∈ [RequestOrigin.Voice; RequestOrigin.Dashboard; RequestOrigin.Telegram; RequestOrigin.Repl] /\
   RequestOrigin.from_header <$> claimed = Some o /\
   ((exists secret, secret_set env_var cfg o secret /\ trim <$> token = Some secret) \/
    ((forall secret, ~ secret_set env_var cfg o secret) /\
     ip_is_loopback <$> peer = Some true /\ require_token cfg = false))) /\
  (never_from_wire o = false -> RequestOrigin.from_header <$> claimed = Some o ->
   (forall secret, ~ secret_set env_var cfg o secret) ->
   ip_is_loopback <$> peer = Some true -> require_token cfg = false ->
   resolve r peer claimed token = o).
Proof.
  intros Ho r. rewrite resolve_exact by done. split.
  - intros (Hc & Hw & Hm). destruct (from_config_tokens env_var cfg o Hw) as [Hs Hn].
    split_and!; [destruct o; set_solver|done|]. subst r.
    destruct (tokens (from_config env_var cfg) !! o) as [secret|]; [left|right; naive_solver].
    exists secret. split; [by apply Hs|apply Hm].
  - intros Hw Hc Hno Hp Hr. destruct (from_config_tokens env_var cfg o Hw) as [Hs _].
    split_and!; [done|done|]. subst r.
    destruct (tokens (from_config env_var cfg) !! o) as [secret|]; [|done].
    exfalso. by eapply Hno, Hs.
Qed.

(** ** A household with one token *)

Section example.
#[local] Existing Instance key_order.

Definition telegram_cfg : OriginAuthConfig :=
  {| require_token := false; cfg_tokens := {["Telegram" := " s3cret "]} |}.
Definition no_env (_ : string) : option string := None.
Definition lan_peer : IpAddr := V4 192 168 1 50.

Lemma origin_needs_proof_witness :
  resolve (from_config no_env telegram_cfg) (Some lan_peer) (Some "telegram") (Some "s3cret")
    = RequestOrigin.Telegram /\
  ((exists secret, secret_set no_env telegram_cfg RequestOrigin.Telegram secret /\
      trim <$> Some "s3cret" = Some secret) \/
   ((forall secret, ~ secret_set no_env telegram_cfg RequestOrigin.Telegram secret) /\
    ip_is_loopback <$> Some lan_peer = Some true /\ require_token telegram_cfg = false)).
Proof.
  assert (resolve (from_config no_env telegram_cfg) (Some lan_peer) (Some "telegram") (Some "s3cret")
          = RequestOrigin.Telegram) as H by (vm_compute; reflexivity).
  split; [exact H|].
  exact (proj2 (proj2 (proj1 (origin_needs_proof no_env telegram_cfg (Some lan_peer)
    (Some "telegram") (Some "s3cret") RequestOrigin.Telegram ltac:(discriminate)) H))).
Defined.

End example.
