(* ===== verification/Session.v ===== *)
(** * The session registry ([session.rs])

    The open conversations of all channels, bounded in number and expired when
    idle.  The registry is proved to be a least-recently-used cache. *)

From S2P Require Import Prelude RustStr RustNum.
From Stdlib Require Import Ascii.
Local Open Scope string_scope.
Local Open Scope list_scope.
Local Open Scope Z_scope.

Record SessionEntry := {
  se_conversation_id : string;
  last_active_ms : Z;
}.

Record SessionRegistry := {
  sessions : gmap string SessionEntry;
  max_sessions : nat;
  idle_ttl_ms : Z;
}.

Definition DEFAULT_MAX_ACTIVE_SESSIONS : nat := 32.
Definition DEFAULT_SESSION_IDLE_TTL_MS : Z := 30 * 60 * 1000.

Definition new_registry (max_sessions : nat) (idle_ttl_ms : Z) : SessionRegistry :=
  {| sessions := ∅; max_sessions := Nat.max max_sessions 1; idle_ttl_ms := Z.max idle_ttl_ms 1 |}.

Definition with_defaults : SessionRegistry :=
  new_registry DEFAULT_MAX_ACTIVE_SESSIONS DEFAULT_SESSION_IDLE_TTL_MS.

Definition set_sessions (m : gmap string SessionEntry) (r : SessionRegistry) : SessionRegistry :=
  {| sessions := m; max_sessions := max_sessions r; idle_ttl_ms := idle_ttl_ms r |}.

(** A [BTreeMap] is visited in the byte order of its keys. *)
Fixpoint insert_entry {A} (kx : string * A) (l : list (string * A)) : list (string * A) :=
  match l with
  | [] => [kx]
  | ky :: l' => if String.leb kx.1 ky.1 then kx :: l else ky :: insert_entry kx l'
  end.
Definition btree_iter {A} (m : gmap string A) : list (string * A) :=
  foldr insert_entry [] (map_to_list m).

(** [Iterator::min_by_key]: the first of the least. *)
Fixpoint min_by_activity (best : string * SessionEntry) (l : list (string * SessionEntry))
    : string * SessionEntry :=
  match l with
  | [] => best
  | kx :: l =>
      min_by_activity (if last_active_ms kx.2 <? last_active_ms best.2 then kx else best) l
  end.

Definition i64_saturating_sub (a b : Z) : Z :=
  Z.max (-9223372036854775808) (Z.min 9223372036854775807 (a - b)).

Definition conversation_id (session_key : string) (r : SessionRegistry) : option string :=
  se_conversation_id <$> sessions r !! session_key.

Definition touch (session_key : string) (now_ms : Z) (r : SessionRegistry) : SessionRegistry :=
  set_sessions (alter (fun e => {| se_conversation_id := se_conversation_id e;
                                   last_active_ms := now_ms |}) session_key (sessions r)) r.

Definition evict_idle (now_ms : Z) (r : SessionRegistry) : nat * SessionRegistry :=
  let cutoff := i64_saturating_sub now_ms (idle_ttl_ms r) in
  let stale := (base.filter (fun kx => last_active_ms kx.2 < cutoff) (btree_iter (sessions r))).*1 in
  (length stale, set_sessions (foldl (fun m k => delete k m) (sessions r) stale) r).

(** [while self.sessions.len() >= self.max_sessions]: every round removes one
    session, so their number bounds the rounds. *)
Fixpoint enforce_cap_loop (fuel : nat) (max_sessions : nat) (m : gmap string SessionEntry)
    : gmap string SessionEntry :=
  match fuel with
  | S fuel =>
      if Nat.leb max_sessions (size m) then
        match btree_iter m with
        | [] => m
        | kx :: l => enforce_cap_loop fuel max_sessions (delete (min_by_activity kx l).1 m)
        end
      else m
  | O => m
  end.
Definition enforce_cap (r : SessionRegistry) : SessionRegistry :=
  set_sessions (enforce_cap_loop (size (sessions r)) (max_sessions r) (sessions r)) r.

Definition track (id : string) (now_ms : Z) (r : SessionRegistry) : SessionRegistry :=
  let r := (evict_idle now_ms r).2 in
  if bool_decide (is_Some (sessions r !! id)) then touch id now_ms r
  else
    let r := enforce_cap r in
    set_sessions (<[id := {| se_conversation_id := id; last_active_ms := now_ms |}]> (sessions r)) r.

Definition resolve_session (session_key : string) (now_ms : Z) (r : SessionRegistry)
    : string * SessionRegistry :=
  let r := track session_key now_ms r in
  (default session_key (conversation_id session_key r), r).

(** ** Visiting order *)

Lemma insert_entry_perm {A} kx (l : list (string * A)) : insert_entry kx l ≡ₚ kx :: l.
Proof.
  induction l as [|ky l IH]; cbn; [done|]. destruct (String.leb _ _); [done|].
  rewrite IH. by constructor.
Qed.

Lemma btree_iter_perm {A} (m : gmap string A) : btree_iter m ≡ₚ map_to_list m.
Proof.
  unfold btree_iter. induction (map_to_list m) as [|kx l IH]; cbn; [done|].
  by rewrite insert_entry_perm, IH.
Qed.

Lemma btree_iter_elem {A} (m : gmap string A) k x : (k, x) ∈ btree_iter m <-> m !! k = Some x.
Proof. rewrite btree_iter_perm. apply elem_of_map_to_list. Qed.

Lemma min_by_activity_spec best l :
  min_by_activity best l ∈ best :: l /\
  Forall (fun kx => last_active_ms (min_by_activity best l).2 <= last_active_ms kx.2) (best :: l).
Proof.
  revert best. induction l as [|kx l IH]; intros best; cbn [min_by_activity].
  { split; [set_solver|]. by repeat constructor. }
  destruct (last_active_ms kx.2 <? last_active_ms best.2) eqn:E; bool_to_prop;
    destruct (IH (if last_active_ms kx.2 <? last_active_ms best.2 then kx else best)) as [Hin Hle];
    rewrite ?(proj2 (Z.ltb_lt _ _) E), ?(proj2 (Z.ltb_ge _ _) E) in Hin, Hle;
    apply Forall_cons in Hle as [Hb Hl].
  - split; [set_solver|]. constructor; [lia|]. by constructor.
  - split; [set_solver|]. constructor; [done|]. constructor; [lia|done].
Qed.

(** ** The state after each step *)

Lemma lookup_delete_all {A} (l : list string) (m : gmap string A) k :
  foldl (fun m k => delete k m) m l !! k = if decide (k ∈ l) then None else m !! k.
Proof.
  revert m. induction l as [|k' l IH]; intros m; cbn [foldl].
  { by rewrite decide_False by set_solver. }
  rewrite IH. destruct (decide (k ∈ l)) as [Hk|Hk].
  - by rewrite decide_True by set_solver.
  - destruct (decide (k = k')) as [->|Hne].
    + rewrite lookup_delete_eq. by rewrite decide_True by set_solver.
    + rewrite lookup_delete_ne by done. by rewrite decide_False by set_solver.
Qed.

Definition fresh (ttl now : Z) (e : SessionEntry) : Prop :=
  i64_saturating_sub now ttl <= last_active_ms e.
#[export] Instance fresh_dec ttl now e : Decision (fresh ttl now e).
Proof. unfold fresh. apply _. Defined.

Lemma lookup_evict_idle now r k :
  sessions (evict_idle now r).2 !! k =
  match sessions r !! k with
  | Some e => if decide (fresh (idle_ttl_ms r) now e) then Some e else None
  | None => None
  end.
Proof.
  cbn [evict_idle snd sessions set_sessions]. rewrite lookup_delete_all.
  destruct (sessions r !! k) as [e|] eqn:E; [|by destruct (decide _)].
  unfold fresh. assert ((k ∈ (base.filter (fun kx : string * SessionEntry =>
      last_active_ms kx.2 < i64_saturating_sub now (idle_ttl_ms r)) (btree_iter (sessions r))).*1) <->
    last_active_ms e < i64_saturating_sub now (idle_ttl_ms r)) as Hk.
  { rewrite list_elem_of_fmap. split.
    - intros ([k' e'] & -> & [Hl Hin]%list_elem_of_filter). cbn in *.
      apply btree_iter_elem in Hin. congruence.
    - intros Hl. exists (k, e). split; [done|]. apply list_elem_of_filter. split; [done|].
      by apply btree_iter_elem. }
  match goal with |- context [decide (k ∈ ?l)] => destruct (decide (k ∈ l)) as [H|H] end;
    rewrite Hk in H; case_decide; (done || lia).
Qed.

Lemma size_delete_min m kx l :
  btree_iter m = kx :: l -> size (delete (min_by_activity kx l).1 m) = (size m - 1)%nat.
Proof.
  intros Hm. destruct (min_by_activity_spec kx l) as [Hin _]. rewrite <- Hm in Hin.
  destruct (min_by_activity kx l) as [k e]. apply btree_iter_elem in Hin. cbn [fst].
  rewrite map_size_delete, Hin. cbn. lia.
Qed.

Lemma btree_iter_nil {A} (m : gmap string A) : btree_iter m = [] -> m = ∅.
Proof.
  intros H. apply map_to_list_empty_iff, Permutation_nil. rewrite <- btree_iter_perm. by rewrite H.
Qed.

(** The fuel is enough: the loop ends below the cap. *)
Lemma enforce_cap_below fuel n m :
  (size m <= fuel)%nat -> (1 <= n)%nat -> (size (enforce_cap_loop fuel n m) < n)%nat.
Proof.
  revert m. induction fuel as [|fuel IH]; intros m Hf Hn; cbn [enforce_cap_loop]; [lia|].
  destruct (Nat.leb_spec n (size m)) as [Hle|]; [|lia].
  destruct (btree_iter m) as [|kx l] eqn:E.
  - apply btree_iter_nil in E as ->. rewrite map_size_empty in *. lia.
  - apply IH; [|done]. rewrite (size_delete_min _ _ _ E). lia.
Qed.

Lemma enforce_cap_subseteq fuel n m : enforce_cap_loop fuel n m ⊆ m.
Proof.
  revert m. induction fuel as [|fuel IH]; intros m; cbn [enforce_cap_loop]; [done|].
  destruct (Nat.leb _ _); [|done]. destruct (btree_iter m) as [|kx l]; [done|].
  etrans; [apply IH|]. apply delete_subseteq.
Qed.

(** ** Bounds, for any clock *)

Inductive session_op := OpTrack (id : string) (now : Z) | OpTouch (id : string) (now : Z) | OpEvict (now : Z).

Definition session_step (r : SessionRegistry) (o : session_op) : SessionRegistry :=
  match o with
  | OpTrack id now => track id now r
  | OpTouch id now => touch id now r
  | OpEvict now => (evict_idle now r).2
  end.

Definition sized (r : SessionRegistry) : Prop :=
  (1 <= max_sessions r)%nat /\ (size (sessions r) <= max_sessions r)%nat /\
  map_Forall (fun k e => se_conversation_id e = k) (sessions r).

Lemma sized_submap m r : m ⊆ sessions r -> sized r -> sized (set_sessions m r).
Proof.
  intros Hm (Hn & Hs & Hk). split_and!; [done| |].
  - cbn. etrans; [apply map_subseteq_size, Hm|done].
  - intros k e He. apply (Hk k e). by eapply lookup_weaken.
Qed.

Lemma evict_subseteq now r : sessions (evict_idle now r).2 ⊆ sessions r.
Proof.
  apply map_subseteq_spec. intros k e. rewrite lookup_evict_idle.
  destruct (sessions r !! k); [|done]. by case_decide.
Qed.

Lemma sized_evict now r : sized r -> sized (evict_idle now r).2.
Proof. intros Hr. exact (sized_submap _ r (evict_subseteq now r) Hr). Qed.

Lemma sized_touch id now r : sized r -> sized (touch id now r).
Proof.
  intros (Hn & Hs & Hk). split_and!; [done| |].
  - cbn. by rewrite <- (size_dom (alter _ _ _)), dom_alter_L, size_dom.
  - intros k e He. cbn in He. rewrite lookup_alter in He. case_decide.
    + apply fmap_Some in He as (e' & He' & ->). subst. by apply (Hk _ _ He').
    + by apply (Hk _ _ He).
Qed.

Lemma sized_track id now r :
  sized r -> sized (track id now r) /\
  sessions (track id now r) !! id = Some {| se_conversation_id := id; last_active_ms := now |}.
Proof.
  intros Hr. apply (sized_evict now) in Hr. unfold track. cbv zeta.
  generalize dependent (evict_idle now r).2. intros r1 Hr. case_bool_decide as Hi.
  - split; [by apply sized_touch|]. destruct Hi as [e He]. cbn.
    rewrite lookup_alter_eq, He. cbn. destruct Hr as (_ & _ & Hk). by rewrite (Hk id e He).
  - destruct Hr as (Hn & Hs & Hk). split; [|apply lookup_insert_eq].
    pose proof (enforce_cap_below (size (sessions r1)) (max_sessions r1) (sessions r1) (le_n _) Hn).
    split_and!; [done| |].
    + cbn. etrans; [apply size_insert_le|]. lia.
    + apply map_Forall_insert_2; [done|]. intros k e He. apply (Hk k e).
      eapply lookup_weaken; [exact He|apply enforce_cap_subseteq].
Qed.

Lemma session_step_sized ops r :
  sized r ->
  sized (foldl session_step r ops) /\ max_sessions (foldl session_step r ops) = max_sessions r.
Proof.
  revert r. induction ops as [|o ops IH]; intros r Hr; [done|]. cbn [foldl].
  assert (sized (session_step r o)) as Ho
    by (destruct o; [by apply sized_track|by apply sized_touch|by apply sized_evict]).
  destruct (IH _ Ho) as [? ->]. split; [done|].
  destruct o; cbn; [|done..]. unfold track. cbv zeta. by case_bool_decide.
Qed.

(** ** The reference cache *)

(** Keys with the time of their last use, newest first. *)
Definition lru_step (n : nat) (ttl : Z) (l : list (string * Z)) (use : string * Z) : list (string * Z) :=
  use :: take (n - 1) (base.filter (fun kt => kt.1 <> use.1)
                         (base.filter (fun kt => i64_saturating_sub use.2 ttl <= kt.2) l)).

Definition entry (k : string) (t : Z) : SessionEntry :=
  {| se_conversation_id := k; last_active_ms := t |}.

(** The map holds exactly these keys and times. *)
Definition holds (m : gmap string SessionEntry) (l : list (string * Z)) : Prop :=
  forall k e, m !! k = Some e <-> exists t, (k, t) ∈ l /\ e = entry k t.

Definition newest_first (l : list (string * Z)) : Prop :=
  StronglySorted (fun a b => b.2 < a.2) l /\ NoDup l.*1.

Lemma newest_first_sublist l l' : l' `sublist_of` l -> newest_first l -> newest_first l'.
Proof.
  intros Hs [Hl Hn]. split.
  - clear Hn. induction Hs as [|x l' l Hs IH|x l' l Hs IH]; [constructor|..];
      apply StronglySorted_inv in Hl as [Hl Hx].
    + constructor; [by apply IH|]. apply Forall_forall. intros y Hy.
      eapply Forall_forall in Hx; [exact Hx|]. by eapply elem_of_submseteq, sublist_submseteq, Hs.
    + by apply IH.
  - eapply sublist_NoDup; [exact Hn|]. by apply fmap_sublist.
Qed.

Lemma newest_first_functional l k t t' : newest_first l -> (k, t) ∈ l -> (k, t') ∈ l -> t = t'.
Proof.
  intros [_ Hn] [i Hi]%list_elem_of_lookup [j Hj]%list_elem_of_lookup.
  assert (i = j) as <-; [|congruence].
  eapply (NoDup_lookup _ i j k Hn); rewrite list_lookup_fmap; [by rewrite Hi|by rewrite Hj].
Qed.

Lemma holds_size m l : newest_first l -> holds m l -> size m = length l.
Proof.
  intros Hl Hm. pose (l' := (fun kt : string * Z => (kt.1, entry kt.1 kt.2)) <$> l).
  assert (l'.*1 = l.*1) as Hk by (unfold l'; rewrite <- list_fmap_compose; done).
  assert (m = list_to_map l') as ->.
  { apply map_eq. intros k. apply option_eq. intros e. rewrite (Hm k e).
    rewrite <- elem_of_list_to_map by (rewrite Hk; apply Hl). unfold l'.
    rewrite list_elem_of_fmap. split.
    - intros (t & Ht & ->). by exists (k, t).
    - intros ([k' t] & [= -> ->] & Ht). by exists t. }
  rewrite map_size_list_to_map by (rewrite Hk; apply Hl). unfold l'. by rewrite length_fmap.
Qed.

Lemma holds_evict ttl now r l :
  idle_ttl_ms r = ttl -> holds (sessions r) l ->
  holds (sessions (evict_idle now r).2) (base.filter (fun kt => i64_saturating_sub now ttl <= kt.2) l).
Proof.
  intros <- Hl k e. rewrite lookup_evict_idle. split.
  - destruct (sessions r !! k) as [e'|] eqn:E; [|done]. case_decide as Hf; [|done]. intros [= <-].
    apply Hl in E as (t & Ht & ->). exists t. split; [|done]. by apply list_elem_of_filter.
  - intros (t & [Hf Ht]%list_elem_of_filter & ->). cbn in Hf.
    rewrite (proj2 (Hl k (entry k t))) by eauto. by rewrite decide_True.
Qed.

(** With the least recent entry last, the minimum is that entry. *)
Lemma min_is_last m l k t kx rest :
  newest_first (l ++ [(k, t)]) -> holds m (l ++ [(k, t)]) -> btree_iter m = kx :: rest ->
  (min_by_activity kx rest).1 = k.
Proof.
  intros [Hs Hn] Hm Hb. destruct (min_by_activity_spec kx rest) as [Hin Hle]. rewrite <- Hb in Hin, Hle.
  destruct (min_by_activity kx rest) as [k' e']. apply btree_iter_elem, Hm in Hin as (t' & Hin & ->).
  cbn [fst]. apply elem_of_app in Hin as [Hin|[= -> ->]%list_elem_of_singleton]; [|done].
  assert ((k, entry k t) ∈ btree_iter m) as Hk.
  { apply btree_iter_elem, Hm. exists t. split; [set_solver|done]. }
  eapply Forall_forall in Hle; [|exact Hk]. cbn in Hle.
  assert (t < t'); [|lia]. clear - Hs Hin.
  induction l as [|x l IH]; [by apply not_elem_of_nil in Hin|]. cbn in Hs.
  apply StronglySorted_inv in Hs as [Hs Hx]. apply elem_of_cons in Hin as [<-|Hin]; [|by apply IH].
  rewrite Forall_forall in Hx. apply (Hx (k, t)). set_solver.
Qed.

Lemma holds_delete_last m l k t :
  newest_first (l ++ [(k, t)]) -> holds m (l ++ [(k, t)]) -> holds (delete k m) l.
Proof.
  intros [_ Hn] Hm k' e. rewrite fmap_app in Hn. apply NoDup_app in Hn as (_ & Hn & _).
  rewrite lookup_delete_Some, (Hm k' e). split.
  - intros (Hne & t' & Ht & ->). exists t'. split; [|done].
    apply elem_of_app in Ht as [|[= -> _]%list_elem_of_singleton]; done.
  - intros (t' & Ht & ->). split.
    + intros <-. apply (Hn k); [|by apply list_elem_of_singleton].
      apply list_elem_of_fmap. by exists (k, t').
    + exists t'. split; [set_solver|done].
Qed.

Lemma holds_enforce_cap m l n :
  (1 <= n)%nat -> newest_first l -> holds m l -> (length l <= n)%nat ->
  holds (enforce_cap_loop (size m) n m) (take (n - 1) l).
Proof.
  intros Hn Hl Hm Hlen. rewrite (holds_size m l Hl Hm).
  destruct (decide (length l < n)%nat) as [Hlt|Hge].
  - rewrite take_ge by lia. destruct (length l) eqn:E; cbn [enforce_cap_loop]; [done|].
    rewrite (proj2 (Nat.leb_gt _ _)); [done|]. rewrite (holds_size m l Hl Hm). lia.
  - destruct (exists_last (l := l)) as (l' & [k t] & ->); [intros ->; cbn in *; lia|].
    rewrite length_app in *. cbn [length] in *. replace n with (S (length l')) by lia.
    rewrite Nat.sub_succ, Nat.sub_0_r, take_app_length.
    replace (length l' + 1)%nat with (S (length l')) by lia. cbn [enforce_cap_loop].
    pose proof (holds_size m _ Hl Hm) as Hsz. rewrite length_app in Hsz. cbn [length] in Hsz.
    rewrite (proj2 (Nat.leb_le _ _)) by lia.
    destruct (btree_iter m) as [|kx rest] eqn:Eb.
    { apply btree_iter_nil in Eb as ->. rewrite map_size_empty in Hsz. lia. }
    pose proof (size_delete_min _ _ _ Eb) as Hd. rewrite (min_is_last _ _ _ _ _ _ Hl Hm Eb) in *.
    pose proof (holds_delete_last _ _ _ _ Hl Hm) as Hh.
    destruct (length l') eqn:El; cbn [enforce_cap_loop]; [done|].
    rewrite (proj2 (Nat.leb_gt _ _)); [done|]. lia.
Qed.

(** The relation between the registry and the reference, with the time of the
    last use. *)
Definition refines (n : nat) (ttl : Z) (r : SessionRegistry) (l : list (string * Z)) : Prop :=
  max_sessions r = n /\ idle_ttl_ms r = ttl /\ holds (sessions r) l /\
  newest_first l /\ (length l <= n)%nat.

Lemma without_key_sublist id (l : list (string * Z)) :
  base.filter (fun kt => kt.1 <> id) l `sublist_of` l.
Proof.
  induction l as [|kt l IH]; [done|]. rewrite filter_cons.
  case_decide; [by apply sublist_skip|by apply sublist_cons].
Qed.

Lemma without_key_length id t (l : list (string * Z)) :
  (id, t) ∈ l -> (length (base.filter (fun kt => kt.1 <> id) l) < length l)%nat.
Proof.
  induction l as [|kt l IH]; [by intros ?%not_elem_of_nil|]. rewrite filter_cons.
  intros [<-|Hin]%elem_of_cons.
  - rewrite decide_False by (cbn; tauto). cbn [length].
    pose proof (length_filter (fun kt : string * Z => kt.1 <> id) l). lia.
  - specialize (IH Hin). case_decide; cbn; lia.
Qed.

Lemma holds_set_key m l id now :
  holds m (base.filter (fun kt => kt.1 <> id) l) \/ holds m l ->
  holds (<[id := entry id now]> m) ((id, now) :: base.filter (fun kt => kt.1 <> id) l).
Proof.
  intros Hm k e. destruct (decide (k = id)) as [->|Hne].
  - rewrite lookup_insert_eq. split.
    + intros [= <-]. exists now. split; [by left|done].
    + intros (t & [[= ->]|[? _]%list_elem_of_filter]%elem_of_cons & ->); done.
  - rewrite lookup_insert_ne by done.
    assert (m !! k = Some e <-> exists t, (k, t) ∈ base.filter (fun kt : string * Z => kt.1 <> id) l /\ e = entry k t) as ->.
    { destruct Hm as [Hm|Hm]; rewrite (Hm k e); [done|]. f_equiv. intros t.
      rewrite list_elem_of_filter. cbn. tauto. }
    f_equiv. intros t. rewrite elem_of_cons. intuition congruence.
Qed.

Lemma track_refines n ttl r l id now :
  (1 <= n)%nat -> refines n ttl r l -> Forall (fun kt => kt.2 < now) l ->
  refines n ttl (track id now r) (lru_step n ttl l (id, now)).
Proof.
  intros Hn (Hmax & Httl & Hh & Hl & Hlen) Hnow.
  pose proof (holds_evict ttl now r l Httl Hh) as He. unfold lru_step, track. cbn [fst snd]. cbv zeta.
  set (f := base.filter (fun kt : string * Z => i64_saturating_sub now ttl <= kt.2) l) in *.
  assert (f `sublist_of` l) as Hf.
  { subst f. clear. induction l as [|kt l IH]; [done|]. rewrite filter_cons.
    case_decide; [by apply sublist_skip|by apply sublist_cons]. }
  pose proof (newest_first_sublist _ _ Hf Hl) as Hlf. pose proof (sublist_length _ _ Hf) as Hlenf.
  assert (Forall (fun kt => kt.2 < now) f) as Hnf.
  { apply Forall_forall. intros x Hx. eapply Forall_forall in Hnow; [exact Hnow|]. by eapply elem_of_sublist. }
  assert (max_sessions (evict_idle now r).2 = n /\ idle_ttl_ms (evict_idle now r).2 = ttl) as [Hm1 Ht1] by done.
  generalize dependent (evict_idle now r).2. intros r1 He Hm1 Ht1. clearbody f. clear Hf Hl Hh Hnow.
  set (g := base.filter (fun kt : string * Z => kt.1 <> id) f).
  assert (forall g', g' `sublist_of` g -> newest_first ((id, now) :: g')) as Hgn.
  { intros g' Hg'. assert (g' `sublist_of` f) as Hgf by (etrans; [exact Hg'|apply without_key_sublist]).
    destruct (newest_first_sublist _ _ Hgf Hlf) as [Hs Hd]. split.
    - constructor; [done|]. apply Forall_forall. intros x Hx.
      eapply Forall_forall in Hnf; [exact Hnf|]. by eapply elem_of_sublist.
    - cbn. constructor; [|done]. intros ([k t] & -> & Hx)%list_elem_of_fmap.
      eapply elem_of_sublist in Hx; [|exact Hg']. by apply list_elem_of_filter in Hx as [? _]. }
  case_bool_decide as Hi.
  - destruct Hi as [e Hi]. pose proof Hi as Hi'. apply He in Hi' as (t & Ht & ->).
    assert (length g < length f)%nat by by eapply without_key_length.
    rewrite take_ge by lia. split_and!; [done|done| |by apply Hgn|cbn; lia].
    cbn [touch set_sessions sessions]. rewrite (alter_alt_Some _ _ _ _ Hi).
    apply holds_set_key. by right.
  - assert (g = f) as Hgf.
    { apply filter_all, Forall_forall. intros [k t] Ht Hk. cbn in Hk. subst k. apply Hi.
      exists (entry id t). apply He. by exists t. }
    clearbody g. subst g.
    pose proof (sublist_take f (n - 1)) as Htk.
    split_and!; [done|done| |by apply Hgn|cbn [length]; rewrite length_take; lia].
    cbn [set_sessions sessions enforce_cap]. rewrite Hm1.
    pose proof (holds_enforce_cap (sessions r1) f n Hn Hlf He ltac:(lia)) as Hc.
    assert (base.filter (fun kt : string * Z => kt.1 <> id) (take (n - 1) f) = take (n - 1) f) as Hno.
    { apply filter_all, Forall_forall. intros [k t] Ht Hk. cbn in Hk. subst k. apply Hi.
      exists (entry id t). apply He. exists t. split; [by eapply elem_of_sublist|done]. }
    rewrite <- Hno. apply holds_set_key. by right.
Qed.

Lemma lru_step_newest n ttl l use now :
  use.2 < now -> Forall (fun kt => kt.2 < now) l -> Forall (fun kt => kt.2 < now) (lru_step n ttl l use).
Proof.
  intros Hu Hl. unfold lru_step. constructor; [done|]. apply Forall_take.
  apply Forall_forall. intros x [_ [_ Hx]%list_elem_of_filter]%list_elem_of_filter.
  rewrite Forall_forall in Hl. by apply Hl.
Qed.

Lemma tracks_refine n ttl uses r l :
  (1 <= n)%nat -> refines n ttl r l ->
  StronglySorted (fun a b => a.2 < b.2) uses ->
  Forall (fun kt => Forall (fun use => kt.2 < use.2) uses) l ->
  refines n ttl (foldl (fun r use => track use.1 use.2 r) r uses) (foldl (lru_step n ttl) l uses).
Proof.
  intros Hn. revert r l. induction uses as [|[id now] uses IH]; intros r l Hr Hs Hl; [done|].
  apply StronglySorted_inv in Hs as [Hs Hx]. cbn [foldl fst snd].
  assert (Forall (fun kt => kt.2 < now) l) as Hnow.
  { eapply Forall_impl; [exact Hl|]. intros kt Hk. by apply Forall_cons in Hk as [? _]. }
  apply IH; [by apply track_refines|done|].
  apply Forall_forall. intros kt Hkt. apply Forall_forall. intros use Huse.
  rewrite Forall_forall in Hx. specialize (Hx use Huse). cbn in Hx.
  assert (Forall (fun kt => kt.2 < use.2) (lru_step n ttl l (id, now))) as Hall.
  { apply lru_step_newest; [done|]. eapply Forall_impl; [exact Hnow|]. cbn. intros. lia. }
  rewrite Forall_forall in Hall. by apply Hall.
Qed.

(** ** Properties *)

(** The registry is a least-recently-used cache.  Whatever the clock does,
    no sequence of operations exceeds the session limit, and resolving a key
    answers that key and leaves it tracked with the time of the call.  When the
    clock moves forward between uses, the tracked sessions are exactly those of
    the reference that keeps the most recent keys, drops the idle ones and
    never loses a key that is both recent enough and among the newest. *)
Lemma session_registry_is_lru n ttl ops key now uses :
  let start := new_registry n ttl in
  (let r := foldl session_step start ops in
   (size (sessions r) <= Nat.max n 1)%nat /\
   (resolve_session key now r).1 = key /\
   sessions (resolve_session key now r).2 !! key = Some (entry key now)) /\
  (StronglySorted (fun a b => a.2 < b.2) uses ->
   forall k e,
     sessions (foldl (fun r use => (resolve_session use.1 use.2 r).2) start uses) !! k = Some e <->
     exists t, (k, t) ∈ foldl (lru_step (Nat.max n 1) (Z.max ttl 1)) [] uses /\ e = entry k t).
Proof.
  intros start. split.
  - intros r. assert (sized start) as Hs.
    { split_and!; cbn; [lia|rewrite map_size_empty; lia|apply map_Forall_empty]. }
    destruct (session_step_sized ops start Hs) as [Hr Hm]. fold r in Hr, Hm.
    destruct (sized_track key now r Hr) as [_ Hk]. split_and!.
    + destruct Hr as (_ & Hr & _). rewrite Hm in Hr. exact Hr.
    + cbn [resolve_session fst]. unfold conversation_id. by rewrite Hk.
    + exact Hk.
  - intros Hs. assert (refines (Nat.max n 1) (Z.max ttl 1) start []) as Hstart.
    { split_and!; try done; cbn; [|split; constructor|lia].
      intros k e. rewrite lookup_empty. split; [done|]. intros (t & ?%not_elem_of_nil & _). done. }
    destruct (tracks_refine (Nat.max n 1) (Z.max ttl 1) uses start [] ltac:(lia) Hstart Hs
                ltac:(constructor)) as (_ & _ & Hh & _). exact Hh.
Qed.

(** Three uses of a registry for two sessions. *)
Definition three_uses : list (string * Z) := [("a", 1000); ("b", 2000); ("c", 3000)].

Lemma session_registry_is_lru_witness :
  exists t, ("b", t) ∈ foldl (lru_step 2 60000) [] three_uses /\ entry "b" 2000 = entry "b" t.
Proof.
  apply (proj2 (session_registry_is_lru 2 60000 [] "a" 0 three_uses)).
  - repeat constructor.
  - vm_compute. reflexivity.
Defined.
