(* ===== verification/ServiceCtl.v ===== *)
(** * Services of the host ([genie-governor/src/service_ctl.rs])

    Starting, stopping and querying systemd units and Docker containers, and
    the model override of the LLM service.  The host runs the commands: it is a
    parameter, an instance of [Host], and [HostLaws] states what the commands
    are documented to do to the set of active units. *)

From S2P Require Import Prelude RustStr RustNum.
Local Open Scope string_scope.
Local Open Scope list_scope.
Local Open Scope rust_scope.

(** What a bounded run of a command comes to. *)
Inductive CmdOutcome :=
| Exited (success : bool) (stderr : string)
| SpawnFailed (error : string)
| TimedOut.

Record IoError := { io_not_found : bool; io_text : string }.

Class Host (W : Type) := {
  command : list string -> W -> CmdOutcome * W;
  create_dir_all : string -> W -> result unit IoError * W;
  write_file : string -> string -> W -> result unit IoError * W;
  remove_file : string -> W -> result unit IoError * W;
  path_exists : string -> W -> bool * W;
  read_meminfo : W -> result string IoError * W;
  (** Seconds since the epoch, and what [localtime_r] makes of them. *)
  unix_secs : W -> N * W;
  localtime_hour : N -> W -> option N * W;
  store_now_ms : W -> N * W;
  uptime_secs : W -> N * W;
  insert_transition : N -> string -> string -> string -> W -> result unit string * W;
  (** The writes whose outcome is dropped. *)
  log_snapshot : W -> W;
  prune_store : W -> W;
}.

Definition SERVICE_CTL_TIMEOUT : string := "10s".

Section service_ctl.
Context {W : Type} `{H : Host W}.

Definition start (unit_name : string) : M W (result unit string) :=
  let! output := command ["systemctl"; "start"; unit_name] in
  ret (match output with
       | SpawnFailed e => Err e
       | TimedOut => Err ("systemctl start " +:+ unit_name +:+ " timed out after " +:+ SERVICE_CTL_TIMEOUT)
       | Exited true _ => Ok tt
       | Exited false stderr => Err ("systemctl start " +:+ unit_name +:+ " failed: " +:+ stderr)
       end).

Definition stop (unit_name : string) : M W (result unit string) :=
  let! output := command ["systemctl"; "stop"; unit_name] in
  ret (match output with
       | SpawnFailed e => Err e
       | TimedOut => Err ("systemctl stop " +:+ unit_name +:+ " timed out after " +:+ SERVICE_CTL_TIMEOUT)
       | Exited true _ => Ok tt
       | Exited false stderr =>
           if contains stderr "not loaded" then Ok tt
           else Err ("systemctl stop " +:+ unit_name +:+ " failed: " +:+ stderr)
       end).

Definition is_active (unit_name : string) : M W bool :=
  let! output := command ["systemctl"; "is-active"; "--quiet"; unit_name] in
  ret (match output with Exited success _ => success | _ => false end).

(** Failures of Docker itself are only logged. *)
Definition docker_stop (container : string) : M W (result unit string) :=
  let! output := command ["docker"; "stop"; "-t"; "10"; container] in
  ret (match output with SpawnFailed e => Err e | _ => Ok tt end).

Definition docker_start (container : string) : M W (result unit string) :=
  let! output := command ["docker"; "start"; container] in
  ret (match output with
       | SpawnFailed e => Err e
       | TimedOut => Err ("docker start " +:+ container +:+ " timed out after " +:+ SERVICE_CTL_TIMEOUT)
       | Exited true _ => Ok tt
       | Exited false stderr => Err ("docker start " +:+ container +:+ " failed: " +:+ stderr)
       end).

Definition normalize_systemd_unit (unit_name : string) : string :=
  if contains unit_name "." then unit_name else unit_name +:+ ".service".

Definition llm_override_dir_for_unit (unit_name : string) : string :=
  "/etc/systemd/system/" +:+ normalize_systemd_unit unit_name +:+ ".d".

Definition line_feed : string := String (Ascii.ascii_of_nat 10) "".
Definition double_quote : string := String (Ascii.ascii_of_nat 34) "".

Definition override_content (model_path : string) : string :=
  "[Service]" +:+ line_feed +:+ "Environment=" +:+ double_quote +:+ "GENIEPOD_LLM_MODEL=" +:+
  model_path +:+ double_quote +:+ line_feed.

Definition io_result (op : W -> result unit IoError * W) : M W (result unit string) :=
  let! r := op in ret (match r with Ok _ => Ok tt | Err e => Err (io_text e) end).

Definition swap_llm_model (unit_name model_path : string) : M W (result unit string) :=
  let unit_name := normalize_systemd_unit unit_name in
  let override_dir := llm_override_dir_for_unit unit_name in
  let!? _ := io_result (create_dir_all override_dir) in
  let!? _ := io_result (write_file (override_dir +:+ "/model-override.conf") (override_content model_path)) in
  let! output := command ["systemctl"; "daemon-reload"] in
  match output with
  | SpawnFailed e => ret (Err e)
  | TimedOut => ret (Err ("systemctl daemon-reload timed out after " +:+ SERVICE_CTL_TIMEOUT))
  | Exited false stderr => ret (Err ("systemctl daemon-reload failed: " +:+ stderr))
  | Exited true _ =>
      let! output := command ["systemctl"; "restart"; unit_name] in
      ret (match output with
           | SpawnFailed e => Err e
           | TimedOut => Err ("systemctl restart " +:+ unit_name +:+ " timed out after " +:+ SERVICE_CTL_TIMEOUT)
           | Exited true _ => Ok tt
           | Exited false stderr => Err ("systemctl restart " +:+ unit_name +:+ " failed: " +:+ stderr)
           end)
  end.

(** The shell script of [enable_zram], which the host runs. *)
Definition enable_zram (script : string) : M W (result unit string) :=
  let! output := command ["sh"; "-c"; script] in
  ret (match output with SpawnFailed e => Err e | _ => Ok tt end).

End service_ctl.

(** ** What the host is documented to do *)

(** Only this unit may change its state. *)
Definition only (u : string) (a b : gset string) : Prop := a ∖ {[u]} = b ∖ {[u]}.

Definition command_law (args : list string) (a : gset string) (o : CmdOutcome) (b : gset string) : Prop :=
  match args with
  | [program; verb; flag; u] =>
      if String.eqb program "systemctl" && String.eqb verb "is-active" && String.eqb flag "--quiet"
      then b = a /\ exists e, o = Exited (bool_decide (u ∈ a)) e
      else b = a
  | [program; verb; u] =>
      if negb (String.eqb program "systemctl") then b = a
      else if String.eqb verb "start" || String.eqb verb "restart" then
        only u a b /\ forall e, o = Exited true e -> u ∈ b
      else if String.eqb verb "stop" then
        only u a b /\ (forall e, o = Exited true e -> u ∉ b) /\
        (forall e, o = Exited false e -> contains e "not loaded" = true -> u ∉ b)
      else b = a
  | _ => b = a
  end.

Class HostLaws (W : Type) `{H : Host W} := {
  (** The active units, and the files that exist. *)
  units : W -> gset string;
  files : W -> gset string;
  law_command args w :
    let '(o, w') := command args w in
    command_law args (units w) o (units w') /\ files w' = files w;
  law_create_dir path w :
    let '(_, w') := create_dir_all path w in units w' = units w /\ files w' = files w;
  law_write path text w :
    let '(r, w') := write_file path text w in
    units w' = units w /\ files w' ∖ {[path]} = files w ∖ {[path]} /\ (is_ok r = true -> path ∈ files w');
  law_remove path w :
    let '(r, w') := remove_file path w in
    units w' = units w /\ files w' ∖ {[path]} = files w ∖ {[path]} /\ files w' ⊆ files w /\
    (r = Ok tt \/ (exists e, r = Err e /\ io_not_found e = true) -> path ∉ files w');
  law_exists path w :
    let '(b, w') := path_exists path w in
    units w' = units w /\ files w' = files w /\ b = bool_decide (path ∈ files w);
  law_meminfo w : let '(_, w') := read_meminfo w in units w' = units w /\ files w' = files w;
  law_unix_secs w : let '(_, w') := unix_secs w in units w' = units w /\ files w' = files w;
  law_localtime n w : let '(_, w') := localtime_hour n w in units w' = units w /\ files w' = files w;
  law_store_now w : let '(_, w') := store_now_ms w in units w' = units w /\ files w' = files w;
  law_uptime w : let '(_, w') := uptime_secs w in units w' = units w /\ files w' = files w;
  law_insert ts a b c w :
    let '(_, w') := insert_transition ts a b c w in units w' = units w /\ files w' = files w;
  law_snapshot w : units (log_snapshot w) = units w /\ files (log_snapshot w) = files w;
  law_prune w : units (prune_store w) = units w /\ files (prune_store w) = files w;
}.

(** ** A host with failures on demand *)

Record demo_host := {
  dh_units : gset string;
  dh_files : gset string;
  dh_meminfo : string;
  dh_hour : N;
}.

Definition dh_set_units (u : gset string) (h : demo_host) : demo_host :=
  {| dh_units := u; dh_files := dh_files h; dh_meminfo := dh_meminfo h; dh_hour := dh_hour h |}.
Definition dh_set_files (f : gset string) (h : demo_host) : demo_host :=
  {| dh_units := dh_units h; dh_files := f; dh_meminfo := dh_meminfo h; dh_hour := dh_hour h |}.

Section demo.
(** The units that refuse to start, and those that refuse to stop. *)
Context (no_start no_stop : list string).

Definition dh_command (args : list string) (h : demo_host) : CmdOutcome * demo_host :=
  match args with
  | [program; verb; flag; u] =>
      if String.eqb program "systemctl" && String.eqb verb "is-active" && String.eqb flag "--quiet"
      then (Exited (bool_decide (u ∈ dh_units h)) "", h) else (Exited true "", h)
  | [program; verb; u] =>
      if negb (String.eqb program "systemctl") then (Exited true "", h)
      else if String.eqb verb "start" || String.eqb verb "restart" then
        if existsb (String.eqb u) no_start then (Exited false "start refused", h)
        else (Exited true "", dh_set_units ({[u]} ∪ dh_units h) h)
      else if String.eqb verb "stop" then
        if existsb (String.eqb u) no_stop then (Exited false "stop refused", h)
        else (Exited true "", dh_set_units (dh_units h ∖ {[u]}) h)
      else (Exited true "", h)
  | _ => (Exited true "", h)
  end.

Definition demo_ops : Host demo_host := {|
  command := dh_command;
  create_dir_all _ h := (Ok tt, h);
  write_file path _ h := (Ok tt, dh_set_files ({[path]} ∪ dh_files h) h);
  remove_file path h :=
    (if bool_decide (path ∈ dh_files h) then Ok tt
     else Err {| io_not_found := true; io_text := "not found" |},
     dh_set_files (dh_files h ∖ {[path]}) h);
  path_exists path h := (bool_decide (path ∈ dh_files h), h);
  read_meminfo h := (Ok (dh_meminfo h), h);
  unix_secs h := (0%N, h);
  localtime_hour _ h := (Some (dh_hour h), h);
  store_now_ms h := (0%N, h);
  uptime_secs h := (0%N, h);
  insert_transition _ _ _ _ h := (Ok tt, h);
  log_snapshot h := h;
  prune_store h := h;
|}.

Lemma demo_command_law args h :
  let '(o, h') := dh_command args h in
  command_law args (dh_units h) o (dh_units h') /\ dh_files h' = dh_files h.
Proof.
  unfold dh_command, command_law, only.
  destruct args as [|program [|verb [|u [|v [|? ?]]]]]; try done.
  - destruct (String.eqb program "systemctl"); cbn [negb]; [|done].
    destruct (String.eqb verb "start" || String.eqb verb "restart").
    + destruct (existsb _ _); cbn; split_and!; try done; set_solver.
    + destruct (String.eqb verb "stop"); [|done].
      destruct (existsb _ _); cbn; split_and!; try done; try set_solver.
  - destruct (_ && _); cbn; split_and!; try done. by exists "".
Qed.

Definition demo_laws : @HostLaws demo_host demo_ops.
Proof.
  unshelve econstructor; [exact dh_units|exact dh_files|..]; try done.
  - apply demo_command_law.
  - intros path text h. cbn. set_solver.
  - intros path h. cbn. set_solver.
Defined.

End demo.
