(* ===== verification/Governor.v ===== *)
(** * The mode governor ([genie-governor/src/governor.rs], [genie-common/src/mode.rs])

    Which mode the device should be in, the services each mode needs or stops,
    and the transition between two modes with its rollback.  The loop of
    [Governor::run] interleaves whole [tick]s and whole commands, so the state
    is that of a sequence of them. *)

From S2P Require Import Prelude RustStr RustNum ServiceCtl.
From Stdlib Require Import Ascii.
Local Open Scope string_scope.
Local Open Scope list_scope.
Local Open Scope rust_scope.

(** ** Modes *)

Module Mode.

Inductive t : Set := Day | NightA | NightB | Media | Pressure.

#[export] Instance eq_dec : EqDecision t.
Proof. solve_decision. Defined.

Definition required_services (m : t) : list string :=
  match m with
  | Day | NightA => ["genie-wakeword"; "genie-core"; "llm"; "genie-mqtt"; "homeassistant"]
  | NightB => ["genie-wakeword"; "genie-core"; "llm"; "genie-mqtt"]
  | Media => ["genie-wakeword"; "genie-core"; "genie-mqtt"]
  | Pressure => ["genie-wakeword"; "genie-core"; "llm"; "genie-mqtt"]
  end.

Definition stopped_services (m : t) : list string :=
  match m with
  | Day | NightA => []
  | NightB => ["homeassistant"; "nextcloud"; "jellyfin"]
  | Media => ["llm"; "nextcloud"; "jellyfin"]
  | Pressure => ["nextcloud"; "jellyfin"]
  end.

Definition llm_model (m : t) : option string :=
  match m with
  | Day | NightA | Pressure => Some "nemotron-4b-q4_k_m.gguf"
  | NightB => Some "nemotron-9b-q4.gguf"
  | Media => None
  end.

Definition to_string (m : t) : string :=
  match m with
  | Day => "day" | NightA => "night_a" | NightB => "night_b" | Media => "media" | Pressure => "pressure"
  end.

End Mode.
Export (hints) Mode.

(** ** Configuration *)

Record PressureConfig := {
  stop_optins_mb : N;
  reduce_context_mb : N;
  swap_stt_mb : N;
  zram_mb : N;
}.

Record GovernorConfig := {
  poll_interval_ms : N;
  night_start_hour : N;
  day_start_hour : N;
  night_model_swap : bool;
  pressure : PressureConfig;
}.

(** The systemd units of the configured services. *)
Record ServiceUnits := {
  core_unit : string;
  llm_unit : string;
  api_unit : string;
  homeassistant_unit : option string;
  nextcloud_unit : option string;
  jellyfin_unit : option string;
}.

Definition manages_service_alias (services : ServiceUnits) (alias : string) : bool :=
  if existsb (String.eqb alias) ["core"; "genie-core"; "llm"; "genie-llm"; "api"; "genie-api"] then true
  else if String.eqb alias "homeassistant" then bool_decide (is_Some (homeassistant_unit services))
  else if String.eqb alias "nextcloud" then bool_decide (is_Some (nextcloud_unit services))
  else if String.eqb alias "jellyfin" then bool_decide (is_Some (jellyfin_unit services))
  else true.

Definition service_unit_for_alias (services : ServiceUnits) (alias : string) : option string :=
  if existsb (String.eqb alias) ["core"; "genie-core"] then Some (core_unit services)
  else if existsb (String.eqb alias) ["llm"; "genie-llm"] then Some (llm_unit services)
  else if existsb (String.eqb alias) ["api"; "genie-api"] then Some (api_unit services)
  else if String.eqb alias "homeassistant" then homeassistant_unit services
  else if String.eqb alias "nextcloud" then nextcloud_unit services
  else if String.eqb alias "jellyfin" then jellyfin_unit services
  else if manages_service_alias services alias then Some alias
  else None.

(** ** State *)

Record Governor (W : Type) := {
  host : W;
  current_mode : Mode.t;
  zram_enabled : bool;
  prune_counter : N;
  last_mem_avail_mb : option N;
  (** Whether the tegrastats reader runs and has delivered a snapshot. *)
  has_snapshot : bool;
}.
Arguments host {W} _.
Arguments current_mode {W} _.
Arguments zram_enabled {W} _.
Arguments prune_counter {W} _.
Arguments last_mem_avail_mb {W} _.
Arguments has_snapshot {W} _.

Definition new_governor {W} (w : W) (snapshots : bool) : Governor W :=
  {| host := w; current_mode := Mode.Day; zram_enabled := false; prune_counter := 0;
     last_mem_avail_mb := None; has_snapshot := snapshots |}.

Record StoppedService := { ss_alias : string; ss_unit : string }.

(** ** Choosing a mode *)

(** [mem_available_mb]: the first [MemAvailable] line of [/proc/meminfo], in MB;
    callers only log the error. *)
Fixpoint trim_end_suffix (fuel : nat) (s suffix : string) : string :=
  match fuel with
  | S fuel =>
      if ends_with s suffix
      then trim_end_suffix fuel (String.substring 0 (String.length s - String.length suffix) s) suffix
      else s
  | O => s
  end.

Definition mem_available_mb (contents : string) : option N :=
  match filter_map (fun line => strip_prefix line "MemAvailable:") (lines_of contents) with
  | [] => None
  | rest :: _ =>
      let rest := trim rest in
      kb ← parse_u64 (trim (trim_end_suffix (String.length rest) rest " kB"));
      Some (kb / 1024)%N
  end.

Definition is_night (night_start day_start hour : N) : bool :=
  if (day_start <? night_start)%N then (night_start <=? hour)%N || (hour <? day_start)%N
  else (night_start <=? hour)%N && (hour <? day_start)%N.

Definition time_based_mode (cfg : GovernorConfig) (hour : N) : Mode.t :=
  if is_night (night_start_hour cfg) (day_start_hour cfg) hour
  then (if night_model_swap cfg then Mode.NightB else Mode.NightA)
  else Mode.Day.

(** The code reads the hour only where it decides; here the caller has read
    the clock. *)
Definition determine_mode (cfg : GovernorConfig) (current : Mode.t) (mem_avail_mb : option N)
    (media_active : bool) (hour : N) : Mode.t :=
  match mem_avail_mb with
  | None => current
  | Some mb =>
      if (mb <? stop_optins_mb (pressure cfg))%N then Mode.Pressure
      else if media_active then Mode.Media
      else time_based_mode cfg hour
  end.

Definition determine_mode_after_media (cfg : GovernorConfig) (current : Mode.t)
    (mem_avail_mb : option N) (hour : N) : Mode.t :=
  match mem_avail_mb with
  | Some mb => if (mb <? stop_optins_mb (pressure cfg))%N then Mode.Pressure else time_based_mode cfg hour
  | None => if bool_decide (current = Mode.Pressure) then Mode.Pressure else time_based_mode cfg hour
  end.

(** ** What a transition changes *)

Definition transition_changes_llm_weights (from target : Mode.t) : bool :=
  match Mode.llm_model from, Mode.llm_model target with
  | Some from_model, Some to_model => negb (String.eqb from_model to_model)
  | Some _, None | None, Some _ => true
  | None, None => false
  end.

Definition llm_model_for_transition (from target : Mode.t) : option string :=
  if bool_decide (target = Mode.Media) then None
  else if transition_changes_llm_weights from target then Mode.llm_model target
  else None.

Definition service_aliases_to_restore (from : Mode.t) (stopped : list StoppedService) : list string :=
  List.filter (fun alias => existsb (String.eqb alias) (Mode.required_services from)) (ss_alias <$> stopped).

Inductive MediaMarkerRollback : Set := RestoreMarker | RemoveMarker | MarkerUnchanged.

Definition media_marker_rollback_action (from target : Mode.t) : MediaMarkerRollback :=
  match bool_decide (from = Mode.Media), bool_decide (target = Mode.Media) with
  | true, false => RestoreMarker
  | false, true => RemoveMarker
  | _, _ => MarkerUnchanged
  end.

Inductive LlmRollback := RestoreModel (model : string) | StopService | LlmUnchanged.

Definition llm_rollback_action (from target : Mode.t) : LlmRollback :=
  if negb (transition_changes_llm_weights from target) then LlmUnchanged
  else match Mode.llm_model from with
       | Some model => RestoreModel model
       | None => StopService
       end.

Definition MEDIA_MARKER : string := "/run/geniepod/media_mode".
Definition RUN_DIR : string := "/run/geniepod".
Definition model_path (model : string) : string := "/opt/geniepod/models/" +:+ model.

(** ** Transitions *)

Section transitions.
Context {W : Type} `{H : Host W}.
Context (services : ServiceUnits).

Definition llm_service_unit : string :=
  default "genie-ai-runtime.service" (service_unit_for_alias services "llm").

(** The stop loop: [stop] returns early, with what was stopped so far lost. *)
Fixpoint stop_services (aliases : list string) (stopped : list StoppedService)
    : M W (result (list StoppedService) string) :=
  match aliases with
  | [] => ret (Ok stopped)
  | alias :: aliases =>
      match service_unit_for_alias services alias with
      | None => stop_services aliases stopped
      | Some unit_name =>
          let! active := is_active unit_name in
          if active then
            let!? _ := stop unit_name in
            stop_services aliases (stopped ++ [{| ss_alias := alias; ss_unit := unit_name |}])
          else stop_services aliases stopped
      end
  end.

Definition apply_llm_swaps (from target : Mode.t) (stopped : list StoppedService)
    : M W (result (list StoppedService) string) :=
  if bool_decide (target = Mode.Media) then
    let! active := is_active llm_service_unit in
    if active then
      let!? _ := stop llm_service_unit in
      ret (Ok (stopped ++ [{| ss_alias := "llm"; ss_unit := llm_service_unit |}]))
    else ret (Ok stopped)
  else
    match llm_model_for_transition from target with
    | Some model =>
        let!? _ := swap_llm_model llm_service_unit (model_path model) in
        ret (Ok stopped)
    | None => ret (Ok stopped)
    end.

(** The start loop: what was started, and the error that ended it. *)
Fixpoint start_services (aliases : list string) (started : list string)
    : M W (result unit string * list string) :=
  match aliases with
  | [] => ret (Ok tt, started)
  | alias :: aliases =>
      match service_unit_for_alias services alias with
      | None => start_services aliases started
      | Some unit_name =>
          let! active := is_active unit_name in
          if active then start_services aliases started
          else
            let! r := start unit_name in
            match r with
            | Err e => ret (Err e, started)
            | Ok _ => start_services aliases (started ++ [unit_name])
            end
      end
  end.

Fixpoint stop_each (unit_names : list string) : M W unit :=
  match unit_names with
  | [] => ret tt
  | unit_name :: unit_names => let! _ := stop unit_name in stop_each unit_names
  end.

Fixpoint restart_each (aliases : list string) : M W unit :=
  match aliases with
  | [] => ret tt
  | alias :: aliases =>
      match service_unit_for_alias services alias with
      | None => restart_each aliases
      | Some unit_name => let! _ := start unit_name in restart_each aliases
      end
  end.

Definition rollback_marker (from target : Mode.t) : M W unit :=
  match media_marker_rollback_action from target with
  | RestoreMarker =>
      let! r := create_dir_all RUN_DIR in
      match r with
      | Err _ => ret tt
      | Ok _ => let! _ := write_file MEDIA_MARKER "1" in ret tt
      end
  | RemoveMarker => let! _ := remove_file MEDIA_MARKER in ret tt
  | MarkerUnchanged => ret tt
  end.

Definition rollback_llm (from target : Mode.t) : M W unit :=
  match llm_rollback_action from target with
  | RestoreModel model => let! _ := swap_llm_model llm_service_unit (model_path model) in ret tt
  | StopService =>
      let! active := is_active llm_service_unit in
      if active then let! _ := stop llm_service_unit in ret tt else ret tt
  | LlmUnchanged => ret tt
  end.

Definition rollback_transition (from target : Mode.t) (stopped : list StoppedService)
    (started : list string) : M W unit :=
  let! _ := stop_each (reverse started) in
  let! _ := restart_each (service_aliases_to_restore from stopped) in
  let! _ := rollback_marker from target in
  rollback_llm from target.

(** Leaving Media removes the marker, whatever comes of it. *)
Definition clear_marker (from : Mode.t) : M W unit :=
  if bool_decide (from = Mode.Media)
  then let! _ := remove_file MEDIA_MARKER in ret tt else ret tt.

(** [transition], up to the assignment of the current mode. *)
Definition run_transition (ts_ms : N) (from target : Mode.t) : M W (result unit string) :=
  let!? stopped := stop_services (Mode.stopped_services target) [] in
  let! swapped := apply_llm_swaps from target stopped in
  match swapped with
  | Err e =>
      let! _ := rollback_transition from target stopped [] in
      ret (Err e)
  | Ok stopped =>
      let! _ := clear_marker from in
      let! (r, started) := start_services (Mode.required_services target) [] in
      match r with
      | Err e =>
          let! _ := rollback_transition from target stopped started in
          ret (Err e)
      | Ok _ =>
          insert_transition ts_ms (Mode.to_string from) (Mode.to_string target)
            (Mode.to_string from +:+ " -> " +:+ Mode.to_string target)
      end
  end.

End transitions.

(** ** The governor *)

Section governor.
Context {W : Type} `{H : Host W}.
Context (cfg : GovernorConfig) (services : ServiceUnits).
(** The script [enable_zram] hands to the shell. *)
Context (zram_script : string).
Notation G := (Governor W).

Definition set_host (w : W) (g : G) : G :=
  {| host := w; current_mode := current_mode g; zram_enabled := zram_enabled g;
     prune_counter := prune_counter g; last_mem_avail_mb := last_mem_avail_mb g;
     has_snapshot := has_snapshot g |}.
Definition set_mode (m : Mode.t) (g : G) : G :=
  {| host := host g; current_mode := m; zram_enabled := zram_enabled g;
     prune_counter := prune_counter g; last_mem_avail_mb := last_mem_avail_mb g;
     has_snapshot := has_snapshot g |}.
Definition set_zram (b : bool) (g : G) : G :=
  {| host := host g; current_mode := current_mode g; zram_enabled := b;
     prune_counter := prune_counter g; last_mem_avail_mb := last_mem_avail_mb g;
     has_snapshot := has_snapshot g |}.
Definition set_prune_counter (n : N) (g : G) : G :=
  {| host := host g; current_mode := current_mode g; zram_enabled := zram_enabled g;
     prune_counter := n; last_mem_avail_mb := last_mem_avail_mb g; has_snapshot := has_snapshot g |}.
Definition set_last_mem (o : option N) (g : G) : G :=
  {| host := host g; current_mode := current_mode g; zram_enabled := zram_enabled g;
     prune_counter := prune_counter g; last_mem_avail_mb := o; has_snapshot := has_snapshot g |}.

Definition on_host {A} (m : M W A) : M G A := zoom host set_host m.

Definition current_hour : M G N :=
  let! secs := on_host unix_secs in
  let! hour := on_host (localtime_hour secs) in
  ret (match hour with Some h => h | None => (secs mod 86400) / 3600 end)%N.

Definition read_mem_avail_mb : M G (option N) :=
  let! contents := on_host read_meminfo in
  fun g =>
    match (match contents with Ok text => mem_available_mb text | Err _ => None end) with
    | Some mb => (Some mb, set_last_mem (Some mb) g)
    | None => (last_mem_avail_mb g, g)
    end.

Definition transition (ts_ms : N) (target : Mode.t) : M G (result unit string) :=
  fun g =>
    if bool_decide (target = current_mode g) then (Ok tt, g)
    else
      (let! r := on_host (run_transition services ts_ms (current_mode g) target) in
       fun g => match r with
                | Ok _ => (Ok tt, set_mode target g)
                | Err e => (Err e, g)
                end) g.

Definition handle_pressure (mem_avail_mb : N) : M G (result unit string) :=
  let! r :=
    (fun g =>
       if (mem_avail_mb <? zram_mb (pressure cfg))%N && negb (zram_enabled g) then
         (let!? _ := on_host (enable_zram zram_script) in
          fun g => (Ok tt, set_zram true g)) g
       else (Ok tt, g)) in
  match r with
  | Err e => ret (Err e)
  | Ok _ =>
      if (mem_avail_mb <? stop_optins_mb (pressure cfg))%N then
        let! _ := (if manages_service_alias services "nextcloud"
                   then on_host (docker_stop "nextcloud") else ret (Ok tt)) in
        let! _ := (if manages_service_alias services "jellyfin"
                   then on_host (docker_stop "jellyfin") else ret (Ok tt)) in
        ret (Ok tt)
      else ret (Ok tt)
  end.

(** The hourly pruning, at the end of a tick that got that far. *)
Definition count_prune : M G unit :=
  fun g =>
    let n := u32_wrap (prune_counter g + 1) in
    if (720 <=? n)%N then (tt, set_host (prune_store (host g)) (set_prune_counter 0 g))
    else (tt, set_prune_counter n g).

Definition tick : M G (result unit string) :=
  let! ts := on_host store_now_ms in
  let! mem_avail := read_mem_avail_mb in
  let! _ := (fun g => (tt, if has_snapshot g then set_host (log_snapshot (host g)) g else g)) in
  let! media_active := on_host (path_exists MEDIA_MARKER) in
  let! hour := current_hour in
  let!? _ := (fun g =>
    let target := determine_mode cfg (current_mode g) mem_avail media_active hour in
    if bool_decide (target <> current_mode g) then transition ts target g else (Ok tt, g)) in
  let!? _ := (match mem_avail with
              | Some mb => handle_pressure mb
              | None => ret (Ok tt)
              end) in
  let! _ := count_prune in
  ret (Ok tt).

(** ** Commands *)

Inductive Command := SetMode (mode : Mode.t) | MediaStart | MediaStop | Status.

(** The JSON answers, before they are printed. *)
Inductive Response :=
| ModeSet (mode : Mode.t)
| Failed (error : string)
| StatusResponse (mode : Mode.t) (mem_available_mb : option N) (uptime_secs : N).

Definition response_of (r : result Mode.t string) : Response :=
  match r with Ok mode => ModeSet mode | Err e => Failed e end.

Definition media_start (ts : N) : M G (result Mode.t string) :=
  let!? _ := on_host (io_result (create_dir_all RUN_DIR)) in
  let!? _ := on_host (io_result (write_file MEDIA_MARKER "1")) in
  let!? _ := transition ts Mode.Media in
  ret (Ok Mode.Media).

Definition after_media (ts : N) (mem_avail : option N) : M G (result Mode.t string) :=
  let! hour := current_hour in
  fun g =>
    let target := determine_mode_after_media cfg (current_mode g) mem_avail hour in
    (let!? _ := transition ts target in ret (Ok target)) g.

Definition media_stop (ts : N) (mem_avail : option N) : M G (result Mode.t string) :=
  let! removed := on_host (remove_file MEDIA_MARKER) in
  match removed with
  | Err e =>
      if io_not_found e then after_media ts mem_avail else ret (Err (io_text e))
  | Ok _ => after_media ts mem_avail
  end.

Definition handle_command (cmd : Command) : M G Response :=
  match cmd with
  | SetMode mode =>
      let! ts := on_host store_now_ms in
      let! r := transition ts mode in
      ret (match r with Ok _ => ModeSet mode | Err e => Failed e end)
  | MediaStart =>
      let! ts := on_host store_now_ms in
      let! r := media_start ts in
      ret (response_of r)
  | MediaStop =>
      let! ts := on_host store_now_ms in
      let! mem_avail := read_mem_avail_mb in
      let! r := media_stop ts mem_avail in
      ret (response_of r)
  | Status =>
      let! mem_avail := read_mem_avail_mb in
      let! up := on_host uptime_secs in
      fun g => (StatusResponse (current_mode g) mem_avail up, g)
  end.

End governor.

(** ** Frames *)

Section frames.
Context {W : Type} `{HL : HostLaws W}.

Definition marked (w : W) : Prop := MEDIA_MARKER ∈ files w.

(** A computation changes the state of no unit outside [P], and leaves the
    media marker. *)
Definition touches {A} (P : string -> Prop) (m : M W A) : Prop :=
  forall w, (forall u, ~ P u -> u ∈ units (m w).2 <-> u ∈ units w) /\ (marked (m w).2 <-> marked w).

Lemma touches_ret {A} P (a : A) : touches P (ret a).
Proof. by intros w. Qed.

Lemma touches_bind {A B} P (m : M W A) (f : A -> M W B) :
  touches P m -> (forall a, touches P (f a)) -> touches P (bind m f).
Proof.
  intros Hm Hf w. unfold bind. specialize (Hm w). destruct (m w) as [a w1]. cbn in Hm.
  destruct Hm as [Hu Hk], (Hf a w1) as [Hu' Hk']. split.
  - intros u Hp. by rewrite (Hu' u Hp), (Hu u Hp).
  - by rewrite Hk', Hk.
Qed.

Lemma touches_ebind {A B E} P (m : M W (result A E)) (f : A -> M W (result B E)) :
  touches P m -> (forall a, touches P (f a)) -> touches P (ebind m f).
Proof.
  intros Hm Hf w. unfold ebind. specialize (Hm w). destruct (m w) as [[a|e] w1]; cbn in Hm; [|done].
  destruct Hm as [Hu Hk], (Hf a w1) as [Hu' Hk']. split.
  - intros u Hp. by rewrite (Hu' u Hp), (Hu u Hp).
  - by rewrite Hk', Hk.
Qed.

Lemma touches_weaken {A} (P Q : string -> Prop) (m : M W A) :
  (forall u, P u -> Q u) -> touches P m -> touches Q m.
Proof. intros HPQ Hm w. destruct (Hm w) as [Hu Hk]. split; [|done]. intros u Hq. apply Hu. eauto. Qed.

Lemma only_iff u (a b : gset string) v : only u a b -> v <> u -> v ∈ b <-> v ∈ a.
Proof.
  unfold only. intros Ho Hv.
  assert (v ∈ a ∖ {[u]} <-> v ∈ b ∖ {[u]}) as Hi by by rewrite Ho.
  rewrite !elem_of_difference, !elem_of_singleton in Hi. tauto.
Qed.

Lemma touches_systemctl verb v :
  verb ∈ ["start"; "stop"; "restart"] -> touches (fun u => u = v) (command ["systemctl"; verb; v]).
Proof.
  intros Hv w. pose proof (law_command ["systemctl"; verb; v] w) as Hl.
  destruct (command _ w) as [o w']. destruct Hl as [Hl Hf]. cbn [snd]. unfold marked. rewrite Hf.
  split; [|done]. intros u Hu.
  repeat (apply elem_of_cons in Hv as [->|Hv]; [|]); [| | |by apply not_elem_of_nil in Hv];
    destruct Hl as [Ho _]; by eapply only_iff.
Qed.

Lemma touches_quiet {A} (op : W -> A * W) P :
  (forall w, let '(_, w') := op w in units w' = units w /\ files w' = files w) -> touches P op.
Proof.
  intros Hop w. specialize (Hop w). destruct (op w) as [a w']. destruct Hop as [Hu Hf].
  cbn. unfold marked. by rewrite Hu, Hf.
Qed.

Lemma touches_daemon_reload P : touches P (command ["systemctl"; "daemon-reload"]).
Proof.
  apply touches_quiet. intros w. pose proof (law_command ["systemctl"; "daemon-reload"] w) as Hl.
  by destruct (command _ w).
Qed.

Lemma start_run v w :
  let '(r, w') := start v w in
  only v (units w) (units w') /\ files w' = files w /\ (r = Ok tt -> v ∈ units w').
Proof.
  unfold start, bind, ret. pose proof (law_command ["systemctl"; "start"; v] w) as Hl.
  destruct (command _ w) as [o w']. destruct Hl as [[Ho Hs] Hf]. split_and!; [done|done|].
  destruct o as [[] e|e|]; try done. intros _. by eapply Hs.
Qed.

Lemma stop_run v w :
  let '(r, w') := stop v w in
  only v (units w) (units w') /\ files w' = files w /\ (r = Ok tt -> v ∉ units w').
Proof.
  unfold stop, bind, ret. pose proof (law_command ["systemctl"; "stop"; v] w) as Hl.
  destruct (command _ w) as [o w']. destruct Hl as [(Ho & Hs & Hn) Hf]. split_and!; [done|done|].
  destruct o as [[] e|e|]; try done; [intros _; by eapply Hs|].
  destruct (contains e "not loaded") eqn:E; [|done]. intros _. by eapply Hn.
Qed.

Lemma is_active_run v w :
  let '(b, w') := is_active v w in
  units w' = units w /\ files w' = files w /\ b = bool_decide (v ∈ units w).
Proof.
  unfold is_active, bind, ret. pose proof (law_command ["systemctl"; "is-active"; "--quiet"; v] w) as Hl.
  destruct (command _ w) as [o w']. by destruct Hl as [[Hu [e ->]] Hf].
Qed.

Lemma touches_start v : touches (fun u => u = v) (start v).
Proof. apply touches_bind; [apply touches_systemctl; set_solver|intros; apply touches_ret]. Qed.
Lemma touches_stop v : touches (fun u => u = v) (stop v).
Proof. apply touches_bind; [apply touches_systemctl; set_solver|intros; apply touches_ret]. Qed.
Lemma touches_is_active v P : touches P (is_active v).
Proof.
  apply touches_quiet. intros w. pose proof (is_active_run v w). destruct (is_active v w). tauto.
Qed.

Lemma marker_not_override u : u +:+ "/model-override.conf" <> MEDIA_MARKER.
Proof.
  intros Hm. apply (f_equal bytes) in Hm. rewrite bytes_app in Hm.
  apply (f_equal (fun l => List.last l "0"%char)) in Hm.
  assert (forall l : list ascii, List.last (l ++ bytes "/model-override.conf") "0"%char = "f"%char) as Hx.
  { intros l. induction l as [|a l IH]; [done|]. cbn [app]. rewrite <- IH at 2.
    destruct (l ++ bytes "/model-override.conf") eqn:E; [by destruct l|done]. }
  rewrite Hx in Hm. done.
Qed.

Lemma touches_swap unit_name path :
  touches (fun u => u = normalize_systemd_unit unit_name) (swap_llm_model unit_name path).
Proof.
  unfold swap_llm_model. cbv zeta.
  apply touches_ebind.
  { apply touches_bind; [|intros; apply touches_ret]. apply touches_quiet. intros w. apply law_create_dir. }
  intros _. apply touches_ebind.
  { apply touches_bind; [|intros; apply touches_ret]. intros w.
    match goal with |- context [write_file ?p ?t] => pose proof (law_write p t w) as Hl; pose proof (marker_not_override
      (llm_override_dir_for_unit (normalize_systemd_unit unit_name))) as Hne end.
    destruct (write_file _ _ w) as [r w']. destruct Hl as (Hu & Hf & _). cbn. rewrite Hu. split; [done|].
    unfold marked. eapply only_iff; [symmetry; exact Hf|]. done. }
  intros _. apply touches_bind; [apply touches_daemon_reload|].
  intros [[] e|e|]; try apply touches_ret.
  apply touches_bind; [apply touches_systemctl; set_solver|intros; apply touches_ret].
Qed.

End frames.

Create HintDb frames.
#[export] Hint Resolve touches_ret touches_start touches_stop touches_is_active touches_swap
  touches_daemon_reload : frames.

(** ** What each phase of a transition does to the units *)

Section phases.
Context {W : Type} `{HL : HostLaws W}.
Context (services : ServiceUnits).
Notation unit_of := (service_unit_for_alias services).

Definition owns (aliases : list string) (u : string) : Prop :=
  exists alias, alias ∈ aliases /\ unit_of alias = Some u.

Lemma owns_cons alias aliases u :
  owns (alias :: aliases) u <-> unit_of alias = Some u \/ owns aliases u.
Proof.
  unfold owns. split.
  - intros (a & [->|Ha]%elem_of_cons & Hu); eauto.
  - intros [Hu|(a & Ha & Hu)]; [by exists alias; split; [left|]|by exists a; split; [right|]].
Qed.

Lemma touches_stop_services aliases stopped :
  touches (owns aliases) (stop_services services aliases stopped).
Proof.
  revert stopped. induction aliases as [|alias aliases IH]; intros stopped; cbn [stop_services];
    [auto with frames|].
  assert (forall st, touches (owns (alias :: aliases)) (stop_services services aliases st)) as IH'.
  { intros st. eapply touches_weaken; [|apply IH]. intros u. rewrite owns_cons. tauto. }
  destruct (unit_of alias) as [v|] eqn:Ev; [|done].
  apply touches_bind; [auto with frames|]. intros [|]; [|done].
  apply touches_ebind; [|done]. eapply touches_weaken; [|apply touches_stop].
  intros u ->. apply owns_cons. by left.
Qed.

Lemma touches_start_services aliases started :
  touches (owns aliases) (start_services services aliases started).
Proof.
  revert started. induction aliases as [|alias aliases IH]; intros started; cbn [start_services];
    [auto with frames|].
  assert (forall st, touches (owns (alias :: aliases)) (start_services services aliases st)) as IH'.
  { intros st. eapply touches_weaken; [|apply IH]. intros u. rewrite owns_cons. tauto. }
  destruct (unit_of alias) as [v|] eqn:Ev; [|done].
  apply touches_bind; [auto with frames|]. intros [|]; [done|].
  apply touches_bind; [|intros [|]; auto with frames].
  eapply touches_weaken; [|apply touches_start]. intros u ->. apply owns_cons. by left.
Qed.

Lemma only_subseteq u (a b : gset string) : only u a b -> u ∉ b -> b ⊆ a.
Proof.
  intros Ho Hu v Hv. destruct (decide (v = u)) as [->|Hne]; [done|]. by apply (only_iff _ _ _ _ Ho Hne).
Qed.

(** A completed stop loop leaves none of its units active, and lists those
    that it stopped. *)
Lemma stop_services_run aliases stopped w :
  let '(r, w') := stop_services services aliases stopped w in
  match r with
  | Err _ => True
  | Ok stopped' =>
      units w' ⊆ units w /\
      (forall u, owns aliases u -> u ∉ units w') /\
      (forall u, owns aliases u -> u ∈ units w ->
         exists alias, alias ∈ ss_alias <$> stopped' /\ unit_of alias = Some u) /\
      (forall alias, alias ∈ ss_alias <$> stopped' ->
         alias ∈ ss_alias <$> stopped \/ alias ∈ aliases) /\
      (ss_alias <$> stopped) ⊆ (ss_alias <$> stopped')
  end.
Proof.
  revert stopped w. induction aliases as [|alias aliases IH]; intros stopped w; cbn [stop_services].
  { cbn. split_and!; try (intros u (a & ?%not_elem_of_nil & _); done); [done|by left|done]. }
  destruct (unit_of alias) as [v|] eqn:Ev.
  2:{ specialize (IH stopped w). destruct (stop_services _ _ _ w) as [[st|e] w']; [|done].
      destruct IH as (I0 & I1 & I2 & I3 & I4).
      split_and!; [done| | |intros a Ha; destruct (I3 a Ha); [by left|right; by right]|done];
        intros u; rewrite owns_cons; intros [?|?]; (congruence || auto). }
  unfold bind at 1. pose proof (is_active_run v w) as Ha. destruct (is_active v w) as [b w1].
  destruct Ha as (Hu1 & _ & ->). case_bool_decide as Hv.
  - unfold ebind. pose proof (stop_run v w1) as Hs. destruct (stop v w1) as [[[]|e] w2]; [|done].
    destruct Hs as (Ho & _ & Hn). specialize (Hn eq_refl). rewrite Hu1 in Ho.
    specialize (IH (stopped ++ [{| ss_alias := alias; ss_unit := v |}]) w2).
    destruct (stop_services _ _ _ w2) as [[st|e] w']; [|done].
    destruct IH as (I0 & I1 & I2 & I3 & I4). rewrite fmap_app in I3, I4. cbn in I3, I4.
    split_and!.
    + etrans; [exact I0|]. by eapply only_subseteq.
    + intros u. rewrite owns_cons. intros [Hu|Hu]; [|by apply I1].
      assert (u = v) as -> by congruence. intros Hin. by apply Hn, I0.
    + intros u. rewrite owns_cons. intros Hu Hin. destruct (decide (u = v)) as [->|Hne].
      * exists alias. split; [|done]. apply I4, elem_of_app. right. by apply list_elem_of_singleton.
      * destruct Hu as [?|Hu]; [congruence|]. apply I2; [done|]. by apply (only_iff _ _ _ _ Ho Hne).
    + intros a Ha. destruct (I3 a Ha) as [[?| ->%list_elem_of_singleton]%elem_of_app|?];
        [by left|right; by left|right; by right].
    + intros a Ha. apply I4, elem_of_app. by left.
  - specialize (IH stopped w1). destruct (stop_services _ _ _ w1) as [[st|e] w']; [|done].
    rewrite Hu1 in IH. destruct IH as (I0 & I1 & I2 & I3 & I4).
    split_and!; [done| | |intros a Ha; destruct (I3 a Ha); [by left|right; by right]|done].
    + intros u. rewrite owns_cons. intros [Hu|Hu]; [|by apply I1].
      assert (u = v) as -> by congruence. intros Hin. by apply Hv, I0.
    + intros u. rewrite owns_cons. intros [Hu|Hu] Hin; [congruence|by apply I2].
Qed.

(** The start loop only adds units; completed, it leaves all of its own
    active.  What it started was not active before. *)
Lemma start_services_run aliases started w :
  let '((r, started'), w') := start_services services aliases started w in
  units w ⊆ units w' /\
  (r = Ok tt -> forall u, owns aliases u -> u ∈ units w') /\
  (forall u, u ∈ started' -> u ∈ started \/ (u ∉ units w /\ owns aliases u)).
Proof.
  revert started w. induction aliases as [|alias aliases IH]; intros started w; cbn [start_services].
  { cbn. split_and!; [done|intros _ u (a & ?%not_elem_of_nil & _); done|by left]. }
  destruct (unit_of alias) as [v|] eqn:Ev.
  2:{ specialize (IH started w). destruct (start_services _ _ _ w) as [[r st] w'].
      destruct IH as (I0 & I1 & I2). split_and!; [done| |].
      - intros Hr u. rewrite owns_cons. intros [?|?]; [congruence|auto].
      - intros u Hu. rewrite owns_cons. destruct (I2 u Hu); tauto. }
  unfold bind at 1. pose proof (is_active_run v w) as Ha. destruct (is_active v w) as [b w1].
  destruct Ha as (Hu1 & _ & ->). case_bool_decide as Hv.
  - specialize (IH started w1). destruct (start_services _ _ _ w1) as [[r st] w'].
    rewrite Hu1 in IH. destruct IH as (I0 & I1 & I2). split_and!; [done| |].
    + intros Hr u. rewrite owns_cons. intros [Hu|Hu]; [|by apply I1].
      assert (u = v) as -> by congruence. by apply I0.
    + intros u Hu. rewrite owns_cons. destruct (I2 u Hu); tauto.
  - unfold bind. pose proof (start_run v w1) as Hs. destruct (start v w1) as [r1 w2].
    destruct Hs as (Ho & _ & Hn). rewrite Hu1 in Ho.
    assert (units w ⊆ units w2) as Hsub.
    { intros u Hu. apply (only_iff _ _ _ _ Ho); [|done]. by intros ->. }
    destruct r1 as [[]|e]; [|unfold ret; split_and!; [done|done|by left]].
    specialize (IH (started ++ [v]) w2). destruct (start_services _ _ _ w2) as [[r st] w'].
    destruct IH as (I0 & I1 & I2). split_and!.
    + by etrans.
    + intros Hr u. rewrite owns_cons. intros [Hu|Hu]; [|by apply I1].
      assert (u = v) as -> by congruence. by apply I0, Hn.
    + intros u Hu. rewrite owns_cons. apply I2 in Hu as [Hu|[Hu Ho']].
      * apply elem_of_app in Hu as [?| ->%list_elem_of_singleton]; [by left|right; tauto].
      * right. split; [|tauto]. intros Hin. by apply Hu, Hsub.
Qed.

(** ** The rollback *)

Lemma touches_stop_each us : touches (fun u => u ∈ us) (stop_each us).
Proof.
  induction us as [|v us IH]; cbn [stop_each]; [auto with frames|].
  apply touches_bind; [|intros _; eapply touches_weaken; [|exact IH]; intros u Hu; by right].
  eapply touches_weaken; [|apply touches_stop]. intros u ->. by left.
Qed.

Lemma touches_restart_each aliases : touches (owns aliases) (restart_each services aliases).
Proof.
  induction aliases as [|alias aliases IH]; cbn [restart_each]; [auto with frames|].
  assert (touches (owns (alias :: aliases)) (restart_each services aliases)) as IH'.
  { eapply touches_weaken; [|exact IH]. intros u. rewrite owns_cons. tauto. }
  destruct (unit_of alias) as [v|] eqn:Ev; [|done].
  apply touches_bind; [|done]. eapply touches_weaken; [|apply touches_start].
  intros u ->. apply owns_cons. by left.
Qed.

(** Starting this unit always succeeds. *)
Definition reliable (u : string) : Prop := forall w, (start u w).1 = Ok tt.

Lemma restart_each_run aliases u w :
  reliable u -> owns aliases u \/ u ∈ units w -> u ∈ units (restart_each services aliases w).2.
Proof.
  intros Hr. revert w. induction aliases as [|alias aliases IH]; intros w Hu; cbn [restart_each].
  { destruct Hu as [(a & ?%not_elem_of_nil & _)|]; done. }
  destruct (unit_of alias) as [v|] eqn:Ev.
  2:{ apply IH. rewrite owns_cons in Hu. destruct Hu as [[?|?]|?]; [congruence|by left|by right]. }
  unfold bind. pose proof (start_run v w) as Hs. specialize (Hr w).
  destruct (start v w) as [r w1] eqn:Est. destruct Hs as (Ho & _ & Hn). apply IH.
  destruct (decide (u = v)) as [->|Hne].
  - right. apply Hn. by rewrite Est in Hr.
  - rewrite owns_cons in Hu. destruct Hu as [[?|?]|?]; [congruence|by left|].
    right. by apply (only_iff _ _ _ _ Ho Hne).
Qed.

(** The unit names the LLM service goes by. *)
Definition llm_names (u : string) : Prop :=
  u = llm_service_unit services \/ u = normalize_systemd_unit (llm_service_unit services).

Lemma touches_rollback_llm from target : touches llm_names (rollback_llm services from target).
Proof.
  unfold rollback_llm. destruct (llm_rollback_action from target); [| |auto with frames].
  - apply touches_bind; [|auto with frames]. eapply touches_weaken; [|apply touches_swap]. by right.
  - apply touches_bind; [auto with frames|]. intros [|]; [|auto with frames].
    apply touches_bind; [|auto with frames]. eapply touches_weaken; [|apply touches_stop]. by left.
Qed.

Lemma rollback_marker_units from target w : units (rollback_marker from target w).2 = units w.
Proof.
  unfold rollback_marker, bind, ret. destruct (media_marker_rollback_action from target); [| |done].
  - pose proof (law_create_dir RUN_DIR w) as H1. destruct (create_dir_all RUN_DIR w) as [[]w1]; cbn; [|tauto].
    pose proof (law_write MEDIA_MARKER "1" w1) as H2. destruct (write_file _ _ w1). cbn. destruct H1, H2. congruence.
  - pose proof (law_remove MEDIA_MARKER w) as H1. destruct (remove_file MEDIA_MARKER w). cbn. tauto.
Qed.

(** After a rollback, a unit that the source mode needs and that starts
    reliably is active, if it was stopped or still runs. *)
Lemma rollback_restores from target stopped started u alias w :
  unit_of alias = Some u -> alias ∈ Mode.required_services from -> reliable u -> ~ llm_names u ->
  u ∉ started -> alias ∈ ss_alias <$> stopped \/ u ∈ units w ->
  u ∈ units (rollback_transition services from target stopped started w).2.
Proof.
  intros Hu Hreq Hrel Hllm Hst Hor. unfold rollback_transition, bind at 1.
  pose proof (touches_stop_each (reverse started) w) as [Hse _].
  destruct (stop_each (reverse started) w) as [[] w1]. cbn [snd] in Hse.
  specialize (Hse u). rewrite elem_of_reverse in Hse. specialize (Hse Hst).
  unfold bind at 1.
  pose proof (restart_each_run (service_aliases_to_restore from stopped) u w1 Hrel) as Hre.
  destruct (restart_each services _ w1) as [[] w2]. cbn [snd] in Hre.
  assert (u ∈ units w2) as H2.
  { apply Hre. destruct Hor as [Ha|Ha]; [left|right; by apply Hse].
    exists alias. split; [|done]. unfold service_aliases_to_restore.
    apply list_elem_of_In, filter_In. split; [by apply list_elem_of_In|].
    apply existsb_elem. exists alias. split; [done|]. apply String.eqb_refl. }
  unfold bind. pose proof (rollback_marker_units from target w2) as Hm.
  destruct (rollback_marker from target w2) as [[] w3]. cbn [snd] in Hm.
  pose proof (touches_rollback_llm from target w3) as [Hll _].
  destruct (rollback_llm services from target w3) as [[] w4]. cbn [snd] in *.
  apply (Hll u Hllm). by rewrite Hm.
Qed.

End phases.

(** ** Transitions *)

Definition ALIASES : list string :=
  ["genie-wakeword"; "genie-core"; "llm"; "genie-mqtt"; "homeassistant"; "nextcloud"; "jellyfin"].

(** The aliases go to different units, and no other unit is the LLM's under
    its completed name. *)
Definition distinct_units (services : ServiceUnits) : Prop :=
  (forall a b u, a ∈ ALIASES -> b ∈ ALIASES -> service_unit_for_alias services a = Some u ->
     service_unit_for_alias services b = Some u -> a = b) /\
  (forall a u, a ∈ ALIASES -> service_unit_for_alias services a = Some u -> llm_names services u ->
     a = "llm").

Lemma required_aliases m : forall a, a ∈ Mode.required_services m -> a ∈ ALIASES.
Proof. intros a. rewrite !list_elem_of_In. destruct m; cbn; tauto. Qed.
Lemma stopped_aliases m : forall a, a ∈ Mode.stopped_services m -> a ∈ ALIASES.
Proof. intros a. rewrite !list_elem_of_In. destruct m; cbn; tauto. Qed.
Lemma stopped_not_required m a : a ∈ Mode.stopped_services m -> a ∉ Mode.required_services m.
Proof.
  intros Hs Hr. assert (forallb (fun a => negb (existsb (String.eqb a) (Mode.required_services m)))
    (Mode.stopped_services m) = true) as Hf by by destruct m.
  eapply forallb_elem in Hf; [|exact Hs]. bool_to_prop.
  assert (existsb (String.eqb a) (Mode.required_services m) = true) as Hx; [|congruence].
  apply existsb_elem. exists a. split; [done|]. apply String.eqb_refl.
Qed.
Lemma stops_llm_only_for_media m : "llm" ∈ Mode.stopped_services m -> m = Mode.Media.
Proof. rewrite list_elem_of_In. destruct m; cbn; intuition discriminate. Qed.

Section properties.
Context {W : Type} `{HL : HostLaws W}.
Context (cfg : GovernorConfig) (services : ServiceUnits) (zram_script : string).
Notation unit_of := (service_unit_for_alias services).

Lemma llm_unit_is : unit_of "llm" = Some (llm_service_unit services).
Proof. done. Qed.

Lemma stopped_unit_not_required m u :
  distinct_units services -> owns services (Mode.stopped_services m) u ->
  ~ owns services (Mode.required_services m) u.
Proof.
  intros [Hd _] (a & Ha & Hu) (b & Hb & Hu').
  assert (a = b) as -> by (eapply Hd; eauto using stopped_aliases, required_aliases).
  by eapply stopped_not_required.
Qed.

(** The swap leaves the stopped units stopped. *)
Lemma swaps_keep_stopped from target stopped w :
  distinct_units services ->
  (forall u, owns services (Mode.stopped_services target) u -> u ∉ units w) ->
  forall u, owns services (Mode.stopped_services target) u ->
    u ∉ units (apply_llm_swaps services from target stopped w).2.
Proof.
  intros [_ Hd] Hst u Hu. unfold apply_llm_swaps. case_bool_decide as Ht.
  - subst target. unfold bind. pose proof (is_active_run (llm_service_unit services) w) as Ha.
    destruct (is_active _ w) as [b w1]. destruct Ha as (Hu1 & _ & ->).
    rewrite bool_decide_eq_false_2; [cbn; rewrite Hu1; by apply Hst|].
    apply Hst. exists "llm". split; [by left|done].
  - destruct (llm_model_for_transition from target) as [model|]; [|by apply Hst].
    pose proof (touches_swap (llm_service_unit services) (model_path model) w) as [Hs _].
    unfold ebind. destruct (swap_llm_model _ _ w) as [[[]|e] w1]; cbn [snd] in *;
      (rewrite Hs; [by apply Hst|]);
      intros ->; destruct Hu as (a & Ha & Hau);
      (assert (a = "llm") as -> by (eapply Hd; [by eapply stopped_aliases|exact Hau|by right]));
      by apply Ht, stops_llm_only_for_media.
Qed.

Lemma remove_units path w : units (remove_file path w).2 = units w.
Proof. pose proof (law_remove path w). destruct (remove_file path w). tauto. Qed.

Lemma insert_units ts a b c w : units (insert_transition ts a b c w).2 = units w.
Proof. pose proof (law_insert ts a b c w). destruct (insert_transition ts a b c w). tauto. Qed.

Lemma leave_media_units from w : units (clear_marker from w).2 = units w.
Proof.
  unfold clear_marker, bind, ret. case_bool_decide; [|done]. pose proof (remove_units MEDIA_MARKER w).
  destruct (remove_file MEDIA_MARKER w). done.
Qed.

Lemma touches_swaps from target stopped :
  touches (llm_names services) (apply_llm_swaps services from target stopped).
Proof.
  unfold apply_llm_swaps. case_bool_decide.
  - apply touches_bind; [auto with frames|]. intros [|]; [|auto with frames].
    apply touches_ebind; [|auto with frames]. eapply touches_weaken; [|apply touches_stop]. by left.
  - destruct (llm_model_for_transition from target); [|auto with frames].
    apply touches_ebind; [|auto with frames]. eapply touches_weaken; [|apply touches_swap]. by right.
Qed.

Lemma swaps_keep_list from target stopped w stopped' w' :
  apply_llm_swaps services from target stopped w = (Ok stopped', w') ->
  exists l, stopped' = stopped ++ l.
Proof.
  unfold apply_llm_swaps, bind, ebind, ret. intros Hr.
  assert (stopped' = stopped \/ exists x, stopped' = stopped ++ [x]) as [->|[x ->]];
    [|by exists []; rewrite app_nil_r|by exists [x]].
  inv_match Hr; eauto.
Qed.

(** A transition that succeeds. *)
Lemma run_transition_ok ts from target w w' :
  distinct_units services ->
  run_transition services ts from target w = (Ok tt, w') ->
  (forall u, owns services (Mode.required_services target) u -> u ∈ units w') /\
  (forall u, owns services (Mode.stopped_services target) u -> u ∉ units w').
Proof.
  intros Hd. unfold run_transition, ebind.
  pose proof (stop_services_run services (Mode.stopped_services target) [] w) as Hstop.
  destruct (stop_services _ _ _ w) as [[stopped|e] w1]; [|done].
  destruct Hstop as (_ & Hstop & _). unfold bind at 1.
  pose proof (swaps_keep_stopped from target stopped w1 Hd Hstop) as Hswap.
  destruct (apply_llm_swaps services from target stopped w1) as [[stopped'|e] w2]; cbn [snd] in Hswap.
  2:{ unfold bind, ret. by destruct (rollback_transition services from target stopped [] w2). }
  unfold bind at 1. pose proof (leave_media_units from w2) as Hl.
  destruct (clear_marker from w2) as [[] w3]. cbn [snd] in Hl. unfold bind, ret.
  pose proof (start_services_run services (Mode.required_services target) [] w3) as Hstart.
  pose proof (touches_start_services services (Mode.required_services target) [] w3) as [Hts _].
  destruct (start_services _ _ _ w3) as [[r started] w4]. cbn [snd] in Hts.
  destruct Hstart as (_ & Hact & _).
  destruct r as [[]|e]; [|by destruct (rollback_transition services from target stopped' started w4)].
  specialize (Hact eq_refl). intros Hi.
  pose proof (insert_units ts (Mode.to_string from) (Mode.to_string target)
    (Mode.to_string from +:+ " -> " +:+ Mode.to_string target) w4) as Hiu.
  rewrite Hi in Hiu. cbn [snd] in Hiu. rewrite Hiu. split; [done|].
  intros u Hu. rewrite (Hts u); [rewrite Hl; by apply Hswap|]. by apply stopped_unit_not_required.
Qed.

(** After the stop loop, a unit that ran was stopped by it or still runs. *)
Lemma stopped_or_running from target stopped w w1 alias u :
  distinct_units services ->
  stop_services services (Mode.stopped_services target) [] w = (Ok stopped, w1) ->
  alias ∈ Mode.required_services from -> unit_of alias = Some u -> u ∈ units w ->
  alias ∈ ss_alias <$> stopped \/ (u ∈ units w1 /\ ~ owns services (Mode.stopped_services target) u).
Proof.
  intros Hd Hst Hreq Hu Hact.
  pose proof (stop_services_run services (Mode.stopped_services target) [] w) as Hsr.
  pose proof (touches_stop_services services (Mode.stopped_services target) [] w) as [Hts1 _].
  rewrite Hst in Hsr, Hts1. cbn [snd] in Hts1. destruct Hsr as (_ & _ & Hlist & Hfrom & _).
  destruct (decide (alias ∈ Mode.stopped_services target)) as [Ha|Ha].
  - left. destruct (Hlist u) as (a & Hain & Hau); [by exists alias|done|].
    assert (a = alias) as <-; [|done]. destruct (Hfrom a Hain) as [?%not_elem_of_nil|?]; [done|].
    eapply (proj1 Hd); eauto using stopped_aliases, required_aliases.
  - right. assert (~ owns services (Mode.stopped_services target) u) as Hno.
    { intros (a & Hain & Hau). apply Ha. assert (a = alias) as <-; [|done].
      eapply (proj1 Hd); eauto using stopped_aliases, required_aliases. }
    split; [by apply Hts1|done].
Qed.

(** A transition that fails after the stop loop. *)
Lemma run_transition_err ts from target w e w' stopped w1 alias u :
  distinct_units services ->
  (forall ts a b c w, is_ok (insert_transition ts a b c w).1 = true) ->
  run_transition services ts from target w = (Err e, w') ->
  stop_services services (Mode.stopped_services target) [] w = (Ok stopped, w1) ->
  alias ∈ Mode.required_services from -> alias <> "llm" -> unit_of alias = Some u ->
  reliable u -> u ∈ units w -> u ∈ units w'.
Proof.
  intros Hd Hins Hrun Hst Hreq Hllm Hu Hrel Hact.
  assert (~ llm_names services u) as Hnl.
  { intros Hn. apply Hllm. eapply (proj2 Hd); eauto using required_aliases. }
  unfold run_transition, ebind in Hrun. rewrite Hst in Hrun.
  pose proof (stop_services_run services (Mode.stopped_services target) [] w) as Hsr.
  rewrite Hst in Hsr. destruct Hsr as (_ & _ & _ & Hfrom & _).
  assert (alias ∈ ss_alias <$> stopped \/ (u ∈ units w1 /\ ~ owns services (Mode.stopped_services target) u)) as Hcase
    by by eapply stopped_or_running.
  pose proof (touches_swaps from target stopped w1) as [Hts2 _].
  unfold bind at 1 in Hrun.
  destruct (apply_llm_swaps services from target stopped w1) as [[stopped'|e'] w2] eqn:Esw; cbn [snd] in Hts2.
  - apply swaps_keep_list in Esw as [l ->].
    pose proof (leave_media_units from w2) as Hl. unfold bind, ret in Hrun.
    destruct (clear_marker from w2) as [[] w3]. cbn [snd] in Hl.
    pose proof (start_services_run services (Mode.required_services target) [] w3) as Hstart.
    destruct (start_services _ _ _ w3) as [[r started] w4]. destruct Hstart as (Hsub & _ & Hnew).
    destruct r as [[]|e'].
    { specialize (Hins ts (Mode.to_string from) (Mode.to_string target)
        (Mode.to_string from +:+ " -> " +:+ Mode.to_string target) w4). by rewrite Hrun in Hins. }
    destruct (rollback_transition services from target (stopped ++ l) started w4) as [[] w5] eqn:Er.
    injection Hrun as <- <-.
    assert (u ∈ units (rollback_transition services from target (stopped ++ l) started w4).2) as Hin;
      [|by rewrite Er in Hin].
    assert (u ∈ units w1 -> u ∈ units w3) as H13 by (rewrite Hl, (Hts2 u Hnl); done).
    apply rollback_restores with alias; auto.
    + intros Hin. apply Hnew in Hin as [?%not_elem_of_nil|[H3 Ho]]; [done|].
      destruct Hcase as [Ha|[H1 _]]; [|by apply H3, H13].
      destruct (Hfrom alias Ha) as [?%not_elem_of_nil|Hs]; [done|].
      eapply stopped_unit_not_required; [exact Hd| |exact Ho]. by exists alias.
    + rewrite fmap_app, elem_of_app. destruct Hcase as [Ha|[H1 _]]; [by left; left|].
      right. by apply Hsub, H13.
  - unfold bind, ret in Hrun.
    destruct (rollback_transition services from target stopped [] w2) as [[] w3] eqn:Er.
    injection Hrun as <- <-.
    assert (u ∈ units (rollback_transition services from target stopped [] w2).2) as Hin; [|by rewrite Er in Hin].
    apply rollback_restores with alias; auto; [apply not_elem_of_nil|].
    destruct Hcase as [?|[H1 _]]; [by left|right]. by apply Hts2.
Qed.

(** The media marker across a transition that succeeds. *)
Lemma run_transition_marker ts from target w w' :
  run_transition services ts from target w = (Ok tt, w') ->
  if bool_decide (from = Mode.Media) then marked w' -> marked w else marked w' <-> marked w.
Proof.
  unfold run_transition, ebind.
  pose proof (touches_stop_services services (Mode.stopped_services target) [] w) as [_ H1].
  destruct (stop_services _ _ _ w) as [[stopped|e] w1]; [|done]. cbn [snd] in H1.
  pose proof (touches_swaps from target stopped w1) as [_ H2]. unfold bind at 1.
  destruct (apply_llm_swaps services from target stopped w1) as [[stopped'|e] w2]; cbn [snd] in H2.
  2:{ unfold bind, ret. by destruct (rollback_transition services from target stopped [] w2). }
  unfold bind at 1.
  assert (if bool_decide (from = Mode.Media) then marked (clear_marker from w2).2 -> marked w2
          else marked (clear_marker from w2).2 <-> marked w2) as H3.
  { unfold clear_marker, bind, ret. case_bool_decide; [|done].
    pose proof (law_remove MEDIA_MARKER w2) as Hr. destruct (remove_file MEDIA_MARKER w2) as [r w3].
    cbn. destruct Hr as (_ & _ & Hsub & _). apply Hsub. }
  destruct (clear_marker from w2) as [[] w3]. cbn [snd] in H3. unfold bind, ret.
  pose proof (touches_start_services services (Mode.required_services target) [] w3) as [_ H4].
  destruct (start_services _ _ _ w3) as [[r started] w4]. cbn [snd] in H4.
  destruct r as [[]|e]; [|by destruct (rollback_transition services from target stopped' started w4)].
  intros Hi. pose proof (law_insert ts (Mode.to_string from) (Mode.to_string target)
    (Mode.to_string from +:+ " -> " +:+ Mode.to_string target) w4) as Hl.
  rewrite Hi in Hl. destruct Hl as [_ Hf].
  assert (marked w' <-> marked w4) as H5 by (unfold marked; by rewrite Hf).
  case_bool_decide; [|tauto]. intros Hm. apply H1, H2, H3, H4, H5, Hm.
Qed.

(** [transition] through the governor. *)
Lemma transition_run ts target g :
  target <> current_mode g ->
  let '(r, w') := run_transition services ts (current_mode g) target (host g) in
  transition services ts target g =
    (r, match r with Ok _ => set_mode target (set_host w' g) | Err _ => set_host w' g end).
Proof.
  intros Hne. unfold transition. rewrite bool_decide_eq_false_2 by done.
  unfold bind, on_host, zoom. destruct (run_transition _ _ _ _ _) as [[[]|e] w']; done.
Qed.

Lemma transition_ok ts target g g' :
  transition services ts target g = (Ok tt, g') ->
  current_mode g' = target /\
  (if bool_decide (current_mode g = Mode.Media) then marked (host g') -> marked (host g)
   else marked (host g') <-> marked (host g)).
Proof.
  destruct (decide (target = current_mode g)) as [->|Hne].
  { unfold transition. rewrite bool_decide_eq_true_2 by done. intros [= <-]. split; [done|].
    by case_bool_decide. }
  pose proof (transition_run ts target g Hne) as Ht.
  destruct (run_transition services ts (current_mode g) target (host g)) as [r w'] eqn:Er.
  rewrite Ht. intros [= -> <-]. split; [done|]. cbn [host set_mode set_host].
  by eapply run_transition_marker.
Qed.

Lemma after_media_not_media current mem hour :
  determine_mode_after_media cfg current mem hour <> Mode.Media.
Proof.
  unfold determine_mode_after_media, time_based_mode.
  destruct mem; [destruct (_ <? _)%N; [done|]|case_bool_decide; [done|]];
    destruct (is_night _ _ _); try done; by destruct (night_model_swap cfg).
Qed.

Lemma current_hour_run (g : Governor W) :
  exists h w', current_hour g = (h, set_host w' g) /\ (marked w' <-> marked (host g)).
Proof.
  unfold current_hour, bind, on_host, zoom, ret.
  pose proof (law_unix_secs (host g)) as H1. destruct (unix_secs (host g)) as [n w1].
  pose proof (law_localtime n (host (set_host w1 g))) as H2. destruct (localtime_hour n _) as [h w2].
  eexists _, w2. split; [done|]. unfold marked. destruct H1 as [_ H1], H2 as [_ H2].
  by rewrite H2, <- H1.
Qed.

Lemma after_media_ok ts mem g m g' :
  ~ marked (host g) -> after_media cfg services ts mem g = (Ok m, g') ->
  m <> Mode.Media /\ current_mode g' = m /\ ~ marked (host g').
Proof.
  intros Hn. unfold after_media, bind. destruct (current_hour_run g) as (h & w1 & -> & Hm).
  unfold ebind, ret. set (target := determine_mode_after_media _ _ _ _).
  destruct (transition services ts target _) as [[[]|e] g2] eqn:Et; [|done]. intros [= <- <-].
  apply transition_ok in Et as [Hc Hk]. split_and!; [apply after_media_not_media|done|].
  cbn [host set_host] in Hk. case_bool_decide; tauto.
Qed.

(** ** Properties *)

(** A transition that succeeds ends in the target mode with every service
    the target needs active and every service it excludes stopped; a service
    that is not configured is neither. *)
Lemma transition_reaches ts target g g' :
  distinct_units services -> target <> current_mode g ->
  transition services ts target g = (Ok tt, g') ->
  current_mode g' = target /\
  (forall u, owns services (Mode.required_services target) u -> u ∈ units (host g')) /\
  (forall u, owns services (Mode.stopped_services target) u -> u ∉ units (host g')).
Proof.
  intros Hd Hne Ht. split; [by apply transition_ok in Ht as [? _]|].
  pose proof (transition_run ts target g Hne) as Hr.
  destruct (run_transition services ts (current_mode g) target (host g)) as [r w'] eqn:Er.
  rewrite Ht in Hr. injection Hr as <- ->. cbn [host set_mode set_host].
  by eapply run_transition_ok.
Qed.


(** The media commands do what they answer.  A start that answers a mode
    answered Media, with the governor in Media and the marker set; a stop that
    answers a mode never answers Media, and leaves the governor in the mode it
    answered with the marker gone. *)
Lemma media_commands_exact (g g' : Governor W) m :
  (handle_command cfg services MediaStart g = (ModeSet m, g') ->
   m = Mode.Media /\ current_mode g' = Mode.Media /\ marked (host g')) /\
  (handle_command cfg services MediaStop g = (ModeSet m, g') ->
   m <> Mode.Media /\ current_mode g' = m /\ ~ marked (host g')).
Proof.
  split.
  - cbn [handle_command]. unfold bind at 1, on_host at 1, zoom.
    pose proof (law_store_now (host g)) as _. destruct (store_now_ms (host g)) as [ts w0].
    set (g0 := set_host w0 g). unfold bind, ret. intros Hr.
    assert (exists g2, media_start services ts g0 = (Ok m, g2) /\ g2 = g') as (g2 & Hm & ->).
    { destruct (media_start services ts g0) as [[m'|e] g2]; cbn in Hr; naive_solver. }
    unfold media_start, ebind, on_host, zoom, io_result, bind, ret in Hm.
    destruct (create_dir_all RUN_DIR (host g0)) as [[[]|e] w1]; [|done].
    pose proof (law_write MEDIA_MARKER "1" (host (set_host w1 g0))) as Hw.
    destruct (write_file _ _ _) as [[[]|e] w2]; [|done]. destruct Hw as (_ & _ & Hw).
    specialize (Hw eq_refl).
    destruct (transition services ts Mode.Media _) as [[[]|e] g3] eqn:Et; [|done].
    injection Hm as <- <-. pose proof Et as Et'. apply transition_ok in Et' as [Hmode Hmark].
    split_and!; [done|done|]. case_bool_decide as Hb; [|by apply Hmark].
    unfold transition in Et. rewrite bool_decide_eq_true_2 in Et by done. by injection Et as <-.
  - cbn [handle_command]. unfold bind at 1, on_host at 1, zoom.
    destruct (store_now_ms (host g)) as [ts w0]. unfold bind at 1.
    destruct (read_mem_avail_mb (set_host w0 g)) as [mem g1]. unfold bind, ret. intros Hr.
    assert (media_stop cfg services ts mem g1 = (Ok m, g')) as Hm.
    { destruct (media_stop cfg services ts mem g1) as [[m'|e] g2]; cbn in Hr; naive_solver. }
    unfold media_stop, bind, on_host, zoom, ret in Hm.
    pose proof (law_remove MEDIA_MARKER (host g1)) as Hrm.
    destruct (remove_file MEDIA_MARKER (host g1)) as [r w1].
    destruct Hrm as (_ & _ & _ & Hgone).
    destruct r as [[]|e]; [|destruct (io_not_found e) eqn:Ee; [|done]];
      (eapply after_media_ok; [|exact Hm]); apply Hgone; eauto.
Qed.

End properties.

(** How the mode is chosen.  Low memory wins, then the media marker, then
    the clock, where the night is the cyclic interval from its first hour to the
    first hour of the day, across midnight or not.  An unknown memory level
    holds the mode, except when media ends: then it leaves Media but never
    Pressure. *)
Lemma mode_choice_exact cfg current mem media hour :
  (night_start_hour cfg < 24)%N -> (day_start_hour cfg < 24)%N -> (hour < 24)%N ->
  let low mb := (mb < stop_optins_mb (pressure cfg))%N in
  let clock :=
    if decide ((hour + 24 - night_start_hour cfg) mod 24 <
               (day_start_hour cfg + 24 - night_start_hour cfg) mod 24)%N
    then (if night_model_swap cfg then Mode.NightB else Mode.NightA) else Mode.Day in
  determine_mode cfg current mem media hour =
    match mem with
    | None => current
    | Some mb => if decide (low mb) then Mode.Pressure else if media then Mode.Media else clock
    end /\
  determine_mode_after_media cfg current mem hour =
    match mem with
    | None => if decide (current = Mode.Pressure) then Mode.Pressure else clock
    | Some mb => if decide (low mb) then Mode.Pressure else clock
    end.
Proof.
  intros Hn Hd Hh low clock.
  assert (time_based_mode cfg hour = clock) as Hclock.
  { unfold time_based_mode, clock.
    assert (is_night (night_start_hour cfg) (day_start_hour cfg) hour = true <->
            ((hour + 24 - night_start_hour cfg) mod 24 <
             (day_start_hour cfg + 24 - night_start_hour cfg) mod 24)%N) as Hiff; [|by case_decide; destruct (is_night _ _ _); intuition congruence].
    set (a := night_start_hour cfg) in *. set (b := day_start_hour cfg) in *.
    assert (forall x, (x < 24 -> (x + 24 - a) mod 24 = if x <? a then x + 24 - a else x - a)%N) as Hmod.
    { intros x Hx. destruct (N.ltb_spec x a); [by apply N.mod_small; lia|].
      replace (x + 24 - a)%N with (x - a + 1 * 24)%N by lia.
      rewrite N.Div0.mod_add. apply N.mod_small. lia. }
    rewrite !Hmod by done. unfold is_night.
    destruct (N.ltb_spec b a), (N.leb_spec a hour), (N.ltb_spec hour b), (N.ltb_spec hour a); cbn; split; (lia || done). }
  unfold determine_mode, determine_mode_after_media. rewrite Hclock. split.
  - destruct mem as [mb|]; [|done]. unfold low. destruct (N.ltb_spec mb (stop_optins_mb (pressure cfg)));
      case_decide; (done || lia).
  - destruct mem as [mb|]; [|by case_bool_decide; case_decide].
    unfold low. destruct (N.ltb_spec mb (stop_optins_mb (pressure cfg))); case_decide; (done || lia).
Qed.

(** ** A device at work *)

Section device.

Definition device_services : ServiceUnits := {|
  core_unit := "genie-core.service"; llm_unit := "genie-ai-runtime.service";
  api_unit := "genie-api.service"; homeassistant_unit := Some "home-assistant.service";
  nextcloud_unit := Some "nextcloud.service"; jellyfin_unit := Some "jellyfin.service" |}.

Definition device_config : GovernorConfig := {|
  poll_interval_ms := 5000; night_start_hour := 23; day_start_hour := 6; night_model_swap := true;
  pressure := {| stop_optins_mb := 500; reduce_context_mb := 300; swap_stt_mb := 200; zram_mb := 100 |} |}.

Definition all_running : gset string :=
  {["genie-wakeword"; "genie-core.service"; "genie-ai-runtime.service"; "genie-mqtt";
    "home-assistant.service"; "nextcloud.service"; "jellyfin.service"]}.

Definition device : Governor demo_host :=
  new_governor {| dh_units := all_running; dh_files := ∅;
                  dh_meminfo := "MemAvailable:    3145728 kB"; dh_hour := 12 |} false.

Lemma device_distinct : distinct_units device_services.
Proof.
  split.
  - intros a b u Ha Hb.
    repeat (apply elem_of_cons in Ha as [->|Ha]; [|]); try (by apply not_elem_of_nil in Ha);
      repeat (apply elem_of_cons in Hb as [->|Hb]; [|]); try (by apply not_elem_of_nil in Hb);
      vm_compute; congruence.
  - intros a u Ha. unfold llm_names.
    repeat (apply elem_of_cons in Ha as [->|Ha]; [|]); try (by apply not_elem_of_nil in Ha);
      vm_compute; intuition congruence.
Qed.

End device.

Section calm.
#[local] Instance calm_ops : Host demo_host := demo_ops [] [].
#[local] Instance calm_laws : HostLaws demo_host := demo_laws [] [].

Lemma transition_reaches_witness :
  let g' := (transition device_services 0 Mode.NightB device).2 in
  current_mode g' = Mode.NightB /\
  (forall u, owns device_services (Mode.required_services Mode.NightB) u -> u ∈ units (host g')) /\
  (forall u, owns device_services (Mode.stopped_services Mode.NightB) u -> u ∉ units (host g')).
Proof.
  apply (transition_reaches device_services 0 Mode.NightB device).
  - exact device_distinct.
  - discriminate.
  - vm_compute. reflexivity.
Defined.

Definition media_on : Governor demo_host :=
  (handle_command device_config device_services MediaStart device).2.
Definition media_off : Governor demo_host :=
  (handle_command device_config device_services MediaStop media_on).2.

Lemma media_commands_exact_witness : marked (host media_on) /\ ~ marked (host media_off).
Proof.
  destruct (media_commands_exact device_config device_services device media_on Mode.Media) as [H1 _].
  destruct (media_commands_exact device_config device_services media_on media_off Mode.Day) as [_ H2].
  destruct H1 as (_ & _ & H1); [vm_compute; reflexivity|].
  destruct H2 as (_ & _ & H2); [vm_compute; reflexivity|].
  split; [exact H1|exact H2].
Defined.

Lemma mode_choice_exact_witness :
  determine_mode device_config Mode.Day (Some 3072%N) false 2 = Mode.NightB.
Proof.
  refine (eq_trans (proj1 (mode_choice_exact device_config Mode.Day (Some 3072%N) false 2 _ _ _)) _);
    vm_compute; reflexivity.
Defined.

End calm.

(** *** The LLM service refuses to restart *)

Section broken_swap.
#[local] Instance broken_ops : Host demo_host := demo_ops ["genie-ai-runtime.service"] [].
#[local] Instance broken_laws : HostLaws demo_host := demo_laws ["genie-ai-runtime.service"] [].

Definition failed_night : Governor demo_host :=
  (transition device_services 0 Mode.NightB device).2.


End broken_swap.

(** *** Nextcloud refuses to stop *)

Section broken_stop.
#[local] Instance stuck_ops : Host demo_host := demo_ops [] ["nextcloud.service"].

(** When a second stop fails, the first is not undone: the governor stays in
    Day without Home Assistant, and the next tick does not notice. *)
Lemma stop_failure_is_not_rolled_back :
  let runs u (g : Governor demo_host) := bool_decide (u ∈ dh_units (host g)) in
  let '(r, g1) := transition device_services 0 Mode.NightB device in
  let '(r2, g2) := tick device_config device_services "" g1 in
  is_ok r = false /\ current_mode g1 = Mode.Day /\
  bool_decide ("homeassistant" ∈ Mode.required_services Mode.Day) = true /\
  service_unit_for_alias device_services "homeassistant" = Some "home-assistant.service" /\
  runs "home-assistant.service" device = true /\ runs "home-assistant.service" g1 = false /\
  r2 = Ok tt /\ current_mode g2 = Mode.Day /\ runs "home-assistant.service" g2 = false.
Proof. vm_compute. split_and!; done. Qed.

End broken_stop.
