(* ===== verification/ControlLine.v ===== *)
(** * Lines of the control socket ([genie-governor/src/control.rs])

    [read_control_line] assembles a bounded line from whatever pieces the
    buffered reader delivers.  The reader is the list of the pieces still to
    come; the result is proved not to depend on how the bytes were cut. *)

From S2P Require Import Prelude RustStr RustNum.
From Stdlib Require Import Ascii.
Local Open Scope string_scope.
Local Open Scope list_scope.

Definition MAX_CONTROL_LINE_BYTES : nat := 16 * 1024.

Definition lf : ascii := ascii_of_nat 10.
Definition cr : ascii := ascii_of_nat 13.

(** [iter().position(|&b| b == b'\n')]. *)
Fixpoint position_lf (l : list ascii) : option nat :=
  match l with
  | [] => None
  | b :: l => if Ascii.eqb b lf then Some 0 else S <$> position_lf l
  end.

Definition pop_end (suffix : ascii) (s : string) : option string :=
  if ends_with s (char_of suffix) then Some (String.substring 0 (String.length s - 1) s) else None.

(** The line without its line feed, and without a carriage return before it. *)
Definition strip_line_end (line : string) : string :=
  match pop_end lf line with
  | Some line => match pop_end cr line with Some line => line | None => line end
  | None => line
  end.

Definition too_long : string :=
  "control command exceeds " +:+ show_nat MAX_CONTROL_LINE_BYTES +:+ " bytes".

Section reader.
(** [String::from_utf8_lossy]. *)
Context (from_utf8_lossy : list ascii -> string).

(** What [fill_buf] returns, piece by piece; no more pieces is the end of the
    stream.  The second part of the result is what is left to read. *)
Fixpoint read_pieces (out : list ascii) (pieces : list (list ascii))
    : result (option string) string * list (list ascii) :=
  match pieces with
  | [] => (Ok (match out with [] => None | _ => Some (from_utf8_lossy out) end), [])
  | available :: pieces' =>
      match position_lf available with
      | Some idx =>
          let n := idx + 1 in
          if Nat.ltb MAX_CONTROL_LINE_BYTES (length out + n) then (Err too_long, pieces)
          else (Ok (Some (strip_line_end (from_utf8_lossy (out ++ take n available)))),
                match drop n available with [] => pieces' | rest => rest :: pieces' end)
      | None =>
          if Nat.ltb MAX_CONTROL_LINE_BYTES (length out + length available) then (Err too_long, pieces)
          else read_pieces (out ++ available) pieces'
      end
  end.

Definition read_control_line (pieces : list (list ascii)) : result (option string) string * list (list ascii) :=
  read_pieces [] pieces.

(** ** Reference *)

(** The same on the whole stream. *)
Definition read_stream (stream : list ascii) : result (option string) string * list ascii :=
  match position_lf stream with
  | Some idx =>
      if Nat.ltb MAX_CONTROL_LINE_BYTES (idx + 1) then (Err too_long, stream)
      else (Ok (Some (strip_line_end (from_utf8_lossy (take (idx + 1) stream)))), drop (idx + 1) stream)
  | None =>
      if Nat.ltb MAX_CONTROL_LINE_BYTES (length stream) then (Err too_long, stream)
      else (Ok (match stream with [] => None | _ => Some (from_utf8_lossy stream) end), [])
  end.

Lemma position_lf_app l l' :
  position_lf (l ++ l') =
  match position_lf l with
  | Some i => Some i
  | None => (fun i => length l + i) <$> position_lf l'
  end.
Proof.
  induction l as [|b l IH]; cbn [app position_lf length]; [by destruct (position_lf l')|].
  destruct (Ascii.eqb b lf); [done|]. rewrite IH. destruct (position_lf l); [done|].
  by destruct (position_lf l').
Qed.

Lemma position_lf_lt l i : position_lf l = Some i -> i < length l.
Proof.
  revert i. induction l as [|b l IH]; intros i; cbn [position_lf length]; [done|].
  destruct (Ascii.eqb b lf); [intros [= <-]; lia|].
  intros (j & Hj & ->)%fmap_Some. apply IH in Hj. lia.
Qed.

Lemma concat_drop n (available : list ascii) pieces :
  List.concat (match drop n available with [] => pieces | rest => rest :: pieces end) =
  drop n available ++ List.concat pieces.
Proof. by destruct (drop n available). Qed.

Lemma read_pieces_stream out pieces :
  position_lf out = None -> length out <= MAX_CONTROL_LINE_BYTES ->
  let '(r, remaining) := read_pieces out pieces in
  let '(r', remaining') := read_stream (out ++ List.concat pieces) in
  r = r' /\ (is_ok r = true -> List.concat remaining = remaining').
Proof.
  revert out. induction pieces as [|available pieces IH]; intros out Hout Hlen; cbn [read_pieces List.concat].
  { unfold read_stream. rewrite app_nil_r, Hout, (proj2 (Nat.ltb_ge _ _)) by lia. done. }
  unfold read_stream. rewrite position_lf_app, Hout, position_lf_app.
  destruct (position_lf available) as [idx|] eqn:Ei; cbn [fmap option_fmap option_map].
  - apply position_lf_lt in Ei as Hlt.
    replace (length out + idx + 1) with (length out + (idx + 1)) by lia.
    destruct (Nat.ltb_spec MAX_CONTROL_LINE_BYTES (length out + (idx + 1))); [done|].
    rewrite take_app_add, (take_app_le available) by lia.
    rewrite drop_app_add, (drop_app_le available) by lia.
    split; [done|]. intros _. apply concat_drop.
  - assert (position_lf (out ++ available) = None) as Hnone by by rewrite position_lf_app, Hout, Ei.
    destruct (Nat.ltb_spec MAX_CONTROL_LINE_BYTES (length out + length available)) as [Hover|Hin].
    + destruct (position_lf (List.concat pieces)) as [j|]; cbn [fmap option_fmap option_map].
      * rewrite (proj2 (Nat.ltb_lt _ _)) by lia. done.
      * rewrite (proj2 (Nat.ltb_lt _ _)) by (rewrite !length_app; lia). done.
    + specialize (IH (out ++ available) Hnone ltac:(rewrite length_app; lia)).
      destruct (read_pieces (out ++ available) pieces) as [r remaining].
      unfold read_stream in IH. rewrite position_lf_app, Hnone, <- app_assoc, length_app in IH.
      destruct (position_lf (List.concat pieces)) as [j|]; cbn [fmap option_fmap option_map] in *.
      * replace (length out + (length available + j)) with (length out + length available + j) by lia. exact IH.
      * exact IH.
Qed.

(** ** Properties *)

(** Reading a line is a function of the bytes and not of the pieces they
    arrive in: it gives the line, the end of the stream or the refusal that
    reading the whole stream at once gives, and a line that is given is at most
    16 KiB with everything after it left to read. *)
Lemma control_line_independent_of_pieces pieces :
  let '(r, remaining) := read_control_line pieces in
  let '(r', remaining') := read_stream (List.concat pieces) in
  r = r' /\ (is_ok r = true -> List.concat remaining = remaining') /\
  (forall idx, position_lf (List.concat pieces) = Some idx -> is_ok r = true -> idx + 1 <= MAX_CONTROL_LINE_BYTES).
Proof.
  pose proof (read_pieces_stream [] pieces eq_refl ltac:(cbn; lia)) as H. cbn [app] in H.
  unfold read_control_line. destruct (read_pieces [] pieces) as [r remaining].
  destruct (read_stream (List.concat pieces)) as [r' remaining'] eqn:E. destruct H as [<- Hl].
  split_and!; [done|done|]. intros idx Hidx Hok. unfold read_stream in E. rewrite Hidx in E.
  destruct (Nat.ltb_spec MAX_CONTROL_LINE_BYTES (idx + 1)); [|done].
  injection E as <- _. done.
Qed.

End reader.
