(* ===== verification/HttpFraming.v ===== *)
(** * HTTP framing ([genie-common/src/http.rs])

    The bounded readers of requests and of responses.  A connection is the list
    of what the buffered reader will deliver; the readers are written against
    the two operations they use of it, so that the same code runs on a
    connection cut into pieces and on the plain bytes, and is proved not to
    tell them apart. *)

From S2P Require Import Prelude RustStr RustNum ControlLine.
From Stdlib Require Import Ascii.
Local Open Scope string_scope.
Local Open Scope list_scope.
Local Open Scope rust_scope.

(** ** Data *)

Record HttpLimits := {
  max_request_line_bytes : N;
  max_header_line_bytes : N;
  max_header_count : nat;
  max_header_bytes : N;
  max_body_bytes : N;
}.

Record HttpRequest := {
  method : string;
  path : string;
  headers : list (string * string);
  content_length : N;
  body : option string;
}.

Module HttpReadError.

Inductive t : Type :=
| Timeout
| Closed
| Malformed
| RequestLineTooLong
| StatusLineTooLong
| HeaderLineTooLong
| TooManyHeaders
| HeadersTooLarge
| BodyTooLarge
| InvalidContentLength
| UnsupportedTransferEncoding
| Io (e : string).

Definition status_code (e : t) : option N :=
  match e with
  | RequestLineTooLong | StatusLineTooLong | HeaderLineTooLong | TooManyHeaders
  | HeadersTooLarge => Some 431%N
  | BodyTooLarge => Some 413%N
  | InvalidContentLength | UnsupportedTransferEncoding => Some 400%N
  | Timeout | Closed | Malformed | Io _ => None
  end.

Definition fmt (e : t) : string :=
  match e with
  | Timeout => "request read timed out"
  | Closed => "peer closed before a complete request"
  | Malformed => "malformed request line"
  | RequestLineTooLong => "request line too long"
  | StatusLineTooLong => "response status line too long"
  | HeaderLineTooLong => "header line too long"
  | TooManyHeaders => "too many headers"
  | HeadersTooLarge => "headers too large"
  | BodyTooLarge => "request body too large"
  | InvalidContentLength => "invalid content-length"
  | UnsupportedTransferEncoding => "unsupported transfer-encoding"
  | Io e => "io error: " +:+ e
  end.

End HttpReadError.
Notation HttpReadError := HttpReadError.t.

(** [HttpRequest::header]. *)
Definition header (r : HttpRequest) (name : string) : option string :=
  snd <$> find (fun kv => eq_ignore_ascii_case kv.1 name) (headers r).

(** ** Readers *)

(** What the readers use of a connection: a line of bounded length, and a
    number of bytes.  A line that is too long answers the given error. *)
Class Reader (R : Type) := {
  read_line_bounded : N -> HttpReadError -> R -> result (list ascii) HttpReadError * R;
  read_exact : nat -> R -> result (list ascii) HttpReadError * R;
  (** everything up to the end of the stream or one byte more than the bound *)
  read_to_end : nat -> R -> result (list ascii) HttpReadError * R;
  bytes_left : R -> nat;
}.

(** A piece of a connection: bytes, an error of the socket, or a silence that
    only the deadline ends. *)
Inductive piece :=
| Data (available : list ascii)
| Fault (e : string)
| Stall.

Definition unexpected_eof : HttpReadError := HttpReadError.Io "early eof".

Fixpoint pieces_line (max : N) (too_long : HttpReadError) (out : list ascii) (ps : list piece)
    : result (list ascii) HttpReadError * list piece :=
  match ps with
  | [] => (Ok out, [])
  | Fault e :: _ => (Err (HttpReadError.Io e), ps)
  | Stall :: _ => (Err HttpReadError.Timeout, ps)
  | Data available :: ps' =>
      match position_lf available with
      | Some idx =>
          let n := idx + 1 in
          if (max <? N.of_nat (length out + n))%N then (Err too_long, ps)
          else (Ok (out ++ take n available),
                match drop n available with [] => ps' | rest => Data rest :: ps' end)
      | None =>
          if (max <? N.of_nat (length out + length available))%N then (Err too_long, ps)
          else pieces_line max too_long (out ++ available) ps'
      end
  end.

(** Up to [n] bytes; [eof] is what the end of the stream makes of fewer. *)
Fixpoint pieces_fetch (eof : list ascii -> result (list ascii) HttpReadError) (n : nat)
    (out : list ascii) (ps : list piece) : result (list ascii) HttpReadError * list piece :=
  match n with
  | O => (Ok out, ps)
  | _ =>
      match ps with
      | [] => (eof out, [])
      | Fault e :: _ => (Err (HttpReadError.Io e), ps)
      | Stall :: _ => (Err HttpReadError.Timeout, ps)
      | Data available :: ps' =>
          if Nat.ltb (length available) n
          then pieces_fetch eof (n - length available) (out ++ available) ps'
          else (Ok (out ++ take n available),
                match drop n available with [] => ps' | rest => Data rest :: ps' end)
      end
  end.

(** The same bytes in one run, and what comes after them. *)
Inductive ending := Eof | Broken (e : string) | Silent.
Record wire := { w_bytes : list ascii; w_end : ending }.

Fixpoint flatten (ps : list piece) : wire :=
  match ps with
  | [] => {| w_bytes := []; w_end := Eof |}
  | Data l :: ps => {| w_bytes := l ++ w_bytes (flatten ps); w_end := w_end (flatten ps) |}
  | Fault e :: _ => {| w_bytes := []; w_end := Broken e |}
  | Stall :: _ => {| w_bytes := []; w_end := Silent |}
  end.

(** A connection in pieces.  A piece of data is not empty: an empty buffer is
    how the reader reports the end of the stream, the end of the list. *)
#[export] Instance pieces_reader : Reader (list piece) := {|
  read_line_bounded max e ps := pieces_line max e [] ps;
  read_exact n ps := pieces_fetch (fun _ => Err unexpected_eof) n [] ps;
  read_to_end n ps := pieces_fetch Ok n [] ps;
  bytes_left ps := length (w_bytes (flatten ps));
|}.

Definition at_end (w : wire) (eof : result (list ascii) HttpReadError) : result (list ascii) HttpReadError :=
  match w_end w with
  | Eof => eof
  | Broken e => Err (HttpReadError.Io e)
  | Silent => Err HttpReadError.Timeout
  end.

Definition wire_take (n : nat) (w : wire) : result (list ascii) HttpReadError * wire :=
  (Ok (take n (w_bytes w)), {| w_bytes := drop n (w_bytes w); w_end := w_end w |}).

Definition wire_rest (w : wire) (eof : list ascii -> result (list ascii) HttpReadError)
    : result (list ascii) HttpReadError * wire :=
  (at_end w (eof (w_bytes w)), {| w_bytes := []; w_end := w_end w |}).

Definition wire_fetch (eof : list ascii -> result (list ascii) HttpReadError) (n : nat) (w : wire)
    : result (list ascii) HttpReadError * wire :=
  if Nat.leb n (length (w_bytes w)) then wire_take n w else wire_rest w eof.

#[export] Instance wire_reader : Reader wire := {|
  read_line_bounded max e w :=
    match position_lf (w_bytes w) with
    | Some idx => if (max <? N.of_nat (idx + 1))%N then (Err e, w) else wire_take (idx + 1) w
    | None => if (max <? N.of_nat (length (w_bytes w)))%N then (Err e, w) else wire_rest w Ok
    end;
  read_exact n w := wire_fetch (fun _ => Err unexpected_eof) n w;
  read_to_end n w := wire_fetch Ok n w;
  bytes_left w := length (w_bytes w);
|}.

(** ** Requests *)

(** [String::from_utf8_lossy] and [String::from_utf8]. *)
Class Utf8 := {
  from_utf8_lossy : list ascii -> string;
  from_utf8 : list ascii -> option string;
}.

(** Both decoders read ASCII as it stands. *)
Class Utf8Laws (U : Utf8) : Prop := {
  lossy_ascii l : Forall (fun a => byte_is_ascii a = true) l -> from_utf8_lossy l = of_bytes l;
  strict_ascii l : Forall (fun a => byte_is_ascii a = true) l -> from_utf8 l = Some (of_bytes l);
}.

Definition is_line_end (c : string) : bool :=
  String.eqb c (char_of cr) || String.eqb c (char_of lf).

(** [usize::saturating_add] on the running totals. *)
Definition usize_add (a b : N) : N := u64_saturate (a + b).

Record HeaderState := {
  hs_headers : list (string * string);
  hs_content_length : N;
  hs_saw_content_length : bool;
  hs_total : N;
}.

Definition no_headers : HeaderState :=
  {| hs_headers := []; hs_content_length := 0; hs_saw_content_length := false; hs_total := 0 |}.

Definition set_total (n : N) (st : HeaderState) : HeaderState :=
  {| hs_headers := hs_headers st; hs_content_length := hs_content_length st;
     hs_saw_content_length := hs_saw_content_length st; hs_total := n |}.
Definition push_header (kv : string * string) (st : HeaderState) : HeaderState :=
  {| hs_headers := hs_headers st ++ [kv]; hs_content_length := hs_content_length st;
     hs_saw_content_length := hs_saw_content_length st; hs_total := hs_total st |}.

(** What a header line, without its end, does to the state. *)
Definition add_header_line (trimmed : string) (st : HeaderState) : result HeaderState HttpReadError :=
  match split_once trimmed ":" with
  | None => Ok st
  | Some (name, v) =>
      let name := to_ascii_lowercase (trim name) in
      let v := trim v in
      if String.eqb name "content-length" then
        if hs_saw_content_length st then Err HttpReadError.InvalidContentLength
        else
          match parse_u64 v with
          | None => Err HttpReadError.InvalidContentLength
          | Some n =>
              Ok (push_header (name, v)
                {| hs_headers := hs_headers st; hs_content_length := n;
                   hs_saw_content_length := true; hs_total := hs_total st |})
          end
      else if String.eqb name "transfer-encoding" && negb (is_empty v)
      then Err HttpReadError.UnsupportedTransferEncoding
      else Ok (push_header (name, v) st)
  end.

Section reading.
Context {R : Type} `{RD : Reader R} `{UT : Utf8}.

Fixpoint header_loop (fuel : nat) (limits : HttpLimits) (st : HeaderState)
    : M R (result HeaderState HttpReadError) :=
  match fuel with
  | O => ret (Err HttpReadError.Closed)
  | S fuel =>
      if Nat.leb (max_header_count limits) (length (hs_headers st))
      then ret (Err HttpReadError.TooManyHeaders)
      else
        let!? line := read_line_bounded (max_header_line_bytes limits) HttpReadError.HeaderLineTooLong in
        match line with
        | [] => ret (Err HttpReadError.Closed)
        | _ =>
            let total := usize_add (hs_total st) (N.of_nat (length line)) in
            if (max_header_bytes limits <? total)%N then ret (Err HttpReadError.HeadersTooLarge)
            else
              let trimmed := trim_end_matches is_line_end (from_utf8_lossy line) in
              if is_empty trimmed then ret (Ok (set_total total st))
              else
                let!? st := ret (add_header_line trimmed (set_total total st)) in
                header_loop fuel limits st
        end
  end.

(** Every round consumes a byte, so one round more than the bytes left is
    enough. *)
Definition read_headers (limits : HttpLimits) : M R (result HeaderState HttpReadError) :=
  fun r => header_loop (S (bytes_left r)) limits no_headers r.

Definition read_body (limits : HttpLimits) (n : N) : M R (result (option string) HttpReadError) :=
  if (0 <? n)%N then
    if (max_body_bytes limits <? n)%N then ret (Err HttpReadError.BodyTooLarge)
    else
      let!? buf := read_exact (N.to_nat n) in
      ret (Ok (Some (from_utf8_lossy buf)))
  else ret (Ok None).

(** [read_request]: its deadline answers for the silences, which the readers
    report as [Timeout]. *)
Definition read_request (limits : HttpLimits) : M R (result HttpRequest HttpReadError) :=
  let!? line := read_line_bounded (max_request_line_bytes limits) HttpReadError.RequestLineTooLong in
  match line with
  | [] => ret (Err HttpReadError.Closed)
  | _ =>
      match split_whitespace (from_utf8_lossy line) with
      | method :: path :: _ =>
          let!? st := read_headers limits in
          let!? body := read_body limits (hs_content_length st) in
          ret (Ok {| method := method; path := path; headers := hs_headers st;
                     content_length := hs_content_length st; body := body |})
      | _ => ret (Err HttpReadError.Malformed)
      end
  end.

End reading.

(** ** Responses *)

Record HttpResponseLimits := {
  max_status_line_bytes : N;
  rs_header_line_bytes : N;
  rs_header_count : nat;
  rs_header_bytes : N;
  rs_body_bytes : N;
}.

Definition with_body_cap (max_body_bytes : N) : HttpResponseLimits := {|
  max_status_line_bytes := 8 * 1024; rs_header_line_bytes := 8 * 1024; rs_header_count := 100;
  rs_header_bytes := 64 * 1024; rs_body_bytes := max_body_bytes |}.

Record HttpResponse := { status : N; rs_body : string }.

Record ResponseHead := {
  rh_content_length : option N;
  rh_chunked : bool;
  rh_count : nat;
  rh_total : N;
}.

Definition no_head : ResponseHead :=
  {| rh_content_length := None; rh_chunked := false; rh_count := 0; rh_total := 0 |}.

Definition add_response_line (total : N) (trimmed : string) (h : ResponseHead) : ResponseHead :=
  let lower := to_ascii_lowercase trimmed in
  {| rh_content_length :=
       match strip_prefix lower "content-length:" with
       | Some v => parse_u64 (trim v)
       | None => rh_content_length h
       end;
     rh_chunked :=
       match strip_prefix lower "transfer-encoding:" with
       | Some v => contains v "chunked" || rh_chunked h
       | None => rh_chunked h
       end;
     rh_count := S (rh_count h); rh_total := total |}.

Definition MAX_CHUNK_SIZE_LINE_BYTES : N := 32.

(** [usize::from_str_radix(_, 16)]. *)
Definition hex_digit (a : ascii) : option N :=
  if byte_is_digit a then Some (digit_val a)
  else if byte_in 97 102 a then Some (N_of_ascii a - 87)%N
  else if byte_in 65 70 a then Some (N_of_ascii a - 55)%N
  else None.
Fixpoint hex_val (s : string) (acc : N) : option N :=
  match s with
  | "" => Some acc
  | String a s => d ← hex_digit a; u64_checked (acc * 16 + d) ≫= hex_val s
  end.
Definition parse_hex (s : string) : option N :=
  let body := match s with String "+" s' => s' | _ => s end in
  if is_empty body then None else hex_val body 0.

Section responses.
Context {R : Type} `{RD : Reader R} `{UT : Utf8}.

Fixpoint response_head_loop (fuel : nat) (limits : HttpResponseLimits) (h : ResponseHead)
    : M R (result ResponseHead HttpReadError) :=
  match fuel with
  | O => ret (Err HttpReadError.Closed)
  | S fuel =>
      if Nat.leb (rs_header_count limits) (rh_count h) then ret (Err HttpReadError.TooManyHeaders)
      else
        let!? line := read_line_bounded (rs_header_line_bytes limits) HttpReadError.HeaderLineTooLong in
        match line with
        | [] => ret (Err HttpReadError.Closed)
        | _ =>
            let total := usize_add (rh_total h) (N.of_nat (length line)) in
            if (rs_header_bytes limits <? total)%N then ret (Err HttpReadError.HeadersTooLarge)
            else
              let trimmed := trim_end_matches is_line_end (from_utf8_lossy line) in
              if is_empty trimmed then ret (Ok h)
              else response_head_loop fuel limits (add_response_line total trimmed h)
        end
  end.

Fixpoint chunk_loop (fuel : nat) (limits : HttpResponseLimits) (acc : list ascii)
    : M R (result (list ascii) HttpReadError) :=
  match fuel with
  | O => ret (Err HttpReadError.Malformed)
  | S fuel =>
      let!? size_line := read_line_bounded MAX_CHUNK_SIZE_LINE_BYTES HttpReadError.HeaderLineTooLong in
      let size_hex := trim (default "" (head (split_char (trim (from_utf8_lossy size_line)) ";"))) in
      match parse_hex size_hex with
      | None => ret (Err HttpReadError.Malformed)
      | Some 0%N =>
          let!? _ := read_line_bounded MAX_CHUNK_SIZE_LINE_BYTES HttpReadError.HeaderLineTooLong in
          ret (Ok acc)
      | Some size =>
          if (rs_body_bytes limits <? usize_add (N.of_nat (length acc)) size)%N
          then ret (Err HttpReadError.BodyTooLarge)
          else
            let!? chunk := read_exact (N.to_nat size) in
            let!? _ := read_exact 2 in
            chunk_loop fuel limits (acc ++ chunk)
      end
  end.

Definition read_chunked_response_body (limits : HttpResponseLimits) : M R (result string HttpReadError) :=
  fun r => (let!? body := chunk_loop (S (bytes_left r)) limits [] in
            ret (Ok (from_utf8_lossy body))) r.

Definition read_response_body (limits : HttpResponseLimits) (h : ResponseHead)
    : M R (result string HttpReadError) :=
  if rh_chunked h then read_chunked_response_body limits
  else
    match rh_content_length h with
    | Some n =>
        if (rs_body_bytes limits <? n)%N then ret (Err HttpReadError.BodyTooLarge)
        else
          let!? buf := read_exact (N.to_nat n) in
          ret (Ok (from_utf8_lossy buf))
    | None =>
        let cap := N.to_nat (rs_body_bytes limits) in
        let!? buf := read_to_end (cap + 1) in
        ret (match from_utf8 buf with
             | None => Err (HttpReadError.Io "stream did not contain valid UTF-8")
             | Some s => if Nat.ltb cap (String.length s) then Err HttpReadError.BodyTooLarge else Ok s
             end)
    end.

Definition read_response (limits : HttpResponseLimits) : M R (result HttpResponse HttpReadError) :=
  let!? line := read_line_bounded (max_status_line_bytes limits) HttpReadError.StatusLineTooLong in
  match line with
  | [] => ret (Err HttpReadError.Closed)
  | _ =>
      let code := default 0%N (split_whitespace (from_utf8_lossy line) !! 1 ≫= parse_u16) in
      let!? h := (fun r => response_head_loop (S (bytes_left r)) limits no_head r) in
      let!? text := read_response_body limits h in
      ret (Ok {| status := code; rs_body := text |})
  end.

End responses.

(** ** The pieces do not matter *)

Section simulation.
Context {R1 R2 : Type} `{RD1 : Reader R1} `{RD2 : Reader R2} `{UT : Utf8}.
Variable rel : R1 -> R2 -> Prop.

(** Two runs answer alike, and after a success leave related readers. *)
Definition agree {A} (x : result A HttpReadError * R1) (y : result A HttpReadError * R2) : Prop :=
  x.1 = y.1 /\ (is_ok x.1 = true -> rel x.2 y.2).

Hypothesis line_agrees : forall max e r1 r2, rel r1 r2 ->
  agree (read_line_bounded max e r1) (read_line_bounded max e r2).
Hypothesis exact_agrees : forall n r1 r2, rel r1 r2 -> agree (read_exact n r1) (read_exact n r2).
Hypothesis end_agrees : forall n r1 r2, rel r1 r2 -> agree (read_to_end n r1) (read_to_end n r2).
Hypothesis left_agrees : forall r1 r2, rel r1 r2 -> bytes_left r1 = bytes_left r2.

Lemma agree_ret {A} (x : result A HttpReadError) r1 r2 : rel r1 r2 -> agree (ret x r1) (ret x r2).
Proof. by split. Qed.

Lemma agree_ebind {A B} (m1 : M R1 (result A HttpReadError)) (m2 : M R2 (result A HttpReadError))
    (f1 : A -> M R1 (result B HttpReadError)) (f2 : A -> M R2 (result B HttpReadError)) r1 r2 :
  agree (m1 r1) (m2 r2) ->
  (forall a r1' r2', rel r1' r2' -> agree (f1 a r1') (f2 a r2')) ->
  agree (ebind m1 f1 r1) (ebind m2 f2 r2).
Proof.
  unfold agree at 1, ebind. destruct (m1 r1) as [x r1'], (m2 r2) as [y r2']; cbn [fst snd].
  intros [<- Hr] Hf. destruct x as [a|e]; [by apply Hf, Hr|by split].
Qed.

Lemma header_loop_agrees fuel limits st r1 r2 :
  rel r1 r2 -> agree (header_loop fuel limits st r1) (header_loop fuel limits st r2).
Proof.
  revert st r1 r2. induction fuel as [|fuel IH]; intros st r1 r2 Hr; cbn [header_loop]; [by apply agree_ret|].
  destruct (Nat.leb _ _); [by apply agree_ret|]. apply agree_ebind; [by apply line_agrees|].
  intros [|b line] q1 q2 Hq; [by apply agree_ret|]. destruct (_ <? _)%N; [by apply agree_ret|].
  destruct (is_empty _); [by apply agree_ret|]. apply agree_ebind; [by apply agree_ret|]. auto.
Qed.

Lemma read_request_agrees limits r1 r2 :
  rel r1 r2 -> agree (read_request limits r1) (read_request limits r2).
Proof.
  intros Hr. unfold read_request. apply agree_ebind; [by apply line_agrees|].
  intros [|b line] q1 q2 Hq; [by apply agree_ret|].
  destruct (split_whitespace _) as [|? [|? ?]]; try by apply agree_ret.
  apply agree_ebind.
  { unfold read_headers. rewrite (left_agrees q1 q2 Hq). by apply header_loop_agrees. }
  intros h p1 p2 Hp. apply agree_ebind; [|intros; by apply agree_ret].
  unfold read_body. destruct (_ <? _)%N; [|by apply agree_ret].
  destruct (_ <? _)%N; [by apply agree_ret|].
  apply agree_ebind; [by apply exact_agrees|]. intros; by apply agree_ret.
Qed.

Lemma response_head_agrees fuel limits h r1 r2 :
  rel r1 r2 -> agree (response_head_loop fuel limits h r1) (response_head_loop fuel limits h r2).
Proof.
  revert h r1 r2. induction fuel as [|fuel IH]; intros h r1 r2 Hr; cbn [response_head_loop]; [by apply agree_ret|].
  destruct (Nat.leb _ _); [by apply agree_ret|]. apply agree_ebind; [by apply line_agrees|].
  intros [|b line] q1 q2 Hq; [by apply agree_ret|]. destruct (_ <? _)%N; [by apply agree_ret|].
  destruct (is_empty _); [by apply agree_ret|]. auto.
Qed.

Lemma chunk_loop_agrees fuel limits acc r1 r2 :
  rel r1 r2 -> agree (chunk_loop fuel limits acc r1) (chunk_loop fuel limits acc r2).
Proof.
  revert acc r1 r2. induction fuel as [|fuel IH]; intros acc r1 r2 Hr; cbn [chunk_loop]; [by apply agree_ret|].
  apply agree_ebind; [by apply line_agrees|]. intros line q1 q2 Hq.
  destruct (parse_hex _) as [[|size]|]; [| |by apply agree_ret].
  { apply agree_ebind; [by apply line_agrees|]. intros; by apply agree_ret. }
  destruct (_ <? _)%N; [by apply agree_ret|].
  apply agree_ebind; [by apply exact_agrees|]. intros chunk p1 p2 Hp.
  apply agree_ebind; [by apply exact_agrees|]. auto.
Qed.

Lemma read_response_agrees limits r1 r2 :
  rel r1 r2 -> agree (read_response limits r1) (read_response limits r2).
Proof.
  intros Hr. unfold read_response. apply agree_ebind; [by apply line_agrees|].
  intros [|b line] q1 q2 Hq; [by apply agree_ret|].
  apply agree_ebind; [rewrite (left_agrees q1 q2 Hq); by apply response_head_agrees|].
  intros h p1 p2 Hp. apply agree_ebind; [|intros; by apply agree_ret].
  unfold read_response_body, read_chunked_response_body. destruct (rh_chunked h).
  { rewrite (left_agrees p1 p2 Hp).
    apply agree_ebind; [by apply chunk_loop_agrees|]. intros; by apply agree_ret. }
  destruct (rh_content_length h).
  - destruct (_ <? _)%N; [by apply agree_ret|].
    apply agree_ebind; [by apply exact_agrees|]. intros; by apply agree_ret.
  - apply agree_ebind; [by apply end_agrees|]. intros; by apply agree_ret.
Qed.

End simulation.

Lemma flatten_rest available n ps :
  flatten (match drop n available with [] => ps | rest => Data rest :: ps end) =
  {| w_bytes := drop n available ++ w_bytes (flatten ps); w_end := w_end (flatten ps) |}.
Proof. destruct (drop n available); [by destruct (flatten ps)|done]. Qed.

Definition same_bytes (ps : list piece) (w : wire) : Prop := flatten ps = w.

Lemma pieces_line_flat max e out ps :
  position_lf out = None -> (N.of_nat (length out) <= max)%N ->
  agree same_bytes (pieces_line max e out ps)
    (read_line_bounded max e {| w_bytes := out ++ w_bytes (flatten ps); w_end := w_end (flatten ps) |}).
Proof.
  revert out. induction ps as [|[available|f|] ps IH]; intros out Hout Hlen; cbn [pieces_line flatten w_bytes w_end].
  - cbn. rewrite app_nil_r, Hout. destruct (N.ltb_spec max (N.of_nat (length out))); [lia|]. by split.
  - cbn [read_line_bounded wire_reader w_bytes]. rewrite position_lf_app, Hout, position_lf_app.
    destruct (position_lf available) as [idx|] eqn:Ei; cbn [fmap option_fmap option_map].
    + apply position_lf_lt in Ei as Hlt.
      replace (length out + idx + 1) with (length out + (idx + 1)) by lia.
      destruct (_ <? _)%N; [by split|]. unfold wire_take. cbn [w_bytes w_end].
      rewrite take_app_add, (take_app_le available), drop_app_add, (drop_app_le available) by lia.
      split; [done|]. intros _. apply flatten_rest.
    + assert (position_lf (out ++ available) = None) as Hnone by by rewrite position_lf_app, Hout, Ei.
      destruct (N.ltb_spec max (N.of_nat (length out + length available))) as [Hover|Hin].
      * split; [|done]. destruct (position_lf (w_bytes (flatten ps))) as [j|]; cbn [fmap option_fmap option_map].
        -- rewrite (proj2 (N.ltb_lt _ _)) by lia. done.
        -- rewrite (proj2 (N.ltb_lt _ _)) by (rewrite !length_app; lia). done.
      * specialize (IH (out ++ available) Hnone ltac:(rewrite length_app; lia)).
        cbn [read_line_bounded wire_reader w_bytes] in IH.
        rewrite position_lf_app, Hnone, <- app_assoc, length_app in IH.
        destruct (position_lf (w_bytes (flatten ps))) as [j|]; cbn [fmap option_fmap option_map] in *; [|exact IH].
        replace (length out + (length available + j)) with (length out + length available + j) by lia. exact IH.
  - cbn. rewrite app_nil_r, Hout. destruct (N.ltb_spec max (N.of_nat (length out))); [lia|]. by split.
  - cbn. rewrite app_nil_r, Hout. destruct (N.ltb_spec max (N.of_nat (length out))); [lia|]. by split.
Qed.

Definition prepend (out : list ascii) (r : result (list ascii) HttpReadError) : result (list ascii) HttpReadError :=
  match r with Ok l => Ok (out ++ l) | Err e => Err e end.

Lemma prepend_prepend out out' r : prepend out (prepend out' r) = prepend (out ++ out') r.
Proof. destruct r; cbn; [by rewrite app_assoc|done]. Qed.

Lemma pieces_fetch_flat eof n out ps :
  (forall out l, eof (out ++ l) = prepend out (eof l)) ->
  (pieces_fetch eof n out ps).1 = prepend out (wire_fetch eof n (flatten ps)).1 /\
  (is_ok (pieces_fetch eof n out ps).1 = true ->
   same_bytes (pieces_fetch eof n out ps).2 (wire_fetch eof n (flatten ps)).2).
Proof.
  intros Heof. revert n out. induction ps as [|[available|f|] ps IH]; intros [|n] out;
    cbn [pieces_fetch flatten]; try (cbn; rewrite ?app_nil_r; by split).
  - unfold wire_fetch, wire_rest, at_end. cbn. split; [|done]. by rewrite <- Heof, app_nil_r.
  - destruct (Nat.ltb_spec (length available) (S n)) as [Hlt|Hge].
    + destruct (IH (S n - length available) (out ++ available)) as [H1 H2].
      unfold wire_fetch, wire_take, wire_rest, at_end in *. cbn [w_bytes w_end] in *.
      rewrite length_app.
      destruct (Nat.leb_spec (S n - length available) (length (w_bytes (flatten ps)))) as [Hle|Hgt];
        destruct (Nat.leb_spec (S n) (length available + length (w_bytes (flatten ps)))); try lia;
        cbn [fst snd prepend] in *.
      * rewrite take_app_ge, drop_app_ge by lia. split; [by rewrite H1, app_assoc|]. exact H2.
      * split; [|exact H2]. rewrite H1. destruct (w_end (flatten ps)); cbn; [|done|done].
        by rewrite Heof, prepend_prepend.
    + unfold wire_fetch, wire_take. cbn [w_bytes w_end]. rewrite length_app.
      rewrite (proj2 (Nat.leb_le _ _)) by lia. cbn [fst snd prepend w_bytes w_end].
      rewrite take_app_le, drop_app_le by lia. split; [done|]. intros _. apply flatten_rest.
Qed.

Lemma prepend_nil r : prepend [] r = r.
Proof. by destruct r. Qed.

Lemma line_flat max e ps :
  agree same_bytes (read_line_bounded max e ps) (read_line_bounded max e (flatten ps)).
Proof.
  pose proof (pieces_line_flat max e [] ps eq_refl ltac:(cbn; lia)) as H. by destruct (flatten ps).
Qed.
Lemma exact_flat n ps : agree same_bytes (read_exact n ps) (read_exact n (flatten ps)).
Proof.
  destruct (pieces_fetch_flat (fun _ => Err unexpected_eof) n [] ps) as [H1 H2]; [done|].
  rewrite prepend_nil in H1. by split.
Qed.
Lemma end_flat n ps : agree same_bytes (read_to_end n ps) (read_to_end n (flatten ps)).
Proof.
  destruct (pieces_fetch_flat Ok n [] ps) as [H1 H2]; [done|]. rewrite prepend_nil in H1. by split.
Qed.

Section fragmentation.
Context `{UT : Utf8}.

Lemma request_agrees limits ps :
  agree same_bytes (read_request limits ps) (read_request limits (flatten ps)).
Proof.
  apply (read_request_agrees same_bytes); [| |by intros ? ? <-|done].
  - intros max e r1 ? <-. apply line_flat.
  - intros n r1 ? <-. apply exact_flat.
Qed.

Lemma response_agrees limits ps :
  agree same_bytes (read_response limits ps) (read_response limits (flatten ps)).
Proof.
  apply (read_response_agrees same_bytes); [| | |by intros ? ? <-|done].
  - intros max e r1 ? <-. apply line_flat.
  - intros n r1 ? <-. apply exact_flat.
  - intros n r1 ? <-. apply end_flat.
Qed.

End fragmentation.

(** ** What a successful read has consumed *)

Section bounds.
Context `{UT : Utf8}.

Lemma wire_line_ok max e w l w' :
  read_line_bounded max e w = (Ok l, w') ->
  w_bytes w = l ++ w_bytes w' /\ (N.of_nat (length l) <= max)%N.
Proof.
  cbn [read_line_bounded wire_reader]. destruct (position_lf (w_bytes w)) as [i|] eqn:Ei.
  - destruct (N.ltb_spec max (N.of_nat (i + 1))); [done|]. intros [= <- <-]. cbn [w_bytes].
    rewrite take_drop. split; [done|]. rewrite length_take. lia.
  - destruct (N.ltb_spec max (N.of_nat (length (w_bytes w)))); [done|]. unfold wire_rest, at_end.
    destruct (w_end w); intros [= <- <-]. cbn [w_bytes]. by rewrite app_nil_r.
Qed.

Lemma wire_fetch_ok eof n w l w' :
  (forall l, eof l = Err unexpected_eof) ->
  wire_fetch eof n w = (Ok l, w') -> w_bytes w = l ++ w_bytes w' /\ length l = n.
Proof.
  intros Heof. unfold wire_fetch. destruct (Nat.leb_spec n (length (w_bytes w))).
  - intros [= <- <-]. cbn [w_bytes]. rewrite take_drop, length_take. split; [done|]. lia.
  - unfold wire_rest, at_end. rewrite Heof. by destruct (w_end w).
Qed.

(** A round more than the bytes left is enough: more rounds change nothing. *)
Lemma header_loop_fuel f1 f2 limits st (w : wire) :
  bytes_left w < f1 -> bytes_left w < f2 ->
  header_loop f1 limits st w = header_loop f2 limits st w.
Proof.
  revert f2 st w. induction f1 as [|f1 IH]; intros [|f2] st w H1 H2; try lia.
  cbn [header_loop]. destruct (Nat.leb _ _); [done|]. unfold ebind at 1 3.
  destruct (read_line_bounded _ _ w) as [[[|b line]|e] w'] eqn:El; try done.
  apply wire_line_ok in El as [El _]. destruct (_ <? _)%N; [done|]. destruct (is_empty _); [done|].
  unfold ebind, ret. destruct (add_header_line _ _); [|done].
  assert (bytes_left w' < bytes_left w) by (cbn [bytes_left wire_reader]; rewrite El, length_app; cbn; lia).
  apply IH; lia.
Qed.

(** What the headers say of the body: at most one length, read as written, and
    no transfer coding. *)
Definition framing_ok (st : HeaderState) : Prop :=
  (forall v, ("transfer-encoding", v) ∈ hs_headers st -> v = "") /\
  (if hs_saw_content_length st
   then exists v, filter (fun kv => kv.1 = "content-length") (hs_headers st) = [("content-length", v)] /\
                  parse_u64 v = Some (hs_content_length st)
   else filter (fun kv => kv.1 = "content-length") (hs_headers st) = [] /\ hs_content_length st = 0%N).

Lemma add_header_line_framing trimmed st st' :
  add_header_line trimmed st = Ok st' -> framing_ok st ->
  framing_ok st' /\ hs_total st' = hs_total st.
Proof.
  intros H [Hte Hcl]. unfold add_header_line in H.
  destruct (split_once trimmed ":") as [[name v]|]; [|by injection H as <-].
  destruct (String.eqb_spec (to_ascii_lowercase (trim name)) "content-length") as [Ecl|Ecl].
  - destruct (hs_saw_content_length st); [done|]. destruct (parse_u64 (trim v)) eqn:Ep; [|done].
    injection H as <-. destruct Hcl as [Hcl _]. split; [split; cbn|done].
    + intros v' Hin. apply elem_of_app in Hin as [Hin|Hin]; [by apply Hte|].
      apply list_elem_of_singleton in Hin. rewrite Ecl in Hin. by injection Hin.
    + exists (trim v). rewrite filter_app, Hcl, Ecl. by rewrite filter_cons_True, filter_nil.
  - destruct (String.eqb_spec (to_ascii_lowercase (trim name)) "transfer-encoding") as [Ete|Ete];
      [destruct (is_empty (trim v)) eqn:Ev; [|done]|]; cbn [andb negb] in H; injection H as <-;
      (split; [split; cbn|done]).
    + intros v' Hin. apply elem_of_app in Hin as [Hin|Hin]; [by apply Hte|].
      apply list_elem_of_singleton in Hin. injection Hin as _ ->. by destruct (trim v).
    + destruct (hs_saw_content_length st); rewrite filter_app, filter_cons_False, filter_nil, app_nil_r by done; done.
    + intros v' Hin. apply elem_of_app in Hin as [Hin|Hin]; [by apply Hte|].
      apply list_elem_of_singleton in Hin. injection Hin as ? _. congruence.
    + destruct (hs_saw_content_length st); rewrite filter_app, filter_cons_False, filter_nil, app_nil_r by done; done.
Qed.

Lemma header_loop_bounds fuel limits st w st' w' :
  (max_header_bytes limits < u64_max)%N ->
  header_loop fuel limits st w = (Ok st', w') -> framing_ok st ->
  framing_ok st' /\ length (hs_headers st') < max_header_count limits /\
  exists c, w_bytes w = c ++ w_bytes w' /\ hs_total st' = (hs_total st + N.of_nat (length c))%N /\
            (hs_total st' <= max_header_bytes limits)%N.
Proof.
  intros Hmax. revert st w. induction fuel as [|fuel IH]; intros st w; cbn [header_loop]; [done|].
  destruct (Nat.leb_spec (max_header_count limits) (length (hs_headers st))) as [|Hcount]; [done|].
  unfold ebind at 1. destruct (read_line_bounded _ _ w) as [[[|b line]|e] w1] eqn:El; try done.
  apply wire_line_ok in El as [El _]. set (total := usize_add _ _).
  destruct (N.ltb_spec (max_header_bytes limits) total) as [|Htot]; [done|].
  assert (total = hs_total st + N.of_nat (length (b :: line)))%N as Etot.
  { revert Htot. unfold total, usize_add, u64_saturate. lia. }
  destruct (is_empty _).
  - intros [= <- <-] Hf. split_and!; [done|done|]. exists (b :: line). cbn [hs_total set_total]. by split_and!.
  - unfold ebind, ret. destruct (add_header_line _ _) as [st1|e] eqn:Ea; [|done]. intros H Hf.
    apply add_header_line_framing in Ea as [Hf1 Ht1]; [|exact Hf].
    apply IH in H as (? & ? & c & Hc & Htc & ?); [|done]. split_and!; [done|done|].
    exists ((b :: line) ++ c). rewrite El, Hc, app_assoc. split_and!; [done| |done].
    rewrite Htc, Ht1, length_app. cbn [hs_total set_total]. lia.
Qed.

End bounds.

(** ** What is printed is read *)

Definition crlf : string := String cr (String lf "").
Definition sp : string := " ".

Definition print_headers (hs : list (string * string)) : string :=
  concat_str ((fun kv => kv.1 +:+ ": " +:+ kv.2 +:+ crlf) <$> hs).

(** A request as a client writes it. *)
Definition print_request (method path : string) (hs : list (string * string)) (body : string) : string :=
  method +:+ " " +:+ path +:+ " HTTP/1.1" +:+ crlf +:+
  print_headers (hs ++ [("Content-Length", show_nat (String.length body))]) +:+ crlf +:+ body.

(** Bytes of a token, and of the text of a header. *)
Definition token_byte (a : ascii) : bool :=
  byte_is_ascii a && negb (is_whitespace (char_of a)) && negb (Ascii.eqb a ":").
Definition text_byte (a : ascii) : bool :=
  byte_is_ascii a && negb (Ascii.eqb a cr) && negb (Ascii.eqb a lf).

Definition token (s : string) : Prop := s <> "" /\ sforall token_byte s = true.
Definition header_text (v : string) : Prop := sforall text_byte v = true /\ trim v = v.

Lemma trim_line_end s :
  is_ascii s = true -> sforall (fun a => negb (Ascii.eqb a cr) && negb (Ascii.eqb a lf)) s = true ->
  trim_end_matches is_line_end (s +:+ crlf) = s.
Proof.
  intros Ha Hs. unfold trim_end_matches. rewrite chars_app by done.
  assert (chars crlf = [char_of cr; char_of lf]) as -> by done.
  rewrite reverse_app. change (reverse [char_of cr; char_of lf]) with [char_of lf; char_of cr].
  cbn [app drop_while]. assert (is_line_end (char_of lf) = true) as -> by done.
  assert (is_line_end (char_of cr) = true) as -> by done.
  rewrite drop_while_none, reverse_involutive; [apply concat_chars|].
  apply Forall_reverse. rewrite chars_ascii by done. apply Forall_fmap. apply sforall_bytes in Hs.
  eapply Forall_impl; [exact Hs|]. intros a H. apply andb_true_iff in H as [H1 H2].
  unfold is_line_end, char_of. cbn [String.eqb]. 
  destruct (Ascii.eqb_spec a cr); [by subst|]. destruct (Ascii.eqb_spec a lf); [by subst|].
  cbn. by rewrite (proj2 (Ascii.eqb_neq _ _)), (proj2 (Ascii.eqb_neq _ _)).
Qed.

Lemma position_lf_none l : Forall (fun a => Ascii.eqb a lf = false) l -> position_lf l = None.
Proof. induction 1 as [|a l Ha _ IH]; cbn [position_lf]; [done|]. by rewrite Ha, IH. Qed.

(** A printed line on the wire. *)
Lemma wire_line_printed max e s rest en :
  sforall (fun a => negb (Ascii.eqb a lf)) s = true -> (N.of_nat (String.length s + 2) <= max)%N ->
  read_line_bounded max e {| w_bytes := bytes (s +:+ crlf) ++ rest; w_end := en |} =
  (Ok (bytes (s +:+ crlf)), {| w_bytes := rest; w_end := en |}).
Proof.
  intros Hs Hmax. cbn [read_line_bounded wire_reader w_bytes].
  assert (position_lf (bytes (s +:+ crlf) ++ rest) = Some (String.length s + 1)) as ->.
  { rewrite bytes_app, <- app_assoc, position_lf_app, position_lf_none.
    - rewrite length_bytes. done.
    - apply sforall_bytes in Hs. eapply Forall_impl; [exact Hs|]. intros a H. by apply negb_true_iff in H. }
  rewrite (proj2 (N.ltb_ge _ _)) by lia. unfold wire_take. cbn [w_bytes w_end].
  assert (length (bytes (s +:+ crlf)) = String.length s + 1 + 1) as Hl.
  { rewrite length_bytes, length_sapp. cbn. lia. }
  by rewrite <- Hl, take_app_length, drop_app_length.
Qed.

Lemma wire_exact_printed s rest en :
  read_exact (String.length s) {| w_bytes := bytes s ++ rest; w_end := en |} =
  (Ok (bytes s), {| w_bytes := rest; w_end := en |}).
Proof.
  cbn [read_exact wire_reader]. unfold wire_fetch, wire_take. cbn [w_bytes w_end].
  rewrite length_app, length_bytes, (proj2 (Nat.leb_le _ _)) by lia.
  by rewrite <- length_bytes, take_app_length, drop_app_length.
Qed.

Section roundtrip.
Context `{UT : Utf8} `{!Utf8Laws UT}.

Lemma lossy_string s : is_ascii s = true -> from_utf8_lossy (bytes s) = s.
Proof. intros H. rewrite lossy_ascii, of_bytes_bytes; [done|]. by apply sforall_bytes. Qed.

Lemma text_split s : sforall text_byte s = true ->
  is_ascii s = true /\ sforall (fun a => negb (Ascii.eqb a cr) && negb (Ascii.eqb a lf)) s = true /\
  sforall (fun a => negb (Ascii.eqb a lf)) s = true.
Proof.
  intros H. split_and!; (eapply sforall_impl; [|exact H]); intros a; unfold text_byte;
    rewrite !andb_true_iff; naive_solver.
Qed.

(** One header line of the loop. *)
Lemma header_loop_step fuel limits st line rest en :
  sforall text_byte line = true -> line <> "" ->
  length (hs_headers st) < max_header_count limits ->
  (N.of_nat (String.length line + 2) <= max_header_line_bytes limits)%N ->
  (hs_total st + N.of_nat (String.length line + 2) <= max_header_bytes limits)%N ->
  (max_header_bytes limits <= u64_max)%N ->
  header_loop (S fuel) limits st {| w_bytes := bytes (line +:+ crlf) ++ rest; w_end := en |} =
  match add_header_line line (set_total (hs_total st + N.of_nat (String.length line + 2)) st) with
  | Ok st' => header_loop fuel limits st' {| w_bytes := rest; w_end := en |}
  | Err e => (Err e, {| w_bytes := rest; w_end := en |})
  end.
Proof.
  intros Ht Hne Hc Hl Htot Hmax. apply text_split in Ht as (Ha & Hend & Hlf). cbn [header_loop].
  rewrite (proj2 (Nat.leb_gt _ _)) by done. unfold ebind at 1. rewrite wire_line_printed by done.
  assert (length (bytes (line +:+ crlf)) = String.length line + 2) as Elen.
  { rewrite length_bytes, length_sapp. done. }
  destruct (bytes (line +:+ crlf)) as [|b l] eqn:Eb; [cbn in Elen; lia|]. rewrite <- Eb, Elen in *.
  assert (usize_add (hs_total st) (N.of_nat (String.length line + 2)) =
          (hs_total st + N.of_nat (String.length line + 2))%N) as ->.
  { unfold usize_add, u64_saturate. lia. }
  rewrite (proj2 (N.ltb_ge _ _)) by lia.
  rewrite lossy_string by (unfold is_ascii in *; by rewrite sforall_app, Ha).
  rewrite trim_line_end by done. destruct line as [|a line]; [done|]. cbn [is_empty].
  unfold ebind, ret. by destruct (add_header_line _ _).
Qed.

Lemma header_loop_blank fuel limits st rest en :
  length (hs_headers st) < max_header_count limits ->
  (2 <= max_header_line_bytes limits)%N -> (hs_total st + 2 <= max_header_bytes limits)%N ->
  (max_header_bytes limits <= u64_max)%N ->
  header_loop (S fuel) limits st {| w_bytes := bytes crlf ++ rest; w_end := en |} =
  (Ok (set_total (hs_total st + 2) st), {| w_bytes := rest; w_end := en |}).
Proof.
  intros Hc Hl Htot Hmax. cbn [header_loop]. rewrite (proj2 (Nat.leb_gt _ _)) by done.
  unfold ebind at 1. rewrite <- (sapp_nil_l crlf), wire_line_printed, sapp_nil_l by done.
  cbn [bytes crlf].
  assert (usize_add (hs_total st) (N.of_nat (length [cr; lf])) = (hs_total st + 2)%N) as ->.
  { unfold usize_add, u64_saturate. cbn. lia. }
  rewrite (proj2 (N.ltb_ge _ _)) by lia.
  change [cr; lf] with (bytes crlf). rewrite lossy_string by done.
  by assert (is_empty (trim_end_matches is_line_end crlf) = true) as -> by by vm_compute.
Qed.

(** Reading a printed header. *)
Lemma add_printed_header name v st :
  token name -> header_text v ->
  to_ascii_lowercase name <> "content-length" -> to_ascii_lowercase name <> "transfer-encoding" ->
  add_header_line (name +:+ ": " +:+ v) st = Ok (push_header (to_ascii_lowercase name, v) st).
Proof.
  intros [Hne Hn] [Hv Htrim] H1 H2. unfold add_header_line.
  change (name +:+ ": " +:+ v) with (name +:+ String ":" (String " " v)).
  rewrite (split_once_first _ _ ":").
  2: { eapply sforall_impl; [|exact Hn]. intros a. unfold token_byte. rewrite !andb_true_iff. naive_solver. }
  rewrite (trim_ascii_id token_byte name) by (done || by vm_compute).
  apply text_split in Hv as (Ha & _). rewrite trim_white_start, Htrim by (done || by apply ascii_starts_char).
  by rewrite (proj2 (String.eqb_neq _ _) H1), (proj2 (String.eqb_neq _ _) H2).
Qed.

Definition header_line (kv : string * string) : string := kv.1 +:+ ": " +:+ kv.2.
Definition lower_name (kv : string * string) : string * string := (to_ascii_lowercase kv.1, kv.2).

(** A header that a client may add: not one that frames the body. *)
Definition plain_header (kv : string * string) : Prop :=
  token kv.1 /\ header_text kv.2 /\
  to_ascii_lowercase kv.1 <> "content-length" /\ to_ascii_lowercase kv.1 <> "transfer-encoding".

Lemma header_line_text name v : token name -> header_text v ->
  sforall text_byte (name +:+ ": " +:+ v) = true /\ name +:+ ": " +:+ v <> "".
Proof.
  intros [Hne Hn] [Hv _]. split; [|by destruct name].
  rewrite !sforall_app, Hv. rewrite (sforall_impl token_byte text_byte name); [done| |done].
  apply byte_forall2. by vm_compute.
Qed.

Lemma print_headers_cons kv hs :
  print_headers (kv :: hs) = header_line kv +:+ crlf +:+ print_headers hs.
Proof. unfold print_headers, header_line. cbn [fmap list_fmap]. by rewrite concat_str_cons, <- !sapp_assoc. Qed.

Lemma print_headers_app hs hs' : print_headers (hs ++ hs') = print_headers hs +:+ print_headers hs'.
Proof. unfold print_headers. by rewrite fmap_app, concat_str_app. Qed.

Lemma length_print_headers_cons kv hs :
  String.length (print_headers (kv :: hs)) = String.length (header_line kv) + 2 + String.length (print_headers hs).
Proof. rewrite print_headers_cons, !length_sapp. cbn. lia. Qed.

Lemma header_loop_printed fuel limits st hs rest en :
  Forall plain_header hs ->
  Forall (fun kv => N.of_nat (String.length (header_line kv) + 2) <= max_header_line_bytes limits)%N hs ->
  length (hs_headers st) + length hs < max_header_count limits ->
  (hs_total st + N.of_nat (String.length (print_headers hs)) <= max_header_bytes limits)%N ->
  (max_header_bytes limits <= u64_max)%N ->
  header_loop (length hs + fuel) limits st {| w_bytes := bytes (print_headers hs) ++ rest; w_end := en |} =
  header_loop fuel limits
    {| hs_headers := hs_headers st ++ (lower_name <$> hs); hs_content_length := hs_content_length st;
       hs_saw_content_length := hs_saw_content_length st;
       hs_total := hs_total st + N.of_nat (String.length (print_headers hs)) |}
    {| w_bytes := rest; w_end := en |}.
Proof.
  intros Hp. revert st. induction Hp as [|kv hs (Hn & Hv & H1 & H2) Hp IH]; intros st Hl Hc Htot Hmax.
  - cbn [length Nat.add fmap list_fmap]. cbn [print_headers fmap list_fmap concat_str foldr String.length bytes app].
    rewrite app_nil_r, N.add_0_r. by destruct st.
  - apply Forall_cons in Hl as [Hkv Hl]. rewrite length_print_headers_cons in Htot |- *.
    cbn [length] in Hc. cbn [length Nat.add fmap list_fmap].
    destruct (header_line_text _ _ Hn Hv) as [Ht Hne].
    rewrite print_headers_cons, sapp_assoc, bytes_app, <- app_assoc.
    rewrite header_loop_step; [|done|done|lia|done|lia|done].
    unfold header_line at 1. rewrite add_printed_header by done.
    rewrite IH; [|done|cbn; rewrite length_app; cbn; lia|cbn; lia|done].
    cbn. rewrite <- app_assoc. repeat (f_equal; try lia).
Qed.

(** The request fits the limits of the server. *)
Definition fits (limits : HttpLimits) (method path : string) (hs : list (string * string)) (body : string) : Prop :=
  let all := hs ++ [("Content-Length", show_nat (String.length body))] in
  (N.of_nat (String.length (method +:+ " " +:+ path +:+ " HTTP/1.1") + 2) <= max_request_line_bytes limits)%N /\
  Forall (fun kv => N.of_nat (String.length (header_line kv) + 2) <= max_header_line_bytes limits)%N all /\
  length all < max_header_count limits /\
  (N.of_nat (String.length (print_headers all) + 2) <= max_header_bytes limits)%N /\
  (max_header_bytes limits < u64_max)%N /\
  (N.of_nat (String.length body) <= N.min (max_body_bytes limits) u64_max)%N.

Lemma show_text n : sforall text_byte (show_N n) = true /\ trim (show_N n) = show_N n.
Proof.
  split.
  - eapply sforall_impl; [|apply show_N_digits]. apply byte_forall2. by vm_compute.
  - apply (trim_ascii_id byte_is_digit); [by vm_compute|apply show_N_digits].
Qed.

Lemma add_content_length n st :
  (n <= u64_max)%N -> hs_saw_content_length st = false ->
  add_header_line ("Content-Length: " +:+ show_N n) st =
  Ok {| hs_headers := hs_headers st ++ [("content-length", show_N n)]; hs_content_length := n;
        hs_saw_content_length := true; hs_total := hs_total st |}.
Proof.
  intros Hn Hs. unfold add_header_line.
  change ("Content-Length: " +:+ show_N n) with ("Content-Length" +:+ String ":" (String " " (show_N n))).
  rewrite (split_once_first _ _ ":") by done.
  assert (to_ascii_lowercase (trim "Content-Length") = "content-length") as -> by by vm_compute.
  destruct (show_text n) as [Ht Htrim]. apply text_split in Ht as (Ha & _).
  rewrite trim_white_start, Htrim by (done || by apply ascii_starts_char).
  rewrite String.eqb_refl, Hs. unfold parse_u64. by rewrite parse_show_uint.
Qed.

Lemma headers_printed limits hs n rest en :
  Forall plain_header hs -> (n <= u64_max)%N ->
  let all := hs ++ [("Content-Length", show_N n)] in
  Forall (fun kv => N.of_nat (String.length (header_line kv) + 2) <= max_header_line_bytes limits)%N all ->
  length all < max_header_count limits ->
  (N.of_nat (String.length (print_headers all) + 2) <= max_header_bytes limits)%N ->
  (max_header_bytes limits < u64_max)%N ->
  exists total,
  read_headers limits {| w_bytes := bytes (print_headers all +:+ crlf) ++ rest; w_end := en |} =
  (Ok {| hs_headers := (lower_name <$> hs) ++ [("content-length", show_N n)]; hs_content_length := n;
         hs_saw_content_length := true; hs_total := total |}, {| w_bytes := rest; w_end := en |}).
Proof.
  intros Hp Hn all Hl Hc Ht Hmax. unfold read_headers.
  assert (String.length (print_headers all) =
          String.length (print_headers hs) + (String.length (header_line ("Content-Length", show_N n)) + 2)) as Elen.
  { unfold all. rewrite print_headers_app, length_sapp, length_print_headers_cons. cbn. lia. }
  apply Forall_app in Hl as [Hl1 Hl2]. apply Forall_cons in Hl2 as [Hl2 _].
  unfold all in Hc. rewrite length_app in Hc. cbn [length] in Hc.
  assert (2 <= max_header_line_bytes limits)%N as H2 by lia.
  set (w := {| w_bytes := _; w_end := en |}). set (k := bytes_left w).
  rewrite (header_loop_fuel (S k) (length hs + S (S k))) by (unfold k; lia). clearbody k.
  unfold w, all. rewrite print_headers_app, <- sapp_assoc, bytes_app, <- app_assoc.
  rewrite header_loop_printed by (done || (cbn; lia)). cbn [hs_headers no_headers app hs_content_length hs_saw_content_length hs_total].
  assert (print_headers [("Content-Length", show_N n)] = header_line ("Content-Length", show_N n) +:+ crlf) as ->.
  { by rewrite print_headers_cons, sapp_nil_r. }
  rewrite bytes_app, <- app_assoc.
  destruct (header_line_text "Content-Length" (show_N n)) as [Hst Hsne];
    [split; [done|by vm_compute]|apply show_text|].
  rewrite header_loop_step;
    [|exact Hst|exact Hsne|cbn; rewrite length_fmap; lia|done|cbn [hs_total]; lia|lia].
  change (header_line ("Content-Length", show_N n)) with ("Content-Length: " +:+ show_N n) at 1.
  rewrite add_content_length by done. cbn [hs_headers set_total hs_total].
  rewrite header_loop_blank; [|cbn; rewrite length_app, length_fmap; cbn; lia|done|cbn [hs_total]; lia|lia].
  by eexists.
Qed.

End roundtrip.

(** ** Properties *)

Section properties.
Context `{UT : Utf8}.

(** Reading a request or a response depends on the bytes of the connection
    and on how it ends, not on the pieces the bytes arrive in. *)
Lemma http_reading_ignores_pieces limits rlimits (ps ps' : list piece) :
  flatten ps = flatten ps' ->
  (read_request limits ps).1 = (read_request limits ps').1 /\
  (read_response rlimits ps).1 = (read_response rlimits ps').1.
Proof.
  intros H. destruct (request_agrees limits ps) as [-> _], (response_agrees rlimits ps) as [-> _].
  by rewrite H, <- (proj1 (request_agrees limits ps')), <- (proj1 (response_agrees rlimits ps')).
Qed.


Definition word (s : string) : Prop :=
  s <> "" /\ sforall (fun a => byte_is_ascii a && negb (is_whitespace (char_of a))) s = true.

Lemma word_ascii s : word s ->
  is_ascii s = true /\ sforall (fun a => negb (is_whitespace (char_of a))) s = true /\
  sforall text_byte s = true.
Proof.
  intros [_ H]. split_and!; (eapply sforall_impl; [|exact H]).
  - intros a. rewrite andb_true_iff. naive_solver.
  - intros a. rewrite andb_true_iff. naive_solver.
  - apply byte_forall2. by vm_compute.
Qed.

Lemma request_line_words method path :
  word method -> word path ->
  split_whitespace (method +:+ " " +:+ path +:+ " HTTP/1.1" +:+ crlf) = [method; path; "HTTP/1.1"].
Proof.
  intros Hm Hp. pose proof Hm as (Hmne & _). pose proof Hp as (Hpne & _).
  apply word_ascii in Hm as (Hma & Hmw & _). apply word_ascii in Hp as (Hpa & Hpw & _).
  change (method +:+ " " +:+ path +:+ " HTTP/1.1" +:+ crlf)
    with (method +:+ String " " (path +:+ String " " ("HTTP/1.1" +:+ crlf))).
  rewrite split_whitespace_word; [|done|done|done|done|done|].
  - rewrite split_whitespace_word by done. by vm_compute.
  - apply ascii_starts_char. unfold is_ascii in *. rewrite sforall_app, Hpa. by vm_compute.
Qed.

(** The server reads back the request a client wrote, however the bytes
    are cut: method, path, the added headers with lower-case names, the
    length, the body, and nothing of what follows on the connection. *)
Lemma request_roundtrip `{!Utf8Laws UT} limits method path hs text rest en (ps : list piece) :
  word method -> word path -> Forall plain_header hs -> is_ascii text = true ->
  fits limits method path hs text ->
  flatten ps = {| w_bytes := bytes (print_request method path hs text) ++ rest; w_end := en |} ->
  let n := N.of_nat (String.length text) in
  (read_request limits ps).1 =
    Ok {| method := method; path := path;
          headers := (lower_name <$> hs) ++ [("content-length", show_N n)];
          content_length := n;
          body := if is_empty text then None else Some text |} /\
  flatten (read_request limits ps).2 = {| w_bytes := rest; w_end := en |}.
Proof.
  intros Hm Hp Hhs Htext (Hline & Hlines & Hcount & Hbytes & Hmax & Hbody) Hflat n.
  destruct (request_agrees limits ps) as [H1 H2]. rewrite H1 in *. unfold same_bytes in H2.
  enough (read_request limits (flatten ps) =
    (Ok {| method := method; path := path; headers := (lower_name <$> hs) ++ [("content-length", show_N n)];
           content_length := n; body := if is_empty text then None else Some text |},
     {| w_bytes := rest; w_end := en |})) as E.
  { rewrite E in *. split; [done|]. by apply H2. }
  rewrite Hflat. unfold read_request, ebind at 1, print_request.
  set (line := method +:+ " " +:+ path +:+ " HTTP/1.1").
  change (show_nat (String.length text)) with (show_N n) in *.
  assert (method +:+ " " +:+ path +:+ " HTTP/1.1" +:+ crlf +:+
          print_headers (hs ++ [("Content-Length", show_N n)]) +:+ crlf +:+ text =
          (line +:+ crlf) +:+ ((print_headers (hs ++ [("Content-Length", show_N n)]) +:+ crlf) +:+ text)) as ->.
  { unfold line. by rewrite <- !sapp_assoc. }
  assert (sforall text_byte line = true) as Hlt.
  { unfold line. rewrite !sforall_app. destruct (word_ascii _ Hm) as (_ & _ & ->), (word_ascii _ Hp) as (_ & _ & ->).
    by vm_compute. }
  apply text_split in Hlt as (Hla & _ & Hlf).
  rewrite bytes_app, <- app_assoc, wire_line_printed by done.
  assert (from_utf8_lossy (bytes (line +:+ crlf)) = line +:+ crlf) as Elossy.
  { apply lossy_string. unfold is_ascii in *. by rewrite sforall_app, Hla. }
  destruct (bytes (line +:+ crlf)) as [|b l] eqn:Eb.
  { apply (f_equal length) in Eb. rewrite length_bytes, length_sapp in Eb. cbn in Eb. lia. }
  assert (split_whitespace (line +:+ crlf) = [method; path; "HTTP/1.1"]) as Hwords.
  { unfold line. rewrite <- !sapp_assoc. by apply request_line_words. }
  rewrite Elossy, Hwords.
  rewrite bytes_app, <- app_assoc.
  destruct (headers_printed limits hs n (bytes text ++ rest) en) as [total Eh]; try done; [lia|].
  unfold ebind at 1. rewrite Eh. cbn [hs_content_length hs_headers].
  unfold ebind, read_body. destruct (N.ltb_spec 0 n) as [Hpos|Hz].
  - rewrite (proj2 (N.ltb_ge _ _)) by lia. unfold ebind.
    replace (N.to_nat n) with (String.length text) by (unfold n; lia). rewrite wire_exact_printed.
    rewrite lossy_string by done. destruct text; [by cbn in Hpos|done].
  - assert (text = "") as ->; [|done]. destruct text; [done|]. unfold n in Hz. cbn in Hz. lia.
Qed.

End properties.

Section concrete.

(** Decoders that take every byte for itself; right on ASCII. *)
Definition byte_decoder : Utf8 :=
  {| from_utf8_lossy := of_bytes; from_utf8 l := Some (of_bytes l) |}.
#[export] Instance byte_decoder_laws : Utf8Laws byte_decoder.
Proof. by split. Qed.
#[local] Existing Instance byte_decoder.

Definition small_limits : HttpLimits := {|
  max_request_line_bytes := 64; max_header_line_bytes := 64; max_header_count := 3;
  max_header_bytes := 256; max_body_bytes := 16 |}.

Definition sample_request : string :=
  print_request "POST" "/api/mode" [("Host", "localhost")] "{}".
Definition sample_pieces : list piece :=
  [Data (take 7 (bytes sample_request)); Data (drop 7 (bytes sample_request)); Stall].
Definition one_piece : list piece := [Data (bytes sample_request); Stall].
Definition sample_read : HttpRequest := {|
  method := "POST"; path := "/api/mode"; headers := [("host", "localhost"); ("content-length", "2")];
  content_length := 2; body := Some "{}" |}.

Lemma http_reading_ignores_pieces_witness :
  (read_request small_limits sample_pieces).1 = (read_request small_limits one_piece).1 /\
  (read_response (with_body_cap 100) sample_pieces).1 = (read_response (with_body_cap 100) one_piece).1.
Proof. apply http_reading_ignores_pieces. vm_compute. reflexivity. Defined.


Lemma request_roundtrip_witness :
  (read_request small_limits sample_pieces).1 =
    Ok {| method := "POST"; path := "/api/mode";
          headers := (lower_name <$> [("Host", "localhost")]) ++ [("content-length", show_N 2)];
          content_length := 2; body := Some "{}" |} /\
  flatten (read_request small_limits sample_pieces).2 = {| w_bytes := []; w_end := Silent |}.
Proof.
  apply (request_roundtrip small_limits "POST" "/api/mode" [("Host", "localhost")] "{}" [] Silent sample_pieces).
  - split; [discriminate|vm_compute; reflexivity].
  - split; [discriminate|vm_compute; reflexivity].
  - repeat constructor; try discriminate; vm_compute; reflexivity.
  - vm_compute. reflexivity.
  - unfold fits. cbv zeta. split; [vm_compute; discriminate|].
    split; [repeat constructor; vm_compute; discriminate|].
    split; [vm_compute; lia|]. split; [vm_compute; discriminate|].
    split; [vm_compute; reflexivity|vm_compute; discriminate].
  - vm_compute. reflexivity.
Defined.

(** The limit on the number of headers refuses a request that has exactly that
    many: the count is checked before the line that would end the headers. *)
Lemma exactly_max_headers_refused :
  (read_request small_limits
    [Data (bytes (print_request "GET" "/" [("Host", "a"); ("Accept", "b")] ""))]).1 =
  Err HttpReadError.TooManyHeaders.
Proof. by vm_compute. Qed.

End concrete.
