(* ===== verification/HttpServers.v ===== *)
(** * The gate of the two HTTP servers ([genie-common/src/http.rs],
    [genie-api/src/http.rs], [genie-core/src/server.rs])

    What stands between a connection and a route handler: the allow lists for
    [Host] and [Origin], the local token on sensitive routes, the routing of
    both servers and the responses they write.  The handlers themselves are a
    parameter; the theorems say which of them a connection can reach. *)

From S2P Require Import Prelude RustStr RustNum HomeTypes Confirmations OriginAuth ControlLine HttpFraming.
From Stdlib Require Import Ascii.
Local Open Scope string_scope.
Local Open Scope list_scope.

(** ** Configuration *)

Record HttpServerConfig := {
  hc_max_request_line_bytes : N;
  hc_max_header_line_bytes : N;
  hc_max_header_count : nat;
  hc_max_header_bytes : N;
  hc_allowed_origins : list string;
  hc_allowed_hosts : list string;
  hc_local_api_token : string;
}.

Definition default_http_config : HttpServerConfig := {|
  hc_max_request_line_bytes := 8 * 1024; hc_max_header_line_bytes := 8 * 1024;
  hc_max_header_count := 100; hc_max_header_bytes := 64 * 1024;
  hc_allowed_origins := []; hc_allowed_hosts := []; hc_local_api_token := "" |}.

Definition limits_from_config (cfg : HttpServerConfig) (max_body_bytes : N) : HttpLimits := {|
  max_request_line_bytes := N.max (hc_max_request_line_bytes cfg) 1;
  max_header_line_bytes := N.max (hc_max_header_line_bytes cfg) 1;
  max_header_count := hc_max_header_count cfg;
  max_header_bytes := N.max (hc_max_header_bytes cfg) 1;
  max_body_bytes := max_body_bytes |}.

Definition API_MAX_BODY_BYTES : N := 4 * 1024.

(** ** Which routes need the token *)

Inductive RoutePolicySurface := GenieCore | GenieApi.

Definition is_route (m p : string) (route : string * string) : bool :=
  String.eqb m route.1 && String.eqb p route.2.

Definition token_routes : list (string * string) :=
  [("POST", "/api/actuation/confirm"); ("GET", "/api/actuation/pending");
   ("GET", "/api/actuation/actions");
   ("GET", "/api/chat/history"); ("GET", "/api/chat/export"); ("GET", "/api/conversations");
   ("GET", "/api/memories"); ("POST", "/api/memories/update"); ("POST", "/api/memories/delete");
   ("POST", "/api/memories/reorder"); ("POST", "/api/mode"); ("POST", "/api/chat/stream");
   ("POST", "/api/chat"); ("POST", "/api/chat/clear"); ("POST", "/api/web-search");
   ("POST", "/v1/chat/completions")].

Definition route_requires_local_token (surface : RoutePolicySurface) (m p : string) : bool :=
  let p := default p (head (split_char p "?")) in
  if is_route m p ("GET", "/api/actuation/audit")
  then match surface with GenieApi => true | GenieCore => false end
  else existsb (is_route m p) token_routes.

(** ** The request guard *)

Inductive GuardRejection := DisallowedHost | DisallowedOrigin | MissingToken.

Definition rejection_reason (r : GuardRejection) : string :=
  match r with
  | DisallowedHost => "host not allowed"
  | DisallowedOrigin => "origin not allowed"
  | MissingToken => "missing or invalid local API token"
  end.
Definition rejection_status (r : GuardRejection) : N := 403.

Inductive OriginDecision :=
| Allow (reflect : option string)
| Reject (r : GuardRejection).

Record RequestGuard := {
  allowed_origins : list string;
  allowed_hosts : list string;
  guard_token : option string;
}.

Definition push_unique (values : list string) (candidate : string) : list string :=
  if existsb (fun existing => String.eqb existing candidate) values then values else values ++ [candidate].

Definition normalize_origin (origin : string) : string :=
  to_ascii_lowercase (trim_end_matches (fun c => String.eqb c "/") (trim origin)).

Definition bases (listen_host : string) : list string :=
  let base := ["127.0.0.1"; "localhost"; "[::1]"] in
  let host := trim listen_host in
  if negb (is_empty host) && negb (existsb (String.eqb host) ["0.0.0.0"; "::"]) then
    let bracketed :=
      if contains host ":" && negb (starts_with host "[") then "[" +:+ host +:+ "]" else host in
    if negb (existsb (fun b => eq_ignore_ascii_case b bracketed) base) then base ++ [bracketed] else base
  else base.

Definition derive_step (listen_port : N) (acc : list string * list string) (base : string)
    : list string * list string :=
  let '(hosts, origins) := acc in
  let base := to_ascii_lowercase base in
  let at_port := base +:+ ":" +:+ show_N listen_port in
  (push_unique (push_unique hosts base) at_port,
   push_unique (push_unique origins ("http://" +:+ base)) ("http://" +:+ at_port)).

Definition derive_hosts_and_origins (listen_host : string) (listen_port : N)
    : list string * list string :=
  foldl (derive_step listen_port) ([], []) (bases listen_host).

Definition new_guard (listen_host : string) (listen_port : N) (extra_origins extra_hosts : list string)
    (token : string) : RequestGuard :=
  let '(hosts, origins) := derive_hosts_and_origins listen_host listen_port in
  let hosts := foldl (fun hs h =>
    let h := to_ascii_lowercase (trim h) in
    if is_empty h then hs else push_unique hs h) hosts extra_hosts in
  let origins := foldl (fun os o =>
    let o := normalize_origin o in
    if is_empty o then os else push_unique os o) origins extra_origins in
  {| allowed_origins := origins; allowed_hosts := hosts;
     guard_token := if is_empty (trim token) then None else Some (trim token) |}.

Definition check_request (g : RequestGuard) (rq : HttpRequest) : OriginDecision :=
  let bad_host :=
    match header rq "host" with
    | Some host =>
        let host := to_ascii_lowercase (trim host) in
        negb (is_empty host) && negb (existsb (fun h => String.eqb h host) (allowed_hosts g))
    | None => false
    end in
  if bad_host then Reject DisallowedHost
  else
    match header rq "origin" with
    | None => Allow None
    | Some origin =>
        if existsb (String.eqb (normalize_origin origin)) (allowed_origins g)
        then Allow (Some (trim origin)) else Reject DisallowedOrigin
    end.

(** [split_once(char::is_whitespace)]. *)
Fixpoint split_once_white (cur : string) (cs : list string) : option (string * string) :=
  match cs with
  | [] => None
  | c :: cs => if is_whitespace c then Some (cur, concat_str cs) else split_once_white (cur +:+ c) cs
  end.

Definition bearer_token (v : option string) : option string :=
  v ← v;
  '(scheme, token) ← split_once_white "" (chars (trim v));
  if eq_ignore_ascii_case scheme "bearer" && negb (is_empty (trim token)) then Some (trim token) else None.

Definition presented_token (rq : HttpRequest) : option string :=
  match trim <$> header rq "x-genie-token" with
  | Some t => if is_empty t then bearer_token (header rq "authorization") else Some t
  | None => bearer_token (header rq "authorization")
  end.

(** The comparison is that of [ct_eq]. *)
Definition token_ok (g : RequestGuard) (rq : HttpRequest) : bool :=
  match guard_token g with
  | None => true
  | Some expected =>
      match presented_token rq with
      | Some t => ct_eq (bytes t) (bytes expected)
      | None => false
      end
  end.

(** ** Responses *)

Definition cors_response_headers (reflect_origin : option string) : string :=
  match reflect_origin with
  | Some origin =>
      "Access-Control-Allow-Origin: " +:+ origin +:+ crlf +:+
      "Access-Control-Allow-Methods: GET, POST, OPTIONS" +:+ crlf +:+
      "Access-Control-Allow-Headers: Content-Type, Authorization, X-Genie-Origin, X-Genie-Token" +:+ crlf +:+
      "Vary: Origin" +:+ crlf
  | None => "Vary: Origin" +:+ crlf
  end.

Record Response := { rsp_status : N; content_type : string; rsp_body : string }.

Definition status_texts : list (N * string) :=
  [(200, "OK"); (204, "No Content"); (400, "Bad Request"); (403, "Forbidden"); (404, "Not Found");
   (408, "Request Timeout"); (413, "Payload Too Large"); (431, "Request Header Fields Too Large");
   (502, "Bad Gateway"); (503, "Service Unavailable"); (500, "Internal Server Error")]%N.
Definition status_text (code : N) : string :=
  match find (fun e => N.eqb e.1 code) status_texts with Some (_, t) => t | None => "Unknown" end.

Definition write_response (r : Response) (reflect_origin : option string) : string :=
  "HTTP/1.1 " +:+ show_N (rsp_status r) +:+ " " +:+ status_text (rsp_status r) +:+ crlf +:+
  "Content-Type: " +:+ content_type r +:+ crlf +:+
  "Content-Length: " +:+ show_nat (String.length (rsp_body r)) +:+ crlf +:+
  "Connection: close" +:+ crlf +:+
  cors_response_headers reflect_origin +:+ crlf +:+ rsp_body r.

(** [{"error":"..."}]. *)
Definition dq : string := String (ascii_of_nat 34) "".
Definition error_body (text : string) : string :=
  "{" +:+ dq +:+ "error" +:+ dq +:+ ":" +:+ dq +:+ text +:+ dq +:+ "}".
Definition json_response (status : N) (text : string) : Response :=
  {| rsp_status := status; content_type := "application/json"; rsp_body := error_body text |}.
Definition guard_rejection (r : GuardRejection) : Response :=
  json_response (rejection_status r) (rejection_reason r).
Definition error_response (status : N) : Response := json_response status (status_text status).

(** ** The dashboard server *)

Module ApiHandler.
Inductive t := Options | Status | Tegrastats | Services | Security | RuntimeContract
  | ActuationPending | ActuationActions | ActuationAudit | ActuationConfirm
  | Memories | MemoryUpdate | MemoryDelete | MemoryReorder | Mode | Dashboard | DashboardJs | NotFound.
#[export] Instance eq_dec : EqDecision t.
Proof. solve_decision. Defined.
End ApiHandler.

Definition api_routes : list (string * string * ApiHandler.t) :=
  [("GET", "/api/status", ApiHandler.Status); ("GET", "/api/tegrastats", ApiHandler.Tegrastats);
   ("GET", "/api/services", ApiHandler.Services); ("GET", "/api/security", ApiHandler.Security);
   ("GET", "/api/runtime/contract", ApiHandler.RuntimeContract);
   ("GET", "/api/actuation/pending", ApiHandler.ActuationPending);
   ("GET", "/api/actuation/actions", ApiHandler.ActuationActions);
   ("GET", "/api/actuation/audit", ApiHandler.ActuationAudit);
   ("POST", "/api/actuation/confirm", ApiHandler.ActuationConfirm);
   ("GET", "/api/memories", ApiHandler.Memories); ("POST", "/api/memories/update", ApiHandler.MemoryUpdate);
   ("POST", "/api/memories/delete", ApiHandler.MemoryDelete);
   ("POST", "/api/memories/reorder", ApiHandler.MemoryReorder);
   ("POST", "/api/mode", ApiHandler.Mode); ("GET", "/", ApiHandler.Dashboard);
   ("GET", "/index.html", ApiHandler.Dashboard); ("GET", "/dashboard.js", ApiHandler.DashboardJs)].

Definition lookup_route {A} (routes : list (string * string * A)) (m p : string) : option A :=
  snd <$> find (fun r => is_route m p r.1) routes.

Definition api_route (m p : string) : ApiHandler.t :=
  if String.eqb m "OPTIONS" then ApiHandler.Options
  else default ApiHandler.NotFound (lookup_route api_routes m p).

(** The handlers that show nothing of the household and change nothing. *)
Definition api_open (h : ApiHandler.t) : bool :=
  match h with
  | ApiHandler.Options | ApiHandler.Status | ApiHandler.Tegrastats | ApiHandler.Services
  | ApiHandler.Security | ApiHandler.RuntimeContract | ApiHandler.Dashboard
  | ApiHandler.DashboardJs | ApiHandler.NotFound => true
  | _ => false
  end.

(** ** The chat server *)

Module RequestRoute.
Inductive t := Root | ChatStream | Chat | History | Clear | Conversations | Tools | RuntimeContract
  | WebSearchStatus | WebSearchPost | Health | Connectivity | ActuationPending | ActuationActions
  | ActuationConfirm | MemoriesList | MemoriesUpdate | MemoriesDelete | MemoriesReorder
  | OpenAiChat | Models | Options | Export (conv_id : string) | NotFound.
End RequestRoute.

Definition core_routes : list (string * string * RequestRoute.t) :=
  [("GET", "/", RequestRoute.Root); ("GET", "/index.html", RequestRoute.Root);
   ("POST", "/api/chat/stream", RequestRoute.ChatStream); ("POST", "/api/chat", RequestRoute.Chat);
   ("GET", "/api/chat/history", RequestRoute.History); ("POST", "/api/chat/clear", RequestRoute.Clear);
   ("GET", "/api/conversations", RequestRoute.Conversations); ("GET", "/api/tools", RequestRoute.Tools);
   ("GET", "/api/runtime/contract", RequestRoute.RuntimeContract);
   ("GET", "/api/web-search", RequestRoute.WebSearchStatus);
   ("POST", "/api/web-search", RequestRoute.WebSearchPost); ("GET", "/api/health", RequestRoute.Health);
   ("GET", "/api/connectivity", RequestRoute.Connectivity);
   ("GET", "/api/actuation/pending", RequestRoute.ActuationPending);
   ("GET", "/api/actuation/actions", RequestRoute.ActuationActions);
   ("POST", "/api/actuation/confirm", RequestRoute.ActuationConfirm);
   ("GET", "/api/memories", RequestRoute.MemoriesList);
   ("POST", "/api/memories/update", RequestRoute.MemoriesUpdate);
   ("POST", "/api/memories/delete", RequestRoute.MemoriesDelete);
   ("POST", "/api/memories/reorder", RequestRoute.MemoriesReorder);
   ("POST", "/v1/chat/completions", RequestRoute.OpenAiChat); ("GET", "/v1/models", RequestRoute.Models)].

(** [path.split("id=").nth(1).unwrap_or("")]. *)
Definition export_id (p : string) : string :=
  match split_once p "id=" with
  | None => ""
  | Some (_, r) => match split_once r "id=" with Some (x, _) => x | None => r end
  end.

Definition classify_route (m p : string) : RequestRoute.t :=
  match lookup_route core_routes m p with
  | Some r => r
  | None =>
      if String.eqb m "OPTIONS" then RequestRoute.Options
      else if String.eqb m "GET" && starts_with p "/api/chat/export" then RequestRoute.Export (export_id p)
      else RequestRoute.NotFound
  end.

Definition core_open (r : RequestRoute.t) : bool :=
  match r with
  | RequestRoute.Root | RequestRoute.Tools | RequestRoute.RuntimeContract
  | RequestRoute.WebSearchStatus | RequestRoute.Health | RequestRoute.Connectivity
  | RequestRoute.Models | RequestRoute.Options | RequestRoute.NotFound => true
  | _ => false
  end.

(** [handle_request] up to the routing: what becomes of a connection. *)
Inductive Admission (Route : Type) :=
| Dropped
| Refused (status : N)
| GatedOut (r : GuardRejection) (reflect : option string)
| Passed (route : Route) (rq : HttpRequest) (reflect : option string).
Arguments Dropped {Route}.
Arguments Refused {Route} status.
Arguments GatedOut {Route} r reflect.
Arguments Passed {Route} route rq reflect.

Section servers.
Context {R : Type} `{RD : Reader R} `{UT : Utf8}.

(** The steps both servers share. *)
Definition gate_request {Route} (surface : RoutePolicySurface) (classify : string -> string -> Route)
    (limits : HttpLimits) (guard : RequestGuard) (r : R) : Admission Route :=
  match (read_request limits r).1 with
  | Err e => match HttpReadError.status_code e with Some s => Refused s | None => Dropped end
  | Ok rq =>
      match check_request guard rq with
      | Reject rejection => GatedOut rejection None
      | Allow echo =>
          if route_requires_local_token surface (method rq) (path rq) && negb (token_ok guard rq)
          then GatedOut MissingToken echo
          else Passed (classify (method rq) (path rq)) rq echo
      end
  end.

Definition core_gate := gate_request GenieCore classify_route.

(** The origin the chat server acts for. *)
Definition core_origin (resolver : OriginResolver) (peer : option IpAddr) (rq : HttpRequest) : RequestOrigin.t :=
  resolve resolver peer (header rq "x-genie-origin") (header rq "x-genie-origin-token").

(** The handlers of the dashboard server: they see the world and the body.
    [Options] and [NotFound] are answered in place. *)
Context {W : Type} (run_handler : ApiHandler.t -> option string -> W -> Response * W).

(** [handle_connection]: the bytes written, if any. *)
Definition handle_connection (limits : HttpLimits) (guard : RequestGuard) (r : R) (w : W)
    : option string * W :=
  match gate_request GenieApi api_route limits guard r with
  | Dropped => (None, w)
  | Refused s => (Some (write_response (error_response s) None), w)
  | GatedOut rejection echo => (Some (write_response (guard_rejection rejection) echo), w)
  | Passed h rq echo =>
      let '(response, w) :=
        match h with
        | ApiHandler.Options => ({| rsp_status := 204; content_type := "text/plain"; rsp_body := "" |}, w)
        | ApiHandler.NotFound => (json_response 404 "not found", w)
        | _ => run_handler h (body rq) w
        end in
      (Some (write_response response echo), w)
  end.

End servers.

(** ** What the gate lets through *)

(** The request names a host of the list or none. *)
Definition host_allowed (g : RequestGuard) (rq : HttpRequest) : Prop :=
  forall host, header rq "host" = Some host ->
    trim host = "" \/ to_ascii_lowercase (trim host) ∈ allowed_hosts g.

(** Its origin is of the list and is what is reflected, or it has none. *)
Definition origin_allowed (g : RequestGuard) (rq : HttpRequest) (echo : option string) : Prop :=
  match header rq "origin" with
  | None => echo = None
  | Some origin => normalize_origin origin ∈ allowed_origins g /\ echo = Some (trim origin)
  end.

(** It presents the configured token, if there is one. *)
Definition token_presented (g : RequestGuard) (rq : HttpRequest) : Prop :=
  forall secret, guard_token g = Some secret -> presented_token rq = Some secret.

Lemma token_ok_iff g rq : token_ok g rq = true <-> token_presented g rq.
Proof.
  unfold token_ok, token_presented. destruct (guard_token g) as [secret|]; [|naive_solver].
  split.
  - intros H s [= <-]. destruct (presented_token rq) as [t|]; [|done].
    apply ct_eq_iff, bytes_inj in H. by subst.
  - intros H. rewrite (H secret eq_refl). by apply ct_eq_iff.
Qed.

Lemma smap_empty f s : smap f s = "" -> s = "".
Proof. by destruct s. Qed.

Lemma check_request_allow g rq echo :
  check_request g rq = Allow echo -> host_allowed g rq /\ origin_allowed g rq echo.
Proof.
  unfold check_request, host_allowed, origin_allowed. intros H.
  destruct (match header rq "host" with Some _ => _ | None => _ end) eqn:Eh; [done|].
  split.
  - intros host Hh. rewrite Hh in Eh. apply andb_false_iff in Eh as [Eh|Eh]; apply negb_false_iff in Eh.
    + left. apply is_empty_iff in Eh. by apply smap_empty in Eh.
    + right. apply existsb_elem in Eh as (h & Hin & E). by apply String.eqb_eq in E as ->.
  - destruct (header rq "origin") as [o|]; [|by injection H as <-].
    destruct (existsb _ _) eqn:Eo; [|done]. injection H as <-. apply eqb_elem in Eo. done.
Qed.

Lemma lookup_route_in {A} (routes : list (string * string * A)) m p a :
  lookup_route routes m p = Some a -> (m, p, a) ∈ routes.
Proof.
  unfold lookup_route. destruct (find _ routes) as [[[m' p'] a']|] eqn:E; [|done]. intros [= <-].
  apply find_some in E as [Hin E]. apply list_elem_of_In in Hin. unfold is_route in E.
  apply andb_true_iff in E as [E1 E2]. apply String.eqb_eq in E1 as ->. by apply String.eqb_eq in E2 as ->.
Qed.

(** The tables agree: a route that is not open is on the list of the token. *)
Lemma api_table_covered :
  forallb (fun r => api_open r.2 || route_requires_local_token GenieApi r.1.1 r.1.2) api_routes = true.
Proof. by vm_compute. Qed.
Lemma core_table_covered :
  forallb (fun r => core_open r.2 || route_requires_local_token GenieCore r.1.1 r.1.2) core_routes = true.
Proof. by vm_compute. Qed.

Lemma api_route_token m p :
  api_open (api_route m p) = false -> route_requires_local_token GenieApi m p = true.
Proof.
  unfold api_route. destruct (String.eqb m "OPTIONS"); [done|].
  destruct (lookup_route api_routes m p) as [h|] eqn:E; [|done]. cbn [default]. intros Hh.
  apply lookup_route_in in E. pose proof (proj1 (forallb_elem _ _) api_table_covered _ E) as H.
  cbn [fst snd from_option id] in H, Hh. by rewrite Hh in H.
Qed.

Lemma core_route_token m p :
  core_open (classify_route m p) = false ->
  (forall id, classify_route m p <> RequestRoute.Export id) ->
  route_requires_local_token GenieCore m p = true.
Proof.
  unfold classify_route. destruct (lookup_route core_routes m p) as [h|] eqn:E.
  - intros Hh _. apply lookup_route_in in E. pose proof (proj1 (forallb_elem _ _) core_table_covered _ E) as H.
    cbn [fst snd from_option id] in H, Hh. by rewrite Hh in H.
  - destruct (String.eqb m "OPTIONS"); [done|]. destruct (_ && _); [|done]. intros _ H. by destruct (H (export_id p)).
Qed.

Section properties.
Context {R : Type} `{RD : Reader R} `{UT : Utf8}.

Lemma gate_request_passed {Route} surface (classify : string -> string -> Route) limits guard (r : R) route rq echo :
  gate_request surface classify limits guard r = Passed route rq echo ->
  (read_request limits r).1 = Ok rq /\ host_allowed guard rq /\ origin_allowed guard rq echo /\
  route = classify (method rq) (path rq) /\
  (route_requires_local_token surface (method rq) (path rq) = true -> token_presented guard rq).
Proof.
  unfold gate_request. destruct (read_request limits r).1 as [rq'|e]; [|by destruct (HttpReadError.status_code e)].
  destruct (check_request guard rq') as [echo'|] eqn:Ec; [|done]. apply check_request_allow in Ec as [Hh Ho].
  destruct (_ && _) eqn:Et; [done|]. intros [= <- <- <-]. split_and!; try done.
  intros Hr. rewrite Hr in Et. cbn [andb] in Et. apply token_ok_iff. by destruct (token_ok guard rq').
Qed.


End properties.

Section concrete.
#[local] Existing Instance byte_decoder.

Definition house_guard : RequestGuard := new_guard "127.0.0.1" 3000 [] [] "secret".
Definition get_request (target : string) : list piece :=
  [Data (bytes (print_request "GET" target [("Host", "localhost:3000")] ""))].
Definition house_limits : HttpLimits := limits_from_config default_http_config API_MAX_BODY_BYTES.

(** The transcript export can be had without the token.  The token is asked
    for on the path [/api/chat/export], with or without a query; the route is
    taken for every path that starts so.  With a token configured, a request
    for the export of a conversation is refused without it, and the same
    conversation is exported when its id follows a slash. *)
Lemma export_escapes_the_token :
  guard_token house_guard = Some "secret" /\
  core_gate house_limits house_guard (get_request "/api/chat/export?id=c1") =
    GatedOut MissingToken None /\
  exists rq, core_gate house_limits house_guard (get_request "/api/chat/export/id=c1") =
    Passed (RequestRoute.Export "c1") rq None /\ presented_token rq = None.
Proof. split_and!; [by vm_compute|by vm_compute|]. eexists. split; by vm_compute. Qed.

End concrete.
