(* ===== verification/ChatGate.v ===== *)
(** * The chat turn gate ([ChatTurnGate] of [server.rs])

    One chat turn at a time: a lock, and counters beside it that health
    reporting reads.  Requests arrive, wait, give up, are cancelled, hold the
    turn and leave in any order, and the lock and the counters change in
    separate steps, so the system is a step relation. *)

From S2P Require Import Prelude RustStr RustNum.
From Stdlib Require Import Relations.
Local Open Scope list_scope.

Record GateState := {
  waiters : N;
  in_flight : bool;
  holder_since : option N;
  last_completed : option N;
  completed_turns : N;
}.

Definition gate_default : GateState :=
  {| waiters := 0; in_flight := false; holder_since := None; last_completed := None; completed_turns := 0 |}.

Definition set_waiters (n : N) (s : GateState) : GateState :=
  {| waiters := n; in_flight := in_flight s; holder_since := holder_since s;
     last_completed := last_completed s; completed_turns := completed_turns s |}.

(** [WaiterGuard::new] and its [drop]: counters that saturate. *)
Definition waiter_new (s : GateState) : GateState := set_waiters (N.min (waiters s + 1) u32_max) s.
Definition waiter_drop (s : GateState) : GateState := set_waiters (waiters s - 1) s.

(** The update of [try_acquire] once the lock is held. *)
Definition on_acquired (now : N) (s : GateState) : GateState :=
  {| waiters := waiters s - 1; in_flight := true; holder_since := Some now;
     last_completed := last_completed s; completed_turns := completed_turns s |}.

Definition on_turn_complete (now : N) (s : GateState) : GateState :=
  {| waiters := waiters s; in_flight := false; holder_since := None; last_completed := Some now;
     completed_turns := u64_saturate (completed_turns s + 1) |}.

Record ChatLiveness := {
  cl_waiters : N;
  cl_in_flight : bool;
  cl_completed_turns : N;
  last_turn_age_secs : option N;
  current_turn_age_secs : option N;
  wedged : bool;
}.

(** Milliseconds on a clock that does not run backwards. *)
Definition wedge_after : N := 240000.
Definition snapshot (now : N) (s : GateState) : ChatLiveness :=
  let current := (fun t => now - t)%N <$> holder_since s in
  {| cl_waiters := waiters s; cl_in_flight := in_flight s; cl_completed_turns := completed_turns s;
     last_turn_age_secs := (fun t => (now - t) / 1000)%N <$> last_completed s;
     current_turn_age_secs := (fun d => d / 1000)%N <$> current;
     wedged := match current with Some d => (wedge_after <=? d)%N | None => false end |}.

(** ** The system *)

(** Where a request is: it waits for the lock, has it but has not said so, holds
    the turn, or has recorded its completion and still has the lock. *)
Inductive phase := Waiting | Granted | Holding | Recorded.
#[export] Instance phase_eq_dec : EqDecision phase.
Proof. solve_decision. Defined.

Record System := {
  gate : GateState;
  lock : option nat;
  requests : gmap nat phase;
}.

Definition initial : System := {| gate := gate_default; lock := None; requests := ∅ |}.

Inductive event :=
| Arrive (i : nat)
| Grant (i : nat)
| Enter (i : nat) (now : N)
| GiveUp (i : nat)
| Finish (i : nat) (now : N)
| Release (i : nat).

(** [GiveUp] is the end of the bounded wait and the cancellation of a request
    that waits; a turn that is cancelled drops its guard, which is [Finish].
    Fewer than 2^32 requests are in the system at a time. *)
Inductive step : System -> event -> System -> Prop :=
| step_arrive s i :
    requests s !! i = None -> (N.of_nat (size (requests s)) < u32_max)%N ->
    step s (Arrive i) {| gate := waiter_new (gate s); lock := lock s;
                         requests := <[i := Waiting]> (requests s) |}
| step_grant s i :
    requests s !! i = Some Waiting -> lock s = None ->
    step s (Grant i) {| gate := gate s; lock := Some i; requests := <[i := Granted]> (requests s) |}
| step_enter s i now :
    requests s !! i = Some Granted ->
    step s (Enter i now) {| gate := on_acquired now (gate s); lock := lock s;
                            requests := <[i := Holding]> (requests s) |}
| step_give_up s i :
    requests s !! i = Some Waiting ->
    step s (GiveUp i) {| gate := waiter_drop (gate s); lock := lock s; requests := delete i (requests s) |}
| step_finish s i now :
    requests s !! i = Some Holding ->
    step s (Finish i now) {| gate := on_turn_complete now (gate s); lock := lock s;
                             requests := <[i := Recorded]> (requests s) |}
| step_release s i :
    requests s !! i = Some Recorded ->
    step s (Release i) {| gate := gate s; lock := None; requests := delete i (requests s) |}.

Inductive run : System -> list event -> System -> Prop :=
| run_nil s : run s [] s
| run_cons s e s' l s'' : step s e s' -> run s' l s'' -> run s (e :: l) s''.

Lemma run_app s l s' l' s'' : run s l s' -> run s' l' s'' -> run s (l ++ l') s''.
Proof. induction 1; [done|]. intros. econstructor; eauto. Qed.

(** ** The invariant *)

Definition counted (kp : nat * phase) : Prop := kp.2 = Waiting \/ kp.2 = Granted.
#[local] Instance counted_dec kp : Decision (counted kp).
Proof. unfold counted. apply _. Defined.

Definition waiting (m : gmap nat phase) : nat := size (filter counted m).

(** The phases that have the lock. *)
Definition has_lock (p : phase) : Prop := p <> Waiting.

Definition gate_inv (s : System) : Prop :=
  waiters (gate s) = N.of_nat (waiting (requests s)) /\
  (forall i p, requests s !! i = Some p -> has_lock p -> lock s = Some i) /\
  (forall i, lock s = Some i -> exists p, requests s !! i = Some p /\ has_lock p) /\
  (in_flight (gate s) = true <-> exists i, requests s !! i = Some Holding) /\
  (is_Some (holder_since (gate s)) <-> in_flight (gate s) = true).

Lemma waiting_insert_new m i p :
  m !! i = None -> waiting (<[i := p]> m) = waiting m + (if decide (counted (i, p)) then 1 else 0).
Proof.
  intros Hi. unfold waiting. destruct (decide (counted (i, p))) as [Hc|Hc].
  - rewrite map_filter_insert_True, map_size_insert_None by (done || by apply map_lookup_filter_None; left). lia.
  - rewrite map_filter_insert_False, delete_id by done. lia.
Qed.

Lemma waiting_delete m i p :
  m !! i = Some p -> waiting m = waiting (delete i m) + (if decide (counted (i, p)) then 1 else 0).
Proof.
  intros Hi. rewrite <- (waiting_insert_new (delete i m) i p) by apply lookup_delete_eq.
  by rewrite insert_delete_id.
Qed.

(** Moving a request from one phase to another. *)
Lemma waiting_move m i p q :
  m !! i = Some p ->
  waiting (<[i := q]> m) + (if decide (counted (i, p)) then 1 else 0) =
  waiting m + (if decide (counted (i, q)) then 1 else 0).
Proof.
  intros Hi. rewrite (waiting_delete m i p) by done.
  rewrite <- (insert_delete_eq m i q), waiting_insert_new by apply lookup_delete_eq. lia.
Qed.

Lemma waiting_le_size m : waiting m <= size m.
Proof. apply map_subseteq_size, map_filter_subseteq. Qed.

(** Every step keeps the invariant; the lock and the phases move together. *)
Lemma gate_inv_initial : gate_inv initial.
Proof.
  repeat split; simpl; try done; by intros [? ?].
Qed.

(** What a request that moves to phase [q] leaves of the others. *)
Lemma holding_insert (m : gmap nat phase) i q :
  q <> Holding -> m !! i <> Some Holding ->
  (exists j, <[i := q]> m !! j = Some Holding) <-> exists j, m !! j = Some Holding.
Proof.
  intros Hq Hi. split; intros [j Hj]; exists j.
  - apply lookup_insert_Some in Hj as [[_ Hj]|[_ Hj]]; congruence.
  - rewrite lookup_insert_ne; congruence.
Qed.

Lemma holding_delete (m : gmap nat phase) i :
  m !! i <> Some Holding ->
  (exists j, delete i m !! j = Some Holding) <-> exists j, m !! j = Some Holding.
Proof.
  intros Hi. split; intros [j Hj]; exists j.
  - by apply lookup_delete_Some in Hj as [_ Hj].
  - rewrite lookup_delete_ne; congruence.
Qed.

(** The part of the invariant that says who has the lock. *)
Definition lock_inv (l : option nat) (m : gmap nat phase) : Prop :=
  (forall i p, m !! i = Some p -> has_lock p -> l = Some i) /\
  (forall i, l = Some i -> exists p, m !! i = Some p /\ has_lock p).

Lemma lock_inv_insert_waiting l m i :
  lock_inv l m -> m !! i = None -> lock_inv l (<[i := Waiting]> m).
Proof.
  intros [H1 H2] Hi. split.
  - intros j p Hj Hp. apply lookup_insert_Some in Hj as [[_ <-]|[_ Hj]]; [by destruct Hp|eauto].
  - intros j Hj. destruct (H2 j Hj) as [p [Hp Hl]]. exists p. rewrite lookup_insert_ne; [done|congruence].
Qed.

Lemma lock_inv_grant m i q : lock_inv None m -> has_lock q -> lock_inv (Some i) (<[i := q]> m).
Proof.
  intros [H1 H2] Hq. split.
  - intros j p Hj Hp. apply lookup_insert_Some in Hj as [[-> _]|[_ Hj]]; [done|]. by specialize (H1 _ _ Hj Hp).
  - intros j [= ->]. exists q. by rewrite lookup_insert_eq.
Qed.

Lemma lock_inv_move l m i p q :
  lock_inv l m -> m !! i = Some p -> has_lock p -> has_lock q -> lock_inv l (<[i := q]> m).
Proof.
  intros [H1 H2] Hi Hp Hq. split.
  - intros j r Hj Hr. apply lookup_insert_Some in Hj as [[-> _]|[_ Hj]]; eauto.
  - intros j Hj. exists q. rewrite (H1 i p Hi Hp) in Hj. injection Hj as ->. by rewrite lookup_insert_eq.
Qed.

Lemma lock_inv_leave_waiting l m i : lock_inv l m -> m !! i = Some Waiting -> lock_inv l (delete i m).
Proof.
  intros [H1 H2] Hi. split.
  - intros j p Hj Hp. apply lookup_delete_Some in Hj as [_ Hj]. eauto.
  - intros j Hj. destruct (H2 j Hj) as [p [Hp Hl]]. exists p. rewrite lookup_delete_ne; [done|].
    intros ->. rewrite Hi in Hp. injection Hp as <-. by destruct Hl.
Qed.

Lemma lock_inv_release l m i p :
  lock_inv l m -> m !! i = Some p -> has_lock p -> lock_inv None (delete i m).
Proof.
  intros [H1 H2] Hi Hp. split; [|done].
  intros j q Hj Hq. apply lookup_delete_Some in Hj as [Hne Hj].
  pose proof (H1 i p Hi Hp). pose proof (H1 j q Hj Hq). congruence.
Qed.

Lemma gate_inv_split s :
  gate_inv s <->
  waiters (gate s) = N.of_nat (waiting (requests s)) /\ lock_inv (lock s) (requests s) /\
  (in_flight (gate s) = true <-> exists i, requests s !! i = Some Holding) /\
  (is_Some (holder_since (gate s)) <-> in_flight (gate s) = true).
Proof. unfold gate_inv, lock_inv. tauto. Qed.

(** ** Invariance *)

Definition seat (p : phase) : nat := match p with Waiting | Granted => 1 | _ => 0 end.

Lemma counted_seat i p : (if decide (counted (i, p)) then 1 else 0) = seat p.
Proof. unfold counted. case_decide as Hc; destruct p; simpl in *; firstorder congruence. Qed.

Lemma holding_iff (b : bool) (P : Prop) : P -> (true = b) -> (b = true <-> P).
Proof. by intros HP <-. Qed.

Lemma gate_inv_step s e s' : gate_inv s -> step s e s' -> gate_inv s'.
Proof.
  rewrite !gate_inv_split. intros (Hw & Hl & Hf & Hs) Hstep.
  destruct Hstep as [s i Hi Hsize|s i Hi Hfree|s i now Hi|s i Hi|s i now Hi|s i Hi]; simpl in *.
  - split_and!; [|by apply lock_inv_insert_waiting| |done].
    + rewrite Hw, waiting_insert_new, counted_seat by done.
      pose proof (waiting_le_size (requests s)). simpl. lia.
    + rewrite Hf, holding_insert by congruence. done.
  - pose proof (waiting_move _ i Waiting Granted Hi) as Hm. rewrite !counted_seat in Hm. simpl in Hm.
    split_and!; [lia|apply lock_inv_grant; [by rewrite <- Hfree|done]| |done].
    rewrite Hf, holding_insert by congruence. done.
  - pose proof (waiting_move _ i Granted Holding Hi) as Hm. rewrite !counted_seat in Hm. simpl in Hm.
    split_and!; [lia|by eapply lock_inv_move| |by split; eauto].
    apply holding_iff; [|done]. exists i. by rewrite lookup_insert_eq.
  - pose proof (waiting_delete _ i Waiting Hi) as Hm. rewrite counted_seat in Hm. simpl in Hm.
    split_and!; [lia|by apply lock_inv_leave_waiting| |done].
    rewrite Hf, holding_delete by congruence. done.
  - pose proof (waiting_move _ i Holding Recorded Hi) as Hm. rewrite !counted_seat in Hm. simpl in Hm.
    split_and!; [lia|by eapply lock_inv_move| |].
    + split; [done|]. intros [j Hj]. apply lookup_insert_Some in Hj as [[_ ?]|[Hne Hj]]; [done|].
      destruct Hl as [Hl _]. pose proof (Hl _ _ Hi ltac:(done)). pose proof (Hl _ _ Hj ltac:(done)). congruence.
    + by split; [intros [? ?]|].
  - pose proof (waiting_delete _ i Recorded Hi) as Hm. rewrite counted_seat in Hm. simpl in Hm.
    split_and!; [lia|by eapply lock_inv_release| |done].
    rewrite Hf, holding_delete by congruence. done.
Qed.

Lemma gate_inv_run s l s' : gate_inv s -> run s l s' -> gate_inv s'.
Proof. intros Hs Hr. induction Hr; eauto using gate_inv_step. Qed.

(** The turns completed, and since when the present one is held. *)
Definition is_finish (e : event) : bool := match e with Finish _ _ => true | _ => false end.
Definition finished (l : list event) : nat := length (List.filter is_finish l).

(** The last start of a turn in the trace, if no turn has finished since. *)
Fixpoint open_turn (acc : option (nat * N)) (l : list event) : option (nat * N) :=
  match l with
  | [] => acc
  | Enter i now :: l => open_turn (Some (i, now)) l
  | Finish _ _ :: l => open_turn None l
  | _ :: l => open_turn acc l
  end.

(** [acc] is the turn that is held. *)
Definition turn_is (acc : option (nat * N)) (s : System) : Prop :=
  holder_since (gate s) = snd <$> acc /\
  (forall i t, acc = Some (i, t) -> requests s !! i = Some Holding).

Lemma turn_is_step acc s e s' : turn_is acc s -> step s e s' -> turn_is (open_turn acc [e]) s'.
Proof.
  intros [Hh Ht] Hstep. destruct Hstep; simpl in *; split; simpl; try done;
    try (intros j t Hj; specialize (Ht j t Hj);
         rewrite ?lookup_insert_ne, ?lookup_delete_ne by congruence; done).
  intros j t [= <- <-]. by rewrite lookup_insert_eq.
Qed.

Lemma open_turn_cons acc e l : open_turn acc (e :: l) = open_turn (open_turn acc [e]) l.
Proof. by destruct e. Qed.

Lemma turn_is_run acc s l s' : turn_is acc s -> run s l s' -> turn_is (open_turn acc l) s'.
Proof.
  intros Ht Hr. revert acc Ht. induction Hr as [|s e s' l s'' Hstep Hr IH]; intros acc Ht; [done|].
  rewrite open_turn_cons. apply IH. by eapply turn_is_step.
Qed.

Lemma completed_step s e s' :
  step s e s' ->
  completed_turns (gate s') =
    if is_finish e then u64_saturate (completed_turns (gate s) + 1) else completed_turns (gate s).
Proof. by destruct 1. Qed.

Lemma completed_run s l s' n :
  run s l s' -> completed_turns (gate s) = u64_saturate (N.of_nat n) ->
  completed_turns (gate s') = u64_saturate (N.of_nat (n + finished l)).
Proof.
  intros Hr. revert n. induction Hr as [s|s e s' l s'' Hstep Hr IH]; intros n Hn.
  - unfold finished. simpl. by rewrite Nat.add_0_r.
  - pose proof (completed_step _ _ _ Hstep) as He. unfold finished in *. simpl.
    destruct (is_finish e); simpl.
    + rewrite <- Nat.add_succ_comm. apply IH. rewrite He, Hn. unfold u64_saturate. lia.
    + apply IH. congruence.
Qed.

Lemma chat_gate_empty s :
  gate_inv s -> requests s = ∅ ->
  lock s = None /\ waiters (gate s) = 0%N /\ in_flight (gate s) = false.
Proof.
  intros (Hw & _ & H2 & Hf & _) He. rewrite He in *. split_and!; [|done|].
  - destruct (lock s) as [i|] eqn:El; [|done]. destruct (H2 i eq_refl) as [p [Hp _]]. done.
  - apply not_true_is_false. rewrite Hf. by intros [i Hi].
Qed.

(** The health report of the chat gate is the truth, however requests arrive, wait, give up, are cancelled and hold turns.  At every point at most one request has the lock and it is the one in the turn; the waiters reported are exactly the requests that wait, and the completed turns are the turns finished in the history; a turn is reported in flight exactly when some request holds one; the gate is reported wedged exactly when the turn that is open in the history started at least 240 seconds ago; and when no request is left nothing of them stays behind. *)
Lemma chat_gate_counts l s now :
  run initial l s ->
  let view := snapshot now (gate s) in
  (forall i j p q, requests s !! i = Some p -> requests s !! j = Some q ->
     has_lock p -> has_lock q -> i = j) /\
  cl_waiters view = N.of_nat (waiting (requests s)) /\
  cl_completed_turns view = u64_saturate (N.of_nat (finished l)) /\
  (cl_in_flight view = true <-> exists i, requests s !! i = Some Holding) /\
  (wedged view = true <-> exists i t, open_turn None l = Some (i, t) /\ (240000 <= now - t)%N /\
     requests s !! i = Some Holding /\ lock s = Some i) /\
  (requests s = ∅ -> cl_waiters view = 0%N /\ cl_in_flight view = false /\ lock s = None).
Proof.
  intros Hr view. pose proof (gate_inv_run _ _ _ gate_inv_initial Hr) as Hinv.
  pose proof (turn_is_run None initial l s ltac:(by split) Hr) as [Hh Ht].
  pose proof (completed_run initial l s 0 Hr ltac:(done)) as Hc.
  pose proof Hinv as (Hw & H1 & H2 & Hf & Hs). split_and!.
  - intros i j p q Hi Hj Hp Hq. pose proof (H1 _ _ Hi Hp). pose proof (H1 _ _ Hj Hq). congruence.
  - done.
  - done.
  - done.
  - unfold view, snapshot. simpl. rewrite Hh. destruct (open_turn None l) as [[i t]|]; simpl.
    + split.
      * intros Hle. apply N.leb_le in Hle. exists i, t. specialize (Ht i t eq_refl).
        split_and!; [done|done|done|by eapply H1].
      * intros (? & ? & [= <- <-] & Hle & _). by apply N.leb_le.
    + split; [done|]. by intros (? & ? & ? & _).
  - intros He. by destruct (chat_gate_empty s Hinv He) as (? & ? & ?).
Qed.

(** ** Draining *)

(** No new request; and nobody turned away either. *)
Definition departs (e : event) : Prop := match e with Arrive _ => False | _ => True end.
Definition serves (e : event) : Prop := match e with Arrive _ | GiveUp _ => False | _ => True end.

Definition weight (p : phase) : nat :=
  match p with Waiting => 4 | Granted => 3 | Holding => 2 | Recorded => 1 end.
Definition steps_left (m : gmap nat phase) : nat := map_fold (fun _ p n => weight p + n) 0 m.

Lemma steps_left_insert m i p :
  m !! i = None -> steps_left (<[i := p]> m) = weight p + steps_left m.
Proof. intros Hi. unfold steps_left. apply (map_fold_insert_L (fun _ q n => weight q + n)); [lia|done]. Qed.

Lemma steps_left_delete m i p :
  m !! i = Some p -> steps_left m = weight p + steps_left (delete i m).
Proof.
  intros Hi. rewrite <- (steps_left_insert (delete i m) i p) by apply lookup_delete_eq.
  by rewrite insert_delete_id.
Qed.

Lemma steps_left_move m i p q :
  m !! i = Some p -> steps_left (<[i := q]> m) + weight p = steps_left m + weight q.
Proof.
  intros Hi. rewrite (steps_left_delete m i p), <- (insert_delete_eq m i q) by done.
  rewrite steps_left_insert by apply lookup_delete_eq. lia.
Qed.

Lemma steps_left_bound m : steps_left m <= 4 * size m.
Proof.
  induction m as [|i p m Hi IH] using map_ind; [done|].
  rewrite steps_left_insert, map_size_insert_None by done. destruct p; simpl; lia.
Qed.

(** Every step that is not an arrival brings the end nearer. *)
Lemma steps_left_step s e s' :
  step s e s' -> departs e -> steps_left (requests s') < steps_left (requests s).
Proof.
  destruct 1 as [s i|s i Hi Hf|s i now Hi|s i Hi|s i now Hi|s i Hi]; intros He; simpl; [done| | | | |].
  - pose proof (steps_left_move _ i Waiting Granted Hi). simpl in *. lia.
  - pose proof (steps_left_move _ i Granted Holding Hi). simpl in *. lia.
  - pose proof (steps_left_delete _ i Waiting Hi). simpl in *. lia.
  - pose proof (steps_left_move _ i Holding Recorded Hi). simpl in *. lia.
  - pose proof (steps_left_delete _ i Recorded Hi). simpl in *. lia.
Qed.

Lemma steps_left_run s l s' :
  run s l s' -> Forall departs l -> length l + steps_left (requests s') <= steps_left (requests s).
Proof.
  intros Hr. induction Hr as [|s e s' l s'' Hstep Hr IH]; intros Hl; [simpl; lia|].
  apply Forall_cons in Hl as [He Hl]. pose proof (steps_left_step _ _ _ Hstep He). specialize (IH Hl).
  simpl. lia.
Qed.

(** The gate is never stuck while a request is there. *)
Lemma gate_progress s :
  gate_inv s -> requests s <> ∅ -> exists e s', step s e s' /\ serves e.
Proof.
  intros (_ & H1 & H2 & _) Hne. destruct (lock s) as [i|] eqn:El.
  - destruct (H2 i eq_refl) as [[] [Hi Hp]]; [done|..];
      [exists (Enter i 0)|exists (Finish i 0)|exists (Release i)]; (eexists; split; [by econstructor|done]).
  - apply map_choose in Hne as (i & p & Hi). exists (Grant i). eexists. split; [|done].
    constructor; [|done]. destruct p; [done|..]; by specialize (H1 _ _ Hi ltac:(done)).
Qed.

Lemma gate_serves_all s :
  gate_inv s -> exists l s', run s l s' /\ Forall serves l /\ requests s' = ∅.
Proof.
  remember (steps_left (requests s)) as n eqn:En. revert s En.
  induction n as [n IH] using lt_wf_ind. intros s -> Hs.
  destruct (decide (requests s = ∅)) as [He|Hne]; [by exists [], s; split; [constructor|]|].
  destruct (gate_progress s Hs Hne) as (e & s1 & Hstep & He).
  destruct (IH (steps_left (requests s1))) with (s := s1) as (l & s' & Hr & Hl & Hend).
  - apply (steps_left_step s e); [done|]. by destruct e.
  - done.
  - by eapply gate_inv_step.
  - exists (e :: l), s'. split_and!; [by econstructor|by constructor|done].
Qed.

(** A request that leaves without having been turned away has had its turn. *)
Lemma served_entered s l s' i :
  run s l s' -> Forall serves l -> requests s' !! i = None ->
  requests s !! i = Some Waiting \/ requests s !! i = Some Granted -> exists t, In (Enter i t) l.
Proof.
  intros Hr. induction Hr as [s|s e s' l s'' Hstep Hr IH]; intros Hl Hend Hi; [destruct Hi; congruence|].
  apply Forall_cons in Hl as [He Hl]. specialize (IH Hl Hend).
  assert (exists t, e = Enter i t \/ In (Enter i t) l) as [t [->|Ht]]; [|by exists t; left|by exists t; right].
  destruct Hstep as [s j|s j Hj Hf|s j now Hj|s j Hj|s j now Hj|s j Hj]; try done; simpl in *;
    (destruct (decide (j = i)) as [->|Hne];
      [|rewrite ?lookup_insert_ne, ?lookup_delete_ne in IH by done;
        destruct (IH Hi) as [t Ht]; by exists t; right]).
  - rewrite lookup_insert_eq in IH. destruct (IH ltac:(by right)) as [t Ht]. by exists t; right.
  - by exists now; left.
  - destruct Hi; congruence.
  - destruct Hi; congruence.
Qed.

(** C30: the gate drains.  From every reachable point, once no new request arrives, at most four steps per request remain; while a request is left some step that turns nobody away is possible, so every arrival-free run that cannot go on has emptied the gate, with no waiter counted, no turn in flight and the lock free; and there is a run in which everyone waiting gets the turn. *)
Theorem chat_gate_drains l s :
  run initial l s ->
  (forall l' s', run s l' s' -> Forall departs l' ->
     length l' <= 4 * size (requests s) /\
     ((forall e s'', step s' e s'' -> ~ serves e) ->
        requests s' = ∅ /\ lock s' = None /\ waiters (gate s') = 0%N /\ in_flight (gate s') = false)) /\
  (exists l' s', run s l' s' /\ Forall serves l' /\ requests s' = ∅ /\
     forall i, requests s !! i = Some Waiting -> exists t, In (Enter i t) l').
Proof.
  intros Hr. pose proof (gate_inv_run _ _ _ gate_inv_initial Hr) as Hs. split.
  - intros l' s' Hr' Hl'. split.
    + pose proof (steps_left_run _ _ _ Hr' Hl'). pose proof (steps_left_bound (requests s)). lia.
    + intros Hstuck. pose proof (gate_inv_run _ _ _ Hs Hr') as Hs'.
      destruct (decide (requests s' = ∅)) as [He|Hne].
      * destruct (chat_gate_empty s' Hs' He) as (? & ? & ?). done.
      * destruct (gate_progress s' Hs' Hne) as (e & s'' & Hstep & He). by destruct (Hstuck e s'' Hstep).
  - destruct (gate_serves_all s Hs) as (l' & s' & Hr' & Hl' & He). exists l', s'. split_and!; try done.
    intros i Hi. eapply served_entered; [done|done|by rewrite He|by left].
Qed.

(** ** Concrete runs *)

Definition busy_history : list event := [Arrive 1; Grant 1; Enter 1 1000; Arrive 2; Arrive 3; GiveUp 3].
Definition busy : System :=
  {| gate := {| waiters := 1; in_flight := true; holder_since := Some 1000%N; last_completed := None;
                completed_turns := 0 |};
     lock := Some 1; requests := {[1 := Holding; 2 := Waiting]} |}.

Lemma busy_reached : run initial busy_history busy.
Proof. repeat first [apply run_nil | eapply run_cons; [by constructor|simpl]]. Qed.

Lemma chat_gate_counts_witness :
  wedged (snapshot 240999 (gate busy)) = false /\ wedged (snapshot 241000 (gate busy)) = true /\
  exists i t, open_turn None busy_history = Some (i, t) /\ (240000 <= 241000 - t)%N /\
    requests busy !! i = Some Holding /\ lock busy = Some i.
Proof.
  split; [reflexivity|]. split; [reflexivity|].
  apply (chat_gate_counts busy_history busy 241000 busy_reached). reflexivity.
Defined.

Lemma chat_gate_drains_witness :
  (exists l' s', run busy l' s' /\ Forall serves l' /\ requests s' = ∅ /\
     forall i, requests busy !! i = Some Waiting -> exists t, In (Enter i t) l') /\
  forall l' s', run busy l' s' -> Forall departs l' -> length l' <= 8.
Proof.
  split; [exact (proj2 (chat_gate_drains busy_history busy busy_reached))|].
  intros l' s' Hr Hl. exact (proj1 (proj1 (chat_gate_drains busy_history busy busy_reached) l' s' Hr Hl)).
Defined.
