(* ===== verification/Conversations.v ===== *)
(** * The conversation store ([conversation.rs])

    Every chat is kept in two tables, written one message or one batch at a time
    and pruned by age and by length. *)

From S2P Require Import Prelude RustStr RustNum Sql Json.
From stdpp Require Import sorting.
From Stdlib Require Import Ascii.
Local Open Scope string_scope.
Local Open Scope list_scope.
Local Open Scope rust_scope.

(** ** Data *)

Record Conversation := {
  cv_id : string;
  cv_title : string;
  created_ms : Z;
  updated_ms : Z;
}.

Record MessageRow := {
  mg_id : Z;
  mg_conv : string;
  mg_role : string;
  mg_content : string;
  mg_tool_name : option string;
  mg_ts_ms : Z;
  mg_speaker : option string;
}.

Record ChatTables := {
  conversations : list Conversation;
  messages : list MessageRow;
}.

Definition no_chats : ChatTables := {| conversations := []; messages := [] |}.

Record ConversationMeta := {
  cm_id : string;
  cm_title : string;
  cm_created_ms : Z;
  cm_updated_ms : Z;
  message_count : nat;
}.

Record StoredMessage := {
  sm_role : string;
  sm_content : string;
  sm_speaker : option string;
}.

Record BatchMessage := {
  bm_role : string;
  bm_content : string;
  bm_tool_name : option string;
  bm_speaker : option string;
}.

Record Message := { role : string; content : string }.

(** ** Text *)

(** [str::is_char_boundary]. *)
Definition is_char_boundary (text : string) (i : nat) : bool :=
  match i with
  | O => true
  | _ => match bytes text !! i with
         | Some a => negb (byte_is_cont a)
         | None => Nat.eqb i (String.length text)
         end
  end.

Fixpoint boundary_at_most (text : string) (max_bytes : nat) : nat :=
  match max_bytes with
  | O => O
  | S n => if is_char_boundary text (S n) then S n else boundary_at_most text n
  end.

Definition truncate_at_char_boundary (text : string) (max_bytes : nat) : string :=
  if Nat.leb (String.length text) max_bytes then text
  else String.substring 0 (boundary_at_most text max_bytes) text.

(** The title a first message gives its conversation. *)
Definition title_of (content : string) : string :=
  if Nat.ltb 60 (String.length content) then truncate_at_char_boundary content 57 +:+ "..." else content.

Definition generate_id (ts : N) : string := "conv-" +:+ show_hex ts.

(** ** Rows *)

Definition has_conversation (id : string) (t : ChatTables) : bool :=
  existsb (fun c => String.eqb (cv_id c) id) (conversations t).

Definition of_conv (conv_id : string) (t : ChatTables) : list MessageRow :=
  filter (fun m => mg_conv m = conv_id) (messages t).

Definition user_count (conv_id : string) (t : ChatTables) : nat :=
  length (filter (fun m => mg_role m = "user") (of_conv conv_id t)).

Definition with_messages (l : list MessageRow) (t : ChatTables) : ChatTables :=
  {| conversations := conversations t; messages := l |}.
Definition with_conversations (l : list Conversation) (t : ChatTables) : ChatTables :=
  {| conversations := l; messages := messages t |}.

Definition new_conversation (id title : string) (now : Z) (t : ChatTables) : ChatTables :=
  with_conversations
    (conversations t ++ [{| cv_id := id; cv_title := title; created_ms := now; updated_ms := now |}]) t.

Definition insert_or_ignore (id title : string) (now : Z) (t : ChatTables) : ChatTables :=
  if has_conversation id t then t else new_conversation id title now t.

(** [UPDATE conversations SET ... WHERE id = ?]. *)
Definition update_conversation (f : Conversation -> Conversation) (id : string) (t : ChatTables) : ChatTables :=
  with_conversations ((fun c => if String.eqb (cv_id c) id then f c else c) <$> conversations t) t.

Definition set_title (title : string) (now : Z) (c : Conversation) : Conversation :=
  {| cv_id := cv_id c; cv_title := title; created_ms := created_ms c; updated_ms := now |}.
Definition set_updated (now : Z) (c : Conversation) : Conversation :=
  {| cv_id := cv_id c; cv_title := cv_title c; created_ms := created_ms c; updated_ms := now |}.

(** [ORDER BY ts_ms ASC, id ASC], and the opposite order. *)
Definition earlier (a b : MessageRow) : Prop :=
  (mg_ts_ms a < mg_ts_ms b \/ mg_ts_ms a = mg_ts_ms b /\ mg_id a <= mg_id b)%Z.
#[export] Instance earlier_dec a b : Decision (earlier a b).
Proof. unfold earlier. apply _. Defined.
Definition later (a b : MessageRow) : Prop := earlier b a.
#[export] Instance later_dec a b : Decision (later a b).
Proof. unfold later. apply _. Defined.

Definition newest (limit : nat) (conv_id : string) (t : ChatTables) : list MessageRow :=
  take limit (order_by later (of_conv conv_id t)).

(** ** Operations *)

Section store.
(** Whether the connection enforces the foreign key of [messages]; the store
    leaves SQLite's setting alone. *)
Context (enforced : bool).

Definition insert_message (conv_id : string) (m : BatchMessage) (now : Z) (t : ChatTables)
    : result (unit * ChatTables) string :=
  if enforced && negb (has_conversation conv_id t) then Err "FOREIGN KEY constraint failed"
  else
    Ok (tt, with_messages (messages t ++
      [{| mg_id := next_rowid (mg_id <$> messages t); mg_conv := conv_id; mg_role := bm_role m;
          mg_content := bm_content m; mg_tool_name := bm_tool_name m; mg_ts_ms := now;
          mg_speaker := bm_speaker m |}]) t).

Definition Store := Conn ChatTables.

Definition create (ts : N) : M Store (result string string) :=
  let id := generate_id ts in
  let now := Z.of_N ts in
  let!? _ := statement (fun t =>
    if has_conversation id t then Err "UNIQUE constraint failed: conversations.id"
    else Ok (tt, new_conversation id "New conversation" now t)) in
  ret (Ok id).

Definition ensure (id title : string) (now : Z) : M Store (result unit string) :=
  update (insert_or_ignore id title now).

Definition append (conv_id : string) (m : BatchMessage) (now : Z) : M Store (result unit string) :=
  let!? _ := statement (insert_message conv_id m now) in
  let!? count := query (user_count conv_id) in
  if Nat.eqb count 1 && String.eqb (bm_role m) "user"
  then update (update_conversation (set_title (title_of (bm_content m)) now) conv_id)
  else update (update_conversation (set_updated now) conv_id).

(** The callers of this one only log an error. *)
Definition append_or_log (conv_id : string) (m : BatchMessage) (now : Z) : M Store unit :=
  let! _ := append conv_id m now in ret tt.

Fixpoint append_messages (conv_id : string) (now : Z) (prior_user_count : nat) (title : option string)
    (l : list BatchMessage) : M Store (result (option string) string) :=
  match l with
  | [] => ret (Ok title)
  | m :: l =>
      let!? _ := statement (insert_message conv_id m now) in
      let user := String.eqb (bm_role m) "user" in
      let prior_user_count := if user then S prior_user_count else prior_user_count in
      append_messages conv_id now prior_user_count
        (if user && Nat.eqb prior_user_count 1 then Some (title_of (bm_content m)) else title) l
  end.

Definition ensure_and_append_batch (conv_id title : string) (l : list BatchMessage) (now : Z)
    : M Store (result unit string) :=
  transaction (
    let!? _ := update (insert_or_ignore conv_id title now) in
    let!? prior := query (user_count conv_id) in
    let!? title_from_first_user := append_messages conv_id now prior None l in
    match title_from_first_user with
    | Some new_title => update (update_conversation (set_title new_title now) conv_id)
    | None =>
        match l with
        | [] => ret (Ok tt)
        | _ => update (update_conversation (set_updated now) conv_id)
        end
    end).

Definition ensure_and_append_batch_or_log (conv_id title : string) (l : list BatchMessage) (now : Z)
    : M Store unit :=
  let! _ := ensure_and_append_batch conv_id title l now in ret tt.

Definition stored (m : MessageRow) : StoredMessage :=
  {| sm_role := mg_role m; sm_content := mg_content m; sm_speaker := mg_speaker m |}.
Definition chat (conv_id : string) (t : ChatTables) : list StoredMessage :=
  stored <$> order_by earlier (of_conv conv_id t).
Definition get_messages (conv_id : string) : M Store (result (list StoredMessage) string) :=
  query (chat conv_id).

Definition recalled (m : MessageRow) : Message := {| role := mg_role m; content := mg_content m |}.
Definition get_recent (conv_id : string) (limit : nat) : M Store (result (list Message) string) :=
  query (fun t => recalled <$> order_by earlier (newest limit conv_id t)).

Definition meta (t : ChatTables) (c : Conversation) : ConversationMeta :=
  {| cm_id := cv_id c; cm_title := cv_title c; cm_created_ms := created_ms c;
     cm_updated_ms := updated_ms c; message_count := length (of_conv (cv_id c) t) |}.
Definition updated_after (a b : Conversation) : Prop := (updated_ms b <= updated_ms a)%Z.
#[export] Instance updated_after_dec a b : Decision (updated_after a b).
Proof. unfold updated_after. apply _. Defined.
Definition list_conversations : M Store (result (list ConversationMeta) string) :=
  query (fun t => meta t <$> order_by updated_after (conversations t)).

Definition delete_messages (p : MessageRow -> bool) (t : ChatTables) : nat * ChatTables :=
  let kept := filter (fun m => p m = false) (messages t) in
  (length (messages t) - length kept, with_messages kept t).

Definition delete (conv_id : string) : M Store (result unit string) :=
  let!? _ := update_count (delete_messages (fun m => String.eqb (mg_conv m) conv_id)) in
  update (fun t => with_conversations (filter (fun c => cv_id c <> conv_id) (conversations t)) t).

(** [DELETE FROM conversations WHERE id NOT IN (SELECT DISTINCT conv_id FROM messages)]. *)
Definition drop_empty (t : ChatTables) : ChatTables :=
  with_conversations (filter (fun c => of_conv (cv_id c) t <> []) (conversations t)) t.

Definition over_limit (max : nat) (t : ChatTables) : list string :=
  cv_id <$> filter (fun c => max < length (of_conv (cv_id c) t)) (conversations t).

(** Of the messages of one conversation, those that are not among the newest. *)
Definition beyond_newest (max : nat) (conv_id : string) (t : ChatTables) (m : MessageRow) : bool :=
  String.eqb (mg_conv m) conv_id && negb (existsb (Z.eqb (mg_id m)) (mg_id <$> newest max conv_id t)).

Fixpoint trim_each (max : nat) (deleted : nat) (ids : list string) : M Store (result nat string) :=
  match ids with
  | [] => ret (Ok deleted)
  | id :: ids =>
      let!? n := update_count (fun t => delete_messages (beyond_newest max id t) t) in
      trim_each max (deleted + n) ids
  end.

(** The two passes, in one transaction. *)
Definition prune_passes (retention_days : N) (max_messages_per_conversation : nat) (now : Z)
    : M Store (result nat string) :=
  let!? deleted :=
    if (0 <? retention_days)%N then
      let cutoff_ms := (now - Z.of_N retention_days * 86400000)%Z in
      let!? n := update_count (delete_messages (fun m => Z.ltb (mg_ts_ms m) cutoff_ms)) in
      let!? _ := update drop_empty in
      ret (Ok n)
    else ret (Ok 0) in
  if Nat.ltb 0 max_messages_per_conversation then
    let!? ids := query (over_limit max_messages_per_conversation) in
    trim_each max_messages_per_conversation deleted ids
  else ret (Ok deleted).

Definition prune_old_turns (retention_days : N) (max_messages_per_conversation : nat) (now : Z)
    : M Store (result nat string) :=
  let!? deleted := transaction (prune_passes retention_days max_messages_per_conversation now) in
  let!? _ := query (fun _ => tt) in
  ret (Ok deleted).

Definition clear_all : M Store (result unit string) :=
  let!? _ := update (with_messages []) in
  update (with_conversations []).

(** The document handed to the printer, its keys in the order of the map. *)
Definition export_message (m : StoredMessage) : value :=
  Object ([("content", Str (sm_content m)); ("role", Str (sm_role m))] ++
    match sm_speaker m with Some s => [("speaker", Str s)] | None => [] end).
Definition export_document (c : Conversation) (l : list StoredMessage) : value :=
  Object [("created", json_i64 (created_ms c)); ("id", Str (cv_id c));
    ("messages", Array (export_message <$> l)); ("title", Str (cv_title c));
    ("updated", json_i64 (updated_ms c))].

Definition find_conversation (id : string) (t : ChatTables) : option Conversation :=
  find (fun c => String.eqb (cv_id c) id) (conversations t).

Definition export_json (to_string_pretty : value -> string) (conv_id : string)
    : M Store (result string string) :=
  let! meta := query (find_conversation conv_id) in
  match meta with
  | Ok (Some c) =>
      let!? l := get_messages conv_id in
      ret (Ok (to_string_pretty (export_document c l)))
  | _ => ret (Err ("conversation not found: " +:+ conv_id))
  end.

End store.

(** ** The order of messages *)

#[export] Instance earlier_trans : Transitive earlier.
Proof. intros a b c. unfold earlier. lia. Qed.
#[export] Instance earlier_total : Total earlier.
Proof. intros a b. unfold earlier. lia. Qed.
#[export] Instance later_trans : Transitive later.
Proof. intros a b c. unfold later, earlier. lia. Qed.
#[export] Instance later_total : Total later.
Proof. intros a b. unfold later, earlier. lia. Qed.

(** Rows are numbered in the order of their insertion. *)
Definition numbered (l : list MessageRow) : Prop := StronglySorted Z.lt (mg_id <$> l).

Lemma numbered_cons m l : numbered (m :: l) <-> Forall (fun x => mg_id m < mg_id x)%Z l /\ numbered l.
Proof. unfold numbered. rewrite fmap_cons, StronglySorted_cons, Forall_fmap. done. Qed.

Lemma numbered_filter (P : MessageRow -> Prop) `{!forall m, Decision (P m)} l : numbered l -> numbered (filter P l).
Proof.
  induction l as [|m l IH]; [done|]. rewrite numbered_cons. intros [Hm Hl]. rewrite filter_cons.
  case_decide; [|auto]. rewrite numbered_cons. split; [|auto].
  rewrite Forall_forall in *. intros x Hx. apply list_elem_of_filter in Hx as [_ Hx]. auto.
Qed.

Lemma numbered_inj l x y : numbered l -> x ∈ l -> y ∈ l -> mg_id x = mg_id y -> x = y.
Proof.
  induction l as [|m l IH]; [by intros _ ?%not_elem_of_nil|]. rewrite numbered_cons, Forall_forall.
  intros [Hm Hl] [->|Hx]%elem_of_cons [->|Hy]%elem_of_cons Heq; auto.
  - specialize (Hm y Hy). lia.
  - specialize (Hm x Hx). lia.
Qed.

Lemma earlier_antisym l x y : numbered l -> x ∈ l -> y ∈ l -> earlier x y -> earlier y x -> x = y.
Proof. intros Hl Hx Hy Hxy Hyx. apply (numbered_inj l); [done..|]. unfold earlier in *. lia. Qed.

Lemma StronglySorted_app_3 {A} (R : A -> A -> Prop) l k :
  StronglySorted R l -> StronglySorted R k -> (forall x y, x ∈ l -> y ∈ k -> R x y) ->
  StronglySorted R (l ++ k).
Proof. intros Hl Hk Hlk. by apply StronglySorted_app. Qed.

Lemma StronglySorted_reverse {A} (R : A -> A -> Prop) l :
  StronglySorted R l -> StronglySorted (fun x y => R y x) (reverse l).
Proof.
  induction 1 as [|x k Hk IH Hx]; [constructor|]. rewrite reverse_cons.
  apply StronglySorted_app_3; [done|by repeat constructor|].
  intros a b Ha ->%list_elem_of_singleton. rewrite elem_of_reverse in Ha.
  rewrite Forall_forall in Hx. by apply Hx.
Qed.

(** The newest rows, put back in order, are the end of the whole. *)
Lemma order_later l : numbered l -> order_by later l = reverse (order_by earlier l).
Proof.
  intros Hl. apply (order_by_unique later); try apply _.
  - intros x y Hx Hy H1 H2. by eapply (earlier_antisym l).
  - apply (StronglySorted_reverse earlier), order_by_sorted; apply _.
  - by rewrite reverse_Permutation, order_by_perm.
Qed.

Lemma order_sorted l k : numbered l -> k ≡ₚ l -> StronglySorted earlier k -> order_by earlier l = k.
Proof. intros Hl Hp Hk. apply (order_by_unique earlier); try apply _; [|done..].
  intros x y Hx Hy. by apply (earlier_antisym l). Qed.

Lemma StronglySorted_last_n {A} (R : A -> A -> Prop) n l : StronglySorted R l -> StronglySorted R (last_n n l).
Proof.
  intros Hl. destruct (last_n_suffix n l) as [k Hk]. rewrite Hk in Hl.
  by apply StronglySorted_app in Hl as (_ & _ & ?).
Qed.

(** [SELECT ... FROM (SELECT ... DESC LIMIT n) ... ASC] is the end of the whole. *)
Lemma order_newest n l :
  numbered l -> order_by earlier (take n (order_by later l)) = last_n n (order_by earlier l).
Proof.
  intros Hl. rewrite order_later, take_reverse by done. fold (last_n n (order_by earlier l)).
  apply (order_by_unique earlier); try apply _.
  - intros x y Hx Hy. rewrite elem_of_reverse in Hx, Hy.
    apply (earlier_antisym l); [done|..]; rewrite <- (order_by_perm earlier l);
      by eapply elem_of_suffix; [|apply last_n_suffix].
  - apply StronglySorted_last_n, order_by_sorted; apply _.
  - by rewrite reverse_Permutation.
Qed.

(** Messages stamped no earlier than those of the table go to the end. *)
Lemma order_snoc l k :
  numbered (l ++ k) -> (forall x y, x ∈ l -> y ∈ k -> mg_ts_ms x <= mg_ts_ms y)%Z ->
  StronglySorted earlier k -> order_by earlier (l ++ k) = order_by earlier l ++ k.
Proof.
  intros Hn Hts Hk. apply order_sorted; [done|by rewrite order_by_perm|].
  apply StronglySorted_app_3; [apply order_by_sorted; apply _|done|].
  intros x y Hx Hy. rewrite order_by_perm in Hx. specialize (Hts x y Hx Hy). unfold earlier.
  unfold numbered in Hn. rewrite fmap_app in Hn. apply StronglySorted_app in Hn as (Hn & _ & _).
  specialize (Hn (mg_id x) (mg_id y)). rewrite !list_elem_of_fmap in Hn.
  enough (mg_id x < mg_id y)%Z by lia. apply Hn; eauto.
Qed.

(** ** Well-formed tables *)

Lemma numbered_snoc l m : numbered l -> mg_id m = next_rowid (mg_id <$> l) -> numbered (l ++ [m]).
Proof.
  intros Hl Hm. unfold numbered. rewrite fmap_app. apply StronglySorted_app_3; [done|by repeat constructor|].
  intros x y Hx ->%list_elem_of_singleton. rewrite Hm. pose proof (next_rowid_fresh (mg_id <$> l)) as Hf.
  rewrite Forall_forall in Hf. auto.
Qed.

Lemma has_conversation_iff id t : has_conversation id t = true <-> id ∈ cv_id <$> conversations t.
Proof.
  unfold has_conversation. rewrite existsb_elem, list_elem_of_fmap.
  split; intros (c & H1 & H2); exists c; [|subst]; rewrite ?String.eqb_eq in *; auto using String.eqb_refl.
Qed.

Record wf (enforced : bool) (t : ChatTables) : Prop := {
  wf_numbered : numbered (messages t);
  wf_ids : NoDup (cv_id <$> conversations t);
  wf_foreign : enforced = true -> Forall (fun m => mg_conv m ∈ cv_id <$> conversations t) (messages t);
}.

Section wellformed.
Context (enforced : bool).
Notation wf := (wf enforced).

Lemma wf_no_chats : wf no_chats.
Proof. split; [constructor..|intros _; constructor]. Qed.

Lemma wf_new_conversation id title now t :
  has_conversation id t = false -> wf t -> wf (new_conversation id title now t).
Proof.
  intros Hno [Hn Hi Hf]. split; [done| |]; unfold new_conversation; simpl; rewrite fmap_app; simpl.
  - apply NoDup_app. split_and!; [done| |by apply NoDup_singleton].
    intros x Hx ->%list_elem_of_singleton. apply has_conversation_iff in Hx. congruence.
  - intros He. eapply Forall_impl; [by apply Hf|]. intros m Hm. apply elem_of_app. by left.
Qed.

Lemma wf_insert_or_ignore id title now t : wf t -> wf (insert_or_ignore id title now t).
Proof.
  intros Ht. unfold insert_or_ignore. destruct (has_conversation id t) eqn:E; [done|].
  by apply wf_new_conversation.
Qed.

Lemma update_conversation_ids f id t :
  (forall c, cv_id (f c) = cv_id c) ->
  cv_id <$> conversations (update_conversation f id t) = cv_id <$> conversations t.
Proof.
  intros Hf. unfold update_conversation. simpl. rewrite <- list_fmap_compose. apply list_fmap_ext.
  intros i c _. simpl. by destruct (String.eqb (cv_id c) id).
Qed.

Lemma wf_update_conversation f id t :
  (forall c, cv_id (f c) = cv_id c) -> wf t -> wf (update_conversation f id t).
Proof. intros Hf [Hn Hi Hg]. by split; rewrite ?update_conversation_ids. Qed.

Lemma wf_insert_message conv m now t u t' :
  insert_message enforced conv m now t = Ok (u, t') -> wf t -> wf t'.
Proof.
  unfold insert_message. intros He [Hn Hi Hf].
  destruct (enforced && negb (has_conversation conv t)) eqn:E; [done|]. injection He as <- <-.
  split; simpl; [by apply numbered_snoc|done|].
  intros Hen. apply Forall_app. split; [auto|]. repeat constructor. simpl.
  apply has_conversation_iff. rewrite Hen in E. simpl in E. by apply negb_false_iff in E.
Qed.

Lemma wf_delete_messages p t : wf t -> wf (delete_messages p t).2.
Proof.
  intros [Hn Hi Hf]. unfold delete_messages. simpl. split; simpl; [by apply numbered_filter|done|].
  intros He. apply Forall_forall. intros m Hm. apply list_elem_of_filter in Hm as [_ Hm].
  pose proof (Hf He) as Hg. rewrite Forall_forall in Hg. auto.
Qed.

(** Dropping conversations is safe where no message is left behind. *)
Lemma wf_filter_conversations (P : Conversation -> Prop) `{!forall c, Decision (P c)} t :
  (forall m c, m ∈ messages t -> c ∈ conversations t -> cv_id c = mg_conv m -> P c) ->
  wf t -> wf (with_conversations (filter P (conversations t)) t).
Proof.
  intros HP [Hn Hi Hf]. split; simpl; [done| |].
  - eapply sublist_NoDup; [exact Hi|]. apply fmap_sublist. apply sublist_filter.
  - intros He. specialize (Hf He). rewrite Forall_forall in *. intros m Hm.
    pose proof (Hf m Hm) as (c & Heq & Hc)%list_elem_of_fmap. apply list_elem_of_fmap. exists c.
    split; [done|]. apply list_elem_of_filter. eauto.
Qed.

Lemma wf_drop_empty t : wf t -> wf (drop_empty t).
Proof.
  intros Ht. apply wf_filter_conversations; [|done]. intros m c Hm Hc Heq Hno.
  assert (m ∈ of_conv (cv_id c) t) as Hin by by apply list_elem_of_filter.
  rewrite Hno in Hin. by apply not_elem_of_nil in Hin.
Qed.

End wellformed.

(** ** Every operation, on a disk that may fail at any statement *)

Inductive store_op :=
| OpCreate (ts : N)
| OpEnsure (id title : string) (now : Z)
| OpAppend (conv_id : string) (m : BatchMessage) (now : Z)
| OpBatch (conv_id title : string) (l : list BatchMessage) (now : Z)
| OpPrune (retention_days : N) (max : nat) (now : Z)
| OpDelete (conv_id : string)
| OpClear.

Definition run_op (enforced : bool) (o : store_op) (c : Store) : Store :=
  match o with
  | OpCreate ts => (create ts c).2
  | OpEnsure id title now => (ensure id title now c).2
  | OpAppend conv_id m now => (append enforced conv_id m now c).2
  | OpBatch conv_id title l now => (ensure_and_append_batch enforced conv_id title l now c).2
  | OpPrune days max now => (prune_old_turns days max now c).2
  | OpDelete conv_id => (delete conv_id c).2
  | OpClear => (clear_all c).2
  end.

Section reachable.
Context (enforced : bool).
Notation wf := (wf enforced).

Lemma keeps_insert conv m now : keeps wf (statement (insert_message enforced conv m now)).
Proof. apply keeps_statement. intros t a t' Ht Hi. by eapply wf_insert_message. Qed.

Lemma keeps_title title now id : keeps wf (update (update_conversation (set_title title now) id)).
Proof. apply keeps_update. intros t. by apply wf_update_conversation. Qed.
Lemma keeps_updated now id : keeps wf (update (update_conversation (set_updated now) id)).
Proof. apply keeps_update. intros t. by apply wf_update_conversation. Qed.
Lemma keeps_ensure id title now : keeps wf (update (insert_or_ignore id title now)).
Proof. apply keeps_update. intros t. apply wf_insert_or_ignore. Qed.
Lemma keeps_delete p : keeps wf (update_count (delete_messages p)).
Proof. apply keeps_update_count. intros t. apply wf_delete_messages. Qed.
Lemma keeps_beyond max id : keeps wf (update_count (fun t => delete_messages (beyond_newest max id t) t)).
Proof. apply keeps_update_count. intros t. apply wf_delete_messages. Qed.
Lemma keeps_drop : keeps wf (update drop_empty).
Proof. apply keeps_update. intros t. apply wf_drop_empty. Qed.

#[local] Hint Resolve keeps_insert keeps_title keeps_updated keeps_ensure keeps_delete keeps_beyond keeps_drop : sql.

Ltac keep := repeat first
  [ apply keeps_transaction | apply keeps_ebind; [|intros] | case_match | solve [auto with sql] ].

Lemma keeps_append_messages conv now prior title l : keeps wf (append_messages enforced conv now prior title l).
Proof. revert prior title. induction l as [|m l IH]; intros prior title; simpl; keep. Qed.

Lemma keeps_trim_each max deleted ids : keeps wf (trim_each max deleted ids).
Proof. revert deleted. induction ids as [|id ids IH]; intros deleted; simpl; keep. Qed.

Lemma keeps_create ts : keeps wf (create ts).
Proof.
  unfold create. keep. apply keeps_statement. intros t a t' Ht.
  destruct (has_conversation _ t) eqn:E; [done|]. intros [= <- <-]. by apply wf_new_conversation.
Qed.

Lemma keeps_append conv m now : keeps wf (append enforced conv m now).
Proof. unfold append. keep. Qed.

Lemma keeps_batch conv title l now : keeps wf (ensure_and_append_batch enforced conv title l now).
Proof. unfold ensure_and_append_batch. keep. apply keeps_append_messages. Qed.

Lemma keeps_prune days max now : keeps wf (prune_old_turns days max now).
Proof. unfold prune_old_turns, prune_passes. keep. apply keeps_trim_each. Qed.

(** The conversation goes after its messages have gone. *)
Lemma keeps_delete_conversation conv : keeps wf (delete conv).
Proof.
  intros c Hc. unfold delete, ebind.
  destruct (update_count _ c) as [r c1] eqn:E1. apply statement_fate in E1 as [[Ht [e ->]]|(n & t & Hs & -> & Ht)].
  { simpl. by rewrite Ht. }
  injection Hs as Hs Hs'. subst t.
  assert (wf (tables c1)) as Hc1 by (rewrite Ht; by apply wf_delete_messages).
  destruct (update _ c1) as [r c2] eqn:E2. apply statement_fate in E2 as [[Ht2 _]|(n2 & t2 & Hs2 & _ & Ht2)]; simpl;
    [by rewrite Ht2|].
  injection Hs2 as _ Hs2. rewrite Ht2, <- Hs2. apply wf_filter_conversations; [|done].
  intros m c' Hm _ ->. rewrite Ht in Hm. apply list_elem_of_filter in Hm as [Hp _].
  by apply String.eqb_neq in Hp.
Qed.

Lemma keeps_clear_all : keeps wf clear_all.
Proof.
  intros c Hc. unfold clear_all, ebind.
  destruct (update _ c) as [r c1] eqn:E1. apply statement_fate in E1 as [[Ht [e ->]]|(n & t & Hs & -> & Ht)].
  { simpl. by rewrite Ht. }
  injection Hs as _ Hs. rewrite <- Hs in Ht.
  destruct (update _ c1) as [r c2] eqn:E2. apply statement_fate in E2 as [[Ht2 _]|(n2 & t2 & Hs2 & _ & Ht2)]; simpl.
  - rewrite Ht2, Ht. destruct Hc as [_ Hi _]. split; [constructor|done|intros _; constructor].
  - injection Hs2 as _ Hs2. rewrite Ht2, <- Hs2, Ht. split; [constructor|constructor|intros _; constructor].
Qed.

Lemma run_op_wf o c : wf (tables c) -> wf (tables (run_op enforced o c)).
Proof.
  destruct o; simpl; intros Hc;
    [by apply keeps_create|by apply keeps_ensure|by apply keeps_append|by apply keeps_batch|
     by apply keeps_prune|by apply keeps_delete_conversation|by apply keeps_clear_all].
Qed.

Lemma run_ops_wf ops c : wf (tables c) -> wf (tables (foldl (fun c o => run_op enforced o c) c ops)).
Proof. revert c. induction ops as [|o ops IH]; intros c Hc; simpl; [done|]. by apply IH, run_op_wf. Qed.

End reachable.

(** ** A batch and the appends it replaces *)

Section batch.
Context (enforced : bool) (conv : string) (now : Z).

Definition row_of (id : Z) (m : BatchMessage) : MessageRow :=
  {| mg_id := id; mg_conv := conv; mg_role := bm_role m; mg_content := bm_content m;
     mg_tool_name := bm_tool_name m; mg_ts_ms := now; mg_speaker := bm_speaker m |}.

Definition push (t : ChatTables) (m : BatchMessage) : ChatTables :=
  with_messages (messages t ++ [row_of (next_rowid (mg_id <$> messages t)) m]) t.
Definition pushes (t : ChatTables) (l : list BatchMessage) : ChatTables := foldl push t l.

Fixpoint rows_from (id : Z) (l : list BatchMessage) : list MessageRow :=
  match l with [] => [] | m :: l => row_of id m :: rows_from (id + 1) l end.

Lemma pushes_messages t l :
  messages (pushes t l) = messages t ++ rows_from (next_rowid (mg_id <$> messages t)) l.
Proof.
  revert t. induction l as [|m l IH]; intros t; simpl; [by rewrite app_nil_r|].
  unfold pushes in IH. rewrite IH. simpl. rewrite fmap_app. simpl. rewrite next_rowid_snoc.
  by rewrite <- app_assoc.
Qed.

Lemma pushes_conversations t l : conversations (pushes t l) = conversations t.
Proof. revert t. induction l as [|m l IH]; intros t; simpl; [done|]. unfold pushes in IH. by rewrite IH. Qed.

Lemma insert_message_ok m t :
  has_conversation conv t = true -> insert_message enforced conv m now t = Ok (tt, push t m).
Proof. unfold insert_message. intros ->. by rewrite andb_false_r. Qed.

Lemma user_count_push t m :
  user_count conv (push t m) = user_count conv t + (if String.eqb (bm_role m) "user" then 1 else 0).
Proof.
  unfold user_count, of_conv. simpl. rewrite !filter_app, length_app. f_equal.
  rewrite (filter_cons_True _ _ []) by done. rewrite filter_nil. simpl.
  destruct (String.eqb_spec (bm_role m) "user") as [Heq|Hne].
  - by rewrite filter_cons_True.
  - by rewrite filter_cons_False.
Qed.

(** What the loop remembers as the title. *)
Fixpoint pending (prior : nat) (title : option string) (l : list BatchMessage) : option string :=
  match l with
  | [] => title
  | m :: l =>
      let user := String.eqb (bm_role m) "user" in
      let prior := if user then S prior else prior in
      pending prior (if user && Nat.eqb prior 1 then Some (title_of (bm_content m)) else title) l
  end.

Lemma append_messages_quiet prior title l c :
  quiet c -> has_conversation conv (tables c) = true ->
  append_messages enforced conv now prior title l c =
    (Ok (pending prior title l), set_tables (pushes (tables c) l) c).
Proof.
  revert prior title c. induction l as [|m l IH]; intros prior title c Hq Hc; simpl; [by destruct c|].
  unfold ebind. rewrite statement_quiet, insert_message_ok by done. rewrite IH; done.
Qed.

(** What is left to do to the conversation once [l] is written. *)
Definition finish (title : option string) (l : list BatchMessage) : Conversation -> Conversation :=
  match title, l with
  | Some s, _ => set_title s now
  | None, [] => fun c => c
  | None, _ => set_updated now
  end.

Definition batch_tables (title : string) (l : list BatchMessage) (t : ChatTables) : ChatTables :=
  let t := insert_or_ignore conv title now t in
  update_conversation (finish (pending (user_count conv t) None l) l) conv (pushes t l).

Lemma update_conversation_id t : update_conversation (fun c => c) conv t = t.
Proof.
  unfold update_conversation, with_conversations. destruct t as [cs ms]. simpl. f_equal.
  rewrite <- (list_fmap_id cs) at 2. apply list_fmap_ext. intros i c _. simpl. by case_match.
Qed.

Lemma ensure_has title t : has_conversation conv (insert_or_ignore conv title now t) = true.
Proof.
  unfold insert_or_ignore. destruct (has_conversation conv t) eqn:E; [done|].
  apply has_conversation_iff. simpl. rewrite fmap_app. apply elem_of_app. right. by apply list_elem_of_singleton.
Qed.

Lemma batch_quiet title l c :
  quiet c -> ensure_and_append_batch enforced conv title l now c = (Ok tt, set_tables (batch_tables title l (tables c)) c).
Proof.
  intros Hq. unfold ensure_and_append_batch. apply transaction_quiet; [done| |done].
  unfold ebind. rewrite update_quiet by done. rewrite query_quiet by done. simpl.
  rewrite append_messages_quiet by (done || apply ensure_has). simpl.
  unfold batch_tables, finish. destruct (pending _ None l) as [s|]; [by rewrite update_quiet|].
  destruct l as [|m l]; [|by rewrite update_quiet]. simpl. rewrite update_conversation_id. by destruct c.
Qed.

Definition append_tables (t : ChatTables) (m : BatchMessage) : ChatTables :=
  let t := push t m in
  if Nat.eqb (user_count conv t) 1 && String.eqb (bm_role m) "user"
  then update_conversation (set_title (title_of (bm_content m)) now) conv t
  else update_conversation (set_updated now) conv t.

Lemma append_quiet m c :
  quiet c -> has_conversation conv (tables c) = true ->
  append enforced conv m now c = (Ok tt, set_tables (append_tables (tables c) m) c).
Proof.
  intros Hq Hc. unfold append, ebind. rewrite statement_quiet, insert_message_ok by done.
  rewrite query_quiet by done. simpl. unfold append_tables.
  destruct (_ && _); by rewrite update_quiet.
Qed.

End batch.

(** The code a batch replaced. *)
Fixpoint append_each (enforced : bool) (conv_id : string) (l : list BatchMessage) (now : Z)
    : M Store (result unit string) :=
  match l with
  | [] => ret (Ok tt)
  | m :: l => let!? _ := append enforced conv_id m now in append_each enforced conv_id l now
  end.

Section batch_facts.
Context (enforced : bool) (conv : string) (now : Z).

Lemma has_conversation_ids id t t' :
  cv_id <$> conversations t = cv_id <$> conversations t' -> has_conversation id t = has_conversation id t'.
Proof. intros Heq. apply eq_true_iff_eq. by rewrite !has_conversation_iff, Heq. Qed.

Lemma append_tables_has t m :
  has_conversation conv (append_tables conv now t m) = has_conversation conv t.
Proof.
  apply has_conversation_ids. unfold append_tables. by case_match; rewrite update_conversation_ids.
Qed.

Lemma append_each_quiet l c :
  quiet c -> has_conversation conv (tables c) = true ->
  append_each enforced conv l now c = (Ok tt, set_tables (foldl (append_tables conv now) (tables c) l) c).
Proof.
  revert c. induction l as [|m l IH]; intros c Hq Hc; simpl; [by destruct c|].
  unfold ebind. rewrite append_quiet by done. rewrite IH; [done|done|]. simpl. by rewrite append_tables_has.
Qed.

Lemma update_update f g t :
  (forall c, cv_id (f c) = cv_id c) ->
  update_conversation g conv (update_conversation f conv t) = update_conversation (fun c => g (f c)) conv t.
Proof.
  intros Hf. unfold update_conversation, with_conversations. simpl. f_equal.
  rewrite <- list_fmap_compose. apply list_fmap_ext. intros i c _. simpl.
  destruct (String.eqb (cv_id c) conv) eqn:E; rewrite ?Hf, E; done.
Qed.

Lemma update_ext f g t : (forall c, f c = g c) -> update_conversation f conv t = update_conversation g conv t.
Proof.
  intros Hfg. unfold update_conversation, with_conversations. f_equal. apply list_fmap_ext.
  intros i c _. by rewrite Hfg.
Qed.

Lemma finish_id title l c : cv_id (finish now title l c) = cv_id c.
Proof. by destruct title, l. Qed.

(** The appends keep the conversation as the batch will leave it. *)
Lemma appends_tables t l done_ title :
  foldl (append_tables conv now) (update_conversation (finish now title done_) conv t) l =
  update_conversation (finish now (pending (user_count conv t) title l) (done_ ++ l)) conv (pushes conv now t l).
Proof.
  revert t done_ title. induction l as [|m l IH]; intros t done_ title; simpl; [by rewrite app_nil_r|].
  assert ((if String.eqb (bm_role m) "user" then S (user_count conv t) else user_count conv t) =
          user_count conv (push conv now t m)) as ->.
  { rewrite user_count_push. destruct (String.eqb _ _); lia. }
  assert (append_tables conv now (update_conversation (finish now title done_) conv t) m =
    update_conversation (finish now
      (if String.eqb (bm_role m) "user" && Nat.eqb (user_count conv (push conv now t m)) 1
       then Some (title_of (bm_content m)) else title) (done_ ++ [m])) conv (push conv now t m)) as ->.
  { unfold append_tables.
    assert (push conv now (update_conversation (finish now title done_) conv t) m =
            update_conversation (finish now title done_) conv (push conv now t m)) as -> by done.
    assert (user_count conv (update_conversation (finish now title done_) conv (push conv now t m)) =
            user_count conv (push conv now t m)) as -> by done.
    rewrite andb_comm. destruct (_ && _) eqn:E; rewrite update_update by (intros; apply finish_id);
      apply update_ext; intros c; by destruct title, done_. }
  by rewrite IH, <- app_assoc.
Qed.

(** Writing a turn as one batch is writing it message by message.  From any tables, [ensure_and_append_batch] leaves exactly the rows, ids, titles and timestamps that [ensure] followed by one [append] per message at the same reading of the clock would leave. *)
Lemma batch_is_appends title l (c : Store) :
  quiet c ->
  ensure_and_append_batch enforced conv title l now c =
  (let!? _ := ensure conv title now in append_each enforced conv l now) c.
Proof.
  intros Hq. rewrite batch_quiet by done. unfold ebind, ensure. rewrite update_quiet by done.
  rewrite append_each_quiet by (done || apply ensure_has). simpl. unfold set_tables at 2. simpl.
  do 2 f_equal. unfold batch_tables. rewrite <- (appends_tables _ l [] None). simpl. by rewrite update_conversation_id.
Qed.

End batch_facts.

(** ** Reading back *)

Definition said (m : BatchMessage) : StoredMessage :=
  {| sm_role := bm_role m; sm_content := bm_content m; sm_speaker := bm_speaker m |}.

Definition title_in (conv : string) (t : ChatTables) : option string :=
  cv_title <$> find_conversation conv t.

Definition first_user (l : list BatchMessage) : option BatchMessage :=
  find (fun m => String.eqb (bm_role m) "user") l.

Section reading.
Context (conv : string) (now : Z).

Lemma rows_from_conv id l : Forall (fun m => mg_conv m = conv /\ mg_ts_ms m = now /\ id <= mg_id m)%Z (rows_from conv now id l).
Proof.
  revert id. induction l as [|m l IH]; intros id; simpl; [constructor|]. constructor; [done|].
  eapply Forall_impl; [apply IH|]. simpl. intros x (? & ? & ?). split_and!; [done..|lia].
Qed.

Lemma rows_from_sorted id l : StronglySorted earlier (rows_from conv now id l).
Proof.
  revert id. induction l as [|m l IH]; intros id; simpl; [constructor|]. constructor; [done|].
  eapply Forall_impl; [apply rows_from_conv|]. simpl. intros x (_ & Hts & Hid). unfold earlier. simpl. lia.
Qed.

Lemma stored_rows id l : stored <$> rows_from conv now id l = said <$> l.
Proof. revert id. induction l as [|m l IH]; intros id; [done|]. change (rows_from conv now id (m :: l)) with (row_of conv now id m :: rows_from conv now (id + 1) l). by rewrite !fmap_cons, IH. Qed.

Lemma of_conv_pushes t l :
  of_conv conv (pushes conv now t l) =
  of_conv conv t ++ rows_from conv now (next_rowid (mg_id <$> messages t)) l.
Proof.
  unfold of_conv. rewrite pushes_messages, filter_app. f_equal. apply filter_all.
  eapply Forall_impl; [apply rows_from_conv|]. simpl. tauto.
Qed.

Lemma of_other_pushes t l other :
  other <> conv -> of_conv other (pushes conv now t l) = of_conv other t.
Proof.
  intros Hne. unfold of_conv. rewrite pushes_messages, filter_app.
  assert (filter (fun m => mg_conv m = other) (rows_from conv now (next_rowid (mg_id <$> messages t)) l) = []) as ->.
  { pose proof (rows_from_conv (next_rowid (mg_id <$> messages t)) l) as Hr.
    induction Hr as [|m k (Hm & _) Hr IH]; [done|]. by rewrite filter_cons_False, IH by congruence. }
  apply app_nil_r.
Qed.

Lemma numbered_pushes t l : numbered (messages t) -> numbered (messages (pushes conv now t l)).
Proof.
  revert t. induction l as [|m l IH]; intros t Ht; simpl; [done|]. apply IH. by apply numbered_snoc.
Qed.

(** Messages stamped no earlier than those of the chat come after them. *)
Lemma chat_pushes t l :
  numbered (messages t) -> Forall (fun m => mg_conv m = conv -> mg_ts_ms m <= now)%Z (messages t) ->
  chat conv (pushes conv now t l) = chat conv t ++ (said <$> l).
Proof.
  intros Hn Hts. unfold chat. rewrite of_conv_pushes, order_snoc.
  - by rewrite fmap_app, stored_rows.
  - rewrite <- of_conv_pushes. apply numbered_filter. by apply numbered_pushes.
  - intros x y Hx Hy. apply list_elem_of_filter in Hx as [Hc Hx].
    pose proof (rows_from_conv (next_rowid (mg_id <$> messages t)) l) as Hr.
    rewrite Forall_forall in Hr, Hts. destruct (Hr y Hy) as (_ & -> & _). auto.
  - apply rows_from_sorted.
Qed.

Lemma pending_spec prior title l :
  pending prior title l =
  match prior, first_user l with
  | O, Some m => Some (title_of (bm_content m))
  | _, _ => title
  end.
Proof.
  revert prior title. induction l as [|m l IH]; intros prior title; simpl; [by destruct prior|].
  unfold first_user in *. simpl. rewrite IH.
  destruct (String.eqb (bm_role m) "user"); simpl; [by destruct prior|done].
Qed.

End reading.

(** A prefix cut at 57 bytes never splits a character. *)
Lemma boundary_at_most_spec text n :
  boundary_at_most text n <= n /\ is_char_boundary text (boundary_at_most text n) = true.
Proof.
  induction n as [|n IH]; [done|]. change (boundary_at_most text (S n))
    with (if is_char_boundary text (S n) then S n else boundary_at_most text n).
  destruct (is_char_boundary text (S n)) eqn:E; [by split; [lia|]|]. destruct IH. split; [lia|done].
Qed.

Lemma length_substring s n m : String.length (String.substring m n s) <= n.
Proof.
  revert n m. induction s as [|a s IH]; intros n m; simpl; [destruct n, m; simpl; lia|].
  destruct m as [|m]; [|apply IH]. destruct n as [|n]; simpl; [lia|]. specialize (IH n 0). lia.
Qed.

Lemma title_of_short content : String.length (title_of content) <= 60.
Proof.
  unfold title_of. destruct (Nat.ltb_spec 60 (String.length content)); [|lia].
  rewrite length_sapp. simpl. unfold truncate_at_char_boundary.
  destruct (Nat.leb_spec (String.length content) 57); [lia|].
  pose proof (length_substring content (boundary_at_most content 57) 0).
  pose proof (boundary_at_most_spec content 57) as [? _]. lia.
Qed.

Lemma find_update f id t :
  (forall c, cv_id (f c) = cv_id c) ->
  find_conversation id (update_conversation f id t) = f <$> find_conversation id t.
Proof.
  intros Hf. unfold find_conversation, update_conversation. simpl.
  induction (conversations t) as [|c cs IH]; [done|]. simpl.
  destruct (String.eqb (cv_id c) id) eqn:E; [by rewrite Hf, E|by rewrite E].
Qed.

Lemma find_insert_or_ignore id title now t :
  find_conversation id (insert_or_ignore id title now t) =
  match find_conversation id t with
  | Some c => Some c
  | None => Some {| cv_id := id; cv_title := title; created_ms := now; updated_ms := now |}
  end.
Proof.
  unfold insert_or_ignore, has_conversation, find_conversation.
  induction (conversations t) as [|c cs IH] eqn:E in t |- *; simpl.
  - unfold new_conversation. simpl. rewrite E. simpl. by rewrite String.eqb_refl.
  - destruct (String.eqb (cv_id c) id) eqn:Ec; simpl; [by rewrite E; simpl; rewrite Ec|].
    specialize (IH {| conversations := cs; messages := messages t |} eq_refl). simpl in IH.
    destruct (existsb _ cs); simpl in *; rewrite E; simpl; by rewrite Ec.
Qed.

Section readback.
Context (enforced : bool).

Lemma chat_update f id other t : chat other (update_conversation f id t) = chat other t.
Proof. done. Qed.

Lemma chat_insert id title now other t : chat other (insert_or_ignore id title now t) = chat other t.
Proof. unfold insert_or_ignore. by destruct (has_conversation id t). Qed.

Lemma messages_insert id title now t : messages (insert_or_ignore id title now t) = messages t.
Proof. unfold insert_or_ignore. by destruct (has_conversation id t). Qed.

Lemma unharmed_batch conv title l now : unharmed (ensure_and_append_batch enforced conv title l now).
Proof.
  apply unharmed_transaction. apply unharmed_ebind; [auto with sql|intros _].
  apply unharmed_ebind; [auto with sql|intros prior]. apply unharmed_ebind.
  - generalize (@None string) as p. revert prior.
    induction l as [|m l IH]; intros prior p; simpl; [auto with sql|].
    apply unharmed_ebind; [auto with sql|intros _; apply IH].
  - intros [s|]; [auto with sql|]. destruct l; auto with sql.
Qed.

Lemma batch_outcome conv title l now (c : Store) r c' :
  ensure_and_append_batch enforced conv title l now c = (r, c') ->
  tables c' = match r with Ok _ => batch_tables conv now title l (tables c) | Err _ => tables c end.
Proof.
  destruct r as [u|e]; intros He.
  - apply unharmed_batch in He. rewrite batch_quiet in He by done. injection He as _ He.
    by rewrite <- He.
  - by apply transaction_err in He.
Qed.

(** C32: a turn is kept whole or not at all, and reads back.  In a store reached by any operations on a disk that fails at any statements, writing a batch of messages at a time no earlier than the chat's messages either reports an error and leaves every table as it was, or appends exactly the batch, in order, to what reading the chat gives, and to the end of what the model is shown of it; it leaves every other chat as it was, and the chat's title changes only when the batch holds its first message of a user, to that message cut to at most 60 bytes. *)
Theorem batch_reads_back ops fs conv title l now r c' :
  let c := foldl (fun c o => run_op enforced o c) {| tables := no_chats; faults := fs |} ops in
  Forall (fun m => mg_conv m = conv -> mg_ts_ms m <= now)%Z (messages (tables c)) ->
  ensure_and_append_batch enforced conv title l now c = (r, c') ->
  match r with
  | Err _ => tables c' = tables c
  | Ok _ =>
      (get_messages conv (calm c')).1 = Ok (chat conv (tables c) ++ (said <$> l)) /\
      (forall n, (get_recent conv n (calm c')).1 =
         Ok ((fun m => {| role := sm_role m; content := sm_content m |}) <$>
             last_n n (chat conv (tables c) ++ (said <$> l)))) /\
      (forall other, other <> conv -> chat other (tables c') = chat other (tables c)) /\
      title_in conv (tables c') =
        Some (match user_count conv (tables c), first_user l with
              | O, Some m => title_of (bm_content m)
              | _, _ => default title (title_in conv (tables c))
              end) /\
      (forall m, String.length (title_of m) <= 60)
  end.
Proof.
  intros c Hts He. apply batch_outcome in He. destruct r as [u|e]; [|done].
  assert (wf enforced (tables c)) as Hwf by (apply run_ops_wf, wf_no_chats).
  set (t := tables c) in *. set (t0 := insert_or_ignore conv title now t) in *.
  assert (chat conv (tables c') = chat conv t ++ (said <$> l)) as Hchat.
  { rewrite He. unfold batch_tables. fold t0. rewrite chat_update, chat_pushes.
    - unfold t0. by rewrite chat_insert.
    - unfold t0. rewrite messages_insert. by apply Hwf.
    - unfold t0. by rewrite messages_insert. }
  split_and!.
  - unfold get_messages. rewrite query_quiet by apply calm_quiet. simpl. by rewrite Hchat.
  - intros n. unfold get_recent. rewrite query_quiet by apply calm_quiet. simpl. do 2 f_equal.
    unfold newest. rewrite order_newest.
    + rewrite <- Hchat. unfold chat, last_n. rewrite length_fmap, <- fmap_drop, <- list_fmap_compose. done.
    + apply numbered_filter. rewrite He. unfold batch_tables. simpl. apply numbered_pushes.
      rewrite messages_insert. by apply Hwf.
  - intros other Hne. rewrite He. unfold batch_tables. rewrite chat_update. unfold chat.
    rewrite of_other_pushes by done. apply chat_insert.
  - rewrite He. unfold batch_tables, title_in. fold t0.
    rewrite find_update by (intros; apply finish_id).
    assert (find_conversation conv (pushes conv now t0 l) = find_conversation conv t0) as ->.
    { unfold find_conversation. by rewrite pushes_conversations. }
    unfold t0 at 2. rewrite find_insert_or_ignore, pending_spec.
    assert (user_count conv t0 = user_count conv t) as ->.
    { unfold user_count, of_conv, t0. by rewrite messages_insert. }
    destruct (user_count conv t), (first_user l), (find_conversation conv t); simpl; try done; by destruct l.
  - apply title_of_short.
Qed.

End readback.

(** ** Pruning *)

(** A chat's rows in the order of reading. *)
Definition rows (conv : string) (t : ChatTables) : list MessageRow := order_by earlier (of_conv conv t).

Lemma StronglySorted_filter {A} (R : A -> A -> Prop) (P : A -> Prop) `{!forall x, Decision (P x)} l :
  StronglySorted R l -> StronglySorted R (filter P l).
Proof.
  induction 1 as [|x l Hl IH Hx]; [constructor|]. rewrite filter_cons. case_decide; [|done].
  constructor; [done|]. rewrite Forall_forall in *. intros y Hy. apply list_elem_of_filter in Hy as [_ Hy]. auto.
Qed.

Lemma order_filter (P : MessageRow -> Prop) `{!forall x, Decision (P x)} l :
  numbered l -> order_by earlier (filter P l) = filter P (order_by earlier l).
Proof.
  intros Hl. apply order_sorted; [by apply numbered_filter|by rewrite order_by_perm|].
  apply StronglySorted_filter, order_by_sorted; apply _.
Qed.

Lemma of_conv_delete p conv t :
  of_conv conv (delete_messages p t).2 = filter (fun m => p m = false) (of_conv conv t).
Proof.
  unfold of_conv, delete_messages. simpl. rewrite !list_filter_filter.
  apply list_filter_iff. intros m. tauto.
Qed.

Lemma rows_delete p conv t :
  numbered (messages t) -> rows conv (delete_messages p t).2 = filter (fun m => p m = false) (rows conv t).
Proof. intros Ht. unfold rows. rewrite of_conv_delete. apply order_filter. by apply numbered_filter. Qed.

Lemma numbered_delete p t : numbered (messages t) -> numbered (messages (delete_messages p t).2).
Proof. apply numbered_filter. Qed.

Lemma delete_count p t : (delete_messages p t).1 = length (messages t) - length (messages (delete_messages p t).2).
Proof. done. Qed.

Lemma delete_shrinks p t : length (messages (delete_messages p t).2) <= length (messages t).
Proof. apply length_filter. Qed.

(** Of a chat that is trimmed, the end is left. *)
Lemma filter_last_n n (l : list MessageRow) (keep : MessageRow -> Prop) `{!forall x, Decision (keep x)} :
  (forall x, x ∈ take (length l - n) l -> ~ keep x) -> (forall x, x ∈ last_n n l -> keep x) ->
  filter keep l = last_n n l.
Proof.
  intros Hno Hyes. unfold last_n in *. rewrite <- (take_drop (length l - n) l) at 1. rewrite filter_app.
  rewrite (filter_all keep (drop _ l)) by (by apply Forall_forall).
  assert (forall k, (forall x, x ∈ k -> ~ keep x) -> filter keep k = []) as Hk.
  { intros k Hk. induction k as [|x k IH]; [done|]. rewrite filter_cons_False by (apply Hk; by left).
    apply IH. intros y Hy. apply Hk. by right. }
  by rewrite Hk.
Qed.

Lemma rows_trim max conv t :
  numbered (messages t) -> rows conv (delete_messages (beyond_newest max conv t) t).2 = last_n max (rows conv t).
Proof.
  intros Ht. rewrite rows_delete by done.
  assert (numbered (of_conv conv t)) as Hn by by apply numbered_filter.
  assert (NoDup (rows conv t)) as Hnd.
  { unfold rows. rewrite order_by_perm. apply (NoDup_fmap_1 mg_id). clear -Hn. unfold numbered in Hn.
    induction Hn as [|x l Hl IH Hx]; constructor; [|done]. intros Hin. rewrite Forall_forall in Hx.
    specialize (Hx x Hin). lia. }
  assert (newest max conv t = reverse (last_n max (rows conv t))) as Hnew.
  { unfold newest. rewrite order_later, take_reverse by done. done. }
  assert (forall x, x ∈ rows conv t -> (x ∈ last_n max (rows conv t) <-> beyond_newest max conv t x = false)) as Hin.
  { intros x Hx. pose proof Hx as Hr. unfold beyond_newest. unfold rows in Hx. rewrite order_by_perm in Hx.
    pose proof Hx as Hx'. apply list_elem_of_filter in Hx' as [Hc _]. rewrite Hc, String.eqb_refl. simpl.
    rewrite negb_false_iff, existsb_elem, Hnew. split.
    - intros Hl. exists (mg_id x). split; [|apply Z.eqb_refl]. apply list_elem_of_fmap. exists x.
      by rewrite elem_of_reverse.
    - intros (i & Hi & <-%Z.eqb_eq). apply list_elem_of_fmap in Hi as (y & Heq & Hy).
      rewrite elem_of_reverse in Hy.
      enough (x = y) as -> by done. apply (numbered_inj (of_conv conv t)); [done..| |done].
      rewrite <- (order_by_perm earlier). eapply elem_of_suffix; [exact Hy|apply last_n_suffix]. }
  rewrite <- (take_drop (length (rows conv t) - max) (rows conv t)) in Hnd at 1.
  apply NoDup_app in Hnd as (_ & Hnd & _).
  apply filter_last_n.
  - intros x Hx Hk. apply (Hnd x Hx). apply Hin; [|done].
    rewrite <- (take_drop (length (rows conv t) - max)). apply elem_of_app. by left.
  - intros x Hx. apply Hin; [|done]. eapply elem_of_suffix; [done|apply last_n_suffix].
Qed.

Lemma rows_trim_other max id conv t :
  numbered (messages t) -> conv <> id ->
  rows conv (delete_messages (beyond_newest max id t) t).2 = rows conv t.
Proof.
  intros Ht Hne. rewrite rows_delete by done. apply filter_all, Forall_forall. intros x Hx.
  unfold rows in Hx. rewrite order_by_perm in Hx. apply list_elem_of_filter in Hx as [Hc _].
  unfold beyond_newest. rewrite Hc. apply String.eqb_neq in Hne. by rewrite Hne.
Qed.

Definition trim_tables (max : nat) (ids : list string) (t : ChatTables) : ChatTables :=
  foldl (fun t id => (delete_messages (beyond_newest max id t) t).2) t ids.

Lemma numbered_trim max ids t : numbered (messages t) -> numbered (messages (trim_tables max ids t)).
Proof. revert t. induction ids as [|id ids IH]; intros t Ht; [done|]. apply IH, numbered_delete, Ht. Qed.

Lemma trim_shrinks max ids t : length (messages (trim_tables max ids t)) <= length (messages t).
Proof.
  revert t. induction ids as [|id ids IH]; intros t; [done|]. simpl. unfold trim_tables in IH.
  etransitivity; [apply IH|apply delete_shrinks].
Qed.

Lemma trim_each_quiet max deleted ids c :
  quiet c ->
  trim_each max deleted ids c =
    (Ok (deleted + (length (messages (tables c)) - length (messages (trim_tables max ids (tables c))))),
     set_tables (trim_tables max ids (tables c)) c).
Proof.
  revert deleted c. induction ids as [|id ids IH]; intros deleted c Hq; simpl.
  - rewrite Nat.sub_diag, Nat.add_0_r. by destruct c.
  - unfold ebind. rewrite update_count_quiet by done. rewrite IH by done. simpl tables.
    do 2 f_equal. rewrite delete_count.
    pose proof (trim_shrinks max ids (delete_messages (beyond_newest max id (tables c)) (tables c)).2) as H1.
    pose proof (delete_shrinks (beyond_newest max id (tables c)) (tables c)) as H2.
    unfold trim_tables in *. simpl in *. lia.
Qed.

Lemma last_n_twice n {A} (l : list A) : last_n n (last_n n l) = last_n n l.
Proof. apply last_n_all. rewrite length_last_n. lia. Qed.

Lemma rows_trim_tables max ids conv t :
  numbered (messages t) ->
  rows conv (trim_tables max ids t) = (if decide (conv ∈ ids) then last_n max (rows conv t) else rows conv t).
Proof.
  revert t. induction ids as [|id ids IH]; intros t Ht; [by rewrite decide_False by apply not_elem_of_nil|].
  change (trim_tables max (id :: ids) t)
    with (trim_tables max ids (delete_messages (beyond_newest max id t) t).2).
  rewrite IH by by apply numbered_delete.
  destruct (decide (conv = id)) as [->|Hne].
  - rewrite rows_trim by done. rewrite (decide_True (P := id ∈ id :: ids)) by by left.
    case_decide; [apply last_n_twice|done].
  - rewrite rows_trim_other by done. repeat case_decide; set_solver.
Qed.

Definition expired (retention_days : N) (now : Z) (m : MessageRow) : Prop :=
  (0 < retention_days)%N /\ (mg_ts_ms m < now - Z.of_N retention_days * 86400000)%Z.
#[export] Instance expired_dec days now m : Decision (expired days now m).
Proof. unfold expired. apply _. Defined.

Definition aged (retention_days : N) (now : Z) (t : ChatTables) : ChatTables :=
  if (0 <? retention_days)%N
  then drop_empty (delete_messages
         (fun m => Z.ltb (mg_ts_ms m) (now - Z.of_N retention_days * 86400000)) t).2
  else t.

Definition prune_tables (retention_days : N) (max : nat) (now : Z) (t : ChatTables) : ChatTables :=
  let t := aged retention_days now t in
  if Nat.ltb 0 max then trim_tables max (over_limit max t) t else t.

Lemma aged_shrinks days now t : length (messages (aged days now t)) <= length (messages t).
Proof. unfold aged. destruct (0 <? days)%N; [apply delete_shrinks|done]. Qed.

Lemma numbered_aged days now t : numbered (messages t) -> numbered (messages (aged days now t)).
Proof. unfold aged. destruct (0 <? days)%N; [apply numbered_delete|done]. Qed.

Lemma rows_aged days now conv t :
  numbered (messages t) ->
  rows conv (aged days now t) = filter (fun m => ~ expired days now m) (rows conv t).
Proof.
  intros Ht. unfold aged, expired. destruct (N.ltb_spec 0 days) as [Hd|Hd].
  - change (rows conv (drop_empty ?u)) with (rows conv u). rewrite rows_delete by done.
    apply list_filter_iff. intros m. rewrite Z.ltb_ge. lia.
  - rewrite filter_all; [done|]. apply Forall_forall. intros m _. lia.
Qed.

Lemma rows_length conv t : length (rows conv t) = length (of_conv conv t).
Proof. unfold rows. by rewrite order_by_perm. Qed.

Lemma rows_nil conv t : rows conv t = [] <-> of_conv conv t = [].
Proof. rewrite <- !length_zero_iff_nil, rows_length. done. Qed.

Lemma aged_conversations days now t :
  conversations (aged days now t) =
  filter (fun c => (0 < days)%N -> rows (cv_id c) (aged days now t) <> []) (conversations t).
Proof.
  unfold aged. destruct (N.ltb_spec 0 days) as [Hd|Hd].
  - unfold drop_empty at 1. simpl. apply list_filter_iff. intros c. rewrite rows_nil. split; auto.
  - rewrite filter_all; [done|]. apply Forall_forall. intros c _ ?. lia.
Qed.

Lemma rows_prune days max now conv t :
  numbered (messages t) -> has_conversation conv t = true ->
  rows conv (prune_tables days max now t) =
    let kept := filter (fun m => ~ expired days now m) (rows conv t) in
    if Nat.ltb 0 max then last_n max kept else kept.
Proof.
  intros Ht Hc. unfold prune_tables. destruct (Nat.ltb_spec 0 max) as [Hm|Hm]; [|by apply rows_aged].
  rewrite rows_trim_tables by by apply numbered_aged. rewrite <- rows_aged by done.
  case_decide as Hin; [done|]. symmetry. apply last_n_all. rewrite rows_length.
  destruct (decide (length (of_conv conv (aged days now t)) <= max)) as [|Hover]; [done|].
  exfalso. apply Hin. apply has_conversation_iff in Hc.
  apply list_elem_of_fmap in Hc as (c & -> & Hc). unfold over_limit. apply list_elem_of_fmap. exists c.
  split; [done|]. apply list_elem_of_filter. split; [lia|]. rewrite aged_conversations.
  apply list_elem_of_filter. split; [|done]. intros _ Hnil. rewrite <- rows_length, Hnil in Hover. simpl in Hover. lia.
Qed.

Lemma trim_conversations max ids t : conversations (trim_tables max ids t) = conversations t.
Proof. revert t. induction ids as [|id ids IH]; intros t; [done|].
  exact (IH (delete_messages (beyond_newest max id t) t).2). Qed.

Lemma filter_agree {A} (P Q : A -> Prop) `{!forall x, Decision (P x), !forall x, Decision (Q x)} (l : list A) :
  (forall x, x ∈ l -> (P x <-> Q x)) -> filter P l = filter Q l.
Proof.
  induction l as [|x l IH]; intros Heq; [done|].
  rewrite !filter_cons, IH by (intros y Hy; apply Heq; by right).
  specialize (Heq x ltac:(by left)). repeat case_decide; tauto.
Qed.

Lemma prune_conversations days max now t :
  numbered (messages t) ->
  conversations (prune_tables days max now t) =
  filter (fun c => (0 < days)%N -> rows (cv_id c) (prune_tables days max now t) <> []) (conversations t).
Proof.
  intros Ht.
  assert (conversations (prune_tables days max now t) = conversations (aged days now t)) as ->.
  { unfold prune_tables. destruct (Nat.ltb 0 max); [apply trim_conversations|done]. }
  rewrite aged_conversations. apply filter_agree. intros c Hc.
  assert (has_conversation (cv_id c) t = true) as Hh by (apply has_conversation_iff; by apply list_elem_of_fmap_2).
  rewrite rows_prune, rows_aged by done. simpl. destruct (Nat.ltb_spec 0 max) as [Hm|Hm]; [|done].
  rewrite <- !length_zero_iff_nil, length_last_n. split; intros Hne Hd; specialize (Hne Hd); lia.
Qed.

Section pruned.
Context (enforced : bool).

Lemma prune_transaction_quiet days max now (c : Store) :
  quiet c ->
  prune_old_turns days max now c =
    (Ok (length (messages (tables c)) - length (messages (prune_tables days max now (tables c)))),
     set_tables (prune_tables days max now (tables c)) c).
Proof.
  intros Hq. unfold prune_old_turns, ebind at 1.
  assert (exists n, (if (0 <? days)%N then
      let!? n := update_count (delete_messages (fun m => Z.ltb (mg_ts_ms m) (now - Z.of_N days * 86400000))) in
      let!? _ := update drop_empty in ret (Ok n) else ret (Ok 0)) c =
      (Ok n, set_tables (aged days now (tables c)) c) /\
      n = length (messages (tables c)) - length (messages (aged days now (tables c)))) as (n & Hn & Hlen).
  { unfold aged. destruct (0 <? days)%N.
    - unfold ebind. rewrite update_count_quiet by done. rewrite update_quiet by done. by eexists.
    - exists 0. rewrite Nat.sub_diag. by destruct c. }
  rewrite (transaction_quiet _ c
    (length (messages (tables c)) - length (messages (prune_tables days max now (tables c))))
    (set_tables (prune_tables days max now (tables c)) c)); [|done| |done].
  - unfold ebind. by rewrite query_quiet.
  - unfold prune_passes, ebind at 1. simpl in Hn |- *. rewrite Hn. unfold prune_tables. destruct (Nat.ltb 0 max).
    + unfold ebind. rewrite query_quiet by done. rewrite trim_each_quiet by done. simpl tables.
      do 2 f_equal. pose proof (aged_shrinks days now (tables c)).
      pose proof (trim_shrinks max (over_limit max (aged days now (tables c))) (aged days now (tables c))).
      simpl in *. lia.
    + by rewrite Hlen.
Qed.

End pruned.

Section pruning.
Context (enforced : bool).

Lemma unharmed_trim_each max n ids : unharmed (trim_each max n ids).
Proof.
  revert n. induction ids as [|id ids IH]; intros n; simpl; [auto with sql|].
  apply unharmed_ebind; [auto with sql|intros k; apply IH].
Qed.

Lemma unharmed_passes days max now : unharmed (transaction (prune_passes days max now)).
Proof.
  apply unharmed_transaction, unharmed_ebind.
  - destruct (0 <? days)%N; auto 6 with sql.
  - intros n. destruct (Nat.ltb 0 max); [|auto with sql]. apply unharmed_ebind; [auto with sql|intros ids].
    apply unharmed_trim_each.
Qed.

Lemma unharmed_prune days max now : unharmed (prune_old_turns days max now).
Proof.
  apply unharmed_ebind; [apply unharmed_passes|intros n].
  apply unharmed_ebind; [auto with sql|intros _; auto with sql].
Qed.

(** The checkpoint after the transaction is the only step that can still fail. *)
Lemma prune_outcome days max now (c : Store) r c' :
  prune_old_turns days max now c = (r, c') ->
  match r with
  | Ok n => tables c' = prune_tables days max now (tables c) /\
            n = length (messages (tables c)) - length (messages (tables c'))
  | Err _ => tables c' = tables c \/ tables c' = prune_tables days max now (tables c)
  end.
Proof.
  destruct r as [n|e]; intros Hp.
  { apply unharmed_prune in Hp. rewrite prune_transaction_quiet in Hp by done.
    injection Hp as Hn Ht. rewrite <- Ht. by split. }
  unfold prune_old_turns, ebind at 1 in Hp.
  destruct (transaction _ c) as [[n|e'] c1] eqn:Et.
  - right. unfold ebind in Hp. destruct (query (fun _ => tt) c1) as [q c2] eqn:Eq.
    assert (tables c2 = tables c1) as Hc2.
    { apply statement_fate in Eq as [[? _]|(a & t & [= <- <-] & _ & ?)]; done. }
    assert (c' = c2) as -> by (by destruct q; injection Hp).
    rewrite Hc2. apply unharmed_passes in Et.
    pose proof (prune_transaction_quiet days max now (calm c) (calm_quiet c)) as Hq.
    unfold prune_old_turns, ebind at 1 in Hq. rewrite Et in Hq. unfold ebind in Hq.
    rewrite query_quiet in Hq by done. injection Hq as _ Hq. by rewrite <- Hq.
  - left. injection Hp as _ <-. by apply transaction_err in Et.
Qed.

(** Pruning keeps exactly the recent end of every chat.  In a store reached by any operations on a disk that fails at any statements, [prune_old_turns] reports an error and has changed nothing or everything, or reports the number of messages removed; what it leaves of a listed chat is the messages younger than the retention time, the newest of them when there are more than the cap, and with a retention time exactly the conversations that still hold a message stay listed. *)
Lemma prune_keeps_the_recent ops fs days max now r c' :
  let c := foldl (fun c o => run_op enforced o c) {| tables := no_chats; faults := fs |} ops in
  prune_old_turns days max now c = (r, c') ->
  (is_ok r = false /\ tables c' = tables c) \/
  ((forall n, r = Ok n -> n = length (messages (tables c)) - length (messages (tables c'))) /\
   (forall conv, has_conversation conv (tables c) = true ->
      rows conv (tables c') =
        let young := filter (fun m => ~ expired days now m) (rows conv (tables c)) in
        if Nat.ltb 0 max then last_n max young else young) /\
   conversations (tables c') =
     filter (fun cv => (0 < days)%N -> rows (cv_id cv) (tables c') <> []) (conversations (tables c))).
Proof.
  intros c Hp. apply prune_outcome in Hp.
  assert (numbered (messages (tables c))) as Hn by (apply (wf_numbered enforced), run_ops_wf, wf_no_chats).
  assert ((is_ok r = false /\ tables c' = tables c) \/
          (forall n, r = Ok n -> n = length (messages (tables c)) - length (messages (tables c'))) /\
          tables c' = prune_tables days max now (tables c)) as [?|[Hr Ht]].
  { destruct r as [n|e]; [right; destruct Hp as [? ->]; split; [by intros ? [= <-]|done]|].
    destruct Hp as [?|?]; [by left|right; by split]. }
  - by left.
  - right. split_and!; [done| |]; rewrite Ht.
    + intros conv Hc. by apply rows_prune.
    + by apply prune_conversations.
Qed.

End pruning.

(** ** A concrete store *)

Definition user_says (text : string) : BatchMessage :=
  {| bm_role := "user"; bm_content := text; bm_tool_name := None; bm_speaker := Some "ana" |}.
Definition genie_says (text : string) : BatchMessage :=
  {| bm_role := "assistant"; bm_content := text; bm_tool_name := None; bm_speaker := None |}.

(** The fifth statement to come fails: the message of the first append is kept
    although the append reports an error. *)
Definition house_ops : list store_op :=
  [OpCreate 100; OpBatch "kitchen" "New conversation" [user_says "lights on"; genie_says "done"] 200;
   OpAppend "kitchen" (user_says "thanks") 300; OpBatch "hall" "Hall" [genie_says "hello"] 400].
Definition house_faults : list bool := repeat false 9 ++ [true].
Definition house : Store :=
  foldl (fun c o => run_op true o c) {| tables := no_chats; faults := house_faults |} house_ops.

Lemma batch_is_appends_witness :
  ensure_and_append_batch true "attic" "Attic" [genie_says "hi"; user_says "hello"] 500 (calm house) =
  (let!? _ := ensure "attic" "Attic" 500 in append_each true "attic" [genie_says "hi"; user_says "hello"] 500)
    (calm house) /\
  title_in "attic" (tables (ensure_and_append_batch true "attic" "Attic" [genie_says "hi"; user_says "hello"] 500
    (calm house)).2) = Some "hello".
Proof. split; [apply batch_is_appends; reflexivity|vm_compute; reflexivity]. Defined.

Lemma batch_reads_back_witness :
  exists c', ensure_and_append_batch true "kitchen" "x" [user_says "lights off"] 500 house = (Ok tt, c') /\
    (get_recent "kitchen" 2 (calm c')).1 =
      Ok [{| role := "user"; content := "thanks" |}; {| role := "user"; content := "lights off" |}] /\
    title_in "kitchen" (tables c') = Some "lights on".
Proof.
  destruct (ensure_and_append_batch true "kitchen" "x" [user_says "lights off"] 500 house) as [r c'] eqn:E.
  pose proof (batch_reads_back true house_ops house_faults "kitchen" "x" [user_says "lights off"] 500 r c') as H.
  specialize (H ltac:(vm_compute; repeat constructor; discriminate) E).
  assert (r = Ok tt) as -> by (apply (f_equal fst) in E; simpl fst in E; rewrite <- E; vm_compute; reflexivity).
  exists c'. split; [reflexivity|]. destruct H as (_ & Hrecent & _ & Htitle & _). split.
  - rewrite (Hrecent 2). vm_compute. reflexivity.
  - rewrite Htitle. vm_compute. reflexivity.
Defined.

Lemma prune_keeps_the_recent_witness :
  exists c', prune_old_turns 1 2 86400250 house = (Ok 2, c') /\
    sm_content <$> chat "kitchen" (tables c') = ["thanks"] /\
    cv_id <$> conversations (tables c') = ["kitchen"; "hall"].
Proof.
  destruct (prune_old_turns 1 2 86400250 house) as [r c'] eqn:E.
  pose proof (prune_keeps_the_recent true house_ops house_faults 1 2 86400250 r c' E) as H.
  assert (r = Ok 2) as -> by (apply (f_equal fst) in E; simpl fst in E; rewrite <- E; vm_compute; reflexivity).
  exists c'. destruct H as [[? _]|(_ & Hrows & Hconvs)]; [discriminate|]. split; [reflexivity|].
  pose proof (Hrows "kitchen" eq_refl) as Hk. pose proof (Hrows "hall" eq_refl) as Hh. split.
  - unfold chat. fold (rows "kitchen" (tables c')). rewrite Hk. vm_compute. reflexivity.
  - apply (f_equal snd) in E. simpl in E. rewrite <- E. vm_compute. reflexivity.
Defined.
