(* ===== verification/LlmProvider.v ===== *)
(** * Which model answers ([llm/provider.rs], [llm/local_provider.rs], config)

    The completion of a turn goes to the local model, or through the gate of
    the optional API provider.  The gate is checked when the configuration is
    loaded ([config.rs]), before a request is taken up ([server.rs]) and before
    every completion. *)

From S2P Require Import Prelude RustStr RustNum OriginAuth Redaction Conversations.
From Stdlib Require Import Ascii.
Local Open Scope string_scope.
Local Open Scope list_scope.
Local Open Scope rust_scope.

(** ** Configuration *)

Module AuthMode.
Inductive t : Set := ApiKey | OAuthBearer.
End AuthMode.

Module ProviderKind.
Inductive t : Set := OpenAiCompatible | OpenAi | Anthropic | Gemini | Custom.
End ProviderKind.

Record OptionalAiProviderConfig := {
  ap_enabled : bool;
  ap_provider : ProviderKind.t;
  ap_auth_mode : AuthMode.t;
  ap_base_url : string;
  ap_model : string;
  ap_api_key_env : string;
  ap_oauth_token_env : string;
  ap_context_window_tokens : N;
  allow_remote_base_url : bool;
}.

(** Of [AgentConfig], what the gate reads. *)
Record AgentConfig := { agent_context_window_tokens : N }.

(** The check of [config.rs]: its own copy of the one in [sandbox.rs]. *)
Definition authority_host (authority : string) : string :=
  match strip_prefix authority "[" with
  | Some rest =>
      match split_once rest "]" with
      | Some (inner, _) => "[" +:+ inner +:+ "]"
      | None => authority
      end
  | None => first_piece authority ":"
  end.

Definition is_remote_url (url : string) : bool :=
  let url := trim url in
  if is_empty url then false
  else
    let stripped :=
      match strip_prefix url "http://" with
      | Some s => s
      | None => default url (strip_prefix url "https://")
      end in
    negb (is_loopback_host (authority_host (rsplit_at (first_piece stripped "/")))).

Definition is_local_url (url : string) : bool := negb (is_remote_url url).

Definition credential_env (mode : AuthMode.t) (api_key_env oauth_token_env : string) : string :=
  match mode with AuthMode.ApiKey => api_key_env | AuthMode.OAuthBearer => oauth_token_env end.
Definition config_credential_env (c : OptionalAiProviderConfig) : string :=
  credential_env (ap_auth_mode c) (ap_api_key_env c) (ap_oauth_token_env c).

(** [std::env::var]: the variable, if it is set to text. *)
Definition Environment := string -> option string.

Definition load_reasons (c : OptionalAiProviderConfig) (agent : AgentConfig) : list string :=
  (if (agent_context_window_tokens agent <? ap_context_window_tokens c)%N
   then ["[optional_ai_provider].context_window_tokens exceeds [agent].context_window_tokens"] else []) ++
  (if is_empty (trim (config_credential_env c))
   then [match ap_auth_mode c with
         | AuthMode.ApiKey => "[optional_ai_provider].api_key_env must be set when auth_mode = api_key"
         | AuthMode.OAuthBearer =>
             "[optional_ai_provider].oauth_token_env must be set when auth_mode = oauth_bearer"
         end] else []) ++
  (if is_empty (trim (ap_base_url c))
   then ["[optional_ai_provider].base_url must be set when enabled"] else []) ++
  (if is_empty (trim (ap_model c))
   then ["[optional_ai_provider].model must be set when enabled"] else []) ++
  (if is_remote_url (ap_base_url c) && negb (allow_remote_base_url c)
   then ["[optional_ai_provider].base_url is remote; set allow_remote_base_url = true to opt in"] else []).

Definition not_wired (kind : string) : string :=
  "[optional_ai_provider].provider = " +:+ dquote +:+ kind +:+ dquote +:+
  " is not wired yet; use open_ai_compatible".

Definition ensure_enabled_ready (c : OptionalAiProviderConfig) (agent : AgentConfig) (env_var : Environment)
    : result unit string :=
  if negb (ap_enabled c) then Ok tt
  else
    match load_reasons c agent with
    | _ :: _ => Err ("optional_ai_provider misconfigured: " +:+ join "; " (load_reasons c agent))
    | [] =>
        match ap_provider c with
        | ProviderKind.Anthropic => Err (not_wired "anthropic")
        | ProviderKind.Gemini => Err (not_wired "gemini")
        | ProviderKind.Custom => Err (not_wired "custom")
        | ProviderKind.OpenAiCompatible | ProviderKind.OpenAi =>
            let name := config_credential_env c in
            match env_var name with
            | Some value =>
                if is_empty (trim value)
                then Err ("optional_ai_provider enabled but environment variable " +:+ name +:+ " is empty")
                else Ok tt
            | None => Err ("optional_ai_provider enabled but environment variable " +:+ name +:+ " is not set")
            end
        end
    end.

(** ** The plan and its readiness *)

Record OptionalProviderPlan := {
  pl_provider : ProviderKind.t;
  pl_auth_mode : AuthMode.t;
  pl_base_url : string;
  pl_api_key_env : string;
  pl_oauth_token_env : string;
  pl_context_window_tokens : N;
  remote_allowed : bool;
}.

Inductive ProviderReadiness := Disabled | Ready | Blocked (reasons : list string).

Definition plan_from_config (c : OptionalAiProviderConfig) : option OptionalProviderPlan :=
  if negb (ap_enabled c) then None
  else Some {|
    pl_provider := ap_provider c; pl_auth_mode := ap_auth_mode c; pl_base_url := ap_base_url c;
    pl_api_key_env := ap_api_key_env c; pl_oauth_token_env := ap_oauth_token_env c;
    pl_context_window_tokens := ap_context_window_tokens c; remote_allowed := allow_remote_base_url c |}.

Definition plan_credential_env (p : OptionalProviderPlan) : string :=
  credential_env (pl_auth_mode p) (pl_api_key_env p) (pl_oauth_token_env p).

Definition remote_url (url : string) : bool :=
  let url := trim url in
  if is_empty url then false else negb (is_ok (validate_inference_route url)).

Definition by_mode (mode : AuthMode.t) (api_key oauth : string) : string :=
  match mode with AuthMode.ApiKey => api_key | AuthMode.OAuthBearer => oauth end.

Definition blocked_reasons (p : OptionalProviderPlan) (agent : AgentConfig) (env_var : Environment)
    : list string :=
  let mode := pl_auth_mode p in
  (if (agent_context_window_tokens agent <? pl_context_window_tokens p)%N
   then ["context_window_exceeds_agent_budget"] else []) ++
  (if is_empty (trim (plan_credential_env p))
   then [by_mode mode "missing_api_key_env" "missing_oauth_token_env"]
   else match env_var (plan_credential_env p) with
        | Some value =>
            if is_empty (trim value)
            then [by_mode mode "empty_api_key_env_value" "empty_oauth_token_env_value"] else []
        | None => [by_mode mode "api_key_env_unset" "oauth_token_env_unset"]
        end) ++
  (if is_empty (trim (pl_base_url p)) then ["missing_base_url"] else []) ++
  (if remote_url (pl_base_url p) && negb (remote_allowed p) then ["remote_base_url_not_allowed"] else []).

Definition readiness (p : OptionalProviderPlan) (agent : AgentConfig) (env_var : Environment)
    : ProviderReadiness :=
  match blocked_reasons p agent env_var with [] => Ready | reasons => Blocked reasons end.

Definition blocked_reason_message (reason : string) : string :=
  let known := [
    ("context_window_exceeds_agent_budget",
     "[optional_ai_provider].context_window_tokens exceeds [agent].context_window_tokens");
    ("missing_api_key_env", "[optional_ai_provider].api_key_env must be set when auth_mode = api_key");
    ("missing_oauth_token_env",
     "[optional_ai_provider].oauth_token_env must be set when auth_mode = oauth_bearer");
    ("api_key_env_unset", "optional_ai_provider enabled but api_key_env environment variable is not set");
    ("oauth_token_env_unset",
     "optional_ai_provider enabled but oauth_token_env environment variable is not set");
    ("empty_api_key_env_value", "optional_ai_provider enabled but api_key_env environment variable is empty");
    ("empty_oauth_token_env_value",
     "optional_ai_provider enabled but oauth_token_env environment variable is empty");
    ("missing_base_url", "[optional_ai_provider].base_url must be set when enabled");
    ("remote_base_url_not_allowed",
     "[optional_ai_provider].base_url is remote; set allow_remote_base_url = true to opt in")] in
  match find (fun kv => String.eqb kv.1 reason) known with Some kv => kv.2 | None => reason end.

Definition ensure_ready (p : OptionalProviderPlan) (agent : AgentConfig) (env_var : Environment)
    : result unit string :=
  match readiness p agent env_var with
  | Ready => Ok tt
  | Disabled => Err "optional AI provider plan is disabled"
  | Blocked reasons =>
      Err ("optional_ai_provider misconfigured: " +:+ join "; " (blocked_reason_message <$> reasons))
  end.

(** ** Completions *)

Record LlmRequestHints := {
  session_id_hint : option string;
  priority : option Z;
  output_sequence_length : option N;
  speculative_prefill : bool;
  cache_ttl_secs : option N;
}.

Definition agent_turn (session_id : string) (output_sequence_length : N) : LlmRequestHints := {|
  session_id_hint := Some session_id; priority := Some 50%Z;
  output_sequence_length := Some output_sequence_length; speculative_prefill := false;
  cache_ttl_secs := Some (15 * 60)%N |}.
Definition tool_summary (session_id : string) (output_sequence_length : N) : LlmRequestHints := {|
  session_id_hint := Some session_id; priority := Some 30%Z;
  output_sequence_length := Some output_sequence_length; speculative_prefill := false;
  cache_ttl_secs := Some (2 * 60)%N |}.

(** [Provider::complete], over a state. *)
Definition Completion (S : Type) : Type :=
  list Message -> option N -> option LlmRequestHints -> M S (result string string).

Inductive CompletionGate := LocalGate | OptionalApi (plan : OptionalProviderPlan).

Definition gate_for_http (c : OptionalAiProviderConfig) : CompletionGate :=
  match plan_from_config c with Some plan => OptionalApi plan | None => LocalGate end.

Definition gated_complete {S} (gate : CompletionGate) (agent : AgentConfig) (env_var : Environment)
    (inner : Completion S) : Completion S :=
  fun messages max_tokens hints =>
    match gate with
    | LocalGate => inner messages max_tokens hints
    | OptionalApi plan =>
        match ensure_ready plan agent env_var with
        | Err e => ret (Err e)
        | Ok _ => inner messages max_tokens hints
        end
    end.

(** The check of [server.rs] before a request is taken up. *)
Definition provider_gate_blocked_error (agent : AgentConfig) (c : OptionalAiProviderConfig)
    (env_var : Environment) : option string :=
  if negb (ap_enabled c) then None
  else
    plan ← plan_from_config c;
    match readiness plan agent env_var with
    | Blocked reasons => Some (join ", " reasons)
    | _ => None
    end.

(** ** The two checks of an endpoint agree *)

Lemma lower_digits s : sforall byte_is_digit (to_ascii_lowercase s) = sforall byte_is_digit s.
Proof.
  induction s as [|a s IH]; [done|]. unfold to_ascii_lowercase. cbn [smap sforall]. fold (to_ascii_lowercase s).
  rewrite IH. f_equal. apply eqb_prop.
  apply (byte_forall (fun a => Bool.eqb (byte_is_digit (byte_to_lower a)) (byte_is_digit a))). by vm_compute.
Qed.

Lemma digits_lower s : sforall byte_is_digit s = true -> to_ascii_lowercase s = s.
Proof.
  intros H. apply smap_id. eapply sforall_impl; [|exact H].
  apply (byte_forall2 byte_is_digit (fun a => Ascii.eqb (byte_to_lower a) a)). by vm_compute.
Qed.

Lemma lower_parse_octet s : parse_octet (to_ascii_lowercase s) = parse_octet s.
Proof.
  unfold parse_octet. rewrite lower_digits. destruct (sforall byte_is_digit s) eqn:Hs; [|done].
  by rewrite digits_lower.
Qed.

Lemma lower_parse_v4 s : parse_v4 (to_ascii_lowercase s) = parse_v4 s.
Proof.
  unfold parse_v4. rewrite lower_split_char by done.
  destruct (split_char s ".") as [|a [|b [|c [|d [|]]]]]; try done. cbn [fmap list_fmap].
  by rewrite !lower_parse_octet.
Qed.

Lemma lower_hex_value s acc : hex_value (to_ascii_lowercase s) acc = hex_value s acc.
Proof.
  revert acc. induction s as [|a s IH]; intros acc; [done|]. unfold to_ascii_lowercase.
  cbn [smap hex_value]. fold (to_ascii_lowercase s).
  assert (hex_digit_value (byte_to_lower a) = hex_digit_value a) as ->.
  { apply (bool_decide_unpack _).
    pose proof (byte_forall (fun a => bool_decide (hex_digit_value (byte_to_lower a) = hex_digit_value a))) as H.
    rewrite H; [done|by vm_compute]. }
  destruct (hex_digit_value a); [apply IH|done].
Qed.

Lemma lower_parse_segment s : parse_segment (to_ascii_lowercase s) = parse_segment s.
Proof. unfold parse_segment. by rewrite length_lower, lower_hex_value. Qed.

Lemma lower_parse_segments quad l : parse_segments quad (to_ascii_lowercase <$> l) = parse_segments quad l.
Proof.
  assert (forall s t l, parse_segments quad (s :: t :: l) =
    (n ← parse_segment s; l ← parse_segments quad (t :: l); Some (n :: l))) as Heq by done.
  induction l as [|s [|t l] IH]; [done| |].
  - change (to_ascii_lowercase <$> [s]) with [to_ascii_lowercase s]. cbn [parse_segments].
    by rewrite lower_parse_segment, lower_parse_v4.
  - rewrite Heq. do 2 rewrite fmap_cons. rewrite Heq, lower_parse_segment, <- IH. by rewrite fmap_cons.
Qed.

Lemma lower_segments_of s : segments_of (to_ascii_lowercase s) = to_ascii_lowercase <$> segments_of s.
Proof. unfold segments_of. destruct s as [|a s]; [done|]. 
  assert (is_empty (to_ascii_lowercase (String a s)) = false) as -> by done. cbn [is_empty].
  by apply lower_split_char.
Qed.

Lemma lower_parse_ip s : parse_ip (to_ascii_lowercase s) = parse_ip s.
Proof.
  unfold parse_ip. rewrite lower_parse_v4. destruct (parse_v4 s); [done|].
  unfold parse_v6. rewrite lower_split_once by done. destruct (split_once s "::") as [[h t]|]; cbn.
  - by rewrite !lower_segments_of, !lower_parse_segments.
  - by rewrite lower_segments_of, lower_parse_segments.
Qed.

Lemma lower_strip_prefix s p : caseless p = true ->
  strip_prefix (to_ascii_lowercase s) p = to_ascii_lowercase <$> strip_prefix s p.
Proof.
  intros Hp. unfold strip_prefix. rewrite lower_starts_with by done.
  destruct (starts_with s p); [|done]. cbn. by rewrite lower_sdrop.
Qed.

Lemma lower_strip_suffix s p : caseless p = true ->
  strip_suffix (to_ascii_lowercase s) p = to_ascii_lowercase <$> strip_suffix s p.
Proof.
  intros Hp. unfold strip_suffix. assert (ends_with (to_ascii_lowercase s) p = ends_with s p) as ->.
  { induction s as [|a s IH]; cbn [ends_with]; [done|].
    change (to_ascii_lowercase (String a s)) with (String (byte_to_lower a) (to_ascii_lowercase s)).
    cbn [ends_with]. rewrite IH.
    change (String (byte_to_lower a) (to_ascii_lowercase s)) with (to_ascii_lowercase (String a s)).
    by rewrite lower_seqb. }
  destruct (ends_with s p); [|done]. cbn. rewrite length_lower. f_equal.
  generalize (String.length s - String.length p). clear. induction s as [|a s IH]; intros [|n]; try done.
  cbn. unfold to_ascii_lowercase. cbn [smap]. f_equal. apply IH.
Qed.

Lemma lower_loopback host : is_loopback_host (to_ascii_lowercase host) = is_loopback_host host.
Proof.
  unfold is_loopback_host. rewrite lower_trim. generalize (trim host). clear host. intros host.
  destruct host as [|a host]; [done|]. set (h := String a host).
  assert (is_empty (to_ascii_lowercase h) = false) as -> by done. assert (is_empty h = false) as -> by done.
  assert (eq_ignore_ascii_case (to_ascii_lowercase h) "localhost" = eq_ignore_ascii_case h "localhost") as ->
    by (unfold eq_ignore_ascii_case; by rewrite lower_idem).
  destruct (eq_ignore_ascii_case h "localhost"); [done|].
  assert ((inner ← strip_prefix (to_ascii_lowercase h) "["; strip_suffix inner "]") =
          to_ascii_lowercase <$> (inner ← strip_prefix h "["; strip_suffix inner "]")) as ->.
  { rewrite lower_strip_prefix by done. destruct (strip_prefix h "["); [by apply lower_strip_suffix|done]. }
  destruct (inner ← strip_prefix h "["; strip_suffix inner "]"); [exact (f_equal (fun o => default false
    (std_is_loopback <$> o)) (lower_parse_ip _))|].
  exact (f_equal (fun o => default false (std_is_loopback <$> o)) (lower_parse_ip h)).
Qed.

Lemma extract_host_lower url :
  extract_host url = to_ascii_lowercase (authority_host (rsplit_at (first_piece
    (match strip_prefix (trim url) "http://" with
     | Some s => s
     | None => default (trim url) (strip_prefix (trim url) "https://")
     end) "/"))).
Proof. done. Qed.

Lemma remote_url_is_remote url : remote_url url = is_remote_url url.
Proof.
  unfold remote_url, is_remote_url, validate_inference_route. destruct (is_empty (trim url)); [done|].
  rewrite extract_host_lower, lower_loopback, trim_idem. by destruct (is_loopback_host _).
Qed.

Lemma if_nil {A} (b : bool) (x : A) l : (if b then [x] else []) ++ l = [] <-> b = false /\ l = [].
Proof. destruct b; cbn; naive_solver. Qed.

Lemma if_nil_end {A} (b : bool) (x : A) : (if b then [x] else []) = [] <-> b = false.
Proof. destruct b; cbn; naive_solver. Qed.

(** The credential variable is named and holds text. *)
Definition has_credential (name : string) (env_var : Environment) : bool :=
  negb (is_empty (trim name)) &&
  match env_var name with Some value => negb (is_empty (trim value)) | None => false end.

Lemma blocked_reasons_nil p agent env_var :
  blocked_reasons p agent env_var = [] <->
  (pl_context_window_tokens p <= agent_context_window_tokens agent)%N /\
  has_credential (plan_credential_env p) env_var = true /\
  is_empty (trim (pl_base_url p)) = false /\ remote_url (pl_base_url p) && negb (remote_allowed p) = false.
Proof.
  unfold blocked_reasons. rewrite if_nil, app_nil, if_nil, if_nil_end, N.ltb_ge. unfold has_credential.
  destruct (is_empty (trim (plan_credential_env p))); cbn; [naive_solver|].
  destruct (env_var _) as [v|]; [|naive_solver]. destruct (is_empty (trim v)); naive_solver.
Qed.

Lemma load_reasons_nil c agent :
  load_reasons c agent = [] <->
  (ap_context_window_tokens c <= agent_context_window_tokens agent)%N /\
  is_empty (trim (config_credential_env c)) = false /\ is_empty (trim (ap_base_url c)) = false /\
  is_empty (trim (ap_model c)) = false /\ is_remote_url (ap_base_url c) && negb (allow_remote_base_url c) = false.
Proof. unfold load_reasons. by rewrite !if_nil, if_nil_end, N.ltb_ge. Qed.

(** The kinds of provider that are wired. *)
Definition wired (k : ProviderKind.t) : Prop := k = ProviderKind.OpenAiCompatible \/ k = ProviderKind.OpenAi.

Lemma ensure_enabled_ready_iff c agent env_var :
  ap_enabled c = true ->
  is_ok (ensure_enabled_ready c agent env_var) = true <->
  load_reasons c agent = [] /\ wired (ap_provider c) /\ has_credential (config_credential_env c) env_var = true.
Proof.
  intros He. unfold ensure_enabled_ready. rewrite He. cbn [negb]. unfold wired, has_credential.
  destruct (load_reasons c agent) as [|r l] eqn:El; [|naive_solver].
  apply load_reasons_nil in El as (_ & Hc & _). rewrite Hc. cbn [negb andb].
  destruct (ap_provider c); try naive_solver;
    (destruct (env_var _) as [v|]; [destruct (is_empty (trim v))|]; naive_solver).
Qed.

Definition plan_of (c : OptionalAiProviderConfig) : OptionalProviderPlan := {|
  pl_provider := ap_provider c; pl_auth_mode := ap_auth_mode c; pl_base_url := ap_base_url c;
  pl_api_key_env := ap_api_key_env c; pl_oauth_token_env := ap_oauth_token_env c;
  pl_context_window_tokens := ap_context_window_tokens c; remote_allowed := allow_remote_base_url c |}.

Lemma plan_enabled c : ap_enabled c = true -> plan_from_config c = Some (plan_of c).
Proof. unfold plan_from_config. by intros ->. Qed.

Lemma gate_error_iff c agent env_var :
  ap_enabled c = true ->
  provider_gate_blocked_error agent c env_var = None <-> blocked_reasons (plan_of c) agent env_var = [].
Proof.
  intros He. unfold provider_gate_blocked_error. rewrite He, (plan_enabled c He). cbn. unfold readiness.
  by destruct (blocked_reasons _ _ _).
Qed.

(** The three checks of the optional provider agree.  A configuration
    passes the check made when it is loaded exactly when requests are taken up
    and, if it is enabled, its model is named and its kind is wired: two
    separately written checks of the endpoint, the credential and the context
    window come to the same verdict.  A completion is asked of the model
    exactly when requests are taken up; otherwise it is an error and nothing is
    asked. *)
Lemma provider_checks_agree c agent env_var :
  (is_ok (ensure_enabled_ready c agent env_var) = true <->
   provider_gate_blocked_error agent c env_var = None /\
   (ap_enabled c = true -> is_empty (trim (ap_model c)) = false /\ wired (ap_provider c))) /\
  forall S (inner : Completion S) messages max_tokens hints s,
    match provider_gate_blocked_error agent c env_var with
    | None => gated_complete (gate_for_http c) agent env_var inner messages max_tokens hints s =
              inner messages max_tokens hints s
    | Some _ => exists e, gated_complete (gate_for_http c) agent env_var inner messages max_tokens hints s =
                          (Err e, s)
    end.
Proof.
  destruct (ap_enabled c) eqn:He.
  - split.
    + rewrite ensure_enabled_ready_iff, gate_error_iff, load_reasons_nil, blocked_reasons_nil by done.
      cbn [plan_of pl_context_window_tokens pl_base_url remote_allowed]. rewrite remote_url_is_remote.
      change (plan_credential_env (plan_of c)) with (config_credential_env c). unfold has_credential.
      destruct (is_empty (trim (config_credential_env c))); cbn [negb andb]; naive_solver.
    + intros S inner ms mt h s. unfold gate_for_http, provider_gate_blocked_error, gated_complete, ensure_ready.
      rewrite He, (plan_enabled c He). cbn. unfold readiness. destruct (blocked_reasons _ _ _); [done|].
      by eexists.
  - unfold ensure_enabled_ready, provider_gate_blocked_error, gate_for_http, plan_from_config. rewrite He. cbn.
    split; [naive_solver|done].
Qed.
