(* ===== verification/PromptSha.v ===== *)
(** * The digest of a prompt

    [core/prompt_sha.rs]: SHA-256 written out on 32-bit words, with the message
    schedule filled in place.  The theorems say that the padding is the one of
    FIPS 180-4 and loses nothing, that the schedule filled in place is the
    recurrence of the standard, that the two tables, written here in decimal, are
    the digits of roots of primes, that every register stays a 32-bit word, and
    that a digest is 64 hexadecimal digits; runs on the vectors of the standard
    fix the rest. *)

From Stdlib Require Import Ascii String.
From S2P Require Import Prelude RustStr RustNum.
Local Open Scope string_scope.
Local Open Scope list_scope.
Local Open Scope N_scope.

(** ** Words *)

Definition rotate_right (x k : N) : N := N.lor (N.shiftr x k) (u32_wrap (N.shiftl x (32 - k))).
Definition word_add (x y : N) : N := u32_wrap (x + y).
Definition word_not (x : N) : N := 4294967295 - x.

Definition from_be_bytes (w : list N) : N := foldl (fun acc b => acc * 256 + b) 0 w.
Definition to_be_bytes (n : N) : list N := (fun k => N.shiftr n (8 * k) mod 256) <$> [7; 6; 5; 4; 3; 2; 1; 0].

Definition INITIAL_STATE : list N :=
  [1779033703; 3144134277; 1013904242; 2773480762; 1359893119; 2600822924; 528734635; 1541459225].

Definition ROUND_CONSTANTS : list N :=
  [1116352408; 1899447441; 3049323471; 3921009573; 961987163; 1508970993; 2453635748; 2870763221;
   3624381080; 310598401; 607225278; 1426881987; 1925078388; 2162078206; 2614888103; 3248222580;
   3835390401; 4022224774; 264347078; 604807628; 770255983; 1249150122; 1555081692; 1996064986;
   2554220882; 2821834349; 2952996808; 3210313671; 3336571891; 3584528711; 113926993; 338241895;
   666307205; 773529912; 1294757372; 1396182291; 1695183700; 1986661051; 2177026350; 2456956037;
   2730485921; 2820302411; 3259730800; 3345764771; 3516065817; 3600352804; 4094571909; 275423344;
   430227734; 506948616; 659060556; 883997877; 958139571; 1322822218; 1537002063; 1747873779;
   1955562222; 2024104815; 2227730452; 2361852424; 2428436474; 2756734187; 3204031479; 3329325298].

(** ** Padding *)

(** [while message.len() % 64 != 56]: at most 63 rounds. *)
Fixpoint zero_fill (fuel : nat) (message : list N) : list N :=
  match fuel with
  | O => message
  | S fuel =>
      if N.of_nat (length message) mod 64 =? 56 then message else zero_fill fuel (message ++ [0])
  end.

Definition bit_len (data : list N) : N := u64_wrap (u64_wrap (N.of_nat (length data)) * 8).

Definition padded (data : list N) : list N :=
  zero_fill 64 (data ++ [0x80]) ++ to_be_bytes (bit_len data).

(** [chunks_exact]: what is left over is dropped. *)
Fixpoint chunks_exact (fuel k : nat) (l : list N) : list (list N) :=
  match fuel with
  | O => []
  | S fuel => if Nat.ltb (length l) k then [] else take k l :: chunks_exact fuel k (drop k l)
  end.

(** ** The schedule *)

Definition word_at (s : list N) (i : nat) : N := nth i s 0.

Definition small_s0 (x : N) : N := N.lxor (N.lxor (rotate_right x 7) (rotate_right x 18)) (N.shiftr x 3).
Definition small_s1 (x : N) : N := N.lxor (N.lxor (rotate_right x 17) (rotate_right x 19)) (N.shiftr x 10).

Definition scheduled (schedule : list N) (i : nat) : N :=
  let s0 := small_s0 (word_at schedule (i - 15)) in
  let s1 := small_s1 (word_at schedule (i - 2)) in
  word_add (word_add (word_add (word_at schedule (i - 16)) s0) (word_at schedule (i - 7))) s1.

Definition schedule_step (schedule : list N) (i : nat) : list N := <[i := scheduled schedule i]> schedule.

Definition first_words (block : list N) : list N :=
  let words := from_be_bytes <$> chunks_exact 16 4 block in
  words ++ replicate (64 - length words) 0.

Definition schedule_of (block : list N) : list N := foldl schedule_step (first_words block) (seq 16 48).

(** ** The rounds *)

Record Registers := { ra : N; rb : N; rc : N; rd : N; re : N; rf : N; rg : N; rh : N }.

Definition big_s0 (a : N) : N := N.lxor (N.lxor (rotate_right a 2) (rotate_right a 13)) (rotate_right a 22).
Definition big_s1 (e : N) : N := N.lxor (N.lxor (rotate_right e 6) (rotate_right e 11)) (rotate_right e 25).
Definition choose (e f g : N) : N := N.lxor (N.land e f) (N.land (word_not e) g).
Definition majority (a b c : N) : N := N.lxor (N.lxor (N.land a b) (N.land a c)) (N.land b c).

Definition round (schedule : list N) (r : Registers) (i : nat) : Registers :=
  let t1 := word_add (word_add (word_add (word_add (rh r) (big_s1 (re r))) (choose (re r) (rf r) (rg r)))
    (word_at ROUND_CONSTANTS i)) (word_at schedule i) in
  let t2 := word_add (big_s0 (ra r)) (majority (ra r) (rb r) (rc r)) in
  {| rh := rg r; rg := rf r; rf := re r; re := word_add (rd r) t1;
     rd := rc r; rc := rb r; rb := ra r; ra := word_add t1 t2 |}.

Definition registers (state : list N) : Registers :=
  {| ra := word_at state 0; rb := word_at state 1; rc := word_at state 2; rd := word_at state 3;
     re := word_at state 4; rf := word_at state 5; rg := word_at state 6; rh := word_at state 7 |}.
Definition listed (r : Registers) : list N := [ra r; rb r; rc r; rd r; re r; rf r; rg r; rh r].

Definition digest_block (state : list N) (block : list N) : list N :=
  zip_with word_add state (listed (foldl (round (schedule_of block)) (registers state) (seq 0 64))).

Definition digest (data : list N) : list N :=
  let message := padded data in
  foldl digest_block INITIAL_STATE (chunks_exact (length message) 64 message).

(** ** The text *)

(** [{word:08x}]. *)
Definition hex_word (word : N) : string :=
  let h := show_hex word in pad_zeros (8 - String.length h) h.

Definition sha256_hex (data : string) : string :=
  concat_str (hex_word <$> digest (N_of_ascii <$> bytes data)).

Example empty_digest :
  sha256_hex "" = "e3b0c44298fc1c149afbf4c8996fb92427ae41e4649b934ca495991b7852b855".
Proof. vm_compute. reflexivity. Qed.
Example abc_digest :
  sha256_hex "abc" = "ba7816bf8f01cfea414140de5dae2223b00361a396177a9cb410ff61f20015ad".
Proof. vm_compute. reflexivity. Qed.
Example two_block_digest :
  sha256_hex "abcdbcdecdefdefgefghfghighijhijkijkljklmklmnlmnomnopnopq" =
  "248d6a61d20638b8e5c026930c3e6039a33ce45964ff2167f6ecedd419db06c1".
Proof. vm_compute. reflexivity. Qed.

(** ** The padding *)

Lemma mod_succ a b : b <> 0 -> (a + 1) mod b = ((a mod b) + 1) mod b.
Proof. intros Hb. by rewrite N.Div0.add_mod_idemp_l. Qed.

(** The loop stops: [k] more zeros reach 56 modulo 64. *)
Lemma zero_fill_reaches k message fuel :
  (k < fuel)%nat -> (N.of_nat (length message) + N.of_nat k) mod 64 = 56 ->
  (forall j, (j < k)%nat -> (N.of_nat (length message) + N.of_nat j) mod 64 <> 56) ->
  zero_fill fuel message = message ++ replicate k 0.
Proof.
  revert message fuel. induction k as [|k IH]; intros message [|fuel] Hf Hk Hmin; try lia; cbn [zero_fill].
  - rewrite N.add_0_r in Hk. by rewrite Hk, N.eqb_refl, app_nil_r.
  - pose proof (Hmin 0%nat ltac:(lia)) as H0. rewrite N.add_0_r in H0. apply N.eqb_neq in H0 as ->.
    rewrite (IH (message ++ [0]) fuel); [by rewrite <- app_assoc|lia| |].
    + rewrite length_app. cbn [length]. rewrite <- Hk. f_equal. lia.
    + intros j Hj. rewrite length_app. cbn [length]. intros E. apply (Hmin (S j)); [lia|]. rewrite <- E. f_equal. lia.
Qed.

Definition zeros_needed (n : nat) : nat := N.to_nat ((55 + 64 - N.of_nat n mod 64) mod 64).

(** The tables are those of the standard, whose words are the first 32 bits of
    the fractional parts of square and cube roots of the first primes: [c] are
    the bits for [p] when [i * 2^32 + c], for the whole part [i], is the root of
    [p] scaled by [2^32] and rounded down. *)
Definition prime_list (n : nat) : list N :=
  List.filter (fun p => forallb (fun d => negb (p mod d =? 0)) (N.of_nat <$> seq 2 (N.to_nat p - 2))) (N.of_nat <$> seq 2 n).
Definition root_bits (k p c : N) : bool :=
  existsb (fun i => let r := i * 2 ^ 32 + c in (r ^ k <=? p * 2 ^ (32 * k)) && (p * 2 ^ (32 * k) <? (r + 1) ^ k)) (N.of_nat <$> seq 1 6).

Lemma tables_are_roots_of_primes :
  length (prime_list 310) = 64%nat /\ length ROUND_CONSTANTS = 64%nat /\ length INITIAL_STATE = 8%nat
  /\ forallb (fun pc => root_bits 3 pc.1 pc.2) (zip (prime_list 310) ROUND_CONSTANTS) = true
  /\ forallb (fun pc => root_bits 2 pc.1 pc.2) (zip (prime_list 310) INITIAL_STATE) = true.
Proof. vm_compute. done. Qed.

Lemma zeros_needed_least n j : (j <= zeros_needed n)%nat ->
  (N.of_nat (S n) + N.of_nat j) mod 64 = 56 <-> j = zeros_needed n.
Proof.
  unfold zeros_needed. intros Hj.
  pose proof (N.div_mod' (N.of_nat n) 64) as Hn. pose proof (N.mod_lt (N.of_nat n) 64 ltac:(done)).
  set (q := N.of_nat n / 64) in *. set (r := N.of_nat n mod 64) in *.
  pose proof (N.div_mod' (55 + 64 - r) 64). pose proof (N.mod_lt (55 + 64 - r) 64 ltac:(done)).
  set (z := (55 + 64 - r) mod 64) in *. set (qz := (55 + 64 - r) / 64) in *.
  pose proof (N.div_mod' (N.of_nat (S n) + N.of_nat j) 64) as Hs.
  pose proof (N.mod_lt (N.of_nat (S n) + N.of_nat j) 64 ltac:(done)).
  set (m := (N.of_nat (S n) + N.of_nat j) mod 64) in *. set (qm := (N.of_nat (S n) + N.of_nat j) / 64) in *.
  clearbody q r z qz m qm. split; lia.
Qed.

Lemma padded_layout data :
  padded data = data ++ [0x80] ++ replicate (zeros_needed (length data)) 0 ++ to_be_bytes (bit_len data).
Proof.
  unfold padded. rewrite (zero_fill_reaches (zeros_needed (length data))).
  - by rewrite <- !app_assoc.
  - unfold zeros_needed. pose proof (N.mod_lt (55 + 64 - N.of_nat (length data) mod 64) 64 ltac:(done)). lia.
  - rewrite length_app. cbn [length]. rewrite Nat.add_1_r. by apply zeros_needed_least.
  - intros j Hj. rewrite length_app. cbn [length]. rewrite Nat.add_1_r. rewrite zeros_needed_least by lia. lia.
Qed.

Lemma be_bytes_read n : n < 18446744073709551616 -> from_be_bytes (to_be_bytes n) = n.
Proof.
  intros Hn. unfold to_be_bytes, from_be_bytes. cbn [fmap list_fmap foldl]. rewrite !N.shiftr_div_pow2.
  change (8 * 7) with 56. change (8 * 6) with 48. change (8 * 5) with 40. change (8 * 4) with 32.
  change (8 * 3) with 24. change (8 * 2) with 16. change (8 * 1) with 8. change (8 * 0) with 0.
  assert (forall a k, n / 2 ^ (k + 8) = a -> n / 2 ^ k = a * 256 + n / 2 ^ k mod 256) as step.
  { intros a k Ha. rewrite N.pow_add_r, <- N.Div0.div_div in Ha. change (2 ^ 8) with 256 in Ha.
    rewrite <- Ha. rewrite (N.mul_comm _ 256). apply N.div_mod'. }
  assert (n / 2 ^ 64 = 0) as H64 by (apply N.div_small; exact Hn).
  rewrite <- (step 0 56 H64), <- (step (n / 2 ^ 56) 48 eq_refl), <- (step (n / 2 ^ 48) 40 eq_refl),
    <- (step (n / 2 ^ 40) 32 eq_refl), <- (step (n / 2 ^ 32) 24 eq_refl), <- (step (n / 2 ^ 24) 16 eq_refl),
    <- (step (n / 2 ^ 16) 8 eq_refl), <- (step (n / 2 ^ 8) 0 eq_refl).
  by rewrite N.div_1_r.
Qed.

(** Messages shorter than 2^61 bytes with the same padding are the same. *)
Lemma padding_loses_nothing d d' :
  N.of_nat (length d) < 2 ^ 61 -> N.of_nat (length d') < 2 ^ 61 -> padded d = padded d' -> d = d'.
Proof.
  intros Hd Hd' H. rewrite !padded_layout, !app_assoc in H.
  assert (forall l, N.of_nat (length l) < 2 ^ 61 -> bit_len l = N.of_nat (length l) * 8) as Hb.
  { intros l Hl. change (2 ^ 61) with 2305843009213693952 in Hl. unfold bit_len.
    rewrite (u64_wrap_small (N.of_nat (length l))) by (unfold u64_max; lia). apply u64_wrap_small. unfold u64_max. lia. }
  apply app_inj_2 in H as [H Hl]; [|done].
  apply (f_equal from_be_bytes) in Hl.
  assert (forall l, N.of_nat (length l) < 2 ^ 61 -> from_be_bytes (to_be_bytes (bit_len l)) = N.of_nat (length l) * 8) as Hr.
  { intros l Hl'. rewrite be_bytes_read; [by apply Hb|]. apply N.mod_lt. done. }
  rewrite !Hr in Hl by done. assert (length d = length d') as Hlen by lia.
  rewrite <- !app_assoc in H. by apply app_inj_1 in H as [-> _].
Qed.

Lemma padded_blocks data : N.of_nat (length (padded data)) mod 64 = 0.
Proof.
  rewrite padded_layout, !length_app, length_replicate. cbn [length to_be_bytes fmap list_fmap].
  pose proof (proj2 (zeros_needed_least (length data) _ (le_n _)) eq_refl) as H.
  replace (N.of_nat (length data + (1 + (zeros_needed (length data) + 8)))) with
    ((N.of_nat (S (length data)) + N.of_nat (zeros_needed (length data))) + 8) by lia.
  rewrite <- N.Div0.add_mod_idemp_l, H. done.
Qed.

(** ** The schedule *)

Lemma word_at_insert_ne s i j x : i <> j -> word_at (<[i := x]> s) j = word_at s j.
Proof. intros H. unfold word_at. by rewrite !nth_lookup, list_lookup_insert_ne. Qed.
Lemma word_at_insert s i x : (i < length s)%nat -> word_at (<[i := x]> s) i = x.
Proof. intros H. unfold word_at. by rewrite nth_lookup, list_lookup_insert_eq. Qed.

(** The steps from [i] on leave what is below alone. *)
Lemma schedule_steps_below n i s j : (j < i)%nat -> word_at (foldl schedule_step s (seq i n)) j = word_at s j.
Proof.
  revert i s. induction n as [|n IH]; intros i s Hj; [done|]. cbn [seq foldl]. rewrite IH by lia.
  apply word_at_insert_ne. lia.
Qed.

Lemma schedule_steps_length n i s : length (foldl schedule_step s (seq i n)) = length s.
Proof. revert i s. induction n as [|n IH]; intros i s; [done|]. cbn [seq foldl]. rewrite IH. apply length_insert. Qed.

Lemma schedule_steps_at n i s j :
  (16 <= i)%nat -> (i <= j < i + n)%nat -> (j < length s)%nat ->
  word_at (foldl schedule_step s (seq i n)) j = scheduled (foldl schedule_step s (seq i n)) j.
Proof.
  revert i s. induction n as [|n IH]; intros i s Hi Hj Hl; [lia|]. cbn [seq foldl].
  destruct (decide (i = j)) as [->|].
  - rewrite schedule_steps_below by lia. unfold schedule_step at 1. rewrite word_at_insert by done.
    unfold scheduled. rewrite !schedule_steps_below by lia. unfold schedule_step.
    by rewrite !word_at_insert_ne by lia.
  - apply IH; [lia|lia|]. unfold schedule_step. by rewrite length_insert.
Qed.

Lemma first_words_length block : (length (from_be_bytes <$> chunks_exact 16 4 block) <= 64)%nat -> length (first_words block) = 64%nat.
Proof. intros H. unfold first_words. rewrite length_app, length_replicate. lia. Qed.

Lemma chunks_exact_at fuel k l t d : (S t * k <= length l)%nat -> (t < fuel)%nat ->
  nth t (chunks_exact fuel k l) d = take k (drop (t * k) l).
Proof.
  revert l t. induction fuel as [|fuel IH]; intros l t Ht Hf; [lia|]. cbn [chunks_exact].
  destruct (Nat.ltb (length l) k) eqn:E; [apply Nat.ltb_lt in E; lia|]. destruct t as [|t]; [done|].
  cbn [nth]. rewrite IH; [|rewrite length_drop; lia|lia]. rewrite drop_drop. done.
Qed.

Lemma length_chunks_exact k l fuel n : (0 < k)%nat -> length l = (n * k)%nat -> (n <= fuel)%nat -> length (chunks_exact fuel k l) = n.
Proof.
  intros Hk. revert l n. induction fuel as [|fuel IH]; intros l n Hl Hf; [cbn; lia|]. cbn [chunks_exact].
  destruct n as [|n].
  - rewrite Hl. by destruct k; [lia|].
  - destruct (Nat.ltb (length l) k) eqn:E; [apply Nat.ltb_lt in E; lia|]. cbn [length].
    rewrite (IH _ n); [done| |lia]. rewrite length_drop. lia.
Qed.

(** The array filled in place is the recurrence of the standard: the words of
    the block, then each word from the ones 16, 15, 7 and 2 before it. *)
Lemma schedule_is_the_recurrence block : length block = 64%nat ->
  let w := word_at (schedule_of block) in
  (forall t, (t < 16)%nat -> w t = from_be_bytes (take 4 (drop (t * 4) block))) /\
  (forall t, (16 <= t < 64)%nat ->
     w t = u32_wrap (u32_wrap (u32_wrap (w (t - 16)%nat + small_s0 (w (t - 15)%nat)) + w (t - 7)%nat) + small_s1 (w (t - 2)%nat))).
Proof.
  intros Hb w. assert (length (chunks_exact 16 4 block) = 16%nat) as Hc by (apply (length_chunks_exact 4 block 16 16); lia).
  assert (length (first_words block) = 64%nat) as Hl by (apply first_words_length; rewrite length_fmap, Hc; lia).
  unfold w, schedule_of. split; intros t Ht.
  - rewrite schedule_steps_below by lia. unfold first_words, word_at.
    rewrite app_nth1 by (rewrite length_fmap; lia).
    rewrite (nth_indep _ 0 (from_be_bytes [])) by (rewrite length_fmap; lia).
    rewrite (map_nth from_be_bytes). by rewrite chunks_exact_at by lia.
  - rewrite schedule_steps_at by lia. done.
Qed.

(** ** The digest is 64 hexadecimal digits *)

Definition word32 (n : N) : Prop := n < 4294967296.
Lemma word_add_word x y : word32 (word_add x y).
Proof. by apply N.mod_lt. Qed.

Lemma digest_block_words state block : length state = 8%nat ->
  length (digest_block state block) = 8%nat /\ Forall word32 (digest_block state block).
Proof.
  intros H. unfold digest_block. split; [by rewrite length_zip_with, H|].
  apply Forall_forall. intros n Hn. apply elem_of_lookup_zip_with in Hn as (i & x & y & -> & _). apply word_add_word.
Qed.

Lemma digest_words data : length (digest data) = 8%nat /\ Forall word32 (digest data).
Proof.
  unfold digest. generalize (chunks_exact (length (padded data)) 64 (padded data)) as blocks. intros blocks.
  assert (length INITIAL_STATE = 8%nat /\ Forall word32 INITIAL_STATE) as H0.
  { split; [done|]. repeat constructor. }
  revert H0. generalize INITIAL_STATE as st. induction blocks as [|b blocks IH]; intros st Hst; [done|].
  cbn [foldl]. apply IH. by apply digest_block_words, Hst.
Qed.

Definition is_lower_hex (a : ascii) : bool := byte_is_digit a || byte_in 97 102 a.

Lemma hex_nibble d : d < 16 -> is_lower_hex (ascii_of_N (if d <? 10 then 48 + d else 87 + d)) = true.
Proof.
  intros H. assert (In d (N.of_nat <$> seq 0 16)) as Hin.
  { apply in_map_iff. exists (N.to_nat d). split; [lia|]. apply in_seq. lia. }
  clear H. revert d Hin. apply forallb_forall. by vm_compute.
Qed.

Lemma hex_from_digits fuel n acc k : n < 16 ^ N.of_nat k -> (0 < k)%nat ->
  sforall is_lower_hex acc = true ->
  sforall is_lower_hex (lower_hex_from fuel n acc) = true /\
  (String.length (lower_hex_from fuel n acc) <= String.length acc + k)%nat.
Proof.
  revert n acc k. induction fuel as [|fuel IH]; intros n acc k Hn Hk Ha; cbn [lower_hex_from]; [split; [done|lia]|].
  assert (sforall is_lower_hex (String (ascii_of_N (if n mod 16 <? 10 then 48 + n mod 16 else 87 + n mod 16)) acc) = true) as Hs.
  { cbn [sforall]. rewrite Ha, andb_true_r. apply hex_nibble. by apply N.mod_lt. }
  destruct (n <? 16) eqn:E; [split; [done|cbn; lia]|]. apply N.ltb_ge in E.
  destruct k as [|[|k]]; [lia|cbn in Hn; lia|].
  destruct (IH (n / 16) _ (S k) ltac:(apply N.Div0.div_lt_upper_bound; rewrite <- N.pow_succ_r', <- Nat2N.inj_succ; exact Hn) ltac:(lia) Hs) as [H1 H2].
  split; [done|]. cbn [String.length] in H2. lia.
Qed.

Lemma pad_zeros_digits n s : sforall is_lower_hex s = true ->
  sforall is_lower_hex (pad_zeros n s) = true /\ String.length (pad_zeros n s) = (n + String.length s)%nat.
Proof.
  revert s. induction n as [|n IH]; intros s Hs; [done|]. cbn [pad_zeros].
  destruct (IH (String "0" s) Hs) as [H1 H2]. split; [done|]. rewrite H2. cbn. lia.
Qed.

Lemma hex_word_digits w : word32 w -> sforall is_lower_hex (hex_word w) = true /\ String.length (hex_word w) = 8%nat.
Proof.
  intros Hw. unfold hex_word, show_hex.
  destruct (hex_from_digits (S (N.to_nat (N.log2 w))) w "" 8 Hw ltac:(lia) eq_refl) as [Hd Hl].
  destruct (pad_zeros_digits (8 - String.length (lower_hex_from (S (N.to_nat (N.log2 w))) w "")) _ Hd) as [H1 H2].
  split; [done|]. rewrite H2. cbn [String.length] in Hl. lia.
Qed.

Lemma digest_is_hex data : sforall is_lower_hex (sha256_hex data) = true /\ String.length (sha256_hex data) = 64%nat.
Proof.
  unfold sha256_hex. destruct (digest_words (N_of_ascii <$> bytes data)) as [Hl Hw].
  revert Hl Hw. generalize (digest (N_of_ascii <$> bytes data)) as ws. intros ws Hl Hw. change 64%nat with (8 * 8)%nat.
  rewrite <- Hl at 1. clear Hl. induction Hw as [|w ws Hw Hws IH]; [done|]. cbn [fmap list_fmap concat_str foldr].
  destruct (hex_word_digits w Hw) as [H1 H2]. destruct IH as [I1 I2].
  fold (concat_str (hex_word <$> ws)). rewrite sforall_app, H1. split; [exact I1|]. rewrite length_sapp, H2. cbn [length].
  fold (fmap hex_word ws) in *. lia.
Qed.
