(* ===== verification/LlmRequest.v ===== *)
(** * What is sent to a language model

    The request side of [core/llm/openai_compat.rs]: the client and where it
    connects, the body of a request with the hints of [llm/mod.rs], its
    compaction for the runtime with a small window, and the messages without
    system role for the models that have none. *)

From Stdlib Require Import Ascii String.
From S2P Require Import Prelude RustStr RustNum Json Conversations LlmProvider PromptSha.
Local Open Scope string_scope.
Local Open Scope list_scope.

(** ** The client *)

(** Seconds; a [Duration] is never printed otherwise. *)
Record LlmTimeouts := { connect_timeout : N; read_timeout : N; request_timeout : N }.
Definition default_timeouts : LlmTimeouts := {| connect_timeout := 10; read_timeout := 60; request_timeout := 120 |}.
Definition from_secs (connect read request : N) : LlmTimeouts :=
  {| connect_timeout := N.max connect 1; read_timeout := N.max read 1; request_timeout := N.max request 1 |}.

Record AuthorizationHeader := { auth_value : string }.

Definition line_break (a : ascii) : bool := Ascii.eqb a (ascii_of_nat 13) || Ascii.eqb a (ascii_of_nat 10).

Definition bearer (token : string) : option AuthorizationHeader :=
  let token := trim token in
  if is_empty token || sexists line_break token then None
  else Some {| auth_value := "Bearer " +:+ token |}.

Definition crlf : string := char_of (ascii_of_nat 13) +:+ newline.
Definition header_line (a : AuthorizationHeader) : string := "Authorization: " +:+ auth_value a +:+ crlf.

Module RequestProfile.
Inductive t := Generic (model : string) | GenieAiRuntime.
End RequestProfile.

Record OpenAiCompatClient := {
  backend_name : string;
  host : string;
  port : N;
  request_profile : RequestProfile.t;
  timeouts : LlmTimeouts;
  auth : option AuthorizationHeader;
}.

Definition generic : RequestProfile.t := RequestProfile.Generic "default".

Definition new_with_profile_and_timeouts (name host : string) (port : N) (profile : RequestProfile.t)
    (timeouts : LlmTimeouts) : OpenAiCompatClient :=
  {| backend_name := name; host := host; port := port; request_profile := profile; timeouts := timeouts; auth := None |}.
Definition new_with_profile (name host : string) (port : N) (profile : RequestProfile.t) : OpenAiCompatClient :=
  new_with_profile_and_timeouts name host port profile default_timeouts.
Definition new_client (name host : string) (port : N) : OpenAiCompatClient := new_with_profile name host port generic.

Definition from_url_with_profile_and_timeouts (name url : string) (profile : RequestProfile.t)
    (timeouts : LlmTimeouts) : OpenAiCompatClient :=
  let stripped := default url (strip_prefix url "http://") in
  let host_port := (default (stripped, "") (split_once stripped "/")).1 in
  let '(host, port_str) := default (host_port, "8080") (split_once host_port ":") in
  new_with_profile_and_timeouts name host (default 8080%N (parse_u16 port_str)) profile timeouts.
Definition from_url_with_profile (name url : string) (profile : RequestProfile.t) : OpenAiCompatClient :=
  from_url_with_profile_and_timeouts name url profile default_timeouts.
Definition from_url (name url : string) : OpenAiCompatClient := from_url_with_profile name url generic.

Definition set_auth (c : OpenAiCompatClient) (a : option AuthorizationHeader) : OpenAiCompatClient :=
  {| backend_name := backend_name c; host := host c; port := port c; request_profile := request_profile c;
     timeouts := timeouts c; auth := a |}.
Definition with_bearer_token (c : OpenAiCompatClient) (token : string) : OpenAiCompatClient :=
  set_auth c (bearer token).
Definition with_bearer_token_env (env : Environment) (c : OpenAiCompatClient) (env_var : string) : OpenAiCompatClient :=
  match env (trim env_var) with Some token => set_auth c (bearer token) | None => c end.

Definition authorization_header (c : OpenAiCompatClient) : string :=
  match auth c with Some a => header_line a | None => "" end.

(** [format!("{}:{}", self.host, self.port)]. *)
Definition addr (c : OpenAiCompatClient) : string := host c +:+ ":" +:+ show_N (port c).

(** ** Texts *)

(** [str::find]. *)
Definition find_str (s p : string) : option nat := (fun lr => String.length lr.1) <$> split_once s p.

Definition truncate_utf8 (text : string) (max_bytes : nat) : string :=
  if Nat.leb (String.length text) max_bytes then text
  else trim_end (String.substring 0 (boundary_at_most text max_bytes) text).

Definition MAX_LEN : nat := 240.
Definition truncate_body (body : string) : string :=
  let trimmed := trim body in
  if Nat.leb (String.length trimmed) MAX_LEN then trimmed else truncate_utf8 trimmed MAX_LEN +:+ "...".

Definition backend_error_message `{Serde} (body : string) : string :=
  default (truncate_body body)
    (json ← from_str body;
     (get json "error" ≫= fun v => get v "message" ≫= as_str) <|> (get json "message" ≫= as_str))%rust.

Definition parse_status_line (line : string) : N :=
  default 0%N (split_whitespace line !! 1 ≫= parse_u16).

(** ** Hints *)

Definition session_char (c : string) : bool :=
  char_byte is_ascii_alphanumeric c || String.eqb c "_" || String.eqb c "-".

(** The loop over the characters, until [out] has 64 bytes. *)
Fixpoint session_chars (out : string) (cs : list string) : string :=
  match cs with
  | [] => out
  | c :: cs =>
      let out := if session_char c then out +:+ c
                 else if negb (ends_with out "_") then out +:+ "_" else out in
      if Nat.eqb (String.length out) 64 then out else session_chars out cs
  end.
Definition normalize_runtime_session_id (raw : string) : option string :=
  let out := trim_matches (String.eqb "_") (session_chars "" (chars raw)) in
  if is_empty out then None else Some out.

Definition format_ttl (secs : N) : string :=
  if (3600 <=? secs)%N && (secs mod 3600 =? 0)%N then show_N (secs / 3600) +:+ "h"
  else if (60 <=? secs)%N && (secs mod 60 =? 0)%N then show_N (secs / 60) +:+ "m"
  else show_N secs +:+ "s".

Record SystemPromptPrefixCache := { spc_key : string; spc_bytes : nat }.

Definition SYSTEM_PROMPT_PREFIX_CACHE_SCOPE : string := "system_prompt_prefix".
Definition SYSTEM_PROMPT_PREFIX_CACHE_KEY_PREFIX : string := "system-prompt-prefix:".
Definition blank_line : string := newline +:+ newline.
Definition SYSTEM_PROMPT_PREFIX_CACHE_MARKERS : list string :=
  [blank_line +:+ "Relevant household context:" +:+ newline; blank_line +:+ "Household context:" +:+ newline].

Definition is_system (m : Message) : bool := String.eqb (role m) "system".
Definition is_user (m : Message) : bool := String.eqb (role m) "user".

Definition min_of (l : list nat) : option nat :=
  match l with [] => None | x :: l => Some (foldl Nat.min x l) end.

(** [str::get(..end)]: nothing when [end] is inside a character. *)
Definition get_to (s : string) (n : nat) : option string :=
  if Nat.leb n (String.length s) && is_char_boundary s n then Some (String.substring 0 n s) else None.

Definition system_prompt_prefix_cache (messages : list Message) : option SystemPromptPrefixCache :=
  system ← content <$> find is_system messages;
  prefix_end ← min_of (omap (fun marker => (fun pos => pos + String.length marker) <$> find_str system marker)
                            SYSTEM_PROMPT_PREFIX_CACHE_MARKERS);
  prefix ← get_to system prefix_end;
  if is_empty (trim prefix) then None
  else Some {| spc_key := SYSTEM_PROMPT_PREFIX_CACHE_KEY_PREFIX +:+ sha256_hex prefix;
               spc_bytes := String.length prefix |}.

Record CacheControl := {
  cc_type : string; cc_ttl : string; cc_scope : option string; cc_key : option string; cc_prefix_bytes : option nat }.
Definition cache_control (ttl_secs : N) (prefix_cache : option SystemPromptPrefixCache) : CacheControl :=
  {| cc_type := "ephemeral"; cc_ttl := format_ttl ttl_secs;
     cc_scope := (fun _ => SYSTEM_PROMPT_PREFIX_CACHE_SCOPE) <$> prefix_cache;
     cc_key := spc_key <$> prefix_cache; cc_prefix_bytes := spc_bytes <$> prefix_cache |}.

Record AgentHints := {
  ah_session_id : option string; ah_priority : option Z; ah_osl : option N; ah_speculative_prefill : option bool }.
Record NvExt := { nv_agent_hints : option AgentHints; nv_cache_control : option CacheControl }.

Definition session_of (hints : option LlmRequestHints) : option string :=
  (hints ≫= session_id_hint) ≫= normalize_runtime_session_id.

Definition agent_hints_of (session : option string) (h : LlmRequestHints) : option AgentHints :=
  if bool_decide (is_Some session) || bool_decide (is_Some (priority h))
     || bool_decide (is_Some (output_sequence_length h)) || speculative_prefill h
  then Some {| ah_session_id := session; ah_priority := priority h; ah_osl := output_sequence_length h;
               ah_speculative_prefill := when (speculative_prefill h) true |}
  else None.

Definition build_nvext (messages : list Message) (hints : option LlmRequestHints) : option NvExt :=
  let agent_hints := hints ≫= agent_hints_of (session_of hints) in
  let cache := (fun ttl => cache_control ttl (system_prompt_prefix_cache messages)) <$> (hints ≫= cache_ttl_secs) in
  if bool_decide (is_Some agent_hints) || bool_decide (is_Some cache)
  then Some {| nv_agent_hints := agent_hints; nv_cache_control := cache |} else None.

Record ResponseFormat := { format_type : string; format_schema : option value }.
Definition json_format : ResponseFormat := {| format_type := "json_object"; format_schema := None |}.
Definition json_schema (schema : value) : ResponseFormat :=
  {| format_type := "json_schema"; format_schema := Some schema |}.

(** ** The body *)

(** A field that is left out when it is [None]. *)
Definition optional {A} (name : string) (to_value : A -> value) (o : option A) : list (string * value) :=
  match o with Some x => [(name, to_value x)] | None => [] end.
Definition json_n (n : N) : value := Number (PosInt n).
Definition json_nat (n : nat) : value := json_n (N.of_nat n).

Definition message_value (m : Message) : value := Object [("role", Str (role m)); ("content", Str (content m))].
Definition format_value (f : ResponseFormat) : value :=
  Object (("type", Str (format_type f)) :: optional "schema" id (format_schema f)).
Definition agent_hints_value (a : AgentHints) : value :=
  Object (optional "session_id" Str (ah_session_id a) ++ optional "priority" json_i64 (ah_priority a) ++
          optional "osl" json_n (ah_osl a) ++ optional "speculative_prefill" Bool (ah_speculative_prefill a)).
Definition cache_control_value (c : CacheControl) : value :=
  Object (("type", Str (cc_type c)) :: ("ttl", Str (cc_ttl c)) :: optional "scope" Str (cc_scope c) ++
          optional "cache_key" Str (cc_key c) ++ optional "prefix_bytes" json_nat (cc_prefix_bytes c)).
Definition nvext_value (n : NvExt) : value :=
  Object (optional "agent_hints" agent_hints_value (nv_agent_hints n) ++
          optional "cache_control" cache_control_value (nv_cache_control n)).

Record ChatRequest := {
  rq_model : string;
  rq_messages : list Message;
  rq_max_tokens : option N;
  rq_temperature : option f64;
  rq_stream : bool;
  rq_conversation_id : option string;
  rq_think : option bool;
  rq_response_format : option ResponseFormat;
  rq_nvext : option NvExt;
}.
Definition request_value (r : ChatRequest) : value :=
  Object (("model", Str (rq_model r)) :: ("messages", Array (message_value <$> rq_messages r)) ::
          optional "max_tokens" json_n (rq_max_tokens r) ++ optional "temperature" json_f64 (rq_temperature r) ++
          ("stream", Bool (rq_stream r)) :: optional "conversation_id" Str (rq_conversation_id r) ++
          optional "think" Bool (rq_think r) ++ optional "response_format" format_value (rq_response_format r) ++
          optional "nvext" nvext_value (rq_nvext r)).

Definition model (p : RequestProfile.t) : string :=
  match p with RequestProfile.Generic model => model | RequestProfile.GenieAiRuntime => "jetson-llm" end.
Definition think_override (p : RequestProfile.t) : option bool :=
  match p with RequestProfile.Generic _ => None | RequestProfile.GenieAiRuntime => Some false end.
Definition runtime_session_id (p : RequestProfile.t) (hints : option LlmRequestHints) : option string :=
  match p with RequestProfile.Generic _ => None | RequestProfile.GenieAiRuntime => session_of hints end.
Definition nvext (p : RequestProfile.t) (messages : list Message) (hints : option LlmRequestHints) : option NvExt :=
  match p with RequestProfile.Generic _ => None | RequestProfile.GenieAiRuntime => build_nvext messages hints end.

(** [0.7] as an [f32] prints as the [f64] does. *)
Definition temperature : f64 := f64_dec 7 (-1).

Definition chat_request (p : RequestProfile.t) (messages : list Message) (max_tokens : option N) (stream : bool)
    (response_format : option ResponseFormat) (hints : option LlmRequestHints) : ChatRequest := {|
  rq_model := model p; rq_messages := messages; rq_max_tokens := max_tokens; rq_temperature := Some temperature;
  rq_stream := stream; rq_conversation_id := runtime_session_id p hints; rq_think := think_override p;
  rq_response_format := response_format; rq_nvext := nvext p messages hints |}.

Definition serialize_body `{Serde} (p : RequestProfile.t) (messages : list Message) (max_tokens : option N)
    (stream : bool) (response_format : option ResponseFormat) (hints : option LlmRequestHints) : string :=
  to_str (request_value (chat_request p messages max_tokens stream response_format hints)).

Definition serialize_generic_chat_request `{Serde} (model : string) (messages : list Message) (max_tokens : option N)
    (stream : bool) (response_format : option ResponseFormat) : string :=
  serialize_body (RequestProfile.Generic model) messages max_tokens stream response_format None.

(** ** Compaction *)

Definition GENIE_RUNTIME_MAX_BODY_BYTES : nat := 4 * 1024.
Definition GENIE_RUNTIME_BODY_OVERHEAD_BYTES : nat := 512.
Definition GENIE_RUNTIME_CONTEXT_MAX_BYTES : nat := 900.
Definition GENIE_RUNTIME_COMPACT_SYSTEM : string :=
  "You are GenieClaw, a local home AI native to NVIDIA Jetson Orin 8GB. Answer the user's latest request directly and concisely.".
Definition GENIE_RUNTIME_COMPACT_SYSTEM_PREFIX : string :=
  "You are GenieClaw, a local home AI native to NVIDIA Jetson Orin 8GB. Reply briefly for voice. Use a tool only when required. Tool calls must be ONLY JSON: {" +:+
  dquote +:+ "tool" +:+ dquote +:+ ":" +:+ dquote +:+ "tool_name" +:+ dquote +:+ "," +:+ dquote +:+ "arguments" +:+ dquote +:+ ":{}}. No markdown.".

Definition tool_specs : list (string * string) := [
  ("home_control", "home_control {entity, action, value?} - control safe home devices/scenes");
  ("home_status", "home_status {entity} - query Home Assistant state");
  ("home_undo", "home_undo {} - undo last reversible home action");
  ("action_history", "action_history {} - recent actions/pending confirmations");
  ("set_timer", "set_timer {seconds, label?}");
  ("get_time", "get_time {}");
  ("get_weather", "get_weather {location, forecast?}");
  ("web_search", "web_search {query, limit?, fresh?}");
  ("system_info", "system_info {}");
  ("calculate", "calculate {expression}");
  ("play_media", "play_media {query}");
  ("memory_recall", "memory_recall {query}");
  ("memory_status", "memory_status {}");
  ("memory_forget", "memory_forget {query}");
  ("memory_store", "memory_store {content, category?}");
  ("hello_world", "hello_world {name?} - demo greeting only")].

Definition compact_genie_runtime_tool_lines (system_text : string) : list string :=
  (fun spec => "- " +:+ spec.2) <$> List.filter (fun spec => contains system_text spec.1) tool_specs.

Definition base_rules : list string := [
  "If no tool is needed, answer naturally in 1-3 short sentences.";
  "Use calculate for math, get_weather for weather, get_time for time, and system_info for system/Home Assistant/memory diagnostics.";
  "Use memory_recall when the user asks what you remember, what you know about them, or asks for their name.";
  "Use memory_store only when explicitly asked; never store secrets, access codes, lock combinations, or sensitive locations."].

Definition compact_genie_runtime_rules (system_text : string) : string :=
  let rules := base_rules ++
    (if contains system_text "web_search" then
       ["Use web_search only for current/recent public facts or explicit web lookup; never send private secrets."] else []) ++
    (if contains system_text "home_control" then
       ["Use home_control/home_status for smart-home requests; risky actions may require local confirmation."]
     else if contains system_text "Home control is currently unavailable" then
       ["Home control is unavailable; say Home Assistant is not connected if asked to control a device."] else []) ++
    (if contains system_text "hello_world" then ["Use hello_world only for explicit hello_world demo requests."] else []) in
  "Rules:" +:+ newline +:+ "- " +:+ join (newline +:+ "- ") rules.

Definition context_markers : list string :=
  ["Relevant household context:" +:+ newline; "## Household Context" +:+ newline].

(** What follows the last marker, [max_by_key] keeping the later of equals. *)
Definition last_marker (system_text : string) : option (nat * string) :=
  foldl (fun best marker =>
    match rsplit_once system_text marker with
    | None => best
    | Some (before, tail) =>
        match best with
        | Some (pos, _) => if Nat.leb pos (String.length before) then Some (String.length before, tail) else best
        | None => Some (String.length before, tail)
        end
    end) None context_markers.

Definition is_context_line (line : string) : bool :=
  nonempty line && negb (String.eqb line "(no household context yet)")
  && negb (String.eqb line "Relevant household context:").

Definition compact_household_context (system_text : string) : option string :=
  tail ← snd <$> last_marker system_text;
  let section := (default (tail, "") (split_once tail (newline +:+ "## "))).1 in
  let context := join newline (List.filter is_context_line (trim <$> lines_of section)) in
  if is_empty context then None else Some (truncate_utf8 context GENIE_RUNTIME_CONTEXT_MAX_BYTES).

Definition compact_genie_runtime_system (system_text : string) : string :=
  let tool_lines := compact_genie_runtime_tool_lines system_text in
  join blank_line
    (GENIE_RUNTIME_COMPACT_SYSTEM_PREFIX ::
     match tool_lines with [] => [] | _ => ["Tools:" +:+ newline +:+ join newline tool_lines] end ++
     compact_genie_runtime_rules system_text ::
     match compact_household_context system_text with
     | Some context => ["Household context:" +:+ newline +:+ context] | None => [] end).

Definition estimate_message_bytes (m : Message) : nat := String.length (role m) + String.length (content m) + 32.
Definition estimate_messages_bytes (messages : list Message) : nat := sum_list (estimate_message_bytes <$> messages).

(** The system texts, as one. *)
Definition system_text (messages : list Message) : string :=
  join blank_line (List.filter nonempty (trim ∘ content <$> List.filter is_system messages)).

Fixpoint rposition {A} (p : A -> bool) (l : list A) : option nat :=
  match l with
  | [] => None
  | x :: l => match rposition p l with Some i => Some (S i) | None => when (p x) 0 end
  end.

Definition latest_index (messages : list Message) : option nat :=
  (rposition is_user messages <|> rposition (negb ∘ is_system) messages)%rust.

(** The loop over the earlier messages, the last one first: what is kept, in
    the order it is pushed. *)
Fixpoint retain (body_budget estimated_bytes : nat) (earlier : list Message) : list Message :=
  match earlier with
  | [] => []
  | m :: earlier =>
      let message_bytes := estimate_message_bytes m in
      if Nat.ltb body_budget (estimated_bytes + message_bytes) then []
      else m :: retain body_budget (estimated_bytes + message_bytes) earlier
  end.

Definition compacted_system (messages : list Message) : list Message :=
  let text := system_text messages in
  if is_empty text then [] else [{| role := "system"; content := compact_genie_runtime_system text |}].

Definition latest_message (has_system_context : bool) (source : Message) : Message :=
  {| role := "user";
     content := if has_system_context then content source
                else GENIE_RUNTIME_COMPACT_SYSTEM +:+ blank_line +:+ content source |}.

Definition compact_genie_runtime_messages (messages : list Message) (max_body_bytes : nat) : list Message :=
  let compacted := compacted_system messages in
  let has_system_context := match compacted with [] => false | _ => true end in
  match latest_index messages ≫= fun i => (fun m => (i, m)) <$> messages !! i with
  | None => compacted
  | Some (latest_idx, source) =>
      let latest := latest_message has_system_context source in
      let body_budget := max_body_bytes - GENIE_RUNTIME_BODY_OVERHEAD_BYTES in
      let estimated_bytes := estimate_messages_bytes compacted + estimate_message_bytes latest in
      compacted ++
      rev (retain body_budget estimated_bytes (List.filter (negb ∘ is_system) (rev (take latest_idx messages)))) ++
      [latest]
  end.

Definition compact_messages (p : RequestProfile.t) (messages : list Message) (max_body_bytes : nat) : list Message :=
  match p with
  | RequestProfile.Generic _ => messages
  | RequestProfile.GenieAiRuntime => compact_genie_runtime_messages messages max_body_bytes
  end.

Record PreparedChatBody := { prepared_body : string; compacted : bool }.

Definition prepare_body `{Serde} (p : RequestProfile.t) (messages : list Message) (max_tokens : option N)
    (stream : bool) (response_format : option ResponseFormat) (hints : option LlmRequestHints) : PreparedChatBody :=
  let body := serialize_body p messages max_tokens stream response_format hints in
  match p with
  | RequestProfile.GenieAiRuntime =>
      if Nat.leb (String.length body) GENIE_RUNTIME_MAX_BODY_BYTES then {| prepared_body := body; compacted := false |}
      else
        {| prepared_body :=
             serialize_body p (compact_messages p messages GENIE_RUNTIME_MAX_BODY_BYTES) max_tokens stream response_format hints;
           compacted := true |}
  | RequestProfile.Generic _ => {| prepared_body := body; compacted := false |}
  end.

(** ** Without the system role *)

Definition system_role_not_supported `{Unicode} (text : string) : bool :=
  let lower := to_lowercase text in
  contains lower "only user and assistant roles are supported"
  || contains lower "system role not supported"
  || contains lower "unsupported role" && contains lower "system"
  || contains lower "does not support" && contains lower "system".

Definition should_retry_without_system_role `{Unicode} (messages : list Message) (err : string) : bool :=
  existsb is_system messages && system_role_not_supported err.

(** The first user message gets the text. *)
Fixpoint give_first_user (text : string) (messages : list Message) : option (list Message) :=
  match messages with
  | [] => None
  | m :: messages =>
      if is_user m then
        Some ({| role := role m;
                 content := "System instructions:" +:+ newline +:+ text +:+ blank_line +:+ content m |} :: messages)
      else cons m <$> give_first_user text messages
  end.

Definition flatten_system_into_first_user (messages : list Message) : list Message :=
  let text := system_text messages in
  let flattened := List.filter (negb ∘ is_system) messages in
  if is_empty text then flattened
  else default ({| role := "user"; content := "System instructions:" +:+ newline +:+ text |} :: flattened)
         (give_first_user text flattened).

(** ** What compaction keeps *)

Lemma retain_is_a_prefix budget est l : exists rest,
  l = retain budget est l ++ rest /\
  (retain budget est l = [] \/ est + estimate_messages_bytes (retain budget est l) <= budget) /\
  (forall x rest', rest = x :: rest' ->
     budget < est + estimate_messages_bytes (retain budget est l) + estimate_message_bytes x).
Proof.
  revert est. induction l as [|m l IH]; intros est; cbn [retain].
  - exists []. split_and!; [done|by left|done].
  - destruct (Nat.ltb _ _) eqn:E.
    + exists (m :: l). split_and!; [done|by left|]. intros x rest' [= -> ->]. apply Nat.ltb_lt in E. cbn. lia.
    + apply Nat.ltb_ge in E. destruct (IH (est + estimate_message_bytes m)) as (rest & H1 & H2 & H3).
      exists rest. split_and!; [cbn; congruence| |].
      * right. cbn [estimate_messages_bytes fmap list_fmap sum_list sum_list_with foldr id].
        unfold estimate_messages_bytes in *. destruct H2 as [->|H2]; cbn in *; lia.
      * intros x rest' Hr. pose proof (H3 _ _ Hr) as H4. unfold estimate_messages_bytes in *. cbn in *. lia.
Qed.

Lemma estimate_app l l' : estimate_messages_bytes (l ++ l') = estimate_messages_bytes l + estimate_messages_bytes l'.
Proof. unfold estimate_messages_bytes. induction l as [|m l IH]; [done|]. cbn in *. lia. Qed.
Lemma estimate_rev l : estimate_messages_bytes (rev l) = estimate_messages_bytes l.
Proof.
  induction l as [|m l IH]; [done|]. cbn [rev]. rewrite estimate_app, IH. unfold estimate_messages_bytes. cbn. lia.
Qed.

Definition spoken (messages : list Message) : list Message := List.filter (negb ∘ is_system) messages.

Lemma spoken_rev l : spoken (rev l) = rev (spoken l).
Proof.
  unfold spoken. induction l as [|m l IH]; [done|]. cbn [rev List.filter]. rewrite List.filter_app, IH. cbn.
  destruct (is_system m); cbn; [by rewrite app_nil_r|done].
Qed.

Definition has_system_text (messages : list Message) : bool := nonempty (system_text messages).

(** A request compacted for the small runtime is one system text, the
    longest end of the conversation before the latest message that fits the
    budget with it, and that message, whole: no earlier turn is kept where a
    later one was dropped, and what is kept fits unless nothing is kept. *)
Lemma compaction_keeps_the_latest_turns messages max i source :
  latest_index messages = Some i -> messages !! i = Some source ->
  let body := compact_genie_runtime_messages messages max in
  let latest := latest_message (has_system_text messages) source in
  exists dropped kept,
    spoken (take i messages) = dropped ++ kept /\
    body = compacted_system messages ++ kept ++ [latest] /\
    (kept = [] \/ estimate_messages_bytes body <= max - GENIE_RUNTIME_BODY_OVERHEAD_BYTES) /\
    (forall earlier x, dropped = earlier ++ [x] ->
       max - GENIE_RUNTIME_BODY_OVERHEAD_BYTES < estimate_messages_bytes body + estimate_message_bytes x).
Proof.
  intros Hi Hs body latest. unfold body, compact_genie_runtime_messages. rewrite Hi. cbn [mbind option_bind].
  rewrite Hs. cbn [fmap option_fmap option_map].
  assert (match compacted_system messages with [] => false | _ => true end = has_system_text messages) as ->.
  { unfold compacted_system, has_system_text, nonempty. by destruct (is_empty _). }
  fold latest. fold (spoken (rev (take i messages))). rewrite spoken_rev.
  set (est := estimate_messages_bytes (compacted_system messages) + estimate_message_bytes latest).
  set (budget := max - GENIE_RUNTIME_BODY_OVERHEAD_BYTES).
  destruct (retain_is_a_prefix budget est (rev (spoken (take i messages)))) as (rest & H1 & H2 & H3).
  set (kept := retain budget est (rev (spoken (take i messages)))) in *. clearbody kept.
  exists (rev rest), (rev kept).
  assert (estimate_messages_bytes (compacted_system messages ++ rev kept ++ [latest]) = est + estimate_messages_bytes kept) as He.
  { rewrite !estimate_app, estimate_rev. unfold est, estimate_messages_bytes at 3. cbn. lia. }
  split_and!; [|done| |].
  - rewrite <- rev_app_distr, <- H1. by rewrite rev_involutive.
  - destruct H2 as [->|H2]; [by left|right]. by rewrite He.
  - intros earlier x Hd. rewrite He. apply (f_equal (@rev _)) in Hd. rewrite rev_involutive, rev_app_distr in Hd.
    cbn in Hd. exact (H3 x (rev earlier) Hd).
Qed.

(** ** Without the system role *)

Lemma give_first_user_roles text l l' : give_first_user text l = Some l' -> role <$> l' = role <$> l.
Proof.
  revert l'. induction l as [|m l IH]; intros l'; cbn [give_first_user]; [done|].
  destruct (is_user m); [by intros [= <-]|]. destruct (give_first_user text l) as [l1|]; [|done].
  intros [= <-]. cbn. f_equal. by apply IH.
Qed.

Lemma give_first_user_text text l l' : give_first_user text l = Some l' ->
  exists before m after, l = before ++ m :: after /\
    l' = before ++ {| role := role m;
      content := "System instructions:" +:+ newline +:+ text +:+ blank_line +:+ content m |} :: after.
Proof.
  revert l'. induction l as [|m l IH]; intros l'; cbn [give_first_user]; [done|].
  destruct (is_user m); [intros [= <-]; by exists [], m, l|]. destruct (give_first_user text l) as [l1|]; [|done].
  intros [= <-]. destruct (IH _ eq_refl) as (before & x & after & -> & ->). by exists (m :: before), x, after.
Qed.

Lemma spoken_roles l : Forall (fun m => is_system m = false) (spoken l).
Proof. apply Forall_forall. intros m [_ Hm]%list_elem_of_In%filter_In. by apply negb_true_iff. Qed.

Lemma roles_decide_system l l' : role <$> l' = role <$> l -> existsb is_system l' = existsb is_system l.
Proof.
  revert l'. induction l as [|m l IH]; intros [|m' l']; cbn; try done. intros [= Hr Hl]. unfold is_system at 1 3.
  rewrite Hr. f_equal. by apply IH.
Qed.

Lemma spoken_no_system l : existsb is_system (spoken l) = false.
Proof. induction (spoken_roles l) as [|m l' Hm _ IH]; [done|]. cbn. by rewrite Hm. Qed.

(** The messages of the second attempt have no system role, so there is no
    third one. *)
Lemma flattened_is_not_retried `{Unicode} messages err :
  should_retry_without_system_role (flatten_system_into_first_user messages) err = false.
Proof.
  unfold should_retry_without_system_role, flatten_system_into_first_user. fold (spoken messages).
  destruct (is_empty (system_text messages)); [by rewrite spoken_no_system|].
  destruct (give_first_user _ (spoken messages)) as [l|] eqn:E; cbn [default from_option].
  - unfold id. by rewrite (roles_decide_system _ _ (give_first_user_roles _ _ _ E)), spoken_no_system.
  - change (existsb is_system (spoken messages) && system_role_not_supported err = false). by rewrite spoken_no_system.
Qed.

(** Nothing of the system text is lost, and nothing else is touched: it is in
    front of one message, or a message of its own. *)
Lemma flattening_keeps_everything messages :
  let text := system_text messages in
  let result := flatten_system_into_first_user messages in
  text = "" /\ result = spoken messages \/
  result = {| role := "user"; content := "System instructions:" +:+ newline +:+ text |} :: spoken messages \/
  exists before m after, spoken messages = before ++ m :: after /\
    result = before ++ {| role := role m;
      content := "System instructions:" +:+ newline +:+ text +:+ blank_line +:+ content m |} :: after.
Proof.
  intros text result. unfold result, flatten_system_into_first_user. fold (spoken messages) text.
  destruct (is_empty text) eqn:E; [left; split; [by destruct text|done]|right].
  destruct (give_first_user text (spoken messages)) as [l|] eqn:El; [right|by left]. by apply give_first_user_text.
Qed.

(** ** Names and headers *)

Lemma trimmed_middle p s : exists l r, s = l +:+ (trim_matches p s +:+ r).
Proof.
  unfold trim_matches, trim_end_matches, trim_start_matches.
  destruct (drop_while_suffix p (chars s)) as [k Hk]. set (t := concat_str (drop_while p (chars s))).
  destruct (drop_while_suffix p (reverse (chars t))) as [k' Hk'].
  exists (concat_str k), (concat_str (reverse k')). rewrite <- concat_str_app, <- reverse_app, <- Hk', reverse_involutive.
  rewrite concat_chars. unfold t. by rewrite <- concat_str_app, <- Hk, concat_chars.
Qed.

Definition session_byte (a : ascii) : bool := is_ascii_alphanumeric a || Ascii.eqb a "_" || Ascii.eqb a "-".

Lemma session_char_byte c : session_char c = true -> String.length c = 1 /\ sforall session_byte c = true.
Proof.
  unfold session_char. rewrite !orb_true_iff, !String.eqb_eq.
  intros [[H| ->]| ->]; [|done|done]. destruct c as [|a [|b c]]; try done. cbn in H |- *.
  unfold session_byte. by rewrite H.
Qed.

Lemma session_chars_bound out cs :
  String.length out < 64 -> sforall session_byte out = true ->
  String.length (session_chars out cs) <= 64 /\ sforall session_byte (session_chars out cs) = true.
Proof.
  revert out. induction cs as [|c cs IH]; intros out Hl Hs; cbn [session_chars]; [split; [lia|done]|].
  set (out' := if session_char c then out +:+ c else if negb (ends_with out "_") then out +:+ "_" else out).
  assert (String.length out' <= S (String.length out) /\ sforall session_byte out' = true) as [Hl' Hs'].
  { unfold out'. destruct (session_char c) eqn:Ec.
    - apply session_char_byte in Ec as [H1 H2]. rewrite length_sapp, sforall_app, Hs, H1, H2. split; [lia|done].
    - destruct (negb _); [|split; [lia|done]]. rewrite length_sapp, sforall_app, Hs. cbn. split; [lia|done]. }
  destruct (Nat.eqb_spec (String.length out') 64); [split; [lia|done]|]. apply IH; [lia|done].
Qed.

(** A session id handed to the runtime names a file of its cache: it is not
    empty, has at most 64 bytes, and holds letters, digits, hyphens and
    underscores only, whatever the id of the conversation is. *)
Lemma session_id_is_a_file_name raw id : normalize_runtime_session_id raw = Some id ->
  1 <= String.length id <= 64 /\ sforall session_byte id = true.
Proof.
  unfold normalize_runtime_session_id.
  destruct (session_chars_bound "" (chars raw) ltac:(cbn; lia) eq_refl) as [Hl Hs].
  destruct (trimmed_middle (String.eqb "_") (session_chars "" (chars raw))) as (l & r & E).
  generalize dependent (trim_matches (String.eqb "_") (session_chars "" (chars raw))). intros t E.
  destruct (is_empty t) eqn:Ee; [done|]. intros [= <-]. rewrite E in Hl, Hs.
  rewrite !length_sapp in Hl. rewrite !sforall_app in Hs. bool_to_prop. split; [|done].
  split; [destruct t; [done|cbn; lia]|lia].
Qed.

(** The lifetime of a cache entry is said exactly, in the largest unit. *)
Lemma ttl_is_exact secs : exists n unit name,
  format_ttl secs = show_N n +:+ name /\ (n * unit = secs)%N /\ (unit, name) ∈ [(3600, "h"); (60, "m"); (1, "s")]%N.
Proof.
  assert (forall u, (secs mod u = 0 -> secs / u * u = secs)%N) as exact_div.
  { intros u Hu. pose proof (N.div_mod' secs u). lia. }
  unfold format_ttl. destruct (_ && _) eqn:Eh.
  - bool_to_prop. exists (secs / 3600)%N, 3600%N, "h". split_and!; [done|by apply exact_div|set_solver].
  - destruct ((60 <=? secs)%N && _) eqn:Em.
    + bool_to_prop. exists (secs / 60)%N, 60%N, "m". split_and!; [done|by apply exact_div|set_solver].
    + exists secs, 1%N, "s". split_and!; [done|lia|set_solver].
Qed.

(** A token adds one header and no more: what follows [Bearer] up to the line
    break is the token, and holds no other line break. *)
Lemma bearer_is_one_line token a : bearer token = Some a ->
  header_line a = "Authorization: Bearer " +:+ trim token +:+ crlf /\
  trim token <> "" /\ sexists line_break (trim token) = false.
Proof.
  unfold bearer. destruct (_ || _) eqn:E; [done|]. intros [= <-]. bool_to_prop. unfold header_line. cbn [auth_value].
  split_and!; [done| |done]. by destruct (trim token).
Qed.

(** ** Cut texts *)

Lemma length_trim_end s : String.length (trim_end s) <= String.length s.
Proof.
  unfold trim_end, trim_end_matches. destruct (drop_while_suffix is_whitespace (reverse (chars s))) as [k Hk].
  transitivity (String.length (concat_str (reverse (drop_while is_whitespace (reverse (chars s))) ++ reverse k))).
  - rewrite concat_str_app, length_sapp. lia.
  - by rewrite <- reverse_app, <- Hk, reverse_involutive, concat_chars.
Qed.

Lemma truncate_utf8_bound text max : String.length (truncate_utf8 text max) <= max.
Proof.
  unfold truncate_utf8. destruct (Nat.leb_spec (String.length text) max); [done|].
  etransitivity; [apply length_trim_end|]. etransitivity; [apply length_substring|]. by apply boundary_at_most_spec.
Qed.

Lemma error_body_is_short body : String.length (truncate_body body) <= MAX_LEN + 3.
Proof.
  unfold truncate_body. destruct (Nat.leb_spec (String.length (trim body)) MAX_LEN); [lia|].
  rewrite length_sapp. cbn [String.length]. pose proof (truncate_utf8_bound (trim body) MAX_LEN). lia.
Qed.

(** ** Runs *)

Definition said (r c : string) : Message := {| role := r; content := c |}.
Definition long_text : string := concat_str (replicate 300 "a long turn ").

Definition long_talk : list Message :=
  [said "system" "You have home_control."; said "user" long_text; said "assistant" "Done."; said "user" "Thanks";
   said "assistant" "Sure."; said "user" "What is the time?"].

Lemma compaction_keeps_the_latest_turns_witness :
  exists dropped kept, spoken (take 5 long_talk) = dropped ++ kept /\
    compact_genie_runtime_messages long_talk 4096 =
      compacted_system long_talk ++ kept ++ [latest_message true (said "user" "What is the time?")] /\
    (kept = [] \/ estimate_messages_bytes (compact_genie_runtime_messages long_talk 4096) <= 4096 - 512) /\
    (forall earlier x, dropped = earlier ++ [x] ->
       4096 - 512 < estimate_messages_bytes (compact_genie_runtime_messages long_talk 4096) + estimate_message_bytes x).
Proof.
  exact (compaction_keeps_the_latest_turns long_talk 4096 5 (said "user" "What is the time?") eq_refl eq_refl).
Defined.

Example compacted_talk :
  role <$> compact_genie_runtime_messages long_talk 4096 = ["system"; "assistant"; "user"; "assistant"; "user"].
Proof. vm_compute. reflexivity. Qed.

Example session_ids :
  normalize_runtime_session_id "telegram/42 (kitchen)" = Some "telegram_42_kitchen" /\
  normalize_runtime_session_id "///" = None.
Proof. vm_compute. done. Qed.

Example client_of_url :
  let c := from_url "llama.cpp" "http://127.0.0.1:8181/health" in host c = "127.0.0.1" /\ port c = 8181%N.
Proof. vm_compute. done. Qed.

(** What a turn asks for the summary of a tool: the prompt and the answer of
    the tool are system messages, and the answer is long. *)
Definition summary_request (tool_result : string) : list Message :=
  [said "system" "Summarize the tool result for the user."; said "user" "What is in the news?";
   said "assistant" "{web_search}"; said "system" tool_result].

(** The compacted request no longer holds the answer of the tool it was to
    summarise: any two answers that name no tool give the same request. *)
Example compaction_drops_the_tool_result :
  compact_genie_runtime_messages (summary_request (long_text +:+ "It rains in Oslo.")) 4096 =
  compact_genie_runtime_messages (summary_request (long_text +:+ "It is dry in Rome.")) 4096 /\
  existsb (fun m => contains (content m) "Oslo")
    (compact_genie_runtime_messages (summary_request (long_text +:+ "It rains in Oslo.")) 4096) = false.
Proof. vm_compute. done. Qed.

(** The latest message is kept whole, whatever its length. *)
Example compaction_exceeds_the_limit :
  GENIE_RUNTIME_MAX_BODY_BYTES <
    sum_list (String.length ∘ content <$>
      compact_genie_runtime_messages [said "user" (long_text +:+ long_text)] GENIE_RUNTIME_MAX_BODY_BYTES).
Proof. apply Nat.ltb_lt. vm_compute. reflexivity. Qed.
