(* ===== verification/LlmClient.v ===== *)
(** * The client of a language model

    The reply side of [core/llm/openai_compat.rs] and the clients over it
    ([llama_cpp.rs], [genie_ai_runtime.rs]): one exchange over a connection, the
    second attempt without system role, and the decoding of a streamed reply.
    A connection is bytes in pieces ([HttpFraming]); the theorems say that a
    streamed reply does not depend on the pieces, is the tokens handed on, and is
    bounded, and that nothing but the address of the client is contacted. *)

From Stdlib Require Import Ascii String.
From S2P Require Import Prelude RustStr RustNum Json HttpFraming Conversations LlmProvider LlmRequest.
Local Open Scope string_scope.
Local Open Scope list_scope.
Local Open Scope rust_scope.

(** ** Replies *)

Record Delta := { delta_content : option string }.
Record Choice := { choice_message : option Message; choice_delta : option Delta; finish_reason : option string }.
Record ChatResponse := { choices : list Choice }.

(** The derived decoder, with the text of its errors. *)
Class ChatDecoder := { parse_chat : string -> result ChatResponse string }.

Definition MAX_SSE_LINE_BYTES : nat := 64 * 1024.
Definition DEFAULT_MAX_RESPONSE_BYTES : N := 8 * 1024 * 1024.

(** ** Lines *)

Inductive ReadFailure := ReadFailed (e : string) | ReadElapsed.

Definition read_failure (e : HttpReadError) : ReadFailure :=
  match e with
  | HttpReadError.Timeout => ReadElapsed
  | HttpReadError.Io e => ReadFailed e
  | e => ReadFailed (HttpReadError.fmt e)
  end.

Definition NOT_UTF8 : string := "stream did not contain valid UTF-8".

Definition without_line_end (l : string) : string :=
  match strip_suffix l newline with
  | Some l => default l (strip_suffix l (char_of (ascii_of_nat 13)))
  | None => l
  end.

Section lines.
Context {R : Type} `{RD : Reader R} `{UT : Utf8}.

(** [Lines::next_line]: a line of any length, whole; [None] at the end. *)
Definition next_line : M R (result (option string) ReadFailure) := fun r =>
  match read_line_bounded (N.of_nat (bytes_left r)) HttpReadError.HeaderLineTooLong r with
  | (Err e, r) => (Err (read_failure e), r)
  | (Ok [], r) => (Ok None, r)
  | (Ok l, r) => (match from_utf8 l with
                  | Some line => Ok (Some (without_line_end line))
                  | None => Err (ReadFailed NOT_UTF8)
                  end, r)
  end.

(** ** The stream *)

(** What the loop has: the status, whether the blank line was read, and the
    tokens handed on so far with those that were also kept. *)
Record StreamState := { st_status : N; st_headers_done : bool; st_tokens : list string; st_full : string }.
Definition stream_start : StreamState :=
  {| st_status := 0; st_headers_done := false; st_tokens := []; st_full := "" |}.

Inductive LineStep :=
| Continue (st : StreamState)
| Finish (st : StreamState)
| Refuse (st : StreamState) (e : string)
| ReadErrorBody (st : StreamState).

Context `{CD : ChatDecoder} `{SD : Serde}.
(** The client. *)
Variable name : string.
Variable read_secs : N.

Definition set_status (n : N) (st : StreamState) : StreamState :=
  {| st_status := n; st_headers_done := st_headers_done st; st_tokens := st_tokens st; st_full := st_full st |}.
Definition set_headers_done (st : StreamState) : StreamState :=
  {| st_status := st_status st; st_headers_done := true; st_tokens := st_tokens st; st_full := st_full st |}.
Definition hand_on (token : string) (st : StreamState) : StreamState :=
  {| st_status := st_status st; st_headers_done := st_headers_done st; st_tokens := st_tokens st ++ [token];
     st_full := st_full st |}.
Definition keep_token (token : string) (st : StreamState) : StreamState :=
  {| st_status := st_status st; st_headers_done := st_headers_done st; st_tokens := st_tokens st;
     st_full := st_full st +:+ token |}.

Definition line_too_long (line : string) : bool := Nat.ltb MAX_SSE_LINE_BYTES (String.length line).

Definition head_step (line : string) (st : StreamState) : LineStep :=
  if starts_with line "HTTP/" then Continue (set_status (parse_status_line line) st)
  else if is_empty line then
    if (st_status st =? 200)%N then Continue (set_headers_done st) else ReadErrorBody (set_headers_done st)
  else Continue st.

Definition finished (c : Choice) (st : StreamState) : LineStep :=
  match finish_reason c with Some _ => Finish st | None => Continue st end.

Definition choice_step (c : Choice) (st : StreamState) : LineStep :=
  match choice_delta c ≫= delta_content with
  | Some token =>
      let st := hand_on token st in
      if (DEFAULT_MAX_RESPONSE_BYTES <? usize_add (N.of_nat (String.length (st_full st))) (N.of_nat (String.length token)))%N
      then Refuse st (name +:+ " streaming response exceeded " +:+ show_N DEFAULT_MAX_RESPONSE_BYTES +:+ " bytes")
      else finished c (keep_token token st)
  | None => finished c st
  end.

Definition data_step (line : string) (st : StreamState) : LineStep :=
  match strip_prefix line "data: " with
  | None => Continue st
  | Some data =>
      if String.eqb data "[DONE]" then Finish st
      else match parse_chat data with
           | Err _ => Continue st
           | Ok chunk => match head (choices chunk) with Some c => choice_step c st | None => Continue st end
           end
  end.

Definition line_step (line : string) (st : StreamState) : LineStep :=
  if line_too_long line then
    Refuse st (name +:+ " streaming line exceeded " +:+ show_nat MAX_SSE_LINE_BYTES +:+ " bytes")
  else if negb (st_headers_done st) then head_step line st
  else data_step line st.

Definition timed_error (op : string) (secs : N) (f : ReadFailure) : string :=
  match f with
  | ReadFailed e => name +:+ " " +:+ op +:+ " failed: " +:+ e
  | ReadElapsed => name +:+ " " +:+ op +:+ " timed out after " +:+ show_N secs +:+ "s"
  end.

(** Every line has a byte at least: the loops run on the bytes left plus one. *)
Fixpoint error_body_loop (fuel : nat) (error_body : string) : M R (result string string) := fun r =>
  match fuel with
  | O => (Ok error_body, r)
  | S fuel =>
      match next_line r with
      | (Err f, r) => (Err (timed_error "stream error read" read_secs f), r)
      | (Ok None, r) => (Ok error_body, r)
      | (Ok (Some line), r) =>
          if line_too_long line then
            (Err (name +:+ " streaming error line exceeded " +:+ show_nat MAX_SSE_LINE_BYTES +:+ " bytes"), r)
          else if (DEFAULT_MAX_RESPONSE_BYTES <? usize_add (N.of_nat (String.length error_body)) (N.of_nat (String.length line)))%N
          then (Err (name +:+ " streaming error body exceeded " +:+ show_N DEFAULT_MAX_RESPONSE_BYTES +:+ " bytes"), r)
          else error_body_loop fuel (error_body +:+ line) r
      end
  end.

Definition stream_refused (st : StreamState) : M R (list string * result string string) := fun r =>
  let '(body, r) := error_body_loop (S (bytes_left r)) "" r in
  ((st_tokens st, match body with
                  | Err e => Err e
                  | Ok body => Err (name +:+ " " +:+ show_N (st_status st) +:+ ": " +:+ backend_error_message body)
                  end), r).

Definition stream_end (st : StreamState) : list string * result string string :=
  (st_tokens st, if st_headers_done st then Ok (st_full st)
                 else Err (name +:+ " closed streaming connection before HTTP status")).

Fixpoint stream_loop (fuel : nat) (st : StreamState) : M R (list string * result string string) := fun r =>
  match fuel with
  | O => (stream_end st, r)
  | S fuel =>
      match next_line r with
      | (Err f, r) => ((st_tokens st, Err (timed_error "stream read" read_secs f)), r)
      | (Ok None, r) => (stream_end st, r)
      | (Ok (Some line), r) =>
          match line_step line st with
          | Continue st => stream_loop fuel st r
          | Finish st => (stream_end st, r)
          | Refuse st e => ((st_tokens st, Err e), r)
          | ReadErrorBody st => stream_refused st r
          end
      end
  end.

Definition read_stream : M R (list string * result string string) := fun r =>
  stream_loop (S (bytes_left r)) stream_start r.

End lines.

(** ** The exchange *)

(** What [tokio::time::timeout] makes of a call. *)
Inductive attempt (A : Type) := Done (a : A) | Failed (e : string) | Elapsed.
Arguments Done {A} a. Arguments Failed {A} e. Arguments Elapsed {A}.

(** The sockets of the process: a connection, a write to it, and what the peer
    sends back. *)
Class Sockets (W : Type) := {
  tcp_connect : string -> M W (attempt unit);
  tcp_write : string -> string -> M W (attempt unit);
  tcp_reply : string -> string -> M W (list piece);
}.

Section client.
Context {W : Type} `{SK : Sockets W} `{UT : Utf8} `{CD : ChatDecoder} `{SD : Serde} `{U : Unicode}.

Definition connect (c : OpenAiCompatClient) : M W (result unit string) :=
  let! a := tcp_connect (addr c) in
  ret (match a with
       | Done _ => Ok tt
       | Failed e => Err (backend_name c +:+ " connect failed (" +:+ addr c +:+ "): " +:+ e)
       | Elapsed => Err (backend_name c +:+ " connect timed out after " +:+ show_N (connect_timeout (timeouts c)) +:+
                         "s (" +:+ addr c +:+ ")")
       end).

Definition timed_write (c : OpenAiCompatClient) (op request : string) : M W (result unit string) :=
  let! a := tcp_write (addr c) request in
  ret (match a with
       | Done _ => Ok tt
       | Failed e => Err (timed_error (backend_name c) op (read_timeout (timeouts c)) (ReadFailed e))
       | Elapsed => Err (timed_error (backend_name c) op (read_timeout (timeouts c)) ReadElapsed)
       end).

Definition map_llm_http_read_error (e : HttpReadError) : string :=
  match e with
  | HttpReadError.BodyTooLarge => "LLM response exceeded body cap"
  | other => HttpReadError.fmt other
  end.

(** [read_bounded_http_response] under its timeout, the only one it has. *)
Definition timed_response (c : OpenAiCompatClient) (op : string) (secs : N) (reply : list piece)
    : result HttpResponse string :=
  match (read_response (with_body_cap DEFAULT_MAX_RESPONSE_BYTES) reply).1 with
  | Ok r => Ok r
  | Err HttpReadError.Timeout => Err (timed_error (backend_name c) op secs ReadElapsed)
  | Err e => Err (map_llm_http_read_error e)
  end.

Definition post_text (c : OpenAiCompatClient) (path body : string) : string :=
  "POST " +:+ path +:+ " HTTP/1.1" +:+ crlf +:+ "Host: " +:+ addr c +:+ crlf +:+
  "Content-Type: application/json" +:+ crlf +:+ "Content-Length: " +:+ show_nat (String.length body) +:+ crlf +:+
  authorization_header c +:+ "Connection: close" +:+ crlf +:+ crlf +:+ body.

Definition http_post (c : OpenAiCompatClient) (path body : string) : M W (result HttpResponse string) :=
  let!? _ := connect c in
  let request := post_text c path body in
  let!? _ := timed_write c "request write" request in
  let! reply := tcp_reply (addr c) request in
  ret (timed_response c "response read" (request_timeout (timeouts c)) reply).

Definition get_text (c : OpenAiCompatClient) (path : string) : string :=
  "GET " +:+ path +:+ " HTTP/1.1" +:+ crlf +:+ "Host: " +:+ addr c +:+ crlf +:+
  authorization_header c +:+ "Connection: close" +:+ crlf +:+ crlf.

Definition http_get (c : OpenAiCompatClient) (path : string) : M W (result HttpResponse string) :=
  let!? _ := connect c in
  let request := get_text c path in
  let!? _ := timed_write c "health request write" request in
  let! reply := tcp_reply (addr c) request in
  ret (timed_response c "health response read" (read_timeout (timeouts c)) reply).

Definition health (c : OpenAiCompatClient) : M W bool :=
  let! r := http_get c "/health" in
  ret (match r with Ok resp => (status resp =? 200)%N | Err _ => false end).

Definition first_content (r : ChatResponse) : string :=
  default "" (head (choices r) ≫= fun c => content <$> choice_message c).

Definition chat_content (c : OpenAiCompatClient) (body : string) (response : HttpResponse) : result string string :=
  if (status response =? 0)%N && is_empty (trim (rs_body response)) then
    Err (backend_name c +:+ " closed connection before HTTP status (request_bytes=" +:+ show_nat (String.length body) +:+ ")")
  else if negb (status response =? 200)%N then
    Err (backend_name c +:+ " " +:+ show_N (status response) +:+ ": " +:+ backend_error_message (rs_body response))
  else match parse_chat (rs_body response) with
       | Err e => Err ("failed to parse " +:+ backend_name c +:+ " response: " +:+ e +:+ "; body: " +:+
                       truncate_body (rs_body response))
       | Ok r => Ok (first_content r)
       end.

Definition chat_with_prepared_body (c : OpenAiCompatClient) (prepared : PreparedChatBody) : M W (result string string) :=
  let!? response := http_post c "/v1/chat/completions" (prepared_body prepared) in
  ret (chat_content c (prepared_body prepared) response).

Definition chat_with_format_once_and_hints (c : OpenAiCompatClient) (messages : list Message) (max_tokens : option N)
    (response_format : option ResponseFormat) (hints : option LlmRequestHints) : M W (result string string) :=
  chat_with_prepared_body c (prepare_body (request_profile c) messages max_tokens false response_format hints).

(** A refusal of the system role is met with a second attempt without it. *)
Definition chat_with_format_and_hints (c : OpenAiCompatClient) (messages : list Message) (max_tokens : option N)
    (response_format : option ResponseFormat) (hints : option LlmRequestHints) : M W (result string string) :=
  let! r := chat_with_format_once_and_hints c messages max_tokens response_format hints in
  match r with
  | Ok content => ret (Ok content)
  | Err err =>
      if should_retry_without_system_role messages err then
        chat_with_format_once_and_hints c (flatten_system_into_first_user messages) max_tokens response_format hints
      else ret (Err err)
  end.

Definition chat_with_format (c : OpenAiCompatClient) (messages : list Message) (max_tokens : option N)
    (response_format : option ResponseFormat) : M W (result string string) :=
  chat_with_format_and_hints c messages max_tokens response_format None.
Definition chat (c : OpenAiCompatClient) (messages : list Message) (max_tokens : option N) : M W (result string string) :=
  chat_with_format c messages max_tokens None.
Definition chat_json (c : OpenAiCompatClient) (messages : list Message) (max_tokens : option N) : M W (result string string) :=
  chat_with_format c messages max_tokens (Some json_format).

Definition stream_text (c : OpenAiCompatClient) (body : string) : string :=
  "POST /v1/chat/completions HTTP/1.1" +:+ crlf +:+ "Host: " +:+ addr c +:+ crlf +:+
  "Content-Type: application/json" +:+ crlf +:+ "Content-Length: " +:+ show_nat (String.length body) +:+ crlf +:+
  "Accept: text/event-stream" +:+ crlf +:+ authorization_header c +:+ crlf +:+ body.

(** The tokens handed to the caller, and the answer. *)
Definition chat_stream_with_prepared_body (c : OpenAiCompatClient) (prepared : PreparedChatBody)
    : M W (list string * result string string) :=
  let! connected := connect c in
  match connected with
  | Err e => ret ([], Err e)
  | Ok _ =>
      let request := stream_text c (prepared_body prepared) in
      let! written := timed_write c "stream request write" request in
      match written with
      | Err e => ret ([], Err e)
      | Ok _ =>
          let! reply := tcp_reply (addr c) request in
          ret (read_stream (backend_name c) (read_timeout (timeouts c)) reply).1
      end
  end.

Definition chat_stream_with_hints (c : OpenAiCompatClient) (messages : list Message) (max_tokens : option N)
    (hints : option LlmRequestHints) : M W (list string * result string string) :=
  chat_stream_with_prepared_body c (prepare_body (request_profile c) messages max_tokens true None hints).
Definition chat_stream (c : OpenAiCompatClient) (messages : list Message) (max_tokens : option N)
    : M W (list string * result string string) :=
  chat_stream_with_hints c messages max_tokens None.

End client.

(** ** A streamed reply *)

Section stream.
#[local] Opaque DEFAULT_MAX_RESPONSE_BYTES MAX_SSE_LINE_BYTES show_N.
Context `{UT : Utf8} `{CD : ChatDecoder} `{SD : Serde}.
Variable name : string.
Variable read_secs : N.

Lemma next_line_flat ps :
  (next_line ps).1 = (next_line (flatten ps)).1 /\
  (is_ok (next_line ps).1 = true -> flatten (next_line ps).2 = (next_line (flatten ps)).2).
Proof.
  unfold next_line. change (bytes_left (flatten ps)) with (bytes_left ps).
  destruct (line_flat (N.of_nat (bytes_left ps)) HttpReadError.HeaderLineTooLong ps) as [H1 H2]. unfold same_bytes in H2.
  destruct (read_line_bounded _ _ ps) as [x r1], (read_line_bounded _ _ (flatten ps)) as [y r2]. cbn [fst snd] in *.
  subst y. destruct x as [[|a l]|e]; cbn [fst snd is_ok] in *; [auto| |done].
  destruct (from_utf8 (a :: l)); cbn; auto.
Qed.

Lemma next_line_short (w : wire) line w' : next_line w = (Ok (Some line), w') -> (bytes_left w' < bytes_left w)%nat.
Proof.
  unfold next_line. destruct (read_line_bounded _ _ w) as [[[|a l]|e] w1] eqn:E; try done.
  intros [= _ <-]. apply wire_line_ok in E as [E _]. cbn [bytes_left wire_reader]. rewrite E, length_app. cbn. lia.
Qed.

Ltac on_line ps :=
  let H1 := fresh in let H2 := fresh in
  destruct (next_line_flat ps) as [H1 H2];
  destruct (next_line ps) as [[[line|]|f] ps'], (next_line (flatten ps)) as [y w]; cbn [fst snd] in *;
  subst y; cbn [is_ok] in H2; try (specialize (H2 eq_refl); subst w).

Lemma error_body_flat fuel body ps :
  (error_body_loop name read_secs fuel body ps).1 = (error_body_loop name read_secs fuel body (flatten ps)).1.
Proof.
  revert body ps. induction fuel as [|fuel IH]; intros body ps; cbn [error_body_loop]; [done|]. on_line ps; [|done|done].
  destruct (line_too_long line); [done|]. destruct (_ <? _)%N; [done|]. apply IH.
Qed.

Lemma stream_loop_flat fuel st ps :
  (stream_loop name read_secs fuel st ps).1 = (stream_loop name read_secs fuel st (flatten ps)).1.
Proof.
  revert st ps. induction fuel as [|fuel IH]; intros st ps; cbn [stream_loop]; [done|]. on_line ps; [|done|done].
  destruct (line_step name line st) as [st'|st'|st' e|st']; [apply IH|done|done|]. unfold stream_refused.
  change (bytes_left (flatten ps')) with (bytes_left ps').
  pose proof (error_body_flat (S (bytes_left ps')) "" ps') as E.
  destruct (error_body_loop _ _ _ _ ps') as [x r], (error_body_loop _ _ _ _ (flatten ps')) as [y r']. cbn [fst] in E. by subst.
Qed.

Lemma error_body_fuel f1 f2 body (w : wire) :
  (bytes_left w < f1)%nat -> (bytes_left w < f2)%nat ->
  error_body_loop name read_secs f1 body w = error_body_loop name read_secs f2 body w.
Proof.
  revert f2 body w. induction f1 as [|f1 IH]; intros [|f2] body w H1 H2; try lia. cbn [error_body_loop].
  destruct (next_line w) as [[[line|]|f] w'] eqn:E; try done. apply next_line_short in E.
  destruct (line_too_long line); [done|]. destruct (_ <? _)%N; [done|]. apply IH; lia.
Qed.

(** More rounds than bytes change nothing: the loop ends by itself. *)
Lemma stream_loop_fuel f1 f2 st (w : wire) :
  (bytes_left w < f1)%nat -> (bytes_left w < f2)%nat ->
  stream_loop name read_secs f1 st w = stream_loop name read_secs f2 st w.
Proof.
  revert f2 st w. induction f1 as [|f1 IH]; intros [|f2] st w H1 H2; try lia. cbn [stream_loop].
  destruct (next_line w) as [[[line|]|f] w'] eqn:E; try done. apply next_line_short in E.
  destruct (line_step name line st); try done. apply IH; lia.
Qed.

(** What is kept is what was handed on, within the bound; a refusal may have
    handed on one token that was not kept. *)
Definition kept_all (st : StreamState) : Prop :=
  st_full st = concat_str (st_tokens st) /\ (N.of_nat (String.length (st_full st)) <= DEFAULT_MAX_RESPONSE_BYTES)%N.

Lemma cap_fits : (DEFAULT_MAX_RESPONSE_BYTES < u64_max)%N.
Proof. by vm_compute. Qed.

Lemma concat_str_snoc l x : concat_str (l ++ [x]) = concat_str l +:+ x.
Proof. rewrite concat_str_app. f_equal. apply sapp_nil_r. Qed.

Lemma finished_kept c st : kept_all st ->
  match finished c st with Continue st' | Finish st' => kept_all st' | _ => False end.
Proof. unfold finished. by destruct (finish_reason c). Qed.

Lemma choice_step_kept c st : kept_all st ->
  match choice_step name c st with Continue st' | Finish st' | ReadErrorBody st' => kept_all st' | Refuse _ _ => True end.
Proof.
  intros [Hf Hl]. unfold choice_step. destruct (choice_delta c ≫= delta_content) as [token|]; cycle 1.
  { pose proof (finished_kept c st ltac:(by split)) as H. by destruct (finished c st). }
  destruct (N.ltb_spec DEFAULT_MAX_RESPONSE_BYTES (usize_add (N.of_nat (String.length (st_full (hand_on token st)))) (N.of_nat (String.length token))))
    as [|Hle]; [done|].
  pose proof (finished_kept c (keep_token token (hand_on token st))) as H.
  assert (kept_all (keep_token token (hand_on token st))) as Hk.
  { split; cbn [st_full st_tokens keep_token hand_on]; [by rewrite concat_str_snoc, Hf|].
    rewrite length_sapp. pose proof cap_fits. cbn [st_full hand_on] in Hle. unfold usize_add, u64_saturate in Hle. lia. }
  specialize (H Hk). by destruct (finished c _).
Qed.

Lemma line_step_kept line st : kept_all st ->
  match line_step name line st with Continue st' | Finish st' | ReadErrorBody st' => kept_all st' | Refuse _ _ => True end.
Proof.
  intros Hk. unfold line_step, head_step, data_step. destruct (line_too_long line); [done|].
  destruct (negb _).
  { destruct (starts_with line "HTTP/"); [done|]. destruct (is_empty line); [|done]. by destruct (_ =? _)%N. }
  destruct (strip_prefix line "data: ") as [data|]; [|done]. destruct (String.eqb data "[DONE]"); [done|].
  destruct (parse_chat data) as [chunk|]; [|done]. destruct (head (choices chunk)); [by apply choice_step_kept|done].
Qed.

Lemma stream_loop_kept {R} `{RD : Reader R} fuel st (r : R) tokens full :
  kept_all st -> (stream_loop name read_secs fuel st r).1 = (tokens, Ok full) ->
  full = concat_str tokens /\ (N.of_nat (String.length full) <= DEFAULT_MAX_RESPONSE_BYTES)%N.
Proof.
  assert (forall st, kept_all st -> stream_end name st = (tokens, Ok full) ->
    full = concat_str tokens /\ (N.of_nat (String.length full) <= DEFAULT_MAX_RESPONSE_BYTES)%N) as Hend.
  { intros st' [Hf Hl]. unfold stream_end. destruct (st_headers_done st'); [|done]. intros [= <- <-]. by split. }
  revert st r. induction fuel as [|fuel IH]; intros st r Hk; cbn [stream_loop]; [by apply Hend|].
  destruct (next_line r) as [[[line|]|f] r']; [|by apply Hend|done].
  pose proof (line_step_kept line st Hk) as Hs. destruct (line_step name line st) as [st'|st'|st' e|st'].
  - by apply IH.
  - by apply Hend.
  - done.
  - unfold stream_refused. destruct (error_body_loop _ _ _ _ r') as [[]]; done.
Qed.

(** C18: a streamed reply depends on the bytes of the connection and on how it
    ends, not on the pieces they arrive in; when it succeeds it is exactly the
    tokens handed to the caller, and has at most eight mebibytes. *)
Theorem streamed_reply_is_its_tokens (ps ps' : list piece) :
  flatten ps = flatten ps' ->
  let reply := (read_stream name read_secs ps).1 in
  reply = (read_stream name read_secs ps').1 /\
  forall tokens full, reply = (tokens, Ok full) ->
    full = concat_str tokens /\ (N.of_nat (String.length full) <= DEFAULT_MAX_RESPONSE_BYTES)%N.
Proof.
  intros H reply. split.
  - unfold reply, read_stream. rewrite !stream_loop_flat, H. unfold bytes_left, pieces_reader. by rewrite H.
  - intros tokens full. unfold reply, read_stream. apply stream_loop_kept. by split.
Qed.

End stream.

(** ** Who is contacted *)

Section contacts.
Context {W : Type} `{SK : Sockets W} `{UT : Utf8} `{CD : ChatDecoder} `{SD : Serde} `{U : Unicode}.
Variable c : OpenAiCompatClient.
(** What holds of the world after a number of connections to the client's
    address, and is kept by what is written to and read from it. *)
Variable I : nat -> W -> Prop.
Hypothesis connect_counts : forall n w, I n w -> I (S n) (tcp_connect (addr c) w).2.
Hypothesis write_keeps : forall n text w, I n w -> I n (tcp_write (addr c) text w).2.
Hypothesis reply_keeps : forall n text w, I n w -> I n (tcp_reply (addr c) text w).2.

Lemma connect_once n w : I n w -> I (S n) (connect c w).2.
Proof. intros H. unfold connect. rewrite bind_run. by apply connect_counts. Qed.
Lemma write_once n op text w : I n w -> I n (timed_write c op text w).2.
Proof. intros H. unfold timed_write. rewrite bind_run. by apply write_keeps. Qed.

Lemma http_post_once n path body w : I n w -> I (S n) (http_post c path body w).2.
Proof.
  intros H. unfold http_post, ebind. pose proof (connect_once n w H) as Hc. destruct (connect c w) as [[[]|e] w1]; [|done].
  pose proof (write_once _ "request write" (post_text c path body) w1 Hc) as Hw.
  destruct (timed_write c _ _ w1) as [[[]|e] w2]; [|done]. rewrite bind_run. by apply reply_keeps.
Qed.

Lemma chat_once_once n messages max format hints w : I n w ->
  I (S n) (chat_with_format_once_and_hints c messages max format hints w).2.
Proof.
  intros H. unfold chat_with_format_once_and_hints, chat_with_prepared_body, ebind.
  pose proof (http_post_once n "/v1/chat/completions"
    (prepared_body (prepare_body (request_profile c) messages max false format hints)) w H) as Hp.
  by destruct (http_post c _ _ w) as [[]].
Qed.

(** A completion connects once to the address of the client, or twice after a
    refusal of the system role, and to nothing else; a stream connects once. *)
Lemma completion_connects_at_most_twice n messages max format hints w : I n w ->
  let w' := (chat_with_format_and_hints c messages max format hints w).2 in
  I (S n) w' \/ existsb is_system messages = true /\ I (S (S n)) w'.
Proof.
  intros H w'. unfold w', chat_with_format_and_hints. rewrite bind_run.
  pose proof (chat_once_once n messages max format hints w H) as H1.
  destruct (chat_with_format_once_and_hints _ _ _ _ _ w) as [[text|err] w1]; cbn [fst snd] in *; [by left|].
  destruct (should_retry_without_system_role messages err) eqn:E; [right|by left].
  unfold should_retry_without_system_role in E. bool_to_prop. split; [done|]. by apply chat_once_once.
Qed.

Lemma stream_connects_once n messages max hints w : I n w ->
  I (S n) (chat_stream_with_hints c messages max hints w).2.
Proof.
  intros H. unfold chat_stream_with_hints, chat_stream_with_prepared_body. rewrite bind_run.
  pose proof (connect_once n w H) as Hc. destruct (connect c w) as [[[]|e] w1]; cbn [fst snd] in *; [|done].
  rewrite bind_run. set (text := stream_text _ _). pose proof (write_once _ "stream request write" text w1 Hc) as Hw.
  destruct (timed_write c _ _ w1) as [[[]|e] w2]; cbn [fst snd] in *; [|done]. rewrite bind_run. by apply reply_keeps.
Qed.

End contacts.

(** ** Runs *)

Section runs.

(** A decoder that takes every datum for a token. *)
#[local] Instance token_decoder : ChatDecoder := {|
  parse_chat s := Ok {| choices := [{| choice_message := None; choice_delta := Some {| delta_content := Some s |};
                                       finish_reason := None |}] |} |}.
#[local] Existing Instance byte_decoder.
#[local] Instance no_json : Serde := {| from_str := fun _ => None; to_str := fun _ => "{}" |}.

Definition line_of (s : string) : string := s +:+ crlf.
Definition told (lines : list string) : list ascii := bytes (concat_str (line_of <$> lines)).

Definition reply_bytes : list ascii :=
  told ["HTTP/1.1 200 OK"; "Content-Type: text/event-stream"; ""; "data: Good "; ""; "data: morning"; "data: [DONE]"].
Definition in_two (n : nat) : list piece := [Data (take n reply_bytes); Data (drop n reply_bytes); Stall].

Lemma streamed_reply_is_its_tokens_witness :
  (read_stream "llama.cpp" 60 (in_two 70)).1 = (["Good "; "morning"], Ok "Good morning") /\
  "Good morning" = concat_str ["Good "; "morning"].
Proof.
  destruct (streamed_reply_is_its_tokens "llama.cpp" 60 (in_two 70) (in_two 20) ltac:(vm_compute; reflexivity)) as [He Hok].
  assert ((read_stream "llama.cpp" 60 (in_two 20)).1 = (["Good "; "morning"], Ok "Good morning")) as E
    by (vm_compute; reflexivity).
  rewrite E in He. split; [exact He|]. exact (proj1 (Hok _ _ He)).
Defined.

(** A silence before the end of the reply fails the turn, with the tokens that
    came before it handed on. *)
Example stalled_stream :
  (read_stream "llama.cpp" 60 [Data (told ["HTTP/1.1 200 OK"; ""; "data: Good "]); Stall]).1 =
  (["Good "], Err "llama.cpp stream read timed out after 60s").
Proof. vm_compute. reflexivity. Qed.

(** A connection that closes in the middle of a reply has answered with what it
    sent. *)
Example cut_stream_is_an_answer :
  (read_stream "llama.cpp" 60 [Data (told ["HTTP/1.1 200 OK"; ""; "data: Do not "])]).1 = (["Do not "], Ok "Do not ").
Proof. vm_compute. reflexivity. Qed.

Example refused_stream :
  (read_stream "llama.cpp" 60 [Data (told ["HTTP/1.1 503 Busy"; ""; "loading"; " model"])]).1 =
  ([], Err "llama.cpp 503: loading model").
Proof. vm_compute. reflexivity. Qed.

(** A reply in the chunked coding of HTTP is read without undoing it: a token
    whose event is cut by a chunk boundary is not the token that was sent. *)
Example chunk_boundary_breaks_a_token :
  (read_stream "llama.cpp" 60
    [Data (told ["HTTP/1.1 200 OK"; "Transfer-Encoding: chunked"; ""; "c"; "data: Turn o"; "4"; "n";
                 "d"; "data: [DONE]"; "0"; ""])]).1 =
  (["Turn o"], Ok "Turn o").
Proof. vm_compute. reflexivity. Qed.

(** The bound on a line is looked at when the line has been read: a line of
    any length without a line break is taken in whole first. *)
Lemma line_is_read_before_its_bound n :
  next_line [Data (replicate (S n) ("a"%char : ascii))] = (Ok (Some (of_bytes (replicate (S n) "a"%char))), []).
Proof.
  unfold next_line. cbn [read_line_bounded pieces_reader pieces_line bytes_left flatten w_bytes].
  rewrite position_lf_none by by apply Forall_replicate. rewrite app_nil_r.
  cbn [length]. rewrite (proj2 (N.ltb_ge _ _)) by done. cbn [app pieces_line replicate].
  change (from_utf8 ("a"%char :: replicate n "a"%char)) with (Some (of_bytes ("a"%char :: replicate n "a"%char))).
  cbn [option_map]. do 3 f_equal. unfold without_line_end.
  destruct (strip_suffix (of_bytes ("a"%char :: replicate n "a"%char)) newline) as [l|] eqn:E; [|done]. exfalso.
  unfold strip_suffix in E. destruct (ends_with _ newline) eqn:Ee; [|done]. apply ends_with_spec in Ee as [l' Hl].
  apply (f_equal bytes) in Hl. rewrite bytes_of_bytes, bytes_app in Hl.
  assert (ascii_of_nat 10 ∈ "a"%char :: replicate n "a"%char) as Hin by (rewrite Hl; apply elem_of_app; right; by left).
  change ("a"%char :: replicate n "a"%char) with (replicate (S n) "a"%char) in Hin.
  by apply elem_of_replicate in Hin as [? _].
Qed.

End runs.
