(* ===== verification/MemoryPolicy.v ===== *)
(** * Shared-space memory policy ([memory/policy.rs])

    What a household memory is (scope, sensitivity, spoken policy), whether it
    may be written, spoken, injected into the shared prompt or sent to a cloud
    model.  The code avoids lower-casing content when no trigger occurs in it;
    the reference classification below has no such gate. *)

From S2P Require Import Prelude RustStr Json.
From Stdlib Require Import Ascii.
Local Open Scope string_scope.
Local Open Scope list_scope.

Module MemoryScope.
Inductive t : Set := Session | Household | Person | Private.
#[export] Instance eq_dec : EqDecision t.
Proof. solve_decision. Defined.

Definition as_str (s : t) : string :=
  match s with
  | Session => "session" | Household => "household" | Person => "person" | Private => "private"
  end.
Definition from_storage (value : string) : t :=
  let key := to_ascii_lowercase (trim value) in
  if String.eqb key "session" then Session
  else if String.eqb key "person" then Person
  else if String.eqb key "private" then Private
  else Household.
End MemoryScope.
Export (hints) MemoryScope.

Module MemorySensitivity.
Inductive t : Set := Normal | Cautious | Restricted.
#[export] Instance eq_dec : EqDecision t.
Proof. solve_decision. Defined.

Definition as_str (s : t) : string :=
  match s with Normal => "normal" | Cautious => "cautious" | Restricted => "restricted" end.
Definition from_storage (value : string) : t :=
  let key := to_ascii_lowercase (trim value) in
  if String.eqb key "cautious" then Cautious
  else if String.eqb key "restricted" then Restricted
  else Normal.
End MemorySensitivity.
Export (hints) MemorySensitivity.

Module SpokenMemoryPolicy.
Inductive t : Set := Allow | Confirm | AppOnly | Deny.
#[export] Instance eq_dec : EqDecision t.
Proof. solve_decision. Defined.

Definition as_str (s : t) : string :=
  match s with Allow => "allow" | Confirm => "confirm" | AppOnly => "app_only" | Deny => "deny" end.
Definition from_storage (value : string) : t :=
  let key := to_ascii_lowercase (trim value) in
  if String.eqb key "confirm" then Confirm
  else if String.eqb key "app_only" then AppOnly
  else if String.eqb key "deny" then Deny
  else Allow.
End SpokenMemoryPolicy.
Export (hints) SpokenMemoryPolicy.

Module IdentityConfidence.
Inductive t : Set := Unknown | Low | Medium | High.
Definition rank (c : t) : nat :=
  match c with Unknown => 0 | Low => 1 | Medium => 2 | High => 3 end.
(** The derived [PartialOrd]. *)
Definition geb (a b : t) : bool := Nat.leb (rank b) (rank a).
End IdentityConfidence.

Inductive MemoryDisclosure : Set := Speak | Confirm | AppOnly | Deny.

Module MemoryDisclosureClass.
Inductive t : Set := Public | Household | Person | Sensitive | Private | Restricted.
#[export] Instance eq_dec : EqDecision t.
Proof. solve_decision. Defined.
End MemoryDisclosureClass.
Export (hints) MemoryDisclosureClass.

Record MemoryPolicyMetadata := {
  scope : MemoryScope.t;
  sensitivity : MemorySensitivity.t;
  spoken_policy : SpokenMemoryPolicy.t;
}.

Record MemoryReadContext := {
  identity_confidence : IdentityConfidence.t;
  explicit_named_person : bool;
  explicit_private_intent : bool;
  shared_space_voice : bool;
}.

Record MemoryPolicyDecision := {
  decision_allowed : bool;
  decision_disclosure : MemoryDisclosure;
  decision_class : MemoryDisclosureClass.t;
  decision_reason : string;
}.

Definition shared_room_voice : MemoryReadContext := {|
  identity_confidence := IdentityConfidence.Unknown;
  explicit_named_person := false;
  explicit_private_intent := false;
  shared_space_voice := true;
|}.

(** ** Phrase lists *)

(** Phrases of [text_mentions_named_person] and [text_has_private_intent]. *)
Definition named_prefixes : list string :=
   ["what does "; "what did "; "tell me about "; "who is "; "does "; "is "; "ask "; "call ";
    "text "; "message "; "remind "].

Definition named_relations : list string :=
   [" my wife"; " my husband"; " my son"; " my daughter"; " my mom"; " my mother"; " my dad";
    " my father"; " my friend"; " my partner"].

Definition private_words : list string :=
   ["private"; "privately"; "for me only"; "don't say this aloud"; "do not say this aloud"].

(** [has_private_intent]. *)
Definition private_intents : list string :=
   ["remember this privately"; "private memory"; "private note"; "for me only";
    "do not say this aloud"; "don't say this aloud"].

(** [is_cautious_memory]. *)
Definition cautious_phrases : list string :=
   ["medical diagnosis"; "mental health"; "therapy session"; "legal problem";
    "personal secret"; "medication"; "prescription"; "diagnosed with"; "for diabetes";
    "for cancer"; "for depression"; "for anxiety"; "for hypertension"; "for epilepsy";
    "for asthma"; "insulin"; "chemotherapy"; "dialysis"].

(** The three lists of [restricted_secret_reason], and those of the sensitive locations. *)
Definition credential_phrases : list string :=
   ["password"; "pass:"; " pass:"; "passcode"; "one-time code"; "one time code"; "otp";
    "2fa code"; "recovery code"; "seed phrase"; "recovery phrase"; "private key"; "secret key";
    "api key"; "access token"].

Definition access_code_phrases : list string :=
   ["gate code"; "door code"; "garage code"; "alarm code"; "security code"; "safe code";
    "safe combination"; "lock combination"; "lock combo"; "bike lock combo";
    "bicycle lock combo"; "bike lock combination"; "bicycle lock combination"].

Definition payment_phrases : list string :=
   ["credit card"; "card number"; "cvv"; "account number"; "confirmation number";
    "bank account"; "routing number"; "social security"; "ssn"; "passport number";
    "driver license number"; "government id"].

Definition sensitive_objects : list string :=
   ["passport"; "passports"; "birth certificate"; "birth certificates"; "social security card";
    "ssn card"; "government id"; "house key"; "spare key"; "safe key"; "car title";
    "property deed"].

Definition sensitive_places : list string :=
   ["documents are in the safe"; "documents are inside the safe"; "important documents are in";
    "important documents are kept"; "valuables are in the safe";
    "valuables are inside the safe"].

Definition location_phrases : list string :=
   [" is in "; " are in "; " is inside "; " are inside "; " is kept in "; " are kept in ";
    " is kept at "; " are kept at "; " is stored in "; " are stored in "; " is stored at ";
    " are stored at "; " is hidden in "; " are hidden in "; " is hidden under ";
    " are hidden under "; " under "; " behind "].

(** The triggers that decide whether the lists above are consulted at all. *)
Definition restricted_triggers : list string :=
   ["password"; "passcode"; "pass:"; " pass:"; "one-time"; "one time"; "otp"; "2fa";
    "recovery"; "seed phrase"; "private key"; "secret key"; "api key"; "access token";
    "gate code"; "door code"; "garage code"; "alarm code"; "security code"; "safe code";
    "combination"; " lock combo"; "credit card"; "card number"; "cvv"; "account number";
    "confirmation number"; "bank account"; "routing number"; "social security"; "ssn";
    "passport"; "driver license"; "government id"; " is in "; " are in "; " is inside ";
    " are inside "; " is kept "; " are kept "; " is stored "; " are stored "; " is hidden ";
    " are hidden "; " under "; " behind "; "birth certificate"; "house key"; "spare key";
    "safe key"; "car title"; "property deed"; "documents are"; "valuables are";
    "important documents"].

Definition private_triggers : list string :=
   ["private"; "for me only"; "aloud"; "remember this"].

Definition cautious_triggers : list string :=
   ["medical"; "mental health"; "therapy"; "legal"; "secret"; "medication"; "prescription";
    "diagnosed"; "diabetes"; "cancer"; "depression"; "anxiety"; "hypertension"; "epilepsy";
    "asthma"; "insulin"; "chemotherapy"; "dialysis"].

(** Capitalised words that are not names. *)
Definition STOP_WORDS : list string :=
   ["User"; "Users"; "The"; "A"; "An"; "My"; "Our"; "Your"; "His"; "Her"; "Their"; "Its";
    "This"; "That"; "These"; "Those"; "There"; "Here"; "We"; "You"; "He"; "She"; "They"; "It";
    "I"].
(** ** Reading context *)

Definition starts_with_any (text : string) (prefixes : list string) : bool :=
  existsb (starts_with text) prefixes.

Definition text_mentions_named_person (lower : string) : bool :=
  starts_with_any lower named_prefixes || contains_any lower named_relations.
Definition text_has_private_intent (lower : string) : bool := contains_any lower private_words.

Definition memory_read_context_from_text (text : string) (confidence : IdentityConfidence.t)
    (shared_space_voice : bool) : MemoryReadContext :=
  let lower := to_ascii_lowercase (trim text) in
  {| identity_confidence := confidence;
     explicit_named_person := text_mentions_named_person lower;
     explicit_private_intent := text_has_private_intent lower;
     shared_space_voice := shared_space_voice |}.

(** ** Triggers and phrases *)

(** A window of the bytes equal to the needle up to ASCII case. *)
Fixpoint starts_with_ci (s p : string) {struct p} : bool :=
  match p, s with
  | "", _ => true
  | String a p', String b s' => Ascii.eqb (byte_to_lower b) (byte_to_lower a) && starts_with_ci s' p'
  | String _ _, "" => false
  end.
Fixpoint windows_ci (s p : string) : bool :=
  starts_with_ci s p || match s with "" => false | String _ s' => windows_ci s' p end.
Definition contains_ascii_ci (haystack needle : string) : bool :=
  if is_empty needle || Nat.ltb (String.length haystack) (String.length needle) then false
  else windows_ci haystack needle.

Definition needs_restricted_secret_scan_ci (text : string) : bool :=
  existsb (contains_ascii_ci text) restricted_triggers.
Definition needs_private_intent_scan_ci (text : string) : bool :=
  existsb (contains_ascii_ci text) private_triggers.
Definition needs_cautious_scan_ci (text : string) : bool :=
  existsb (contains_ascii_ci text) cautious_triggers.
Definition needs_policy_content_lower (content : string) : bool :=
  needs_restricted_secret_scan_ci content || needs_private_intent_scan_ci content
  || needs_cautious_scan_ci content.

Definition contains_location_phrase (lower : string) : bool := contains_any lower location_phrases.

Definition describes_sensitive_location (lower : string) : bool :=
  (contains_any lower sensitive_objects && contains_location_phrase lower)
  || contains_any lower sensitive_places.

Definition restricted_secret_reason (lower : string) : option string :=
  if contains_any lower credential_phrases then
    Some "I should not store passwords, tokens, keys, or one-time codes as voice memory."
  else if contains_any lower access_code_phrases then
    Some "I should not store household access codes or lock combinations as voice memory."
  else if contains_any lower payment_phrases then
    Some "I should not store payment, banking, or government ID details as voice memory."
  else if describes_sensitive_location lower then
    Some "I should not store sensitive document, key, or safe locations as voice memory."
  else None.

Definition has_private_intent (lower : string) : bool := contains_any lower private_intents.

Definition is_cautious_memory (kind lower : string) : bool :=
  eq_ignore_ascii_case kind "private"
  || (needs_cautious_scan_ci lower && contains_any lower cautious_phrases).

(** ** Classification *)

Definition classify_memory (m : MemoryPolicyMetadata) : MemoryDisclosureClass.t :=
  if bool_decide (sensitivity m = MemorySensitivity.Restricted)
     || bool_decide (spoken_policy m = SpokenMemoryPolicy.Deny)
  then MemoryDisclosureClass.Restricted
  else if bool_decide (scope m = MemoryScope.Private) then MemoryDisclosureClass.Private
  else if bool_decide (sensitivity m = MemorySensitivity.Cautious)
          || bool_decide (spoken_policy m = SpokenMemoryPolicy.Confirm)
  then MemoryDisclosureClass.Sensitive
  else
    match scope m with
    | MemoryScope.Session | MemoryScope.Household => MemoryDisclosureClass.Household
    | MemoryScope.Person => MemoryDisclosureClass.Person
    | MemoryScope.Private => MemoryDisclosureClass.Private
    end.

Definition decision_for_metadata (m : MemoryPolicyMetadata) (allowed : bool)
    (disclosure : MemoryDisclosure) (reason : string) : MemoryPolicyDecision :=
  {| decision_allowed := allowed; decision_disclosure := disclosure;
     decision_class := classify_memory m; decision_reason := reason |}.

Definition restricted_decision (reason : string) : MemoryPolicyDecision :=
  {| decision_allowed := false; decision_disclosure := Deny;
     decision_class := MemoryDisclosureClass.Restricted; decision_reason := reason |}.

Definition kind_private (kind_lower : string) : bool :=
  String.eqb kind_lower "private" || starts_with kind_lower "private_".
Definition kind_person (kind_lower : string) : bool :=
  String.eqb kind_lower "person" || starts_with kind_lower "person_"
  || String.eqb kind_lower "person-linked" || String.eqb kind_lower "person_linked".

Definition scope_of (private_intent person_linked : bool) : MemoryScope.t :=
  if private_intent then MemoryScope.Private
  else if person_linked then MemoryScope.Person else MemoryScope.Household.

Definition spoken_policy_of (s : MemoryScope.t) (v : MemorySensitivity.t) : SpokenMemoryPolicy.t :=
  match s, v with
  | _, MemorySensitivity.Restricted => SpokenMemoryPolicy.Deny
  | MemoryScope.Private, _ => SpokenMemoryPolicy.AppOnly
  | _, MemorySensitivity.Cautious => SpokenMemoryPolicy.Confirm
  | _, _ => SpokenMemoryPolicy.Allow
  end.

Definition metadata_of (s : MemoryScope.t) (v : MemorySensitivity.t) : MemoryPolicyMetadata :=
  {| scope := s; sensitivity := v; spoken_policy := spoken_policy_of s v |}.

Definition infer_metadata_kind_only (kind_lower : string) : MemoryPolicyMetadata :=
  let private_intent := kind_private kind_lower in
  metadata_of (scope_of private_intent (kind_person kind_lower))
    (if private_intent then MemorySensitivity.Cautious else MemorySensitivity.Normal).

Definition infer_metadata_lower (kind kind_lower content_lower : string) : MemoryPolicyMetadata :=
  let private_intent :=
    kind_private kind_lower
    || (needs_private_intent_scan_ci content_lower && has_private_intent content_lower) in
  let restricted :=
    needs_restricted_secret_scan_ci content_lower
    && match restricted_secret_reason content_lower with Some _ => true | None => false end in
  let cautious := is_cautious_memory kind content_lower in
  metadata_of (scope_of private_intent (kind_person kind_lower))
    (if restricted then MemorySensitivity.Restricted
     else if cautious || private_intent then MemorySensitivity.Cautious
     else MemorySensitivity.Normal).

Section unicode.
Context `{U : Unicode}.

Definition infer_metadata (kind content : string) : MemoryPolicyMetadata :=
  let kind_lower := to_lowercase (trim kind) in
  if negb (needs_policy_content_lower content) then infer_metadata_kind_only kind_lower
  else infer_metadata_lower kind kind_lower (to_lowercase content).

(** The tail both branches of the write decision share. *)
Definition write_decision (m : MemoryPolicyMetadata) : MemoryPolicyDecision :=
  if bool_decide (scope m = MemoryScope.Private) then
    decision_for_metadata m false AppOnly
      "Private personal memory requires an explicit app-backed flow in V1."
  else decision_for_metadata m true Speak "Memory is safe for household-shared storage.".

Definition assess_memory_write (kind content : string) : MemoryPolicyDecision :=
  let kind_lower := to_lowercase (trim kind) in
  if needs_policy_content_lower content then
    let content_lower := to_lowercase content in
    match (if needs_restricted_secret_scan_ci content_lower
           then restricted_secret_reason content_lower else None) with
    | Some reason => restricted_decision reason
    | None => write_decision (infer_metadata_lower kind kind_lower content_lower)
    end
  else write_decision (infer_metadata_kind_only kind_lower).

Definition assess_memory_read (m : MemoryPolicyMetadata) (c : MemoryReadContext) : MemoryPolicyDecision :=
  if bool_decide (spoken_policy m = SpokenMemoryPolicy.Deny)
     || bool_decide (sensitivity m = MemorySensitivity.Restricted)
  then decision_for_metadata m false Deny "Memory is restricted and must not be spoken."
  else
    match scope m with
    | MemoryScope.Session | MemoryScope.Household =>
        match spoken_policy m with
        | SpokenMemoryPolicy.Allow =>
            decision_for_metadata m true Speak "Household memory is safe for shared-space use."
        | SpokenMemoryPolicy.Confirm =>
            decision_for_metadata m false Confirm
              "Cautious household memory requires confirmation before speaking."
        | SpokenMemoryPolicy.AppOnly =>
            decision_for_metadata m false AppOnly
              "Memory should be shown in the app instead of spoken."
        | SpokenMemoryPolicy.Deny =>
            decision_for_metadata m false Deny "Memory policy denies spoken disclosure."
        end
    | MemoryScope.Person =>
        if explicit_named_person c
           || IdentityConfidence.geb (identity_confidence c) IdentityConfidence.Medium
        then decision_for_metadata m true Speak
               "Person-linked household memory is eligible in this context."
        else decision_for_metadata m false Confirm
               "Person-linked memory needs explicit naming or stronger identity confidence."
    | MemoryScope.Private =>
        if explicit_private_intent c && negb (shared_space_voice c)
        then decision_for_metadata m false AppOnly
               "Private memory should be presented through a personal interface."
        else decision_for_metadata m false Deny "Private memory is not spoken in shared-room voice."
    end.

Inductive EscalationPolicy : Set := LocalOnly | Anonymized.

Definition escalation_policy (m : MemoryPolicyMetadata) : EscalationPolicy :=
  match scope m, sensitivity m with
  | MemoryScope.Private, _ => LocalOnly
  | _, MemorySensitivity.Restricted | _, MemorySensitivity.Cautious => LocalOnly
  | _, _ => Anonymized
  end.

Definition eligible_for_escalation (kind content : string) : bool :=
  if eq_ignore_ascii_case kind "identity" then false
  else match escalation_policy (infer_metadata kind content) with
       | Anonymized => true | LocalOnly => false end.

Definition may_inject_into_shared_prompt (kind content : string) : bool :=
  decision_allowed (assess_memory_read (infer_metadata kind content) shared_room_voice).

(** ** Names for the privacy proxy *)

Definition alpha_of (word : string) : string := concat_str (List.filter is_alphabetic (chars word)).
Definition is_proper (alpha : string) : bool :=
  Nat.ltb 1 (String.length alpha)
  && match chars alpha with c :: _ => is_uppercase c | [] => false end
  && negb (existsb (String.eqb alpha) STOP_WORDS).

Definition push_new (t : string) (terms : list string) : list string :=
  if existsb (String.eqb t) terms then terms else terms ++ [t].

(** The end of a run of proper words: the whole name, then its first word. *)
Definition flush_run (run terms : list string) : list string :=
  match run with
  | [] => terms
  | [w] => push_new w terms
  | w :: _ => push_new w (push_new (join " " run) terms)
  end.

Fixpoint vocab_loop (run terms words : list string) : list string :=
  match words with
  | [] => flush_run run terms
  | w :: words =>
      let alpha := alpha_of w in
      if is_proper alpha then vocab_loop (run ++ [alpha]) terms words
      else vocab_loop [] (flush_run run terms) words
  end.

Definition extract_vocab_terms (content : string) : list string :=
  vocab_loop [] [] (split_whitespace content).

(** ** The reference: no gates *)

Definition infer_reference (kind content : string) : MemoryPolicyMetadata :=
  let kind_lower := to_lowercase (trim kind) in
  let lower := to_lowercase content in
  let private_intent := kind_private kind_lower || has_private_intent lower in
  let cautious := eq_ignore_ascii_case kind "private" || contains_any lower cautious_phrases in
  metadata_of (scope_of private_intent (kind_person kind_lower))
    (match restricted_secret_reason lower with
     | Some _ => MemorySensitivity.Restricted
     | None => if cautious || private_intent then MemorySensitivity.Cautious
               else MemorySensitivity.Normal
     end).

Definition write_reference (kind content : string) : MemoryPolicyDecision :=
  match restricted_secret_reason (to_lowercase content) with
  | Some reason => restricted_decision reason
  | None => write_decision (infer_reference kind content)
  end.

End unicode.

(** ** The trigger scan is a case-insensitive search *)

Lemma starts_with_ci_lower s p :
  starts_with_ci s p = starts_with (to_ascii_lowercase s) (to_ascii_lowercase p).
Proof.
  revert s. induction p as [|a p IH]; intros [|b s]; try done.
  cbn [starts_with_ci to_ascii_lowercase smap starts_with]. rewrite IH. f_equal.
  destruct (Ascii.eqb_spec (byte_to_lower b) (byte_to_lower a)) as [->|Hn];
    [by rewrite Ascii.eqb_refl|]. symmetry. apply Ascii.eqb_neq. congruence.
Qed.

Lemma windows_ci_lower s p :
  windows_ci s p = contains (to_ascii_lowercase s) (to_ascii_lowercase p).
Proof.
  induction s as [|b s IH]; cbn [windows_ci]; rewrite starts_with_ci_lower; [done|].
  rewrite IH. done.
Qed.

Lemma contains_length s p : contains s p = true -> String.length p <= String.length s.
Proof. intros (l & r & ->)%contains_spec. rewrite !length_sapp. lia. Qed.

Lemma contains_ascii_ci_lower h n :
  n <> "" ->
  contains_ascii_ci h n = contains (to_ascii_lowercase h) (to_ascii_lowercase n).
Proof.
  intros Hn. unfold contains_ascii_ci. rewrite windows_ci_lower.
  destruct n as [|a n]; [done|]. cbn [is_empty orb].
  destruct (Nat.ltb_spec (String.length h) (String.length (String a n))) as [Hl|]; [|done].
  destruct (contains _ _) eqn:E; [|done]. apply contains_length in E. rewrite !length_lower in E. lia.
Qed.

Lemma lower_ascii s : is_ascii s = true -> is_ascii (to_ascii_lowercase s) = true.
Proof.
  unfold is_ascii. induction s as [|a s IH]; [done|]. unfold to_ascii_lowercase in *.
  cbn [smap sforall]. intros H. bool_to_prop. rewrite IH by done. rewrite andb_true_r.
  revert a H. apply byte_forall2. by vm_compute.
Qed.

(** Triggers that need no case folding. *)
Definition plain_trigger (g : string) : bool := negb (is_empty g) && String.eqb (to_ascii_lowercase g) g.

Lemma plain_triggers :
  forallb plain_trigger (restricted_triggers ++ private_triggers ++ cautious_triggers) = true.
Proof. vm_compute. reflexivity. Qed.

Lemma trigger_contains g text :
  g ∈ restricted_triggers ++ private_triggers ++ cautious_triggers ->
  contains_ascii_ci text g = contains (to_ascii_lowercase text) g.
Proof.
  intros Hg. pose proof plain_triggers as H. rewrite forallb_elem in H. apply H in Hg.
  unfold plain_trigger in Hg. bool_to_prop. rewrite contains_ascii_ci_lower.
  - congruence.
  - by intros ->.
Qed.

(** Every phrase of the list contains one of the triggers. *)
Definition covers (triggers phrases : list string) : bool :=
  forallb (fun p => existsb (contains p) triggers) phrases.

Lemma covers_scan triggers phrases text :
  triggers ⊆ restricted_triggers ++ private_triggers ++ cautious_triggers ->
  covers triggers phrases = true ->
  contains_any (to_ascii_lowercase text) phrases = true ->
  existsb (contains_ascii_ci text) triggers = true.
Proof.
  intros Hsub Hc Hp. unfold covers in Hc. rewrite forallb_elem in Hc.
  apply existsb_elem in Hp as (p & Hp & Htext). apply Hc in Hp.
  apply existsb_elem in Hp as (g & Hg & Hpg). apply existsb_elem. exists g. split; [done|].
  rewrite trigger_contains by auto. by eapply contains_trans.
Qed.

Lemma scan_lower triggers text :
  triggers ⊆ restricted_triggers ++ private_triggers ++ cautious_triggers ->
  existsb (contains_ascii_ci (to_ascii_lowercase text)) triggers = existsb (contains_ascii_ci text) triggers.
Proof.
  pose proof trigger_contains as Ht. revert Ht.
  generalize (restricted_triggers ++ private_triggers ++ cautious_triggers) as all. intros all Ht Hsub. induction triggers as [|g l IH]; [done|]. cbn [existsb].
  apply list_subseteq_cons_iff in Hsub as [Hg Hsub]. rewrite IH by done. by rewrite !Ht, lower_idem by done.
Qed.

Lemma restricted_sub : restricted_triggers ⊆ restricted_triggers ++ private_triggers ++ cautious_triggers.
Proof. intros g Hg. apply elem_of_app. by left. Qed.
Lemma private_sub : private_triggers ⊆ restricted_triggers ++ private_triggers ++ cautious_triggers.
Proof. intros g Hg. apply elem_of_app. right. apply elem_of_app. by left. Qed.
Lemma cautious_sub : cautious_triggers ⊆ restricted_triggers ++ private_triggers ++ cautious_triggers.
Proof. intros g Hg. apply elem_of_app. right. apply elem_of_app. by right. Qed.

Lemma private_covered : covers private_triggers private_intents = true.
Proof. vm_compute. reflexivity. Qed.
Lemma cautious_covered : covers cautious_triggers cautious_phrases = true.
Proof. vm_compute. reflexivity. Qed.
Lemma restricted_covered :
  covers restricted_triggers
    (credential_phrases ++ List.filter (fun p => negb (String.eqb p "lock combo")) access_code_phrases ++
     payment_phrases ++ location_phrases ++ sensitive_places) = true.
Proof. vm_compute. reflexivity. Qed.

Lemma contains_any_app s l k : contains_any s (l ++ k) = contains_any s l || contains_any s k.
Proof. apply existsb_app. Qed.

(** The one phrase no trigger covers: a lock combo at the start of the text or
    inside a word. *)
Definition lock_combo_spaced (lower : string) : Prop :=
  contains lower "lock combo" = true -> contains lower " lock combo" = true.

Lemma restricted_reason_scanned text :
  lock_combo_spaced (to_ascii_lowercase text) ->
  is_Some (restricted_secret_reason (to_ascii_lowercase text)) ->
  needs_restricted_secret_scan_ci text = true.
Proof.
  intros Hlc Hr. unfold needs_restricted_secret_scan_ci.
  destruct (contains_any (to_ascii_lowercase text) (credential_phrases ++
    List.filter (fun p => negb (String.eqb p "lock combo")) access_code_phrases ++
    payment_phrases ++ location_phrases ++ sensitive_places)) eqn:E.
  { apply (covers_scan _ _ _ restricted_sub restricted_covered E). }
  rewrite !contains_any_app in E. bool_to_prop.
  destruct (contains (to_ascii_lowercase text) "lock combo") eqn:Elc.
  - apply existsb_elem. exists " lock combo".
    assert (" lock combo" ∈ restricted_triggers) as Hin.
    { apply eqb_elem. vm_compute. reflexivity. }
    split; [done|]. rewrite trigger_contains by by apply restricted_sub. auto.
  - exfalso. unfold restricted_secret_reason, describes_sensitive_location, contains_location_phrase in Hr.
    assert (contains_any (to_ascii_lowercase text) access_code_phrases = false) as Ha.
    { apply not_true_is_false. intros Ha. apply existsb_elem in Ha as (p & Hp & Hc).
      assert (existsb (contains (to_ascii_lowercase text))
        (List.filter (fun p => negb (String.eqb p "lock combo")) access_code_phrases) = true) as Hx.
      { apply existsb_exists. exists p. split; [|done]. apply filter_In. split; [by apply list_elem_of_In|].
        apply negb_true_iff, String.eqb_neq. intros ->. congruence. }
      unfold contains_any in *. congruence. }
    repeat match goal with H : contains_any _ _ = false |- _ => rewrite H in Hr; clear H end.
    rewrite andb_false_r in Hr. by destruct Hr.
Qed.

Section gates.
Context `{U : Unicode} `{!UnicodeLaws U}.

Lemma sforall_smap p f s : sforall p (smap f s) = sforall (fun a => p (f a)) s.
Proof. induction s as [|a s IH]; [done|]. cbn. by rewrite IH. Qed.

Lemma kind_private_lower kind :
  eq_ignore_ascii_case kind "private" = true -> to_lowercase (trim kind) = "private".
Proof.
  unfold eq_ignore_ascii_case. intros H%String.eqb_eq. change (to_ascii_lowercase "private") with "private" in H.
  assert (sforall (fun a => byte_is_lower (byte_to_lower a)) kind = true) as Hl.
  { rewrite <- sforall_smap. fold (to_ascii_lowercase kind). by rewrite H. }
  rewrite (trim_ascii_id (fun a => byte_is_lower (byte_to_lower a))) by (done || by vm_compute).
  rewrite to_lowercase_ascii; [done|]. eapply sforall_impl; [|exact Hl].
  apply byte_forall2. by vm_compute.
Qed.

Lemma metadata_kind_private kind lower :
  let private_intent := kind_private (to_lowercase (trim kind)) || has_private_intent lower in
  eq_ignore_ascii_case kind "private" || private_intent = private_intent.
Proof.
  cbv zeta. destruct (eq_ignore_ascii_case kind "private") eqn:E; [|done].
  by rewrite (kind_private_lower _ E).
Qed.

(** The facts the scans stand for, when the content is ASCII. *)
Lemma scan_facts content :
  is_ascii content = true -> lock_combo_spaced (to_ascii_lowercase content) ->
  (needs_restricted_secret_scan_ci content = false ->
   restricted_secret_reason (to_ascii_lowercase content) = None) /\
  (needs_private_intent_scan_ci content = false ->
   has_private_intent (to_ascii_lowercase content) = false) /\
  (needs_cautious_scan_ci content = false ->
   contains_any (to_ascii_lowercase content) cautious_phrases = false).
Proof.
  intros Ha Hl. split_and!; intros Hn.
  - apply eq_None_not_Some. intros Hs. by rewrite restricted_reason_scanned in Hn.
  - apply not_true_is_false. intros H.
    unfold needs_private_intent_scan_ci in Hn.
    by rewrite (covers_scan _ _ _ private_sub private_covered H) in Hn.
  - apply not_true_is_false. intros H.
    unfold needs_cautious_scan_ci in Hn.
    by rewrite (covers_scan _ _ _ cautious_sub cautious_covered H) in Hn.
Qed.

Lemma scans_lower content :
  needs_restricted_secret_scan_ci (to_ascii_lowercase content) = needs_restricted_secret_scan_ci content /\
  needs_private_intent_scan_ci (to_ascii_lowercase content) = needs_private_intent_scan_ci content /\
  needs_cautious_scan_ci (to_ascii_lowercase content) = needs_cautious_scan_ci content.
Proof.
  split_and!; apply scan_lower; [apply restricted_sub|apply private_sub|apply cautious_sub].
Qed.

Lemma infer_is_reference kind content :
  is_ascii content = true -> lock_combo_spaced (to_ascii_lowercase content) ->
  infer_metadata kind content = infer_reference kind content.
Proof.
  intros Ha Hl. destruct (scan_facts content Ha Hl) as (Hr & Hp & Hc).
  destruct (scans_lower content) as (Sr & Sp & Sc).
  unfold infer_metadata, infer_reference, needs_policy_content_lower.
  rewrite (to_lowercase_ascii content) by done.
  destruct (needs_restricted_secret_scan_ci content || _ || _) eqn:Hn; cbn [negb].
  - unfold infer_metadata_lower, is_cautious_memory. rewrite Sr, Sp, Sc.
    assert (needs_private_intent_scan_ci content && has_private_intent (to_ascii_lowercase content)
            = has_private_intent (to_ascii_lowercase content)) as ->.
    { destruct (needs_private_intent_scan_ci content); [done|]. by rewrite Hp. }
    assert (needs_cautious_scan_ci content && contains_any (to_ascii_lowercase content) cautious_phrases
            = contains_any (to_ascii_lowercase content) cautious_phrases) as ->.
    { destruct (needs_cautious_scan_ci content); [done|]. by rewrite Hc. }
    destruct (needs_restricted_secret_scan_ci content); cbn [andb];
      [by destruct (restricted_secret_reason _)|by rewrite Hr].
  - bool_to_prop. rewrite Hr, Hp, Hc by done. unfold infer_metadata_kind_only. f_equal.
    + by rewrite orb_false_r.
    + pose proof (metadata_kind_private kind "") as Hk. cbn [has_private_intent] in Hk.
      change (has_private_intent "") with false in Hk. rewrite !orb_false_r in *. by rewrite Hk.
Qed.

Lemma write_is_reference kind content :
  is_ascii content = true -> lock_combo_spaced (to_ascii_lowercase content) ->
  assess_memory_write kind content = write_reference kind content.
Proof.
  intros Ha Hl. destruct (scan_facts content Ha Hl) as (Hr & _).
  destruct (scans_lower content) as (Sr & _). pose proof (infer_is_reference kind content Ha Hl) as Hi.
  unfold assess_memory_write, write_reference, infer_metadata in *.
  rewrite <- Hi, (to_lowercase_ascii content) by done.
  destruct (needs_policy_content_lower content) eqn:Hn; cbn [negb].
  - rewrite Sr. destruct (needs_restricted_secret_scan_ci content); [done|]. by rewrite Hr.
  - unfold needs_policy_content_lower in Hn. bool_to_prop. by rewrite Hr.
Qed.

End gates.

(** ** Properties *)

(** For ASCII content, the trigger gates do not change what is stored: the
    write decision and the classification are those of the reference that
    consults every phrase list, unless the only restricted phrase is a lock
    combination at the start of the text or inside a word. *)
Lemma memory_gates_sound `{U : Unicode} `{!UnicodeLaws U} kind content :
  is_ascii content = true -> lock_combo_spaced (to_ascii_lowercase content) ->
  assess_memory_write kind content = write_reference kind content /\
  infer_metadata kind content = infer_reference kind content.
Proof. intros Ha Hl. split; [by apply write_is_reference|by apply infer_is_reference]. Qed.

(** The exception is real.  A padlock combination is refused by the
    reference and accepted by the code, which stores it as ordinary household
    memory and would speak it. *)
Lemma padlock_combo_escapes :
  let content := "The padlock combo is 12-34-56" in
  decision_allowed (@assess_memory_write ascii_tables "fact" content) = true /\
  decision_allowed (@write_reference ascii_tables "fact" content) = false /\
  @may_inject_into_shared_prompt ascii_tables "fact" content = true.
Proof. vm_compute. done. Qed.

(** What may be spoken.  A memory is disclosed exactly when it is neither
    restricted nor denied and is household memory that allows speech, or
    person-linked memory of a person who was named or is identified with at
    least medium confidence; private memory is never spoken. *)
Lemma read_disclosure_exact m c :
  (decision_allowed (assess_memory_read m c) = true <->
   sensitivity m <> MemorySensitivity.Restricted /\ spoken_policy m <> SpokenMemoryPolicy.Deny /\
   ((scope m = MemoryScope.Session \/ scope m = MemoryScope.Household) /\
    spoken_policy m = SpokenMemoryPolicy.Allow \/
    scope m = MemoryScope.Person /\
    (explicit_named_person c = true \/
     IdentityConfidence.geb (identity_confidence c) IdentityConfidence.Medium = true))) /\
  (decision_allowed (assess_memory_read m c) = true <-> decision_disclosure (assess_memory_read m c) = Speak).
Proof.
  unfold assess_memory_read. destruct m as [s v p]. cbn [scope sensitivity spoken_policy].
  destruct (bool_decide (p = _) || bool_decide (v = _)) eqn:E.
  { cbn. split; [|done]. split; [done|]. intros (? & ? & _). bool_cases; done. }
  bool_to_prop. generalize (IdentityConfidence.geb (identity_confidence c) IdentityConfidence.Medium) as g.
  intros g. destruct s; [destruct p|destruct p|destruct (explicit_named_person c), g|
    destruct (explicit_private_intent c && negb (shared_space_voice c))];
    cbn; (split; [|done]); intuition congruence.
Qed.

(** Nothing leaves the device or enters the shared prompt by accident: a
    fact the shared prompt may hold is household memory with no cautious or
    restricted content, a fact the cloud may see is neither private, cautious
    nor restricted and is no identity, and what the prompt may not hold because
    it is private or sensitive is not sent either. *)
Lemma sharing_is_conservative `{U : Unicode} kind content :
  (may_inject_into_shared_prompt kind content = true ->
   scope (infer_metadata kind content) = MemoryScope.Household /\
   classify_memory (infer_metadata kind content) = MemoryDisclosureClass.Household) /\
  (eligible_for_escalation kind content = true ->
   eq_ignore_ascii_case kind "identity" = false /\
   sensitivity (infer_metadata kind content) = MemorySensitivity.Normal /\
   scope (infer_metadata kind content) <> MemoryScope.Private).
Proof.
  unfold may_inject_into_shared_prompt, eligible_for_escalation, infer_metadata,
    infer_metadata_kind_only, infer_metadata_lower, metadata_of, scope_of.
  generalize (kind_private (to_lowercase (trim kind))) as kp, (kind_person (to_lowercase (trim kind))) as kn.
  intros kp kn. destruct (negb (needs_policy_content_lower content)).
  - destruct kp, kn, (eq_ignore_ascii_case kind "identity"); cbn; naive_solver.
  - generalize (needs_private_intent_scan_ci (to_lowercase content) && has_private_intent (to_lowercase content)) as pi.
    generalize (is_cautious_memory kind (to_lowercase content)) as ca.
    destruct (needs_restricted_secret_scan_ci (to_lowercase content) && _);
      intros [] []; destruct kp, kn, (eq_ignore_ascii_case kind "identity"); cbn; naive_solver.
Qed.

(** Names handed to the privacy proxy are listed once each. *)
Lemma vocab_terms_unique `{U : Unicode} content : NoDup (extract_vocab_terms content).
Proof.
  assert (forall t terms, NoDup terms -> NoDup (push_new t terms)) as Hp.
  { intros t terms Ht. unfold push_new. destruct (existsb _ _) eqn:E; [done|].
    apply NoDup_app. split_and!; [done| |apply NoDup_singleton].
    intros x Hx ->%list_elem_of_singleton. apply eqb_elem in Hx. congruence. }
  assert (forall run terms, NoDup terms -> NoDup (flush_run run terms)) as Hf.
  { intros [|w [|]] terms Ht; cbn; auto. }
  assert (forall words run terms, NoDup terms -> NoDup (vocab_loop run terms words)) as Hl.
  { induction words as [|w words IH]; intros run terms Ht; cbn [vocab_loop]; [by apply Hf|].
    destruct (is_proper _); apply IH; auto. }
  apply Hl. constructor.
Qed.

Lemma memory_gates_sound_witness :
  @assess_memory_write ascii_tables "fact" "The bike lock combo is 1234" =
  @write_reference ascii_tables "fact" "The bike lock combo is 1234" /\
  @infer_metadata ascii_tables "fact" "The bike lock combo is 1234" =
  @infer_reference ascii_tables "fact" "The bike lock combo is 1234".
Proof. apply memory_gates_sound; [reflexivity|vm_compute; auto]. Defined.
