(* ===== verification/Escalation.v ===== *)
(** * Escalation through the privacy proxy ([llm/escalation.rs],
    [llm/privacy_proxy.rs], [server.rs], [config.rs])

    A turn that the local model cannot take may be handed, as it is, to a proxy
    on the same device, which masks the names of the household before it asks a
    model in the cloud.  The names to mask are read from the memory. *)

From S2P Require Import Prelude RustStr RustNum Json Redaction Conversations LlmProvider MemoryPolicy.
Local Open Scope string_scope.
Local Open Scope list_scope.
Local Open Scope rust_scope.

Module EscalationTrigger.
Inductive t : Set := LocalDecline | ContextOverflow | LocalDeclineOrContextOverflow.
End EscalationTrigger.

Module EscalationReason.
Inductive t : Set := ContextOverflow | LocalDecline.
Definition as_str (r : t) : string :=
  match r with ContextOverflow => "context_overflow" | LocalDecline => "local_decline" end.
End EscalationReason.

Record PrivacyProxyConfig := {
  pp_enabled : bool;
  pp_base_url : string;
  pp_trigger : EscalationTrigger.t;
  pp_vocab_path : string;
}.

Definition default_privacy_proxy : PrivacyProxyConfig := {|
  pp_enabled := false; pp_base_url := "http://127.0.0.1:8180/v1";
  pp_trigger := EscalationTrigger.LocalDeclineOrContextOverflow; pp_vocab_path := "/vocab/seed" |}.

Definition endpoint_is_valid (p : PrivacyProxyConfig) : bool := negb (pp_enabled p) || is_local_url (pp_base_url p).

Definition may_escalate (proxy : option PrivacyProxyConfig) (reason : EscalationReason.t)
    : option PrivacyProxyConfig :=
  p ← proxy;
  if pp_enabled p && endpoint_is_valid p then
    let allowed :=
      match reason, pp_trigger p with
      | EscalationReason.ContextOverflow, EscalationTrigger.ContextOverflow
      | EscalationReason.ContextOverflow, EscalationTrigger.LocalDeclineOrContextOverflow
      | EscalationReason.LocalDecline, EscalationTrigger.LocalDecline
      | EscalationReason.LocalDecline, EscalationTrigger.LocalDeclineOrContextOverflow => true
      | _, _ => false
      end in
    if allowed then Some p else None
  else None.

Record EscalationPayloadSummary := { es_message_count : nat; payload_chars : nat }.

Definition summarize_messages (messages : list Message) : EscalationPayloadSummary :=
  {| es_message_count := length messages;
     payload_chars := sum_list ((fun m => length (chars (content m))) <$> messages) |}.

(** The line of [log_provider_escalation]. *)
Record EscalationEvent := {
  ev_reason : string;
  ev_surface : string;
  ev_message_count : nat;
  ev_payload_chars : nat;
  ev_vocab_terms : nat;
}.

(** ** Endpoints *)

(** Both clients of the proxy read their endpoint like this, with their own
    default port. *)
Definition client_endpoint (default_port : string) (port_of : N) (base_url : string) : string * N :=
  let stripped := default base_url (strip_prefix base_url "http://") in
  let host_port := match split_once stripped "/" with Some (l, _) => l | None => stripped end in
  let '(host, port_str) :=
    match split_once host_port ":" with Some hp => hp | None => (host_port, default_port) end in
  (host, default port_of (parse_u16 port_str)).

(** [PrivacyProxyBackend::from_url]: where the names are posted. *)
Definition proxy_endpoint (base_url : string) : string * N := client_endpoint "8180" 8180 base_url.
(** [OpenAiCompatClient::from_url]: where the messages are sent. *)
Definition openai_endpoint (base_url : string) : string * N := client_endpoint "8080" 8080 base_url.

(** ** The escalation *)

(** The memory and the network: the most recent memories, the request of
    [probe.rs], the chat client of [openai_compat.rs]. *)
Class Proxy (W : Type) := {
  recent_memories : nat -> W -> result (list (string * string)) string * W;
  http_post : string -> string -> string -> W -> result (N * string) string * W;
  openai_chat : string * N -> list Message -> option N -> W -> result string string * W;
}.

Section escalation.
Context {W : Type} `{PX : Proxy W} `{U : Unicode} `{HO : HashOrder} `{SD : Serde}.

(** [collect::<HashSet<String>>().into_iter()]. *)
Definition hash_set (l : list string) : list string :=
  fst <$> hash_iter (list_to_map ((fun t => (t, tt)) <$> l) : gmap string unit).

Definition vocab_terms (entries : list (string * string)) : list string :=
  hash_set (filter (fun t => is_empty t = false)
    (entries ≫= fun '(kind, content) =>
       if eligible_for_escalation kind content then extract_vocab_terms content else [])).

Definition terms_body (terms : list string) : string := to_str (Object [("terms", Array (Str <$> terms))]).

Definition vocab_addr (base_url : string) : string :=
  let '(host, port) := proxy_endpoint base_url in host +:+ ":" +:+ show_N port.

Definition seed_vocab (p : PrivacyProxyConfig) (terms : list string) : M W (result unit string) :=
  match terms with
  | [] => ret (Ok tt)
  | _ =>
      let!? answer := http_post (vocab_addr (pp_base_url p)) (pp_vocab_path p) (terms_body terms) in
      let '(status, response_body) := answer in
      if (200 <=? status)%N && (status <? 300)%N then ret (Ok tt)
      else ret (Err ("PrivacyProxy vocab seed " +:+ pp_vocab_path p +:+ " failed: HTTP " +:+ show_N status +:+
                     (if is_empty (trim response_body) then "" else ": " +:+ trim response_body)))
  end.

(** The log of what has left the device goes with the world. *)
Definition escalate_via_privacy_proxy (p : PrivacyProxyConfig) (messages : list Message)
    (reason : EscalationReason.t) : M (W * list EscalationEvent) (result string string) :=
  fun '(w, log) =>
    let summary := summarize_messages messages in
    let '(entries, w) := recent_memories 500 w in
    let terms := match entries with Ok entries => vocab_terms entries | Err _ => [] end in
    let log := log ++ [{| ev_reason := EscalationReason.as_str reason; ev_surface := "privacy_proxy";
                          ev_message_count := es_message_count summary;
                          ev_payload_chars := payload_chars summary;
                          ev_vocab_terms := length terms |}] in
    let '(_, w) := seed_vocab p terms w in
    let '(r, w) := openai_chat (openai_endpoint (pp_base_url p)) messages (Some 512%N) w in
    (r, (w, log)).

End escalation.

(** ** What is seeded, and where *)

Section facts.
Context {W : Type} `{PX : Proxy W} `{U : Unicode} `{HO : HashOrder} `{!HashOrderLaws HO} `{SD : Serde}.

Lemma hash_set_elem l t : t ∈ hash_set l <-> t ∈ l.
Proof.
  unfold hash_set. rewrite list_elem_of_fmap. split.
  - intros ([k []] & -> & H). apply hash_iter_elem in H. apply elem_of_list_to_map_2 in H.
    by apply list_elem_of_fmap in H as (? & [= <-] & ?).
  - intros H. exists (t, tt). split; [done|]. apply hash_iter_elem.
    destruct (list_to_map ((fun t => (t, tt)) <$> l) !! t) as [[]|] eqn:E; [done|].
    apply not_elem_of_list_to_map in E. destruct E. rewrite <- list_fmap_compose. apply list_elem_of_fmap. by exists t.
Qed.

Lemma hash_set_NoDup l : NoDup (hash_set l).
Proof. unfold hash_set. rewrite hash_iter_perm. apply NoDup_fst_map_to_list. Qed.

(** A name the proxy may be told. *)
Definition eligible_term (entries : list (string * string)) (t : string) : Prop :=
  t <> "" /\ exists kind content,
    (kind, content) ∈ entries /\ eligible_for_escalation kind content = true /\ t ∈ extract_vocab_terms content.

Lemma vocab_terms_elem entries t : t ∈ vocab_terms entries <-> eligible_term entries t.
Proof.
  unfold vocab_terms, eligible_term. rewrite hash_set_elem, list_elem_of_filter, list_elem_of_bind.
  assert (is_empty t = false <-> t <> "") as -> by by destruct t.
  split.
  - intros (Ht & [k c] & H & Hin). split; [done|]. exists k, c. by destruct (eligible_for_escalation k c); [|set_solver].
  - intros (Ht & k & c & Hin & He & H). split; [done|]. exists (k, c). by rewrite He.
Qed.

End facts.

(** Two worlds of memory and network that cannot be told apart by the calls an
    escalation under [p] is meant to make: reading the memory, asking the
    proxy, and posting to it names that may be told, of entries the memory has
    returned. *)
Record agree `{U : Unicode} `{HO : HashOrder} `{SD : Serde} {W} (p : PrivacyProxyConfig) (PX1 PX2 : Proxy W) : Prop := {
  agree_memory n (w : W) : @recent_memories W PX1 n w = @recent_memories W PX2 n w;
  agree_chat messages (w : W) :
    @openai_chat W PX1 (openai_endpoint (pp_base_url p)) messages (Some 512%N) w =
    @openai_chat W PX2 (openai_endpoint (pp_base_url p)) messages (Some 512%N) w;
  agree_post entries (w0 w : W) :
    (@recent_memories W PX1 500 w0).1 = Ok entries ->
    vocab_terms entries <> [] -> NoDup (vocab_terms entries) -> Forall (eligible_term entries) (vocab_terms entries) ->
    @http_post W PX1 (vocab_addr (pp_base_url p)) (pp_vocab_path p) (terms_body (vocab_terms entries)) w =
    @http_post W PX2 (vocab_addr (pp_base_url p)) (pp_vocab_path p) (terms_body (vocab_terms entries)) w;
}.

Lemma escalate_agree `{U : Unicode} `{HO : HashOrder} `{!HashOrderLaws HO} `{SD : Serde} {W} p (PX1 PX2 : Proxy W)
    messages reason s :
  agree p PX1 PX2 ->
  @escalate_via_privacy_proxy W PX1 U HO SD p messages reason s =
  @escalate_via_privacy_proxy W PX2 U HO SD p messages reason s.
Proof.
  intros [Hm Hc Hp]. destruct s as [w log]. unfold escalate_via_privacy_proxy. rewrite <- Hm.
  destruct (@recent_memories W PX1 500 w) as [entries w1] eqn:Er.
  set (terms := match entries with Ok entries => vocab_terms entries | Err _ => [] end).
  assert (@seed_vocab W PX1 SD p terms w1 = @seed_vocab W PX2 SD p terms w1) as ->.
  { unfold terms. destruct entries as [entries|e]; [|done]. unfold seed_vocab.
    destruct (vocab_terms entries) as [|t l] eqn:Et; [done|]. rewrite <- Et. unfold ebind.
    rewrite (Hp entries w w1); [done|by rewrite Er|by rewrite Et|apply hash_set_NoDup|].
    apply Forall_forall. intros x. by rewrite vocab_terms_elem. }
  destruct (@seed_vocab W PX2 SD p terms w1) as [u w2]. by rewrite Hc.
Qed.

(** ** Properties *)

Definition crafted_proxy : PrivacyProxyConfig := {|
  pp_enabled := true; pp_base_url := "http://collector.example:80@localhost/v1";
  pp_trigger := EscalationTrigger.LocalDeclineOrContextOverflow; pp_vocab_path := "/vocab/seed" |}.

(** The check that the proxy is on the device reads its endpoint otherwise
    than the clients that use it.  The check drops what stands before an
    at-sign; the clients take the host up to the first colon.  So there is an
    endpoint that passes as local, for every reason to escalate, while the
    names are posted and the whole conversation is sent to another host. *)
Lemma proxy_endpoint_escapes :
  forall reason, may_escalate (Some crafted_proxy) reason = Some crafted_proxy /\
    (proxy_endpoint (pp_base_url crafted_proxy)).1 = "collector.example" /\
    (openai_endpoint (pp_base_url crafted_proxy)).1 = "collector.example" /\
    is_loopback_host "collector.example" = false.
Proof. intros []; vm_compute; done. Qed.

(** The loopback address of IPv6 passes the check, and no client can use it. *)
Lemma v6_endpoint_unusable :
  is_local_url "http://[::1]:8180/v1" = true /\ proxy_endpoint "http://[::1]:8180/v1" = ("[", 8180%N).
Proof. vm_compute. done. Qed.
