(* ===== verification/Recall.v ===== *)
(** * Recall of memories ([memory/recall.rs])

    The lexical and the semantic search each give a ranking; Reciprocal Rank
    Fusion merges them, and the read policy of [MemoryPolicy] decides what of
    the merged list may be spoken.  The searches themselves are SQL and vector
    arithmetic and come in as arguments. *)

From S2P Require Import Prelude RustStr RustNum MemoryPolicy.
Local Open Scope string_scope.
Local Open Scope list_scope.

Record MemoryEntry := {
  me_id : Z;
  me_kind : string;
  me_content : string;
  me_created_ms : Z;
  me_accessed_ms : Z;
  me_recall_count : Z;
  me_max_score : f64;
  me_promoted : bool;
  me_metadata : MemoryPolicyMetadata;
}.

Record SemanticMemoryHit := {
  hit_entry : MemoryEntry;
  hit_score : f64;
  hit_embedding_model : string;
}.

Record RecallableMemory := {
  rm_entry : MemoryEntry;
  rm_decision : MemoryPolicyDecision;
}.

(** ** Fusion *)

Definition RRF_K : f64 := f64_of_Z 60.

(** The tables [accumulate] captures. *)
Record fusion := {
  score_by_id : gmap Z f64;
  entry_by_id : gmap Z MemoryEntry;
  seen_order : list Z;
}.

Definition no_fusion : fusion := {| score_by_id := ∅; entry_by_id := ∅; seen_order := [] |}.

Definition contribution (rank : nat) : f64 :=
  f64_div (f64_of_Z 1) (f64_add (f64_add RRF_K (f64_of_Z (Z.of_nat rank))) (f64_of_Z 1)).

Definition accumulate (st : fusion) (hit : nat * MemoryEntry) : fusion :=
  let '(rank, entry) := hit in
  let id := me_id entry in
  let scores := <[id := f64_add (default (f64_of_Z 0) (score_by_id st !! id)) (contribution rank)]>
                  (score_by_id st) in
  match entry_by_id st !! id with
  | Some _ => {| score_by_id := scores; entry_by_id := entry_by_id st; seen_order := seen_order st |}
  | None => {| score_by_id := scores; entry_by_id := <[id := entry]> (entry_by_id st);
               seen_order := seen_order st ++ [id] |}
  end.

(** [into_iter().enumerate()]. *)
Definition enumerate {A} (l : list A) : list (nat * A) := imap (fun i x => (i, x)) l.

Definition fused (lexical : list MemoryEntry) (semantic : list SemanticMemoryHit) : fusion :=
  foldl accumulate (foldl accumulate no_fusion (enumerate lexical)) (enumerate (hit_entry <$> semantic)).

Definition score_of (st : fusion) (id : Z) : f64 := default (f64_of_Z 0) (score_by_id st !! id).

(** The stable sort, best score first. *)
Fixpoint insert_ranked (st : fusion) (id : Z) (l : list Z) : list Z :=
  match l with
  | [] => [id]
  | id' :: l' => if SFltb (score_of st id) (score_of st id') then id' :: insert_ranked st id l' else id :: l
  end.
Definition rank_ids (st : fusion) : list Z := foldr (insert_ranked st) [] (seen_order st).

Definition fuse_recall_candidates (lexical : list MemoryEntry) (semantic : list SemanticMemoryHit)
    (limit : nat) : list MemoryEntry :=
  let st := fused lexical semantic in
  filter_map (fun id => entry_by_id st !! id) (take (Nat.max limit 1) (rank_ids st)).

Definition filter_recall_results (entries : list MemoryEntry) (context : MemoryReadContext)
    : list RecallableMemory :=
  filter_map (fun entry =>
    let decision := assess_memory_read (me_metadata entry) context in
    if decision_allowed decision then Some {| rm_entry := entry; rm_decision := decision |} else None)
  entries.

(** [recall_with_context], from the two searches on. *)
Definition recall_from (lexical : list MemoryEntry) (semantic : list SemanticMemoryHit) (limit : nat)
    (context : MemoryReadContext) : list RecallableMemory :=
  filter_recall_results (fuse_recall_candidates lexical semantic limit) context.

Definition diversity_from_unique_queries (unique_queries : nat) : f64 :=
  fl_min (f64_div (f64_of_Z (Z.of_nat unique_queries)) (f64_of_Z 4)) (f64_of_Z 1).

Definition log_preview (content : string) : string := concat_str (take 60 (chars content)).

(** ** The tables *)

(** The entry first seen under an id. *)
Definition first_seen (entries : list MemoryEntry) (id : Z) : option MemoryEntry :=
  List.find (fun e => bool_decide (me_id e = id)) entries.

Definition tables (entries : list MemoryEntry) (st : fusion) : Prop :=
  NoDup (seen_order st) /\
  (forall id, id ∈ seen_order st <-> id ∈ me_id <$> entries) /\
  (forall id, entry_by_id st !! id = first_seen entries id).

Lemma first_seen_snoc entries e id :
  first_seen (entries ++ [e]) id =
  match first_seen entries id with
  | Some e' => Some e'
  | None => if bool_decide (me_id e = id) then Some e else None
  end.
Proof.
  unfold first_seen. induction entries as [|e' entries IH]; cbn; [done|].
  by destruct (bool_decide (me_id e' = id)).
Qed.

Lemma first_seen_some entries id e :
  first_seen entries id = Some e -> e ∈ entries /\ me_id e = id.
Proof.
  unfold first_seen. intros [Hin He]%List.find_some. bool_to_prop.
  by split; [apply list_elem_of_In|].
Qed.

Lemma first_seen_none entries id : first_seen entries id = None <-> id ∉ me_id <$> entries.
Proof.
  unfold first_seen. split.
  - intros Hf (e & -> & He)%list_elem_of_fmap. apply list_elem_of_In in He.
    eapply List.find_none in Hf; [|exact He]. by rewrite bool_decide_eq_true_2 in Hf.
  - intros Hn. destruct (List.find _ entries) as [e|] eqn:E; [|done]. exfalso.
    apply first_seen_some in E as [He <-]. apply Hn. apply list_elem_of_fmap. eauto.
Qed.

Lemma accumulate_tables entries st rank e :
  tables entries st -> tables (entries ++ [e]) (accumulate st (rank, e)).
Proof.
  intros (Hn & Hin & He). unfold accumulate. rewrite (He (me_id e)).
  destruct (first_seen entries (me_id e)) as [e'|] eqn:Ef; unfold tables; cbn [seen_order entry_by_id].
  - apply first_seen_some in Ef as Hs. destruct Hs as [Hs Hid]. split_and!; [done| |].
    + intros id. rewrite Hin, fmap_app, elem_of_app. split; [by left|].
      intros [?|Hx]; [done|]. apply list_elem_of_singleton in Hx as ->.
      apply list_elem_of_fmap. exists e'. by rewrite Hid.
    + intros id. rewrite He, first_seen_snoc. destruct (first_seen entries id) eqn:E; [done|].
      case_bool_decide as Hd; [|done]. subst id. congruence.
  - apply first_seen_none in Ef. split_and!.
    + apply NoDup_app. split_and!; [done| |apply NoDup_singleton].
      intros id Hid ->%list_elem_of_singleton. by apply Ef, Hin.
    + intros id. rewrite fmap_app, !elem_of_app, Hin. done.
    + intros id. rewrite first_seen_snoc. destruct (decide (me_id e = id)) as [<-|Hne].
      * rewrite lookup_insert_eq, (proj2 (first_seen_none _ _) Ef). by rewrite bool_decide_eq_true_2.
      * rewrite lookup_insert_ne, He by done. rewrite bool_decide_eq_false_2 by done.
        by destruct (first_seen entries id).
Qed.

Lemma accumulate_all entries st (l : list (nat * MemoryEntry)) :
  tables entries st -> tables (entries ++ l.*2) (foldl accumulate st l).
Proof.
  revert entries st. induction l as [|[rank e] l IH]; intros entries st Ht; cbn [foldl].
  - cbn. by rewrite app_nil_r.
  - cbn. rewrite (cons_middle e entries (l.*2)), app_assoc. by apply IH, accumulate_tables.
Qed.

Lemma enumerate_snd {A} (l : list A) : (enumerate l).*2 = l.
Proof.
  apply list_eq. intros i. unfold enumerate. rewrite list_lookup_fmap, list_lookup_imap.
  by destruct (l !! i).
Qed.

Lemma fused_tables lexical semantic :
  tables (lexical ++ (hit_entry <$> semantic)) (fused lexical semantic).
Proof.
  unfold fused. rewrite <- (enumerate_snd (hit_entry <$> semantic)) at 1.
  apply accumulate_all. rewrite <- (enumerate_snd lexical) at 1.
  apply (accumulate_all [] no_fusion). split_and!; [constructor|done|]. intros id. apply lookup_empty.
Qed.

(** ** The scores *)

(** The ranks at which an id was seen. *)
Definition ranks_of (id : Z) (hits : list (nat * MemoryEntry)) : list nat :=
  (base.filter (fun hit => me_id hit.2 = id) hits).*1.

Definition rrf_sum (start : f64) (ranks : list nat) : f64 :=
  foldl (fun s rank => f64_add s (contribution rank)) start ranks.

Lemma accumulate_score st rank e id :
  score_of (accumulate st (rank, e)) id =
  if decide (me_id e = id) then f64_add (score_of st id) (contribution rank) else score_of st id.
Proof.
  unfold score_of, accumulate.
  assert (forall m, default (f64_of_Z 0) (<[me_id e := m]> (score_by_id st) !! id) =
    if decide (me_id e = id) then m else default (f64_of_Z 0) (score_by_id st !! id)) as Hm.
  { intros m. case_decide as Hd; [by rewrite <- Hd, lookup_insert_eq|by rewrite lookup_insert_ne]. }
  destruct (entry_by_id st !! me_id e); cbn [score_by_id]; rewrite Hm; case_decide as Hd; try done; by rewrite Hd.
Qed.

Lemma scores_are_sums st hits id :
  score_of (foldl accumulate st hits) id = rrf_sum (score_of st id) (ranks_of id hits).
Proof.
  revert st. induction hits as [|[rank e] hits IH]; intros st; [done|]. cbn [foldl].
  rewrite IH, accumulate_score. unfold ranks_of. rewrite filter_cons. cbn [snd].
  case_decide; [|done]. done.
Qed.

(** ** The order *)

Lemma SFltb_asym x y : SFltb x y = true -> SFltb y x = false.
Proof.
  intros Hxy. destruct (SFltb y x) eqn:E; [|done].
  pose proof (SFltb_trans _ _ _ Hxy E) as H. by rewrite SFltb_irrefl in H.
Qed.

Definition not_better (st : fusion) (id id' : Z) : Prop := SFltb (score_of st id) (score_of st id') = false.

Lemma insert_ranked_perm st id l : insert_ranked st id l ≡ₚ id :: l.
Proof.
  induction l as [|id' l IH]; cbn [insert_ranked]; [done|]. destruct (SFltb _ _); [|done].
  rewrite IH. by constructor.
Qed.

Lemma rank_ids_perm st : rank_ids st ≡ₚ seen_order st.
Proof.
  unfold rank_ids. induction (seen_order st) as [|id l IH]; cbn; [done|].
  by rewrite insert_ranked_perm, IH.
Qed.

Lemma insert_ranked_sorted st id l :
  Sorted (not_better st) l -> Sorted (not_better st) (insert_ranked st id l).
Proof.
  induction 1 as [|id' l Hl IH Hhd]; cbn [insert_ranked]; [by repeat constructor|].
  destruct (SFltb (score_of st id) (score_of st id')) eqn:E.
  - constructor; [exact IH|]. destruct l as [|id'' l]; cbn [insert_ranked].
    + constructor. by apply SFltb_asym.
    + destruct (SFltb (score_of st id) (score_of st id'')); constructor.
      * by apply HdRel_inv in Hhd.
      * by apply SFltb_asym.
  - constructor; [by constructor|]. by constructor.
Qed.

Lemma rank_ids_sorted st : Sorted (not_better st) (rank_ids st).
Proof.
  unfold rank_ids. induction (seen_order st) as [|id l IH]; cbn; [constructor|].
  by apply insert_ranked_sorted.
Qed.

(** The ids of the result are the first of the ranking. *)
Lemma fused_ids lexical semantic limit :
  let st := fused lexical semantic in
  me_id <$> fuse_recall_candidates lexical semantic limit = take (Nat.max limit 1) (rank_ids st) /\
  Forall (fun e => first_seen (lexical ++ (hit_entry <$> semantic)) (me_id e) = Some e)
    (fuse_recall_candidates lexical semantic limit).
Proof.
  cbv zeta. unfold fuse_recall_candidates. cbv zeta. set (st := fused lexical semantic).
  pose proof (fused_tables lexical semantic) as (_ & Hin & He). fold st in Hin, He.
  assert (forall id, id ∈ take (Nat.max limit 1) (rank_ids st) -> id ∈ seen_order st) as Hsub.
  { intros id Hid. rewrite <- (rank_ids_perm st). by eapply elem_of_sublist, sublist_take. }
  revert Hsub. generalize (take (Nat.max limit 1) (rank_ids st)). intros l.
  induction l as [|id l IH]; intros Hsub; cbn [filter_map]; [done|].
  destruct (entry_by_id st !! id) as [e|] eqn:E.
  - pose proof E as E'. rewrite He in E'. pose proof (first_seen_some _ _ _ E') as [_ Hid].
    destruct IH as [IH1 IH2]; [intros id' Hid'; apply Hsub; by right|]. cbn. split.
    + by rewrite Hid, IH1.
    + constructor; [by rewrite Hid|done].
  - exfalso. rewrite He in E. apply first_seen_none in E. apply E, Hin, Hsub. by left.
Qed.

(** ** Properties *)

(** Recall merges the two searches by reciprocal ranks and speaks only
    what it may.  The merged list has each memory once, in the version first
    seen; it is the first [limit] (at least one) of the ids of both searches
    ordered by fused score, where the score of an id is the sum of the
    contributions of all its ranks; and everything recalled is an entry of that
    list whose metadata the read policy allows in the given context. *)
Lemma recall_fuses_and_filters lexical semantic limit context :
  let st := fused lexical semantic in
  let entries := lexical ++ (hit_entry <$> semantic) in
  let merged := fuse_recall_candidates lexical semantic limit in
  (me_id <$> merged = take (Nat.max limit 1) (rank_ids st) /\ NoDup (me_id <$> merged) /\
   Forall (fun e => first_seen entries (me_id e) = Some e) merged) /\
  (Sorted (not_better st) (rank_ids st) /\
   (forall id, id ∈ rank_ids st <-> id ∈ me_id <$> entries) /\
   (forall id, score_of st id =
      rrf_sum (f64_of_Z 0) (ranks_of id (enumerate lexical) ++
                            ranks_of id (enumerate (hit_entry <$> semantic))))) /\
  (forall r, r ∈ recall_from lexical semantic limit context <->
     rm_entry r ∈ merged /\ rm_decision r = assess_memory_read (me_metadata (rm_entry r)) context /\
     decision_allowed (rm_decision r) = true).
Proof.
  cbv zeta. destruct (fused_ids lexical semantic limit) as [Hids Hfirst].
  destruct (fused_tables lexical semantic) as (Hn & Hin & _).
  split_and!.
  - exact Hids.
  - rewrite Hids. eapply sublist_NoDup; [|apply sublist_take]. by rewrite rank_ids_perm.
  - exact Hfirst.
  - apply rank_ids_sorted.
  - intros id. by rewrite rank_ids_perm, Hin.
  - intros id. unfold fused. rewrite !scores_are_sums. unfold rrf_sum. rewrite foldl_app. done.
  - intros r. unfold recall_from, filter_recall_results. rewrite elem_of_filter_map. split.
    + intros (e & He & Hr). destruct (decision_allowed _) eqn:Ed; [|done]. by injection Hr as <-.
    + intros (He & Hd & Ha). exists (rm_entry r). split; [done|]. rewrite <- Hd, Ha. by destruct r.
Qed.
