(* ===== verification/MemoryText.v ===== *)
(** * The texts of the memory store ([memory/mod.rs], [memory/decay.rs])

    What the store makes of a content before it touches a table: its normal
    form, the slot of a fact that has one current answer, the tokens of a search,
    the words a candidate shares with a query, and the name space a memory is
    filed under. *)

From S2P Require Import Prelude RustStr RustNum MemoryPolicy.
From Stdlib Require Import Ascii String.
Local Open Scope string_scope.
Local Open Scope list_scope.
Local Open Scope rust_scope.

Section unicode.
Context `{U : Unicode}.

Definition normalize_memory_content (content : string) : string := join " " (split_whitespace content).

(** ** Facts with one current answer *)

Definition favorite_slot (lower_content : string) : option string :=
  rest ← strip_prefix lower_content "user's favorite ";
  '(thing, _) ← split_once rest " is ";
  let thing := trim thing in
  if is_empty thing then None else Some thing.

Definition identity_slot (lower : string) : option string :=
  if starts_with lower "user's name is " then Some "identity:name"
  else if starts_with lower "user is " && contains lower " years old" then Some "identity:age"
  else if starts_with lower "user lives in " then Some "identity:location"
  else if starts_with lower "user works at " then Some "identity:workplace"
  else if starts_any lower ["user is a "; "user is an "] then Some "identity:occupation"
  else None.

Definition memory_slot (kind content : string) : option string :=
  let kind := to_lowercase (trim kind) in
  let lower := to_lowercase (trim content) in
  if String.eqb kind "identity" then identity_slot lower
  else if String.eqb kind "preference" then
    slot ← favorite_slot lower; Some ("preference:favorite:" +:+ slot)
  else None.

Definition is_single_valued_fact (kind content : string) : bool :=
  match memory_slot kind (normalize_memory_content content) with Some _ => true | None => false end.

(** ** Tokens *)

Definition SEARCH_STOP : list string :=
  ["a"; "an"; "and"; "are"; "about"; "can"; "did"; "do"; "does"; "for"; "have"; "how"; "i"; "is"; "it"; "me"; "my";
   "of"; "on"; "or"; "please"; "remember"; "that"; "the"; "this"; "to"; "what"; "whats"; "when"; "where"; "who";
   "you"; "your"].
Definition search_tokens (text : string) : list string :=
  List.filter (fun t => Nat.ltb 1 (String.length t) && negb (is_one_of t SEARCH_STOP))
    (split_where (fun c => negb (is_alphanumeric c)) (to_lowercase text)).

(** The query of the full-text index; its tokens hold no quotes to double. *)
Definition build_fts_query (query : string) : option string :=
  match search_tokens query with
  | [] => None
  | tokens => Some (join " OR " ((fun t => dquote +:+ replace t dquote (dquote +:+ dquote) +:+ dquote) <$> tokens))
  end.

Definition strip_source_tag (text : string) : string :=
  match rsplit_once text " (source:" with
  | Some (before, _) => trim before
  | None => text
  end.

Definition SIMILAR_SKIP : list string :=
  ["user"; "users"; "the"; "is"; "are"; "was"; "has"; "have"; "and"; "for"; "that"; "this"; "with"; "from"; "not"].
(** The words two similar memories share. *)
Definition similar_words (content : string) : list string :=
  take 4 (List.filter (fun w => negb (is_one_of w SIMILAR_SKIP)) (search_tokens (strip_source_tag content))).

(** [LOWER(content) LIKE '%token%'], for a token without wildcards. *)
Definition like (content token : string) : bool :=
  contains (to_ascii_lowercase content) (to_ascii_lowercase token).

(** ** Words in common *)

Definition words_set (s : string) : list string := remove_dups (split_whitespace (to_lowercase s)).

Definition word_overlap (query other : string) : f64 :=
  let words := words_set query in
  let other_words := words_set other in
  if bool_decide (words = []) || bool_decide (other_words = []) then f64_of_Z 0
  else
    let intersection := List.length (List.filter (fun w => existsb (String.eqb w) words) other_words) in
    let union := List.length words + List.length other_words - intersection in
    f64_div (f64_of_Z (Z.of_nat intersection)) (f64_of_Z (Z.of_nat union)).
Definition lexical_overlap_score (query other : string) : f64 := fl_max (word_overlap query other) (f64_dec 5 (-2)).

End unicode.

(** The hash that tells queries apart: 64 bits, wrapping, in sixteen digits. *)
Definition hash_step (hash : N) (b : ascii) : N := u64_wrap (hash * 33 + N_of_ascii b).
Definition hash_query (query : string) : string :=
  let hex := show_hex (foldl hash_step 5381%N (bytes query)) in
  pad_zeros (16 - String.length hex) hex.

(** ** Name spaces *)

(** One character of a segment: what is kept of it, and whether it is a dash. *)
Definition segment_char (c : string) : option (string * bool) :=
  if char_byte (fun a => byte_is_alpha a || byte_is_digit a) c then Some (to_ascii_lowercase c, false)
  else if is_one_of c ["_"; "-"; " "; "."] then Some ("-", true)
  else None.
Fixpoint sanitize_from (out : string) (last_dash : bool) (cs : list string) : string :=
  match cs with
  | [] => out
  | c :: cs =>
      match segment_char c with
      | None => sanitize_from out last_dash cs
      | Some (next, true) => if last_dash then sanitize_from out last_dash cs else sanitize_from (out +:+ next) true cs
      | Some (next, false) => sanitize_from (out +:+ next) false cs
      end
  end.
Definition sanitize_namespace_segment (v : string) : string :=
  let dash c := String.eqb c "-" in
  trim_matches dash (sanitize_from "" false (chars v)).

Definition KIND_SCOPES : list string := ["person_"; "private_"; "session_"; "household_"].
Definition canonical_namespace (kind : string) (metadata : MemoryPolicyMetadata) : string :=
  let lower := to_ascii_lowercase (trim kind) in
  let leaf :=
    match List.find (starts_with lower) KIND_SCOPES with
    | Some p => default lower (strip_prefix lower p)
    | None => lower
    end in
  let leaf := sanitize_namespace_segment leaf in
  MemoryScope.as_str (scope metadata) +:+ "." +:+ (if is_empty leaf then "general" else leaf).

Definition canonical_namespace_note_relative (namespace : string) : string :=
  let parts := List.filter (fun p => negb (is_empty p)) (sanitize_namespace_segment <$> split_char namespace ".") in
  let parts := match parts with [] => ["general"] | _ => parts end in
  join "/" ("namespaces" :: removelast parts ++ [default "general" (last parts) +:+ ".md"]).

(** ** Decay *)

(** [f64::exp] is the platform's. *)
Class Exp := { fl_exp : f64 -> f64 }.

Definition LN_2 : f64 := f64_div (f64_of_Z 6931471805599453) (f64_of_Z (10 ^ 16)).
Definition MS_PER_DAY : f64 := f64_of_Z 86400000.

Definition exponential_decay `{EX : Exp} (age_days half_life_days : f64) : f64 :=
  if SFleb half_life_days (f64_of_Z 0) || negb (fl_is_finite age_days) then f64_of_Z 1
  else
    let lambda := f64_div LN_2 half_life_days in
    let age := fl_max age_days (f64_of_Z 0) in
    fl_exp (f64_mul (f64_neg lambda) age).

Definition bm25_rank_to_score (rank : f64) : f64 :=
  if negb (fl_is_finite rank) then f64_dec 1 (-3)
  else if SFltb rank (f64_of_Z 0) then
    let relevance := f64_neg rank in f64_div relevance (f64_add (f64_of_Z 1) relevance)
  else f64_div (f64_of_Z 1) (f64_add (f64_of_Z 1) rank).

(** ** The normal form of a content *)

(** Characters as [chars] cuts them: each is one, and but for the first none
    starts inside another. *)
Definition cut (cs : list string) : Prop :=
  Forall (fun c => chars c = [c]) cs /\ Forall (fun c => starts_char c = true) (tail cs).

Lemma chars_cut s : cut (chars s).
Proof.
  induction s as [|a s [IH1 IH2]]; [by split|]. cbn [chars].
  destruct (chars s) as [|[|b c] cs]; [repeat constructor|split|].
  - apply Forall_cons in IH1 as [H _]. by cbn in H.
  - apply Forall_cons in IH1 as [H _]. by cbn in H.
  - apply Forall_cons in IH1 as [H1 H2]. destruct (byte_is_cont b) eqn:E; split; cbn [tail] in *; try done.
    + constructor; [|done]. cbn [chars] in *. rewrite H1. by rewrite E.
    + by constructor; [|constructor].
    + constructor; [cbn; by rewrite E|done].
Qed.

Lemma cut_chars cs : cut cs -> chars (concat_str cs) = cs.
Proof.
  intros [H1 H2]. induction cs as [|c cs IH]; [done|]. apply Forall_cons in H1 as [Hc H1]. cbn [tail] in H2.
  rewrite concat_str_cons, chars_app.
  - rewrite Hc, IH; [done|done|]. by destruct cs; [|apply Forall_cons in H2 as [_ ?]].
  - destruct cs as [|d cs]; [done|]. apply Forall_cons in H2 as [Hd _]. apply Forall_cons in H1 as [Hd' _].
    destruct d as [|b d]; [done|]. exact Hd.
Qed.

(** The words of a text as the characters they are made of. *)
Fixpoint groups (cur cs : list string) : list (list string) :=
  match cs with
  | [] => match cur with [] => [] | _ => [cur] end
  | c :: cs =>
      if is_whitespace c then match cur with [] => groups [] cs | _ => cur :: groups [] cs end
      else groups (cur ++ [c]) cs
  end.

Lemma is_empty_concat cs : Forall (fun c => chars c = [c]) cs -> is_empty (concat_str cs) = match cs with [] => true | _ => false end.
Proof. destruct cs as [|c cs]; [done|]. intros [Hc _]%Forall_cons. by destruct c. Qed.

Lemma words_of_groups cur cs :
  Forall (fun c => chars c = [c]) cur -> Forall (fun c => chars c = [c]) cs ->
  words_of (concat_str cur) cs = concat_str <$> groups cur cs.
Proof.
  revert cur. induction cs as [|c cs IH]; intros cur Hcur Hcs; cbn [words_of groups]; rewrite is_empty_concat by done.
  - by destruct cur.
  - apply Forall_cons in Hcs as [Hc Hcs]. destruct (is_whitespace c).
    + destruct cur; [by apply (IH [])|]. rewrite fmap_cons. f_equal. by apply (IH []).
    + rewrite <- IH, concat_str_app; [cbn; by rewrite sapp_nil_r|apply Forall_app; by repeat constructor|done].
Qed.

Lemma groups_nonempty cur cs : Forall (fun g => g <> []) (groups cur cs).
Proof.
  revert cur. induction cs as [|c cs IH]; intros cur; cbn [groups]; [by destruct cur; repeat constructor|].
  destruct (is_whitespace c); [|done]. destruct cur; [done|]. by constructor.
Qed.

Lemma groups_concat cur cs : List.concat (groups cur cs) = cur ++ List.filter (fun c => negb (is_whitespace c)) cs.
Proof.
  revert cur. induction cs as [|c cs IH]; intros cur; cbn [groups List.filter].
  - destruct cur; cbn; by rewrite ?app_nil_r.
  - destruct (is_whitespace c); cbn [negb]; [|by rewrite IH, <- app_assoc].
    destruct cur; [by rewrite IH|]. cbn [List.concat]. by rewrite IH.
Qed.

Fixpoint spaced (gs : list (list string)) : list string :=
  match gs with
  | [] => []
  | [g] => g
  | g :: gs => g ++ " " :: spaced gs
  end.

Lemma join_spaced gs : join " " (concat_str <$> gs) = concat_str (spaced gs).
Proof.
  induction gs as [|g [|h gs] IH]; [done|done|]. change (spaced (g :: h :: gs)) with (g ++ " " :: spaced (h :: gs)).
  rewrite concat_str_app, concat_str_cons, <- IH. done.
Qed.

Lemma spaced_cut gs :
  Forall (fun g => g <> []) gs -> Forall (fun c => chars c = [c]) (List.concat gs) ->
  Forall (fun c => starts_char c = true) (tail (List.concat gs)) -> cut (spaced gs).
Proof.
  intros Hne H1 H2. assert (Forall (fun c => starts_char c = true) (tail (List.concat gs)) ->
    Forall (fun c => starts_char c = true) (tail (spaced gs)) /\
    (Forall (fun c => starts_char c = true) (List.concat gs) -> Forall (fun c => starts_char c = true) (spaced gs))) as Hs.
  { clear H1 H2. induction gs as [|g [|h gs] IH]; [done|cbn; by rewrite app_nil_r|].
    apply Forall_cons in Hne as [Hg Hne]. destruct g as [|c g]; [done|]. intros H2.
    change (tail (List.concat ((c :: g) :: h :: gs))) with (g ++ List.concat (h :: gs)) in H2. apply Forall_app in H2 as [H2 H3].
    assert (Forall (fun c => starts_char c = true) (spaced (h :: gs))) as Hr.
    { apply IH; [done| |done]. by destruct (List.concat (h :: gs)); [|apply Forall_cons in H3 as [_ ?]]. }
    change (spaced ((c :: g) :: h :: gs)) with (c :: g ++ " " :: spaced (h :: gs)). cbn [tail].
    assert (Forall (fun c => starts_char c = true) (g ++ " " :: spaced (h :: gs))) as Ha.
    { apply Forall_app. split; [done|]. by constructor. }
    split; [done|]. intros [Hc _]%Forall_cons. by constructor. }
  split; [|by apply Hs].
  clear H2 Hs. induction gs as [|g [|h gs] IH]; [done|cbn in *; by rewrite app_nil_r in H1|].
  apply Forall_cons in Hne as [_ Hne]. change (List.concat (g :: h :: gs)) with (g ++ List.concat (h :: gs)) in H1.
  apply Forall_app in H1 as [Hg H1]. apply Forall_app. split; [done|]. constructor; [done|]. by apply IH.
Qed.

Lemma words_of_spaced gs :
  Forall (fun g => g <> []) gs -> Forall (fun c => chars c = [c]) (List.concat gs) ->
  Forall (fun c => is_whitespace c = false) (List.concat gs) -> words_of "" (spaced gs) = concat_str <$> gs.
Proof.
  induction gs as [|g [|h gs] IH]; [done| |]; intros Hne H1 Hw.
  - cbn in H1, Hw. rewrite app_nil_r in H1, Hw. cbn [spaced fmap list_fmap]. rewrite <- (app_nil_r g) at 1.
    rewrite words_of_word by done. rewrite sapp_nil_l. cbn [words_of]. rewrite is_empty_concat by done.
    apply Forall_cons in Hne as [Hg _]. by destruct g.
  - change (List.concat (g :: h :: gs)) with (g ++ List.concat (h :: gs)) in H1, Hw.
    apply Forall_app in H1 as [Hg H1]. apply Forall_app in Hw as [Hgw Hw]. apply Forall_cons in Hne as [Hgn Hne].
    change (spaced (g :: h :: gs)) with (g ++ " " :: spaced (h :: gs)). rewrite words_of_word by done. rewrite sapp_nil_l.
    cbn [words_of]. rewrite is_empty_concat by done. change (is_whitespace " ") with true. cbn match.
    destruct g as [|c g]; [done|]. rewrite (fmap_cons concat_str). f_equal. by apply IH.
Qed.

Lemma Forall_filtered {A} (P : A -> Prop) p l : Forall P l -> Forall P (List.filter p l).
Proof. induction 1 as [|x l Hx _ IH]; cbn; [done|]. destruct (p x); [by constructor|done]. Qed.

(** The words of a text joined with single spaces have the same words. *)
Lemma split_join_split s : split_whitespace (join " " (split_whitespace s)) = split_whitespace s.
Proof.
  unfold split_whitespace at 2 3. destruct (chars_cut s) as [H1 H2].
  pose proof (words_of_groups [] (chars s) (Forall_nil_2 _) H1) as Hws. change (concat_str []) with "" in Hws.
  rewrite !Hws, join_spaced. unfold split_whitespace.
  pose proof (groups_nonempty [] (chars s)) as Hne. pose proof (groups_concat [] (chars s)) as Hc. cbn [app] in Hc.
  assert (Forall (fun c => chars c = [c]) (List.concat (groups [] (chars s)))) as Hg by (rewrite Hc; by apply Forall_filtered).
  rewrite cut_chars.
  - apply words_of_spaced; [done|done|]. rewrite Hc. apply Forall_forall.
    intros c [_ Hw]%list_elem_of_In%filter_In. by apply negb_true_iff in Hw.
  - apply spaced_cut; [done|done|]. rewrite Hc. destruct (chars s) as [|c cs]; [done|]. cbn [List.filter tail] in *.
    destruct (negb (is_whitespace c)); [by apply Forall_filtered|].
    pose proof (Forall_filtered _ (fun c => negb (is_whitespace c)) _ H2) as Hf.
    by destruct (List.filter _ cs); [|apply Forall_cons in Hf as [_ ?]].
Qed.

Lemma normalize_idempotent content :
  normalize_memory_content (normalize_memory_content content) = normalize_memory_content content.
Proof. unfold normalize_memory_content. by rewrite split_join_split. Qed.
