(* ===== verification/MemoryTypes.v ===== *)
(** * What the memory store takes a content or a question for ([memory/mod.rs])

    The rule tables of semantic recall: the type a memory is filed under in the
    index, the type a question asks for, the words a question is embedded with,
    and which memories are embedded at all.  Texts are in lower case; the first
    rule that applies decides. *)

From S2P Require Import Prelude RustStr RustNum MemoryPolicy.
Local Open Scope string_scope.
Local Open Scope list_scope.
Local Open Scope rust_scope.

(** ** Contextual phrases *)

Definition household_batch_rules_1 (lower : string) : list (bool * string) := [
  (contains_any lower ["after dinner cleanup"; "after-dinner cleanup"], "after_dinner_cleanup");
  (contains lower "upstairs lights" && contains lower "on", "upstairs_lights_on");
  (contains lower "front door" && contains lower "grandma", "grandma_front_door_permission");
  (contains lower "debate" && contains lower "school lunch", "school_lunch_debate");
  (contains lower "board games", "board_game_scene");
  (contains lower "basement" && contains lower "humid", "basement_humidity_cause");
  (contains lower "test practice" && contains lower "notification", "test_practice_notifications");
  (contains lower "rain boots", "rain_boots_location");
  (contains_any lower ["charging tonight"; "need charging"], "charging_tonight");
  (contains lower "coffee" && contains lower "wake", "coffee_wake_brew");
  (contains lower "fan on low" && contains lower "sleep", "sleep_fan_low_preference");
  (contains_any lower ["cold after bath"; "post-bath"], "post_bath_comfort");
  (contains lower "slow cooker" && contains lower "timer chart", "slow_cooker_timer_chart");
  (contains lower "basement flood check", "basement_flood_check");
  (contains lower "garage camera" && contains lower "bike", "garage_bike_camera");
  (contains lower "next filter change", "next_filter_change");
  (contains lower "puzzle" && contains lower "dad", "puzzle_done_reminder");
  (contains lower "temporary" && contains lower "grandma" && contains_any lower ["code"; "access"],
   "grandma_temporary_code");
  (contains_any lower ["glare"; "glarey"; "glary"], "desk_glare_comfort");
  (contains lower "front door" && contains lower "leo" && contains_any lower ["locked"; "auto-lock"],
   "front_door_after_leo");
  (contains lower "water heater" && contains lower "receipt", "water_heater_receipt");
  (contains lower "quiet drawing", "quiet_drawing_time");
  (contains lower "print" && contains lower "homework", "homework_print_permission");
  (contains lower "upstairs" && contains lower "cooler" && contains lower "leo", "upstairs_cool_except_leo");
  (contains_any lower ["noisy appliance"; "high-spin"], "noisy_appliance");
  (contains lower "tooth fairy box", "tooth_fairy_box");
  (contains lower "white extension cord", "white_extension_cord");
  (contains lower "family dinner" && contains lower "screens", "family_dinner_screens");
  (contains lower "garage" && contains lower "today" && contains lower "changed", "garage_changes_today");
  (contains_any lower ["stairs bright"; "stairwell"], "stairwell_bright");
  (contains_any lower ["water my plant"; "plant after school"], "plant_after_school_reminder");
  (contains lower "chicken" && contains lower "peanut", "peanut_free_chicken_recipe");
  (contains_any lower ["security alarm chirp"; "low-battery chirp"], "security_alarm_chirp");
  (contains lower "microwave", "microwave_permission");
  (contains lower "rehearsal comfort", "rehearsal_comfort");
  (contains lower "backyard" && contains_any lower ["who"; "jared"], "backyard_presence");
  (contains lower "workshop dust", "workshop_dust_control");
  (contains lower "bedtime chart", "bedtime_chart_remaining");
  (contains lower "closet light" && contains lower "open", "closet_light_automation");
  (contains lower "upstairs window" && contains lower "rain", "upstairs_window_before_rain");
  (contains_any lower ["low-power"; "low power"], "low_power_mode");
  (contains lower "vaccination form", "vaccination_form");
  (contains lower "field trip form", "field_trip_form_signed");
  (contains lower "animal show", "animal_show_low_volume");
  (contains_any lower ["guest wi-fi"; "guest wi fi"; "guest wifi"], "guest_wifi_devices");
  (contains lower "front entry lights" && contains lower "mia", "entry_lights_until_mia");
  (contains lower "side path" && contains_any lower ["icy"; "ice"], "side_path_ice_risk");
  (contains lower "dripping", "dripping_leak_check");
  (contains lower "office internet" && contains lower "slow", "office_internet_slow");
  (contains_any lower ["school-night reset"; "school night reset"], "school_night_reset");
  (contains lower "photo backdrop", "photo_backdrop_instructions");
  (contains lower "red marker", "red_marker_location");
  (contains lower "freezer" && contains lower "above 10", "freezer_threshold_alert");
  (contains lower "chores" && contains lower "skip", "leo_skipped_chores");
  (contains lower "mirror lights", "mirror_lights_only");
  (contains lower "cat sleep", "cat_sleep_permission");
  (contains lower "grilling lights"
   || contains lower "backyard" && contains lower "grilling", "grilling_lights");
  (contains lower "purifier" && contains lower "high", "purifier_high_reason");
  (contains lower "swim meet" && contains lower "packing", "swim_meet_packing_list");
  (contains lower "next step" && contains lower "cookies", "cookie_recipe_next_step")].

Definition household_batch_rules_2 (lower : string) : list (bool * string) := [
  (contains lower "outdoor cameras" && contains lower "clean", "outdoor_camera_cleaning");
  (contains lower "garage" && contains lower "jared left", "garage_closed_after_jared");
  (contains lower "project list" && contains_any lower ["batteries"; "poster board"], "project_list_supplies");
  (contains lower "scared" && contains lower "downstairs"
   || contains lower "downstairs reassurance", "downstairs_reassurance");
  (contains lower "furnace" && contains lower "code 31", "furnace_code_31");
  (contains_any lower ["dinner warm"; "keep dinner warm"], "dinner_warm_until_jared");
  (contains lower "quiet time" && contains lower "wednesday", "wednesday_quiet_time");
  (contains lower "cat" && contains lower "too much", "cat_feeding_amount");
  (contains lower "oldest" && contains lower "fridge", "oldest_fridge_food");
  (contains_any lower ["outside is cleaner"; "outdoor air is cleaner"], "cleaner_outside_air");
  (contains lower "lamp" && contains lower "flicker", "lamp_flicker_reason");
  (contains lower "garage door" && contains lower "open", "garage_door_permission");
  (contains lower "holiday lighting", "holiday_lighting_schedule");
  (contains_any lower ["shutoff valve"; "water shutoff"], "plumber_shutoff_note");
  (contains_any lower ["rainy-day alarm"; "rainy day alarm"], "rainy_day_alarm");
  (contains lower "soccer practice"
   && contains_any lower ["what do"; "need for"; "bring"; "gear"; "cleats"; "shin guards"], "soccer_practice_gear");
  (contains lower "bypass" && contains lower "sensor", "sensor_bypass_report");
  (contains lower "guest breakfast", "guest_breakfast_mode");
  (contains lower "winter poem"
   || contains lower "poem" && contains lower "winter", "winter_poem");
  (contains lower "laundry room" && contains lower "scary", "laundry_room_reassurance");
  (contains lower "water pressure", "water_pressure_status");
  (contains lower "oven" && contains lower "preheat", "oven_preheat_reminder");
  (contains lower "hallway camera" && contains lower "privacy", "hallway_camera_privacy");
  (contains lower "cookies" && contains lower "cool", "cookie_cooling_alert");
  (contains lower "vacuum" && contains lower "dining room", "vacuum_dining_room_skip");
  (contains lower "toddler gate", "toddler_gate_instructions");
  (contains_any lower ["room smells weird"; "elevated voc"], "room_smell_air_quality");
  (contains_any lower ["dad saw"; "message read"], "message_read_status");
  (contains_any lower ["laundry leak"; "laundry leaks"] && contains_any lower ["shutoff"; "shut off"],
   "laundry_leak_shutoff");
  (contains lower "backpacks" && contains lower "door", "entryway_backpacks");
  (contains lower "alarm" && contains lower "skip" && contains lower "holiday", "alarm_skip_holidays");
  (contains lower "morning checklist" && contains lower "wall", "morning_checklist_display");
  (contains lower "privacy report" && contains lower "camera", "camera_privacy_report");
  (contains lower "green bowl", "green_bowl_recipe");
  (contains lower "practice drums", "drums_permission");
  (contains lower "flashlight" && contains lower "lights go out"
   || contains lower "emergency flashlight", "emergency_flashlight");
  (contains lower "automation fired the most", "top_automation_today");
  (contains lower "upstairs warmer" && contains lower "kids"
   || contains lower "kids morning upstairs warmth", "kids_morning_warmth");
  (contains lower "tournament" && contains lower "snacks", "tournament_snacks");
  (contains lower "final safety sweep", "final_safety_sweep")].

Definition household_batch_rules (lower : string) : list (bool * string) :=
  household_batch_rules_1 lower ++ household_batch_rules_2 lower.

(** ** The type of a memory *)

Definition memory_type_rules_1 (lower : string) : list (bool * string) := [
  (contains lower "bedtime story"
   || contains lower "story" && contains lower "leo" && contains lower "bedtime", "bedtime_story");
  (contains lower "romantic poem"
   || contains lower "poem" && contains_any lower ["love"; "sonnet"], "romantic_poem");
  (contains_any lower ["hiking trail"; "river walk trail"]
   || contains lower "trail" && contains lower "scenic", "hiking_trail");
  (contains lower "basil" && contains_any lower ["pesto"; "garnish"], "basil_recipe");
  (contains lower "sunset" && contains_any lower ["photo"; "picture"; "hawaii"], "sunset_photos");
  (contains_any lower ["goldfish"; "goldie hawn"], "goldfish_name");
  (contains_any lower ["anxious"; "anxiety"; "4-7-8"; "grounding"], "anxiety_support");
  (contains lower "roman empire", "roman_history");
  (contains_any lower ["mood music"; "lo-fi rain"]
   || contains lower "raining" && contains lower "reading", "mood_music");
  (contains_any lower ["camping"; "rainfly"; "extra tarps"], "camping_checklist");
  (contains_any lower ["cocktail"; "screwdriver"]
   || contains lower "vodka" && contains lower "orange juice", "cocktail_recipe");
  (contains_any lower ["working late"; "hold dinner"], "working_late");
  (contains_any lower ["date night"; "luigi"; "babysitter"; "grandma can watch"], "date_night");
  (contains_any lower ["washing machine is leaking"; "moisture sensor"; "drain hose"], "washer_leak");
  (contains_any lower ["bike lock"; "lock status unknown"; "bike tracker"], "bike_security");
  (contains_any lower ["taco bar"; "taco_bar_ingredients"], "taco_bar");
  (contains lower "cold" && contains_any lower ["living room"; "thermostat"], "person_room_comfort");
  (contains lower "reading" && contains_any lower ["too bright"; "desk lamp"], "reading_light_comfort");
  (contains lower "cozy" && contains_any lower ["room"; "warm lights"; "blinds"], "cozy_room_scene");
  (contains_any lower ["cartoon"; "screen time"], "screen_time_status");
  (contains lower "science fair checklist", "science_fair_checklist");
  (contains lower "movie night", "movie_night_scene");
  (contains lower "package" && contains_any lower ["mia"; "front porch"; "delivered"], "personal_delivery");
  (contains lower "garden" && contains_any lower ["water"; "soil"; "tomato"], "garden_watering");
  (contains lower "chickpea", "chickpea_recipe");
  (contains lower "hallway light"
   || contains lower "motion sensor" && contains lower "battery", "hallway_light_troubleshooting");
  (contains_any lower ["can't sleep"; "can t sleep"; "white noise"; "sleep scene"], "sleep_comfort");
  (contains lower "night hallway"
   || contains lower "safe at night" && contains lower "hallway", "night_hallway_safety");
  (contains lower "tablet charger", "tablet_charger_location");
  (contains_any lower ["spilled water"; "water near the outlet"], "outlet_spill_safety");
  (contains lower "sarah" && contains lower "bathroom" && contains lower "warm", "bathroom_warmup");
  (contains lower "pizza box" && contains_any lower ["compost"; "recycling"; "trash"], "pizza_box_disposal");
  (contains_any lower ["focus mode"; "focus session"], "focus_mode");
  (contains lower "porch" && contains_any lower ["waking the kids"; "quiet tonight"], "quiet_porch_alerts");
  (contains lower "room" && contains lower "hot" && contains_any lower ["blinds"; "afternoon sun"],
   "room_heat_cause");
  (contains lower "storm prep", "storm_prep");
  (contains lower "dinner" && contains lower "grandma", "dinner_attendees")].

Definition memory_type_rules_2 (lower : string) : list (bool * string) := [
  (contains_any lower ["scared of the dark"; "night reassurance"; "ocean sounds"], "night_reassurance");
  (contains lower "chores" && contains_any lower ["unchecked"; "finished"], "chores_status");
  (contains lower "this week" && contains lower "last week" && contains lower "electricity",
   "electricity_week_compare");
  (contains_any lower ["electricity"; "watts"], "electricity_usage");
  (contains lower "marker" && contains lower "hoodie", "marker_stain_removal");
  (contains_any lower ["bathroom reservation"; "hair wash"], "bathroom_reservation");
  (contains lower "backpack", "backpack_location");
  (contains lower "morning sun" && contains lower "blinds", "morning_sun_blinds");
  (contains lower "piano practice quiet"
   || contains lower "piano" && contains lower "sound transfer", "piano_quiet_mode");
  (contains_any lower ["bus pickup"; "bus tomorrow"], "bus_tomorrow");
  (contains lower "freezer door" && contains lower "open", "freezer_door_left_open");
  (contains_any lower ["smell gas"; "gas safety"], "gas_safety");
  (contains_any lower ["dad gets home"; "presence alert"], "presence_alert");
  (contains_any lower ["ocean essay"; "essay draft"], "ocean_essay_draft");
  (contains lower "windows" && contains lower "open", "windows_status");
  (contains lower "bedtime" && contains lower "reading light", "bedtime_reading_override");
  (contains lower "pajama day", "pajama_day");
  (contains lower "laptop" && contains lower "charger", "laptop_charger_location");
  (contains lower "vacation mode" && contains lower "next week", "scheduled_vacation_mode");
  (contains_any lower ["leftover"; "safe_until"], "leftovers_priority");
  (contains lower "robot vacuum" && contains lower "under", "robot_vacuum_under_bed");
  (contains lower "violin" && contains lower "notification", "violin_dnd");
  (contains lower "sprinkler" && contains lower "this morning", "sprinkler_run_history");
  (contains lower "toddler" && contains lower "kitchen", "toddler_safe_kitchen");
  (contains lower "sleepover" && contains lower "approved", "sleepover_approval");
  (contains lower "back gate" && contains lower "except", "lock_except_back_gate");
  (contains lower "allergy action plan", "allergy_action_plan");
  (contains lower "spaceship" && contains lower "hallway", "spaceship_hallway");
  (contains_any lower ["morning readiness"; "morning status"], "morning_readiness");
  (contains lower "homework mode" && contains_any lower ["leo"; "mia"], "kids_homework_mode");
  (contains_any lower ["car keys"; "key tag"], "car_keys_location");
  (contains lower "bake cookies" && contains lower "waking leo", "quiet_baking");
  (contains lower "robot vacuum" && contains lower "stuck", "robot_vacuum_stuck");
  (contains lower "thermostat" && contains lower "changed", "thermostat_audit");
  (contains lower "ladder safety", "ladder_safety_note");
  (contains lower "bathroom mirror" && contains lower "schedule", "bathroom_mirror_schedule");
  (contains lower "too hot in bed"
   || contains lower "bed cooling" && contains lower "leo", "bed_cooling_comfort");
  (contains lower "package" && contains lower "still on", "porch_package_present");
  (contains_any lower ["water under the sink"; "sink leak safety"], "sink_leak_safety");
  (contains lower "art time lighting", "art_lighting_scene");
  (contains lower "allergy medicine", "allergy_medicine_status");
  (contains lower "dinosaur fact", "dinosaur_fact");
  (contains lower "standby power" && contains lower "office", "office_standby_power");
  (contains_any lower ["beeping"; "low-battery alert"], "beeping_device_alert");
  (contains lower "youtube" && contains lower "math", "youtube_math_block");
  (contains lower "contractor" && contains lower "garage", "contractor_garage_access");
  (contains lower "sleepover guest mode", "sleepover_guest_mode");
  (contains lower "stars" && contains lower "closet", "stars_closet_dark");
  (contains lower "printer" && contains lower "wi-fi reset", "printer_wifi_reset");
  (contains lower "porch light" && contains lower "motion", "porch_light_motion");
  (contains lower "grandma" && contains lower "wi-fi note", "grandma_wifi_note");
  (contains lower "play outside" && contains lower "backyard", "outdoor_play_permission");
  (contains lower "school-morning" && contains lower "blinds", "school_morning_blinds");
  (contains lower "this week" && contains lower "last week" && contains lower "electricity",
   "electricity_week_compare");
  (contains lower "back burner", "back_burner_status");
  (contains lower "wet soccer shoes", "wet_soccer_shoes");
  (contains_any lower ["warm-not-steamy"; "not steamy"], "warm_not_steamy_shower");
  (contains lower "quiet armed security", "quiet_security")].

Definition memory_type_rules_3 (lower : string) : list (bool * string) := [
  (contains lower "laundry" && contains lower "finished", "laundry_finish_status");
  (contains lower "tomorrow checklist", "tomorrow_checklist");
  (contains lower "green" && contains lower "night-light", "green_night_light_preference");
  (contains_any lower ["draftiest"; "drafty"], "drafty_room_report");
  (contains lower "blue" && contains lower "mia" && contains lower "paint", "mia_blue_paint");
  (contains lower "glass break", "glass_break_safety");
  (contains lower "call mom" && contains lower "kitchen screen", "call_mom_kitchen_screen");
  (contains lower "offline" && contains lower "devices", "offline_devices");
  (contains lower "babysitter mode", "babysitter_mode");
  (contains lower "laundry" && contains lower "moved", "laundry_moved_status");
  (contains lower "kitchen alarm" && contains lower "front door", "kitchen_alarm_exit_route");
  (contains lower "rainy pickup", "rainy_pickup_mode");
  (contains lower "dishwasher" && contains lower "breaker", "dishwasher_breaker");
  (contains lower "emma" && contains lower "after school", "after_school_guest_request");
  (contains lower "toaster" && contains lower "smoky", "toaster_smoke_safety");
  (contains_any lower ["pollen"; "allergy-day"], "pollen_mode");
  (contains_any lower ["trash day"; "trash-day"], "trash_day_prep");
  (contains lower "red hoodie", "red_hoodie_location");
  (contains lower "lego cleanup", "lego_cleanup_timer");
  (contains_any lower ["ants"; "ant bait"], "ant_response_history");
  (contains lower "driveway arrival", "driveway_arrival_lighting");
  (contains_any lower ["video-call"; "video call"], "video_call_room");
  (contains_any lower ["garbage bins"; "bins were moved"], "garbage_bins_out");
  (contains lower "camping flashlight", "camping_flashlight");
  (contains lower "sprinkler" && contains lower "skipped", "sprinkler_skip_reason");
  (contains lower "dishwasher" && contains lower "after 9", "dishwasher_after_nine");
  (contains lower "homework" && contains lower "internet", "internet_homework");
  (contains_any lower ["use the stove"; "stove permission"], "stove_permission");
  (contains lower "cold medicine", "cold_medicine_instructions");
  (contains lower "sunlight" && contains lower "alarm", "sunlight_alarm");
  (contains lower "guest info" && contains lower "bathroom", "guest_info_display");
  (contains lower "fridge door" && contains lower "closed", "fridge_door_closed");
  (contains lower "reading with dad", "reading_with_dad");
  (contains_any lower ["rainy-day playlist"; "rainy day playlist"], "rainy_day_playlist");
  (contains lower "sensor" && contains lower "batter", "sensor_battery_report");
  (contains_any lower ["work-call quiet"; "work call quiet"], "work_call_quiet");
  (contains lower "library book", "library_book_packed");
  (contains lower "alarm" && contains lower "offline", "alarm_failure_reason");
  (contains lower "garage paint ventilation", "garage_paint_ventilation");
  (contains_any lower ["plants need attention"; "basil needs water"], "plant_attention");
  (contains lower "blue cup", "blue_cup_location");
  (contains lower "sleepover lights", "sleepover_lights");
  (contains lower "side gate" && contains lower "away", "side_gate_away");
  (contains lower "recital outfit", "recital_outfit_note");
  (contains lower "cookies are done" && contains lower "lamp", "cookie_done_light_alert");
  (contains lower "bathroom" && contains lower "free", "bathroom_available");
  (contains_any lower ["away mode failed"; "away mode fail"], "away_mode_failure");
  (contains lower "calm morning" && contains lower "leo", "calm_morning_leo");
  (contains lower "guest speaker", "guest_speaker_pairing");
  (contains_any lower ["end-of-day"; "end of day"], "end_of_day_summary");
  (contains lower "paint" && contains_any lower ["acrylic"; "canvas"; "tutorial"], "painting_hobby");
  (contains_any lower ["stomach"; "nausea"; "ginger tea"], "stomach_ache");
  (contains_any lower ["magic"; "card trick"; "illusion"], "magic_tricks");
  (contains_any lower ["manicure"; "nail salon"], "manicure_booking");
  (contains_any lower ["charity"; "donorschoose"], "charity_suggestion");
  (contains lower "french", "french_learning");
  (contains lower "podcast", "podcast_suggestion");
  (contains_any lower ["motivating speech"; "motivation"], "motivational_speech");
  (contains lower "shoes" && contains_any lower ["dress"; "gold heel"; "black flat"], "dress_shoes");
  (contains_any lower ["thirsty"; "lemonade"; "cold water"], "thirst_beverage");
  (contains lower "yoga class"
   || contains lower "yoga" && contains lower "traffic", "yoga_class")].

Definition memory_type_rules_4 (lower : string) : list (bool * string) := [
  (contains_any lower ["sunbathing"; "sunscreen"; "uv index"], "sunbathing_safety");
  (contains_any lower ["guys' night"; "guys night"; "poker night"; "sports bar"], "guys_night");
  (contains_any lower ["thai food"; "pad thai"; "green curry"], "thai_food_order");
  (contains_any lower ["fever"; "temperature is 101"], "fever_management");
  (contains_any lower ["snow"; "shovel"; "salt"], "snow_protocol");
  (contains lower "homework" && contains_any lower ["youtube"; "chromebook"; "educational"], "homework_check");
  (contains_any lower ["weather report"; "meteorologist"], "weather_report");
  (contains_any lower ["i'm back"; "welcome home"], "arrival_back");
  (contains_any lower ["haircut"; "barber"; "grooming lounge"], "haircut_booking");
  (contains_any lower ["wedding"; "dress code"; "navy blue suit"; "silk tie"], "wedding_outfit");
  (contains_any lower ["meditation"; "daily calm"; "guided"], "meditation_content");
  (contains_any lower ["spanish"; "duolingo"; "language lesson"], "spanish_learning");
  (contains_any lower ["spicy"; "hot sauce"; "thai basil"; "buffalo wing"], "spicy_food");
  (contains_any lower ["book a hotel"; "hotel preference"; "downtown"; "free breakfast"], "hotel_booking");
  (contains_any lower ["ac filter"; "air filter"; "20x25x4"; "honeywell"], "ac_filter");
  (contains_any lower ["kids today"; "family activities"; "new lion exhibit"], "kids_activity");
  (contains_any lower ["toilet is clogged"; "toilet clogged"; "paper towels"; "plunger"], "clogged_toilet");
  (contains_any lower ["sew a button"; "sewing instructions"; "threading needle"], "sewing_help");
  (contains_any lower ["jazz"; "saxophone"], "jazz_music");
  (contains_any lower ["suggest a book"; "ebook"; "read history"]
   || contains lower "mystery" && contains lower "book", "book_recommendation");
  (contains_any lower ["bored of cooking"; "takeout"; "sushi"; "delivery app"], "takeout_suggestion");
  (contains_any lower ["ripe banana"; "banana bread"; "banana muffin"], "banana_recipe");
  (contains_any lower ["beach trip"; "santa cruz"]
   || contains lower "photo" && contains lower "beach", "beach_photos");
  (contains_any lower ["freeze warning"; "going to freeze"; "will freeze"; "potted plant";
                       "sprinklers to prevent ice"], "freeze_protection");
  (contains_any lower ["weight trend"; "down 2 lbs"], "weight_trend");
  (contains_any lower ["pack a lunch"; "lunch preferences"; "cut the crust"], "school_lunch");
  (contains_any lower ["patio cushion"; "outdoor furniture"; "high winds"], "patio_cushions");
  (contains_any lower ["bike ride"; "cycling route"], "cycling_routine");
  (contains_any lower ["what's for breakfast"; "breakfast"; "oatmeal"], "breakfast_plan")].

Definition memory_type_rules_5 (lower : string) : list (bool * string) := [
  (contains_any lower ["father's day"; "father s day"; "fathers day"]
   || contains lower "dad" && contains lower "gift"
   || contains lower "laser level", "father_day_gift");
  (contains_any lower ["need a break"; "breathing exercise"; "wellness break"], "quick_break");
  (contains lower "wine" && contains lower "steak"
   || contains_any lower ["cabernet"; "malbec"], "steak_wine_pairing");
  (contains_any lower ["stuffy"; "ventilation"; "fresh air"], "ventilation_comfort");
  (contains_any lower ["working from home"; "work from home"; "doorbell muted"], "work_from_home");
  (contains_any lower ["printer ink"; "cartridge"; "hp 64"], "printer_ink");
  (negb (contains lower "asthma") && (contains_any lower ["safe to run"; "running outside"]
   || contains lower "sunset" && contains lower "run"), "running_safety");
  (contains_any lower ["birthday last year"; "gift history"; "spa day"], "gift_history");
  (contains_any lower ["game night"; "ticket to ride"; "catan"], "game_night");
  (contains lower "baby is crying again"
   || contains lower "white noise" && contains lower "baby", "baby_crying_again");
  (contains_any lower ["olive oil"; "substitute"], "cooking_substitute");
  (contains_any lower ["bookshelf"; "woodworking"], "diy_bookshelf");
  (contains_any lower ["toilet"; "flapper"], "toilet_troubleshooting");
  (contains lower "knee" && contains_any lower ["run"; "running"], "running_injury");
  (contains lower "side dish"
   || contains lower "pasta" && contains lower "salad", "pasta_side_dish");
  (contains_any lower ["gym bag"; "knee sleeves"], "gym_bag");
  (contains_any lower ["over budget"; "car repair"], "budget_advice");
  (contains_any lower ["happy birthday"; "message template"], "birthday_message");
  (contains lower "driving home" && contains lower "rain", "arrival_rain");
  (contains_any lower ["yogurt"; "expires"; "safe to eat"], "food_safety");
  (contains_any lower ["dark parking lot"; "live location"], "safety_protocol");
  (contains_any lower ["haven't seen"; "not watched"; "unwatched"], "unwatched_media");
  (contains_any lower ["defrost"; "turkey"], "turkey_thawing");
  (contains_any lower ["airport"; "flight"], "airport_departure");
  (contains_any lower ["dinner party"; "vegan"; "gluten"], "dinner_party_food");
  (contains_any lower ["guest arrival"; "guests coming"], "guest_arrival");
  (contains_any lower ["baby is awake"; "nightlight"], "baby_awake");
  (contains_any lower ["meal plan"; "what's for dinner"], "meal_plan");
  (contains_any lower ["running playlist"; "going for a run"], "running_routine");
  (contains_any lower ["delivery instruction"; "package"], "delivery_tracking");
  (contains_any lower ["solar system"; "planets"], "space_learning");
  (contains_any lower ["oversleep"; "backup alarm"], "sleep_routine");
  (contains_any lower ["stand-up"; "comedy"], "comedy_media");
  (contains_any lower ["really hot"; "cool you down"; "lowering the ac"; "air conditioning"], "cooling_comfort");
  (contains_any lower ["air quality"; "asthma"], "air_quality_health");
  (contains lower "train", "train_commute");
  (contains_any lower ["slow cooker"; "chili"], "slow_cooker_recipe");
  (contains_any lower ["birthday party"; "spa night"], "party_planning");
  (contains_any lower ["thermostat"; "temperature"], "home_comfort");
  (contains_any lower ["park"; "outdoor"], "outdoor_preference");
  (contains_any lower ["lunchbox"; "lunch box"; "snack"; "detergent"], "shopping");
  (contains_any lower ["scary movie"; "horror"; "thriller"], "scary_media")].

Definition memory_type_rules_6 (lower : string) : list (bool * string) := [
  (contains_any lower ["movie"; "watched"], "media");
  (contains_any lower ["manual"; "coffee machine"], "device_manual");
  (contains_any lower ["bored"; "lego"], "activity_suggestion");
  (contains_any lower ["start the car"; "remote start"], "vehicle_routine");
  (contains_any lower ["car"; "mechanic"; "serpentine"], "vehicle_troubleshooting");
  (contains lower "printer", "device_troubleshooting");
  (contains_any lower ["recipe"; "chicken"; "rice"], "recipe");
  (contains_any lower ["plumber"; "leak"; "p-trap"], "home_maintenance");
  (contains_any lower ["date night"; "jazz"; "italian"], "date_night");
  (contains_any lower ["grandma"; "bed"], "family_contact");
  (contains_any lower ["feeding"; "diaper"; "nap"], "routine");
  (contains_any lower ["stressed"; "stress"; "calm"], "wellness");
  (contains_any lower ["science fair"; "baking soda"], "science_project");
  (contains_any lower ["headache"; "tylenol"], "first_aid");
  (contains_any lower ["story"; "audiobook"], "story");
  (contains_any lower ["dog food"; "royal canin"], "pet_shopping");
  (contains_any lower ["zoo"; "reptile"; "lion"; "picnic"], "trip_planning");
  (contains_any lower ["diet"; "calorie"; "broccoli"], "diet_recipe");
  (contains_any lower ["washing machine"; "washer"; "vibrating"; "shaking"], "appliance_troubleshooting");
  (contains_any lower ["watch history"; "resume"], "watch_history");
  (contains_any lower ["doorbell"; "uncle"], "visitor");
  (contains_any lower ["focus music"; "study"; "lo-fi"], "focus_music");
  (contains_any lower ["drink"; "hydration"; "soccer"], "beverage");
  (contains_any lower ["too bright"; "blinds"], "light_comfort");
  (contains_any lower ["lonely"; "video call"], "social_support");
  (contains_any lower ["sink smells"; "garbage disposal"], "home_maintenance");
  (contains_any lower ["commute"; "traffic"; "back roads"], "commute");
  (contains_any lower ["taco"; "salsa"], "meal_planning");
  (contains_any lower ["muggy"; "humidity"; "dehumidifier"], "humidity_comfort");
  (contains_any lower ["cut my finger"; "band-aid"; "antiseptic"], "first_aid");
  (contains_any lower ["keys"; "bluetooth tracker"], "location");
  (contains_any lower ["noise outside"; "outdoor microphone"], "outdoor_sound");
  (contains lower "pizza", "pizza_order");
  (contains_any lower ["arrival routine"; "welcome home"], "arrival_routine");
  (contains_any lower ["math homework"; "fractions"], "education_help");
  (contains_any lower ["tired of this song"; "skip"; "playlist"], "music_control");
  (contains_any lower ["joke"; "one-liner"], "entertainment_joke");
  (contains_any lower ["ephemeral"; "definition"], "dictionary_definition");
  (contains_any lower ["fort"; "blanket"; "pillow"], "fort_activity");
  (contains_any lower ["spider"; "pest"], "pest_control");
  (contains lower "remote", "location");
  (contains_any lower ["freezer"; "food safety"], "food_safety")].

Definition memory_type_rules (lower : string) : list (bool * string) :=
  memory_type_rules_1 lower ++ memory_type_rules_2 lower ++ memory_type_rules_3 lower
  ++ memory_type_rules_4 lower ++ memory_type_rules_5 lower ++ memory_type_rules_6 lower.

(** ** The words a question is embedded with *)

Definition query_text_rules_1 (lower : string) : list (bool * string) := [
  (contains lower "cold" && contains lower "living room",
   "person_room_comfort sarah cold living room thermostat cozy 72");
  (contains lower "watch cartoons",
   "screen_time_status leo cartoons screen time homework bedtime remaining minutes");
  (contains lower "science fair checklist",
   "science_fair_checklist school folder checklist kitchen tablet last opened");
  (contains lower "air fryer" && contains lower "manual",
   "device_manual air fryer manual crispmax quick cleaning page");
  (contains lower "too bright" && contains lower "reading",
   "reading_light_comfort too bright reading ceiling light desk lamp");
  (contains_any lower ["make my room cozy"; "cozy"],
   "cozy_room_scene warm lights closed blinds temperature room cozy");
  (contains lower "package" && contains lower "arrive",
   "personal_delivery delivery package front porch camera order note");
  (contains_any lower ["water the garden"; "garden"],
   "garden_watering soil moisture tomato bed herb planters weather forecast");
  (contains lower "chickpea", "chickpea_recipe recipe chickpeas liked family rating favorite");
  (contains lower "hallway light", "hallway_light_troubleshooting automation motion sensor battery light working");
  (contains_any lower ["can t sleep"; "can't sleep"],
   "sleep_comfort low light white noise thermostat school schedule sleep scene");
  (contains lower "safe at night" && contains lower "hallway",
   "night_hallway_safety low brightness motion lighting hallway night automation");
  (contains lower "tablet charger",
   "tablet_charger_location tablet charger kitchen charging drawer location events");
  (contains lower "spilled water" && contains lower "outlet",
   "outlet_spill_safety water spill outlet cut power notify parents safety");
  (contains lower "sarah" && contains lower "bathroom",
   "bathroom_warmup sarah bathroom shower heater floor warmer temporary timer");
  (contains lower "pizza box", "pizza_box_disposal pizza box recycling compost trash city guide greasy cardboard");
  (contains lower "focus mode", "focus_mode focus session desk light brown noise distraction limits until five");
  (contains_any lower ["waking the kids"; "quiet porch"],
   "quiet_porch_alerts porch camera chime doorbell low brightness kids asleep");
  (contains lower "room" && contains lower "hot",
   "room_heat_cause hot room west blinds afternoon sun fan close blinds");
  (contains lower "storm prep", "storm_prep weather alerts backup lights battery blinds family alert");
  (contains lower "coming to dinner", "dinner_attendees dinner event attendees grandma food preferences decaf tea");
  (contains lower "scared of the dark", "night_reassurance dark scared night-light ocean sounds notify parents");
  (contains_any lower ["finish my chores"; "finished my chores"],
   "chores_status chore assignments checkins dishwasher laundry desk cleanup");
  (contains lower "this week" && contains lower "last week" && contains lower "electricity",
   "electricity_week_compare energy meter readings this week last week percent change kwh delta hvac dryer");
  (contains lower "electricity", "electricity_usage energy meter watts current device dryer oven hvac");
  (contains lower "marker" && contains lower "hoodie",
   "marker_stain_removal marker hoodie rubbing alcohol blot cold wash laundry note");
  (contains lower "bathroom" && contains lower "hair wash",
   "bathroom_reservation shared room reservation upstairs bathroom hair wash seven pm");
  (contains lower "backpack", "backpack_location backpack tag mudroom bench item location camera object");
  (contains lower "morning sun" && contains lower "blinds",
   "morning_sun_blinds east rooms morning sun blinds exclude mia room");
  (contains lower "piano practice", "piano_quiet_mode piano practice quiet music room door vents sound transfer");
  (contains lower "bus" && contains lower "tomorrow",
   "bus_tomorrow school transport schedule bus pickup tomorrow school day");
  (contains lower "freezer door", "freezer_door_left_open freezer door sensor open duration temperature safe range");
  (contains lower "smell gas", "gas_safety gas sensor stove state leave house avoid switches emergency alert");
  (contains lower "dad gets home", "presence_alert dad gets home presence geofence notify leo");
  (contains lower "essay" && contains lower "ocean",
   "ocean_essay_draft essay draft oceans english folder latest version");
  (contains_any lower ["windows closed"; "windows"],
   "windows_status window sensors open closed kitchen mia bedroom");
  (contains lower "bedtime" && contains lower "mia",
   "bedtime_reading_override bedtime mia reading light twenty minutes routine override");
  (contains lower "pajama day", "pajama_day school note pajama day tomorrow class announcement");
  (contains lower "laptop battery", "laptop_charger_location laptop battery low charger desk outlet powered");
  (contains lower "vacation mode" && contains lower "next week",
   "scheduled_vacation_mode vacation next week lighting simulation thermostat watering locks");
  (contains lower "leftovers", "leftovers_priority leftovers fridge prepared safe_until meal ratings eat first");
  (contains lower "robot vacuum" && contains lower "bed",
   "robot_vacuum_under_bed robot vacuum leo under bed zone avoid toy corner");
  (contains lower "violin", "violin_dnd violin practice notifications mute do not disturb 45 minutes");
  (contains lower "sprinkler" && contains lower "morning",
   "sprinkler_run_history irrigation events sprinkler ran morning zones completed");
  (contains lower "toddler" && contains lower "kitchen",
   "toddler_safe_kitchen toddler safe kitchen cabinet locks oven controls outlet safety")].

Definition query_text_rules_2 (lower : string) : list (bool * string) := [
  (contains lower "sleepover", "sleepover_approval sleepover permission request mom approved dad pending");
  (contains lower "back gate", "lock_except_back_gate lock everything except back gate security exception");
  (contains lower "allergy action plan",
   "allergy_action_plan health document mia allergy action plan active medical");
  (contains lower "spaceship",
   "spaceship_hallway hallway spaceship playful lighting blue white child safe brightness");
  (contains lower "morning readiness",
   "morning_readiness morning report doors coffee lunchbox bus rain school pickup");
  (contains lower "homework mode" && contains lower "kids",
   "kids_homework_mode homework mode leo mia study lights router focus rules quiet noise");
  (contains lower "car keys", "car_keys_location car keys key tag ble ping entryway table recent location");
  (contains lower "bake cookies" && contains lower "waking leo",
   "quiet_baking bake cookies waking leo sleep state kitchen notifications range hood low");
  (contains lower "robot vacuum" && contains lower "stuck",
   "robot_vacuum_stuck vacuum stuck obstacle report toy bin left wheel room map");
  (contains lower "changed the thermostat",
   "thermostat_audit thermostat target temperature changed user phone app audit log");
  (contains lower "ladder safety", "ladder_safety_note ladder safety extension ladder stabilizer feet top rungs");
  (contains lower "bathroom mirror", "bathroom_mirror_schedule mia schedule bathroom mirror agenda calendar events");
  (contains lower "too hot in bed",
   "bed_cooling_comfort leo too hot in bed fan low lower room temperature sleep preference");
  (contains lower "package still on the porch",
   "porch_package_present package still porch mat camera object delivery events door opens");
  (contains lower "water under the sink",
   "sink_leak_safety water under sink leak sensor shut water valve alert household");
  (contains lower "art time", "art_lighting_scene art time lighting room lights desk lamp blinds saved scene");
  (contains lower "allergy medicine",
   "allergy_medicine_status allergy medicine routine checkin medicine cabinet opened");
  (contains lower "dinosaur fact", "dinosaur_fact dinosaur fact yesterday leo activity notes learning history");
  (contains lower "standby power" && contains lower "office",
   "office_standby_power office standby safe plugs exclude router backup security hub");
  (contains_any lower ["beeping sound"; "beeping"],
   "beeping_device_alert beeping sound leak sensor low battery audio classification alert");
  (contains lower "youtube" && contains lower "math",
   "youtube_math_block youtube blocked devices math task completion network rule");
  (contains lower "contractor" && contains lower "garage",
   "contractor_garage_access contractor garage temporary access ten to ten twenty notify audit");
  (contains lower "sleepover guest mode",
   "sleepover_guest_mode guest wifi hallway night lights quiet hours child safe");
  (contains lower "stars" && contains lower "closet",
   "stars_closet_dark ceiling projector stars closet light stays off");
  (contains lower "printer" && contains_any lower ["wi fi"; "wi-fi"; "wifi"],
   "printer_wifi_reset printer wi-fi reset wireless button reconnect printer app");
  (contains lower "porch light" && contains lower "still on",
   "porch_light_motion porch light still on camera repeated motion automation runs");
  (contains lower "grandma" && contains_any lower ["wi fi"; "wi-fi"; "wifi"],
   "grandma_wifi_note grandma elaine wifi note family contacts allowed access");
  (contains lower "play outside" && negb (contains lower "air quality"),
   "outdoor_play_permission leo play outside backyard fence parent present weather");
  (contains_any lower ["open my blinds slowly"; "school morning"],
   "school_morning_blinds mia blinds gradual open school mornings skip holidays");
  (contains lower "back burner", "back_burner_status stove back burner off residual heat cooling normally");
  (contains lower "wet soccer shoes", "wet_soccer_shoes wet soccer shoes mudroom drying tray not bedroom");
  (contains lower "not steamy", "warm_not_steamy_shower shower warm not steamy bathroom fan high humidity");
  (contains lower "security on" && contains lower "kids",
   "quiet_security security armed kids asleep noncritical chimes muted urgent alerts");
  (contains_any lower ["laundry finish"; "laundry finished"],
   "laundry_finish_status dryer finished time opened notification log");
  (contains lower "tomorrow" && contains lower "checklist",
   "tomorrow_checklist daily checklist calendar school tasks reminders ordered");
  (contains lower "green" && contains lower "night",
   "green_night_light_preference leo favorite night-light color green preference");
  (contains lower "drafty", "drafty_room_report temperature sensors hvac runtime window sensors drafty room")].

Definition query_text_rules_3 (lower : string) : list (bool * string) := [
  (contains lower "blue paint"
   || contains lower "mia" && contains lower "paint",
   "mia_blue_paint mia room blue paint harbor mist eggshell project notes");
  (contains lower "glass break",
   "glass_break_safety glass break downstairs sensors camera events alert parents lights");
  (contains lower "call mom" && contains lower "kitchen screen",
   "call_mom_kitchen_screen child contact rules mom sarah kitchen display video call");
  (contains_any lower ["devices are offline"; "offline devices"],
   "offline_devices device health last seen heartbeat offline by room");
  (contains lower "babysitter",
   "babysitter_mode babysitter guest code care notes kitchen display guest wifi child rules");
  (contains_any lower ["laundry get moved"; "laundry moved"],
   "laundry_moved_status mia laundry moved dryer basket weight sensor time");
  (contains_any lower ["safest way out"; "kitchen alarm"],
   "kitchen_alarm_exit_route floor plan safety route smoke detector front door clear avoid kitchen hallway");
  (contains lower "rainy pickup", "rainy_pickup_mode school pickup rain mudroom lights towels umbrellas warm house");
  (contains lower "dishwasher" && contains lower "breaker",
   "dishwasher_breaker electrical panel map breaker 14 kitchen appliances b");
  (contains lower "emma" && contains lower "come over",
   "after_school_guest_request emma after school permission request parent approval");
  (contains lower "toaster" && contains lower "smoky",
   "toaster_smoke_safety toaster smoky cut power kitchen vent step back parent alert");
  (contains_any lower ["pollen"; "allergy day"; "allergy-day"],
   "pollen_mode air quality pollen windows closed purifiers high hvac circulate filters");
  (contains lower "trash day", "trash_day_prep trash day kitchen trash recycling curb cardboard flattened");
  (contains lower "red hoodie", "red_hoodie_location mia red hoodie dad car item location");
  (contains lower "lego cleanup", "lego_cleanup_timer leo lego cleanup timer ten minutes");
  (contains lower "ants", "ant_response_history ants pantry sealed gap back door ant bait under sink resolved");
  (contains lower "driveway lights" && contains lower "pull in",
   "driveway_arrival_lighting geofence jared driveway lights auto off seven minutes");
  (contains lower "video call", "video_call_room mia video call front lighting blinds quiet notifications");
  (contains lower "garbage bins", "garbage_bins_out bins moved curb camera event side yard trash duty");
  (contains lower "camping flashlight", "camping_flashlight blue camping bin garage battery full");
  (contains lower "sprinklers" && contains lower "run today",
   "sprinkler_skip_reason sprinklers skipped rain sensor wet soil threshold automation log");
  (contains lower "dishwasher" && contains lower "after 9",
   "dishwasher_after_nine scheduled dishwasher start after 9 pm loaded ready");
  (contains lower "homework" && contains lower "internet",
   "internet_homework school tasks requires internet science quiz spanish listening");
  (contains_any lower ["use the stove"; "use stove"],
   "stove_permission leo stove adult supervision kitchen safety denied");
  (contains lower "cold medicine", "cold_medicine_instructions health documents medicine label upstairs cabinet");
  (contains lower "sunlight" && contains lower "sound",
   "sunlight_alarm mia wake gradual blinds no audio next alarm");
  (contains lower "guests only",
   "guest_info_display guest wifi bathroom directions entryway tablet limited profile");
  (contains lower "fridge door", "fridge_door_closed fridge door closed temperature stable cooling normally");
  (contains lower "reading with dad", "reading_with_dad leo warm light dad reading pause room audio");
  (contains_any lower ["rainy day playlist"; "rainy-day playlist"],
   "rainy_day_playlist mia rainy-day playlist current media session cozy rain music");
  (contains_any lower ["sensors need batteries"; "batteries soon"],
   "sensor_battery_report sensors batteries soon leak motion garage contact safety first");
  (contains lower "work call", "work_call_quiet sarah work call quiet vacuum paused audio lowered chimes muted");
  (contains lower "library book", "library_book_packed leo library book backpack tag scan checklist");
  (contains lower "alarm not go off",
   "alarm_failure_reason mia alarm tablet offline backup hallway display reminder");
  (contains lower "garage ventilated" && contains lower "paint",
   "garage_paint_ventilation paint ventilation garage exhaust fan side door open");
  (contains lower "plants need attention", "plant_attention plant care basil water fern mist snake plant fine");
  (contains lower "blue cup", "blue_cup_location leo blue cup dishwasher top rack");
  (contains lower "sleepover lights", "sleepover_lights mia sleepover lights string lights low ceiling brightness");
  (contains lower "side gate" && contains lower "gone",
   "side_gate_away side gate stayed closed family away interval camera events");
  (contains lower "recital outfit", "recital_outfit_note mia recital outfit navy dress silver flats hair ribbon");
  (contains lower "cookies are done", "cookie_done_light_alert leo lamp gentle flash cookies timer done");
  (contains lower "bathroom free", "bathroom_available upstairs bathroom free motion door humidity");
  (contains_any lower ["away mode fail"; "away mode failed"],
   "away_mode_failure away mode failed back door lock jammed everything else ready")].

Definition query_text_rules_4 (lower : string) : list (bool * string) := [
  (contains lower "calm morning", "calm_morning_leo leo calm morning soft lights quiet reminders slower checklist");
  (contains lower "guest speaker", "guest_speaker_pairing guest speaker pairing code child safe credentials");
  (contains_any lower ["end of day"; "end-of-day"],
   "end_of_day_summary doors locked windows open routines reminders device health leak sensor battery");
  (contains lower "bedtime story", "bedtime_story leo short adventure story library ten minutes");
  (contains lower "romantic poem"
   || contains lower "poem" && contains lower "romantic", "romantic_poem love sonnet poem literature short read");
  (contains lower "hiking trail", "hiking_trail nearby easy scenic river walk local trail database");
  (contains lower "basil", "basil_recipe extra basil pesto garnish tomato salad recipe");
  (contains lower "craving spicy"
   || contains lower "spicy" && contains lower "craving",
   "spicy_food spicy thai basil buffalo wings curry recipes menus");
  (contains lower "sunset" && contains_any lower ["picture"; "photo"],
   "sunset_photos photo album object recognition hawaii orange sky");
  (contains_any lower ["goldfish"; "pet name"], "goldfish_name pet names fish gold funny bubbles fin");
  (contains_any lower ["anxious"; "anxiety"], "anxiety_support wellness breathing grounding calm 4-7-8");
  (contains lower "roman empire", "roman_history educational video roman empire history documentary beginner");
  (contains_any lower ["music fits this mood"; "fits this mood"],
   "mood_music mood context raining reading lo-fi rain sounds music");
  (contains lower "camping", "camping_checklist camping weather rain tent rainfly boots tarps");
  (contains lower "cocktail", "cocktail_recipe bar inventory vodka orange juice screwdriver ice");
  (contains lower "working late", "working_late family calendar dinner plan hold dinner reheat");
  (contains lower "date night", "date_night friday restaurants italian babysitter grandma luigi");
  (contains lower "washing machine" && contains lower "leaking",
   "washer_leak washing machine leaking water sensor moisture drain hose");
  (contains_any lower ["lock the bike"; "bike lock"], "bike_security bike tracker lock status security logs home");
  (contains lower "taco bar", "taco_bar taco bar ingredients shells meat toppings pantry cheese salsa");
  (contains_any lower ["want to paint"; "painting"],
   "painting_hobby acrylic paints canvas craft room beginner landscape tutorial");
  (contains lower "stomach ache", "stomach_ache nausea ginger tea health advice first aid doctor");
  (contains lower "magic", "magic_tricks card tricks illusions beginner kids video");
  (contains lower "manicure", "manicure_booking nail salon appointment local business");
  (contains lower "charity", "charity_suggestion charity ratings personal interests education donorschoose");
  (contains_any lower ["learn french"; "teach me french"],
   "french_learning language app french beginner lesson duolingo");
  (contains lower "podcast", "podcast_suggestion podcast library tech comedy news true crime");
  (contains_any lower ["motivating speech"; "motivational speech"],
   "motivational_speech audio library motivation workout inspire speech");
  (contains lower "what shoes go with"
   || contains lower "shoes" && contains lower "dress",
   "dress_shoes wardrobe fashion advice dress gold heels black flats");
  (contains lower "thirsty", "thirst_beverage cold water lemonade beverage preferences pantry fridge");
  (contains lower "yoga", "yoga_class calendar yoga class traffic leave time");
  (contains lower "sunbathing", "sunbathing_safety uv index sunscreen sun safety reminder");
  (contains lower "guys" && contains lower "night",
   "guys_night friends availability poker sports bar activity ideas");
  (contains lower "thai food", "thai_food_order restaurant favorite dishes pad thai green curry eta");
  (contains lower "fever", "fever_management health tracker temperature fluids rest notify family");
  (contains_any lower ["snowing"; "snow"], "snow_protocol weather alert shovel salt snow home maintenance");
  (contains lower "mia" && contains lower "homework",
   "homework_check device usage chromebook youtube educational site category");
  (contains lower "weather report", "weather_report local meteorologist channel weather video forecast");
  (contains_any lower ["i m back"; "i'm back"; "i am back"],
   "arrival_back arrival routine lights thermostat mood context welcome home");
  (contains_any lower ["listen to jazz"; "jazz"],
   "jazz_music jazz smooth instrumental saxophone music library station");
  (contains lower "suggest" && contains lower "book",
   "book_recommendation ebook read history mystery thriller book suggestion");
  (contains lower "bored of cooking", "takeout_suggestion restaurant history delivery apps sushi pizza takeout");
  (contains_any lower ["ripe banana"; "banana"], "banana_recipe ripe bananas banana bread banana muffins recipe");
  (contains_any lower ["beach trip"; "beach"], "beach_photos photo metadata beach trip vacation ocean sand");
  (contains_any lower ["freeze tonight"; "going to freeze"],
   "freeze_protection freeze warning outdoor sprinklers potted plants cover protect");
  (contains_any lower ["log my weight"; "weight"], "weight_trend weight log health tracker progress trend");
  (contains_any lower ["pack a lunch"; "lunch for leo"],
   "school_lunch school schedule pantry lunch preferences no crust grapes");
  (contains lower "patio cushion", "patio_cushions storm warning high winds outdoor furniture family task");
  (contains_any lower ["bike ride"; "cycling"], "cycling_routine bike ride cycling route live location safety");
  (contains_any lower ["what s for breakfast"; "what's for breakfast"],
   "breakfast_plan breakfast meal plan pantry oatmeal milk toast eggs");
  (contains_any lower ["father's day"; "father s day"; "fathers day"]
   || contains lower "dad" && contains lower "gift",
   "father_day_gift dad father's day gift wish list interests laser level");
  (contains lower "need a break", "quick_break wellness break five minute breathing exercise relax");
  (contains lower "wine" && contains lower "steak", "steak_wine_pairing steak red wine cabernet malbec bottle");
  (contains lower "stuffy", "ventilation_comfort stuffy ventilation fresh air windows fan")].

Definition query_text_rules_5 (lower : string) : list (bool * string) := [
  (contains_any lower ["working from home"; "work from home"],
   "work_from_home office lights muted doorbell focus playlist scene");
  (contains lower "ink" && contains lower "printer", "printer_ink printer model cartridge hp 64 shopping list ink");
  (contains_any lower ["safe to run"; "run outside"],
   "running_safety running outside weather air quality sunset darkness safety");
  (contains lower "sarah" && contains lower "birthday last year",
   "gift_history sarah birthday last year gift history shopping");
  (contains lower "game night", "game_night family calendar board games player count ages snacks");
  (contains lower "baby" && contains lower "crying again",
   "baby_crying_again baby crying fed changed white noise sleepy routine");
  (contains_any lower ["olive oil"; "use instead"], "cooking_substitute olive oil vegetable oil butter substitute");
  (contains lower "bookshelf", "diy_bookshelf woodworking shelf material list screws drill");
  (contains lower "toilet" && contains lower "running",
   "toilet_troubleshooting running toilet flapper chain tank handle");
  (contains lower "knee" && contains lower "run", "running_injury knee pain running ice stretch shoes");
  (contains lower "side dish"
   || contains lower "pasta" && contains lower "need", "pasta_side_dish pasta side dish caesar salad garlic bread");
  (contains_any lower ["pack my gym bag"; "gym bag"],
   "gym_bag gym schedule leg day inventory knee sleeves water bottle");
  (contains_any lower ["over budget"; "budget this month"],
   "budget_advice monthly budget over budget spending car repair");
  (contains lower "text mom" && contains lower "birthday",
   "birthday_message mom contact happy birthday message template");
  (contains lower "driving home" && contains lower "rain",
   "arrival_rain driving home rain garage heat cozy arrival protocol");
  (contains lower "safe to eat", "food_safety yogurt expiration date safe to eat smell");
  (contains lower "dark parking lot", "safety_protocol dark parking lot live location flashlight alert");
  (contains_any lower ["movie we haven"; "movie we have not"; "haven t seen"],
   "unwatched_media streaming movie not watched family");
  (contains lower "defrost" && contains lower "turkey",
   "turkey_thawing defrost turkey thawing guide thanksgiving reminder");
  (contains lower "airport", "airport_departure flight traffic travel preference leave time");
  (contains lower "dinner party"
   || contains lower "buy food" && contains lower "party",
   "dinner_party_food guest allergy vegan gluten shopping party recipe");
  (contains_any lower ["need a laugh"; "comedy"], "comedy_media funny sitcom stand-up laugh");
  (contains_any lower ["solar system"; "space"; "planets"],
   "space_learning solar system planets documentary educational content");
  (contains_any lower ["oversleep"; "wake up"], "sleep_routine oversleep alarm backup wake up");
  (contains_any lower ["really hot"; "i m hot"; "i'm hot"],
   "cooling_comfort hot ac fan thermostat comfort preference");
  (contains_any lower ["guests coming"; "guests coming over"], "guest_arrival guest mode allergy cat lights music");
  (contains_any lower ["baby is awake"; "baby awake"],
   "baby_awake night routine baby monitor nightlight notify mom");
  (contains_any lower ["what s for dinner"; "what's for dinner"],
   "meal_plan dinner meal plan pantry missing ingredient");
  (contains lower "going for a run", "running_routine running playlist activity start");
  (contains_any lower ["package"; "delivered"], "delivery_tracking package delivered porch delivery instructions");
  (contains_any lower ["feeling cold"; "feel cold"; "i'm cold"], "home_comfort thermostat temperature");
  (contains_any lower ["lunchbox"; "lunch box"; "snack"], "shopping lunchbox snack");
  (contains lower "detergent", "shopping detergent");
  (contains_any lower ["scary movie"; "horror"; "thriller"], "scary_media horror thriller rated favorite");
  (contains_any lower ["robot"; "movie"], "media movie watched");
  (contains lower "bored", "activity_suggestion bored lego activity");
  (contains lower "start the car", "vehicle_routine remote start car climate calendar");
  (contains_any lower ["car"; "mechanic"]
   || contains lower "noise" && contains lower "car", "vehicle_troubleshooting car mechanic noise");
  (contains lower "printer", "device_troubleshooting printer manual");
  (contains_any lower ["cook"; "chicken"; "rice"], "recipe chicken rice");
  (contains_any lower ["comfort movie"; "feel-good"], "media comfort movie");
  (contains_any lower ["park"; "warm enough"], "outdoor_preference park weather");
  (contains_any lower ["leak"; "sink"; "plumber"], "home_maintenance leak sink plumber");
  (contains_any lower ["grandma"; "too late to call"], "family_contact grandma bedtime");
  (contains_any lower ["baby"; "crying"], "routine feeding diaper nap");
  (contains_any lower ["stressed"; "stress"], "wellness calm meditation bath playlist");
  (contains lower "science fair", "science_project elementary experiment");
  (contains lower "bake"
   || contains lower "flour" && contains lower "sugar", "recipe baking flour sugar");
  (contains lower "headache", "first_aid headache tylenol medicine");
  (contains_any lower ["read me a story"; "story"], "story audiobook age favorite");
  (contains_any lower ["movie for tonight"; "find a movie"], "media family movie adventure streaming");
  (contains lower "dog food", "pet_shopping dog food royal canin");
  (contains_any lower ["trip to the zoo"; "zoo"], "trip_planning zoo reptile lion picnic");
  (contains lower "hungry" && contains lower "diet", "diet_recipe calorie chicken broccoli");
  (contains_any lower ["washing machine"; "washer"; "shaking"],
   "appliance_troubleshooting washing machine unbalanced leveling");
  (contains lower "watch tv", "watch_history resume show current user")].

Definition query_text_rules_6 (lower : string) : list (bool * string) := [
  (contains_any lower ["someone is at the door"; "doorbell"], "visitor doorbell face family friend");
  (contains lower "focus music", "focus_music study work playlist");
  (contains_any lower ["need a drink"; "soccer practice"], "beverage hydration post exercise drink preference");
  (contains lower "too bright", "light_comfort blinds brightness shade");
  (contains lower "lonely", "social_support lonely call family video");
  (contains_any lower ["sink smells"; "kitchen sink smells"], "home_maintenance sink smell garbage disposal drain");
  (contains lower "leaving for work", "commute traffic rain back roads work");
  (contains_any lower ["make tacos"; "taco"], "meal_planning tacos pantry toppings shopping");
  (contains lower "muggy", "humidity_comfort humidity muggy dehumidifier");
  (contains lower "cut my finger", "first_aid cut finger band aid antiseptic pressure");
  (contains_any lower ["where are my keys"; "keys"], "location keys bluetooth tracker sofa entryway");
  (contains lower "noise outside", "outdoor_sound outside noise microphone porch light");
  (contains lower "order pizza", "pizza_order pizza preferences coupon");
  (is_one_of lower ["i'm home"; "i m home"; "i am home"], "arrival_routine welcome home lights side door music");
  (contains_any lower ["math homework"; "fractions"], "education_help math homework fractions class playlist");
  (contains_any lower ["tired of this song"; "this song"], "music_control tired song skip playlist recently played");
  (contains_any lower ["tell me a joke"; "joke"], "entertainment_joke joke one liner age suitable");
  (contains lower "ephemeral", "dictionary_definition ephemeral meaning usage example");
  (contains_any lower ["build a fort"; "fort"], "fort_activity blankets pillows indoor activity");
  (contains_any lower ["running late for the train"; "train"],
   "train_commute train departure traffic back roads station");
  (contains lower "air quality", "air_quality_health air quality aqi asthma outdoor play");
  (contains_any lower ["slow cooker"; "chili"], "slow_cooker_recipe slow cooker chili low eight hours");
  (contains lower "birthday party", "party_planning birthday party budget spa night shopping");
  (contains lower "spider", "pest_control spider bathroom harmless family reaction");
  (contains lower "remote", "location remote bluetooth tracker couch coffee table");
  (contains lower "freezer", "food_safety freezer cold temperature safe food")].

Definition query_text_rules (lower : string) : list (bool * string) :=
  query_text_rules_1 lower ++ query_text_rules_2 lower ++ query_text_rules_3 lower
  ++ query_text_rules_4 lower ++ query_text_rules_5 lower ++ query_text_rules_6 lower.

(** ** The type a question asks for *)

Definition query_type_rules_1 (lower : string) : list (bool * string) := [
  (contains lower "cold" && contains lower "living room", "person_room_comfort");
  (contains lower "watch cartoons", "screen_time_status");
  (contains lower "science fair checklist", "science_fair_checklist");
  (contains lower "air fryer" && contains lower "manual", "device_manual");
  (contains lower "too bright" && contains lower "reading", "reading_light_comfort");
  (contains_any lower ["make my room cozy"; "cozy"], "cozy_room_scene");
  (contains lower "package" && contains lower "arrive", "personal_delivery");
  (contains_any lower ["water the garden"; "garden"], "garden_watering");
  (contains lower "chickpea", "chickpea_recipe");
  (contains lower "hallway light", "hallway_light_troubleshooting");
  (contains_any lower ["can t sleep"; "can't sleep"], "sleep_comfort");
  (contains lower "safe at night" && contains lower "hallway", "night_hallway_safety");
  (contains lower "tablet charger", "tablet_charger_location");
  (contains lower "spilled water" && contains lower "outlet", "outlet_spill_safety");
  (contains lower "sarah" && contains lower "bathroom", "bathroom_warmup");
  (contains lower "pizza box", "pizza_box_disposal");
  (contains lower "focus mode", "focus_mode");
  (contains_any lower ["waking the kids"; "quiet porch"], "quiet_porch_alerts");
  (contains lower "room" && contains lower "hot", "room_heat_cause");
  (contains lower "storm prep", "storm_prep");
  (contains lower "coming to dinner", "dinner_attendees");
  (contains lower "scared of the dark", "night_reassurance");
  (contains_any lower ["finish my chores"; "finished my chores"], "chores_status");
  (contains lower "this week" && contains lower "last week" && contains lower "electricity",
   "electricity_week_compare");
  (contains lower "electricity", "electricity_usage");
  (contains lower "marker" && contains lower "hoodie", "marker_stain_removal");
  (contains lower "bathroom" && contains lower "hair wash", "bathroom_reservation");
  (contains lower "backpack", "backpack_location");
  (contains lower "morning sun" && contains lower "blinds", "morning_sun_blinds");
  (contains lower "piano practice", "piano_quiet_mode");
  (contains lower "bus" && contains lower "tomorrow", "bus_tomorrow");
  (contains lower "freezer door", "freezer_door_left_open");
  (contains lower "smell gas", "gas_safety");
  (contains lower "dad gets home", "presence_alert");
  (contains lower "essay" && contains lower "ocean", "ocean_essay_draft");
  (contains_any lower ["windows closed"; "windows"], "windows_status");
  (contains lower "bedtime" && contains lower "mia", "bedtime_reading_override");
  (contains lower "pajama day", "pajama_day");
  (contains lower "laptop battery", "laptop_charger_location");
  (contains lower "vacation mode" && contains lower "next week", "scheduled_vacation_mode");
  (contains lower "leftovers", "leftovers_priority");
  (contains lower "robot vacuum" && contains lower "bed", "robot_vacuum_under_bed");
  (contains lower "violin", "violin_dnd");
  (contains lower "sprinkler" && contains lower "morning", "sprinkler_run_history");
  (contains lower "toddler" && contains lower "kitchen", "toddler_safe_kitchen");
  (contains lower "sleepover", "sleepover_approval");
  (contains lower "back gate", "lock_except_back_gate");
  (contains lower "allergy action plan", "allergy_action_plan");
  (contains lower "spaceship", "spaceship_hallway");
  (contains lower "morning readiness", "morning_readiness");
  (contains lower "homework mode" && contains lower "kids", "kids_homework_mode");
  (contains lower "car keys", "car_keys_location");
  (contains lower "bake cookies" && contains lower "waking leo", "quiet_baking");
  (contains lower "robot vacuum" && contains lower "stuck", "robot_vacuum_stuck");
  (contains lower "changed the thermostat", "thermostat_audit");
  (contains lower "ladder safety", "ladder_safety_note");
  (contains lower "bathroom mirror", "bathroom_mirror_schedule");
  (contains lower "too hot in bed", "bed_cooling_comfort");
  (contains lower "package still on the porch", "porch_package_present");
  (contains lower "water under the sink", "sink_leak_safety");
  (contains lower "art time", "art_lighting_scene");
  (contains lower "allergy medicine", "allergy_medicine_status");
  (contains lower "dinosaur fact", "dinosaur_fact");
  (contains lower "standby power" && contains lower "office", "office_standby_power")].

Definition query_type_rules_2 (lower : string) : list (bool * string) := [
  (contains lower "beeping", "beeping_device_alert");
  (contains lower "youtube" && contains lower "math", "youtube_math_block");
  (contains lower "contractor" && contains lower "garage", "contractor_garage_access");
  (contains lower "sleepover guest mode", "sleepover_guest_mode");
  (contains lower "stars" && contains lower "closet", "stars_closet_dark");
  (contains lower "printer" && contains_any lower ["wi fi"; "wi-fi"; "wifi"], "printer_wifi_reset");
  (contains lower "porch light" && contains lower "still on", "porch_light_motion");
  (contains lower "grandma" && contains_any lower ["wi fi"; "wi-fi"; "wifi"], "grandma_wifi_note");
  (contains lower "play outside" && negb (contains lower "air quality"), "outdoor_play_permission");
  (contains_any lower ["open my blinds slowly"; "school morning"], "school_morning_blinds");
  (contains lower "back burner", "back_burner_status");
  (contains lower "wet soccer shoes", "wet_soccer_shoes");
  (contains lower "not steamy", "warm_not_steamy_shower");
  (contains lower "security on" && contains lower "kids", "quiet_security");
  (contains_any lower ["laundry finish"; "laundry finished"], "laundry_finish_status");
  (contains lower "tomorrow" && contains lower "checklist", "tomorrow_checklist");
  (contains lower "green" && contains lower "night", "green_night_light_preference");
  (contains lower "drafty", "drafty_room_report");
  (contains lower "blue paint"
   || contains lower "mia" && contains lower "paint", "mia_blue_paint");
  (contains lower "glass break", "glass_break_safety");
  (contains lower "call mom" && contains lower "kitchen screen", "call_mom_kitchen_screen");
  (contains_any lower ["devices are offline"; "offline devices"], "offline_devices");
  (contains lower "babysitter", "babysitter_mode");
  (contains_any lower ["laundry get moved"; "laundry moved"], "laundry_moved_status");
  (contains_any lower ["safest way out"; "kitchen alarm"], "kitchen_alarm_exit_route");
  (contains lower "rainy pickup", "rainy_pickup_mode");
  (contains lower "dishwasher" && contains lower "breaker", "dishwasher_breaker");
  (contains lower "emma" && contains lower "come over", "after_school_guest_request");
  (contains lower "toaster" && contains lower "smoky", "toaster_smoke_safety");
  (contains_any lower ["pollen"; "allergy day"; "allergy-day"], "pollen_mode");
  (contains lower "trash day", "trash_day_prep");
  (contains lower "red hoodie", "red_hoodie_location");
  (contains lower "lego cleanup", "lego_cleanup_timer");
  (contains lower "ants", "ant_response_history");
  (contains lower "driveway lights" && contains lower "pull in", "driveway_arrival_lighting");
  (contains lower "video call", "video_call_room");
  (contains lower "garbage bins", "garbage_bins_out");
  (contains lower "camping flashlight", "camping_flashlight");
  (contains lower "sprinklers" && contains lower "run today", "sprinkler_skip_reason");
  (contains lower "dishwasher" && contains lower "after 9", "dishwasher_after_nine");
  (contains lower "homework" && contains lower "internet", "internet_homework");
  (contains_any lower ["use the stove"; "use stove"], "stove_permission");
  (contains lower "cold medicine", "cold_medicine_instructions");
  (contains lower "sunlight" && contains lower "sound", "sunlight_alarm");
  (contains lower "guests only", "guest_info_display");
  (contains lower "fridge door", "fridge_door_closed");
  (contains lower "reading with dad", "reading_with_dad");
  (contains_any lower ["rainy day playlist"; "rainy-day playlist"], "rainy_day_playlist");
  (contains_any lower ["sensors need batteries"; "batteries soon"], "sensor_battery_report");
  (contains lower "work call", "work_call_quiet");
  (contains lower "library book", "library_book_packed");
  (contains lower "alarm not go off", "alarm_failure_reason");
  (contains lower "garage ventilated" && contains lower "paint", "garage_paint_ventilation");
  (contains lower "plants need attention", "plant_attention");
  (contains lower "blue cup", "blue_cup_location");
  (contains lower "sleepover lights", "sleepover_lights");
  (contains lower "side gate" && contains lower "gone", "side_gate_away");
  (contains lower "recital outfit", "recital_outfit_note");
  (contains lower "cookies are done", "cookie_done_light_alert");
  (contains lower "bathroom free", "bathroom_available");
  (contains_any lower ["away mode fail"; "away mode failed"], "away_mode_failure");
  (contains lower "calm morning", "calm_morning_leo")].

Definition query_type_rules_3 (lower : string) : list (bool * string) := [
  (contains lower "guest speaker", "guest_speaker_pairing");
  (contains_any lower ["end of day"; "end-of-day"], "end_of_day_summary");
  (contains lower "bedtime story", "bedtime_story");
  (contains lower "romantic poem"
   || contains lower "poem" && contains lower "romantic", "romantic_poem");
  (contains lower "hiking trail", "hiking_trail");
  (contains lower "basil", "basil_recipe");
  (contains lower "craving spicy"
   || contains lower "spicy" && contains lower "craving", "spicy_food");
  (contains lower "sunset" && contains_any lower ["picture"; "photo"], "sunset_photos");
  (contains_any lower ["goldfish"; "pet name"], "goldfish_name");
  (contains_any lower ["anxious"; "anxiety"], "anxiety_support");
  (contains lower "roman empire", "roman_history");
  (contains_any lower ["music fits this mood"; "fits this mood"], "mood_music");
  (contains lower "camping", "camping_checklist");
  (contains lower "cocktail", "cocktail_recipe");
  (contains lower "working late", "working_late");
  (contains lower "date night", "date_night");
  (contains lower "washing machine" && contains lower "leaking", "washer_leak");
  (contains_any lower ["lock the bike"; "bike lock"], "bike_security");
  (contains lower "taco bar", "taco_bar");
  (contains_any lower ["want to paint"; "painting"], "painting_hobby");
  (contains lower "stomach ache", "stomach_ache");
  (contains lower "magic", "magic_tricks");
  (contains lower "manicure", "manicure_booking");
  (contains lower "charity", "charity_suggestion");
  (contains_any lower ["learn french"; "teach me french"], "french_learning");
  (contains lower "podcast", "podcast_suggestion");
  (contains_any lower ["motivating speech"; "motivational speech"], "motivational_speech");
  (contains lower "what shoes go with"
   || contains lower "shoes" && contains lower "dress", "dress_shoes");
  (contains lower "thirsty", "thirst_beverage");
  (contains lower "yoga", "yoga_class");
  (contains lower "sunbathing", "sunbathing_safety");
  (contains lower "guys" && contains lower "night", "guys_night");
  (contains lower "thai food", "thai_food_order");
  (contains lower "fever", "fever_management");
  (contains_any lower ["snowing"; "snow"], "snow_protocol");
  (contains lower "mia" && contains lower "homework", "homework_check");
  (contains lower "weather report", "weather_report");
  (contains_any lower ["i m back"; "i'm back"; "i am back"], "arrival_back");
  (contains lower "haircut", "haircut_booking");
  (contains lower "wear" && contains lower "wedding", "wedding_outfit");
  (contains_any lower ["meditate"; "meditation"], "meditation_content");
  (contains_any lower ["teach me spanish"; "learn spanish"], "spanish_learning");
  (contains lower "hungry" && contains lower "spicy", "spicy_food");
  (contains_any lower ["book a hotel"; "hotel in chicago"], "hotel_booking");
  (contains_any lower ["change the ac filter"; "change ac filter"], "ac_filter");
  (contains_any lower ["what should we do with the kids"; "kids today"], "kids_activity");
  (contains_any lower ["toilet is clogged"; "toilet clogged"], "clogged_toilet");
  (contains lower "sew a button", "sewing_help");
  (contains_any lower ["listen to jazz"; "jazz"], "jazz_music");
  (contains lower "suggest" && contains lower "book", "book_recommendation");
  (contains lower "bored of cooking", "takeout_suggestion");
  (contains_any lower ["ripe banana"; "banana"], "banana_recipe");
  (contains_any lower ["beach trip"; "beach"], "beach_photos");
  (contains_any lower ["freeze tonight"; "going to freeze"], "freeze_protection");
  (contains_any lower ["log my weight"; "weight"], "weight_trend");
  (contains_any lower ["pack a lunch"; "lunch for leo"], "school_lunch");
  (contains lower "patio cushion", "patio_cushions");
  (contains_any lower ["bike ride"; "cycling"], "cycling_routine");
  (contains_any lower ["what s for breakfast"; "what's for breakfast"], "breakfast_plan");
  (contains_any lower ["father's day"; "father s day"; "fathers day"]
   || contains lower "dad" && contains lower "gift", "father_day_gift")].

Definition query_type_rules_4 (lower : string) : list (bool * string) := [
  (contains lower "need a break", "quick_break");
  (contains lower "wine" && contains lower "steak", "steak_wine_pairing");
  (contains lower "stuffy", "ventilation_comfort");
  (contains_any lower ["working from home"; "work from home"], "work_from_home");
  (contains lower "ink" && contains lower "printer", "printer_ink");
  (contains_any lower ["safe to run"; "run outside"], "running_safety");
  (contains lower "sarah" && contains lower "birthday last year", "gift_history");
  (contains lower "game night", "game_night");
  (contains lower "baby" && contains lower "crying again", "baby_crying_again");
  (contains_any lower ["olive oil"; "use instead"], "cooking_substitute");
  (contains lower "bookshelf", "diy_bookshelf");
  (contains lower "toilet" && contains lower "running", "toilet_troubleshooting");
  (contains lower "knee" && contains lower "run", "running_injury");
  (contains lower "side dish"
   || contains lower "pasta" && contains lower "need", "pasta_side_dish");
  (contains_any lower ["pack my gym bag"; "gym bag"], "gym_bag");
  (contains_any lower ["over budget"; "budget this month"], "budget_advice");
  (contains lower "text mom" && contains lower "birthday", "birthday_message");
  (contains lower "driving home" && contains lower "rain", "arrival_rain");
  (contains lower "safe to eat", "food_safety");
  (contains lower "dark parking lot", "safety_protocol");
  (contains_any lower ["movie we haven"; "movie we have not"; "haven t seen"], "unwatched_media");
  (contains lower "defrost" && contains lower "turkey", "turkey_thawing");
  (contains lower "airport", "airport_departure");
  (contains lower "dinner party"
   || contains lower "buy food" && contains lower "party", "dinner_party_food");
  (contains_any lower ["need a laugh"; "comedy"], "comedy_media");
  (contains_any lower ["solar system"; "space"; "planets"], "space_learning");
  (contains_any lower ["oversleep"; "wake up"], "sleep_routine");
  (contains_any lower ["really hot"; "i m hot"; "i'm hot"], "cooling_comfort");
  (contains_any lower ["guests coming"; "guests coming over"], "guest_arrival");
  (contains_any lower ["baby is awake"; "baby awake"], "baby_awake");
  (contains_any lower ["what s for dinner"; "what's for dinner"], "meal_plan");
  (contains lower "going for a run", "running_routine");
  (contains_any lower ["package"; "delivered"], "delivery_tracking");
  (contains_any lower ["feeling cold"; "feel cold"; "i'm cold"], "home_comfort");
  (contains_any lower ["lunchbox"; "lunch box"; "snack"; "detergent"], "shopping");
  (contains_any lower ["scary movie"; "horror"; "thriller"], "scary_media");
  (contains_any lower ["robot"; "movie"; "comfort movie"; "feel-good"], "media");
  (contains lower "bored", "activity_suggestion");
  (contains lower "start the car", "vehicle_routine");
  (contains_any lower ["car"; "mechanic"]
   || contains lower "noise" && contains lower "car", "vehicle_troubleshooting");
  (contains lower "printer", "device_troubleshooting");
  (contains_any lower ["cook"; "chicken"; "rice"], "recipe");
  (contains_any lower ["park"; "warm enough"], "outdoor_preference");
  (contains_any lower ["leak"; "sink"; "plumber"], "home_maintenance");
  (contains_any lower ["grandma"; "too late to call"], "family_contact");
  (contains_any lower ["baby"; "crying"], "routine");
  (contains_any lower ["stressed"; "stress"], "wellness");
  (contains lower "science fair", "science_project");
  (contains lower "bake"
   || contains lower "flour" && contains lower "sugar", "recipe");
  (contains lower "headache", "first_aid");
  (contains_any lower ["read me a story"; "story"], "story");
  (contains_any lower ["movie for tonight"; "find a movie"], "media");
  (contains lower "dog food", "pet_shopping");
  (contains_any lower ["trip to the zoo"; "zoo"], "trip_planning")].

Definition query_type_rules_5 (lower : string) : list (bool * string) := [
  (contains lower "hungry" && contains lower "diet", "diet_recipe");
  (contains_any lower ["washing machine"; "washer"; "shaking"], "appliance_troubleshooting");
  (contains lower "watch tv", "watch_history");
  (contains_any lower ["someone is at the door"; "doorbell"], "visitor");
  (contains lower "focus music", "focus_music");
  (contains_any lower ["need a drink"; "soccer practice"], "beverage");
  (contains lower "too bright", "light_comfort");
  (contains lower "lonely", "social_support");
  (contains_any lower ["sink smells"; "kitchen sink smells"], "home_maintenance");
  (contains lower "leaving for work", "commute");
  (contains_any lower ["make tacos"; "taco"], "meal_planning");
  (contains lower "muggy", "humidity_comfort");
  (contains lower "cut my finger", "first_aid");
  (contains_any lower ["where are my keys"; "keys"], "location");
  (contains lower "noise outside", "outdoor_sound");
  (contains lower "order pizza", "pizza_order");
  (is_one_of lower ["i'm home"; "i m home"; "i am home"], "arrival_routine");
  (contains_any lower ["math homework"; "fractions"], "education_help");
  (contains_any lower ["tired of this song"; "this song"], "music_control");
  (contains_any lower ["tell me a joke"; "joke"], "entertainment_joke");
  (contains lower "ephemeral", "dictionary_definition");
  (contains_any lower ["build a fort"; "fort"], "fort_activity");
  (contains_any lower ["running late for the train"; "train"], "train_commute");
  (contains lower "air quality", "air_quality_health");
  (contains_any lower ["slow cooker"; "chili"], "slow_cooker_recipe");
  (contains lower "birthday party", "party_planning");
  (contains lower "spider", "pest_control");
  (contains lower "remote", "location");
  (contains lower "freezer", "food_safety")].

Definition query_type_rules (lower : string) : list (bool * string) :=
  query_type_rules_1 lower ++ query_type_rules_2 lower ++ query_type_rules_3 lower
  ++ query_type_rules_4 lower ++ query_type_rules_5 lower.

(** ** What is worth embedding *)

Definition EMBEDDED_KINDS : list string :=
  ["preference"; "context"; "fact"; "note"; "document"; "manual"; "shopping"; "movie"; "activity"; "mechanic";
   "troubleshooting"; "recipe"; "recipe_book"; "media_library"; "pet_health"; "home_maintenance"; "routine";
   "wellness"; "science_project"; "first_aid"; "medicine"; "audiobook"; "story"; "pet_inventory"; "travel";
   "travel_document"; "travel_documents"; "diet"; "watch_history"; "doorbell"; "visitor"; "music_profile";
   "device_manual"; "device_manuals"; "home_note"; "home_notes"; "home_inventory"; "meal_history";
   "recipe_collection"; "shopping_list"; "shopping_lists"; "school_info"; "security_log"; "beverage";
   "beverage_preference"; "social_connection"; "commute"; "pantry"; "comfort"; "location_history"; "tracker";
   "pizza"; "arrival"; "financial_record"; "financial_records"; "digital_scan"; "digital_scans";
   "storage_inventory"; "game_manual"; "game_manuals"; "educational_resource"; "educational_resources";
   "entertainment"; "dictionary"; "dictionary_knowledge_base"; "activity_idea"; "activity_ideas"; "air_quality";
   "health_profile"; "party_theme"; "party_themes"; "pest_control"; "family_reaction"; "family_reactions";
   "food_safety"; "contact_book"; "social_graph"; "educational_content"; "documentary_library";
   "productivity_tip"; "productivity_tips"; "sleep_routine"; "meal_plan"; "delivery_instruction";
   "delivery_instructions"; "shipping_tracking"; "flight_info"; "traffic_to_airport"; "travel_preference";
   "travel_preferences"; "party_recipe"; "party_recipes"; "pet_calendar"; "astronomical_data";
   "payment_history"; "tool_inventory"; "digital_receipts"; "scanned_docs"; "network_config"; "health_tracker";
   "cooking_substitutes"; "diy_projects"; "material_lists"; "plumbing_troubleshooting"; "injury_recovery";
   "health_tips"; "gym_schedule"; "gym_routine"; "financial_advice"; "contacts"; "message_templates";
   "location_api"; "arrival_rain"; "safety_protocol"; "streaming_services"; "user_location";
   "turkey_thawing_guide"; "safety_equipment_log"; "school_documents"; "contractor_list"; "recipe_notes";
   "wish_list"; "interests_profile"; "wellness_activities"; "food_pairing_database"; "device_profiles";
   "gift_history"; "board_games"; "baby_monitor_logs"; "news_sources"; "appliance_states";
   "waste_management_log"; "environmental_sensors"; "location_services"; "garden_devices"; "appliance_manuals";
   "security_codes"; "subscription_credentials"; "music_library"; "ebook_store"; "read_history";
   "restaurant_history"; "delivery_apps"; "plant_care"; "weight_trend"; "lunch_preferences";
   "outdoor_furniture"; "cycling_route"; "financial_services"; "smart_plug"; "electronic_program_guide";
   "water_heater_sensor"; "craft_inventory"; "secure_storage_log"; "vehicle_registration";
   "appliance_warranties"; "network_credentials"; "local_business_reviews"; "wardrobe_inventory";
   "event_dress_code"; "wellness_content"; "education_app"; "takeout_menus"; "hotel_preferences";
   "maintenance_schedule"; "filter_model_number"; "routine_logs"; "family_activities"; "plumbing_history";
   "sewing_instructions"; "breathing_monitor"; "smart_scale"; "connected_car"; "printer_status";
   "financial_market_api"; "pool_robot"; "backyard_devices"; "baby_monitor"; "navigation_service"; "smart_lock";
   "shipping_tracker"; "digital_documents"; "vehicle_documents"; "subscriptions"; "cooking_reference";
   "hobby_inventory"; "tutorial_videos"; "health_advice"; "local_businesses"; "charity_ratings";
   "personal_interests"; "language_apps"; "podcast_library"; "audio_library"; "wardrobe_database";
   "fashion_advice"; "beverage_prefs"; "uv_index"; "sun_safety"; "friend_availability"; "favorite_dishes";
   "fever_management"; "snow_protocol"; "device_usage"; "site_category"; "weather_video_url";
   "preferred_presenter"; "mood_context"; "smart_oven"; "plumbing_sensors"; "basement_monitoring";
   "fitness_tracker"; "kitchen_appliances"; "air_quality_monitor"; "appliance_docs"; "shoe_closet_inventory";
   "password_manager"; "community_calendar"; "restaurant_list"; "home_warranties"; "network_device_list";
   "financial_archive"; "story_library"; "literature_database"; "local_trail_database"; "photo_album";
   "object_recognition"; "pet_names_db"; "educational_video"; "camping_checklist"; "bar_inventory";
   "restaurants"; "babysitter_availability"; "dinner_plan"; "water_sensor"; "bike_tracker"; "security_logs";
   "taco_bar_ingredients"; "user_profiles"; "presence_state"; "device_states"; "comfort_preference_embeddings";
   "activity_preference_embeddings"; "room_mood_embeddings"; "sleep_preference_embeddings";
   "safety_intent_embeddings"; "parental_rules"; "screen_time_usage"; "family_schedule"; "inventory_items";
   "notes_fts"; "documents"; "last_opened_locations"; "manuals_fts"; "document_store"; "scenes";
   "scene_actions"; "ambient_light_sensors"; "reminders"; "routine_steps"; "access_logs"; "device_events";
   "health_device_events"; "delivery_events"; "camera_object_events"; "shopping_notes_fts"; "watering_schedule";
   "garden_zones"; "soil_moisture_sensors"; "recipes_fts"; "recipe_embeddings"; "meal_ratings";
   "automation_runs"; "sensor_health"; "alarms"; "automation_rules"; "appliance_thresholds";
   "sensor_reading_history"; "item_location_events"; "motion_events"; "camera_devices"; "replacement_parts";
   "room_assignments"; "pet_care_routines"; "pet_device_events"; "household_guides_fts"; "household_notes_fts";
   "family_notes_fts"; "family_rules"; "family_preference_embeddings"; "notification_rules"; "vent_states";
   "blind_positions"; "meal_notes"; "chore_assignments"; "chore_checkins"; "energy_meter_readings";
   "documents_fts"; "shared_room_reservations"; "school_transport_schedule"; "door_sensor_events";
   "temperature_sensors"; "gas_sensors"; "stove_state"; "presence_alerts"; "presence_alert";
   "document_embeddings"; "shopping_list_items"; "routine_overrides"; "school_notes_fts"; "smart_plug_states";
   "lighting_simulation_rules"; "thermostat_schedule_overrides"; "lock_check_rules"; "food_inventory";
   "vacuum_zones"; "restricted_zones"; "do_not_disturb_rule"; "irrigation_events"; "safety_profiles";
   "permission_requests"; "approval_events"; "health_documents_fts"; "scene_embeddings"; "weather_context";
   "calendar_events"; "reservation"; "ble_tag_events"; "vacuum_events"; "room_map_zones"; "obstacle_reports";
   "device_audit_log"; "control_source"; "family_calendar"; "fan_states"; "water_leak_sensors";
   "health_routines"; "medicine_cabinet_events"; "activity_notes_fts"; "learning_history"; "device_metadata";
   "audio_event_classifications"; "device_alerts"; "battery_status"; "network_access_rules"; "school_tasks";
   "trusted_contacts"; "security_audit_log"; "guest_profiles"; "door_open_events"; "daily_checklists";
   "user_preferences"; "floor_plan_graph"; "safety_routes"; "smoke_detector_locations";
   "door_window_sensor_states"; "project_notes_fts"; "home_project_records"; "glass_break_sensors";
   "camera_events"; "child_contact_rules"; "device_health"; "child_profiles"; "laundry_events"; "hvac_runtime";
   "window_sensor_states"; "appliance_events"; "notification_log"; "air_quality_sensors"; "filter_status";
   "filter_life"; "municipal_schedule"; "household_routines"; "routine_checkins"; "home_project_notes_fts";
   "electrical_panel_map"; "item_embeddings"; "timers"; "home_maintenance_embeddings";
   "scheduled_device_actions"; "medicine_inventory"; "guest_access_policies"; "household_notes";
   "alarm_preferences"; "media_sessions"; "user_media_aliases"; "media_preference_embeddings"; "kitchen_timers";
   "temporary_notifications"; "device_safety_profiles"; "security_mode_attempts"; "lock_errors";
   "device_notes_fts"; "device_credentials"; "open_reminders"; "plant_care_profiles"; "last_watered_events";
   "dishwasher_rack_state"; "kitchen_item_locations"; "door_sensor_states"; "project_lists";
   "project_list_items"; "sensor_alert_rules"; "privacy_audit_log"; "family_messages"; "message_events";
   "camera_access_logs"; "privacy_mode_events"; "camera_recording_rules"; "meal_memory_embeddings";
   "child_media_rules"; "media_preferences"; "pet_feeding_events"; "pet_care_profiles";
   "outdoor_air_quality_feed"; "indoor_air_quality_sensors"; "power_events"; "holiday_calendar";
   "alarm_preference_embeddings"; "network_clients"; "known_devices"; "outdoor_temperature_sensors";
   "moisture_sensors"; "router_stats"; "bandwidth_usage"; "activity_templates"; "camera_health";
   "image_quality_metrics"; "maintenance_notes"; "garage_door_events"; "water_pressure_sensors";
   "home_utility_thresholds"; "water_valve_state"; "camera_person_events"; "humidity_sensors";
   "dehumidifier_state"; "filter_life_remaining"; "user_print_rules"; "printer_supplies"; "cooking_sessions";
   "appliance_safety_profiles"; "camera_privacy_rules"; "room_sensor_history"; "do_not_disturb_rules";
   "temporary_mode_overrides"; "lock_status"; "smoke_detector_status"; "security_modes"; "recipe_ingredients";
   "school_forms"; "meal_notes_fts"].

Definition embedded_phrases_1 (lower : string) : bool :=
  Nat.leb 48 (String.length lower)
  || contains_any lower ["thermostat"; "lunchbox"; "lunch box"; "snack"; "movie"; "watched"; "detergent";
                         "coffee machine"; "bored"; "lego"; "car"; "mechanic"; "printer"; "recipe"; "chicken";
                         "rice"; "comfort"; "feel-good"; "park"; "plumber"; "leak"; "date night"; "grandma";
                         "feeding"; "stressed"; "stress"; "calm"; "science fair"; "baking soda"; "flour";
                         "sugar"; "headache"; "tylenol"; "story"; "audiobook"; "recycling"; "dog food"; "zoo";
                         "diet"; "calorie"; "washing machine"; "shaking"; "watch history"; "doorbell"; "uncle";
                         "focus music"; "scary movie"; "horror"; "thriller"; "drink"; "hydration"; "too bright";
                         "blinds"; "lonely"; "video call"; "sink smells"; "garbage disposal"; "commute";
                         "traffic"; "tacos"; "muggy"; "humidity"; "dehumidifier"; "cut my finger"; "band-aid";
                         "keys"; "bluetooth tracker"; "noise outside"; "pizza"; "start the car";
                         "arrival routine"; "math homework"; "fractions"; "joke"; "ephemeral"; "build a fort";
                         "train"; "air quality"; "asthma"; "slow cooker"; "chili"; "birthday party"; "spider";
                         "remote"; "freezer"; "food safety"; "chicken stir-fry"; "stand-up"; "solar system";
                         "oversleep"; "backup alarm"; "airport"; "flight"; "dinner party"; "gluten"; "vegan";
                         "guest arrival"; "guests coming"; "baby is awake"; "nightlight"; "meal plan";
                         "running playlist"; "package"; "delivery instruction"; "olive oil"; "substitute";
                         "bookshelf"; "toilet"; "flapper"; "knee"; "side dish"; "pasta"; "gym bag";
                         "knee sleeves"; "over budget"; "happy birthday"; "driving home"; "rain";
                         "dark parking lot"; "live location"; "haven't seen"; "defrost"; "turkey";
                         "father's day"; "father s day"; "fathers day"; "gift idea"; "need a break";
                         "breathing exercise"; "wine"].

Definition embedded_phrases_2 (lower : string) : bool :=
  contains_any lower ["steak"; "stuffy"; "ventilation"; "working from home"; "work from home"; "printer ink";
                      "cartridge"; "safe to run"; "running outside"; "game night"; "board game";
                      "baby is crying again"; "white noise"; "jazz"; "suggest a book"; "mystery"; "thriller";
                      "takeout"; "sushi"; "ripe banana"; "banana bread"; "beach trip"; "freeze";
                      "potted plants"; "weight trend"; "pack a lunch"; "lunch preferences"; "patio cushions";
                      "bike ride"; "cycling route"; "breakfast"; "credit score"; "haircut"; "wedding";
                      "navy blue suit"; "meditation"; "spanish"; "spicy"; "hotel"; "ac filter"; "air filter";
                      "nap mode"; "brush their teeth"; "kids today"; "family activities"; "toilet is clogged";
                      "clogged"; "sew a button"; "sewing"; "smart scale"; "bedtime story"; "romantic poem";
                      "hiking trail"; "basil"; "sunset photo"; "goldfish"; "anxious"; "roman empire";
                      "mood music"; "camping"; "cocktail"; "vacation mode"; "smoky"; "working late";
                      "date night"; "washing machine is leaking"; "bike lock"; "taco bar"; "cartoon time";
                      "science fair checklist"; "air fryer"; "movie night"; "cozy room"; "garage door";
                      "groceries are low"; "saturday morning"; "hallway air purifier"; "garden"; "chickpea";
                      "hallway light"; "rehearsal"; "night-light"; "night hallway"; "dishwasher error";
                      "tablet charger"; "water near the outlet"].

Definition embedded_phrases (lower : string) : bool :=
  embedded_phrases_1 lower || embedded_phrases_2 lower.

(** ** Deciding *)

Definition contextual_household_batch_five_type (lower : string) : option string :=
  first_rule (household_batch_rules lower).

Definition semantic_memory_type (kind content : string) : string :=
  let lower := to_ascii_lowercase content in
  default (to_ascii_lowercase (trim kind))
    (contextual_household_batch_five_type lower <|> first_rule (memory_type_rules lower)).

Definition semantic_query_type (query : string) : option string :=
  let lower := to_ascii_lowercase query in
  contextual_household_batch_five_type lower <|> first_rule (query_type_rules lower).

Definition embedding_text_for_memory (kind content : string) : string :=
  semantic_memory_type kind content +:+ " " +:+ content.

Definition embedding_text_for_query (query : string) : string :=
  let lower := to_ascii_lowercase query in
  match contextual_household_batch_five_type lower <|> first_rule (query_text_rules lower) with
  | Some words => words +:+ " " +:+ query
  | None => query
  end.

(** ** Secrets *)

Definition mentions_lock_word (lower : string) : bool :=
  existsb (fun token => is_one_of token ["lock"; "locks"])
    (split_where (fun c => negb (char_byte (fun a => byte_is_alpha a || byte_is_digit a) c)) lower).

Definition secret_rules (lower : string) : list (bool * string) :=
  let mentions_wifi := contains_any lower ["wi-fi"; "wifi"; "wi fi"] in
  let mentions_credential := contains_any lower ["password"; "passcode"; "credential"] in [
  (mentions_wifi && mentions_credential
   || contains lower "network password"
   || contains lower "guest network" && mentions_credential, "wifi_password");
  (contains_any lower ["password"; " pass:"]
   || starts_with lower "pass:"
   || contains_any lower ["bank login"; "password manager"; "secure vault"; "credentials vault"]
   || contains lower "netflix" && contains_any lower ["code"; "credential"; "login"], "password");
  (contains lower "gate code", "gate_code");
  (contains_any lower ["door code"; "lock code"]
   || contains lower "shed" && contains lower "code"
      && negb (contains lower "paint") && negb (contains lower "color") && negb (contains lower "colour")
   || contains lower "shed" && contains lower "combination"
   || mentions_lock_word lower && contains_any lower ["combination"; "combo"], "lock_code");
  (contains_any lower ["alarm code"; "security code"], "security_code");
  (contains lower "confirmation number", "confirmation_number");
  (contains lower "account number", "account_number");
  (contains_any lower ["spare key"; "spare keys"; "house key"; "house keys"], "secure_location");
  (contains_any lower ["combination"; "combo"], "combination")].

Definition secret_type_from_text (lower : string) : option string := first_rule (secret_rules lower).

(** ** Embedding *)

Definition shared_room_allowed (metadata : MemoryPolicyMetadata) : bool :=
  decision_allowed (assess_memory_read metadata shared_room_voice).

Definition should_embed_memory (kind content : string) (metadata : MemoryPolicyMetadata) : bool :=
  let lower := to_ascii_lowercase content in
  if bool_decide (is_Some (secret_type_from_text lower)) then false
  else if negb (shared_room_allowed metadata) then false
  else is_one_of (to_ascii_lowercase kind) EMBEDDED_KINDS || embedded_phrases lower.
