(* ===== verification/MemoryExtract.v ===== *)
(** * The facts the memory store reads out of a content ([memory/parse_household.rs], [memory/mod.rs])

    What a stored sentence says about the household: who is who, what a device is
    called, the rules, the notes, the calendar, the lists, the logs, and where a
    secret is kept.  Each reader returns the rows its table gets for the
    memory; [MemoryTables] adds the memory they came from. *)

From S2P Require Import Prelude RustStr RustNum MemoryPolicy MemoryTypes.
Local Open Scope string_scope.
Local Open Scope list_scope.
Local Open Scope rust_scope.

(** ** Cutting a text *)

Definition one_of (cs : list string) (c : string) : bool := is_one_of c cs.
Definition alnum (c : string) : bool := char_byte is_ascii_alphanumeric c.
Definition not_alnum (c : string) : bool := negb (alnum c).
Definition QUOTES_AND_STOPS : list string := [dquote; "'"; "."; ","; ":"; ";"; "?"; "!"].

Definition unspaced (s : string) : string := join " " (split_whitespace s).
Definition first_part (p : string -> bool) (s : string) : string := default "" (head (split_where p s)).
Definition last_part (p : string -> bool) (s : string) : string := default "" (last (split_where p s)).
(** [s.split(p).next()]. *)
Definition before (s p : string) : string := match split_once s p with Some (l, _) => l | None => s end.

(** The sentence of a memory, without its full stop. *)
Definition statement_of (content : string) : string := trim_matches (one_of ["."; "!"; "?"]) (trim content).

(** The text is cut where its lower case is. *)
Definition cut_at (original l marker : string) : string * string :=
  (String.substring 0 (String.length l) original, sdrop (String.length l + String.length marker) original).
Definition split_once_case_insensitive (original lower marker : string) : option (string * string) :=
  '(l, _) ← split_once lower marker; Some (cut_at original l marker).
Definition rsplit_once_case_insensitive (original lower marker : string) : option (string * string) :=
  '(l, _) ← rsplit_once lower marker; Some (cut_at original l marker).

Definition opt_nonempty (s : string) : option string := if is_empty s then None else Some s.
(** The rows of a reader that pushes them one at a time. *)
Definition pushed {A} (rows : list (option A)) : list A := filter_map (fun r => r) rows.

(** ** Cleaning *)

Definition clean_sentence_value (v : string) : string := unspaced (trim_matches (one_of QUOTES_AND_STOPS) (trim v)).

Definition clean_person_name (v : string) : string :=
  join " " (take 3 (split_whitespace
    (trim_matches (one_of QUOTES_AND_STOPS) (trim_start_str (trim_start_str (trim v) "for ") "that ")))).

Definition leading_person_name (v : string) : option string :=
  name ← head (split_whitespace v); opt_nonempty (clean_person_name name).

Definition leading_age (v : string) : option N :=
  opt_filter (fun age => (1 <=? age)%N && (age <=? 120)%N)
    (parse_u8 (concat_str (take_while is_ascii_digit (chars (trim_start v))))).

Definition articles_trimmed (s : string) : string :=
  trim_start_str (trim_start_str (trim_start_str s "the ") "a ") "an ".

Definition clean_device_phrase (v : string) : string := articles_trimmed (clean_sentence_value v).

Definition normalize_alias_key (v : string) : string :=
  unspaced (concat_str ((fun c => if alnum c || char_byte is_ascii_whitespace c then c else " ") <$> chars (to_ascii_lowercase v))).
Definition normalize_name_key (v : string) : string :=
  unspaced (concat_str ((fun c => if alnum c then c else " ") <$> chars (to_ascii_lowercase v))).

Definition normalize_rule_subject (v : string) : string :=
  let singular := to_ascii_lowercase (trim_matches (one_of QUOTES_AND_STOPS) (articles_trimmed (trim v))) in
  if String.eqb singular "peanuts" then "peanut"
  else if is_one_of singular ["video_games"; "video games"; "video game"; "gaming"] then "video_games"
  else if is_one_of singular ["screen_time"; "screen time"] then "screen_time"
  else if String.eqb singular "homework" then "homework"
  else trim_end_matches (one_of ["s"]) (join "_" (split_whitespace singular)).

Definition normalize_inventory_item (v : string) : string :=
  let key := normalize_alias_key v in
  if is_one_of key ["egg"; "eggs"] then "eggs"
  else if String.eqb key "milk" then "milk"
  else trim_end_matches (one_of ["s"]) key.

Definition split_list_items (v : string) : list string :=
  List.filter nonempty
    ((fun item => articles_trimmed (clean_sentence_value item)) <$> split_where (one_of [","; ";"]) (replace v " and " ",")).

(** ** Times and days *)

Definition DAYS : list string :=
  ["today"; "tomorrow"; "monday"; "tuesday"; "wednesday"; "thursday"; "friday"; "saturday"; "sunday"].
Definition WEEK : list string := drop 2 DAYS.

Definition calendar_day_from_text (lower : string) : option string :=
  List.find (fun day =>
    existsb (fun token => String.eqb (trim_matches (one_of ["."; ","; ";"; "?"; "!"]) token) day) (split_whitespace lower))
    DAYS.

Definition relative_calendar_phrase_from_text (lower : string) : option string :=
  find_map (fun day => List.find (contains lower) ["last " +:+ day; "next " +:+ day]) WEEK
  <|> calendar_day_from_text lower.

Definition normalize_calendar_day (v : string) : string :=
  default (normalize_alias_key v) (calendar_day_from_text (to_ascii_lowercase v)).

Definition normalize_time_value (v : string) : option string :=
  opt_nonempty (replace (to_ascii_lowercase (trim v)) " " "").

Fixpoint time_words (ws : list string) : list string :=
  match ws with
  | [] => []
  | w :: ws =>
      let clean := trim_matches (one_of ["."; ","; ";"; "!"; "?"]) w in
      if existsb (eq_ignore_ascii_case clean) ["for"; "because"; "with"; "on"] then []
      else if existsb (eq_ignore_ascii_case clean) ["am"; "pm"] then [clean]
      else clean :: time_words ws
  end.
Definition time_after_marker (content lower marker : string) : option string :=
  '(_, rest) ← split_once_case_insensitive content lower marker;
  normalize_time_value (join " " (time_words (take 3 (split_whitespace (trim rest))))).

Definition relative_due_from_text (lower : string) : option string :=
  '(_, rest) ← split_once lower "due in ";
  opt_nonempty (trim (before (first_part (one_of ["."; ","; ";"]) ("in " +:+ rest)) " on ")).

Definition due_date_from_text (content lower : string) : option string :=
  '(_, rest) ← split_once_case_insensitive content lower " on ";
  let date := trim (before (before (first_part (one_of ["."; ","; ";"]) (trim rest)) " at ") " estimated ") in
  if is_empty date then None else Some (clean_sentence_value date).

(** ** Subjects, actors, amounts *)

Definition subject_after_marker (content lower marker : string) : option string :=
  '(_, rest) ← rsplit_once_case_insensitive content lower marker;
  let subject := trim (before (first_part (one_of ["."; ","; ";"]) (trim rest)) " at ") in
  if is_empty subject then None else Some (clean_sentence_value subject).

Definition subject_before_marker (content lower marker : string) : option string :=
  '(subject, _) ← split_once_case_insensitive content lower marker;
  let subject := trim subject in
  if is_empty subject then None else Some (clean_person_name subject).

Definition actor_after_marker (content lower marker : string) : option string :=
  '(_, rest) ← split_once_case_insensitive content lower marker;
  let actor := before (before (before (trim rest) " using ") " with ") " at " in
  let actor := trim (first_part (one_of ["."; ","; ";"]) actor) in
  if is_empty actor then None else Some (clean_person_name actor).

Definition amount_from_text (content : string) : option string :=
  '(_, rest) ← split_once content "$";
  let amount := default "" (head (split_whitespace ("$" +:+ rest))) in
  opt_nonempty (trim_matches (fun c => negb (is_ascii_digit c) && negb (one_of ["$"; "."] c)) amount).

Definition allowance_person_from_text (content lower : string) : option string :=
  find_map (fun marker =>
    '(person, _) ← split_once_case_insensitive content lower marker; opt_nonempty (clean_person_name person))
    [" received "; " got "]
  <|> leading_person_name content.

Definition stock_subject_from_text (content lower : string) : option string :=
  find_map (fun marker =>
    '(subject, _) ← split_once_case_insensitive content lower marker; opt_nonempty (clean_sentence_value subject))
    [" is currently trading"; " stock price"].

(** The first marker that is there decides, even where no channel follows it. *)
Fixpoint channel_guide_from (content lower : string) (markers : list string) : option (string * string) :=
  match markers with
  | [] => None
  | marker :: markers =>
      match split_once_case_insensitive content lower marker with
      | None => channel_guide_from content lower markers
      | Some (subject, rest) =>
          let subject := trim_start_str (clean_sentence_value subject) "the " in
          token ← List.find (fun token => existsb is_ascii_digit (chars token)) (split_whitespace rest);
          let channel := trim_matches not_alnum token in
          if nonempty subject && nonempty channel then Some (subject, channel)
          else channel_guide_from content lower markers
      end
  end.
Definition channel_guide_from_text (content lower : string) : option (string * string) :=
  channel_guide_from content lower [" is on channel "; " is channel "; " channel is "].

Definition calendar_person_from_statement (content lower : string) : option string :=
  find_map (fun marker =>
    '(person, _) ← split_once_case_insensitive content lower marker; opt_nonempty (clean_person_name person))
    [" has "; "'s "]
  <|> leading_person_name content.

Definition permission_statement (content lower marker : string) (fallback_person : option string)
    : option (string * string) :=
  '(said, rest) ← split_once_case_insensitive content lower marker;
  let who := trim (last_part (one_of ["."; ";"]) said) in
  person ←
    (if is_one_of (trim (to_ascii_lowercase who)) ["he"; "she"; "they"; "him"; "her"] then fallback_person
     else Some (clean_person_name who));
  let device := clean_device_phrase (first_part (one_of ["."; ";"]) (trim rest)) in
  if is_empty person || is_empty device then None else Some (person, device).

(** ** Quantities *)

Definition QUANTITY_WORDS : list (list string * string) :=
  [(["zero"; "none"], "0"); (["one"; "a"; "an"], "1"); (["two"], "2"); (["three"], "3"); (["four"], "4");
   (["five"], "5"); (["six"], "6"); (["seven"], "7"); (["eight"], "8"); (["nine"], "9"); (["ten"], "10");
   (["dozen"], "12")].

Definition parse_quantity_token (token : string) : option string :=
  let cleaned := trim_matches (fun c => negb (alnum c) && negb (one_of ["."; "/"] c)) token in
  if is_empty cleaned then None
  else if existsb is_ascii_digit (chars cleaned) then Some cleaned
  else find_map (fun e => when (is_one_of (to_ascii_lowercase cleaned) e.1) e.2) QUANTITY_WORDS.

Definition quantity_for_inventory_item (content lower : string) (item_tokens : list string) : option string :=
  let tokens := split_whitespace content in
  let lower_tokens := split_whitespace lower in
  let at_index i := token ← tokens !! i; parse_quantity_token token in
  let cleaned i := trim_matches not_alnum (default "" (lower_tokens !! i)) in
  let indices := seq 0 (List.length lower_tokens) in
  find_map (fun i =>
    if is_one_of (cleaned i) item_tokens then
      (match i with O => None | S prev => at_index prev end) <|> at_index (S i)
    else None) indices
  <|> find_map (fun i =>
    if is_one_of (cleaned i) ["have"; "has"; "remaining"; "left"; "quantity"] then at_index (S i) else None) indices.

Definition inventory_location (content lower : string) : option string :=
  find_map (fun marker =>
    '(_, rest) ← rsplit_once_case_insensitive content lower marker;
    opt_nonempty (clean_sentence_value (first_part (one_of ["."; ","; ";"]) rest)))
    [" in the "; " in "].

(** ** People *)

Definition ROLE_WORDS : list (list string * string) :=
  [(["dad"; "father"], "dad"); (["mom"; "mother"; "mum"], "mom"); (["son"; "sons"], "son");
   (["daughter"; "daughters"], "daughter"); (["child"; "children"; "kid"; "kids"], "child"); (["wife"], "wife");
   (["husband"], "husband"); (["partner"], "partner"); (["dog"; "dogs"], "dog"); (["cat"; "cats"], "cat");
   (["pet"; "pets"], "pet")].

Definition normalize_household_role (v : string) : option string :=
  let word := default "" (head (split_whitespace (articles_trimmed (trim v)))) in
  let normalized := trim_matches (one_of ["."; ","; "!"; "?"; ":"; ";"]) word in
  find_map (fun e => when (is_one_of normalized e.1) e.2) ROLE_WORDS.

Definition clean_profile_name (v : string) : string :=
  join " " (take 4 (split_whitespace
    (trim_matches (one_of ["."; ","; "!"; "?"; dquote; "'"]) (trim_start_str (trim v) "named ")))).

(** [(role, name)]. *)
Definition possessive_named_profile (content lower : string) : option (string * string) :=
  '(owner, _) ← split_once lower " is named ";
  let owned := trim owner in
  role_phrase ← strip_prefix owned "user's " <|> strip_prefix owned "my " <|> strip_prefix owned "our ";
  role ← normalize_household_role role_phrase;
  let name := clean_profile_name (cut_at content owner " is named ").2 in
  if is_empty name then None else Some (role, name).

Definition definite_role_profile (content lower : string) : option (string * string) :=
  '(owner, _) ← split_once lower " is ";
  role_phrase ← strip_prefix (trim owner) "the ";
  role ← normalize_household_role role_phrase;
  let name := clean_profile_name (cut_at content owner " is ").2 in
  if is_empty name then None else Some (role, name).

(** The first marker that is there decides whether there is a role. *)
Fixpoint subject_role_from (content lower : string) (markers : list string) : option (string * string) :=
  match markers with
  | [] => None
  | marker :: markers =>
      match split_once lower marker with
      | None => subject_role_from content lower markers
      | Some (subject, role_phrase) =>
          role ← normalize_household_role (trim role_phrase);
          let name := clean_profile_name (cut_at content subject marker).1 in
          if is_empty name then subject_role_from content lower markers else Some (name, role)
      end
  end.
Definition subject_role_profile (content lower : string) : option (string * string) :=
  subject_role_from content lower [" is the "; " is our "; " is my "].

(** [(name, role)]. *)
Definition household_profile_from_memory (kind content : string) : option (string * string) :=
  let lower := to_ascii_lowercase content in
  match possessive_named_profile content lower with
  | Some (role, name) => Some (name, role)
  | None =>
      match definite_role_profile content lower with
      | Some (role, name) => Some (name, role)
      | None => subject_role_profile content lower
      end
  end.

(** ** Devices *)

Definition ALIAS_MARKERS : list string :=
  [" maps to "; " points to "; " targets "; " target is "; " entity is "; " device is "; " means "; " = "; " -> ";
   " is "].
Definition ALIAS_WORDS : list string :=
  ["light"; "lights"; "lamp"; "plug"; "switch"; "outlet"; "thermostat"; "scene"; "routine"; "fan"].

Definition clean_device_alias (v : string) : string :=
  unspaced (trim_matches (one_of [dquote; "'"])
    (trim_start_str (trim_start_str (trim_start_str (trim v) "remember that ") "remember ") "the ")).

Definition clean_device_target (v : string) : string :=
  default "" (head (split_whitespace
    (trim_matches (one_of [dquote; "'"; "."; ","; "!"; "?"]) (trim_start_str (trim v) "the ")))).

Definition is_valid_device_alias_pair (alias target : string) (broad_marker : bool) : bool :=
  if is_empty alias || is_empty target || eq_ignore_ascii_case alias target then false
  else
    let alias_lower := to_ascii_lowercase alias in
    let target_lower := to_ascii_lowercase target in
    let looks_like_target := contains target_lower "." || starts_with target_lower "smartplug_" in
    let looks_like_alias := contains_any alias_lower ALIAS_WORDS in
    let explicit_alias_shape := negb broad_marker && Nat.leb (List.length (split_whitespace alias)) 6 in
    looks_like_target && (looks_like_alias || explicit_alias_shape).

(** [(alias, target)]. *)
Definition device_alias_from_memory (content : string) : option (string * string) :=
  let trimmed := statement_of content in
  let lower := to_ascii_lowercase trimmed in
  find_map (fun marker =>
    '(l, r) ← split_once_case_insensitive trimmed lower marker;
    let alias := clean_device_alias l in
    let target := clean_device_target r in
    when (is_valid_device_alias_pair alias target (String.eqb marker " is ")) (alias, target)) ALIAS_MARKERS.

Definition device_alias_kind (target_id : string) : string :=
  match split_once target_id "." with Some (domain, _) => domain | None => "entity" end.

(** ** Attributes *)

Record HouseholdProfileAttribute := { pa_name : string; pa_attribute : string; pa_value : string }.

Definition profile_attr (name attribute v : string) : HouseholdProfileAttribute :=
  {| pa_name := clean_person_name name; pa_attribute := attribute; pa_value := clean_sentence_value v |}.

Definition shoe_size_statement (content lower : string) : option (string * string) :=
  find_map (fun marker =>
    '(name, rest) ← split_once_case_insensitive content lower marker;
    if contains_any (to_ascii_lowercase rest) ["size"; "shoe"] then
      let v := fold_left trim_start_str ["a "; "an "; "shoe "; "size "; "shoe size "] rest in
      Some (clean_person_name name, clean_sentence_value v)
    else None) [" currently wears "; " now wears "; " wears "]
  <|> ('(owner, v) ← split_once_case_insensitive content lower " shoe size is ";
       Some (clean_person_name owner, clean_sentence_value v)).

Definition age_attribute (trimmed lower : string) : option HouseholdProfileAttribute :=
  '(name, rest) ← split_once_case_insensitive trimmed lower " is ";
  age ← leading_age (to_ascii_lowercase rest);
  Some (profile_attr name "age" (show_N age)).

Definition likes_attribute (trimmed lower marker : string) : option HouseholdProfileAttribute :=
  '(name, v) ← split_once_case_insensitive trimmed lower marker;
  let v := clean_sentence_value v in
  if is_empty v then None else Some (profile_attr name "likes" v).

Definition favorite_attribute (trimmed lower : string) : option HouseholdProfileAttribute :=
  '(thing, v) ← split_once_case_insensitive trimmed lower " is ";
  let thing_lower := to_ascii_lowercase thing in
  if contains thing_lower "favorite " then
    let name := match split_once thing "'s " with Some (name, _) => name | None => "household" end in
    let attribute :=
      match split_once thing_lower "favorite " with
      | Some (_, subject) => "favorite_" +:+ normalize_rule_subject (before subject "favorite ")
      | None => "favorite"
      end in
    let v := clean_sentence_value v in
    if is_empty v then None else Some (profile_attr name attribute v)
  else None.

Definition household_profile_attributes_from_memory (content : string) : list HouseholdProfileAttribute :=
  let trimmed := statement_of content in
  let lower := to_ascii_lowercase trimmed in
  pushed
    [age_attribute trimmed lower;
     likes_attribute trimmed lower " likes ";
     likes_attribute trimmed lower " prefers ";
     likes_attribute trimmed lower " enjoys ";
     (if contains lower "shoe" then
        '(name, v) ← shoe_size_statement trimmed lower; Some (profile_attr name "shoe_size" v)
      else None);
     favorite_attribute trimmed lower].

(** ** Rules *)

Record HouseholdRule := {
  rule_person : option string; rule_type : string; rule_subject : string; rule_value : option string;
  rule_allowed : bool; rule_description : string;
}.

Definition parse_allergy_rule (content lower : string) : option (string * string) :=
  match split_once_case_insensitive content lower " is allergic to " with
  | Some (person, rest) => Some (clean_person_name person, normalize_rule_subject rest)
  | None =>
      '(person, rest) ← split_once_case_insensitive content lower " has ";
      '(named, _) ← split_once_case_insensitive rest (to_ascii_lowercase rest) " allergy";
      let severity word := is_one_of (to_ascii_lowercase word) ["a"; "an"; "mild"; "severe"; "recent"] in
      let subject := default "" (List.find (fun word => negb (severity word)) (reverse (split_whitespace named))) in
      if is_empty subject then None else Some (clean_person_name person, normalize_rule_subject subject)
  end.

Definition parse_screen_time_rule (content lower : string) : option (string * string * string) :=
  person ←
    match split_once_case_insensitive content lower " is not allowed " with
    | Some (person, _) => Some (clean_person_name person)
    | None =>
        match split_once_case_insensitive content lower "'s screen time" with
        | Some (person, _) => Some (clean_person_name person)
        | None => leading_person_name content
        end
    end;
  let subject := if contains_any lower ["video game"; "gaming"] then "video_games" else "screen_time" in
  v ← time_after_marker content lower " after " <|> time_after_marker content lower " ends at ";
  Some (person, subject, v).

Definition household_rules_from_memory (content : string) : list HouseholdRule :=
  let trimmed := statement_of content in
  let lower := to_ascii_lowercase trimmed in
  pushed
    [(if contains lower "allerg" then
        '(person, subject) ← parse_allergy_rule trimmed lower;
        Some {| rule_person := Some person; rule_type := "allergy"; rule_subject := subject; rule_value := None;
                rule_allowed := false; rule_description := trimmed |}
      else None);
     (if contains_any lower ["screen time"; "gaming"; "video game"] && contains_any lower ["after "; "ends at "] then
        '(person, subject, v) ← parse_screen_time_rule trimmed lower;
        Some {| rule_person := Some person; rule_type := "screen_time"; rule_subject := subject; rule_value := Some v;
                rule_allowed := false; rule_description := trimmed |}
      else None);
     (if contains lower "homework" then
        person ← leading_person_name trimmed;
        Some {| rule_person := Some person; rule_type := "homework"; rule_subject := "homework";
                rule_value := when (contains lower "before screen") "before_screen_time";
                rule_allowed := true; rule_description := trimmed |}
      else None)].

(** ** Notes *)

Definition NOTE_KINDS_1 : list string :=
  ["note"; "notes"; "reminder"; "manual"; "document"; "context"; "pet_health"; "home_maintenance"; "storage";
   "gift"; "recipe"; "recipe_book"; "mechanic"; "troubleshooting"; "activity"; "media_library"; "routine";
   "safe_inventory"; "appliance_manual"; "photo_metadata"; "warranty"; "school"; "utility"; "recycling";
   "wellness"; "science_project"; "first_aid"; "medicine"; "audiobook"; "story"; "pet_inventory"; "travel";
   "travel_document"; "travel_documents"; "diet"; "watch_history"; "doorbell"; "visitor"; "music_profile";
   "device_manual"; "device_manuals"; "home_note"; "home_notes"; "home_inventory"; "meal_history";
   "recipe_collection"; "shopping_list"; "shopping_lists"; "school_info"; "security_log"; "beverage";
   "beverage_preference"; "social_connection"; "commute"; "pantry"; "comfort"; "location_history"; "tracker";
   "pizza"; "arrival"; "financial_record"; "financial_records"; "digital_scan"; "digital_scans";
   "storage_inventory"; "game_manual"; "game_manuals"; "educational_resource"; "educational_resources";
   "entertainment"; "dictionary"; "dictionary_knowledge_base"; "activity_idea"; "activity_ideas"; "air_quality";
   "health_profile"; "party_theme"; "party_themes"; "pest_control"; "family_reaction"; "family_reactions";
   "food_safety"; "contact_book"; "social_graph"; "educational_content"; "documentary_library";
   "productivity_tip"; "productivity_tips"; "sleep_routine"; "meal_plan"; "delivery_instruction";
   "delivery_instructions"; "shipping_tracking"; "flight_info"; "traffic_to_airport"; "travel_preference";
   "travel_preferences"; "party_recipe"; "party_recipes"; "pet_calendar"; "astronomical_data";
   "payment_history"; "tool_inventory"; "digital_receipts"; "scanned_docs"; "network_config"; "health_tracker";
   "cooking_substitutes"; "diy_projects"; "material_lists"; "plumbing_troubleshooting"; "injury_recovery";
   "health_tips"; "gym_schedule"; "gym_routine"; "financial_advice"; "contacts"; "message_templates";
   "location_api"; "arrival_rain"; "safety_protocol"; "streaming_services"; "user_location";
   "turkey_thawing_guide"; "safety_equipment_log"; "school_documents"; "contractor_list"; "recipe_notes";
   "wish_list"].

Definition NOTE_KINDS_2 : list string :=
  ["interests_profile"; "wellness_activities"; "food_pairing_database"; "device_profiles"; "gift_history";
   "board_games"; "baby_monitor_logs"; "news_sources"; "appliance_states"; "waste_management_log";
   "environmental_sensors"; "location_services"; "garden_devices"; "appliance_manuals"; "security_codes";
   "subscription_credentials"; "music_library"; "ebook_store"; "read_history"; "restaurant_history";
   "delivery_apps"; "plant_care"; "weight_trend"; "lunch_preferences"; "outdoor_furniture"; "cycling_route";
   "financial_services"; "smart_plug"; "electronic_program_guide"; "water_heater_sensor"; "craft_inventory";
   "secure_storage_log"; "vehicle_registration"; "appliance_warranties"; "network_credentials";
   "local_business_reviews"; "wardrobe_inventory"; "event_dress_code"; "wellness_content"; "education_app";
   "takeout_menus"; "hotel_preferences"; "maintenance_schedule"; "filter_model_number"; "routine_logs";
   "family_activities"; "plumbing_history"; "sewing_instructions"; "breathing_monitor"; "smart_scale";
   "connected_car"; "printer_status"; "financial_market_api"; "pool_robot"; "backyard_devices"; "baby_monitor";
   "navigation_service"; "smart_lock"; "shipping_tracker"; "digital_documents"; "vehicle_documents";
   "subscriptions"; "cooking_reference"; "hobby_inventory"; "tutorial_videos"; "health_advice";
   "local_businesses"; "charity_ratings"; "personal_interests"; "language_apps"; "podcast_library";
   "audio_library"; "wardrobe_database"; "fashion_advice"; "beverage_prefs"; "uv_index"; "sun_safety";
   "friend_availability"; "favorite_dishes"; "fever_management"; "snow_protocol"; "device_usage";
   "site_category"; "weather_video_url"; "preferred_presenter"; "mood_context"; "smart_oven";
   "plumbing_sensors"; "basement_monitoring"; "fitness_tracker"; "kitchen_appliances"; "air_quality_monitor";
   "appliance_docs"; "shoe_closet_inventory"; "password_manager"; "community_calendar"; "restaurant_list";
   "home_warranties"; "network_device_list"; "financial_archive"; "story_library"; "literature_database";
   "local_trail_database"; "photo_album"; "object_recognition"; "pet_names_db"; "educational_video";
   "camping_checklist"; "bar_inventory"; "restaurants"; "babysitter_availability"; "dinner_plan";
   "water_sensor"; "bike_tracker"; "security_logs"; "taco_bar_ingredients"; "user_profiles"; "presence_state";
   "device_states"; "comfort_preference_embeddings"; "activity_preference_embeddings"; "room_mood_embeddings";
   "sleep_preference_embeddings"; "safety_intent_embeddings"; "parental_rules"; "screen_time_usage";
   "family_schedule"; "inventory_items"; "notes_fts"; "documents"; "last_opened_locations"].

Definition NOTE_KINDS_3 : list string :=
  ["manuals_fts"; "document_store"; "scenes"; "scene_actions"; "ambient_light_sensors"; "reminders";
   "routine_steps"; "access_logs"; "device_events"; "health_device_events"; "delivery_events";
   "camera_object_events"; "shopping_notes_fts"; "watering_schedule"; "garden_zones"; "soil_moisture_sensors";
   "recipes_fts"; "recipe_embeddings"; "meal_ratings"; "automation_runs"; "sensor_health"; "alarms";
   "automation_rules"; "appliance_thresholds"; "sensor_reading_history"; "item_location_events";
   "motion_events"; "camera_devices"; "replacement_parts"; "room_assignments"; "pet_care_routines";
   "pet_device_events"; "household_guides_fts"; "household_notes_fts"; "family_notes_fts"; "family_rules";
   "family_preference_embeddings"; "notification_rules"; "vent_states"; "blind_positions"; "meal_notes";
   "chore_assignments"; "chore_checkins"; "energy_meter_readings"; "documents_fts"; "shared_room_reservations";
   "school_transport_schedule"; "door_sensor_events"; "temperature_sensors"; "gas_sensors"; "stove_state";
   "presence_alerts"; "presence_alert"; "document_embeddings"; "shopping_list_items"; "routine_overrides";
   "school_notes_fts"; "smart_plug_states"; "lighting_simulation_rules"; "thermostat_schedule_overrides";
   "lock_check_rules"; "food_inventory"; "vacuum_zones"; "restricted_zones"; "do_not_disturb_rule";
   "irrigation_events"; "safety_profiles"; "permission_requests"; "approval_events"; "health_documents_fts";
   "scene_embeddings"; "weather_context"; "calendar_events"; "reservation"; "ble_tag_events"; "vacuum_events";
   "room_map_zones"; "obstacle_reports"; "device_audit_log"; "control_source"; "family_calendar"; "fan_states";
   "water_leak_sensors"; "health_routines"; "medicine_cabinet_events"; "activity_notes_fts"; "learning_history";
   "device_metadata"; "audio_event_classifications"; "device_alerts"; "battery_status"; "network_access_rules";
   "school_tasks"; "trusted_contacts"; "security_audit_log"; "guest_profiles"; "door_open_events";
   "daily_checklists"; "user_preferences"; "floor_plan_graph"; "safety_routes"; "smoke_detector_locations";
   "door_window_sensor_states"; "project_notes_fts"; "home_project_records"; "glass_break_sensors";
   "camera_events"; "child_contact_rules"; "device_health"; "child_profiles"; "laundry_events"; "hvac_runtime";
   "window_sensor_states"; "appliance_events"; "notification_log"; "air_quality_sensors"; "filter_status";
   "filter_life"; "municipal_schedule"; "household_routines"; "routine_checkins"; "home_project_notes_fts";
   "electrical_panel_map"; "item_embeddings"; "timers"; "home_maintenance_embeddings";
   "scheduled_device_actions"; "medicine_inventory"; "guest_access_policies"; "household_notes";
   "alarm_preferences"].

Definition NOTE_KINDS_4 : list string :=
  ["media_sessions"; "user_media_aliases"; "media_preference_embeddings"; "kitchen_timers";
   "temporary_notifications"; "device_safety_profiles"; "security_mode_attempts"; "lock_errors";
   "device_notes_fts"; "device_credentials"; "open_reminders"; "plant_care_profiles"; "last_watered_events";
   "dishwasher_rack_state"; "kitchen_item_locations"; "door_sensor_states"; "project_lists";
   "project_list_items"; "sensor_alert_rules"; "privacy_audit_log"; "family_messages"; "message_events";
   "camera_access_logs"; "privacy_mode_events"; "camera_recording_rules"; "meal_memory_embeddings";
   "child_media_rules"; "media_preferences"; "pet_feeding_events"; "pet_care_profiles";
   "outdoor_air_quality_feed"; "indoor_air_quality_sensors"; "power_events"; "holiday_calendar";
   "alarm_preference_embeddings"; "network_clients"; "known_devices"; "outdoor_temperature_sensors";
   "moisture_sensors"; "router_stats"; "bandwidth_usage"; "activity_templates"; "camera_health";
   "image_quality_metrics"; "maintenance_notes"; "garage_door_events"; "water_pressure_sensors";
   "home_utility_thresholds"; "water_valve_state"; "camera_person_events"; "humidity_sensors";
   "dehumidifier_state"; "filter_life_remaining"; "user_print_rules"; "printer_supplies"; "cooking_sessions";
   "appliance_safety_profiles"; "camera_privacy_rules"; "room_sensor_history"; "do_not_disturb_rules";
   "temporary_mode_overrides"; "lock_status"; "smoke_detector_status"; "security_modes"; "recipe_ingredients";
   "school_forms"; "meal_notes_fts"].

Definition NOTE_KINDS : list string :=
  NOTE_KINDS_1 ++ NOTE_KINDS_2 ++ NOTE_KINDS_3 ++ NOTE_KINDS_4.

Definition NOTE_TYPES_1 : list (list string * string) := [
  (["reminder"], "reminder");
  (["manual"; "document"], "manual");
  (["pet_health"], "pet_health");
  (["home_maintenance"], "home_maintenance");
  (["storage"], "storage");
  (["gift"], "gift");
  (["recipe"; "recipe_book"], "recipe");
  (["mechanic"; "troubleshooting"], "troubleshooting");
  (["activity"], "activity");
  (["media_library"], "media");
  (["routine"], "routine");
  (["safe_inventory"], "storage");
  (["appliance_manual"], "manual");
  (["photo_metadata"], "photo");
  (["warranty"], "warranty");
  (["school"], "school");
  (["utility"], "utility");
  (["recycling"], "recycling");
  (["wellness"], "wellness");
  (["science_project"], "education");
  (["first_aid"; "medicine"], "first_aid");
  (["audiobook"; "story"], "story");
  (["pet_inventory"], "pet");
  (["travel"; "travel_document"; "travel_documents"], "travel");
  (["diet"], "diet");
  (["watch_history"], "media");
  (["doorbell"; "visitor"], "visitor");
  (["music_profile"], "media");
  (["device_manual"; "device_manuals"], "manual");
  (["home_note"; "home_notes"], "home_maintenance");
  (["home_inventory"], "storage");
  (["meal_history"], "meal");
  (["recipe_collection"], "recipe");
  (["shopping_list"; "shopping_lists"], "shopping");
  (["school_info"], "school");
  (["security_log"], "security");
  (["beverage"; "beverage_preference"], "beverage");
  (["social_connection"], "social");
  (["commute"], "commute");
  (["pantry"], "pantry");
  (["comfort"], "home_comfort");
  (["location_history"; "tracker"], "location");
  (["pizza"], "shopping");
  (["arrival"], "routine");
  (["financial_record"; "financial_records"; "digital_scan"; "digital_scans"], "receipt");
  (["storage_inventory"], "storage");
  (["game_manual"; "game_manuals"], "manual");
  (["educational_resource"; "educational_resources"], "education");
  (["entertainment"], "entertainment");
  (["dictionary"; "dictionary_knowledge_base"], "dictionary");
  (["activity_idea"; "activity_ideas"], "activity");
  (["air_quality"; "health_profile"], "health");
  (["party_theme"; "party_themes"], "party");
  (["pest_control"], "pest_control");
  (["family_reaction"; "family_reactions"], "family");
  (["food_safety"], "food_safety");
  (["contact_book"; "social_graph"], "contact");
  (["educational_content"; "documentary_library"], "education");
  (["productivity_tip"; "productivity_tips"; "sleep_routine"], "routine");
  (["meal_plan"], "meal");
  (["delivery_instruction"; "delivery_instructions"; "shipping_tracking"], "delivery");
  (["flight_info"; "traffic_to_airport"; "travel_preference"; "travel_preferences"], "travel");
  (["party_recipe"; "party_recipes"], "party");
  (["pet_calendar"], "pet");
  (["astronomical_data"], "schedule");
  (["payment_history"; "financial_advice"], "finance");
  (["tool_inventory"], "tool");
  (["digital_receipts"; "scanned_docs"], "receipt");
  (["network_config"], "network");
  (["health_tracker"; "injury_recovery"; "health_tips"], "health");
  (["cooking_substitutes"], "recipe");
  (["diy_projects"; "material_lists"], "diy");
  (["plumbing_troubleshooting"], "home_maintenance");
  (["gym_schedule"; "gym_routine"], "fitness");
  (["contacts"; "message_templates"], "contact");
  (["location_api"; "arrival_rain"; "safety_protocol"; "user_location"], "safety");
  (["streaming_services"], "media");
  (["turkey_thawing_guide"], "food_safety");
  (["safety_equipment_log"], "safety");
  (["school_documents"], "school");
  (["contractor_list"], "contact");
  (["recipe_notes"], "recipe");
  (["wish_list"; "interests_profile"; "gift_history"], "gift");
  (["wellness_activities"], "wellness");
  (["food_pairing_database"], "recipe");
  (["device_profiles"], "device");
  (["board_games"], "entertainment");
  (["baby_monitor_logs"], "routine");
  (["news_sources"], "news");
  (["appliance_states"], "device");
  (["waste_management_log"], "schedule");
  (["environmental_sensors"], "home_comfort");
  (["location_services"], "location");
  (["garden_devices"], "device");
  (["appliance_manuals"], "manual");
  (["security_codes"], "security");
  (["subscription_credentials"], "security");
  (["music_library"], "media");
  (["ebook_store"; "read_history"], "entertainment");
  (["restaurant_history"; "delivery_apps"], "meal");
  (["plant_care"], "home_maintenance");
  (["weight_trend"], "health");
  (["lunch_preferences"], "meal");
  (["outdoor_furniture"], "home_maintenance");
  (["cycling_route"], "fitness");
  (["financial_services"], "finance");
  (["smart_plug"], "device");
  (["electronic_program_guide"], "media");
  (["water_heater_sensor"], "device");
  (["craft_inventory"], "storage");
  (["secure_storage_log"], "storage");
  (["vehicle_registration"], "vehicle");
  (["appliance_warranties"], "warranty");
  (["network_credentials"], "network");
  (["local_business_reviews"], "business");
  (["wardrobe_inventory"; "event_dress_code"], "wardrobe");
  (["wellness_content"], "wellness");
  (["education_app"], "education");
  (["takeout_menus"], "meal");
  (["hotel_preferences"], "travel");
  (["maintenance_schedule"; "filter_model_number"], "home_maintenance");
  (["routine_logs"], "routine");
  (["family_activities"], "activity");
  (["plumbing_history"], "home_maintenance");
  (["sewing_instructions"], "diy");
  (["breathing_monitor"], "health");
  (["smart_scale"], "health");
  (["connected_car"], "vehicle");
  (["printer_status"], "device")].

Definition NOTE_TYPES_2 : list (list string * string) := [
  (["financial_market_api"], "finance");
  (["pool_robot"; "backyard_devices"], "device");
  (["baby_monitor"], "health");
  (["navigation_service"], "commute");
  (["smart_lock"], "security");
  (["shipping_tracker"], "delivery");
  (["digital_documents"], "warranty");
  (["vehicle_documents"], "vehicle");
  (["subscriptions"], "finance");
  (["cooking_reference"], "recipe");
  (["hobby_inventory"; "tutorial_videos"], "activity");
  (["health_advice"; "fever_management"], "health");
  (["local_businesses"], "business");
  (["charity_ratings"; "personal_interests"], "social");
  (["language_apps"], "education");
  (["podcast_library"; "audio_library"], "media");
  (["wardrobe_database"; "fashion_advice"], "wardrobe");
  (["beverage_prefs"], "beverage");
  (["uv_index"; "sun_safety"], "safety");
  (["friend_availability"], "social");
  (["favorite_dishes"], "meal");
  (["snow_protocol"], "home_maintenance");
  (["device_usage"; "site_category"], "education");
  (["weather_video_url"; "preferred_presenter"], "news");
  (["mood_context"], "wellness");
  (["smart_oven"; "plumbing_sensors"; "basement_monitoring"; "kitchen_appliances"], "device");
  (["fitness_tracker"], "fitness");
  (["air_quality_monitor"], "health");
  (["appliance_docs"], "manual");
  (["shoe_closet_inventory"], "storage");
  (["password_manager"], "security");
  (["community_calendar"], "schedule");
  (["restaurant_list"], "contact");
  (["home_warranties"], "warranty");
  (["network_device_list"], "network");
  (["financial_archive"], "finance");
  (["story_library"], "story");
  (["literature_database"], "literature");
  (["local_trail_database"], "activity");
  (["photo_album"; "object_recognition"], "photo");
  (["pet_names_db"], "pet");
  (["educational_video"], "education");
  (["camping_checklist"], "activity");
  (["bar_inventory"], "recipe");
  (["restaurants"; "babysitter_availability"], "social");
  (["dinner_plan"], "meal");
  (["water_sensor"], "home_maintenance");
  (["bike_tracker"; "security_logs"], "security");
  (["taco_bar_ingredients"], "meal");
  (["user_profiles"], "profile");
  (["presence_state"; "last_opened_locations"; "item_location_events"], "location");
  (["device_states"; "scene_actions"; "ambient_light_sensors"; "motion_events"; "camera_devices"], "device");
  (["comfort_preference_embeddings"; "activity_preference_embeddings"; "room_mood_embeddings";
    "family_preference_embeddings"; "scene_embeddings"; "sleep_preference_embeddings"], "home_comfort");
  (["safety_intent_embeddings"], "safety");
  (["parental_rules"; "screen_time_usage"], "family");
  (["inventory_items"], "inventory");
  (["family_schedule"; "school_transport_schedule"; "shared_room_reservations"; "reminders"; "alarms";
    "presence_alerts"; "presence_alert"; "reservation"], "schedule");
  (["notes_fts"; "documents"; "documents_fts"; "school_notes_fts"], "school");
  (["manuals_fts"; "document_store"; "health_documents_fts"], "manual");
  (["scenes"; "automation_rules"; "routine_steps"; "routine_overrides"], "routine");
  (["access_logs"; "device_events"], "security");
  (["health_device_events"], "health");
  (["pet_care_routines"; "pet_device_events"], "pet");
  (["delivery_events"; "camera_object_events"; "shopping_notes_fts"], "delivery");
  (["watering_schedule"; "garden_zones"; "soil_moisture_sensors"; "irrigation_events"], "garden");
  (["recipes_fts"; "recipe_embeddings"], "recipe");
  (["meal_ratings"; "meal_notes"; "food_inventory"], "meal");
  (["household_guides_fts"], "recycling");
  (["household_notes_fts"], "home_maintenance");
  (["family_notes_fts"; "family_rules"], "family");
  (["chore_assignments"; "chore_checkins"], "family");
  (["automation_runs"; "sensor_health"; "vent_states"; "blind_positions"], "troubleshooting");
  (["appliance_thresholds"; "sensor_reading_history"; "door_sensor_events"; "temperature_sensors";
    "energy_meter_readings"; "smart_plug_states"], "device");
  (["room_assignments"; "vacuum_zones"; "restricted_zones"], "location");
  (["ble_tag_events"], "location");
  (["vacuum_events"; "room_map_zones"; "obstacle_reports"], "device");
  (["device_audit_log"; "control_source"; "security_audit_log"], "security");
  (["family_calendar"; "daily_checklists"], "schedule");
  (["fan_states"; "device_metadata"; "device_health"], "device");
  (["water_leak_sensors"; "glass_break_sensors"; "camera_events"], "safety");
  (["health_routines"; "medicine_cabinet_events"], "health");
  (["activity_notes_fts"; "learning_history"], "education");
  (["audio_event_classifications"; "device_alerts"; "battery_status"], "troubleshooting");
  (["network_access_rules"; "school_tasks"], "education");
  (["trusted_contacts"; "guest_profiles"; "child_profiles"], "family");
  (["door_open_events"], "delivery");
  (["user_preferences"], "home_comfort");
  (["floor_plan_graph"; "safety_routes"; "smoke_detector_locations"; "door_window_sensor_states"], "safety");
  (["project_notes_fts"; "home_project_records"], "home_maintenance");
  (["child_contact_rules"], "family");
  (["laundry_events"; "appliance_events"; "notification_log"], "device");
  (["hvac_runtime"; "window_sensor_states"], "home_comfort");
  (["air_quality_sensors"; "filter_status"; "filter_life"], "health");
  (["municipal_schedule"; "household_routines"; "routine_checkins"], "schedule");
  (["home_project_notes_fts"; "electrical_panel_map"], "home_maintenance");
  (["item_embeddings"], "inventory");
  (["timers"; "scheduled_device_actions"; "alarm_preferences"], "schedule");
  (["home_maintenance_embeddings"], "home_maintenance");
  (["medicine_inventory"], "health");
  (["guest_access_policies"], "family");
  (["household_notes"], "home_maintenance")].

Definition NOTE_TYPES_3 : list (list string * string) := [
  (["media_sessions"; "user_media_aliases"; "media_preference_embeddings"], "media");
  (["kitchen_timers"; "temporary_notifications"], "device");
  (["device_safety_profiles"], "safety");
  (["security_mode_attempts"; "lock_errors"], "security");
  (["device_notes_fts"; "device_credentials"], "device");
  (["open_reminders"], "schedule");
  (["plant_care_profiles"; "last_watered_events"], "garden");
  (["dishwasher_rack_state"; "kitchen_item_locations"], "inventory");
  (["door_sensor_states"], "security");
  (["project_lists"; "project_list_items"], "school");
  (["sensor_alert_rules"], "device");
  (["privacy_audit_log"; "camera_access_logs"; "privacy_mode_events"; "camera_recording_rules";
    "camera_privacy_rules"], "privacy");
  (["family_messages"; "message_events"], "family");
  (["meal_memory_embeddings"], "meal");
  (["child_media_rules"; "media_preferences"], "media");
  (["pet_feeding_events"; "pet_care_profiles"], "pet");
  (["outdoor_air_quality_feed"; "indoor_air_quality_sensors"], "health");
  (["power_events"], "device");
  (["holiday_calendar"], "schedule");
  (["alarm_preference_embeddings"], "schedule");
  (["network_clients"; "known_devices"; "router_stats"; "bandwidth_usage"], "network");
  (["outdoor_temperature_sensors"; "moisture_sensors"], "safety");
  (["activity_templates"], "activity");
  (["camera_health"; "image_quality_metrics"; "maintenance_notes"], "home_maintenance");
  (["garage_door_events"], "security");
  (["water_pressure_sensors"; "home_utility_thresholds"; "water_valve_state"], "utility");
  (["camera_person_events"], "security");
  (["humidity_sensors"; "dehumidifier_state"; "filter_life_remaining"], "home_comfort");
  (["user_print_rules"; "printer_supplies"], "device");
  (["cooking_sessions"], "recipe");
  (["appliance_safety_profiles"], "safety");
  (["room_sensor_history"], "home_comfort");
  (["do_not_disturb_rules"], "home_comfort");
  (["temporary_mode_overrides"], "routine");
  (["lock_status"; "security_modes"], "security");
  (["smoke_detector_status"], "safety");
  (["recipe_ingredients"], "recipe");
  (["school_forms"], "school");
  (["meal_notes_fts"], "meal");
  (["notification_rules"; "do_not_disturb_rule"], "home_comfort");
  (["gas_sensors"; "stove_state"; "safety_profiles"], "safety");
  (["shopping_list_items"], "shopping");
  (["permission_requests"; "approval_events"], "family");
  (["replacement_parts"], "inventory")].

Definition NOTE_TYPES : list (list string * string) :=
  NOTE_TYPES_1 ++ NOTE_TYPES_2 ++ NOTE_TYPES_3.

Definition note_type_from_kind (kind lower_content : string) : string :=
  match find_map (fun e => when (is_one_of kind e.1) e.2) NOTE_TYPES with
  | Some t => t
  | None => if starts_with lower_content "watched " || contains lower_content " watched " then "media" else "note"
  end.

Definition household_note_title (content : string) : string :=
  let title := join " " (take 8 (split_whitespace (first_part (one_of ["."; "!"; "?"]) content))) in
  if is_empty title then "note" else title.

(** What kind of note a sentence is, and which part of it. *)
Definition note_reading (kind_lower trimmed lower : string) : option (string * string) :=
  if is_one_of kind_lower NOTE_KINDS then Some (note_type_from_kind kind_lower lower, trimmed)
  else
    let after prefix := (fun _ => trim (sdrop (String.length prefix) trimmed)) <$> strip_prefix lower prefix in
    match after "remember that ", after "remember to ", after "note: " with
    | Some rest, _, _ => Some ("note", rest)
    | None, Some rest, _ => Some ("reminder", rest)
    | None, None, Some rest => Some ("note", rest)
    | None, None, None =>
        if contains lower " manual:" || starts_with lower "manual:" then Some ("manual", trimmed)
        else if starts_with lower "watched " || contains lower " watched " then Some ("media", trimmed)
        else None
    end.

Record HouseholdNote := { note_type : string; note_title : string; note_content : string }.

Definition household_note_from_memory (kind content : string) : option HouseholdNote :=
  let trimmed := statement_of content in
  if is_empty trimmed then None
  else
    let lower := to_ascii_lowercase trimmed in
    if bool_decide (is_Some (secret_type_from_text lower)) then None
    else
      '(t, c) ← note_reading (to_ascii_lowercase kind) trimmed lower;
      let c := statement_of c in
      if is_empty c then None
      else Some {| note_type := t; note_title := household_note_title c; note_content := c |}.

(** ** Secrets *)

Record AppOnlySecretReference := { secret_type : string; secret_label : string; secret_location : string }.

Definition label_rules (lower secret_type : string) : list (bool * string) :=
  let typed := is_one_of secret_type in [
  (contains lower "router" && contains lower "admin" && typed ["password"], "router admin");
  (contains lower "guest" && typed ["wifi_password"; "password"], "guest wifi");
  (contains lower "printer" && typed ["wifi_password"; "password"], "printer wifi");
  (contains lower "xbox" && typed ["wifi_password"; "password"], "Xbox wifi");
  (contains lower "locker" && typed ["combination"; "lock_code"],
   if contains lower "mia" then "Mia locker combination" else "locker combination");
  (contains lower "shed" && typed ["combination"; "lock_code"], "shed combination");
  (contains lower "netflix" && typed ["password"], "Netflix account");
  (contains lower "bank" && typed ["password"], "bank login");
  (typed ["secure_location"] && contains lower "key", "spare keys");
  (typed ["confirmation_number"] && contains lower "hotel", "hotel confirmation number");
  (typed ["account_number"] && contains lower "gas", "gas bill account number");
  (contains_any lower ["wi-fi"; "wifi"; "wi fi"], "wifi")].

Definition secret_label_from_text (content lower secret_type : string) : string :=
  match first_rule (label_rules lower secret_type) with
  | Some label => label
  | None =>
      let named := find_map (fun marker =>
        '(l, _) ← split_once_case_insensitive content lower marker; Some (trim l))
        [" is "; " pass:"; " pass "; " stored "; " saved "; " lives "] in
      let label := clean_sentence_value
        (trim_start_str (trim_start_str (trim_start_str (default content named) "the ") "our ") "my ") in
      if is_empty label then replace secret_type "_" " " else label
  end.

Definition secret_location_hint (content lower : string) : string :=
  default "app-only credential storage"
    (find_map (fun marker =>
      '(l, _) ← split_once lower marker;
      opt_nonempty (trim_matches (one_of ["."; ","; ";"; "!"; "?"]) (trim (sdrop (String.length l) content))))
      ["credential:"; "credentials vault"; "local vault"; "vault"; "dashboard"]).

Definition explicitly_app_only (metadata : MemoryPolicyMetadata) (lower : string) : bool :=
  match spoken_policy metadata with SpokenMemoryPolicy.AppOnly | SpokenMemoryPolicy.Deny => true | _ => false end
  || contains_any lower ["credential:"; "credentials vault"; "local vault"; "app-only"; "app only"].

Definition app_only_secret_reference_from_memory (kind content : string) (metadata : MemoryPolicyMetadata)
    : option AppOnlySecretReference :=
  let lower := to_ascii_lowercase content in
  t ← secret_type_from_text lower;
  if shared_room_allowed metadata && negb (explicitly_app_only metadata lower) then None
  else Some {| secret_type := t; secret_label := secret_label_from_text content lower t;
               secret_location := secret_location_hint content lower |}.

(** ** Playlists *)

Record MediaProfileItem := {
  media_owner : option string; media_type : string; media_name : string; media_provider : option string;
  media_target : string;
}.

Definition split_media_target (content lower : string) : option (string * string) :=
  find_map (fun marker =>
    '(l, r) ← rsplit_once_case_insensitive content lower marker;
    let l := trim l in
    let r := trim r in
    if nonempty l && nonempty r then Some (l, r) else None)
    [" maps to "; " is "; " uri is "; " url is "; " opens "; " plays "].

Definition playlist_owner_and_name (statement lower : string) : option (option string * string) :=
  let split := split_once_case_insensitive statement lower in
  match split "'s playlist named ", split "'s playlist " with
  | Some (owner, name), _ | None, Some (owner, name) => Some (Some (clean_person_name owner), trim name)
  | None, None =>
      let owned :=
        '(owner, rest) ← split "'s ";
        '(name, _) ← split_once_case_insensitive rest (to_ascii_lowercase rest) " playlist";
        Some (Some (clean_person_name owner), trim name) in
      match owned, split "playlist named ", split " playlist" with
      | Some r, _, _ => Some r
      | None, Some (_, name), _ => Some (None, trim name)
      | None, None, Some (name, _) =>
          Some (None, trim_start_str (trim_start_str (trim_start_str (trim name) "the ") "my ") "our ")
      | None, None, None => None
      end
  end.

Definition media_provider_from_target (target lower : string) : option string :=
  let target_lower := to_ascii_lowercase target in
  first_rule
    [(starts_with target_lower "spotify:" || contains lower "spotify", "spotify");
     (contains target_lower "youtube" || contains lower "youtube", "youtube");
     (contains target_lower "plex" || contains lower "plex", "plex")].

Definition media_profile_item_from_memory (content : string) : option MediaProfileItem :=
  let trimmed := statement_of content in
  let lower := to_ascii_lowercase trimmed in
  if contains lower "playlist" then
    '(statement, target) ← split_media_target trimmed lower;
    '(owner, name) ← playlist_owner_and_name statement (to_ascii_lowercase statement);
    let name := clean_sentence_value name in
    let target := clean_sentence_value target in
    if is_empty name || is_empty target then None
    else Some {| media_owner := owner; media_type := "playlist"; media_name := name;
                 media_provider := media_provider_from_target target lower; media_target := target |}
  else None.

(** ** The calendar *)

Record FamilyCalendarEvent := {
  cal_person : option string; cal_type : string; cal_title : string; cal_day : option string;
  cal_time : option string; cal_description : string;
}.

Definition calendar_event (trimmed lower : string) (person : option string) (event_type title : string)
    : FamilyCalendarEvent :=
  {| cal_person := person; cal_type := event_type; cal_title := title; cal_day := calendar_day_from_text lower;
     cal_time := time_after_marker trimmed lower " at "; cal_description := trimmed |}.

Definition is_calendar_statement (kind_lower lower : string) : bool :=
  contains_any kind_lower ["calendar"; "schedule"; "event"; "medical"; "pet_calendar"]
  || contains_any lower [" lesson"; "appointment"; "checkup"; "school pickup"].

Definition school_pickup_person (trimmed lower : string) : option string :=
  match split_once_case_insensitive trimmed lower " is scheduled for school pickup" with
  | Some (person, _) => Some (clean_person_name person)
  | None =>
      match split_once_case_insensitive trimmed lower "school pickup today is " with
      | Some (_, person) => Some (clean_person_name person)
      | None =>
          match split_once_case_insensitive trimmed lower "school pickup is " with
          | Some (_, person) => Some (clean_person_name person)
          | None => None
          end
      end
  end.

Definition family_calendar_events_from_memory (kind content : string) : list FamilyCalendarEvent :=
  let trimmed := statement_of content in
  let lower := to_ascii_lowercase trimmed in
  let kind_lower := to_ascii_lowercase kind in
  let has := contains lower in
  if is_empty trimmed || negb (is_calendar_statement kind_lower lower) then []
  else pushed
    [(if has "piano" then
        '(person, _) ← split_once_case_insensitive trimmed lower " has ";
        Some (calendar_event trimmed lower (Some (clean_person_name person)) "piano_lesson" "piano lessons")
      else None);
     (if has "dentist" && has "appointment" then
        person ← calendar_person_from_statement trimmed lower;
        Some (calendar_event trimmed lower (Some person) "dentist_appointment" "dentist appointment")
      else None);
     (if (has "vet" || has "checkup") && (has "appointment" || has "checkup") then
        person ← calendar_person_from_statement trimmed lower;
        Some (calendar_event trimmed lower (Some person) "vet_appointment" "vet appointment")
      else None);
     when (has "school pickup")
       (calendar_event trimmed lower (school_pickup_person trimmed lower) "school_pickup" "school pickup")].

(** ** Lists and stocks *)

Record ShoppingListItem := { shop_item : string; shop_status : string }.
#[export] Instance ShoppingListItem_eq_dec : EqDecision ShoppingListItem.
Proof. solve_decision. Defined.

Definition shopping_items_text (trimmed lower : string) : string :=
  let after marker := snd <$> split_once_case_insensitive trimmed lower marker in
  let added :=
    rest ← strip_prefix lower "add ";
    '(item, _) ← split_once rest " to the shopping list";
    Some (String.substring 4 (String.length item) trimmed) in
  default trimmed
    (find_map after
       ["shopping list pending:"; "shopping list removed:"; "shopping list remove:"; "shopping list:"]
     <|> added).

Definition shopping_list_items_from_memory (kind content : string) : list ShoppingListItem :=
  let trimmed := statement_of content in
  let lower := to_ascii_lowercase trimmed in
  if negb (String.eqb (to_ascii_lowercase kind) "shopping" || contains lower "shopping list") then []
  else
    let status :=
      if contains_any lower [" removed:"; " remove:"; " taken off:"] then "removed"
      else if contains_any lower [" done:"; " bought:"; " completed:"; " purchased:"] then "done"
      else "pending" in
    (fun item => {| shop_item := item; shop_status := status |}) <$> split_list_items (shopping_items_text trimmed lower).

Record HouseholdInventoryItem := {
  stock_item : string; stock_quantity : option string; stock_location : option string; stock_category : string;
  stock_description : string;
}.

Definition household_inventory_items_from_memory (kind content : string) : list HouseholdInventoryItem :=
  let trimmed := statement_of content in
  let lower := to_ascii_lowercase trimmed in
  let kind_lower := to_ascii_lowercase kind in
  if is_empty trimmed
     || negb (contains_any kind_lower ["pantry"; "inventory"; "fridge"; "grocery"]
              || contains_any lower ["inventory:"; "remaining in"; "left in"]) then []
  else pushed
    [when (contains lower "egg")
       {| stock_item := "eggs"; stock_quantity := quantity_for_inventory_item trimmed lower ["egg"; "eggs"];
          stock_location := inventory_location trimmed lower;
          stock_category := if contains_any lower ["fridge"; "refrigerator"] then "fridge" else "pantry";
          stock_description := trimmed |}].

(** ** Permissions *)

Record AccessPermission := {
  perm_person : string; perm_device : string; perm_action : string; perm_allowed : bool; perm_description : string;
}.

Definition access_permissions_from_memory (kind content : string) : list AccessPermission :=
  let trimmed := statement_of content in
  let lower := to_ascii_lowercase trimmed in
  let kind_lower := to_ascii_lowercase kind in
  if negb (contains_any kind_lower ["access"; "permission"]
           || contains_any lower ["authorized to unlock"; "can only unlock"]) then []
  else
    let primary_person := leading_person_name trimmed in
    let permission marker (allowed : bool) :=
      '(person, device) ← permission_statement trimmed lower marker primary_person;
      Some {| perm_person := person; perm_device := device; perm_action := "unlock"; perm_allowed := allowed;
              perm_description := trimmed |} in
    pushed [permission " is not authorized to unlock " false; permission " can only unlock " true].

(** ** Tasks *)

Record HouseholdTaskLog := {
  task_person : string; task_name : string; task_subject : option string; task_day : option string;
  task_time : option string; task_status : string; task_description : string;
}.

Definition is_task_statement (kind_lower lower : string) : bool :=
  contains_any kind_lower ["task"; "chore"; "pet_care"]
  || contains_any lower ["marked the task"; "fed the dog"; "feed the dog"; "fed the cat"; "feed the cat";
                         "cat feeding"; "brush"; "brushed"].

Definition task_log (trimmed lower : string) (done : list string) (person task : string) (subject day : option string)
    : HouseholdTaskLog :=
  {| task_person := person; task_name := task; task_subject := subject; task_day := day;
     task_time := time_after_marker trimmed lower " at ";
     task_status := if contains_any lower done then "complete" else "logged"; task_description := trimmed |}.

Definition household_task_logs_from_memory (kind content : string) : list HouseholdTaskLog :=
  let trimmed := statement_of content in
  let lower := to_ascii_lowercase trimmed in
  let has := contains lower in
  let day := calendar_day_from_text lower in
  let done := ["complete"; "completed"; "done"; "yes"] in
  if negb (is_task_statement (to_ascii_lowercase kind) lower) then []
  else pushed
    [when (has "fed the dog" || has "feed the dog")
       (task_log trimmed lower done (default "Unknown" (leading_person_name trimmed)) "feeding" (Some "dog") day);
     when (has "fed the cat" || has "feed the cat" || has "cat feeding")
       (task_log trimmed lower (done ++ ["checked off"])
          (default "Unknown" (leading_person_name trimmed
                              <|> subject_before_marker trimmed lower " checked off cat feeding"))
          "feeding" (Some "cat") (day <|> Some "today"));
     (if (has "brushed" || has "brush") && has "teeth" then
        person ← leading_person_name trimmed;
        Some (task_log trimmed lower done person "brush_teeth" None (day <|> Some "today"))
      else None)].

(** ** Schedules *)

Record HouseholdScheduleItem := {
  sched_type : string; sched_subject : option string; sched_title : string; sched_day : option string;
  sched_date : option string; sched_time : option string; sched_amount : option string; sched_description : string;
}.

Definition is_schedule_statement (kind_lower lower : string) : bool :=
  contains_any kind_lower
    ["schedule"; "bill"; "utility"; "recycling"; "school_calendar"; "school_transport"; "city_services";
     "community_services"; "business_hours"; "astronomical"; "program_guide"; "electronic_program_guide";
     "community_calendar"; "subscription"; "trash"]
  || contains_any lower
    ["bus arrives"; "bus pickup"; "bill is due"; " channel "; "tv tonight"; "tonight at"; "city council"; "sunset";
     "sun set"; "recycling"; "trash pickup"; "pool"; "library closes"; "library close"; "subscription"; "renews";
     "parent-teacher conference"; "parent teacher conference"].

Definition BILLS : list string :=
  ["electricity"; "electric"; "power"; "water"; "gas"; "internet"; "utility"; "utilities"].

Section unicode.
Context `{U : Unicode}.

Definition bill_subject_from_text (content lower : string) : option string :=
  match List.find (contains lower) BILLS with
  | Some subject =>
      Some (if is_one_of subject ["electric"; "power"] then "electricity"
            else if String.eqb subject "utilities" then "utility" else subject)
  | None =>
      '(l, _) ← split_once_case_insensitive content lower " bill";
      let candidate :=
        trim_matches (fun c => negb (is_alphanumeric c)) (default "" (last (split_whitespace l))) in
      if is_empty candidate then None else Some (to_ascii_lowercase candidate)
  end.

Definition subscription_subject_from_text (content lower : string) : option string :=
  '(l, _) ← split_once_case_insensitive content lower " subscription";
  opt_nonempty (trim_matches (fun c => negb (is_alphanumeric c)) (default "" (last (split_whitespace l)))).

(** The row of one kind of schedule; each branch of the reader is one of them. *)
Definition schedule_row (trimmed : string) (t : string) (subject : option string) (title : string)
    (day date time amount : option string) : HouseholdScheduleItem :=
  {| sched_type := t; sched_subject := subject; sched_title := title; sched_day := day; sched_date := date;
     sched_time := time; sched_amount := amount; sched_description := trimmed |}.

Definition schedule_rows_1 (kind_lower trimmed lower : string) : list (option HouseholdScheduleItem) :=
  let has := contains lower in
  let row := schedule_row trimmed in
  let day := calendar_day_from_text lower in
  let date := due_date_from_text trimmed lower in
  let at_time := time_after_marker trimmed lower " at " in
  [(if has " channel " then
      '(subject, channel) ← channel_guide_from_text trimmed lower;
      Some (row "channel_guide" (Some subject) "channel guide" None None None (Some channel))
    else None);
   when ((contains_any kind_lower ["program_guide"; "electronic_program_guide"] || has "tv tonight" || has "tonight at")
         && (has "tonight" || has " tv "))
     (row "tv_tonight" (Some "tv tonight") "TV tonight" (Some "today") date at_time None);
   when (has "city council" && has "meeting")
     (row "community_meeting" (Some "city council") "city council meeting" day date at_time None);
   when ((has "school bus" || has "bus arrives") && has "arrives")
     (row "school_bus_arrival" (Some "school bus") "school bus arrival" day None
        (at_time <|> time_after_marker trimmed lower " arrives at ") None);
   when (has "bus pickup")
     (row "school_bus_arrival" (Some (if has "mia" then "mia" else if has "leo" then "leo" else "school bus"))
        "school bus pickup" day date (at_time <|> time_after_marker trimmed lower " is ") None);
   when (has "bill" && has "due")
     (row "bill_due" (bill_subject_from_text trimmed lower) "bill due" (relative_due_from_text lower) date None
        (amount_from_text trimmed));
   when (has "recycling") (row "recycling" (Some "recycling") "recycling schedule" day None None None)].

Definition schedule_rows_2 (trimmed lower : string) : list (option HouseholdScheduleItem) :=
  let has := contains lower in
  let row := schedule_row trimmed in
  let day := calendar_day_from_text lower in
  let date := due_date_from_text trimmed lower in
  let at_time := time_after_marker trimmed lower " at " in
  [when (has "trash pickup" || has "trash day") (row "trash_pickup" (Some "trash") "trash pickup" day date at_time None);
   when (has "conference" && (has "parent-teacher" || has "parent teacher"))
     (row "school_conference" (subject_after_marker trimmed lower " for ") "parent-teacher conference" day date at_time
        None);
   when (has "sunset" || has "sun set")
     (row "sunset" (Some "sunset") "sunset" (day <|> Some "today") date
        (at_time <|> time_after_marker trimmed lower " is ") None);
   when (has "pool" && (has "open" || has "hours"))
     (row "community_facility_hours" (Some (if has "community pool" then "community pool" else "pool"))
        "community pool hours" day date (at_time <|> time_after_marker trimmed lower " opens at ") None);
   when (has "library" && (has "close" || has "hours"))
     (row "business_hours" (Some (if has "public library" then "public library" else "library")) "library hours" day date
        (time_after_marker trimmed lower " closes at " <|> time_after_marker trimmed lower " close at " <|> at_time) None);
   when (has "subscription" && (has "renew" || has "due"))
     (row "subscription_renewal" (subscription_subject_from_text trimmed lower) "subscription renewal"
        (relative_due_from_text lower) date None (amount_from_text trimmed))].

Definition household_schedule_items_from_memory (kind content : string) : list HouseholdScheduleItem :=
  let trimmed := statement_of content in
  let lower := to_ascii_lowercase trimmed in
  let kind_lower := to_ascii_lowercase kind in
  if negb (is_schedule_statement kind_lower lower) then []
  else pushed (schedule_rows_1 kind_lower trimmed lower ++ schedule_rows_2 trimmed lower).

(** ** Events *)

Record HouseholdEventLog := {
  ev_type : string; ev_subject : option string; ev_action : string; ev_actor : option string;
  ev_time : option string; ev_description : string;
}.

Definition is_event_statement (kind_lower lower : string) : bool :=
  contains_any kind_lower
    ["security_log"; "event_log"; "family_ledger"; "ledger"; "finance"; "payment_history"; "financial_services";
     "financial_market_api"; "fitness_tracker"; "smart_scale"; "presence_state"; "access_logs"; "device_events";
     "health_device_events"; "appliance_state"; "waste_management"; "environmental_sensor"; "location_service"]
  || contains_any lower
    ["security system was disarmed"; "system was disarmed"; "disarmed by"; "dishwasher"; "trash truck"; "attic";
     "home from school"; "credit score"; "stock price"; "trading at"; "vo2 max"; "weight is"; "garage door";
     "phone connected"; "is home"; "home network"; "allowance"]
  || contains lower "bill" && contains lower "paid".

Definition event_row (trimmed : string) (t : string) (subject : option string) (action : string)
    (actor time : option string) : HouseholdEventLog :=
  {| ev_type := t; ev_subject := subject; ev_action := action; ev_actor := actor; ev_time := time;
     ev_description := trimmed |}.

Definition event_rows_1 (kind_lower trimmed lower : string) : list (option HouseholdEventLog) :=
  let has := contains lower in
  let row := event_row trimmed in
  let at_time := time_after_marker trimmed lower " at " in
  let at_or_day := at_time <|> relative_calendar_phrase_from_text lower in
  [when (has "credit score") (row "finance" (Some "credit score") "credit_score" None at_or_day);
   when (has "vo2 max") (row "health" (Some "vo2 max") "vo2_max" None at_or_day);
   when (has "stock price" || has "trading at")
     (row "finance" (stock_subject_from_text trimmed lower) "stock_price" None at_or_day);
   when (has "weight is" || contains kind_lower "smart_scale" && has "weight")
     (row "health" (Some "weight") "weight_reading" None at_or_day);
   when (has "dishwasher" && (has "clean" || has "dirty"))
     (row "appliance_state" (Some "dishwasher") "clean_status" None at_time);
   when (has "trash truck" || has "truck came") (row "waste" (Some "trash") "collection" None at_time);
   when (has "attic" && has "temperature") (row "environment" (Some "attic") "temperature" None at_time)].

Definition event_rows_2 (kind_lower trimmed lower : string) : list (option HouseholdEventLog) :=
  let has := contains lower in
  let row := event_row trimmed in
  let at_time := time_after_marker trimmed lower " at " in
  let phrase := relative_calendar_phrase_from_text lower in
  let located action person :=
    person ← opt_filter nonempty person;
    Some (row "location" (Some person) action (Some person) (at_time <|> phrase)) in
  [(if has "home from school" || has "arrived home" then
      located "home_arrival"
        (leading_person_name trimmed
         <|> ('(l, _) ← split_once_case_insensitive trimmed lower " arrived home"; Some (clean_person_name l)))
    else None);
   (if (contains kind_lower "presence_state" || has "phone connected" || has "home network" || has " is home")
       && has "home" then
      located "presence_home"
        (leading_person_name trimmed <|> subject_before_marker trimmed lower " phone connected"
         <|> subject_before_marker trimmed lower " is home")
    else None);
   when (has "garage door" && (has "opened" || has "open event" || has "open "))
     (row "access" (Some "garage door") "open"
        (actor_after_marker trimmed lower " by " <|> subject_before_marker trimmed lower " opened the garage door"
         <|> leading_person_name trimmed) at_time);
   when (has "disarmed" || has "turned off the security system")
     (row "security" (Some "security system") "disarm" (actor_after_marker trimmed lower " by ") at_time);
   (let person := allowance_person_from_text trimmed lower in
    when (has "allowance" && (has "received" || has "got ")) (row "finance" person "allowance" person phrase));
   when (has "bill" && has "paid")
     (row "finance" (bill_subject_from_text trimmed lower) "paid_bill" None phrase)].

Definition household_event_logs_from_memory (kind content : string) : list HouseholdEventLog :=
  let trimmed := statement_of content in
  let lower := to_ascii_lowercase trimmed in
  let kind_lower := to_ascii_lowercase kind in
  if negb (is_event_statement kind_lower lower) then []
  else pushed (event_rows_1 kind_lower trimmed lower ++ event_rows_2 kind_lower trimmed lower).

End unicode.
