(* ===== verification/Embedding.v ===== *)
(** * The embedding of a text ([memory/embedding.rs])

    A text becomes sixty-four numbers: its words, with those the household
    vocabulary adds to it, each counted in the bucket its hash names.  The
    hasher of the standard library is an operation of a class. *)

From S2P Require Import Prelude RustStr RustNum.
Local Open Scope string_scope.
Local Open Scope list_scope.

(** [DefaultHasher::new()] on a [str]. *)
Class StrHasher := { hash_str : string -> N }.

Definition DEFAULT_EMBEDDING_DIMENSIONS : nat := 64.
Definition DEFAULT_EMBEDDING_MODEL : string := "local-hash-home-v1".
Definition SEMANTIC_MIN_SCORE : f64 := f64_dec 42 (-2).

(** [f64::from(x)] and [x as f32]. *)
Definition renormalize (prec emax : Z) (x : spec_float) : spec_float :=
  match x with
  | S754_finite s m e => binary_normalize prec emax (if s then Z.neg m else Z.pos m) e s
  | _ => x
  end.
Definition f64_of_f32 (x : f32) : f64 := renormalize 53 1024 x.
Definition f32_of_f64 (x : f64) : f32 := renormalize 24 128 x.
Definition f64_sqrt (x : f64) : f64 := SFsqrt 53 1024 x.

Definition EXPANSIONS (lower : string) : list (bool * string) := [
  (contains_any lower ["cold"; "chilly"; "freezing"], " thermostat temperature warm heat room comfort preference");
  (contains_any lower ["thermostat"; "temperature"; "heat"; "warmer"], " cold warm room comfort preference");
  (contains_any lower ["snack"; "lunchbox"; "lunch box"],
   " shopping grocery lunch school granola bars fruit snacks");
  (contains lower "detergent", " shopping grocery household laundry order");
  (contains_any lower ["movie"; "watched"; "robot"; "real boy"], " film watched kids robot real boy iron giant");
  (contains lower "coffee" && contains_any lower ["machine"; "maker"; "brew"],
   " device manual instructions brew strength start")].

Definition expand_home_semantic_text (text : string) : string :=
  foldl (fun (expanded : string) (e : bool * string) => if e.1 then expanded +:+ e.2 else expanded) text
    (EXPANSIONS (to_ascii_lowercase text)).

Definition EMBEDDING_STOP : list string :=
  ["a"; "an"; "and"; "are"; "as"; "at"; "be"; "by"; "can"; "did"; "do"; "does"; "for"; "from"; "have"; "how"; "i";
   "in"; "is"; "it"; "me"; "my"; "of"; "on"; "or"; "our"; "please"; "that"; "the"; "this"; "to"; "was"; "we"; "what";
   "whats"; "when"; "where"; "who"; "with"; "you"; "your"].

Definition token_weight (token : string) : f32 :=
  if is_one_of token ["thermostat"; "temperature"; "snack"; "lunchbox"; "movie"; "robot"; "detergent"; "coffee"]
  then f32_dec 18 (-1)
  else if is_one_of token ["preference"; "shopping"; "watched"; "manual"] then f32_dec 14 (-1)
  else f32_of_Z 1.

Section embedding.
Context `{U : Unicode} `{H : StrHasher}.

Definition embedding_tokens (text : string) : list string :=
  List.filter (fun token => Nat.ltb 1 (String.length token) && negb (is_one_of token EMBEDDING_STOP))
    (split_where (fun c => negb (is_alphanumeric c)) (to_ascii_lowercase text)).

Definition token_bucket (token : string) (dimensions : nat) : nat :=
  N.to_nat (hash_str token mod N.of_nat dimensions).

Definition count_token (dimensions : nat) (values : list f32) (token : string) : list f32 :=
  alter (fun v => f32_add v (token_weight token)) (token_bucket token dimensions) values.

Definition norm_of (values : list f32) : f64 :=
  f64_sqrt (foldl (fun sum v => f64_add sum (f64_mul (f64_of_f32 v) (f64_of_f32 v))) (f64_of_Z 0) values).

Definition normalize (values : list f32) : list f32 :=
  let norm := norm_of values in
  if SFeqb norm (f64_of_Z 0) then values
  else (fun v => f32_of_f64 (f64_div (f64_of_f32 v) norm)) <$> values.

Definition embed (text : string) : list f32 :=
  normalize
    (foldl (count_token DEFAULT_EMBEDDING_DIMENSIONS) (replicate DEFAULT_EMBEDDING_DIMENSIONS (f32_of_Z 0))
       (embedding_tokens (expand_home_semantic_text text))).

(** The three sums of one pass over the pairs. *)
Definition cosine_sums (a b : list f32) : f64 * f64 * f64 :=
  foldl (fun '(dot, a_norm, b_norm) '(x, y) =>
    let x := f64_of_f32 x in
    let y := f64_of_f32 y in
    (f64_add dot (f64_mul x y), f64_add a_norm (f64_mul x x), f64_add b_norm (f64_mul y y)))
    (f64_of_Z 0, f64_of_Z 0, f64_of_Z 0) (combine a b).

Definition cosine_similarity (a b : list f32) : f64 :=
  if Nat.eqb (length a) 0 || Nat.eqb (length b) 0 || negb (Nat.eqb (length a) (length b)) then f64_of_Z 0
  else
    let '(dot, a_norm, b_norm) := cosine_sums a b in
    if SFeqb a_norm (f64_of_Z 0) || SFeqb b_norm (f64_of_Z 0) then f64_of_Z 0
    else f64_div dot (f64_mul (f64_sqrt a_norm) (f64_sqrt b_norm)).

(** ** The shape of an embedding *)

(** The bucket of a word is an index of the values, so the indexing never goes
    out of range. *)
Lemma token_bucket_lt token dimensions : 0 < dimensions -> token_bucket token dimensions < dimensions.
Proof.
  intros Hd. unfold token_bucket. pose proof (N.mod_lt (hash_str token) (N.of_nat dimensions)). lia.
Qed.

Lemma length_counted dimensions tokens values :
  length (foldl (count_token dimensions) values tokens) = length values.
Proof.
  revert values. induction tokens as [|t tokens IH]; cbn; intros values; [done|]. rewrite IH. apply length_alter.
Qed.

Lemma length_embed text : length (embed text) = DEFAULT_EMBEDDING_DIMENSIONS.
Proof.
  unfold embed, normalize. destruct (SFeqb _ _); [|rewrite length_fmap]; by rewrite length_counted, length_replicate.
Qed.

End embedding.
