(* ===== verification/MemoryTables.v ===== *)
(** * The tables of the memory store ([memory/structured.rs])

    Each memory is projected into up to fifteen tables.  The rows of all of them
    are one list here: a row says by its data which table it is in, and the
    order of a table is the order of its rows.  Every projection of a memory
    replaces the rows the memory has in that table. *)

From S2P Require Import Prelude RustStr RustNum Sql MemoryPolicy MemoryTypes MemoryExtract Embedding.
Local Open Scope string_scope.
Local Open Scope list_scope.
Local Open Scope rust_scope.

(** ** Rows *)

Record MemoryRow := {
  mem_id : Z;
  mem_kind : string;
  mem_content : string;
  mem_created_ms : Z;
  mem_accessed_ms : Z;
  mem_recall_count : Z;
  mem_max_score : f64;
  mem_promoted : bool;
  mem_query_hashes : list string;
  mem_evergreen : bool;
  mem_scope : string;
  mem_sensitivity : string;
  mem_spoken_policy : string;
  mem_display_order : Z;
}.

Definition row_metadata (m : MemoryRow) : MemoryPolicyMetadata := {|
  scope := MemoryScope.from_storage (mem_scope m);
  sensitivity := MemorySensitivity.from_storage (mem_sensitivity m);
  spoken_policy := SpokenMemoryPolicy.from_storage (mem_spoken_policy m);
|}.

Inductive Table : Set :=
  household_profiles | device_aliases | household_profile_attributes | household_rules | household_notes
| app_only_secret_references | media_profile_items | family_calendar_events | shopping_list_items
| household_inventory_items | access_permissions | household_task_logs | household_schedule_items
| household_event_logs | embedded_memories.

(** What a row holds beside the memory it came from; the keys are the normal
    forms it is looked up by. *)
Inductive Projection :=
| ProfileRow (name role : string)
| AliasRow (alias normalized_alias target_id kind : string)
| AttributeRow (normalized_name : string) (attr : HouseholdProfileAttribute)
| RuleRow (normalized_person : option string) (rule : HouseholdRule)
| NoteRow (note : HouseholdNote)
| SecretRow (normalized_label : string) (secret : AppOnlySecretReference)
| MediaRow (normalized_owner normalized_name : string) (item : MediaProfileItem)
| CalendarRow (normalized_person : option string) (event : FamilyCalendarEvent)
| ShoppingRow (normalized_item : string) (item : ShoppingListItem)
| InventoryRow (normalized_item : string) (item : HouseholdInventoryItem)
| PermissionRow (normalized_person normalized_device : string) (permission : AccessPermission)
| TaskRow (normalized_person : string) (normalized_subject : option string) (task : HouseholdTaskLog)
| ScheduleRow (normalized_subject : option string) (item : HouseholdScheduleItem)
| EventRow (normalized_subject normalized_actor : option string) (event : HouseholdEventLog)
| EmbeddedRow (memory_type embedding_model : string) (dimensions : nat) (embedding : list f32).

Definition table_of (p : Projection) : Table :=
  match p with
  | ProfileRow _ _ => household_profiles
  | AliasRow _ _ _ _ => device_aliases
  | AttributeRow _ _ => household_profile_attributes
  | RuleRow _ _ => household_rules
  | NoteRow _ => household_notes
  | SecretRow _ _ => app_only_secret_references
  | MediaRow _ _ _ => media_profile_items
  | CalendarRow _ _ => family_calendar_events
  | ShoppingRow _ _ => shopping_list_items
  | InventoryRow _ _ => household_inventory_items
  | PermissionRow _ _ _ => access_permissions
  | TaskRow _ _ _ => household_task_logs
  | ScheduleRow _ _ => household_schedule_items
  | EventRow _ _ _ => household_event_logs
  | EmbeddedRow _ _ _ _ => embedded_memories
  end.

#[export] Instance Table_eq_dec : EqDecision Table.
Proof. solve_decision. Defined.

Record Row := {
  source_memory_id : Z;
  row_data : Projection;
  updated_ms : N;
}.

(** ** The store *)

Record MemoryEvent := {
  mev_ts_ms : N;
  mev_action : string;
  mev_id : option Z;
  mev_kind : option string;
  mev_content : option string;
  mev_detail : option string;
}.

(** The files of the canonical directory: the event logs and the daily notes by
    name, and the three exports of the promoted memories. *)
Record Canon := {
  event_lines : list (string * MemoryEvent);
  daily_notes : gmap string string;
  memory_md : option string;
  index_md : option string;
  namespace_files : gmap string string;
}.

Record Store := {
  memories : list MemoryRow;
  rows : list Row;
  derivation_version : option Z;
  canon : Canon;
}.

Definition with_memories (ms : list MemoryRow) (s : Store) : Store :=
  {| memories := ms; rows := rows s; derivation_version := derivation_version s; canon := canon s |}.
Definition with_rows (rs : list Row) (s : Store) : Store :=
  {| memories := memories s; rows := rs; derivation_version := derivation_version s; canon := canon s |}.
Definition with_version (v : option Z) (s : Store) : Store :=
  {| memories := memories s; rows := rows s; derivation_version := v; canon := canon s |}.
Definition with_canon (k : Canon) (s : Store) : Store :=
  {| memories := memories s; rows := rows s; derivation_version := derivation_version s; canon := k |}.

(** ** Projections *)

Section tables.
Context `{U : Unicode} `{H : StrHasher}.

(** Only what may be said in a shared room is projected. *)
Definition shared (metadata : MemoryPolicyMetadata) (ps : list Projection) : list Projection :=
  if shared_room_allowed metadata then ps else [].

Definition alias_projection (content : string) : list Projection :=
  match device_alias_from_memory content with
  | Some (alias, target_id) =>
      let normalized_alias := normalize_alias_key alias in
      if is_empty normalized_alias || is_empty target_id then []
      else [AliasRow alias normalized_alias target_id (device_alias_kind target_id)]
  | None => []
  end.

Definition media_projection (content : string) : list Projection :=
  match media_profile_item_from_memory content with
  | Some item =>
      [MediaRow (default "" (normalize_name_key <$> media_owner item)) (normalize_alias_key (media_name item)) item]
  | None => []
  end.

Definition embedded_projection (kind content : string) (metadata : MemoryPolicyMetadata) : list Projection :=
  if should_embed_memory kind content metadata then
    [EmbeddedRow (semantic_memory_type kind content) DEFAULT_EMBEDDING_MODEL DEFAULT_EMBEDDING_DIMENSIONS
       (embed (embedding_text_for_memory kind content))]
  else [].

(** The rows a memory has in a table. *)
Definition projected (t : Table) (kind content : string) (metadata : MemoryPolicyMetadata) : list Projection :=
  match t with
  | household_profiles =>
      shared metadata
        (match household_profile_from_memory kind content with Some (name, role) => [ProfileRow name role] | None => [] end)
  | device_aliases => shared metadata (alias_projection content)
  | household_profile_attributes =>
      shared metadata ((fun a => AttributeRow (normalize_name_key (pa_name a)) a)
                         <$> household_profile_attributes_from_memory content)
  | household_rules =>
      shared metadata ((fun r => RuleRow (normalize_name_key <$> rule_person r) r) <$> household_rules_from_memory content)
  | household_notes =>
      shared metadata (match household_note_from_memory kind content with Some n => [NoteRow n] | None => [] end)
  | app_only_secret_references =>
      match app_only_secret_reference_from_memory kind content metadata with
      | Some r => [SecretRow (normalize_alias_key (secret_label r)) r]
      | None => []
      end
  | media_profile_items => shared metadata (media_projection content)
  | family_calendar_events =>
      shared metadata ((fun e => CalendarRow (normalize_name_key <$> cal_person e) e)
                         <$> family_calendar_events_from_memory kind content)
  | shopping_list_items =>
      shared metadata ((fun i => ShoppingRow (normalize_alias_key (shop_item i)) i)
                         <$> shopping_list_items_from_memory kind content)
  | household_inventory_items =>
      shared metadata ((fun i => InventoryRow (normalize_inventory_item (stock_item i)) i)
                         <$> household_inventory_items_from_memory kind content)
  | access_permissions =>
      shared metadata
        ((fun p => PermissionRow (normalize_name_key (perm_person p)) (normalize_alias_key (perm_device p)) p)
           <$> access_permissions_from_memory kind content)
  | household_task_logs =>
      shared metadata
        ((fun l => TaskRow (normalize_name_key (task_person l)) (normalize_alias_key <$> task_subject l) l)
           <$> household_task_logs_from_memory kind content)
  | household_schedule_items =>
      shared metadata ((fun i => ScheduleRow (normalize_alias_key <$> sched_subject i) i)
                         <$> household_schedule_items_from_memory kind content)
  | household_event_logs =>
      shared metadata
        ((fun e => EventRow (normalize_alias_key <$> ev_subject e) (normalize_name_key <$> ev_actor e) e)
           <$> household_event_logs_from_memory kind content)
  | embedded_memories => embedded_projection kind content metadata
  end.

(** ** Statements *)

Definition in_table (t : Table) (id : Z) (r : Row) : bool :=
  bool_decide (table_of (row_data r) = t) && Z.eqb (source_memory_id r) id.

(** [DELETE FROM t WHERE source_memory_id = id], [DELETE FROM t] and [INSERT]. *)
Definition delete_rows (t : Table) (id : Z) (s : Store) : Store :=
  with_rows (List.filter (fun r => negb (in_table t id r)) (rows s)) s.
Definition clear_table (t : Table) (s : Store) : Store :=
  with_rows (List.filter (fun r => negb (bool_decide (table_of (row_data r) = t))) (rows s)) s.
Definition insert_row (r : Row) (s : Store) : Store := with_rows (rows s ++ [r]) s.

Definition run (A : Type) : Type := M (Conn Store) (result A string).

Fixpoint insert_rows (id : Z) (updated : N) (ps : list Projection) : run unit :=
  match ps with
  | [] => ret (Ok tt)
  | p :: ps =>
      let!? _ := update (insert_row {| source_memory_id := id; row_data := p; updated_ms := updated |}) in
      insert_rows id updated ps
  end.

Definition distinct_targets (normalized_alias : string) (s : Store) : nat :=
  List.length (remove_dups (filter_map (fun r =>
    match row_data r with
    | AliasRow _ n target_id _ => when (String.eqb n normalized_alias) target_id
    | _ => None
    end) (rows s))).

(** The conflict is only logged, but looking for it is a statement. *)
Definition warn_if_device_alias_conflict (ps : list Projection) : run unit :=
  match ps with
  | AliasRow _ normalized_alias _ _ :: _ => let!? _ := query (distinct_targets normalized_alias) in ret (Ok tt)
  | _ => ret (Ok tt)
  end.

Definition upsert_table (t : Table) (id : Z) (kind content : string) (metadata : MemoryPolicyMetadata) (updated : N)
    : run unit :=
  let ps := projected t kind content metadata in
  let!? _ := update (delete_rows t id) in
  let!? _ := insert_rows id updated ps in
  if decide (t = device_aliases) then warn_if_device_alias_conflict ps else ret (Ok tt).

Definition upsert_household_profile_from_memory := upsert_table household_profiles.
Definition upsert_device_alias_from_memory := upsert_table device_aliases.
Definition upsert_household_profile_attributes_from_memory := upsert_table household_profile_attributes.
Definition upsert_household_rules_from_memory := upsert_table household_rules.
Definition upsert_household_note_from_memory := upsert_table household_notes.
Definition upsert_app_only_secret_reference_from_memory := upsert_table app_only_secret_references.
Definition upsert_media_profile_item_from_memory := upsert_table media_profile_items.
Definition upsert_family_calendar_events_from_memory := upsert_table family_calendar_events.
Definition upsert_shopping_list_items_from_memory := upsert_table shopping_list_items.
Definition upsert_household_inventory_items_from_memory := upsert_table household_inventory_items.
Definition upsert_access_permissions_from_memory := upsert_table access_permissions.
Definition upsert_household_task_logs_from_memory := upsert_table household_task_logs.
Definition upsert_household_schedule_items_from_memory := upsert_table household_schedule_items.
Definition upsert_household_event_logs_from_memory := upsert_table household_event_logs.
Definition upsert_embedded_memory_from_memory := upsert_table embedded_memories.

(** One step after the other, up to the first that fails. *)
Fixpoint each {A} (f : A -> run unit) (l : list A) : run unit :=
  match l with
  | [] => ret (Ok tt)
  | x :: l => let!? _ := f x in each f l
  end.

(** What [store_with_metadata] and [update_managed] call for the row they wrote. *)
Definition upsert_all (id : Z) (kind content : string) (metadata : MemoryPolicyMetadata) (updated : N) : run unit :=
  let!? _ := upsert_household_profile_from_memory id kind content metadata updated in
  let!? _ := upsert_device_alias_from_memory id kind content metadata updated in
  let!? _ := upsert_household_profile_attributes_from_memory id kind content metadata updated in
  let!? _ := upsert_household_rules_from_memory id kind content metadata updated in
  let!? _ := upsert_household_note_from_memory id kind content metadata updated in
  let!? _ := upsert_app_only_secret_reference_from_memory id kind content metadata updated in
  let!? _ := upsert_media_profile_item_from_memory id kind content metadata updated in
  let!? _ := upsert_family_calendar_events_from_memory id kind content metadata updated in
  let!? _ := upsert_shopping_list_items_from_memory id kind content metadata updated in
  let!? _ := upsert_household_inventory_items_from_memory id kind content metadata updated in
  let!? _ := upsert_access_permissions_from_memory id kind content metadata updated in
  let!? _ := upsert_household_task_logs_from_memory id kind content metadata updated in
  let!? _ := upsert_household_schedule_items_from_memory id kind content metadata updated in
  let!? _ := upsert_household_event_logs_from_memory id kind content metadata updated in
  upsert_embedded_memory_from_memory id kind content metadata updated.

(** The tables in the order the store and the open-time rebuild write them. *)
Definition TABLES : list Table :=
  [household_profiles; device_aliases; household_profile_attributes; household_rules; household_notes;
   app_only_secret_references; media_profile_items; family_calendar_events; shopping_list_items;
   household_inventory_items; access_permissions; household_task_logs; household_schedule_items;
   household_event_logs; embedded_memories].

(** [delete_structured_household_rows]: every table but the profiles and the
    aliases, which its caller empties before. *)
Definition delete_structured_household_rows (id : Z) : run unit :=
  each (fun t => update (delete_rows t id)) (drop 2 TABLES).

(** ** Rebuilding *)

Definition by_id (a b : MemoryRow) : Prop := (mem_id a <= mem_id b)%Z.
#[export] Instance by_id_dec a b : Decision (by_id a b).
Proof. unfold by_id. apply _. Defined.

Definition shared_safe_memory_rows_with_kind : run (list MemoryRow) := query (fun s => order_by by_id (memories s)).

Definition rebuild_table (t : Table) (now : N) : run unit :=
  let!? _ := update (clear_table t) in
  let!? ms := shared_safe_memory_rows_with_kind in
  each (fun m => upsert_table t (mem_id m) (mem_kind m) (mem_content m) (row_metadata m) now) ms.

Definition rebuild_household_profiles := rebuild_table household_profiles.
Definition rebuild_device_aliases := rebuild_table device_aliases.
Definition rebuild_household_profile_attributes := rebuild_table household_profile_attributes.
Definition rebuild_household_rules := rebuild_table household_rules.
Definition rebuild_household_notes := rebuild_table household_notes.
Definition rebuild_app_only_secret_references := rebuild_table app_only_secret_references.
Definition rebuild_media_profile_items := rebuild_table media_profile_items.
Definition rebuild_family_calendar_events := rebuild_table family_calendar_events.
Definition rebuild_shopping_list_items := rebuild_table shopping_list_items.
Definition rebuild_household_inventory_items := rebuild_table household_inventory_items.
Definition rebuild_access_permissions := rebuild_table access_permissions.
Definition rebuild_household_task_logs := rebuild_table household_task_logs.
Definition rebuild_household_schedule_items := rebuild_table household_schedule_items.
Definition rebuild_household_event_logs := rebuild_table household_event_logs.
Definition rebuild_embedded_memories := rebuild_table embedded_memories.

Definition DERIVATION_VERSION : Z := 2.

(** The rebuild of [open_with_half_life], where the version differs. *)
Definition rebuild_projections (now : N) : run unit :=
  let!? stored := (fun c => match query derivation_version c with (Ok v, c') => (Ok v, c') | (Err _, c') => (Ok None, c') end) in
  if bool_decide (stored = Some DERIVATION_VERSION) then ret (Ok tt)
  else transaction
    (let!? _ := rebuild_household_profiles now in
     let!? _ := rebuild_device_aliases now in
     let!? _ := rebuild_household_profile_attributes now in
     let!? _ := rebuild_household_rules now in
     let!? _ := rebuild_household_notes now in
     let!? _ := rebuild_app_only_secret_references now in
     let!? _ := rebuild_media_profile_items now in
     let!? _ := rebuild_family_calendar_events now in
     let!? _ := rebuild_shopping_list_items now in
     let!? _ := rebuild_household_inventory_items now in
     let!? _ := rebuild_access_permissions now in
     let!? _ := rebuild_household_task_logs now in
     let!? _ := rebuild_household_schedule_items now in
     let!? _ := rebuild_household_event_logs now in
     let!? _ := rebuild_embedded_memories now in
     update (with_version (Some DERIVATION_VERSION))).

(** ** Filtered lists *)

Lemma keep_all {A} (p : A -> bool) l : Forall (fun x => p x = true) l -> List.filter p l = l.
Proof. induction 1 as [|x l Hx _ IH]; cbn; [done|]. by rewrite Hx, IH. Qed.

Lemma keep_none {A} (p : A -> bool) l : Forall (fun x => p x = false) l -> List.filter p l = [].
Proof. induction 1 as [|x l Hx _ IH]; cbn; [done|]. by rewrite Hx. Qed.

Lemma keep_keep_imp {A} (p q : A -> bool) l :
  (forall x, p x = true -> q x = true) -> List.filter p (List.filter q l) = List.filter p l.
Proof.
  intros Hpq. induction l as [|x l IH]; cbn; [done|]. destruct (q x) eqn:Hq; cbn; [by rewrite IH|].
  destruct (p x) eqn:Hp; [|done]. apply Hpq in Hp. congruence.
Qed.

Lemma keep_keep_none {A} (p q : A -> bool) l :
  (forall x, q x = true -> p x = false) -> List.filter p (List.filter q l) = [].
Proof.
  intros Hpq. induction l as [|x l IH]; cbn; [done|]. destruct (q x) eqn:Hq; cbn; [|done].
  by rewrite Hpq.
Qed.

(** ** The effect of the statements *)

Definition row_of (id : Z) (updated : N) (p : Projection) : Row :=
  {| source_memory_id := id; row_data := p; updated_ms := updated |}.
Definition replace_rows (id : Z) (kind content : string) (metadata : MemoryPolicyMetadata) (updated : N) (t : Table)
    (s : Store) : Store :=
  let s := delete_rows t id s in with_rows (rows s ++ (row_of id updated <$> projected t kind content metadata)) s.

Definition rows_of (t : Table) (id : Z) (s : Store) : list Projection := row_data <$> List.filter (in_table t id) (rows s).
Definition same_but_rows (s s' : Store) : Prop :=
  memories s' = memories s /\ derivation_version s' = derivation_version s /\ canon s' = canon s.

#[export] Instance same_but_rows_preorder : PreOrder same_but_rows.
Proof. split; [done|]. intros ? ? ? (? & ? & ?) (? & ? & ?). unfold same_but_rows. intuition congruence. Qed.

Lemma ebind_ext {A B} (m : run A) (f g : A -> run B) :
  (forall a c, f a c = g a c) -> forall c, ebind m f c = ebind m g c.
Proof. intros Hfg c. unfold ebind. by destruct (m c) as [[a|e] c']. Qed.

Lemma each_one {A} (f : A -> run unit) x c : each f [x] c = f x c.
Proof. unfold each, ebind. by destruct (f x c) as [[[]|e] c']. Qed.

Lemma upsert_all_each id kind content metadata updated c :
  upsert_all id kind content metadata updated c =
  each (fun t => upsert_table t id kind content metadata updated) TABLES c.
Proof. do 14 (apply ebind_ext; intros _ ?). symmetry. apply each_one. Qed.

Lemma each_quiet {A} (f : A -> run unit) (g : A -> Store -> Store) l c :
  (forall x c, quiet c -> f x c = (Ok tt, set_tables (g x (tables c)) c)) -> quiet c ->
  each f l c = (Ok tt, set_tables (foldl (fun s x => g x s) (tables c) l) c).
Proof.
  intros Hf. revert c. induction l as [|x l IH]; intros c Hq; [by destruct c|].
  cbn [each]. unfold ebind. rewrite Hf by done. by rewrite IH.
Qed.

Lemma insert_rows_quiet id updated ps c :
  quiet c ->
  insert_rows id updated ps c = (Ok tt, set_tables (with_rows (rows (tables c) ++ (row_of id updated <$> ps)) (tables c)) c).
Proof.
  revert c. induction ps as [|p ps IH]; intros c Hq; cbn.
  - rewrite app_nil_r. by destruct c as [[] ?].
  - unfold ebind. rewrite update_quiet by done. rewrite IH by done. cbn. by rewrite <- app_assoc.
Qed.

Lemma upsert_table_quiet t id kind content metadata updated c :
  quiet c ->
  upsert_table t id kind content metadata updated c =
  (Ok tt, set_tables (replace_rows id kind content metadata updated t (tables c)) c).
Proof.
  intros Hq. unfold upsert_table, ebind. rewrite update_quiet, insert_rows_quiet by done.
  destruct (decide _); [|reflexivity]. unfold warn_if_device_alias_conflict, replace_rows.
  destruct (projected t kind content metadata) as [|[] ?]; try reflexivity.
  unfold ebind. by rewrite query_quiet.
Qed.

Lemma projected_in_table t kind content metadata :
  Forall (fun p => table_of p = t) (projected t kind content metadata).
Proof.
  assert (forall A (f : A -> Projection) l, (forall x, table_of (f x) = t) -> Forall (fun p => table_of p = t) (f <$> l))
    as Hmap by (intros A f l Hf; apply Forall_fmap, Forall_forall; intros x _; apply Hf).
  destruct t; cbn [projected]; unfold shared, alias_projection, media_projection, embedded_projection;
    repeat case_match; try apply Hmap; try intros x; repeat constructor.
Qed.

Lemma rows_of_replaced t id kind content metadata updated s t' id' :
  rows_of t' id' (replace_rows id kind content metadata updated t s) =
  if decide (t' = t /\ id' = id) then projected t kind content metadata else rows_of t' id' s.
Proof.
  unfold rows_of, replace_rows. cbn. rewrite List.filter_app, fmap_app.
  pose proof (projected_in_table t kind content metadata) as Hps.
  destruct (decide _) as [[-> ->]|Hne].
  - rewrite keep_keep_none, keep_all; cbn.
    + rewrite <- list_fmap_compose. by apply list_fmap_id.
    + apply Forall_fmap. eapply Forall_impl; [exact Hps|]. intros p Hp. unfold in_table. cbn.
      rewrite bool_decide_eq_true_2 by done. apply Z.eqb_refl.
    + intros r. by destruct (in_table t id r).
  - rewrite keep_keep_imp, (keep_none _ (_ <$> _)); cbn.
    + apply app_nil_r.
    + apply Forall_fmap. eapply Forall_impl; [exact Hps|]. intros p Hp. unfold in_table. cbn.
      apply not_true_is_false. intros [Ht%bool_decide_eq_true Hi%Z.eqb_eq]%andb_prop. naive_solver.
    + intros r. unfold in_table. intros [Ht%bool_decide_eq_true Hi%Z.eqb_eq]%andb_prop.
      apply negb_true_iff, not_true_is_false. intros [Ht'%bool_decide_eq_true Hi'%Z.eqb_eq]%andb_prop. naive_solver.
Qed.

(** *** All the tables of one memory *)

Definition replace_all (id : Z) (kind content : string) (metadata : MemoryPolicyMetadata) (updated : N) (s : Store)
    : Store :=
  foldl (fun s t => replace_rows id kind content metadata updated t s) s TABLES.

Lemma all_tables t : t ∈ TABLES.
Proof. apply (bool_decide_unpack (t ∈ TABLES)). by destruct t. Qed.

Lemma upsert_all_quiet id kind content metadata updated c :
  quiet c ->
  upsert_all id kind content metadata updated c =
  (Ok tt, set_tables (replace_all id kind content metadata updated (tables c)) c).
Proof.
  intros Hq. rewrite upsert_all_each. apply each_quiet; [|done]. intros t c' Hq'. by apply upsert_table_quiet.
Qed.

Lemma rows_of_fold id kind content metadata updated t id' ts s :
  rows_of t id' (foldl (fun s t => replace_rows id kind content metadata updated t s) s ts) =
  if decide (t ∈ ts /\ id' = id) then projected t kind content metadata else rows_of t id' s.
Proof.
  revert s. induction ts as [|t' ts IH]; intros s; cbn.
  - destruct (decide _) as [[?%not_elem_of_nil _]|_]; done.
  - rewrite IH, rows_of_replaced. repeat case_decide; set_solver.
Qed.

Lemma rows_of_replace_all id kind content metadata updated t id' s :
  rows_of t id' (replace_all id kind content metadata updated s) =
  if decide (id' = id) then projected t kind content metadata else rows_of t id' s.
Proof.
  unfold replace_all. rewrite rows_of_fold. pose proof (all_tables t). repeat case_decide; naive_solver.
Qed.

Lemma fold_same {A} (g : A -> Store -> Store) l s :
  (forall x s, same_but_rows s (g x s)) -> same_but_rows s (foldl (fun s x => g x s) s l).
Proof.
  intros Hg. revert s. induction l as [|x l IH]; intros s; cbn; [done|]. etrans; [apply Hg|apply IH].
Qed.

Lemma replace_all_same id kind content metadata updated s :
  same_but_rows s (replace_all id kind content metadata updated s).
Proof. by apply (fold_same (fun t s => replace_rows id kind content metadata updated t s)). Qed.

Definition delete_all (id : Z) (s : Store) : Store := foldl (fun s t => delete_rows t id s) s TABLES.

Lemma rows_of_deleted t id t' id' s :
  rows_of t' id' (delete_rows t id s) = if decide (t' = t /\ id' = id) then [] else rows_of t' id' s.
Proof.
  unfold rows_of, delete_rows. cbn. destruct (decide _) as [[-> ->]|Hne].
  - rewrite keep_keep_none; [done|]. intros r. by destruct (in_table t id r).
  - rewrite keep_keep_imp; [done|]. intros r. unfold in_table.
    intros [Ht%bool_decide_eq_true Hi%Z.eqb_eq]%andb_prop.
    apply negb_true_iff, not_true_is_false. intros [Ht'%bool_decide_eq_true Hi'%Z.eqb_eq]%andb_prop. naive_solver.
Qed.

Lemma rows_of_delete_fold t id id' ts s :
  rows_of t id' (foldl (fun s t => delete_rows t id s) s ts) =
  if decide (t ∈ ts /\ id' = id) then [] else rows_of t id' s.
Proof.
  revert s. induction ts as [|t' ts IH]; intros s; cbn.
  - destruct (decide _) as [[?%not_elem_of_nil _]|_]; done.
  - rewrite IH, rows_of_deleted. repeat case_decide; set_solver.
Qed.

Lemma rows_of_delete_all t id id' s :
  rows_of t id' (delete_all id s) = if decide (id' = id) then [] else rows_of t id' s.
Proof.
  unfold delete_all. rewrite rows_of_delete_fold. pose proof (all_tables t). repeat case_decide; naive_solver.
Qed.

Lemma delete_all_same id s : same_but_rows s (delete_all id s).
Proof. by apply (fold_same (fun t s => delete_rows t id s)). Qed.

End tables.
