(* ===== verification/MemoryCanon.v ===== *)
(** * The canonical files of the memory store ([memory/mod.rs])

    The event log and the daily notes, which are appended to, and the export of
    the promoted memories: [MEMORY.md], the index and one note per name space,
    rebuilt from the table.  A file operation is a step that may fail and then
    changes nothing; the exports are staged first and swapped in last, so a
    failure while staging leaves the live files as they were. *)

From S2P Require Import Prelude RustStr RustNum Sql MemoryPolicy MemoryText MemoryTypes MemoryTables.
Local Open Scope string_scope.
Local Open Scope list_scope.
Local Open Scope rust_scope.

(** [gmtime_r]: the year since 1900, the month from 0 and the day. *)
Class Gmtime := { gmtime : Z -> option (Z * Z * Z) }.

(** The result of a step whose error is not reported. *)
Definition attempt {A} (m : run A) : M (Conn Store) (option A) :=
  fun c => match m c with (Ok a, c') => (Some a, c') | (Err _, c') => (None, c') end.

Definition with_events (l : list (string * MemoryEvent)) (k : Canon) : Canon := {|
  event_lines := l; daily_notes := daily_notes k; memory_md := memory_md k; index_md := index_md k;
  namespace_files := namespace_files k |}.
Definition with_notes (d : gmap string string) (k : Canon) : Canon := {|
  event_lines := event_lines k; daily_notes := d; memory_md := memory_md k; index_md := index_md k;
  namespace_files := namespace_files k |}.
Definition with_memory_md (t : option string) (k : Canon) : Canon := {|
  event_lines := event_lines k; daily_notes := daily_notes k; memory_md := t; index_md := index_md k;
  namespace_files := namespace_files k |}.
Definition with_index_md (t : option string) (k : Canon) : Canon := {|
  event_lines := event_lines k; daily_notes := daily_notes k; memory_md := memory_md k; index_md := t;
  namespace_files := namespace_files k |}.
Definition with_namespaces (n : gmap string string) (k : Canon) : Canon := {|
  event_lines := event_lines k; daily_notes := daily_notes k; memory_md := memory_md k; index_md := index_md k;
  namespace_files := n |}.
Definition on_canon (f : Canon -> Canon) (s : Store) : Store := with_canon (f (canon s)) s.

Section canon.
Context `{G : Gmtime}.

(** ** Dates *)

(** [{:0w}]. *)
Definition show_padded (w : nat) (z : Z) : string := pad_zeros (w - String.length (show_Z z)) (show_Z z).

Definition canonical_date (ts_ms : N) : string :=
  match gmtime (Z.of_N (ts_ms / 1000)) with
  | None => "1970-01-01"
  | Some (year, mon, mday) =>
      show_padded 4 (year + 1900) +:+ "-" +:+ show_padded 2 (mon + 1) +:+ "-" +:+ show_padded 2 mday
  end.

Definition canonical_daily_note_file (ts_ms : N) : string := canonical_date ts_ms +:+ ".md".
Definition canonical_event_file (ts_ms : N) : string := "events/" +:+ canonical_date ts_ms +:+ ".jsonl".

(** ** Logs *)

Definition record_canonical_event (event : MemoryEvent) : run unit :=
  update (on_canon (fun k => with_events (event_lines k ++ [(canonical_event_file (mev_ts_ms event), event)]) k)).

Definition append_to (file text : string) (d : gmap string string) : gmap string string :=
  <[file := default "" (d !! file) +:+ text]> d.

Definition append_daily_note (ts_ms : N) (kind content : string) : run unit :=
  let file := canonical_daily_note_file ts_ms in
  let! read := attempt (query (fun s => default "" (daily_notes (canon s) !! file))) in
  let existing := default "" read in
  let existing :=
    if is_empty existing then "# Memory Note " +:+ canonical_date ts_ms +:+ newline +:+ newline else existing in
  let line := "- [" +:+ kind +:+ "] " +:+ content +:+ newline in
  if contains existing line then ret (Ok tt)
  else
    let missing := if ends_with existing newline then "" else newline in
    update (on_canon (fun k => with_notes (append_to file (missing +:+ line) (daily_notes k)) k)).

(** ** The export of the promoted memories *)

Definition by_export (a b : MemoryRow) : Prop :=
  (mem_display_order a < mem_display_order b
   \/ mem_display_order a = mem_display_order b
      /\ (mem_accessed_ms b < mem_accessed_ms a \/ mem_accessed_ms a = mem_accessed_ms b /\ mem_id a <= mem_id b))%Z.
#[export] Instance by_export_dec a b : Decision (by_export a b).
Proof. unfold by_export. apply _. Defined.

Definition promoted_records (s : Store) : list MemoryRow := order_by by_export (List.filter mem_promoted (memories s)).

Definition record_line (m : MemoryRow) : string :=
  "- [mem:" +:+ show_Z (mem_id m) +:+ "] [" +:+ mem_kind m +:+ "] " +:+ mem_content m +:+ newline.
Definition redacted_line (m : MemoryRow) : string :=
  "- [mem:" +:+ show_Z (mem_id m) +:+ "] redacted (" +:+ MemoryScope.as_str (scope (row_metadata m)) +:+ ", "
    +:+ MemorySensitivity.as_str (sensitivity (row_metadata m)) +:+ ", "
    +:+ SpokenMemoryPolicy.as_str (spoken_policy (row_metadata m)) +:+ ")" +:+ newline.

Definition shared_safe (m : MemoryRow) : bool := shared_room_allowed (row_metadata m).
Definition namespace_of (m : MemoryRow) : string := canonical_namespace (mem_kind m) (row_metadata m).
Definition namespace_line (m : MemoryRow) : string := if shared_safe m then record_line m else redacted_line m.

Definition root_lines (records : list MemoryRow) : list string := record_line <$> List.filter shared_safe records.

Definition by_name (a b : string) : Prop := String.leb a b = true.
#[export] Instance by_name_dec a b : Decision (by_name a b).
Proof. unfold by_name. apply _. Defined.

(** The names in the order of the [BTreeMap], each with its lines. *)
Definition namespace_index (records : list MemoryRow) : list (string * list string) :=
  (fun n => (n, namespace_line <$> List.filter (fun m => String.eqb (namespace_of m) n) records))
    <$> order_by by_name (remove_dups (namespace_of <$> records)).

Definition paragraph : string := newline +:+ newline.
Definition em_dash : string := utf8 [226; 128; 148]%N.

Definition note_text (namespace : string) (lines : list string) : string :=
  "---" +:+ newline +:+ "namespace: " +:+ namespace +:+ newline +:+ "kind: durable-memory" +:+ newline
    +:+ "source: genie-core" +:+ newline +:+ "---" +:+ paragraph +:+ "# " +:+ namespace +:+ paragraph
    +:+ concat_str lines.

Definition index_line (entry : string * list string) : string :=
  let '(namespace, lines) := entry in
  "- [" +:+ namespace +:+ "](" +:+ canonical_namespace_note_relative namespace +:+ ") " +:+ em_dash +:+ " "
    +:+ show_nat (List.length lines) +:+ " durable entr" +:+ (if Nat.eqb (List.length lines) 1 then "y" else "ies") +:+ newline.

Definition index_text (index : list (string * list string)) : string :=
  "# GenieClaw Memory Index" +:+ paragraph +:+ "Generated local durable-memory map." +:+ paragraph
    +:+ "## Namespaces" +:+ paragraph +:+ concat_str (index_line <$> index).

Definition root_text (lines : list string) : string :=
  "# GenieClaw Durable Memory" +:+ paragraph +:+
  match lines with
  | [] => "No promoted memories are currently safe for shared-room disclosure." +:+ paragraph
            +:+ "See [INDEX.md](INDEX.md) for the local namespace map." +:+ newline
  | _ => "See [INDEX.md](INDEX.md) for namespace notes." +:+ paragraph +:+ concat_str lines
  end.

(** The notes by their path; a later name space with the same path overwrites. *)
Definition note_files (index : list (string * list string)) : gmap string string :=
  foldl (fun files entry => <[canonical_namespace_note_relative entry.1 := note_text entry.1 entry.2]> files) ∅ index.

(** Staging can fail at the directory, at a note, at the index and at the root. *)
Definition stage (index : list (string * list string)) : run unit :=
  let touch := query (fun _ => tt) in
  let!? _ := touch in
  let!? _ := each (fun _ => touch) index in
  let!? _ := touch in
  touch.

Definition rebuild_root_memory_file : run unit :=
  let!? records := query promoted_records in
  match records with
  | [] =>
      let! _ := attempt (update (on_canon (with_namespaces ∅))) in
      let! _ := attempt (update (on_canon (with_memory_md None))) in
      let! _ := attempt (update (on_canon (with_index_md None))) in
      ret (Ok tt)
  | _ =>
      let index := namespace_index records in
      let!? _ := stage index in
      let!? _ := update (on_canon (with_namespaces (note_files index))) in
      let!? _ := update (on_canon (with_index_md (Some (index_text index)))) in
      update (on_canon (with_memory_md (Some (root_text (root_lines records)))))
  end.

End canon.
