(* ===== verification/MemoryExport.v ===== *)
(** * What the export of the promoted memories discloses ([memory/mod.rs], [rebuild_root_memory_file])

    The exported files are the same whatever the memories say that may not be
    spoken in a shared room. *)

From S2P Require Import Prelude RustStr RustNum Sql MemoryPolicy MemoryText MemoryTypes MemoryExtract Embedding MemoryTables MemoryCanon.
Local Open Scope string_scope.
Local Open Scope list_scope.
Local Open Scope rust_scope.

(** A memory without its text where that may not be spoken. *)
Definition hide (m : MemoryRow) : MemoryRow :=
  if shared_safe m then m else {|
    mem_id := mem_id m; mem_kind := mem_kind m; mem_content := ""; mem_created_ms := mem_created_ms m;
    mem_accessed_ms := mem_accessed_ms m; mem_recall_count := mem_recall_count m; mem_max_score := mem_max_score m;
    mem_promoted := mem_promoted m; mem_query_hashes := mem_query_hashes m; mem_evergreen := mem_evergreen m;
    mem_scope := mem_scope m; mem_sensitivity := mem_sensitivity m; mem_spoken_policy := mem_spoken_policy m;
    mem_display_order := mem_display_order m |}.

Definition hidden (s : Store) : Store := with_memories (hide <$> memories s) s.

Lemma hide_columns m :
  mem_id (hide m) = mem_id m /\ mem_promoted (hide m) = mem_promoted m /\ row_metadata (hide m) = row_metadata m /\
  mem_kind (hide m) = mem_kind m /\ mem_display_order (hide m) = mem_display_order m /\
  mem_accessed_ms (hide m) = mem_accessed_ms m.
Proof. unfold hide. by destruct (shared_safe m). Qed.

Lemma shared_safe_hide m : shared_safe (hide m) = shared_safe m.
Proof. unfold shared_safe. by destruct (hide_columns m) as (_ & _ & -> & _). Qed.

Lemma namespace_of_hide m : namespace_of (hide m) = namespace_of m.
Proof. unfold namespace_of. by destruct (hide_columns m) as (_ & _ & -> & -> & _). Qed.

Lemma namespace_line_hide m : namespace_line (hide m) = namespace_line m.
Proof.
  unfold namespace_line. rewrite shared_safe_hide. destruct (shared_safe m) eqn:E; [|].
  - unfold hide. by rewrite E.
  - unfold redacted_line. by destruct (hide_columns m) as (-> & _ & -> & _).
Qed.

Lemma by_export_hide a b : by_export (hide a) (hide b) <-> by_export a b.
Proof.
  unfold by_export. destruct (hide_columns a) as (-> & _ & _ & _ & -> & ->).
  by destruct (hide_columns b) as (-> & _ & _ & _ & -> & ->).
Qed.

Lemma filter_fmap_same {A} (f : A -> A) (p : A -> bool) l :
  (forall x, p (f x) = p x) -> List.filter p (f <$> l) = f <$> List.filter p l.
Proof. intros Hp. induction l as [|x l IH]; cbn; [done|]. rewrite Hp. destruct (p x); cbn; by rewrite IH. Qed.

Lemma promoted_hidden s : promoted_records (hidden s) = hide <$> promoted_records s.
Proof.
  unfold promoted_records, hidden. cbn [with_memories memories].
  rewrite filter_fmap_same by (intros m; apply hide_columns). apply order_by_fmap, by_export_hide.
Qed.

Lemma root_lines_hide records : root_lines (hide <$> records) = root_lines records.
Proof.
  unfold root_lines. rewrite filter_fmap_same by apply shared_safe_hide. rewrite <- list_fmap_compose.
  apply list_fmap_ext. intros i m Hm%list_elem_of_lookup_2%list_elem_of_In%filter_In. cbn.
  unfold hide. by destruct Hm as [_ ->].
Qed.

Lemma namespace_index_hide records : namespace_index (hide <$> records) = namespace_index records.
Proof.
  unfold namespace_index.
  assert (forall A (f : MemoryRow -> A), (forall m, f (hide m) = f m) -> f <$> (hide <$> records) = f <$> records) as Hf.
  { intros A f Hh. rewrite <- list_fmap_compose. apply list_fmap_ext. intros i m _. apply Hh. }
  rewrite (Hf _ namespace_of) by apply namespace_of_hide. apply list_fmap_ext. intros i n _. f_equal.
  rewrite filter_fmap_same by (intros m; by rewrite namespace_of_hide). rewrite <- list_fmap_compose.
  apply list_fmap_ext. intros j m _. apply namespace_line_hide.
Qed.

(** ** Two stores side by side *)

Definition twin (c d : Conn Store) : Prop := faults c = faults d /\ canon (tables c) = canon (tables d).
Definition lockstep {A} (m n : run A) (c d : Conn Store) : Prop := (m c).1 = (n d).1 /\ twin (m c).2 (n d).2.

Lemma lockstep_ret {A} (r : result A string) c d : twin c d -> lockstep (ret r) (ret r) c d.
Proof. by intros Ht. Qed.

Lemma lockstep_statement {A} (f g : Store -> result (A * Store) string) c d :
  twin c d ->
  match f (tables c), g (tables d) with
  | Ok (a, s), Ok (b, t) => a = b /\ canon s = canon t
  | Err e, Err e' => e = e'
  | _, _ => False
  end -> lockstep (statement f) (statement g) c d.
Proof.
  intros [Hf Hc] Hm. unfold lockstep, statement, twin. rewrite Hf. destruct (default false (head (faults d))); [cbn; by split_and!|].
  destruct (f (tables c)) as [[a s]|e], (g (tables d)) as [[b t]|e']; cbn; try done.
  - destruct Hm as [-> ?]. by split_and!.
  - subst e'. by split_and!.
Qed.

Lemma lockstep_query {A} (f g : Store -> A) c d : twin c d -> f (tables c) = g (tables d) -> lockstep (query f) (query g) c d.
Proof. intros Ht Hfg. apply lockstep_statement; [done|]. split; [done|apply Ht]. Qed.

Lemma lockstep_canon f c d : twin c d -> lockstep (update (on_canon f)) (update (on_canon f)) c d.
Proof. intros Ht. apply lockstep_statement; [done|]. split; [done|]. cbn. f_equal. apply Ht. Qed.

Lemma lockstep_ebind {A B} (m n : run A) (f g : A -> run B) c d :
  lockstep m n c d -> (forall a c' d', twin c' d' -> lockstep (f a) (g a) c' d') -> lockstep (ebind m f) (ebind n g) c d.
Proof.
  intros [Hr Ht] Hfg. unfold lockstep, ebind in *. destruct (m c) as [[a|e] c'], (n d) as [[b|e'] d']; cbn in *; try done.
  - injection Hr as <-. by apply Hfg.
  - by injection Hr as <-.
Qed.

Lemma lockstep_attempt {A B} (m n : run A) (f g : option A -> run B) c d :
  lockstep m n c d -> (forall a c' d', twin c' d' -> lockstep (f a) (g a) c' d') ->
  lockstep (bind (attempt m) f) (bind (attempt n) g) c d.
Proof.
  intros [Hr Ht] Hfg. unfold lockstep, bind, attempt in *.
  destruct (m c) as [[a|e] c'], (n d) as [[b|e'] d']; cbn in *; try done; [injection Hr as <-|]; by apply Hfg.
Qed.

Lemma lockstep_each {A} (f : A -> run unit) l c d :
  twin c d -> (forall x c' d', twin c' d' -> lockstep (f x) (f x) c' d') -> lockstep (each f l) (each f l) c d.
Proof.
  intros Ht Hf. revert c d Ht. induction l as [|x l IH]; intros c d Ht; cbn; [by apply lockstep_ret|].
  apply lockstep_ebind; [by apply Hf|intros [] c' d' Ht']. by apply IH.
Qed.

Lemma lockstep_touch c d : twin c d -> lockstep (query (fun _ => tt)) (query (fun _ => tt)) c d.
Proof. intros Ht. by apply lockstep_query. Qed.

Lemma lockstep_stage index c d : twin c d -> lockstep (stage index) (stage index) c d.
Proof.
  intros Ht. apply lockstep_ebind; [by apply lockstep_touch|intros _ c1 d1 H1].
  apply lockstep_ebind; [apply lockstep_each; [done|intros; by apply lockstep_touch]|intros _ c2 d2 H2].
  apply lockstep_ebind; [by apply lockstep_touch|intros _ c3 d3 H3]. by apply lockstep_touch.
Qed.

Lemma ebind_query {A B} (f : Store -> A) (g : A -> run B) c :
  ebind (query f) g c =
  let c' := {| tables := tables c; faults := tail (faults c) |} in
  if default false (head (faults c)) then (Err io_error, c') else g (f (tables c)) c'.
Proof. unfold ebind, query, statement. by destruct (default false (head (faults c))). Qed.

(** C22: What the memories say that may not be spoken in a shared room has no
    influence on the exported files: on the store with those texts erased, the
    rebuild has the same outcome and leaves the same [MEMORY.md], index and
    notes, whatever file operation fails. *)
Theorem export_is_blind s fs :
  let c := {| tables := s; faults := fs |} in
  let d := {| tables := hidden s; faults := fs |} in
  (rebuild_root_memory_file c).1 = (rebuild_root_memory_file d).1 /\
  canon (tables (rebuild_root_memory_file c).2) = canon (tables (rebuild_root_memory_file d).2).
Proof.
  intros c d. enough (lockstep rebuild_root_memory_file rebuild_root_memory_file c d) as [Hr [_ Hc]] by done.
  unfold lockstep, rebuild_root_memory_file. rewrite !ebind_query. cbn [tables faults c d].
  destruct (default false (head fs)); [done|]. rewrite promoted_hidden.
  set (c' := {| tables := s; faults := tail fs |}). set (d' := {| tables := hidden s; faults := tail fs |}).
  assert (twin c' d') as Ht by done. clearbody c' d'. clear c d.
  destruct (promoted_records s) as [|m records].
  - repeat (apply lockstep_attempt; [by apply lockstep_canon|clear; intros _ c' d' Ht]). by apply lockstep_ret.
  - remember (hide <$> m :: records) as others eqn:Ho. destruct others as [|m' others]; [done|].
    rewrite Ho, namespace_index_hide, root_lines_hide.
    apply lockstep_ebind; [by apply lockstep_stage|intros _ c1 d1 H1].
    apply lockstep_ebind; [by apply lockstep_canon|intros _ c2 d2 H2].
    apply lockstep_ebind; [by apply lockstep_canon|intros _ c3 d3 H3]. by apply lockstep_canon.
Qed.
