(* ===== verification/MemoryStore.v ===== *)
(** * The memory store ([memory/mod.rs], [impl Memory])

    The operations of the store on the memories, their projections and the
    canonical files.  A statement and a file operation are steps that may fail;
    what an operation wrote before a failure stays written, but for the steps of
    a transaction.  [now] is the clock an operation reads. *)

From S2P Require Import Prelude RustStr RustNum Sql MemoryPolicy Recall MemoryText MemoryTypes MemoryExtract Embedding MemoryTables MemoryCanon.
Local Open Scope string_scope.
Local Open Scope list_scope.
Local Open Scope rust_scope.

#[export] Instance MemoryPolicyMetadata_eq_dec : EqDecision MemoryPolicyMetadata.
Proof. solve_decision. Defined.

(** The rows of [memories_fts MATCH q], best first, with their [bm25] rank; the
    index is SQLite's. *)
Class Fts := { fts_match : list MemoryRow -> string -> list (Z * f64) }.
(** ** Entries *)

Definition read_entry (m : MemoryRow) : MemoryEntry := {|
  me_id := mem_id m; me_kind := mem_kind m; me_content := mem_content m; me_created_ms := mem_created_ms m;
  me_accessed_ms := mem_accessed_ms m; me_recall_count := mem_recall_count m; me_max_score := mem_max_score m;
  me_promoted := mem_promoted m; me_metadata := row_metadata m;
|}.

Definition memory_by_id (id : Z) (ms : list MemoryRow) : option MemoryRow := List.find (fun m => Z.eqb (mem_id m) id) ms.
(** [UPDATE memories SET .. WHERE id = id], with the number of rows changed. *)
Definition update_memory (id : Z) (f : MemoryRow -> MemoryRow) (s : Store) : nat * Store :=
  (List.length (List.filter (fun m => Z.eqb (mem_id m) id) (memories s)),
   with_memories ((fun m => if Z.eqb (mem_id m) id then f m else m) <$> memories s) s).
(** [DELETE FROM memories WHERE p]. *)
Definition delete_memories (p : MemoryRow -> bool) (s : Store) : nat * Store :=
  (List.length (List.filter p (memories s)), with_memories (List.filter (fun m => negb (p m)) (memories s)) s).

Definition get_by_id (id : Z) : run (option MemoryEntry) := query (fun s => read_entry <$> memory_by_id id (memories s)).

Definition by_access (a b : MemoryRow) : Prop :=
  (mem_accessed_ms b < mem_accessed_ms a \/ mem_accessed_ms a = mem_accessed_ms b /\ mem_id b <= mem_id a)%Z.
Definition by_last_access (a b : MemoryRow) : Prop := (mem_accessed_ms b <= mem_accessed_ms a)%Z.
#[export] Instance by_access_dec a b : Decision (by_access a b).
Proof. unfold by_access. apply _. Defined.
#[export] Instance by_last_access_dec a b : Decision (by_last_access a b).
Proof. unfold by_last_access. apply _. Defined.

Definition get_by_kind (kind : string) (limit : nat) : run (list MemoryEntry) :=
  query (fun s => read_entry <$>
    take limit (order_by by_last_access (List.filter (fun m => String.eqb (mem_kind m) kind) (memories s)))).

Definition recent (limit : nat) : run (list MemoryEntry) :=
  query (fun s => read_entry <$> take limit (order_by by_access (memories s))).

Definition count : run nat := query (fun s => List.length (memories s)).
Definition promoted_count : run nat := query (fun s => List.length (List.filter mem_promoted (memories s))).

Definition promotion_score (m : MemoryRow) : f64 := f64_mul (f64_of_Z (mem_recall_count m)) (mem_max_score m).
Definition by_promotion (a b : MemoryRow) : Prop := SFltb (promotion_score a) (promotion_score b) = false.
#[export] Instance by_promotion_dec a b : Decision (by_promotion a b).
Proof. unfold by_promotion. apply _. Defined.

Definition promotion_candidates (min_recall_count : Z) (min_score : f64) (limit : nat) : run (list MemoryEntry) :=
  query (fun s => read_entry <$> take limit (order_by by_promotion (List.filter (fun m =>
    (min_recall_count <=? mem_recall_count m)%Z && SFleb min_score (mem_max_score m) && negb (mem_promoted m))
    (memories s)))).

Record ManagedMemoryEntry := {
  man_id : Z; man_kind : string; man_content : string; man_created_ms : Z; man_accessed_ms : Z;
  man_recall_count : Z; man_promoted : bool; man_scope : string; man_sensitivity : string;
  man_spoken_policy : string; man_disclosure_class : string; man_namespace : string;
  man_canonical_note : option string; man_display_order : Z;
}.

Definition disclosure_class_str (c : MemoryDisclosureClass.t) : string :=
  match c with
  | MemoryDisclosureClass.Public => "public"
  | MemoryDisclosureClass.Household => "household"
  | MemoryDisclosureClass.Person => "person"
  | MemoryDisclosureClass.Sensitive => "sensitive"
  | MemoryDisclosureClass.Private => "private"
  | MemoryDisclosureClass.Restricted => "restricted"
  end.

Definition managed_entry (m : MemoryRow) : ManagedMemoryEntry :=
  let namespace := canonical_namespace (mem_kind m) (row_metadata m) in {|
  man_id := mem_id m; man_kind := mem_kind m; man_content := mem_content m; man_created_ms := mem_created_ms m;
  man_accessed_ms := mem_accessed_ms m; man_recall_count := mem_recall_count m; man_promoted := mem_promoted m;
  man_scope := mem_scope m; man_sensitivity := mem_sensitivity m; man_spoken_policy := mem_spoken_policy m;
  man_disclosure_class := disclosure_class_str (classify_memory (row_metadata m)); man_namespace := namespace;
  man_canonical_note := when (mem_promoted m) ("memory/" +:+ canonical_namespace_note_relative namespace);
  man_display_order := mem_display_order m;
|}.

Definition by_display (a b : MemoryRow) : Prop :=
  (mem_display_order a < mem_display_order b \/ mem_display_order a = mem_display_order b /\ by_access a b)%Z.
#[export] Instance by_display_dec a b : Decision (by_display a b).
Proof. unfold by_display. apply _. Defined.

Definition list_managed (limit : nat) : run (list ManagedMemoryEntry) :=
  query (fun s => managed_entry <$> take (Nat.max limit 1) (order_by by_display (memories s))).

(** ** Writing *)

Section store.
Context `{U : Unicode} `{H : StrHasher} `{G : Gmtime} `{F : Fts} `{EX : Exp}.
(** The half life the store was opened with. *)
Variable half_life_days : f64.

Definition new_memory (id : Z) (kind content : string) (metadata : MemoryPolicyMetadata) (evergreen : bool) (now : N)
    : MemoryRow := {|
  mem_id := id; mem_kind := kind; mem_content := content; mem_created_ms := Z.of_N now; mem_accessed_ms := Z.of_N now;
  mem_recall_count := 0; mem_max_score := f64_of_Z 0; mem_promoted := false; mem_query_hashes := [];
  mem_evergreen := evergreen; mem_scope := MemoryScope.as_str (scope metadata);
  mem_sensitivity := MemorySensitivity.as_str (sensitivity metadata);
  mem_spoken_policy := SpokenMemoryPolicy.as_str (spoken_policy metadata); mem_display_order := 2147483647;
|}.

(** [INSERT] and [last_insert_rowid]. *)
Definition insert_memory (kind content : string) (metadata : MemoryPolicyMetadata) (evergreen : bool) (now : N) (s : Store)
    : Z * Store :=
  let id := next_rowid (mem_id <$> memories s) in
  (id, with_memories (memories s ++ [new_memory id kind content metadata evergreen now]) s).

Definition store_with_metadata (kind content : string) (metadata : MemoryPolicyMetadata) (evergreen : bool) (now : N)
    : run Z :=
  let!? id := update_count (insert_memory kind content metadata evergreen now) in
  let!? _ := upsert_all id kind content metadata now in
  ret (Ok id).

Definition event (now : N) (action : string) (id : Z) (kind content : string) (detail : option string) : MemoryEvent := {|
  mev_ts_ms := now; mev_action := action; mev_id := Some id; mev_kind := Some kind; mev_content := Some content;
  mev_detail := detail |}.

Definition store_as (evergreen : bool) (action : string) (detail : option string) (kind content : string) (now : N)
    : run Z :=
  let content := normalize_memory_content content in
  let metadata := infer_metadata kind content in
  let!? id := store_with_metadata kind content metadata evergreen now in
  let!? _ := record_canonical_event (event now action id kind content detail) in
  let!? _ := append_daily_note now kind content in
  ret (Ok id).

Definition store : string -> string -> N -> run Z := store_as false "store" None.
Definition store_evergreen : string -> string -> N -> run Z := store_as true "store_evergreen" (Some "evergreen").

(** ** Deleting *)

(** Every projection of the memory. *)
Definition delete_projections (id : Z) : run unit :=
  let!? _ := update (delete_rows household_profiles id) in
  let!? _ := update (delete_rows device_aliases id) in
  delete_structured_household_rows id.

Definition delete_by_id (id : Z) (now : N) : run bool :=
  let!? existing := get_by_id id in
  let!? deleted := update_count (delete_memories (fun m => Z.eqb (mem_id m) id)) in
  match deleted, existing with
  | S _, Some entry =>
      let!? _ := delete_projections id in
      let!? _ := if me_promoted entry then rebuild_root_memory_file else ret (Ok tt) in
      let!? _ := record_canonical_event (event now "delete" id (me_kind entry) (me_content entry) None) in
      let!? _ := append_daily_note now "deleted" ("[" +:+ me_kind entry +:+ "] " +:+ me_content entry) in
      ret (Ok true)
  | S _, None => ret (Ok true)
  | O, _ => ret (Ok false)
  end.

(** ** Facts with one current answer *)

Record StoreOutcome := { out_id : option Z; out_replaced : nat; out_duplicate : bool }.

Definition has_exact (content : string) : run bool :=
  let clean := trim (strip_source_tag content) in
  query (fun s =>
    existsb (fun m => String.eqb (to_ascii_lowercase (mem_content m)) (to_ascii_lowercase clean)) (memories s)).

Definition has_similar (content : string) : run bool :=
  match similar_words content with
  | [] => ret (Ok false)
  | words => query (fun s => existsb (fun m => forallb (like (mem_content m)) words) (memories s))
  end.

(** The loop over the entries of the kind; the number of those it deleted. *)
Fixpoint replace_slot (slot content : string) (now : N) (entries : list MemoryEntry) : run nat :=
  match entries with
  | [] => ret (Ok 0)
  | e :: entries =>
      if negb (String.eqb (me_content e) content)
         && bool_decide (memory_slot (me_kind e) (me_content e) = Some slot) then
        let!? deleted := delete_by_id (me_id e) now in
        let!? rest := replace_slot slot content now entries in
        ret (Ok ((if deleted then 1 else 0) + rest))
      else replace_slot slot content now entries
  end.

Definition store_resolved (kind content : string) (now : N) : run StoreOutcome :=
  let content := normalize_memory_content content in
  let slot := memory_slot kind content in
  let!? duplicate := match slot with Some _ => has_exact content | None => has_similar content end in
  if duplicate then ret (Ok {| out_id := None; out_replaced := 0; out_duplicate := true |})
  else
    let!? replaced :=
      match slot with
      | Some slot => let!? entries := get_by_kind kind 100 in replace_slot slot content now entries
      | None => ret (Ok 0)
      end in
    let!? id := store kind content now in
    ret (Ok {| out_id := Some id; out_replaced := replaced; out_duplicate := false |}).

(** ** Managing *)

Definition set_fact (kind content : string) (metadata : MemoryPolicyMetadata) (m : MemoryRow) : MemoryRow := {|
  mem_id := mem_id m; mem_kind := kind; mem_content := content; mem_created_ms := mem_created_ms m;
  mem_accessed_ms := mem_accessed_ms m; mem_recall_count := mem_recall_count m; mem_max_score := mem_max_score m;
  mem_promoted := mem_promoted m; mem_query_hashes := mem_query_hashes m; mem_evergreen := mem_evergreen m;
  mem_scope := MemoryScope.as_str (scope metadata); mem_sensitivity := MemorySensitivity.as_str (sensitivity metadata);
  mem_spoken_policy := SpokenMemoryPolicy.as_str (spoken_policy metadata); mem_display_order := mem_display_order m;
|}.

(** The kind to write, or why there is none. *)
Definition next_kind_of (existing : MemoryEntry) (kind : option string) : result string string :=
  match kind with
  | Some kind => if is_empty (trim kind) then Err "memory kind cannot be empty" else Ok (trim kind)
  | None => Ok (me_kind existing)
  end.

Definition apply_update (existing : MemoryEntry) (id : Z) (kind content : string) (metadata : MemoryPolicyMetadata)
    (now : N) : run bool :=
  let!? updated := update_count (update_memory id (set_fact kind content metadata)) in
  match updated with
  | O => ret (Ok false)
  | S _ =>
      let!? _ := upsert_all id kind content metadata now in
      let!? _ := if me_promoted existing then rebuild_root_memory_file else ret (Ok tt) in
      let detail := "from [" +:+ me_kind existing +:+ "] " +:+ me_content existing in
      let!? _ := record_canonical_event (event now "update" id kind content (Some detail)) in
      let!? _ := append_daily_note now "updated" ("[" +:+ kind +:+ "] " +:+ content) in
      ret (Ok true)
  end.

Definition update_managed (id : Z) (content : string) (kind : option string) (now : N) : run bool :=
  let!? found := get_by_id id in
  match found with
  | None => ret (Ok false)
  | Some existing =>
      let content := normalize_memory_content content in
      if is_empty content then ret (Err "memory content cannot be empty")
      else
        match next_kind_of existing kind with
        | Err e => ret (Err e)
        | Ok next_kind =>
            let write_policy := assess_memory_write next_kind content in
            if negb (decision_allowed write_policy) then ret (Err (decision_reason write_policy))
            else
              let metadata := infer_metadata next_kind content in
              if String.eqb (me_kind existing) next_kind && String.eqb (me_content existing) content
                 && bool_decide (me_metadata existing = metadata) then ret (Ok true)
              else apply_update existing id next_kind content metadata now
        end
  end.

Definition set_display_order (n : Z) (m : MemoryRow) : MemoryRow := {|
  mem_id := mem_id m; mem_kind := mem_kind m; mem_content := mem_content m; mem_created_ms := mem_created_ms m;
  mem_accessed_ms := mem_accessed_ms m; mem_recall_count := mem_recall_count m; mem_max_score := mem_max_score m;
  mem_promoted := mem_promoted m; mem_query_hashes := mem_query_hashes m; mem_evergreen := mem_evergreen m;
  mem_scope := mem_scope m; mem_sensitivity := mem_sensitivity m; mem_spoken_policy := mem_spoken_policy m;
  mem_display_order := n |}.

Definition reorder_managed (ids : list Z) : run unit :=
  let!? _ := transaction
    (each (fun '(idx, id) =>
       let!? _ := update_count (update_memory id (set_display_order (Z.of_nat idx))) in ret (Ok tt)) (enumerate ids)) in
  rebuild_root_memory_file.

(** ** Promotion *)

Definition set_promoted (m : MemoryRow) : MemoryRow := {|
  mem_id := mem_id m; mem_kind := mem_kind m; mem_content := mem_content m; mem_created_ms := mem_created_ms m;
  mem_accessed_ms := mem_accessed_ms m; mem_recall_count := mem_recall_count m; mem_max_score := mem_max_score m;
  mem_promoted := true; mem_query_hashes := mem_query_hashes m; mem_evergreen := mem_evergreen m;
  mem_scope := mem_scope m; mem_sensitivity := mem_sensitivity m; mem_spoken_policy := mem_spoken_policy m;
  mem_display_order := mem_display_order m |}.

Fixpoint promote_each (now : N) (ids : list Z) : run (list MemoryEvent) :=
  match ids with
  | [] => ret (Ok [])
  | id :: ids =>
      let!? _ := update_count (update_memory id set_promoted) in
      let!? found := get_by_id id in
      let!? events := promote_each now ids in
      ret (Ok (match found with
               | Some e =>
                   let detail :=
                     if shared_room_allowed (me_metadata e) then "added to MEMORY.md"
                     else "promotion retained in DB only; skipped MEMORY.md due to policy" in
                   event now "promote" id (me_kind e) (me_content e) (Some detail) :: events
               | None => events
               end))
  end.

Definition mark_promoted_many (ids : list Z) (now : N) : run unit :=
  let!? events := promote_each now ids in
  match events with
  | [] => ret (Ok tt)
  | _ => let!? _ := rebuild_root_memory_file in each record_canonical_event events
  end.

Definition mark_promoted (id : Z) (now : N) : run unit := mark_promoted_many [id] now.

(** ** Recall tracking *)

Definition MAX_QUERY_HASHES : nat := 16.

Definition push_hash (hash : string) (hashes : list string) : list string :=
  if existsb (String.eqb hash) hashes then hashes
  else last_n MAX_QUERY_HASHES (hashes ++ [hash]).

Definition set_recall (now : N) (score : f64) (hashes : list string) (m : MemoryRow) : MemoryRow := {|
  mem_id := mem_id m; mem_kind := mem_kind m; mem_content := mem_content m; mem_created_ms := mem_created_ms m;
  mem_accessed_ms := Z.of_N now; mem_recall_count := mem_recall_count m + 1;
  mem_max_score := if SFltb (mem_max_score m) score then score else mem_max_score m;
  mem_promoted := mem_promoted m; mem_query_hashes := hashes; mem_evergreen := mem_evergreen m;
  mem_scope := mem_scope m; mem_sensitivity := mem_sensitivity m; mem_spoken_policy := mem_spoken_policy m;
  mem_display_order := mem_display_order m |}.

(** A memory that is not there is an error. *)
Definition query_hashes (id : Z) : run (list string) :=
  statement (fun s => match memory_by_id id (memories s) with
                      | Some m => Ok (mem_query_hashes m, s)
                      | None => Err "Query returned no rows"
                      end).
Definition query_diversity (id : Z) : run nat := let!? hashes := query_hashes id in ret (Ok (List.length hashes)).

Definition update_recall_tracking (now : N) (query_hash : string) (recall : Z * f64) : run unit :=
  let '(id, score) := recall in
  let! hashes := attempt (query_hashes id) in
  let hashes := push_hash query_hash (default [] hashes) in
  let!? _ := update_count (update_memory id (set_recall now score hashes)) in
  ret (Ok tt).

(** Best effort: what goes wrong is logged, and nothing of the batch is kept. *)
Definition record_recalls (recalls : list (Z * f64)) (now : N) (query_hash : string) : M (Conn Store) unit :=
  match recalls with
  | [] => ret tt
  | _ => let! _ := transaction (each (update_recall_tracking now query_hash) recalls) in ret tt
  end.

(** ** Searching *)

(** The stable sort, best score first. *)
Fixpoint insert_scored {A} (x : A * f64) (l : list (A * f64)) : list (A * f64) :=
  match l with
  | [] => [x]
  | y :: l' => if SFltb x.2 y.2 then y :: insert_scored x l' else x :: l
  end.
Definition sort_scored {A} (l : list (A * f64)) : list (A * f64) := foldr insert_scored [] l.

(** [f64] of the days since a memory was used. *)
Definition age_days (now : N) (accessed_ms : Z) : f64 :=
  f64_div (f64_sub (f64_of_Z (Z.of_N now)) (f64_of_Z accessed_ms)) MS_PER_DAY.

Definition decay_multiplier (now : N) (accessed_ms : Z) : f64 := exponential_decay (age_days now accessed_ms) half_life_days.

(** What both searches do with their scored hits. *)
Definition ranked_hits (scored : list (MemoryEntry * f64)) (limit : nat) (now : N) (query_hash : string)
    : run (list MemoryEntry) :=
  let scored := take limit (sort_scored scored) in
  let! _ := record_recalls ((fun e => (me_id e.1, e.2)) <$> scored) now query_hash in
  ret (Ok scored.*1).

Definition search_like_fallback (text : string) (limit : nat) (now : N) (query_hash : string) : run (list MemoryEntry) :=
  match search_tokens text with
  | [] => ret (Ok [])
  | tokens =>
      let!? found := query (fun s => take (limit * 3) (order_by by_access
        (List.filter (fun m => existsb (like (mem_content m)) tokens) (memories s)))) in
      ranked_hits ((fun m => (read_entry m, lexical_overlap_score text (mem_content m))) <$> found) limit now query_hash
  end.

(** The matches of the index that are memories, with their rank. *)
Definition fts_rows (fts_query : string) (s : Store) : list (MemoryRow * f64) :=
  filter_map (fun '(id, rank) => m ← memory_by_id id (memories s); Some (m, rank)) (fts_match (memories s) fts_query).

Definition fts_score (now : N) (hit : MemoryRow * f64) : MemoryEntry * f64 :=
  let '(m, rank) := hit in
  let decay_mult := if mem_evergreen m then f64_of_Z 1 else decay_multiplier now (mem_accessed_ms m) in
  (read_entry m, f64_mul (bm25_rank_to_score rank) decay_mult).

Definition search (text : string) (limit : nat) (now : N) : run (list MemoryEntry) :=
  let limit := Nat.max limit 1 in
  let hash := hash_query text in
  match build_fts_query text with
  | None => search_like_fallback text limit now hash
  | Some fts_query =>
      let!? raw_entries := query (fun s => take (limit * 3) (fts_rows fts_query s)) in
      match raw_entries with
      | [] => search_like_fallback text limit now hash
      | _ => ranked_hits (fts_score now <$> raw_entries) limit now hash
      end
  end.

Fixpoint delete_each (now : N) (entries : list MemoryEntry) : run nat :=
  match entries with
  | [] => ret (Ok 0)
  | e :: entries =>
      let!? deleted := delete_by_id (me_id e) now in
      let!? rest := delete_each now entries in
      ret (Ok ((if deleted then 1 else 0) + rest))
  end.

Definition delete_matching (text : string) (now : N) : run nat :=
  let!? matches := search text 10 now in delete_each now matches.

(** ** Semantic search *)

(** An embedding that has as many numbers as its row says. *)
Definition parse_embedding (embedding : list f32) (dimensions : nat) : option (list f32) :=
  when (Nat.eqb (List.length embedding) dimensions) embedding.

Definition semantic_score (query_text : string) (query_type : option string) (query_embedding embedding : list f32)
    (memory_type content : string) : f64 :=
  let score := cosine_similarity query_embedding embedding in
  if bool_decide (query_type = Some memory_type) then
    fl_max score (f64_add (f64_dec 95 (-2)) (f64_mul (word_overlap query_text content) (f64_dec 4 (-2))))
  else score.

(** The embedded rows joined with their memories, scored. *)
Definition semantic_hits (query_text : string) (query_type : option string) (s : Store) : list SemanticMemoryHit :=
  filter_map (fun r =>
    match row_data r with
    | EmbeddedRow memory_type model dimensions embedding =>
        if String.eqb model DEFAULT_EMBEDDING_MODEL then
          m ← memory_by_id (source_memory_id r) (memories s);
          embedding ← parse_embedding embedding dimensions;
          let score :=
            semantic_score query_text query_type (embed query_text) embedding memory_type (mem_content m) in
          when (SFleb SEMANTIC_MIN_SCORE score)
            {| hit_entry := read_entry m; hit_score := score; hit_embedding_model := model |}
        else None
    | _ => None
    end) (rows s).

(** Best score first; of two that score the same, the younger memory. *)
Definition hit_before (x y : SemanticMemoryHit) : bool :=
  if SFltb (hit_score y) (hit_score x) then true
  else if SFltb (hit_score x) (hit_score y) then false
  else (me_id (hit_entry y) <=? me_id (hit_entry x))%Z.
Fixpoint insert_hit (x : SemanticMemoryHit) (l : list SemanticMemoryHit) : list SemanticMemoryHit :=
  match l with
  | [] => [x]
  | y :: l' => if hit_before x y then x :: l else y :: insert_hit x l'
  end.
Definition sort_hits (l : list SemanticMemoryHit) : list SemanticMemoryHit := foldr insert_hit [] l.

Definition semantic_search (text : string) (limit : nat) (now : N) : run (list SemanticMemoryHit) :=
  let text := trim text in
  if is_empty text then ret (Ok [])
  else
    let!? found := query (semantic_hits (embedding_text_for_query text) (semantic_query_type text)) in
    let hits := take (Nat.max limit 1) (sort_hits found) in
    let! _ := record_recalls ((fun h => (me_id (hit_entry h), hit_score h)) <$> hits) now (hash_query text) in
    ret (Ok hits).

(** ** Pruning *)

Fixpoint chunks_fuel {A} (fuel n : nat) (l : list A) : list (list A) :=
  match fuel, l with
  | S fuel, _ :: _ => take n l :: chunks_fuel fuel n (drop n l)
  | _, _ => []
  end.
Definition chunks {A} (n : nat) (l : list A) : list (list A) := chunks_fuel (List.length l) n l.

Definition DELETE_CHUNK : nat := 900.
Definition prunable (m : MemoryRow) : bool := negb (mem_evergreen m) && negb (mem_promoted m).

Definition prune_decayed (min_decay_threshold : f64) (now : N) : run nat :=
  let!? candidates := query (fun s => List.filter prunable (memories s)) in
  let to_delete := mem_id <$> List.filter (fun m =>
    SFltb (decay_multiplier now (mem_accessed_ms m)) min_decay_threshold) candidates in
  let!? _ := each (fun chunk =>
    let!? _ := update_count (delete_memories (fun m => bool_decide (mem_id m ∈ chunk))) in ret (Ok tt))
    (chunks DELETE_CHUNK to_delete) in
  ret (Ok (List.length to_delete)).

(** A cutoff before the epoch wraps to a number SQLite does not take. *)
Definition prune_stale (max_age_days : N) (now : N) : run nat :=
  if (now <? max_age_days * 86400000)%N then ret (Err "Error: integer overflow")
  else
    let cutoff := (Z.of_N now - Z.of_N (max_age_days * 86400000))%Z in
    update_count (delete_memories (fun m => (mem_accessed_ms m <? cutoff)%Z && prunable m)).

(** The checkpoint itself leaves the tables as they are. *)
Definition prune_and_checkpoint (decay_threshold : f64) (stale_days : N) (now : N) : run (nat * nat) :=
  let!? decayed := prune_decayed decay_threshold now in
  let!? stale := prune_stale stale_days now in
  let!? _ := query (fun _ => tt) in
  ret (Ok (decayed, stale)).

End store.

(** Operations for concrete runs: everything in one bucket, an index that finds
    nothing, every day the first, and a decay that is complete at once. *)
Definition one_bucket : StrHasher := {| hash_str _ := 0%N |}.
Definition no_index : Fts := {| fts_match _ _ := [] |}.
Definition first_day : Gmtime := {| gmtime _ := None |}.
Definition steep_decay : Exp := {| fl_exp x := if SFltb x (f64_of_Z 0) then f64_of_Z 0 else f64_of_Z 1 |}.
