(* ===== verification/MemoryDream.v ===== *)
(** * Recall and consolidation over the memory store ([memory/recall.rs])

    What a question recalls from the two searches of the store, and the cycle
    that promotes what is recalled often and prunes what has decayed. *)

From S2P Require Import Prelude RustStr RustNum Sql MemoryPolicy Recall MemoryText MemoryTypes Embedding MemoryTables MemoryCanon MemoryStore.
Local Open Scope string_scope.
Local Open Scope list_scope.
Local Open Scope rust_scope.

(** [f64::ln_1p] is the platform's. *)
Class Ln1p := { fl_ln_1p : f64 -> f64 }.

Record PromotionWeights := {
  w_frequency : f64;
  w_relevance : f64;
  w_recency : f64;
  w_consolidation : f64;
  w_diversity : f64;
}.

Definition default_weights : PromotionWeights := {|
  w_frequency := f64_dec 25 (-2); w_relevance := f64_dec 30 (-2); w_recency := f64_dec 20 (-2);
  w_consolidation := f64_dec 15 (-2); w_diversity := f64_dec 10 (-2) |}.

Record PromotionCandidate := {
  pc_entry : MemoryEntry;
  pc_score : f64;
  pc_frequency : f64;
  pc_relevance : f64;
  pc_recency : f64;
  pc_consolidation : f64;
  pc_diversity : f64;
}.

Section dream.
Context `{U : Unicode} `{H : StrHasher} `{G : Gmtime} `{F : Fts} `{EX : Exp} `{LN : Ln1p}.
Variable half_life_days : f64.

(** ** Recall *)

Definition recall_with_context (text : string) (limit : nat) (context : MemoryReadContext) (now : N)
    : run (list RecallableMemory) :=
  let!? lexical := search half_life_days text limit now in
  let!? semantic := semantic_search text limit now in
  ret (Ok (recall_from lexical semantic limit context)).

(** ** Candidates *)

Definition consolidation_from_count (recall_count : Z) : f64 :=
  if (recall_count <=? 1)%Z then f64_of_Z 0
  else
    let x := f64_of_Z (recall_count - 1) in
    fl_min (f64_div (fl_ln_1p x) (fl_ln_1p (f64_of_Z 9))) (f64_of_Z 1).

Definition CHUNK : nat := 900.

(** The number of hashes of each memory of the chunk, added to the map. *)
Definition diversity_of_chunk (out : gmap Z nat) (chunk : list Z) (s : Store) : gmap Z nat :=
  foldl (fun out m => if bool_decide (mem_id m ∈ chunk) then <[mem_id m := List.length (mem_query_hashes m)]> out else out)
    out (memories s).

Fixpoint diversity_of_chunks (out : gmap Z nat) (cs : list (list Z)) : run (gmap Z nat) :=
  match cs with
  | [] => ret (Ok out)
  | chunk :: cs => let!? out := query (diversity_of_chunk out chunk) in diversity_of_chunks out cs
  end.

Definition query_diversity_for_ids (ids : list Z) : run (gmap Z nat) := diversity_of_chunks ∅ (chunks CHUNK ids).

Definition score_entry (weights : PromotionWeights) (diversity_by_id : gmap Z nat) (now : N) (entry : MemoryEntry)
    : PromotionCandidate :=
  let frequency := fl_min (f64_div (f64_of_Z (me_recall_count entry)) (f64_of_Z 10)) (f64_of_Z 1) in
  let relevance := fl_min (me_max_score entry) (f64_of_Z 1) in
  let recency := exponential_decay (age_days now (me_accessed_ms entry)) (f64_of_Z 14) in
  let consolidation := consolidation_from_count (me_recall_count entry) in
  let diversity := diversity_from_unique_queries (default 0 (diversity_by_id !! me_id entry)) in
  let score :=
    f64_add (f64_add (f64_add (f64_add (f64_mul (w_frequency weights) frequency) (f64_mul (w_relevance weights) relevance))
      (f64_mul (w_recency weights) recency)) (f64_mul (w_consolidation weights) consolidation))
      (f64_mul (w_diversity weights) diversity) in
  {| pc_entry := entry; pc_score := score; pc_frequency := frequency; pc_relevance := relevance; pc_recency := recency;
     pc_consolidation := consolidation; pc_diversity := diversity |}.

Definition score_candidates (weights : PromotionWeights) (min_recalls : Z) (now : N) : run (list PromotionCandidate) :=
  let!? entries := promotion_candidates min_recalls (f64_of_Z 0) 1000 in
  let! counted := attempt (query_diversity_for_ids (me_id <$> entries)) in
  let scored := score_entry weights (default ∅ counted) now <$> entries in
  ret (Ok (sort_scored ((fun c => (c, pc_score c)) <$> scored)).*1).

(** ** The cycle *)

(** The best [max_promotions] of the candidates, as far as they reach the score. *)
Definition winners (candidates : list PromotionCandidate) (min_score : f64) (max_promotions : nat)
    : list PromotionCandidate :=
  List.filter (fun c => SFleb min_score (pc_score c)) (take max_promotions candidates).

Definition dream_cycle (weights : PromotionWeights) (min_score : f64) (min_recalls : Z) (max_promotions : nat)
    (prune_threshold : f64) (now : N) : run (nat * nat) :=
  let!? candidates := score_candidates weights min_recalls now in
  let chosen := winners candidates min_score max_promotions in
  let!? _ :=
    match chosen with
    | [] => ret (Ok tt)
    | _ => mark_promoted_many ((fun c => me_id (pc_entry c)) <$> chosen) now
    end in
  let!? pruned := prune_decayed half_life_days prune_threshold now in
  ret (Ok (List.length chosen, pruned)).

End dream.
