(* ===== verification/MemorySync.v ===== *)
(** * What holds of the memory store ([memory/mod.rs], [memory/structured.rs])

    Whatever statement fails, a row of a table was read from a sentence that the
    policy classifies as it is stored; and while no statement fails, the tables
    of the facts are what a rebuild from the memories would make of them, but
    for pruning, which leaves the rows of what it deletes. *)

From S2P Require Import Prelude RustStr RustNum Recall Sql MemoryPolicy MemoryText MemoryTypes MemoryExtract Embedding MemoryTables MemoryCanon MemoryStore.
Local Open Scope string_scope.
Local Open Scope list_scope.
Local Open Scope rust_scope.

Section sync.
Context `{U : Unicode} `{H : StrHasher} `{G : Gmtime} `{F : Fts} `{EX : Exp}.

(** ** The invariant under failures *)

Definition classified (m : MemoryRow) : Prop := row_metadata m = infer_metadata (mem_kind m) (mem_content m).

(** The row is what its table keeps of some sentence, under the policy inferred
    for that sentence. *)
Definition read_from_text (r : Row) : Prop :=
  exists kind content, row_data r ∈ projected (table_of (row_data r)) kind content (infer_metadata kind content).

(** What the tracking of recalls keeps: a bounded number of different queries, no
    more of them than recalls. *)
Definition tracked (hashes : list string) (recalls : Z) : Prop :=
  length hashes <= MAX_QUERY_HASHES /\ NoDup hashes /\ (Z.of_nat (length hashes) <= recalls)%Z.
Definition sound_memory (m : MemoryRow) : Prop := classified m /\ tracked (mem_query_hashes m) (mem_recall_count m).
Definition sound_memories (ms : list MemoryRow) : Prop := Forall sound_memory ms /\ NoDup (mem_id <$> ms).

Definition policed (s : Store) : Prop := sound_memories (memories s) /\ Forall read_from_text (rows s).

Lemma metadata_columns id kind content metadata evergreen now :
  row_metadata (new_memory id kind content metadata evergreen now) = metadata.
Proof. destruct metadata as [[] [] []]; reflexivity. Qed.

Lemma metadata_set kind content metadata m : row_metadata (set_fact kind content metadata m) = metadata.
Proof. destruct metadata as [[] [] []]; reflexivity. Qed.

(** *** Memories by their id *)

Lemma memory_by_id_some id ms m : memory_by_id id ms = Some m -> m ∈ ms /\ mem_id m = id.
Proof. intros [Hin Hid%Z.eqb_eq]%List.find_some. by split; [apply list_elem_of_In|]. Qed.

Lemma memory_by_id_none id ms : memory_by_id id ms = None <-> id ∉ mem_id <$> ms.
Proof.
  unfold memory_by_id. induction ms as [|m ms IH]; cbn; [set_solver|].
  destruct (Z.eqb_spec (mem_id m) id) as [->|]; [set_solver|]. rewrite IH, not_elem_of_cons. naive_solver.
Qed.

Lemma memory_by_id_elem ms m : NoDup (mem_id <$> ms) -> m ∈ ms -> memory_by_id (mem_id m) ms = Some m.
Proof.
  unfold memory_by_id. induction ms as [|m' ms IH]; cbn; [set_solver|]. intros [Hm' Hn]%NoDup_cons.
  intros [->|Hm]%elem_of_cons; [by rewrite Z.eqb_refl|]. destruct (Z.eqb_spec (mem_id m') (mem_id m)) as [He|]; [|auto].
  destruct Hm'. apply list_elem_of_fmap. by exists m.
Qed.

Lemma memory_by_id_snoc id ms m :
  memory_by_id id (ms ++ [m]) =
  match memory_by_id id ms with Some m' => Some m' | None => if Z.eqb (mem_id m) id then Some m else None end.
Proof. unfold memory_by_id. induction ms as [|m' ms IH]; cbn; [done|]. by destruct (Z.eqb (mem_id m') id). Qed.

Lemma memory_by_id_fmap id g ms :
  (forall m, mem_id (g m) = mem_id m) -> memory_by_id id (g <$> ms) = g <$> memory_by_id id ms.
Proof.
  intros Hg. unfold memory_by_id. induction ms as [|m ms IH]; cbn; [done|]. rewrite Hg.
  by destruct (Z.eqb (mem_id m) id).
Qed.

Lemma memory_by_id_kept id p ms :
  (forall m, mem_id m = id -> p m = true) -> memory_by_id id (List.filter p ms) = memory_by_id id ms.
Proof.
  intros Hp. unfold memory_by_id. induction ms as [|m ms IH]; cbn; [done|]. destruct (p m) eqn:E; cbn.
  - by rewrite IH.
  - rewrite IH. destruct (Z.eqb_spec (mem_id m) id) as [He|]; [|done]. apply Hp in He. congruence.
Qed.

Lemma NoDup_kept {A} (f : A -> Z) p l : NoDup (f <$> l) -> NoDup (f <$> List.filter p l).
Proof.
  induction l as [|x l IH]; cbn; [done|]. intros [Hx Hn]%NoDup_cons. destruct (p x); [|auto]. cbn.
  apply NoDup_cons. split; [|auto]. contradict Hx. apply list_elem_of_fmap in Hx as (y & -> & Hy).
  apply list_elem_of_fmap. exists y. split; [done|]. apply list_elem_of_In, filter_In in Hy as [Hy _].
  by apply list_elem_of_In.
Qed.

Lemma NoDup_updated id f s :
  (forall m, mem_id (f m) = mem_id m) -> NoDup (mem_id <$> memories s) ->
  NoDup (mem_id <$> memories (update_memory id f s).2).
Proof.
  intros Hf Hn. cbn. rewrite <- list_fmap_compose. erewrite list_fmap_ext; [exact Hn|].
  intros i m _. cbn. by destruct (Z.eqb _ _).
Qed.

Lemma NoDup_inserted ms m :
  mem_id m = next_rowid (mem_id <$> ms) -> NoDup (mem_id <$> ms) -> NoDup (mem_id <$> ms ++ [m]).
Proof.
  intros Hid Hn. rewrite fmap_app. apply NoDup_app. split_and!; [done| |apply NoDup_singleton].
  intros x Hx Hx'%list_elem_of_singleton. subst x. apply (next_rowid_unused (mem_id <$> ms)). by rewrite <- Hid.
Qed.

(** *** Steps *)

Lemma keeps_each {A} (P : Store -> Prop) (f : A -> run unit) l : (forall x, x ∈ l -> keeps P (f x)) -> keeps P (each f l).
Proof.
  induction l as [|x l IH]; intros Hf; cbn; [apply holds_ret|]. apply keeps_ebind; [apply Hf; by left|].
  intros _. apply IH. intros y Hy. apply Hf. by right.
Qed.

Lemma keeps_query_bind {A B} (P : Store -> Prop) (f : Store -> A) (g : A -> run B) :
  (forall s, P s -> keeps P (g (f s))) -> keeps P (ebind (query f) g).
Proof.
  intros Hg c Hc. unfold ebind. destruct (query f c) as [r c'] eqn:E. apply statement_fate in E as [[Ht [e ->]]|(a & t & Hs & -> & Ht)].
  - cbn. by rewrite Ht.
  - injection Hs as <- <-. apply Hg; congruence.
Qed.

Lemma keeps_attempt {A B} (P : Store -> Prop) (m : run A) (g : option A -> run B) :
  keeps P m -> (forall a, keeps P (g a)) -> keeps P (bind (attempt m) g).
Proof.
  intros Hm Hg c Hc. unfold bind, attempt. specialize (Hm c Hc). destruct (m c) as [[a|e] c']; by apply Hg.
Qed.

Lemma keeps_if {A} (P : Store -> Prop) (b : bool) (m n : run A) : keeps P m -> keeps P n -> keeps P (if b then m else n).
Proof. by destruct b. Qed.

(** A property of the memories and the rows is kept by what touches neither. *)
Definition tables_only (P : Store -> Prop) : Prop := forall s k, P s -> P (with_canon k s).

Lemma keeps_canon_update P f : tables_only P -> keeps P (update (on_canon f)).
Proof. intros Ht. apply keeps_update. intros s Hs. by apply Ht. Qed.

Lemma keeps_event P e : tables_only P -> keeps P (record_canonical_event e).
Proof. apply keeps_canon_update. Qed.

Lemma keeps_daily P now kind content : tables_only P -> keeps P (append_daily_note now kind content).
Proof.
  intros Ht. apply keeps_attempt; [apply keeps_query|intros a]. cbv zeta. apply keeps_if; [apply holds_ret|].
  by apply keeps_canon_update.
Qed.

Lemma keeps_export P : tables_only P -> keeps P rebuild_root_memory_file.
Proof.
  intros Ht. apply keeps_ebind; [apply keeps_query|intros [|m records]].
  - repeat (apply keeps_attempt; [by apply keeps_canon_update|intros _]). apply holds_ret.
  - apply keeps_ebind; [|intros _].
    + repeat (apply keeps_ebind; [|intros _]); try apply keeps_query. apply keeps_each. intros. apply keeps_query.
    + repeat (apply keeps_ebind; [|intros _]); by apply keeps_canon_update.
Qed.

(** *** The projections *)

Lemma policed_tables_only : tables_only policed.
Proof. by intros s k [Hm Hr]. Qed.

Lemma Forall_keep {A} (P : A -> Prop) p l : Forall P l -> Forall P (List.filter p l).
Proof. induction 1 as [|x l Hx _ IH]; cbn; [done|]. destruct (p x); [by constructor|done]. Qed.

Lemma policed_rows_sub s rs : policed s -> Forall read_from_text rs -> policed (with_rows rs s).
Proof. by intros [Hm _] Hr. Qed.

Lemma keeps_insert_rows id updated ps kind content :
  (forall p, p ∈ ps -> p ∈ projected (table_of p) kind content (infer_metadata kind content)) ->
  keeps policed (insert_rows id updated ps).
Proof.
  induction ps as [|p ps IH]; intros Hps; cbn; [apply holds_ret|].
  apply keeps_ebind; [|intros _; apply IH; set_solver].
  apply keeps_update. intros s [Hm Hr]. split; [done|]. apply Forall_app. split; [done|]. constructor; [|done].
  exists kind, content. apply Hps. by left.
Qed.

Lemma keeps_upsert t id kind content metadata updated :
  metadata = infer_metadata kind content -> keeps policed (upsert_table t id kind content metadata updated).
Proof.
  intros ->. apply keeps_ebind; [|intros _].
  { apply keeps_update. intros s [Hm Hr]. split; [done|]. by apply Forall_keep. }
  apply keeps_ebind; [|intros _].
  - apply (keeps_insert_rows _ _ _ kind content). intros p Hp.
    pose proof (projected_in_table t kind content (infer_metadata kind content)) as Ht.
    rewrite Forall_forall in Ht. by rewrite (Ht p Hp).
  - destruct (decide _); [|apply holds_ret]. unfold warn_if_device_alias_conflict.
    repeat case_match; try apply holds_ret. apply keeps_ebind; [apply keeps_query|intros _; apply holds_ret].
Qed.

Lemma keeps_upsert_all id kind content metadata updated :
  metadata = infer_metadata kind content -> keeps policed (upsert_all id kind content metadata updated).
Proof.
  intros Hmd c Hc. rewrite upsert_all_each. revert c Hc. apply keeps_each. intros t _. by apply keeps_upsert.
Qed.

Lemma keeps_delete_rows t id : keeps policed (update (delete_rows t id)).
Proof. apply keeps_update. intros s [Hm Hr]. split; [done|]. by apply Forall_keep. Qed.

Lemma keeps_rebuild_table t now : keeps policed (rebuild_table t now).
Proof.
  apply keeps_ebind; [|intros _].
  { apply keeps_update. intros s [Hm Hr]. split; [done|]. by apply Forall_keep. }
  apply keeps_query_bind. intros s [Hm Hr]. apply keeps_each. intros m Hin. apply keeps_upsert.
  destruct Hm as [Hm _]. rewrite Forall_forall in Hm. apply Hm. by rewrite order_by_perm in Hin.
Qed.

Lemma keeps_rebuild now : keeps policed (rebuild_projections now).
Proof.
  intros c Hc. unfold rebuild_projections, ebind. destruct (query derivation_version c) as [r c'] eqn:E.
  assert (policed (tables c')) as Hc'.
  { pose proof (keeps_query policed derivation_version c Hc) as Hk. by rewrite E in Hk. }
  clear E. destruct r as [v|e]; cbn; destruct (bool_decide _); try done; revert c' Hc'; apply keeps_transaction;
    (repeat (apply keeps_ebind; [apply keeps_rebuild_table|intros _]); by apply keeps_update).
Qed.

(** *** The memories *)

Lemma keeps_memories (f : Store -> list MemoryRow) {A} (g : Store -> A) :
  (forall s, sound_memories (memories s) -> sound_memories (f s)) ->
  keeps policed (update_count (fun s => (g s, with_memories (f s) s))).
Proof. intros Hf. apply keeps_update_count. intros s [Hm Hr]. split; cbn; auto. Qed.

Lemma keeps_update_memory id f :
  (forall m, mem_id (f m) = mem_id m) -> (forall m, sound_memory m -> sound_memory (f m)) ->
  keeps policed (update_count (update_memory id f)).
Proof.
  intros Hid Hf. apply keeps_memories. intros s [Hm Hn]. split; [|by apply (NoDup_updated id f)].
  apply Forall_fmap. eapply Forall_impl; [exact Hm|]. intros m ?. cbn. destruct (Z.eqb _ _); auto.
Qed.

Lemma keeps_delete_memories p : keeps policed (update_count (delete_memories p)).
Proof. apply keeps_memories. intros s [Hm Hn]. split; [by apply Forall_keep|by apply NoDup_kept]. Qed.

Lemma keeps_store_with_metadata kind content metadata evergreen now :
  metadata = infer_metadata kind content -> keeps policed (store_with_metadata kind content metadata evergreen now).
Proof.
  intros Hmd. apply keeps_ebind; [|intros id].
  - apply (keeps_memories (fun s => memories s ++ [new_memory _ _ _ _ _ _]) (fun s => next_rowid (mem_id <$> memories s))).
    intros s [Hm Hn]. split.
    + apply Forall_app. split; [done|]. constructor; [|done]. split; [unfold classified; by rewrite metadata_columns|].
      split_and!; cbn; [unfold MAX_QUERY_HASHES; lia|constructor|lia].
    + by apply NoDup_inserted.
  - apply keeps_ebind; [by apply keeps_upsert_all|intros _; apply holds_ret].
Qed.

Lemma keeps_logged P e now kind content {A} (r : result A string) :
  tables_only P ->
  keeps P (let!? _ := record_canonical_event e in let!? _ := append_daily_note now kind content in ret r).
Proof.
  intros Ht. apply keeps_ebind; [by apply keeps_event|intros _]. apply keeps_ebind; [by apply keeps_daily|intros _].
  apply holds_ret.
Qed.

Lemma keeps_store_as evergreen action detail kind content now :
  keeps policed (store_as evergreen action detail kind content now).
Proof.
  apply keeps_ebind; [by apply keeps_store_with_metadata|intros id]. by apply keeps_logged, policed_tables_only.
Qed.

Lemma keeps_delete_by_id id now : keeps policed (delete_by_id id now).
Proof.
  apply keeps_ebind; [apply keeps_query|intros existing]. apply keeps_ebind; [apply keeps_delete_memories|].
  intros [|n]; [apply holds_ret|]. destruct existing as [e|]; [|apply holds_ret].
  apply keeps_ebind; [|intros _].
  { do 2 (apply keeps_ebind; [apply keeps_delete_rows|intros _]). apply keeps_each. intros. apply keeps_delete_rows. }
  apply keeps_ebind; [apply keeps_if; [by apply keeps_export, policed_tables_only|apply holds_ret]|intros _].
  by apply keeps_logged, policed_tables_only.
Qed.

Lemma keeps_replace_slot slot content now entries : keeps policed (replace_slot slot content now entries).
Proof.
  induction entries as [|e entries IH]; cbn; [apply holds_ret|]. apply keeps_if; [|done].
  apply keeps_ebind; [apply keeps_delete_by_id|intros d]. apply keeps_ebind; [done|intros n; apply holds_ret].
Qed.

Lemma keeps_store_resolved kind content now : keeps policed (store_resolved kind content now).
Proof.
  apply keeps_ebind.
  { unfold has_exact, has_similar. repeat case_match; try apply keeps_query. apply holds_ret. }
  intros [|]; [apply holds_ret|]. apply keeps_ebind; [|intros n].
  - case_match; [|apply holds_ret]. apply keeps_ebind; [apply keeps_query|intros entries; apply keeps_replace_slot].
  - apply keeps_ebind; [apply keeps_store_as|intros id; apply holds_ret].
Qed.

Lemma keeps_update_managed id content kind now : keeps policed (update_managed id content kind now).
Proof.
  apply keeps_ebind; [apply keeps_query|intros [e|]]; [|apply holds_ret]. cbv zeta.
  apply keeps_if; [apply holds_ret|]. destruct (next_kind_of _ _) as [k|]; [|apply holds_ret].
  apply keeps_if; [apply holds_ret|]. apply keeps_if; [apply holds_ret|]. unfold apply_update.
  apply keeps_ebind; [apply keeps_update_memory; [done|]|].
  { intros m [_ Ht]. split; [|done]. unfold classified. by rewrite metadata_set. }
  intros [|n]; [apply holds_ret|]. apply keeps_ebind; [by apply keeps_upsert_all|intros _].
  apply keeps_ebind; [apply keeps_if; [by apply keeps_export, policed_tables_only|apply holds_ret]|intros _].
  by apply keeps_logged, policed_tables_only.
Qed.

Lemma keeps_counted id f {A} (a : A) :
  (forall m, mem_id (f m) = mem_id m) -> (forall m, sound_memory m -> sound_memory (f m)) ->
  keeps policed (let!? _ := update_count (update_memory id f) in ret (Ok a)).
Proof. intros Hid Hf. apply keeps_ebind; [by apply keeps_update_memory|intros _; apply holds_ret]. Qed.

Lemma keeps_reorder ids : keeps policed (reorder_managed ids).
Proof.
  apply keeps_ebind; [|intros _; by apply keeps_export, policed_tables_only].
  apply keeps_transaction, keeps_each. intros [i id] _. by apply keeps_counted.
Qed.

Lemma keeps_promote ids now : keeps policed (mark_promoted_many ids now).
Proof.
  apply keeps_ebind.
  - induction ids as [|id ids IH]; cbn; [apply holds_ret|]. apply keeps_ebind; [by apply keeps_update_memory|intros _].
    apply keeps_ebind; [apply keeps_query|intros found]. apply keeps_ebind; [done|intros events; apply holds_ret].
  - intros [|e events]; [apply holds_ret|].
    apply keeps_ebind; [by apply keeps_export, policed_tables_only|intros _].
    apply keeps_each. intros e' _. by apply keeps_event, policed_tables_only.
Qed.

(** *** Recall *)

Lemma push_hash_tracked hash hashes recalls :
  tracked hashes recalls -> tracked (push_hash hash hashes) (recalls + 1).
Proof.
  intros (Hl & Hn & Hc). unfold push_hash. destruct (existsb _ _) eqn:E; [split_and!; [done|done|lia]|].
  assert (hash ∉ hashes) as Hnew.
  { intros Hin%list_elem_of_In. assert (existsb (String.eqb hash) hashes = true) as E'
      by (apply existsb_exists; exists hash; by rewrite String.eqb_refl). congruence. }
  assert (NoDup (hashes ++ [hash])) as Hn'.
  { apply NoDup_app. split_and!; [done| |apply NoDup_singleton]. intros x Hx Hin. apply list_elem_of_singleton in Hin. by subst x. }
  unfold last_n. split_and!.
  - rewrite length_drop, length_app. cbn. lia.
  - eapply sublist_NoDup; [exact Hn'|]. apply sublist_drop.
  - rewrite length_drop, length_app. cbn. lia.
Qed.

Lemma keeps_recall now hash recall : keeps policed (update_recall_tracking now hash recall).
Proof.
  destruct recall as [id score]. intros c Hc. unfold update_recall_tracking, bind.
  destruct (attempt (query_hashes id) c) as [found c'] eqn:E.
  assert (policed (tables c') /\ forall m, m ∈ memories (tables c') -> mem_id m = id ->
            tracked (default [] found) (mem_recall_count m)) as [Hc' Hfound].
  { revert E. unfold attempt. destruct (query_hashes id c) as [r c1] eqn:Eq. apply statement_fate in Eq.
    destruct Eq as [[Ht [e ->]]|(hashes & t & Hs & -> & Ht)]; intros [= <- <-]; rewrite Ht.
    - split; [done|]. intros m Hm _. destruct Hc as [[Hms _] _]. rewrite Forall_forall in Hms.
      destruct (Hms m Hm) as (_ & Hl & _ & Hr). split_and!; cbn; [unfold MAX_QUERY_HASHES; lia|constructor|lia].
    - destruct (memory_by_id id (memories (tables c))) as [m|] eqn:Em; [|done]. injection Hs as <- <-. split; [done|].
      intros m' Hm' <-. destruct Hc as [[Hms Hn] _]. rewrite (memory_by_id_elem _ _ Hn Hm') in Em. injection Em as <-.
      rewrite Forall_forall in Hms. by destruct (Hms m' Hm'). }
  clear E. revert c' Hc' Hfound. intros c' Hc' Hfound. unfold ebind.
  destruct (update_count _ c') as [r c2] eqn:E. apply statement_fate in E.
  assert (policed (tables c2)) as Hc2; [|by destruct r].
  destruct E as [[-> _]|(a & t & Hs & -> & ->)]; [done|]. injection Hs as <- <-. destruct Hc' as [[Hms Hn] Hr].
  split; [|done]. split; [|by apply NoDup_updated]. apply Forall_fmap, Forall_forall. intros m Hm. cbn.
  rewrite Forall_forall in Hms. destruct (Z.eqb_spec (mem_id m) id) as [Hid|]; [|by apply Hms].
  split; [exact (proj1 (Hms m Hm))|]. cbn. by apply push_hash_tracked, Hfound.
Qed.

Lemma keeps_recorded {A} recalls now hash (g : run A) :
  keeps policed g -> keeps policed (bind (record_recalls recalls now hash) (fun _ => g)).
Proof.
  intros Hg c Hc. unfold bind. assert (policed (tables (record_recalls recalls now hash c).2)) as Hc'.
  { destruct recalls as [|recall recalls]; [done|]. unfold record_recalls, bind.
    pose proof (keeps_transaction policed _
      (keeps_each policed (update_recall_tracking now hash) (recall :: recalls) (fun x _ => keeps_recall now hash x)) c Hc) as Ht.
    by destruct (transaction _ c). }
  destruct (record_recalls recalls now hash c) as [[] c']. by apply Hg.
Qed.

Variable half_life_days : f64.

Lemma keeps_ranked scored limit now hash : keeps policed (ranked_hits scored limit now hash).
Proof. apply keeps_recorded, holds_ret. Qed.

Lemma keeps_fallback text limit now hash : keeps policed (search_like_fallback text limit now hash).
Proof.
  unfold search_like_fallback. case_match; [apply holds_ret|].
  apply keeps_ebind; [apply keeps_query|intros found; apply keeps_ranked].
Qed.

Lemma keeps_search text limit now : keeps policed (search half_life_days text limit now).
Proof.
  unfold search. case_match; [|apply keeps_fallback].
  apply keeps_ebind; [apply keeps_query|intros [|raw entries]; [apply keeps_fallback|apply keeps_ranked]].
Qed.

Lemma keeps_semantic_search text limit now : keeps policed (semantic_search text limit now).
Proof.
  apply keeps_if; [apply holds_ret|].
  apply keeps_ebind; [apply keeps_query|intros found; apply keeps_recorded, holds_ret].
Qed.

Lemma keeps_delete_matching text now : keeps policed (delete_matching half_life_days text now).
Proof.
  apply keeps_ebind; [apply keeps_search|intros entries].
  induction entries as [|e entries IH]; cbn; [apply holds_ret|]. apply keeps_ebind; [apply keeps_delete_by_id|intros d].
  apply keeps_ebind; [done|intros n; apply holds_ret].
Qed.

Lemma keeps_prune_decayed threshold now : keeps policed (prune_decayed half_life_days threshold now).
Proof.
  apply keeps_ebind; [apply keeps_query|intros candidates]. apply keeps_ebind; [|intros _; apply holds_ret].
  apply keeps_each. intros chunk _. apply keeps_ebind; [apply keeps_delete_memories|intros _; apply holds_ret].
Qed.

Lemma keeps_prune_stale days now : keeps policed (prune_stale days now).
Proof. apply keeps_if; [apply holds_ret|apply keeps_delete_memories]. Qed.

Lemma keeps_prune_and_checkpoint threshold days now :
  keeps policed (prune_and_checkpoint half_life_days threshold days now).
Proof.
  apply keeps_ebind; [apply keeps_prune_decayed|intros d]. apply keeps_ebind; [apply keeps_prune_stale|intros n].
  apply keeps_ebind; [apply keeps_query|intros _; apply holds_ret].
Qed.

(** *** Histories *)

(** What the runtime asks of the store. *)
Inductive operation :=
| Open
| Store_ (kind content : string)
| StoreEvergreen (kind content : string)
| StoreResolved (kind content : string)
| Delete (id : Z)
| DeleteMatching (text : string)
| UpdateManaged (id : Z) (content : string) (kind : option string)
| Reorder (ids : list Z)
| Promote (ids : list Z)
| SearchFor (text : string) (limit : nat)
| SearchLike (text : string) (limit : nat)
| Prune (threshold : f64) (stale_days : N).

Definition perform (now : N) (op : operation) : run unit :=
  let done {A} (m : run A) : run unit := let!? _ := m in ret (Ok tt) in
  match op with
  | Open => rebuild_projections now
  | Store_ kind content => done (store kind content now)
  | StoreEvergreen kind content => done (store_evergreen kind content now)
  | StoreResolved kind content => done (store_resolved kind content now)
  | Delete id => done (delete_by_id id now)
  | DeleteMatching text => done (delete_matching half_life_days text now)
  | UpdateManaged id content kind => done (update_managed id content kind now)
  | Reorder ids => reorder_managed ids
  | Promote ids => mark_promoted_many ids now
  | SearchFor text limit => done (search half_life_days text limit now)
  | SearchLike text limit => done (semantic_search text limit now)
  | Prune threshold stale_days => done (prune_and_checkpoint half_life_days threshold stale_days now)
  end.

(** A caller goes on after an operation that failed. *)
Fixpoint history (ops : list (N * operation)) (c : Conn Store) : Conn Store :=
  match ops with
  | [] => c
  | (now, op) :: ops => history ops (perform now op c).2
  end.

Lemma keeps_perform now op : keeps policed (perform now op).
Proof.
  destruct op; cbn; try (apply keeps_ebind; [|intros _; apply holds_ret]).
  - apply keeps_rebuild.
  - apply keeps_store_as.
  - apply keeps_store_as.
  - apply keeps_store_resolved.
  - apply keeps_delete_by_id.
  - apply keeps_delete_matching.
  - apply keeps_update_managed.
  - apply keeps_reorder.
  - apply keeps_promote.
  - apply keeps_search.
  - apply keeps_semantic_search.
  - apply keeps_prune_and_checkpoint.
Qed.

Lemma keeps_history ops c : policed (tables c) -> policed (tables (history ops c)).
Proof. revert c. induction ops as [|[now op] ops IH]; intros c Hc; cbn; [done|]. by apply IH, keeps_perform. Qed.

(** ** The tables and the memories, while nothing fails *)

Definition derived (t : Table) (m : MemoryRow) : list Projection :=
  projected t (mem_kind m) (mem_content m) (row_metadata m).
Definition rows_match (s : Store) : Prop :=
  forall t id, rows_of t id s = match memory_by_id id (memories s) with Some m => derived t m | None => [] end.
Definition in_sync (s : Store) : Prop := NoDup (mem_id <$> memories s) /\ rows_match s.

Lemma in_sync_tables_only : tables_only in_sync.
Proof. by intros s k [Hn Hr]. Qed.

(** *** Steps *)

Definition settles {A} (m : run A) : Prop :=
  forall c, quiet c -> in_sync (tables c) -> quiet (m c).2 /\ in_sync (tables (m c).2).

Lemma settles_ret {A} (r : result A string) : settles (ret r).
Proof. by intros c Hq Hs. Qed.

Lemma settles_ebind {A B} (m : run A) (f : A -> run B) : settles m -> (forall a, settles (f a)) -> settles (ebind m f).
Proof.
  intros Hm Hf c Hq Hs. unfold ebind. destruct (Hm c Hq Hs) as [Hq' Hs']. destruct (m c) as [[a|e] c']; [by apply Hf|done].
Qed.

Lemma settles_query {A} (f : Store -> A) : settles (query f).
Proof. intros c Hq Hs. by rewrite query_quiet. Qed.

Lemma settles_query_bind {A B} (f : Store -> A) (g : A -> run B) :
  (forall c, quiet c -> in_sync (tables c) ->
     quiet (g (f (tables c)) c).2 /\ in_sync (tables (g (f (tables c)) c).2)) ->
  settles (ebind (query f) g).
Proof. intros Hg c Hq Hs. unfold ebind. rewrite query_quiet by done. by apply Hg. Qed.

Lemma settles_canon f : settles (update (on_canon f)).
Proof. intros c Hq Hs. rewrite update_quiet by done. split; [done|]. by apply in_sync_tables_only. Qed.

Lemma settles_if {A} (b : bool) (m n : run A) : settles m -> settles n -> settles (if b then m else n).
Proof. by destruct b. Qed.

Lemma settles_each {A} (f : A -> run unit) l : (forall x, settles (f x)) -> settles (each f l).
Proof.
  intros Hf. induction l as [|x l IH]; cbn; [apply settles_ret|]. by apply settles_ebind; [apply Hf|intros _].
Qed.

Lemma settles_attempt {A B} (m : run A) (g : option A -> run B) :
  settles m -> (forall a, settles (g a)) -> settles (bind (attempt m) g).
Proof.
  intros Hm Hg c Hq Hs. unfold bind, attempt. destruct (Hm c Hq Hs) as [Hq' Hs'].
  destruct (m c) as [[a|e] c']; by apply Hg.
Qed.

Lemma settles_transaction {A} (m : run A) : settles m -> settles (transaction m).
Proof.
  intros Hm c Hq Hs. unfold transaction.
  assert (settles (begin_commit m)) as Hb.
  { apply settles_ebind; [apply settles_query|intros _]. apply settles_ebind; [done|intros a].
    apply settles_ebind; [apply settles_query|intros _; apply settles_ret]. }
  destruct (Hb c Hq Hs) as [Hq' Hs']. by destruct (begin_commit m c) as [[a|e] c'].
Qed.

Lemma settles_daily now kind content : settles (append_daily_note now kind content).
Proof.
  apply settles_attempt; [apply settles_query|intros a]. cbv zeta. apply settles_if; [apply settles_ret|apply settles_canon].
Qed.

Lemma settles_export : settles rebuild_root_memory_file.
Proof.
  apply settles_ebind; [apply settles_query|intros [|m records]].
  - repeat (apply settles_attempt; [apply settles_canon|intros _]). apply settles_ret.
  - apply settles_ebind; [|intros _].
    + repeat (apply settles_ebind; [|intros _]); try apply settles_query. apply settles_each. intros. apply settles_query.
    + repeat (apply settles_ebind; [|intros _]); apply settles_canon.
Qed.

Lemma settles_logged e now kind content {A} (r : result A string) :
  settles (let!? _ := record_canonical_event e in let!? _ := append_daily_note now kind content in ret r).
Proof.
  apply settles_ebind; [apply settles_canon|intros _]. apply settles_ebind; [apply settles_daily|intros _; apply settles_ret].
Qed.

(** *** A memory that changes, and its rows *)

Definition match_except (id : Z) (s : Store) : Prop :=
  forall t id', id' <> id ->
    rows_of t id' s = match memory_by_id id' (memories s) with Some m => derived t m | None => [] end.

Lemma rows_match_replace id m kind content metadata now s :
  match_except id s -> memory_by_id id (memories s) = Some m ->
  mem_kind m = kind -> mem_content m = content -> row_metadata m = metadata ->
  rows_match (replace_all id kind content metadata now s).
Proof.
  intros He Hm <- <- <- t id'. rewrite rows_of_replace_all.
  destruct (replace_all_same id (mem_kind m) (mem_content m) (row_metadata m) now s) as (-> & _).
  destruct (decide (id' = id)) as [->|Hne]; [by rewrite Hm|by apply He].
Qed.

Lemma rows_match_delete id s :
  match_except id s -> memory_by_id id (memories s) = None -> rows_match (delete_all id s).
Proof.
  intros He Hm t id'. rewrite rows_of_delete_all. destruct (delete_all_same id s) as (-> & _).
  destruct (decide (id' = id)) as [->|Hne]; [by rewrite Hm|by apply He].
Qed.

Lemma insert_excepts s id m :
  rows_match s -> mem_id m = id -> match_except id (with_memories (memories s ++ [m]) s).
Proof.
  intros Hr <- t id' Hne. change (rows_of t id' (with_memories _ s)) with (rows_of t id' s). rewrite Hr.
  cbn [with_memories memories]. rewrite memory_by_id_snoc. destruct (memory_by_id id' (memories s)); [done|].
  by rewrite (proj2 (Z.eqb_neq (mem_id m) id')).
Qed.

Lemma update_excepts id f s :
  (forall m, mem_id (f m) = mem_id m) -> rows_match s -> match_except id (update_memory id f s).2.
Proof.
  intros Hf Hr t id' Hne. change (rows_of t id' (update_memory id f s).2) with (rows_of t id' s). rewrite Hr.
  cbn [update_memory snd with_memories memories]. rewrite memory_by_id_fmap by (intros m; by destruct (Z.eqb _ _)).
  destruct (memory_by_id id' (memories s)) as [m|] eqn:E; [|done]. cbn. apply memory_by_id_some in E as [_ <-].
  by rewrite (proj2 (Z.eqb_neq _ _) Hne).
Qed.

Lemma delete_excepts id s :
  rows_match s -> match_except id (delete_memories (fun m => Z.eqb (mem_id m) id) s).2.
Proof.
  intros Hr t id' Hne. change (rows_of t id' (delete_memories _ s).2) with (rows_of t id' s). rewrite Hr.
  cbn [delete_memories snd with_memories memories]. rewrite memory_by_id_kept; [done|]. intros m <-. by rewrite (proj2 (Z.eqb_neq _ _) Hne).
Qed.

(** *** The operations *)

Lemma settles_store_with_metadata kind content metadata evergreen now :
  settles (store_with_metadata kind content metadata evergreen now).
Proof.
  intros c Hq [Hn Hr]. unfold store_with_metadata, ebind. rewrite update_count_quiet by done. cbn.
  rewrite upsert_all_quiet by done. split; [done|].
  set (id := next_rowid (mem_id <$> memories (tables c))). set (m := new_memory id kind content metadata evergreen now).
  pose proof (next_rowid_unused (mem_id <$> memories (tables c))) as Hid. fold id in Hid. split.
  - destruct (replace_all_same id kind content metadata now (with_memories (memories (tables c) ++ [m]) (tables c)))
      as (Hms & _).
    cbn [fst snd set_tables tables ret]. rewrite Hms. by apply NoDup_inserted.
  - apply (rows_match_replace _ m); try done; [by apply insert_excepts| |apply metadata_columns].
    cbn [set_tables tables with_memories memories]. rewrite memory_by_id_snoc, (proj2 (memory_by_id_none _ _) Hid). cbn [mem_id m].
    by rewrite Z.eqb_refl.
Qed.

Lemma settles_store_as evergreen action detail kind content now :
  settles (store_as evergreen action detail kind content now).
Proof. apply settles_ebind; [apply settles_store_with_metadata|intros id; apply settles_logged]. Qed.

(** A change of a memory that leaves the projected columns as they are. *)
Definition keeps_facts (f : MemoryRow -> MemoryRow) : Prop :=
  forall m, mem_id (f m) = mem_id m /\ forall t, derived t (f m) = derived t m.

Lemma settles_update_memory id f : keeps_facts f -> settles (update_count (update_memory id f)).
Proof.
  intros Hf c Hq [Hn Hr]. rewrite update_count_quiet by done. split; [done|]. split.
  - apply NoDup_updated; [apply Hf|done].
  - intros t id'. change (rows_of t id' _) with (rows_of t id' (tables c)). rewrite Hr.
    cbn [snd set_tables tables update_memory with_memories memories]. rewrite memory_by_id_fmap by (intros m; destruct (Z.eqb _ _); [apply Hf|done]).
    destruct (memory_by_id id' (memories (tables c))) as [m|]; [|done]. cbn. destruct (Z.eqb _ _); [|done].
    symmetry. apply Hf.
Qed.

Lemma settles_counted id f {A} (a : A) :
  keeps_facts f -> settles (let!? _ := update_count (update_memory id f) in ret (Ok a)).
Proof. intros Hf. apply settles_ebind; [by apply settles_update_memory|intros _; apply settles_ret]. Qed.

Lemma ebind_step {A B} (m : run A) (f : A -> run B) c a c' : m c = (Ok a, c') -> ebind m f c = f a c'.
Proof. intros Hm. unfold ebind. by rewrite Hm. Qed.

Lemma delete_projections_quiet id c :
  quiet c -> delete_projections id c = (Ok tt, set_tables (delete_all id (tables c)) c).
Proof.
  intros Hq. unfold delete_projections, ebind. rewrite !update_quiet by done. unfold delete_structured_household_rows.
  by rewrite (each_quiet _ (fun t s => delete_rows t id s)) by (done || intros; by apply update_quiet).
Qed.

Lemma in_sync_deleted id s : in_sync s -> in_sync (delete_all id (delete_memories (fun m => Z.eqb (mem_id m) id) s).2).
Proof.
  intros [Hn Hr]. split.
  - destruct (delete_all_same id (delete_memories (fun m => Z.eqb (mem_id m) id) s).2) as (-> & _). by apply NoDup_kept.
  - apply rows_match_delete; [by apply delete_excepts|]. apply memory_by_id_none. cbn [delete_memories snd with_memories memories].
    intros (m & -> & Hm)%list_elem_of_fmap. apply list_elem_of_In, filter_In in Hm as [_ Hm]. by rewrite Z.eqb_refl in Hm.
Qed.

Lemma in_sync_absent id s :
  memory_by_id id (memories s) = None -> in_sync s -> in_sync (delete_memories (fun m => Z.eqb (mem_id m) id) s).2.
Proof.
  intros Hid Hs. cbn [delete_memories snd]. rewrite keep_all; [by destruct s|]. apply Forall_forall. intros m Hm.
  apply memory_by_id_none in Hid. apply negb_true_iff, Z.eqb_neq. intros <-. destruct Hid.
  apply list_elem_of_fmap. by exists m.
Qed.

Lemma matching_rows_some id (ms : list MemoryRow) m :
  memory_by_id id ms = Some m -> List.length (List.filter (fun m => Z.eqb (mem_id m) id) ms) <> 0.
Proof.
  intros [Hin Hid]%memory_by_id_some Hl. apply length_zero_iff_nil in Hl.
  assert (In m (List.filter (fun m => Z.eqb (mem_id m) id) ms)) as Hf by (apply filter_In; split; [by apply list_elem_of_In|by apply Z.eqb_eq]).
  by rewrite Hl in Hf.
Qed.

Lemma settles_delete_by_id id now : settles (delete_by_id id now).
Proof.
  apply settles_query_bind. intros c Hq Hs. erewrite ebind_step by (by apply update_count_quiet).
  destruct (memory_by_id id (memories (tables c))) as [m|] eqn:E.
  - pose proof (matching_rows_some _ _ _ E) as Hl. cbn [delete_memories fst snd].
    destruct (List.length _) as [|n]; [done|]. cbn [fmap option_fmap option_map].
    erewrite ebind_step by (by apply delete_projections_quiet).
    match goal with |- quiet (?m ?c').2 /\ _ => enough (settles m) as Hm end; [apply Hm; [done|by apply in_sync_deleted]|].
    apply settles_ebind; [apply settles_if; [apply settles_export|apply settles_ret]|intros _; apply settles_logged].
  - cbn [fmap option_fmap option_map]. destruct (delete_memories _ _).1; (split; [done|by apply in_sync_absent]).
Qed.

Lemma settles_replace_slot slot content now entries : settles (replace_slot slot content now entries).
Proof.
  induction entries as [|e entries IH]; cbn; [apply settles_ret|]. apply settles_if; [|done].
  apply settles_ebind; [apply settles_delete_by_id|intros d]. apply settles_ebind; [done|intros n; apply settles_ret].
Qed.

Lemma settles_store_resolved kind content now : settles (store_resolved kind content now).
Proof.
  apply settles_ebind.
  { unfold has_exact, has_similar. repeat case_match; try apply settles_query. apply settles_ret. }
  intros [|]; [apply settles_ret|]. apply settles_ebind; [|intros n].
  - case_match; [|apply settles_ret]. apply settles_ebind; [apply settles_query|intros entries; apply settles_replace_slot].
  - apply settles_ebind; [apply settles_store_as|intros id; apply settles_ret].
Qed.

Lemma settles_apply_update existing id kind content metadata now m :
  forall c, quiet c -> in_sync (tables c) -> memory_by_id id (memories (tables c)) = Some m ->
  quiet (apply_update existing id kind content metadata now c).2 /\
  in_sync (tables (apply_update existing id kind content metadata now c).2).
Proof.
  intros c Hq [Hn Hr] E. unfold apply_update. erewrite ebind_step by (by apply update_count_quiet).
  pose proof (matching_rows_some _ _ _ E) as Hl. cbn [update_memory fst].
  destruct (List.length _) as [|n]; [done|].
  erewrite ebind_step by (by apply upsert_all_quiet).
  match goal with |- quiet (?m ?c').2 /\ _ => assert (settles m) as Hm end.
  { apply settles_ebind; [apply settles_if; [apply settles_export|apply settles_ret]|intros _; apply settles_logged]. }
  apply Hm; [done|]. cbn [set_tables tables]. split.
  - match goal with |- NoDup (_ <$> memories (replace_all ?i ?k ?x ?d ?w ?s)) =>
      destruct (replace_all_same i k x d w s) as (-> & _) end. by apply NoDup_updated.
  - apply (rows_match_replace _ (set_fact kind content metadata m)); try done; [by apply update_excepts| |apply metadata_set].
    cbn [update_memory snd with_memories memories]. rewrite memory_by_id_fmap by (intros m'; by destruct (Z.eqb _ _)).
    rewrite E. cbn. apply memory_by_id_some in E as [_ ->]. by rewrite Z.eqb_refl.
Qed.

Lemma settles_update_managed id content kind now : settles (update_managed id content kind now).
Proof.
  apply settles_query_bind. intros c Hq Hs. destruct (memory_by_id id (memories (tables c))) as [m|] eqn:E; [|done].
  cbn [fmap option_fmap option_map]. cbv zeta. destruct (is_empty _); [done|]. destruct (next_kind_of _ _) as [k|]; [|done].
  destruct (negb _); [done|]. destruct (_ && _); [done|]. by apply settles_apply_update with m.
Qed.

Lemma tracking_keeps_facts now score hashes : keeps_facts (set_recall now score hashes).
Proof. by intros m. Qed.
Lemma promotion_keeps_facts : keeps_facts set_promoted.
Proof. by intros m. Qed.
Lemma order_keeps_facts n : keeps_facts (set_display_order n).
Proof. by intros m. Qed.

Lemma settles_reorder ids : settles (reorder_managed ids).
Proof.
  apply settles_ebind; [|intros _; apply settles_export].
  apply settles_transaction, settles_each. intros [i id]. apply settles_counted, order_keeps_facts.
Qed.

Lemma settles_promote ids now : settles (mark_promoted_many ids now).
Proof.
  apply settles_ebind.
  - induction ids as [|id ids IH]; cbn; [apply settles_ret|].
    apply settles_ebind; [apply settles_update_memory, promotion_keeps_facts|intros _].
    apply settles_ebind; [apply settles_query|intros found]. apply settles_ebind; [done|intros events; apply settles_ret].
  - intros [|e events]; [apply settles_ret|].
    apply settles_ebind; [apply settles_export|intros _]. apply settles_each. intros e'. apply settles_canon.
Qed.

Lemma settles_query_hashes id : settles (query_hashes id).
Proof.
  intros c Hq Hs. unfold query_hashes. rewrite statement_quiet by done.
  destruct (memory_by_id id (memories (tables c))); [|done]. by destruct c.
Qed.

Lemma settles_recall now hash recall : settles (update_recall_tracking now hash recall).
Proof.
  destruct recall as [id score]. apply settles_attempt; [apply settles_query_hashes|intros hashes].
  apply settles_counted, tracking_keeps_facts.
Qed.

Lemma settles_recorded {A} recalls now hash (g : run A) :
  settles g -> settles (bind (record_recalls recalls now hash) (fun _ => g)).
Proof.
  intros Hg c Hq Hs. unfold bind, record_recalls.
  pose proof (settles_transaction _ (settles_each (update_recall_tracking now hash) recalls (settles_recall now hash)) c Hq Hs)
    as [Hq' Hs'].
  destruct recalls as [|recall recalls]; [by apply Hg|]. unfold bind. destruct (transaction _ c) as [r c']. by apply Hg.
Qed.

Lemma settles_ranked scored limit now hash : settles (ranked_hits scored limit now hash).
Proof. apply settles_recorded, settles_ret. Qed.

Lemma settles_fallback text limit now hash : settles (search_like_fallback text limit now hash).
Proof.
  unfold search_like_fallback. case_match; [apply settles_ret|].
  apply settles_ebind; [apply settles_query|intros found; apply settles_ranked].
Qed.

Lemma settles_search text limit now : settles (search half_life_days text limit now).
Proof.
  unfold search. case_match; [|apply settles_fallback].
  apply settles_ebind; [apply settles_query|intros [|raw entries]; [apply settles_fallback|apply settles_ranked]].
Qed.

Lemma settles_semantic_search text limit now : settles (semantic_search text limit now).
Proof.
  apply settles_if; [apply settles_ret|].
  apply settles_ebind; [apply settles_query|intros found; apply settles_recorded, settles_ret].
Qed.

Lemma settles_delete_matching text now : settles (delete_matching half_life_days text now).
Proof.
  apply settles_ebind; [apply settles_search|intros entries].
  induction entries as [|e entries IH]; cbn; [apply settles_ret|]. apply settles_ebind; [apply settles_delete_by_id|intros d].
  apply settles_ebind; [done|intros n; apply settles_ret].
Qed.

(** *** Rebuilding *)

Definition rebuilt (now : N) (ms : list MemoryRow) (t : Table) (s : Store) : Store :=
  foldl (fun s m => replace_rows (mem_id m) (mem_kind m) (mem_content m) (row_metadata m) now t s) (clear_table t s)
    (order_by by_id ms).

Lemma rebuild_table_quiet t now c :
  quiet c -> rebuild_table t now c = (Ok tt, set_tables (rebuilt now (memories (tables c)) t (tables c)) c).
Proof.
  intros Hq. unfold rebuild_table. erewrite ebind_step by (by apply update_quiet).
  erewrite ebind_step by (by apply query_quiet).
  rewrite (each_quiet _ (fun m s => replace_rows (mem_id m) (mem_kind m) (mem_content m) (row_metadata m) now t s));
    [done| |done]. intros m c' Hq'. by apply upsert_table_quiet.
Qed.

Lemma rows_of_cleared t t' id s : rows_of t' id (clear_table t s) = if decide (t' = t) then [] else rows_of t' id s.
Proof.
  unfold rows_of, clear_table. cbn. destruct (decide (t' = t)) as [->|Hne].
  - rewrite keep_keep_none; [done|]. intros r Ht. unfold in_table. by apply negb_true_iff in Ht as ->.
  - rewrite keep_keep_imp; [done|]. intros r [Ht%bool_decide_eq_true _]%andb_prop.
    rewrite bool_decide_eq_false_2; [done|congruence].
Qed.

Lemma rows_of_rebuild_fold now t t' id ms s :
  NoDup (mem_id <$> ms) ->
  rows_of t' id (foldl (fun s m => replace_rows (mem_id m) (mem_kind m) (mem_content m) (row_metadata m) now t s) s ms) =
  if decide (t' = t) then match memory_by_id id ms with Some m => derived t m | None => rows_of t' id s end
  else rows_of t' id s.
Proof.
  revert s. induction ms as [|m ms IH]; intros s; cbn [foldl fmap list_fmap]; [by destruct (decide _)|].
  intros [Hm Hn]%NoDup_cons. rewrite IH by done. unfold memory_by_id. cbn [List.find]. fold (memory_by_id id ms).
  rewrite rows_of_replaced. destruct (decide (t' = t)) as [->|Ht]; [|by rewrite decide_False by naive_solver].
  destruct (Z.eqb_spec (mem_id m) id) as [<-|Hid].
  - rewrite (proj2 (memory_by_id_none _ _)) by done. by rewrite decide_True.
  - rewrite decide_False by naive_solver. done.
Qed.

Lemma memory_by_id_perm id ms ms' : NoDup (mem_id <$> ms) -> ms ≡ₚ ms' -> memory_by_id id ms = memory_by_id id ms'.
Proof.
  intros Hn Hp. assert (NoDup (mem_id <$> ms')) as Hn' by by rewrite <- Hp.
  destruct (memory_by_id id ms) as [m|] eqn:E; symmetry.
  - apply memory_by_id_some in E as [Hm <-]. apply memory_by_id_elem; [done|]. by rewrite <- Hp.
  - apply memory_by_id_none in E. apply memory_by_id_none. by rewrite <- Hp.
Qed.

Lemma rows_of_rebuilt now t t' id s :
  NoDup (mem_id <$> memories s) ->
  rows_of t' id (rebuilt now (memories s) t s) =
  if decide (t' = t) then match memory_by_id id (memories s) with Some m => derived t m | None => [] end
  else rows_of t' id s.
Proof.
  intros Hn. unfold rebuilt. pose proof (order_by_perm by_id (memories s)) as Hp.
  rewrite rows_of_rebuild_fold by by rewrite Hp. rewrite rows_of_cleared.
  rewrite (memory_by_id_perm id (order_by by_id (memories s)) (memories s)) by (done || by rewrite Hp).
  by destruct (decide _).
Qed.

Lemma rebuilt_same now ms t s : same_but_rows s (rebuilt now ms t s).
Proof.
  unfold rebuilt. apply (transitivity (y := clear_table t s)); [done|].
  by apply (fold_same (fun m s => replace_rows (mem_id m) (mem_kind m) (mem_content m) (row_metadata m) now t s)).
Qed.

Definition rebuild_tables (now : N) (ts : list Table) (s : Store) : Store :=
  foldl (fun s t => rebuilt now (memories s) t s) s ts.

Lemma rebuild_tables_same now ts s : same_but_rows s (rebuild_tables now ts s).
Proof. apply (fold_same (fun t s => rebuilt now (memories s) t s)). intros t s'. apply rebuilt_same. Qed.

Lemma rows_of_rebuild_tables now ts t id s :
  NoDup (mem_id <$> memories s) ->
  rows_of t id (rebuild_tables now ts s) =
  if decide (t ∈ ts) then match memory_by_id id (memories s) with Some m => derived t m | None => [] end
  else rows_of t id s.
Proof.
  revert s. induction ts as [|t' ts IH]; intros s Hn; cbn [rebuild_tables foldl].
  - by rewrite decide_False by set_solver.
  - fold (rebuild_tables now ts (rebuilt now (memories s) t' s)).
    destruct (rebuilt_same now (memories s) t' s) as (Hms & _). rewrite IH by by rewrite Hms.
    rewrite Hms, rows_of_rebuilt by done. repeat case_decide; set_solver.
Qed.

Lemma rebuild_all_quiet now c :
  quiet c ->
  each (fun t => rebuild_table t now) TABLES c = (Ok tt, set_tables (rebuild_tables now TABLES (tables c)) c).
Proof.
  intros Hq. rewrite (each_quiet _ (fun t s => rebuilt now (memories s) t s)); [done| |done].
  intros t c' Hq'. by apply rebuild_table_quiet.
Qed.

Lemma in_sync_rebuilt now s : NoDup (mem_id <$> memories s) -> in_sync (rebuild_tables now TABLES s).
Proof.
  intros Hn. destruct (rebuild_tables_same now TABLES s) as (Hms & _). split; [by rewrite Hms|].
  intros t id. rewrite rows_of_rebuild_tables, Hms by done. by rewrite decide_True by apply all_tables.
Qed.

Lemma ebind_each_cons {A B} (f : A -> run unit) x l (g : unit -> run B) c :
  ebind (each f (x :: l)) g c = ebind (f x) (fun _ => ebind (each f l) g) c.
Proof. cbn [each]. unfold ebind. by destruct (f x c) as [[[]|e] c']. Qed.

Lemma rebuild_projections_quiet now c :
  quiet c ->
  rebuild_projections now c =
  (Ok tt, if bool_decide (derivation_version (tables c) = Some DERIVATION_VERSION) then c
          else set_tables (with_version (Some DERIVATION_VERSION) (rebuild_tables now TABLES (tables c))) c).
Proof.
  intros Hq. unfold rebuild_projections. erewrite ebind_step by by rewrite query_quiet.
  destruct (bool_decide _); [done|]. apply transaction_quiet; [done| |by apply quiet_set].
  transitivity ((let!? _ := each (fun t => rebuild_table t now) TABLES in
                 update (with_version (Some DERIVATION_VERSION))) c).
  - unfold TABLES. do 15 (rewrite ebind_each_cons; apply ebind_ext; intros _ ?). reflexivity.
  - erewrite ebind_step by (by apply rebuild_all_quiet). by rewrite update_quiet.
Qed.

Lemma in_sync_version v s : in_sync s -> in_sync (with_version v s).
Proof. by intros [Hn Hr]. Qed.

Lemma settles_rebuild now : settles (rebuild_projections now).
Proof.
  intros c Hq Hs. rewrite rebuild_projections_quiet by done. cbn [snd]. destruct (bool_decide _); [done|].
  split; [done|]. apply in_sync_version, in_sync_rebuilt, Hs.
Qed.

Definition is_prune (op : operation) : bool := match op with Prune _ _ => true | _ => false end.

Lemma settles_perform now op : is_prune op = false -> settles (perform now op).
Proof.
  destruct op; intros Hop; cbn; try (apply settles_ebind; [|intros _; apply settles_ret]); try done.
  - apply settles_rebuild.
  - apply settles_store_as.
  - apply settles_store_as.
  - apply settles_store_resolved.
  - apply settles_delete_by_id.
  - apply settles_delete_matching.
  - apply settles_update_managed.
  - apply settles_reorder.
  - apply settles_promote.
  - apply settles_search.
  - apply settles_semantic_search.
Qed.

Lemma settles_history ops c :
  quiet c -> in_sync (tables c) -> Forall (fun o => is_prune o.2 = false) ops ->
  in_sync (tables (history ops c)).
Proof.
  intros Hq Hs Hops. revert c Hq Hs. induction Hops as [|[now op] ops Hop _ IH]; intros c Hq Hs; cbn; [done|].
  destruct (settles_perform now op Hop c Hq Hs). by apply IH.
Qed.

(** ** Properties *)

Definition empty_store : Store := {|
  memories := []; rows := []; derivation_version := None;
  canon := {| event_lines := []; daily_notes := ∅; memory_md := None; index_md := None; namespace_files := ∅ |} |}.
Definition fresh (fs : list bool) : Conn Store := {| tables := empty_store; faults := fs |}.

Lemma fresh_policed fs : policed (tables (fresh fs)).
Proof. split; [split; constructor|constructor]. Qed.

Lemma empty_in_sync : in_sync empty_store.
Proof. split; [constructor|]. intros t id. reflexivity. Qed.

Lemma elem_of_shared metadata ps p : p ∈ shared metadata ps <-> shared_room_allowed metadata = true /\ p ∈ ps.
Proof. unfold shared. destruct (shared_room_allowed metadata); set_solver. Qed.

Lemma projected_gate t kind content metadata p :
  p ∈ projected t kind content metadata -> t <> app_only_secret_references -> shared_room_allowed metadata = true.
Proof.
  destruct t; cbn [projected]; try (intros Hp _; by apply elem_of_shared in Hp as [Hp _]); [done|].
  unfold embedded_projection, should_embed_memory. intros Hp _.
  destruct (bool_decide _); [by apply not_elem_of_nil in Hp|].
  by destruct (shared_room_allowed metadata); [|apply not_elem_of_nil in Hp].
Qed.

(** What the searched and spoken tables hold of a secret: neither the notes nor
    the embeddings are made of a text that names one. *)
Lemma projected_no_secret kind content metadata p :
  (p ∈ projected household_notes kind content metadata ->
     secret_type_from_text (to_ascii_lowercase (statement_of content)) = None) /\
  (p ∈ projected embedded_memories kind content metadata ->
     secret_type_from_text (to_ascii_lowercase content) = None).
Proof.
  split; cbn [projected]; intros Hp.
  - unfold shared in Hp. destruct (shared_room_allowed metadata); [|by apply not_elem_of_nil in Hp].
    unfold household_note_from_memory in Hp. destruct (is_empty (statement_of content)); [by apply not_elem_of_nil in Hp|].
    cbv zeta in Hp. destruct (bool_decide _) eqn:E; [by apply not_elem_of_nil in Hp|].
    apply bool_decide_eq_false in E. by apply eq_None_not_Some.
  - unfold embedded_projection, should_embed_memory in Hp. cbv zeta in Hp.
    destruct (bool_decide _) eqn:E; [by apply not_elem_of_nil in Hp|].
    apply bool_decide_eq_false in E. by apply eq_None_not_Some.
Qed.

(** C10: Whatever was asked of the store and whatever statement or file operation
    failed on the way, each row of a table that answers in a shared room was
    read from some sentence that the policy, classifying that very sentence,
    lets be spoken there; and a note or an embedding from one that names no
    secret. *)
Theorem facts_are_speakable ops fs r :
  r ∈ rows (tables (history ops (fresh fs))) ->
  table_of (row_data r) <> app_only_secret_references ->
  exists kind content,
    row_data r ∈ projected (table_of (row_data r)) kind content (infer_metadata kind content) /\
    decision_allowed (assess_memory_read (infer_metadata kind content) shared_room_voice) = true /\
    (table_of (row_data r) = household_notes ->
       secret_type_from_text (to_ascii_lowercase (statement_of content)) = None) /\
    (table_of (row_data r) = embedded_memories -> secret_type_from_text (to_ascii_lowercase content) = None).
Proof.
  intros Hr Ht. destruct (keeps_history ops (fresh fs) (fresh_policed fs)) as [_ Hrows].
  rewrite Forall_forall in Hrows. destruct (Hrows r Hr) as (kind & content & Hp). exists kind, content.
  split; [done|]. split; [by apply (projected_gate _ _ _ _ _ Hp)|].
  split; intros He; rewrite He in Hp; [apply (proj1 (projected_no_secret _ _ _ _) Hp)|].
  apply (proj2 (projected_no_secret _ _ _ _) Hp).
Qed.

(** Whatever was asked and whatever failed on the way, no two memories share
    an id, and a memory remembers at most sixteen questions it was recalled for,
    no question twice, and no more than its count of recalls. *)
Lemma recall_tracking_is_bounded ops fs :
  let ms := memories (tables (history ops (fresh fs))) in
  NoDup (mem_id <$> ms) /\
  Forall (fun m => length (mem_query_hashes m) <= MAX_QUERY_HASHES /\ NoDup (mem_query_hashes m) /\
                   (Z.of_nat (length (mem_query_hashes m)) <= mem_recall_count m)%Z) ms.
Proof.
  destruct (keeps_history ops (fresh fs) (fresh_policed fs)) as [[Hms Hn] _]. split; [exact Hn|].
  eapply Forall_impl; [exact Hms|]. by intros m [_ Ht].
Qed.

(** C21: While nothing fails, the tables follow the memories: after any operations
    but pruning, from a new database on, a table holds for each memory exactly
    the rows its present text and policy project, in order, and holds nothing
    of a memory that is gone. *)
Theorem tables_follow_memories ops :
  Forall (fun o => is_prune o.2 = false) ops ->
  let s := tables (history ops (fresh [])) in
  NoDup (mem_id <$> memories s) /\
  forall t id, rows_of t id s = match memory_by_id id (memories s) with Some m => derived t m | None => [] end.
Proof. intros Hops. by apply settles_history; [|apply empty_in_sync|]. Qed.

(** Opening a database whose derivation is of another version brings every
    table in step with the memories, whatever the tables held before, and
    leaves the memories as they are. *)
Lemma open_restores_tables now c :
  quiet c -> NoDup (mem_id <$> memories (tables c)) -> derivation_version (tables c) <> Some DERIVATION_VERSION ->
  let '(r, c') := rebuild_projections now c in
  r = Ok tt /\ memories (tables c') = memories (tables c) /\
  derivation_version (tables c') = Some DERIVATION_VERSION /\
  forall t id, rows_of t id (tables c') =
    match memory_by_id id (memories (tables c)) with Some m => derived t m | None => [] end.
Proof.
  intros Hq Hn Hv. rewrite rebuild_projections_quiet by done. rewrite bool_decide_eq_false_2 by done.
  destruct (rebuild_tables_same now TABLES (tables c)) as (Hms & _).
  split; [done|]. split; [done|]. split; [done|]. intros t id.
  pose proof (in_sync_rebuilt now (tables c) Hn) as [_ Hr]. rewrite <- Hms. apply Hr.
Qed.

End sync.

(** *** Runs *)

Section runs.
#[local] Existing Instances ascii_tables one_bucket first_day no_index steep_decay.

Definition half_life : f64 := f64_of_Z 30.
Definition sample : list (N * operation) :=
  [(1000%N, Store_ "fact" "My dog is named Rex."); (2000%N, Store_ "note" "The ladder is behind the shed.");
   (3000%N, UpdateManaged 1 "My cat is named Tom." None); (4000%N, Delete 2)].

Lemma facts_are_speakable_witness :
  exists r, r ∈ rows (tables (history half_life sample (fresh [false; true]))) /\
  exists kind content,
    row_data r ∈ projected (table_of (row_data r)) kind content (infer_metadata kind content) /\
    decision_allowed (assess_memory_read (infer_metadata kind content) shared_room_voice) = true.
Proof.
  exists {| source_memory_id := 1; row_data := ProfileRow "Tom" "cat"; updated_ms := 3000 |}.
  assert ({| source_memory_id := 1; row_data := ProfileRow "Tom" "cat"; updated_ms := 3000 |}
          ∈ rows (tables (history half_life sample (fresh [false; true])))) as Hr.
  { vm_compute. repeat (apply list_elem_of_here || apply list_elem_of_further). }
  split; [exact Hr|].
  destruct (facts_are_speakable half_life sample [false; true] _ Hr ltac:(done)) as (kind & content & Hp & Ha & _).
  by exists kind, content.
Defined.

Lemma tables_follow_memories_witness :
  Forall (fun o => is_prune o.2 = false) sample /\
  let s := tables (history half_life sample (fresh [])) in
  mem_content <$> memories s = ["My cat is named Tom."] /\
  rows_of household_profiles 1 s = [ProfileRow "Tom" "cat"] /\
  forall t id, rows_of t id s = match memory_by_id id (memories s) with Some m => derived t m | None => [] end.
Proof.
  assert (Forall (fun o => is_prune o.2 = false) sample) as Hops by (repeat constructor).
  split; [exact Hops|]. split; [by vm_compute|]. split; [by vm_compute|].
  apply (tables_follow_memories half_life sample Hops).
Defined.

(** A database of an older derivation: a row that is out of date, and one of a
    memory that is gone. *)
Definition outdated : Conn Store := {|
  tables := {|
    memories := memories (tables (history half_life sample (fresh [])));
    rows := [row_of 1 0 (ProfileRow "Rex" "dog"); row_of 2 0 (ProfileRow "Ann" "mom")];
    derivation_version := Some 1%Z; canon := canon empty_store |};
  faults := [] |}.

Lemma open_restores_tables_witness :
  quiet outdated /\ NoDup (mem_id <$> memories (tables outdated)) /\
  derivation_version (tables outdated) <> Some DERIVATION_VERSION /\
  let '(r, c') := rebuild_projections 5000 outdated in
  r = Ok tt /\ rows_of household_profiles 1 (tables c') = [ProfileRow "Tom" "cat"] /\
  rows_of household_profiles 2 (tables c') = [].
Proof.
  assert (NoDup (mem_id <$> memories (tables outdated))) as Hn by (vm_compute; repeat constructor; set_solver).
  assert (derivation_version (tables outdated) <> Some DERIVATION_VERSION) as Hv by done.
  split; [done|]. split; [exact Hn|]. split; [exact Hv|].
  pose proof (open_restores_tables 5000 outdated eq_refl Hn Hv) as H.
  destruct (rebuild_projections 5000 outdated) as [r c']. destruct H as (-> & _ & _ & Hr).
  split; [done|]. rewrite !Hr. by vm_compute.
Defined.

(** Pruning deletes memories only: what the tables hold of them stays, and is
    answered from until the next rebuild or until their id is used again. *)
Example pruned_rows_stay :
  let s := tables (history half_life [(1000%N, Store_ "fact" "My dog is named Rex.");
                                      (9000000000%N, Prune (f64_dec 5 (-2)) 30)] (fresh [])) in
  memories s = [] /\ rows_of household_profiles 1 s = [ProfileRow "Rex" "dog"].
Proof. by vm_compute. Qed.

End runs.
