(* ===== verification/MemoryFacts.v ===== *)
(** * What the operations of the store do to its facts

    A fact of a memory is what it says and who may read it: its id, kind, content
    and policy.  Searching leaves the facts as they are, deleting removes those
    of an id, storing adds one; whatever statement fails on the way. *)

From S2P Require Import Prelude RustStr RustNum Recall Sql MemoryPolicy MemoryText MemoryTypes MemoryExtract Embedding MemoryTables MemoryCanon MemoryStore MemorySync.
Local Open Scope string_scope.
Local Open Scope list_scope.
Local Open Scope rust_scope.

Record Fact := { fc_id : Z; fc_kind : string; fc_content : string; fc_metadata : MemoryPolicyMetadata }.

Definition fact_of (m : MemoryRow) : Fact :=
  {| fc_id := mem_id m; fc_kind := mem_kind m; fc_content := mem_content m; fc_metadata := row_metadata m |}.
Definition facts (s : Store) : list Fact := fact_of <$> memories s.

(** The fact an entry shows. *)
Definition entry_fact (e : MemoryEntry) : Fact :=
  {| fc_id := me_id e; fc_kind := me_kind e; fc_content := me_content e; fc_metadata := me_metadata e |}.

Lemma entry_fact_read m : entry_fact (read_entry m) = fact_of m.
Proof. done. Qed.

Section facts.
Context `{U : Unicode} `{H : StrHasher} `{G : Gmtime} `{F : Fts} `{EX : Exp}.

(** [m] keeps every property of the facts. *)
Definition leaves_facts {A} (m : run A) : Prop := forall Q : list Fact -> Prop, keeps (fun s => Q (facts s)) m.

Lemma facts_tables_only (Q : list Fact -> Prop) : tables_only (fun s => Q (facts s)).
Proof. by intros s k Hs. Qed.

Lemma leaves_update_memory id f :
  (forall m, fact_of (f m) = fact_of m) -> leaves_facts (update_count (update_memory id f)).
Proof.
  intros Hf Q. apply keeps_update_count. intros s Hs. unfold facts, update_memory in *. cbn.
  rewrite <- list_fmap_compose. erewrite list_fmap_ext; [exact Hs|]. intros i m _. cbn. by destruct (Z.eqb _ _).
Qed.

Lemma leaves_recall now hash recall : leaves_facts (update_recall_tracking now hash recall).
Proof.
  intros Q. destruct recall as [id score]. apply keeps_attempt; [|intros found].
  { apply keeps_statement. intros s hashes s' Hs E. by destruct (memory_by_id id (memories s)); inversion E; subst. }
  apply keeps_ebind; [by apply leaves_update_memory|intros _; apply holds_ret].
Qed.

Lemma leaves_recorded {A} recalls now hash (g : run A) :
  leaves_facts g -> leaves_facts (bind (record_recalls recalls now hash) (fun _ => g)).
Proof.
  intros Hg Q c Hc. unfold bind. assert (Q (facts (tables (record_recalls recalls now hash c).2))) as Hc'.
  { destruct recalls as [|recall recalls]; [done|]. unfold record_recalls, bind.
    pose proof (keeps_transaction _ _
      (keeps_each _ (update_recall_tracking now hash) (recall :: recalls) (fun x _ => leaves_recall now hash x Q)) c Hc) as Ht.
    by destruct (transaction _ c). }
  destruct (record_recalls recalls now hash c) as [[] c']. by apply Hg.
Qed.

Variable half_life_days : f64.

Lemma leaves_fallback text limit now hash : leaves_facts (search_like_fallback text limit now hash).
Proof.
  intros Q. unfold search_like_fallback. case_match; [apply holds_ret|].
  apply keeps_ebind; [apply keeps_query|intros found]. apply leaves_recorded. intros ?. apply holds_ret.
Qed.

Lemma leaves_search text limit now : leaves_facts (search half_life_days text limit now).
Proof.
  intros Q. unfold search. case_match; [|apply leaves_fallback].
  apply keeps_ebind; [apply keeps_query|intros [|raw entries]; [apply leaves_fallback|]].
  apply leaves_recorded. intros ?. apply holds_ret.
Qed.

Lemma leaves_semantic_search text limit now : leaves_facts (semantic_search text limit now).
Proof.
  intros Q. apply keeps_if; [apply holds_ret|].
  apply keeps_ebind; [apply keeps_query|intros found; apply leaves_recorded; intros ?; apply holds_ret].
Qed.

(** ** What the searches find *)

(** [m] changes no fact, and what it gives is [P] of them. *)
Definition finds {A} (P : list Fact -> A -> Prop) (m : run A) : Prop :=
  forall c a c', m c = (Ok a, c') -> facts (tables c') = facts (tables c) /\ P (facts (tables c)) a.

Lemma finds_ret {A} (P : list Fact -> A -> Prop) a : (forall fs, P fs a) -> finds P (ret (Ok a)).
Proof. by intros HP c a' c' [= <- <-]. Qed.

Lemma finds_query {A} (P : list Fact -> A -> Prop) (f : Store -> A) : (forall s, P (facts s) (f s)) -> finds P (query f).
Proof.
  intros HP c a c' E. apply statement_fate in E as [[_ [e [=]]]|(b & t & [= <- <-] & [= ->] & ->)]. done.
Qed.

Lemma finds_ebind {A B} (P : list Fact -> A -> Prop) (Q : list Fact -> B -> Prop) (m : run A) (f : A -> run B) :
  finds P m -> (forall a, finds (fun fs b => P fs a -> Q fs b) (f a)) -> finds Q (ebind m f).
Proof.
  intros Hm Hf c b c' E. unfold ebind in E. destruct (m c) as [[a|e] c1] eqn:E1; [|done].
  apply Hm in E1 as [Ht HP]. apply Hf in E as [Ht' HQ]. rewrite Ht' in *. rewrite Ht in *. auto.
Qed.

Lemma finds_if {A} (P : list Fact -> A -> Prop) (b : bool) (m n : run A) :
  finds P m -> finds P n -> finds P (if b then m else n).
Proof. by destruct b. Qed.

Lemma finds_recorded {A} (P : list Fact -> A -> Prop) recalls now hash (g : run A) :
  finds P g -> finds P (bind (record_recalls recalls now hash) (fun _ => g)).
Proof.
  intros Hg c a c' E. assert (leaves_facts (bind (record_recalls recalls now hash) (fun _ => ret (Ok tt)))) as Hl.
  { apply leaves_recorded. intros Q. apply holds_ret. }
  specialize (Hl (fun fs => fs = facts (tables c)) c eq_refl). unfold bind in *.
  destruct (record_recalls recalls now hash c) as [[] c1]. cbn in Hl. apply Hg in E. by rewrite Hl in E.
Qed.

(** The entries show facts of the store. *)
Definition shown (fs : list Fact) (es : list MemoryEntry) : Prop := forall e, e ∈ es -> entry_fact e ∈ fs.

Lemma memory_shown s m : m ∈ memories s -> entry_fact (read_entry m) ∈ facts s.
Proof. intros Hm. rewrite entry_fact_read. by apply list_elem_of_fmap_2. Qed.

Lemma shown_rows s ms : (forall m, m ∈ ms -> m ∈ memories s) -> shown (facts s) (read_entry <$> ms).
Proof. intros Hms e (m & -> & Hm)%list_elem_of_fmap. by apply memory_shown, Hms. Qed.

Lemma elem_of_ordered (R : MemoryRow -> MemoryRow -> Prop) `{!RelDecision R} n p s m :
  m ∈ take n (order_by R (List.filter p (memories s))) -> m ∈ memories s.
Proof.
  intros Hm%in_take. rewrite order_by_perm in Hm. by apply list_elem_of_In, filter_In in Hm as [Hm%list_elem_of_In _].
Qed.

Lemma finds_by_kind kind limit : finds shown (get_by_kind kind limit).
Proof. apply finds_query. intros s. apply shown_rows. intros m. apply elem_of_ordered. Qed.

Lemma elem_of_sort_scored {A} (x : A * f64) l : x ∈ sort_scored l -> x ∈ l.
Proof.
  assert (forall (y : A * f64) k, x ∈ insert_scored y k -> x = y \/ x ∈ k) as Hins.
  { intros y k. induction k as [|z k IH]; cbn; [set_solver|]. destruct (SFltb _ _); [|set_solver].
    rewrite !elem_of_cons. naive_solver. }
  induction l as [|y l IH]; cbn; [done|]. intros [->|Hx]%Hins; [by left|right; by apply IH].
Qed.

Lemma finds_ranked scored limit now hash P :
  (forall fs, P fs -> shown fs scored.*1) -> finds (fun fs es => P fs -> shown fs es) (ranked_hits scored limit now hash).
Proof.
  intros HP. apply finds_recorded, finds_ret. intros fs Hfs e He. apply (HP fs Hfs).
  apply list_elem_of_fmap in He as (x & -> & Hx%in_take%elem_of_sort_scored). by apply list_elem_of_fmap_2.
Qed.

Lemma finds_fallback text limit now hash : finds shown (search_like_fallback text limit now hash).
Proof.
  unfold search_like_fallback. destruct (search_tokens text) as [|t ts].
  { apply finds_ret. by intros fs e He%not_elem_of_nil. }
  apply (finds_ebind (fun fs ms => shown fs (read_entry <$> ms))).
  - apply finds_query. intros s. apply shown_rows. intros m. apply elem_of_ordered.
  - intros ms. apply (finds_ranked _ _ _ _ (fun fs => shown fs (read_entry <$> ms))). intros fs Hfs.
    by rewrite <- list_fmap_compose.
Qed.

Lemma memory_by_id_in id ms m : memory_by_id id ms = Some m -> m ∈ ms.
Proof. by intros [Hm _]%memory_by_id_some. Qed.

Lemma finds_search text limit now : finds shown (search half_life_days text limit now).
Proof.
  unfold search. destruct (build_fts_query text) as [q|]; [|apply finds_fallback].
  apply (finds_ebind (fun fs hits => shown fs (read_entry <$> hits.*1))).
  - apply finds_query. intros s. apply shown_rows. intros m ([m' rank] & -> & Hm%in_take)%list_elem_of_fmap.
    apply elem_of_filter_map in Hm as ([id r] & _ & E). destruct (memory_by_id id (memories s)) eqn:Em; [|done].
    injection E as <- <-. by eapply memory_by_id_in.
  - intros [|hit hits].
    + intros c es c' E. apply finds_fallback in E as [??]. by split.
    + apply (finds_ranked _ _ _ _ (fun fs => shown fs (read_entry <$> (hit :: hits).*1))). intros fs Hfs.
      assert ((fts_score half_life_days now <$> hit :: hits).*1 = read_entry <$> (hit :: hits).*1) as ->; [|done].
      rewrite <- !list_fmap_compose. apply list_fmap_ext. by intros i [m r] _.
Qed.

Lemma elem_of_sort_hits x l : x ∈ sort_hits l -> x ∈ l.
Proof.
  assert (forall y k, x ∈ insert_hit y k -> x = y \/ x ∈ k) as Hins.
  { intros y k. induction k as [|z k IH]; cbn; [set_solver|]. destruct (hit_before _ _); [set_solver|].
    rewrite !elem_of_cons. naive_solver. }
  induction l as [|y l IH]; cbn; [done|]. intros [->|Hx]%Hins; [by left|right; by apply IH].
Qed.

Lemma finds_semantic text limit now :
  finds (fun fs hits => shown fs (hit_entry <$> hits)) (semantic_search text limit now).
Proof.
  unfold semantic_search. apply finds_if; [apply finds_ret; by intros fs e He%not_elem_of_nil|].
  eapply (finds_ebind (fun fs hits => shown fs (hit_entry <$> hits))).
  - apply finds_query. intros s e (h & -> & Hh)%list_elem_of_fmap. apply elem_of_filter_map in Hh as (r & _ & E).
    destruct (row_data r); try done. destruct (String.eqb _ _); [|done].
    destruct (memory_by_id _ _) as [m|] eqn:Em; [|done]. cbn in E. destruct (parse_embedding _ _); [|done]. cbn in E.
    apply when_Some in E as [_ <-]. cbn. by eapply memory_shown, memory_by_id_in.
  - intros hits. apply finds_recorded, finds_ret. intros fs Hfs e (h & -> & Hh%in_take%elem_of_sort_hits)%list_elem_of_fmap.
    apply Hfs. by apply list_elem_of_fmap_2.
Qed.

(** ** Deleting and storing *)

Definition without (id : Z) : list Fact -> list Fact := List.filter (fun f => negb (Z.eqb (fc_id f) id)).

Lemma elem_of_without_id id fs f : f ∈ without id fs <-> f ∈ fs /\ fc_id f <> id.
Proof.
  unfold without. induction fs as [|g fs IH]; cbn; [split; [by intros ?%elem_of_nil|by intros [?%elem_of_nil _]]|].
  destruct (Z.eqb_spec (fc_id g) id); cbn; rewrite ?elem_of_cons, IH; naive_solver.
Qed.

Lemma facts_deleted id s : facts (delete_memories (fun m => Z.eqb (mem_id m) id) s).2 = without id (facts s).
Proof.
  unfold facts, delete_memories, without. cbn. induction (memories s) as [|m ms IH]; [done|]. cbn.
  destruct (Z.eqb (mem_id m) id); cbn; [done|by f_equal].
Qed.

Lemma keeps_delete_facts (Q : list Fact -> Prop) id now :
  (forall fs, Q fs -> Q (without id fs)) -> keeps (fun s => Q (facts s)) (delete_by_id id now).
Proof.
  intros HQ. assert (forall t i, keeps (fun s => Q (facts s)) (update (delete_rows t i))) as Hrows.
  { intros t i. apply keeps_update. by intros s Hs. }
  apply keeps_ebind; [apply keeps_query|intros existing]. apply keeps_ebind.
  { apply keeps_update_count. intros s Hs. rewrite facts_deleted. by apply HQ. }
  intros [|n]; [apply holds_ret|]. destruct existing as [e|]; [|apply holds_ret].
  apply keeps_ebind; [|intros _].
  { do 2 (apply keeps_ebind; [apply Hrows|intros _]). apply keeps_each. intros. apply Hrows. }
  apply keeps_ebind; [apply keeps_if; [by apply keeps_export, facts_tables_only|apply holds_ret]|intros _].
  by apply keeps_logged, facts_tables_only.
Qed.

Lemma leaves_upsert_all id kind content metadata updated : leaves_facts (upsert_all id kind content metadata updated).
Proof.
  intros Q c Hc. rewrite upsert_all_each. revert c Hc. apply (keeps_each (fun s => Q (facts s))). intros t _.
  assert (forall ps, keeps (fun s => Q (facts s)) (insert_rows id updated ps)) as Hins.
  { induction ps as [|p ps IH]; cbn; [apply holds_ret|]. by apply keeps_ebind; [apply keeps_update|intros _]. }
  apply keeps_ebind; [by apply keeps_update|intros _]. apply keeps_ebind; [apply Hins|intros _].
  destruct (decide _); [|apply holds_ret]. unfold warn_if_device_alias_conflict.
  repeat case_match; try apply holds_ret. apply keeps_ebind; [apply keeps_query|intros _; apply holds_ret].
Qed.

(** The fact that storing a content makes, under a new id. *)
Definition stored_fact (id : Z) (kind content : string) : Fact :=
  let content := normalize_memory_content content in
  {| fc_id := id; fc_kind := kind; fc_content := content; fc_metadata := infer_metadata kind content |}.

Lemma keeps_store_facts (Q : list Fact -> Prop) evergreen action detail kind content now :
  (forall fs, Q fs -> Q (fs ++ [stored_fact (next_rowid (fc_id <$> fs)) kind content])) ->
  keeps (fun s => Q (facts s)) (store_as evergreen action detail kind content now).
Proof.
  intros HQ. apply keeps_ebind; [|intros id; by apply keeps_logged, facts_tables_only].
  apply keeps_ebind; [apply keeps_update_count|intros id; apply keeps_ebind; [apply leaves_upsert_all|intros _; apply holds_ret]].
  intros s Hs. unfold facts in *. cbn. rewrite fmap_app. specialize (HQ _ Hs). rewrite <- list_fmap_compose in HQ.
  unfold stored_fact in HQ. cbn. unfold fact_of at 2. cbn. by rewrite metadata_columns.
Qed.

Lemma keeps_resolved_facts (Q : list Fact -> Prop) kind content now :
  (forall id fs, Q fs -> Q (without id fs)) ->
  (forall id fs, Q fs -> Q (fs ++ [stored_fact id kind (normalize_memory_content content)])) ->
  keeps (fun s => Q (facts s)) (store_resolved kind content now).
Proof.
  intros Hd Hs. apply keeps_ebind.
  { unfold has_exact, has_similar. repeat case_match; try apply keeps_query. apply holds_ret. }
  intros [|]; [apply holds_ret|]. apply keeps_ebind; [|intros n].
  - case_match; [|apply holds_ret]. apply keeps_ebind; [apply keeps_query|intros entries].
    induction entries as [|e entries IH]; cbn; [apply holds_ret|]. apply keeps_if; [|done].
    apply keeps_ebind; [by apply keeps_delete_facts, Hd|intros d]. apply keeps_ebind; [done|intros m; apply holds_ret].
  - apply keeps_ebind; [|intros id; apply holds_ret]. apply keeps_store_facts. intros fs. apply Hs.
Qed.

End facts.
