(* ===== verification/MemoryCapture.v ===== *)
(** * What the memory learns from a turn ([memory/extract.rs])

    Facts are read out of an utterance by patterns on its lowercase form; cheap
    tests on the raw text decide which patterns are tried.  A fact the policy
    allows and the store does not hold yet is stored. *)

From S2P Require Import Prelude RustStr RustNum Recall Sql MemoryPolicy MemoryText MemoryTypes MemoryExtract Embedding MemoryTables MemoryCanon MemoryStore MemorySync MemoryFacts.
Local Open Scope string_scope.
Local Open Scope list_scope.
Local Open Scope rust_scope.

Record ExtractedFact := { fact_category : string; fact_content : string }.
#[export] Instance ExtractedFact_eq_dec : EqDecision ExtractedFact.
Proof. solve_decision. Defined.

(** ** Patterns *)

Fixpoint starts_with_ascii_ci (haystack needle : string) {struct needle} : bool :=
  match needle, haystack with
  | "", _ => true
  | String b needle, String a haystack =>
      Ascii.eqb (byte_to_lower a) (byte_to_lower b) && starts_with_ascii_ci haystack needle
  | _, "" => false
  end.

Definition VALUE_BOUNDARY_MARKERS : list string :=
  [" and "; " but "; " or "; " nor "; " so "; " yet "; " because "; " since "; " while "; " when "; " where ";
   " who "; " whom "; " whose "; " which "; " that "; " with "; " then "; " though "; " although "; " however ";
   " also "; " plus "; " too "].

(** [value.find(marker)], and the least of the positions. *)
Definition find_marker (value marker : string) : option nat :=
  '(before, _) ← split_once value marker; Some (String.length before).
Definition clause_end (value : string) : nat :=
  foldl (fun finish marker => match find_marker value marker with Some pos => Nat.min finish pos | None => finish end)
    (String.length value) VALUE_BOUNDARY_MARKERS.
Definition first_clause (value : string) : string := trim_end (String.substring 0 (clause_end value) value).

Definition sentence_until (stops : list string) (rest : string) : string :=
  trim (default "" (head (split_where (fun c => is_one_of c stops) rest))).
Definition value_of (stops : list string) (rest : string) : string := trim (first_clause (sentence_until stops rest)).

Definition extract_pattern (text : string) (prefixes : list string) : option string :=
  find_map (fun prefix =>
    '(_, rest) ← split_once text prefix;
    let value := value_of ["."; ","; "!"; "?"] rest in
    when (nonempty value && Nat.leb (length (split_whitespace value)) 10) value) prefixes.

Definition extract_age (text : string) : option N :=
  find_map (fun pat =>
    '(_, rest) ← split_once text pat;
    let '(num, rest) := span_digits rest in
    age ← parse_u32 num;
    let after := trim_start rest in
    when ((1 <=? age)%N && (age <=? 120)%N && (is_empty after || starts_any after ["years"; "year"; ","; "."])) age)
    ["i'm "; "i am "].

Definition IDENTITY_TRIGGERS : list string :=
  ["my name"; "call me"; "called"; "i work"; "working at"; "work as"; "i live"; "i'm from"; "i am from"; "based in";
   "i'm a"; "i am a"; "i'm "; "i am "].
Definition PREFERENCE_TRIGGERS : list string :=
  ["i like"; "i love"; "i enjoy"; "i prefer"; "i hate"; "i dislike"; "i don't like"; "i can't stand"; "favo"].
Definition needs_identity_scan_ci (text : string) : bool := existsb (contains_ascii_ci text) IDENTITY_TRIGGERS.
Definition needs_preference_scan_ci (text : string) : bool := existsb (contains_ascii_ci text) PREFERENCE_TRIGGERS.
Definition needs_relationship_scan_ci (text : string) : bool := contains_ascii_ci text "my ".
Definition needs_extract_facts_lower (text : string) : bool :=
  needs_identity_scan_ci text || needs_preference_scan_ci text || needs_relationship_scan_ci text.

Definition extract_favorite (text : string) : option string :=
  '(_, after) ← split_once text "my favo";
  '(before_is, after_is) ← split_once ("my favo" +:+ after) " is ";
  thing ← strip_prefix before_is "my favorite " <|> strip_prefix before_is "my favourite ";
  let value := value_of ["."; ","; "!"] (trim after_is) in
  when (nonempty value) ("User's favorite " +:+ trim thing +:+ " is " +:+ value).

Definition RELATIONS : list string :=
  ["wife"; "husband"; "partner"; "son"; "daughter"; "mom"; "dad"; "mother"; "father"; "brother"; "sister"; "friend";
   "dog"; "cat"; "pet"; "child"; "baby"; "boyfriend"; "girlfriend"].
Definition RELATIONSHIP_PATTERNS : list (string * list string) :=
  (fun r => (r, ["my " +:+ r +:+ " is named "; "my " +:+ r +:+ "'s name is "; "my " +:+ r +:+ " is called "])) <$> RELATIONS.

Definition favorites (lower : string) : list ExtractedFact :=
  match (if contains lower "favo" then extract_favorite lower else None) with
  | Some fav => [{| fact_category := "preference"; fact_content := fav |}]
  | None => []
  end.

Section capture.
Context `{U : Unicode}.

(** The first character in upper case. *)
Definition capitalize (s : string) : string :=
  match chars s with [] => "" | c :: cs => to_uppercase c +:+ concat_str cs end.

Definition relation_name (rest : string) : string :=
  default "" (head (split_where (fun c => negb (is_alphanumeric c) && negb (String.eqb c "'")) rest)).
Definition relations_of (text : string) (p : string * list string) : list (string * string) :=
  filter_map (fun pat =>
    '(_, rest) ← split_once text pat;
    let name := relation_name rest in when (nonempty name) (p.1, name)) p.2.
Definition extract_relationships (text : string) : list (string * string) :=
  if contains text "my " then mjoin (relations_of text <$> RELATIONSHIP_PATTERNS) else [].

(** [&text[PREFIX.len()..]] after a test of the prefix. *)
Definition extract_remember (text : string) : option string :=
  if starts_with_ascii_ci text "remember" then
    let rest := trim (sdrop 8 text) in
    let rest := trim (default rest (strip_prefix rest "that")) in
    when (nonempty rest) rest
  else None.

(** ** Facts *)

Definition fact (category content : string) : ExtractedFact := {| fact_category := category; fact_content := content |}.
Definition facts_from (category prefix : string) (value : option string) : list ExtractedFact :=
  match value with Some v => [fact category (prefix +:+ v)] | None => [] end.

Definition occupation (lower : string) : option string :=
  opt_filter (fun job => negb (starts_any job ["bit "; "lot "; "fan "]))
    (extract_pattern lower ["i'm a "; "i am a "; "i work as a "; "i work as an "]).

Definition identity_facts (lower : string) : list ExtractedFact :=
  facts_from "identity" "User's name is " (capitalize <$> extract_pattern lower ["my name is "; "call me "; "i'm called "]) ++
  match extract_age lower with
  | Some age => [fact "identity" ("User is " +:+ show_N age +:+ " years old")] | None => [] end ++
  facts_from "identity" "User works at "
    (extract_pattern lower ["i work at "; "i work for "; "i'm working at "; "i am working at "]) ++
  facts_from "identity" "User is a " (occupation lower) ++
  facts_from "identity" "User lives in "
    (extract_pattern lower ["i live in "; "i'm from "; "i am from "; "i'm based in "]).

Definition short_pattern (lower : string) (prefixes : list string) : option string :=
  opt_filter (fun pref => Nat.leb (length (split_whitespace pref)) 8) (extract_pattern lower prefixes).

Definition preference_facts (lower : string) : list ExtractedFact :=
  facts_from "preference" "User likes " (short_pattern lower ["i like "; "i love "; "i enjoy "; "i prefer "]) ++
  facts_from "preference" "User dislikes "
    (short_pattern lower ["i hate "; "i dislike "; "i don't like "; "i can't stand "]) ++
  favorites lower.

Definition relationship_facts (lower : string) : list ExtractedFact :=
  (fun '(relation, name) =>
     fact "relationship" ("User's " +:+ relation +:+ " is named " +:+ capitalize name)) <$> extract_relationships lower.

Definition remembered (trimmed : string) : list ExtractedFact :=
  match (if starts_with_ascii_ci trimmed "remember" then extract_remember trimmed else None) with
  | Some content => [fact "fact" content]
  | None => []
  end.

Definition extract_facts (text : string) : list ExtractedFact :=
  let trimmed := trim text in
  if negb (needs_extract_facts_lower text) then remembered trimmed
  else
    let lower := to_lowercase text in
    let facts :=
      (if needs_identity_scan_ci lower then identity_facts lower else []) ++
      (if needs_preference_scan_ci lower then preference_facts lower else []) ++
      relationship_facts lower in
    match facts with [] => remembered trimmed | _ => facts end.

(** What the patterns say, with no test before them. *)
Definition extract_facts_ungated (text : string) : list ExtractedFact :=
  let lower := to_lowercase text in
  match identity_facts lower ++ preference_facts lower ++ relationship_facts lower with
  | [] => remembered (trim text)
  | facts => facts
  end.

(** ** Storing them *)

Context `{H : StrHasher} `{G : Gmtime}.

(** Single-valued facts are exempt: a similar one is what they correct. *)
Definition is_similar_to_stored (category content : string) : run bool :=
  if is_single_valued_fact category content then ret (Ok false) else has_similar content.

(** The number of memories stored; a fact that fails is skipped. *)
Definition capture_fact (now : N) (f : ExtractedFact) : M (Conn Store) nat :=
  let category := fact_category f in
  let content := fact_content f in
  let! similar := is_similar_to_stored category content in
  match similar with
  | Ok false =>
      if decision_allowed (assess_memory_write category content) then
        let! outcome := store_resolved category content now in
        ret (match outcome with Ok o => if out_duplicate o then 0 else 1 | Err _ => 0 end)
      else ret 0
  | _ => ret 0
  end.

Fixpoint capture_facts (now : N) (facts : list ExtractedFact) : M (Conn Store) nat :=
  match facts with
  | [] => ret 0
  | f :: facts => let! n := capture_fact now f in let! rest := capture_facts now facts in ret (n + rest)
  end.

Definition extract_and_store (user_text : string) (now : N) : M (Conn Store) nat :=
  capture_facts now (extract_facts user_text).

(** ** The tests lose nothing *)

Definition folded (triggers : list string) : bool :=
  forallb (fun g => nonempty g && String.eqb (to_ascii_lowercase g) g) triggers.

Lemma scan_contains triggers text :
  folded triggers = true -> existsb (contains_ascii_ci text) triggers = contains_any (to_ascii_lowercase text) triggers.
Proof.
  unfold folded, contains_any. induction triggers as [|g l IH]; [done|]. cbn [forallb existsb]. intros Hg. bool_to_prop.
  rewrite IH by done. rewrite contains_ascii_ci_lower; [congruence|]. by intros ->.
Qed.

Lemma covered_phrase triggers phrases lower :
  covers triggers phrases = true -> contains_any lower phrases = true -> contains_any lower triggers = true.
Proof.
  unfold covers. rewrite forallb_elem. intros Hc (p & Hp & Hl)%existsb_elem.
  apply Hc, existsb_elem in Hp as (g & Hg & Hpg). apply existsb_elem. exists g. split; [done|]. by eapply contains_trans.
Qed.

Lemma split_once_found s p l r : split_once s p = Some (l, r) -> contains s p = true.
Proof. intros E. destruct (contains s p) eqn:Ec; [done|]. apply split_once_None in Ec. congruence. Qed.

Lemma find_split_found {B} (f : string -> string -> option B) lower ps v :
  find_map (fun p => '(_, rest) ← split_once lower p; f p rest) ps = Some v -> contains_any lower ps = true.
Proof.
  intros E. apply find_map_elem in E as (p & Hp & E). apply existsb_elem. exists p. split; [done|].
  destruct (split_once lower p) as [[b rest]|] eqn:Es; [|done]. by eapply split_once_found.
Qed.

Lemma pattern_none triggers ps lower :
  covers triggers ps = true -> contains_any lower triggers = false -> extract_pattern lower ps = None.
Proof.
  intros Hc Ht. destruct (extract_pattern lower ps) as [v|] eqn:E; [|done].
  apply find_split_found, (covered_phrase _ _ _ Hc) in E. congruence.
Qed.

Lemma age_none lower : contains_any lower IDENTITY_TRIGGERS = false -> extract_age lower = None.
Proof.
  intros Ht. destruct (extract_age lower) as [v|] eqn:E; [|done].
  apply find_split_found, (covered_phrase IDENTITY_TRIGGERS) in E; [congruence|by vm_compute].
Qed.

Lemma identity_needs_trigger lower : contains_any lower IDENTITY_TRIGGERS = false -> identity_facts lower = [].
Proof.
  intros Ht. unfold identity_facts, occupation. rewrite age_none by done.
  by rewrite !(pattern_none IDENTITY_TRIGGERS) by (done || by vm_compute).
Qed.

Lemma preference_needs_trigger lower : contains_any lower PREFERENCE_TRIGGERS = false -> preference_facts lower = [].
Proof.
  intros Ht. unfold preference_facts, short_pattern, favorites.
  rewrite !(pattern_none PREFERENCE_TRIGGERS) by (done || by vm_compute).
  destruct (contains lower "favo") eqn:Ef; [|done]. exfalso.
  assert (contains_any lower PREFERENCE_TRIGGERS = true); [|congruence].
  apply existsb_elem. exists "favo". split; [set_solver|done].
Qed.

(** The tests on the raw text and on its lowercase form lose no fact: from an
    ASCII utterance exactly those are read that the patterns find when all of
    them are tried. *)
Lemma capture_tests_lose_nothing `{!UnicodeLaws U} text :
  is_ascii text = true -> extract_facts text = extract_facts_ungated text.
Proof.
  intros Ha. unfold extract_facts, extract_facts_ungated, needs_extract_facts_lower, needs_relationship_scan_ci,
    needs_identity_scan_ci, needs_preference_scan_ci.
  rewrite to_lowercase_ascii by done. set (lower := to_ascii_lowercase text).
  assert (to_ascii_lowercase lower = lower) as Hl by apply lower_idem.
  rewrite !scan_contains by by vm_compute. rewrite contains_ascii_ci_lower by done. rewrite Hl. fold lower.
  change (to_ascii_lowercase "my ") with "my ".
  assert ((if contains_any lower IDENTITY_TRIGGERS then identity_facts lower else []) = identity_facts lower) as ->.
  { destruct (contains_any lower IDENTITY_TRIGGERS) eqn:Hi; [done|]. by rewrite identity_needs_trigger. }
  assert ((if contains_any lower PREFERENCE_TRIGGERS then preference_facts lower else []) = preference_facts lower) as ->.
  { destruct (contains_any lower PREFERENCE_TRIGGERS) eqn:Hp; [done|]. by rewrite preference_needs_trigger. }
  destruct (contains_any lower IDENTITY_TRIGGERS || contains_any lower PREFERENCE_TRIGGERS || contains lower "my ") eqn:Hg;
    [by destruct (identity_facts lower ++ preference_facts lower ++ relationship_facts lower)|].
  apply orb_false_iff in Hg as [[Hi Hp]%orb_false_iff Hm]. unfold relationship_facts, extract_relationships.
  by rewrite Hm, identity_needs_trigger, preference_needs_trigger.
Qed.

(** ** What a captured value is *)

Lemma contains_infix l m r p : contains m p = true -> contains (l +:+ (m +:+ r)) p = true.
Proof. intros Hp. by apply contains_app_r, contains_app_l. Qed.

Lemma substring_prefix n s : exists r, s = String.substring 0 n s +:+ r.
Proof.
  revert n. induction s as [|a s IH]; intros [|n]; cbn; try by exists "".
  - by exists (String a s).
  - destruct (IH n) as [r Hr]. exists r. rewrite sapp_cons. by f_equal.
Qed.

Lemma prefix_before_contains s p l r n :
  split_once s p = Some (l, r) -> (n <= String.length l)%nat -> p <> "" -> contains (String.substring 0 n s) p = false.
Proof.
  revert l n. induction s as [|a s IH]; intros l n; cbn [split_once].
  - destruct p; [done|]. cbn. done.
  - destruct (starts_with (String a s) p) eqn:Es.
    { intros [= <- _] Hn Hp. destruct n; cbn in Hn; [|lia]. by destruct p. }
    destruct (split_once s p) as [[l' r']|] eqn:E; [|done]. intros [= <- ->] Hn Hp. destruct n as [|n]; [by destruct p|].
    cbn [String.substring contains]. rewrite (IH l' n) by (done || (cbn in Hn; lia) || congruence). rewrite orb_false_r.
    apply not_true_is_false. intros Es'.
    apply starts_with_spec in Es' as [t Ht]. destruct (substring_prefix n s) as [u Hu].
    assert (starts_with (String a s) p = true); [|congruence]. apply starts_with_spec. exists (t +:+ u).
    rewrite Hu at 1. rewrite sapp_assoc, <- Ht. by rewrite sapp_cons.
Qed.

Lemma contains_segment s l m k : chars s = l ++ m ++ k -> contains s (concat_str m) = true.
Proof.
  intros Hs. rewrite <- (concat_chars s), Hs, !concat_str_app. apply contains_spec. by eexists _, _.
Qed.

Lemma contains_trim_end s : contains s (trim_end s) = true.
Proof.
  unfold trim_end, trim_end_matches. destruct (drop_while_suffix is_whitespace (reverse (chars s))) as [k Hk].
  apply (f_equal reverse) in Hk. rewrite reverse_involutive, reverse_app in Hk. by apply (contains_segment s [] _ (reverse k)).
Qed.

Lemma contains_trim s : contains s (trim s) = true.
Proof.
  unfold trim. set (t := drop_while is_whitespace (chars s)).
  destruct (drop_while_suffix is_whitespace (reverse t)) as [k Hk].
  apply (f_equal reverse) in Hk. rewrite reverse_involutive, reverse_app in Hk.
  destruct (drop_while_suffix is_whitespace (chars s)) as [l Hl]. fold t in Hl. rewrite Hk in Hl. by eapply contains_segment.
Qed.

Lemma split_where_head p cur cs :
  exists m k, cs = m ++ k /\ head (split_where_aux p cur cs) = Some (cur +:+ concat_str m).
Proof.
  revert cur. induction cs as [|c cs IH]; intros cur; cbn [split_where_aux head].
  - exists [], []. cbn. by rewrite sapp_nil_r.
  - destruct (p c).
    + exists [], (c :: cs). cbn. by rewrite sapp_nil_r.
    + destruct (IH (cur +:+ c)) as (m & k & -> & Hh). exists (c :: m), k. split; [done|].
      rewrite Hh. cbn. by rewrite sapp_assoc.
Qed.

Lemma contains_sentence stops rest : contains rest (sentence_until stops rest) = true.
Proof.
  unfold sentence_until, split_where. destruct (split_where_head (fun c => is_one_of c stops) "" (chars rest)) as (m & k & Hm & ->).
  cbn. eapply contains_trans; [by apply (contains_segment rest [] m k)|apply contains_trim].
Qed.

Lemma foldl_min_le (f : string -> option nat) l n :
  let g := fun m x => match f x with Some b => Nat.min m b | None => m end in
  (foldl g n l <= n)%nat /\ forall x b, x ∈ l -> f x = Some b -> (foldl g n l <= b)%nat.
Proof.
  intros g. revert n. induction l as [|y l IH]; intros n; cbn [foldl].
  - split; [done|]. intros x b Hx. by apply not_elem_of_nil in Hx.
  - destruct (IH (g n y)) as [Hle Hall]. assert (g n y <= n)%nat by (unfold g; destruct (f y); lia).
    split; [lia|]. intros x b [->|Hx]%elem_of_cons E; [|by eapply Hall]. assert (g n y <= b)%nat by (unfold g; rewrite E; lia). lia.
Qed.

Lemma first_clause_stops value marker :
  marker ∈ VALUE_BOUNDARY_MARKERS -> contains (first_clause value) marker = false.
Proof.
  intros Hm. apply not_true_is_false. intros Hc. unfold first_clause in Hc.
  assert (contains (String.substring 0 (clause_end value) value) marker = true) as Hs.
  { eapply contains_trans; [apply contains_trim_end|exact Hc]. }
  assert (marker <> "") as Hne.
  { intros ->. assert (forallb nonempty VALUE_BOUNDARY_MARKERS = true) as Hall by by vm_compute.
    rewrite forallb_elem in Hall. by apply Hall in Hm. }
  destruct (foldl_min_le (find_marker value) VALUE_BOUNDARY_MARKERS (String.length value)) as [_ Hle].
  specialize (Hle marker). unfold find_marker at 1 in Hle.
  destruct (split_once value marker) as [[b r]|] eqn:E.
  - assert (clause_end value <= String.length b)%nat as Hb by by apply Hle.
    by rewrite (prefix_before_contains _ _ _ _ _ E Hb Hne) in Hs.
  - apply split_once_None in E. destruct (substring_prefix (clause_end value) value) as [u Hu].
    rewrite Hu in E. rewrite contains_app_l in E by done. done.
Qed.

(** A value read after one of the prefixes is said after that prefix, is not
    empty, has at most ten words, and ends before every conjunction and
    subordinate clause. *)
Lemma captured_value_is_one_clause text prefixes v :
  extract_pattern text prefixes = Some v ->
  v <> "" /\ (length (split_whitespace v) <= 10)%nat /\
  (exists prefix before rest, prefix ∈ prefixes /\ text = before +:+ (prefix +:+ rest) /\ contains rest v = true) /\
  Forall (fun marker => contains v marker = false) VALUE_BOUNDARY_MARKERS.
Proof.
  intros (prefix & Hp & E)%find_map_elem. destruct (split_once text prefix) as [[before rest]|] eqn:Es; [|done].
  cbn in E. apply when_Some in E as [Hc <-]. bool_to_prop. split; [by intros Hv; rewrite Hv in *|]. split; [done|].
  set (sentence := sentence_until ["."; ","; "!"; "?"] rest). unfold value_of. fold sentence.
  assert (contains sentence (trim (first_clause sentence)) = true) as Hv.
  { eapply contains_trans; [|apply contains_trim]. eapply contains_trans; [|apply contains_trim_end].
    destruct (substring_prefix (clause_end sentence) sentence) as [u Hu]. rewrite Hu at 1.
    apply contains_app_l, contains_spec. exists "", "". by rewrite sapp_nil_r. }
  split.
  - exists prefix, before, rest. split; [done|]. split; [by apply split_once_Some in Es|].
    eapply contains_trans; [apply contains_sentence|exact Hv].
  - apply Forall_forall. intros marker Hm. apply not_true_is_false. intros Hc'.
    assert (contains (first_clause sentence) marker = true); [|by rewrite first_clause_stops in *].
    eapply contains_trans; [apply contains_trim|exact Hc'].
Qed.

(** ** What is stored *)

Lemma capture_keeps (P : Store -> Prop) now xs c :
  (forall x, x ∈ xs -> decision_allowed (assess_memory_write (fact_category x) (fact_content x)) = true ->
     keeps P (store_resolved (fact_category x) (fact_content x) now)) ->
  P (tables c) -> P (tables (capture_facts now xs c).2).
Proof.
  revert c. induction xs as [|x xs IH]; intros c Hx Hc; [done|]. cbn [capture_facts]. unfold bind at 1.
  destruct (capture_fact now x c) as [n c1] eqn:E. unfold bind.
  assert (P (tables c1)) as H1.
  { revert E. unfold capture_fact, bind at 1.
    assert (keeps P (is_similar_to_stored (fact_category x) (fact_content x))) as Hsim.
    { apply keeps_if; [apply holds_ret|]. unfold has_similar. case_match; [apply holds_ret|apply keeps_query]. }
    specialize (Hsim c Hc). destruct (is_similar_to_stored _ _ c) as [similar c2]. cbn in Hsim.
    destruct similar as [[|]|]; try by intros [= _ <-].
    destruct (decision_allowed _) eqn:Ha; [|by intros [= _ <-]]. unfold bind. intros E.
    specialize (Hx x ltac:(set_solver) Ha c2 Hsim). destruct (store_resolved _ _ now c2) as [r c3]. by injection E as _ <-. }
  specialize (IH c1 ltac:(set_solver) H1). by destruct (capture_facts now xs c1).
Qed.

(** Whatever fails on the way, each fact the store holds after a turn was
    there before it, or was read from the utterance and allowed by the write
    policy; it has the policy of its own text. *)
Lemma capture_stores_what_is_allowed text now c f :
  f ∈ facts (tables (extract_and_store text now c).2) ->
  f ∈ facts (tables c) \/
  exists x, x ∈ extract_facts text /\
    decision_allowed (assess_memory_write (fact_category x) (fact_content x)) = true /\
    f = stored_fact (fc_id f) (fact_category x) (normalize_memory_content (fact_content x)).
Proof.
  set (Q := fun fs : list Fact => forall f, f ∈ fs -> f ∈ facts (tables c) \/
    exists x, x ∈ extract_facts text /\
      decision_allowed (assess_memory_write (fact_category x) (fact_content x)) = true /\
      f = stored_fact (fc_id f) (fact_category x) (normalize_memory_content (fact_content x))).
  assert (Q (facts (tables (extract_and_store text now c).2))) as HQ; [|by apply HQ].
  apply (capture_keeps (fun s => Q (facts s))); [|by left].
  intros x Hx Ha. apply (keeps_resolved_facts Q).
  - intros id fs Hfs g Hg. apply Hfs. by apply elem_of_without_id in Hg as [Hg _].
  - intros id fs Hfs g [Hg| ->%list_elem_of_singleton]%elem_of_app; [by apply Hfs|]. right. by exists x.
Qed.

Lemma capture_keeps_policed text now c : policed (tables c) -> policed (tables (extract_and_store text now c).2).
Proof. apply capture_keeps. intros. apply keeps_store_resolved. Qed.

End capture.

(** ** Runs *)

Section runs.
#[local] Existing Instances ascii_tables one_bucket first_day.

Example utterances :
  extract_facts <$> ["My name is dana and I love coding."; "I'm 25 years old. I live in Oslo, by the sea";
                     "my dog is called Rex"; "Remember that the bins go out on Monday"; "what time is it"] =
  [[fact "identity" "User's name is Dana"; fact "preference" "User likes coding"];
   [fact "identity" "User is 25 years old"; fact "identity" "User lives in oslo"];
   [fact "relationship" "User's dog is named Rex"];
   [fact "fact" "the bins go out on Monday"]; []].
Proof. by vm_compute. Qed.

(** [that] is cut from the front of a longer word. *)
Example that_is_cut_from_a_word :
  extract_facts "Remember thatched roofs burn" = [fact "fact" "ched roofs burn"].
Proof. by vm_compute. Qed.

(** A trigger phrase split by a second space passes the write policy, and is
    stored with the space taken out. *)
Definition spaced_secret : string := "Remember the alarm  code is 1234".
Lemma spaced_secret_is_stored :
  decision_allowed (assess_memory_write "fact" "the alarm code is 1234") = false /\
  (mem_content <$> memories (tables (extract_and_store spaced_secret 1000 (fresh [])).2)) = ["the alarm code is 1234"].
Proof. by vm_compute. Qed.

Lemma capture_tests_lose_nothing_witness :
  extract_facts "I like tea" = extract_facts_ungated "I like tea".
Proof. apply capture_tests_lose_nothing. by vm_compute. Defined.

Lemma captured_value_is_one_clause_witness :
  extract_pattern "my name is dana and i code" ["my name is "] = Some "dana" /\
  Forall (fun marker => contains "dana" marker = false) VALUE_BOUNDARY_MARKERS.
Proof.
  assert (extract_pattern "my name is dana and i code" ["my name is "] = Some "dana") as E by by vm_compute.
  split; [exact E|]. apply (captured_value_is_one_clause _ _ _ E).
Defined.

Lemma capture_stores_what_is_allowed_witness :
  let f := {| fc_id := 1; fc_kind := "identity"; fc_content := "User's name is Dana";
              fc_metadata := infer_metadata "identity" "User's name is Dana" |} in
  f ∈ facts empty_store \/
  exists x, x ∈ extract_facts "My name is Dana" /\
    decision_allowed (assess_memory_write (fact_category x) (fact_content x)) = true /\
    f = stored_fact 1 (fact_category x) (normalize_memory_content (fact_content x)).
Proof.
  apply (capture_stores_what_is_allowed "My name is Dana" 1000 (fresh [])).
  vm_compute. apply list_elem_of_here.
Defined.

End runs.
