(* ===== verification/MemoryQuestions.v ===== *)
(** * What a question asks of the household tables ([memory/mod.rs])

    The recognisers of [structured_household_answer]: each reads out of a
    question the keys its table is searched by, or sees that the question is not
    one of its own. *)

From S2P Require Import Prelude RustStr RustNum MemoryPolicy MemoryText MemoryTypes MemoryExtract.
Local Open Scope string_scope.
Local Open Scope list_scope.
Local Open Scope rust_scope.

(** The words before the first [marker] of [rest], as a name. *)
Definition person_before (rest marker : string) : option string :=
  '(person, _) ← split_once_case_insensitive rest (to_ascii_lowercase rest) marker; Some (clean_person_name person).

(** A recogniser that has seen its words gives up on the whole question where
    no one is named the way it expects; an empty name leaves it to the next. *)
Definition asked_of {A} (asked : bool) (person : option string) (answer : string -> A) (rest : option A) : option A :=
  if asked then
    match person with
    | None => None
    | Some person => if is_empty person then rest else Some (answer person)
    end
  else rest.

(** ** People and rules *)

Definition profile_attribute_query (query : string) : option (string * string) :=
  let query := trim query in
  let lower := to_ascii_lowercase query in
  let named prefix marker attribute :=
    person ← person_before (sdrop (String.length prefix) query) marker; Some (person, attribute) in
  match strip_prefix lower "how old is ", strip_prefix lower "what age is " with
  | Some name, _ | None, Some name => Some (clean_person_name name, "age")
  | None, None =>
      if starts_with lower "what does " && contains lower " like" then named "what does " " like" "likes"
      else if starts_with lower "what size shoe does " && contains lower " wear" then
        named "what size shoe does " " wear" "shoe_size"
      else if starts_with lower "what shoe size does " && contains lower " wear" then
        named "what shoe size does " " wear" "shoe_size"
      else None
  end.

(** Some question about allergies, perhaps about one in particular. *)
Definition allergy_query_subject (query : string) : option (option string) :=
  let lower := to_ascii_lowercase query in
  if contains_any lower ["allergic"; "allergy"] then
    match split_once_case_insensitive query lower " allergic to " with
    | Some (_, subject) => Some (Some (normalize_rule_subject subject))
    | None => if contains lower "peanut" then Some (Some "peanut") else Some None
    end
  else None.

(** [(person, subject, time)]. *)
Definition allowed_rule_query (query : string) : option (string * string * option string) :=
  let lower := to_ascii_lowercase query in
  if starts_with lower "is " && contains lower " allowed" then
    person ← person_before (sdrop 3 query) " allowed";
    if is_empty person then None
    else
      subject ← first_rule
        [(contains_any lower ["video game"; "gaming"], "video_games"); (contains lower "screen time", "screen_time")];
      Some (person, subject, time_after_marker query lower " after ")
  else None.

Definition homework_rule_query (query : string) : option string :=
  let lower := to_ascii_lowercase query in
  if contains lower "homework" then
    find_map (fun marker => rest ← strip_prefix lower marker; opt_nonempty (clean_person_name (before rest "'s")))
      ["show me "; "what are "; "what is "]
    <|> leading_person_name query
  else None.

(** ** The calendar *)

Definition does_or_do (query lower : string) : string := sdrop (if starts_with lower "does " then 5 else 3) query.

Definition appointment_person (query lower : string) : option string :=
  match strip_prefix lower "when is " with
  | Some rest => Some (clean_person_name (before rest "'s"))
  | None => if starts_any lower ["does "; "do "] then person_before (does_or_do query lower) " have " else None
  end.

(** [(person, event type, day)]. *)
Definition calendar_event_query (query : string) : option (string * string * option string) :=
  let lower := to_ascii_lowercase query in
  let event t person := (person, t, calendar_day_from_text lower) in
  asked_of (contains_any lower ["vet"; "checkup"] && contains lower "appointment")
    (appointment_person query lower) (event "vet_appointment")
    (asked_of (contains lower "dentist" && contains lower "appointment")
       (appointment_person query lower) (event "dentist_appointment")
       (asked_of (starts_any lower ["does "; "do "] && contains lower " have " && contains lower "piano")
          (person_before (does_or_do query lower) " have ") (event "piano_lesson") None)).

Definition school_pickup_query (query : string) : option string :=
  let lower := to_ascii_lowercase query in
  if contains_any lower ["picking up the kids"; "picking up kids"; "school pickup"] then
    calendar_day_from_text lower <|> Some "today"
  else None.

(** ** Devices, lists and tasks *)

(** [(person, action, device)]. *)
Definition access_permission_query (query : string) : option (string * string * string) :=
  let lower := to_ascii_lowercase query in
  if starts_with lower "can " && contains lower " unlock " then
    let rest := sdrop 4 query in
    '(person, device) ← split_once_case_insensitive rest (to_ascii_lowercase rest) " unlock ";
    let person := clean_person_name person in
    let device := clean_device_phrase device in
    if is_empty person || is_empty device then None else Some (person, "unlock", device)
  else None.

Definition shopping_list_query (query : string) : bool :=
  let lower := to_ascii_lowercase query in
  contains lower "shopping list" && starts_any lower ["what"; "show"; "what is on"; "what's on"].

Definition INVENTORY_PATTERNS : list (string * string) :=
  [("do we have any ", " left"); ("do we have ", " left"); ("do we have any ", ""); ("do we have ", "");
   ("are there any ", " left"); ("are there ", " left")].

Definition inventory_item_query (query : string) : option string :=
  let lower := to_ascii_lowercase (clean_sentence_value query) in
  find_map (fun '(prefix, suffix) =>
    rest ← strip_prefix lower prefix;
    item ← (if is_empty suffix then Some rest else strip_suffix rest suffix);
    opt_nonempty (trim (trim_start_str (trim_start_str (clean_sentence_value item) "any ") "the ")))
    INVENTORY_PATTERNS.

Record TaskQuery := { tq_person : string; tq_task : string; tq_subject : option string; tq_day : option string }.

Definition task_log_query (query : string) : option TaskQuery :=
  let lower := to_ascii_lowercase query in
  if starts_with lower "did " && contains_any lower [" feed "; " fed "; " brush "; " brushed "] then
    person ← find_map (person_before (sdrop 4 query)) [" feed "; " fed "; " brush "; " brushed "];
    if is_empty person then None
    else
      let task := if contains_any lower ["brush"; "brushed"] then "brush_teeth" else "feeding" in
      let fed := String.eqb task "feeding" in
      Some {| tq_person := person; tq_task := task;
              tq_subject := first_rule [(fed && contains lower "dog", "dog"); (fed && contains lower "cat", "cat")];
              tq_day := calendar_day_from_text lower <|> Some "today" |}
  else None.

Definition everyone_brush_teeth_query (query : string) : option string :=
  let lower := to_ascii_lowercase query in
  when (starts_with lower "did everyone" && contains lower "brush" && contains lower "teeth")
    (default "today" (calendar_day_from_text lower)).

(** ** Playlists *)

Definition media_playlist_query (query : string) : option (option string * string) :=
  let normalized := normalize_alias_key query in
  if contains normalized "playlist" then
    let played := find_map (fun prefix => trim <$> strip_prefix normalized prefix) ["please play "; "play "; "start "; "put on "] in
    let text := trim (trim_end_str (trim_end_str (default normalized played) " on spotify") " playlist") in
    if is_empty text then None
    else
      let '(owner, name_tokens) :=
        match split_whitespace text with
        | owner :: "s" :: ((_ :: _) as name) => (Some (clean_person_name owner), name)
        | first :: name as tokens => if is_one_of first ["my"; "our"; "the"] then (None, name) else (None, tokens)
        | [] => (None, [])
        end in
      let name := join " " name_tokens in
      if is_empty name then None else Some (owner, name)
  else None.

(** ** Notes *)

Definition NOTE_PREFIXES : list string :=
  ["what did i say about "; "what did we say about "; "find my note about "; "find note about ";
   "find the note about "; "show my note about "; "show the note about "; "what is the note about ";
   "what did i write about "; "what did we write about "; "what did the vet say about ";
   "what did the mechanic say about "; "find our note about "; "find the record about "; "find record about ";
   "find the warranty for "; "find warranty for "; "what is the warranty for "; "what s the warranty for ";
   "what's the warranty for "; "find the receipt for "; "find receipt for "; "find my essay draft about ";
   "find the essay draft about "; "find the manual for "; "find the user manual for "; "find manual for ";
   "where did i save "; "find the instructions for "; "find instructions for "; "who do we call for ";
   "what is the phone number for "; "what s the phone number for "; "what's the phone number for ";
   "what is the ip address of "; "what s the ip address of "; "what's the ip address of "; "find anything about "].

Definition NOTE_STARTS : list string :=
  ["where are "; "where is "; "where s "; "where did i put "; "where did we put "; "where are the ";
   "what color is "; "what colour is "; "what color did we paint "; "what colour did we paint ";
   "what's the model number "; "what s the model number "; "what is the model number ";
   "what is the license plate"; "what s the license plate"; "what's the license plate"; "find the sewing kit";
   "find the manual for the car"; "who took the photos "; "we have a leak "; "there is a leak ";
   "how do i clean "; "how do we clean "; "how do i remove "; "how do we remove "; "how do i reset ";
   "how do we reset "; "how long do i boil "; "how long should i boil "; "what bin does ";
   "tell me the dinosaur fact"; "what did we have for dinner "; "find the recipe for "; "what is the school";
   "what s the school"; "what's the school"; "what is the doctor"; "what s the doctor"; "what's the doctor";
   "what is the vet"; "what s the vet"; "what's the vet"; "what is the phone number for ";
   "what s the phone number for "; "what's the phone number for "; "what is the ip address of ";
   "what s the ip address of "; "what's the ip address of "; "who do we call for ";
   "what's on the hardware store list"; "what s on the hardware store list";
   "what is on the hardware store list"; "where did we put "; "where did i put "; "where are the tax documents";
   "when is the next trash pickup"].

Definition NOTE_PHRASES : list string :=
  ["science fair checklist"; "air fryer manual"; "which filter"; "dishwasher error"; "tablet charger";
   "saturday morning routine"; "what groceries are low"; "what s next before school";
   "what's next before school"; "can i watch cartoons"; "can i have a snack"; "coming to dinner tonight";
   "did i finish my chores"; "what time is my bus"; "bus tomorrow"; "which leftovers should we eat first";
   "did mom approve my sleepover"; "pajama day"; "allergy action plan"; "car keys"; "robot vacuum stuck";
   "who changed the thermostat"; "ladder safety"; "bathroom mirror"; "package still on the porch";
   "allergy medicine"; "dinosaur fact"; "what s making that beeping sound"; "what's making that beeping sound";
   "porch light still on"; "allowed to play outside"; "wet soccer shoes"; "when did the laundry finish";
   "blue paint"; "did my laundry get moved"; "safest way out"; "which breaker controls the dishwasher";
   "trash day"; "red hoodie"; "lego cleanup"; "ants"; "garbage bins"; "camping flashlight";
   "why didn t the sprinklers run"; "why didn't the sprinklers run"; "homework needs internet"; "use the stove";
   "cold medicine"; "fridge door"; "sensors need batteries"; "library book"; "alarm not go off";
   "plants need attention"; "blue cup"; "side gate"; "recital outfit"; "bathroom free"; "away mode fail";
   "guest speaker"; "end of day"; "end-of-day"; "after dinner cleanup"; "after-dinner cleanup";
   "upstairs lights"; "board games"; "basement humid"; "test practice"; "rain boots"; "charging tonight";
   "cold after bath"; "basement flood check"; "next filter change"; "glarey"; "front door locked after";
   "water heater receipt"; "quiet drawing"; "print my homework"; "noisy appliance"; "tooth fairy box";
   "white extension cord"; "changed in the garage today"; "stairs bright"; "water my plant";
   "security alarm chirp"; "use the microwave"; "rehearsal comfort"; "who s in the backyard";
   "who's in the backyard"; "workshop dust control"; "bedtime chart"; "closet light";
   "upstairs window before the rain"; "low power mode"; "low-power mode"; "vaccination form"; "field trip form";
   "animal show"; "guest wi fi"; "guest wifi"; "guest wi-fi"; "front entry lights"; "side path icy"; "dripping";
   "office internet slow"; "school night reset"; "school-night reset"; "photo backdrop"; "red marker";
   "chores did leo skip"; "mirror lights"; "cat sleep"; "grilling"; "purifier on high"; "swim meet";
   "outdoor cameras need cleaning"; "garage close after jared"; "project list"; "scared to go downstairs";
   "dinner warm"; "feed the cat too much"; "oldest thing in the fridge"; "outside is cleaner"; "lamp flickering";
   "open the garage door"; "holiday lighting"; "shutoff valve"; "rainy day alarm"; "rainy-day alarm";
   "soccer practice"; "bypass a sensor"; "guest breakfast"; "winter poem"; "laundry room not scary";
   "water pressure"; "hallway camera"; "cookies are cool"; "vacuum avoid"; "toddler gate"; "room smells weird";
   "dad see my message"; "laundry leaks again"; "backpacks are by the door"; "alarm skip holidays";
   "morning checklist"; "green bowl"; "practice drums"; "automation fired"; "final safety sweep"].

Definition NOTE_PAIRS : list (string * string) :=
  [("front door", "grandma"); ("debate", "school lunch"); ("coffee", "wake"); ("fan on low", "sleep");
   ("slow cooker", "timer chart"); ("garage camera", "bike"); ("puzzle", "dad"); ("temporary code", "grandma");
   ("upstairs cooler", "leo"); ("family dinner", "screens"); ("chicken recipe", "peanut");
   ("freezer", "above 10"); ("next step", "cookies"); ("furnace", "code 31"); ("quiet time", "wednesday");
   ("oven", "preheat"); ("privacy report", "cameras"); ("flashlight", "lights go out");
   ("upstairs warmer", "kids"); ("tournament", "snacks")].

Definition asks_for_note (lower : string) : bool :=
  starts_any lower NOTE_STARTS || contains_any lower NOTE_PHRASES
  || existsb (fun p => contains lower p.1 && contains lower p.2) NOTE_PAIRS
  || starts_with lower "find the " && contains lower " warranty"
  || contains lower "grandma" && contains_any lower ["wi fi note"; "wi-fi note"; "wifi note"].

(** What the notes are searched for. *)
Definition household_note_query (query : string) : option string :=
  let query := trim query in
  let lower := to_ascii_lowercase query in
  find_map (fun prefix => rest ← strip_prefix lower prefix; opt_nonempty (clean_sentence_value rest)) NOTE_PREFIXES
  <|> when (asks_for_note lower
            || starts_any lower ["what did we watch about "; "what did i watch about "; "what movie "; "what was that movie "])
        query.

Section unicode.
Context `{U : Unicode}.

(** ** Schedules and events *)

Definition asked_channel (query : string) : string :=
  clean_sentence_value (trim (fold_left trim_start_str ["What channel is "; "what channel is "; "what channel s "] query)).

(** [(schedule type, subject, day)]. *)
Definition schedule_item_query (query : string) : option (string * option string * option string) :=
  let lower := to_ascii_lowercase query in
  let has := contains lower in
  let day := calendar_day_from_text lower in
  let channel := asked_channel query in
  first_rule
    [(starts_any lower ["what channel is "; "what channel s "] && nonempty channel, ("channel_guide", Some channel, None));
     (has "tv tonight" || has "on tv tonight", ("tv_tonight", Some "tv tonight", Some "today"));
     (has "city council" && has "meeting", ("community_meeting", Some "city council", day));
     (has "sunset" || has "sun set", ("sunset", Some "sunset", day <|> Some "today"));
     (has "bus" && has "tomorrow" && (has "what time" || has "pickup"), ("school_bus_arrival", None, Some "tomorrow"));
     (has "school bus" && (has "arrive" || has "what time"), ("school_bus_arrival", Some "school bus", day));
     (has "bill" && has "due", ("bill_due", bill_subject_from_text query lower, day));
     (has "recycling week" || has "recycling day", ("recycling", Some "recycling", day));
     (has "trash pickup" || has "trash day", ("trash_pickup", Some "trash", day));
     (has "conference" && (has "parent-teacher" || has "parent teacher"), ("school_conference", None, day));
     (has "community pool" || has "pool" && has "open",
        ("community_facility_hours", Some "community pool", day <|> Some "today"));
     (has "library" && (has "close" || has "hours"), ("business_hours", Some "library", day));
     (has "subscription" && (has "due" || has "renew"), ("subscription_renewal", None, day))].

Definition asks_my_weight (lower : string) : bool :=
  is_one_of lower ["what is my weight"; "what's my weight"; "what s my weight"]
  || contains lower "my weight" && starts_with lower "what".

(** [(event type, action, subject)]. *)
Definition event_log_query (query : string) : option (string * string * option string) :=
  let lower := to_ascii_lowercase query in
  let has := contains lower in
  let after_is := sdrop 3 query in
  let after_did := sdrop 4 query in
  first_rule
    [(has "credit score", ("finance", "credit_score", Some "credit score"));
     (has "stock price", ("finance", "stock_price", None));
     (has "vo2 max", ("health", "vo2_max", Some "vo2 max"));
     (asks_my_weight lower, ("health", "weight_reading", Some "weight"));
     (has "dishwasher" && (has "clean" || has "dirty"), ("appliance_state", "clean_status", Some "dishwasher"));
     (starts_with lower "did " && has "trash truck", ("waste", "collection", Some "trash"));
     (has "temperature" && has "attic", ("environment", "temperature", Some "attic"))]
  <|> asked_of (starts_with lower "is " && has "home from school") (person_before after_is " home from school")
        (fun person => ("location", "home_arrival", Some person))
      (asked_of (starts_with lower "is " && (ends_with lower " home" || ends_with lower " home?"))
        (person_before after_is " home") (fun person => ("location", "presence_home", Some person))
      (first_rule
        [(has "who opened the garage door", ("access", "open", Some "garage door"));
         (starts_with lower "who " && (has "turned off the security system" || has "disarmed the security system"
                                       || has "turned off security system"),
            ("security", "disarm", Some "security system"))]
      <|> asked_of (starts_with lower "did " && has "allowance")
            (find_map (person_before after_did) [" get "; " receive "; " received "])
            (fun person => ("finance", "allowance", Some person))
          (when (starts_with lower "did " && has "pay" && has "bill")
             ("finance", "paid_bill", bill_subject_from_text query lower)))).

(** ** Secrets *)

Definition asked_label_rules (lower secret_type : string) : list (bool * string) :=
  let typed := is_one_of secret_type in [
  (contains lower "guest" && typed ["wifi_password"; "password"], "guest wifi");
  (contains lower "printer" && typed ["wifi_password"], "printer wifi");
  (contains lower "xbox" && typed ["wifi_password"], "Xbox wifi");
  (contains lower "locker" && typed ["combination"; "lock_code"],
   if contains lower "mia" then "Mia locker combination" else "locker combination");
  (contains lower "shed" && typed ["combination"; "lock_code"], "shed combination");
  (contains lower "netflix" && typed ["password"], "Netflix account");
  (contains lower "bank" && typed ["password"], "bank login");
  (typed ["secure_location"] && contains lower "key", "spare keys");
  (typed ["confirmation_number"] && contains lower "hotel", "hotel confirmation number");
  (typed ["account_number"] && contains lower "gas", "gas bill account number");
  (contains_any lower ["wifi"; "wi-fi"; "wi fi"], "wifi")].

(** [(secret type, label)]. *)
Definition secret_reference_query (query : string) : option (string * string) :=
  let lower := to_ascii_lowercase query in
  if contains lower "guest speaker" then None
  else
    secret_type ← secret_type_from_text lower;
    if contains_any lower
         ["what"; "show"; "find"; "where"; "password"; "code"; "combo"; "key"; "number"; "login"; "credential"] then
      Some (secret_type, default (join " " (search_tokens query)) (first_rule (asked_label_rules lower secret_type)))
    else None.

End unicode.
