(* ===== verification/MemoryAnswers.v ===== *)
(** * Answers from the household tables ([memory/mod.rs], [structured_household_answer])

    The queries of the projected tables, the sentences they are answered with,
    and the order in which the kinds of question are tried.  An answer only
    reads: what it says comes from the rows. *)

From S2P Require Import Prelude RustStr RustNum Sql MemoryPolicy MemoryText MemoryTypes MemoryExtract Embedding MemoryTables MemoryCanon MemoryStore MemoryQuestions.
Local Open Scope string_scope.
Local Open Scope list_scope.
Local Open Scope rust_scope.

(** The ids of [household_notes_fts MATCH q], best first; the index is SQLite's. *)
Class NoteFts := { notes_match : list (Z * HouseholdNote) -> string -> list Z }.

(** ** Reading a table *)

(** [ORDER BY updated_ms DESC, source_memory_id DESC]. *)
Definition newer (a b : Row) : bool :=
  (updated_ms b <? updated_ms a)%N || (updated_ms a =? updated_ms b)%N && (source_memory_id b <? source_memory_id a)%Z.
Definition by_recency (a b : Row) : Prop := newer b a = false.
#[export] Instance by_recency_dec a b : Decision (by_recency a b).
Proof. unfold by_recency. apply _. Defined.

(** What a [WHERE] clause selects. *)
Definition clause (A : Type) : Type := Projection -> option A.

Definition select {A} (f : clause A) (rs : list Row) : list A := filter_map (fun r => f (row_data r)) rs.
Definition newest_first {A} (f : clause A) (s : Store) : list A := select f (order_by by_recency (rows s)).

(** [ORDER BY CASE WHEN preferred THEN 0 ELSE 1 END, ..], the sort being stable. *)
Definition by_preference {A} (preferred : A -> bool) (a b : A) : Prop := preferred b = true -> preferred a = true.
#[export] Instance by_preference_dec {A} (preferred : A -> bool) a b : Decision (by_preference preferred a b).
Proof. unfold by_preference. destruct (preferred b), (preferred a); (left; by intros) || (right; by intros H; specialize (H eq_refl)). Defined.

(** [x LIKE '%' || y || '%'], for a [y] that may be NULL. *)
Definition like_opt (x : string) (y : option string) : bool := match y with Some y => like x y | None => false end.
Definition opt_like (x : option string) (y : string) : bool := match x with Some x => like x y | None => false end.
(** [y IS NULL OR x = y], for a parameter [y]. *)
Definition any_or_eq (y : option string) (x : option string) : bool := match y with Some _ => bool_decide (x = y) | None => true end.

(** ** The queries *)

(** [(name, role)], of the role's rows. *)
Definition household_profiles_by_role (role : string) : run (list (string * string)) :=
  match normalize_household_role role with
  | None => ret (Ok [])
  | Some role =>
      query (newest_first (fun p => match p with ProfileRow name r => when (String.eqb r role) (name, r) | _ => None end))
  end.

(** An alias row joined with its memory. *)
Record AliasHit := { hit_row : Row; hit_memory : MemoryRow; hit_alias : string; hit_key : string; hit_target : string; hit_kind : string }.

Definition alias_hits (s : Store) : list AliasHit :=
  filter_map (fun r =>
    match row_data r with
    | AliasRow alias key target kind =>
        m ← memory_by_id (source_memory_id r) (memories s);
        Some {| hit_row := r; hit_memory := m; hit_alias := alias; hit_key := key; hit_target := target; hit_kind := kind |}
    | _ => None
    end) (rows s).

(** Evergreen before promoted before the rest, then the older memory. *)
Definition alias_rank (h : AliasHit) : nat :=
  (if mem_evergreen (hit_memory h) then 0 else 2) + (if mem_promoted (hit_memory h) then 0 else 1).
Definition by_precedence (a b : AliasHit) : Prop :=
  (alias_rank a < alias_rank b \/ alias_rank a = alias_rank b
   /\ (source_memory_id (hit_row a) <= source_memory_id (hit_row b))%Z)%nat.
#[export] Instance by_precedence_dec a b : Decision (by_precedence a b).
Proof. unfold by_precedence. apply _. Defined.

Definition device_alias (alias : string) : run (option AliasHit) :=
  let normalized := normalize_alias_key alias in
  if is_empty normalized then ret (Ok None)
  else query (fun s => head (order_by by_precedence (List.filter (fun h => String.eqb (hit_key h) normalized) (alias_hits s)))).

(** The aliases that name more than one target, in groups; the first of a group
    is the one that is resolved. *)
Record DeviceAliasConflict := { conflict_alias : string; conflict_winner : AliasHit; conflict_entries : list AliasHit }.

Definition build_device_alias_conflict (alias : string) (entries : list AliasHit) : list DeviceAliasConflict :=
  match entries with
  | [] => []
  | winner :: _ => [{| conflict_alias := alias; conflict_winner := winner; conflict_entries := entries |}]
  end.

Definition by_alias (a b : AliasHit) : Prop :=
  match String.compare (hit_key a) (hit_key b) with Lt => True | Eq => by_precedence a b | Gt => False end.
#[export] Instance by_alias_dec a b : Decision (by_alias a b).
Proof. unfold by_alias. destruct (String.compare _ _); apply _. Defined.

(** The loop over the ordered rows; [alias] and [entries] are the open group. *)
Fixpoint grouped (alias : option string) (entries hits : list AliasHit) : list DeviceAliasConflict :=
  let closed := match alias with Some alias => build_device_alias_conflict alias entries | None => [] end in
  match hits with
  | [] => closed
  | h :: hits =>
      if bool_decide (alias = Some (hit_key h)) then grouped alias (entries ++ [h]) hits
      else closed ++ grouped (Some (hit_key h)) [h] hits
  end.

Definition device_alias_conflicts : run (list DeviceAliasConflict) :=
  query (fun s => grouped None [] (order_by by_alias
    (List.filter (fun h => Nat.ltb 1 (distinct_targets (hit_key h) s)) (alias_hits s)))).

Definition profile_attributes (name attribute : string) : run (list HouseholdProfileAttribute) :=
  let normalized_name := normalize_name_key name in
  if is_empty normalized_name || is_empty (trim attribute) then ret (Ok [])
  else query (newest_first (fun p =>
    match p with
    | AttributeRow n a => when (String.eqb n normalized_name && String.eqb (pa_attribute a) attribute) a
    | _ => None
    end)).

Definition household_rules (person : option string) (t : string) (subject : option string) : run (list HouseholdRule) :=
  query (newest_first (fun p =>
    match p with
    | RuleRow n r =>
        when (String.eqb (rule_type r) t && any_or_eq (normalize_name_key <$> person) n
              && any_or_eq (normalize_rule_subject <$> subject) (Some (rule_subject r))) r
    | _ => None
    end)).

Definition media_playlist (owner : option string) (name : string) : run (option MediaProfileItem) :=
  let normalized_name := normalize_alias_key name in
  if is_empty normalized_name then ret (Ok None)
  else
    let normalized_owner := default "" (normalize_name_key <$> owner) in
    query (fun s => snd <$> head (order_by (by_preference (fun x => String.eqb x.1 normalized_owner)) (newest_first (fun p =>
      match p with
      | MediaRow o n item =>
          when (String.eqb (media_type item) "playlist" && String.eqb n normalized_name
                && (is_empty normalized_owner || String.eqb o normalized_owner || is_empty o)) (o, item)
      | _ => None
      end) s))).

Definition media_playlist_for_query (question : string) : run (option MediaProfileItem) :=
  match media_playlist_query question with Some (owner, name) => media_playlist owner name | None => ret (Ok None) end.

Definition family_calendar_event (person : option string) (t : string) (day : option string)
    : run (option FamilyCalendarEvent) :=
  let normalized_person := default "" (normalize_name_key <$> person) in
  let normalized_day := default "" (normalize_calendar_day <$> day) in
  query (fun s => snd <$> head (order_by (by_preference (fun x => bool_decide (x.1 = Some normalized_person))) (newest_first (fun p =>
    match p with
    | CalendarRow n e =>
        when (String.eqb (cal_type e) t
              && (is_empty normalized_person || bool_decide (n = Some normalized_person) || bool_decide (n = None))
              && (is_empty normalized_day || bool_decide (cal_day e = Some normalized_day))) (n, e)
    | _ => None
    end) s))).

Definition family_calendar_event_for_query (question : string) : run (option FamilyCalendarEvent) :=
  match calendar_event_query question with
  | Some (person, t, day) => family_calendar_event (Some person) t day
  | None =>
      match school_pickup_query question with
      | Some day => family_calendar_event None "school_pickup" (Some day)
      | None => ret (Ok None)
      end
  end.

(** [NOT EXISTS (SELECT 1 FROM t newer ..)]: no newer row of the table has the key. *)
Definition is_latest {K} `{EqDecision K} (key : Projection -> option K) (rs : list Row) (r : Row) : bool :=
  negb (existsb (fun r' => bool_decide (is_Some (key (row_data r)) /\ key (row_data r') = key (row_data r)) && newer r' r) rs).

Definition shopping_key (p : Projection) : option string := match p with ShoppingRow n _ => Some n | _ => None end.

Definition pending_items (s : Store) : list ShoppingListItem :=
  select (fun p => match p with ShoppingRow _ i => when (String.eqb (shop_status i) "pending") i | _ => None end)
    (order_by by_recency (List.filter (is_latest shopping_key (rows s)) (rows s))).

Definition shopping_list_items : run (list ShoppingListItem) := query pending_items.
Definition shopping_list_pending_count : run nat := query (fun s => List.length (pending_items s)).

Definition household_inventory_item_for_query (question : string) : run (option HouseholdInventoryItem) :=
  match inventory_item_query question with
  | None => ret (Ok None)
  | Some item =>
      let wanted := normalize_inventory_item item in
      if is_empty wanted then ret (Ok None)
      else
        let singular := trim_end_matches (one_of ["s"]) wanted in
        query (fun s => head (newest_first (fun p =>
          match p with
          | InventoryRow n i =>
              when (String.eqb n wanted || String.eqb n singular || like wanted n || like n wanted) i
          | _ => None
          end) s))
  end.

Definition access_permission_for_query (question : string) : run (option AccessPermission) :=
  match access_permission_query question with
  | None => ret (Ok None)
  | Some (person, action, device) =>
      let normalized_person := normalize_name_key person in
      let normalized_device := normalize_alias_key device in
      query (fun s => head (newest_first (fun p =>
        match p with
        | PermissionRow n d permission =>
            when (String.eqb n normalized_person && String.eqb (perm_action permission) action
                  && (String.eqb d normalized_device || like normalized_device d || like d normalized_device)) permission
        | _ => None
        end) s))
  end.

Definition household_task_log_for_query (question : string) : run (option HouseholdTaskLog) :=
  match task_log_query question with
  | None => ret (Ok None)
  | Some q =>
      let normalized_subject := default "" (normalize_alias_key <$> tq_subject q) in
      query (fun s => head (newest_first (fun p =>
        match p with
        | TaskRow n subject task =>
            when (String.eqb n (normalize_name_key (tq_person q)) && String.eqb (task_name task) (tq_task q)
                  && (is_empty normalized_subject || bool_decide (subject = Some normalized_subject)
                      || bool_decide (subject = None))
                  && any_or_eq (tq_day q) (task_day task)) task
        | _ => None
        end) s))
  end.

Definition task_key (p : Projection) : option (string * string * string) :=
  match p with TaskRow n _ task => day ← task_day task; Some (task_name task, n, day) | _ => None end.

Definition by_person (a b : HouseholdTaskLog) : Prop := String.leb (task_person a) (task_person b) = true.
#[export] Instance by_person_dec a b : Decision (by_person a b).
Proof. unfold by_person. apply _. Defined.

Definition household_task_logs_for_task_day (task day : string) : run (list HouseholdTaskLog) :=
  query (fun s => order_by by_person (select (fun p =>
    match p with
    | TaskRow _ _ t => when (String.eqb (task_name t) task && bool_decide (task_day t = Some day)) t
    | _ => None
    end) (List.filter (is_latest task_key (rows s)) (rows s)))).

Definition household_profile_names : run (list string) :=
  query (fun s => order_by by_name (select (fun p =>
    match p with ProfileRow name role => when (negb (is_one_of role ["dog"; "cat"; "pet"])) name | _ => None end) (rows s))).

Section unicode.
Context `{U : Unicode}.

Definition household_schedule_item_for_query (question : string) : run (option HouseholdScheduleItem) :=
  match schedule_item_query question with
  | None => ret (Ok None)
  | Some (t, subject, day) =>
      let wanted := default "" (normalize_alias_key <$> subject) in
      query (fun s => head (newest_first (fun p =>
        match p with
        | ScheduleRow n i =>
            when (String.eqb (sched_type i) t
                  && (is_empty wanted || bool_decide (n = Some wanted) || like_opt wanted n || opt_like n wanted
                      || bool_decide (n = None))
                  && (any_or_eq day (sched_day i) || bool_decide (sched_day i = None))) i
        | _ => None
        end) s))
  end.

Definition household_event_log_for_query (question : string) : run (option HouseholdEventLog) :=
  match event_log_query question with
  | None => ret (Ok None)
  | Some (t, action, subject) =>
      let wanted := default "" (normalize_alias_key <$> subject) in
      query (fun s => head (newest_first (fun p =>
        match p with
        | EventRow n _ e =>
            when (String.eqb (ev_type e) t && String.eqb (ev_action e) action
                  && (is_empty wanted || bool_decide (n = Some wanted) || bool_decide (n = None))) e
        | _ => None
        end) s))
  end.

(** *** Secrets *)

Definition secrets_where (f : string -> AppOnlySecretReference -> bool) : clause AppOnlySecretReference :=
  fun p => match p with SecretRow n secret => when (f n secret) secret | _ => None end.

Definition label_score (question : string) (secret : AppOnlySecretReference) : f64 :=
  lexical_overlap_score question (secret_label secret).
Definition by_label (question : string) (a b : AppOnlySecretReference) : Prop :=
  SFltb (label_score question a) (label_score question b) = false.
#[export] Instance by_label_dec question a b : Decision (by_label question a b).
Proof. unfold by_label. apply _. Defined.

(** [ORDER BY updated_ms DESC, ..] and then the score, of two that score the
    same the younger memory first. *)
Definition by_memory (a b : Row) : Prop := (source_memory_id b <= source_memory_id a)%Z.
#[export] Instance by_memory_dec a b : Decision (by_memory a b).
Proof. unfold by_memory. apply _. Defined.

Definition app_only_secret_reference_fallback (secret_type' question : string) : run (list AppOnlySecretReference) :=
  query (fun s => order_by (by_label question)
    (List.filter (fun secret => SFltb (f64_of_Z 0) (label_score question secret))
      (select (secrets_where (fun _ secret => String.eqb (secret_type secret) secret_type'))
         (order_by by_memory (order_by by_recency (rows s)))))).

Definition app_only_secret_references (question : string) : run (list AppOnlySecretReference) :=
  match secret_reference_query question with
  | None => ret (Ok [])
  | Some (t, label_query) =>
      let wanted := normalize_alias_key label_query in
      let!? entries := query (newest_first (secrets_where (fun n secret =>
        String.eqb (secret_type secret) t && (is_empty wanted || like n wanted || like wanted n)))) in
      match entries with
      | [] => app_only_secret_reference_fallback t question
      | _ => ret (Ok entries)
      end
  end.

(** *** Notes *)

Context `{NF : NoteFts}.

Definition notes_of (s : Store) : list (Z * HouseholdNote) :=
  filter_map (fun r => match row_data r with NoteRow n => Some (source_memory_id r, n) | _ => None end) (rows s).

Definition household_notes_like_fallback (text : string) (limit : nat) : run (list HouseholdNote) :=
  match search_tokens text with
  | [] => ret (Ok [])
  | tokens =>
      query (fun s => take limit (newest_first (fun p =>
        match p with
        | NoteRow n => when (existsb (fun token => like (note_title n) token || like (note_content n) token) tokens) n
        | _ => None
        end) s))
  end.

Definition household_notes_search (text : string) (limit : nat) : run (list HouseholdNote) :=
  let limit := Nat.max limit 1 in
  match build_fts_query text with
  | None => household_notes_like_fallback text limit
  | Some fts_query =>
      let!? entries := query (fun s => take limit (filter_map (fun id =>
        snd <$> List.find (fun n => Z.eqb n.1 id) (notes_of s)) (notes_match (notes_of s) fts_query))) in
      match entries with
      | [] => household_notes_like_fallback text limit
      | _ => ret (Ok entries)
      end
  end.

End unicode.

(** ** The sentences *)

Definition said (prefix : string) (v : option string) : string := match v with Some v => prefix +:+ v | None => "" end.

Definition format_profile_attribute_answer (a : HouseholdProfileAttribute) : string :=
  if String.eqb (pa_attribute a) "age" then
    pa_name a +:+ " is " +:+ pa_value a +:+ " " +:+ (if String.eqb (trim (pa_value a)) "1" then "year" else "years") +:+ " old."
  else if String.eqb (pa_attribute a) "likes" then pa_name a +:+ " likes " +:+ pa_value a +:+ "."
  else if String.eqb (pa_attribute a) "shoe_size" then
    pa_name a +:+ " currently wears shoe size " +:+ pa_value a +:+ "."
  else if starts_with (pa_attribute a) "favorite_" then
    let subject := replace (trim_start_str (pa_attribute a) "favorite_") "_" " " in
    pa_name a +:+ "'s favorite " +:+ subject +:+ " is " +:+ pa_value a +:+ "."
  else pa_name a +:+ ": " +:+ pa_value a +:+ ".".

Definition format_allergy_answer (rules : list HouseholdRule) : string := "Yes. " +:+ join " " (rule_description <$> rules).
Definition format_allowed_rule_answer (rule : HouseholdRule) : string :=
  (if rule_allowed rule then "Yes. " else "No. ") +:+ rule_description rule.
Definition format_rule_list_answer (rules : list HouseholdRule) : string :=
  "I found this rule: " +:+ join " " (rule_description <$> rules).

Definition format_family_calendar_event_answer (e : FamilyCalendarEvent) : string :=
  if String.eqb (cal_type e) "school_pickup" then "I found this calendar event: " +:+ cal_description e
  else "Yes. " +:+ default "They" (cal_person e) +:+ " has " +:+ cal_title e +:+ said " " (cal_day e)
         +:+ said " at " (cal_time e) +:+ ". " +:+ cal_description e.

Definition format_shopping_list_answer (items : list ShoppingListItem) : string :=
  "Shopping list: " +:+ join ", " (shop_item <$> items) +:+ ".".

Definition format_household_inventory_item_answer (i : HouseholdInventoryItem) : string :=
  match stock_quantity i with
  | None => "I found this inventory note: " +:+ stock_description i
  | Some quantity =>
      if String.eqb quantity "0" then
        "No, I do not have " +:+ stock_item i +:+ " remaining" +:+ said " in " (stock_location i) +:+ "."
      else "Yes, you have " +:+ quantity +:+ " " +:+ stock_item i +:+ " remaining" +:+ said " in " (stock_location i) +:+ "."
  end.

Definition format_access_permission_answer (p : AccessPermission) : string :=
  (if perm_allowed p then "Yes. " else "No. ") +:+ perm_description p.

Definition spoken_task (task : HouseholdTaskLog) : string :=
  if String.eqb (task_name task) "brush_teeth" then "brushing teeth"
  else if String.eqb (task_name task) "feeding" && bool_decide (task_subject task = Some "dog") then "feeding the dog"
  else if String.eqb (task_name task) "feeding" && bool_decide (task_subject task = Some "cat") then "feeding the cat"
  else task_name task.

Definition is_complete (task : HouseholdTaskLog) : bool := String.eqb (task_status task) "complete".

Definition format_household_task_log_answer (task : HouseholdTaskLog) : string :=
  if is_complete task then
    "Yes. " +:+ task_person task +:+ " marked " +:+ spoken_task task +:+ " complete" +:+ said " at " (task_time task) +:+ "."
  else "I found this task log: " +:+ task_description task.

Definition join_names (names : list string) : string :=
  match names with
  | [] => "none"
  | [one] => one
  | [first; second] => first +:+ " and " +:+ second
  | _ => join ", " (take (List.length names - 1) names) +:+ ", and " +:+ default "" (last names)
  end.

Definition format_everyone_task_log_answer (profiles : list string) (logs : list HouseholdTaskLog) : string :=
  let completed := task_person <$> List.filter is_complete logs in
  let completed_keys := normalize_name_key <$> completed in
  let not_logged := List.filter (fun name => negb (is_one_of (normalize_name_key name) completed_keys)) profiles in
  match completed, not_logged with
  | [], _ => "No one has logged brushing teeth yet."
  | _, [] => "Everyone has logged brushing teeth: " +:+ join_names completed +:+ "."
  | _, _ =>
      join_names completed +:+ " " +:+ (if Nat.eqb (List.length completed) 1 then "has" else "have")
        +:+ " logged brushing teeth. Not logged yet: " +:+ join_names not_logged +:+ "."
  end.

Definition due_of (i : HouseholdScheduleItem) : string :=
  default "the scheduled date" (sched_date i <|> sched_day i).
Definition time_of (i : HouseholdScheduleItem) : string := default "the scheduled time" (sched_time i).

Definition format_household_schedule_item_answer (i : HouseholdScheduleItem) : string :=
  let typed := String.eqb (sched_type i) in
  let description := sched_description i in
  if typed "school_bus_arrival" then "The bus arrives at " +:+ time_of i +:+ ". " +:+ description
  else if typed "bill_due" then
    "The " +:+ default "bill" (sched_subject i) +:+ " bill is due " +:+ due_of i +:+ "."
      +:+ match sched_amount i with Some amount => " The estimated amount is " +:+ amount +:+ "." | None => "" end
  else if typed "recycling" then "I found this recycling schedule: " +:+ description
  else if typed "trash_pickup" then "I found this trash pickup schedule: " +:+ description
  else if typed "school_conference" then
    "The next parent-teacher conference is on " +:+ due_of i +:+ said " at " (sched_time i)
      +:+ said " for " (sched_subject i) +:+ "."
  else if typed "sunset" then "Sunset is at " +:+ time_of i +:+ ". " +:+ description
  else if typed "community_facility_hours" then "I found this community facility schedule: " +:+ description
  else if typed "business_hours" then
    "I found these business hours: " +:+ description
      +:+ match sched_time i with Some time => " It closes at " +:+ time +:+ "." | None => "" end
  else if typed "channel_guide" then
    default "That channel" (sched_subject i) +:+ " is on channel " +:+ default "the listed channel" (sched_amount i) +:+ "."
  else if typed "tv_tonight" then "I found this TV schedule: " +:+ description
  else if typed "community_meeting" then
    "The next city council meeting is on " +:+ due_of i +:+ said " at " (sched_time i) +:+ "."
  else if typed "subscription_renewal" then
    "I found this " +:+ default "subscription" (sched_subject i) +:+ " subscription schedule: " +:+ description
  else "I found this schedule item: " +:+ description.

(** The events that are answered with yes, and those told as they were said. *)
Definition EVENTS_CONFIRMED : list (string * string) :=
  [("finance", "allowance"); ("finance", "paid_bill"); ("waste", "collection"); ("location", "home_arrival");
   ("location", "presence_home")].
Definition EVENTS_TOLD : list (string * string) :=
  [("finance", "credit_score"); ("finance", "stock_price"); ("health", "weight_reading"); ("health", "vo2_max");
   ("appliance_state", "clean_status"); ("environment", "temperature"); ("access", "open")].

Definition format_household_event_log_answer (e : HouseholdEventLog) : string :=
  let is_one := existsb (fun k => String.eqb (ev_type e) k.1 && String.eqb (ev_action e) k.2) in
  if is_one [("security", "disarm")] then
    "The security system was disarmed by " +:+ default "someone" (ev_actor e) +:+ said " at " (ev_time e) +:+ "."
  else if is_one EVENTS_CONFIRMED then "Yes. " +:+ ev_description e
  else if is_one EVENTS_TOLD then ev_description e
  else "I found this event log: " +:+ ev_description e.

Definition NOTE_INTROS : list (string * string) :=
  [("reminder", "I found this reminder"); ("manual", "I found these instructions");
   ("media", "I found this watch note"); ("pet_health", "I found this pet health note");
   ("home_maintenance", "I found this home maintenance note"); ("storage", "I found this storage note");
   ("gift", "I found this gift note"); ("troubleshooting", "I found this troubleshooting note");
   ("photo", "I found this photo note"); ("warranty", "I found this warranty note");
   ("school", "I found this school note"); ("utility", "I found this utility note");
   ("recycling", "I found this recycling note"); ("first_aid", "I found this first-aid note");
   ("story", "I found this story note"); ("pet", "I found this pet note");
   ("travel", "I found this travel note"); ("visitor", "I found this visitor note");
   ("meal", "I found this meal note"); ("shopping", "I found this shopping note");
   ("security", "I found this security note"); ("beverage", "I found this beverage note");
   ("social", "I found this social note"); ("commute", "I found this commute note");
   ("pantry", "I found this pantry note"); ("home_comfort", "I found this comfort note");
   ("location", "I found this location note"); ("receipt", "I found this receipt note");
   ("education", "I found this education note"); ("entertainment", "I found this entertainment note");
   ("dictionary", "I found this dictionary note"); ("health", "I found this health note");
   ("party", "I found this party note"); ("pest_control", "I found this pest-control note");
   ("food_safety", "I found this food-safety note"); ("contact", "I found this contact note");
   ("delivery", "I found this delivery note"); ("schedule", "I found this schedule note");
   ("finance", "I found this finance note"); ("tool", "I found this tool note");
   ("network", "I found this network note"); ("diy", "I found this DIY note");
   ("fitness", "I found this fitness note"); ("safety", "I found this safety note");
   ("device", "I found this device note"); ("news", "I found this news note");
   ("profile", "I found this profile note"); ("family", "I found this family note");
   ("garden", "I found this garden note"); ("inventory", "I found this inventory note")].

Definition format_household_note_answer (n : HouseholdNote) : string :=
  default "I found this note" (find_map (fun e => when (String.eqb (note_type n) e.1) e.2) NOTE_INTROS)
    +:+ ": " +:+ note_content n.

Definition format_app_only_secret_reference_answer (secret : AppOnlySecretReference) : string :=
  "I have an app-only reference for " +:+ secret_label secret
    +:+ ". Open the local dashboard or credential store to view it; I won't speak the value in shared-room chat.".

(** ** The answer *)

Section answer.
Context `{U : Unicode} `{NF : NoteFts}.

(** The answer of the first kind of question that has one. *)
Definition or_else (first rest : run (option string)) : run (option string) :=
  let!? answer := first in
  match answer with Some text => ret (Ok (Some text)) | None => rest end.

Definition tells {A} (f : A -> string) (found : run (option A)) : run (option string) :=
  let!? found := found in ret (Ok (f <$> found)).
(** What is found first, or everything that is found, where anything is. *)
Definition tells_first {A} (f : A -> string) (found : run (list A)) : run (option string) :=
  let!? found := found in ret (Ok (f <$> head found)).
Definition tells_all {A} (f : list A -> string) (found : run (list A)) : run (option string) :=
  let!? found := found in ret (Ok (match found with [] => None | _ => Some (f found) end)).

Definition asked {A} (q : option A) (f : A -> run (option string)) : run (option string) :=
  match q with Some a => f a | None => ret (Ok None) end.

(** The rule for the time that is asked about, or else the newest. *)
Definition allowed_rule (v : option string) (rules : list HouseholdRule) : option HouseholdRule :=
  List.find (fun rule => match v with Some v => bool_decide (rule_value rule = Some v) | None => true end) rules
  <|> head rules.

Definition everyone_brushed (day : string) : run (option string) :=
  let!? logs := household_task_logs_for_task_day "brush_teeth" day in
  match logs with
  | [] => ret (Ok None)
  | _ => let!? profiles := household_profile_names in ret (Ok (Some (format_everyone_task_log_answer profiles logs)))
  end.

Definition structured_household_answer (question : string) : run (option string) :=
  or_else (asked (profile_attribute_query question) (fun '(name, attribute) =>
             tells_first format_profile_attribute_answer (profile_attributes name attribute)))
  (or_else (asked (allergy_query_subject question) (fun subject =>
             tells_all format_allergy_answer (household_rules None "allergy" subject)))
  (or_else (asked (allowed_rule_query question) (fun '(person, subject, v) =>
             let!? rules := household_rules (Some person) "screen_time" (Some subject) in
             ret (Ok (format_allowed_rule_answer <$> allowed_rule v rules))))
  (or_else (asked (homework_rule_query question) (fun person =>
             tells_all format_rule_list_answer (household_rules (Some person) "homework" (Some "homework"))))
  (or_else (tells format_family_calendar_event_answer (family_calendar_event_for_query question))
  (or_else (tells format_access_permission_answer (access_permission_for_query question))
  (or_else (asked (everyone_brush_teeth_query question) everyone_brushed)
  (or_else (tells format_household_task_log_answer (household_task_log_for_query question))
  (or_else (tells format_household_schedule_item_answer (household_schedule_item_for_query question))
  (or_else (tells format_household_event_log_answer (household_event_log_for_query question))
  (or_else (if shopping_list_query question then tells_all format_shopping_list_answer shopping_list_items else ret (Ok None))
  (or_else (tells format_household_inventory_item_answer (household_inventory_item_for_query question))
  (or_else (asked (secret_reference_query question) (fun _ =>
             tells_first format_app_only_secret_reference_answer (app_only_secret_references question)))
  (asked (household_note_query question) (fun note_query =>
     tells_first format_household_note_answer (household_notes_search note_query 3))))))))))))))).

End answer.
