(* ===== verification/MemoryProps.v ===== *)
(** * What the operations of the memory store do ([memory/mod.rs])

    Pruning, facts with one current answer, rejected updates and the tracking of
    recalls, while no statement fails. *)

From S2P Require Import Prelude RustStr RustNum Recall Sql MemoryPolicy MemoryText MemoryTypes MemoryExtract Embedding MemoryTables MemoryCanon MemoryStore MemorySync MemoryQuestions MemoryAnswers.
Local Open Scope string_scope.
Local Open Scope list_scope.
Local Open Scope rust_scope.

(** ** Chunks *)

Lemma chunks_concat {A} n (l : list A) : 0 < n -> concat (chunks n l) = l.
Proof.
  intros Hn. unfold chunks. assert (forall fuel (l : list A), length l <= fuel -> concat (chunks_fuel fuel n l) = l) as Hf.
  { induction fuel as [|fuel IH]; intros [|x k] Hl; cbn [chunks_fuel concat]; try done; [cbn in Hl; lia|].
    rewrite IH; [apply take_drop|]. rewrite length_drop. cbn in *. lia. }
  by apply Hf.
Qed.

Section props.
Context `{U : Unicode} `{H : StrHasher} `{G : Gmtime} `{F : Fts} `{EX : Exp}.
Variable half_life_days : f64.

(** ** Pruning *)

Definition drop_ids (ids : list Z) (s : Store) : Store :=
  with_memories (List.filter (fun m => negb (bool_decide (mem_id m ∈ ids))) (memories s)) s.

Lemma drop_ids_app ids ids' s : drop_ids ids' (drop_ids ids s) = drop_ids (ids ++ ids') s.
Proof.
  unfold drop_ids, with_memories. cbn. f_equal. induction (memories s) as [|m ms IH]; cbn; [done|].
  destruct (decide (mem_id m ∈ ids)) as [Hi|Hi].
  - rewrite bool_decide_eq_true_2 by done. rewrite bool_decide_eq_true_2 by set_solver. done.
  - rewrite bool_decide_eq_false_2 by done. cbn. destruct (decide (mem_id m ∈ ids')) as [Hi'|Hi'].
    + rewrite !bool_decide_eq_true_2 by set_solver. done.
    + rewrite !bool_decide_eq_false_2 by set_solver. cbn. by rewrite IH.
Qed.

Lemma drop_no_ids s : drop_ids [] s = s.
Proof.
  unfold drop_ids. rewrite keep_all; [by destruct s|]. apply Forall_forall. intros m _.
  by rewrite bool_decide_eq_false_2 by apply not_elem_of_nil.
Qed.

Lemma drop_chunks ids n s :
  0 < n -> foldl (fun s chunk => drop_ids chunk s) s (chunks n ids) = drop_ids ids s.
Proof.
  intros Hn. rewrite <- (chunks_concat n ids Hn) at 2. generalize (chunks n ids) as cs. clear Hn. intros cs. revert s.
  induction cs as [|c cs IH]; intros s; cbn [foldl concat]; [by rewrite drop_no_ids|].
  by rewrite IH, drop_ids_app.
Qed.

(** Neither evergreen nor promoted, and below the threshold since its last use. *)
Definition decayed (threshold : f64) (now : N) (m : MemoryRow) : bool :=
  negb (mem_evergreen m) && negb (mem_promoted m)
  && SFltb (decay_multiplier half_life_days now (mem_accessed_ms m)) threshold.

Lemma filter_filter_and {A} (p q : A -> bool) l : List.filter q (List.filter p l) = List.filter (fun x => p x && q x) l.
Proof. induction l as [|x l IH]; cbn; [done|]. destruct (p x); cbn; [|done]. by destruct (q x); rewrite IH. Qed.

Lemma drop_selected (p : MemoryRow -> bool) s :
  NoDup (mem_id <$> memories s) ->
  memories (drop_ids (mem_id <$> List.filter p (memories s)) s) = List.filter (fun m => negb (p m)) (memories s).
Proof.
  intros Hn. unfold drop_ids. cbn. apply filter_ext_in. intros m Hm%list_elem_of_In. f_equal.
  destruct (p m) eqn:E; [apply bool_decide_eq_true|apply bool_decide_eq_false].
  - apply list_elem_of_fmap. exists m. split; [done|]. apply list_elem_of_In, filter_In. by rewrite <- list_elem_of_In.
  - intros (m' & Hid & [Hm' Hp]%list_elem_of_In%filter_In)%list_elem_of_fmap. apply list_elem_of_In in Hm'.
    pose proof (memory_by_id_elem _ _ Hn Hm). pose proof (memory_by_id_elem _ _ Hn Hm'). congruence.
Qed.

(** Pruning what has decayed deletes, however many statements it takes, the
    memories that are neither evergreen nor promoted and whose decay since
    their last use is below the threshold, and no others; it reports their
    number. *)
Lemma prune_is_one_filter threshold now c :
  quiet c -> NoDup (mem_id <$> memories (tables c)) ->
  let '(r, c') := prune_decayed half_life_days threshold now c in
  r = Ok (length (List.filter (decayed threshold now) (memories (tables c)))) /\
  memories (tables c') = List.filter (fun m => negb (decayed threshold now m)) (memories (tables c)) /\
  rows (tables c') = rows (tables c) /\ canon (tables c') = canon (tables c).
Proof.
  intros Hq Hn. unfold prune_decayed. erewrite ebind_step by (by apply query_quiet). cbv zeta.
  rewrite filter_filter_and. change (fun x => prunable x && _) with (decayed threshold now).
  set (ids := mem_id <$> List.filter (decayed threshold now) (memories (tables c))).
  erewrite ebind_step; [|apply (each_quiet _ drop_ids); [|done]].
  - rewrite (drop_chunks _ DELETE_CHUNK) by (unfold DELETE_CHUNK; lia). cbn [set_tables tables].
    split; [by unfold ids; rewrite length_fmap|]. by split; [apply drop_selected|].
  - intros chunk c' Hq'. by erewrite ebind_step by (by apply update_count_quiet).
Qed.

(** ** Operations that succeed *)

(** While nothing fails the step succeeds, and makes of the memories what [g]
    does. *)
Definition carries {A} (g : list MemoryRow -> list MemoryRow) (m : run A) : Prop :=
  forall c, quiet c -> exists a c', m c = (Ok a, c') /\ quiet c' /\ memories (tables c') = g (memories (tables c)).

Lemma carries_ret {A} (a : A) : carries (fun ms => ms) (ret (Ok a)).
Proof. intros c Hq. by exists a, c. Qed.

Lemma carries_query {A} (f : Store -> A) : carries (fun ms => ms) (query f).
Proof. intros c Hq. exists (f (tables c)), c. by rewrite query_quiet. Qed.

Lemma carries_canon f : carries (fun ms => ms) (update (on_canon f)).
Proof. intros c Hq. exists tt, (set_tables (on_canon f (tables c)) c). by rewrite update_quiet. Qed.

Lemma carries_ebind {A B} g h (m : run A) (f : A -> run B) :
  carries g m -> (forall a, carries h (f a)) -> carries (fun ms => h (g ms)) (ebind m f).
Proof.
  intros Hm Hf c Hq. destruct (Hm c Hq) as (a & c1 & E1 & Hq1 & H1). destruct (Hf a c1 Hq1) as (b & c2 & E2 & Hq2 & H2).
  exists b, c2. rewrite (ebind_step _ _ _ _ _ E1). rewrite H1 in H2. by split_and!.
Qed.

Lemma carries_still {A B} g (m : run A) (f : A -> run B) :
  carries (fun ms => ms) m -> (forall a, carries g (f a)) -> carries g (ebind m f).
Proof. apply carries_ebind. Qed.

Lemma carries_attempt {A B} (m : run A) (f : option A -> run B) :
  carries (fun ms => ms) m -> (forall a, carries (fun ms => ms) (f a)) -> carries (fun ms => ms) (bind (attempt m) f).
Proof.
  intros Hm Hf c Hq. destruct (Hm c Hq) as (a & c1 & E1 & Hq1 & H1). unfold bind, attempt. rewrite E1.
  destruct (Hf (Some a) c1 Hq1) as (b & c2 & E2 & Hq2 & H2). exists b, c2. rewrite H1 in H2. by split_and!.
Qed.

Lemma carries_each {A} (f : A -> run unit) l : (forall x, carries (fun ms => ms) (f x)) -> carries (fun ms => ms) (each f l).
Proof.
  intros Hf. induction l as [|x l IH]; cbn; [apply carries_ret|]. apply carries_still; [apply Hf|by intros _].
Qed.

Lemma carries_if {A} (b : bool) g (m n : run A) : carries g m -> carries g n -> carries g (if b then m else n).
Proof. by destruct b. Qed.

Lemma carries_export : carries (fun ms => ms) rebuild_root_memory_file.
Proof.
  apply carries_still; [apply carries_query|intros [|m records]].
  - repeat (apply carries_attempt; [apply carries_canon|intros _]). apply carries_ret.
  - apply carries_still; [|intros _].
    + repeat (apply carries_still; [|intros _]); try apply carries_query. apply carries_each. intros. apply carries_query.
    + repeat (apply carries_still; [|intros _]); apply carries_canon.
Qed.

Lemma carries_logged e now kind content {A} (a : A) :
  carries (fun ms => ms)
    (let!? _ := record_canonical_event e in let!? _ := append_daily_note now kind content in ret (Ok a)).
Proof.
  apply carries_still; [apply carries_canon|intros _]. apply carries_still; [|intros _; apply carries_ret].
  apply carries_attempt; [apply carries_query|intros x]. cbv zeta. apply carries_if; [apply carries_ret|apply carries_canon].
Qed.

Definition without (id : Z) (ms : list MemoryRow) : list MemoryRow := List.filter (fun m => negb (Z.eqb (mem_id m) id)) ms.

Lemma carries_delete_by_id id now : carries (without id) (delete_by_id id now).
Proof.
  apply carries_still; [apply carries_query|intros existing].
  change (without id) with (fun ms => (fun ms' : list MemoryRow => ms') (without id ms)).
  apply carries_ebind.
  - intros c Hq. eexists _, _. split; [by apply update_count_quiet|]. done.
  - intros [|n]; [apply carries_ret|]. destruct existing as [e|]; [|apply carries_ret].
    apply carries_still; [|intros _].
    + intros c Hq. exists tt, (set_tables (delete_all id (tables c)) c). rewrite delete_projections_quiet by done.
      split; [done|]. split; [done|]. apply (delete_all_same id (tables c)).
    + apply carries_still; [apply carries_if; [apply carries_export|apply carries_ret]|intros _; apply carries_logged].
Qed.

Lemma carries_store_as evergreen action detail kind content now :
  let text := normalize_memory_content content in
  carries (fun ms => ms ++ [new_memory (next_rowid (mem_id <$> ms)) kind text (infer_metadata kind text) evergreen now])
    (store_as evergreen action detail kind content now).
Proof.
  cbv zeta. set (text := normalize_memory_content content).
  apply (carries_ebind (fun ms => ms ++ [_]) (fun ms => ms)); [|intros id; apply carries_logged].
  intros c Hq. unfold store_with_metadata. erewrite ebind_step by (by apply update_count_quiet).
  erewrite ebind_step by (by apply upsert_all_quiet). eexists _, _. split; [done|]. split; [done|].
  destruct (replace_all_same (next_rowid (mem_id <$> memories (tables c))) kind text (infer_metadata kind text) now
    (insert_memory kind text (infer_metadata kind text) evergreen now (tables c)).2) as (Hms & _). exact Hms.
Qed.

(** ** Facts with one current answer *)

(** The entries the loop over the kind deletes. *)
Definition superseded (slot content : string) (e : MemoryEntry) : bool :=
  negb (String.eqb (me_content e) content) && bool_decide (memory_slot (me_kind e) (me_content e) = Some slot).

Lemma carries_replace_slot slot content now entries :
  carries (fun ms => foldl (fun ms e => without (me_id e) ms) ms (List.filter (superseded slot content) entries))
    (replace_slot slot content now entries).
Proof.
  induction entries as [|e entries IH]; cbn; [apply carries_ret|]. fold (superseded slot content e).
  destruct (superseded slot content e); [|exact IH]. cbn [foldl].
  apply (carries_ebind (without (me_id e))
    (fun ms => foldl (fun ms e => without (me_id e) ms) ms (List.filter (superseded slot content) entries)));
    [apply carries_delete_by_id|intros d].
  eapply (carries_ebind _ (fun ms => ms)); [exact IH|intros n; apply carries_ret].
Qed.

Lemma elem_of_without m ids ms :
  m ∈ foldl (fun ms (e : MemoryEntry) => without (me_id e) ms) ms ids <-> m ∈ ms /\ mem_id m ∉ me_id <$> ids.
Proof.
  revert ms. induction ids as [|e ids IH]; intros ms; cbn [foldl fmap list_fmap]; [set_solver|].
  rewrite IH, not_elem_of_cons. unfold without. rewrite list_elem_of_In, filter_In, <- list_elem_of_In, negb_true_iff, Z.eqb_neq.
  naive_solver.
Qed.

(** What [store_resolved] deletes before it stores. *)
Definition superseded_row (kind slot content : string) (m : MemoryRow) : Prop :=
  mem_kind m = kind /\ memory_slot (mem_kind m) (mem_content m) = Some slot /\ mem_content m <> content.

Lemma entries_of_kind kind s :
  length (List.filter (fun m => String.eqb (mem_kind m) kind) (memories s)) <= 100 ->
  forall e, e ∈ read_entry <$> take 100 (order_by by_last_access (List.filter (fun m => String.eqb (mem_kind m) kind) (memories s)))
    <-> exists m, m ∈ memories s /\ mem_kind m = kind /\ e = read_entry m.
Proof.
  intros Hlen e. rewrite list_elem_of_fmap. pose proof (order_by_perm by_last_access (List.filter (fun m => String.eqb (mem_kind m) kind) (memories s))) as Hp.
  rewrite take_ge by by rewrite Hp. setoid_rewrite Hp. setoid_rewrite list_elem_of_In. setoid_rewrite filter_In.
  setoid_rewrite String.eqb_eq. naive_solver.
Qed.

(** A fact with one current answer supersedes what was said before: where it
    is no restatement, and the kind has at most a hundred memories, the store
    deletes exactly the memories of the kind that fill the same slot with
    another text, and appends the new one; of the kind, every memory that fills
    the slot then says what was just stored. *)
Lemma resolved_fact_is_the_only_answer kind content slot now c :
  let text := normalize_memory_content content in
  let before := memories (tables c) in
  quiet c -> NoDup (mem_id <$> before) -> memory_slot kind text = Some slot ->
  length (List.filter (fun m => String.eqb (mem_kind m) kind) before) <= 100 ->
  Forall (fun m => to_ascii_lowercase (mem_content m) <> to_ascii_lowercase (trim (strip_source_tag text))) before ->
  exists out c' added, store_resolved kind content now c = (Ok out, c') /\ out_duplicate out = false /\
    mem_kind added = kind /\ mem_content added = text /\
    (forall m, m ∈ memories (tables c') <-> m = added \/ m ∈ before /\ ~ superseded_row kind slot text m) /\
    (forall m, m ∈ memories (tables c') -> mem_kind m = kind -> memory_slot (mem_kind m) (mem_content m) = Some slot ->
               mem_content m = text).
Proof.
  intros text before Hq Hn Hslot Hlen Hnew. unfold store_resolved. fold text. rewrite Hslot. cbv zeta.
  erewrite ebind_step by (by apply query_quiet).
  destruct (existsb _ _) eqn:Edup.
  { apply existsb_exists in Edup as (m & Hm%list_elem_of_In & He%String.eqb_eq). rewrite Forall_forall in Hnew. by apply Hnew in Hm. }
  set (entries := read_entry <$> take 100 (order_by by_last_access (List.filter (fun m => String.eqb (mem_kind m) kind) before))).
  assert (forall e, e ∈ entries <-> exists m, m ∈ before /\ mem_kind m = kind /\ e = read_entry m) as Hent
    by (exact (entries_of_kind kind (tables c) Hlen)).
  destruct (carries_replace_slot slot text now entries c Hq) as (n & c1 & E1 & Hq1 & H1).
  erewrite ebind_step; [|erewrite ebind_step by (by apply query_quiet); exact E1].
  destruct (carries_store_as false "store" None kind text now c1 Hq1) as (id & c2 & E2 & Hq2 & H2).
  unfold store. erewrite ebind_step by exact E2. cbv zeta in H2.
  replace (normalize_memory_content text) with text in H2 by (symmetry; apply normalize_idempotent).
  set (added := new_memory _ _ _ _ _ _) in H2.
  assert (forall m, m ∈ memories (tables c2) <-> m = added \/ m ∈ before /\ ~ superseded_row kind slot text m) as Hall.
  { intros m. rewrite H2, elem_of_app, list_elem_of_singleton, H1, elem_of_without. fold before.
    enough (m ∈ before -> (mem_id m ∉ me_id <$> List.filter (superseded slot text) entries <-> ~ superseded_row kind slot text m))
      as Hm by naive_solver.
    intros Hm. apply not_iff_compat. rewrite list_elem_of_fmap. setoid_rewrite list_elem_of_In. setoid_rewrite filter_In.
    setoid_rewrite <- list_elem_of_In. setoid_rewrite Hent. unfold superseded, superseded_row.
    setoid_rewrite andb_true_iff. setoid_rewrite negb_true_iff. setoid_rewrite String.eqb_neq. setoid_rewrite bool_decide_eq_true.
    split.
    - intros (e & Hid & (m' & Hm' & Hk & ->) & Hc & Hs). cbn in *.
      pose proof (memory_by_id_elem _ _ Hn Hm). pose proof (memory_by_id_elem _ _ Hn Hm'). assert (m' = m) as -> by congruence. done.
    - intros (Hk & Hs & Hc). exists (read_entry m). split; [done|]. split; [by exists m|]. done. }
  exists {| out_id := Some id; out_replaced := n; out_duplicate := false |}, c2, added.
  split; [done|]. split; [done|]. split; [done|]. split; [done|]. split; [exact Hall|].
  intros m [->|[Hm Hs]]%Hall Hk Hsl; [done|]. destruct (decide (mem_content m = text)); [done|]. by destruct Hs.
Qed.

(** ** Updates *)

(** What keeps an update of [m] from being written. *)
Definition rejection (m : MemoryRow) (content : string) (kind : option string) (e : string) : Prop :=
  is_empty content = true /\ e = "memory content cannot be empty" \/
  (exists k, kind = Some k /\ is_empty (trim k) = true) /\ e = "memory kind cannot be empty" \/
  exists k, next_kind_of (read_entry m) kind = Ok k /\ e = decision_reason (assess_memory_write k content) /\
            decision_allowed (assess_memory_write k content) = false.

Lemma carries_upsert id kind content metadata now :
  carries (fun ms => ms) (upsert_all id kind content metadata now).
Proof.
  intros c Hq. eexists tt, _. rewrite upsert_all_quiet by done. split; [done|]. split; [done|].
  by destruct (replace_all_same id kind content metadata now (tables c)) as (Hms & _).
Qed.

Lemma counted_some id ms m :
  memory_by_id id ms = Some m -> exists n, length (List.filter (fun m => Z.eqb (mem_id m) id) ms) = S n.
Proof.
  intros Hm%List.find_some. destruct (List.filter _ ms) as [|x l] eqn:E; [|by eexists].
  apply (filter_In (fun m => Z.eqb (mem_id m) id)) in Hm. by rewrite E in Hm.
Qed.

Lemma ebind_ok {A B} (m : run A) (f : A -> run B) c b c' :
  ebind m f c = (Ok b, c') -> exists a c1, m c = (Ok a, c1) /\ f a c1 = (Ok b, c').
Proof. unfold ebind. destruct (m c) as [[a|e] c1]; [by exists a, c1|done]. Qed.

Lemma apply_update_writes m id kind content metadata now c :
  quiet c -> memory_by_id id (memories (tables c)) = Some m ->
  exists c', apply_update (read_entry m) id kind content metadata now c = (Ok true, c') /\
    memory_by_id id (memories (tables c')) = Some (set_fact kind content metadata m).
Proof.
  intros Hq Hm. unfold apply_update. erewrite ebind_step by (by apply update_count_quiet).
  destruct (counted_some _ _ _ Hm) as [n En]. cbn [update_memory fst]. rewrite En.
  set (c1 := set_tables _ c). set (rest := ebind (upsert_all _ _ _ _ _) _).
  assert (carries (fun ms => ms) rest) as Hrest.
  { apply carries_still; [apply carries_upsert|intros _].
    apply carries_still; [apply carries_if; [apply carries_export|apply carries_ret]|intros _; apply carries_logged]. }
  destruct (Hrest c1 Hq) as (b & c2 & E & _ & H2). exists c2. split.
  - rewrite E. do 2 f_equal. by repeat (apply ebind_ok in E as (? & ? & _ & E)); injection E.
  - rewrite H2. subst c1. cbn [set_tables tables update_memory snd with_memories memories].
    rewrite memory_by_id_fmap by (intros m'; by destruct (Z.eqb (mem_id m') id)). rewrite Hm. cbn.
    apply memory_by_id_some in Hm as [_ ->]. by rewrite Z.eqb_refl.
Qed.


(** ** The shopping list *)

Definition table_rows (t : Table) (s : Store) : list Row := List.filter (fun r => bool_decide (table_of (row_data r) = t)) (rows s).

Lemma elem_of_table_rows t r s : r ∈ table_rows t s <-> r ∈ rows s /\ table_of (row_data r) = t.
Proof. unfold table_rows. by rewrite list_elem_of_In, filter_In, <- list_elem_of_In, bool_decide_eq_true. Qed.

Lemma elem_of_replaced t id kind content metadata updated s r :
  r ∈ rows (replace_rows id kind content metadata updated t s) <->
  r ∈ rows s /\ ~ (table_of (row_data r) = t /\ source_memory_id r = id)
  \/ exists p, p ∈ projected t kind content metadata /\ r = row_of id updated p.
Proof.
  unfold replace_rows. cbn. rewrite elem_of_app, list_elem_of_In, filter_In, <- list_elem_of_In, list_elem_of_fmap.
  unfold in_table. rewrite negb_true_iff, andb_false_iff, bool_decide_eq_false, Z.eqb_neq. destruct (decide (table_of (row_data r) = t)); naive_solver.
Qed.

Lemma elem_of_replace_all t id kind content metadata updated s r :
  table_of (row_data r) = t ->
  r ∈ rows (replace_all id kind content metadata updated s) <->
  r ∈ rows s /\ source_memory_id r <> id \/ exists p, p ∈ projected t kind content metadata /\ r = row_of id updated p.
Proof.
  intros Ht. unfold replace_all. pose proof (all_tables t) as Hin. revert s Hin.
  assert (forall ts s, r ∈ rows (foldl (fun s t => replace_rows id kind content metadata updated t s) s ts) <->
    r ∈ rows s /\ (t ∈ ts -> source_memory_id r <> id)
    \/ t ∈ ts /\ exists p, p ∈ projected t kind content metadata /\ r = row_of id updated p) as Hf.
  { induction ts as [|t' ts IH]; intros s; cbn; [set_solver|]. rewrite IH, elem_of_replaced, !elem_of_cons.
    assert ((exists p, p ∈ projected t' kind content metadata /\ r = row_of id updated p) -> t' = t) as Ht'.
    { intros (p & Hp & ->). pose proof (projected_in_table t' kind content metadata) as Hps. rewrite Forall_forall in Hps.
      rewrite <- Ht. symmetry. by apply Hps. }
    rewrite Ht. destruct (decide (t' = t)) as [->|Hne], (decide (t ∈ ts)); intuition congruence. }
  intros s Hin. rewrite Hf. intuition.
Qed.

Lemma is_latest_spec {K} `{EqDecision K} (key : Projection -> option K) rs r k :
  key (row_data r) = Some k ->
  is_latest key rs r = true <-> forall r', r' ∈ rs -> key (row_data r') = Some k -> newer r' r = false.
Proof.
  intros Hk. unfold is_latest. rewrite negb_true_iff, <- not_true_iff_false, existsb_exists. split.
  - intros Hl r' Hr' Hk'. destruct (newer r' r) eqn:Hn; [|done]. destruct Hl. exists r'.
    rewrite <- list_elem_of_In, Hk, Hk', Hn. by rewrite bool_decide_eq_true_2.
  - intros Hl (r' & Hr'%list_elem_of_In & [[_ Hk']%bool_decide_eq_true Hn]%andb_prop).
    rewrite Hk in Hk'. by rewrite Hl in Hn.
Qed.

(** The row of an item that is pending and has no newer row of its name. *)
Lemma elem_of_pending s i :
  i ∈ pending_items s <->
  shop_status i = "pending" /\ exists r n, r ∈ rows s /\ row_data r = ShoppingRow n i /\
    forall r', r' ∈ rows s -> shopping_key (row_data r') = Some n -> newer r' r = false.
Proof.
  unfold pending_items, select. rewrite elem_of_filter_map. split.
  - intros (r & Hr & Hi). rewrite order_by_perm in Hr.
    apply list_elem_of_In, filter_In in Hr as [Hr%list_elem_of_In Hl].
    destruct (row_data r) as [| | | | | | | |n j| | | | | |] eqn:E; try discriminate Hi.
    destruct (String.eqb_spec (shop_status j) "pending"); [|done]. injection Hi as ->. split; [done|]. exists r, n.
    split; [done|]. split; [done|]. eapply is_latest_spec; [|exact Hl]. by rewrite E.
  - intros (Hs & r & n & Hr & E & Hl). exists r. rewrite E, Hs, order_by_perm. split; [|done].
    apply list_elem_of_In, filter_In. split; [by apply list_elem_of_In|]. eapply is_latest_spec; [by rewrite E|done].
Qed.

(** What the sentence says of the list. *)
Definition stated_items (kind text : string) : list ShoppingListItem :=
  if shared_room_allowed (infer_metadata kind text) then shopping_list_items_from_memory kind text else [].
Definition item_key (i : ShoppingListItem) : string := normalize_alias_key (shop_item i).

Lemma logged_rows e now kind content {A} (a : A) c :
  quiet c ->
  rows (tables (ebind (record_canonical_event e) (fun _ => ebind (append_daily_note now kind content) (fun _ => ret (Ok a))) c).2)
  = rows (tables c).
Proof.
  intros Hq. unfold record_canonical_event. erewrite ebind_step by (by apply update_quiet).
  unfold append_daily_note, bind, attempt, ebind. rewrite query_quiet by done. cbv zeta.
  destruct (contains _ _); [done|]. by rewrite update_quiet.
Qed.

Lemma elem_of_store_rows kind content now c t r :
  let text := normalize_memory_content content in
  let id := next_rowid (mem_id <$> memories (tables c)) in
  quiet c -> table_of (row_data r) = t ->
  r ∈ rows (tables (store kind content now c).2) <->
  r ∈ rows (tables c) /\ source_memory_id r <> id
  \/ exists p, p ∈ projected t kind text (infer_metadata kind text) /\ r = row_of id now p.
Proof.
  intros text id Hq Ht. unfold store, store_as. cbv zeta. fold text.
  erewrite (ebind_step (store_with_metadata _ _ _ _ _)); [rewrite logged_rows|].
  3: { unfold store_with_metadata. erewrite ebind_step by (by apply update_count_quiet).
       by erewrite ebind_step by (by apply upsert_all_quiet). }
  - cbn [set_tables tables]. by rewrite (elem_of_replace_all t).
  - done.
Qed.

(** A row of tables in step is projected from a memory that is there. *)
Lemma row_of_memory s r :
  in_sync s -> r ∈ rows s -> exists m, memory_by_id (source_memory_id r) (memories s) = Some m /\
    row_data r ∈ derived (table_of (row_data r)) m.
Proof.
  intros [_ Hr] Hin. assert (row_data r ∈ rows_of (table_of (row_data r)) (source_memory_id r) s) as Hrow.
  { unfold rows_of. apply list_elem_of_fmap_2, list_elem_of_In, filter_In. split; [by apply list_elem_of_In|].
    unfold in_table. rewrite Z.eqb_refl. by rewrite bool_decide_eq_true_2. }
  rewrite Hr in Hrow. destruct (memory_by_id _ _) as [m|]; [by exists m|by apply not_elem_of_nil in Hrow].
Qed.

Lemma row_id_taken s r : in_sync s -> r ∈ rows s -> source_memory_id r <> next_rowid (mem_id <$> memories s).
Proof.
  intros Hs (m & [Hm Hid]%memory_by_id_some & _)%row_of_memory E; [|done]. apply (next_rowid_unused (mem_id <$> memories s)).
  rewrite <- E, <- Hid. by apply list_elem_of_fmap_2.
Qed.

Lemma elem_of_stated kind text p :
  p ∈ projected MemoryTables.shopping_list_items kind text (infer_metadata kind text) <->
  exists i, p = ShoppingRow (item_key i) i /\ i ∈ stated_items kind text.
Proof.
  cbn [projected]. rewrite elem_of_shared, list_elem_of_fmap. unfold stated_items, item_key.
  destruct (shared_room_allowed _); [naive_solver|]. setoid_rewrite elem_of_nil. naive_solver.
Qed.

Lemma shopping_row_keyed s r n i : in_sync s -> r ∈ rows s -> row_data r = ShoppingRow n i -> n = item_key i.
Proof.
  intros Hs (m & _ & Hp)%row_of_memory E; [|done]. rewrite E in Hp. unfold derived in Hp. cbn [table_of projected] in Hp.
  apply elem_of_shared in Hp as [_ (j & Hj & _)%list_elem_of_fmap]. by injection Hj as -> ->.
Qed.

(** The shopping list follows the last word: after a sentence is stored, later
    than anything the tables hold, an item is on the list where the sentence adds
    it, or where it was on the list and the sentence does not name it. *)
Lemma shopping_list_follows_the_last_word kind content now c :
  quiet c -> in_sync (tables c) -> Forall (fun r => (updated_ms r < now)%N) (rows (tables c)) ->
  let stated := stated_items kind (normalize_memory_content content) in
  let after := tables (store kind content now c).2 in
  forall i, i ∈ pending_items after <->
    i ∈ stated /\ shop_status i = "pending" \/ i ∈ pending_items (tables c) /\ item_key i ∉ item_key <$> stated.
Proof.
  intros Hq Hs Hold stated after i. set (id := next_rowid (mem_id <$> memories (tables c))). rewrite Forall_forall in Hold.
  set (said j := row_of id now (ShoppingRow (item_key j) j)).
  assert (forall r, table_of (row_data r) = MemoryTables.shopping_list_items ->
    r ∈ rows after <-> r ∈ rows (tables c) \/ exists j, j ∈ stated /\ r = said j) as Hrows.
  { intros r Ht. unfold after. rewrite (elem_of_store_rows _ _ _ _ _ _ Hq Ht). setoid_rewrite elem_of_stated.
    pose proof (row_id_taken (tables c) r Hs). naive_solver. }
  assert (forall r j, r ∈ rows (tables c) -> newer r (said j) = false /\ newer (said j) r = true) as Hnew.
  { intros r j Hr%Hold. unfold newer. cbn. rewrite (proj2 (N.ltb_ge _ _)), (proj2 (N.ltb_lt _ _) Hr) by lia.
    by rewrite (proj2 (N.eqb_neq _ _)) by lia. }
  assert (forall j j', newer (said j) (said j') = false) as Hsaid.
  { intros j j'. unfold newer. cbn. by rewrite N.ltb_irrefl, Z.ltb_irrefl, andb_false_r. }
  assert (forall r k, shopping_key (row_data r) = Some k -> table_of (row_data r) = MemoryTables.shopping_list_items) as Hkey
    by (intros r k; by destruct (row_data r)).
  rewrite !elem_of_pending. split.
  - intros (Hp & r & n & Hr & E & Hl). apply Hrows in Hr as [Hr|(j & Hj & ->)]; [|cbn in E; simplify_eq; by left|by rewrite E].
    right. rewrite <- (shopping_row_keyed _ _ _ _ Hs Hr E). split.
    + split; [done|]. exists r, n. split_and!; [done..|]. intros r' Hr' Hk. apply Hl; [|done].
      apply Hrows; [by apply (Hkey _ n)|by left].
    + intros (j & -> & Hj)%list_elem_of_fmap. destruct (Hnew r j Hr) as [_ Hn].
      rewrite Hl in Hn; [done| |done]. apply Hrows; [done|]. right. by exists j.
  - intros [[Hi Hp]|[[Hp (r & n & Hr & E & Hl)] Hk]]; (split; [done|]).
    + exists (said i), (item_key i). split; [apply Hrows; [done|right; by exists i]|]. split; [done|].
      intros r' Hr' Hk. apply Hrows in Hr' as [Hr'|(j & _ & ->)]; [by apply Hnew|apply Hsaid|by apply (Hkey _ (item_key i))].
    + exists r, n. split; [apply Hrows; [by rewrite E|by left]|]. split; [done|].
      intros r' Hr' Hk'. apply Hrows in Hr' as [Hr'|(j & Hj & ->)]; [by apply Hl| |by apply (Hkey _ n)].
      destruct Hk. rewrite <- (shopping_row_keyed _ _ _ _ Hs Hr E). injection Hk' as <-. by apply list_elem_of_fmap_2.
Qed.

End props.

(** ** Runs *)

Section runs.
#[local] Existing Instances ascii_tables one_bucket first_day no_index steep_decay.

(** A store with a promoted memory, a decayed one, and one of this year. *)
Definition year : N := 31536000000.
Definition aged : Conn Store :=
  history half_life
    [(0%N, Store_ "fact" "My dog is named Rex."); (0%N, Store_ "note" "The ladder is behind the shed.");
     (0%N, Promote [1%Z]); (year, Store_ "preference" "Ann likes jazz.")] (fresh []).

(** One who was called Anna. *)
Definition renamed : Conn Store :=
  history half_life
    [(0%N, Store_ "identity" "User's name is Anna."); (0%N, Store_ "identity" "User lives in Oslo.")] (fresh []).

Lemma aged_quiet : quiet aged.
Proof. by vm_compute. Qed.
Lemma aged_ids : NoDup (mem_id <$> memories (tables aged)).
Proof. vm_compute. repeat constructor; set_solver. Qed.

Lemma prune_is_one_filter_witness :
  quiet aged /\ NoDup (mem_id <$> memories (tables aged)) /\
  let '(r, c') := prune_decayed half_life (f64_dec 5 (-2)) year aged in
  r = Ok 1 /\ mem_id <$> memories (tables c') = [1; 3]%Z.
Proof.
  split; [exact aged_quiet|]. split; [exact aged_ids|].
  pose proof (prune_is_one_filter half_life (f64_dec 5 (-2)) year aged aged_quiet aged_ids) as H.
  destruct (prune_decayed _ _ _ _) as [r c']. destruct H as (-> & -> & _). by vm_compute.
Defined.

Lemma resolved_fact_is_the_only_answer_witness :
  exists out c', store_resolved "identity" "User's name is Ann." year renamed = (Ok out, c') /\
    forall m, m ∈ memories (tables c') -> mem_kind m = "identity" ->
      memory_slot (mem_kind m) (mem_content m) = Some "identity:name" -> mem_content m = "User's name is Ann.".
Proof.
  assert (normalize_memory_content "User's name is Ann." = "User's name is Ann.") as Ht by (by vm_compute).
  destruct (resolved_fact_is_the_only_answer "identity" "User's name is Ann." "identity:name" year renamed)
    as (out & c' & added & E & _ & _ & _ & _ & H); rewrite ?Ht in *.
  - by vm_compute.
  - vm_compute. repeat constructor; set_solver.
  - by vm_compute.
  - vm_compute. lia.
  - apply (bool_decide_unpack _). by vm_compute.
  - exists out, c'. split; [exact E|exact H].
Defined.


(** Milk is taken off the list, and eggs stay on it. *)
Definition listing : list (N * operation) := [(1000%N, Store_ "shopping" "Shopping list: milk and eggs")].
Local Notation listed := (history half_life listing (fresh [])).
Definition pending_item (name : string) : ShoppingListItem := {| shop_item := name; shop_status := "pending" |}.

Lemma shopping_list_follows_the_last_word_witness :
  quiet listed /\ in_sync (tables listed) /\ Forall (fun r => (updated_ms r < 2000)%N) (rows (tables listed)) /\
  let after := tables (store "shopping" "Shopping list removed: milk" 2000 listed).2 in
  pending_item "milk" ∈ pending_items (tables listed) /\
  pending_item "milk" ∉ pending_items after /\ pending_item "eggs" ∈ pending_items after.
Proof.
  assert (quiet listed) as Hq by (by vm_compute).
  assert (in_sync (tables listed)) as Hs by (by apply settles_history; [|apply empty_in_sync|repeat constructor]).
  assert (Forall (fun r => (updated_ms r < 2000)%N) (rows (tables listed))) as Hold by (vm_compute; repeat constructor).
  pose proof (shopping_list_follows_the_last_word "shopping" "Shopping list removed: milk" 2000 listed Hq Hs Hold) as H.
  split; [exact Hq|]. split; [exact Hs|]. split; [exact Hold|]. cbv zeta in H |- *. rewrite !H.
  split; [|split].
  - apply (bool_decide_unpack _). by vm_compute.
  - apply (bool_decide_unpack _). by vm_compute.
  - apply (bool_decide_unpack _). by vm_compute.
Defined.

End runs.
