(* ===== verification/MemorySpeech.v ===== *)
(** * What the store may answer with

    An answer of [structured_household_answer] is told from rows: each of them
    was read from a sentence that may be spoken in a shared room, and of a secret
    it names the label only. *)

From S2P Require Import Prelude RustStr RustNum Recall Sql MemoryPolicy MemoryText MemoryTypes MemoryExtract Embedding MemoryTables MemoryCanon MemoryStore MemorySync MemoryQuestions MemoryAnswers.
Local Open Scope string_scope.
Local Open Scope list_scope.
Local Open Scope rust_scope.

(** The sentences and the rows they are told from. *)
Inductive told : string -> list Projection -> Prop :=
| TellAttribute n a : told (format_profile_attribute_answer a) [AttributeRow n a]
| TellAllergies (rs : list (option string * HouseholdRule)) :
    told (format_allergy_answer rs.*2) ((fun r => RuleRow r.1 r.2) <$> rs)
| TellAllowed n r : told (format_allowed_rule_answer r) [RuleRow n r]
| TellRules (rs : list (option string * HouseholdRule)) :
    told (format_rule_list_answer rs.*2) ((fun r => RuleRow r.1 r.2) <$> rs)
| TellCalendar n e : told (format_family_calendar_event_answer e) [CalendarRow n e]
| TellPermission n d p : told (format_access_permission_answer p) [PermissionRow n d p]
| TellEveryone (people : list (string * string)) (logs : list (string * option string * HouseholdTaskLog)) :
    told (format_everyone_task_log_answer people.*2 logs.*2)
      (((fun p => ProfileRow p.2 p.1) <$> people) ++ ((fun l => TaskRow l.1.1 l.1.2 l.2) <$> logs))
| TellTask n b t : told (format_household_task_log_answer t) [TaskRow n b t]
| TellSchedule n i : told (format_household_schedule_item_answer i) [ScheduleRow n i]
| TellEvent n a e : told (format_household_event_log_answer e) [EventRow n a e]
| TellShopping (items : list (string * ShoppingListItem)) :
    told (format_shopping_list_answer items.*2) ((fun i => ShoppingRow i.1 i.2) <$> items)
| TellInventory n i : told (format_household_inventory_item_answer i) [InventoryRow n i]
| TellNote n : told (format_household_note_answer n) [NoteRow n].

Definition SECRET_REFUSAL : string :=
  ". Open the local dashboard or credential store to view it; I won't speak the value in shared-room chat.".

Lemma told_no_secret text ps p : told text ps -> p ∈ ps -> table_of p <> MemoryTables.app_only_secret_references.
Proof.
  destruct 1; intros Hp; try (apply list_elem_of_singleton in Hp as ->; done);
    try (apply list_elem_of_fmap in Hp as (? & -> & _); done).
  apply elem_of_app in Hp as [(? & -> & _)%list_elem_of_fmap|(? & -> & _)%list_elem_of_fmap]; done.
Qed.

(** A text the rows [ps] account for. *)
Definition accounted (ps : list Projection) (text : string) : Prop :=
  (exists n secret, SecretRow n secret ∈ ps /\
     text = "I have an app-only reference for " +:+ secret_label secret +:+ SECRET_REFUSAL)
  \/ exists qs, qs <> [] /\ qs ⊆ ps /\ told text qs.

Definition data (s : Store) : list Projection := row_data <$> rows s.

(** ** Steps that only read *)

Definition reads {A} (P : Store -> A -> Prop) (m : run A) : Prop :=
  forall c a c', m c = (Ok a, c') -> tables c' = tables c /\ P (tables c) a.

Lemma reads_ret {A} (P : Store -> A -> Prop) a : (forall s, P s a) -> reads P (ret (Ok a)).
Proof. by intros HP c a' c' [= <- <-]. Qed.

Lemma reads_query {A} (P : Store -> A -> Prop) (f : Store -> A) : (forall s, P s (f s)) -> reads P (query f).
Proof.
  intros HP c a c' E. apply statement_fate in E as [[_ [e [=]]]|(b & t & [= <- <-] & [= ->] & ->)]. done.
Qed.

Lemma reads_ebind {A B} (P : Store -> A -> Prop) (Q : Store -> B -> Prop) (m : run A) (f : A -> run B) :
  reads P m -> (forall a, reads (fun s b => P s a -> Q s b) (f a)) -> reads Q (ebind m f).
Proof.
  intros Hm Hf c b c' E. unfold ebind in E. destruct (m c) as [[a|e] c1] eqn:E1; [|done].
  apply Hm in E1 as [Ht HP]. apply Hf in E as [Ht' HQ]. rewrite Ht' in *. rewrite Ht in *. auto.
Qed.

Lemma reads_weaken {A} (P Q : Store -> A -> Prop) (m : run A) :
  (forall s a, P s a -> Q s a) -> reads P m -> reads Q m.
Proof. intros HPQ Hm c a c' E. apply Hm in E as [Ht HP]. auto. Qed.

(** ** What the queries find *)

Section found.
Context {A : Type} (f : clause A).

(** What came out of a row of the table. *)
Definition from_rows (s : Store) (x : A) : Prop := exists p, p ∈ data s /\ f p = Some x.

Lemma select_from rs x : x ∈ select f rs -> exists p, p ∈ row_data <$> rs /\ f p = Some x.
Proof. intros (r & Hr & Hx)%elem_of_filter_map. exists (row_data r). split; [|done]. by apply list_elem_of_fmap_2. Qed.

Lemma newest_from s x : x ∈ newest_first f s -> from_rows s x.
Proof. intros (p & Hp & Hx)%select_from. exists p. split; [|done]. by rewrite order_by_perm in Hp. Qed.

Lemma head_newest_from s x : head (newest_first f s) = Some x -> from_rows s x.
Proof. intros Hx. apply newest_from. destruct (newest_first f s); simplify_eq/=. by left. Qed.

End found.

Lemma preferred_from {A B} (f : clause (B * A)) R `{!RelDecision R} s x :
  snd <$> head (order_by R (newest_first f s)) = Some x -> exists y, from_rows f s (y, x).
Proof.
  destruct (order_by R (newest_first f s)) as [|[y x'] l] eqn:E; [done|]. intros [= <-]. exists y.
  apply newest_from. rewrite <- (order_by_perm R), E. by left.
Qed.

(** The rows of all the things found. *)
Lemma all_from {A B} (f : clause A) (make : B * A -> Projection) s l :
  (forall p x, f p = Some x -> exists y, p = make (y, x)) ->
  (forall x, x ∈ l -> from_rows f s x) ->
  exists qs : list (B * A), qs.*2 = l /\ (make <$> qs) ⊆ data s.
Proof.
  intros Hf. induction l as [|x l IH]; intros Hl; [exists []; split; [done|set_solver]|].
  destruct IH as (qs & <- & Hqs); [intros y Hy; apply Hl; by apply list_elem_of_further|].
  destruct (Hl x (list_elem_of_here _ _)) as (p & Hp & (y & ->)%Hf). exists ((y, x) :: qs). split; [done|].
  intros q [->|Hq]%elem_of_cons; [done|by apply Hqs].
Qed.

(** ** Answers *)

Definition tellable {A} (g : A -> string) (s : Store) (o : option A) : Prop := forall x, o = Some x -> accounted (data s) (g x).
Definition answers (s : Store) (o : option string) : Prop := forall text, o = Some text -> accounted (data s) text.

Lemma told_one {A} (f : clause A) g s x :
  (forall p, f p = Some x -> told (g x) [p]) -> from_rows f s x -> accounted (data s) (g x).
Proof. intros Hf (p & Hp & Hx). right. exists [p]. split; [done|]. split; [set_solver|]. by apply Hf. Qed.

Lemma told_all {A B} (make : B * A -> Projection) g s (qs : list (B * A)) :
  qs <> [] -> (make <$> qs) ⊆ data s -> told (g qs.*2) (make <$> qs) -> accounted (data s) (g qs.*2).
Proof. intros Hne Hqs Ht. right. exists (make <$> qs). split; [|done]. by intros ->%fmap_nil_inv. Qed.

Lemma answers_or_else first rest : reads answers first -> reads answers rest -> reads answers (or_else first rest).
Proof.
  intros Hf Hr. eapply reads_ebind; [exact Hf|]. intros [text|]; [by apply reads_ret|].
  eapply reads_weaken; [|exact Hr]. done.
Qed.

Lemma answers_asked {A} (q : option A) f : (forall a, reads answers (f a)) -> reads answers (asked q f).
Proof. intros Hf. destruct q; [apply Hf|by apply reads_ret]. Qed.

Lemma answers_tells {A} (g : A -> string) found :
  reads (tellable g) found -> reads answers (tells g found).
Proof.
  intros Hf. eapply reads_ebind; [exact Hf|]. intros [x|]; apply reads_ret; intros s Hx text [= <-]. by apply Hx.
Qed.

Lemma answers_first {A} (g : A -> string) found :
  reads (fun s l => forall x, x ∈ l -> accounted (data s) (g x)) found -> reads answers (tells_first g found).
Proof.
  intros Hf. eapply reads_ebind; [exact Hf|]. intros [|x l]; apply reads_ret; intros s Hx text [= <-]. apply Hx. by left.
Qed.

Lemma answers_all {A} (g : list A -> string) found :
  reads (fun s l => l <> [] -> accounted (data s) (g l)) found -> reads answers (tells_all g found).
Proof.
  intros Hf. eapply reads_ebind; [exact Hf|]. intros [|x l]; apply reads_ret; intros s Hx text [= <-]. by apply Hx.
Qed.

(** Everything a query found, told at once. *)
Lemma told_found {A B} (f : clause A) (make : B * A -> Projection) g s l :
  (forall x, x ∈ l -> from_rows f s x) -> (forall p x, f p = Some x -> exists y, p = make (y, x)) ->
  (forall qs : list (B * A), told (g qs.*2) (make <$> qs)) -> l <> [] -> accounted (data s) (g l).
Proof.
  intros Hl Hf Hg Hne. destruct (all_from f make s l Hf Hl) as (qs & <- & Hqs).
  apply (told_all make); [by intros ->|done|apply Hg].
Qed.

(** A query for one row, whose clause picks what [g] tells. *)
Lemma tells_newest {A} (f : clause A) g :
  (forall p x, f p = Some x -> told (g x) [p]) ->
  reads (tellable g) (query (fun s => head (newest_first f s))).
Proof. intros Hf. apply reads_query. intros s x Hx%head_newest_from. apply (told_one f); [intros p; apply Hf|done]. Qed.

Lemma tells_preferred {A B} (f : clause (B * A)) R `{!RelDecision R} g :
  (forall p y x, f p = Some (y, x) -> told (g x) [p]) ->
  reads (tellable g)
    (query (fun s => snd <$> head (order_by R (newest_first f s)))).
Proof.
  intros Hf. apply reads_query. intros s x [y (p & Hp & Hx)]%preferred_from. right. exists [p].
  split; [done|]. split; [set_solver|]. by apply (Hf p y x).
Qed.

Lemma nothing_told {A} (g : A -> string) :
  reads (tellable g) (ret (Ok None)).
Proof. by apply reads_ret. Qed.

(** A clause that picks what its row holds. *)
Ltac picked := intros []; try done; (intros [_ <-]%when_Some || (intros ? [_ <-]%when_Some)); constructor.

Section told.
Context `{U : Unicode} `{NF : NoteFts}.

Lemma answers_attribute name attribute :
  reads answers (tells_first format_profile_attribute_answer (profile_attributes name attribute)).
Proof.
  apply answers_first. unfold profile_attributes. cbv zeta. destruct (_ || _); [apply reads_ret; set_solver|].
  apply reads_query. intros s x Hx%newest_from. eapply told_one; [|exact Hx]; picked.
Qed.

Lemma tells_rules g person t subject :
  (forall rs : list (option string * HouseholdRule), told (g rs.*2) ((fun r => RuleRow r.1 r.2) <$> rs)) ->
  reads (fun s l => l <> [] -> accounted (data s) (g l)) (household_rules person t subject).
Proof.
  intros Hg. apply reads_query. intros s Hne. eapply (told_found _ (fun r => RuleRow r.1 r.2)); [apply newest_from| |done|done].
  intros []; try done. intros r [_ <-]%when_Some. by eexists.
Qed.

Lemma answers_allowed person subject v :
  reads answers (let!? rules := household_rules (Some person) "screen_time" (Some subject) in
                 ret (Ok (format_allowed_rule_answer <$> allowed_rule v rules))).
Proof.
  apply (reads_ebind (fun s l => forall r, r ∈ l -> accounted (data s) (format_allowed_rule_answer r))).
  - apply reads_query. intros s r Hr%newest_from. eapply told_one; [|exact Hr]; picked.
  - intros rules. apply reads_ret. intros s Hr text Ht. destruct (allowed_rule v rules) as [r|] eqn:E; [|done].
    injection Ht as <-. apply Hr. revert E. unfold allowed_rule. destruct (List.find _ rules) as [r'|] eqn:E.
    + intros [= <-]. apply List.find_some in E as [Hin _]. by apply list_elem_of_In.
    + destruct rules; [done|]. intros [= <-]. by left.
Qed.

Lemma tells_event person t day :
  reads (tellable format_family_calendar_event_answer)
    (family_calendar_event person t day).
Proof. apply tells_preferred. intros []; try done. intros y x [_ [= <- <-]]%when_Some. constructor. Qed.

Lemma tells_event_for question :
  reads (tellable format_family_calendar_event_answer)
    (family_calendar_event_for_query question).
Proof.
  unfold family_calendar_event_for_query. repeat case_match; try apply tells_event. apply nothing_told.
Qed.

Lemma tells_permission question :
  reads (tellable format_access_permission_answer)
    (access_permission_for_query question).
Proof.
  unfold access_permission_for_query. repeat case_match; [|apply nothing_told]. apply tells_newest. picked.
Qed.

Lemma tells_task question : reads (tellable format_household_task_log_answer) (household_task_log_for_query question).
Proof.
  unfold household_task_log_for_query. case_match; [|apply nothing_told]. apply tells_newest. picked.
Qed.

Lemma tells_schedule question :
  reads (tellable format_household_schedule_item_answer) (household_schedule_item_for_query question).
Proof.
  unfold household_schedule_item_for_query. repeat case_match; [|apply nothing_told]. apply tells_newest. picked.
Qed.

Lemma tells_log question : reads (tellable format_household_event_log_answer) (household_event_log_for_query question).
Proof.
  unfold household_event_log_for_query. repeat case_match; [|apply nothing_told]. apply tells_newest. picked.
Qed.

Lemma tells_inventory question :
  reads (tellable format_household_inventory_item_answer) (household_inventory_item_for_query question).
Proof.
  unfold household_inventory_item_for_query. repeat (case_match; try apply nothing_told). apply tells_newest. picked.
Qed.

(** The rows that are the latest of their key are rows. *)
Lemma select_latest_from {A} {K} `{EqDecision K} (f : clause A) (key : Projection -> option K) rs s x :
  rs ≡ₚ List.filter (is_latest key (rows s)) (rows s) -> x ∈ select f rs -> from_rows f s x.
Proof.
  intros Hrs (p & (r & -> & Hr)%list_elem_of_fmap & Hx)%select_from. exists (row_data r). split; [|done].
  rewrite Hrs in Hr. apply list_elem_of_In, filter_In in Hr as [Hr _].
  apply list_elem_of_fmap_2. by apply list_elem_of_In.
Qed.

Lemma answers_shopping : reads answers (tells_all format_shopping_list_answer shopping_list_items).
Proof.
  apply answers_all, reads_query. intros s Hne.
  apply (told_found (fun p => match p with ShoppingRow _ i => when (String.eqb (shop_status i) "pending") i | _ => None end)
           (fun i => ShoppingRow i.1 i.2)); [| |constructor|done].
  - intros x. apply select_latest_from with shopping_key. apply order_by_perm.
  - intros []; try done. intros x [_ <-]%when_Some. by eexists.
Qed.

Lemma answers_everyone day : reads answers (everyone_brushed day).
Proof.
  apply (reads_ebind (fun s l => exists logs : list (string * option string * HouseholdTaskLog),
    logs.*2 = l /\ (fun l => TaskRow l.1.1 l.1.2 l.2) <$> logs ⊆ data s)).
  - apply reads_query. intros s. eapply (all_from _ (fun l => TaskRow l.1.1 l.1.2 l.2)).
    2: { intros x Hx. rewrite order_by_perm in Hx. revert Hx. apply select_latest_from with task_key. done. }
    intros []; try done. intros x [_ <-]%when_Some. by exists (normalized_person, normalized_subject).
  - intros [|log logs]; [by apply reads_ret|].
    apply (reads_ebind (fun s l => exists people : list (string * string),
      people.*2 = l /\ (fun p => ProfileRow p.2 p.1) <$> people ⊆ data s)).
    + apply reads_query. intros s. eapply (all_from _ (fun p => ProfileRow p.2 p.1)).
      2: { intros x Hx. rewrite order_by_perm in Hx. exact (select_from _ _ _ Hx). }
      intros []; try done. intros x [_ <-]%when_Some. by exists role.
    + intros people. apply reads_ret. intros s (people' & <- & Hp) (logs' & E & Hl) text [= <-]. right.
      exists (((fun p => ProfileRow p.2 p.1) <$> people') ++ ((fun l => TaskRow l.1.1 l.1.2 l.2) <$> logs')).
      split; [by destruct logs', people'|]. split; [set_solver|]. rewrite <- E. constructor.
Qed.

(** *** Secrets and notes *)

Definition labelled (s : Store) (secret : AppOnlySecretReference) : Prop :=
  accounted (data s) (format_app_only_secret_reference_answer secret).

Lemma labelled_from f s secret : from_rows (secrets_where f) s secret -> labelled s secret.
Proof.
  intros (p & Hp & Hs). left. destruct p; try done. apply when_Some in Hs as [_ <-]. by eexists _, _.
Qed.

Lemma answers_secret question :
  reads answers (tells_first format_app_only_secret_reference_answer (app_only_secret_references question)).
Proof.
  apply answers_first. unfold app_only_secret_references.
  destruct (secret_reference_query question) as [[t label]|]; [|apply reads_ret; set_solver].
  apply (reads_ebind (fun s l => forall x, x ∈ l -> labelled s x)).
  - apply reads_query. intros s x Hx%newest_from. by apply labelled_from in Hx.
  - intros [|x l]; [|by apply reads_ret]. eapply reads_weaken; [intros s l Hl _; exact Hl|].
    apply reads_query.
    intros s x Hx. rewrite order_by_perm in Hx. apply list_elem_of_In, filter_In in Hx as [Hx _].
    apply list_elem_of_In, select_from in Hx as (p & Hp & Hx). rewrite !order_by_perm in Hp.
    eapply labelled_from. by exists p.
Qed.

Definition noted (s : Store) (n : HouseholdNote) : Prop := accounted (data s) (format_household_note_answer n).

Lemma noted_row s n : NoteRow n ∈ data s -> noted s n.
Proof. intros Hn. right. exists [NoteRow n]. split; [done|]. split; [set_solver|constructor]. Qed.

Lemma notes_fallback text limit : reads (fun s l => forall n, n ∈ l -> noted s n) (household_notes_like_fallback text limit).
Proof.
  unfold household_notes_like_fallback. destruct (search_tokens text) as [|token tokens]; [apply reads_ret; set_solver|].
  apply reads_query. intros s n Hn%in_take.
  apply newest_from in Hn as (p & Hp & Hn). destruct p; try done. apply when_Some in Hn as [_ <-]. by apply noted_row.
Qed.

Lemma answers_note text : reads answers (tells_first format_household_note_answer (household_notes_search text 3)).
Proof.
  apply answers_first. unfold household_notes_search. cbv zeta. destruct (build_fts_query text) as [q|]; [|apply notes_fallback].
  apply (reads_ebind (fun s l => forall n, n ∈ l -> noted s n)).
  - apply reads_query. intros s n Hn%in_take.
    apply elem_of_filter_map in Hn as (id & _ & Hn). destruct (List.find _ _) as [[id' n']|] eqn:E; [|done].
    injection Hn as ->. apply List.find_some in E as [Hin _]. apply list_elem_of_In, elem_of_filter_map in Hin as (r & Hr & Hd).
    apply noted_row, list_elem_of_fmap. exists r. split; [|done]. destruct (row_data r); by simplify_eq.
  - intros [|n l]; [|by apply reads_ret]. eapply reads_weaken; [intros s l Hl _; exact Hl|]. apply notes_fallback.
Qed.

Lemma reads_answer question : reads answers (structured_household_answer question).
Proof.
  unfold structured_household_answer.
  repeat (apply answers_or_else; [|]); try (apply answers_asked).
  - intros [name attribute]. apply answers_attribute.
  - intros subject. apply answers_all, tells_rules. constructor.
  - intros [[person subject] v]. apply answers_allowed.
  - intros person. apply answers_all, tells_rules. constructor.
  - apply answers_tells, tells_event_for.
  - apply answers_tells, tells_permission.
  - apply answers_everyone.
  - apply answers_tells, tells_task.
  - apply answers_tells, tells_schedule.
  - apply answers_tells, tells_log.
  - destruct (shopping_list_query question); [apply answers_shopping|by apply reads_ret].
  - apply answers_tells, tells_inventory.
  - intros _. apply answers_secret.
  - intros note_query. apply answers_note.
Qed.

(** ** What is said *)

Context `{H : StrHasher} `{G : Gmtime} `{F : Fts} `{EX : Exp}.
Variable half_life_days : f64.

(** C9: Whatever was stored, changed and deleted, and whatever failed on the way,
    an answer from the household tables changes nothing, and what it says is
    either the refusal to speak a secret, which names the secret's label only, or
    it is told from rows each of which was read from a sentence that the policy
    lets be spoken in a shared room. *)
Theorem what_is_answered_may_be_said ops fs question text c' :
  let c := history half_life_days ops (fresh fs) in
  structured_household_answer question c = (Ok (Some text), c') ->
  tables c' = tables c /\
  ((exists n secret, SecretRow n secret ∈ data (tables c) /\
      text = "I have an app-only reference for " +:+ secret_label secret +:+ SECRET_REFUSAL) \/
   exists ps, ps <> [] /\ told text ps /\
     Forall (fun p => p ∈ data (tables c) /\ exists kind content,
       p ∈ projected (table_of p) kind content (infer_metadata kind content) /\
       decision_allowed (assess_memory_read (infer_metadata kind content) shared_room_voice) = true) ps).
Proof.
  intros c E. apply reads_answer in E as [Ht Ha]. split; [done|]. destruct (Ha text eq_refl) as [Hs|(ps & Hne & Hps & Hp)]; [by left|].
  right. exists ps. split; [done|]. split; [done|]. apply Forall_forall. intros p Hin. split; [by apply Hps|].
  destruct (keeps_history half_life_days ops (fresh fs) (fresh_policed fs)) as [_ Hrows].
  pose proof (told_no_secret _ _ _ Hp Hin) as Hsecret.
  apply Hps, list_elem_of_fmap in Hin. destruct Hin as (r & -> & Hr). rewrite Forall_forall in Hrows.
  destruct (Hrows r Hr) as (kind & content & Hpr). exists kind, content. split; [done|].
  by apply (projected_gate _ _ _ _ _ Hpr).
Qed.

End told.

(** ** Runs *)

Section runs.
#[local] Existing Instances ascii_tables one_bucket first_day no_index steep_decay.
Definition no_notes : NoteFts := {| notes_match _ _ := [] |}.
#[local] Existing Instance no_notes.

Definition household : list (N * operation) :=
  [(1000%N, Store_ "fact" "Ann is allergic to peanuts."); (2000%N, Store_ "shopping" "Shopping list: milk and eggs");
   (3000%N, Store_ "shopping" "Shopping list removed: milk"); (4000%N, Store_ "task" "Leo brushed his teeth, done.");
   (5000%N, Store_ "fact" "Mia is our daughter"); (6000%N, Store_ "secret" "The netflix password is stored in the credentials vault.")].
Local Notation home := (history half_life household (fresh [])).

Definition answer_to (question : string) : result (option string) string := (structured_household_answer question home).1.

Example household_answers :
  answer_to <$> ["Is anyone allergic to peanuts?"; "what's on the shopping list"; "did everyone brush their teeth";
                 "what is the netflix password"; "who painted the fence"] =
  [Ok (Some "Yes. Ann is allergic to peanuts"); Ok (Some "Shopping list: eggs.");
   Ok (Some "Leo has logged brushing teeth. Not logged yet: Mia.");
   Ok (Some ("I have an app-only reference for Netflix account" +:+ SECRET_REFUSAL)); Ok None].
Proof. by vm_compute. Qed.

Lemma what_is_answered_may_be_said_witness :
  structured_household_answer "Is anyone allergic to peanuts?" home = (Ok (Some "Yes. Ann is allergic to peanuts"), home) /\
  exists ps, told "Yes. Ann is allergic to peanuts" ps /\
    Forall (fun p => exists kind content, p ∈ projected (table_of p) kind content (infer_metadata kind content) /\
      decision_allowed (assess_memory_read (infer_metadata kind content) shared_room_voice) = true) ps.
Proof.
  assert (structured_household_answer "Is anyone allergic to peanuts?" home =
          (Ok (Some "Yes. Ann is allergic to peanuts"), home)) as E by (by vm_compute).
  split; [exact E|].
  destruct (what_is_answered_may_be_said half_life household [] "Is anyone allergic to peanuts?" _ _ E)
    as [_ [(n & secret & _ & Hs)|(ps & _ & Ht & Hps)]].
  - discriminate Hs.
  - exists ps. split; [exact Ht|]. eapply Forall_impl; [exact Hps|]. intros p [_ Hp]. exact Hp.
Defined.

End runs.
