(* ===== verification/MemoryInject.v ===== *)
(** * What of the memory goes into a prompt ([memory/inject.rs])

    The identities, relationships, matches and preferences that may be read in
    the turn's context, one line each, cut to the budget of tokens. *)

From S2P Require Import Prelude RustStr RustNum Recall Sql MemoryPolicy MemoryText MemoryTypes MemoryExtract Embedding MemoryTables MemoryCanon MemoryStore MemorySync MemoryFacts.
Local Open Scope string_scope.
Local Open Scope list_scope.
Local Open Scope rust_scope.

Definition MEMORY_HYDRATION_BUDGET_TOKENS : nat := 700.

(** ** The budget *)

(** [len.div_ceil(4)]. *)
Definition estimate_hydration_tokens_from_len (len : nat) : nat := Nat.div (len + 3) 4.
Definition estimate_hydration_tokens (text : string) : nat := estimate_hydration_tokens_from_len (String.length text).

Definition memory_line (entry : string) : string := "- " +:+ entry.
Definition format_memory_lines (entries : list string) : string := join newline (memory_line <$> entries).

Definition ellipsis : string := utf8 [226; 128; 166]%N.
Definition fits_line (budget_tokens : nat) (entry : string) : bool :=
  Nat.leb (estimate_hydration_tokens (memory_line entry)) budget_tokens.

(** The first [mid] characters, marked as cut. *)
Definition candidate (cs : list string) (mid : nat) : string :=
  let truncated := concat_str (take mid cs) in
  if Nat.leb (length cs) mid then truncated else truncated +:+ ellipsis.

(** The binary search; each round leaves fewer lengths between its bounds. *)
Fixpoint search_cut (fuel : nat) (fits : nat -> bool) (lo hi : nat) : nat :=
  match fuel with
  | 0 => lo
  | S fuel =>
      if Nat.ltb lo hi then
        let mid := Nat.div (lo + hi + 1) 2 in
        if fits mid then search_cut fuel fits mid hi else search_cut fuel fits lo (mid - 1)
      else lo
  end.

Definition truncate_entry_to_budget (entry : string) (budget_tokens : nat) : string :=
  if fits_line budget_tokens entry then entry
  else
    let cs := chars entry in
    let lo := search_cut (length cs) (fun mid => fits_line budget_tokens (candidate cs mid)) 0 (length cs) in
    match lo with
    | 0 => ""
    | _ => if Nat.leb (length cs) lo then entry else concat_str (take lo cs) +:+ ellipsis
    end.

(** The loop keeps the length of what it has selected. *)
Fixpoint fit_loop (any_selected : bool) (joined_len : nat) (entries : list string) : list string :=
  match entries with
  | [] => []
  | entry :: entries =>
      let trial_len := joined_len + (if any_selected then 1 else 0) + 2 + String.length entry in
      if Nat.leb (estimate_hydration_tokens_from_len trial_len) MEMORY_HYDRATION_BUDGET_TOKENS
      then entry :: fit_loop true trial_len entries
      else []
  end.
Definition fit_entries_to_budget (entries : list string) : list string := fit_loop false 0 entries.

Definition apply_hydration_budget (entries : list string) : string :=
  match entries with
  | [] => "(no household context yet)"
  | first :: _ =>
      let selected := fit_entries_to_budget entries in
      let selected :=
        match selected with
        | [] =>
            let truncated := truncate_entry_to_budget first MEMORY_HYDRATION_BUDGET_TOKENS in
            if is_empty truncated then [] else [truncated]
        | _ => selected
        end in
      format_memory_lines selected
  end.

(** ** Choosing the lines *)

Definition may_inject_entry (entry : MemoryEntry) (read_context : MemoryReadContext) : bool :=
  decision_allowed (assess_memory_read (me_metadata entry) read_context).
Definition entry_text (entry : MemoryEntry) : string := "[" +:+ me_kind entry +:+ "] " +:+ me_content entry.

Definition MAX_WITH_PREFERENCES : nat := 8.

Record Picked := { picked : list MemoryEntry; seen_ids : gset Z }.
Definition nothing_picked : Picked := {| picked := []; seen_ids := ∅ |}.

(** An id is seen whether or not its entry may be read. *)
Definition pick (read_context : MemoryReadContext) (st : Picked) (entry : MemoryEntry) : Picked :=
  {| picked := if bool_decide (me_id entry ∉ seen_ids st) && may_inject_entry entry read_context
               then picked st ++ [entry] else picked st;
     seen_ids := {[me_id entry]} ∪ seen_ids st |}.
Definition pick_preference (read_context : MemoryReadContext) (st : Picked) (entry : MemoryEntry) : Picked :=
  if Nat.leb MAX_WITH_PREFERENCES (length (picked st)) then st else pick read_context st entry.

Section inject.
Context `{U : Unicode} `{H : StrHasher} `{G : Gmtime} `{F : Fts} `{EX : Exp}.
Variable half_life_days : f64.
Variable now : N.

(** A query that fails adds nothing. *)
Definition add_from (read_context : MemoryReadContext) (st : Picked) (found : run (list MemoryEntry)) : M (Conn Store) Picked :=
  let! entries := attempt found in ret (foldl (pick read_context) st (default [] entries)).

Definition pick_preferences (read_context : MemoryReadContext) (st : Picked) : M (Conn Store) Picked :=
  if Nat.ltb (length (picked st)) MAX_WITH_PREFERENCES then
    let! prefs := attempt (get_by_kind "preference" 3) in
    ret (foldl (pick_preference read_context) st (default [] prefs))
  else ret st.

Definition pick_entries (user_query : string) (read_context : MemoryReadContext) : M (Conn Store) Picked :=
  let! st := add_from read_context nothing_picked (get_by_kind "identity" 5) in
  let! st := add_from read_context st (get_by_kind "relationship" 3) in
  let! st := if is_empty (trim user_query) then ret st
             else add_from read_context st (search half_life_days user_query 5 now) in
  pick_preferences read_context st.

Definition build_memory_context_with_read_context (user_query : string) (read_context : MemoryReadContext)
    : M (Conn Store) string :=
  let! st := pick_entries user_query read_context in
  ret (apply_hydration_budget (entry_text <$> picked st)).

Definition build_memory_context (user_query : string) : M (Conn Store) string :=
  build_memory_context_with_read_context user_query shared_room_voice.

End inject.

(** ** The longest prefix *)

Definition fits (l : list string) : bool :=
  Nat.leb (estimate_hydration_tokens (format_memory_lines l)) MEMORY_HYDRATION_BUDGET_TOKENS.

Lemma tokens_mono n m : n <= m -> estimate_hydration_tokens_from_len n <= estimate_hydration_tokens_from_len m.
Proof. intros Hn. apply Nat.Div0.div_le_mono. lia. Qed.

(** The length of the joined lines, with a separator before each but the first. *)
Definition lines_len (l : list string) : nat := sum_list ((fun e => 3 + String.length e) <$> l).

Lemma lines_len_cons e l : lines_len (e :: l) = 3 + String.length e + lines_len l.
Proof. done. Qed.

Lemma length_format l : String.length (format_memory_lines l) = lines_len l - 1.
Proof.
  unfold format_memory_lines. induction l as [|e l IH]; [done|]. rewrite lines_len_cons. destruct l as [|e' l].
  - change (join newline (memory_line <$> [e])) with ("- " +:+ e). rewrite length_sapp.
    change (lines_len []) with 0. change (String.length "- ") with 2. lia.
  - change (join newline (memory_line <$> e :: e' :: l)) with
      (memory_line e +:+ (newline +:+ join newline (memory_line <$> e' :: l))).
    rewrite !length_sapp, IH. unfold memory_line. rewrite length_sapp, lines_len_cons.
    change (String.length newline) with 1. change (String.length "- ") with 2. lia.
Qed.

Lemma fits_len l : fits l = true <-> estimate_hydration_tokens_from_len (lines_len l - 1) <= MEMORY_HYDRATION_BUDGET_TOKENS.
Proof. unfold fits, estimate_hydration_tokens. by rewrite Nat.leb_le, length_format. Qed.

Lemma lines_len_app l k : lines_len (l ++ k) = lines_len l + lines_len k.
Proof. induction l as [|e l IH]; [done|]. change ((e :: l) ++ k) with (e :: (l ++ k)). rewrite !lines_len_cons. lia. Qed.


Lemma fits_shorter l k : fits (l ++ k) = true -> fits l = true.
Proof. rewrite !fits_len, lines_len_app. intros Hf. etrans; [|exact Hf]. apply tokens_mono. lia. Qed.

Definition some_kept (kept : list string) : bool := match kept with [] => false | _ => true end.

Lemma fit_loop_step kept e l :
  fit_loop (some_kept kept) (lines_len kept - 1) (e :: l) =
  if fits (kept ++ [e]) then e :: fit_loop (some_kept (kept ++ [e])) (lines_len (kept ++ [e]) - 1) l else [].
Proof.
  cbn [fit_loop].
  assert (lines_len kept - 1 + (if some_kept kept then 1 else 0) + 2 + String.length e = lines_len (kept ++ [e]) - 1) as ->.
  { rewrite lines_len_app, lines_len_cons. change (lines_len []) with 0. destruct kept; rewrite ?lines_len_cons; cbn [some_kept]; [change (lines_len []) with 0|]; lia. }
  assert (some_kept (kept ++ [e]) = true) as -> by by destruct kept.
  destruct (fits (kept ++ [e])) eqn:Ef.
  - apply fits_len, Nat.leb_le in Ef. by rewrite Ef.
  - destruct (Nat.leb _ _) eqn:El; [|done]. apply Nat.leb_le, fits_len in El. congruence.
Qed.

Lemma fit_loop_longest l kept :
  exists k, k <= length l /\ fit_loop (some_kept kept) (lines_len kept - 1) l = take k l /\
    (k < length l -> fits (kept ++ take (S k) l) = false) /\ (fits kept = true -> fits (kept ++ take k l) = true).
Proof.
  revert kept. induction l as [|e l IH]; intros kept.
  { exists 0. cbn. rewrite app_nil_r. split_and!; (lia || done). }
  rewrite fit_loop_step. destruct (fits (kept ++ [e])) eqn:Ef.
  - destruct (IH (kept ++ [e])) as (k & Hk & -> & Hout & Hin). exists (S k). cbn [take length].
    rewrite <- app_assoc in Hout, Hin. cbn in Hout, Hin. split_and!; [lia|done|intros; apply Hout; lia|auto].
  - exists 0. cbn [take length]. rewrite app_nil_r. split_and!; [lia|done|by destruct l|done].
Qed.

(** The lines kept for the prompt are the longest prefix of the candidates
    that fits: a prefix fits the budget, measured on the rendered text, exactly
    if it is not longer than what is kept. *)
Lemma hydration_keeps_the_longest_prefix entries :
  let kept := fit_entries_to_budget entries in
  kept = take (length kept) entries /\
  forall j, j <= length entries -> fits (take j entries) = Nat.leb j (length kept).
Proof.
  cbv zeta. destruct (fit_loop_longest entries []) as (k & Hk & Hfit & Hout & Hin). rewrite app_nil_l in Hout, Hin.
  change (fit_entries_to_budget entries = take k entries) in Hfit.
  rewrite Hfit, length_take, Nat.min_l by lia. split; [done|].
  specialize (Hin eq_refl). intros j Hj. destruct (Nat.leb_spec j k) as [Hl|Hl].
  - apply (fits_shorter _ (drop j (take k entries))). rewrite <- (Nat.min_l j k), <- take_take at 1 by lia.
    by rewrite take_drop.
  - apply not_true_is_false. intros Hf. specialize (Hout ltac:(lia)).
    assert (fits (take (S k) entries) = true); [|congruence].
    apply (fits_shorter _ (drop (S k) (take j entries))). rewrite <- (Nat.min_l (S k) j), <- take_take at 1 by lia.
    by rewrite take_drop.
Qed.

(** ** Cutting the first line *)

(** A binary search over lengths of which the shorter ones fit. *)
Lemma search_cut_spec f n fuel lo hi :
  lo <= n <= hi -> hi - lo <= fuel -> (forall m, 0 < m <= hi -> f m = Nat.leb m n) -> search_cut fuel f lo hi = n.
Proof.
  revert lo hi. induction fuel as [|fuel IH]; intros lo hi Hn Hfuel Hf; cbn [search_cut]; [lia|].
  destruct (Nat.ltb_spec lo hi) as [Hl|]; [|lia].
  assert (lo < Nat.div (lo + hi + 1) 2 <= hi) as Hmid.
  { split; [apply (Nat.div_le_lower_bound (lo + hi + 1) 2 (S lo)); lia|].
    apply Nat.lt_succ_r, Nat.Div0.div_lt_upper_bound. lia. }
  cbv zeta. rewrite Hf by lia. destruct (Nat.leb_spec (Nat.div (lo + hi + 1) 2) n).
  - apply IH; [lia|lia|done].
  - apply IH; [lia|lia|]. intros m Hm. apply Hf. lia.
Qed.

Lemma cut_point (f : nat -> bool) hi :
  (forall m m', 0 < m <= m' -> m' <= hi -> f m' = true -> f m = true) ->
  exists n, n <= hi /\ forall m, 0 < m <= hi -> f m = Nat.leb m n.
Proof.
  induction hi as [|hi IH]; intros Hf; [exists 0; split; [done|lia]|].
  destruct (f (S hi)) eqn:E.
  - exists (S hi). split; [done|]. intros m Hm. rewrite (proj2 (Nat.leb_le m (S hi))) by lia. eapply Hf; [|reflexivity|done]. lia.
  - destruct IH as (n & Hn & Hall); [intros m m' Hm Hm'; apply Hf; lia|]. exists n. split; [lia|]. intros m Hm.
    destruct (decide (m = S hi)) as [->|]; [|apply Hall; lia]. rewrite E. symmetry. apply Nat.leb_gt. lia.
Qed.

Lemma fits_line_len budget e :
  fits_line budget e = Nat.leb (estimate_hydration_tokens_from_len (2 + String.length e)) budget.
Proof. unfold fits_line, estimate_hydration_tokens, memory_line. by rewrite length_sapp. Qed.

Lemma fits_line_shorter budget e e' :
  String.length e <= String.length e' -> fits_line budget e' = true -> fits_line budget e = true.
Proof. rewrite !fits_line_len, !Nat.leb_le. intros Hl Hf. etrans; [|exact Hf]. apply tokens_mono. lia. Qed.

Lemma length_take_chars m m' cs :
  m <= m' -> String.length (concat_str (take m cs)) <= String.length (concat_str (take m' cs)).
Proof.
  intros Hm. rewrite <- (take_drop m (take m' cs)), take_take, Nat.min_l, concat_str_app, length_sapp by done. lia.
Qed.

(** A first line that does not fit is cut to the longest run of its
    characters that fits with the mark of the cut, and dropped if there is none. *)
Lemma long_line_is_cut_at_the_budget entry budget :
  fits_line budget entry = false ->
  let cut n := concat_str (take n (chars entry)) +:+ ellipsis in
  exists n, truncate_entry_to_budget entry budget = (if Nat.eqb n 0 then "" else cut n) /\
    (0 < n -> n < length (chars entry) /\ fits_line budget (cut n) = true) /\
    forall m, n < m < length (chars entry) -> fits_line budget (cut m) = false.
Proof.
  intros Hfit cut. set (cs := chars entry) in *. set (f := fun mid => fits_line budget (candidate cs mid)).
  assert (forall m, m < length cs -> candidate cs m = cut m) as Hcut.
  { intros m Hm. unfold candidate. by rewrite (proj2 (Nat.leb_gt _ _) Hm). }
  assert (candidate cs (length cs) = entry) as Hall.
  { unfold candidate. rewrite Nat.leb_refl, take_ge by done. apply concat_chars. }
  destruct (cut_point f (length cs)) as (n & Hn & Hf).
  { intros m m' Hm Hm'. unfold f. destruct (decide (m' = length cs)) as [->|]; [rewrite Hall; congruence|].
    rewrite !Hcut by lia. apply fits_line_shorter. unfold cut. rewrite !length_sapp.
    pose proof (length_take_chars m m' cs). lia. }
  assert (n = 0 \/ n < length cs) as Hlt.
  { destruct (decide (n = length cs)) as [E|]; [|right; lia]. left. destruct (decide (n = 0)); [done|].
    specialize (Hf n ltac:(lia)). rewrite E, Nat.leb_refl in Hf. unfold f in Hf. rewrite Hall in Hf. congruence. }
  exists n. unfold truncate_entry_to_budget. rewrite Hfit. fold cs. fold f.
  rewrite (search_cut_spec f n) by (lia || done). split_and!.
  - destruct n as [|n]; [done|]. rewrite (proj2 (Nat.leb_gt _ _)) by lia. done.
  - intros H0. split; [lia|]. rewrite <- Hcut by lia. fold (f n). rewrite Hf by lia. apply Nat.leb_refl.
  - intros m Hm. rewrite <- Hcut by lia. fold (f m). rewrite Hf by lia. apply Nat.leb_gt. lia.
Qed.

Lemma cut_fits entry budget :
  truncate_entry_to_budget entry budget = "" \/ fits_line budget (truncate_entry_to_budget entry budget) = true.
Proof.
  destruct (fits_line budget entry) eqn:E; [right; unfold truncate_entry_to_budget; by rewrite E|].
  destruct (long_line_is_cut_at_the_budget entry budget E) as (n & -> & Hn & _). destruct n as [|n]; [by left|right].
  apply Hn. lia.
Qed.

Lemma hydration_fits entries :
  estimate_hydration_tokens (apply_hydration_budget entries) <= MEMORY_HYDRATION_BUDGET_TOKENS.
Proof.
  destruct entries as [|first rest]; [by apply Nat.leb_le; vm_compute|]. cbn [apply_hydration_budget].
  destruct (fit_entries_to_budget (first :: rest)) as [|e kept] eqn:E.
  - destruct (cut_fits first MEMORY_HYDRATION_BUDGET_TOKENS) as [->|Hf]; [by apply Nat.leb_le; vm_compute|].
    destruct (is_empty _); [by apply Nat.leb_le; vm_compute|]. by apply Nat.leb_le.
  - destruct (fit_loop_longest (first :: rest) []) as (k & _ & Hk & _ & Hin). rewrite app_nil_l in Hin.
    change (fit_entries_to_budget (first :: rest) = take k (first :: rest)) in Hk. rewrite E in Hk. rewrite <- Hk in Hin. by apply Nat.leb_le, Hin.
Qed.

(** ** What is injected *)

Section injected.
Context `{U : Unicode} `{H : StrHasher} `{G : Gmtime} `{F : Fts} `{EX : Exp}.
Variable half_life_days : f64.
Variable now : N.

(** Each memory at most once, and only what the context may read. *)
Record injectable (ctx : MemoryReadContext) (fs : list Fact) (es : list MemoryEntry) : Prop := {
  injectable_once : NoDup (me_id <$> es);
  injectable_allowed : Forall (fun e => decision_allowed (assess_memory_read (me_metadata e) ctx) = true) es;
  injectable_shown : shown fs es;
}.

Definition picked_well (ctx : MemoryReadContext) (fs : list Fact) (st : Picked) : Prop :=
  injectable ctx fs (picked st) /\ forall e, e ∈ picked st -> me_id e ∈ seen_ids st.

Lemma pick_well ctx fs st e : picked_well ctx fs st -> entry_fact e ∈ fs -> picked_well ctx fs (pick ctx st e).
Proof.
  intros [[Hn Ha Hs] Hseen] He. unfold pick. destruct (bool_decide _ && _) eqn:E; cbn.
  - bool_to_prop. split.
    + split; cbn.
      * rewrite fmap_app. apply NoDup_app. split_and!; [done| |apply NoDup_singleton].
        intros id (x & -> & Hx)%list_elem_of_fmap He'%list_elem_of_singleton. apply Hseen in Hx. congruence.
      * apply Forall_app. by split; [|constructor].
      * intros x [Hx| ->%list_elem_of_singleton]%elem_of_app; [by apply Hs|done].
    + intros x [Hx%Hseen| ->%list_elem_of_singleton]%elem_of_app; cbn; set_solver.
  - split; [by split|]. intros x Hx%Hseen. cbn. set_solver.
Qed.

Lemma picks_well (step : Picked -> MemoryEntry -> Picked) ctx fs es st :
  (forall st e, picked_well ctx fs st -> entry_fact e ∈ fs -> picked_well ctx fs (step st e)) ->
  shown fs es -> picked_well ctx fs st -> picked_well ctx fs (foldl step st es).
Proof.
  intros Hstep. revert st. induction es as [|e es IH]; intros st Hes Hst; [done|]. cbn. apply IH.
  - intros x Hx. apply Hes. by right.
  - apply Hstep; [done|]. apply Hes. by left.
Qed.

(** The facts stay, and what has been picked stays well picked. *)
Definition picks (ctx : MemoryReadContext) (st : Picked) (m : M (Conn Store) Picked) : Prop :=
  forall fs c st' c', m c = (st', c') -> facts (tables c) = fs -> picked_well ctx fs st ->
    facts (tables c') = fs /\ picked_well ctx fs st'.

Lemma picks_ret ctx st : picks ctx st (ret st).
Proof. by intros fs c st' c' [= <- <-]. Qed.

Lemma picks_from ctx st (found : run (list MemoryEntry)) step :
  (forall fs st e, picked_well ctx fs st -> entry_fact e ∈ fs -> picked_well ctx fs (step st e)) ->
  leaves_facts found -> finds shown found ->
  picks ctx st (let! entries := attempt found in ret (foldl step st (default [] entries))).
Proof.
  intros Hstep Hl Hf fs c st' c' E Hfs Hst. unfold bind, attempt in E.
  destruct (found c) as [[es|e] c1] eqn:Ef; injection E as <- <-.
  - apply Hf in Ef as [Ht Hes]. rewrite Ht. split; [done|]. cbn. apply picks_well; [apply Hstep|by rewrite <- Hfs|done].
  - specialize (Hl (fun x => x = fs) c Hfs). rewrite Ef in Hl. by split.
Qed.

Lemma leaves_by_kind kind limit : leaves_facts (get_by_kind kind limit).
Proof. intros Q. apply keeps_query. Qed.

Lemma picks_add ctx st found : leaves_facts found -> finds shown found -> picks ctx st (add_from ctx st found).
Proof. apply picks_from. intros. by apply pick_well. Qed.

Lemma picks_bind ctx st (m : M (Conn Store) Picked) (f : Picked -> M (Conn Store) Picked) :
  picks ctx st m -> (forall st', picks ctx st' (f st')) -> picks ctx st (bind m f).
Proof.
  intros Hm Hf fs c st' c' E Hfs Hst. unfold bind in E. destruct (m c) as [st1 c1] eqn:E1.
  destruct (Hm _ _ _ _ E1 Hfs Hst) as [H1 H2]. by eapply Hf.
Qed.

Lemma nothing_well ctx fs : picked_well ctx fs nothing_picked.
Proof. split; [split; cbn; [constructor|constructor|by intros e He%not_elem_of_nil]|by intros e He%not_elem_of_nil]. Qed.

Lemma pick_entries_picks query ctx : picks ctx nothing_picked (pick_entries half_life_days now query ctx).
Proof.
  apply picks_bind; [apply picks_add; [apply leaves_by_kind|apply finds_by_kind]|intros st1].
  apply picks_bind; [apply picks_add; [apply leaves_by_kind|apply finds_by_kind]|intros st2].
  apply picks_bind; [|intros st3].
  - destruct (is_empty _); [apply picks_ret|]. apply picks_add; [apply leaves_search|apply finds_search].
  - unfold pick_preferences. destruct (Nat.ltb _ _); [|apply picks_ret].
    apply picks_from; [|apply leaves_by_kind|apply finds_by_kind].
    intros fs st e Hst He. unfold pick_preference. destruct (Nat.leb _ _); [done|by apply pick_well].
Qed.

(** C14: Whatever fails, what is added to a prompt changes no fact of the store and
    takes at most seven hundred tokens; its lines are rendered from entries of
    the store, each memory once, that the policy lets be read in the context. *)
Theorem injected_lines_may_be_read query ctx c text c' :
  build_memory_context_with_read_context half_life_days now query ctx c = (text, c') ->
  facts (tables c') = facts (tables c) /\
  estimate_hydration_tokens text <= MEMORY_HYDRATION_BUDGET_TOKENS /\
  exists es, text = apply_hydration_budget (entry_text <$> es) /\ injectable ctx (facts (tables c)) es.
Proof.
  unfold build_memory_context_with_read_context, bind. destruct (pick_entries _ _ _ _ c) as [st c1] eqn:E.
  intros [= <- <-]. destruct (pick_entries_picks query ctx _ _ _ _ E eq_refl) as [Hf [Hes _]]; [apply nothing_well|].
  split; [done|]. split; [apply hydration_fits|]. by exists (picked st).
Qed.

End injected.

(** ** Runs *)

Section runs.
#[local] Existing Instances ascii_tables one_bucket first_day no_index steep_decay.

Definition household : list (N * operation) :=
  [(1000%N, Store_ "identity" "User's name is Dana"); (2000%N, Store_ "person_note" "Dana sees a doctor on Friday");
   (3000%N, Store_ "preference" "User likes tea"); (4000%N, Store_ "fact" "The tea is in the left cupboard")].
Local Notation home := (history half_life household (fresh [])).

Definition context_for (query : string) (ctx : MemoryReadContext) : string :=
  (build_memory_context_with_read_context half_life 5000 query ctx home).1.
Definition known_speaker : MemoryReadContext :=
  {| identity_confidence := IdentityConfidence.High; explicit_named_person := false;
     explicit_private_intent := false; shared_space_voice := true |}.

Example contexts :
  context_for "where is the tea" shared_room_voice =
    join newline ["- [identity] User's name is Dana"; "- [fact] The tea is in the left cupboard";
                  "- [preference] User likes tea"] /\
  context_for "when is my doctor" shared_room_voice =
    join newline ["- [identity] User's name is Dana"; "- [preference] User likes tea"] /\
  context_for "when is my doctor" known_speaker =
    join newline ["- [identity] User's name is Dana"; "- [person_note] Dana sees a doctor on Friday";
                  "- [preference] User likes tea"].
Proof. by vm_compute. Qed.

Definition tea_text : string :=
  join newline ["- [identity] User's name is Dana"; "- [fact] The tea is in the left cupboard"; "- [preference] User likes tea"].

Lemma injected_lines_may_be_read_witness :
  estimate_hydration_tokens tea_text <= MEMORY_HYDRATION_BUDGET_TOKENS /\
  exists es, tea_text = apply_hydration_budget (entry_text <$> es) /\
    injectable shared_room_voice (facts (tables home)) es.
Proof.
  pose proof (surjective_pairing (build_memory_context_with_read_context half_life 5000 "where is the tea" shared_room_voice home)) as E.
  assert ((build_memory_context_with_read_context half_life 5000 "where is the tea" shared_room_voice home).1 = tea_text) as Ht
    by (vm_compute; reflexivity).
  rewrite Ht in E. exact (proj2 (injected_lines_may_be_read _ _ _ _ _ _ _ E)).
Defined.

Lemma long_line_is_cut_at_the_budget_witness :
  exists n, truncate_entry_to_budget "warm tea" 2 = (if Nat.eqb n 0 then "" else concat_str (take n (chars "warm tea")) +:+ ellipsis) /\
    (0 < n -> n < 8 /\ fits_line 2 (concat_str (take n (chars "warm tea")) +:+ ellipsis) = true) /\
    forall m, n < m < 8 -> fits_line 2 (concat_str (take m (chars "warm tea")) +:+ ellipsis) = false.
Proof. apply (long_line_is_cut_at_the_budget "warm tea" 2). by vm_compute. Defined.

End runs.
