(* ===== verification/MemoryTools.v ===== *)
(** * The memory tools ([tools/dispatch/memory.rs])

    Recall, status, forget and store: the arguments are checked first, what
    belongs to a person is reached only in a context that may read it, and the
    store is written through [store_resolved] and [delete_by_id]. *)

From S2P Require Import Prelude RustStr RustNum Json Recall Sql MemoryPolicy RateLimit MemoryText MemoryTypes MemoryExtract Embedding MemoryTables MemoryCanon MemoryStore MemoryDream MemorySync MemoryFacts MemoryCapture MemoryQuestions MemoryAnswers MemorySpeech.
Local Open Scope string_scope.
Local Open Scope list_scope.
Local Open Scope rust_scope.

(** ** Arguments *)

Definition QUERY_ERROR : string := "memory tool requires non-empty string argument (query/topic/what)".

(** The first key that is present decides, whatever its value. *)
Definition parse_memory_query_arg (args : value) : result string string :=
  ok_or (opt_filter nonempty
    (trim <$> ((get args "query" <|> get args "topic" <|> get args "what") ≫= as_str))) QUERY_ERROR.
Definition parse_memory_forget_query : value -> result string string := parse_memory_query_arg.

Definition first_string_of (args : value) (keys : list string) : option string :=
  find_map (fun key => get_str args key) keys.

Section arguments.
Context `{U : Unicode}.

Definition normalize_memory_recall_query (raw : string) : string :=
  let lower := to_lowercase raw in
  if contains lower "my name" || String.eqb lower "name" || contains lower "who am i" then "name"
  else if contains lower "about me" || String.eqb lower "me" || String.eqb lower "user" then "user"
  else raw.

Definition parse_memory_recall_query (args : value) : result string string :=
  let? raw := parse_memory_query_arg args in Ok (normalize_memory_recall_query raw).

Definition any_other_string (args : value) : option string :=
  fields ← as_object args;
  find_map (fun f => as_str f.2) (List.filter (fun f : string * value => negb (String.eqb f.1 "category")) fields).

Definition normalize_memories_to_store (args : value) : list (string * string) :=
  let category_hint := default "fact" (get_str args "category") in
  let clean (o : option string) := opt_filter nonempty (trim <$> o) in
  match clean (first_string_of args ["content"; "fact"; "text"; "memory"; "note"]) <|> clean (any_other_string args) with
  | Some content =>
      match extract_facts content with
      | [] => [(category_hint, content)]
      | extracted => (fun f => (fact_category f, fact_content f)) <$> extracted
      end
  | None =>
      match clean (get_str args "name") with
      | Some name => [("identity", "User's name is " +:+ name)]
      | None => []
      end
  end.

Definition parse_memory_store_content (args : value) : result (list (string * string)) string :=
  match normalize_memories_to_store args with
  | [] => Err "memory_store requires non-empty string argument 'content'"
  | memories => Ok memories
  end.

Definition lowercase_first (text : string) : string :=
  match chars text with [] => "" | c :: cs => to_lowercase c +:+ concat_str cs end.

End arguments.

(** ** Household roles *)

Definition ROLE_TOKENS : list (list string * string) :=
  [(["dad"; "father"], "dad"); (["mom"; "mother"; "mum"], "mom"); (["son"; "sons"], "son");
   (["daughter"; "daughters"], "daughter"); (["child"; "children"; "kid"; "kids"], "child"); (["wife"], "wife");
   (["husband"], "husband"); (["partner"], "partner"); (["dog"; "dogs"], "dog"); (["cat"; "cats"], "cat");
   (["pet"; "pets"], "pet")].
Definition normalize_household_role_query_token (token : string) : option string :=
  find_map (fun '(tokens, role) => when (is_one_of token tokens) role) ROLE_TOKENS.

(** Characters that are neither ASCII letters or digits nor white space become spaces. *)
Definition role_words (query : string) : list string :=
  split_whitespace (concat_str ((fun c =>
    if negb (char_byte is_ascii_alphanumeric c) && negb (is_whitespace c) then " " else c)
      <$> chars (to_ascii_lowercase (trim query)))).

Definition household_role_query (query : string) : option string :=
  let tokens := role_words query in
  let normalized := join " " tokens in
  role ← find_map normalize_household_role_query_token tokens;
  let is_role_question :=
    starts_any normalized ["who is "; "who are "; "whos "; "who s "] ||
    contains_any normalized [" in this house"; " in our house"; " household"] in
  let is_direct_role_topic :=
    match tokens with
    | [_] => true
    | [t; second] =>
        match normalize_household_role_query_token t with Some _ => is_one_of second ["name"; "names"] | None => false end
    | _ => false
    end in
  when (is_role_question || is_direct_role_topic) role.

Definition pluralize_household_role (role : string) : string :=
  if String.eqb role "child" then "children" else if String.eqb role "wife" then "wives" else role +:+ "s".

Definition format_household_role_answer (role : string) (profiles : list (string * string)) : string :=
  match profiles with
  | [(name, _)] => name +:+ " is the " +:+ role +:+ "."
  | _ => join ", " profiles.*1 +:+ " are the " +:+ pluralize_household_role role +:+ "."
  end.

(** ** Recall *)

(** What SQLite says of the file, and of the rows of its index. *)
Class Pragmas := { quick_check : string; fts_rows_of : list MemoryRow -> nat }.

(** The entry a name is read from. *)
Definition is_name_entry `{U : Unicode} (r : RecallableMemory) : bool :=
  contains (to_lowercase (me_content (rm_entry r))) "name is ".

Section recall.
Context `{U : Unicode}.

Definition nothing_recalled (query : string) : string :=
  if String.eqb query "name" then "I don't remember your name yet."
  else if String.eqb query "user" then "I don't remember anything about you yet."
  else "I don't remember anything about " +:+ query +:+ " yet.".

Definition recalled_content (r : RecallableMemory) : string := me_content (rm_entry r).
Definition recalled_item (r : RecallableMemory) : string :=
  "- [" +:+ me_kind (rm_entry r) +:+ "] " +:+ recalled_content r.
Definition bullets : string := newline +:+ "- ".

Definition recall_text (query : string) (results : list RecallableMemory) : string :=
  match results with
  | [] => nothing_recalled query
  | first :: rest =>
      match (if String.eqb query "name" then List.find is_name_entry results else None) with
      | Some entry => replace (recalled_content entry) "User's name is " "Your name is "
      | None =>
          if String.eqb query "user" || String.eqb query "me" then
            "I remember:" +:+ bullets +:+ join bullets (take 3 (recalled_content <$> results))
          else
            match rest with
            | [] => "I remember: " +:+ recalled_content first
            | _ => "I found these memories:" +:+ newline +:+ join newline (recalled_item <$> results)
            end
      end
  end.

End recall.

(** ** Status ([Memory::health]) *)

Record MemoryHealth := {
  quick_check_ok : bool;
  memory_rows : nat;
  fts_row_count : nat;
  fts_consistent : bool;
  health_migration_degraded : bool;
  canonical_root_exists : bool;
  canonical_namespace_files : nat;
  canonical_daily_files : nat;
  canonical_event_logs : nat;
  person_rows : nat;
  private_rows : nat;
  restricted_rows : nat;
}.

Definition count_where (p : MemoryRow -> bool) (s : Store) : nat := length (List.filter p (memories s)).

(** The notes of the directory itself: [INDEX.md] is one of its files. *)
Definition daily_file_count (k : Canon) : nat :=
  size (daily_notes k) + match index_md k with Some _ => 1 | None => 0 end.

Definition health `{P : Pragmas} (migration_degraded : bool) : run MemoryHealth :=
  let!? check := query (fun _ => quick_check) in
  let!? rows := query (fun s => length (memories s)) in
  let!? fts := query (fun s => fts_rows_of (memories s)) in
  let!? person := query (count_where (fun m => String.eqb (mem_scope m) "person")) in
  let!? private := query (count_where (fun m => String.eqb (mem_scope m) "private")) in
  let!? restricted := query (count_where (fun m => String.eqb (mem_sensitivity m) "restricted")) in
  fun c =>
    let k := canon (tables c) in
    (Ok {| quick_check_ok := eq_ignore_ascii_case check "ok"; memory_rows := rows; fts_row_count := fts;
           fts_consistent := Nat.eqb rows fts; health_migration_degraded := migration_degraded;
           canonical_root_exists := match memory_md k with Some _ => true | None => false end;
           canonical_namespace_files := size (namespace_files k); canonical_daily_files := daily_file_count k;
           canonical_event_logs := length (remove_dups (event_lines k).*1);
           person_rows := person; private_rows := private; restricted_rows := restricted |}, c).

Definition yes_no (b : bool) : string := if b then "yes" else "no".

Definition status_text (h : MemoryHealth) (promoted : nat) : string :=
  let state := if quick_check_ok h && fts_consistent h && negb (health_migration_degraded h) then "ok" else "degraded" in
  "Memory status: " +:+ state +:+ ". Rows: " +:+ show_nat (memory_rows h) +:+ ". FTS rows: " +:+
  show_nat (fts_row_count h) +:+ ". FTS consistent: " +:+ yes_no (fts_consistent h) +:+ ". Migration degraded: " +:+
  yes_no (health_migration_degraded h) +:+ ". Promoted memories: " +:+ show_nat promoted +:+ ". Canonical root: " +:+
  (if canonical_root_exists h then "present" else "missing") +:+ ". Namespace notes: " +:+
  show_nat (canonical_namespace_files h) +:+ ". Daily notes: " +:+ show_nat (canonical_daily_files h) +:+
  ". Event logs: " +:+ show_nat (canonical_event_logs h) +:+ ". Person-scoped memories: " +:+
  show_nat (person_rows h) +:+ ". Private memories: " +:+ show_nat (private_rows h) +:+
  ". Restricted memories: " +:+ show_nat (restricted_rows h) +:+ ".".

(** ** The operations on the store *)

Section tools.
Context `{U : Unicode} `{H : StrHasher} `{G : Gmtime} `{F : Fts} `{EX : Exp} `{NF : NoteFts}.
Variable half_life_days : f64.

Definition role_profiles (query : string) : run (option (string * list (string * string))) :=
  match household_role_query query with
  | Some role =>
      let!? profiles := household_profiles_by_role role in
      ret (Ok (match profiles with [] => None | _ => Some (role, profiles) end))
  | None => ret (Ok None)
  end.

Definition recall_answer (query : string) (read_context : MemoryReadContext) (now : N) : run string :=
  let!? answer := structured_household_answer query in
  match answer with
  | Some answer => ret (Ok answer)
  | None =>
      let!? by_role := role_profiles query in
      match by_role with
      | Some (role, profiles) => ret (Ok (format_household_role_answer role profiles))
      | None =>
          let!? results := recall_with_context half_life_days query 10 read_context now in
          ret (Ok (recall_text query results))
      end
  end.

(** Deletes what the context may read of the matches; the number deleted. *)
Fixpoint forget_each (now : N) (allowed : list RecallableMemory) : run nat :=
  match allowed with
  | [] => ret (Ok 0)
  | r :: allowed =>
      let!? deleted := delete_by_id (me_id (rm_entry r)) now in
      let!? rest := forget_each now allowed in
      ret (Ok ((if deleted then 1 else 0) + rest))
  end.

Definition forget (query : string) (read_context : MemoryReadContext) (now : N) : run string :=
  let!? candidates := search half_life_days query 10 now in
  let!? deleted := forget_each now (filter_recall_results candidates read_context) in
  ret (Ok (match deleted with
           | 0 => "No memories found matching '" +:+ query +:+ "'."
           | _ => "Forgot " +:+ count_noun deleted "memory" "memories" +:+ " about '" +:+ query +:+ "'."
           end)).

(** What the loop of the store has done so far. *)
Record Storing := {
  st_stored : list string;
  st_categories : list string;
  st_rejected : list string;
  st_replaced : nat;
}.
Definition nothing_stored : Storing :=
  {| st_stored := []; st_categories := []; st_rejected := []; st_replaced := 0 |}.

Definition identity_unverified (c : MemoryReadContext) : bool :=
  negb (explicit_named_person c) && negb (IdentityConfidence.geb (identity_confidence c) IdentityConfidence.Medium).

(** A fact of a person the context does not know ends the loop with an error;
    what was stored before it stays. *)
Fixpoint store_each (write_context : MemoryReadContext) (now : N) (st : Storing) (facts : list (string * string))
    : run Storing :=
  match facts with
  | [] => ret (Ok st)
  | (category, content) :: facts =>
      let policy := assess_memory_write category content in
      if negb (decision_allowed policy) then
        store_each write_context now
          {| st_stored := st_stored st; st_categories := st_categories st;
             st_rejected := st_rejected st ++ [decision_reason policy]; st_replaced := st_replaced st |} facts
      else if bool_decide (scope (infer_metadata category content) = MemoryScope.Person) && identity_unverified write_context then
        ret (Err ("memory_store: person-linked category '" +:+ category +:+ "' requires a verified identity context; " +:+
                  "use the voice pipeline or supply an authenticated person context."))
      else
        let!? outcome := store_resolved category content now in
        store_each write_context now
          {| st_stored := st_stored st ++ [content]; st_categories := st_categories st ++ [category];
             st_rejected := st_rejected st; st_replaced := st_replaced st + out_replaced outcome |} facts
  end.

Definition shopping_text (stored : list string) (count : nat) : string :=
  let removed := existsb (fun c => starts_with (to_ascii_lowercase (trim_start c)) "shopping list removed:") stored in
  let added := join ", " ((fun c =>
    trim (trim_start_str (trim_start_str c "shopping list pending:") "shopping list removed:")) <$> stored) in
  let total := count_noun count "item" "items" in
  if removed then "Removed " +:+ added +:+ " from the shopping list. You have " +:+ total +:+ " total."
  else "Added " +:+ added +:+ " to the shopping list. You have " +:+ total +:+ " total.".

Definition stored_text (st : Storing) : string :=
  match st_stored st with
  | [one] =>
      if Nat.ltb 0 (st_replaced st) then "I've updated that memory: " +:+ lowercase_first one +:+ "."
      else "I'll remember that " +:+ lowercase_first one +:+ "."
  | stored =>
      (if Nat.ltb 0 (st_replaced st) then "I've updated these details" else "I'll remember these details") +:+ ":" +:+
      bullets +:+ join bullets stored +:+
      match st_rejected st with reason :: _ => newline +:+ "Skipped one memory: " +:+ reason | [] => "" end
  end.

Definition store_facts (facts : list (string * string)) (write_context : MemoryReadContext) (now : N) : run string :=
  let!? st := store_each write_context now nothing_stored facts in
  match st_stored st with
  | [] => ret (Ok (default "I could not store that memory." (head (st_rejected st))))
  | _ =>
      if existsb (String.eqb "shopping") (st_categories st) then
        let! count := attempt shopping_list_pending_count in
        ret (Ok (shopping_text (st_stored st) (default 0 count)))
      else ret (Ok (stored_text st))
  end.

(** ** The tools *)

Context `{P : Pragmas}.
Variable migration_degraded : bool.
Notation T := (option (Conn Store)).

Definition on_memory {A} (m : run A) : M T (result A string) :=
  fun memory =>
    match memory with
    | None => (Err "memory system not available", None)
    | Some c => let '(r, c') := m c in (r, Some c')
    end.

(** The context comes from the runtime only, never from the arguments. *)
Definition trusted_context (memory_read_context : option MemoryReadContext) : MemoryReadContext :=
  default shared_room_voice memory_read_context.

Definition exec_memory_recall (args : value) (ctx : option MemoryReadContext) (now : N) : M T (result string string) :=
  match parse_memory_recall_query args with
  | Err e => ret (Err e)
  | Ok query => on_memory (recall_answer query (trusted_context ctx) now)
  end.

Definition exec_memory_status : M T (result string string) :=
  on_memory (let!? h := health migration_degraded in
             let!? promoted := promoted_count in
             ret (Ok (status_text h promoted))).

Definition exec_memory_forget (args : value) (ctx : option MemoryReadContext) (now : N) : M T (result string string) :=
  match parse_memory_forget_query args with
  | Err e => ret (Err e)
  | Ok query => on_memory (forget query (trusted_context ctx) now)
  end.

Definition exec_memory_store (args : value) (ctx : option MemoryReadContext) (now : N) : M T (result string string) :=
  match parse_memory_store_content args with
  | Err e => ret (Err e)
  | Ok facts => on_memory (store_facts facts (trusted_context ctx) now)
  end.

(** The routing of the dispatcher to the tools of the memory. *)
Definition exec_memory_tool (name : string) (args : value) (ctx : option MemoryReadContext)
    : option (N -> M T (result string string)) :=
  if String.eqb name "memory_recall" then Some (exec_memory_recall args ctx)
  else if String.eqb name "memory_status" then Some (fun _ => exec_memory_status)
  else if String.eqb name "memory_forget" then Some (exec_memory_forget args ctx)
  else if String.eqb name "memory_store" then Some (exec_memory_store args ctx)
  else None.

End tools.

(** ** What forgetting spares *)

Section properties.
Context `{U : Unicode} `{H : StrHasher} `{G : Gmtime} `{F : Fts} `{EX : Exp} `{NF : NoteFts}.
Variable half_life_days : f64.

Lemma unique_facts s f g : NoDup (mem_id <$> memories s) -> f ∈ facts s -> g ∈ facts s -> fc_id f = fc_id g -> f = g.
Proof.
  intros Hn (m & -> & Hm)%list_elem_of_fmap (m' & -> & Hm')%list_elem_of_fmap Hid. cbn in Hid.
  pose proof (memory_by_id_elem _ _ Hn Hm) as E. rewrite Hid, (memory_by_id_elem _ _ Hn Hm') in E. by injection E as ->.
Qed.

Lemma elem_of_filtered entries ctx r :
  r ∈ filter_recall_results entries ctx -> rm_entry r ∈ entries /\
  decision_allowed (assess_memory_read (me_metadata (rm_entry r)) ctx) = true.
Proof.
  intros (e & He & E)%elem_of_filter_map. cbv zeta in E. destruct (decision_allowed _) eqn:Ea; [|done].
  injection E as <-. by split.
Qed.

Lemma forget_each_spares (Q : list Fact -> Prop) now allowed :
  (forall r fs, r ∈ allowed -> Q fs -> Q (without (me_id (rm_entry r)) fs)) ->
  keeps (fun s => Q (facts s)) (forget_each now allowed).
Proof.
  induction allowed as [|r allowed IH]; intros HQ; cbn; [apply holds_ret|].
  apply keeps_ebind; [apply keeps_delete_facts; intros fs; apply HQ; by left|intros d].
  apply keeps_ebind; [apply IH; intros x fs Hx; apply HQ; by right|intros n; apply holds_ret].
Qed.

(** C12: Whatever was done before and whatever fails, forgetting spares every
    memory that the policy does not let be read in the context of the request. *)
Theorem forgetting_spares_what_may_not_be_read ops faults args ctx now f :
  let c := history half_life_days ops (fresh faults) in
  f ∈ facts (tables c) -> decision_allowed (assess_memory_read (fc_metadata f) (trusted_context ctx)) = false ->
  exists c', (exec_memory_forget half_life_days args ctx now (Some c)).2 = Some c' /\ f ∈ facts (tables c').
Proof.
  intros c Hf Hd. unfold exec_memory_forget. destruct (parse_memory_forget_query args) as [query|e]; [|by exists c].
  unfold on_memory. destruct (forget half_life_days query (trusted_context ctx) now c) as [r c'] eqn:E. exists c'. split; [done|].
  assert (NoDup (mem_id <$> memories (tables c))) as Hn.
  { apply (keeps_history half_life_days ops (fresh faults) (fresh_policed faults)). }
  unfold forget, ebind at 1 in E. destruct (search half_life_days query 10 now c) as [[es|e] c1] eqn:Es.
  - apply finds_search in Es as [Ht Hes]. rewrite <- Ht in Hf. revert E.
    set (step := ebind _ _). assert (keeps (fun s => f ∈ facts s) step) as Hk; [|intros E; specialize (Hk c1 Hf); by rewrite E in Hk].
    apply keeps_ebind; [|intros n; apply holds_ret]. apply (forget_each_spares (fun fs => f ∈ fs)).
    intros r0 fs [Hr Ha]%elem_of_filtered Hfs. apply elem_of_without_id. split; [done|]. intros Hid.
    rewrite Ht in Hf. pose proof (unique_facts _ _ _ Hn Hf (Hes _ Hr) Hid) as ->. cbn in Hd. congruence.
  - injection E as <- <-. pose proof (leaves_search half_life_days query 10 now (fun fs => f ∈ fs) c Hf) as Hk.
    by rewrite Es in Hk.
Qed.

(** ** Who may store what *)

(** The request names the person, or the voice was recognised with medium or
    high confidence. *)
Definition knows_the_speaker (ctx : MemoryReadContext) : Prop :=
  explicit_named_person ctx = true \/
  identity_confidence ctx ∈ [IdentityConfidence.Medium; IdentityConfidence.High].

Lemma verified_is_known ctx : identity_unverified ctx = false -> knows_the_speaker ctx.
Proof.
  unfold identity_unverified, knows_the_speaker.
  destruct (explicit_named_person ctx); [by left|]. destruct (identity_confidence ctx); cbn; intros Hi; try done.
  all: right; set_solver.
Qed.

(** A fact a call may add: asked for by its arguments, allowed by the write
    policy, and of a person only where the context knows the speaker. *)
Definition may_be_stored (ctx : MemoryReadContext) (asked : list (string * string)) (f : Fact) : Prop :=
  exists category content, (category, content) ∈ asked /\
    decision_allowed (assess_memory_write category content) = true /\
    (scope (infer_metadata category content) = MemoryScope.Person -> knows_the_speaker ctx) /\
    f = stored_fact (fc_id f) category (normalize_memory_content content).

Lemma store_each_adds ctx now st asked (old : list Fact) all :
  asked ⊆ all ->
  keeps (fun s => forall f, f ∈ facts s -> f ∈ old \/ may_be_stored ctx all f) (store_each ctx now st asked).
Proof.
  set (Q := fun fs : list Fact => forall f, f ∈ fs -> f ∈ old \/ may_be_stored ctx all f).
  change (asked ⊆ all -> keeps (fun s => Q (facts s)) (store_each ctx now st asked)).
  revert st. induction asked as [|[category content] asked IH]; intros st Hall; cbn [store_each]; [apply holds_ret|].
  apply list_subseteq_cons_iff in Hall as [Hin Hall].
  destruct (decision_allowed _) eqn:Ha; cbn [negb]; [|by apply IH].
  destruct (bool_decide _ && _) eqn:Hp; [apply holds_ret|].
  apply keeps_ebind; [|intros o; by apply IH]. apply (keeps_resolved_facts Q).
  - intros id fs HQ g [Hg _]%elem_of_without_id. by apply HQ.
  - intros id fs HQ g [Hg| ->%list_elem_of_singleton]%elem_of_app; [by apply HQ|]. right. exists category, content.
    split_and!; try done. intros Hs. apply andb_false_iff in Hp as [Hp|Hp]; [|by apply verified_is_known]. by apply bool_decide_eq_false in Hp.
Qed.

Lemma store_facts_adds asked ctx now (old : list Fact) :
  keeps (fun s => forall f, f ∈ facts s -> f ∈ old \/ may_be_stored ctx asked f) (store_facts asked ctx now).
Proof.
  apply keeps_ebind; [by apply store_each_adds|intros st]. destruct (st_stored st); [apply holds_ret|].
  apply keeps_if; [|apply holds_ret]. apply keeps_attempt; [apply keeps_query|intros n; apply holds_ret].
Qed.

(** C13: Whatever fails, each fact the store holds after a call of the tool was
    there before it, or the call asked for it, the write policy allows it, and
    if it is a person's, the context of the call knows who speaks. *)
Theorem storing_needs_policy_and_identity args ctx now c f :
  let memory := (exec_memory_store args ctx now (Some c)).2 in
  f ∈ default [] ((fun c' => facts (tables c')) <$> memory) ->
  f ∈ facts (tables c) \/ may_be_stored (trusted_context ctx) (normalize_memories_to_store args) f.
Proof.
  cbv zeta. unfold exec_memory_store, parse_memory_store_content.
  destruct (normalize_memories_to_store args) as [|x xs] eqn:En; [by left|]. rewrite <- En. unfold on_memory.
  pose proof (store_facts_adds (normalize_memories_to_store args) (trusted_context ctx) now (facts (tables c)) c ltac:(by left)) as Hk.
  destruct (store_facts _ _ now c) as [r c']. apply Hk.
Qed.

(** ** What is recalled *)

(** Read from a sentence that may be spoken in a shared room. *)
Definition speakable (p : Projection) : Prop :=
  exists kind content, p ∈ projected (table_of p) kind content (infer_metadata kind content) /\
    decision_allowed (assess_memory_read (infer_metadata kind content) shared_room_voice) = true.

Lemma row_speakable ops faults p :
  p ∈ data (tables (history half_life_days ops (fresh faults))) -> table_of p <> MemoryTables.app_only_secret_references -> speakable p.
Proof.
  intros (r & -> & Hr)%list_elem_of_fmap Ht.
  destruct (keeps_history half_life_days ops (fresh faults) (fresh_policed faults)) as [_ Hrows].
  rewrite Forall_forall in Hrows. destruct (Hrows r Hr) as (kind & content & Hp). exists kind, content. split; [done|].
  by apply (projected_gate _ _ _ _ _ Hp).
Qed.

(** The ways a text may come about. *)
Inductive recalled (s : Store) (ctx : MemoryReadContext) (query : string) : string -> Prop :=
| Refused n secret :
    SecretRow n secret ∈ data s ->
    recalled s ctx query ("I have an app-only reference for " +:+ secret_label secret +:+ SECRET_REFUSAL)
| Told text ps : ps <> [] -> told text ps -> Forall speakable ps -> recalled s ctx query text
| RoleNamed role profiles :
    profiles <> [] -> Forall (fun p => speakable (ProfileRow p.1 p.2)) profiles ->
    recalled s ctx query (format_household_role_answer role profiles)
| Remembered results :
    Forall (fun r => decision_allowed (assess_memory_read (me_metadata (rm_entry r)) ctx) = true /\
                     entry_fact (rm_entry r) ∈ facts s) results ->
    recalled s ctx query (recall_text query results).

Lemma finds_recalled query ctx now :
  finds (fun fs rs => Forall (fun r => decision_allowed (assess_memory_read (me_metadata (rm_entry r)) ctx) = true /\
                                       entry_fact (rm_entry r) ∈ fs) rs)
    (recall_with_context half_life_days query 10 ctx now).
Proof.
  eapply finds_ebind; [apply finds_search|]. intros lexical.
  eapply (finds_ebind (fun fs hits => shown fs (hit_entry <$> hits))).
  - apply finds_semantic.
  - intros hits. apply finds_ret. intros fs Hh Hl. apply Forall_forall. intros r [Hr Ha]%elem_of_filtered.
    split; [done|]. destruct (fused_ids lexical hits 10) as [_ Hseen]. rewrite Forall_forall in Hseen.
    apply Hseen, first_seen_some in Hr as [Hr _]. apply elem_of_app in Hr as [Hr|Hr]; [by apply Hl|by apply Hh].
Qed.

Lemma finds_roles query :
  reads (fun s o => forall role profiles, o = Some (role, profiles) ->
           profiles <> [] /\ Forall (fun p => ProfileRow p.1 p.2 ∈ data s) profiles) (role_profiles query).
Proof.
  unfold role_profiles. destruct (household_role_query query) as [role|]; [|by apply reads_ret].
  apply (reads_ebind (fun s profiles => Forall (fun p => ProfileRow p.1 p.2 ∈ data s) profiles)).
  - unfold household_profiles_by_role. destruct (normalize_household_role role) as [r|]; [|by apply reads_ret].
    apply reads_query. intros s. apply Forall_forall. intros x Hx. apply newest_from in Hx as (p & Hp & E).
    destruct p; try done. apply when_Some in E as [_ <-]. done.
  - intros profiles. apply reads_ret. intros s Hp role' ps E. by destruct profiles; inversion E; subst.
Qed.

(** C11: Whatever was done before and whatever failed, recalling changes no fact of
    the store, and what it says is a refusal that names a secret's label only,
    is told from rows read from sentences that may be spoken in a shared room,
    or is made of memories that the policy lets be read in the context of the
    request, which no argument of the call can widen. *)
Theorem recalled_text_may_be_said ops faults args ctx now text memory :
  let c := history half_life_days ops (fresh faults) in
  exec_memory_recall half_life_days args ctx now (Some c) = (Ok text, memory) ->
  (facts ∘ tables) <$> memory = Some (facts (tables c)) /\
  exists query, parse_memory_recall_query args = Ok query /\ recalled (tables c) (trusted_context ctx) query text.
Proof.
  intros c. unfold exec_memory_recall. destruct (parse_memory_recall_query args) as [query|]; [|done]. unfold on_memory.
  destruct (recall_answer half_life_days query (trusted_context ctx) now c) as [r c'] eqn:E. intros [= -> <-].
  revert E. unfold recall_answer, ebind at 1. destruct (structured_household_answer query c) as [[a|] c1] eqn:Ea; [|done].
  apply reads_answer in Ea as [Ht1 Ha]. destruct a as [answer|].
  { intros [= <- <-]. cbn. rewrite Ht1. split; [done|]. exists query. split; [done|].
    destruct (Ha answer eq_refl) as [(n & secret & Hin & ->)|(ps & Hne & Hps & Htold)]; [by eapply Refused|].
    eapply Told; [exact Hne|exact Htold|]. apply Forall_forall. intros p Hp. eapply row_speakable; [by apply Hps|].
    by eapply told_no_secret. }
  unfold ebind at 1. destruct (role_profiles query c1) as [[o|] c2] eqn:Eo; [|done].
  apply finds_roles in Eo as [Ht2 Ho]. destruct o as [[role profiles]|].
  { intros [= <- <-]. cbn. rewrite Ht2, Ht1. split; [done|]. exists query. split; [done|].
    destruct (Ho _ _ eq_refl) as [Hne Hps]. rewrite Ht1 in Hps. apply RoleNamed; [done|].
    eapply Forall_impl; [exact Hps|]. intros p Hp. eapply row_speakable; [exact Hp|discriminate]. }
  unfold ebind. destruct (recall_with_context _ _ _ _ _ c2) as [[rs|] c3] eqn:Er; [|done].
  apply finds_recalled in Er as [Ht3 Hrs]. intros [= <- <-]. cbn. rewrite Ht3, Ht2, Ht1. split; [done|].
  exists query. split; [done|]. rewrite Ht2, Ht1 in Hrs. by apply Remembered.
Qed.

End properties.

(** ** Runs *)

Section runs.
#[local] Existing Instances ascii_tables one_bucket first_day no_index steep_decay no_notes.
#[local] Instance sound_file : Pragmas := {| quick_check := "ok"; fts_rows_of := length |}.

Definition said (key text : string) : value := Object [(key, Str text)].
Definition family : list (N * operation) :=
  [(1000%N, Store_ "identity" "User's name is Dana"); (2000%N, Store_ "person_note" "Dana sees a doctor on Friday");
   (3000%N, Store_ "fact" "The tea is in the left cupboard"); (4000%N, Store_ "fact" "Mia is our daughter")].
Local Notation home := (history half_life family (fresh [])).
Local Notation known := (Some {| identity_confidence := IdentityConfidence.High; explicit_named_person := false;
                                 explicit_private_intent := false; shared_space_voice := true |}).

Definition recalled_by (args : value) (ctx : option MemoryReadContext) : result string string :=
  (exec_memory_recall half_life args ctx 9000 (Some home)).1.

Example recalls :
  recalled_by (said "query" "my name") None = Ok "Your name is Dana" /\
  recalled_by (said "topic" "doctor friday") None =
    Ok (join newline ["I found these memories:"; "- [fact] Mia is our daughter"; "- [fact] The tea is in the left cupboard"]) /\
  recalled_by (said "what" "doctor friday") known =
    Ok (join newline ["I found these memories:"; "- [person_note] Dana sees a doctor on Friday";
                      "- [fact] Mia is our daughter"; "- [fact] The tea is in the left cupboard"]) /\
  recalled_by (said "query" "who is the daughter in this house") None = Ok "Mia is the daughter." /\
  recalled_by (Object [("query", Null); ("topic", Str "tea")]) None = Err QUERY_ERROR.
Proof. by vm_compute. Qed.

(** The index of the notes is counted as a daily note. *)
Definition promoted_only : Canon := {|
  event_lines := []; daily_notes := ∅; memory_md := Some "# GenieClaw Durable Memory"; index_md := Some "# GenieClaw Memory Index";
  namespace_files := ∅ |}.
Lemma index_counts_as_daily_note : daily_file_count promoted_only = 1.
Proof. by vm_compute. Qed.

(** A call refused half way has stored its first fact. *)
Lemma refused_call_has_stored :
  let r := store_facts [("fact", "The tea is in the left cupboard"); ("person_note", "Dana sees a doctor on Friday")]
             shared_room_voice 9000 (fresh []) in
  is_ok r.1 = false /\ mem_content <$> memories (tables r.2) = ["The tea is in the left cupboard"].
Proof. by vm_compute. Qed.

(** The write policy reads the text before its white space is closed up. *)
Lemma spaced_secret_is_remembered :
  let r := exec_memory_store (said "content" "the alarm  code is 1234") None 9000 (Some (fresh [])) in
  r.1 = Ok "I'll remember that the alarm  code is 1234." /\
  decision_allowed (assess_memory_write "fact" "the alarm code is 1234") = false /\
  (fun c => mem_content <$> memories (tables c)) <$> r.2 = Some ["the alarm code is 1234"].
Proof. by vm_compute. Qed.

Definition doctor_fact : Fact := {|
  fc_id := 2; fc_kind := "person_note"; fc_content := "Dana sees a doctor on Friday";
  fc_metadata := infer_metadata "person_note" "Dana sees a doctor on Friday" |}.

Lemma forgetting_spares_what_may_not_be_read_witness :
  exists c', (exec_memory_forget half_life (said "query" "doctor") None 9000 (Some home)).2 = Some c' /\
    doctor_fact ∈ facts (tables c').
Proof.
  apply (forgetting_spares_what_may_not_be_read half_life family [] (said "query" "doctor") None 9000 doctor_fact).
  - assert (facts (tables home) !! 1 = Some doctor_fact) as E by (vm_compute; reflexivity).
    exact (list_elem_of_lookup_2 _ _ _ E).
  - vm_compute. reflexivity.
Defined.

Definition tea_fact : Fact := {|
  fc_id := 1; fc_kind := "fact"; fc_content := "The tea is gone"; fc_metadata := infer_metadata "fact" "The tea is gone" |}.

Lemma storing_needs_policy_and_identity_witness :
  tea_fact ∈ facts empty_store \/
  may_be_stored shared_room_voice (normalize_memories_to_store (said "note" "The tea is gone")) tea_fact.
Proof.
  apply (storing_needs_policy_and_identity (said "note" "The tea is gone") None 9000 (fresh [])).
  assert (default [] ((fun c' => facts (tables c')) <$>
    (exec_memory_store (said "note" "The tea is gone") None 9000 (Some (fresh []))).2) !! 0 = Some tea_fact) as E
    by (vm_compute; reflexivity).
  exact (list_elem_of_lookup_2 _ _ _ E).
Defined.

Lemma recalled_text_may_be_said_witness :
  recalled (tables home) shared_room_voice "who is the daughter in this house" "Mia is the daughter.".
Proof.
  pose proof (surjective_pairing
    (exec_memory_recall half_life (said "query" "who is the daughter in this house") None 9000 (Some home))) as E.
  assert ((exec_memory_recall half_life (said "query" "who is the daughter in this house") None 9000 (Some home)).1 =
    Ok "Mia is the daughter.") as Ht by (vm_compute; reflexivity).
  rewrite Ht in E.
  destruct (recalled_text_may_be_said half_life family [] _ None 9000 _ _ E) as [_ (query & Hq & Hr)].
  assert (query = "who is the daughter in this house") as -> by (vm_compute in Hq; congruence).
  exact Hr.
Defined.

End runs.
