(* ===== verification/DispatchHome.v ===== *)
(** * The home tools of the dispatcher ([tools/dispatch/home.rs])

    [home_control], [home_status], [home_undo], [action_history] and the
    confirmation of a pending action, over the state of the dispatcher: the
    outside world, the confirmations, the ledger, the rate limiters, the timers
    and the lines handed to the two audit logs.  A handler runs as one
    sequence; each store behind a mutex is touched by whole operations of its
    own file. *)

From S2P Require Import Prelude RustStr RustNum Json HomeTypes HomeAction HomePolicy HomeControl Confirmations Ledger RateLimit ToolGate Timer MemoryPolicy.
Local Open Scope string_scope.
Local Open Scope list_scope.
Local Open Scope rust_scope.

(** ** State *)

Inductive ToolActionClass : Set :=
| ReadOnly | Diagnostic | MemoryRead | MemoryWrite | HomeActuation | Media | Network | TimerClass | Skill.

Record ToolExecutionContext := {
  memory_read_context : option MemoryReadContext;
  request_origin : RequestOrigin.t;
  ctx_confirmed : bool;
}.

Definition default_context : ToolExecutionContext :=
  {| memory_read_context := None; request_origin := RequestOrigin.Unknown; ctx_confirmed := false |}.

Record ToolCall := { call_name : string; call_arguments : value }.

Record ToolResult := {
  result_tool : string;
  result_class : ToolActionClass;
  tool_success : bool;
  tool_output : string;
}.

Record ToolAuditEvent := {
  te_ts_ms : N;
  te_tool : string;
  te_action_class : ToolActionClass;
  te_origin : RequestOrigin.t;
  te_success : bool;
  te_decision : string;
  te_duration_ms : N;
  te_argument_keys : list string;
  te_output_chars : nat;
}.

(** What is fixed when the dispatcher is built. *)
Record DispatcherConfig := {
  has_home_automation : bool;
  has_memory : bool;
  has_web_search : bool;
  loaded_skills : option (list string);
  cfg_tool_policy : ToolPolicyConfig;
  cfg_actuation_safety : ActuationSafetyConfig;
}.

Record Dispatcher (W : Type) := {
  env : Env W;
  confirmations : ConfirmationState;
  action_ledger : ActionLedgerState;
  actuation_attempts : gmap RequestOrigin.t (list N);
  tool_attempts : gmap string (list N);
  tool_confirmations : gmap string N;
  timers : list Timer;
  audit_log : list AuditEvent;
  tool_audit_log : list ToolAuditEvent;
}.
Arguments env {W} _.
Arguments confirmations {W} _.
Arguments action_ledger {W} _.
Arguments actuation_attempts {W} _.
Arguments tool_attempts {W} _.
Arguments tool_confirmations {W} _.
Arguments timers {W} _.
Arguments audit_log {W} _.
Arguments tool_audit_log {W} _.

Definition fresh_dispatcher {W} (w : W) : Dispatcher W := {|
  env := {| outside := w; executed := [] |};
  confirmations := empty_confirmations; action_ledger := empty_ledger;
  actuation_attempts := ∅; tool_attempts := ∅; tool_confirmations := ∅;
  timers := []; audit_log := []; tool_audit_log := [] |}.

Section state.
Context {W : Type}.
Notation D := (Dispatcher W).

Definition set_env (e : Env W) (s : D) : D :=
  {| env := e; confirmations := confirmations s; action_ledger := action_ledger s;
     actuation_attempts := actuation_attempts s; tool_attempts := tool_attempts s;
     tool_confirmations := tool_confirmations s; timers := timers s; audit_log := audit_log s;
     tool_audit_log := tool_audit_log s |}.
Definition set_world (w : W) (s : D) : D := set_env {| outside := w; executed := executed (env s) |} s.
Definition set_confirmations (c : ConfirmationState) (s : D) : D :=
  {| env := env s; confirmations := c; action_ledger := action_ledger s;
     actuation_attempts := actuation_attempts s; tool_attempts := tool_attempts s;
     tool_confirmations := tool_confirmations s; timers := timers s; audit_log := audit_log s;
     tool_audit_log := tool_audit_log s |}.
Definition set_ledger (l : ActionLedgerState) (s : D) : D :=
  {| env := env s; confirmations := confirmations s; action_ledger := l;
     actuation_attempts := actuation_attempts s; tool_attempts := tool_attempts s;
     tool_confirmations := tool_confirmations s; timers := timers s; audit_log := audit_log s;
     tool_audit_log := tool_audit_log s |}.
Definition set_actuation_attempts (m : gmap RequestOrigin.t (list N)) (s : D) : D :=
  {| env := env s; confirmations := confirmations s; action_ledger := action_ledger s;
     actuation_attempts := m; tool_attempts := tool_attempts s;
     tool_confirmations := tool_confirmations s; timers := timers s; audit_log := audit_log s;
     tool_audit_log := tool_audit_log s |}.
Definition set_tool_attempts (m : gmap string (list N)) (s : D) : D :=
  {| env := env s; confirmations := confirmations s; action_ledger := action_ledger s;
     actuation_attempts := actuation_attempts s; tool_attempts := m;
     tool_confirmations := tool_confirmations s; timers := timers s; audit_log := audit_log s;
     tool_audit_log := tool_audit_log s |}.
Definition set_tool_confirmations (m : gmap string N) (s : D) : D :=
  {| env := env s; confirmations := confirmations s; action_ledger := action_ledger s;
     actuation_attempts := actuation_attempts s; tool_attempts := tool_attempts s;
     tool_confirmations := m; timers := timers s; audit_log := audit_log s;
     tool_audit_log := tool_audit_log s |}.
Definition set_timers (l : list Timer) (s : D) : D :=
  {| env := env s; confirmations := confirmations s; action_ledger := action_ledger s;
     actuation_attempts := actuation_attempts s; tool_attempts := tool_attempts s;
     tool_confirmations := tool_confirmations s; timers := l; audit_log := audit_log s;
     tool_audit_log := tool_audit_log s |}.
Definition push_audit (e : AuditEvent) (s : D) : D :=
  {| env := env s; confirmations := confirmations s; action_ledger := action_ledger s;
     actuation_attempts := actuation_attempts s; tool_attempts := tool_attempts s;
     tool_confirmations := tool_confirmations s; timers := timers s; audit_log := audit_log s ++ [e];
     tool_audit_log := tool_audit_log s |}.
Definition push_tool_audit (e : ToolAuditEvent) (s : D) : D :=
  {| env := env s; confirmations := confirmations s; action_ledger := action_ledger s;
     actuation_attempts := actuation_attempts s; tool_attempts := tool_attempts s;
     tool_confirmations := tool_confirmations s; timers := timers s; audit_log := audit_log s;
     tool_audit_log := tool_audit_log s ++ [e] |}.

(** Operations of the components, on the whole state. *)
Definition on_world {A} (op : W -> A * W) : M D A :=
  fun s => let '(a, w) := op (outside (env s)) in (a, set_world w s).
Definition on_env {A} (m : M (Env W) A) : M D A :=
  fun s => let '(a, e) := m (env s) in (a, set_env e s).
Definition on_confirmations {A} (m : M (W * ConfirmationState) A) : M D A :=
  fun s => let '(a, (w, c)) := m (outside (env s), confirmations s) in
           (a, set_confirmations c (set_world w s)).
Definition on_actuation_limiter {A} (m : M (W * gmap RequestOrigin.t (list N)) A) : M D A :=
  fun s => let '(a, (w, x)) := m (outside (env s), actuation_attempts s) in
           (a, set_actuation_attempts x (set_world w s)).
Definition on_tool_limiter {A} (m : M (W * gmap string (list N)) A) : M D A :=
  fun s => let '(a, (w, x)) := m (outside (env s), tool_attempts s) in
           (a, set_tool_attempts x (set_world w s)).
Definition on_tool_gate {A} (m : M (W * gmap string N) A) : M D A :=
  fun s => let '(a, (w, x)) := m (outside (env s), tool_confirmations s) in
           (a, set_tool_confirmations x (set_world w s)).
Definition on_timers {A} (m : M (W * list Timer) A) : M D A :=
  fun s => let '(a, (w, x)) := m (outside (env s), timers s) in
           (a, set_timers x (set_world w s)).

End state.

(** ** Arguments *)

Section args.
Context `{U : Unicode}.

Definition parse_home_control_args (args : value) : result (string * string * option f64) string :=
  let? entity := ok_or (trimmed_nonempty (get_str args "entity"))
                   "home_control requires non-empty string argument 'entity'" in
  let? raw_action := ok_or (get_str args "action") "home_control requires string argument 'action'" in
  let? action := ok_or (canon_home_control_action raw_action)
                   ("home_control action '" +:+ raw_action +:+ "' is invalid; expected one of: " +:+
                    join ", " HOME_CONTROL_ACTIONS) in
  let? v :=
    match get args "value" with
    | None | Some Null => Ok None
    | Some provided =>
        let? x := ok_or (as_f64 provided) "home_control 'value' must be a number when provided" in
        Ok (Some x)
    end in
  if match v with None => true | Some _ => false end && action_requires_value action
  then Err ("home_control '" +:+ action +:+ "' requires a numeric argument 'value'")
  else Ok (entity, action, v).

End args.

Definition parse_home_status_args (args : value) : result string string :=
  ok_or (trimmed_nonempty (get_str args "entity"))
    "home_status requires non-empty string argument 'entity'".

Definition TOO_MANY_PENDING_CONFIRMATIONS : string :=
  "Too many pending home confirmations; confirm or wait for existing ones to expire before requesting another.".

Definition format_undo_output (output : string) : string :=
  if starts_with output "Confirmation required" || String.eqb output TOO_MANY_PENDING_CONFIRMATIONS
  then output else "Undid the last home action. " +:+ output.

(** ** Handlers *)

Section handlers.
Context {W : Type} `{Ops : World W} `{HO : HashOrder} `{U : Unicode}.
Context (cfg : DispatcherConfig).
Notation D := (Dispatcher W).

(** [audit_logger.append_or_log(AuditEvent { ts_ms: now_ms(), .. })]. *)
Definition audit (status : AuditStatus.t) (origin : RequestOrigin.t) (entity action : string)
    (v : option f64) (reason : string) (token : option string) (confidence : option f32)
    (action_id undo_of : option N) (undo_restore : option UndoRestore) : M D unit :=
  fun s =>
    let '(now, s) := on_world now_ms s in
    (tt, push_audit {|
           ae_ts_ms := now; ae_status := status; ae_origin := origin; ae_entity := entity;
           ae_action := action; ae_value := v; ae_reason := reason; ae_token := token;
           ae_confidence := confidence; ae_action_id := action_id; ae_undo_of := undo_of;
           ae_undo_restore := undo_restore |} s).

Definition resolve_device_alias (query : string) : M D string :=
  if has_memory cfg then
    let! alias := on_world (device_alias query) in
    ret (match alias with Some target => target | None => query end)
  else ret query.

Definition record_action (entity action : string) (v : option f64) (origin : RequestOrigin.t)
    (summary : string) (confidence : option f32) (undo_of : option N)
    (undo_restore : option UndoRestore) : M D RecordedAction :=
  fun s =>
    let '(now, s) := on_world now_ms s in
    let '(item, l) := match undo_of with
                      | Some original_id =>
                          record_undo now original_id entity action v origin summary confidence None
                            (action_ledger s)
                      | None =>
                          record now entity action v origin summary confidence undo_restore
                            (action_ledger s)
                      end in
    (item, set_ledger l s).

(** The state before an action whose inverse depends on it. *)
Definition capture_restore (entity action : string) (undo_of : option N) : M D (option UndoRestore) :=
  match undo_of with
  | Some _ => ret None
  | None =>
      if existsb (String.eqb action) ["set_brightness"; "set_temperature"; "toggle"] then
        match home_action_kind action with
        | Err _ => ret None
        | Ok kind =>
            let! t := on_world (ha_resolve_target entity (Some kind)) in
            match t with
            | Err _ => ret None
            | Ok target =>
                let! st := on_world (ha_get_state target) in
                ret (match st with
                     | Ok prior => undo_restore_from_prior action prior
                     | Err _ => None
                     end)
            end
        end
      else ret None
  end.

Definition error_status (error : string) : AuditStatus.t :=
  if contains error "local policy" then AuditStatus.BlockedPolicy
  else if contains error "runtime safety" then AuditStatus.BlockedRuntime
  else AuditStatus.Failed.

Definition confirmation_text (reason : string) : string :=
  "Confirmation required before I can do that: " +:+ reason +:+
  ". Confirm this pending action from the local dashboard (or POST /api/actuation/confirm with its token from /api/actuation/pending).".

(** From the outcome of [home::control] to the ledger, the confirmations, the
    audit line and the answer. *)
Definition finish_control (entity action : string) (v : option f64) (origin : RequestOrigin.t)
    (undo_of : option N) (undo_restore : option UndoRestore)
    (outcome : result ControlOutcome string) : M D (result string string) :=
  match outcome with
  | Ok (Executed output confidence) =>
      let! recorded := record_action entity action v origin output confidence undo_of undo_restore in
      let! _ := audit AuditStatus.Executed origin entity action v "home action executed" None
                  confidence (Some (ra_id recorded)) (ra_undo_of recorded) (ra_undo_restore recorded) in
      ret (Ok output)
  | Ok (ConfirmationRequired reason _) =>
      let! pending := on_confirmations (issue entity action v reason origin) in
      match pending with
      | None => ret (Ok TOO_MANY_PENDING_CONFIRMATIONS)
      | Some p =>
          let! _ := audit AuditStatus.ConfirmationIssued origin entity action v reason
                      (Some (pc_token p)) None None None None in
          ret (Ok (confirmation_text reason))
      end
  | Err error =>
      let! _ := audit (error_status error) origin entity action v error None None None None None in
      ret (Err error)
  end.

Definition exec_home_control_inner (args : value) (ctx : ToolExecutionContext) (undo_of : option N)
    : M D (result string string) :=
  let origin := request_origin ctx in
  if negb (has_home_automation cfg) then ret (Err "Home Assistant not connected")
  else
    match parse_home_control_args args with
    | Err e => ret (Err e)
    | Ok (entity_name, action, v) =>
        let! entity := resolve_device_alias entity_name in
        if negb (actuation_origin_allowed (cfg_actuation_safety cfg) origin) then
          let reason := "actuation from '" +:+ RequestOrigin.as_policy_key origin +:+
                        "' is not allowed by channel policy" in
          let! _ := audit AuditStatus.BlockedPolicy origin entity action v reason None None None None None in
          ret (Err ("Home action blocked by channel policy: " +:+ reason))
        else
          let! limited :=
            (if ctx_confirmed ctx then ret (Ok tt)
             else on_actuation_limiter (actuation_check_and_record (cfg_actuation_safety cfg) origin)) in
          match limited with
          | Err reason =>
              let! _ := audit AuditStatus.BlockedRuntime origin entity action v reason None None None None None in
              ret (Err ("Home action blocked by rate limit: " +:+ reason))
          | Ok _ =>
              let! undo_restore := capture_restore entity action undo_of in
              let! outcome := on_env (control entity action v (cfg_actuation_safety cfg) origin
                                        (ctx_confirmed ctx)) in
              finish_control entity action v origin undo_of undo_restore outcome
          end
    end.

Definition exec_home_control (args : value) (ctx : ToolExecutionContext) : M D (result string string) :=
  exec_home_control_inner args ctx None.

Definition exec_home_undo (ctx : ToolExecutionContext) : M D (result string string) :=
  fun s =>
    match last_undoable (action_ledger s) ≫= (fun a => (fun args => (a, args)) <$> undo_home_control_args a) with
    | None => (Err "No recent reversible home action to undo.", s)
    | Some (a, args) =>
        (let!? output := exec_home_control_inner args ctx (Some (ra_id a)) in
         ret (Ok (format_undo_output output))) s
    end.

Definition exec_home_status (args : value) : M D (result string string) :=
  if negb (has_home_automation cfg) then ret (Err "Home Assistant not connected")
  else
    match parse_home_status_args args with
    | Err e => ret (Err e)
    | Ok entity_name =>
        let! entity := resolve_device_alias entity_name in
        on_env (status entity)
    end.

(** [action_history]: at most five of each, newest actions first. *)
Definition pending_confirmations : M D (list PendingConfirmation) := on_confirmations list_pending.
Definition recent_home_actions (s : D) : list RecordedAction := ledger_list (action_ledger s).

Definition origin_debug (o : RequestOrigin.t) : string :=
  match o with
  | RequestOrigin.Unknown => "Unknown" | RequestOrigin.Voice => "Voice"
  | RequestOrigin.Dashboard => "Dashboard" | RequestOrigin.Api => "Api"
  | RequestOrigin.Telegram => "Telegram" | RequestOrigin.Repl => "Repl"
  | RequestOrigin.Confirmation => "Confirmation"
  end.

Context `{FT : FloatText}.

Definition action_history_undo_hint (a : RecordedAction) : string :=
  match ra_inverse_action a with
  | Some inverse => " undo: " +:+ inverse
  | None =>
      match ra_undo_restore a with
      | Some restore =>
          match restore_value restore with
          | Some v => " undo: " +:+ restore_action restore +:+ " " +:+ f64_display v
          | None => " undo: " +:+ restore_action restore
          end
      | None => " not undoable"
      end
  end.


Definition history_lines (pending : list PendingConfirmation) (actions : list RecordedAction) : list string :=
  (match actions with
   | [] => []
   | _ => "Recent home actions:" ::
          ((fun a => "- " +:+ ra_action a +:+ " " +:+ ra_entity a +:+ " via " +:+
                     origin_debug (ra_origin a) +:+ ";" +:+ action_history_undo_hint a)
             <$> take 5 actions)
   end) ++
  (match pending with
   | [] => []
   | _ => "Pending confirmations:" ::
          ((fun p => "- " +:+ pc_action p +:+ " " +:+ pc_entity p +:+ " requested by " +:+
                     origin_debug (pc_requested_by p) +:+ ": " +:+ pc_reason p)
             <$> take 5 pending)
   end).

Definition exec_action_history : M D string :=
  let! pending := pending_confirmations in
  fun s =>
    let actions := recent_home_actions s in
    match actions, pending with
    | [], [] => ("No recent home actions or pending confirmations.", s)
    | _, _ => (join newline (history_lines pending actions), s)
    end.

End handlers.

(** ** What a stage leaves alone *)

(** Only the outside world and the actuation limiter may differ. *)
Record quiet {W} (s s' : Dispatcher W) : Prop := {
  quiet_executed : executed (env s') = executed (env s);
  quiet_confirmations : confirmations s' = confirmations s;
  quiet_ledger : action_ledger s' = action_ledger s;
  quiet_tool_attempts : tool_attempts s' = tool_attempts s;
  quiet_tool_confirmations : tool_confirmations s' = tool_confirmations s;
  quiet_timers : timers s' = timers s;
  quiet_audit : audit_log s' = audit_log s;
  quiet_tool_audit : tool_audit_log s' = tool_audit_log s;
}.

#[export] Instance quiet_preorder {W} : PreOrder (@quiet W).
Proof.
  split; [done|]. intros s1 s2 s3 [] []. split; congruence.
Qed.

Definition keeps {W A} (m : M (Dispatcher W) A) : Prop := forall s r s', m s = (r, s') -> quiet s s'.

Create HintDb keeps.

Lemma keeps_ret {W A} (a : A) : keeps (W := W) (ret a).
Proof. by intros s r s' [= <- <-]. Qed.

Lemma keeps_bind {W A B} (m : M (Dispatcher W) A) (f : A -> M (Dispatcher W) B) :
  keeps m -> (forall a, keeps (f a)) -> keeps (bind m f).
Proof.
  intros Hm Hf s r s'. unfold bind. destruct (m s) as [a s1] eqn:E. intros H.
  etrans; [by eapply Hm|by eapply Hf].
Qed.

Lemma keeps_on_world {W A} (op : W -> A * W) : keeps (on_world op).
Proof. intros s r s'. unfold on_world. destruct (op _). by intros [= <- <-]. Qed.

Lemma keeps_on_actuation_limiter {W A} (m : M (W * gmap RequestOrigin.t (list N)) A) :
  keeps (on_actuation_limiter m).
Proof. intros s r s'. unfold on_actuation_limiter. destruct (m _) as [a [w x]]. by intros [= <- <-]. Qed.

#[export] Hint Resolve keeps_ret keeps_on_world keeps_on_actuation_limiter : keeps.

Section effects.
Context {W : Type} `{Ops : World W} `{HO : HashOrder} `{U : Unicode}.
Context (cfg : DispatcherConfig).
Notation D := (Dispatcher W).

Lemma keeps_resolve_device_alias q : keeps (resolve_device_alias (W := W) cfg q).
Proof. unfold resolve_device_alias. destruct (has_memory cfg); eauto using keeps_bind with keeps. Qed.

Lemma keeps_capture_restore entity action undo_of : keeps (capture_restore (W := W) entity action undo_of).
Proof.
  unfold capture_restore. destruct undo_of; [auto with keeps|].
  destruct (existsb _ _); [|auto with keeps].
  destruct (home_action_kind action); [|auto with keeps].
  apply keeps_bind; [auto with keeps|]. intros [t|e]; [|auto with keeps].
  apply keeps_bind; auto with keeps.
Qed.

(** An audit call appends one line and leaves the stores alone. *)
Lemma audit_run st og e a v rs tk cf ai uo ur (s : D) :
  exists now s1, quiet s s1 /\ actuation_attempts s1 = actuation_attempts s /\
    audit st og e a v rs tk cf ai uo ur s =
    (tt, push_audit {| ae_ts_ms := now; ae_status := st; ae_origin := og; ae_entity := e;
                       ae_action := a; ae_value := v; ae_reason := rs; ae_token := tk;
                       ae_confidence := cf; ae_action_id := ai; ae_undo_of := uo;
                       ae_undo_restore := ur |} s1).
Proof.
  unfold audit, on_world. destruct (now_ms (outside (env s))) as [now w].
  by exists now, (set_world w s).
Qed.

(** The audit line of a call. *)
Definition line_for (og : RequestOrigin.t) (entity action : string) (v : option f64) (ev : AuditEvent) : Prop :=
  ae_origin ev = og /\ ae_entity ev = entity /\ ae_action ev = action /\ ae_value ev = v.

(** The outcome of the provider call reaches the stores as one line. *)
Lemma finish_control_effect entity action v og undo_of restore outcome (s : D) r s' :
  finish_control entity action v og undo_of restore outcome s = (r, s') ->
  executed (env s') = executed (env s) /\ tool_audit_log s' = tool_audit_log s /\
  tool_attempts s' = tool_attempts s /\ tool_confirmations s' = tool_confirmations s /\
  actuation_attempts s' = actuation_attempts s /\ timers s' = timers s /\
  match outcome with
  | Ok (Executed output cf) =>
      r = Ok output /\ confirmations s' = confirmations s /\
      exists now ev,
        let rd := record_internal now entity action v og output cf undo_of
                     (match undo_of with Some _ => None | None => restore end) (action_ledger s) in
        action_ledger s' = rd.2 /\ audit_log s' = audit_log s ++ [ev] /\
        line_for og entity action v ev /\ ae_status ev = AuditStatus.Executed /\
        (exists b, audit_event_to_recorded_action ev = Some b /\ same_action b rd.1)
  | Ok (ConfirmationRequired reason _) =>
      action_ledger s' = action_ledger s /\
      (r = Ok TOO_MANY_PENDING_CONFIRMATIONS /\ audit_log s' = audit_log s \/
       r = Ok (confirmation_text reason) /\
       exists ev p, audit_log s' = audit_log s ++ [ev] /\ line_for og entity action v ev /\
         ae_status ev = AuditStatus.ConfirmationIssued /\ ae_token ev = Some (pc_token p) /\
         pc_requested_by p = og /\ pending (confirmations s') !! pc_token p = Some p)
  | Err e =>
      r = Err e /\ action_ledger s' = action_ledger s /\ confirmations s' = confirmations s /\
      exists ev, audit_log s' = audit_log s ++ [ev] /\ line_for og entity action v ev /\
        ae_status ev = error_status e
  end.
Proof.
  unfold finish_control. destruct outcome as [[output cf|reason td]|e].
  - unfold bind, record_action, on_world. destruct (now_ms (outside (env s))) as [now w].
    cbn [action_ledger set_world set_env].
    set (ur := match undo_of with Some _ => None | None => restore end).
    assert ((match undo_of with
             | Some original_id => record_undo now original_id entity action v og output cf None (action_ledger s)
             | None => record now entity action v og output cf restore (action_ledger s)
             end) = record_internal now entity action v og output cf undo_of ur (action_ledger s)) as ->
      by by destruct undo_of.
    pose proof (new_item_fields now entity action v og output cf undo_of ur (action_ledger s)) as Hitem.
    unfold new_item in Hitem. destruct (record_internal _ _ _ _ _ _ _ _ _ _) as [item l] eqn:Erd.
    cbn [fst] in Hitem. set (s1 := set_ledger l (set_world w s)).
    destruct (audit_run AuditStatus.Executed og entity action v "home action executed" None cf
                (Some (ra_id item)) (ra_undo_of item) (ra_undo_restore item) s1)
      as (now2 & s2 & [] & Hatt & ->). unfold ret. intros [= <- <-]. cbn in *.
    split_and!; try congruence. eexists now, _. rewrite Erd. cbn [fst snd].
    split_and!; [congruence|apply f_equal2; [congruence|reflexivity]|done|done|].
    eexists. split; [reflexivity|].
    rewrite Hitem. by split.
  - unfold bind, on_confirmations.
    destruct (issue entity action v reason og (outside (env s), confirmations s)) as [[p|] [w c]] eqn:Ei.
    + apply issue_some in Ei as (Hp & Ho). set (s1 := set_confirmations c (set_world w s)).
      destruct (audit_run AuditStatus.ConfirmationIssued og entity action v reason
                  (Some (pc_token p)) None None None None s1) as (now2 & s2 & [] & Hatt & ->).
      unfold ret. intros [= <- <-]. cbn in *. split_and!; try congruence.
      right. split; [done|]. eexists _, p.
      split_and!; [apply f_equal2; [congruence|reflexivity]|done|done|done|done|congruence].
    + unfold ret. intros [= <- <-]. cbn. split_and!; try done. by left.
  - unfold bind.
    destruct (audit_run (error_status e) og entity action v e None None None None None s)
      as (now2 & s2 & [] & Hatt & ->). unfold ret. intros [= <- <-]. cbn in *.
    split_and!; try congruence. eexists. split; [apply f_equal2; [congruence|reflexivity]|done].
Qed.

(** A run that stops before the provider. *)
Definition stopped (s s' : D) (r : result string string) : Prop :=
  executed (env s') = executed (env s) /\ action_ledger s' = action_ledger s /\
  confirmations s' = confirmations s /\ is_ok r = false /\
  tool_audit_log s' = tool_audit_log s /\ tool_attempts s' = tool_attempts s /\
  tool_confirmations s' = tool_confirmations s /\ timers s' = timers s /\
  (audit_log s' = audit_log s \/
   exists ev, audit_log s' = audit_log s ++ [ev] /\
     (ae_status ev = AuditStatus.BlockedPolicy \/ ae_status ev = AuditStatus.BlockedRuntime)).

(** The limiter was asked, and said yes, unless the call is confirmed. *)
Definition charged (og : RequestOrigin.t) (confirmed : bool) (s s1 : D) : Prop :=
  if confirmed then actuation_attempts s1 = actuation_attempts s
  else exists w w', actuation_check_and_record (cfg_actuation_safety cfg) og (w, actuation_attempts s)
                    = (Ok tt, (w', actuation_attempts s1)).

Lemma quiet_set_env (s s1 : D) e :
  quiet s s1 -> executed e = executed (env s1) -> quiet s (set_env e s1).
Proof. intros [] He. split; cbn; congruence. Qed.

Lemma resolve_attempts q (s : D) e s' :
  resolve_device_alias cfg q s = (e, s') -> actuation_attempts s' = actuation_attempts s.
Proof.
  unfold resolve_device_alias, bind, on_world, ret. destruct (has_memory cfg); [|by intros [= <- <-]].
  destruct (device_alias q _) as [o w]. by intros [= <- <-].
Qed.

Lemma capture_attempts entity action undo_of (s : D) x s' :
  capture_restore entity action undo_of s = (x, s') -> actuation_attempts s' = actuation_attempts s.
Proof.
  unfold capture_restore, ret. destruct undo_of; [by intros [= <- <-]|].
  destruct (existsb _ _); [|by intros [= <- <-]].
  destruct (home_action_kind action) as [k|]; [|by intros [= <- <-]].
  unfold bind, on_world. destruct (ha_resolve_target _ _ _) as [[t|] w]; [|by intros [= <- <-]].
  cbn [env set_world set_env outside]. destruct (ha_get_state t w) as [st w']. by intros [= <- <-].
Qed.

Lemma blocked_stopped st og e a v rs err (s s1 : D) r s' :
  quiet s s1 -> st = AuditStatus.BlockedPolicy \/ st = AuditStatus.BlockedRuntime ->
  (let! _ := audit st og e a v rs None None None None None in ret (Err err)) s1 = (r, s') ->
  stopped s s' r /\ actuation_attempts s' = actuation_attempts s1.
Proof.
  intros Hq Hst. unfold bind.
  destruct (audit_run st og e a v rs None None None None None s1) as (now & s2 & Hq2 & Hat & ->).
  unfold ret. intros [= <- <-]. assert (quiet s s2) as [] by by etrans.
  split; [|done]. split_and!; cbn; try done. right. eexists. split; [apply f_equal2; [done|reflexivity]|done].
Qed.

(** The anatomy of a run: stopped early, or [home::control] between two
    stages that touch neither the executed actions nor the stores. *)
Lemma inner_run args ctx undo_of (s : D) r s' :
  exec_home_control_inner cfg args ctx undo_of s = (r, s') ->
  stopped s s' r /\ (ctx_confirmed ctx = true -> actuation_attempts s' = actuation_attempts s) \/
  exists entity_name action v entity s1 outcome e2 restore,
    has_home_automation cfg = true /\ parse_home_control_args args = Ok (entity_name, action, v) /\
    actuation_origin_allowed (cfg_actuation_safety cfg) (request_origin ctx) = true /\
    quiet s s1 /\ charged (request_origin ctx) (ctx_confirmed ctx) s s1 /\
    control entity action v (cfg_actuation_safety cfg) (request_origin ctx) (ctx_confirmed ctx) (env s1)
      = (outcome, e2) /\
    finish_control entity action v (request_origin ctx) undo_of restore outcome (set_env e2 s1) = (r, s').
Proof.
  unfold exec_home_control_inner.
  destruct (has_home_automation cfg); cbn [negb]; [|unfold ret; intros [= <- <-]; left; split; [|done]; by split_and!; try left].
  destruct (parse_home_control_args args) as [[[en action] v]|e];
    [|unfold ret; intros [= <- <-]; left; split; [|done]; by split_and!; try left].
  unfold bind at 1. destruct (resolve_device_alias cfg en s) as [entity s0] eqn:Er.
  pose proof (keeps_resolve_device_alias en _ _ _ Er) as Hq0. apply resolve_attempts in Er.
  destruct (actuation_origin_allowed _ _) eqn:Hoa; cbn [negb].
  2: { intros H. left. apply (blocked_stopped _ _ _ _ _ _ _ s) in H as [H Hat]; [|done|by left].
       split; [done|]. intros _. congruence. }
  unfold bind at 1.
  destruct ((if ctx_confirmed ctx then ret (Ok tt) else on_actuation_limiter
              (actuation_check_and_record (cfg_actuation_safety cfg) (request_origin ctx))) s0)
    as [lim s1] eqn:El.
  assert (quiet s0 s1) as Hq1.
  { destruct (ctx_confirmed ctx); [by eapply keeps_ret|by eapply keeps_on_actuation_limiter]. }
  assert (quiet s s1) as Hq by by etrans.
  destruct lim as [u|reason].
  2: { intros H. left. apply (blocked_stopped _ _ _ _ _ _ _ s) in H as [H Hat]; [|done|by right].
       split; [done|]. intros Hc. rewrite Hc in El. by injection El. }
  assert (charged (request_origin ctx) (ctx_confirmed ctx) s s1) as Hch.
  { unfold charged. destruct (ctx_confirmed ctx); [by injection El as _ <-|].
    unfold on_actuation_limiter in El.
    destruct (actuation_check_and_record _ _ (outside (env s0), actuation_attempts s0)) as [o [w x]] eqn:Ec.
    injection El as -> <-. destruct u. rewrite Er in Ec. eauto. }
  unfold bind at 1. destruct (capture_restore entity action undo_of s1) as [restore s2] eqn:Ecr.
  pose proof (keeps_capture_restore _ _ _ _ _ _ Ecr) as Hq2. apply capture_attempts in Ecr.
  unfold bind at 1, on_env.
  destruct (control entity action v _ _ _ (env s2)) as [outcome e2] eqn:Ec. intros Hf. right.
  exists en, action, v, entity, s2, outcome, e2, restore. split_and!; try done; [by etrans|].
  revert Hch. unfold charged. destruct (ctx_confirmed ctx); rewrite Ecr; done.
Qed.

(** What a run of [home_control] does to the record: nothing reaches the
    provider, or one cleared action does and leaves one audit line, which is an
    [Executed] line with the ledger's new entry if the provider agreed. *)
Definition ran_one (origin : RequestOrigin.t) (confirmed : bool) (undo_of : option N) (s s' : D)
    (r : result string string) (a : HomeAction) : Prop :=
  exists entity action v w w' ev,
    actuation_origin_allowed (cfg_actuation_safety cfg) origin = true /\
    cleared entity action v (cfg_actuation_safety cfg) origin confirmed w a w' /\
    executed (env s') = executed (env s) ++ [a] /\
    audit_log s' = audit_log s ++ [ev] /\ line_for origin entity action v ev /\
    match r with
    | Ok output =>
        ae_status ev = AuditStatus.Executed /\
        exists now confidence restore b,
          let rd := record_internal now entity action v origin output confidence undo_of restore
                      (action_ledger s) in
          action_ledger s' = rd.2 /\ audit_event_to_recorded_action ev = Some b /\ same_action b rd.1
    | Err e => ae_status ev = error_status e /\ action_ledger s' = action_ledger s
    end.

(** What every run keeps. *)
Definition keeps_rest (s s' : D) : Prop :=
  tool_audit_log s' = tool_audit_log s /\ tool_attempts s' = tool_attempts s /\
  tool_confirmations s' = tool_confirmations s /\ timers s' = timers s.

(** A run that hands nothing to the provider writes at most one audit line,
    never an [Executed] one, and leaves the ledger alone. *)
Definition ran_none (s s' : D) : Prop :=
  executed (env s') = executed (env s) /\ action_ledger s' = action_ledger s /\
  (audit_log s' = audit_log s \/
   exists ev, audit_log s' = audit_log s ++ [ev] /\ ae_status ev <> AuditStatus.Executed).

Lemma error_status_not_executed e : error_status e <> AuditStatus.Executed.
Proof. unfold error_status. by repeat case_match. Qed.

Lemma inner_effect args ctx undo_of (s : D) r s' :
  exec_home_control_inner cfg args ctx undo_of s = (r, s') ->
  keeps_rest s s' /\
  (ran_none s s' \/ exists a, ran_one (request_origin ctx) (ctx_confirmed ctx) undo_of s s' r a).
Proof.
  intros H. apply inner_run in H as
    [[(He & Hl & Hc & _ & Ht & Hta & Htc & Htm & Ha) _]|
     (en & action & v & entity & s1 & outcome & e2 & restore & _ & _ & Hoa & [] & _ & Hctl & Hfin)].
  - split; [by split_and!|]. left. split_and!; [done|done|].
    destruct Ha as [Ha|(ev & Ha & Hst)]; [by left|right].
    exists ev. split; [done|]. intros Hx. rewrite Hx in Hst. by destruct Hst.
  - apply finish_control_effect in Hfin as (He & Ht & Hta & Htc & Hat & Htm & Hout).
    cbn in He, Ht, Hta, Htc, Hat, Htm, Hout.
    split; [split_and!; congruence|].
    apply control_run in Hctl as [[Hex Hno]|(a & w & ar & w' & Hcl & _ & Hs' & Hr)].
    + left. destruct outcome as [[output cf|reason td]|e].
      * by destruct (Hno output cf).
      * destruct Hout as (Hl & [[_ Ha]|(_ & ev & p & Ha & _ & Hst & _)]);
          (split_and!; [congruence|congruence|]); [left; congruence|right].
        exists ev. rewrite Hst. split; [congruence|done].
      * destruct Hout as (_ & Hl & _ & ev & Ha & _ & Hst). split_and!; [congruence|congruence|right].
        exists ev. split; [congruence|]. rewrite Hst. apply error_status_not_executed.
    + right. exists a.
      assert (executed (env s') = executed (env s) ++ [a]) as Hex.
      { rewrite He, Hs'. cbn. congruence. }
      destruct ar as [res|e]; subst outcome.
      * destruct Hout as (-> & _ & now & ev & Hl & Ha & Hline & Hst & b & Hb & Hsame).
        exists entity, action, v, (outside (env s1)), w, ev. split_and!; try done; [congruence|].
        eexists now, _, _, b. rewrite quiet_ledger0 in Hl, Hsame. by split_and!.
      * destruct Hout as (-> & Hl & _ & ev & Ha & Hline & Hst).
        exists entity, action, v, (outside (env s1)), w, ev. split_and!; try done; congruence.
Qed.

(** A confirmed run is not charged again. *)
Lemma inner_confirmed_attempts args ctx undo_of (s : D) r s' :
  ctx_confirmed ctx = true ->
  exec_home_control_inner cfg args ctx undo_of s = (r, s') ->
  actuation_attempts s' = actuation_attempts s.
Proof.
  intros Hc H. apply inner_run in H as
    [[_ Hat]|(en & action & v & entity & s1 & outcome & e2 & restore & _ & _ & _ & _ & Hch & _ & Hfin)];
    [by apply Hat|].
  apply finish_control_effect in Hfin as (_ & _ & _ & _ & -> & _).
  unfold charged in Hch. by rewrite Hc in Hch.
Qed.

(** An undo is a home control run on behalf of the ledger's candidate. *)
Lemma undo_effect ctx (s : D) r s' :
  exec_home_undo cfg ctx s = (r, s') ->
  s' = s /\ is_ok r = false \/
  exists item args r0,
    last_undoable (action_ledger s) = Some item /\ undo_home_control_args item = Some args /\
    exec_home_control_inner cfg args ctx (Some (ra_id item)) s = (r0, s') /\
    r = (let? output := r0 in Ok (format_undo_output output)).
Proof.
  unfold exec_home_undo. destruct (last_undoable (action_ledger s)) as [item|] eqn:Hl; cbn.
  2: { intros [= <- <-]. by left. }
  destruct (undo_home_control_args item) as [args|] eqn:Ha; cbn; [|intros [= <- <-]; by left].
  unfold ebind. destruct (exec_home_control_inner _ _ _ _ s) as [r0 s0] eqn:E. intros H. right.
  exists item, args, r0. destruct r0 as [out|e]; unfold ret in H; injection H as <- <-; done.
Qed.

End effects.




(** ** Undo sends a call that is understood *)

Lemma parse_canonical_args `{U : Unicode} entity verb (v : option f64) fields :
  entity <> "" -> trim entity = entity -> verb ∈ HOME_CONTROL_ACTIONS ->
  (action_requires_value verb = true -> is_Some v) ->
  match v with Some x => fl_is_finite x = true /\ fields = [("value", json_f64 x)] | None => fields = [] end ->
  parse_home_control_args (Object ([("entity", Str entity); ("action", Str verb)] ++ fields))
  = Ok (entity, verb, v).
Proof.
  intros Hne Ht Hverb Hreq Hv. unfold parse_home_control_args, get_str, trimmed_nonempty.
  cbn [app get assoc]. rewrite String.eqb_refl.
  change (String.eqb "action" "entity") with false. rewrite String.eqb_refl.
  change (String.eqb "value" "entity") with false. change (String.eqb "value" "action") with false.
  cbn [mbind option_bind as_str]. rewrite Ht.
  destruct entity as [|c entity]; [done|]. cbn [is_empty ok_or rbind].
  destruct (control_action_fixed verb Hverb) as (Hmap & Hshape & _).
  unfold canon_home_control_action. rewrite Hshape, Hmap. cbn [ok_or rbind].
  destruct v as [x|].
  - destruct Hv as [Hfin ->]. cbn [assoc]. rewrite String.eqb_refl. unfold json_f64. rewrite Hfin. done.
  - subst fields. cbn [assoc rbind andb]. destruct (action_requires_value verb) eqn:E; [|done].
    by destruct (Hreq eq_refl).
Qed.

Lemma inverse_verb a b : inverse_action a = Some b ->
  b ∈ HOME_CONTROL_ACTIONS /\ action_requires_value b = false.
Proof.
  unfold inverse_action. intros H. repeat case_match; simplify_eq; (split; [|reflexivity]);
    apply eqb_elem; reflexivity.
Qed.

Lemma restore_verb r : complete_restore r ->
  restore_action r ∈ HOME_CONTROL_ACTIONS /\
  (action_requires_value (restore_action r) = true -> is_Some (restore_value r)).
Proof.
  intros [[Hin Hv]|[Hin Hv]].
  - repeat (apply elem_of_cons in Hin as [-> |Hin]; [split; [apply eqb_elem; reflexivity|done]|]).
    by apply elem_of_nil in Hin.
  - split; [|done]. repeat (apply elem_of_cons in Hin as [-> |Hin]; [apply eqb_elem; reflexivity|]).
    by apply elem_of_nil in Hin.
Qed.

(** The verb and value that undo an entry. *)
Definition undo_of_entry (a : RecordedAction) : option (string * option f64) :=
  match ra_undo_restore a with
  | Some r => Some (restore_action r, restore_value r)
  | None => (fun b => (b, None)) <$> ra_inverse_action a
  end.

(** ** Properties *)

(** Undo means what it says.  For an entry the ledger keeps, with a restore
    captured from the state before the action if it has one, the call that
    undo sends parses back to the same device, and to the captured restore or
    else to the verb whose inverse is the recorded one. *)
Lemma undo_call_parses `{U : Unicode} st a args :
  wf st -> a ∈ al_actions st -> ra_entity a <> "" -> trim (ra_entity a) = ra_entity a ->
  (forall r, ra_undo_restore a = Some r ->
     (exists action prior, undo_restore_from_prior action prior = Some r) /\
     (forall x, restore_value r = Some x -> fl_is_finite x = true)) ->
  undo_home_control_args a = Some args ->
  exists verb v, undo_of_entry a = Some (verb, v) /\
    parse_home_control_args args = Ok (ra_entity a, verb, v) /\
    (ra_undo_restore a = None -> inverse_action verb = Some (ra_action a)).
Proof.
  intros Hwf Hin Hne Ht Hr Hargs. pose proof (wf_inverse _ Hwf) as Hinv.
  rewrite Forall_forall in Hinv. specialize (Hinv a Hin). unfold undo_home_control_args, undo_of_entry in *.
  destruct (ra_undo_restore a) as [r|].
  - destruct (Hr r eq_refl) as [(action & prior & Hp) Hfin]. injection Hargs as <-.
    apply undo_restore_complete, restore_verb in Hp as [Hverb Hreq].
    exists (restore_action r), (restore_value r). split_and!; [done| |done].
    apply parse_canonical_args; try done. destruct (restore_value r); [|done]. split; [by apply Hfin|done].
  - destruct (ra_inverse_action a) as [b|]; [|done]. injection Hargs as <-.
    symmetry in Hinv. destruct (inverse_verb _ _ Hinv) as [Hverb Hreq].
    exists b, None. split_and!; [done| |intros _; by apply inverse_action_involutive].
    apply (parse_canonical_args (ra_entity a) b None []); try done. by rewrite Hreq.
Qed.

Section concrete.
#[local] Existing Instance ascii_tables.

Definition locked_door : RecordedAction := {|
  ra_id := 1; ra_undo_of := None; ra_entity := "front door"; ra_action := "lock"; ra_value := None;
  ra_inverse_action := Some "unlock"; ra_undo_restore := None; ra_origin := RequestOrigin.Voice;
  ra_summary := "Locked."; ra_confidence := None; ra_executed_ms := 5 |}.
Definition one_lock : ActionLedgerState :=
  ledger_run [LRecord 5 "front door" "lock" None RequestOrigin.Voice "Locked." None None None].

Lemma undo_call_parses_witness : exists verb v,
  undo_of_entry locked_door = Some (verb, v) /\
  parse_home_control_args (Object [("entity", Str "front door"); ("action", Str "unlock")])
    = Ok ("front door", verb, v) /\
  (ra_undo_restore locked_door = None -> inverse_action verb = Some "lock").
Proof.
  apply (undo_call_parses one_lock locked_door).
  - apply marked_wf, reachable_marked.
    apply (reach_step empty_ledger (LRecord 5 "front door" "lock" None RequestOrigin.Voice "Locked." None None None));
      [constructor|by split].
  - apply list_elem_of_singleton. reflexivity.
  - discriminate.
  - vm_compute. reflexivity.
  - discriminate.
  - reflexivity.
Defined.

End concrete.
