(* ===== verification/QuickRoute.v ===== *)
(** * The quick router ([tools/quick.rs])

    From what was said to a tool call, without asking the model: the utterance
    is brought to a normal form, and the recognisers are tried one after the
    other.  The recognisers that are lists of phrases are in [QuickTables], the
    timers in [QuickTimer]. *)

From S2P Require Import Prelude RustStr RustNum Json NumberWords CalcInput HomeTypes HomeAction ToolGate DispatchHome Calc QuickTables QuickTimer.
Local Open Scope string_scope.
Local Open Scope list_scope.
Local Open Scope rust_scope.

Definition clean_quick_value (v : string) : string :=
  let mark c := is_one_of c ["."; ","; "?"; "!"; ";"] in
  trim (trim_end_matches mark (trim_start_matches mark (trim v))).

Definition please_off (text : string) : string := trim_end (trim_end_str text " please").
Definition leading_please_off (text : string) : string := default text (strip_prefix text "please ").
Definition articles_off (text : string) : string :=
  trim_start_str (trim_start_str (trim_start_str text "the ") "a ") "an ".

(** ** The normal form *)

Section unicode.
Context `{U : Unicode}.

Fixpoint normalize_from (out : string) (pending_space : bool) (cs : list string) : string :=
  match cs with
  | [] => out
  | c :: cs =>
      if is_alphanumeric c
      then normalize_from ((if pending_space && nonempty out then out +:+ " " else out) +:+ c) false cs
      else normalize_from out true cs
  end.
Definition normalize (text : string) : string := normalize_from "" false (chars (to_lowercase text)).

Definition household_names : list (string * string) :=
  [("jared", "Jared"); ("sarah", "Sarah"); ("leo", "Leo"); ("mia", "Mia")].

(** What follows a name in front of the text. *)
Definition after_name (text name : string) : option string :=
  rest ← strip_prefix text name; rest ← strip_prefix rest " ";
  let rest := trim rest in when (nonempty rest) rest.
Definition strip_household_speaker_prefix (text : string) : string :=
  default text (find_map (fun e => after_name text e.1) household_names).
Definition household_speaker (text : string) : option string :=
  find_map (fun e => (fun _ => e.2) <$> after_name text e.1) household_names.

Definition resolve_speaker_possessive (query : string) (speaker : option string) : string :=
  match speaker, strip_prefix query "my " with
  | Some name, Some rest => name +:+ " " +:+ rest
  | _, _ => query
  end.

(** ** Memory *)

Definition bare_pronoun (query : string) : bool := is_one_of query ["that"; "it"; "this"].

Definition role_words : list (list string * string) :=
  [(["dad"; "father"], "dad"); (["mom"; "mother"; "mum"], "mom"); (["son"; "sons"], "son");
   (["daughter"; "daughters"], "daughter"); (["child"; "children"; "kid"; "kids"], "child"); (["wife"], "wife");
   (["husband"], "husband"); (["partner"], "partner"); (["dog"; "dogs"], "dog"); (["cat"; "cats"], "cat");
   (["pet"; "pets"], "pet")].
Definition normalize_household_role_query_token (token : string) : option string :=
  let mark c := is_one_of c ["."; ","; "?"; "!"; ":"; ";"] in
  let token := trim_end_matches mark (trim_start_matches mark token) in
  find_map (fun e => when (is_one_of token e.1) e.2) role_words.
Definition household_role_query (text : string) : option string :=
  if negb (starts_any text ["who is "; "who are "; "whos "; "who s "]
           || contains_any text [" in this house"; " in our house"; " household"]) then None
  else find_map normalize_household_role_query_token (split_whitespace text).

Definition recall_prefixes : list string :=
  ["what do you remember about "; "what do you know about "; "do you remember "; "search memory for ";
   "search memories for "; "recall memory for "; "recall memories for "].
Definition recalled_subject (text prefix : string) : option string :=
  rest ← strip_prefix text prefix;
  let query := please_off (trim rest) in
  when (nonempty query && negb (bare_pronoun query)) query.

Definition asks_own_name (text : string) : bool :=
  contains_any text ["what is my name"; "whats my name"; "what s my name"; "do you know my name";
                     "do you remember my name"; "remember my name"]
  || String.eqb text "who am i" || ends_with text " who am i".

Definition memory_recall_query (text : string) : option string :=
  if asks_own_name text then Some "name"
  else
    household_role_query text
    <|> (when (is_structured_household_question text || is_app_only_secret_question text
               || is_household_note_question text || is_semantic_household_memory_question text) text)
    <|> find_map (recalled_subject text) recall_prefixes
    <|> when (is_one_of text ["what do you remember"; "what do you know about me"; "what do you remember about me";
                              "what do you know about us"; "what do you remember about us"]) "me".

Definition note_recall_query_from_original (original : string) : option string :=
  let body := trim (match split_once original ": " with Some (_, rest) => rest | None => original end) in
  let mark c := is_one_of c ["."; "?"; "!"] in
  if negb (ends_with (trim_end_matches mark (to_ascii_lowercase body)) " note") then None
  else
    let q := default body (find_map (strip_prefix body)
               ["Find "; "find "; "Show me "; "show me "; "Show "; "show "; "Look up "; "look up "]) in
    let q := replace (trim (trim_end_matches mark q)) "'s " " " in
    when (nonempty q) q.

Definition forget_prefixes : list string :=
  ["forget about my "; "forget about the "; "forget about "; "forget my "; "forget the "; "forget ";
   "delete what you know about "; "delete everything you know about "; "delete my note about ";
   "delete the note about "; "delete my note on "; "delete the note on "].
(** The first prefix decides. *)
Definition memory_forget_query (text : string) : option string :=
  rest ← find_map (strip_prefix text) forget_prefixes;
  let query := please_off (trim rest) in
  when (nonempty query && negb (bare_pronoun query)) query.

Definition list_items (rest : string) (suffixes : list string) : option string :=
  find_map (strip_suffix rest) suffixes.
Definition listed_items (items : string) : option string :=
  let items := trim items in when (nonempty items) (replace items " and " ", ").

Definition shopping_list_add_request (text : string) : option string :=
  let text := leading_please_off (please_off text) in
  rest ← (strip_prefix text "add " <|> strip_prefix text "put ");
  items ← list_items rest [" to the shopping list"; " to my shopping list"; " to shopping list";
                           " on the shopping list"; " on my shopping list"; " on shopping list"];
  listed_items items.

Definition shopping_list_remove_request (text : string) : option string :=
  let text := leading_please_off (please_off text) in
  items ← ((rest ← strip_prefix text "take ";
            list_items rest [" off the shopping list"; " off my shopping list"; " off shopping list"])
           <|> (rest ← strip_prefix text "remove ";
                list_items rest [" from the shopping list"; " from my shopping list"; " from shopping list"]));
  listed_items items.

Definition household_rule_store_request (text : string) : option string :=
  when (contains text "kids" && contains text "video game" && contains text "homework"
        && starts_any text ["don t let "; "do not let "]) "Kids must finish homework before screen time".

Definition health_log_store_request (text : string) : option (string * string) :=
  if starts_with text "log that i drank " && contains text "water" then
    let drank := trim (trim_start_str text "log that i drank ") in
    Some ("health_tracker", "hydration log: drank " +:+ drank)
  else if is_one_of text ["log my weight"; "log my weight today"] || starts_with text "log my weight " then
    Some ("health_tracker", "weight log: requested weight entry")
  else None.

Definition rehearsal_alarm (text : string) : option (string * string) :=
  time ← strip_prefix text "set an alarm for rehearsal at ";
  let time := clean_quick_value time in
  when (nonempty time) ("alarm", "Alarm for rehearsal at " +:+ time).
Definition reminder_or_alarm_store_request (text : string) : option (string * string) :=
  first_rule (reminder_rules text) <|> rehearsal_alarm text <|> first_rule (late_reminder_rules text).

Definition allergy_stated (text prefix : string) : option (string * string) :=
  rest ← strip_prefix text prefix;
  let allergen := trim rest in
  when (nonempty allergen) ("health_tracker", "dietary allergy: allergic to " +:+ allergen).
Definition event_stated (text : string) : option (string * string) :=
  rest ← (strip_prefix text "i have a " <|> strip_prefix text "i have an ");
  when (contains_any rest ["appointment"; "meeting"]) ("reminders", "calendar event: " +:+ trim rest).
Definition fact_stated (text : string) : option (string * string) :=
  if starts_any text ["remember my "; "remember that "] && contains text " is " then
    let fact := trim (match strip_prefix text "remember " with
                      | Some rest => default rest (strip_prefix rest "that ") | None => text end) in
    if contains_any text ["appointment"; "meeting"] then Some ("reminders", "calendar event: " +:+ fact)
    else Some ("fact", "note: " +:+ fact)
  else None.
Definition personal_fact_store_request (text : string) : option (string * string) :=
  find_map (allergy_stated text) ["i m allergic to "; "i am allergic to "]
  <|> event_stated text <|> fact_stated text.

Definition preferred_timer_request (text : string) : option (N * string) :=
  when (contains text "lego cleanup timer") (600%N, "lego cleanup").

(** ** Scenes and media *)

Definition ARRIVALS : list string := ["i m home"; "i am home"; "we re home"; "we are home"; "i m back"; "i am back"].
Definition scene_phrases (text : string) : list (bool * string) := [
  (is_one_of text ARRIVALS, "arrival");
  (is_one_of text ["lock up the house"; "lock up house"], "lock up house");
  (is_one_of text ["turn off everything"; "turn everything off"], "all off");
  (is_one_of text ["goodnight genieclaw"; "good night genieclaw"; "goodnight genie claw"; "good night genie claw";
                   "goodnight"; "good night"], "goodnight")].

Definition named_scene (text prefix : string) : option string :=
  rest ← strip_prefix text prefix;
  let rest := trim rest in
  if contains_any rest [" scene"; " routine"] then
    let entity := trim (trim_end_str (trim_end_str (please_off (articles_off rest)) " scene") " routine") in
    when (nonempty entity) entity
  else None.
Definition scene_or_routine_activation_request (text : string) : option string :=
  let text := leading_please_off text in
  first_rule (scene_phrases text) <|> find_map (named_scene text) ["activate "; "start "; "run "].

Definition media_phrases (text : string) : list (bool * string) := [
  (is_one_of text ["play focus music"; "start focus music"; "focus music"], "focus music playlist");
  (is_one_of text ["put on the morning news"; "put on morning news"; "play the morning news"; "play morning news"],
   "morning news");
  (is_one_of text ["play the weather report"; "play weather report"; "put on the weather report";
                   "put on weather report"], "local weather report")].
Definition named_playlist (text prefix : string) : option string :=
  rest ← strip_prefix text prefix;
  let rest := trim rest in
  when (contains rest "playlist") (articles_off (please_off rest)).
Definition play_media_request (text : string) : option string :=
  let text := leading_please_off text in
  first_rule (media_phrases text) <|> find_map (named_playlist text) ["play "; "start "; "put on "].

(** ** Home control *)

Definition is_light_entity (entity : string) : bool := contains_any entity ["light"; "lights"; "lamp"; "lamps"].

Definition TEMPERATURE_WORDS : list string :=
  ["thermostat"; "thermostats"; "temperature"; "temperatures"; "temp"; "temps"; "climate"; "oven"; "ovens"; "heat";
   "heater"; "heaters"; "heating"; "furnace"; "furnaces"; "kettle"; "kettles"; "boiler"; "boilers"; "radiator";
   "radiators"; "grill"; "grills"; "smoker"; "smokers"; "ac"; "acs"; "conditioner"; "conditioners"; "conditioning"].
(** [words.windows(2)] *)
Definition pairs {A} (l : list A) : list (A * A) := zip l (tail l).
Definition says_pair (words : list string) (first second : string) : bool :=
  existsb (fun p => String.eqb p.1 first && String.eqb p.2 second) (pairs words).
Definition is_temperature_entity (entity : string) : bool :=
  names_word entity TEMPERATURE_WORDS || says_pair (split_whitespace entity) "sous" "vide".

Definition TIME_PHRASES : list string :=
  ["morning"; "afternoon"; "evening"; "night"; "midday"; "noon"; "midnight"; "a while"; "a bit"; "a moment"].
Definition is_time_expression (location : string) : bool :=
  is_one_of location TIME_PHRASES
  || match last (split_whitespace location) with
     | Some w => is_time_unit w || is_one_of w ["morning"; "afternoon"; "evening"; "night"; "tonight"; "midday";
         "noon"; "midnight"; "day"; "days"; "week"; "weeks"; "month"; "months"; "year"; "years"; "weekend"; "weekends"]
     | None => false
     end.

(** What is asked for later is left to the model. *)
Definition is_scheduled (rest : string) : bool :=
  match rsplit_once rest " in " with
  | Some (_, tail) => is_time_expression (trim (trim_start_str (trim tail) "the "))
  | None => false
  end.

Definition clean_control_entity (text : string) : string :=
  let text := trim_end_str (articles_off (trim text)) " please" in
  match split_once text " in the " <|> split_once text " in " with
  | Some (device, room) => trim room +:+ " " +:+ trim device
  | None => text
  end.

Definition known_device (entity : string) : bool :=
  names_word entity ["fan"; "fans"; "fireplace"; "fireplaces"]
  || is_one_of entity ["light"; "lights"; "lamp"; "lamps"]
  || existsb (ends_with entity) [" light"; " lights"; " lamp"; " lamps"].
Definition is_multi_clause (rest : string) : bool :=
  contains_any (" " +:+ rest +:+ " ")
    [" everything "; " except "; " only "; " when "; " unless "; " if "; " and "].

Definition turn_verbs : list (string * string) := [("turn on ", "turn_on"); ("turn off ", "turn_off")].
Definition turn_verb (text : string) : option (string * string) :=
  find_map (fun v => (fun rest => (rest, v.2)) <$> strip_prefix text v.1) turn_verbs.

Definition simple_turn_request (text : string) : option (string * string) :=
  '(rest, action) ← turn_verb text;
  if is_scheduled rest then None
  else
    let entity := clean_control_entity rest in
    when (nonempty entity && negb (is_multi_clause rest) && known_device entity) (entity, action).

Definition parse_temperature_target (rest : string) : option (string * f64) :=
  '(entity, value_text) ← (split_once rest " to " <|> split_once rest " at ");
  let entity := articles_off (trim entity) in
  let entity := match find_map (strip_suffix entity) [" down"; " up"; " back"] with
                | Some e => trim e | None => entity end in
  if is_empty entity then None
  else
    v ← parse_amount value_text;
    when (fl_is_finite v) (entity, v).

Definition setpoint_request (text : string) : option (string * string * option f64) :=
  rest ← (strip_prefix text "set " <|> strip_prefix text "preheat ");
  if is_scheduled rest then None
  else
    '(entity, v) ← parse_temperature_target rest;
    if is_light_entity entity then Some (entity, "set_brightness", Some v)
    else when (starts_with text "preheat " || is_temperature_entity entity) (entity, "set_temperature", Some v).

Definition home_control_request (text : string) : option (string * string * option f64) :=
  first_rule (home_control_rules text)
  <|> ((fun ea => (ea.1, ea.2, None)) <$> simple_turn_request text)
  <|> setpoint_request text.

Definition home_control_value_argument (action : string) (v : f64) : value :=
  if String.eqb action "set_temperature" && fl_is_integral v
     && SFleb (f64_of_Z (-9223372036854775808)) v && SFleb v (f64_of_Z 9223372036854775807)
  then json_i64 (fl_as_i64 v) else json_f64 v.

(** A request becomes a call when its verb is one of the canonical ones. *)
Definition tool (name : string) (arguments : list (string * value)) : ToolCall :=
  {| call_name := name; call_arguments := Object arguments |}.
Definition home_control_call (request : option (string * string * option f64)) : option ToolCall :=
  '(entity, action, v) ← request;
  '(action, v) ← canonicalize_household_action action v;
  Some (tool "home_control"
    ([("action", Str action); ("entity", Str entity)] ++
     match v with Some v => [("value", home_control_value_argument action v)] | None => [] end)).

(** ** Home status *)

Definition priority_home_status_target (text : string) : option string :=
  when (contains text "garage freezer" && contains text "too warm") "garage freezer".

Definition STATUS_PREFIXES : list string :=
  ["what is the "; "what are the "; "what s the "; "what is "; "what are "; "what s "; "what "; "which "; "is the ";
   "are the "; "is "; "are "; "any "; "check the "; "check "; "tell me the "; "tell me "].
Definition STATUS_SUFFIXES : list string :=
  [" are on"; " are off"; " are open"; " are closed"; " are unlocked"; " are locked"; " is on"; " is off"; " is open";
   " is closed"; " is unlocked"; " is locked"; " status"; " on"; " off"; " open"; " closed"; " unlocked"; " locked";
   " active"; " right now"; " now"].
(** Every pass takes a suffix off. *)
Fixpoint suffixes_off (fuel : nat) (target : string) : string :=
  match fuel with
  | 0 => target
  | S fuel =>
      match find_map (strip_suffix target) STATUS_SUFFIXES with
      | Some stripped => suffixes_off fuel (trim_end stripped)
      | None => target
      end
  end.
Definition clean_status_target (text : string) : string :=
  let target := please_off (default text (find_map (strip_prefix text) STATUS_PREFIXES)) in
  trim (suffixes_off (String.length target) target).

Definition word_count (s : string) : nat := length (split_whitespace s).
(** A device by its bare name is the whole house's. *)
Definition class_or_target (target class : string) : string :=
  if Nat.eqb (word_count target) 1 then class else target.

Definition asks_oven_state (words : list string) : bool :=
  token_is words 0 ["is"; "are"] && bool_decide (slice 1 3 words = ["the"; "oven"])
  && existsb (String.eqb "on") (drop 3 words).
Fixpoint windows3 {A} (l : list A) : list (A * A * A) :=
  match l with
  | a :: ((b :: c :: _) as l) => (a, b, c) :: windows3 l
  | _ => []
  end.
Definition asks_oven_left_on (words : list string) : bool :=
  token_is words 0 ["did"] &&
  existsb (fun '(a, b, c) => String.eqb a "leave" && String.eqb b "the" && String.eqb c "oven") (windows3 words).
Definition names_the_iron_appliance (text : string) : bool :=
  existsb (fun p => is_one_of p.1 ["the"; "my"] && String.eqb p.2 "iron") (pairs (split_whitespace text)).

(** The climate questions: one about the weather outside is no device's. *)
Definition climate_target (target : string) : option string :=
  if contains_any target ["outside"; "outdoor"] then None
  else if contains target "attic" then Some "attic temperature"
  else Some (if Nat.eqb (word_count target) 1 || String.eqb target "temperature" then "thermostat" else target).

Definition qualified_dryer (target : string) : bool :=
  Nat.ltb 1 (word_count target)
  && match last (split_whitespace target) with Some w => is_one_of w ["dryer"; "dryers"] | None => false end.

Definition device_target (target : string) : option string :=
  if names_word target ["light"; "lights"; "lamp"; "lamps"] then Some (class_or_target target "lights")
  else if names_word target ["switch"; "switches"; "plug"; "plugs"; "outlet"; "outlets"]
  then Some (class_or_target target "switches")
  else if contains_any target ["thermostat"; "thermostats"; "temperature"; "climate"] then climate_target target
  else if names_word target ["cover"; "covers"; "blind"; "blinds"; "shade"; "shades"; "curtain"; "curtains";
                             "garage"; "gate"]
  then Some (class_or_target target "covers")
  else if names_word target ["lock"; "locks"; "door"; "doors"] then Some (class_or_target target "locks")
  else if says_pair (split_whitespace target) "ice" "maker" || names_word target ["icemaker"] then Some "ice maker"
  else if contains target "driveway" || names_word target ["ice"; "icy"; "iced"] then Some "driveway ice"
  else if contains_any target ["sprinkler"; "irrigation"]
  then Some (if contains target "front" then "front sprinklers" else "sprinklers")
  else if contains_any target ["dryer"; "drying machine"]
  then Some (if qualified_dryer target then target else "dryer")
  else if contains target "humidity"
  then Some (if contains target "basement" then "basement humidity" else "humidity")
  else if contains target "tire pressure" && names_word target ["car"; "cars"] then Some "car tire pressure"
  else if names_word target ["car"; "cars"] then Some "car"
  else if names_word target ["stove"; "burner"; "oven"] then Some "stove"
  else if contains_any target ["package"; "delivery"] then Some "package"
  else if contains_any target ["freezer"; "garage freezer"]
  then Some (if contains target "garage" then "garage freezer" else "freezer")
  else None.

Definition home_status_target (text : string) : option string :=
  let words := split_whitespace text in
  first_rule (status_rules text)
  <|> when ((asks_oven_state words || asks_oven_left_on words)
            && negb (contains_any text ["self cleaning"; "self clean"])) "oven"
  <|> first_rule (appliance_rules text)
  <|> when (names_the_iron_appliance text && (looks_like_status_query text || starts_with text "did ")) "iron"
  <|> first_rule (late_status_rules text)
  <|> (if contains text "home assistant" || negb (looks_like_status_query text) then None
       else
         let target := clean_status_target text in
         if is_empty target then None else device_target target).

(** ** Weather, news and searches *)

Definition TIME_QUALIFIERS : list string :=
  [" right now"; " this weekend"; " next weekend"; " this week"; " next week"; " this month"; " next month";
   " this morning"; " this afternoon"; " this evening"; " tonight"; " today"; " tomorrow"; " now"; " later";
   " currently"].
Definition strip_trailing_time_qualifier (subject : string) : string := trim (foldl trim_end_str subject TIME_QUALIFIERS).

Definition extract_location_after_marker (text marker : string) : option string :=
  '(_, location) ← rsplit_once text marker;
  let location := strip_trailing_time_qualifier (trim_start_str (please_off (trim location)) "the ") in
  when (nonempty location) location.
Definition location_in (text : string) : option string :=
  extract_location_after_marker text " in " <|> extract_location_after_marker text " for ".
Definition is_place (location : string) : bool :=
  nonempty location && negb (is_one_of location ["today"; "tomorrow"]) && negb (is_time_expression location).

Definition weather_request (text : string) : option (string * bool) :=
  if starts_any text ["is it rain"; "will it rain"] then
    if contains text "school pickup" then Some ("home", false)
    else
      match opt_filter is_place (location_in text) with
      | Some location => if contains location "school pickup" then Some ("home", false) else Some (location, false)
      | None => Some ("home", false)
      end
  else if negb (contains_any text ["weather"; "forecast"]) then None
  else
    location ← opt_filter is_place (location_in text);
    Some (location, contains_any text ["forecast"; "tomorrow"; "week"; "7 day"; "seven day"]).

Definition asks_for_news (text : string) : bool :=
  is_one_of (strip_trailing_time_qualifier (please_off text))
    ["read the news"; "read news"; "what s the news"; "what is the news"; "whats the news"; "the latest news";
     "latest news"; "what s the latest news"; "what is the latest news"; "give me the news"; "show me the news";
     "tell me the news"; "catch me up on the news"; "what s in the news"; "what s happening in the news"].

Definition tickers : list (list string * string) :=
  [(["apple"], "AAPL"); (["microsoft"], "MSFT"); (["google"; "alphabet"], "GOOGL"); (["amazon"], "AMZN");
   (["tesla"], "TSLA"); (["meta"; "facebook"], "META"); (["nvidia"], "NVDA"); (["netflix"], "NFLX")].
Definition company_ticker (subject : string) : option string :=
  find_map (fun e => when (is_one_of (trim subject) e.1) e.2) tickers.

Definition FILLER : list string :=
  ["what"; "whats"; "is"; "are"; "the"; "a"; "an"; "current"; "s"; "tell"; "me"; "show"; "get"; "give"; "check";
   "hey"; "please"; "of"; "for"].
Definition stock_subject_before (before : string) : string :=
  let words := split_whitespace before in
  let words := if bool_decide (last words = Some "s") then removelast words else words in
  strip_trailing_time_qualifier
    (join " " (reverse (take_while (fun w => negb (is_one_of w FILLER)) (reverse words)))).

Definition stock_subject (text : string) : string :=
  match split_once text "stock price of " <|> split_once text "stock price for " with
  | Some (_, after) => strip_trailing_time_qualifier (trim after)
  | None => match split_once text "stock price" with Some (before, _) => stock_subject_before before | None => "" end
  end.

Definition web_search_is_fresh_request (text : string) : bool :=
  contains_any text [" current "; " now "; " today "; " latest "; " stock price of "; " stock price for ";
                     " stock price "; " the current"; " current "]
  || existsb (ends_with text) [" now"; " today"; " currently"; " latest"].

Definition search_prefixes : list string :=
  ["search the web for "; "search web for "; "search online for "; "internet search for "; "web search ";
   "look up "; "lookup "].
Definition searched (text prefix : string) : option (string * bool) :=
  rest ← strip_prefix text prefix;
  let query := please_off (trim rest) in
  when (nonempty query) (query, web_search_is_fresh_request text).

Definition web_search_request (text : string) : option (string * bool) :=
  if starts_any text ["search memory "; "search memories "] then None
  else if starts_any text ["remind me "; "remind us "] then None
  else if contains text "stock price" then
    let subject := stock_subject text in
    Some (if is_empty subject then "stock price"
          else default subject (company_ticker subject) +:+ " stock price", true)
  else if asks_for_news text then Some ("top news headlines", true)
  else find_map (searched text) search_prefixes.

(** ** Arithmetic *)

Definition parse_decimal_token (token : string) : option f64 :=
  let trimmed := trim_end_str (trim_end_str token "%") "f" in
  opt_filter fl_is_finite (parse_f64 trimmed) <|> parse_amount trimmed.

Definition f64_of_N (n : N) : f64 := f64_of_Z (Z.of_N n).

(** The longest number that ends where asked. *)
Definition longer_number (tokens : list string) (stop : nat) (best : option f64 * nat) (start : nat)
    : option f64 * nat :=
  match parse_spoken_number tokens start with
  | Some (v, consumed) =>
      if Nat.eqb consumed stop && Nat.ltb best.2 (stop - start) then (Some (f64_of_N v), stop - start) else best
  | None => best
  end.
Definition calc_number_ending_at (tokens : list string) (stop : nat) : option f64 :=
  if Nat.eqb stop 0 then None
  else (foldl (longer_number tokens stop) (None, 0) (seq 0 stop)).1
       <|> (tokens !! (stop - 1) ≫= parse_decimal_token).

Definition number_at (tokens : list string) (start : nat) : option f64 :=
  ((fun v => f64_of_N v.1) <$> parse_spoken_number tokens start) <|> (tokens !! start ≫= parse_decimal_token).
Definition calc_number_starting_at (tokens : list string) (start : nat) : option f64 :=
  if Nat.leb (length tokens) start then None
  else
    (if token_is tokens start ["a"; "an"; "the"] && Nat.ltb (S start) (length tokens)
     then number_at tokens (S start) else None)
    <|> number_at tokens start.

Definition SKIP_BEFORE_TO : list string := ["degrees"; "degree"; "fahrenheit"; "f"; "celsius"; "celcius"; "c"].
Definition calc_number_before_to (tokens : list string) (to_idx : nat) : option f64 :=
  if Nat.eqb to_idx 0 then None
  else
    let stop := if token_is tokens (to_idx - 1) ["f"] then to_idx - 1 else to_idx in
    let skipped := take_while (fun t => is_one_of t SKIP_BEFORE_TO) (reverse (take stop tokens)) in
    calc_number_ending_at tokens (stop - length skipped).

Section floats.
Context `{FT : FloatText}.

Definition temperature_conversion_expression (text : string) : option string :=
  let to_celsius := contains_any text ["to celsius"; "to celcius"; "in celsius"; "in celcius"] in
  let to_fahrenheit := contains_any text ["to fahrenheit"; "to farenheit"; "in fahrenheit"; "in farenheit"] in
  if negb to_celsius && negb to_fahrenheit then None
  else
    let tokens := split_whitespace text in
    let target_units := if to_celsius then ["celsius"; "celcius"] else ["fahrenheit"; "farenheit"] in
    marker_idx ← find_map (fun i =>
      when (Nat.ltb 0 i && token_is tokens i target_units && token_is tokens (i - 1) ["to"; "in"]) (i - 1))
      (seq 0 (length tokens));
    v ← calc_number_before_to tokens marker_idx;
    Some (if to_celsius then "(" +:+ f64_display v +:+ " - 32) * 5 / 9" else f64_display v +:+ " * 9 / 5 + 32").

Definition percentage_expression (text : string) : option string :=
  let tokens := split_whitespace text in
  percent_idx ← position (fun t => is_one_of t ["percent"; "percentage"; "%"]) tokens;
  percent ← calc_number_ending_at tokens percent_idx;
  of_idx ← position (String.eqb "of") tokens;
  base ← calc_number_starting_at tokens (S of_idx);
  Some (f64_display base +:+ " * " +:+ f64_display percent +:+ " / 100").

(** The loop over the pieces; every pass takes one at least. *)
Fixpoint words_from (fuel : nat) (tokens : list string) (index : nat) : list string :=
  match fuel, tokens !! index with
  | S fuel, Some token =>
      match parse_spoken_number tokens index with
      | Some (v, next) =>
          if Nat.ltb index next then show_N v :: words_from fuel tokens next else token :: words_from fuel tokens (S index)
      | None => token :: words_from fuel tokens (S index)
      end
  | _, _ => []
  end.
Definition words_to_digits (expression : string) : string :=
  let tokens := split_char expression " " in join " " (words_from (length tokens) tokens 0).

Definition OPERATORS : list string := ["+"; "-"; "*"; "/"; "("; ")"].
Definition spoken_operators : list (string * string) :=
  [(" plus ", " + "); (" minus ", " - "); (" times ", " * "); (" multiplied by ", " * ");
   (" divided by ", " / "); (" over ", " / ")].
Definition arithmetic_expression (text : string) : option string :=
  let expression := default text (find_map (strip_prefix text)
    ["calculate "; "what is "; "how much is "; "whats "; "what s "; "what's "]) in
  let expression := foldl (fun s e => replace s e.1 e.2) expression spoken_operators in
  let expression := words_to_digits expression in
  if existsb is_ascii_digit (chars expression)
     && existsb (fun c => is_one_of c OPERATORS) (chars expression)
     && forallb (fun c => is_ascii_digit c || is_one_of c ([" "; "."] ++ OPERATORS)) (chars expression)
  then Some (trim expression) else None.

Definition calculation_request (text : string) : option string :=
  temperature_conversion_expression text <|> percentage_expression text <|> arithmetic_expression text.

(** ** The time *)

Definition asks_current_time (text : string) : bool :=
  let text := please_off text in
  let text := match find_map (strip_suffix text) [" right now"; " now"] with
              | Some text => trim_end text | None => text end in
  is_one_of text ["what time is it"; "what is the time"; "whats the time"; "what s the time"; "current time";
    "tell me the time"; "what date is it"; "what is the date"; "whats the date"; "what s the date"; "current date";
    "tell me the date"; "today s date"; "what s today s date"; "whats today s date"; "what is today";
    "what day is it"; "date and time"].

(** ** The router *)

Definition store_call (category content : string) : ToolCall :=
  tool "memory_store" [("category", Str category); ("content", Str content)].
Definition timer_call (timer : N * string) : ToolCall :=
  tool "set_timer" [("label", Str timer.2); ("seconds", Number (PosInt timer.1))].
Definition recall_call (query : string) : ToolCall :=
  tool "memory_recall" [("limit", Number (PosInt 3)); ("query", Str query)].
Definition weather_report_call (w : string * bool) : ToolCall :=
  tool "get_weather" [("forecast", Bool w.2); ("location", Str w.1)].
Definition search_call (search : string * bool) : ToolCall :=
  tool "web_search" ((if search.2 then [("fresh", Bool true)] else []) ++
                     [("limit", Number (PosInt 3)); ("query", Str search.1)]).
Definition query_call (name query : string) : ToolCall := tool name [("query", Str query)].
Definition status_call (entity : string) : ToolCall := tool "home_status" [("entity", Str entity)].

Definition route (text : string) : option ToolCall :=
  let prenormalized := normalize text in
  let speaker := household_speaker prenormalized in
  let normalized := strip_household_speaker_prefix prenormalized in
  if is_empty normalized then None
  else
    when (asks_home_undo normalized) (tool "home_undo" [])
    <|> when (asks_action_history normalized) (tool "action_history" [])
    <|> when (asks_memory_status normalized) (tool "memory_status" [])
    <|> ((fun items => store_call "shopping" ("shopping list pending: " +:+ items))
           <$> shopping_list_add_request normalized)
    <|> ((fun items => store_call "shopping" ("shopping list removed: " +:+ items))
           <$> shopping_list_remove_request normalized)
    <|> (store_call "fact" <$> household_rule_store_request normalized)
    <|> ((fun f => store_call f.1 f.2) <$> health_log_store_request normalized)
    <|> ((fun f => store_call f.1 f.2) <$> reminder_or_alarm_store_request normalized)
    <|> ((fun f => store_call f.1 f.2) <$> personal_fact_store_request normalized)
    <|> (timer_call <$> preferred_timer_request normalized)
    <|> home_control_call (priority_home_control_request normalized)
    <|> (weather_report_call <$> weather_request normalized)
    <|> (status_call <$> priority_home_status_target normalized)
    <|> (query_call "memory_forget" <$> memory_forget_query normalized)
    <|> ((fun query => recall_call (default query (note_recall_query_from_original text)))
           <$> memory_recall_query normalized)
    <|> when (asks_system_status normalized || asks_home_assistant_status normalized) (tool "system_info" [])
    <|> (search_call <$> web_search_request normalized)
    <|> (timer_call <$> timer_request normalized)
    <|> ((fun entity => tool "home_control" [("action", Str "activate"); ("entity", Str entity)])
           <$> scene_or_routine_activation_request normalized)
    <|> ((fun query => query_call "play_media" (resolve_speaker_possessive query speaker))
           <$> play_media_request normalized)
    <|> home_control_call (home_control_request normalized)
    <|> ((fun expression => tool "calculate" [("expression", Str expression)])
           <$> calculation_request (strip_household_speaker_prefix (prepare text)))
    <|> (status_call <$> home_status_target normalized)
    <|> when (asks_current_time normalized) (tool "get_time" []).

Definition needs_home (name : string) : bool :=
  is_one_of name ["home_control"; "home_status"; "home_undo"; "action_history"].
Definition route_for_available_tools (text : string) (home_available web_search_available : bool)
    : option ToolCall :=
  call ← route text;
  if needs_home (call_name call) && negb home_available then None
  else if String.eqb (call_name call) "web_search" && negb web_search_available then None
  else Some call.

End floats.
End unicode.
