(* ===== verification/Channel.v ===== *)
(** * Turns ([channel/], [reasoning.rs])

    What a person says, whatever the transport: who said it, in which session,
    and how the message handed to the model is marked for its kind of answer. *)

From S2P Require Import Prelude RustStr RustNum Json HomeTypes MemoryPolicy Conversations DispatchHome.
Local Open Scope string_scope.
Local Open Scope list_scope.
Local Open Scope rust_scope.

Module ChannelKind.
Inductive t : Set := Voice | Http | Telegram.
Definition as_str (c : t) : string :=
  match c with Voice => "voice" | Http => "http" | Telegram => "telegram" end.
End ChannelKind.

Record SpeakerInfo := { speaker_label : option string; confidence : IdentityConfidence.t }.
Definition default_speaker : SpeakerInfo := {| speaker_label := None; confidence := IdentityConfidence.Unknown |}.

Definition is_resolved (s : SpeakerInfo) : bool :=
  match speaker_label s, confidence s with
  | None, IdentityConfidence.Unknown => false
  | _, _ => true
  end.

Definition session_key (channel : ChannelKind.t) (speaker : SpeakerInfo) (fallback_session_id : string) : string :=
  match trimmed_nonempty (speaker_label speaker) with
  | Some name => ChannelKind.as_str channel +:+ ":" +:+ to_ascii_lowercase name
  | None => fallback_session_id
  end.

Record IncomingTurn := {
  turn_text : string;
  turn_speaker : SpeakerInfo;
  turn_session_id : string;
  turn_channel : ChannelKind.t;
}.

Definition new_turn (text session_id : string) (channel : ChannelKind.t) : IncomingTurn :=
  {| turn_text := text; turn_speaker := default_speaker; turn_session_id := session_id; turn_channel := channel |}.
Definition with_speaker (s : SpeakerInfo) (t : IncomingTurn) : IncomingTurn :=
  {| turn_text := turn_text t; turn_speaker := s; turn_session_id := turn_session_id t; turn_channel := turn_channel t |}.

Definition turn_conversation_id (t : IncomingTurn) (fallback_session_id : string) : string :=
  session_key (turn_channel t) (turn_speaker t) fallback_session_id.
Definition speaker_name (t : IncomingTurn) : option string := trimmed_nonempty (speaker_label (turn_speaker t)).

Section unicode.
Context `{U : Unicode}.

Definition turn_memory_read_context (t : IncomingTurn) (shared_space_voice : bool) : MemoryReadContext :=
  memory_read_context_from_text (turn_text t) (confidence (turn_speaker t)) shared_space_voice.

Definition tool_execution_context (t : IncomingTurn) (origin : RequestOrigin.t) (shared_space_voice : bool)
    : ToolExecutionContext := {|
  memory_read_context :=
    if is_resolved (turn_speaker t) then Some (turn_memory_read_context t shared_space_voice) else None;
  request_origin := origin;
  ctx_confirmed := ctx_confirmed default_context |}.

End unicode.

(** ** Adapters *)

Definition identity_confidence_from_str (value : string) : IdentityConfidence.t :=
  let value := to_ascii_lowercase (trim value) in
  if String.eqb value "high" then IdentityConfidence.High
  else if String.eqb value "medium" then IdentityConfidence.Medium
  else if String.eqb value "low" then IdentityConfidence.Low
  else IdentityConfidence.Unknown.

Definition parse_speaker_field (v : value) : SpeakerInfo :=
  match v with
  | Str name =>
      if is_empty (trim name) then default_speaker
      else {| speaker_label := Some (trim name); confidence := IdentityConfidence.High |}
  | Object _ =>
      {| speaker_label := trimmed_nonempty (get_str v "name");
         confidence := match get_str v "confidence" with
                       | Some c => identity_confidence_from_str c
                       | None => IdentityConfidence.High
                       end |}
  | _ => default_speaker
  end.

Definition incoming_turn_from_chat_json (parsed : value) (fallback_session : string) : IncomingTurn :=
  let text := default "" (get_str parsed "message") in
  let turn := new_turn text fallback_session ChannelKind.Http in
  match get parsed "speaker" with
  | Some v =>
      let speaker := parse_speaker_field v in
      if is_resolved speaker then with_speaker speaker turn else turn
  | None => turn
  end.

Definition telegram_session_id (chat_id : Z) : string := "telegram-" +:+ show_Z chat_id.
Definition incoming_turn_from_telegram (chat_id : Z) (text : string) : IncomingTurn :=
  new_turn text (telegram_session_id chat_id) ChannelKind.Telegram.
(** Keys in the order of the map. *)
Definition telegram_chat_json (chat_id : Z) (text : string) : value :=
  let turn := incoming_turn_from_telegram chat_id text in
  Object [("conversation_id", Str (turn_session_id turn)); ("message", Str (turn_text turn))].

(** ** The driver of a channel ([channel/serve.rs]) *)

Record OutgoingResponse := { out_text : string; out_tool : option string; out_session_id : string }.

(** A transport and the handler of its turns, over one state. *)
Section serving.
Context {T : Type} (recv : M T (option IncomingTurn)) (handle : IncomingTurn -> M T (result OutgoingResponse string))
  (send : OutgoingResponse -> M T (result unit string)).

(** The fuel bounds the turns received. *)
Fixpoint serve_channel (fuel : nat) : M T (option (result unit string)) :=
  match fuel with
  | O => ret None
  | S fuel =>
      let! turn := recv in
      match turn with
      | None => ret (Some (Ok tt))
      | Some turn =>
          let! response := handle turn in
          match response with
          | Err _ => serve_channel fuel
          | Ok response =>
              let! sent := send response in
              match sent with
              | Err e => ret (Some (Err e))
              | Ok _ => serve_channel fuel
              end
          end
      end
  end.

End serving.

(** ** Reasoning mode *)

Module ModelFamily.
Inductive t : Set := Nemotron | Llama | Qwen | Phi | Gemma | Small.
End ModelFamily.

Module InteractionKind.
Inductive t : Set := Chat | Voice | Repl | OpenAiBridge | ToolSummary.
End InteractionKind.

Inductive ReasoningMode := Normal | Deep.
Record ReasoningDecision := { rd_mode : ReasoningMode; rd_explicit : bool; rd_applied : bool }.

Definition supports_reasoning_toggle (f : ModelFamily.t) : bool :=
  match f with ModelFamily.Qwen => true | _ => false end.

Definition explicit_reasoning_mode (lower : string) : option ReasoningMode :=
  if contains lower "/no_think" then Some Normal
  else if contains_any lower ["/think"; "think deeply"; "reason carefully"; "step by step"] then Some Deep
  else None.

Definition is_simple_request (lower : string) : bool :=
  Nat.leb (length (split_whitespace lower)) 10 &&
  (contains lower "what time" || contains lower "weather" || starts_with lower "hi" || starts_with lower "hello"
   || starts_with lower "hey" || contains lower "turn on" || contains lower "turn off" || starts_with lower "set "
   || contains lower "remember" || contains lower "my name" || contains lower "what's up" || contains lower "whats up").

Definition complex_markers : list string :=
  ["analy"; "compare"; "tradeoff"; "trade-off"; "architecture"; "design"; "plan"; "debug"; "review"; "refactor";
   "prove"; "derive"; "why does"; "what is wrong"; "what's wrong"; "optimiz"; "algorithm"; "complexity";
   "step by step"; "pros and cons"; "should we"; "write code"; "rust"; "explain in detail"].

Definition looks_like_deep_reasoning_request (lower : string) : bool :=
  Nat.ltb 140 (String.length lower) || contains_any lower [newline; "1."; "2."; "```"]
  || contains_any lower complex_markers.

Definition auto_reasoning_mode (lower : string) (interaction : InteractionKind.t) : ReasoningMode :=
  match interaction with
  | InteractionKind.ToolSummary => Normal
  | _ => if is_simple_request lower then Normal
         else if looks_like_deep_reasoning_request lower then Deep else Normal
  end.

Definition strip_reasoning_directives (user_text : string) : string :=
  replace (replace user_text "/no_think" "") "/think" "".

(** [iter().rposition(|m| m.role == "user")]. *)
Fixpoint last_user (l : list Message) : option nat :=
  match l with
  | [] => None
  | m :: l => match last_user l with
              | Some i => Some (S i)
              | None => if String.eqb (role m) "user" then Some 0 else None
              end
  end.

Definition marked_text (base : string) (mode : ReasoningMode) : string :=
  let directive := match mode with Normal => "/no_think" | Deep => "/think" end in
  if is_empty base then directive else base +:+ newline +:+ directive.

Definition apply_reasoning_mode `{U : Unicode} (family : ModelFamily.t) (messages : list Message)
    (user_text : string) (interaction : InteractionKind.t) : list Message * ReasoningDecision :=
  if negb (supports_reasoning_toggle family)
  then (messages, {| rd_mode := Normal; rd_explicit := false; rd_applied := false |})
  else
    let lower := to_lowercase user_text in
    let explicit_mode := explicit_reasoning_mode lower in
    let mode := match explicit_mode with Some m => m | None => auto_reasoning_mode lower interaction end in
    let explicit := match explicit_mode with Some _ => true | None => false end in
    let cleaned_user_text := strip_reasoning_directives user_text in
    match last_user messages with
    | None => (messages, {| rd_mode := mode; rd_explicit := explicit; rd_applied := false |})
    | Some i =>
        let adjust (m : Message) :=
          let base := if is_empty (trim cleaned_user_text) then trim (content m) else trim cleaned_user_text in
          {| role := role m; content := marked_text base mode |} in
        (alter adjust i messages, {| rd_mode := mode; rd_explicit := explicit; rd_applied := true |})
    end.
