(* ===== verification/Dispatch.v ===== *)
(** * The tool dispatcher ([tools/dispatch/mod.rs])

    One chokepoint for every tool call: the gate (access lists, two-step
    confirmation, rate limit), the routing to the tool bodies, and one line of
    the tool audit per call.  The bodies this development models are called
    directly; the others are the operation [other_tool] of a class, which sees
    only the outside world. *)

From S2P Require Import Prelude RustStr RustNum Json HomeTypes HomeAction HomePolicy HomeControl Confirmations Ledger RateLimit ToolGate Calc Timer MemoryPolicy DispatchHome Scripted.
Local Open Scope string_scope.
Local Open Scope list_scope.
Local Open Scope rust_scope.

Module GateDecision.

Inductive t : Set :=
| Executed | Error | DeniedPolicy | RateLimited | PendingConfirmation | ConfirmationExpired.

Definition as_str (d : t) : string :=
  match d with
  | Executed => "executed" | Error => "error" | DeniedPolicy => "denied_policy"
  | RateLimited => "rate_limited" | PendingConfirmation => "pending_confirmation"
  | ConfirmationExpired => "confirmation_expired"
  end.

End GateDecision.

Definition tool_action_class (name : string) : ToolActionClass :=
  let one_of := existsb (String.eqb name) in
  if one_of ["home_control"; "home_undo"] then HomeActuation
  else if one_of ["play_media"] then Media
  else if one_of ["memory_recall"] then MemoryRead
  else if one_of ["memory_forget"; "memory_store"] then MemoryWrite
  else if one_of ["memory_status"; "system_info"; "action_history"] then Diagnostic
  else if one_of ["web_search"; "get_weather"] then Network
  else if one_of ["set_timer"] then TimerClass
  else if one_of ["home_status"; "get_time"; "calculate"] then ReadOnly
  else Skill.

Definition BASE_TOOLS : list string :=
  ["set_timer"; "get_time"; "get_weather"; "system_info"; "calculate"; "play_media";
   "memory_recall"; "memory_status"; "memory_forget"; "memory_store"].
Definition HOME_TOOLS : list string := ["home_control"; "home_status"; "home_undo"; "action_history"].

Definition skill_tool_name_loaded (cfg : DispatcherConfig) (name : string) : bool :=
  match loaded_skills cfg with
  | Some skills => existsb (fun skill => String.eqb skill name) skills
  | None => false
  end.

Definition is_known_tool (cfg : DispatcherConfig) (name : string) : bool :=
  if existsb (String.eqb name) BASE_TOOLS then true
  else if has_home_automation cfg && existsb (String.eqb name) HOME_TOOLS then true
  else if has_web_search cfg && String.eqb name "web_search" then true
  else skill_tool_name_loaded cfg name.

(** The names of [tool_defs()], in its order. *)
Definition tool_def_names (cfg : DispatcherConfig) : list string :=
  (if has_home_automation cfg then HOME_TOOLS else []) ++
  ["set_timer"; "get_time"; "get_weather"] ++
  (if has_web_search cfg then ["web_search"] else []) ++
  ["system_info"; "calculate"; "play_media"] ++
  ["memory_recall"; "memory_status"; "memory_forget"; "memory_store"] ++
  match loaded_skills cfg with Some skills => skills | None => [] end.

(** Keys in byte order. *)
Fixpoint insert_key (k : string) (l : list string) : list string :=
  match l with
  | [] => [k]
  | k' :: l' => if String.leb k k' then k :: l else k' :: insert_key k l'
  end.
Definition tool_argument_keys (args : value) : list string :=
  match as_object args with
  | Some fields => foldr insert_key [] (fst <$> fields)
  | None => []
  end.

(** What the dispatcher calls and this development does not model. *)
Class ToolBodies (W : Type) := {
  elapsed_ms : W -> N * W;
  other_tool : string -> value -> ToolExecutionContext -> W -> result string string * W;
}.

Section dispatch.
Context {W : Type} `{Ops : World W} `{TB : ToolBodies W} `{HO : HashOrder} `{U : Unicode}
  `{SD : Serde} `{DH : DefaultHasher} `{FT : FloatText}.
Context (cfg : DispatcherConfig).
Notation D := (Dispatcher W).

Definition audit_gate_decision (call : ToolCall) (ctx : ToolExecutionContext) (res : ToolResult)
    (decision : GateDecision.t) : M D unit :=
  fun s =>
    let '(now, s) := on_world now_ms s in
    let '(elapsed, s) := on_world elapsed_ms s in
    (tt, push_tool_audit {|
           te_ts_ms := now; te_tool := call_name call; te_action_class := result_class res;
           te_origin := request_origin ctx; te_success := tool_success res;
           te_decision := GateDecision.as_str decision; te_duration_ms := elapsed;
           te_argument_keys := tool_argument_keys (call_arguments call);
           te_output_chars := length (chars (tool_output res)) |} s).

Definition result_of (call : ToolCall) (success : bool) (output : string) : ToolResult :=
  {| result_tool := call_name call; result_class := tool_action_class (call_name call);
     tool_success := success; tool_output := output |}.

(** An audited refusal. *)
Definition reject (call : ToolCall) (ctx : ToolExecutionContext) (success : bool) (output : string)
    (decision : GateDecision.t) : M D (option ToolResult) :=
  let res := result_of call success output in
  let! _ := audit_gate_decision call ctx res decision in
  ret (Some res).

Definition run_gate (call : ToolCall) (ctx : ToolExecutionContext) : M D (option ToolResult) :=
  let policy := cfg_tool_policy cfg in
  let name := call_name call in
  let ttl_text := show_N (confirmation_ttl_secs policy) in
  match tool_origin_allowed policy (request_origin ctx) name with
  | Err err => reject call ctx false ("Tool blocked by origin policy: " +:+ err) GateDecision.DeniedPolicy
  | Ok _ =>
      let! decision :=
        (if tool_requires_confirmation policy name then
           on_tool_gate (ToolGate.evaluate (request_origin ctx) name (call_arguments call)
             (u64_saturate (confirmation_ttl_secs policy * 1000)) (ctx_confirmed ctx))
         else ret Confirmed) in
      match decision with
      | Pending token =>
          reject call ctx true
            ("Confirmation required before I run '" +:+ name +:+
             "'. Re-issue the same request within " +:+ ttl_text +:+
             "s to proceed (confirmation token " +:+ token +:+ ").") GateDecision.PendingConfirmation
      | Expired =>
          reject call ctx false
            ("Confirmation for '" +:+ name +:+ "' expired or was never requested; the " +:+ ttl_text +:+
             "s window elapsed. Request it again to restart confirmation.") GateDecision.ConfirmationExpired
      | Confirmed =>
          let! limited :=
            (if ctx_confirmed ctx then ret (Ok tt) else on_tool_limiter (tool_check_and_record policy name)) in
          match limited with
          | Err err => reject call ctx false ("Tool blocked by rate limit: " +:+ err) GateDecision.RateLimited
          | Ok _ => ret None
          end
      end
  end.

(** The routing of [execute_with_context]. *)
Definition run_body (call : ToolCall) (ctx : ToolExecutionContext) : M D (result string string) :=
  let name := call_name call in
  let args := call_arguments call in
  if String.eqb name "home_control" then exec_home_control cfg args ctx
  else if String.eqb name "home_status" then exec_home_status cfg args
  else if String.eqb name "home_undo" then exec_home_undo cfg ctx
  else if String.eqb name "action_history" then let! out := exec_action_history in ret (Ok out)
  else if String.eqb name "set_timer" then on_timers (exec_set_timer args)
  else if String.eqb name "calculate" then ret (exec_calculate_text args)
  else on_world (other_tool name args ctx).

Definition execute_with_context (call : ToolCall) (ctx : ToolExecutionContext) : M D ToolResult :=
  let! gate := run_gate call ctx in
  match gate with
  | Some rejected => ret rejected
  | None =>
      let! r := run_body call ctx in
      let res := match r with
                 | Ok output => result_of call true output
                 | Err e => result_of call false e
                 end in
      let! _ := audit_gate_decision call ctx res (if tool_success res then GateDecision.Executed else GateDecision.Error) in
      ret res
  end.

Definition execute (call : ToolCall) : M D ToolResult := execute_with_context call default_context.

(** The entry points of callers that render their own output. *)
Definition gate_tool_call (call : ToolCall) (ctx : ToolExecutionContext) : M D (option ToolResult) :=
  run_gate call ctx.
Definition audit_gated_tool (call : ToolCall) (ctx : ToolExecutionContext) (success : bool)
    (output : string) : M D unit :=
  audit_gate_decision call ctx (result_of call success output)
    (if success then GateDecision.Executed else GateDecision.Error).

(** The call a confirmed item is replayed as. *)
Definition confirmed_call (p : PendingConfirmation) : ToolCall :=
  {| call_name := "home_control";
     call_arguments := Object [("entity", Str (pc_entity p)); ("action", Str (pc_action p));
                               ("value", json_opt_f64 (pc_value p))] |}.
Definition confirmed_context (p : PendingConfirmation) : ToolExecutionContext :=
  {| memory_read_context := None; request_origin := pc_requested_by p; ctx_confirmed := true |}.

Definition confirm_pending_home_action (token : string) : M D (result string string) :=
  let! pending := on_confirmations (confirm token) in
  match pending with
  | None => ret (Err "unknown or expired confirmation token")
  | Some p =>
      let! res := execute_with_context (confirmed_call p) (confirmed_context p) in
      ret (if tool_success res then Ok (tool_output res) else Err (tool_output res))
  end.

End dispatch.

(** ** What the gate and the bodies do to the state *)

(** Everything but the outside world and the gate's own tables. *)
Record gate_quiet {W} (s s' : Dispatcher W) : Prop := {
  gq_executed : executed (env s') = executed (env s);
  gq_confirmations : confirmations s' = confirmations s;
  gq_ledger : action_ledger s' = action_ledger s;
  gq_actuation : actuation_attempts s' = actuation_attempts s;
  gq_timers : timers s' = timers s;
  gq_audit : audit_log s' = audit_log s;
}.

#[export] Instance gate_quiet_preorder {W} : PreOrder (@gate_quiet W).
Proof. split; [done|]. intros s1 s2 s3 [] []. split; congruence. Qed.

Section effects.
Context {W : Type} `{Ops : World W} `{TB : ToolBodies W} `{HO : HashOrder} `{U : Unicode}
  `{SD : Serde} `{DH : DefaultHasher} `{FT : FloatText}.
Context (cfg : DispatcherConfig).
Notation D := (Dispatcher W).

(** The line a decision leaves. *)
Definition tool_line (call : ToolCall) (ctx : ToolExecutionContext) (res : ToolResult)
    (d : GateDecision.t) (ev : ToolAuditEvent) : Prop :=
  te_tool ev = call_name call /\ te_origin ev = request_origin ctx /\
  te_success ev = tool_success res /\ te_decision ev = GateDecision.as_str d /\
  te_output_chars ev = length (chars (tool_output res)).

Lemma audit_gate_run call ctx res d (s : D) :
  exists s' ev, audit_gate_decision call ctx res d s = (tt, s') /\ gate_quiet s s' /\
    tool_attempts s' = tool_attempts s /\ tool_confirmations s' = tool_confirmations s /\
    tool_audit_log s' = tool_audit_log s ++ [ev] /\ tool_line call ctx res d ev.
Proof.
  unfold audit_gate_decision, on_world. destruct (now_ms _) as [now w].
  cbn [env set_world set_env outside]. destruct (elapsed_ms w) as [el w2].
  eexists _, _. by split_and!.
Qed.

Lemma reject_run call ctx success output d (s : D) r s' :
  reject call ctx success output d s = (r, s') ->
  gate_quiet s s' /\ r = Some (result_of call success output) /\
  exists ev, tool_audit_log s' = tool_audit_log s ++ [ev] /\
    tool_line call ctx (result_of call success output) d ev.
Proof.
  unfold reject, bind, ret.
  destruct (audit_gate_run call ctx (result_of call success output) d s) as (s1 & ev & -> & Hq & _ & _ & Ht & Hl).
  intros [= <- <-]. split_and!; [done|done|]. by exists ev.
Qed.

(** The decisions that refuse. *)
Definition refusal (d : GateDecision.t) : bool :=
  match d with GateDecision.Executed | GateDecision.Error => false | _ => true end.

(** What a passed gate has checked. *)
Definition passed (call : ToolCall) (ctx : ToolExecutionContext) (s s' : D) : Prop :=
  is_ok (tool_origin_allowed (cfg_tool_policy cfg) (request_origin ctx) (call_name call)) = true /\
  (tool_requires_confirmation (cfg_tool_policy cfg) (call_name call) = true ->
   ctx_confirmed ctx = true /\
   exists now m', evaluate_at now
     (tool_confirmation_key (request_origin ctx) (call_name call) (call_arguments call))
     (u64_saturate (confirmation_ttl_secs (cfg_tool_policy cfg) * 1000)) true (tool_confirmations s)
     = (Confirmed, m')) /\
  (ctx_confirmed ctx = false ->
   exists w w', tool_check_and_record (cfg_tool_policy cfg) (call_name call) (w, tool_attempts s)
     = (Ok tt, (w', tool_attempts s'))).

Lemma on_tool_gate_run og name args ttl confirmed (s : D) d s1 :
  on_tool_gate (ToolGate.evaluate og name args ttl confirmed) s = (d, s1) ->
  gate_quiet s s1 /\ tool_attempts s1 = tool_attempts s /\ tool_audit_log s1 = tool_audit_log s /\
  exists now, evaluate_at now (tool_confirmation_key og name args) ttl confirmed (tool_confirmations s)
              = (d, tool_confirmations s1).
Proof.
  unfold on_tool_gate, ToolGate.evaluate. destruct (now_ms _) as [now w].
  destruct (evaluate_at _ _ _ _ _) as [d' m'] eqn:E. intros [= <- <-]. split_and!; try done. by exists now.
Qed.

Lemma on_tool_limiter_run name (s : D) r s1 :
  on_tool_limiter (tool_check_and_record (cfg_tool_policy cfg) name) s = (r, s1) ->
  gate_quiet s s1 /\ tool_audit_log s1 = tool_audit_log s /\
  exists w w', tool_check_and_record (cfg_tool_policy cfg) name (w, tool_attempts s)
               = (r, (w', tool_attempts s1)).
Proof.
  unfold on_tool_limiter. destruct (tool_check_and_record _ _ _) as [o [w x]] eqn:E.
  intros [= <- <-]. split_and!; try done. by eexists _, _.
Qed.

Lemma first_leg_pending now key ttl (m : gmap string N) :
  exists token m', evaluate_at now key ttl false m = (Pending token, m').
Proof. by eexists _, _. Qed.

Lemma run_gate_effect call ctx (s : D) o s' :
  run_gate cfg call ctx s = (o, s') ->
  gate_quiet s s' /\
  match o with
  | None => tool_audit_log s' = tool_audit_log s /\ passed call ctx s s'
  | Some res =>
      exists ev d, tool_audit_log s' = tool_audit_log s ++ [ev] /\ tool_line call ctx res d ev /\
                   refusal d = true
  end.
Proof.
  assert (forall s1 ok out d, refusal d = true -> gate_quiet s s1 -> tool_audit_log s1 = tool_audit_log s ->
    reject call ctx ok out d s1 = (o, s') -> gate_quiet s s' /\
      match o with
      | None => tool_audit_log s' = tool_audit_log s /\ passed call ctx s s'
      | Some res => exists ev d, tool_audit_log s' = tool_audit_log s ++ [ev] /\
          tool_line call ctx res d ev /\ refusal d = true
      end) as Hrej.
  { intros s1 ok out d Hd Hq Ht H. apply reject_run in H as (Hq' & -> & ev & Hev & Hl).
    split; [by etrans|]. exists ev, d. by rewrite <- Ht. }
  unfold run_gate. destruct (tool_origin_allowed _ _ _) as [u|e] eqn:Hacl; [|by apply Hrej].
  unfold bind at 1.
  destruct (tool_requires_confirmation _ _) eqn:Hreq.
  - destruct (on_tool_gate _ s) as [d s1] eqn:Hg.
    apply on_tool_gate_run in Hg as (Hq & Hta & Htl & now & Hev).
    destruct d as [token| |]; [by apply Hrej| |by apply Hrej].
    destruct (ctx_confirmed ctx) eqn:Hc; [|by destruct (first_leg_pending now
      (tool_confirmation_key (request_origin ctx) (call_name call) (call_arguments call))
      (u64_saturate (confirmation_ttl_secs (cfg_tool_policy cfg) * 1000)) (tool_confirmations s)) as (? & ? & ?);
      congruence].
    unfold bind, ret. intros [= <- <-]. split; [done|]. split; [done|].
    split_and!; [by rewrite Hacl|intros _; split; [done|by eexists _, _]|congruence].
  - unfold ret at 1. cbn iota beta. unfold bind at 1. destruct (ctx_confirmed ctx) eqn:Hc.
    + unfold ret. intros [= <- <-]. split; [done|]. split; [done|].
      split_and!; [by rewrite Hacl|congruence|congruence].
    + destruct (on_tool_limiter _ s) as [lim s1] eqn:Hl.
      apply on_tool_limiter_run in Hl as (Hq & Htl & w & w' & Hr).
      destruct lim as [u'|e]; [|by apply Hrej].
      unfold ret. intros [= <- <-]. split; [done|]. split; [done|].
      split_and!; [by rewrite Hacl|congruence|intros _]. destruct u'. by exists w, w'.
Qed.

(** A body that hands one action to the provider is a home tool. *)
Definition body_ran_one (call : ToolCall) (ctx : ToolExecutionContext) (s s' : D)
    (r : result string string) (a : HomeAction) : Prop :=
  exists undo_of r0,
    ran_one cfg (request_origin ctx) (ctx_confirmed ctx) undo_of s s' r0 a /\ is_ok r0 = is_ok r /\
    match undo_of with
    | None => call_name call = "home_control"
    | Some i => call_name call = "home_undo" /\
                exists item, last_undoable (action_ledger s) = Some item /\ ra_id item = i
    end.

Lemma ran_none_refl (s s' : D) :
  executed (env s') = executed (env s) -> action_ledger s' = action_ledger s ->
  audit_log s' = audit_log s -> ran_none s s'.
Proof. intros. split_and!; auto. Qed.

Lemma status_keeps q (e : Env W) r e' : status q e = (r, e') -> executed e' = executed e.
Proof.
  unfold status, ebind, world_call, ret. destruct (ha_resolve_target _ _ _) as [[t|x] w]; [|by intros [= <- <-]].
  cbn [outside]. destruct (ha_get_state t w) as [[st|x] w']; by intros [= <- <-].
Qed.

Lemma body_effect call ctx (s : D) r s' :
  run_body cfg call ctx s = (r, s') ->
  tool_audit_log s' = tool_audit_log s /\
  (ran_none s s' \/ exists a, body_ran_one call ctx s s' r a).
Proof.
  unfold run_body. destruct (String.eqb_spec (call_name call) "home_control") as [Hn|_].
  { intros H. apply inner_effect in H as [(Ht & _) [H|[a H]]]; (split; [done|]); [by left|right].
    exists a, None, r. done. }
  destruct (String.eqb_spec (call_name call) "home_status") as [_|_].
  { unfold exec_home_status. destruct (has_home_automation cfg); cbn [negb];
      [|unfold ret; intros [= <- <-]; split; [done|left; by apply ran_none_refl]].
    destruct (parse_home_status_args _); [|unfold ret; intros [= <- <-]; split; [done|left; by apply ran_none_refl]].
    unfold bind, on_env. destruct (resolve_device_alias _ _ _) as [q s1] eqn:Hr.
    apply keeps_resolve_device_alias in Hr as []. destruct (status q _) as [o e] eqn:Hs.
    apply status_keeps in Hs. intros [= <- <-]. cbn. split; [done|left].
    apply ran_none_refl; cbn; congruence. }
  destruct (String.eqb_spec (call_name call) "home_undo") as [Hn|_].
  { intros H. apply undo_effect in H as [[-> _]|(item & args & r0 & Hl & _ & H & ->)].
    - split; [done|left; by apply ran_none_refl].
    - apply inner_effect in H as [(Ht & _) [H|[a H]]]; (split; [done|]); [by left|right].
      exists a, (Some (ra_id item)), r0. split_and!; [done|by destruct r0|done|by exists item]. }
  destruct (String.eqb _ "action_history").
  { unfold exec_action_history, bind, pending_confirmations, on_confirmations.
    destruct (list_pending _) as [l [w c]]. destruct (recent_home_actions _), l; unfold ret;
      intros [= <- <-]; (split; [done|left; by apply ran_none_refl]). }
  destruct (String.eqb _ "set_timer").
  { unfold on_timers. destruct (exec_set_timer _ _) as [o [w l]]. intros [= <- <-].
    split; [done|left; by apply ran_none_refl]. }
  destruct (String.eqb _ "calculate").
  { unfold ret. intros [= <- <-]. split; [done|left; by apply ran_none_refl]. }
  unfold on_world. destruct (other_tool _ _ _ _) as [o w]. intros [= <- <-].
  split; [done|left; by apply ran_none_refl].
Qed.

(** One call, end to end. *)
Lemma execute_effect call ctx (s : D) res s' :
  execute_with_context cfg call ctx s = (res, s') ->
  exists ev d,
    tool_audit_log s' = tool_audit_log s ++ [ev] /\ tool_line call ctx res d ev /\
    (refusal d = true /\ gate_quiet s s' \/
     refusal d = false /\ d = (if tool_success res then GateDecision.Executed else GateDecision.Error) /\
     exists s1 s2 r, gate_quiet s s1 /\ passed call ctx s s1 /\ run_body cfg call ctx s1 = (r, s2) /\
       gate_quiet s2 s' /\ is_ok r = tool_success res).
Proof.
  unfold execute_with_context. unfold bind at 1.
  destruct (run_gate cfg call ctx s) as [gate s1] eqn:Hg.
  apply run_gate_effect in Hg as [Hq Hgate]. destruct gate as [rejected|].
  - unfold ret. intros [= <- <-]. destruct Hgate as (ev & d & Ht & Hl & Hd). exists ev, d. auto.
  - destruct Hgate as [Ht Hp]. unfold bind at 1. destruct (run_body cfg call ctx s1) as [r s2] eqn:Hb.
    pose proof (body_effect _ _ _ _ _ Hb) as [Htb _]. unfold bind.
    set (out := match r with Ok output => result_of call true output | Err e => result_of call false e end).
    destruct (audit_gate_run call ctx out (if tool_success out then GateDecision.Executed else GateDecision.Error) s2)
      as (s3 & ev & -> & Hq3 & _ & _ & Ht3 & Hl3).
    unfold ret. intros [= <- <-]. exists ev, (if tool_success out then GateDecision.Executed else GateDecision.Error).
    split_and!; [by rewrite Ht3, Htb, Ht|done|right]. split_and!; [by destruct (tool_success out)|done|].
    exists s1, s2, r. split_and!; try done. by destruct r.
Qed.

End effects.

