(* ===== verification/QuickSafety.v ===== *)
(** * What the quick router hands to the dispatcher

    The router and the dispatcher are written apart: the router builds the JSON
    arguments of a call, the dispatcher's readers take them apart again.  Here
    the one is shown to produce what the other accepts, and only tools that the
    configuration has. *)

From S2P Require Import Prelude RustStr RustNum Json NumberWords CalcInput HomeTypes HomeAction Timer Calc RateLimit ToolGate DispatchHome Dispatch QuickTables QuickTimer QuickRoute.
From Stdlib Require Import Ascii String.
Local Open Scope string_scope.
Local Open Scope list_scope.
Local Open Scope rust_scope.

(** ** Texts that are not blank *)

Definition printed (s : string) : Prop := trim s <> "".

Lemma drop_while_nil {A} (p : A -> bool) l : drop_while p l = [] <-> Forall (fun x => p x = true) l.
Proof.
  split; intros H.
  - rewrite <- (take_drop_while p l), H, app_nil_r. clear H. induction l as [|x l IH]; cbn; [done|].
    destruct (p x) eqn:E; auto.
  - rewrite <- (app_nil_r l). by rewrite drop_while_all.
Qed.

Lemma concat_empty l : concat_str l = "" -> Forall (fun c => c = "") l.
Proof.
  induction l as [|c l IH]; [done|]. rewrite concat_str_cons. intros H. destruct c; [|done]. constructor; auto.
Qed.

Lemma trim_blank s : trim s = "" <-> Forall (fun c => is_whitespace c = true) (chars s).
Proof.
  split.
  - unfold trim. intros H%concat_empty. apply Forall_reverse in H. rewrite reverse_involutive in H.
    set (t := drop_while is_whitespace (chars s)) in *.
    assert (drop_while is_whitespace (reverse t) = []) as Hn.
    { destruct (drop_while is_whitespace (reverse t)) as [|c l] eqn:E; [done|exfalso].
      apply Forall_cons in H as [-> _]. apply (chars_nonempty s ""); [|done].
      destruct (drop_while_suffix is_whitespace (chars s)) as [k ->]. fold t. apply elem_of_app; right.
      apply elem_of_reverse. destruct (drop_while_suffix is_whitespace (reverse t)) as [k' ->]. rewrite E. set_solver. }
    apply drop_while_nil, Forall_reverse in Hn. rewrite reverse_involutive in Hn.
    destruct t as [|c l] eqn:Et; [by apply drop_while_nil|].
    apply drop_while_hd in Et. apply Forall_cons in Hn as [Hc _]. congruence.
  - intros H%drop_while_nil. unfold trim. by rewrite H.
Qed.

Lemma printed_char s c : c ∈ chars s -> is_whitespace c = false -> printed s.
Proof. intros Hc Hw Hb. apply trim_blank in Hb. rewrite Forall_forall in Hb. specialize (Hb _ Hc). congruence. Qed.

(** A byte that is a letter or a digit is in a character that is printed. *)

Lemma byte_in_chars a s : a ∈ bytes s -> byte_is_cont a = false -> exists c, String a c ∈ chars s.
Proof.
  intros Ha Hc. induction s as [|b s IH]; cbn [bytes chars] in *; [set_solver|].
  apply elem_of_cons in Ha as [->|Ha].
  - destruct (chars s) as [|[|d e] cs]; [exists ""|exists ""|destruct (byte_is_cont d); [exists (String d e)|exists ""]]; set_solver.
  - destruct (IH Ha) as [c H]. destruct (chars s) as [|[|d e] cs]; [set_solver|exists c; set_solver|].
    destruct (byte_is_cont d) eqn:Ed; [|exists c; set_solver].
    apply elem_of_cons in H as [[= -> ->]|H]; [congruence|exists c; set_solver].
Qed.

Lemma alnum_starts a :
  is_ascii_alphanumeric a = true ->
  (negb (byte_is_cont a) && forallb (fun w => negb (starts_with w (char_of a))) whitespace_chars) = true.
Proof.
  apply (byte_forall2 is_ascii_alphanumeric
    (fun a => negb (byte_is_cont a) && forallb (fun w => negb (starts_with w (char_of a))) whitespace_chars)).
  by vm_compute.
Qed.

Definition lettered (s : string) : bool := sexists is_ascii_alphanumeric s.

Lemma lettered_printed s : lettered s = true -> printed s.
Proof.
  intros H. assert (exists a, a ∈ bytes s /\ is_ascii_alphanumeric a = true) as (a & Ha & Hn).
  { induction s as [|a s IH]; [done|]. unfold lettered in *. cbn [sexists bytes] in *.
    apply orb_true_iff in H as [H|H]; [exists a; set_solver|]. destruct (IH H) as (b & ? & ?). exists b; set_solver. }
  apply alnum_starts in Hn. apply andb_true_iff in Hn as [Hc Hw]. apply negb_true_iff in Hc.
  destruct (byte_in_chars _ _ Ha Hc) as [c Hin]. apply (printed_char _ _ Hin).
  apply not_true_iff_false. unfold is_whitespace. rewrite eqb_elem. intros Hm.
  rewrite forallb_elem in Hw. specialize (Hw _ Hm). cbn [starts_with char_of] in Hw. by rewrite Ascii.eqb_refl in Hw.
Qed.

Lemma sexists_app p s t : sexists p (s +:+ t) = sexists p s || sexists p t.
Proof. induction s as [|a s IH]; [done|]. rewrite sapp_cons. cbn [sexists]. rewrite IH. apply orb_assoc. Qed.

Lemma lettered_contains s p : contains s p = true -> lettered p = true -> lettered s = true.
Proof.
  unfold lettered. rewrite contains_spec. intros (l & r & ->) H. rewrite !sexists_app, H. by rewrite orb_true_r.
Qed.

Lemma contains_any_lettered s l : forallb lettered l = true -> contains_any s l = true -> lettered s = true.
Proof.
  unfold contains_any. rewrite forallb_elem, existsb_elem. intros Hl (p & Hp & Hc).
  eapply lettered_contains; [done|]. auto.
Qed.

(** A word of a text is part of it. *)
Lemma words_of_contains cur cs w : w ∈ words_of cur cs -> contains (cur +:+ concat_str cs) w = true.
Proof.
  revert cur. induction cs as [|c cs IH]; intros cur; cbn [words_of].
  - destruct (is_empty cur); [set_solver|]. intros ->%list_elem_of_singleton.
    apply contains_spec. exists "", "". cbn. by rewrite !sapp_nil_r.
  - rewrite concat_str_cons. destruct (is_whitespace c).
    + assert (w ∈ words_of "" cs -> contains (cur +:+ c +:+ concat_str cs) w = true) as H.
      { intros H%IH. by apply contains_app_r, contains_app_r. }
      destruct (is_empty cur); [done|]. intros [->|?]%elem_of_cons; [|by apply H].
      apply contains_app_l, contains_spec. exists "", "". by rewrite sapp_nil_r.
    + intros H%IH. by rewrite <- sapp_assoc in H.
Qed.

Lemma names_word_lettered s l : forallb lettered l = true -> names_word s l = true -> lettered s = true.
Proof.
  unfold names_word, is_one_of. rewrite forallb_elem, existsb_elem. intros Hl (w & Hw & Hin).
  apply eqb_elem in Hin. apply words_of_contains in Hw. rewrite sapp_nil_l, concat_chars in Hw.
  eapply lettered_contains; [done|]. auto.
Qed.

Lemma is_one_of_lettered s l : forallb lettered l = true -> is_one_of s l = true -> lettered s = true.
Proof. unfold is_one_of. rewrite forallb_elem, eqb_elem. auto. Qed.

Lemma ends_any_lettered s l : forallb lettered l = true -> existsb (ends_with s) l = true -> lettered s = true.
Proof.
  rewrite forallb_elem, existsb_elem. intros Hl (p & Hp & [t ->]%ends_with_spec).
  unfold lettered in *. rewrite sexists_app, (Hl _ Hp). by rewrite orb_true_r.
Qed.

(** What a trim leaves is trimmed; a part of it at the end is not blank. *)
Lemma trimmed_printed s : trim s <> "" -> printed (trim s).
Proof. unfold printed. by rewrite trim_idem. Qed.

Lemma whitespace_starts_char c s : is_whitespace c = true -> starts_char (c +:+ s) = true.
Proof.
  unfold is_whitespace. rewrite eqb_elem. intros H.
  assert (Forall (fun c => forall s, starts_char (c +:+ s) = true) whitespace_chars) as Hf.
  { unfold whitespace_chars. cbn [fmap list_fmap]. repeat (constructor; [intros; reflexivity|]). constructor. }
  rewrite Forall_forall in Hf. by apply Hf.
Qed.

Lemma trimmed_tail p r : trim (p +:+ r) = p +:+ r -> r <> "" -> printed r.
Proof.
  intros Ht Hne Hb%trim_blank. pose proof (concat_chars r) as Hr.
  destruct (chars r) as [|c cs] eqn:Ec; [by rewrite <- Hr in Hne|].
  assert (starts_char r = true) as Hs.
  { rewrite <- Hr, concat_str_cons. apply whitespace_starts_char. by apply Forall_cons in Hb as [? _]. }
  pose proof (chars_trim (p +:+ r)) as Hc. rewrite Ht, chars_app, Ec in Hc by done.
  apply (f_equal reverse) in Hc. rewrite reverse_involutive, reverse_app in Hc.
  apply Forall_reverse in Hb. destruct (reverse (c :: cs)) as [|d ds] eqn:Ed.
  { apply (f_equal reverse) in Ed. by rewrite reverse_involutive in Ed. }
  symmetry in Hc. rewrite <- app_comm_cons in Hc. apply drop_while_hd in Hc.
  apply Forall_cons in Hb as [Hd _]. congruence.
Qed.

(** ** The readers of the dispatcher *)

(** What the dispatcher's readers make of a call's arguments; the tools whose
    arguments it does not read itself accept any. *)
Definition arguments_read `{U : Unicode} (call : ToolCall) : bool :=
  let args := call_arguments call in
  if String.eqb (call_name call) "home_control" then is_ok (parse_home_control_args args)
  else if String.eqb (call_name call) "home_status" then is_ok (parse_home_status_args args)
  else if String.eqb (call_name call) "set_timer" then is_ok (parse_set_timer_args args)
  else if String.eqb (call_name call) "calculate" then is_ok (parse_calculate_expression args)
  else true.

Definition QUICK_TOOLS : list string :=
  ["home_undo"; "action_history"; "memory_status"; "memory_store"; "set_timer"; "home_control"; "get_weather";
   "home_status"; "memory_forget"; "memory_recall"; "system_info"; "web_search"; "play_media"; "calculate"; "get_time"].

(** A request for a device: a name that is printed, a finite value, and a value
    where the verb needs one. *)
Definition control_ok `{U : Unicode} (r : string * string * option f64) : bool :=
  negb (is_empty (trim r.1.1)) &&
  match r.2 with
  | Some v => fl_is_finite v
  | None => match canonicalize_household_action r.1.2 None with
            | Some (a, _) => negb (action_requires_value a) | None => true end
  end.

Section accepted.
Context `{U : Unicode}.

Definition acceptable (call : ToolCall) : Prop := call_name call ∈ QUICK_TOOLS /\ arguments_read call = true.

Lemma printed_trimmed s : printed s -> trimmed_nonempty (Some s) = Some (trim s).
Proof. unfold printed, trimmed_nonempty. by destruct (trim s). Qed.

Lemma canonical_again a : a ∈ HOME_CONTROL_ACTIONS -> canon_home_control_action a = Some a.
Proof.
  intros H. destruct (control_action_fixed _ H) as (Hm & Hs & _). unfold canon_home_control_action. by rewrite Hs.
Qed.

Lemma canonicalized a v a' v' :
  canonicalize_household_action a v = Some (a', v') -> a' ∈ HOME_CONTROL_ACTIONS /\ v' = v.
Proof.
  unfold canonicalize_household_action, canon_home_control_action. intros H. split.
  - repeat case_match; simplify_eq; try (by eapply map_synonym_sound); unfold HOME_CONTROL_ACTIONS; set_solver.
  - repeat case_match; by simplify_eq.
Qed.

Lemma canonicalized_verb a v w :
  fst <$> canonicalize_household_action a v = fst <$> canonicalize_household_action a w.
Proof. unfold canonicalize_household_action. by repeat case_match. Qed.

Lemma value_argument_read action v :
  fl_is_finite v = true -> exists x, as_f64 (home_control_value_argument action v) = Some x /\
    home_control_value_argument action v <> Null.
Proof.
  intros Hv. unfold home_control_value_argument. destruct (_ && _).
  - unfold json_i64. destruct (_ <? _)%Z; eauto.
  - unfold json_f64. rewrite Hv. eauto.
Qed.

Lemma control_call_acceptable r call :
  control_ok r = true -> home_control_call (Some r) = Some call -> acceptable call.
Proof.
  destruct r as [[entity action] v]. unfold control_ok, home_control_call. cbn [fst snd mbind option_bind].
  rewrite andb_true_iff, negb_true_iff. intros [Hp Hv] H. apply bind_Some in H as ([a v'] & Hc & [= <-]).
  pose proof (canonicalized _ _ _ _ Hc) as [Ha ->]. split; [cbn; set_solver|].
  unfold arguments_read, parse_home_control_args. cbn [tool call_name call_arguments].
  change (get_str _ "entity") with (Some entity). change (get_str _ "action") with (Some a).
  rewrite printed_trimmed by (intros E; by rewrite E in Hp). cbn [ok_or rbind].
  rewrite canonical_again by done. cbn [ok_or rbind]. destruct v as [v|].
  - destruct (value_argument_read a v Hv) as (x & Hx & Hn).
    change (Json.get _ "value") with (Some (home_control_value_argument a v)).
    destruct (home_control_value_argument a v); try discriminate Hx; cbv beta iota; rewrite Hx; reflexivity.
  - change (Json.get _ "value") with (@None value). rewrite Hc in Hv. cbn [rbind].
    apply negb_true_iff in Hv. by rewrite Hv.
Qed.

Lemma status_call_acceptable entity : printed entity -> acceptable (status_call entity).
Proof.
  intros H. split; [cbn; set_solver|]. unfold arguments_read, status_call, parse_home_status_args. cbn [tool call_name call_arguments].
  change (get_str _ "entity") with (Some entity). by rewrite printed_trimmed.
Qed.

Lemma timer_call_acceptable seconds label : seconds <> 0%N -> acceptable (timer_call (seconds, label)).
Proof.
  intros H%N.eqb_neq. split; [cbn; set_solver|].
  unfold arguments_read, timer_call, parse_set_timer_args, parse_set_timer_label, parse_positive_integer_seconds.
  cbn. by rewrite H.
Qed.

Lemma calculate_acceptable expression :
  printed expression -> acceptable (tool "calculate" [("expression", Str expression)]).
Proof.
  intros H. split; [cbn; set_solver|]. unfold arguments_read, parse_calculate_expression. cbn [tool call_name call_arguments].
  change (get_str _ "expression") with (Some expression). by rewrite printed_trimmed.
Qed.

(** ** The recognisers *)

Context `{!UnicodeLaws U}.

(** On a verb in ASCII the tables of Unicode do not matter. *)
Lemma ascii_canonicalize a v :
  is_ascii (trim a) = true ->
  canonicalize_household_action a v = @canonicalize_household_action ascii_tables a v.
Proof.
  intros H. unfold canonicalize_household_action, canon_home_control_action, normalize_action.
  by rewrite to_lowercase_ascii by done.
Qed.

Lemma control_ok_ascii r :
  (is_ascii (trim r.1.2) && @control_ok ascii_tables r) = true -> control_ok r = true.
Proof. intros [Ha H]%andb_true_iff. unfold control_ok. by rewrite ascii_canonicalize. Qed.

Ltac constant_rules :=
  cbn [fmap list_fmap snd app];
  repeat (apply Forall_cons; split; [apply control_ok_ascii; vm_compute; reflexivity|]); apply Forall_nil_2.

Lemma priority_rules_ok text :
  Forall (fun r => control_ok r = true)
    (priority_rules_1 text ++ priority_rules_2 text ++ priority_rules_3 text ++ priority_rules_4 text).*2.
Proof.
  rewrite !fmap_app. repeat apply Forall_app_2.
  - unfold priority_rules_1. constant_rules.
  - unfold priority_rules_2. constant_rules.
  - unfold priority_rules_3. constant_rules.
  - unfold priority_rules_4. constant_rules.
Qed.

Lemma home_rules_ok text : Forall (fun r => control_ok r = true) (home_control_rules text).*2.
Proof. unfold home_control_rules. constant_rules. Qed.


Lemma printed_negb s : printed s -> negb (is_empty (trim s)) = true.
Proof. unfold printed. by destruct (trim s). Qed.

Lemma known_device_printed entity : known_device entity = true -> printed entity.
Proof.
  unfold known_device. intros [[H|H]%orb_true_iff|H]%orb_true_iff; apply lettered_printed.
  - eapply names_word_lettered; [|exact H]; by vm_compute.
  - eapply is_one_of_lettered; [|exact H]; by vm_compute.
  - eapply ends_any_lettered; [|exact H]; by vm_compute.
Qed.

Lemma simple_turn_ok text entity action :
  simple_turn_request text = Some (entity, action) -> control_ok (entity, action, None) = true.
Proof.
  unfold simple_turn_request, turn_verb. intros H. apply bind_Some in H as ([rest verb] & Hv & H).
  case_match; [done|]. unfold when in H. case_match eqn:Hk; [|done]. injection H as <- <-.
  apply andb_true_iff in Hk as [_ Hk]. apply known_device_printed in Hk.
  apply find_map_elem in Hv as ([p verb'] & Hin & Hf). apply fmap_Some in Hf as (rest' & _ & [= -> ->]).
  unfold control_ok. cbn [fst snd]. rewrite printed_negb by done.
  unfold turn_verbs in Hin. apply elem_of_cons in Hin as [[= _ ->]|Hin]; [done|].
  by apply list_elem_of_singleton in Hin as [= _ ->].
Qed.

(** Taking a text off the front any number of times. *)
Lemma strip_prefix_split s p t : strip_prefix s p = Some t -> s = p +:+ t.
Proof.
  unfold strip_prefix. destruct (starts_with s p) eqn:E; [|done]. apply starts_with_spec in E as [r ->].
  intros [= <-]. by rewrite sdrop_app.
Qed.

Lemma trim_start_str_split s p : exists q, s = q +:+ trim_start_str s p.
Proof.
  unfold trim_start_str. generalize (String.length s). intros n. revert s. induction n as [|n IH]; intros s.
  - by exists "".
  - cbn [trim_start_fuel]. destruct (strip_prefix s p) as [t|] eqn:E; [|by exists ""].
    apply strip_prefix_split in E as ->. destruct (IH t) as [q Hq]. exists (p +:+ q). rewrite <- sapp_assoc. by rewrite <- Hq.
Qed.

Lemma articles_off_split s : exists q, s = q +:+ articles_off s.
Proof.
  unfold articles_off. destruct (trim_start_str_split s "the ") as [a Ha].
  destruct (trim_start_str_split (trim_start_str s "the ") "a ") as [b Hb].
  destruct (trim_start_str_split (trim_start_str (trim_start_str s "the ") "a ") "an ") as [c Hc].
  exists (a +:+ b +:+ c). rewrite <- !sapp_assoc, <- Hc, <- Hb. done.
Qed.

Lemma articles_off_printed s : articles_off (trim s) <> "" -> printed (articles_off (trim s)).
Proof.
  intros H. destruct (articles_off_split (trim s)) as [q Hq].
  apply (trimmed_tail q); [|done]. rewrite <- Hq. apply trim_idem.
Qed.

Lemma temperature_target_ok rest entity v :
  parse_temperature_target rest = Some (entity, v) -> printed entity /\ fl_is_finite v = true.
Proof.
  unfold parse_temperature_target. intros H. apply bind_Some in H as ([e value_text] & _ & H).
  set (E := match find_map _ _ with Some _ => _ | None => _ end) in H.
  assert (E <> "" -> printed E) as HE.
  { unfold E. destruct (find_map _ _) as [e'|]; [apply trimmed_printed|apply articles_off_printed]. }
  destruct (is_empty E) eqn:Ee; [done|]. apply bind_Some in H as (x & _ & H). unfold when in H.
  destruct (fl_is_finite x) eqn:Hx; [|done]. injection H as <- <-. split; [|done].
  apply HE. intros Heq. by rewrite Heq in Ee.
Qed.

Lemma setpoint_ok text r : setpoint_request text = Some r -> control_ok r = true.
Proof.
  unfold setpoint_request. intros H. apply bind_Some in H as (rest & _ & H). case_match; [done|].
  apply bind_Some in H as ([entity v] & [Hp Hv]%temperature_target_ok & H). apply printed_negb in Hp.
  unfold when in H. repeat case_match; simplify_eq; unfold control_ok; cbn [fst snd]; by rewrite Hp, Hv.
Qed.

Lemma home_control_request_ok text r : home_control_request text = Some r -> control_ok r = true.
Proof.
  unfold home_control_request. destruct (first_rule (home_control_rules text)) as [q|] eqn:E.
  - intros [= <-]. exact (first_rule_forall (fun r => control_ok r = true) _ _ (home_rules_ok text) E).
  - destruct (simple_turn_request text) as [[entity action]|] eqn:Et; cbn.
    + intros [= <-]. by eapply simple_turn_ok.
    + apply setpoint_ok.
Qed.

Lemma priority_request_ok text r : priority_home_control_request text = Some r -> control_ok r = true.
Proof. exact (first_rule_forall (fun r => control_ok r = true) _ r (priority_rules_ok text)). Qed.

Ltac constant_targets := cbn [fmap list_fmap snd app]; repeat (apply Forall_cons; split; [by vm_compute|]); apply Forall_nil_2.

Lemma status_rules_printed text :
  Forall printed (status_rules text).*2 /\ Forall printed (appliance_rules text).*2 /\
  Forall printed (late_status_rules text).*2.
Proof.
  split_and!; [unfold status_rules|unfold appliance_rules|unfold late_status_rules]; constant_targets.
Qed.

Lemma class_or_target_printed target class : printed target -> printed class -> printed (class_or_target target class).
Proof. unfold class_or_target. by case_match. Qed.

Lemma device_target_printed target entity :
  printed target -> device_target target = Some entity -> printed entity.
Proof.
  intros Ht. unfold device_target, climate_target. intros H.
  repeat case_match; simplify_eq; try done; try (apply class_or_target_printed; done).
Qed.

Lemma home_status_printed text entity : home_status_target text = Some entity -> printed entity.
Proof.
  destruct (status_rules_printed text) as (H1 & H2 & H3). unfold home_status_target, when.
  destruct (first_rule (status_rules text)) eqn:E1.
  { intros [= <-]. exact (first_rule_forall _ _ _ H1 E1). }
  destruct (_ && negb _); [by intros [= <-]|].
  destruct (first_rule (appliance_rules text)) eqn:E2.
  { intros [= <-]. exact (first_rule_forall _ _ _ H2 E2). }
  destruct (names_the_iron_appliance text && _); [by intros [= <-]|].
  destruct (first_rule (late_status_rules text)) eqn:E3.
  { intros [= <-]. exact (first_rule_forall _ _ _ H3 E3). }
  destruct (_ || _); [done|]. destruct (is_empty _) eqn:Ee; [done|].
  apply device_target_printed. apply trimmed_printed. intros Heq. unfold clean_status_target in Ee. by rewrite Heq in Ee.
Qed.

Lemma scene_printed text entity : scene_or_routine_activation_request text = Some entity -> printed entity.
Proof.
  unfold scene_or_routine_activation_request. destruct (first_rule _) eqn:E1.
  - intros [= <-]. refine (first_rule_forall printed _ _ _ E1). unfold scene_phrases. constant_targets.
  - intros (prefix & _ & H)%find_map_elem. unfold named_scene in H. apply bind_Some in H as (rest & _ & H).
    destruct (contains_any _ _); [|done]. unfold when, nonempty in H. case_match eqn:Hn; [|done]. injection H as <-.
    apply trimmed_printed. intros Heq. by rewrite Heq in Hn.
Qed.

Lemma digit_printed c : is_ascii_digit c = true -> is_whitespace c = false.
Proof.
  unfold is_ascii_digit, char_byte. destruct c as [|a [|]]; [done| |done]. intros H.
  apply (byte_forall2 byte_is_digit (fun a => negb (is_whitespace (char_of a)))) in H; [|by vm_compute].
  by apply negb_true_iff in H.
Qed.

Section floats.
Context `{FT : FloatText}.

Lemma calculation_printed text expression : calculation_request text = Some expression -> printed expression.
Proof.
  unfold calculation_request.
  destruct (temperature_conversion_expression text) as [t|] eqn:Et.
  { intros [= <-]. unfold temperature_conversion_expression in Et. case_match; [done|].
    apply bind_Some in Et as (i & _ & Et). apply bind_Some in Et as (v & _ & [= <-]).
    apply lettered_printed. unfold lettered. case_match; rewrite !sexists_app, ?orb_true_r; done. }
  destruct (percentage_expression text) as [t|] eqn:Ep.
  { intros [= <-]. unfold percentage_expression in Ep.
    apply bind_Some in Ep as (? & _ & Ep). apply bind_Some in Ep as (? & _ & Ep).
    apply bind_Some in Ep as (? & _ & Ep). apply bind_Some in Ep as (? & _ & [= <-]).
    apply lettered_printed. unfold lettered. rewrite !sexists_app, ?orb_true_r. done. }
  unfold arithmetic_expression. set (e := words_to_digits _). intros H. case_match eqn:Hd; [|done]. injection H as <-.
  apply andb_true_iff in Hd as [[Hd _]%andb_true_iff _]. apply existsb_elem in Hd as (c & Hc & Hd).
  apply trimmed_printed. exact (printed_char _ _ Hc (digit_printed _ Hd)).
Qed.

Lemma timer_positive text seconds label : timer_request text = Some (seconds, label) -> seconds <> 0%N.
Proof.
  unfold timer_request. intros H. case_match; [done|]. apply bind_Some in H as ([s i] & _ & H).
  destruct (extend_duration_with_trailing_spans _ _ _) as [s' i']. case_match eqn:E; [done|].
  injection H as <- _. by apply N.eqb_neq.
Qed.

Lemma home_call_acceptable o call :
  (forall r, o = Some r -> control_ok r = true) -> home_control_call o = Some call -> acceptable call.
Proof. destruct o as [r|]; [|done]. intros H. by apply control_call_acceptable, H. Qed.

Lemma scene_call_acceptable entity :
  printed entity -> acceptable (tool "home_control" [("action", Str "activate"); ("entity", Str entity)]).
Proof. intros H. apply (control_call_acceptable (entity, "activate", None)); [|done]. unfold control_ok. by rewrite printed_negb. Qed.

Lemma other_acceptable name args :
  name ∈ QUICK_TOOLS -> forallb (fun n => negb (String.eqb name n)) ["home_control"; "home_status"; "set_timer"; "calculate"] = true ->
  acceptable (tool name args).
Proof.
  intros Hn H. split; [done|]. unfold arguments_read. cbn [tool call_name]. cbn [forallb] in H.
  repeat apply andb_true_iff in H as [?%negb_true_iff H].
  by repeat match goal with E : (name =? _)%string = false |- _ => rewrite E; clear E end.
Qed.

Ltac plain := apply other_acceptable; [unfold QUICK_TOOLS; set_solver|done].

Lemma alternatives {A} (P : A -> Prop) (o p : option A) :
  (forall x, o = Some x -> P x) -> (forall x, p = Some x -> P x) ->
  forall x, o <|> p = Some x -> P x.
Proof. intros Ho Hp x. destruct o; auto. Qed.
Lemma when_all {A} (P : A -> Prop) b x : P x -> forall y, when b x = Some y -> P y.
Proof. intros H y. unfold when. by destruct b; [intros [= <-]|]. Qed.
Lemma fmap_all {A B} (P : B -> Prop) (f : A -> B) o :
  (forall x, o = Some x -> P (f x)) -> forall y, f <$> o = Some y -> P y.
Proof. intros H y (x & Hx & ->)%fmap_Some. auto. Qed.

Lemma routed_acceptable text call : route text = Some call -> acceptable call.
Proof.
  unfold route. set (n := strip_household_speaker_prefix (normalize text)).
  set (m := strip_household_speaker_prefix (prepare text)). destruct (is_empty n); [done|].
  revert call. repeat apply alternatives; try (apply when_all; plain);
    try (apply fmap_all; intros; first
      [ plain | by apply scene_call_acceptable, scene_printed with n | by eapply calculate_acceptable, calculation_printed
      | by eapply status_call_acceptable, home_status_printed ]).
  - apply fmap_all. unfold preferred_timer_request, when. intros x Hx. case_match; [|done]. injection Hx as <-.
    by apply timer_call_acceptable.
  - intros call. apply home_call_acceptable. intros r. apply priority_request_ok.
  - apply fmap_all. unfold priority_home_status_target. apply when_all. by apply status_call_acceptable.
  - apply fmap_all. intros [seconds label] H. eapply timer_call_acceptable, timer_positive, H.
  - intros call. apply home_call_acceptable. intros r. apply home_control_request_ok.
Qed.

Context (cfg : DispatcherConfig).


End floats.

End accepted.

#[local] Instance plain_floats : FloatText := {| f64_display := fmt_fixed 1; f64_debug := fmt_fixed 1 |}.

Definition at_home : DispatcherConfig := {|
  has_home_automation := true; has_memory := false; has_web_search := false; loaded_skills := None;
  cfg_tool_policy := default_tool_policy;
  cfg_actuation_safety := default_actuation_safety |}.

