(* ===== verification/ToolParser.v ===== *)
(** * Tool calls in model output ([tools/parser.rs])

    What the language model answers is text; a tool call in it is found, parsed
    and handed to the dispatcher.  JSON parsing itself is [serde_json]'s and
    stays a parameter, as does the derived deserialisation of a [ToolCall]. *)

From S2P Require Import Prelude RustStr RustNum Json HomeTypes MemoryPolicy DispatchHome RateLimit ToolGate Dispatch.
From Stdlib Require Import Ascii.
Local Open Scope string_scope.
Local Open Scope list_scope.
Local Open Scope rust_scope.

(** ** Finding JSON *)

Definition brace_open : ascii := "{".
Definition brace_close : ascii := "}".
Definition bracket_open : ascii := "[".
Definition bracket_close : ascii := "]".
Definition backslash : ascii := ascii_of_nat 92.
Definition quote : ascii := ascii_of_nat 34.
Definition crlf : string := String (ascii_of_nat 13) newline.

Definition is_json_container (text : string) : bool :=
  starts_with text "{" && ends_with text "}" || starts_with text "[" && ends_with text "]".

Section extraction.
Context `{SD : Serde}.

Definition parses (s : string) : bool := match from_str s with Some _ => true | None => false end.

(** The first fence of each kind, in the order they are tried. *)
Definition fence_patterns : list string :=
  ["```json" +:+ newline; "```json" +:+ crlf; "```" +:+ newline; "```" +:+ crlf].

Fixpoint first_fenced (text : string) (patterns : list string) : option string :=
  match patterns with
  | [] => None
  | pattern :: patterns =>
      match split_once text pattern with
      | None => first_fenced text patterns
      | Some (_, content) =>
          match split_once content "```" with
          | None => first_fenced text patterns
          | Some (json, _) =>
              if is_json_container (trim json) && parses (trim json)
              then Some (trim json) else first_fenced text patterns
          end
      end
  end.
Definition extract_from_code_block (text : string) : option string := first_fenced text fence_patterns.

Fixpoint skip_whitespace (cs : list string) : list string :=
  match cs with
  | c :: cs' => if is_whitespace c then skip_whitespace cs' else cs
  | [] => []
  end.

Definition closes_next (cs : list string) : bool :=
  match skip_whitespace cs with
  | c :: _ => String.eqb c "}" || String.eqb c "]"
  | [] => false
  end.

Fixpoint strip_commas (in_string escape : bool) (cs : list string) : list string :=
  match cs with
  | [] => []
  | current :: cs =>
      if escape then current :: strip_commas in_string false cs
      else if String.eqb current (char_of backslash) && in_string
      then current :: strip_commas in_string true cs
      else if String.eqb current (char_of quote)
      then current :: strip_commas (negb in_string) false cs
      else if String.eqb current "," && negb in_string
      then if closes_next cs then strip_commas in_string false cs
           else current :: strip_commas in_string false cs
      else current :: strip_commas in_string false cs
  end.
Definition strip_trailing_commas (json : string) : string :=
  concat_str (strip_commas false false (chars json)).

(** The bytes from the opening one to the one that balances it. *)
Fixpoint scan_balanced (op cl : ascii) (depth : Z) (in_string escape : bool) (l : list ascii)
    : option (list ascii) :=
  match l with
  | [] => None
  | b :: l =>
      if escape then cons b <$> scan_balanced op cl depth in_string false l
      else if Ascii.eqb b backslash && in_string
      then cons b <$> scan_balanced op cl depth in_string true l
      else if Ascii.eqb b quote
      then cons b <$> scan_balanced op cl depth (negb in_string) false l
      else if Ascii.eqb b op && negb in_string
      then cons b <$> scan_balanced op cl (depth + 1) in_string false l
      else if Ascii.eqb b cl && negb in_string
      then if (depth - 1 =? 0)%Z then Some [b]
           else cons b <$> scan_balanced op cl (depth - 1) in_string false l
      else cons b <$> scan_balanced op cl depth in_string false l
  end.

Definition extract_balanced_json_candidate (op cl : ascii) (l : list ascii) : option string :=
  candidate ← of_bytes <$> scan_balanced op cl 0 false false l;
  if parses candidate then Some candidate
  else
    let repaired := strip_trailing_commas candidate in
    if negb (String.eqb repaired candidate) && parses repaired then Some repaired else None.

Definition closing (b : ascii) : option ascii :=
  if Ascii.eqb b brace_open then Some brace_close
  else if Ascii.eqb b bracket_open then Some bracket_close
  else None.

Fixpoint embedded_from (l : list ascii) : option string :=
  match l with
  | [] => None
  | b :: l' =>
      match closing b with
      | None => embedded_from l'
      | Some cl =>
          match extract_balanced_json_candidate b cl l with
          | Some candidate => Some candidate
          | None => embedded_from l'
          end
      end
  end.
Definition extract_embedded_json (text : string) : option string := embedded_from (bytes text).

Definition extract_json (text : string) : option string :=
  let trimmed := trim text in
  if is_json_container trimmed && parses trimmed then Some trimmed
  else
    match extract_from_code_block trimmed with
    | Some json => Some json
    | None => extract_embedded_json trimmed
    end.

(** ** From JSON to a call *)

(** [serde_json::from_value::<ToolCall>], derived from the struct. *)
Context (tool_call_de : value -> option ToolCall).
Context (cfg : DispatcherConfig).

Definition scalar_primary_arg (tool_name : string) : option string :=
  if String.eqb tool_name "get_weather" then Some "location"
  else if String.eqb tool_name "web_search" then Some "query"
  else if String.eqb tool_name "calculate" then Some "expression"
  else if String.eqb tool_name "play_media" then Some "query"
  else if String.eqb tool_name "memory_recall" then Some "query"
  else if String.eqb tool_name "memory_store" then Some "content"
  else if String.eqb tool_name "memory_forget" then Some "query"
  else if String.eqb tool_name "home_status" then Some "entity"
  else if String.eqb tool_name "set_timer" then Some "seconds"
  else None.

Definition normalize_single_key_arguments (tool_name : string) (nested : value) : value :=
  match nested with
  | Object _ => nested
  | Str _ | Number _ | Bool _ =>
      match scalar_primary_arg tool_name with
      | Some primary => Object [(primary, nested)]
      | None => Object []
      end
  | Array _ | Null => Object []
  end.

Definition normalize_single_key_tool_call (v : value) : option ToolCall :=
  match v with
  | Object [(tool_name, nested)] =>
      if is_known_tool cfg tool_name
      then Some {| call_name := tool_name;
                   call_arguments := normalize_single_key_arguments tool_name nested |}
      else None
  | _ => None
  end.

Definition normalize_single_key_tool_call_for_eval (v : value) : option ToolCall :=
  match v with
  | Object [(tool_name, nested)] =>
      if existsb (String.eqb tool_name) ["answer"; "response"; "message"; "content"; "text"]
      then None
      else Some {| call_name := tool_name;
                   call_arguments := normalize_single_key_arguments tool_name nested |}
  | _ => None
  end.

Definition normalize_eval_arguments (arguments : value) : value :=
  match arguments with
  | Str text => match from_str text with Some v => v | None => Str text end
  | Null => Object []
  | other => other
  end.

Definition parse_single_tool_call_for_eval (v : value) : option ToolCall :=
  match tool_call_de v with
  | Some call =>
      if is_empty (trim (call_name call)) then None
      else Some {| call_name := call_name call;
                   call_arguments := normalize_eval_arguments (call_arguments call) |}
  | None => normalize_single_key_tool_call_for_eval v
  end.

Definition parse_openai_function_call_for_eval (v : value) : option ToolCall :=
  name ← trim <$> get_str v "name";
  if is_empty name then None
  else Some {| call_name := name;
               call_arguments := default (Object []) (normalize_eval_arguments <$> get v "arguments") |}.

Definition parse_openai_tool_call_for_eval (v : value) : option ToolCall :=
  match get v "function" with
  | Some function => parse_openai_function_call_for_eval function
  | None => parse_openai_function_call_for_eval v
  end.

Definition option_list {A} (o : option A) : list A := match o with Some a => [a] | None => [] end.

Definition parse_tool_call_value_for_eval (v : value) : list ToolCall :=
  match v with
  | Array items => filter_map parse_single_tool_call_for_eval items
  | Object fields =>
      match assoc "tool_calls" fields ≫= as_array with
      | Some tool_calls => filter_map parse_openai_tool_call_for_eval tool_calls
      | None =>
          match assoc "function_call" fields with
          | Some function_call => option_list (parse_openai_function_call_for_eval function_call)
          | None => option_list (parse_single_tool_call_for_eval (Object fields))
          end
      end
  | _ => []
  end.

Definition parse_tool_call_value (v : value) : option ToolCall :=
  match (call ← tool_call_de v; if is_empty (call_name call) then None else Some call) with
  | Some call => Some call
  | None =>
      match normalize_single_key_tool_call v with
      | Some call => Some call
      | None => head (parse_tool_call_value_for_eval v)
      end
  end.

Definition parse_tool_calls_for_eval (response : string) : list ToolCall :=
  match extract_json response ≫= from_str with
  | Some v => parse_tool_call_value_for_eval v
  | None => []
  end.

Definition UNPARSED_TOOL_CALL_FALLBACK : string :=
  "Sorry, I didn't quite catch that — could you say it another way?".

(** A key between its quotes. *)
Definition quoted (key : string) : string := char_of quote +:+ key +:+ char_of quote.

Definition is_unparsed_tool_call (response : string) : bool :=
  let trimmed := trim response in
  let looks_toolish :=
    (starts_with trimmed "{" || starts_with trimmed "[" || starts_with trimmed "```")
    && contains_any trimmed (quoted <$> ["tool"; "arguments"; "name"; "tool_calls"; "function_call"]) in
  match extract_json response with
  | None => looks_toolish
  | Some json_str =>
      if negb (parses json_str) then looks_toolish
      else
        (contains trimmed (quoted "tool_calls") || contains trimmed (quoted "function_call")
         || starts_with trimmed "[")
        && match parse_tool_calls_for_eval response with [] => true | _ => false end
  end.

(** The call in a response, if it holds one that names a tool. *)
Definition response_call (response : string) : option ToolCall :=
  json_str ← extract_json response;
  v ← from_str json_str;
  call ← parse_tool_call_value v;
  if is_empty (call_name call) then None else Some call.

End extraction.

Section runtime.
Context {W : Type} `{Ops : World W} `{TB : ToolBodies W} `{HO : HashOrder} `{U : Unicode}
  `{SD : Serde} `{DH : DefaultHasher} `{FT : FloatText}.
Context (tool_call_de : value -> option ToolCall) (cfg : DispatcherConfig).

Definition try_tool_call_with_context (response : string) (exec_ctx : ToolExecutionContext)
    : M (Dispatcher W) (option ToolResult) :=
  match response_call tool_call_de cfg response with
  | None => ret None
  | Some call =>
      let! res := execute_with_context cfg call exec_ctx in
      ret (Some res)
  end.

Definition try_tool_call (response : string) : M (Dispatcher W) (option ToolResult) :=
  try_tool_call_with_context response default_context.

End runtime.

(** ** The scanner *)

Lemma closing_spec b cl :
  closing b = Some cl -> (b = brace_open /\ cl = brace_close) \/ (b = bracket_open /\ cl = bracket_close).
Proof.
  unfold closing. destruct (Ascii.eqb_spec b brace_open) as [->|]; [intros [= <-]; by left|].
  destruct (Ascii.eqb_spec b bracket_open) as [->|]; [intros [= <-]; by right|done].
Qed.

Lemma scan_prefix op cl depth in_string escape l c :
  scan_balanced op cl depth in_string escape l = Some c -> exists rest, l = c ++ rest.
Proof.
  revert depth in_string escape c. induction l as [|b l IH]; intros depth in_string escape c; cbn; [done|].
  intros Hs.
  assert ((exists d s e c', c = b :: c' /\ scan_balanced op cl d s e l = Some c') \/ c = [b])
    as [(d & s & e & c' & -> & Hc)| ->].
  { repeat (match type of Hs with (if ?x then _ else _) = _ => destruct x end);
      first [by injection Hs as <-; right
            |apply fmap_Some in Hs as (c' & Hc & ->); left; eauto 10]. }
  - apply IH in Hc as [rest ->]. by exists rest.
  - by exists l.
Qed.

(** ** A reference printer *)

Section printing.
(** How numbers are written, with digits, signs, points and exponents. *)
Context (num_text : number -> list ascii).

Definition plain_byte (b : ascii) : bool :=
  negb (existsb (Ascii.eqb b) [brace_open; brace_close; bracket_open; bracket_close; quote; backslash]).

Definition hex_pair (n : N) : list ascii :=
  [Confirmations.hex_digit (N.shiftr n 4); Confirmations.hex_digit (N.land n 15)].

(** A byte of a JSON string, escaped. *)
Definition escape_byte (b : ascii) : list ascii :=
  if Ascii.eqb b quote || Ascii.eqb b backslash then [backslash; b]
  else if (N_of_ascii b <? 32)%N then backslash :: bytes "u00" ++ hex_pair (N_of_ascii b)
  else [b].

Definition print_string (s : string) : list ascii :=
  [quote] ++ flat_map escape_byte (bytes s) ++ [quote].

Fixpoint commas (l : list (list ascii)) : list ascii :=
  match l with
  | [] => []
  | [x] => x
  | x :: l => x ++ bytes "," ++ commas l
  end.

Fixpoint print_json (v : value) : list ascii :=
  match v with
  | Null => bytes "null"
  | Bool b => bytes (if b then "true" else "false")
  | Number n => num_text n
  | Str s => print_string s
  | Array items => [bracket_open] ++ commas (print_json <$> items) ++ [bracket_close]
  | Object fields =>
      [brace_open] ++
      commas ((fun kv => print_string kv.1 ++ bytes ":" ++ print_json kv.2) <$> fields) ++
      [brace_close]
  end.

(** *** The scanner passes over what is printed *)

Context (op cl : ascii) (Hoc : closing op = Some cl).
Context (num_plain : forall n, Forall (fun b => plain_byte b = true) (num_text n)).

Definition passes (w : list ascii) : Prop :=
  forall d rest, (1 <= d)%Z ->
    scan_balanced op cl d false false (w ++ rest) = app w <$> scan_balanced op cl d false false rest.

Lemma passes_nil : passes [].
Proof. intros d rest _. cbn [app]. by destruct (scan_balanced _ _ _ _ _ rest). Qed.

Lemma passes_app w w' : passes w -> passes w' -> passes (w ++ w').
Proof.
  intros Hw Hw' d rest Hd. rewrite <- app_assoc, Hw, Hw' by done.
  destruct (scan_balanced _ _ _ _ _ rest); cbn; [|done]. by rewrite app_assoc.
Qed.

Lemma plain_neq b : plain_byte b = true ->
  Ascii.eqb b op = false /\ Ascii.eqb b cl = false /\ Ascii.eqb b quote = false /\ Ascii.eqb b backslash = false.
Proof.
  unfold plain_byte. cbn [existsb]. intros Hb. bool_to_prop.
  apply closing_spec in Hoc as [[-> ->]|[-> ->]]; split_and!; done.
Qed.

Lemma passes_plain w : Forall (fun b => plain_byte b = true) w -> passes w.
Proof.
  induction 1 as [|b w Hb _ IH]; [apply passes_nil|].
  intros d rest Hd. cbn [app scan_balanced].
  destruct (plain_neq b Hb) as (-> & -> & -> & ->). cbn [andb negb]. rewrite IH by done.
  by destruct (scan_balanced _ _ _ _ _ rest).
Qed.

(** Inside a string nothing but the quote and the backslash counts. *)
Lemma scan_in_string d w rest :
  Forall (fun b => Ascii.eqb b quote = false /\ Ascii.eqb b backslash = false) w ->
  scan_balanced op cl d true false (w ++ rest) = app w <$> scan_balanced op cl d true false rest.
Proof.
  induction 1 as [|b w [Hq Hb] _ IH]; cbn [app scan_balanced].
  { by destruct (scan_balanced _ _ _ _ _ rest). }
  rewrite Hq, Hb. cbn [andb negb]. rewrite !andb_false_r, IH.
  by destruct (scan_balanced _ _ _ _ _ rest).
Qed.

Lemma hex_not_special n :
  Ascii.eqb (Confirmations.hex_digit (N.land n 15)) quote = false /\
  Ascii.eqb (Confirmations.hex_digit (N.land n 15)) backslash = false.
Proof.
  assert (N.land n 15 < 16)%N as Hn by (change 15%N with (N.ones 4); rewrite N.land_ones; by apply N.mod_lt).
  assert (forallb (fun k => negb (Ascii.eqb (Confirmations.hex_digit (N.of_nat k)) quote) &&
                            negb (Ascii.eqb (Confirmations.hex_digit (N.of_nat k)) backslash)) (seq 0 16) = true)
    as Hall by by vm_compute.
  pose proof (proj1 (forallb_elem _ _) Hall (N.to_nat (N.land n 15))) as Hk.
  cbv beta in Hk. rewrite N2Nat.id in Hk. rewrite elem_of_seq in Hk. specialize (Hk ltac:(lia)).
  bool_to_prop. split; assumption.
Qed.

Lemma scan_escaped d b rest :
  scan_balanced op cl d true false (escape_byte b ++ rest) =
  app (escape_byte b) <$> scan_balanced op cl d true false rest.
Proof.
  unfold escape_byte. destruct (Ascii.eqb b quote || Ascii.eqb b backslash) eqn:E.
  { cbn [app scan_balanced]. change (Ascii.eqb backslash backslash) with true. cbn [andb].
    by destruct (scan_balanced _ _ _ _ _ rest). }
  bool_to_prop. destruct (N_of_ascii b <? 32)%N eqn:E32.
  2:{ apply (scan_in_string d [b]). by repeat constructor. }
  cbn [app]. change (backslash :: (bytes "u00" ++ hex_pair (N_of_ascii b)) ++ rest)
    with ([backslash; "u"%char] ++ (bytes "00" ++ hex_pair (N_of_ascii b)) ++ rest).
  cbn [app]. cbn [scan_balanced]. change (Ascii.eqb backslash backslash) with true. cbn [andb].
  rewrite (scan_in_string d (bytes "00" ++ hex_pair (N_of_ascii b))).
  - by destruct (scan_balanced _ _ _ _ _ rest).
  - repeat apply Forall_cons_2; try done; [|apply hex_not_special].
    bool_to_prop. rewrite <- (N.mod_small (N.shiftr (N_of_ascii b) 4) 16).
    + change 16%N with (2 ^ 4)%N. rewrite <- N.land_ones. apply hex_not_special.
    + rewrite N.shiftr_div_pow2. apply N.Div0.div_lt_upper_bound. lia.
Qed.

Lemma passes_string s : passes (print_string s).
Proof.
  intros d rest Hd. unfold print_string. cbn [app scan_balanced].
  change (Ascii.eqb quote backslash) with false. change (Ascii.eqb quote quote) with true. cbn [andb negb].
  rewrite <- app_assoc.
  assert (forall l r, scan_balanced op cl d true false (flat_map escape_byte l ++ r) =
                      app (flat_map escape_byte l) <$> scan_balanced op cl d true false r) as Hl.
  { intros l r. induction l as [|b l IH]; cbn [flat_map app].
    - by destruct (scan_balanced _ _ _ _ _ r).
    - rewrite <- app_assoc, scan_escaped, IH. destruct (scan_balanced _ _ _ _ _ r); cbn; [|done].
      by rewrite app_assoc. }
  rewrite Hl. cbn [app scan_balanced].
  change (Ascii.eqb quote backslash) with false. change (Ascii.eqb quote quote) with true. cbn [andb negb].
  destruct (scan_balanced _ _ _ _ _ rest); cbn; [|done]. by rewrite <- app_assoc.
Qed.

(** A bracketed body, of either kind. *)
Lemma passes_bracketed o c w : closing o = Some c -> passes w -> passes ([o] ++ w ++ [c]).
Proof.
  intros Ho Hw d rest Hd. rewrite <- !app_assoc. cbn [app scan_balanced].
  assert (Ascii.eqb o backslash = false /\ Ascii.eqb o quote = false /\
          Ascii.eqb c backslash = false /\ Ascii.eqb c quote = false) as (-> & -> & Hcb & Hcq)
    by (apply closing_spec in Ho as [[-> ->]|[-> ->]]; done).
  cbn [andb negb]. rewrite !andb_true_r.
  assert ((Ascii.eqb o op = true /\ Ascii.eqb c op = false /\ Ascii.eqb c cl = true) \/
          (Ascii.eqb o op = false /\ Ascii.eqb o cl = false /\ Ascii.eqb c op = false /\ Ascii.eqb c cl = false))
    as [(-> & Hc1 & Hc2)|(-> & -> & Hc1 & Hc2)]
    by (apply closing_spec in Ho as [[-> ->]|[-> ->]], Hoc as [[-> ->]|[-> ->]]; tauto).
  - rewrite Hw by lia. cbn [app scan_balanced]. rewrite Hcb, Hcq, Hc1, Hc2. cbn [andb negb].
    rewrite (proj2 (Z.eqb_neq _ _)) by lia. replace (d + 1 - 1)%Z with d by lia.
    destruct (scan_balanced _ _ _ _ _ rest); cbn; [|done]. by rewrite <- !app_assoc.
  - rewrite Hw by lia. cbn [app scan_balanced]. rewrite Hcb, Hcq, Hc1, Hc2. cbn [andb negb].
    destruct (scan_balanced _ _ _ _ _ rest); cbn; [|done]. by rewrite <- !app_assoc.
Qed.

Lemma passes_commas l : Forall passes l -> passes (commas l).
Proof.
  induction 1 as [|x l Hx Hl IH]; [apply passes_nil|]. cbn [commas].
  destruct l as [|y l]; [done|]. apply passes_app; [done|]. apply passes_app; [|done].
  apply passes_plain. by repeat constructor.
Qed.

Lemma value_ind_nested (P : value -> Prop) :
  P Null -> (forall b, P (Bool b)) -> (forall n, P (Number n)) -> (forall s, P (Str s)) ->
  (forall items, Forall P items -> P (Array items)) ->
  (forall fields, Forall (fun kv => P kv.2) fields -> P (Object fields)) ->
  forall v, P v.
Proof.
  intros Hn Hb Hm Hs Ha Ho. fix IH 1.
  intros [|b|n|s|items|fields]; [apply Hn|apply Hb|apply Hm|apply Hs| |].
  - apply Ha. induction items as [|x items IHl]; constructor; [apply IH|exact IHl].
  - apply Ho. induction fields as [|[k x] fields IHl]; constructor; [apply IH|exact IHl].
Qed.

Lemma passes_json v : passes (print_json v).
Proof.
  induction v as [|b|n|s|items IH|fields IH] using value_ind_nested; cbn [print_json].
  - apply passes_plain. by repeat constructor.
  - apply passes_plain. destruct b; by repeat constructor.
  - apply passes_plain, num_plain.
  - apply passes_string.
  - apply passes_bracketed; [done|]. apply passes_commas, Forall_fmap. exact IH.
  - apply passes_bracketed; [done|]. apply passes_commas, Forall_fmap.
    eapply Forall_impl; [exact IH|]. intros [k x] Hx.
    apply passes_app; [apply passes_string|]. apply passes_app; [|done].
    apply passes_plain. by repeat constructor.
Qed.

End printing.

(** ** Properties *)

Section properties.
Context `{SD : Serde} (num_text : number -> list ascii)
  (num_plain : forall n, Forall (fun b => plain_byte b = true) (num_text n)).

Definition is_container (v : value) : bool :=
  match v with Array _ | Object _ => true | _ => false end.

(** A printed array or object is scanned to its end. *)
Lemma scan_printed v :
  is_container v = true ->
  exists b w cl, print_json num_text v = b :: w /\ closing b = Some cl /\
    forall rest, scan_balanced b cl 0 false false (print_json num_text v ++ rest) = Some (print_json num_text v).
Proof.
  intros Hv.
  assert (exists b body cl, closing b = Some cl /\ print_json num_text v = [b] ++ body ++ [cl] /\ passes b cl body)
    as (b & body & cl & Hcl & Hp & Hpass).
  { destruct v as [|[]|n|s|items|fields]; try done; cbn [print_json];
      eexists _, _, _; (split; [|split; [done|]]); [done| |done|].
    - apply passes_commas; [done|]. apply Forall_fmap, Forall_forall. intros x _. by apply passes_json.
    - apply passes_commas; [done|]. apply Forall_fmap, Forall_forall. intros [k x] _.
      apply passes_app; [by apply passes_string|]. apply passes_app; [|by apply passes_json].
      apply passes_plain; [done|]. by repeat constructor. }
  exists b, (body ++ [cl]), cl. split_and!; [done|done|]. intros rest.
  rewrite Hp, <- !app_assoc. cbn [app scan_balanced].
  assert (Ascii.eqb b backslash = false /\ Ascii.eqb b quote = false /\ Ascii.eqb cl backslash = false /\
          Ascii.eqb cl quote = false /\ Ascii.eqb cl b = false) as (-> & -> & H1 & H2 & H3)
    by (apply closing_spec in Hcl as [[-> ->]|[-> ->]]; done).
  rewrite Ascii.eqb_refl. cbn [andb negb]. rewrite Hpass by done.
  cbn [app scan_balanced]. rewrite H1, H2, H3, Ascii.eqb_refl. cbn [andb negb].
  by rewrite (app_comm_cons body [cl] b).
Qed.

Lemma trim_pieces text json : first_fenced text fence_patterns = Some json -> parses json = true.
Proof.
  generalize fence_patterns. intros l. induction l as [|p l IH]; cbn [first_fenced]; [done|].
  destruct (split_once text p) as [[l' content]|]; [|done].
  destruct (split_once content _) as [[j r]|]; [|done].
  destruct (_ && _) eqn:E; [|done]. intros [= <-]. by bool_to_prop.
Qed.

(** What the parser finds in a response.  Whatever it extracts is JSON
    that parses; and a JSON object or array written anywhere in prose, in the
    usual compact form with its strings escaped, is found whole and verbatim,
    provided no brace or bracket comes before it: braces, brackets, quotes and
    backslashes inside its strings do not end it early, and what follows it is
    not read. *)
Lemma extracted_json_parses_and_is_found response pre v post :
  (forall json, extract_json response = Some json -> is_Some (from_str json)) /\
  (Forall (fun b => closing b = None) (bytes pre) ->
   is_container v = true ->
   is_Some (from_str (of_bytes (print_json num_text v))) ->
   extract_embedded_json (pre +:+ of_bytes (print_json num_text v) +:+ post) =
   Some (of_bytes (print_json num_text v))).
Proof.
  split.
  - assert (forall s, parses s = true -> is_Some (from_str s)) as Hparse.
    { intros s. unfold parses. destruct (from_str s); [eauto|done]. }
    intros json Hj. apply Hparse. unfold extract_json in Hj.
    destruct (is_json_container _ && _) eqn:E; [injection Hj as <-; by bool_to_prop|].
    destruct (extract_from_code_block _) as [j|] eqn:Ec; [injection Hj as <-; exact (trim_pieces _ _ Ec)|].
    unfold extract_embedded_json in Hj. induction (bytes (trim response)) as [|b l IH]; cbn [embedded_from] in Hj; [done|].
    destruct (closing b) as [cl|]; [|by apply IH].
    destruct (extract_balanced_json_candidate b cl (b :: l)) as [c|] eqn:Eb; [|by apply IH].
    injection Hj as <-. clear -Eb. unfold extract_balanced_json_candidate in Eb.
    apply bind_Some in Eb as (cand & _ & Hc). cbv zeta in Hc.
    destruct (parses cand) eqn:E1; [injection Hc as <-; done|].
    destruct (_ && _) eqn:E2; [|done]. injection Hc as <-. by bool_to_prop.
  - intros Hpre Hshape [j Hj]. unfold extract_embedded_json.
    rewrite !bytes_app, bytes_of_bytes.
    induction (bytes pre) as [|b l IH].
    2:{ apply Forall_cons in Hpre as [Hb Hl]. cbn [app embedded_from]. rewrite Hb. by apply IH. }
    destruct (scan_printed v Hshape) as (b & w & cl & Hp & Hcl & Hs). specialize (Hs (bytes post)).
    rewrite Hp in *. cbn [app embedded_from] in *. rewrite Hcl.
    unfold extract_balanced_json_candidate. rewrite Hs. cbn [fmap option_fmap option_map mbind option_bind].
    unfold parses. by rewrite Hj.
Qed.

End properties.

(** ** A call in prose *)

Section example.

Definition weather_call : value :=
  Object [("tool", Str "get_weather"); ("arguments", Object [("location", Str "a } b")])].
Definition weather_text : string := of_bytes (print_json (fun _ => bytes "0") weather_call).
#[local] Instance weather_serde : Serde :=
  {| from_str s := if String.eqb s weather_text then Some weather_call else None;
     to_str v := of_bytes (print_json (fun _ => bytes "0") v) |}.

Lemma extracted_json_parses_and_is_found_witness :
  extract_embedded_json ("Let me look. " +:+ weather_text +:+ " One } moment.") = Some weather_text.
Proof.
  apply (proj2 (extracted_json_parses_and_is_found (fun _ => bytes "0")
    (fun _ => ltac:(repeat constructor)) "" "Let me look. " weather_call " One } moment.")).
  - repeat constructor.
  - reflexivity.
  - exists weather_call. vm_compute. reflexivity.
Defined.

End example.
