(* ===== verification/Safety.v ===== *)
(** * The dispatcher over time

    Sequences of requests against the dispatcher, as its callers make them:
    tool calls that carry no confirmation, confirmations of pending actions by
    token, listings.  The theorems are the promises of the whole boundary: what
    reaches the home, what is audited, what a restart preserves. *)

From S2P Require Import Prelude RustStr RustNum Json HomeTypes HomeAction HomePolicy HomeControl Confirmations Ledger RateLimit ToolGate Calc Timer MemoryPolicy DispatchHome Dispatch Scripted.
Local Open Scope string_scope.
Local Open Scope list_scope.

Section api.
Context {W : Type} `{Ops : World W} `{TB : ToolBodies W} `{HO : HashOrder} `{U : Unicode}
  `{SD : Serde} `{DH : DefaultHasher} `{FT : FloatText}.
Context (cfg : DispatcherConfig).
Notation D := (Dispatcher W).

Inductive api_op :=
| ApiExecute (call : ToolCall) (ctx : ToolExecutionContext)
| ApiConfirm (token : string)
| ApiPending
| ApiCheckTimers.

Definition api_step (o : api_op) (s : D) : D :=
  match o with
  | ApiExecute call ctx => (execute_with_context cfg call ctx s).2
  | ApiConfirm token => (confirm_pending_home_action cfg token s).2
  | ApiPending => (pending_confirmations s).2
  | ApiCheckTimers => (on_timers check_fired s).2
  end.

(** States reached from a fresh dispatcher, in any world, before the ledger's
    64-bit counter is exhausted. *)
Inductive api_reachable : D -> Prop :=
| api_start w : api_reachable (fresh_dispatcher w)
| api_next s o :
    api_reachable s -> (al_next_id (action_ledger s) < u64_max)%N -> api_reachable (api_step o s).

(** ** One step, seen from the stores the audit log mirrors *)

(** The log and the ledger agree on what is kept. *)
Definition mirrored (s : D) : Prop :=
  marked (action_ledger s) /\
  Forall2 same_action
    (last_n ACTION_HISTORY_LIMIT (filter_map audit_event_to_recorded_action (audit_log s)))
    (al_actions (action_ledger s)).

Lemma mirrored_same (s s' : D) :
  action_ledger s' = action_ledger s -> audit_log s' = audit_log s -> mirrored s -> mirrored s'.
Proof. unfold mirrored. by intros -> ->. Qed.

Lemma not_executed_no_action ev :
  ae_status ev <> AuditStatus.Executed -> audit_event_to_recorded_action ev = None.
Proof. intros H. unfold audit_event_to_recorded_action. by rewrite bool_decide_true. Qed.

Lemma mirrored_ran_none (s s' : D) : ran_none s s' -> mirrored s -> mirrored s'.
Proof.
  intros (_ & Hl & [Ha|(ev & Ha & Hst)]) [Hm Hf]; [by apply (mirrored_same s)|].
  split; [by rewrite Hl|]. rewrite Ha, Hl, filter_map_app. cbn [filter_map].
  by rewrite not_executed_no_action, app_nil_r.
Qed.

Lemma Forall2_last_n {A B} (R : A -> B -> Prop) n l k :
  Forall2 R l k -> Forall2 R (last_n n l) (last_n n k).
Proof. intros H. unfold last_n. rewrite (Forall2_length _ _ _ H). by apply Forall2_drop. Qed.

Lemma mirrored_ran_one og confirmed undo_of (s s' : D) r a :
  (al_next_id (action_ledger s) < u64_max)%N ->
  (forall i, undo_of = Some i -> (i <= al_next_id (action_ledger s))%N) ->
  ran_one cfg og confirmed undo_of s s' r a -> mirrored s -> mirrored s'.
Proof.
  intros Hn Hu (entity & action & v & w & w' & ev & _ & _ & _ & Ha & _ & Hr) [Hm Hf].
  destruct r as [output|e].
  - destruct Hr as (_ & now & cf & restore & b & Hl & Hb & Hsame).
    pose proof (wf_length _ (marked_wf _ Hm)) as Hlen.
    fold (next_state now entity action v og output cf undo_of restore (action_ledger s)) in Hl.
    fold (new_item now entity action v og output cf undo_of restore (action_ledger s)) in Hsame.
    split.
    + rewrite Hl. by apply next_state_marked.
    + rewrite Hl, Ha, next_state_last_n, filter_map_app by done. cbn [filter_map]. rewrite Hb.
      rewrite <- (last_n_snoc _ (filter_map _ _)). apply Forall2_last_n, Forall2_app; [done|].
      constructor; [done|constructor].
  - destruct Hr as [Hst Hl]. split; [by rewrite Hl|]. rewrite Ha, Hl, filter_map_app. cbn [filter_map].
    rewrite not_executed_no_action, app_nil_r; [done|]. rewrite Hst. apply error_status_not_executed.
Qed.

Lemma mirrored_body call ctx (s : D) r s' :
  (al_next_id (action_ledger s) < u64_max)%N ->
  run_body cfg call ctx s = (r, s') -> mirrored s -> mirrored s'.
Proof.
  intros Hn H Hm. apply body_effect in H as [_ [H|(a & undo_of & r0 & Hone & _ & Hu)]].
  { by eapply mirrored_ran_none. }
  eapply mirrored_ran_one; [done| |exact Hone|done]. intros i ->.
  destruct Hu as [_ (item & Hl & <-)]. apply last_undoable_spec in Hl as (Hin & _).
  destruct Hm as [Hm _]. pose proof (wf_below _ (marked_wf _ Hm)) as Hb.
  rewrite Forall_forall in Hb. apply Hb. unfold ids. by apply list_elem_of_fmap_2.
Qed.

Lemma mirrored_execute call ctx (s : D) res s' :
  (al_next_id (action_ledger s) < u64_max)%N ->
  execute_with_context cfg call ctx s = (res, s') -> mirrored s -> mirrored s'.
Proof.
  intros Hn H Hm. apply execute_effect in H as
    (ev & d & _ & _ & [[_ []]|(_ & _ & s1 & s2 & r & [] & _ & Hb & [] & _)]).
  - by apply (mirrored_same s).
  - apply (mirrored_same s2); [done|done|]. eapply mirrored_body; [|exact Hb|].
    + by replace (action_ledger s1) with (action_ledger s) by congruence.
    + by apply (mirrored_same s).
Qed.

Lemma on_confirmations_same {A} (m : M (W * ConfirmationState) A) (s : D) r s' :
  on_confirmations m s = (r, s') ->
  executed (env s') = executed (env s) /\ action_ledger s' = action_ledger s /\
  audit_log s' = audit_log s /\ actuation_attempts s' = actuation_attempts s /\
  tool_attempts s' = tool_attempts s /\ tool_audit_log s' = tool_audit_log s.
Proof. unfold on_confirmations. destruct (m _) as [x [w c]]. by intros [= <- <-]. Qed.

Lemma mirrored_step o (s : D) :
  (al_next_id (action_ledger s) < u64_max)%N -> mirrored s -> mirrored (api_step o s).
Proof.
  intros Hn Hm. destruct o as [call ctx|token| |]; cbn [api_step].
  - destruct (execute_with_context cfg call ctx s) as [res s'] eqn:E. by eapply mirrored_execute.
  - unfold confirm_pending_home_action, bind.
    destruct (on_confirmations (confirm token) s) as [o s1] eqn:E.
    apply on_confirmations_same in E as (_ & Hl & Ha & _).
    assert (mirrored s1) as Hm1 by by apply (mirrored_same s).
    destruct o as [p|]; [|done].
    destruct (execute_with_context cfg (confirmed_call p) (confirmed_context p) s1) as [res s'] eqn:E2.
    cbn. eapply mirrored_execute; [|exact E2|done]. by rewrite Hl.
  - unfold pending_confirmations. destruct (on_confirmations _ _) as [l s1] eqn:E.
    apply on_confirmations_same in E as (_ & Hl & Ha & _). by apply (mirrored_same s).
  - unfold on_timers. destruct (check_fired _) as [f [w l]]. by apply (mirrored_same s).
Qed.

Lemma reachable_mirrored (s : D) : api_reachable s -> mirrored s.
Proof.
  induction 1 as [w|s o _ IH Hn]; [|by apply mirrored_step].
  split; [apply empty_marked|]. cbn. constructor.
Qed.

(** ** What the tail of the log keeps *)

Definition scan_limit : nat := ACTION_HISTORY_LIMIT * 16.

(** The 512 lines scanned after a restart hold every executed action that the
    ledger would keep. *)
Definition tail_suffices (log : list AuditEvent) : Prop :=
  last_n ACTION_HISTORY_LIMIT (filter_map audit_event_to_recorded_action (last_n scan_limit log)) =
  last_n ACTION_HISTORY_LIMIT (filter_map audit_event_to_recorded_action log).

Lemma last_n_app_suffix {A} n (l k : list A) : n <= length k -> last_n n (l ++ k) = last_n n k.
Proof.
  intros H. unfold last_n. rewrite length_app, drop_app_ge by lia. f_equal. lia.
Qed.

Lemma tail_suffices_when log :
  length log <= scan_limit \/
  ACTION_HISTORY_LIMIT <= length (filter_map audit_event_to_recorded_action (last_n scan_limit log)) ->
  tail_suffices log.
Proof.
  intros [Hl|Hl]; unfold tail_suffices; [by rewrite (last_n_all scan_limit)|].
  destruct (last_n_suffix scan_limit log) as [l Hlog].
  rewrite Hlog at 2. by rewrite filter_map_app, last_n_app_suffix.
Qed.

(** [with_actuation_audit_path]: the ledger of the new process. *)
Definition restarted_ledger (log : list AuditEvent) : ActionLedgerState :=
  hydrate (read_recent_executed_actions ACTION_HISTORY_LIMIT log).

Lemma last_n_idem {A} n (l : list A) : last_n n (last_n n l) = last_n n l.
Proof. apply last_n_all. rewrite length_last_n. lia. Qed.

Lemma restart_agrees (s : D) :
  api_reachable s -> tail_suffices (audit_log s) ->
  Forall2 same_action
    (last_n ACTION_HISTORY_LIMIT (read_recent_executed_actions ACTION_HISTORY_LIMIT (audit_log s)))
    (al_actions (action_ledger s)).
Proof.
  intros Hr Ht. unfold read_recent_executed_actions. rewrite last_n_idem.
  fold scan_limit. unfold tail_suffices in Ht. rewrite Ht. apply (reachable_mirrored _ Hr).
Qed.

(** ** Confirmations *)

Lemma execute_confirmed_attempts call ctx (s : D) res s' :
  ctx_confirmed ctx = true -> call_name call = "home_control" ->
  execute_with_context cfg call ctx s = (res, s') -> actuation_attempts s' = actuation_attempts s.
Proof.
  intros Hc Hn H. apply execute_effect in H as
    (ev & d & _ & _ & [[_ []]|(_ & _ & s1 & s2 & r & [] & _ & Hb & [] & _)]); [done|].
  unfold run_body in Hb. rewrite Hn in Hb. cbn in Hb.
  apply inner_confirmed_attempts in Hb; [|done]. congruence.
Qed.

(** The provider's side of one call. *)
Lemma execute_provider call ctx (s : D) res s' :
  execute_with_context cfg call ctx s = (res, s') ->
  executed (env s') = executed (env s) \/
  exists a entity action v w w' ev,
    executed (env s') = executed (env s) ++ [a] /\
    (call_name call = "home_control" \/ call_name call = "home_undo") /\
    is_ok (tool_origin_allowed (cfg_tool_policy cfg) (request_origin ctx) (call_name call)) = true /\
    actuation_origin_allowed (cfg_actuation_safety cfg) (request_origin ctx) = true /\
    cleared entity action v (cfg_actuation_safety cfg) (request_origin ctx) (ctx_confirmed ctx) w a w' /\
    audit_log s' = audit_log s ++ [ev] /\ line_for (request_origin ctx) entity action v ev /\
    (ae_status ev = AuditStatus.Executed <-> tool_success res = true).
Proof.
  intros H. apply execute_effect in H as
    (ev & d & _ & _ & [[_ []]|(_ & _ & s1 & s2 & r & [] & Hp & Hb & [] & Hok)]); [by left|].
  apply body_effect in Hb as [_ [(He & _)|(a & uo & r0 & Hone & Hr0 & Hname)]]; [left; congruence|right].
  destruct Hone as (entity & action & v & w & w' & ev1 & Hoa & Hcl & Hex & Ha & Hline & Hres).
  exists a, entity, action, v, w, w', ev1. split_and!; try done; try congruence.
  - destruct uo; [right; apply Hname|by left].
  - apply Hp.
  - rewrite <- Hok, <- Hr0. destruct r0 as [o|e]; cbn.
    + destruct Hres as [-> _]. done.
    + destruct Hres as [-> _]. split; [|done]. intros Hx. by destruct (error_status_not_executed e).
Qed.

End api.

(** ** Properties *)

(** C1: no tool call, whatever its name and arguments, hands more than one
    action to the home.  When it hands one over, the call is a home tool that
    the origin's access lists and the actuation policy allow, the action was
    cleared by the policy and the runtime gate for the call's confirmation
    flag, and exactly one audit line names it, an [Executed] line precisely
    when the call succeeded. *)
Theorem every_execution_is_gated {W} `{World W} `{ToolBodies W} `{HashOrder} `{Unicode} `{Serde}
    `{DefaultHasher} `{FloatText} cfg call ctx (s : Dispatcher W) :
  let '(res, s') := execute_with_context cfg call ctx s in
  executed (env s') = executed (env s) \/
  exists a entity action v w w' ev,
    executed (env s') = executed (env s) ++ [a] /\
    (call_name call = "home_control" \/ call_name call = "home_undo") /\
    is_ok (tool_origin_allowed (cfg_tool_policy cfg) (request_origin ctx) (call_name call)) = true /\
    actuation_origin_allowed (cfg_actuation_safety cfg) (request_origin ctx) = true /\
    cleared entity action v (cfg_actuation_safety cfg) (request_origin ctx) (ctx_confirmed ctx) w a w' /\
    audit_log s' = audit_log s ++ [ev] /\ line_for (request_origin ctx) entity action v ev /\
    (ae_status ev = AuditStatus.Executed <-> tool_success res = true).
Proof.
  destruct (execute_with_context cfg call ctx s) as [res s'] eqn:E. by eapply execute_provider.
Qed.

(** C28: every call leaves exactly one tool-audit line, with its tool, origin,
    success and output length.  Either the gate refused and nothing but the
    gate's own tables and the log changed, or the call passed the access
    lists, the confirmation and the rate limit before its body ran, once. *)
Theorem one_audit_line_per_call {W} `{World W} `{ToolBodies W} `{HashOrder} `{Unicode} `{Serde}
    `{DefaultHasher} `{FloatText} cfg call ctx (s : Dispatcher W) :
  let '(res, s') := execute_with_context cfg call ctx s in
  exists ev d,
    tool_audit_log s' = tool_audit_log s ++ [ev] /\ tool_line call ctx res d ev /\
    (refusal d = true /\ gate_quiet s s' \/
     refusal d = false /\ d = (if tool_success res then GateDecision.Executed else GateDecision.Error) /\
     exists s1 s2 r, gate_quiet s s1 /\ passed cfg call ctx s s1 /\ run_body cfg call ctx s1 = (r, s2) /\
       gate_quiet s2 s' /\ is_ok r = tool_success res).
Proof.
  destruct (execute_with_context cfg call ctx s) as [res s'] eqn:E. by eapply execute_effect.
Qed.

(** A tool that the policy lists for confirmation never runs for a caller
    that does not set the confirmation flag, however often the same request is
    repeated: the call is answered as pending and changes nothing but the
    gate's tables.  (No caller of the dispatcher sets the flag for such a
    tool, so the repetition that the answer asks for does not proceed.) *)
Lemma listed_tool_never_runs {W} `{World W} `{ToolBodies W} `{HashOrder} `{Unicode} `{Serde}
    `{DefaultHasher} `{FloatText} cfg call ctx (s : Dispatcher W) :
  tool_requires_confirmation (cfg_tool_policy cfg) (call_name call) = true ->
  ctx_confirmed ctx = false ->
  let '(res, s') := execute_with_context cfg call ctx s in
  exists ev d, tool_audit_log s' = tool_audit_log s ++ [ev] /\ tool_line call ctx res d ev /\
    refusal d = true /\ gate_quiet s s'.
Proof.
  intros Hreq Hc. destruct (execute_with_context cfg call ctx s) as [res s'] eqn:E.
  apply execute_effect in E as (ev & d & Ht & Hl & [[Hd Hq]|(_ & _ & s1 & s2 & r & _ & Hp & _)]).
  - by exists ev, d.
  - destruct Hp as (_ & Hp & _). destruct (Hp Hreq) as [Hc' _]. congruence.
Qed.

(** Confirming a pending action replays it once, under the origin that
    asked for it and with no new charge to that origin's rate limit.  An
    unknown, used or expired token changes nothing of the home, the ledger or
    the logs. *)
Lemma confirm_replays_once {W} `{World W} `{ToolBodies W} `{HO : HashOrder} `{!HashOrderLaws HO}
    `{Unicode} `{Serde} `{DefaultHasher} `{FloatText} cfg token (s : Dispatcher W) :
  let '(r, s') := confirm_pending_home_action cfg token s in
  actuation_attempts s' = actuation_attempts s /\
  match (confirm token (outside (env s), confirmations s)).1 with
  | None => is_ok r = false /\ executed (env s') = executed (env s) /\
            action_ledger s' = action_ledger s /\ audit_log s' = audit_log s /\
            tool_audit_log s' = tool_audit_log s
  | Some p =>
      pending (confirmations s) !! token = Some p /\
      (executed (env s') = executed (env s) \/
       exists a entity action v w w' ev,
         executed (env s') = executed (env s) ++ [a] /\
         cleared entity action v (cfg_actuation_safety cfg) (pc_requested_by p) true w a w' /\
         audit_log s' = audit_log s ++ [ev] /\ line_for (pc_requested_by p) entity action v ev)
  end.
Proof.
  unfold confirm_pending_home_action, bind.
  destruct (on_confirmations (confirm token) s) as [o s1] eqn:E.
  pose proof (on_confirmations_same _ _ _ _ E) as (He & Hl & Ha & Hat & _ & Htl).
  assert (o = (confirm token (outside (env s), confirmations s)).1) as Ho.
  { unfold on_confirmations in E. destruct (confirm token _) as [o' [w c]]. by injection E as <- _. }
  rewrite <- Ho. destruct o as [p|]; [|unfold ret; split_and!; done].
  destruct (execute_with_context cfg (confirmed_call p) (confirmed_context p) s1) as [res s'] eqn:E2.
  unfold ret. split.
  { rewrite <- Hat. apply (execute_confirmed_attempts cfg (confirmed_call p) (confirmed_context p) s1 res); done. }
  split.
  - symmetry in Ho. rewrite confirm_run in Ho. destruct (now_ms _) as [now w]. cbn in Ho.
    by apply lookup_retain in Ho as [? _].
  - apply execute_provider in E2 as [E2|(a & en & ac & v & w & w' & ev & Hex & _ & _ & _ & Hcl & Hau & Hln & _)].
    + left. congruence.
    + right. exists a, en, ac, v, w, w', ev. cbn in Hcl, Hln. split_and!; try done; congruence.
Qed.


Section concrete.
#[local] Existing Instance key_order.
#[local] Existing Instance ascii_tables.
#[local] Instance null_hash : DefaultHasher := {| default_hash _ := 0%N |}.
#[local] Instance brace_serde : Serde := {| from_str _ := None; to_str _ := "{}" |}.
#[local] Instance plain_floats : FloatText := {| f64_display := fmt_fixed 1; f64_debug := fmt_fixed 1 |}.
#[local] Instance silent_bodies : ToolBodies scripted := {|
  elapsed_ms w := (0%N, w);
  other_tool _ _ _ w := (Err "not scripted", w);
|}.

(** A home with one lamp, and a policy that wants [play_media] confirmed. *)
Definition demo_policy : ToolPolicyConfig := {|
  policy_enabled := true; allowed_tools_by_origin := ∅; denied_tools_by_origin := ∅;
  max_actions_per_minute_by_tool := ∅; requires_confirmation_tools := ["play_media"];
  confirmation_ttl_secs := 120 |}.
Definition demo_cfg : DispatcherConfig := {|
  has_home_automation := true; has_memory := false; has_web_search := false; loaded_skills := None;
  cfg_tool_policy := demo_policy; cfg_actuation_safety := default_actuation_safety |}.

Definition voice_context : ToolExecutionContext :=
  {| memory_read_context := None; request_origin := RequestOrigin.Voice; ctx_confirmed := false |}.
Definition lamp_on_call : ToolCall :=
  {| call_name := "home_control";
     call_arguments := Object [("entity", Str "lamp"); ("action", Str "turn_on")] |}.
Definition media_call : ToolCall :=
  {| call_name := "play_media"; call_arguments := Object [("query", Str "jazz")] |}.
Definition fresh : Dispatcher scripted := fresh_dispatcher lamp_world.

Example lamp_turns_on :
  let s := (execute_with_context demo_cfg lamp_on_call voice_context fresh).2 in
  length (executed (env s)) = 1 /\ length (audit_log s) = 1 /\ length (tool_audit_log s) = 1 /\
  (ra_action <$> last_undoable (action_ledger s)) = Some "turn_on".
Proof. vm_compute. done. Qed.

Lemma listed_tool_never_runs_witness :
  let '(res, s') := execute_with_context demo_cfg media_call voice_context fresh in
  exists ev d, tool_audit_log s' = tool_audit_log fresh ++ [ev] /\
    tool_line media_call voice_context res d ev /\ refusal d = true /\ gate_quiet fresh s'.
Proof. apply (listed_tool_never_runs demo_cfg media_call voice_context fresh); reflexivity. Defined.

(** A lock, which the policy parks under a token. *)
Definition door_world : scripted := {|
  sc_clock := 1000000; sc_step := 1; sc_seed := 7; sc_connected := true;
  sc_target := Ok {|
    target_kind := HomeTargetKind.Entity; target_query := "front door"; display_name := "Front Door";
    entity_ids := ["lock.front"]; target_domain := Some "lock"; target_area := None;
    target_confidence := f32_dec 1 0; voice_safe := true |};
  sc_state := Ok lamp_state;
  sc_answer := Ok {| result_success := true; spoken_summary := "Unlocked.";
                     affected_targets := ["lock.front"]; state_snapshot := None;
                     result_confidence := None |} |}.
Definition unlock_call : ToolCall :=
  {| call_name := "home_control";
     call_arguments := Object [("entity", Str "front door"); ("action", Str "unlock")] |}.
Definition parked : Dispatcher scripted :=
  (execute_with_context demo_cfg unlock_call voice_context (fresh_dispatcher door_world)).2.
Definition door_token : string := random_token (repeat 7%N 16).

Example unlock_waits_then_runs_once :
  executed (env parked) = [] /\
  length (executed (env (confirm_pending_home_action demo_cfg door_token parked).2)) = 1 /\
  let s := (confirm_pending_home_action demo_cfg door_token parked).2 in
  length (executed (env (confirm_pending_home_action demo_cfg door_token s).2)) = 1.
Proof. vm_compute. done. Qed.

Lemma confirm_replays_once_witness :
  let '(_, s') := confirm_pending_home_action demo_cfg door_token parked in
  actuation_attempts s' = actuation_attempts parked.
Proof.
  generalize (confirm_replays_once demo_cfg door_token parked).
  generalize (confirm_pending_home_action demo_cfg door_token parked). intros [r s'] H. exact (proj1 H).
Defined.

Definition after_lamp : Dispatcher scripted := api_step demo_cfg (ApiExecute lamp_on_call voice_context) fresh.


End concrete.
