(* ===== verification/ChatTurn.v ===== *)
(** * A turn of the conversation ([server.rs])

    [process_chat_turn]: the user's message is stored, a call that needs no
    model is routed at once, or the model is asked and the call in its answer is
    run, and the reply is redacted, stored and returned.  The turn is a run
    over the state of the dispatcher, the conversation store and the log of
    escalations. *)

From S2P Require Import Prelude RustStr RustNum Sql Json HomeTypes HomeAction HomePolicy HomeControl Confirmations Ledger RateLimit ToolGate Calc Timer Redaction Conversations LlmProvider MemoryPolicy Escalation DispatchHome QuickRoute Channel Dispatch ToolParser Scripted.
Local Open Scope string_scope.
Local Open Scope list_scope.
Local Open Scope rust_scope.

Definition RESPONSE_RESERVE_TOKENS : nat := 512.
Definition JETSON_BASELINE_CONTEXT_TOKENS : nat := 4096.

Record ChatTurnResult := {
  cr_response : string;
  cr_tool : option string;
  cr_conversation_id : string;
}.

Record TurnState (W : Type) := {
  ts_disp : Dispatcher W;
  ts_convs : Store;
  ts_escalations : list EscalationEvent;
}.
Arguments ts_disp {W} _.
Arguments ts_convs {W} _.
Arguments ts_escalations {W} _.

(** What a turn asks of the parts that are not modelled: the text the memory
    adds to the prompt, and what the memory learns from the turn. *)
Class TurnServices (W : Type) := {
  memory_context : string -> option MemoryReadContext -> W -> string * W;
  extract_and_store : string -> W -> unit * W;
}.

Definition should_summarize_tool_result (tool_name : string) : bool :=
  negb (existsb (String.eqb tool_name)
    ["system_info"; "web_search"; "memory_recall"; "memory_status"; "memory_store"; "memory_forget"]).

Definition tool_result_text (res : ToolResult) : string := "Tool result: " +:+ tool_output res.

Definition user_message (turn : IncomingTurn) : BatchMessage :=
  {| bm_role := "user"; bm_content := turn_text turn; bm_tool_name := None; bm_speaker := speaker_name turn |}.
Definition assistant_message (text : string) (tool : option string) : BatchMessage :=
  {| bm_role := "assistant"; bm_content := text; bm_tool_name := tool; bm_speaker := None |}.
Definition system_message (text : string) : BatchMessage :=
  {| bm_role := "system"; bm_content := text; bm_tool_name := None; bm_speaker := None |}.

(** The prompt of the summary of a tool's result. *)
Definition SUMMARY_PROMPT : string :=
  "Summarize the tool result in one natural sentence without changing numbers, measurements, or facts.".

Definition estimated_tokens (messages : list Message) : nat :=
  sum_list ((fun m => Nat.div (String.length (content m)) 4) <$> messages).
Definition context_overflowed (messages : list Message) : bool :=
  Nat.ltb JETSON_BASELINE_CONTEXT_TOKENS (estimated_tokens messages + RESPONSE_RESERVE_TOKENS).

Section state.
Context {W : Type}.
Notation T := (TurnState W).

Definition set_disp (d : Dispatcher W) (s : T) : T :=
  {| ts_disp := d; ts_convs := ts_convs s; ts_escalations := ts_escalations s |}.
Definition set_convs (c : Store) (s : T) : T :=
  {| ts_disp := ts_disp s; ts_convs := c; ts_escalations := ts_escalations s |}.
Definition set_escalations (l : list EscalationEvent) (s : T) : T :=
  {| ts_disp := ts_disp s; ts_convs := ts_convs s; ts_escalations := l |}.

Definition on_disp {A} : M (Dispatcher W) A -> M T A := zoom ts_disp set_disp.
Definition on_convs {A} : M Store A -> M T A := zoom ts_convs set_convs.
Definition in_world {A} (op : W -> A * W) : M T A := on_disp (on_world op).
Definition on_escalations {A} (m : M (W * list EscalationEvent) A) : M T A :=
  fun s => let '(a, (w, l)) := m (outside (env (ts_disp s)), ts_escalations s) in
           (a, set_escalations l (set_disp (set_world w (ts_disp s)) s)).

End state.

Section turn.
Context {W : Type} `{Ops : World W} `{TB : ToolBodies W} `{HO : HashOrder} `{U : Unicode}
  `{SD : Serde} `{DH : DefaultHasher} `{FT : FloatText} `{PX : Proxy W} `{TS : TurnServices W}.
Context (tool_call_de : value -> option ToolCall) (cfg : DispatcherConfig) (enforced : bool).
Context (provider : Completion W).
Notation T := (TurnState W).

(** An operation of the store, at the time it reads. *)
Definition at_now {A} (f : Z -> M Store A) : M T A :=
  let! now := in_world now_ms in on_convs (f (Z.of_N now)).

Definition complete (messages : list Message) (max_tokens : N) (hints : LlmRequestHints)
    : M T (result string string) :=
  in_world (provider messages (Some max_tokens) (Some hints)).

Definition build_memory_context_for_turn (turn : IncomingTurn) : M T string :=
  in_world (memory_context (turn_text turn)
    (if is_resolved (turn_speaker turn) then Some (turn_memory_read_context turn false) else None)).

Definition direct_response (res : ToolResult) : string :=
  if tool_success res then tool_output res else result_tool res +:+ " failed: " +:+ tool_output res.

Definition tool_json (call : ToolCall) : string :=
  to_str (Object [("arguments", call_arguments call); ("tool", Str (call_name call))]).

Definition finalize_direct_tool_turn (conv_id : string) (call : ToolCall) (res : ToolResult) : M T string :=
  let sanitized := sanitize_output (direct_response res) in
  let! _ := at_now (ensure_and_append_batch_or_log enforced conv_id "New conversation"
    [assistant_message (tool_json call) (Some (result_tool res)); system_message (tool_result_text res);
     assistant_message sanitized None]) in
  ret sanitized.

Definition summarize (conv_id : string) (res : ToolResult) (family : ModelFamily.t) : M T string :=
  let! recent := on_convs (get_recent conv_id 6) in
  let recent := match recent with Ok l => l | Err _ => [] end in
  let '(messages, _) :=
    apply_reasoning_mode family ({| role := "system"; content := SUMMARY_PROMPT |} :: recent) ""
      InteractionKind.ToolSummary in
  let! summary := complete messages 128 (tool_summary conv_id 128) in
  ret (match summary with Ok s => s | Err _ => tool_output res end).

Definition finalize_tool_turn (conv_id llm_response : string) (res : ToolResult) (family : ModelFamily.t)
    : M T string :=
  let! _ := at_now (append_or_log enforced conv_id (assistant_message llm_response (Some (result_tool res)))) in
  let! _ := at_now (append_or_log enforced conv_id (system_message (tool_result_text res))) in
  let! summary := (if should_summarize_tool_result (result_tool res)
                   then summarize conv_id res family else ret (tool_output res)) in
  let sanitized_summary := sanitize_output summary in
  let! _ := at_now (append_or_log enforced conv_id (assistant_message sanitized_summary None)) in
  ret sanitized_summary.

(** The model's answer, here or through the proxy. *)
Definition escalated (p : PrivacyProxyConfig) (messages : list Message) (reason : EscalationReason.t)
    : M T (result string string) :=
  on_escalations (escalate_via_privacy_proxy p messages reason).

Definition obtain_response (conv_id : string) (messages : list Message) (privacy_proxy : option PrivacyProxyConfig)
    : M T (result string string) :=
  let local := complete messages 512 (agent_turn conv_id 512) in
  match (if context_overflowed messages then may_escalate privacy_proxy EscalationReason.ContextOverflow else None) with
  | Some p =>
      let! r := escalated p messages EscalationReason.ContextOverflow in
      match r with Ok text => ret (Ok text) | Err _ => local end
  | None =>
      let! r := local in
      match r with
      | Ok text => ret (Ok text)
      | Err local_err =>
          match may_escalate privacy_proxy EscalationReason.LocalDecline with
          | None => ret (Err local_err)
          | Some p =>
              let! r := escalated p messages EscalationReason.LocalDecline in
              match r with Ok text => ret (Ok text) | Err _ => ret (Err local_err) end
          end
      end
  end.

Definition turn_messages (system_prompt context : string) (history : list Message) (turn : IncomingTurn)
    (family : ModelFamily.t) : list Message :=
  (apply_reasoning_mode family
    ({| role := "system";
        content := system_prompt +:+ newline +:+ newline +:+ "Relevant household context:" +:+ newline +:+ context |}
     :: history) (turn_text turn) InteractionKind.Chat).1.

Definition plain_reply (llm_response : string) : string :=
  if is_unparsed_tool_call tool_call_de llm_response then UNPARSED_TOOL_CALL_FALLBACK
  else sanitize_output llm_response.

(** What is done with the model's answer. *)
Definition answer_turn (conv_id llm_response : string) (ctx : ToolExecutionContext) (family : ModelFamily.t)
    : M T (string * option string) :=
  let! tool := on_disp (try_tool_call_with_context tool_call_de cfg llm_response ctx) in
  match tool with
  | Some res =>
      let! summary := finalize_tool_turn conv_id llm_response res family in
      ret (summary, Some (result_tool res))
  | None =>
      let sanitized := plain_reply llm_response in
      let! _ := at_now (append_or_log enforced conv_id (assistant_message sanitized None)) in
      ret (sanitized, None)
  end.

Definition turn_result (conv_id : string) (reply : string * option string) : ChatTurnResult :=
  {| cr_response := reply.1; cr_tool := reply.2; cr_conversation_id := conv_id |}.

Definition store_user_message (conv_id : string) (turn : IncomingTurn) : M T (result unit string) :=
  at_now (ensure_and_append_batch enforced conv_id "New conversation" [user_message turn]).

Definition direct_turn (conv_id : string) (turn : IncomingTurn) (ctx : ToolExecutionContext) (call : ToolCall)
    : M T (result ChatTurnResult string) :=
  let! res := on_disp (execute_with_context cfg call ctx) in
  let! final_response := finalize_direct_tool_turn conv_id call res in
  let! _ := in_world (extract_and_store (turn_text turn)) in
  ret (Ok (turn_result conv_id (final_response, Some (result_tool res)))).

Definition model_turn (conv_id : string) (turn : IncomingTurn) (ctx : ToolExecutionContext) (system_prompt : string)
    (max_history : nat) (family : ModelFamily.t) (privacy_proxy : option PrivacyProxyConfig)
    : M T (result ChatTurnResult string) :=
  let! context := build_memory_context_for_turn turn in
  let!? history := on_convs (get_recent conv_id max_history) in
  let messages := turn_messages system_prompt context history turn family in
  let!? llm_response := obtain_response conv_id messages privacy_proxy in
  let! reply := answer_turn conv_id llm_response ctx family in
  let! _ := in_world (extract_and_store (turn_text turn)) in
  ret (Ok (turn_result conv_id reply)).

Definition process_chat_turn (conv_id : string) (turn : IncomingTurn) (system_prompt : string) (max_history : nat)
    (family : ModelFamily.t) (origin : RequestOrigin.t) (privacy_proxy : option PrivacyProxyConfig)
    : M T (result ChatTurnResult string) :=
  let!? _ := store_user_message conv_id turn in
  let ctx := tool_execution_context turn origin false in
  match route_for_available_tools (turn_text turn) (has_home_automation cfg) (has_web_search cfg) with
  | Some call => direct_turn conv_id turn ctx call
  | None => model_turn conv_id turn ctx system_prompt max_history family privacy_proxy
  end.

End turn.

(** ** What a turn leaves in the store *)

Definition as_batch (m : MessageRow) : BatchMessage :=
  {| bm_role := mg_role m; bm_content := mg_content m; bm_tool_name := mg_tool_name m; bm_speaker := mg_speaker m |}.

(** Every message ever written, with its conversation, in the order of writing. *)
Definition transcript (t : ChatTables) : list (string * BatchMessage) :=
  (fun m => (mg_conv m, as_batch m)) <$> messages t.

Section store.
Context (enforced : bool) (conv : string) (now : Z).

Lemma transcript_pushes t l : transcript (pushes conv now t l) = transcript t ++ (pair conv <$> l).
Proof.
  unfold transcript. rewrite pushes_messages, fmap_app. f_equal.
  generalize (next_rowid (mg_id <$> messages t)). induction l as [|m l IH]; intros id; [done|].
  cbn [rows_from fmap list_fmap]. rewrite IH. by destruct m.
Qed.

Lemma transcript_batch title l t : transcript (batch_tables conv now title l t) = transcript t ++ (pair conv <$> l).
Proof.
  unfold batch_tables. change (transcript (update_conversation ?f conv ?t)) with (transcript t).
  rewrite transcript_pushes. unfold insert_or_ignore. by destruct (has_conversation conv t).
Qed.

Lemma batch_adds title l c r c' :
  ensure_and_append_batch enforced conv title l now c = (r, c') ->
  transcript (tables c') = transcript (tables c) ++ (pair conv <$> if is_ok r then l else []) /\
  (is_ok r = true -> has_conversation conv (tables c') = true) /\
  (Sql.quiet c -> is_ok r = true /\ Sql.quiet c').
Proof.
  intros H. pose proof (batch_outcome _ _ _ _ _ _ _ _ H) as Ht. split_and!.
  - rewrite Ht. destruct r; [apply transcript_batch|]. by rewrite app_nil_r.
  - destruct r as [u|e]; [intros _|done]. rewrite Ht. unfold batch_tables.
    rewrite (has_conversation_ids conv _ (pushes conv now (insert_or_ignore conv title now (tables c)) l));
      [|by rewrite update_conversation_ids by (intros; apply finish_id)].
    rewrite (has_conversation_ids conv _ (insert_or_ignore conv title now (tables c)));
      [apply ensure_has|by rewrite pushes_conversations].
  - intros Hq. rewrite batch_quiet in H by done. injection H as <- <-. by split.
Qed.

Lemma insert_transcript m t u t' :
  insert_message enforced conv m now t = Ok (u, t') -> transcript t' = transcript t ++ [(conv, m)].
Proof.
  unfold insert_message. destruct (_ && _); [done|]. intros [= _ <-].
  change (with_messages _ t) with (pushes conv now t [m]). apply transcript_pushes.
Qed.

(** A statement that leaves the messages alone. *)
Lemma statement_transcript {A} (f : ChatTables -> result (A * ChatTables) string) (c : Store) :
  (forall t a t', f t = Ok (a, t') -> transcript t' = transcript t) ->
  transcript (tables (statement f c).2) = transcript (tables c).
Proof.
  intros Hf. destruct (statement f c) as [r c'] eqn:E. cbn [snd].
  apply statement_fate in E as [[-> _]|(a & t & E & _ & ->)]; [done|by eapply Hf].
Qed.

Lemma update_transcript f id (c : Store) : transcript (tables (update (update_conversation f id) c).2) = transcript (tables c).
Proof. apply statement_transcript. by intros t a t' [= _ <-]. Qed.

Lemma append_adds m (c : Store) u c' :
  append_or_log enforced conv m now c = (u, c') ->
  (exists l, l `sublist_of` [m] /\ transcript (tables c') = transcript (tables c) ++ (pair conv <$> l)) /\
  (Sql.quiet c -> has_conversation conv (tables c) = true ->
   transcript (tables c') = transcript (tables c) ++ [(conv, m)] /\ Sql.quiet c' /\
   has_conversation conv (tables c') = true).
Proof.
  unfold append_or_log, bind, ret. destruct (append enforced conv m now c) as [r c1] eqn:E. intros [= _ <-]. split.
  - unfold append, ebind in E. destruct (statement _ c) as [[u1|e] c2] eqn:Es.
    + apply statement_fate in Es as [[_ [? ?]]|(a & t & Hi & _ & Ht)]; [done|].
      apply insert_transcript in Hi. rewrite <- Ht in Hi. exists [m]. split; [done|]. cbn. rewrite <- Hi.
      destruct (query _ c2) as [[n|e] c3] eqn:Eq; pose proof (f_equal (fun p => transcript (tables p.2)) Eq) as Hq;
        unfold query in Hq; rewrite statement_transcript in Hq by (by intros t1 a1 t2 [= _ <-]); cbn in Hq.
      * rewrite Hq. destruct (_ && _); apply (f_equal (fun p => transcript (tables p.2))) in E;
          rewrite update_transcript in E; by symmetry.
      * injection E as _ <-. by symmetry.
    + injection E as _ <-. apply statement_fate in Es as [[-> _]|(? & ? & _ & ? & _)]; [|done].
      exists []. split; [apply sublist_nil_l|]. by rewrite app_nil_r.
  - intros Hq Hc. rewrite append_quiet in E by done. injection E as _ <-. cbn. rewrite append_tables_has.
    split_and!; [|done|done]. unfold append_tables.
    transitivity (transcript (pushes conv now (tables c) [m])); [by case_match|apply transcript_pushes].
Qed.

End store.

(** ** What a turn does to the dispatcher *)

(** The dispatcher with another outside world. *)
Definition same_but_world {W} (d d' : Dispatcher W) : Prop := exists w, d' = set_world w d.

#[export] Instance same_but_world_preorder {W} : PreOrder (@same_but_world W).
Proof.
  split.
  - intros d. exists (outside (env d)). by destruct d as [[] ? ? ? ? ? ? ? ?].
  - intros d1 d2 d3 [w ->] [w' ->]. by exists w'.
Qed.

(** A step that runs no tool and escalates nothing. *)
Record sends_nothing {W} (s s' : TurnState W) : Prop := {
  sn_disp : same_but_world (ts_disp s) (ts_disp s');
  sn_escalations : ts_escalations s' = ts_escalations s;
}.

#[export] Instance sends_nothing_preorder {W} : PreOrder (@sends_nothing W).
Proof. split; [done|]. intros s1 s2 s3 [] []. split; [by etrans|congruence]. Qed.

Section effects.
Context {W : Type} `{Ops : World W} `{TB : ToolBodies W} `{HO : HashOrder} `{U : Unicode}
  `{SD : Serde} `{DH : DefaultHasher} `{FT : FloatText} `{PX : Proxy W} `{TS : TurnServices W}.
Context (tool_call_de : value -> option ToolCall) (cfg : DispatcherConfig) (enforced : bool).
Context (provider : Completion W).
Notation T := (TurnState W).

Lemma in_world_run {A} (op : W -> A * W) (s : T) a s' :
  in_world op s = (a, s') -> ts_convs s' = ts_convs s /\ sends_nothing s s'.
Proof.
  unfold in_world, on_disp, zoom, on_world. destruct (op _) as [x w]. intros [= _ <-].
  split; [done|]. split; [by exists w|done].
Qed.

Lemma on_convs_run {A} (m : M Store A) (s : T) a s' :
  on_convs m s = (a, s') -> m (ts_convs s) = (a, ts_convs s') /\ sends_nothing s s'.
Proof. unfold on_convs, zoom. destruct (m _) as [x c]. by intros [= -> <-]. Qed.

Lemma at_now_run {A} (f : Z -> M Store A) (s : T) a s' :
  at_now f s = (a, s') -> exists now, f now (ts_convs s) = (a, ts_convs s') /\ sends_nothing s s'.
Proof.
  unfold at_now, bind. destruct (in_world now_ms s) as [now s1] eqn:E1. intros E2.
  apply in_world_run in E1 as [Hc H1]. apply on_convs_run in E2 as [E2 H2]. exists (Z.of_N now).
  rewrite <- Hc. split; [done|by etrans].
Qed.

Lemma on_disp_run {A} (m : M (Dispatcher W) A) (s : T) a s' :
  on_disp m s = (a, s') -> m (ts_disp s) = (a, ts_disp s') /\ ts_convs s' = ts_convs s /\
    ts_escalations s' = ts_escalations s.
Proof. unfold on_disp, zoom. destruct (m _) as [x d]. by intros [= -> <-]. Qed.

Lemma escalated_run p messages reason (s : T) r s' :
  escalated p messages reason s = (r, s') ->
  ts_convs s' = ts_convs s /\ same_but_world (ts_disp s) (ts_disp s') /\
  exists ev, ts_escalations s' = ts_escalations s ++ [ev].
Proof.
  unfold escalated, on_escalations, escalate_via_privacy_proxy.
  destruct (recent_memories _ _) as [entries w1]. destruct (seed_vocab _ _ _) as [u w2].
  destruct (openai_chat _ _ _ _) as [a w3]. intros [= _ <-].
  split_and!; [done|by exists w3|by eexists].
Qed.

(** One message added, or nothing; nothing is lost on a disk that does not
    fail. *)
Lemma store_one conv m (s : T) u s' :
  at_now (append_or_log enforced conv m) s = (u, s') ->
  sends_nothing s s' /\
  (exists l, l `sublist_of` [m] /\
     transcript (tables (ts_convs s')) = transcript (tables (ts_convs s)) ++ (pair conv <$> l)) /\
  (Sql.quiet (ts_convs s) -> has_conversation conv (tables (ts_convs s)) = true ->
   transcript (tables (ts_convs s')) = transcript (tables (ts_convs s)) ++ [(conv, m)] /\
   Sql.quiet (ts_convs s') /\ has_conversation conv (tables (ts_convs s')) = true).
Proof. intros H. apply at_now_run in H as (now & H & Hs). split; [done|]. by eapply append_adds. Qed.

(** Messages added one after the other. *)
Definition records (conv : string) (l : list BatchMessage) (s s' : T) : Prop :=
  (exists l', l' `sublist_of` l /\
     transcript (tables (ts_convs s')) = transcript (tables (ts_convs s)) ++ (pair conv <$> l')) /\
  (Sql.quiet (ts_convs s) -> has_conversation conv (tables (ts_convs s)) = true ->
   transcript (tables (ts_convs s')) = transcript (tables (ts_convs s)) ++ (pair conv <$> l) /\
   Sql.quiet (ts_convs s') /\ has_conversation conv (tables (ts_convs s')) = true).

Lemma records_app conv l k s1 s2 s3 : records conv l s1 s2 -> records conv k s2 s3 -> records conv (l ++ k) s1 s3.
Proof.
  intros [(l' & Hl & Ht) Hq] [(k' & Hk & Ht') Hq']. split.
  - exists (l' ++ k'). split; [by apply sublist_app|]. by rewrite Ht', Ht, fmap_app, (assoc_L (++)).
  - intros H1 H2. destruct (Hq H1 H2) as (E & H3 & H4). destruct (Hq' H3 H4) as (E' & H5 & H6).
    by rewrite E', E, fmap_app, (assoc_L (++)).
Qed.

Lemma records_nil conv s s' : ts_convs s' = ts_convs s -> records conv [] s s'.
Proof.
  unfold records. intros ->. split; [exists []; split; [done|]|intros ??; split; [|done]]; cbn; by rewrite app_nil_r.
Qed.

Lemma records_same conv l s1 s1' s2 s2' :
  ts_convs s1' = ts_convs s1 -> ts_convs s2' = ts_convs s2 -> records conv l s1 s2 -> records conv l s1' s2'.
Proof. unfold records. by intros -> ->. Qed.

Lemma records_one conv m s u s' : at_now (append_or_log enforced conv m) s = (u, s') -> records conv [m] s s'.
Proof. intros H. apply store_one in H as (_ & H & Hq). by split. Qed.

Lemma store_sends conv m s u s' : at_now (append_or_log enforced conv m) s = (u, s') -> sends_nothing s s'.
Proof. intros H. by apply store_one in H as (H & _). Qed.

Lemma query_run {A} (f : ChatTables -> A) conv (s : T) a s' :
  on_convs (query f) s = (a, s') -> records conv [] s s' /\ sends_nothing s s'.
Proof.
  intros H. apply on_convs_run in H as [H Hs]. split; [|done].
  assert (tables (ts_convs s') = tables (ts_convs s)) as Ht.
  { apply statement_fate in H as [[-> _]|(? & ? & [= _ ->] & _ & ->)]; done. }
  unfold records. rewrite Ht. split; [exists []; split; [done|]; cbn; by rewrite app_nil_r|].
  intros Hq Hc. rewrite query_quiet in H by done. injection H as _ H. rewrite <- H. split_and!; [|done..].
  cbn. by rewrite app_nil_r.
Qed.

Lemma complete_run messages n hints (s : T) r s' :
  complete provider messages n hints s = (r, s') -> ts_convs s' = ts_convs s /\ sends_nothing s s'.
Proof. apply in_world_run. Qed.

Lemma summarize_run conv res family (s : T) a s' :
  summarize provider conv res family s = (a, s') -> records conv [] s s' /\ sends_nothing s s'.
Proof.
  unfold summarize, bind. destruct (on_convs (get_recent conv 6) s) as [recent s1] eqn:E1.
  apply (query_run _ conv) in E1 as [H1 Hs1].
  destruct (apply_reasoning_mode _ _ _ _) as [ms d].
  destruct (complete provider ms 128 _ s1) as [r s2] eqn:E2. apply complete_run in E2 as [H2 Hs2].
  intros [= _ <-]. split; [|by etrans]. eapply (records_app conv [] []); [done|by apply records_nil].
Qed.

(** The messages that record a tool call and its result. *)
Definition tool_lines (tool : option string) (middle : list BatchMessage) : Prop :=
  match tool with
  | None => middle = []
  | Some t => exists call_text output,
      middle = [assistant_message call_text (Some t); system_message ("Tool result: " +:+ output)]
  end.

Definition redacted_reply (text : string) : Prop :=
  (exists raw, text = sanitize_output raw) \/ text = UNPARSED_TOOL_CALL_FALLBACK.

Lemma finalize_tool_run conv llm_response res family (s : T) reply s' :
  finalize_tool_turn enforced provider conv llm_response res family s = (reply, s') ->
  redacted_reply reply /\ sends_nothing s s' /\
  exists middle, tool_lines (Some (result_tool res)) middle /\
    records conv (middle ++ [assistant_message reply None]) s s'.
Proof.
  unfold finalize_tool_turn, bind, ret.
  destruct (at_now _ s) as [u1 s1] eqn:E1. destruct (at_now _ s1) as [u2 s2] eqn:E2.
  destruct ((if should_summarize_tool_result (result_tool res)
    then summarize provider conv res family else (fun s => (tool_output res, s))) s2) as [summary s3] eqn:E3.
  destruct (at_now _ s3) as [u4 s4] eqn:E4. intros [= <- <-].
  assert (records conv [] s2 s3 /\ sends_nothing s2 s3) as [H3 Hs3].
  { destruct (should_summarize_tool_result _); [by eapply summarize_run|].
    injection E3 as _ ->. split; [by apply records_nil|done]. }
  split; [left; by eexists|]. split.
  - transitivity s1; [by eapply store_sends|]. transitivity s2; [by eapply store_sends|].
    transitivity s3; [done|]. by eapply store_sends.
  - eexists. split; [by do 2 eexists|]. apply (records_app conv _ _ s s2).
    + apply (records_app conv [_] [_] s s1); by eapply records_one.
    + apply (records_app conv [] _ s2 s3); [done|by eapply records_one].
Qed.

(** The answer of a turn, where the dispatcher stands before and after it. *)
Definition one_call (ctx : ToolExecutionContext) (tool : option string) (d d' : Dispatcher W) : Prop :=
  match tool with
  | None => same_but_world d d'
  | Some t => exists call d1 d2 res,
      same_but_world d d1 /\ execute_with_context cfg call ctx d1 = (res, d2) /\ same_but_world d2 d' /\
      t = result_tool res
  end.

Lemma answer_run conv llm_response ctx family (s : T) reply s' :
  answer_turn tool_call_de cfg enforced provider conv llm_response ctx family s = (reply, s') ->
  redacted_reply reply.1 /\ one_call ctx reply.2 (ts_disp s) (ts_disp s') /\
  ts_escalations s' = ts_escalations s /\
  exists middle, tool_lines reply.2 middle /\ records conv (middle ++ [assistant_message reply.1 None]) s s'.
Proof.
  unfold answer_turn, bind. destruct (on_disp _ s) as [tool s1] eqn:E1.
  apply on_disp_run in E1 as (E1 & Hc & He). unfold try_tool_call_with_context in E1.
  destruct (response_call _ _ _) as [call|].
  - unfold bind in E1. destruct (execute_with_context _ _ _ _) as [res d2] eqn:Ex. injection E1 as <- Hd.
    destruct (finalize_tool_turn _ _ _ _ _ _ s1) as [summary s2] eqn:E2. intros [= <- <-].
    apply finalize_tool_run in E2 as (Hr & Hs & middle & Hm & Hrec). cbn [fst snd]. split_and!; [done| | |].
    + exists call, (ts_disp s), d2, res. split_and!; [done|done|subst d2; apply Hs|done].
    + rewrite <- He. apply Hs.
    + exists middle. split; [done|]. by apply (records_same _ _ s1 s s2 s2).
  - injection E1 as <- Hd. destruct (at_now _ s1) as [u s2] eqn:E2. intros [= <- <-]. cbn [fst snd].
    pose proof (store_sends _ _ _ _ _ E2) as [Hs Hse]. apply records_one in E2. split_and!.
    + unfold redacted_reply, plain_reply. destruct (is_unparsed_tool_call _ _); [by right|left; by eexists].
    + cbn. by rewrite Hd.
    + congruence.
    + exists []. split; [done|]. by apply (records_same _ _ s1 s s2 s2).
Qed.

Lemma finalize_direct_run conv call res (s : T) reply s' :
  finalize_direct_tool_turn enforced conv call res s = (reply, s') ->
  redacted_reply reply /\ sends_nothing s s' /\
  exists middle, tool_lines (Some (result_tool res)) middle /\
    records conv (middle ++ [assistant_message reply None]) s s'.
Proof.
  unfold finalize_direct_tool_turn, bind, ret. destruct (at_now _ s) as [u s1] eqn:E. intros [= <- <-].
  apply at_now_run in E as (now & E & Hs). unfold ensure_and_append_batch_or_log, bind, ret in E.
  destruct (ensure_and_append_batch _ _ _ _ _ _) as [r c1] eqn:Eb. injection E as _ E.
  apply batch_adds in Eb as (Ht & Hh & Hq). rewrite E in Ht, Hh, Hq. split; [left; by eexists|]. split; [done|].
  exists [assistant_message (tool_json call) (Some (result_tool res)); system_message (tool_result_text res)].
  split; [by do 2 eexists|]. split.
  - eexists. split; [|exact Ht]. destruct (is_ok r); [reflexivity|apply sublist_nil_l].
  - intros Hq0 _. destruct (Hq Hq0) as [Hr Hq']. rewrite Hr in Ht. split_and!; [done|done|auto].
Qed.

Lemma obtain_run conv messages proxy (s : T) r s' :
  obtain_response provider conv messages proxy s = (r, s') ->
  ts_convs s' = ts_convs s /\ same_but_world (ts_disp s) (ts_disp s') /\
  (ts_escalations s' = ts_escalations s \/
   exists ev reason p, ts_escalations s' = ts_escalations s ++ [ev] /\ may_escalate proxy reason = Some p).
Proof.
  unfold obtain_response. destruct (if context_overflowed messages then _ else None) as [p|] eqn:Ep.
  - assert (may_escalate proxy EscalationReason.ContextOverflow = Some p) as Hp by by destruct (context_overflowed _).
    unfold bind. destruct (escalated p _ _ s) as [a s1] eqn:E1. apply escalated_run in E1 as (Hc & Hd & ev & He).
    destruct a as [text|e]; [intros [= _ <-]|intros E2; apply complete_run in E2 as [Hc2 [Hd2 He2]]].
    + split_and!; [done..|right; eauto].
    + split_and!; [congruence|by etrans|right]. exists ev, EscalationReason.ContextOverflow, p. by rewrite He2.
  - unfold bind. destruct (complete _ _ _ _ s) as [a s1] eqn:E1. apply complete_run in E1 as [Hc [Hd He]].
    destruct a as [text|e]; [intros [= _ <-]; split_and!; [done..|by left]|].
    destruct (may_escalate proxy EscalationReason.LocalDecline) as [p|] eqn:Hp;
      [|intros [= _ <-]; split_and!; [done..|by left]].
    destruct (escalated p _ _ s1) as [a2 s2] eqn:E2. apply escalated_run in E2 as (Hc2 & Hd2 & ev & He2).
    assert (forall r0, (ret r0 s2 : _ * T) = (r, s') -> s' = s2) as Hs by by intros r0 [= _ <-].
    intros H. assert (s' = s2) as -> by (destruct a2; by eapply Hs).
    split_and!; [congruence|by etrans|right]. exists ev, EscalationReason.LocalDecline, p. by rewrite He2, He.
Qed.


Lemma store_user_run conv turn (s : T) r s' :
  store_user_message enforced conv turn s = (r, s') ->
  sends_nothing s s' /\
  transcript (tables (ts_convs s')) =
    transcript (tables (ts_convs s)) ++ (pair conv <$> if is_ok r then [user_message turn] else []) /\
  (is_ok r = true -> has_conversation conv (tables (ts_convs s')) = true) /\
  (Sql.quiet (ts_convs s) -> is_ok r = true /\ Sql.quiet (ts_convs s')).
Proof.
  unfold store_user_message. intros H. apply at_now_run in H as (now & H & Hs). split; [done|]. by eapply batch_adds.
Qed.

(** From the stored user message to the reply. *)
Definition answered (conv : string) (ctx : ToolExecutionContext) (proxy : option PrivacyProxyConfig)
    (r : result ChatTurnResult string) (s s' : T) : Prop :=
  (ts_escalations s' = ts_escalations s \/
   exists ev reason p, ts_escalations s' = ts_escalations s ++ [ev] /\ may_escalate proxy reason = Some p) /\
  match r with
  | Err _ => same_but_world (ts_disp s) (ts_disp s') /\
             transcript (tables (ts_convs s')) = transcript (tables (ts_convs s))
  | Ok res =>
      cr_conversation_id res = conv /\ redacted_reply (cr_response res) /\
      one_call ctx (cr_tool res) (ts_disp s) (ts_disp s') /\
      exists middle, tool_lines (cr_tool res) middle /\
        records conv (middle ++ [assistant_message (cr_response res) None]) s s'
  end.

Lemma one_call_world ctx tool (d0 d d' d1 : Dispatcher W) :
  same_but_world d0 d -> one_call ctx tool d d' -> same_but_world d' d1 -> one_call ctx tool d0 d1.
Proof.
  intros H0 H H1. destruct tool as [t|]; cbn in *.
  - destruct H as (call & e1 & e2 & res & Ha & Hx & Hb & ->). exists call, e1, e2, res.
    split_and!; [by transitivity d|done|by transitivity d'|done].
  - transitivity d; [done|]. by transitivity d'.
Qed.

Lemma direct_turn_run conv turn ctx call proxy (s : T) r s' :
  direct_turn cfg enforced conv turn ctx call s = (r, s') -> answered conv ctx proxy r s s'.
Proof.
  unfold direct_turn, bind. destruct (on_disp _ s) as [res s1] eqn:E1. apply on_disp_run in E1 as (E1 & Hc & He).
  destruct (finalize_direct_tool_turn _ _ _ _ s1) as [reply s2] eqn:E2.
  apply finalize_direct_run in E2 as (Hr & [Hd2 He2] & middle & Hm & Hrec).
  destruct (in_world _ s2) as [u s3] eqn:E3. apply in_world_run in E3 as [Hc3 [Hd3 He3]].
  intros [= <- <-]. split; [left; congruence|]. split_and!; [done|done| |].
  - exists call, (ts_disp s), (ts_disp s1), res. split_and!; [done|done|by transitivity (ts_disp s2)|done].
  - exists middle. split; [done|]. by apply (records_same _ _ s1 s s2 s3).
Qed.

Lemma model_turn_run conv turn ctx system_prompt n family proxy (s : T) r s' :
  model_turn tool_call_de cfg enforced provider conv turn ctx system_prompt n family proxy s = (r, s') ->
  answered conv ctx proxy r s s'.
Proof.
  unfold model_turn, bind, ebind. destruct (build_memory_context_for_turn turn s) as [context s1] eqn:E1.
  apply in_world_run in E1 as [Hc1 [Hd1 He1]]. destruct (on_convs _ s1) as [h s2] eqn:E2.
  apply (query_run _ conv) in E2 as [H2 [Hd2 He2]]. apply (records_same _ _ s1 s s2 s2) in H2; [|done|done].
  assert (transcript (tables (ts_convs s2)) = transcript (tables (ts_convs s))) as Ht2.
  { destruct H2 as [(l & Hl%sublist_nil_r & Ht) _]. subst l. by rewrite app_nil_r in Ht. }
  assert (same_but_world (ts_disp s) (ts_disp s2)) as Hd by by transitivity (ts_disp s1).
  destruct h as [history|e]; [|intros [= <- <-]; split; [left; congruence|by split]].
  destruct (obtain_response _ _ _ _ s2) as [o s3] eqn:E3. apply obtain_run in E3 as (Hc3 & Hd3 & He3).
  rewrite He2, He1 in He3. assert (same_but_world (ts_disp s) (ts_disp s3)) as Hd' by by transitivity (ts_disp s2).
  destruct o as [llm_response|e]; [|intros [= <- <-]; split; [done|split; [done|congruence]]].
  destruct (answer_turn _ _ _ _ _ _ _ _ s3) as [reply s4] eqn:E4.
  apply answer_run in E4 as (Hr & Hcall & He4 & middle & Hm & Hrec).
  destruct (in_world _ s4) as [u s5] eqn:E5. apply in_world_run in E5 as [Hc5 [Hd5 He5]].
  intros [= <- <-]. split; [rewrite He5, He4; exact He3|]. split_and!; [done|done| |].
  - eapply one_call_world; done.
  - exists middle. split; [done|]. apply (records_app conv [] _ s s2); [done|].
    by apply (records_same _ _ s3 s2 s4 s5).
Qed.

End effects.

(** ** Properties *)

Lemma turn_run {W} `{World W} `{ToolBodies W} `{HashOrder} `{Unicode} `{Serde} `{DefaultHasher} `{FloatText}
    `{Proxy W} `{TurnServices W} tool_call_de cfg enforced provider conv turn system_prompt n family origin proxy
    (s : TurnState W) r s' :
  process_chat_turn tool_call_de cfg enforced provider conv turn system_prompt n family origin proxy s = (r, s') ->
  exists r1 s1, store_user_message enforced conv turn s = (r1, s1) /\
    match r1 with
    | Err e => r = Err e /\ s' = s1
    | Ok _ => answered cfg conv (tool_execution_context turn origin false) proxy r s1 s'
    end.
Proof.
  unfold process_chat_turn, ebind. destruct (store_user_message enforced conv turn s) as [[u|e] s1] eqn:E1.
  - intros E. exists (Ok u), s1. split; [done|]. destruct (route_for_available_tools _ _ _) as [call|].
    + by eapply direct_turn_run.
    + by eapply model_turn_run.
  - intros [= <- <-]. by exists (Err e), s1.
Qed.

(** The messages of a turn, when nothing fails to be written. *)
Definition turn_script (turn : IncomingTurn) (res : ChatTurnResult) (middle : list BatchMessage) : list BatchMessage :=
  user_message turn :: middle ++ [assistant_message (cr_response res) None].

(** C4: what a person is told is what is kept, and it is redacted.  A turn
    writes to its own conversation only, and first the user's message; when it
    returns a reply, that reply went through the redaction or is the fixed
    sentence for calls that do not parse, and the messages written are, in
    order, the user's, the call and its result if a tool ran, and the reply,
    from which a failing disk may drop any but the first; a disk that does not
    fail drops none.  A turn that fails wrote the user's message or nothing. *)
Theorem turn_is_recorded {W} `{World W} `{ToolBodies W} `{HashOrder} `{Unicode} `{Serde} `{DefaultHasher}
    `{FloatText} `{Proxy W} `{TurnServices W} tool_call_de cfg enforced provider conv turn system_prompt n family
    origin proxy (s : TurnState W) :
  let '(r, s') :=
    process_chat_turn tool_call_de cfg enforced provider conv turn system_prompt n family origin proxy s in
  exists said,
    transcript (tables (ts_convs s')) = transcript (tables (ts_convs s)) ++ (pair conv <$> said) /\
    match r with
    | Err _ => said = [] \/ said = [user_message turn]
    | Ok res =>
        cr_conversation_id res = conv /\ redacted_reply (cr_response res) /\
        exists middle, tool_lines (cr_tool res) middle /\
          said `sublist_of` turn_script turn res middle /\ head said = Some (user_message turn) /\
          (Sql.quiet (ts_convs s) -> said = turn_script turn res middle)
    end.
Proof.
  destruct (process_chat_turn _ _ _ _ _ _ _ _ _ _ _ s) as [r s'] eqn:E.
  apply turn_run in E as (r1 & s1 & E1 & Hr). apply store_user_run in E1 as (_ & Ht & Hh & Hq).
  destruct r1 as [u|e]; cbn [is_ok] in *; [|destruct Hr as [-> ->]; exists []; split; [done|by left]].
  destruct Hr as [_ Hr]. destruct r as [res|e].
  - destruct Hr as (Hc & Hred & _ & middle & Hm & [(l & Hl & Hlt) Hrec]).
    exists (user_message turn :: l). rewrite Hlt, Ht, <- (assoc_L (++)). split; [done|].
    split_and!; [done|done|]. exists middle. split_and!; [done| |done|].
    + by apply sublist_skip.
    + intros Hs. destruct (Hq Hs) as [_ Hq1]. destruct (Hrec Hq1 (Hh eq_refl)) as [Hall _].
      rewrite Hlt in Hall. apply app_inv_head in Hall. unfold turn_script. f_equal.
      by apply (inj (fmap (pair conv))) in Hall.
  - destruct Hr as [_ Hr]. exists [user_message turn]. split; [congruence|by right].
Qed.

(** A turn is at most one gated tool call, under its own context; the tool named
    in the result is the one called, and a turn that fails called none. *)
Lemma turn_is_one_call {W} `{World W} `{ToolBodies W} `{HashOrder} `{Unicode} `{Serde} `{DefaultHasher}
    `{FloatText} `{Proxy W} `{TurnServices W} tool_call_de cfg enforced provider conv turn system_prompt n family
    origin proxy (s : TurnState W) :
  let '(r, s') :=
    process_chat_turn tool_call_de cfg enforced provider conv turn system_prompt n family origin proxy s in
  let ctx := tool_execution_context turn origin false in
  request_origin ctx = origin /\ ctx_confirmed ctx = false /\
  match r with
  | Err _ => same_but_world (ts_disp s) (ts_disp s')
  | Ok res => one_call cfg ctx (cr_tool res) (ts_disp s) (ts_disp s')
  end /\
  (ts_escalations s' = ts_escalations s \/
   exists ev reason p, ts_escalations s' = ts_escalations s ++ [ev] /\ may_escalate proxy reason = Some p).
Proof.
  destruct (process_chat_turn _ _ _ _ _ _ _ _ _ _ _ s) as [r s'] eqn:E.
  apply turn_run in E as (r1 & s1 & E1 & Hr). apply store_user_run in E1 as ([Hd He] & _).
  cbn. split_and!; [done|done| |]; (destruct r1 as [u|e]; [|destruct Hr as [-> ->]; by auto]).
  - destruct Hr as [_ Hr]. destruct r as [res|e].
    + destruct Hr as (_ & _ & Hcall & _). by eapply one_call_world.
    + destruct Hr as [Hr _]. by transitivity (ts_disp s1).
  - rewrite <- He. apply Hr.
Qed.

Section proxies.
Context {W : Type} `{Ops : World W} `{TB : ToolBodies W} `{HO : HashOrder} `{!HashOrderLaws HO} `{U : Unicode}
  `{SD : Serde} `{DH : DefaultHasher} `{FT : FloatText} `{TS : TurnServices W}.
Context (PX1 PX2 : Proxy W) (proxy : option PrivacyProxyConfig).
Context (Hagree : forall reason p, may_escalate proxy reason = Some p -> agree p PX1 PX2).

Lemma escalated_agree p messages reason (s : TurnState W) :
  agree p PX1 PX2 ->
  @escalated W HO U SD PX1 p messages reason s = @escalated W HO U SD PX2 p messages reason s.
Proof. intros Ha. unfold escalated, on_escalations. by rewrite (escalate_agree _ _ _ _ _ _ Ha). Qed.

Lemma obtain_agree provider conv messages (s : TurnState W) :
  @obtain_response W HO U SD PX1 provider conv messages proxy s =
  @obtain_response W HO U SD PX2 provider conv messages proxy s.
Proof.
  unfold obtain_response. destruct (if context_overflowed messages then _ else None) as [p|] eqn:Ep.
  - unfold bind. rewrite escalated_agree; [done|]. destruct (context_overflowed messages); [by eapply Hagree|done].
  - unfold bind. destruct (complete _ _ _ _ s) as [[text|e] s1]; [done|].
    destruct (may_escalate proxy EscalationReason.LocalDecline) as [p|] eqn:Hp; [|done].
    rewrite escalated_agree; [done|by eapply Hagree].
Qed.

Lemma model_turn_agree tool_call_de cfg enforced provider conv turn ctx system_prompt n family (s : TurnState W) :
  @model_turn W Ops TB HO U SD DH FT PX1 TS tool_call_de cfg enforced provider conv turn ctx system_prompt n family
    proxy s =
  @model_turn W Ops TB HO U SD DH FT PX2 TS tool_call_de cfg enforced provider conv turn ctx system_prompt n family
    proxy s.
Proof.
  unfold model_turn, bind, ebind. destruct (build_memory_context_for_turn turn s) as [context s1].
  destruct (on_convs _ s1) as [[h|e] s2]; [|done]. by rewrite obtain_agree.
Qed.

End proxies.


(** ** A turn, run *)

Section concrete.
#[local] Existing Instance key_order.
#[local] Existing Instance key_order_laws.
#[local] Existing Instance ascii_tables.
#[local] Instance null_hash : DefaultHasher := {| default_hash _ := 0%N |}.
#[local] Instance brace_serde : Serde := {| from_str _ := None; to_str _ := "{}" |}.
#[local] Instance plain_floats : FloatText := {| f64_display := fmt_fixed 1; f64_debug := fmt_fixed 1 |}.
#[local] Instance silent_bodies : ToolBodies scripted := {|
  elapsed_ms w := (0%N, w);
  other_tool _ _ _ w := (Err "not scripted", w);
|}.

(** A memory that has nothing to add. *)
#[local] Instance no_memory : TurnServices scripted := {|
  memory_context _ _ w := ("", w);
  extract_and_store _ w := (tt, w);
|}.

Definition turn_policy : ToolPolicyConfig := {|
  policy_enabled := true; allowed_tools_by_origin := ∅; denied_tools_by_origin := ∅;
  max_actions_per_minute_by_tool := ∅; requires_confirmation_tools := []; confirmation_ttl_secs := 120 |}.
Definition turn_cfg : DispatcherConfig := {|
  has_home_automation := true; has_memory := false; has_web_search := false; loaded_skills := None;
  cfg_tool_policy := turn_policy; cfg_actuation_safety := default_actuation_safety |}.

Definition no_model : Completion scripted := fun _ _ _ w => (Err "model is down", w).
Definition leaky_model : Completion scripted := fun _ _ _ w => (Ok "the key is sk-aaaaaaaaaaaaaaaaaaaa.", w).

Definition household : list (string * string) :=
  [("person_preference", "Maya likes oat milk"); ("identity", "my name is Alex Morgan");
   ("fact", "The alarm code is with Robert")].

(** The proxy of the household, and a network that answers otherwise everywhere
    but at its address. *)
Definition honest : Proxy scripted := {|
  recent_memories _ w := (Ok household, w);
  http_post _ _ _ w := (Ok (200%N, ""), w);
  openai_chat _ _ _ w := (Ok "Good evening, Maya.", w);
|}.
Definition elsewhere : Proxy scripted := {|
  recent_memories _ w := (Ok household, w);
  http_post addr path body w :=
    if String.eqb addr "127.0.0.1:8180" then @http_post _ honest addr path body w else (Ok (500%N, "stored"), w);
  openai_chat endpoint messages max w :=
    if String.eqb endpoint.1 "127.0.0.1" then @openai_chat _ honest endpoint messages max w else (Err "stored", w);
|}.

Definition local_proxy : PrivacyProxyConfig := {|
  pp_enabled := true; pp_base_url := "http://127.0.0.1:8180/v1";
  pp_trigger := EscalationTrigger.LocalDecline; pp_vocab_path := "/vocab/seed" |}.

Definition at_home : TurnState scripted :=
  {| ts_disp := fresh_dispatcher lamp_world; ts_convs := {| tables := no_chats; faults := [] |}; ts_escalations := [] |}.
Definition says (text : string) : IncomingTurn := new_turn text "s1" ChannelKind.Http.

Definition run_turn (px : Proxy scripted) (provider : Completion scripted) (text : string)
    (proxy : option PrivacyProxyConfig) (s : TurnState scripted) :=
  @process_chat_turn scripted scripted_world silent_bodies key_order ascii_tables brace_serde null_hash plain_floats
    px no_memory (fun _ => None) turn_cfg false provider "c1" (says text) "You are Genie." 10 ModelFamily.Qwen
    RequestOrigin.Api proxy s.

Example lamp_needs_no_model :
  let '(r, s) := run_turn honest no_model "Turn on the lamp, please." None at_home in
  (cr_response <$> to_option r) = Some "Lamp on." /\ length (executed (env (ts_disp s))) = 1 /\
  (bm_role <$> (transcript (tables (ts_convs s))).*2) = ["user"; "assistant"; "system"; "assistant"].
Proof. vm_compute. done. Qed.

Example model_reply_is_redacted :
  let '(r, s) := run_turn honest leaky_model "hello" None at_home in
  (cr_response <$> to_option r) = Some "the key is [REDACTED:api_key]" /\
  (bm_content <$> (transcript (tables (ts_convs s))).*2) = ["hello"; "the key is [REDACTED:api_key]"].
Proof. vm_compute. done. Qed.

Example names_of_eligible_memories : vocab_terms household = ["Maya"].
Proof. vm_compute. reflexivity. Qed.


End concrete.
