(* ===== verification/TurnKeeps.v ===== *)
(** * What a turn keeps of the world

    A property of the world that every operation on it keeps is kept by a whole
    turn of the conversation: by each component the dispatcher runs, and by the
    model, the proxy and the store around them. *)

From S2P Require Import Prelude RustStr RustNum Sql Json HomeTypes HomeAction HomePolicy HomeControl Confirmations Ledger RateLimit ToolGate Calc Timer Redaction Conversations LlmProvider MemoryPolicy Escalation DispatchHome QuickRoute Channel Dispatch ToolParser ChatTurn Scripted.
Local Open Scope string_scope.
Local Open Scope list_scope.
Local Open Scope rust_scope.

(** ** What a run keeps of the world *)

Definition safe {S W A} (proj : S -> W) (P : W -> Prop) (m : M S A) : Prop := forall s, P (proj s) -> P (proj (m s).2).

Section safe.
Context {S W : Type} (proj : S -> W) (P : W -> Prop).

Lemma safe_ret {A} (a : A) : safe proj P (ret a).
Proof. by intros s Hs. Qed.

Lemma safe_bind {A B} (m : M S A) (f : A -> M S B) : safe proj P m -> (forall a, safe proj P (f a)) -> safe proj P (bind m f).
Proof. intros Hm Hf s Hs. unfold bind. specialize (Hm s Hs). destruct (m s) as [a s1]. by apply Hf. Qed.

Lemma safe_ebind {E A B} (m : M S (result A E)) (f : A -> M S (result B E)) :
  safe proj P m -> (forall a, safe proj P (f a)) -> safe proj P (ebind m f).
Proof. intros Hm Hf s Hs. unfold ebind. specialize (Hm s Hs). destruct (m s) as [[a|e] s1]; [by apply Hf|done]. Qed.

End safe.

Create HintDb safe.
#[export] Hint Resolve safe_ret : safe.

(** Steps through binds and cases; the leaves are hints. *)
Ltac safe_run :=
  repeat first
    [ progress eauto with safe
    | apply safe_bind; [|intros ?]
    | apply safe_ebind; [|intros ?]
    | case_match ].

(** The operations of the world keep [P]. *)
Class Kept {W} `{Ops : World W} `{TB : ToolBodies W} `{PX : Proxy W} `{TS : TurnServices W} (P : W -> Prop) : Prop := {
  kept_now : safe id P now_ms;
  kept_random : safe id P getrandom;
  kept_health : safe id P ha_health;
  kept_resolve q k : safe id P (ha_resolve_target q k);
  kept_state t : safe id P (ha_get_state t);
  kept_execute a : safe id P (ha_execute a);
  kept_alias q : safe id P (device_alias q);
  kept_elapsed : safe id P elapsed_ms;
  kept_tool n a c : safe id P (other_tool n a c);
  kept_recent n : safe id P (recent_memories n);
  kept_post a p b : safe id P (http_post a p b);
  kept_chat e m n : safe id P (openai_chat e m n);
  kept_context q c : safe id P (memory_context q c);
  kept_extract t : safe id P (extract_and_store t);
}.

Section turn.
Context {W : Type} `{Ops : World W} `{TB : ToolBodies W} `{HO : HashOrder} `{U : Unicode}
  `{SD : Serde} `{DH : DefaultHasher} `{FT : FloatText} `{PX : Proxy W} `{TS : TurnServices W}.
Context (P : W -> Prop) `{K : !Kept P}.
Context (tool_call_de : value -> option ToolCall) (cfg : DispatcherConfig) (enforced : bool) (provider : Completion W).
Hypothesis provider_kept : forall messages n hints, safe id P (provider messages n hints).

Notation in_env := (safe (@outside W) P).
Notation in_pair := (safe fst P).
Notation in_disp := (safe (fun s : Dispatcher W => outside (env s)) P).
Notation in_turn := (safe (fun s : TurnState W => outside (env (ts_disp s))) P).

(** *** The components *)

Lemma safe_world_call {A} (op : W -> A * W) : safe id P op -> in_env (world_call op).
Proof. intros Hop s Hs. unfold world_call. specialize (Hop _ Hs). by destruct (op _). Qed.

Lemma safe_call_execute a : in_env (call_execute a).
Proof. intros s Hs. unfold call_execute. pose proof (kept_execute a _ Hs) as Hk. cbn in Hk. by destruct (ha_execute _ _). Qed.

Hint Resolve kept_now kept_random kept_health kept_resolve kept_state kept_execute kept_alias kept_elapsed kept_tool
  kept_recent kept_post kept_chat kept_context kept_extract safe_world_call safe_call_execute : safe.

Lemma safe_control t a v c o d : in_env (control t a v c o d).
Proof. unfold control, current_state. safe_run. Qed.

Lemma safe_status t : in_env (status t).
Proof. unfold status. safe_run. Qed.

Lemma safe_prune : in_pair prune_expired.
Proof. intros [w st] Hw. cbn. pose proof (kept_now w Hw) as Hk. cbn in Hk. by destruct (now_ms w). Qed.

Lemma safe_issue e a v r o : in_pair (issue e a v r o).
Proof.
  intros s Hs. unfold issue. pose proof (safe_prune s Hs) as Hp. destruct (prune_expired s) as [u [w st]]. cbn in Hp.
  destruct (Nat.leb _ _); [done|]. pose proof (kept_now w Hp) as Hn. destruct (now_ms w) as [now w1]. cbn in Hn.
  pose proof (kept_random w1 Hn) as Hr. by destruct (getrandom w1).
Qed.

Lemma safe_list_pending : in_pair list_pending.
Proof.
  intros s Hs. unfold list_pending. pose proof (safe_prune s Hs) as Hp. by destruct (prune_expired s) as [u [w st]].
Qed.

Lemma safe_actuation_check c o : in_pair (actuation_check_and_record c o).
Proof.
  intros [w m] Hw. unfold actuation_check_and_record. destruct (Nat.eqb _ _); [done|].
  pose proof (kept_now w Hw) as Hk. destruct (now_ms w) as [now w1]. by destruct (limiter_step _ _ _ _).
Qed.

Lemma safe_tool_check p t : in_pair (tool_check_and_record p t).
Proof.
  intros [w m] Hw. unfold tool_check_and_record. destruct (tool_rate_limit p t); [|done]. destruct (Nat.eqb _ _); [done|].
  pose proof (kept_now w Hw) as Hk. destruct (now_ms w) as [now w1]. by destruct (limiter_step _ _ _ _).
Qed.

Lemma safe_evaluate o t a n c : in_pair (ToolGate.evaluate o t a n c).
Proof.
  intros [w m] Hw. unfold ToolGate.evaluate. pose proof (kept_now w Hw) as Hk. destruct (now_ms w) as [now w1].
  by destruct (evaluate_at _ _ _ _ _).
Qed.

Lemma safe_timer a : in_pair (exec_set_timer a).
Proof.
  unfold exec_set_timer. apply safe_ebind; [apply safe_ret|intros [n l]]. apply safe_ebind; [|intros; apply safe_ret].
  intros [w ts] Hw. unfold timer_set. repeat case_match; try done;
    pose proof (kept_now w Hw) as Hk; match goal with E : now_ms w = _ |- _ => by rewrite E in Hk end.
Qed.

(** *** The dispatcher *)

Lemma safe_on_world {A} (op : W -> A * W) : safe id P op -> in_disp (on_world op).
Proof. intros Hop s Hs. unfold on_world. specialize (Hop _ Hs). by destruct (op _). Qed.
Lemma safe_on_env {A} (m : M (Env W) A) : in_env m -> in_disp (on_env m).
Proof. intros Hm s Hs. unfold on_env. specialize (Hm _ Hs). by destruct (m _). Qed.
Lemma safe_on_confirmations {A} (m : M (W * ConfirmationState) A) : in_pair m -> in_disp (on_confirmations m).
Proof. intros Hm s Hs. unfold on_confirmations. specialize (Hm (outside (env s), confirmations s) Hs). by destruct (m _) as [a [w c]]. Qed.
Lemma safe_on_actuation_limiter {A} (m : M (W * gmap RequestOrigin.t (list N)) A) : in_pair m -> in_disp (on_actuation_limiter m).
Proof. intros Hm s Hs. unfold on_actuation_limiter. specialize (Hm (outside (env s), actuation_attempts s) Hs). by destruct (m _) as [a [w c]]. Qed.
Lemma safe_on_tool_limiter {A} (m : M (W * gmap string (list N)) A) : in_pair m -> in_disp (on_tool_limiter m).
Proof. intros Hm s Hs. unfold on_tool_limiter. specialize (Hm (outside (env s), tool_attempts s) Hs). by destruct (m _) as [a [w c]]. Qed.
Lemma safe_on_tool_gate {A} (m : M (W * gmap string N) A) : in_pair m -> in_disp (on_tool_gate m).
Proof. intros Hm s Hs. unfold on_tool_gate. specialize (Hm (outside (env s), tool_confirmations s) Hs). by destruct (m _) as [a [w c]]. Qed.
Lemma safe_on_timers {A} (m : M (W * list Timer) A) : in_pair m -> in_disp (on_timers m).
Proof. intros Hm s Hs. unfold on_timers. specialize (Hm (outside (env s), timers s) Hs). by destruct (m _) as [a [w c]]. Qed.

Hint Resolve safe_control safe_status safe_issue safe_list_pending safe_actuation_check safe_tool_check safe_evaluate
  safe_timer safe_on_world safe_on_env safe_on_confirmations safe_on_actuation_limiter safe_on_tool_limiter
  safe_on_tool_gate safe_on_timers : safe.

Lemma safe_clock {A} (g : N -> Dispatcher W -> A * Dispatcher W) :
  (forall n s, P (outside (env s)) -> P (outside (env (g n s).2))) ->
  in_disp (fun s => let '(now, s) := on_world now_ms s in g now s).
Proof.
  intros Hg s Hs. pose proof (safe_on_world now_ms kept_now s Hs) as Hk. destruct (on_world now_ms s) as [n s1]. by apply Hg.
Qed.

Lemma safe_audit st og e a v rs tk cf ai uo ur : in_disp (audit st og e a v rs tk cf ai uo ur).
Proof. by apply safe_clock. Qed.

Lemma safe_record e a v o s c u r : in_disp (record_action e a v o s c u r).
Proof. apply safe_clock. intros n st Hst. by destruct (match u with Some _ => _ | None => _ end). Qed.

Lemma safe_tool_audit call ctx res d : in_disp (audit_gate_decision call ctx res d).
Proof.
  apply (safe_clock (fun now s => let '(elapsed, s) := on_world elapsed_ms s in _)). intros n s Hs.
  pose proof (safe_on_world elapsed_ms kept_elapsed s Hs) as Hk. by destruct (on_world elapsed_ms s).
Qed.

Hint Resolve safe_audit safe_record safe_tool_audit : safe.

Lemma safe_alias q : in_disp (resolve_device_alias cfg q).
Proof. unfold resolve_device_alias. safe_run. Qed.
Lemma safe_restore e a u : in_disp (capture_restore e a u).
Proof. unfold capture_restore. safe_run. Qed.
Lemma safe_finish e a v o u r out : in_disp (finish_control e a v o u r out).
Proof. unfold finish_control. safe_run. Qed.
Hint Resolve safe_alias safe_restore safe_finish : safe.

Lemma safe_home_control a c u : in_disp (exec_home_control_inner cfg a c u).
Proof. unfold exec_home_control_inner. safe_run. Qed.
Hint Resolve safe_home_control : safe.

Lemma safe_home_undo c : in_disp (exec_home_undo cfg c).
Proof.
  intros s Hs. unfold exec_home_undo. destruct (_ ≫= _) as [[a args]|]; [|done].
  apply (safe_ebind (fun s : Dispatcher W => outside (env s)) P); [apply safe_home_control|intros; apply safe_ret|done].
Qed.

Lemma safe_home_status a : in_disp (exec_home_status cfg a).
Proof. unfold exec_home_status. safe_run. Qed.

Lemma safe_history : in_disp exec_action_history.
Proof.
  unfold exec_action_history, pending_confirmations. apply safe_bind; [auto with safe|]. intros pending s Hs. by repeat case_match.
Qed.
Hint Resolve safe_home_undo safe_home_status safe_history : safe.

Lemma safe_gate call ctx : in_disp (run_gate cfg call ctx).
Proof. unfold run_gate, reject. safe_run. Qed.

Lemma safe_body call ctx : in_disp (run_body cfg call ctx).
Proof. unfold run_body, exec_home_control. safe_run. Qed.
Hint Resolve safe_gate safe_body : safe.

Lemma safe_execute call ctx : in_disp (execute_with_context cfg call ctx).
Proof. unfold execute_with_context. safe_run. Qed.
Hint Resolve safe_execute : safe.

(** *** The turn *)

Lemma safe_on_disp {A} (m : M (Dispatcher W) A) : in_disp m -> in_turn (on_disp m).
Proof. intros Hm s Hs. unfold on_disp, zoom. specialize (Hm (ts_disp s) Hs). by destruct (m _). Qed.

Lemma safe_on_convs {A} (m : M Store A) : in_turn (on_convs m).
Proof. intros s Hs. unfold on_convs, zoom. by destruct (m _). Qed.

Lemma safe_in_world {A} (op : W -> A * W) : safe id P op -> in_turn (in_world op).
Proof. intros Hop. by apply safe_on_disp, safe_on_world. Qed.
Hint Resolve safe_on_disp safe_on_convs safe_in_world : safe.

Lemma safe_at_now {A} (f : Z -> M Store A) : in_turn (at_now f).
Proof. unfold at_now. safe_run. Qed.

Lemma safe_complete messages n hints : in_turn (complete provider messages n hints).
Proof. apply safe_in_world, provider_kept. Qed.
Hint Resolve safe_at_now safe_complete : safe.

Lemma safe_seed p terms : safe id P (seed_vocab p terms).
Proof.
  unfold seed_vocab. case_match; [apply safe_ret|]. apply safe_ebind; [apply kept_post|intros [code body]].
  case_match; apply safe_ret.
Qed.

Lemma safe_escalated p messages reason : in_turn (escalated p messages reason).
Proof.
  intros s Hs. unfold escalated, on_escalations, escalate_via_privacy_proxy.
  pose proof (kept_recent 500 _ Hs) as Hr. destruct (recent_memories 500 _) as [entries w1]. cbn in Hr.
  match goal with |- context [seed_vocab p ?t w1] => pose proof (safe_seed p t w1 Hr) as Hv; destruct (seed_vocab p t w1) as [r w2] end.
  cbn in Hv. pose proof (kept_chat (openai_endpoint (pp_base_url p)) messages (Some 512%N) w2 Hv) as Hc.
  by destruct (openai_chat _ _ _ w2).
Qed.
Hint Resolve safe_escalated : safe.

Lemma safe_context turn : in_turn (build_memory_context_for_turn turn).
Proof. apply safe_in_world, kept_context. Qed.

Lemma safe_learn text : in_turn (in_world (extract_and_store text)).
Proof. apply safe_in_world, kept_extract. Qed.

Lemma safe_obtain conv messages proxy : in_turn (obtain_response provider conv messages proxy).
Proof. unfold obtain_response. safe_run. Qed.

Lemma safe_finalize_direct conv call res : in_turn (finalize_direct_tool_turn enforced conv call res).
Proof. unfold finalize_direct_tool_turn. safe_run. Qed.

Lemma safe_finalize conv text res family : in_turn (finalize_tool_turn enforced provider conv text res family).
Proof. unfold finalize_tool_turn, summarize. safe_run. Qed.
Hint Resolve safe_context safe_learn safe_obtain safe_finalize_direct safe_finalize : safe.

Lemma safe_try text ctx : in_disp (try_tool_call_with_context tool_call_de cfg text ctx).
Proof. unfold try_tool_call_with_context. safe_run. Qed.
Hint Resolve safe_try : safe.

Lemma safe_answer conv text ctx family : in_turn (answer_turn tool_call_de cfg enforced provider conv text ctx family).
Proof. unfold answer_turn. safe_run. Qed.
Hint Resolve safe_answer : safe.

(** What every operation on the world keeps, a turn keeps. *)
Lemma turn_keeps conv turn prompt max_history family origin proxy :
  in_turn (process_chat_turn tool_call_de cfg enforced provider conv turn prompt max_history family origin proxy).
Proof.
  unfold process_chat_turn, store_user_message, direct_turn, model_turn. safe_run.
Qed.

End turn.
