(* ===== verification/MemoryTurn.v ===== *)
(** * A turn over the household memory

    The parts of the world that [ChatTurn], [Dispatch] and [Escalation] leave
    open are closed here with the memory: its tools, its aliases, the context of
    a prompt, the facts of an utterance and the entries a proxy's names are
    taken from.  What the memory keeps through each of them it keeps through
    whole turns. *)

From S2P Require Import Prelude RustStr RustNum Recall Sql MemoryPolicy MemoryText MemoryTypes MemoryExtract Embedding MemoryTables MemoryCanon MemoryStore MemorySync MemoryFacts MemoryCapture MemoryAnswers MemorySpeech MemoryInject MemoryTools.
From S2P Require Import Json HomeTypes HomeAction HomePolicy HomeControl Confirmations Ledger RateLimit ToolGate Calc Timer Redaction LlmProvider Escalation DispatchHome QuickRoute Channel Dispatch ToolParser ChatTurn TurnKeeps Scripted.
Local Open Scope string_scope.
Local Open Scope list_scope.
Local Open Scope rust_scope.

(** The world, and the memory beside it. *)
Record Household (W : Type) := { hh_outside : W; hh_memory : Conn MemoryTables.Store }.
Arguments hh_outside {W} _.
Arguments hh_memory {W} _.

Section household.
Context {W : Type} `{Ops : World W} `{TB : ToolBodies W} `{PX : Proxy W}.
Context `{U : Unicode} `{H : StrHasher} `{G : Gmtime} `{F : Fts} `{EX : Exp} `{NF : NoteFts} `{PR : Pragmas}.
(** The half life the memory was opened with, how its migration went, and
    whether the dispatcher holds it. *)
Context (half_life_days : f64) (migration_degraded memory_attached : bool).
Notation HW := (Household W).

Definition beside {A} (op : W -> A * W) : HW -> A * HW :=
  fun h => let '(a, w) := op (hh_outside h) in (a, {| hh_outside := w; hh_memory := hh_memory h |}).

(** An operation of the memory, at the time it begins. *)
Definition with_memory {A} (m : N -> M (Conn MemoryTables.Store) A) : HW -> A * HW :=
  fun h =>
    let '(now, w) := now_ms (hh_outside h) in
    let '(a, c) := m now (hh_memory h) in
    (a, {| hh_outside := w; hh_memory := c |}).

Definition alias_target (q : string) : M (Conn MemoryTables.Store) (option string) :=
  let! hit := attempt (MemoryAnswers.device_alias q) in
  ret (match hit with Some (Some hit) => Some (hit_target hit) | _ => None end).

#[export] Instance household_world : World HW := {|
  now_ms := beside now_ms;
  getrandom := beside getrandom;
  ha_health := beside ha_health;
  ha_resolve_target q k := beside (ha_resolve_target q k);
  ha_get_state t := beside (ha_get_state t);
  ha_execute a := beside (ha_execute a);
  HomeTypes.device_alias q := with_memory (fun _ => alias_target q);
|}.

(** A tool of the memory runs on it where the dispatcher holds it. *)
Definition run_memory_tool (m : M (option (Conn MemoryTables.Store)) (result string string))
    : M (Conn MemoryTables.Store) (result string string) :=
  fun c => if memory_attached then let '(r, c') := m (Some c) in (r, default c c') else ((m None).1, c).

Definition household_tool (name : string) (args : value) (ctx : ToolExecutionContext) : HW -> result string string * HW :=
  match exec_memory_tool half_life_days migration_degraded name args (memory_read_context ctx) with
  | Some tool => with_memory (fun now => run_memory_tool (tool now))
  | None => beside (other_tool name args ctx)
  end.

#[export] Instance household_tools : ToolBodies HW := {|
  elapsed_ms := beside elapsed_ms;
  other_tool := household_tool;
|}.

Definition kind_and_content (es : list MemoryEntry) : list (string * string) := (fun e => (me_kind e, me_content e)) <$> es.

#[export] Instance household_proxy : Proxy HW := {|
  recent_memories n := with_memory (fun _ => let!? es := MemoryStore.recent n in ret (Ok (kind_and_content es)));
  http_post a p b := beside (http_post a p b);
  openai_chat e m n := beside (openai_chat e m n);
|}.

Definition context_of_turn (query : string) (ctx : option MemoryReadContext) (now : N) : M (Conn MemoryTables.Store) string :=
  match ctx with
  | Some ctx => build_memory_context_with_read_context half_life_days now query ctx
  | None => build_memory_context half_life_days now query
  end.

#[export] Instance household_turns : TurnServices HW := {|
  memory_context q ctx := with_memory (context_of_turn q ctx);
  ChatTurn.extract_and_store t :=
    with_memory (fun now => let! _ := MemoryCapture.extract_and_store t now in ret tt);
|}.

(** ** What the memory keeps *)

(** Kept by every operation a turn may run on the memory. *)
Record TurnInvariant (I : MemoryTables.Store -> Prop) : Prop := {
  turn_query q : forall c, I (tables c) -> I (tables (alias_target q c).2);
  turn_recent n : Sql.keeps I (MemoryStore.recent n);
  turn_context q ctx now : forall c, I (tables c) -> I (tables (context_of_turn q ctx now c).2);
  turn_capture t now : forall c, I (tables c) -> I (tables (MemoryCapture.extract_and_store t now c).2);
  turn_recall q ctx now : Sql.keeps I (recall_answer half_life_days q ctx now);
  turn_health : Sql.keeps I (health migration_degraded);
  turn_promoted : Sql.keeps I promoted_count;
  turn_forget q ctx now : Sql.keeps I (forget half_life_days q ctx now);
  turn_store fs ctx now : Sql.keeps I (store_facts fs ctx now);
}.

Definition memory_is (I : MemoryTables.Store -> Prop) (h : HW) : Prop := I (tables (hh_memory h)).

Lemma beside_safe I {A} (op : W -> A * W) : safe id (memory_is I) (beside op).
Proof. intros h Hh. unfold beside. by destruct (op _). Qed.

Lemma with_memory_safe (I : MemoryTables.Store -> Prop) {A} (m : N -> M (Conn MemoryTables.Store) A) :
  (forall now c, I (tables c) -> I (tables (m now c).2)) -> safe id (memory_is I) (with_memory m).
Proof.
  intros Hm h Hh. unfold with_memory. destruct (now_ms (hh_outside h)) as [now w]. specialize (Hm now (hh_memory h) Hh).
  destruct (m now (hh_memory h)). exact Hm.
Qed.

Lemma tool_safe I name args ctx : TurnInvariant I -> safe id (memory_is I) (household_tool name args ctx).
Proof.
  intros HI. unfold household_tool, exec_memory_tool.
  assert (forall m : MemoryTables.run string, Sql.keeps I m -> forall c, I (tables c) -> I (tables (run_memory_tool (on_memory m) c).2)) as Hon.
  { intros m Hm c Hc. unfold run_memory_tool, on_memory. destruct memory_attached; [|done]. specialize (Hm c Hc).
    by destruct (m c). }
  assert (forall e c, I (tables c) -> I (tables (run_memory_tool (ret (Err e)) c).2)) as Herr.
  { intros e c Hc. unfold run_memory_tool. by destruct memory_attached. }
  repeat case_match; simplify_eq; try apply beside_safe; apply with_memory_safe; intros now c Hc.
  - unfold exec_memory_recall. destruct (parse_memory_recall_query args); [|by apply Herr].
    apply Hon; [apply (turn_recall _ HI)|done].
  - apply Hon; [|done]. apply keeps_ebind; [apply HI|intros h]. apply keeps_ebind; [apply HI|intros n; apply holds_ret].
  - unfold exec_memory_forget. destruct (parse_memory_forget_query args); [|by apply Herr].
    apply Hon; [apply (turn_forget _ HI)|done].
  - unfold exec_memory_store. destruct (parse_memory_store_content args); [|by apply Herr].
    apply Hon; [apply (turn_store _ HI)|done].
Qed.

Lemma invariant_kept I : TurnInvariant I -> Kept (memory_is I).
Proof.
  intros HI. split; intros; try apply beside_safe; try apply with_memory_safe.
  - intros now c. apply (turn_query _ HI).
  - by apply tool_safe.
  - intros now. apply keeps_ebind; [apply HI|intros es; apply holds_ret].
  - intros now c' Hc. by apply (turn_context _ HI).
  - intros now c Hc. unfold bind. pose proof (turn_capture _ HI t now c Hc) as Hk.
    by destruct (MemoryCapture.extract_and_store t now c).
Qed.

(** ** Turns *)

Lemma capture_of_turn I t now :
  (forall kind content, Sql.keeps I (store_resolved kind content now)) ->
  forall c, I (tables c) -> I (tables (MemoryCapture.extract_and_store t now c).2).
Proof. intros HI c. apply capture_keeps. intros. apply HI. Qed.

Lemma context_keeps (I : MemoryTables.Store -> Prop) :
  (forall q n now, Sql.keeps I (search half_life_days q n now)) ->
  forall q ctx now c, I (tables c) -> I (tables (context_of_turn q ctx now c).2).
Proof.
  intros Hs. assert (forall q ctx now c, I (tables c) ->
    I (tables (build_memory_context_with_read_context half_life_days now q ctx c).2)) as Hb.
  { intros q ctx now c Hc. unfold build_memory_context_with_read_context.
    assert (forall st (m : MemoryTables.run (list MemoryEntry)), Sql.keeps I m -> safe (@tables MemoryTables.Store) I (add_from ctx st m)) as Hadd.
    { intros st m Hm. unfold add_from. apply safe_bind; [|intros; apply safe_ret]. intros c0 Hc0. unfold attempt.
      specialize (Hm c0 Hc0). by destruct (m c0) as [[]]. }
    assert (safe (@tables MemoryTables.Store) I (pick_entries half_life_days now q ctx)) as Hp.
    { unfold pick_entries. apply safe_bind; [apply Hadd, keeps_query|intros st1].
      apply safe_bind; [apply Hadd, keeps_query|intros st2].
      apply safe_bind; [destruct (is_empty _); [apply safe_ret|apply Hadd, Hs]|intros st3].
      unfold pick_preferences. destruct (Nat.ltb _ _); [|apply safe_ret]. apply safe_bind; [|intros; apply safe_ret].
      intros c0 Hc0. unfold attempt. pose proof (keeps_query I (fun s => read_entry <$> take 3 (order_by by_last_access
        (List.filter (fun m => String.eqb (mem_kind m) "preference") (memories s)))) c0 Hc0) as Hq.
      unfold get_by_kind. by destruct (query _ c0) as [[]]. }
    specialize (Hp c Hc). unfold bind. by destruct (pick_entries _ _ _ _ c). }
  intros q [ctx|] now c; [apply Hb|]. unfold context_of_turn, build_memory_context. apply Hb.
Qed.

Lemma alias_keeps (I : MemoryTables.Store -> Prop) q c : I (tables c) -> I (tables (alias_target q c).2).
Proof.
  intros Hc. unfold alias_target, MemoryAnswers.device_alias.
  assert (forall m : MemoryTables.run (option AliasHit), Sql.keeps I m -> I (tables ((let! hit := attempt m in
    ret match hit with Some (Some hit) => Some (hit_target hit) | _ => None end) c).2)) as Hm.
  { intros m Hm. unfold bind, attempt. specialize (Hm c Hc). by destruct (m c) as [[]]. }
  apply Hm, keeps_if; [apply holds_ret|apply keeps_query].
Qed.

Lemma memory_health_keeps I : Sql.keeps I (health migration_degraded).
Proof.
  unfold health. do 6 (apply keeps_ebind; [apply keeps_query|intros ?]). intros c Hc. exact Hc.
Qed.

(** A reading of the tables: queries, cases and binds of them. *)
Ltac reading :=
  repeat first
    [ apply holds_ret
    | apply keeps_query
    | apply keeps_ebind; [|intros ?]
    | case_match
    | progress match goal with
        |- Sql.keeps _ ?m => let rec go t := lazymatch t with ?f _ => go f | ?c => unfold c end in go m
      end ].

Lemma recall_keeps (I : MemoryTables.Store -> Prop) q ctx now :
  (forall q n, Sql.keeps I (search half_life_days q n now)) -> (forall q n, Sql.keeps I (semantic_search q n now)) ->
  Sql.keeps I (recall_answer half_life_days q ctx now).
Proof.
  intros Hs Hsem. unfold recall_answer. apply keeps_ebind; [|intros [a|]; [apply holds_ret|]].
  { unfold structured_household_answer. reading. }
  apply keeps_ebind; [|intros [[r ps]|]; [apply holds_ret|]].
  - reading.
  - apply keeps_ebind; [|intros rs; apply holds_ret]. apply keeps_ebind; [apply Hs|intros l].
    apply keeps_ebind; [apply Hsem|intros l2; apply holds_ret].
Qed.

(** Kept by searching and storing, and by deleting where it reads: kept by turns. *)
Lemma turn_invariant (I : MemoryTables.Store -> Prop) :
  (forall q n now, Sql.keeps I (search half_life_days q n now)) ->
  (forall q n now, Sql.keeps I (semantic_search q n now)) ->
  (forall id now, Sql.keeps I (delete_by_id id now)) ->
  (forall kind content now, decision_allowed (assess_memory_write kind content) = true ->
     Sql.keeps I (store_resolved kind content now)) ->
  TurnInvariant I.
Proof.
  intros Hsearch Hsem Hdel Hstore. split; intros.
  - by apply alias_keeps.
  - apply keeps_query.
  - by apply context_keeps.
  - apply (capture_keeps I); [|done]. intros x _ Hx. by apply Hstore.
  - by apply recall_keeps.
  - apply memory_health_keeps.
  - apply keeps_query.
  - apply keeps_ebind; [apply Hsearch|intros es]. apply keeps_ebind; [|intros n; apply holds_ret].
    induction (filter_recall_results es ctx) as [|r rs IH]; cbn; [apply holds_ret|].
    apply keeps_ebind; [apply Hdel|intros d]. apply keeps_ebind; [done|intros n; apply holds_ret].
  - apply keeps_ebind.
    + generalize nothing_stored as st. induction fs as [|[category content] fs IH]; intros st; cbn; [apply holds_ret|].
      destruct (decision_allowed _) eqn:Ha; cbn [negb]; [|apply IH]. apply keeps_if; [apply holds_ret|].
      apply keeps_ebind; [by apply Hstore|intros o; apply IH].
    + intros st. destruct (st_stored st); [apply holds_ret|]. apply keeps_if; [|apply holds_ret].
      apply keeps_attempt; [apply keeps_query|intros n; apply holds_ret].
Qed.

Lemma policed_turns : TurnInvariant policed.
Proof.
  apply turn_invariant; intros; [apply keeps_search|apply keeps_semantic_search|apply keeps_delete_by_id|apply keeps_store_resolved].
Qed.

(** Held from the start, or allowed by the write policy. *)
Definition held_or_allowed (old : list Fact) (f : Fact) : Prop :=
  f ∈ old \/
  exists kind content, decision_allowed (assess_memory_write kind content) = true /\
    f = stored_fact (fc_id f) kind (normalize_memory_content content).

Lemma allowed_turns old : TurnInvariant (fun s => Forall (held_or_allowed old) (facts s)).
Proof.
  set (Q := Forall (held_or_allowed old)). apply turn_invariant; intros.
  - apply leaves_search.
  - apply leaves_semantic_search.
  - apply (keeps_delete_facts Q). intros fs HQ. by apply Forall_keep.
  - apply (keeps_resolved_facts Q); intros id fs HQ; [by apply Forall_keep|].
    apply Forall_app. split; [done|]. constructor; [|done]. right. by exists kind, content.
Qed.

End household.

Section turns.
Context {W : Type} `{Ops : World W} `{TB : ToolBodies W} `{PX : Proxy W} `{HO : HashOrder} `{U : Unicode}
  `{SD : Serde} `{DH : DefaultHasher} `{FT : FloatText} `{H : StrHasher} `{G : Gmtime} `{F : Fts} `{EX : Exp}
  `{NF : NoteFts} `{PR : Pragmas}.
Context (half_life_days : f64) (migration_degraded memory_attached : bool).
Context (tool_call_de : value -> option ToolCall) (cfg : DispatcherConfig) (enforced : bool) (llm : Completion W).
Notation HW := (Household W).

(** The model knows the memory by its messages only. *)
Definition household_provider : Completion HW := fun messages n hints => beside (llm messages n hints).

Record TurnRequest := {
  rq_conversation : string;
  rq_turn : IncomingTurn;
  rq_prompt : string;
  rq_history : nat;
  rq_family : ModelFamily.t;
  rq_origin : RequestOrigin.t;
  rq_proxy : option PrivacyProxyConfig;
}.

Definition chat (r : TurnRequest) : M (TurnState HW) (result ChatTurnResult string) :=
  @process_chat_turn HW household_world (household_tools half_life_days migration_degraded memory_attached) HO U SD DH FT
    household_proxy (household_turns half_life_days) tool_call_de cfg enforced household_provider
    (rq_conversation r) (rq_turn r) (rq_prompt r) (rq_history r) (rq_family r) (rq_origin r) (rq_proxy r).

Fixpoint chats (rs : list TurnRequest) (s : TurnState HW) : TurnState HW :=
  match rs with [] => s | r :: rs => chats rs (chat r s).2 end.

Definition memory_of (s : TurnState HW) : MemoryTables.Store := tables (hh_memory (outside (env (ts_disp s)))).

Lemma chats_keep I rs s :
  @TurnInvariant U H G F EX NF PR half_life_days migration_degraded I -> I (memory_of s) -> I (memory_of (chats rs s)).
Proof.
  intros HI. revert s. induction rs as [|r rs IH]; intros s Hs; [done|]. apply IH. unfold chat.
  refine (turn_keeps (memory_is I) (K := invariant_kept _ _ _ I HI) tool_call_de cfg enforced household_provider _ _ _ _ _ _ _ _ s Hs).
  intros. apply beside_safe.
Qed.

(** C5: Whatever the household says, whatever the model, the home and the network
    answer and whatever statement of the database fails, any number of turns
    leaves the memory such that what a shared room is answered from was read
    from sentences that may be spoken there, ids are unique, and every fact it
    did not hold before passed the write policy. *)
Theorem turns_respect_the_memory_policy ops faults rs s :
  hh_memory (outside (env (ts_disp s))) = history half_life_days ops (fresh faults) ->
  let before := memory_of s in
  let after := memory_of (chats rs s) in
  (forall p, p ∈ data after -> table_of p <> MemoryTables.app_only_secret_references -> speakable p) /\
  NoDup (mem_id <$> memories after) /\
  Forall (held_or_allowed (facts before)) (facts after).
Proof.
  intros Hm before after. assert (policed before) as Hp.
  { unfold before, memory_of. rewrite Hm. apply keeps_history, fresh_policed. }
  pose proof (chats_keep policed rs s (policed_turns _ _) Hp) as [[_ Hn] Hrows]. fold after in Hn, Hrows. split_and!.
  - intros p (r & -> & Hr)%list_elem_of_fmap Ht. rewrite Forall_forall in Hrows.
    destruct (Hrows r Hr) as (kind & content & Hpr). exists kind, content. split; [done|]. by apply (projected_gate _ _ _ _ _ Hpr).
  - done.
  - apply (chats_keep (fun st => Forall (held_or_allowed (facts before)) (facts st)) rs s (allowed_turns _ _ _)).
    apply Forall_forall. intros f Hf. by left.
Qed.

End turns.

(** ** Turns, run *)

Section runs.
#[local] Existing Instances ascii_tables one_bucket first_day no_index steep_decay no_notes sound_file key_order
  null_hash brace_serde plain_floats silent_bodies honest.

Definition memory_cfg : DispatcherConfig := {|
  has_home_automation := true; has_memory := true; has_web_search := false; loaded_skills := None;
  cfg_tool_policy := turn_policy; cfg_actuation_safety := default_actuation_safety |}.

Definition at_home_with (c : Conn MemoryTables.Store) : TurnState (Household scripted) :=
  {| ts_disp := fresh_dispatcher {| hh_outside := lamp_world; hh_memory := c |};
     ts_convs := ts_convs at_home; ts_escalations := [] |}.

Definition asks (text : string) : TurnRequest := {|
  rq_conversation := "c1"; rq_turn := says text; rq_prompt := "You are Genie."; rq_history := 10;
  rq_family := ModelFamily.Qwen; rq_origin := RequestOrigin.Api; rq_proxy := None |}.
Definition polite_model : Completion scripted := fun _ _ _ w => (Ok "Nice to meet you.", w).

Definition talk : TurnRequest -> M (TurnState (Household scripted)) (result ChatTurnResult string) :=
  chat half_life false true (fun _ => None) memory_cfg false polite_model.
Definition talks : list TurnRequest -> TurnState (Household scripted) -> TurnState (Household scripted) :=
  chats half_life false true (fun _ => None) memory_cfg false polite_model.
Local Notation new_home := (at_home_with (fresh [])).

Definition introduced : TurnState (Household scripted) := talks [asks "Hello, my name is dana."] new_home.

Example learns_and_recalls :
  fc_content <$> facts (memory_of introduced) = ["User's name is Dana"] /\
  cr_response <$> to_option (talk (asks "what is my name") introduced).1 = Some "Your name is Dana" /\
  fc_content <$> facts (memory_of (talks [asks "No, my name is diana!"; asks "Remember that the bins go out on Monday"] introduced)) =
    ["User's name is Diana"; "the bins go out on Monday"].
Proof. by vm_compute. Qed.

Lemma turns_respect_the_memory_policy_witness :
  let after := memory_of introduced in
  (forall p, p ∈ data after -> table_of p <> MemoryTables.app_only_secret_references -> speakable p) /\
  NoDup (mem_id <$> memories after) /\
  Forall (held_or_allowed []) (facts after).
Proof.
  exact (turns_respect_the_memory_policy half_life false true (fun _ => None) memory_cfg false polite_model [] []
    [asks "Hello, my name is dana."] new_home eq_refl).
Defined.

End runs.
