(* ===== verification/ChatApi.v ===== *)
(** * The chat endpoints ([server.rs])

    [POST /api/chat], its streaming variant and the OpenAI-compatible bridge:
    from the body of a request to the turn it asks for and the answer written
    back.  The gates on host, origin and token ([HttpServers]) and the gate of
    one turn at a time ([ChatGate]) stand before these handlers. *)

From S2P Require Import Prelude RustStr RustNum Sql Json HomeTypes HomeAction HomePolicy HomeControl Confirmations Ledger RateLimit ToolGate Calc Timer Redaction Session HttpServers Conversations LlmProvider MemoryPolicy Escalation DispatchHome QuickRoute Channel Dispatch ToolParser Safety ChatTurn Scripted.
Local Open Scope string_scope.
Local Open Scope list_scope.
Local Open Scope rust_scope.

(** ** The connection *)

(** What is written on a stream: the head of the response, and one JSON object
    to a line. *)
Inductive StreamOut :=
| OutHeaders (status : N) (reflect_origin : option string)
| OutEvent (event : value).

Record Writer := { sent : list StreamOut; write_faults : list bool }.

(** The peer may be gone at any write. *)
Definition write_out (o : StreamOut) : M Writer (result unit string) :=
  fun w =>
    if default false (head (write_faults w))
    then (Err "broken pipe", {| sent := sent w; write_faults := tail (write_faults w) |})
    else (Ok tt, {| sent := sent w ++ [o]; write_faults := tail (write_faults w) |}).

Definition core_status_text (code : N) : string :=
  match find (fun e => N.eqb e.1 code)
    [(200%N, "OK"); (400%N, "Bad Request"); (403%N, "Forbidden"); (404%N, "Not Found"); (408%N, "Request Timeout");
     (413%N, "Payload Too Large"); (431%N, "Request Header Fields Too Large"); (502%N, "Bad Gateway");
     (503%N, "Service Unavailable"); (500%N, "Internal Server Error")] with
  | Some (_, t) => t
  | None => "Unknown"
  end.

(** The bytes of what is written. *)
Definition wire_text `{SD : Serde} (o : StreamOut) : string :=
  match o with
  | OutHeaders status reflect_origin =>
      "HTTP/1.1 " +:+ show_N status +:+ " " +:+ core_status_text status +:+ crlf +:+
      "Content-Type: application/x-ndjson" +:+ crlf +:+ "Cache-Control: no-cache" +:+ crlf +:+
      cors_response_headers reflect_origin +:+ "Connection: close" +:+ crlf +:+ crlf
  | OutEvent event => to_str event +:+ newline
  end.

Definition start_event (conv_id : string) : value :=
  Object [("conversation_id", Str conv_id); ("type", Str "start")].
Definition token_event (token : string) : value := Object [("content", Str token); ("type", Str "token")].
Definition replace_event (content tool : string) : value :=
  Object [("content", Str content); ("tool", Str tool); ("type", Str "replace")].
Definition error_event (message : string) : value := Object [("message", Str message); ("type", Str "error")].
Definition json_opt_str (o : option string) : value := match o with Some s => Str s | None => Null end.
Definition done_event (conv_id response : string) (tool : option string) : value :=
  Object [("conversation_id", Str conv_id); ("response", Str response); ("tool", json_opt_str tool);
          ("type", Str "done")].

(** ** Telling a tool call from text while it arrives *)

Inductive StreamMode := Undecided | TextMode | ToolMode.
Record StreamState := { st_mode : StreamMode; st_pending : string; emitted_text : bool }.

Definition TOOL_JSON_KEYS : list string :=
  ["tool"; "arguments"; "get_time"; "get_weather"; "web_search"; "system_info"; "home_control"; "home_status";
   "home_undo"; "action_history"; "set_timer"; "calculate"; "play_media"; "memory_recall"; "memory_status";
   "memory_store"; "memory_forget"].
Definition looks_like_tool_json (text : string) : bool :=
  contains_any text ((fun k => dquote +:+ k +:+ dquote) <$> TOOL_JSON_KEYS).

(** What starts with a brace is a call, or text, or still too short to tell. *)
Definition json_mode (text : string) : StreamMode :=
  if looks_like_tool_json text then ToolMode
  else if Nat.ltb (String.length text) 96 then Undecided else TextMode.

Definition detect_stream_mode (buffer : string) : StreamMode :=
  let trimmed := trim_start buffer in
  if is_empty trimmed then Undecided
  else
    let fenced := match strip_prefix trimmed "```json" with Some s => Some s | None => strip_prefix trimmed "```" end in
    match fenced with
    | Some inner =>
        let inner := trim_start inner in
        if is_empty inner then Undecided
        else if starts_with inner "{" then json_mode inner else TextMode
    | None => if starts_with trimmed "{" then json_mode trimmed else TextMode
    end.

(** One piece of the model's answer. *)
Definition consume_token (st : StreamState) (token : string) : M Writer (result StreamState string) :=
  match st_mode st with
  | TextMode =>
      let!? _ := write_out (OutEvent (token_event token)) in
      ret (Ok {| st_mode := TextMode; st_pending := st_pending st; emitted_text := true |})
  | Undecided | ToolMode =>
      let pending := st_pending st +:+ token in
      let kept mode := {| st_mode := mode; st_pending := pending; emitted_text := emitted_text st |} in
      match st_mode st with
      | Undecided =>
          match detect_stream_mode pending with
          | TextMode =>
              let!? _ := write_out (OutEvent (token_event pending)) in
              ret (Ok {| st_mode := TextMode; st_pending := ""; emitted_text := true |})
          | ToolMode => ret (Ok (kept ToolMode))
          | Undecided => ret (Ok (kept Undecided))
          end
      | mode => ret (Ok (kept mode))
      end
  end.

(** All pieces, up to a failed write; with the number of pieces taken. *)
Fixpoint consume (st : StreamState) (taken : nat) (tokens : list string)
    : M Writer (nat * result StreamState string) :=
  match tokens with
  | [] => ret (taken, Ok st)
  | token :: tokens =>
      let! r := consume_token st token in
      match r with
      | Ok st => consume st (S taken) tokens
      | Err e => ret (taken, Err e)
      end
  end.

Definition stream_start : StreamState := {| st_mode := Undecided; st_pending := ""; emitted_text := false |}.

(** ** State *)

Record ApiState (W : Type) := {
  as_turn : TurnState W;
  as_registry : SessionRegistry;
  as_current : string;
  as_writer : Writer;
}.
Arguments as_turn {W} _.
Arguments as_registry {W} _.
Arguments as_current {W} _.
Arguments as_writer {W} _.

(** The streaming client: the pieces of an answer and how it ended; what a
    stream leaves that is dropped after some pieces. *)
Class Streaming (W : Type) := {
  chat_stream : list Message -> option N -> LlmRequestHints -> W -> (list string * result string string) * W;
  stream_dropped : list Message -> option N -> LlmRequestHints -> nat -> W -> W;
}.

Section state.
Context {W : Type}.
Notation A := (ApiState W).

Definition on_turn {B} : M (TurnState W) B -> M A B :=
  zoom as_turn (fun t s => {| as_turn := t; as_registry := as_registry s; as_current := as_current s;
                              as_writer := as_writer s |}).
Definition on_registry {B} : M SessionRegistry B -> M A B :=
  zoom as_registry (fun r s => {| as_turn := as_turn s; as_registry := r; as_current := as_current s;
                                  as_writer := as_writer s |}).
Definition on_writer {B} : M Writer B -> M A B :=
  zoom as_writer (fun w s => {| as_turn := as_turn s; as_registry := as_registry s; as_current := as_current s;
                                as_writer := w |}).
Definition set_current (id : string) : M A unit :=
  fun s => (tt, {| as_turn := as_turn s; as_registry := as_registry s; as_current := id; as_writer := as_writer s |}).
Definition get_current : M A string := fun s => (as_current s, s).

Definition send_out (o : StreamOut) : M A (result unit string) := on_writer (write_out o).
Definition send_event (v : value) : M A (result unit string) := send_out (OutEvent v).

End state.

Section handlers.
Context {W : Type} `{Ops : World W} `{TB : ToolBodies W} `{HO : HashOrder} `{U : Unicode}
  `{SD : Serde} `{DH : DefaultHasher} `{FT : FloatText} `{PX : Proxy W} `{TS : TurnServices W} `{ST : Streaming W}.
(** The decoder of calls, the wording of [serde_json]'s errors, the dispatcher,
    the foreign keys of the store, the client of the model, and the
    configuration of the server. *)
Context (tool_call_de : value -> option ToolCall) (parse_error : string -> string) (cfg : DispatcherConfig)
  (enforced : bool) (llm : Completion W) (env_var : Environment) (agent : AgentConfig)
  (optional_ai_provider : OptionalAiProviderConfig) (system_prompt : string) (max_history : nat)
  (family : ModelFamily.t).
Notation A := (ApiState W).

Definition http_provider : Completion W := gated_complete (gate_for_http optional_ai_provider) agent env_var llm.
Definition gate_error : option string := provider_gate_blocked_error agent optional_ai_provider env_var.

(** Messages that are not escaped before they are put between quotes. *)
Definition raw_error (status : N) (text : string) : Response := json_response status text.
Definition json_ok (v : value) : Response :=
  {| rsp_status := 200; content_type := "application/json"; rsp_body := to_str v |}.

Definition session_now_ms : M A Z := let! now := on_turn (in_world now_ms) in ret (Z.of_N now).

(** [resolve_chat_conv_id]: the time is read first. *)
Definition resolve_chat_conv_id (parsed : value) (turn : IncomingTurn) : M A string :=
  let! now := session_now_ms in
  match get_str parsed "conversation_id" with
  | Some id =>
      if negb (is_empty (trim id))
      then let! _ := on_registry (fun r => (tt, track id now r)) in ret id
      else on_registry (resolve_session (turn_conversation_id turn (turn_session_id turn)) now)
  | None => on_registry (resolve_session (turn_conversation_id turn (turn_session_id turn)) now)
  end.

(** The message of a body, or why there is none. *)
Inductive ChatBody := NoBody | BadJson (e : string) | EmptyMessage | ChatMessage (parsed : value) (text : string).
Definition read_chat_body (body : option string) : ChatBody :=
  match body with
  | None => NoBody
  | Some body =>
      match from_str body with
      | None => BadJson (parse_error body)
      | Some parsed =>
          let text := default "" (get_str parsed "message") in
          if is_empty (trim text) then EmptyMessage else ChatMessage parsed text
      end
  end.

(** [POST /api/chat]. *)
Definition chat_result_json (res : ChatTurnResult) : value :=
  Object [("conversation_id", Str (cr_conversation_id res)); ("response", Str (cr_response res));
          ("tool", json_opt_str (cr_tool res))].

Definition handle_chat (body : option string) (origin : RequestOrigin.t)
    (privacy_proxy : option PrivacyProxyConfig) : M A Response :=
  match read_chat_body body with
  | NoBody => ret (raw_error 400 "missing body")
  | BadJson e => ret (raw_error 400 e)
  | EmptyMessage => ret (raw_error 400 "empty message")
  | ChatMessage parsed _ =>
      let! current := get_current in
      let turn := incoming_turn_from_chat_json parsed current in
      let! conv_id := resolve_chat_conv_id parsed turn in
      match gate_error with
      | Some reasons => ret (raw_error 503 ("optional_ai_provider misconfigured: " +:+ reasons))
      | None =>
          let! r := on_turn (process_chat_turn tool_call_de cfg enforced http_provider conv_id turn system_prompt
                               max_history family origin privacy_proxy) in
          match r with
          | Ok res => ret (json_ok (chat_result_json res))
          | Err e => ret (raw_error 500 ("chat: " +:+ e))
          end
      end
  end.

(** [POST /api/chat/stream]. *)
Definition refuse_stream (status : N) (reflect_origin : option string) (message : string) : M A (result unit string) :=
  let!? _ := send_out (OutHeaders status reflect_origin) in
  send_event (error_event message).

Definition remember (text : string) : M A unit := on_turn (in_world (extract_and_store text)).

Definition stream_direct (reflect_origin : option string) (conv_id : string) (turn : IncomingTurn)
    (ctx : ToolExecutionContext) (call : ToolCall) : M A (result unit string) :=
  let!? _ := send_out (OutHeaders 200 reflect_origin) in
  let!? _ := send_event (start_event conv_id) in
  let! res := on_turn (on_disp (execute_with_context cfg call ctx)) in
  let! final_response := on_turn (finalize_direct_tool_turn enforced conv_id call res) in
  let!? _ := send_event (replace_event final_response (result_tool res)) in
  let! _ := remember (turn_text turn) in
  send_event (done_event conv_id final_response (Some (result_tool res))).

(** The producer and the consumer of the pieces.  A write that fails drops the
    producer. *)
Definition run_stream (messages : list Message) (max_tokens : option N) (hints : LlmRequestHints)
    : M A (result (string * StreamState) string) :=
  fun s =>
    let w0 := outside (env (ts_disp (as_turn s))) in
    let '((pieces, outcome), w1) := chat_stream messages max_tokens hints w0 in
    let '((taken, st), s) := on_writer (consume stream_start 0 pieces) s in
    let in_w w := on_turn (in_world (fun _ => (tt, w))) s in
    match st with
    | Err e => (Err e, (in_w (stream_dropped messages max_tokens hints taken w0)).2)
    | Ok st =>
        (match outcome with Ok text => Ok (text, st) | Err e => Err e end, (in_w w1).2)
    end.

(** What is left to show and to keep once the model is done. *)
Definition finish_stream (conv_id llm_response : string) (st : StreamState) (ctx : ToolExecutionContext)
    : M A (result (string * option string) string) :=
  let! tool := on_turn (on_disp (try_tool_call_with_context tool_call_de cfg llm_response ctx)) in
  match tool with
  | Some res =>
      let! summary := on_turn (finalize_tool_turn enforced http_provider conv_id llm_response res family) in
      let!? _ := (if emitted_text st then ret (Ok tt) else send_event (replace_event summary (result_tool res))) in
      ret (Ok (summary, Some (result_tool res)))
  | None =>
      let sanitized := plain_reply tool_call_de llm_response in
      let!? _ := (match st_mode st with
                  | Undecided =>
                      if is_empty (st_pending st) then ret (Ok tt) else send_event (token_event (st_pending st))
                  | _ => ret (Ok tt)
                  end) in
      let! _ := on_turn (at_now (append_or_log enforced conv_id (assistant_message sanitized None))) in
      ret (Ok (sanitized, None))
  end.

Definition stream_model (reflect_origin : option string) (conv_id : string) (turn : IncomingTurn)
    (ctx : ToolExecutionContext) : M A (result unit string) :=
  let! context := on_turn (build_memory_context_for_turn turn) in
  let!? history := on_turn (on_convs (get_recent conv_id max_history)) in
  let messages := turn_messages system_prompt context history turn family in
  let!? _ := send_out (OutHeaders 200 reflect_origin) in
  let!? _ := send_event (start_event conv_id) in
  let!? answer := run_stream messages (Some 512%N) (agent_turn conv_id 512) in
  let!? reply := finish_stream conv_id answer.1 answer.2 ctx in
  let! _ := remember (turn_text turn) in
  send_event (done_event conv_id reply.1 reply.2).

Definition handle_chat_stream (body : option string) (origin : RequestOrigin.t) (reflect_origin : option string)
    : M A (result unit string) :=
  match read_chat_body body with
  | NoBody => refuse_stream 400 reflect_origin "missing body"
  | BadJson e => refuse_stream 400 reflect_origin ("invalid JSON: " +:+ e)
  | EmptyMessage => refuse_stream 400 reflect_origin "empty message"
  | ChatMessage parsed _ =>
      let! current := get_current in
      let turn := incoming_turn_from_chat_json parsed current in
      let! conv_id := resolve_chat_conv_id parsed turn in
      let ctx := tool_execution_context turn origin false in
      let!? _ := on_turn (store_user_message enforced conv_id turn) in
      match route_for_available_tools (turn_text turn) (has_home_automation cfg) (has_web_search cfg) with
      | Some call => stream_direct reflect_origin conv_id turn ctx call
      | None =>
          match gate_error with
          | Some reasons =>
              refuse_stream 503 reflect_origin ("optional_ai_provider misconfigured: " +:+ reasons)
          | None => stream_model reflect_origin conv_id turn ctx
          end
      end
  end.

(** ** The other endpoints of a conversation *)

Definition handle_clear : M A Response :=
  let! now := on_turn (in_world now_ms) in
  let! r := on_turn (on_convs (create now)) in
  match r with
  | Ok new_id =>
      let! _ := set_current new_id in
      ret (json_ok (Object [("conversation_id", Str new_id); ("ok", Bool true)]))
  | Err e => ret (raw_error 500 e)
  end.

(** Records printed as they are declared. *)
Definition message_json (m : StoredMessage) : value :=
  Object ([("role", Str (sm_role m)); ("content", Str (sm_content m))] ++
    match sm_speaker m with Some s => [("speaker", Str s)] | None => [] end).
Definition handle_history : M A Response :=
  let! conv_id := get_current in
  let! messages := on_turn (on_convs (get_messages conv_id)) in
  ret (json_ok (Array (message_json <$> match messages with Ok l => l | Err _ => [] end))).

Definition meta_json (m : ConversationMeta) : value :=
  Object [("id", Str (cm_id m)); ("title", Str (cm_title m)); ("created_ms", json_i64 (cm_created_ms m));
          ("updated_ms", json_i64 (cm_updated_ms m));
          ("message_count", Number (PosInt (N.of_nat (message_count m))))].
Definition handle_list_conversations : M A Response :=
  let! l := on_turn (on_convs list_conversations) in
  ret (json_ok (Array (meta_json <$> match l with Ok l => l | Err _ => [] end))).

Definition handle_export (to_string_pretty : value -> string) (conv_id : string) : M A Response :=
  let! r := on_turn (on_convs (export_json to_string_pretty conv_id)) in
  match r with
  | Ok json => ret {| rsp_status := 200; content_type := "application/json"; rsp_body := json |}
  | Err e => ret {| rsp_status := 404; content_type := "application/json"; rsp_body := to_str (Object [("error", Str e)]) |}
  end.

Definition handle_actuation_confirm (body : option string) : M A Response :=
  match body with
  | None => ret (raw_error 400 "missing body")
  | Some body =>
      match from_str body with
      | None => ret (raw_error 400 ("invalid JSON: " +:+ parse_error body))
      | Some parsed =>
          let token := default "" (get_str parsed "token") in
          if is_empty (trim token) then ret (raw_error 400 "missing token")
          else
            let! r := on_turn (on_disp (confirm_pending_home_action cfg token)) in
            match r with
            | Ok response => ret (json_ok (Object [("ok", Bool true); ("response", Str response)]))
            | Err e =>
                ret {| rsp_status := 400; content_type := "application/json";
                       rsp_body := to_str (Object [("error", Str e); ("ok", Bool false)]) |}
            end
      end
  end.

(** ** The OpenAI-compatible bridge *)

Definition text_part (part : value) : option string :=
  match get_str part "type" with
  | Some kind => if String.eqb kind "text" then get_str part "text" else None
  | None => None
  end.

Definition message_content_to_string (content : value) : option string :=
  match as_str content with
  | Some text => Some text
  | None =>
      parts ← as_array content;
      let text := join newline (filter_map text_part parts) in
      if is_empty (trim text) then None else Some text
  end.

Definition parse_openai_message (msg : value) : option Message :=
  r ← get_str msg "role";
  if existsb (String.eqb r) ["system"; "user"; "assistant"] then
    c ← get msg "content"; text ← message_content_to_string c;
    Some {| role := r; content := text |}
  else None.
Definition parse_openai_messages (messages : list value) : list Message :=
  filter_map parse_openai_message (drop (length messages - max_history) messages).

Definition agent_hints (parsed : value) : option value := v ← get parsed "nvext"; get v "agent_hints".

Definition as_i64 (v : value) : option Z :=
  match v with
  | Number (PosInt n) => if (n <=? 9223372036854775807)%N then Some (Z.of_N n) else None
  | Number (NegInt z) => Some z
  | _ => None
  end.

Definition llm_hints_from_openai_body (parsed : value) (max_tokens : N) : option LlmRequestHints :=
  s ← match get_str parsed "conversation_id" with
      | Some s => Some s
      | None => h ← agent_hints parsed; get_str h "session_id"
      end;
  let session_id := trim s in
  if is_empty session_id then None
  else
    let hints := agent_turn session_id max_tokens in
    Some {| session_id_hint := session_id_hint hints;
            priority := match (h ← agent_hints parsed; v ← get h "priority"; as_i64 v) with
                        | Some p => Some (Z.max (-2147483648) (Z.min 2147483647 p))
                        | None => priority hints
                        end;
            output_sequence_length := match (h ← agent_hints parsed; v ← get h "osl"; as_u64 v) with
                                      | Some n => Some (N.min n u32_max)
                                      | None => output_sequence_length hints
                                      end;
            speculative_prefill := default (speculative_prefill hints)
                                     (h ← agent_hints parsed; v ← get h "speculative_prefill"; as_bool v);
            cache_ttl_secs := cache_ttl_secs hints |}.

(** [iter().rev().find(|m| m.role == "user")]. *)
Definition last_user_text (l : list Message) : string :=
  match last_user l with Some i => default "" (content <$> l !! i) | None => "" end.

Definition openai_error (status : N) (inner : string) : Response :=
  {| rsp_status := status; content_type := "application/json";
     rsp_body := "{" +:+ dquote +:+ "error" +:+ dquote +:+ ":{" +:+ dquote +:+ "message" +:+ dquote +:+ ":" +:+
                 dquote +:+ inner +:+ "}}" |}.

Definition openai_chat_response (model content : string) (timestamp : N) : Response :=
  json_ok (Object [
    ("choices", Array [Object [("finish_reason", Str "stop"); ("index", Number (PosInt 0));
       ("message", Object [("content", Str content); ("role", Str "assistant")])]]);
    ("created", Number (PosInt timestamp)); ("id", Str ("chatcmpl-" +:+ show_N timestamp)); ("model", Str model);
    ("object", Str "chat.completion");
    ("usage", Object [("completion_tokens", Number (PosInt 0)); ("prompt_tokens", Number (PosInt 0));
       ("total_tokens", Number (PosInt 0))])]).
Definition openai_answer (model content : string) : M A Response :=
  let! now := on_turn (in_world now_ms) in
  ret (openai_chat_response model content (now / 1000)).

(** The bridge asks the client of the model directly. *)
Definition ask (messages : list Message) (max_tokens : N) (hints : option LlmRequestHints)
    : M A (result string string) := on_turn (in_world (llm messages (Some max_tokens) hints)).

Definition bridge_context (origin : RequestOrigin.t) : ToolExecutionContext :=
  {| memory_read_context := memory_read_context default_context; request_origin := origin;
     ctx_confirmed := ctx_confirmed default_context |}.

Definition bridge_summary (llm_messages : list Message) (llm_response : string) (res : ToolResult)
    (hints : option LlmRequestHints) : M A string :=
  let summary_msgs := llm_messages ++
    [{| role := "assistant"; content := llm_response |}; {| role := "system"; content := tool_result_text res |};
     {| role := "system"; content := SUMMARY_PROMPT |}] in
  let summary_msgs := (apply_reasoning_mode family summary_msgs "" InteractionKind.ToolSummary).1 in
  let! r := ask summary_msgs 128
    ((fun h => tool_summary (default "" (session_id_hint h)) 128) <$> hints) in
  ret (match r with Ok s => s | Err _ => tool_output res end).

Definition bridge_model (origin : RequestOrigin.t) (parsed : value) (incoming : list Message) (user_text : string)
    (max_tokens : N) : M A (result string string) :=
  let! context := on_turn (in_world (memory_context user_text None)) in
  let llm_messages := (apply_reasoning_mode family
    ({| role := "system";
        content := system_prompt +:+ newline +:+ newline +:+ "Relevant household context:" +:+ newline +:+ context |}
     :: incoming) user_text InteractionKind.OpenAiBridge).1 in
  let hints := llm_hints_from_openai_body parsed max_tokens in
  let!? llm_response := ask llm_messages max_tokens hints in
  let! tool := on_turn (on_disp (try_tool_call_with_context tool_call_de cfg llm_response (bridge_context origin))) in
  match tool with
  | Some res =>
      let! s := (if should_summarize_tool_result (result_tool res)
                 then bridge_summary llm_messages llm_response res hints else ret (tool_output res)) in
      ret (Ok s)
  | None =>
      ret (Ok (if is_unparsed_tool_call tool_call_de llm_response then UNPARSED_TOOL_CALL_FALLBACK else llm_response))
  end.

Definition handle_openai_chat (body : option string) (origin : RequestOrigin.t) : M A Response :=
  match body with
  | None => ret (openai_error 400 ("missing body" +:+ dquote))
  | Some body =>
      match from_str body with
      | None => ret (openai_error 400 (parse_error body +:+ dquote))
      | Some parsed =>
          let incoming := match get parsed "messages" ≫= as_array with
                          | Some msgs => parse_openai_messages msgs | None => [] end in
          let user_text := last_user_text incoming in
          if is_empty (trim user_text) then ret (openai_error 400 ("no user message found" +:+ dquote))
          else
            let max_tokens := match get parsed "max_tokens" ≫= as_u64 with
                              | Some n => u32_wrap n | None => 256%N end in
            let model := default "nemotron-4b" (get_str parsed "model") in
            match route_for_available_tools user_text (has_home_automation cfg) (has_web_search cfg) with
            | Some call =>
                let! res := on_turn (on_disp (execute_with_context cfg call (bridge_context origin))) in
                let sanitized := sanitize_output (direct_response res) in
                let! _ := remember user_text in
                openai_answer model sanitized
            | None =>
                let! r := bridge_model origin parsed incoming user_text max_tokens in
                match r with
                | Err e => ret (openai_error 500 ("LLM error: " +:+ e +:+ dquote +:+ "," +:+ dquote +:+ "type" +:+
                             dquote +:+ ":" +:+ dquote +:+ "server_error" +:+ dquote))
                | Ok final_response =>
                    let sanitized := sanitize_output final_response in
                    let! _ := remember user_text in
                    openai_answer model sanitized
                end
            end
      end
  end.

End handlers.

(** ** What is shown while it arrives *)

Definition token_text (tokens : list string) : string := concat_str tokens.
Definition shown (tokens : list string) : list StreamOut := (fun t => OutEvent (token_event t)) <$> tokens.

(** While it is not known to be text, everything is held back. *)
Definition stream_ok (st : StreamState) : Prop :=
  match st_mode st with
  | TextMode => st_pending st = "" /\ emitted_text st = true
  | _ => emitted_text st = false
  end.

Lemma write_out_run o w r w' :
  write_out o w = (r, w') -> sent w' = sent w ++ (if is_ok r then [o] else []).
Proof.
  unfold write_out. destruct (default false _); intros [= <- <-]; [by rewrite app_nil_r|done].
Qed.

Lemma consume_token_run st token w r w' :
  stream_ok st -> consume_token st token w = (r, w') ->
  exists tokens, sent w' = sent w ++ shown tokens /\
    match r with
    | Ok st' => stream_ok st' /\ token_text tokens +:+ st_pending st' = st_pending st +:+ token /\
                (st_mode st' <> TextMode -> tokens = [] /\ st_mode st <> TextMode)
    | Err _ => True
    end.
Proof.
  intros Hok. unfold consume_token, ebind, ret. unfold stream_ok in Hok.
  assert (forall mode, mode <> TextMode -> st_mode st <> TextMode -> emitted_text st = false ->
    exists tokens, sent w = sent w ++ shown tokens /\
      stream_ok {| st_mode := mode; st_pending := st_pending st +:+ token; emitted_text := emitted_text st |} /\
      token_text tokens +:+ (st_pending st +:+ token) = st_pending st +:+ token /\
      (mode <> TextMode -> tokens = [] /\ st_mode st <> TextMode)) as Hkept.
  { intros mode Hm Hst He. exists []. rewrite app_nil_r. split; [done|]. split_and!; [|done|done].
    unfold stream_ok. cbn. by destruct mode. }
  assert (forall text w1 r1, write_out (OutEvent (token_event text)) w = (r1, w1) ->
    exists tokens, sent w1 = sent w ++ shown tokens /\ (is_ok r1 = true -> token_text tokens = text)) as Hwrite.
  { intros text w1 r1 E. apply write_out_run in E. destruct r1 as [u|e].
    - exists [text]. split; [done|]. intros _. unfold token_text. by rewrite concat_str_cons, sapp_nil_r.
    - exists []. split; [done|]. done. }
  destruct (st_mode st) eqn:Em.
  - destruct (detect_stream_mode _) eqn:Ed; try (intros [= <- <-]; by apply Hkept).
    destruct (write_out _ w) as [r1 w1] eqn:E. apply Hwrite in E as (tokens & Hs & Ht).
    destruct r1 as [u|e]; intros [= <- <-]; exists tokens; (split; [done|]); [|done].
    split_and!; [done| |done]. cbn. by rewrite (Ht eq_refl), sapp_nil_r.
  - destruct Hok as [Hp Hemit].
    destruct (write_out _ w) as [r1 w1] eqn:E. apply Hwrite in E as (tokens & Hs & Ht).
    destruct r1 as [u|e]; intros [= <- <-]; exists tokens; (split; [done|]); [|done].
    split_and!; [done| |done]. cbn. by rewrite (Ht eq_refl), Hp, sapp_nil_r.
  - intros [= <- <-]. by apply Hkept.
Qed.

Lemma token_text_app a b : token_text (a ++ b) = token_text a +:+ token_text b.
Proof. apply concat_str_app. Qed.

Lemma consume_run st taken pieces w k r w' :
  stream_ok st -> consume st taken pieces w = ((k, r), w') ->
  exists tokens, sent w' = sent w ++ shown tokens /\
    match r with
    | Ok st' => stream_ok st' /\ token_text tokens +:+ st_pending st' = st_pending st +:+ token_text pieces /\
                (st_mode st' <> TextMode -> tokens = [] /\ st_mode st <> TextMode)
    | Err _ => True
    end.
Proof.
  revert st taken w. induction pieces as [|p pieces IH]; intros st taken w Hok; cbn [consume].
  - unfold ret. intros [= <- <- <-]. exists []. rewrite app_nil_r. split; [done|]. split_and!; [done| |done].
    by rewrite sapp_nil_r.
  - unfold bind. destruct (consume_token st p w) as [[st1|e] w1] eqn:E;
      apply consume_token_run in E as (tokens & Hs & Hr); try done.
    + destruct Hr as (Hok1 & Ht & Hn). intros H. apply IH in H as (tokens' & Hs' & Hr'); [|done].
      exists (tokens ++ tokens'). unfold shown in *. split; [by rewrite Hs', Hs, fmap_app, (assoc_L (++))|].
      destruct r as [st'|e]; [|done]. destruct Hr' as (Hok' & Ht' & Hn'). split_and!; [done| |].
      * rewrite token_text_app, <- sapp_assoc, Ht', sapp_assoc, Ht. unfold token_text at 2.
        rewrite concat_str_cons. by rewrite <- sapp_assoc.
      * intros Hm. destruct (Hn' Hm) as [-> Hm1]. rewrite app_nil_r. by apply Hn.
    + unfold ret. intros [= <- <- <-]. by exists tokens.
Qed.

(** ** What the endpoints do *)

Section effects.
Context {W : Type} `{Ops : World W} `{TB : ToolBodies W} `{HO : HashOrder} `{U : Unicode}
  `{SD : Serde} `{DH : DefaultHasher} `{FT : FloatText} `{PX : Proxy W} `{TS : TurnServices W} `{ST : Streaming W}.
Context (tool_call_de : value -> option ToolCall) (parse_error : string -> string) (cfg : DispatcherConfig)
  (enforced : bool) (llm : Completion W) (env_var : Environment) (agent : AgentConfig)
  (optional_ai_provider : OptionalAiProviderConfig) (system_prompt : string) (max_history : nat)
  (family : ModelFamily.t).
Notation A := (ApiState W).

Lemma on_turn_run {B} (m : M (TurnState W) B) (s : A) b s' :
  on_turn m s = (b, s') -> m (as_turn s) = (b, as_turn s') /\ as_writer s' = as_writer s.
Proof. unfold on_turn, zoom. destruct (m _) as [x t]. by intros [= -> <-]. Qed.

Lemma on_registry_run {B} (m : M SessionRegistry B) (s : A) b s' :
  on_registry m s = (b, s') -> as_turn s' = as_turn s /\ as_writer s' = as_writer s.
Proof. unfold on_registry, zoom. destruct (m _) as [x t]. by intros [= _ <-]. Qed.

Definition prints (outs : list StreamOut) (s s' : A) : Prop := sent (as_writer s') = sent (as_writer s) ++ outs.

Lemma prints_nil s s' : as_writer s' = as_writer s -> prints [] s s'.
Proof. unfold prints. intros ->. by rewrite app_nil_r. Qed.

Lemma prints_app l k s1 s2 s3 : prints l s1 s2 -> prints k s2 s3 -> prints (l ++ k) s1 s3.
Proof. unfold prints. intros H1 H2. by rewrite H2, H1, (assoc_L (++)). Qed.

Lemma send_run o (s : A) r s' :
  send_out o s = (r, s') -> as_turn s' = as_turn s /\ prints (if is_ok r then [o] else []) s s'.
Proof.
  unfold send_out, on_writer, zoom, prints. destruct (write_out o _) as [r1 w] eqn:E. intros [= <- <-].
  split; [done|]. by apply write_out_run in E.
Qed.

(** One call at most between two states, and no escalation. *)
Definition calls_once (ctx : ToolExecutionContext) (s s' : A) : Prop :=
  (exists tool, one_call cfg ctx tool (ts_disp (as_turn s)) (ts_disp (as_turn s'))) /\
  ts_escalations (as_turn s') = ts_escalations (as_turn s).
Definition idle (s s' : A) : Prop := sends_nothing (as_turn s) (as_turn s').

Lemma idle_calls ctx s s' : idle s s' -> calls_once ctx s s'.
Proof. intros []. split; [by exists None|done]. Qed.

Lemma idle_then ctx s1 s2 s3 : idle s1 s2 -> calls_once ctx s2 s3 -> calls_once ctx s1 s3.
Proof.
  intros [Hd He] [[tool H] He']. split; [exists tool; by eapply one_call_world|congruence].
Qed.

Lemma then_idle ctx s1 s2 s3 : calls_once ctx s1 s2 -> idle s2 s3 -> calls_once ctx s1 s3.
Proof.
  intros [[tool H] He'] [Hd He]. split; [exists tool; by eapply one_call_world|congruence].
Qed.

Lemma idle_refl s s' : as_turn s' = as_turn s -> idle s s'.
Proof. unfold idle. by intros ->. Qed.

Lemma idle_trans s1 s2 s3 : idle s1 s2 -> idle s2 s3 -> idle s1 s3.
Proof. unfold idle. intros. by transitivity (as_turn s2). Qed.

Lemma in_world_idle {B} (op : W -> B * W) (s : A) b s' : on_turn (in_world op) s = (b, s') -> idle s s' /\ prints [] s s'.
Proof.
  intros H. apply on_turn_run in H as [H Hw]. apply in_world_run in H as [_ H]. split; [done|by apply prints_nil].
Qed.

Lemma resolve_idle parsed turn (s : A) id s' :
  resolve_chat_conv_id parsed turn s = (id, s') -> idle s s' /\ prints [] s s'.
Proof.
  unfold resolve_chat_conv_id, session_now_ms, bind. destruct (on_turn (in_world now_ms) s) as [now s1] eqn:E1.
  apply in_world_idle in E1 as [H1 P1]. unfold ret.
  assert (forall s2, as_turn s2 = as_turn s1 -> as_writer s2 = as_writer s1 -> idle s s2 /\ prints [] s s2) as Hsame.
  { intros s2 Ht Hw. split; [eapply idle_trans; [done|by apply idle_refl]|].
    apply (prints_app [] [] s s1); [done|by apply prints_nil]. }
  destruct (get_str parsed "conversation_id") as [c|].
  - destruct (negb (is_empty (trim c))).
    + destruct (on_registry _ s1) as [u s2] eqn:E2. apply on_registry_run in E2 as []. intros [= _ <-]. auto.
    + intros E2. apply on_registry_run in E2 as []. auto.
  - intros E2. apply on_registry_run in E2 as []. auto.
Qed.

(** The events of a stream that ends well. *)
Definition streamed_text (text : string) : Prop :=
  exists messages max_tokens hints w, text = token_text (chat_stream messages max_tokens hints w).1.1.

Definition stream_shape (conv : string) (outs : list StreamOut) : Prop :=
  (exists status o message, outs = [OutHeaders status o; OutEvent (error_event message)]) \/
  (exists o tokens replace reply tool,
     outs = OutHeaders 200 o :: OutEvent (start_event conv) ::
            shown tokens ++ replace ++ [OutEvent (done_event conv reply tool)] /\
     (tokens = [] \/ streamed_text (token_text tokens)) /\ redacted_reply reply /\
     (replace = [] \/ tokens = [] /\ exists t, tool = Some t /\ replace = [OutEvent (replace_event reply t)])).

Lemma refuse_run status o message conv (s : A) r s' :
  refuse_stream status o message s = (r, s') ->
  idle s s' /\ exists outs, prints outs s s' /\ (r = Ok tt -> stream_shape conv outs).
Proof.
  unfold refuse_stream, ebind. destruct (send_out _ s) as [[u|e] s1] eqn:E1; apply send_run in E1 as [H1 P1].
  - intros E2. apply send_run in E2 as [H2 P2]. split; [apply idle_refl; congruence|].
    eexists. split; [by eapply prints_app|]. intros ->. left. by do 3 eexists.
  - intros [= <- <-]. split; [by apply idle_refl|]. by exists [].
Qed.

Lemma answer_part ctx (s : A) tool s1 llm_response :
  on_turn (on_disp (try_tool_call_with_context tool_call_de cfg llm_response ctx)) s = (tool, s1) ->
  prints [] s s1 /\ ts_escalations (as_turn s1) = ts_escalations (as_turn s) /\
  one_call cfg ctx (result_tool <$> tool) (ts_disp (as_turn s)) (ts_disp (as_turn s1)).
Proof.
  intros E. apply on_turn_run in E as [E Hw]. apply on_disp_run in E as (E & _ & He).
  split_and!; [by apply prints_nil|done|]. unfold try_tool_call_with_context in E.
  destruct (response_call _ _ _) as [call|].
  - unfold bind in E. destruct (execute_with_context _ _ _ _) as [res d2] eqn:Ex. injection E as <- Hd. cbn.
    exists call, (ts_disp (as_turn s)), d2, res. split_and!; [done|done|by rewrite Hd|done].
  - injection E as <- Hd. cbn. by rewrite Hd.
Qed.

Lemma execute_part call ctx (s : A) res s1 :
  on_turn (on_disp (execute_with_context cfg call ctx)) s = (res, s1) -> calls_once ctx s s1 /\ prints [] s s1.
Proof.
  intros E. apply on_turn_run in E as [E Hw]. apply on_disp_run in E as (E & _ & He).
  split; [split; [|done]|by apply prints_nil]. exists (Some (result_tool res)), call, (ts_disp (as_turn s)), (ts_disp (as_turn s1)), res.
  by split_and!.
Qed.

Lemma sends_part {B} (m : M (TurnState W) B) (s : A) b s' :
  (forall t b t', m t = (b, t') -> sends_nothing t t') -> on_turn m s = (b, s') -> idle s s' /\ prints [] s s'.
Proof. intros Hm E. apply on_turn_run in E as [E Hw]. split; [by eapply Hm|by apply prints_nil]. Qed.

Lemma finish_run conv llm_response st ctx (s : A) r s' :
  finish_stream tool_call_de cfg enforced llm env_var agent optional_ai_provider family conv llm_response st ctx s
    = (r, s') ->
  calls_once ctx s s' /\
  exists more replace, prints (shown more ++ replace) s s' /\
    match r with
    | Ok (reply, tool) =>
        redacted_reply reply /\
        (more = [] \/ more = [st_pending st] /\ st_mode st = Undecided /\ replace = []) /\
        (replace = [] \/ emitted_text st = false /\ exists t, tool = Some t /\ replace = [OutEvent (replace_event reply t)])
    | Err _ => True
    end.
Proof.
  unfold finish_stream, bind. destruct (on_turn _ s) as [tool s1] eqn:E1.
  apply answer_part in E1 as (P1 & He1 & Hc1).
  assert (calls_once ctx s s1) as H1 by (split; [by exists (result_tool <$> tool)|done]).
  destruct tool as [res|].
  - destruct (on_turn _ s1) as [summary s2] eqn:E2. apply on_turn_run in E2 as [E2 Hw2].
    apply finalize_tool_run in E2 as (Hr & Hs2 & _).
    assert (calls_once ctx s s2) as H2 by (eapply then_idle; [done|exact Hs2]).
    assert (prints [] s s2) as P2 by (apply (prints_app [] [] s s1); [done|by apply prints_nil]).
    unfold ebind. destruct (emitted_text st) eqn:Hem.
    + unfold ret. intros [= <- <-]. split; [done|]. exists [], []. split; [done|]. split_and!; [done|by left|by left].
    + destruct (send_event _ s2) as [[u|e] s3] eqn:E3; apply send_run in E3 as [H3 P3]; unfold ret; intros [= <- <-];
        (split; [eapply then_idle; [done|by apply idle_refl]|]).
      * exists [], [OutEvent (replace_event summary (result_tool res))].
        split; [by apply (prints_app [] _ s s2)|]. split_and!; [done|by left|right]. split; [done|]. by exists (result_tool res).
      * exists [], []. split; [by apply (prints_app [] [] s s2)|done].
  - assert (redacted_reply (plain_reply tool_call_de llm_response)) as Hr.
    { unfold redacted_reply, plain_reply. destruct (is_unparsed_tool_call _ _); [by right|left; by eexists]. }
    unfold ebind.
    assert (forall more s2, calls_once ctx s s2 -> prints (shown more) s s2 ->
      (more = [] \/ more = [st_pending st] /\ st_mode st = Undecided) ->
      bind (on_turn (at_now (append_or_log enforced conv (assistant_message (plain_reply tool_call_de llm_response) None))))
        (fun _ => ret (Ok (plain_reply tool_call_de llm_response, None))) s2 = (r, s') ->
      calls_once ctx s s' /\ exists more replace, prints (shown more ++ replace) s s' /\
        match r with
        | Ok (reply, tool) => redacted_reply reply /\
            (more = [] \/ more = [st_pending st] /\ st_mode st = Undecided /\ replace = []) /\
            (replace = [] \/ emitted_text st = false /\
               exists t, tool = Some t /\ replace = [OutEvent (replace_event reply t)])
        | Err _ => True
        end) as Hend.
    { intros more s2 H2 P2 Hm. unfold bind, ret. destruct (on_turn _ s2) as [u s3] eqn:E3. intros [= <- <-].
      apply sends_part in E3 as [H3 P3]; [|intros; by eapply store_sends].
      split; [by eapply then_idle|]. exists more, []. split; [rewrite app_nil_r|naive_solver].
      rewrite <- (app_nil_r (shown more)). by eapply prints_app. }
    destruct (st_mode st) eqn:Em; [|intros H; by apply (Hend [] s1) in H; auto..].
    destruct (is_empty (st_pending st)); [intros H; by apply (Hend [] s1) in H; auto|].
    destruct (send_event _ s1) as [[u|e] s2] eqn:E2; apply send_run in E2 as [H2 P2].
    + intros H. apply (Hend [st_pending st] s2) in H; [done|eapply then_idle; [done|by apply idle_refl]| |by right].
      by apply (prints_app [] _ s s1).
    + intros [= <- <-]. split; [eapply then_idle; [done|by apply idle_refl]|]. exists [], [].
      split; [by apply (prints_app [] [] s s1)|done].
Qed.

Lemma run_stream_run messages n hints (s : A) r s' :
  run_stream messages n hints s = (r, s') ->
  idle s s' /\ exists tokens, prints (shown tokens) s s' /\
    match r with
    | Ok (_, st) => stream_ok st /\ (st_mode st <> TextMode -> tokens = []) /\
                    streamed_text (token_text tokens +:+ st_pending st)
    | Err _ => True
    end.
Proof.
  unfold run_stream. destruct (chat_stream messages n hints _) as [[pieces outcome] w1] eqn:Ec.
  unfold on_writer, zoom. destruct (consume stream_start 0 pieces (as_writer s)) as [[taken st] wr] eqn:Es.
  apply consume_run in Es as (tokens & Hs & Hst); [|done].
  assert (forall w, idle s (on_turn (in_world (fun _ => (tt, w))) (Build_ApiState W (as_turn s) (as_registry s) (as_current s) wr)).2 /\
    prints (shown tokens) s (on_turn (in_world (fun _ => (tt, w))) (Build_ApiState W (as_turn s) (as_registry s) (as_current s) wr)).2) as Hw.
  { intros w. split; [|exact Hs]. split; [by exists w|done]. }
  destruct st as [st|e]; intros [= <- <-]; (split; [apply Hw|]); exists tokens; (split; [apply Hw|]); [|done].
  destruct outcome as [text|e]; [|done]. destruct Hst as (Hok & Ht & Hn). split_and!; [done|by intros [H _]%Hn|].
  exists messages, n, hints, (outside (env (ts_disp (as_turn s)))). rewrite Ec. exact Ht.
Qed.

Lemma stream_direct_run reflect conv turn ctx call (s : A) r s' :
  stream_direct cfg enforced reflect conv turn ctx call s = (r, s') ->
  calls_once ctx s s' /\ exists outs, prints outs s s' /\ (r = Ok tt -> stream_shape conv outs).
Proof.
  unfold stream_direct, bind, ebind. destruct (send_out _ s) as [[u1|e] s1] eqn:E1; apply send_run in E1 as [H1 P1];
    [|intros [= <- <-]; split; [by apply idle_calls, idle_refl|by exists []]].
  destruct (send_event _ s1) as [[u2|e] s2] eqn:E2; apply send_run in E2 as [H2 P2];
    pose proof (prints_app _ _ _ _ _ P1 P2) as P12;
    [|intros [= <- <-]; split; [apply idle_calls, idle_refl; congruence|by eexists]].
  destruct (on_turn _ s2) as [res s3] eqn:E3. apply execute_part in E3 as [H3 P3].
  destruct (on_turn (finalize_direct_tool_turn _ _ _ _) s3) as [reply s4] eqn:E4.
  apply on_turn_run in E4 as [E4 W4]. apply finalize_direct_run in E4 as (Hr & Hs4 & _).
  assert (calls_once ctx s s4) as H4.
  { eapply idle_then; [by apply (idle_refl s s2); congruence|]. eapply then_idle; [done|exact Hs4]. }
  pose proof (prints_app _ _ _ _ _ P12 (prints_app _ _ _ _ _ P3 (prints_nil _ _ W4))) as P14. cbn in P14.
  destruct (send_event _ s4) as [[u5|e] s5] eqn:E5; apply send_run in E5 as [H5 P5];
    pose proof (prints_app _ _ _ _ _ P14 P5) as P15;
    [|intros [= <- <-]; split; [eapply then_idle; [done|by apply idle_refl]|by eexists]].
  destruct (remember (turn_text turn) s5) as [u6 s6] eqn:E6. apply in_world_idle in E6 as [H6 P6].
  intros E7. apply send_run in E7 as [H7 P7].
  pose proof (prints_app _ _ _ _ _ P15 (prints_app _ _ _ _ _ P6 P7)) as P17. cbn in P17. split.
  - eapply then_idle; [done|]. eapply idle_trans; [by apply (idle_refl s4 s5)|]. eapply idle_trans; [done|by apply idle_refl].
  - eexists. split; [exact P17|]. intros ->. right. exists reflect, [], [OutEvent (replace_event reply (result_tool res))], reply, (Some (result_tool res)).
    split_and!; [done|by left|done|right; split; [done|by eexists]].
Qed.

Lemma stream_model_run reflect conv turn ctx (s : A) r s' :
  stream_model tool_call_de cfg enforced llm env_var agent optional_ai_provider system_prompt max_history family
    reflect conv turn ctx s = (r, s') ->
  calls_once ctx s s' /\ exists outs, prints outs s s' /\ (r = Ok tt -> stream_shape conv outs).
Proof.
  unfold stream_model. unfold bind at 1. destruct (on_turn _ s) as [context s1] eqn:E1.
  apply in_world_idle in E1 as [H1 P1]. unfold ebind at 1. destruct (on_turn _ s1) as [h s2] eqn:E2.
  apply sends_part in E2 as [H2 P2]; [|intros t b t' Hq; by apply (query_run _ "") in Hq as [_ ?]].
  pose proof (idle_trans _ _ _ H1 H2) as H12. pose proof (prints_app _ _ _ _ _ P1 P2) as P12. cbn in P12.
  destruct h as [history|e]; [|intros [= <- <-]; split; [by apply idle_calls|by exists []]].
  unfold ebind at 1. destruct (send_out _ s2) as [[u3|e] s3] eqn:E3; apply send_run in E3 as [H3 P3];
    pose proof (idle_trans _ _ _ H12 (idle_refl _ _ H3)) as H13;
    pose proof (prints_app _ _ _ _ _ P12 P3) as P13; cbn in P13;
    [|intros [= <- <-]; split; [by apply idle_calls|by eexists]].
  unfold ebind at 1. destruct (send_event _ s3) as [[u4|e] s4] eqn:E4; apply send_run in E4 as [H4 P4];
    pose proof (idle_trans _ _ _ H13 (idle_refl _ _ H4)) as H14;
    pose proof (prints_app _ _ _ _ _ P13 P4) as P14; cbn in P14;
    [|intros [= <- <-]; split; [by apply idle_calls|by eexists]].
  unfold ebind at 1. destruct (run_stream _ _ _ s4) as [answer s5] eqn:E5.
  apply run_stream_run in E5 as (H5 & tokens & P5 & Ha).
  pose proof (idle_trans _ _ _ H14 H5) as H15. pose proof (prints_app _ _ _ _ _ P14 P5) as P15.
  destruct answer as [[text st]|e]; [|intros [= <- <-]; split; [by apply idle_calls|by eexists]].
  destruct Ha as (Hok & Hn & Htext).
  unfold ebind at 1. destruct (finish_stream _ _ _ _ _ _ _ _ _ _ _ _ s5) as [reply s6] eqn:E6.
  apply finish_run in E6 as (H6 & more & replace & P6 & Hr).
  pose proof (idle_then _ _ _ _ H15 H6) as H16. pose proof (prints_app _ _ _ _ _ P15 P6) as P16.
  destruct reply as [[reply tool]|e]; [|intros [= <- <-]; split; [done|by eexists]].
  destruct Hr as (Hred & Hmore & Hrep). unfold bind. destruct (remember (turn_text turn) s6) as [u7 s7] eqn:E7.
  apply in_world_idle in E7 as [H7 P7]. intros E8. apply send_run in E8 as [H8 P8].
  pose proof (prints_app _ _ _ _ _ P16 (prints_app _ _ _ _ _ P7 P8)) as P18. split.
  { eapply then_idle; [done|]. eapply idle_trans; [done|by apply idle_refl]. }
  eexists. split; [exact P18|]. intros ->. right. exists reflect, (tokens ++ more), replace, reply, tool.
  split_and!; [|destruct Hmore as [->|(-> & Hm & ->)]|done|].
  - unfold shown. rewrite fmap_app. cbn. by rewrite <- !(assoc_L (++)).
  - rewrite app_nil_r. unfold stream_ok in Hok. destruct (st_mode st) eqn:Em; [left; by apply Hn| |left; by apply Hn].
    right. destruct Hok as [Hp _]. by rewrite Hp, sapp_nil_r in Htext.
  - assert (tokens = []) as -> by (apply Hn; cbn in Hm; by rewrite Hm). right.
    cbn [app snd]. unfold token_text at 1. by rewrite concat_str_cons, sapp_nil_r.
  - destruct Hrep as [->|(Hem & t & -> & ->)]; [by left|right]. split; [|by exists t].
    unfold stream_ok in Hok. assert (st_mode st <> TextMode) as Hm by (intros Hm; rewrite Hm in Hok; naive_solver congruence).
    rewrite (Hn Hm). destruct Hmore as [->|(_ & _ & [=])]. done.
Qed.

Lemma stream_run body origin reflect (s : A) r s' :
  handle_chat_stream tool_call_de parse_error cfg enforced llm env_var agent optional_ai_provider system_prompt
    max_history family body origin reflect s = (r, s') ->
  exists ctx conv, request_origin ctx = origin /\ ctx_confirmed ctx = false /\ calls_once ctx s s' /\
    exists outs, prints outs s s' /\ (r = Ok tt -> stream_shape conv outs).
Proof.
  unfold handle_chat_stream.
  assert (forall status message, refuse_stream status reflect message s = (r, s') ->
    exists ctx conv, request_origin ctx = origin /\ ctx_confirmed ctx = false /\ calls_once ctx s s' /\
    exists outs, prints outs s s' /\ (r = Ok tt -> stream_shape conv outs)) as Hrefuse.
  { intros status message H. apply (refuse_run _ _ _ "") in H as [Hi Ho].
    exists (bridge_context origin), "". split_and!; [done|done|by apply idle_calls|done]. }
  destruct (read_chat_body parse_error body) as [|e| |parsed text]; [by apply Hrefuse..|]. clear Hrefuse.
  unfold bind, get_current. set (turn := incoming_turn_from_chat_json parsed (as_current s)).
  destruct (resolve_chat_conv_id parsed turn s) as [conv s1] eqn:E1. apply resolve_idle in E1 as [H1 P1].
  unfold ebind at 1. destruct (on_turn (store_user_message enforced conv turn) s1) as [u s2] eqn:E2.
  apply sends_part in E2 as [H2 P2]; [|intros t b t' Hq; by apply store_user_run in Hq as [? _]].
  pose proof (idle_trans _ _ _ H1 H2) as H12. pose proof (prints_app _ _ _ _ _ P1 P2) as P12. cbn in P12.
  intros H. exists (tool_execution_context turn origin false), conv. split; [done|]. split; [done|].
  assert (calls_once (tool_execution_context turn origin false) s2 s' /\
    exists outs, prints outs s2 s' /\ (r = Ok tt -> stream_shape conv outs)) as (Hc & outs & P & Hs).
  { destruct u as [u|e].
    - destruct (route_for_available_tools _ _ _) as [call|]; [by eapply stream_direct_run|].
      destruct (gate_error _ _ _) as [reasons|]; [|by eapply stream_model_run].
      apply (refuse_run _ _ _ conv) in H as [Hi Ho]. split; [by apply idle_calls|done].
    - injection H as <- <-. split; [by apply idle_calls, idle_refl|]. exists []. split; [by apply prints_nil|done]. }
  split; [by eapply idle_then|]. exists outs. split; [by apply (prints_app [] _ s s2)|done].
Qed.

Lemma ask_idle messages n hints (s : A) r s' : ask llm messages n hints s = (r, s') -> idle s s'.
Proof. intros H. by apply in_world_idle in H as [? _]. Qed.

Lemma bridge_model_run origin parsed incoming user_text n (s : A) r s' :
  bridge_model tool_call_de cfg llm system_prompt family origin parsed incoming user_text n s = (r, s') ->
  calls_once (bridge_context origin) s s'.
Proof.
  unfold bridge_model, bind. destruct (on_turn _ s) as [context s1] eqn:E1. apply in_world_idle in E1 as [H1 _].
  unfold ebind. destruct (ask _ _ _ _ s1) as [a s2] eqn:E2. apply ask_idle in E2.
  pose proof (idle_trans _ _ _ H1 E2) as H12. destruct a as [text|e]; [|intros [= _ <-]; by apply idle_calls].
  destruct (on_turn _ s2) as [tool s3] eqn:E3. apply answer_part in E3 as (_ & He3 & Hc3).
  assert (calls_once (bridge_context origin) s s3) as H3.
  { eapply idle_then; [done|]. split; [by exists (result_tool <$> tool)|done]. }
  destruct tool as [res|]; [|intros [= _ <-]; done]. destruct (should_summarize_tool_result _); [|intros [= _ <-]; done].
  unfold bridge_summary, bind. destruct (ask _ _ _ _ s3) as [b s4] eqn:E4. apply ask_idle in E4.
  intros [= _ <-]. by eapply then_idle.
Qed.

Lemma openai_run body origin (s : A) r s' :
  handle_openai_chat tool_call_de parse_error cfg llm system_prompt max_history family body origin s = (r, s') ->
  calls_once (bridge_context origin) s s'.
Proof.
  assert (forall r0 : Response, ret r0 s = (r, s') -> calls_once (bridge_context origin) s s') as Hret.
  { intros r0 [= _ <-]. by apply idle_calls, idle_refl. }
  unfold handle_openai_chat. destruct body as [body|]; [|apply Hret]. destruct (from_str body) as [parsed|]; [|apply Hret].
  destruct (is_empty _); [apply Hret|]. clear Hret.
  assert (forall text model reply (s1 : A), calls_once (bridge_context origin) s s1 ->
    bind (remember text) (fun _ => openai_answer model reply) s1 = (r, s') -> calls_once (bridge_context origin) s s') as Hend.
  { intros text model reply s1 H1. unfold bind, openai_answer. destruct (remember text s1) as [u s2] eqn:E2.
    apply in_world_idle in E2 as [H2 _]. unfold bind. destruct (on_turn _ s2) as [now s3] eqn:E3.
    apply in_world_idle in E3 as [H3 _]. intros [= _ <-]. eapply then_idle; [done|by eapply idle_trans]. }
  destruct (route_for_available_tools _ _ _) as [call|]; unfold bind at 1.
  - destruct (on_turn _ s) as [res s1] eqn:E1. apply execute_part in E1 as [H1 _]. by apply Hend.
  - destruct (bridge_model _ _ _ _ _ _ _ _ _ _ s) as [[text|e] s1] eqn:E1; apply bridge_model_run in E1; [by apply Hend|].
    by intros [= _ <-].
Qed.

End effects.

(** ** Properties *)

Inductive chat_request :=
| PostChat (body : option string) (privacy_proxy : option PrivacyProxyConfig)
| PostChatStream (body : option string) (reflect_origin : option string)
| PostOpenAiChat (body : option string).

Definition run_request {W} `{World W} `{ToolBodies W} `{HashOrder} `{Unicode} `{Serde} `{DefaultHasher} `{FloatText}
    `{Proxy W} `{TurnServices W} `{Streaming W} tool_call_de parse_error cfg enforced llm env_var agent optional
    system_prompt n family origin (req : chat_request) (s : ApiState W) : ApiState W :=
  match req with
  | PostChat body proxy =>
      (handle_chat tool_call_de parse_error cfg enforced llm env_var agent optional system_prompt n family
         body origin proxy s).2
  | PostChatStream body reflect =>
      (handle_chat_stream tool_call_de parse_error cfg enforced llm env_var agent optional system_prompt n family
         body origin reflect s).2
  | PostOpenAiChat body =>
      (handle_openai_chat tool_call_de parse_error cfg llm system_prompt n family body origin s).2
  end.

Lemma handle_chat_run {W} `{World W} `{ToolBodies W} `{HashOrder} `{Unicode} `{Serde} `{DefaultHasher} `{FloatText}
    `{Proxy W} `{TurnServices W} tool_call_de parse_error cfg enforced llm env_var agent optional system_prompt n
    family body origin proxy (s : ApiState W) r s' :
  handle_chat tool_call_de parse_error cfg enforced llm env_var agent optional system_prompt n family body origin
    proxy s = (r, s') ->
  exists ctx tool, request_origin ctx = origin /\ ctx_confirmed ctx = false /\
    one_call cfg ctx tool (ts_disp (as_turn s)) (ts_disp (as_turn s')) /\
    (ts_escalations (as_turn s') = ts_escalations (as_turn s) \/
     exists ev reason p, ts_escalations (as_turn s') = ts_escalations (as_turn s) ++ [ev] /\
       may_escalate proxy reason = Some p).
Proof.
  unfold handle_chat.
  assert (forall (r0 : Response) (s1 : ApiState W), idle s s1 -> ret r0 s1 = (r, s') ->
    exists ctx tool, request_origin ctx = origin /\ ctx_confirmed ctx = false /\
      one_call cfg ctx tool (ts_disp (as_turn s)) (ts_disp (as_turn s')) /\
      (ts_escalations (as_turn s') = ts_escalations (as_turn s) \/
       exists ev reason p, ts_escalations (as_turn s') = ts_escalations (as_turn s) ++ [ev] /\
         may_escalate proxy reason = Some p)) as Hret.
  { intros r0 s1 [Hd He] [= _ <-]. exists (bridge_context origin), None. split_and!; [done|done|done|by left]. }
  destruct (read_chat_body parse_error body) as [|e| |parsed text]; [by eapply Hret, idle_refl..|].
  unfold bind at 1, get_current. set (turn := incoming_turn_from_chat_json parsed (as_current s)).
  unfold bind at 1. destruct (resolve_chat_conv_id parsed turn s) as [conv s1] eqn:E1. apply resolve_idle in E1 as [[Hd1 He1] _].
  destruct (gate_error _ _ _) as [reasons|]; [by eapply Hret; split|]. clear Hret.
  unfold bind at 1. destruct (on_turn _ s1) as [res s2] eqn:E2. apply on_turn_run in E2 as [E2 _].
  pose proof (turn_is_one_call tool_call_de cfg enforced (http_provider llm env_var agent optional) conv turn
    system_prompt n family origin proxy (as_turn s1)) as Hturn. rewrite E2 in Hturn.
  destruct Hturn as (Ho & Hu & Hc & He). rewrite He1 in He. intros Hr.
  assert (s' = s2) as -> by (destruct res; unfold ret in Hr; congruence).
  exists (tool_execution_context turn origin false), (match res with Ok x => cr_tool x | Err _ => None end).
  split_and!; [done|done| |done]. apply (one_call_world _ _ _ _ (ts_disp (as_turn s1)) (ts_disp (as_turn s2))); [done| |done].
  by destruct res.
Qed.

(** The dispatcher's side of one call. *)
Lemma one_call_executed {W} `{World W} `{ToolBodies W} `{HashOrder} `{Unicode} `{Serde} `{DefaultHasher}
    `{FloatText} cfg ctx tool (d d' : Dispatcher W) :
  one_call cfg ctx tool d d' ->
  length (executed (env d')) <= S (length (executed (env d))) /\
  length (tool_audit_log d') <= S (length (tool_audit_log d)).
Proof.
  destruct tool as [t|].
  - intros (call & d1 & d2 & res & [w ->] & E & [w' ->] & _). cbn. split.
    + apply execute_provider in E as [E|(a & en & ac & v & w1 & w2 & ev & E & _)]; cbn in E; rewrite E; [lia|].
      rewrite length_app. cbn. lia.
    + apply execute_effect in E as (ev & dd & E & _). cbn in E. rewrite E, length_app. cbn. lia.
  - intros [w ->]. cbn. lia.
Qed.

(** C3: a request to speak is at most one gated call.  Whichever chat endpoint
    it comes to, whatever its body, the model and the peer do, the dispatcher,
    its world apart, is left as it was, or as one call of
    [execute_with_context] left it, under the origin derived for the request
    and without confirmation; so it hands the home at most one action and
    leaves at most one line in the tool audit.  Only a turn that is not
    streamed escalates, at most once, and only where the configuration allows
    it. *)
Theorem request_is_one_call {W} `{World W} `{ToolBodies W} `{HashOrder} `{Unicode} `{Serde} `{DefaultHasher}
    `{FloatText} `{Proxy W} `{TurnServices W} `{Streaming W} tool_call_de parse_error cfg enforced llm env_var agent
    optional system_prompt n family origin req (s : ApiState W) :
  let s' := run_request tool_call_de parse_error cfg enforced llm env_var agent optional system_prompt n family
              origin req s in
  exists ctx tool, request_origin ctx = origin /\ ctx_confirmed ctx = false /\
    one_call cfg ctx tool (ts_disp (as_turn s)) (ts_disp (as_turn s')) /\
    length (executed (env (ts_disp (as_turn s')))) <= S (length (executed (env (ts_disp (as_turn s))))) /\
    length (tool_audit_log (ts_disp (as_turn s'))) <= S (length (tool_audit_log (ts_disp (as_turn s)))) /\
    (ts_escalations (as_turn s') = ts_escalations (as_turn s) \/
     exists body proxy ev reason p, req = PostChat body proxy /\
       ts_escalations (as_turn s') = ts_escalations (as_turn s) ++ [ev] /\ may_escalate proxy reason = Some p).
Proof.
  destruct req as [body proxy|body reflect|body]; cbn [run_request].
  - destruct (handle_chat _ _ _ _ _ _ _ _ _ _ _ body origin proxy s) as [r s'] eqn:E.
    apply handle_chat_run in E as (ctx & tool & Ho & Hu & Hc & He). exists ctx, tool. cbn [snd].
    pose proof (one_call_executed _ _ _ _ _ Hc) as []. split_and!; [done..|].
    destruct He as [He|(ev & reason & p & He & Hp)]; [by left|right]. by exists body, proxy, ev, reason, p.
  - destruct (handle_chat_stream _ _ _ _ _ _ _ _ _ _ _ body origin reflect s) as [r s'] eqn:E.
    apply stream_run in E as (ctx & conv & Ho & Hu & [[tool Hc] He] & _). exists ctx, tool. cbn [snd].
    pose proof (one_call_executed _ _ _ _ _ Hc) as []. split_and!; [done..|by left].
  - destruct (handle_openai_chat _ _ _ _ _ _ _ body origin s) as [r s'] eqn:E.
    apply openai_run in E as [[tool Hc] He]. exists (bridge_context origin), tool. cbn [snd].
    pose proof (one_call_executed _ _ _ _ _ Hc) as []. split_and!; [done..|by left].
Qed.

(** C37: a stream that ends well tells one story.  Every complete stream is a
    refusal and its reason, or it opens with the conversation, shows pieces of
    text, and closes with the reply.  The pieces shown are none, or together
    exactly what the model streamed; a reply that replaces the text is sent
    only when no text was shown, and it is the reply that closes the stream,
    which went through the redaction or is the fixed sentence. *)
Theorem stream_tells_one_story {W} `{World W} `{ToolBodies W} `{HashOrder} `{Unicode} `{Serde} `{DefaultHasher}
    `{FloatText} `{Proxy W} `{TurnServices W} `{Streaming W} tool_call_de parse_error cfg enforced llm env_var agent
    optional system_prompt n family body origin reflect (s : ApiState W) :
  let '(r, s') := handle_chat_stream tool_call_de parse_error cfg enforced llm env_var agent optional system_prompt n
                    family body origin reflect s in
  exists conv outs, sent (as_writer s') = sent (as_writer s) ++ outs /\ (r = Ok tt -> stream_shape conv outs).
Proof.
  destruct (handle_chat_stream _ _ _ _ _ _ _ _ _ _ _ body origin reflect s) as [r s'] eqn:E.
  apply stream_run in E as (ctx & conv & _ & _ & _ & outs & P & Hs). by exists conv, outs.
Qed.

(** ** A stream, run *)

Section concrete.
#[local] Existing Instance key_order.
#[local] Existing Instance ascii_tables.
#[local] Instance null_hash : DefaultHasher := {| default_hash _ := 0%N |}.
#[local] Instance plain_floats : FloatText := {| f64_display := fmt_fixed 1; f64_debug := fmt_fixed 1 |}.
#[local] Instance silent_bodies : ToolBodies scripted := {|
  elapsed_ms w := (0%N, w);
  other_tool _ _ _ w := (Err "not scripted", w);
|}.
#[local] Instance no_proxy : Proxy scripted := {|
  recent_memories _ w := (Ok [], w);
  http_post _ _ _ w := (Err "unreachable", w);
  openai_chat _ _ _ w := (Err "unreachable", w);
|}.
#[local] Instance no_memory_api : TurnServices scripted := {|
  memory_context _ _ w := ("", w);
  extract_and_store _ w := (tt, w);
|}.
(** One body that parses. *)
#[local] Instance hello_serde : Serde := {|
  from_str s := if String.eqb s "hello" then Some (Object [("message", Str "hello")]) else None;
  to_str _ := "{}" |}.
(** A model that says a key, in the pieces it is made of. *)
Definition key_pieces : list string := ["the key is"; " sk-aaaaaaaa"; "aaaaaaaaaaaa"].
#[local] Instance key_teller : Streaming scripted := {|
  chat_stream _ _ _ w := ((key_pieces, Ok (token_text key_pieces)), w);
  stream_dropped _ _ _ _ w := w;
|}.

Definition api_at_home : ApiState scripted := {|
  as_turn := at_home; as_registry := with_defaults; as_current := "c1";
  as_writer := {| sent := []; write_faults := [] |} |}.
Definition no_provider : OptionalAiProviderConfig := {|
  ap_enabled := false; ap_provider := ProviderKind.OpenAiCompatible; ap_auth_mode := AuthMode.ApiKey;
  ap_base_url := ""; ap_model := ""; ap_api_key_env := ""; ap_oauth_token_env := "";
  ap_context_window_tokens := 4096; allow_remote_base_url := false |}.

(** The pieces of text a peer was shown, and the reply that closes the stream. *)
Definition shown_text (outs : list StreamOut) : string :=
  token_text (filter_map (fun o => match o with
    | OutEvent e => if bool_decide (get_str e "type" = Some "token") then get_str e "content" else None
    | _ => None end) outs).
Definition closing_reply (outs : list StreamOut) : option string :=
  match last outs with Some (OutEvent e) => get_str e "response" | _ => None end.

Definition hello_stream : result unit string * ApiState scripted :=
  handle_chat_stream (fun _ => None) (fun _ => "no JSON") turn_cfg false no_model (fun _ => None)
    {| agent_context_window_tokens := 4096 |} no_provider "You are Genie." 10
    ModelFamily.Qwen (Some "hello") RequestOrigin.Api None api_at_home.

(** Redaction does not reach what is streamed.  There is a model whose
    answer carries a key: the reply that closes the stream and the one that is
    stored are redacted, and the peer was shown the key itself. *)
Lemma stream_leaks_secret :
  let '(r, s) := hello_stream in
  r = Ok tt /\ shown_text (sent (as_writer s)) = "the key is sk-aaaaaaaaaaaaaaaaaaaa" /\
  closing_reply (sent (as_writer s)) = Some "the key is [REDACTED:api_key]" /\
  (bm_content <$> (transcript (tables (ts_convs (as_turn s)))).*2) = ["hello"; "the key is [REDACTED:api_key]"].
Proof. vm_compute. done. Qed.

End concrete.
