(* ===== verification/LlmApi.v ===== *)
(** * The optional model provider, and the choice of a client

    [core/llm/openai_compatible.rs]: the provider reached over HTTPS, whose
    credential is read for every request and must not show in an error; and the
    clients of [llm/mod.rs], [llama_cpp.rs], [genie_ai_runtime.rs] and
    [mock.rs], of which the configuration chooses one. *)

From Stdlib Require Import Ascii String.
From S2P Require Import Prelude RustStr RustNum Json Redaction HttpFraming Conversations LlmProvider LlmRequest LlmClient ChatApi.
Local Open Scope string_scope.
Local Open Scope list_scope.
Local Open Scope rust_scope.

(** ** The provider *)

Module CredentialSource.
Inductive t := Literal (token : string) | EnvVar (name : string).
End CredentialSource.

(** [reqwest::Url]: its text, scheme and host. *)
Record Url := { url_str : string; url_scheme : string; url_host : option string }.

(** What [reqwest] gives back for a request: the status, the whole body as
    text, and the body in the chunks it arrives in. *)
Record Reply := { rp_status : N; rp_text : result string string; rp_chunks : list piece }.
Record SendError := { se_text : string; se_url : option string }.

Class Reqwest (W : Type) := {
  url_parse : string -> result Url string;
  send_get : string -> M W (result N string);
  send_post : string -> list (string * string) -> string -> M W (result Reply SendError);
}.

Record OpenAiCompatibleBackend := {
  ob_base_url : Url;
  ob_model : string;
  ob_credential : CredentialSource.t;
  ob_timeouts : LlmTimeouts;
}.

Definition MAX_ERROR_BODY_BYTES : nat := 64 * 1024.

Definition is_cr (c : string) : bool := String.eqb c (char_of (ascii_of_nat 13)).

Section provider.
Context {W : Type} `{RQ : Reqwest W} `{UT : Utf8} `{CD : ChatDecoder} `{SD : Serde}.
Context (env_var : Environment).

Definition parse_openai_compatible_base_url (url : string) : result Url string :=
  let trimmed := trim url in
  if is_empty trimmed then Err "openai-compatible base_url must not be empty"
  else
    match url_parse trimmed with
    | Err _ => Err ("invalid openai-compatible base_url: " +:+ trimmed)
    | Ok parsed =>
        if negb (is_one_of (url_scheme parsed) ["http"; "https"]) then
          Err ("openai-compatible base_url must use http or https (got " +:+ url_scheme parsed +:+ ")")
        else match url_host parsed with
             | None => Err "openai-compatible base_url must include a host"
             | Some _ => Ok parsed
             end
    end.

Definition join_chat_completions (base : Url) : result Url string :=
  let base_str := trim_end_matches (String.eqb "/") (url_str base) in
  if is_empty base_str then Err "openai-compatible base_url became empty"
  else match url_parse (base_str +:+ "/chat/completions") with
       | Err _ => Err "failed to join openai-compatible chat/completions URL"
       | Ok u => Ok u
       end.

Definition new_backend (url model : string) (credential : CredentialSource.t) (timeouts : LlmTimeouts)
    : result OpenAiCompatibleBackend string :=
  let? base_url := parse_openai_compatible_base_url url in
  Ok {| ob_base_url := base_url; ob_model := model; ob_credential := credential; ob_timeouts := timeouts |}.
Definition try_new (url model credential_env : string) (timeouts : LlmTimeouts) : result OpenAiCompatibleBackend string :=
  new_backend url model (CredentialSource.EnvVar (trim credential_env)) timeouts.

Definition misconfigured (what : string) : string := "openai-compatible provider misconfigured: " +:+ what.

Definition credential_text (c : CredentialSource.t) : result string string :=
  match c with
  | CredentialSource.Literal token => Ok token
  | CredentialSource.EnvVar name =>
      if is_empty name then Err (misconfigured "credential environment variable name is empty")
      else match env_var name with
           | Some value => Ok value
           | None => Err (misconfigured ("environment variable " +:+ name +:+ " is not set"))
           end
  end.

Definition resolve_bearer_token (b : OpenAiCompatibleBackend) : result string string :=
  let? token := credential_text (ob_credential b) in
  let token := trim token in
  if is_empty token then Err (misconfigured "credential environment variable is empty")
  else if sexists line_break token then Err (misconfigured "credential contains invalid header characters")
  else Ok token.

Definition sanitize_error_detail (body credential : string) : string :=
  let detail := backend_error_message body in
  let detail := if is_empty credential then detail else replace detail credential "[REDACTED]" in
  truncate_body (sanitize_output detail).

Definition redact_reqwest_error (err : SendError) : string :=
  let msg := se_text err in
  sanitize_output
    (match se_url err with
     | None => msg
     | Some url =>
         let safe := rsplit_at url in
         if contains msg safe then msg else msg +:+ " (" +:+ safe +:+ ")"
     end).

Definition post_chat (b : OpenAiCompatibleBackend) (stream : bool) (messages : list Message) (max_tokens : option N)
    (response_format : option ResponseFormat) : M W (result Reply string) :=
  let!? token := ret (resolve_bearer_token b) in
  let!? url := ret (join_chat_completions (ob_base_url b)) in
  let body := serialize_generic_chat_request (ob_model b) messages max_tokens stream response_format in
  let headers := [("Authorization", "Bearer " +:+ token); ("Content-Type", "application/json")] ++
                 (if stream then [("Accept", "text/event-stream")] else []) in
  let! r := send_post (url_str url) headers body in
  ret (match r with
       | Ok reply => Ok reply
       | Err e => Err ("openai-compatible request failed: " +:+ redact_reqwest_error e)
       end).

(** [StatusCode::is_success]. *)
Definition is_success (status : N) : bool := (200 <=? status)%N && (status <? 300)%N.

Definition status_error (status : N) (body token : string) : string :=
  "openai-compatible " +:+ show_N status +:+ ": " +:+ sanitize_error_detail body token.

Definition chat_once (b : OpenAiCompatibleBackend) (messages : list Message) (max_tokens : option N)
    (response_format : option ResponseFormat) : M W (result string string) :=
  let!? token := ret (resolve_bearer_token b) in
  let!? response := post_chat b false messages max_tokens response_format in
  ret (match rp_text response with
       | Err e => Err ("openai-compatible response read failed: " +:+ e)
       | Ok body =>
           if (DEFAULT_MAX_RESPONSE_BYTES <? N.of_nat (String.length body))%N then
             Err ("openai-compatible response exceeded " +:+ show_N DEFAULT_MAX_RESPONSE_BYTES +:+ " bytes")
           else if negb (is_success (rp_status response)) then Err (status_error (rp_status response) body token)
           else match parse_chat body with
                | Err e => Err ("failed to parse openai-compatible response: " +:+ e +:+ "; body: " +:+ truncate_body body)
                | Ok r => Ok (first_content r)
                end
       end).

(** ** The stream of the provider *)

Record ChunkState := { cs_line : string; cs_tokens : list string; cs_full : string }.
Definition chunk_start : ChunkState := {| cs_line := ""; cs_tokens := []; cs_full := "" |}.

Inductive CharStep := Next (st : ChunkState) | Return (st : ChunkState) | Bail (st : ChunkState) (e : string).

Definition set_line (line : string) (st : ChunkState) : ChunkState :=
  {| cs_line := line; cs_tokens := cs_tokens st; cs_full := cs_full st |}.
Definition push_token (token : string) (st : ChunkState) : ChunkState :=
  {| cs_line := cs_line st; cs_tokens := cs_tokens st ++ [token]; cs_full := cs_full st +:+ token |}.

Definition line_exceeded : string :=
  "openai-compatible streaming line exceeded " +:+ show_nat MAX_SSE_LINE_BYTES +:+ " bytes".

Definition chunk_choice (c : Choice) (st : ChunkState) : CharStep :=
  let st := match choice_delta c ≫= delta_content with Some token => push_token token st | None => st end in
  match finish_reason c with Some _ => Return st | None => Next st end.

Definition chunk_data (line : string) (st : ChunkState) : CharStep :=
  match strip_prefix line "data: " with
  | None => Next st
  | Some data =>
      if String.eqb data "[DONE]" then Return st
      else match parse_chat data with
           | Err _ => Next st
           | Ok chunk => match head (choices chunk) with Some c => chunk_choice c st | None => Next st end
           end
  end.

Definition char_step (ch : string) (st : ChunkState) : CharStep :=
  if String.eqb ch newline then
    let line := trim_end_matches is_cr (cs_line st) in
    let st := set_line "" st in
    if line_too_long line then Bail st line_exceeded else chunk_data line st
  else
    let st := set_line (cs_line st +:+ ch) st in
    if line_too_long (cs_line st) then Bail st line_exceeded else Next st.

Fixpoint char_loop (cs : list string) (st : ChunkState) : CharStep :=
  match cs with
  | [] => Next st
  | ch :: cs => match char_step ch st with Next st => char_loop cs st | other => other end
  end.

Fixpoint read_chunks (read_secs total_bytes : N) (st : ChunkState) (chunks : list piece)
    : list string * result string string :=
  match chunks with
  | [] => (cs_tokens st, Ok (cs_full st))
  | Stall :: _ => (cs_tokens st, Err ("openai-compatible stream read timed out after " +:+ show_N read_secs +:+ "s"))
  | Fault e :: _ => (cs_tokens st, Err ("openai-compatible stream read failed: " +:+ e))
  | Data chunk :: chunks =>
      let total_bytes := usize_add total_bytes (N.of_nat (length chunk)) in
      if (DEFAULT_MAX_RESPONSE_BYTES <? total_bytes)%N then
        (cs_tokens st, Err ("openai-compatible streaming response exceeded " +:+ show_N DEFAULT_MAX_RESPONSE_BYTES +:+ " bytes"))
      else match char_loop (chars (from_utf8_lossy chunk)) st with
           | Next st => read_chunks read_secs total_bytes st chunks
           | Return st => (cs_tokens st, Ok (cs_full st))
           | Bail st e => (cs_tokens st, Err e)
           end
  end.

Definition chat_stream_once (b : OpenAiCompatibleBackend) (messages : list Message) (max_tokens : option N)
    : M W (list string * result string string) :=
  let! token := ret (resolve_bearer_token b) in
  match token with
  | Err e => ret ([], Err e)
  | Ok token =>
      let! response := post_chat b true messages max_tokens None in
      match response with
      | Err e => ret ([], Err e)
      | Ok response =>
          if negb (is_success (rp_status response)) then
            let body := match rp_text response with Ok body => body | Err _ => "" end in
            let body := if Nat.ltb MAX_ERROR_BODY_BYTES (String.length body) then truncate_body body else body in
            ret ([], Err (status_error (rp_status response) body token))
          else ret (read_chunks (read_timeout (ob_timeouts b)) 0 chunk_start (rp_chunks response))
      end
  end.

Definition provider_health (b : OpenAiCompatibleBackend) : M W bool :=
  let! r := send_get (url_str (ob_base_url b)) in
  ret (match r with Ok status => is_success status || (status =? 404)%N | Err _ => false end).

End provider.

(** ** One interface *)

(** [LlmBackendClient]; a method without hints is the one with none. *)
Record LlmBackendClient (W : Type) := {
  bk_name : string;
  bk_health : M W bool;
  bk_chat : list Message -> option N -> option ResponseFormat -> option LlmRequestHints -> M W (result string string);
  bk_stream : list Message -> option N -> option LlmRequestHints -> M W (list string * result string string);
}.
Arguments bk_name {W}. Arguments bk_health {W}. Arguments bk_chat {W}. Arguments bk_stream {W}.

Module LlmBackendKind.
Inductive t := LlamaCpp | GenieAiRuntime.
End LlmBackendKind.
Record ServiceEndpoint := { se_address : string; se_backend : LlmBackendKind.t }.

(** Of [Config], what chooses the client. *)
Record LlmConfig := {
  lc_service : ServiceEndpoint;
  lc_timeouts : N * N * N;
  lc_optional : OptionalAiProviderConfig;
}.

Section clients.
Context {W : Type} `{SK : Sockets W} `{RQ : Reqwest W} `{UT : Utf8} `{CD : ChatDecoder} `{SD : Serde} `{U : Unicode}.
Context (env_var : Environment).

Definition of_client (c : OpenAiCompatClient) : LlmBackendClient W := {|
  bk_name := backend_name c;
  bk_health := health c;
  bk_chat := chat_with_format_and_hints c;
  bk_stream := chat_stream_with_hints c |}.

(** Hints are of no use to a provider. *)
Definition of_provider (b : OpenAiCompatibleBackend) : LlmBackendClient W := {|
  bk_name := "openai-compatible";
  bk_health := provider_health b;
  bk_chat := fun messages max_tokens format _ => chat_once env_var b messages max_tokens format;
  bk_stream := fun messages max_tokens _ => chat_stream_once env_var b messages max_tokens |}.

Definition llama_cpp (host : string) (port : N) : LlmBackendClient W := of_client (new_client "llama.cpp" host port).
Definition from_llama_cpp_url_with_timeouts (url : string) (t : LlmTimeouts) : LlmBackendClient W :=
  of_client (from_url_with_profile_and_timeouts "llama.cpp" url generic t).
Definition genie_ai_runtime (host : string) (port : N) : LlmBackendClient W :=
  of_client (new_with_profile "genie-ai-runtime" host port RequestProfile.GenieAiRuntime).
Definition from_genie_ai_runtime_url_with_timeouts (url : string) (t : LlmTimeouts) : LlmBackendClient W :=
  of_client (from_url_with_profile_and_timeouts "genie-ai-runtime" url RequestProfile.GenieAiRuntime t).

Definition from_service_config_with_timeouts (service : ServiceEndpoint) (t : LlmTimeouts) : LlmBackendClient W :=
  match se_backend service with
  | LlmBackendKind.LlamaCpp => from_llama_cpp_url_with_timeouts (se_address service) t
  | LlmBackendKind.GenieAiRuntime => from_genie_ai_runtime_url_with_timeouts (se_address service) t
  end.

(** [None] where the code panics: kinds the check of the configuration refuses. *)
Definition from_config (config : LlmConfig) : option (result (LlmBackendClient W) string) :=
  let '(connect, read, request) := lc_timeouts config in
  let timeouts := from_secs connect read request in
  let provider := lc_optional config in
  if negb (ap_enabled provider) then Some (Ok (from_service_config_with_timeouts (lc_service config) timeouts))
  else
    match ap_provider provider with
    | ProviderKind.OpenAiCompatible | ProviderKind.OpenAi =>
        Some (let? b := try_new (trim (ap_base_url provider)) (trim (ap_model provider)) (config_credential_env provider) timeouts in
              Ok (of_provider b))
    | _ => None
    end.

(** What the turn uses of a client. *)
Definition completion_of (b : LlmBackendClient W) : Completion W :=
  fun messages max_tokens hints => bk_chat b messages max_tokens None hints.
Definition streaming_of (b : LlmBackendClient W) : Streaming W := {|
  ChatApi.chat_stream := fun messages max_tokens hints => bk_stream b messages max_tokens (Some hints);
  stream_dropped := fun messages max_tokens hints _ w => (bk_stream b messages max_tokens (Some hints) w).2 |}.

End clients.

(** ** Scripted replies *)

Record MockLlmBackend := { mk_replies : list string; mk_fallback : option string }.

Definition next_reply : M MockLlmBackend (result string string) := fun m =>
  match mk_replies m with
  | reply :: replies => (Ok reply, {| mk_replies := replies; mk_fallback := mk_fallback m |})
  | [] => (ok_or (mk_fallback m) "MockLlmBackend reply queue exhausted", m)
  end.

(** [split_inclusive(' ')]. *)
Fixpoint split_inclusive (cur : string) (cs : list string) : list string :=
  match cs with
  | [] => if is_empty cur then [] else [cur]
  | c :: cs => if String.eqb c " " then (cur +:+ c) :: split_inclusive "" cs else split_inclusive (cur +:+ c) cs
  end.

Definition mock : LlmBackendClient MockLlmBackend := {|
  bk_name := "mock";
  bk_health := ret true;
  bk_chat := fun _ _ _ _ => next_reply;
  bk_stream := fun _ _ _ =>
    let! r := next_reply in
    ret (match r with Ok reply => (split_inclusive "" (chars reply), Ok reply) | Err e => ([], Err e) end) |}.

(** ** The credential does not show *)

(** A text cut at a byte the pattern does not have holds it on one side. *)
Lemma contains_cut l d t c : absent d c = true -> c <> "" ->
  contains (l +:+ String d t) c = contains l c || contains t c.
Proof.
  intros Hd Hc. induction l as [|a l IH].
  - change ("" +:+ String d t) with (String d t). cbn [contains].
    pose proof (starts_with_run "" d t c Hd) as Hs. change ("" +:+ String d t) with (String d t) in Hs. rewrite Hs.
    by destruct c.
  - rewrite sapp_cons. cbn [contains]. pose proof (starts_with_run (String a l) d t c Hd) as Hs. rewrite sapp_cons in Hs.
    by rewrite Hs, IH, orb_assoc.
Qed.

(** A marker in brackets that does not hold the pattern. *)
Definition marker (c r : string) : Prop := exists inner, r = "[" +:+ inner +:+ "]" /\ contains inner c = false.
Definition no_brackets (c : string) : Prop := c <> "" /\ absent "[" c = true /\ absent "]" c = true.

Lemma contains_around c l r t : no_brackets c -> marker c r ->
  contains (l +:+ r +:+ t) c = contains l c || contains t c.
Proof.
  intros (Hc & Ho & Hk) (inner & -> & Hi).
  change (("[" +:+ inner +:+ "]") +:+ t) with (String "[" ((inner +:+ "]") +:+ t)).
  rewrite contains_cut by done. rewrite <- sapp_assoc. change ("]" +:+ t) with (String "]" t).
  by rewrite contains_cut, Hi by done.
Qed.

Lemma not_contains_infix l m r c : contains (l +:+ (m +:+ r)) c = false -> contains m c = false.
Proof. intros H. apply not_true_is_false. intros Hm. by rewrite contains_app_r in H by by apply contains_app_l. Qed.

Lemma replace_fuel_keeps_out fuel s p r c : no_brackets c -> marker c r -> p <> "" ->
  contains s c = false -> contains (replace_fuel fuel s p r) c = false.
Proof.
  intros Hc Hr Hp. revert s. induction fuel as [|fuel IH]; intros s Hs; [done|]. cbn [replace_fuel].
  destruct (split_once s p) as [[l t]|] eqn:E; [|done]. apply split_once_Some in E as ->.
  rewrite contains_around by done. apply orb_false_iff. split.
  - apply (not_contains_infix "" l (p +:+ t)). exact Hs.
  - apply IH. apply (not_contains_infix (l +:+ p) t ""). by rewrite sapp_nil_r, <- sapp_assoc.
Qed.

Lemma replace_cuts_out fuel s c r : no_brackets c -> marker c r -> String.length s < fuel ->
  contains (replace_fuel fuel s c r) c = false.
Proof.
  intros Hc Hr. revert s. induction fuel as [|fuel IH]; intros s Hl; [lia|]. cbn [replace_fuel].
  destruct (split_once s c) as [[l t]|] eqn:E; [|by apply split_once_None].
  pose proof (split_once_before _ _ _ _ (proj1 Hc) E) as Hb. apply split_once_Some in E as ->.
  rewrite contains_around, Hb by done. apply IH. rewrite !length_sapp in Hl.
  assert (String.length c <> 0) by (destruct c; [by destruct Hc|done]). lia.
Qed.

Lemma contains_long s c : String.length s < String.length c -> contains s c = false.
Proof.
  intros H. apply not_true_is_false. intros (l & r & ->)%contains_spec. rewrite !length_sapp in H. lia.
Qed.

(** Longer than what is written between brackets in place of a secret. *)
Definition long_credential (c : string) : Prop := no_brackets c /\ 22 <= String.length c.

Lemma redacted_is_marker c p : long_credential c -> p ∈ SECRET_PATTERNS -> marker c (redacted p).
Proof.
  intros [_ Hl] Hp. exists ("REDACTED:" +:+ sp_name p). split; [done|]. apply contains_long.
  cut (forallb (fun p => Nat.leb (String.length ("REDACTED:" +:+ sp_name p)) 21) SECRET_PATTERNS = true).
  { rewrite forallb_forall. intros H. specialize (H p). apply list_elem_of_In in Hp. apply Nat.leb_le in H; [lia|done]. }
  by vm_compute.
Qed.

Lemma leading_token_start p after : exists t r, sp_prefix p +:+ after = t +:+ r /\ t = leading_token (sp_prefix p +:+ after).
Proof.
  exists (leading_token (sp_prefix p +:+ after)), (concat_str (drop_while (fun c => negb (ends_token c)) (chars (sp_prefix p +:+ after)))).
  split; [|done]. unfold leading_token. by rewrite <- concat_str_app, take_drop_while, concat_chars.
Qed.

Lemma matches_nonempty fuel text p t : 0 < sp_min_len p -> t ∈ secret_matches_from fuel text p -> t <> "".
Proof.
  intros Hp. revert text. induction fuel as [|fuel IH]; intros text; cbn [secret_matches_from]; [by intros ?%not_elem_of_nil|].
  destruct (split_once text (sp_prefix p)) as [[b a]|]; [|by intros ?%not_elem_of_nil].
  destruct (Nat.leb_spec (sp_min_len p) (String.length (leading_token (sp_prefix p +:+ a)))); [|apply IH].
  intros [->|Hin]%elem_of_cons; [|by eapply IH]. intros E. rewrite E in *. cbn in *. lia.
Qed.

Lemma patterns_have_length p : p ∈ SECRET_PATTERNS -> 0 < sp_min_len p.
Proof.
  intros Hp. cut (forallb (fun p => Nat.ltb 0 (sp_min_len p)) SECRET_PATTERNS = true); [|by vm_compute].
  rewrite forallb_forall. intros H. apply Nat.ltb_lt, H. by apply list_elem_of_In.
Qed.

Lemma sanitize_keeps_out c s : long_credential c -> contains s c = false -> contains (sanitize_output s) c = false.
Proof.
  intros Hc. unfold sanitize_output. assert (SECRET_PATTERNS ⊆ SECRET_PATTERNS) as Hall by done. revert Hall.
  generalize SECRET_PATTERNS at 1 3 as ps. intros ps Hps. revert s. induction ps as [|p ps IH]; intros s Hs; [done|].
  apply list_subseteq_cons_iff in Hps as [Hp Hps]. cbn [foldl]. apply (IH Hps). unfold redact_pattern, find_secret_matches.
  pose proof (fun t => matches_nonempty (S (String.length s)) s p t (patterns_have_length p Hp)) as Hne.
  revert Hne. generalize (secret_matches_from (S (String.length s)) s p) as ms. intros ms Hne. revert s Hs.
  induction ms as [|m ms IHm]; intros s Hs; [done|]. cbn [foldl]. apply IHm.
  - intros t Ht. apply Hne. by right.
  - apply replace_fuel_keeps_out; [by destruct Hc|by apply redacted_is_marker|apply Hne; by left|done].
Qed.

Lemma length_trim_infix s : exists l r, s = l +:+ (trim s +:+ r).
Proof.
  unfold trim. destruct (drop_while_suffix is_whitespace (chars s)) as [k Hk].
  set (t := drop_while is_whitespace (chars s)) in *. destruct (drop_while_suffix is_whitespace (reverse t)) as [k' Hk'].
  exists (concat_str k), (concat_str (reverse k')).
  by rewrite <- concat_str_app, <- reverse_app, <- Hk', reverse_involutive, <- concat_str_app, <- Hk, concat_chars.
Qed.

Lemma trim_end_prefix s : exists r, s = trim_end s +:+ r.
Proof.
  unfold trim_end, trim_end_matches. destruct (drop_while_suffix is_whitespace (reverse (chars s))) as [k Hk].
  exists (concat_str (reverse k)). by rewrite <- concat_str_app, <- reverse_app, <- Hk, reverse_involutive, concat_chars.
Qed.

Lemma substring_start n s : exists r, s = String.substring 0 n s +:+ r.
Proof.
  revert n. induction s as [|a s IH]; intros [|n]; cbn; try by exists "".
  - by exists (String a s).
  - destruct (IH n) as [r Hr]. exists r. rewrite sapp_cons. by f_equal.
Qed.

(** The credential is not a text that ends in a dot. *)
Lemma contains_dots s c : ends_with c "." = false -> contains s c = false -> contains (s +:+ "...") c = false.
Proof.
  intros He Hs.
  assert (forall t, contains t c = false -> contains (t +:+ ".") c = false) as snoc.
  { intros t Ht. apply not_true_is_false. intros (l & r & E)%contains_spec.
    destruct (decide (r = "")) as [->|Hr].
    - rewrite sapp_nil_r in E. assert (ends_with (l +:+ c) "." = true) as H by (apply ends_with_spec; by exists t).
      destruct (decide (c = "")) as [->|Hc]; [by rewrite contains_nil in Ht|].
      apply ends_with_spec in H as [q H]. enough (ends_with c "." = true) by congruence.
      clear -H Hc. revert q H. induction l as [|a l IH]; intros q H; [apply ends_with_spec; by exists q|].
      destruct q as [|b q]; rewrite sapp_cons in H; [destruct l, c; done|]. rewrite sapp_cons in H. apply (IH q). congruence.
    - enough (contains t c = true) by congruence. apply contains_spec. exists l.
      assert (1 <= String.length r) as Hr1 by (destruct r; [done|cbn; lia]).
      clear -E Hr1. revert t E. induction l as [|a l IH]; intros t E.
      + change ("" +:+ (c +:+ r)) with (c +:+ r) in E. revert t E. induction c as [|b c IHc]; intros t E.
        * by exists t.
        * destruct t as [|b' t]; rewrite !sapp_cons in E; [apply (f_equal String.length) in E; rewrite length_sapp in E; cbn [String.length] in E; rewrite ?length_sapp in E; lia|].
          injection E; intros E' ->. destruct (IHc t E') as [r' Hr']. exists r'. by rewrite Hr'.
      + destruct t as [|b' t]; rewrite !sapp_cons in E; [apply (f_equal String.length) in E; rewrite length_sapp in E; cbn [String.length] in E; rewrite ?length_sapp in E; lia|].
        injection E; intros E' ->. destruct (IH t E') as [r' Hr']. exists r'. by rewrite Hr'. }
  change "..." with ("." +:+ ("." +:+ ".")). rewrite !sapp_assoc. by apply snoc, snoc, snoc.
Qed.

Lemma truncate_keeps_out s c : ends_with c "." = false -> contains s c = false -> contains (truncate_body s) c = false.
Proof.
  intros He Hs. destruct (length_trim_infix s) as (l & r & E).
  assert (contains (trim s) c = false) as Ht by (rewrite E in Hs; by eapply not_contains_infix).
  unfold truncate_body, truncate_utf8. destruct (Nat.leb _ _); [done|]. apply contains_dots; [done|].
  destruct (trim_end_prefix (String.substring 0 (boundary_at_most (trim s) MAX_LEN) (trim s))) as [r' E'].
  destruct (substring_start (boundary_at_most (trim s) MAX_LEN) (trim s)) as [r'' E''].
  apply (not_contains_infix "" _ (r' +:+ r'')). change ("" +:+ ?x) with x. by rewrite sapp_assoc, <- E', <- E''.
Qed.

(** C17: the error of a request the provider refuses never shows the
    credential the request was made with, whatever the provider answers, if it
    has 22 bytes at least, no brackets and no dot at its end; the error is at
    most 243 bytes long. *)
Theorem refused_request_hides_the_credential `{Serde} body credential :
  long_credential credential -> ends_with credential "." = false ->
  contains (sanitize_error_detail body credential) credential = false /\
  String.length (sanitize_error_detail body credential) <= MAX_LEN + 3.
Proof.
  intros Hc He. split; [|apply error_body_is_short]. unfold sanitize_error_detail.
  apply truncate_keeps_out; [done|]. apply sanitize_keeps_out; [done|].
  destruct (is_empty credential) eqn:E; [by destruct credential, Hc as [[]]|].
  unfold replace. apply replace_cuts_out; [by destruct Hc| |lia]. exists "REDACTED". split; [done|].
  destruct Hc as [_ Hl]. apply contains_long. cbn. lia.
Qed.

(** ** The stream of the provider *)

(** What is answered is what was handed on. *)
Definition chunks_kept (st : ChunkState) : Prop := cs_full st = concat_str (cs_tokens st).

Section chunks.
Context `{UT : Utf8} `{CD : ChatDecoder}.

Lemma char_step_kept ch st : chunks_kept st ->
  match char_step ch st with Next st' | Return st' => chunks_kept st' | Bail _ _ => True end.
Proof.
  intros Hk. unfold char_step. destruct (String.eqb ch newline); [|by destruct (line_too_long _)].
  destruct (line_too_long _); [done|]. unfold chunk_data. destruct (strip_prefix _ "data: ") as [data|]; [|done].
  destruct (String.eqb data "[DONE]"); [done|]. destruct (parse_chat data) as [chunk|]; [|done].
  destruct (head (choices chunk)) as [c|]; [|done]. unfold chunk_choice.
  assert (chunks_kept (match choice_delta c ≫= delta_content with
                       | Some token => push_token token (set_line "" st) | None => set_line "" st end)) as Hk'.
  { destruct (choice_delta c ≫= delta_content); [|done]. unfold chunks_kept. cbn. by rewrite concat_str_snoc, Hk. }
  by destruct (finish_reason c).
Qed.

Lemma char_loop_kept cs st : chunks_kept st ->
  match char_loop cs st with Next st' | Return st' => chunks_kept st' | Bail _ _ => True end.
Proof.
  revert st. induction cs as [|ch cs IH]; intros st Hk; [done|]. cbn [char_loop].
  pose proof (char_step_kept ch st Hk) as Hs. destruct (char_step ch st); [by apply IH|done|done].
Qed.

Lemma provider_reply_is_its_tokens read_secs total st chunks tokens full : chunks_kept st ->
  read_chunks read_secs total st chunks = (tokens, Ok full) -> full = concat_str tokens.
Proof.
  revert total st. induction chunks as [|[chunk|e|] chunks IH]; intros total st Hk; cbn [read_chunks].
  - intros [= <- <-]. exact Hk.
  - destruct (_ <? _)%N; [done|]. pose proof (char_loop_kept (chars (from_utf8_lossy chunk)) st Hk) as Hl.
    destruct (char_loop _ st) as [st'|st'|st' e]; [by apply IH|intros [= <- <-]; exact Hl|done].
  - done.
  - done.
Qed.

End chunks.

(** The words of a scripted reply are the reply. *)
Lemma split_inclusive_all cur cs : concat_str (split_inclusive cur cs) = cur +:+ concat_str cs.
Proof.
  revert cur. induction cs as [|c cs IH]; intros cur; cbn [split_inclusive].
  - destruct cur; [done|]. cbn. by rewrite !sapp_nil_r.
  - destruct (String.eqb c " "); rewrite ?concat_str_cons, IH, ?concat_str_cons, <- ?sapp_assoc; done.
Qed.

Lemma mock_streams_its_reply messages n hints m tokens full m' :
  bk_stream mock messages n hints m = ((tokens, Ok full), m') -> full = concat_str tokens.
Proof.
  unfold mock, bk_stream. rewrite bind_run. unfold ret. destruct (next_reply m).1 as [reply|e]; [|done].
  intros [= <- <- <-]. by rewrite split_inclusive_all, concat_chars.
Qed.

(** ** Runs *)

Section runs.

(** JSON with one text in it: the message of an error. *)
#[local] Instance error_json : Serde := {|
  from_str s := Some (Object [("error", Object [("message", Str s)])]); to_str := fun _ => "{}" |}.
#[local] Instance token_decoder : ChatDecoder := {|
  parse_chat s := if starts_with s "<" then Err "expected value at line 1 column 1"
                  else Ok {| choices := [{| choice_message := None; choice_delta := Some {| delta_content := Some s |};
                                            finish_reason := None |}] |} |}.

(** A lossy decoder of texts with characters of one and two bytes. *)
Fixpoint lossy (l : list ascii) : string :=
  match l with
  | [] => ""
  | a :: l' =>
      if byte_is_ascii a then String a (lossy l')
      else match l' with
           | b :: l'' => if byte_in 194 223 a && byte_is_cont b then String a (String b (lossy l''))
                         else utf8 [239; 191; 189]%N +:+ lossy l'
           | [] => utf8 [239; 191; 189]%N
           end
  end.
#[local] Instance lossy_decoder : Utf8 := {| from_utf8_lossy := lossy; from_utf8 l := Some (of_bytes l) |}.

Definition cafe : string := "caf" +:+ utf8 [195; 169]%N.
Definition cafe_bytes : list ascii := bytes ("data: " +:+ cafe +:+ newline).

(** Each chunk is decoded by itself: a character that two chunks share is lost,
    while the client of the local model reads the same bytes right. *)
Example split_character_is_lost :
  read_chunks 60 0 chunk_start [Data cafe_bytes] = ([cafe], Ok cafe) /\
  (read_chunks 60 0 chunk_start [Data (take 10 cafe_bytes); Data (drop 10 cafe_bytes)]).2 <> Ok cafe /\
  (read_stream "llama.cpp" 60
    [Data (bytes ("HTTP/1.1 200 OK" +:+ crlf +:+ crlf)); Data (take 10 cafe_bytes); Data (drop 10 cafe_bytes)]).1 =
  ([cafe], Ok cafe).
Proof. vm_compute. split_and!; done. Qed.

Definition key : string := "gw-0123456789abcdefghij".

Lemma refused_request_hides_the_credential_witness :
  contains ("bad key " +:+ key) key = true /\
  contains (sanitize_error_detail ("bad key " +:+ key) key) key = false /\
  String.length (sanitize_error_detail ("bad key " +:+ key) key) <= MAX_LEN + 3.
Proof.
  split; [by vm_compute|].
  apply (refused_request_hides_the_credential ("bad key " +:+ key) key).
  - split; [split_and!; [done|by vm_compute|by vm_compute]|apply Nat.leb_le; by vm_compute].
  - by vm_compute.
Defined.

(** A reply that is no error and no JSON goes into the error text as it is. *)
#[local] Instance echo_server : Reqwest unit := {|
  url_parse s := Ok {| url_str := s; url_scheme := "https"; url_host := Some "api.example" |};
  send_get _ := ret (Ok 200%N);
  send_post _ headers _ := ret (Ok {|
    rp_status := 200; rp_chunks := [];
    rp_text := Ok ("<p>You sent " +:+ default "" ((fun h => h.2) <$> head headers) +:+ "</p>") |}) |}.

Definition echo_backend : OpenAiCompatibleBackend := {|
  ob_base_url := {| url_str := "https://api.example/v1"; url_scheme := "https"; url_host := Some "api.example" |};
  ob_model := "m"; ob_credential := CredentialSource.EnvVar "API_KEY"; ob_timeouts := default_timeouts |}.

Example unread_reply_shows_the_credential :
  match (chat_once (fun _ => Some key) echo_backend [] None None tt).1 with
  | Err e => contains e key = true
  | Ok _ => False
  end.
Proof. vm_compute. reflexivity. Qed.

Example unset_credential :
  (chat_once (fun _ => None) echo_backend [] None None tt).1 =
  Err "openai-compatible provider misconfigured: environment variable API_KEY is not set".
Proof. vm_compute. reflexivity. Qed.

End runs.
