(* ===== verification/Telegram.v ===== *)
(** * The Telegram channel ([core/telegram.rs])

    What the adapter makes of an update, and how it answers: texts cut to the
    length Telegram takes, voice messages downloaded, transcribed, handed to the
    core and answered as text or as speech.  [TelegramDrivers] has the tasks
    that serve the chats. *)

From Stdlib Require Import Ascii String.
From S2P Require Import Prelude RustStr RustNum Json Channel LlmRequest.
Local Open Scope string_scope.
Local Open Scope list_scope.
Local Open Scope rust_scope.

(** ** Data *)

Record TelegramVoiceRuntimeConfig := {
  tv_enabled : bool;
  max_voice_duration_secs : N;
  delete_temp_audio : bool;
  ffmpeg_path : string;
  whisper_port : N;
  whisper_cli_path : string;
  whisper_model : string;
  stt_language : string;
  reply_as_voice : bool;
  max_reply_chars : nat;
  piper_path : string;
  piper_model : string;
  max_parallel_voice : nat;
}.

Record TelegramRuntimeConfig := {
  api_base : string;
  bot_token : string;
  core_base_url : string;
  poll_timeout_secs : N;
  allowed_chat_ids : list Z;
  allow_all_chats : bool;
  tg_voice : TelegramVoiceRuntimeConfig;
  origin_token : option string;
  max_parallel_updates : nat;
}.

Record TelegramVoice := { file_id : string; duration : N }.
Record TelegramMessage := {
  chat : Z;
  from_is_bot : option bool;
  tm_text : option string;
  tm_voice : option TelegramVoice;
  tm_audio : option TelegramVoice;
}.
Record TelegramUpdate := { update_id : Z; message : option TelegramMessage }.

(** [i64::saturating_add]. *)
Definition i64_max : Z := 9223372036854775807.
Definition next_id (id : Z) : Z := Z.min (id + 1) i64_max.

(** ** Texts *)

Definition TELEGRAM_MAX_MESSAGE_LEN : nat := 4096.

(** On the characters of the message; [fuel] is their number, and every round
    takes one at least. *)
Fixpoint split_loop (fuel : nat) (remaining : list string) : list string :=
  match fuel, remaining with
  | _, [] => []
  | O, _ => []
  | S fuel, _ =>
      if Nat.leb (length remaining) TELEGRAM_MAX_MESSAGE_LEN then [concat_str remaining]
      else
        let search_area := take TELEGRAM_MAX_MESSAGE_LEN remaining in
        let chunk_end := default TELEGRAM_MAX_MESSAGE_LEN
          (rposition (String.eqb newline) search_area <|> rposition (String.eqb " ") search_area) in
        let stop := if Nat.eqb chunk_end 0 then TELEGRAM_MAX_MESSAGE_LEN else chunk_end in
        trim (concat_str (take stop remaining)) :: split_loop fuel (drop_while is_whitespace (drop stop remaining))
  end.
Definition split_message (message : string) : list string :=
  let cs := chars message in
  if Nat.leb (length cs) TELEGRAM_MAX_MESSAGE_LEN then [message] else split_loop (length cs) cs.

Definition strip_bot_mention (text : string) : string :=
  join " " (List.filter (fun part => negb (starts_with part "@")) (split_whitespace text)).

Definition configured_language (raw : string) : option string :=
  let trimmed := trim raw in
  if is_empty trimmed || eq_ignore_ascii_case trimmed "auto" then None else Some trimmed.

Definition HALLUCINATIONS : list string :=
  ["[blank_audio]"; "[ blank_audio ]"; "(blank audio)"; "[silence]"; "(silence)"; "[music]"; "(music)"; "[applause]";
   "(applause)"; "thank you."; "thanks for watching."; "you"].

Definition clean_transcript `{U : Unicode} (raw : string) : string :=
  let trimmed := trim raw in
  if is_empty trimmed then ""
  else if is_one_of (to_lowercase trimmed) HALLUCINATIONS then "" else trimmed.

Inductive VoiceReplyGate := AsText | SkipOverLength (chars : nat) | AsVoice.

Definition voice_reply_gate (text : string) (reply_as_voice : bool) (max_chars : nat) : VoiceReplyGate :=
  let trimmed := trim text in
  if negb reply_as_voice || is_empty trimmed then AsText
  else let n := length (chars trimmed) in if Nat.ltb max_chars n then SkipOverLength n else AsVoice.

Definition chat_allowed (c : TelegramRuntimeConfig) (chat_id : Z) : bool :=
  allow_all_chats c || bool_decide (chat_id ∈ allowed_chat_ids c).

Definition method_url (c : TelegramRuntimeConfig) (method : string) : string :=
  trim_end_matches (String.eqb "/") (api_base c) +:+ "/bot" +:+ bot_token c +:+ "/" +:+ method.
Definition download_url (c : TelegramRuntimeConfig) (file_path : string) : string :=
  trim_end_matches (String.eqb "/") (api_base c) +:+ "/file/bot" +:+ bot_token c +:+ "/" +:+ file_path.

(** The permits of the two semaphores. *)
Definition voice_slots (c : TelegramRuntimeConfig) : nat := Nat.max (max_parallel_voice (tg_voice c)) 1.
Definition update_slots (c : TelegramRuntimeConfig) : nat := Nat.max (max_parallel_updates c) (voice_slots c).

(** ** What the dispatcher does with an update *)

Inductive Routing := Ignored | Unauthorized (chat_id : Z) | Deliver (chat_id : Z) (m : TelegramMessage).

Definition route_update (c : TelegramRuntimeConfig) (u : TelegramUpdate) : Routing :=
  match message u with
  | None => Ignored
  | Some m =>
      if default false (from_is_bot m) then Ignored
      else if negb (chat_allowed c (chat m)) then Unauthorized (chat m)
      else Deliver (chat m) m
  end.
Definition advance (offset : Z) (u : TelegramUpdate) : Z := Z.max offset (next_id (update_id u)).

(** What a driver does with a message. *)
Inductive Reception := VoiceMessage (v : TelegramVoice) | NoText | OnlyMentions | TextTurn (turn : IncomingTurn).

Definition receive (chat_id : Z) (m : TelegramMessage) : Reception :=
  match tm_voice m <|> tm_audio m with
  | Some v => VoiceMessage v
  | None =>
      match opt_filter nonempty (trim <$> tm_text m) with
      | None => NoText
      | Some text =>
          let normalized := trim (strip_bot_mention text) in
          if is_empty normalized then OnlyMentions
          else TextTurn (new_turn normalized ("telegram-" +:+ show_Z chat_id) ChannelKind.Telegram)
      end
  end.

(** ** Calls *)

(** How a call over HTTP ends: no answer, an error status, a body that is not
    the expected JSON, or the body. *)
Inductive Outcome (A : Type) := NotSent | BadStatus | NotJson | Body (a : A).
Arguments NotSent {A}. Arguments BadStatus {A}. Arguments NotJson {A}. Arguments Body {A} a.

Record TelegramEnvelope (A : Type) := { te_ok : bool; te_result : option A; te_description : option string }.
Arguments te_ok {A}. Arguments te_result {A}. Arguments te_description {A}.

(** A process that ended, failed to start, broke off, or was killed at its
    deadline. *)
Inductive ChildEnd :=
| Exited (success : bool) (stdout stderr : string)
| NotStarted
| StdinBroken
| WaitFailed
| TimedOut.

(** [{:?}] of a path with nothing to escape. *)
Definition debug_path (p : string) : string := dquote +:+ p +:+ dquote.

(** What the adapter uses of the world: calls with a JSON body, files,
    processes. *)
Class BotWorld (W : Type) := {
  post_updates : string -> value -> M W (Outcome (TelegramEnvelope (list TelegramUpdate)));
  post_json : string -> value -> M W (Outcome (TelegramEnvelope value));
  post_file_id : string -> value -> M W (Outcome (TelegramEnvelope (option string)));
  post_voice : string -> Z -> list ascii -> M W (Outcome (TelegramEnvelope value));
  get_bytes : string -> M W (Outcome (list ascii));
  post_whisper : N -> list (string * string) -> list ascii -> M W (Outcome value);
  post_core : string -> list (string * string) -> value -> M W (Outcome string);
  run_child : string -> list string -> option string -> M W ChildEnd;
  read_file : string -> M W (result (list ascii) string);
  write_file : string -> list ascii -> M W (result unit string);
  file_size : string -> M W (result N string);
  remove_file : string -> M W unit;
  next_temp_nonce : M W N;
}.

Definition in_json {A} (call : string) (o : Outcome A) : result A string :=
  match o with
  | NotSent => Err (call +:+ " request failed")
  | BadStatus => Err (call +:+ " HTTP error")
  | NotJson => Err (call +:+ " JSON decode failed")
  | Body a => Ok a
  end.

Definition unknown (d : option string) : string := default "unknown error" d.

Section calls.
Context {W : Type} `{BW : BotWorld W} `{U : Unicode}.
Context (c : TelegramRuntimeConfig) (process_id : N).

Definition updates_payload (offset : option Z) (timeout_secs : N) : value :=
  Object (("allowed_updates", Array [Str "message"]) :: optional "offset" json_i64 offset ++
          [("timeout", json_n timeout_secs)]).

Definition get_updates_raw (offset : option Z) (timeout_secs : N) : M W (result (list TelegramUpdate) string) :=
  let! o := post_updates (method_url c "getUpdates") (updates_payload offset timeout_secs) in
  ret (let? resp := in_json "Telegram getUpdates" o in
       if te_ok resp then Ok (default [] (te_result resp))
       else Err ("Telegram getUpdates API error " +:+ unknown (te_description resp))).

Definition get_updates (offset : Z) : M W (result (list TelegramUpdate) string) :=
  get_updates_raw (Some offset) (poll_timeout_secs c).

Definition max_id (updates : list TelegramUpdate) : option Z :=
  match update_id <$> updates with [] => None | id :: ids => Some (foldl Z.max id ids) end.

Definition bootstrap_offset : M W (result Z string) :=
  let!? updates := get_updates_raw None 0 in
  ret (Ok (match max_id updates with Some id => next_id id | None => 0%Z end)).

Definition text_payload (chat_id : Z) (chunk : string) : value :=
  Object [("chat_id", json_i64 chat_id); ("text", Str chunk)].

(** The chunks in order; the first that fails ends the call. *)
Fixpoint send_chunks (chat_id : Z) (chunks : list string) : M W (result unit string) :=
  match chunks with
  | [] => ret (Ok tt)
  | chunk :: chunks =>
      let! o := post_json (method_url c "sendMessage") (text_payload chat_id chunk) in
      match (let? resp := in_json "Telegram sendMessage" o in
             if te_ok resp then Ok tt
             else Err ("Telegram sendMessage API error " +:+ unknown (te_description resp))) with
      | Err e => ret (Err e)
      | Ok _ => send_chunks chat_id chunks
      end
  end.
Definition send_text (chat_id : Z) (text : string) : M W (result unit string) := send_chunks chat_id (split_message text).

(** [let _ = send_text(..)] and [return Ok(())]. *)
Definition tell (chat_id : Z) (text : string) : M W (result unit string) :=
  let! _ := send_text chat_id text in ret (Ok tt).

Definition chat_core (chat_id : Z) (text : string) : M W (result string string) :=
  let turn := incoming_turn_from_telegram chat_id text in
  let request := Object [("message", Str (turn_text turn)); ("conversation_id", Str (turn_session_id turn))] in
  let headers := ("X-Genie-Origin", "telegram") ::
    match origin_token c with Some token => [("X-Genie-Origin-Token", token)] | None => [] end in
  let! o := post_core (core_base_url c +:+ "/api/chat") headers request in
  ret (match o with
       | NotSent => Err "local GenieClaw /api/chat request failed"
       | BadStatus => Err "local GenieClaw /api/chat HTTP error"
       | NotJson => Err "failed to decode GenieClaw /api/chat response"
       | Body response => Ok response
       end).

(** ** Processes *)

Definition ran (o : ChildEnd) (not_started stdin_broken wait_failed timed_out failed : string) : result string string :=
  match o with
  | NotStarted => Err not_started
  | StdinBroken => Err stdin_broken
  | WaitFailed => Err wait_failed
  | TimedOut => Err timed_out
  | Exited true stdout _ => Ok stdout
  | Exited false _ stderr => Err (failed +:+ trim stderr)
  end.

(** A command whose output is awaited: one error for all that is not its end. *)
Definition output_of (o : ChildEnd) (name path secs failed : string) : result string string :=
  let broken := "failed to spawn " +:+ path in
  ran o broken broken broken (name +:+ " timed out after " +:+ secs) (failed +:+ " failed: ").

Definition ffmpeg (args : list string) (what : string) : M W (result unit string) :=
  let path := ffmpeg_path (tg_voice c) in
  let! o := run_child path (["-hide_banner"; "-loglevel"; "error"; "-y"; "-i"] ++ args) None in
  ret (let? _ := output_of o ("ffmpeg " +:+ what) ("ffmpeg at " +:+ debug_path path) "15s" ("ffmpeg " +:+ what) in Ok tt).
Definition transcode_to_wav (ogg_path wav_path : string) : M W (result unit string) :=
  ffmpeg [ogg_path; "-ar"; "16000"; "-ac"; "1"; "-f"; "wav"; wav_path] "transcode".
Definition wav_to_ogg_opus (wav_path ogg_path : string) : M W (result unit string) :=
  ffmpeg [wav_path; "-c:a"; "libopus"; "-b:a"; "24k"; "-ac"; "1"; "-f"; "ogg"; ogg_path] "ogg/opus encode".

Definition synthesize_reply_to_wav (text wav_path : string) : M W (result unit string) :=
  let one_line := replace text newline " " in
  let! o := run_child (piper_path (tg_voice c))
    ["--model"; piper_model (tg_voice c); "--output_file"; wav_path] (Some (one_line +:+ newline)) in
  match ran o ("failed to spawn piper at " +:+ debug_path (piper_path (tg_voice c))) "write piper stdin" "await piper"
          "piper timed out after 30s" "piper failed: " with
  | Err e => ret (Err e)
  | Ok _ =>
      let! meta := file_size wav_path in
      ret (match meta with
           | Err _ => Err ("stat " +:+ wav_path)
           | Ok len => if (len <? 128)%N then Err ("piper produced empty/undersized WAV (" +:+ show_N len +:+ " bytes)")
                       else Ok tt
           end)
  end.

Definition send_voice (chat_id : Z) (ogg_path : string) : M W (result unit string) :=
  let! bytes := read_file ogg_path in
  match bytes with
  | Err _ => ret (Err ("read ogg " +:+ ogg_path))
  | Ok bytes =>
      let! o := post_voice (method_url c "sendVoice") chat_id bytes in
      ret (let? resp := in_json "Telegram sendVoice" o in
           if te_ok resp then Ok tt else Err ("Telegram sendVoice API error: " +:+ unknown (te_description resp)))
  end.

Definition download_voice_file (id dest_path : string) : M W (result unit string) :=
  let! o := post_file_id (method_url c "getFile") (Object [("file_id", Str id)]) in
  match (let? env := in_json "Telegram getFile" o in
         if negb (te_ok env) then Err ("Telegram getFile API error: " +:+ unknown (te_description env))
         else let? file := ok_or (te_result env) "Telegram getFile returned no result body" in
              ok_or file "Telegram getFile returned no file_path") with
  | Err e => ret (Err e)
  | Ok file_path =>
      let! b := get_bytes (download_url c file_path) in
      match b with
      | NotSent => ret (Err "Telegram file download failed")
      | BadStatus => ret (Err "Telegram file download HTTP error")
      | NotJson => ret (Err "Telegram file body read failed")
      | Body bytes =>
          let! w := write_file dest_path bytes in
          ret (match w with Ok _ => Ok tt | Err _ => Err ("write temp ogg to " +:+ dest_path) end)
      end
  end.

Definition transcribe_via_whisper_server (port : N) (wav_path : string) : M W (result string string) :=
  let! data := read_file wav_path in
  match data with
  | Err _ => ret (Err ("read wav " +:+ wav_path))
  | Ok wav_data =>
      let fields := [("temperature", "0.0"); ("response_format", "json"); ("prompt", "")] ++
        match configured_language (stt_language (tg_voice c)) with Some lang => [("language", lang)] | None => [] end in
      let! o := post_whisper port fields wav_data in
      ret (let? resp := in_json "whisper-server" o in Ok (trim (default "" (get_str resp "text"))))
  end.

Definition transcribe_via_whisper_cli (wav_path : string) : M W (result string string) :=
  let v := tg_voice c in
  let args := ["-m"; whisper_model v; "-f"; wav_path; "--no-timestamps"; "--no-prints"; "--threads"; "4";
               "--suppress-nst"; "--no-speech-thold"; "0.8"] ++
    match configured_language (stt_language v) with Some lang => ["--language"; lang] | None => [] end in
  let! o := run_child (whisper_cli_path v) args None in
  ret (let? stdout := output_of o "whisper-cli" ("whisper-cli at " +:+ debug_path (whisper_cli_path v)) "60s" "whisper-cli" in
       Ok (trim stdout)).

Definition transcribe_wav (wav_path : string) : M W (result string string) :=
  if (0 <? whisper_port (tg_voice c))%N then transcribe_via_whisper_server (whisper_port (tg_voice c)) wav_path
  else transcribe_via_whisper_cli wav_path.

(** ** Replies and voice messages *)

(** [TempCleanup]: the files go when the handler is left, whichever way. *)
Definition with_cleanup {A} (ogg wav : string) (body : M W A) : M W A :=
  let! a := body in
  if delete_temp_audio (tg_voice c) then
    let! _ := remove_file ogg in let! _ := remove_file wav in ret a
  else ret a.

Definition temp_path (what : string) (nonce : N) (ext : string) : string :=
  "/tmp/geniepod-tg-" +:+ what +:+ "-" +:+ show_N process_id +:+ "-" +:+ show_N nonce +:+ ext.

Definition send_reply (chat_id : Z) (text : string) : M W (result unit string) :=
  match voice_reply_gate text (reply_as_voice (tg_voice c)) (max_reply_chars (tg_voice c)) with
  | AsText | SkipOverLength _ => send_text chat_id text
  | AsVoice =>
      let trimmed := trim text in
      let! nonce := next_temp_nonce in
      let wav_path := temp_path "reply" nonce ".wav" in
      let ogg_path := temp_path "reply" nonce ".ogg" in
      with_cleanup ogg_path wav_path
        (let! spoken :=
           (let!? _ := synthesize_reply_to_wav trimmed wav_path in
            let!? _ := wav_to_ogg_opus wav_path ogg_path in
            send_voice chat_id ogg_path) in
         match spoken with Ok _ => ret (Ok tt) | Err _ => send_text chat_id text end)
  end.

(** After the download: what is heard is handed to the core. *)
Definition answer_voice (chat_id : Z) (id ogg_path wav_path : string) : M W (result unit string) :=
  let! downloaded := download_voice_file id ogg_path in
  match downloaded with
  | Err _ => tell chat_id "Sorry, I couldn't download that voice message from Telegram."
  | Ok _ =>
      let! transcoded := transcode_to_wav ogg_path wav_path in
      match transcoded with
      | Err _ => tell chat_id "Sorry, I couldn't decode that voice message (ffmpeg failed)."
      | Ok _ =>
          let! transcript := transcribe_wav wav_path in
          match transcript with
          | Err _ => tell chat_id "Sorry, I couldn't transcribe that voice message."
          | Ok transcript =>
              let transcript := clean_transcript transcript in
              if is_empty transcript then tell chat_id "I couldn't make out any speech in that voice message."
              else
                let!? core_response := chat_core chat_id transcript in
                send_reply chat_id core_response
          end
      end
  end.

Definition handle_voice_message (chat_id : Z) (voice : TelegramVoice) : M W (result unit string) :=
  let cfg := tg_voice c in
  if negb (tv_enabled cfg) then tell chat_id "Voice messages aren't enabled on this deployment."
  else if (max_voice_duration_secs cfg <? duration voice)%N then
    tell chat_id ("Voice message is too long (" +:+ show_N (duration voice) +:+ "s); the limit is " +:+
                  show_N (max_voice_duration_secs cfg) +:+ "s.")
  else
    let! nonce := next_temp_nonce in
    let ogg_path := temp_path "voice" nonce ".ogg" in
    let wav_path := temp_path "voice" nonce ".wav" in
    with_cleanup ogg_path wav_path (answer_voice chat_id (file_id voice) ogg_path wav_path).

End calls.

(** ** Cut messages *)

#[local] Opaque TELEGRAM_MAX_MESSAGE_LEN.

Definition ink (cs : list string) : list string := List.filter (fun c => negb (is_whitespace c)) cs.

Lemma ink_app l l' : ink (l ++ l') = ink l ++ ink l'.
Proof. apply List.filter_app. Qed.
Lemma ink_drop_while l : ink (drop_while is_whitespace l) = ink l.
Proof.
  induction l as [|x l IH]; [done|]. unfold ink in *. cbn [drop_while List.filter].
  destruct (is_whitespace x) eqn:E; [exact IH|]. cbn [List.filter]. by rewrite E.
Qed.
Lemma ink_reverse l : ink (reverse l) = reverse (ink l).
Proof.
  induction l as [|x l IH]; [done|]. rewrite reverse_cons, ink_app, IH. unfold ink. cbn [List.filter].
  destruct (is_whitespace x); cbn [negb]; [by rewrite app_nil_r|by rewrite reverse_cons].
Qed.
Lemma ink_trim s : ink (chars (trim s)) = ink (chars s).
Proof. by rewrite chars_trim, ink_reverse, ink_drop_while, ink_reverse, reverse_involutive, ink_drop_while. Qed.

Lemma length_drop_while {A} p (l : list A) : length (drop_while p l) <= length l.
Proof. destruct (drop_while_suffix p l) as [k Hk]. rewrite Hk at 2. rewrite length_app. lia. Qed.

Lemma length_chars_trim s : length (chars (trim s)) <= length (chars s).
Proof.
  rewrite chars_trim, length_reverse. etransitivity; [apply length_drop_while|]. rewrite length_reverse. apply length_drop_while.
Qed.

(** A message is characters that the text groups the same way. *)
Definition grouped (cs : list string) : Prop := chars (concat_str cs) = cs.

Lemma grouped_cut l r : grouped (l ++ r) -> grouped l /\ grouped r.
Proof.
  unfold grouped. intros H. split; [by apply (chars_prefix l r (concat_str (l ++ r)))|].
  apply (chars_segment l r [] (concat_str (l ++ r))). by rewrite app_nil_r.
Qed.

Lemma rposition_bound {A} (p : A -> bool) l i : rposition p l = Some i -> i < length l.
Proof.
  revert i. induction l as [|x l IH]; intros i; cbn [rposition]; [done|]. destruct (rposition p l) as [j|].
  - intros [= <-]. specialize (IH j eq_refl). cbn. lia.
  - intros [_ <-]%when_Some. cbn. lia.
Qed.

Lemma split_loop_spec fuel cs : grouped cs -> length cs <= fuel ->
  mjoin ((fun chunk => ink (chars chunk)) <$> split_loop fuel cs) = ink cs /\
  Forall (fun chunk => length (chars chunk) <= TELEGRAM_MAX_MESSAGE_LEN) (split_loop fuel cs).
Proof.
  revert cs. induction fuel as [|fuel IH]; intros cs Hg Hl; [by destruct cs; [|cbn in Hl; lia]|].
  cbn [split_loop]. destruct cs as [|c0 cs0] eqn:Ecs; [done|]. rewrite <- Ecs in *. clear Ecs c0 cs0.
  destruct (Nat.leb_spec (length cs) TELEGRAM_MAX_MESSAGE_LEN) as [Hle|Hgt].
  { cbn [fmap list_fmap mjoin list_join]. rewrite Hg, app_nil_r. split; [done|]. constructor; [by rewrite Hg|constructor]. }
  set (chunk_end := default TELEGRAM_MAX_MESSAGE_LEN _).
  set (stop := if Nat.eqb chunk_end 0 then TELEGRAM_MAX_MESSAGE_LEN else chunk_end).
  assert (1 <= stop <= TELEGRAM_MAX_MESSAGE_LEN) as Hstop.
  { assert (chunk_end <= TELEGRAM_MAX_MESSAGE_LEN) as Hce.
    { unfold chunk_end. destruct (rposition (String.eqb newline) _) as [i|] eqn:E1; cbn [default from_option].
      - apply rposition_bound in E1. rewrite length_take in E1. unfold id. lia.
      - destruct (rposition (String.eqb " ") _) as [i|] eqn:E2; cbn [from_option]; [|done].
        apply rposition_bound in E2. rewrite length_take in E2. unfold id. lia. }
    unfold stop. destruct (Nat.eqb_spec chunk_end 0); [|lia]. split; [|lia]. by vm_compute; lia. }
  clearbody stop. clear chunk_end. rewrite <- (take_drop stop cs) in Hg. apply grouped_cut in Hg as [Ht Hd].
  assert (grouped (drop_while is_whitespace (drop stop cs))) as Hg'.
  { destruct (drop_while_suffix is_whitespace (drop stop cs)) as [k Hk]. rewrite Hk in Hd. exact (proj2 (grouped_cut _ _ Hd)). }
  pose proof (length_drop_while is_whitespace (drop stop cs)) as Hlen. rewrite length_drop in Hlen.
  destruct (IH _ Hg' ltac:(lia)) as [IH1 IH2]. split.
  - change (ink (chars (trim (concat_str (take stop cs)))) ++
      mjoin ((fun chunk => ink (chars chunk)) <$> split_loop fuel (drop_while is_whitespace (drop stop cs))) = ink cs).
    rewrite IH1, ink_trim, Ht, ink_drop_while, <- ink_app. by rewrite take_drop.
  - constructor; [|exact IH2]. etransitivity; [apply length_chars_trim|]. rewrite Ht, length_take. lia.
Qed.

(** A text is sent in chunks of at most 4096 characters, and nothing but
    white space is lost between them: the other characters of the text are
    those of the chunks, in order. *)
Lemma chunks_tell_the_message message :
  mjoin ((fun chunk => ink (chars chunk)) <$> split_message message) = ink (chars message) /\
  Forall (fun chunk => length (chars chunk) <= TELEGRAM_MAX_MESSAGE_LEN) (split_message message).
Proof.
  unfold split_message. destruct (Nat.leb_spec (length (chars message)) TELEGRAM_MAX_MESSAGE_LEN) as [Hle|_].
  - cbn [fmap list_fmap mjoin list_join]. rewrite app_nil_r. split; [done|]. by repeat constructor.
  - apply split_loop_spec; [|done]. unfold grouped. by rewrite concat_chars.
Qed.

(** ** Runs *)

Transparent TELEGRAM_MAX_MESSAGE_LEN.

Example mentions_are_dropped : strip_bot_mention "@genie turn on  the @kitchen light" = "turn on the light".
Proof. vm_compute. reflexivity. Qed.

Example languages : configured_language " auto " = None /\ configured_language " de " = Some "de".
Proof. vm_compute. done. Qed.

Definition words : string := concat_str (replicate 700 "seven7 ").

Example long_message_is_cut : (fun chunk => length (chars chunk)) <$> split_message words = [4094; 805].
Proof. vm_compute. reflexivity. Qed.
