(* ===== verification/TelegramDrivers.v ===== *)
(** * The tasks behind the Telegram channel ([core/telegram.rs], [run])

    One dispatcher reads the updates and puts the messages of each chat into
    the inbox of that chat's driver; a driver serves its inbox one message at a
    time and retires when it stays idle.  Both are tasks, so the development
    has them as steps of one relation; the gate of a driver is a fair mutex.
    The theorems: a message put into an inbox is served in its turn, and
    retirement never drops one; a message in the dispatcher's hand can always be
    delivered; no update is taken twice; and a chat that is not allowed has no
    driver. *)

From S2P Require Import Prelude RustStr Channel Telegram.
Local Open Scope list_scope.

(** ** Drivers *)

Inductive Party := Dispatcher | ItsDriver.
#[export] Instance Party_dec : EqDecision Party.
Proof. solve_decision. Defined.

(** Where the task of a driver is: awaiting its inbox, waiting for the gate
    after the timeout, holding it, about to close the inbox, serving a message,
    or ended, with its inbox closed. *)
Inductive Phase := Receiving | Expired | Holding | Closing | Serving (m : TelegramMessage) | Ended.

Record ChatDriver := {
  inbox : list TelegramMessage;
  phase : Phase;
  gate : option Party;
  waiter : option Party;
}.

Definition INBOX_SIZE : nat := 64.

Definition spawn_chat_driver : ChatDriver := {| inbox := []; phase := Receiving; gate := None; waiter := None |}.
Definition is_closed (d : ChatDriver) : bool := match phase d with Ended => true | _ => false end.

(** [gate.lock()]: at once, or behind the one that holds it. *)
Definition request (p : Party) (d : ChatDriver) : ChatDriver :=
  match gate d with
  | None => {| inbox := inbox d; phase := phase d; gate := Some p; waiter := waiter d |}
  | Some _ => {| inbox := inbox d; phase := phase d; gate := gate d; waiter := Some p |}
  end.
(** The guard is dropped: the mutex goes to the one that waits. *)
Definition release (d : ChatDriver) : ChatDriver :=
  {| inbox := inbox d; phase := phase d; gate := waiter d; waiter := None |}.

Definition set_phase (p : Phase) (d : ChatDriver) : ChatDriver :=
  {| inbox := inbox d; phase := p; gate := gate d; waiter := waiter d |}.
Definition set_inbox (l : list TelegramMessage) (d : ChatDriver) : ChatDriver :=
  {| inbox := l; phase := phase d; gate := gate d; waiter := waiter d |}.

(** ** The process *)

(** How a message ended: served, its reply not delivered, or left in the inbox
    of a driver whose reply was not delivered. *)
Inductive Fate := Served | Unanswered | Dropped.

Notation Chatted := (Z * TelegramMessage)%type.

(** The state of [run], and what has happened so far. *)
Record Bot := {
  offset : Z;
  todo : list TelegramUpdate;
  hand : option Chatted;
  drivers : gmap Z ChatDriver;
  taken : list Z;
  refused : list Z;
  accepted : list Chatted;
  handled : list (Chatted * Fate);
}.

Definition start (offset : Z) : Bot :=
  {| offset := offset; todo := []; hand := None; drivers := ∅; taken := []; refused := []; accepted := []; handled := [] |}.

(** The open driver of a chat, or a new one. *)
Definition driver_for (s : Bot) (chat_id : Z) : ChatDriver :=
  match drivers s !! chat_id with
  | Some d => if is_closed d then spawn_chat_driver else d
  | None => spawn_chat_driver
  end.

Definition set_driver (chat_id : Z) (d : ChatDriver) (s : Bot) : Bot :=
  {| offset := offset s; todo := todo s; hand := hand s; drivers := <[chat_id := d]> (drivers s); taken := taken s;
     refused := refused s; accepted := accepted s; handled := handled s |}.
Definition add_handled (l : list (Chatted * Fate)) (s : Bot) : Bot :=
  {| offset := offset s; todo := todo s; hand := hand s; drivers := drivers s; taken := taken s;
     refused := refused s; accepted := accepted s; handled := handled s ++ l |}.

(** A batch of updates: the drivers that ended leave the map. *)
Definition poll (updates : list TelegramUpdate) (s : Bot) : Bot :=
  {| offset := offset s; todo := updates; hand := hand s; drivers := filter (fun kd => is_closed kd.2 = false) (drivers s);
     taken := taken s; refused := refused s; accepted := accepted s; handled := handled s |}.

Definition take_update (u : TelegramUpdate) (rest : list TelegramUpdate) (s : Bot) : Bot :=
  {| offset := advance (offset s) u; todo := rest; hand := hand s; drivers := drivers s; taken := taken s ++ [update_id u];
     refused := refused s; accepted := accepted s; handled := handled s |}.

Definition refuse (chat_id : Z) (s : Bot) : Bot :=
  {| offset := offset s; todo := todo s; hand := hand s; drivers := drivers s; taken := taken s;
     refused := refused s ++ [chat_id]; accepted := accepted s; handled := handled s |}.

Definition hold (m : option Chatted) (s : Bot) : Bot :=
  {| offset := offset s; todo := todo s; hand := m; drivers := drivers s; taken := taken s;
     refused := refused s; accepted := accepted s; handled := handled s |}.

Definition accept (cm : Chatted) (s : Bot) : Bot :=
  {| offset := offset s; todo := todo s; hand := None; drivers := drivers s; taken := taken s;
     refused := refused s; accepted := accepted s ++ [cm]; handled := handled s |}.

(** The first part of the loop over the updates, up to the gate. *)
Definition dispatch (c : TelegramRuntimeConfig) (u : TelegramUpdate) (rest : list TelegramUpdate) (s : Bot) : Bot :=
  let s := take_update u rest s in
  match route_update c u with
  | Ignored => s
  | Unauthorized chat_id => refuse chat_id s
  | Deliver chat_id m =>
      hold (Some (chat_id, m)) (set_driver chat_id (request Dispatcher (driver_for s chat_id)) s)
  end.

(** What [getUpdates] promises of a batch: identifiers from the offset on, in
    order. *)
Fixpoint batch_from (offset : Z) (l : list TelegramUpdate) : Prop :=
  match l with
  | [] => True
  | u :: l => (offset <= update_id u < i64_max)%Z /\ batch_from (update_id u + 1) l
  end.

(** A driver whose reply could not be delivered ends, and its inbox with it. *)
Definition dropped (chat_id : Z) (d : ChatDriver) : list (Chatted * Fate) := (fun m => ((chat_id, m), Dropped)) <$> inbox d.

Section relation.
Variable c : TelegramRuntimeConfig.

Inductive step : Bot -> Bot -> Prop :=
| Polled s updates :
    hand s = None -> todo s = [] -> batch_from (offset s) updates -> step s (poll updates s)
| Dispatched s u rest :
    hand s = None -> todo s = u :: rest -> step s (dispatch c u rest s)
| Sent s chat_id m d :
    hand s = Some (chat_id, m) -> drivers s !! chat_id = Some d -> gate d = Some Dispatcher ->
    is_closed d = false -> length (inbox d) < INBOX_SIZE ->
    step s (accept (chat_id, m) (set_driver chat_id (release (set_inbox (inbox d ++ [m]) d)) s))
(** The driver has retired: a new one gets the message before anything else
    happens to it. *)
| Redelivered s chat_id m d :
    hand s = Some (chat_id, m) -> drivers s !! chat_id = Some d -> gate d = Some Dispatcher -> is_closed d = true ->
    step s (accept (chat_id, m) (set_driver chat_id (set_inbox [m] spawn_chat_driver) s))
| Received s chat_id d m rest :
    drivers s !! chat_id = Some d -> phase d = Receiving -> inbox d = m :: rest ->
    step s (set_driver chat_id (set_phase (Serving m) (set_inbox rest d)) s)
| WentIdle s chat_id d :
    drivers s !! chat_id = Some d -> phase d = Receiving -> inbox d = [] ->
    step s (set_driver chat_id (request ItsDriver (set_phase Expired d)) s)
| Locked s chat_id d :
    drivers s !! chat_id = Some d -> phase d = Expired -> gate d = Some ItsDriver ->
    step s (set_driver chat_id (set_phase Holding d) s)
| Raced s chat_id d m rest :
    drivers s !! chat_id = Some d -> phase d = Holding -> inbox d = m :: rest ->
    step s (set_driver chat_id (release (set_phase (Serving m) (set_inbox rest d))) s)
| FoundEmpty s chat_id d :
    drivers s !! chat_id = Some d -> phase d = Holding -> inbox d = [] ->
    step s (set_driver chat_id (set_phase Closing d) s)
| Closed s chat_id d :
    drivers s !! chat_id = Some d -> phase d = Closing ->
    step s (set_driver chat_id (release (set_phase Ended d)) s)
| Answered s chat_id d m :
    drivers s !! chat_id = Some d -> phase d = Serving m ->
    step s (add_handled [((chat_id, m), Served)] (set_driver chat_id (set_phase Receiving d) s))
| SendFailed s chat_id d m :
    drivers s !! chat_id = Some d -> phase d = Serving m ->
    step s (add_handled (((chat_id, m), Unanswered) :: dropped chat_id d)
             (set_driver chat_id (set_phase Ended (set_inbox [] d)) s)).

Inductive reachable (first : Z) : Bot -> Prop :=
| reach_start : reachable first (start first)
| reach_step s s' : reachable first s -> step s s' -> reachable first s'.

End relation.

(** ** What always holds *)

Definition dispatcher_at (D : bool) : option Party := if D then Some Dispatcher else None.

(** Who has the gate and who waits for it, by the phase of the driver and
    whether the dispatcher has a message for it in hand. *)
Definition gate_ok (D : bool) (d : ChatDriver) : Prop :=
  match phase d with
  | Receiving | Serving _ => gate d = dispatcher_at D /\ waiter d = None
  | Ended => gate d = dispatcher_at D /\ waiter d = None /\ inbox d = []
  | Holding => gate d = Some ItsDriver /\ waiter d = dispatcher_at D
  | Closing => gate d = Some ItsDriver /\ waiter d = dispatcher_at D /\ inbox d = []
  | Expired =>
      gate d = Some ItsDriver /\ waiter d = dispatcher_at D \/
      D = true /\ gate d = Some Dispatcher /\ waiter d = Some ItsDriver /\ inbox d = []
  end.

(** What a driver has accepted and not finished, the oldest first. *)
Definition in_driver (chat_id : Z) (d : ChatDriver) : list Chatted :=
  match phase d with Serving m => [(chat_id, m)] | _ => [] end ++ (pair chat_id <$> inbox d).
Definition unfinished (chat_id : Z) (s : Bot) : list Chatted :=
  match drivers s !! chat_id with Some d => in_driver chat_id d | None => [] end.

Definition of_chat (chat_id : Z) (l : list Chatted) : list Chatted := filter (fun cm => cm.1 = chat_id) l.
Definition hand_for (chat_id : Z) (s : Bot) : bool := bool_decide (fst <$> hand s = Some chat_id).

Record bot_ok (c : TelegramRuntimeConfig) (s : Bot) : Prop := {
  ok_hand : forall chat_id m, hand s = Some (chat_id, m) -> is_Some (drivers s !! chat_id);
  ok_gates : forall chat_id d, drivers s !! chat_id = Some d ->
    gate_ok (hand_for chat_id s) d /\ chat_allowed c chat_id = true /\ length (inbox d) <= INBOX_SIZE;
  ok_allowed : Forall (fun cm => chat_allowed c cm.1 = true) (accepted s);
  ok_order : forall chat_id,
    of_chat chat_id (accepted s) = of_chat chat_id (fst <$> handled s) ++ unfinished chat_id s;
  ok_dropped : forall chat_id m, ((chat_id, m), Dropped) ∈ handled s ->
    exists m', ((chat_id, m'), Unanswered) ∈ handled s;
  ok_taken : NoDup (taken s) /\ Forall (fun id => (id < offset s)%Z) (taken s) /\ batch_from (offset s) (todo s);
}.

Lemma of_chat_app chat_id l l' : of_chat chat_id (l ++ l') = of_chat chat_id l ++ of_chat chat_id l'.
Proof. apply filter_app. Qed.
Lemma of_chat_same chat_id (l : list Chatted) : Forall (fun cm => cm.1 = chat_id) l -> of_chat chat_id l = l.
Proof. induction 1 as [|cm l Hc Hl IH]; [done|]. unfold of_chat in *. by rewrite filter_cons_True, IH. Qed.
Lemma of_chat_other chat_id chat_id' (l : list Chatted) :
  chat_id <> chat_id' -> Forall (fun cm => cm.1 = chat_id) l -> of_chat chat_id' l = [].
Proof.
  intros Hne. induction 1 as [|cm l Hc Hl IH]; [done|]. unfold of_chat in *. rewrite filter_cons_False; [done|congruence].
Qed.
Lemma in_driver_chat chat_id d : Forall (fun cm => cm.1 = chat_id) (in_driver chat_id d).
Proof.
  unfold in_driver. apply Forall_app. split; [destruct (phase d); by repeat constructor|]. apply Forall_fmap.
  by apply Forall_forall.
Qed.

Lemma add_nothing s : add_handled [] s = s.
Proof. destruct s. unfold add_handled. cbn. by rewrite app_nil_r. Qed.

Section safety.
Variable c : TelegramRuntimeConfig.

(** A step of a driver: what leaves it is noted, the rest stays. *)
Lemma driver_step_ok s chat_id d d' l :
  bot_ok c s -> drivers s !! chat_id = Some d ->
  (gate_ok (hand_for chat_id s) d -> gate_ok (hand_for chat_id s) d') ->
  in_driver chat_id d = (fst <$> l) ++ in_driver chat_id d' -> length (inbox d') <= length (inbox d) ->
  ((exists m, ((chat_id, m), Dropped) ∈ l) -> exists m', ((chat_id, m'), Unanswered) ∈ l) ->
  bot_ok c (add_handled l (set_driver chat_id d' s)).
Proof.
  intros [H1 H2 H0 H3 H4 H5] Hd Hg Hin Hlen Hdrop. pose proof (in_driver_chat chat_id d) as Hall. rewrite Hin in Hall.
  apply Forall_app in Hall as [Hl _].
  split; cbn [add_handled set_driver hand drivers accepted handled taken offset todo].
  - intros ch m Hh. destruct (decide (ch = chat_id)) as [->|]; [by rewrite lookup_insert_eq|].
    rewrite lookup_insert_ne by done. by eapply H1.
  - intros ch e. change (hand_for ch (add_handled l (set_driver chat_id d' s))) with (hand_for ch s).
    destruct (decide (ch = chat_id)) as [->|].
    + rewrite lookup_insert_eq. intros [= <-]. destruct (H2 _ _ Hd) as (Hgd & Ha & Hl'). split_and!; [by apply Hg|done|lia].
    + rewrite lookup_insert_ne by done. apply H2.
  - exact H0.
  - intros ch. unfold unfinished. cbn [add_handled set_driver drivers]. rewrite fmap_app, of_chat_app, H3. unfold unfinished.
    destruct (decide (ch = chat_id)) as [->|].
    + by rewrite lookup_insert_eq, Hd, Hin, (of_chat_same _ (fst <$> l)), app_assoc.
    + rewrite lookup_insert_ne, (of_chat_other chat_id ch (fst <$> l)) by done. by rewrite app_nil_r.
  - intros ch m [Hin'|Hin']%elem_of_app.
    + destruct (H4 _ _ Hin') as [m' Hm']. exists m'. apply elem_of_app. by left.
    + assert (ch = chat_id) as ->.
      { rewrite Forall_forall in Hl. apply (Hl (ch, m)). apply list_elem_of_fmap. by exists ((ch, m), Dropped). }
      destruct Hdrop as [m' Hm']; [by exists m|]. exists m'. apply elem_of_app. by right.
  - exact H5.
Qed.

Lemma silent_step_ok s chat_id d d' :
  bot_ok c s -> drivers s !! chat_id = Some d ->
  (gate_ok (hand_for chat_id s) d -> gate_ok (hand_for chat_id s) d') ->
  in_driver chat_id d = in_driver chat_id d' -> length (inbox d') <= length (inbox d) ->
  bot_ok c (set_driver chat_id d' s).
Proof.
  intros Hok Hd Hg Hin Hlen. rewrite <- add_nothing. apply (driver_step_ok s chat_id d d' []); try done.
  intros [m Hm]. by apply not_elem_of_nil in Hm.
Qed.

Lemma dropped_fates chat_id d : fst <$> dropped chat_id d = pair chat_id <$> inbox d.
Proof. unfold dropped. by rewrite <- list_fmap_compose. Qed.

(** A message goes into an inbox. *)
Lemma accept_ok s chat_id m d d' :
  bot_ok c s -> hand s = Some (chat_id, m) -> drivers s !! chat_id = Some d ->
  gate_ok false d' -> in_driver chat_id d' = in_driver chat_id d ++ [(chat_id, m)] -> length (inbox d') <= INBOX_SIZE ->
  bot_ok c (accept (chat_id, m) (set_driver chat_id d' s)).
Proof.
  intros [H1 H2 H0 H3 H4 H5] Hh Hd Hg Hin Hlen. destruct (H2 _ _ Hd) as (_ & Hal & _).
  split; cbn [accept set_driver hand drivers accepted handled taken offset todo].
  - done.
  - intros ch e. change (hand_for ch (accept (chat_id, m) (set_driver chat_id d' s))) with false.
    destruct (decide (ch = chat_id)) as [->|].
    + rewrite lookup_insert_eq. by intros [= <-].
    + rewrite lookup_insert_ne by done. intros He. destruct (H2 _ _ He) as (Hg' & Ha & Hl'). split_and!; [|done|done].
      unfold hand_for in Hg'. rewrite Hh in Hg'. cbn in Hg'. rewrite bool_decide_false in Hg' by congruence. done.
  - apply Forall_app. split; [done|]. by repeat constructor.
  - intros ch. unfold unfinished. cbn [accept set_driver drivers]. rewrite of_chat_app, H3. unfold unfinished.
    destruct (decide (ch = chat_id)) as [->|].
    + rewrite lookup_insert_eq, Hd, Hin, (of_chat_same chat_id [_]) by by repeat constructor. by rewrite app_assoc.
    + rewrite lookup_insert_ne, (of_chat_other chat_id ch [_]) by (done || by repeat constructor). by rewrite app_nil_r.
  - exact H4.
  - exact H5.
Qed.

Lemma taken_ok s u rest : bot_ok c s -> todo s = u :: rest ->
  let s' := take_update u rest s in
  NoDup (taken s') /\ Forall (fun id => (id < offset s')%Z) (taken s') /\ batch_from (offset s') (todo s').
Proof.
  intros [_ _ _ _ _ (Hnd & Hlt & Hb)] Ht. rewrite Ht in Hb. destruct Hb as [Hid Hb]. cbn [take_update taken offset todo].
  assert (advance (offset s) u = update_id u + 1)%Z as -> by (unfold advance, next_id in *; lia).
  split_and!; [|apply Forall_app; split|done].
  - apply NoDup_app. split_and!; [done| |apply NoDup_singleton]. intros id Hin ->%list_elem_of_singleton.
    rewrite Forall_forall in Hlt. specialize (Hlt _ Hin). lia.
  - eapply Forall_impl; [exact Hlt|]. intros id Hlt'. cbn in Hlt'. lia.
  - repeat constructor. lia.
Qed.

Lemma driver_for_spec s chat_id d : drivers s !! chat_id = Some d ->
  driver_for s chat_id = if is_closed d then spawn_chat_driver else d.
Proof. intros H. unfold driver_for. by rewrite H. Qed.

Lemma dispatch_ok s u rest : bot_ok c s -> hand s = None -> todo s = u :: rest -> bot_ok c (dispatch c u rest s).
Proof.
  intros Hok Hh Ht. pose proof (taken_ok s u rest Hok Ht) as Hk. destruct Hok as [H1 H2 H0 H3 H4 H5]. unfold dispatch.
  assert (bot_ok c (take_update u rest s)) as Ht'.
  { split; cbn [take_update hand drivers accepted handled]; try done. }
  destruct (route_update c u) as [|ch|ch m] eqn:Er; [done| |].
  - destruct Ht' as [K1 K2 K0 K3 K4 K5]. by split.
  - assert (chat_allowed c ch = true) as Hal.
    { unfold route_update in Er. destruct (message u) as [m'|]; [|done]. destruct (default false _); [done|].
      destruct (chat_allowed c (chat m')) eqn:Ea; [|done]. cbn in Er. congruence. }
    assert (hand_for ch s = false) as Hf by (unfold hand_for; by rewrite Hh).
    assert (gate_ok true (request Dispatcher (driver_for s ch)) /\
            in_driver ch (request Dispatcher (driver_for s ch)) = unfinished ch s /\
            length (inbox (request Dispatcher (driver_for s ch))) <= INBOX_SIZE) as (Hg & Hin & Hlen).
    { unfold driver_for, unfinished. destruct (drivers s !! ch) as [d|] eqn:Ed; [|split_and!; [done|done|cbn; lia]].
      destruct (H2 _ _ Ed) as (Hg & _ & Hlen). rewrite Hf in Hg. destruct d as [ib ph g w].
      unfold is_closed, gate_ok, in_driver, request in *. destruct ph; cbn in *.
      2: destruct Hg as [[-> ->]|[? _]]; [cbn in *; auto|done].
      all: first [destruct Hg as (-> & -> & ->)|destruct Hg as (-> & ->)]; cbn in *; auto with lia. }
    destruct Ht' as [K1 K2 K0 K3 K4 K5].
    split; cbn [hold set_driver take_update hand drivers accepted handled taken offset todo].
    + intros ch' m' [= <- <-]. by rewrite lookup_insert_eq.
    + intros ch' e. destruct (decide (ch' = ch)) as [->|Hne].
      * rewrite lookup_insert_eq. intros [= <-]. split_and!; [|done|exact Hlen]. unfold hand_for. cbn [hold hand fst fmap option_fmap option_map].
        by rewrite bool_decide_true.
      * rewrite lookup_insert_ne by done. intros He. destruct (H2 _ _ He) as (Hge & Ha & Hl'). split_and!; [|done|done].
        unfold hand_for in *. rewrite Hh in Hge. cbn [hold hand fst fmap option_fmap option_map].
        rewrite bool_decide_false by congruence. exact Hge.
    + exact K0.
    + intros ch'. rewrite (H3 ch'). f_equal. unfold unfinished at 2. cbn [hold set_driver take_update drivers].
      destruct (decide (ch' = ch)) as [->|Hne]; [rewrite lookup_insert_eq; exact (eq_sym Hin)|by rewrite lookup_insert_ne].
    + exact K4.
    + exact K5.
Qed.

Lemma poll_ok s updates : bot_ok c s -> hand s = None -> batch_from (offset s) updates -> bot_ok c (poll updates s).
Proof.
  intros [H1 H2 H0 H3 H4 (Hnd & Hlt & _)] Hh Hb.
  split; cbn [poll hand drivers accepted handled taken offset todo]; try done.
  - intros ch m E. by rewrite Hh in E.
  - intros ch d [Hd _]%map_lookup_filter_Some. by apply H2.
  - intros ch. rewrite (H3 ch). f_equal. unfold unfinished. cbn [poll drivers].
    destruct (drivers s !! ch) as [d|] eqn:Ed.
    + destruct (is_closed d) eqn:Ec.
      * rewrite (proj2 (map_lookup_filter_None _ _ _)) by (right; intros x E; cbn; congruence).
        destruct (H2 _ _ Ed) as (Hg & _). unfold is_closed, gate_ok, in_driver in *. destruct (phase d); try done.
        by destruct Hg as (_ & _ & ->).
      * by rewrite (proj2 (map_lookup_filter_Some _ _ _ _) (conj Ed Ec)).
    + by rewrite (proj2 (map_lookup_filter_None _ _ _)) by by left.
Qed.

Lemma step_ok s s' : bot_ok c s -> step c s s' -> bot_ok c s'.
Proof.
  intros Hok Hs. destruct Hs as
    [s updates Hh Ht Hb|s u rest Hh Ht|s ch m d Hh Hd Hg Hc Hl|s ch m d Hh Hd Hg Hc|s ch d m rest Hd Hp Hi
    |s ch d Hd Hp Hi|s ch d Hd Hp Hg|s ch d m rest Hd Hp Hi|s ch d Hd Hp Hi|s ch d Hd Hp|s ch d m Hd Hp|s ch d m Hd Hp].
  - by apply poll_ok.
  - by apply dispatch_ok.
  - pose proof (ok_gates c s Hok ch d Hd) as (Hk & _ & Hlen). apply (accept_ok s ch m d); try done.
    + unfold hand_for in Hk. rewrite Hh in Hk. cbn in Hk. rewrite bool_decide_true in Hk by done.
      unfold is_closed, gate_ok, release, set_inbox in *. destruct (phase d); cbn in *; naive_solver.
    + unfold in_driver. cbn. by rewrite fmap_app, app_assoc.
    + cbn. rewrite length_app. cbn. lia.
  - pose proof (ok_gates c s Hok ch d Hd) as (Hk & _ & Hlen). apply (accept_ok s ch m d); try done; [|cbn; unfold INBOX_SIZE; lia].
    unfold is_closed, gate_ok, in_driver in *. destruct (phase d); try done. by destruct Hk as (_ & _ & ->).
  - apply (silent_step_ok s ch d); [done|done| | |unfold request; cbn; rewrite ?Hi; cbn; repeat case_match; cbn; lia].
    + unfold gate_ok. cbn. by rewrite Hp.
    + unfold in_driver. cbn. by rewrite Hp, Hi.
  - apply (silent_step_ok s ch d); [done|done| | |unfold request; cbn; rewrite ?Hi; cbn; repeat case_match; cbn; lia].
    + unfold gate_ok, request. cbn. rewrite Hp. intros [-> Hw]. destruct (hand_for ch s); cbn; rewrite ?Hw; naive_solver.
    + unfold in_driver, request. cbn. rewrite Hp, Hi. by destruct (gate d).
  - apply (silent_step_ok s ch d); [done|done| | |unfold request; cbn; rewrite ?Hi; cbn; repeat case_match; cbn; lia].
    + unfold gate_ok. cbn. rewrite Hp. naive_solver congruence.
    + unfold in_driver. cbn. by rewrite Hp.
  - apply (silent_step_ok s ch d); [done|done| | |unfold request; cbn; rewrite ?Hi; cbn; repeat case_match; cbn; lia].
    + unfold gate_ok, release. cbn. rewrite Hp. by intros [_ ->].
    + unfold in_driver. cbn. by rewrite Hp, Hi.
  - apply (silent_step_ok s ch d); [done|done| | |unfold request; cbn; rewrite ?Hi; cbn; repeat case_match; cbn; lia].
    + unfold gate_ok. cbn. rewrite Hp. naive_solver.
    + unfold in_driver. cbn. by rewrite Hp.
  - apply (silent_step_ok s ch d); [done|done| | |unfold request; cbn; rewrite ?Hi; cbn; repeat case_match; cbn; lia].
    + unfold gate_ok, release. cbn. rewrite Hp. naive_solver.
    + unfold in_driver. cbn. by rewrite Hp.
  - apply (driver_step_ok s ch d); [done|done| | |cbn; lia|].
    + unfold gate_ok. cbn. by rewrite Hp.
    + unfold in_driver. cbn. by rewrite Hp.
    + intros [m' ?%list_elem_of_singleton]. done.
  - apply (driver_step_ok s ch d); [done|done| | |cbn; lia|].
    + unfold gate_ok. cbn. rewrite Hp. naive_solver.
    + unfold in_driver. cbn [fmap list_fmap fst]. rewrite dropped_fates. cbn. rewrite Hp. by rewrite app_nil_r.
    + intros _. exists m. by left.
Qed.

Lemma start_ok first : bot_ok c (start first).
Proof.
  split; cbn; try done.
  - intros ch m Hin. by apply not_elem_of_nil in Hin.
  - split_and!; [constructor|constructor|done].
Qed.

Lemma reachable_ok first s : reachable c first s -> bot_ok c s.
Proof. induction 1 as [|s s' _ IH Hs]; [apply start_ok|by eapply step_ok]. Qed.

End safety.

(** ** The theorems *)

(** C19: whatever the updates, the timeouts and the order of the tasks, the
    messages of a chat are finished in the order they were accepted, one at a
    time, and what is not finished is with its driver: a driver that has retired
    has nothing left.  Only where a reply could not be delivered is a message
    dropped.  No update is taken twice, and a chat that is not allowed has no
    driver and no message accepted. *)
Theorem messages_are_served_in_turn c first s chat_id :
  reachable c first s ->
  of_chat chat_id (accepted s) = of_chat chat_id (fst <$> handled s) ++ unfinished chat_id s /\
  (forall d, drivers s !! chat_id = Some d -> is_closed d = true -> unfinished chat_id s = []) /\
  ((forall m, ((chat_id, m), Unanswered) ∉ handled s) ->
     forall m fate, ((chat_id, m), fate) ∈ handled s -> fate = Served) /\
  NoDup (taken s) /\
  (chat_allowed c chat_id = false -> drivers s !! chat_id = None /\ of_chat chat_id (accepted s) = []).
Proof.
  intros Hr. pose proof (reachable_ok c first s Hr) as [H1 H2 H0 H3 H4 [H5 _]]. split_and!.
  - apply H3.
  - intros d Hd Hc. unfold unfinished. rewrite Hd. destruct (H2 _ _ Hd) as [Hg _].
    unfold is_closed, gate_ok, in_driver in *. destruct (phase d); try done. by destruct Hg as (_ & _ & ->).
  - intros Hno m fate Hin. destruct fate; [done|by apply Hno in Hin|]. destruct (H4 _ _ Hin) as [m' Hm']. by apply Hno in Hm'.
  - exact H5.
  - intros Hna. split.
    + destruct (drivers s !! chat_id) as [d|] eqn:Ed; [|done]. destruct (H2 _ _ Ed) as (_ & Ha & _). congruence.
    + destruct (of_chat chat_id (accepted s)) as [|cm l] eqn:E; [done|]. exfalso.
      assert (cm ∈ of_chat chat_id (accepted s)) as Hin by (rewrite E; by left).
      apply list_elem_of_filter in Hin as [Hc Hin]. rewrite Forall_forall in H0. specialize (H0 _ Hin). cbn in H0. congruence.
Qed.

Section progress.
Variable c : TelegramRuntimeConfig.

(** Reached without a reply that fails: the hand is empty and holds what it
    held. *)
Definition delivered (cm : Chatted) (s s' : Bot) : Prop :=
  rtc (step c) s s' /\ hand s' = None /\ accepted s' = accepted s ++ [cm].

Lemma delivered_step cm s s1 s' : step c s s1 -> accepted s1 = accepted s -> delivered cm s1 s' -> delivered cm s s'.
Proof. intros Hs He (Hr & Hh & Ha). split_and!; [by eapply rtc_l|done|congruence]. Qed.

Lemma deliver_open s ch m d :
  hand s = Some (ch, m) -> drivers s !! ch = Some d -> gate d = Some Dispatcher -> is_closed d = false ->
  length (inbox d) < INBOX_SIZE -> exists s', delivered (ch, m) s s'.
Proof. intros. eexists. split_and!; [eapply rtc_once, Sent; eauto|done|done]. Qed.

Lemma deliver_ended s ch m d :
  hand s = Some (ch, m) -> drivers s !! ch = Some d -> gate d = Some Dispatcher -> phase d = Ended ->
  exists s', delivered (ch, m) s s'.
Proof.
  intros Hh Hd Hg Hp. eexists. split_and!; [eapply rtc_once, Redelivered; eauto; unfold is_closed; by rewrite Hp|done|done].
Qed.

Lemma deliver_receiving s ch m d :
  hand s = Some (ch, m) -> drivers s !! ch = Some d -> gate d = Some Dispatcher -> phase d = Receiving ->
  length (inbox d) <= INBOX_SIZE -> exists s', delivered (ch, m) s s'.
Proof.
  intros Hh Hd Hg Hp Hl. destruct (inbox d) as [|m' rest] eqn:Ei.
  - eapply deliver_open; eauto; [unfold is_closed; by rewrite Hp|rewrite Ei; cbn; unfold INBOX_SIZE; lia].
  - cbn in Hl. destruct (deliver_open (set_driver ch (set_phase (Serving m') (set_inbox rest d)) s) ch m
      (set_phase (Serving m') (set_inbox rest d))) as [s' Hs']; try done.
    + apply lookup_insert_eq.
    + exists s'. eapply delivered_step; [by eapply Received|done|exact Hs'].
Qed.

Lemma deliver_serving s ch m d m' :
  hand s = Some (ch, m) -> drivers s !! ch = Some d -> gate d = Some Dispatcher -> phase d = Serving m' ->
  length (inbox d) <= INBOX_SIZE -> exists s', delivered (ch, m) s s'.
Proof.
  intros Hh Hd Hg Hp Hl.
  destruct (deliver_receiving (add_handled [((ch, m'), Served)] (set_driver ch (set_phase Receiving d) s)) ch m
    (set_phase Receiving d)) as [s' Hs']; try done.
  - apply lookup_insert_eq.
  - exists s'. eapply delivered_step; [by eapply Answered|done|exact Hs'].
Qed.

Lemma deliver_closing s ch m d :
  hand s = Some (ch, m) -> drivers s !! ch = Some d -> waiter d = Some Dispatcher -> phase d = Closing ->
  exists s', delivered (ch, m) s s'.
Proof.
  intros Hh Hd Hw Hp.
  destruct (deliver_ended (set_driver ch (release (set_phase Ended d)) s) ch m (release (set_phase Ended d))) as [s' Hs'];
    try done.
  - apply lookup_insert_eq.
  - exists s'. eapply delivered_step; [by eapply Closed|done|exact Hs'].
Qed.

Lemma deliver_holding s ch m d :
  hand s = Some (ch, m) -> drivers s !! ch = Some d -> waiter d = Some Dispatcher -> phase d = Holding ->
  length (inbox d) <= INBOX_SIZE -> exists s', delivered (ch, m) s s'.
Proof.
  intros Hh Hd Hw Hp Hl. destruct (inbox d) as [|m' rest] eqn:Ei.
  - destruct (deliver_closing (set_driver ch (set_phase Closing d) s) ch m (set_phase Closing d)) as [s' Hs']; try done.
    + apply lookup_insert_eq.
    + exists s'. eapply delivered_step; [by eapply FoundEmpty|done|exact Hs'].
  - cbn in Hl. destruct (deliver_open (set_driver ch (release (set_phase (Serving m') (set_inbox rest d))) s) ch m
      (release (set_phase (Serving m') (set_inbox rest d)))) as [s' Hs']; try done.
    + apply lookup_insert_eq.
    + exists s'. eapply delivered_step; [by eapply Raced|done|exact Hs'].
Qed.

(** C20: the dispatcher never waits for a driver that waits for it: from every
    state with a message in hand there are steps that put it into an inbox, none
    of them a failure. *)
Theorem message_in_hand_is_delivered first s cm :
  reachable c first s -> hand s = Some cm -> exists s', delivered cm s s'.
Proof.
  intros Hr Hh. destruct cm as [ch m]. pose proof (reachable_ok c first s Hr) as [H1 H2 _ _ _ _].
  destruct (H1 ch m Hh) as [d Hd]. destruct (H2 ch d Hd) as (Hg & _ & Hl).
  assert (hand_for ch s = true) as Ht by (unfold hand_for; rewrite Hh; by apply bool_decide_true).
  rewrite Ht in Hg. unfold gate_ok in Hg. cbn [dispatcher_at] in Hg. destruct (phase d) as [| | | |m'|] eqn:Hp.
  - destruct Hg as [Hg _]. by eapply deliver_receiving.
  - destruct Hg as [[Hg Hw]|(_ & Hg & Hw & Hi)].
    + destruct (deliver_holding (set_driver ch (set_phase Holding d) s) ch m (set_phase Holding d)) as [s' Hs']; try done.
      * apply lookup_insert_eq.
      * exists s'. eapply delivered_step; [by eapply Locked|done|exact Hs'].
    + eapply deliver_open; eauto; [unfold is_closed; by rewrite Hp|rewrite Hi; cbn; unfold INBOX_SIZE; lia].
  - destruct Hg as [_ Hw]. by eapply deliver_holding.
  - destruct Hg as (_ & Hw & _). by eapply deliver_closing.
  - destruct Hg as [Hg _]. by eapply deliver_serving.
  - destruct Hg as [Hg _]. by eapply deliver_ended.
Qed.

End progress.

(** ** A run *)

Section run.

Definition home_voice : TelegramVoiceRuntimeConfig := {|
  tv_enabled := false; max_voice_duration_secs := 60; delete_temp_audio := true; ffmpeg_path := "ffmpeg"; whisper_port := 0;
  whisper_cli_path := "whisper-cli"; whisper_model := "m"; stt_language := "auto"; reply_as_voice := false;
  max_reply_chars := 100; piper_path := "piper"; piper_model := "m"; max_parallel_voice := 1 |}.
Definition home_bot : TelegramRuntimeConfig := {|
  api_base := "https://api.telegram.org"; bot_token := "t"; core_base_url := "http://127.0.0.1:3000"; poll_timeout_secs := 30;
  allowed_chat_ids := [42%Z]; allow_all_chats := false; tg_voice := home_voice; origin_token := None;
  max_parallel_updates := 4 |}.

Definition text_of (t : string) : TelegramMessage :=
  {| chat := 42; from_is_bot := None; tm_text := Some t; tm_voice := None; tm_audio := None |}.
Definition update (id : Z) (t : string) : TelegramUpdate := {| update_id := id; message := Some (text_of t) |}.
Definition hello : TelegramMessage := text_of "hello".
Definition again : TelegramMessage := text_of "again".

(** A message is served, the driver goes idle, and the second message is sent
    while it waits for the gate: it is served by the same driver. *)
Definition idle_state : Bot := {|
  offset := 9; todo := []; hand := Some (42%Z, again);
  drivers := {[ 42%Z := {| inbox := []; phase := Expired; gate := Some Dispatcher; waiter := Some ItsDriver |} ]};
  taken := [7; 8]%Z; refused := []; accepted := [(42%Z, hello)]; handled := [((42%Z, hello), Served)] |}.

(** One more step, up to the equality of records of maps. *)
Lemma reach_eq first s s' s'' : reachable home_bot first s -> step home_bot s s' -> s' = s'' -> reachable home_bot first s''.
Proof. intros Hr Hs <-. by eapply reach_step. Qed.

Ltac same_bot := vm_compute; reflexivity.

Definition serving_hello : Bot := {|
  offset := 8; todo := [update 8 "again"]; hand := None; drivers := {[ 42%Z := set_phase (Serving hello) spawn_chat_driver ]};
  taken := [7]%Z; refused := []; accepted := [(42%Z, hello)]; handled := [] |}.

Lemma serving_hello_reachable : reachable home_bot 7 serving_hello.
Proof.
  eapply reach_eq; [|eapply (Received home_bot
    {| offset := 8; todo := [update 8 "again"]; hand := None; drivers := {[ 42%Z := set_inbox [hello] spawn_chat_driver ]};
       taken := [7]%Z; refused := []; accepted := [(42%Z, hello)]; handled := [] |} 42%Z); same_bot|same_bot].
  eapply reach_eq; [|eapply (Sent home_bot (dispatch home_bot (update 7 "hello") [update 8 "again"]
    (poll [update 7 "hello"; update 8 "again"] (start 7))) 42%Z hello (request Dispatcher spawn_chat_driver));
    [same_bot|same_bot|done|done|cbn; unfold INBOX_SIZE; lia]|same_bot].
  eapply reach_step; [|by apply Dispatched].
  eapply reach_step; [apply reach_start|]. apply Polled; [done|done|]. cbn. unfold i64_max. lia.
Qed.

Lemma idle_state_reachable : reachable home_bot 7 idle_state.
Proof.
  eapply reach_eq; [|eapply (WentIdle home_bot (dispatch home_bot (update 8 "again") []
    {| offset := 8; todo := [update 8 "again"]; hand := None; drivers := {[ 42%Z := set_phase Receiving spawn_chat_driver ]};
       taken := [7]%Z; refused := []; accepted := [(42%Z, hello)]; handled := [((42%Z, hello), Served)] |}) 42%Z); same_bot|same_bot].
  eapply reach_step; [|by apply Dispatched].
  eapply reach_eq; [exact serving_hello_reachable|eapply (Answered home_bot serving_hello 42%Z); same_bot|same_bot].
Qed.

(** A reply that Telegram does not take ends the driver; the message that was
    waiting behind it is gone, and its update is behind the offset. *)
Example failed_reply_drops_the_inbox : exists s,
  reachable home_bot 7 s /\ ((42%Z, again), Dropped) ∈ handled s /\ offset s = 9%Z /\ unfinished 42 s = [].
Proof.
  set (d := {| inbox := [again]; phase := Serving hello; gate := None; waiter := None |}).
  set (s := {| offset := 9; todo := []; hand := None; drivers := {[ 42%Z := d ]}; taken := [7; 8]%Z; refused := [];
               accepted := [(42%Z, hello); (42%Z, again)]; handled := [] |}).
  assert (reachable home_bot 7 s) as Hs.
  { eapply reach_eq; [|eapply (Sent home_bot (dispatch home_bot (update 8 "again") [] serving_hello) 42%Z again
      (request Dispatcher (set_phase (Serving hello) spawn_chat_driver)));
      [same_bot|same_bot|done|done|cbn; unfold INBOX_SIZE; lia]|same_bot].
    eapply reach_step; [|by apply Dispatched]. apply serving_hello_reachable. }
  eexists. split; [eapply reach_step; [exact Hs|apply (SendFailed home_bot s 42%Z d hello); same_bot]|].
  split_and!; [|done|same_bot]. cbn. right. by left.
Qed.

Lemma messages_are_served_in_turn_witness :
  of_chat 42 (accepted idle_state) = of_chat 42 (fst <$> handled idle_state) ++ unfinished 42 idle_state /\
  drivers idle_state !! 43%Z = None.
Proof.
  destruct (messages_are_served_in_turn home_bot 7 idle_state 42 idle_state_reachable) as [H _].
  destruct (messages_are_served_in_turn home_bot 7 idle_state 43 idle_state_reachable) as (_ & _ & _ & _ & Hn).
  split; [exact H|]. by destruct (Hn ltac:(vm_compute; reflexivity)).
Defined.

Lemma message_in_hand_is_delivered_witness : exists s', delivered home_bot (42%Z, again) idle_state s'.
Proof. exact (message_in_hand_is_delivered home_bot 7 idle_state (42%Z, again) idle_state_reachable eq_refl). Defined.

End run.
