(* ===== verification/SkillLoader.v ===== *)
(** * Native skills ([core/skills/], [core/tools/dispatch/skill.rs])

    The loading of shared libraries as tools: the trusted keys, the sidecar
    manifest, the signature over the bytes that are mapped, the policy, and the
    calls with their fault budget.  The file system, the anonymous descriptors,
    the dynamic linker and the native code are the class [SkillHost]; the
    cryptography is [Ed25519], an external crate.  A call releases the lock of
    the loader while the native code runs, so calls are begun and completed in
    two steps, and the theorems quantify over their interleavings. *)

From Stdlib Require Import Ascii String.
From S2P Require Import Prelude RustStr RustNum Json HttpFraming.
Local Open Scope string_scope.
Local Open Scope list_scope.
Local Open Scope rust_scope.

(** ** Paths *)

(** [Path::file_name], of a path without a trailing slash. *)
Definition file_name (path : string) : option string :=
  let n := match rsplit_once path "/" with Some (_, n) => n | None => path end in
  if is_one_of n [""; "."; ".."] then None else Some n.

(** The stem and the extension of a file name. *)
Definition split_extension (n : string) : string * option string :=
  match rsplit_once n "." with
  | Some ("", _) | None => (n, None)
  | Some (stem, ext) => (stem, Some ext)
  end.

Definition extension (path : string) : option string := file_name path ≫= fun n => (split_extension n).2.
Definition file_stem (path : string) : option string := (fun n => (split_extension n).1) <$> file_name path.

Definition with_extension (path ext : string) : string :=
  match file_name path with
  | None => path
  | Some n =>
      match rsplit_once path "/" with Some (dir, _) => dir +:+ "/" | None => "" end +:+
      (split_extension n).1 +:+ "." +:+ ext
  end.

Definition path_join (dir n : string) : string := dir +:+ "/" +:+ n.

(** ** Manifests and policy *)

Record SkillManifest := {
  mf_name : string; mf_version : string; mf_description : string;
  mf_permissions : list string; mf_capabilities : list string;
  mf_reviewed_by : string; mf_signature : string; mf_key_id : string;
}.

Record SkillManifestAudit := {
  sa_status : string; sa_path : option string; sa_name : string; sa_version : string;
  sa_description : string; sa_permissions : list string; sa_capabilities : list string;
  sa_reviewed_by : string; sa_key_id : string; sa_signed : bool; sa_error : string;
}.

Record SkillPolicyConfig := {
  pc_require_manifest : bool; pc_require_signature : bool; pc_signature_key_dir : string;
  pc_denied_permissions : list string; pc_skill_execution_timeout_ms : N;
}.

Record SkillLoadPolicy := {
  require_manifest : bool; require_signature : bool; denied_permissions : list string;
  signature_key_dir : string; skill_execution_timeout_ms : N;
}.

Definition default_policy (defaults : SkillPolicyConfig) : SkillLoadPolicy := {|
  require_manifest := false; require_signature := false; denied_permissions := [];
  signature_key_dir := pc_signature_key_dir defaults;
  skill_execution_timeout_ms := pc_skill_execution_timeout_ms defaults |}.

Definition policy_from_config (c : SkillPolicyConfig) : SkillLoadPolicy := {|
  require_manifest := pc_require_manifest c; require_signature := pc_require_signature c;
  denied_permissions := pc_denied_permissions c; signature_key_dir := pc_signature_key_dir c;
  skill_execution_timeout_ms := pc_skill_execution_timeout_ms c |}.

Definition audit_missing : SkillManifestAudit := {|
  sa_status := "missing"; sa_path := None; sa_name := ""; sa_version := ""; sa_description := "";
  sa_permissions := []; sa_capabilities := []; sa_reviewed_by := ""; sa_key_id := ""; sa_signed := false;
  sa_error := "no sidecar manifest found" |}.

Definition audit_invalid (path error : string) : SkillManifestAudit := {|
  sa_status := "invalid"; sa_path := Some path; sa_name := ""; sa_version := ""; sa_description := "";
  sa_permissions := []; sa_capabilities := []; sa_reviewed_by := ""; sa_key_id := ""; sa_signed := false;
  sa_error := error |}.

(** What a field of the manifest has against it. *)
Definition field_problem (field claimed loaded : string) : list string :=
  if is_empty (trim claimed) then ["manifest " +:+ field +:+ " is empty"]
  else if negb (String.eqb claimed loaded) then
    ["manifest " +:+ field +:+ " '" +:+ claimed +:+ "' does not match loaded skill '" +:+ loaded +:+ "'"]
  else [].

Definition audit_from_manifest (path : string) (m : SkillManifest) (signed : bool)
    (loaded_name loaded_version : string) : SkillManifestAudit :=
  let problems := field_problem "name" (mf_name m) loaded_name ++
                  field_problem "version" (mf_version m) loaded_version in
  {| sa_status := match problems with [] => "ok" | _ => "mismatch" end;
     sa_path := Some path; sa_name := mf_name m; sa_version := mf_version m;
     sa_description := mf_description m; sa_permissions := mf_permissions m;
     sa_capabilities := mf_capabilities m; sa_reviewed_by := mf_reviewed_by m;
     sa_key_id := mf_key_id m; sa_signed := signed; sa_error := join "; " problems |}.

Inductive ManifestSource :=
| Missing
| Invalid (path error : string)
| Present (path : string) (manifest : SkillManifest).

Definition build_manifest_audit (source : ManifestSource) (signed : bool) (loaded_name loaded_version : string)
    : SkillManifestAudit :=
  match source with
  | Missing => audit_missing
  | Invalid path error => audit_invalid path error
  | Present path m => audit_from_manifest path m signed loaded_name loaded_version
  end.

Definition enforce_skill_policy (manifest : SkillManifestAudit) (policy : SkillLoadPolicy) : result unit string :=
  if require_manifest policy && negb (String.eqb (sa_status manifest) "ok") then
    Err ("skill manifest required but status is '" +:+ sa_status manifest +:+ "': " +:+ sa_error manifest)
  else
    let denied := List.filter (fun p => is_one_of p (denied_permissions policy)) (sa_permissions manifest) in
    match denied with
    | [] => Ok tt
    | _ => Err ("skill requests denied permission(s): " +:+ join ", " denied)
    end.

Definition manifest_sidecar_candidates (skill_path : string) : list string :=
  [with_extension skill_path "skill.json"; with_extension skill_path "manifest.json"; with_extension skill_path "json"].

(** ** Keys *)

(** The crates: base64, and Ed25519 with its strict verification of a signature
    of sixty-four bytes by a key of thirty-two. *)
Class Ed25519 := {
  VerifyingKey : Type;
  base64_decode : string -> option (list ascii);
  key_from_bytes : list ascii -> option VerifyingKey;
  Signature : Type;
  signature_from_slice : list ascii -> option Signature;
  verify_strict : VerifyingKey -> list ascii -> Signature -> bool;
}.

Section keys.
Context `{EC : Ed25519}.

Definition TrustedKeys : Type := gmap string VerifyingKey.

Definition decode_verifying_key (b64 : string) : option VerifyingKey :=
  bytes ← base64_decode b64;
  if Nat.eqb (length bytes) 32 then key_from_bytes bytes else None.

Definition verify_detached (keys : TrustedKeys) (key_id : string) (message : list ascii) (signature_b64 : string) : bool :=
  let key_id := trim key_id in
  let signature_b64 := trim signature_b64 in
  if is_empty key_id || is_empty signature_b64 then false
  else match keys !! key_id with
       | None => false
       | Some key =>
           match base64_decode signature_b64 ≫= signature_from_slice with
           | None => false
           | Some signature => verify_strict key message signature
           end
       end.

Definition verify_skill_signature (so_bytes : list ascii) (manifest : SkillManifest) (keys : TrustedKeys) : bool :=
  verify_detached keys (mf_key_id manifest) so_bytes (mf_signature manifest).

Definition source_signed (so_bytes : list ascii) (source : ManifestSource) (keys : TrustedKeys) : bool :=
  match source with
  | Present _ m => verify_skill_signature so_bytes m keys
  | Missing | Invalid _ _ => false
  end.

End keys.

(** ** The host *)

(** The table of a library: the version of the interface, and its C strings,
    null or bytes. *)
Record SkillVTable := {
  abi_version : N;
  vt_name : option (list ascii); vt_description : option (list ascii);
  vt_version : option (list ascii); vt_parameters_json : option (list ascii);
}.
Definition ABI_VERSION : N := 1.

(** What the blocking call of a skill ends in: the C string, or a null, or a
    panic of the thread, or the deadline. *)
Inductive CallEnd := Returned (json : option (list ascii)) | Panicked (e : string) | Overran.

(** Files, descriptors, the linker, and the native code of a library [L]. *)
Class SkillHost (W L : Type) := {
  fs_exists : string -> M W bool;
  fs_read_dir : string -> M W (result (list string) string);
  fs_read : string -> M W (result (list ascii) string);
  fs_read_to_string : string -> M W (result string string);
  memfd_create : string -> M W (result N string);
  memfd_write : N -> list ascii -> M W (result unit string);
  memfd_seal : N -> M W (result unit string);
  close_fd : N -> M W unit;
  dlopen : string -> M W (result L string);
  skill_init_symbol : L -> M W (result unit string);
  call_skill_init : L -> M W (option SkillVTable);
  call_execute : L -> string -> N -> M W CallEnd;
}.

(** The derived decoder of a manifest. *)
Class ManifestDecoder := { parse_manifest : string -> result SkillManifest string }.

Definition map_err {A E F} (f : E -> F) (r : result A E) : result A F :=
  match r with Ok a => Ok a | Err e => Err (f e) end.

(** [CString::new(s).unwrap_or_default()]. *)
Definition c_string (s : string) : string := if sexists (Ascii.eqb zero) s then "" else s.

Section loader.
Context {W L : Type} `{SH : SkillHost W L} `{EC : Ed25519} `{MD : ManifestDecoder} `{UT : Utf8} `{SD : Serde}.

(** [TrustedKeys::load_from_dir]. *)
Fixpoint load_keys (entries : list string) (keys : TrustedKeys) : M W TrustedKeys :=
  match entries with
  | [] => ret keys
  | path :: entries =>
      match extension path, file_stem path with
      | Some "pub", Some key_id =>
          let! contents := fs_read_to_string path in
          load_keys entries
            (match to_option contents ≫= fun c => decode_verifying_key (trim c) with
             | Some key => <[key_id := key]> keys
             | None => keys
             end)
      | _, _ => load_keys entries keys
      end
  end.

Definition load_from_dir (dir : string) : M W TrustedKeys :=
  let! entries := fs_read_dir dir in
  match entries with
  | Err _ => ret ∅
  | Ok names => load_keys (path_join dir <$> names) ∅
  end.

(** [.into_iter().find(|path| path.exists())]. *)
Fixpoint first_existing (paths : list string) : M W (option string) :=
  match paths with
  | [] => ret None
  | p :: paths => let! found := fs_exists p in if found then ret (Some p) else first_existing paths
  end.
Definition find_manifest_sidecar (skill_path : string) : M W (option string) :=
  first_existing (manifest_sidecar_candidates skill_path).

Definition read_manifest_source (skill_path : string) : M W ManifestSource :=
  let! found := find_manifest_sidecar skill_path in
  match found with
  | None => ret Missing
  | Some path =>
      let! content := fs_read_to_string path in
      ret (match rbind content parse_manifest with
           | Ok m => Present path m
           | Err e => Invalid path e
           end)
  end.

Definition fd_path (fd : N) : string := "/proc/self/fd/" +:+ show_N fd.

Definition load_library_from_memfd (so_bytes : list ascii) (label : string) : M W (result L string) :=
  let! fd := memfd_create (c_string label) in
  match fd with
  | Err e => ret (Err ("memfd_create failed: " +:+ e))
  | Ok fd =>
      let! written := memfd_write fd so_bytes in
      match written with
      | Err e => let! _ := close_fd fd in ret (Err e)
      | Ok _ =>
          let! sealed := memfd_seal fd in
          match sealed with
          | Err e => let! _ := close_fd fd in ret (Err ("memfd sealing failed: " +:+ e))
          | Ok _ =>
              let! lib := dlopen (fd_path fd) in
              let! _ := close_fd fd in
              ret (map_err (fun e => "dlopen from sealed memfd failed: " +:+ e) lib)
          end
      end
  end.

(** ** Loaded skills *)

Record LoadedSkill := {
  sk_name : string; sk_description : string; sk_version : string; sk_parameters_json : string;
  sk_path : string; sk_manifest : SkillManifestAudit; fault_count : N; execution_timeout : N; sk_lib : L;
}.

Record SkillLoader := {
  skills_dir : string; ld_policy : SkillLoadPolicy; trusted_keys : TrustedKeys; loaded : list LoadedSkill;
}.

Definition set_loaded (l : list LoadedSkill) (ld : SkillLoader) : SkillLoader :=
  {| skills_dir := skills_dir ld; ld_policy := ld_policy ld; trusted_keys := trusted_keys ld; loaded := l |}.

Definition read_c_str (p : option (list ascii)) : string :=
  match p with None => "" | Some b => from_utf8_lossy b end.

Definition new_with_policy (dir : string) (policy : SkillLoadPolicy) : M W SkillLoader :=
  let! keys := load_from_dir (signature_key_dir policy) in
  ret {| skills_dir := dir; ld_policy := policy; trusted_keys := keys; loaded := [] |}.

(** From the symbol to the table. *)
Definition entry_point (path : string) (lib : L) : M W (result SkillVTable string) :=
  let! symbol := skill_init_symbol lib in
  match symbol with
  | Err e => ret (Err ("symbol 'genie_skill_init' not found in " +:+ path +:+ ": " +:+ e))
  | Ok _ =>
      let! vtable := call_skill_init lib in
      ret (ok_or vtable ("genie_skill_init returned null for " +:+ path))
  end.

(** From the table to the skill: the checks after the library is mapped. *)
Definition accept_vtable (ld : SkillLoader) (path : string) (source : ManifestSource) (signed : bool) (lib : L)
    (vtable : SkillVTable) : result LoadedSkill string :=
  let policy := ld_policy ld in
  if negb (abi_version vtable =? ABI_VERSION)%N then
    Err ("ABI version mismatch: skill has " +:+ show_N (abi_version vtable) +:+ ", core expects " +:+ show_N ABI_VERSION)
  else
    let name := read_c_str (vt_name vtable) in
    let description := read_c_str (vt_description vtable) in
    let version := read_c_str (vt_version vtable) in
    let parameters_json := read_c_str (vt_parameters_json vtable) in
    if is_empty name then Err ("skill in " +:+ path +:+ " has empty name")
    else if is_empty description then Err ("skill '" +:+ name +:+ "' has empty description")
    else match from_str parameters_json with
    | None => Err ("skill '" +:+ name +:+ "' has invalid parameters_json")
    | Some _ =>
        if existsb (fun s => String.eqb (sk_name s) name) (loaded ld) then
          Err ("skill '" +:+ name +:+ "' already loaded")
        else
          let manifest := build_manifest_audit source signed name version in
          let? _ := enforce_skill_policy manifest policy in
          Ok {| sk_name := name; sk_description := description; sk_version := version;
                sk_parameters_json := parameters_json; sk_path := path; sk_manifest := manifest;
                fault_count := 0; execution_timeout := skill_execution_timeout_ms policy; sk_lib := lib |}
    end.

Definition signature_required (path : string) (policy : SkillLoadPolicy) : string :=
  "skill signature required but not cryptographically verified for " +:+ path +:+
  " (need a trusted key in " +:+ signature_key_dir policy +:+ " and a matching detached signature)".

(** [load_skill], up to the push: the skill to add. *)
Definition open_skill (ld : SkillLoader) (path : string) : M W (result LoadedSkill string) :=
  let! source := read_manifest_source path in
  let! so_bytes := fs_read path in
  match so_bytes with
  | Err e => ret (Err ("failed to read " +:+ path +:+ ": " +:+ e))
  | Ok so_bytes =>
      let signed := source_signed so_bytes source (trusted_keys ld) in
      if require_signature (ld_policy ld) && negb signed then
        ret (Err (signature_required path (ld_policy ld)))
      else
        let label := default "genie-skill" (file_name path ≫= fun n => from_utf8 (bytes n)) in
        let!? lib := load_library_from_memfd so_bytes label in
        let!? vtable := entry_point path lib in
        ret (accept_vtable ld path source signed lib vtable)
  end.

Definition load_skill (path : string) (ld : SkillLoader) : M W (result string string * SkillLoader) :=
  let! skill := open_skill ld path in
  ret (match skill with
       | Ok s => (Ok (sk_name s), set_loaded (loaded ld ++ [s]) ld)
       | Err e => (Err e, ld)
       end).

(** The loop of [load_all] over the entries of the directory. *)
Fixpoint load_entries (paths loaded_names : list string) (ld : SkillLoader) : M W (list string * SkillLoader) :=
  match paths with
  | [] => ret (loaded_names, ld)
  | path :: paths =>
      match extension path with
      | Some "so" =>
          let! r := load_skill path ld in
          load_entries paths (match r.1 with Ok name => loaded_names ++ [name] | Err _ => loaded_names end) r.2
      | _ => load_entries paths loaded_names ld
      end
  end.

Definition load_all (ld : SkillLoader) : M W (list string * SkillLoader) :=
  let! found := fs_exists (skills_dir ld) in
  if negb found then ret ([], ld)
  else
    let! entries := fs_read_dir (skills_dir ld) in
    match entries with
    | Err _ => ret ([], ld)
    | Ok names => load_entries (path_join (skills_dir ld) <$> names) [] ld
    end.

Definition should_unload (s : LoadedSkill) : bool := (3 <=? fault_count s)%N.

Definition position (name : string) (l : list LoadedSkill) : option nat :=
  fst <$> list_find (fun s => String.eqb (sk_name s) name = true) l.

Definition unload (name : string) (ld : SkillLoader) : bool * SkillLoader :=
  match position name (loaded ld) with
  | Some i => (true, set_loaded (delete i (loaded ld)) ld)
  | None => (false, ld)
  end.

Definition prune_faulted (ld : SkillLoader) : list string * SkillLoader :=
  (sk_name <$> List.filter should_unload (loaded ld),
   set_loaded (List.filter (fun s => negb (should_unload s)) (loaded ld)) ld).

Definition count (ld : SkillLoader) : nat := length (loaded ld).

(** ** Calls *)

Record SkillInvocation := { iv_name : string; iv_args : string; iv_timeout : N; iv_lib : L }.
Record SkillOutcome := { oc_success : bool; oc_output : string; oc_faulted : bool }.

Definition fault (output : string) : SkillOutcome := {| oc_success := false; oc_output := output; oc_faulted := true |}.

(** [SkillInvocation::parse]. *)
Definition parse_outcome (json : string) : SkillOutcome :=
  match from_str json with
  | Some parsed =>
      let success := default false (get parsed "success" ≫= as_bool) in
      {| oc_success := success; oc_output := default json (get parsed "output" ≫= as_str);
         oc_faulted := negb success |}
  | None => {| oc_success := true; oc_output := json; oc_faulted := false |}
  end.

Definition prepare (s : LoadedSkill) (args_json : string) : SkillInvocation := {|
  iv_name := sk_name s; iv_args := c_string args_json; iv_timeout := execution_timeout s; iv_lib := sk_lib s |}.

(** [SkillInvocation::run]. *)
Definition run (iv : SkillInvocation) : M W SkillOutcome :=
  let! e := call_execute (iv_lib iv) (iv_args iv) (iv_timeout iv) in
  ret (match e with
       | Returned (Some json) => parse_outcome (from_utf8_lossy json)
       | Returned None => fault ("skill '" +:+ iv_name iv +:+ "' returned null")
       | Panicked e => fault ("skill '" +:+ iv_name iv +:+ "' panicked: " +:+ e)
       | Overran => fault ("skill '" +:+ iv_name iv +:+ "' exceeded execution timeout of " +:+
                           show_N (iv_timeout iv) +:+ " ms")
       end).

Definition count_fault (s : LoadedSkill) : LoadedSkill :=
  {| sk_name := sk_name s; sk_description := sk_description s; sk_version := sk_version s;
     sk_parameters_json := sk_parameters_json s; sk_path := sk_path s; sk_manifest := sk_manifest s;
     fault_count := u32_wrap (fault_count s + 1); execution_timeout := execution_timeout s; sk_lib := sk_lib s |}.

(** [get_mut(name)] and the count of the fault. *)
Definition fault_named (name : string) (ld : SkillLoader) : SkillLoader :=
  match position name (loaded ld) with
  | Some i => set_loaded (alter count_fault i (loaded ld)) ld
  | None => ld
  end.

(** [LoadedSkill::execute_parsed]. *)
Definition execute_parsed (s : LoadedSkill) (args_json : string) : M W (bool * string * LoadedSkill) :=
  let! o := run (prepare s args_json) in
  ret (oc_success o, oc_output o, if oc_faulted o then count_fault s else s).

Definition unknown_tool (name : string) : string := "unknown tool: " +:+ name.

(** [exec_skill], under the first lock. *)
Definition exec_begin (name : string) (args : value) (skills : option SkillLoader) : result SkillInvocation string :=
  let? ld := ok_or skills (unknown_tool name) in
  let? s := ok_or (find (fun s => String.eqb (sk_name s) name) (loaded ld)) (unknown_tool name) in
  Ok (prepare s (to_str args)).

(** Under the second lock. *)
Definition exec_complete (name : string) (o : SkillOutcome) (ld : SkillLoader) : SkillLoader :=
  (prune_faulted (if oc_faulted o then fault_named name ld else ld)).2.

Definition exec_skill (name : string) (args : value) (skills : option SkillLoader)
    : M W (result string string * option SkillLoader) :=
  match exec_begin name args skills with
  | Err e => ret (Err e, skills)
  | Ok iv =>
      let! o := run iv in
      ret (if oc_success o then Ok (oc_output o) else Err (oc_output o), exec_complete name o <$> skills)
  end.

Definition skill_tool_name_loaded (skills : option SkillLoader) (name : string) : bool :=
  match skills with
  | None => false
  | Some ld => existsb (fun s => String.eqb (sk_name s) name) (loaded ld)
  end.

Definition runtime_skill_description (s : LoadedSkill) : string :=
  if String.eqb (sk_name s) "hello_world" then
    "Demo greeting skill. Only use when the user explicitly asks you to say hello to someone or test the hello_world demo skill."
  else sk_description s.

(** The name, the description and the schema of each tool. *)
Definition skill_tool_defs (skills : option SkillLoader) : option (list (string * string * value)) :=
  (fun ld => (fun s => (sk_name s, runtime_skill_description s,
                        default (Object [("type", Str "object"); ("properties", Object [])])
                          (from_str (sk_parameters_json s)))) <$> loaded ld) <$> skills.

(** ** Interleaved calls *)

Record Host := { ho_loader : SkillLoader; ho_calls : list SkillInvocation; ho_world : W }.

Inductive step : Host -> Host -> Prop :=
| s_load h path r ld w :
    load_skill path (ho_loader h) (ho_world h) = ((r, ld), w) ->
    step h {| ho_loader := ld; ho_calls := ho_calls h; ho_world := w |}
| s_load_all h names ld w :
    load_all (ho_loader h) (ho_world h) = ((names, ld), w) ->
    step h {| ho_loader := ld; ho_calls := ho_calls h; ho_world := w |}
| s_unload h name :
    step h {| ho_loader := (unload name (ho_loader h)).2; ho_calls := ho_calls h; ho_world := ho_world h |}
| s_begin h name args iv :
    exec_begin name args (Some (ho_loader h)) = Ok iv ->
    step h {| ho_loader := ho_loader h; ho_calls := ho_calls h ++ [iv]; ho_world := ho_world h |}
| s_complete h i iv o w :
    ho_calls h !! i = Some iv ->
    run iv (ho_world h) = (o, w) ->
    step h {| ho_loader := exec_complete (iv_name iv) o (ho_loader h); ho_calls := delete i (ho_calls h); ho_world := w |}.

End loader.

(** ** What runs was signed *)

(** What is relied on of the host: a descriptor reads back what was written to
    it and is what [dlopen] maps; nothing else maps code.  [mapped] lists the
    code mapped by the loader so far, [contents] the bytes of a descriptor and
    [code] those of a library. *)
Class SkillHostLaws (W L : Type) `{SH : SkillHost W L} := {
  mapped : W -> list (list ascii);
  contents : W -> N -> option (list ascii);
  code : L -> list ascii;
  exists_maps p w : mapped (fs_exists p w).2 = mapped w;
  read_dir_maps p w : mapped (fs_read_dir p w).2 = mapped w;
  read_maps p w : mapped (fs_read p w).2 = mapped w;
  read_to_string_maps p w : mapped (fs_read_to_string p w).2 = mapped w;
  close_maps fd w : mapped (close_fd fd w).2 = mapped w;
  symbol_maps lib w : mapped (skill_init_symbol lib w).2 = mapped w;
  init_maps lib w : mapped (call_skill_init lib w).2 = mapped w;
  execute_maps lib args t w : mapped (call_execute lib args t w).2 = mapped w;
  create_maps l w : mapped (memfd_create l w).2 = mapped w;
  create_empty l w fd : (memfd_create l w).1 = Ok fd -> contents (memfd_create l w).2 fd = Some [];
  write_maps fd b w : mapped (memfd_write fd b w).2 = mapped w;
  write_appends fd b w c : contents w fd = Some c -> (memfd_write fd b w).1 = Ok tt ->
    contents (memfd_write fd b w).2 fd = Some (c ++ b);
  seal_maps fd w : mapped (memfd_seal fd w).2 = mapped w;
  seal_keeps fd w : contents (memfd_seal fd w).2 fd = contents w fd;
  dlopen_maps fd w b : contents w fd = Some b ->
    mapped (dlopen (fd_path fd) w).2 = mapped w \/ mapped (dlopen (fd_path fd) w).2 = mapped w ++ [b];
  dlopen_code fd w b lib : contents w fd = Some b -> (dlopen (fd_path fd) w).1 = Ok lib -> code lib = b;
}.

Section safety.
Context {W L : Type} `{SH : SkillHost W L} `{HL : !SkillHostLaws W L} `{EC : Ed25519} `{MD : ManifestDecoder} `{UT : Utf8} `{SD : Serde}.

(** A trusted key verifies a signature over the bytes. *)
Definition signed_by_trusted (keys : TrustedKeys) (b : list ascii) : Prop :=
  exists key_id key signature, keys !! key_id = Some key /\ verify_strict key b signature = true.

Lemma verified_is_signed keys key_id b sig : verify_detached keys key_id b sig = true -> signed_by_trusted keys b.
Proof.
  unfold verify_detached. destruct (_ || _); [done|]. destruct (keys !! trim key_id) as [key|] eqn:Hk; [|done].
  destruct (base64_decode (trim sig) ≫= signature_from_slice) as [s|]; [|done].
  intros Hv. by exists (trim key_id), key, s.
Qed.

Lemma source_signed_trusted b source keys : source_signed b source keys = true -> signed_by_trusted keys b.
Proof. destruct source; try done. apply verified_is_signed. Qed.

(** A computation maps only code of which [P] holds. *)
Definition maps {A} (P : list ascii -> Prop) (m : M W A) : Prop :=
  forall w, exists new, mapped (m w).2 = mapped w ++ new /\ Forall P new.

Lemma maps_quiet {A} P (m : M W A) : (forall w, mapped (m w).2 = mapped w) -> maps P m.
Proof. intros H w. exists []. by rewrite H, app_nil_r. Qed.
Lemma maps_ret {A} P (a : A) : maps P (ret a).
Proof. by apply maps_quiet. Qed.
Lemma maps_bind {A B} P (m : M W A) (f : A -> M W B) : maps P m -> (forall a, maps P (f a)) -> maps P (bind m f).
Proof.
  intros Hm Hf w. rewrite bind_run. destruct (Hm w) as (n1 & E1 & F1). destruct (Hf (m w).1 (m w).2) as (n2 & E2 & F2).
  exists (n1 ++ n2). rewrite E2, E1, (assoc_L (++)). split; [done|]. by apply Forall_app.
Qed.
Lemma maps_ebind {A B E} P (m : M W (result A E)) (f : A -> M W (result B E)) :
  maps P m -> (forall a, maps P (f a)) -> maps P (ebind m f).
Proof.
  intros Hm Hf w. destruct (maps_bind P m (fun r => match r with Ok a => f a | Err e => ret (Err e) end)) with (w := w)
    as (n & En & Fn); [done|by intros [a|e]; [|apply maps_ret]|].
  exists n. split; [|done]. rewrite <- En. unfold ebind, bind. by destruct (m w) as [[a|e] w'].
Qed.

Hint Resolve exists_maps read_dir_maps read_maps read_to_string_maps close_maps symbol_maps init_maps
  execute_maps create_maps write_maps seal_maps : quiet.
Hint Resolve maps_ret maps_quiet : quiet.
Ltac quiet := repeat first [apply maps_bind; intros | apply maps_ebind; intros | case_match | progress eauto with quiet].

Lemma read_source_maps P path : maps P (read_manifest_source path).
Proof.
  unfold read_manifest_source, find_manifest_sidecar. apply maps_bind; [|intros; quiet].
  induction (manifest_sidecar_candidates path) as [|p ps IH]; cbn [first_existing]; quiet.
Qed.
Lemma load_keys_maps P entries keys : maps P (load_keys entries keys).
Proof.
  revert keys. induction entries as [|p entries IH]; intros keys; cbn [load_keys]; [apply maps_ret|].
  repeat (case_match; try apply IH). apply maps_bind; [by eauto with quiet|intros; apply IH].
Qed.

(** The library that is mapped is the bytes that were read. *)
Lemma memfd_maps b label w :
  (mapped (load_library_from_memfd b label w).2 = mapped w \/ mapped (load_library_from_memfd b label w).2 = mapped w ++ [b])
  /\ (forall lib, (load_library_from_memfd b label w).1 = Ok lib -> code lib = b).
Proof.
  unfold load_library_from_memfd. rewrite bind_run.
  pose proof (create_maps (c_string label) w) as Hc. pose proof (create_empty (c_string label) w) as He.
  destruct (memfd_create (c_string label) w) as [[fd|e] w1]; cbn in *; [|split; [by left|done]].
  specialize (He fd eq_refl). rewrite bind_run.
  pose proof (write_maps fd b w1) as Hw. pose proof (write_appends fd b w1 [] He) as Ha.
  destruct (memfd_write fd b w1) as [[[]|e] w2]; cbn in *.
  2: { rewrite bind_run. cbn. rewrite close_maps. split; [left; congruence|done]. }
  specialize (Ha eq_refl). rewrite bind_run.
  pose proof (seal_maps fd w2) as Hs. pose proof (seal_keeps fd w2) as Hk.
  destruct (memfd_seal fd w2) as [[[]|e] w3]; cbn in *.
  2: { rewrite bind_run. cbn. rewrite close_maps. split; [left; congruence|done]. }
  rewrite !bind_run. cbn. rewrite close_maps. rewrite Ha in Hk.
  pose proof (dlopen_maps fd w3 b Hk) as Hm. pose proof (dlopen_code fd w3 b) as Hl.
  assert (mapped w3 = mapped w) as E by congruence. rewrite <- E. split; [done|].
  intros lib. destruct (dlopen (fd_path fd) w3).1 eqn:Eq; [|done]. cbn. intros [= <-]. by apply Hl.
Qed.
(** What [load_skill] maps is signed, where a signature is required, and so is
    what it loads. *)
Lemma open_skill_maps ld path : require_signature (ld_policy ld) = true ->
  maps (signed_by_trusted (trusted_keys ld)) (open_skill ld path).
Proof.
  intros Hreq. unfold open_skill. apply maps_bind; [apply read_source_maps|]. intros source.
  apply maps_bind; [by eauto with quiet|]. intros [so|e]; [|apply maps_ret]. cbv zeta. rewrite Hreq. cbn [andb].
  destruct (source_signed so source (trusted_keys ld)) eqn:Hs; cbn [negb]; [|apply maps_ret].
  apply source_signed_trusted in Hs. apply maps_ebind.
  - intros w. destruct (memfd_maps so (default "genie-skill" (file_name path ≫= fun n => from_utf8 (bytes n))) w) as [[E|E] _].
    + exists []. by rewrite E, app_nil_r.
    + exists [so]. split; [done|]. by constructor.
  - intros lib. apply maps_ebind; [|intros; apply maps_ret]. unfold entry_point. quiet.
Qed.

(** ** What is loaded obeys the policy *)

(** Of a skill, its faults apart. *)
Record acceptable (policy : SkillLoadPolicy) (keys : TrustedKeys) (s : LoadedSkill) : Prop := {
  acc_name : sk_name s <> "";
  acc_described : sk_description s <> "";
  acc_schema : exists v, from_str (sk_parameters_json s) = Some v;
  acc_manifest : require_manifest policy = true ->
    sa_status (sk_manifest s) = "ok" /\ sa_name (sk_manifest s) = sk_name s /\ sa_version (sk_manifest s) = sk_version s;
  acc_permissions : forall p, p ∈ sa_permissions (sk_manifest s) -> p ∉ denied_permissions policy;
  acc_marked : sa_signed (sk_manifest s) = true -> signed_by_trusted keys (code (sk_lib s));
  acc_signed : require_signature policy = true -> sa_signed (sk_manifest s) = true;
}.

Lemma field_problem_nil field claimed loaded : field_problem field claimed loaded = [] -> claimed = loaded.
Proof.
  unfold field_problem. destruct (is_empty (trim claimed)); [done|].
  destruct (String.eqb_spec claimed loaded); [done|]. by intros [=].
Qed.

Lemma audit_ok_matches source signed n v :
  sa_status (build_manifest_audit source signed n v) = "ok" ->
  sa_name (build_manifest_audit source signed n v) = n /\ sa_version (build_manifest_audit source signed n v) = v.
Proof.
  destruct source as [|p e|p m]; [by intros [=]..|]. cbn.
  destruct (field_problem "name" _ _ ++ _) eqn:E; [|by intros [=]]. intros _.
  apply app_eq_nil in E as [E1%field_problem_nil E2%field_problem_nil]. done.
Qed.

Lemma audit_signed source signed n v so keys : source_signed so source keys = signed ->
  sa_signed (build_manifest_audit source signed n v) = signed.
Proof. destruct source; cbn; congruence. Qed.

Lemma enforce_ok m policy : enforce_skill_policy m policy = Ok tt ->
  (require_manifest policy = true -> sa_status m = "ok") /\ (forall p, p ∈ sa_permissions m -> p ∉ denied_permissions policy).
Proof.
  unfold enforce_skill_policy. intros H. destruct (require_manifest policy && negb (String.eqb (sa_status m) "ok")) eqn:E; [done|].
  split.
  - intros Hr. rewrite Hr in E. cbn in E. by apply negb_false_iff, String.eqb_eq in E.
  - intros p Hp Hd. destruct (List.filter _ (sa_permissions m)) eqn:F; [|done].
    assert (In p []) as [].
    rewrite <- F. apply filter_In. split; [by apply list_elem_of_In|]. unfold is_one_of. by apply eqb_elem.
Qed.

Lemma accept_vtable_ok ld path source so lib v s :
  (source_signed so source (trusted_keys ld) = true -> code lib = so) ->
  (require_signature (ld_policy ld) = true -> source_signed so source (trusted_keys ld) = true) ->
  accept_vtable (L := L) ld path source (source_signed so source (trusted_keys ld)) lib v = Ok s ->
  acceptable (ld_policy ld) (trusted_keys ld) s /\ sk_lib s = lib /\ fault_count s = 0%N /\
  sk_name s ∉ sk_name <$> loaded ld.
Proof.
  intros Hcode Hreq. unfold accept_vtable.
  destruct (negb _); [done|]. destruct (is_empty (read_c_str (vt_name v))) eqn:Hn; [done|].
  destruct (is_empty (read_c_str (vt_description v))) eqn:Hd; [done|].
  destruct (from_str _) eqn:Hp; [|done]. destruct (existsb _ _) eqn:Hdup; [done|].
  intros H. apply rbind_ok in H as ([] & He & H). injection H as <-. cbn.
  apply enforce_ok in He as [Hm Hperm].
  assert (forall x, is_empty x = false -> x <> "") as Hne by (by intros x Hx ->).
  split; [|split; [done|split; [done|]]].
  - split; cbn; [by apply Hne|by apply Hne|by eauto| |done| |].
    + intros Hr. specialize (Hm Hr). split; [done|]. by apply audit_ok_matches in Hm.
    + erewrite audit_signed by done. intros Hs. rewrite (Hcode Hs). by apply source_signed_trusted in Hs.
    + intros Hr. by erewrite audit_signed by done; auto.
  - intros (s & Es & Hin)%list_elem_of_fmap. apply not_true_iff_false in Hdup. apply Hdup.
    apply existsb_elem. exists s. split; [done|]. by apply String.eqb_eq.
Qed.

Lemma open_skill_ok ld path w s : (open_skill ld path w).1 = Ok s ->
  acceptable (ld_policy ld) (trusted_keys ld) s /\ fault_count s = 0%N /\ sk_name s ∉ sk_name <$> loaded ld.
Proof.
  unfold open_skill. rewrite !bind_run.
  set (source := (read_manifest_source path w).1). set (w1 := (read_manifest_source path w).2).
  destruct (fs_read path w1) as [[so|e] w2]; cbn [fst snd]; [|done]. cbv zeta.
  destruct (require_signature (ld_policy ld) && negb (source_signed so source (trusted_keys ld))) eqn:Hreq; [done|].
  unfold ebind. set (label := default _ _). pose proof (memfd_maps so label w2) as [_ Hc].
  destruct (load_library_from_memfd so label w2) as [[lib|e] w3]; [|done].
  specialize (Hc lib eq_refl). destruct (entry_point path lib w3) as [[v|e] w4]; [|done]. cbn.
  intros H. apply accept_vtable_ok in H as (Ha & _ & Hf & Hn); [done|done|].
  intros Hr. rewrite Hr in Hreq. by apply negb_false_iff in Hreq.
Qed.

(** ** Every history *)

(** The invariant of a host: of the code mapped since [base], of the skills,
    and of the calls under way. *)
Record host_ok (policy : SkillLoadPolicy) (keys : TrustedKeys) (base : list (list ascii)) (h : Host) : Prop := {
  ho_policy : ld_policy (ho_loader h) = policy;
  ho_keys : trusted_keys (ho_loader h) = keys;
  ho_mapped : require_signature policy = true -> exists new, mapped (ho_world h) = base ++ new /\ Forall (signed_by_trusted keys) new;
  ho_skills : Forall (acceptable policy keys) (loaded (ho_loader h));
  ho_faults : Forall (fun s => fault_count s < 3)%N (loaded (ho_loader h));
  ho_names : NoDup (sk_name <$> loaded (ho_loader h));
  ho_running : require_signature policy = true -> Forall (fun iv => signed_by_trusted keys (code (iv_lib iv))) (ho_calls h);
}.

Lemma load_skill_step policy keys base calls path ld w : host_ok policy keys base {| ho_loader := ld; ho_calls := calls; ho_world := w |} ->
  host_ok policy keys base {| ho_loader := (load_skill path ld w).1.2; ho_calls := calls; ho_world := (load_skill path ld w).2 |}.
Proof.
  intros [Hp Hk Hm Hs Hf Hn Hr]. cbn in *. unfold load_skill. rewrite bind_run.
  pose proof (open_skill_ok ld path w) as Ho. rewrite Hp, Hk in Ho.
  assert (require_signature policy = true -> exists new, mapped (open_skill ld path w).2 = base ++ new /\ Forall (signed_by_trusted keys) new) as Hm'.
  { intros Hq. destruct (Hm Hq) as (n1 & E1 & F1). pose proof (open_skill_maps ld path) as Hx. rewrite Hp, Hk in Hx.
    destruct (Hx Hq w) as (n2 & E2 & F2). exists (n1 ++ n2). rewrite E2, E1, (assoc_L (++)). split; [done|by apply Forall_app]. }
  destruct (open_skill ld path w) as [[s|e] w']; cbn in *; [|by split].
  destruct (Ho s eq_refl) as (Ha & Hz & Hnew). split; cbn; try done.
  - apply Forall_app. split; [done|]. by constructor.
  - apply Forall_app. split; [done|]. constructor; [|done]. rewrite Hz. done.
  - rewrite fmap_app. apply NoDup_app. split; [done|]. split; [|apply NoDup_singleton].
    intros x Hx ->%list_elem_of_singleton. done.
Qed.

Section history.
Context (policy : SkillLoadPolicy) (keys : TrustedKeys) (base : list (list ascii)).
Notation ok := (host_ok policy keys base).

(** A quiet world, and the skills that are left of those that were. *)
Lemma host_ok_world ld ld' calls calls' w w' : ok {| ho_loader := ld; ho_calls := calls; ho_world := w |} ->
  mapped w' = mapped w -> ld' = set_loaded (loaded ld') ld ->
  Forall (acceptable policy keys) (loaded ld') -> Forall (fun s => fault_count s < 3)%N (loaded ld') ->
  NoDup (sk_name <$> loaded ld') ->
  (require_signature policy = true -> Forall (fun iv => signed_by_trusted keys (code (iv_lib iv))) calls') ->
  ok {| ho_loader := ld'; ho_calls := calls'; ho_world := w' |}.
Proof.
  intros [Hp Hk Hm _ _ _ _] Hw Hl. cbn in *. split; cbn; [|..|done|done|done|done].
  - by rewrite Hl.
  - by rewrite Hl.
  - by rewrite Hw.
Qed.

Lemma load_entries_step paths names ld calls w : ok {| ho_loader := ld; ho_calls := calls; ho_world := w |} ->
  ok {| ho_loader := (load_entries paths names ld w).1.2; ho_calls := calls; ho_world := (load_entries paths names ld w).2 |}.
Proof.
  revert names ld w. induction paths as [|path paths IH]; intros names ld w Hok; [done|].
  cbn [load_entries]. repeat (case_match; try (by apply IH)).
  rewrite bind_run. apply IH. by apply load_skill_step.
Qed.

Lemma load_all_step ld calls w : ok {| ho_loader := ld; ho_calls := calls; ho_world := w |} ->
  ok {| ho_loader := (load_all ld w).1.2; ho_calls := calls; ho_world := (load_all ld w).2 |}.
Proof.
  intros Hok. unfold load_all. rewrite bind_run. pose proof (exists_maps (skills_dir ld) w) as E1.
  destruct (fs_exists (skills_dir ld) w) as [found w1]. cbn in E1 |- *.
  assert (forall w', mapped w' = mapped w -> ok {| ho_loader := ld; ho_calls := calls; ho_world := w' |}) as Hq.
  { intros w' Hw. destruct Hok as [? ? Hm ? ? ? ?]. split; try done. cbn. by rewrite Hw. }
  destruct found; cbn [negb]; [|by apply Hq]. rewrite bind_run.
  pose proof (read_dir_maps (skills_dir ld) w1) as E2. destruct (fs_read_dir (skills_dir ld) w1) as [[names|e] w2]; cbn in E2 |- *.
  - apply load_entries_step, Hq. congruence.
  - apply Hq. congruence.
Qed.

Lemma filter_sublist {A} (f : A -> bool) l : List.filter f l `sublist_of` l.
Proof. induction l as [|x l IH]; cbn; [done|]. destruct (f x); by constructor. Qed.

Lemma Forall_sub {A} (P : A -> Prop) l k : l `sublist_of` k -> Forall P k -> Forall P l.
Proof. induction 1; [done|..]; inversion 1; subst; auto. Qed.

Lemma sublist_names (l k : list LoadedSkill) : l `sublist_of` k -> NoDup (sk_name (L := L) <$> k) -> NoDup (sk_name <$> l).
Proof. intros Hs Hn. eapply sublist_NoDup; [exact Hn|]. clear Hn. induction Hs; cbn; by constructor. Qed.

Lemma unload_step name ld calls w : ok {| ho_loader := ld; ho_calls := calls; ho_world := w |} ->
  ok {| ho_loader := (unload name ld).2; ho_calls := calls; ho_world := w |}.
Proof.
  intros Hok. unfold unload. destruct (position name (loaded ld)) as [i|]; [|done].
  pose proof (sublist_delete (loaded ld) i) as Hs. pose proof Hok as [? ? ? Ha Hf Hn Hr]. cbn in *.
  eapply host_ok_world; [exact Hok|done|done|..|done]; cbn.
  - by eapply Forall_sub.
  - by eapply Forall_sub.
  - by eapply sublist_names.
Qed.

Lemma begin_library name args ld iv : exec_begin (L := L) name args (Some ld) = Ok iv ->
  exists s : LoadedSkill (L := L), s ∈ loaded ld /\ iv_lib iv = sk_lib s /\ iv_name iv = sk_name s.
Proof.
  unfold exec_begin. cbn. intros (s & Hs & H)%rbind_ok. apply ok_or_ok in Hs. apply find_some in Hs as [Hs _].
  injection H as <-. exists s. split; [by apply list_elem_of_In|done].
Qed.

Lemma begin_step name args ld calls w iv : exec_begin (L := L) name args (Some ld) = Ok iv ->
  ok {| ho_loader := ld; ho_calls := calls; ho_world := w |} ->
  ok {| ho_loader := ld; ho_calls := calls ++ [iv]; ho_world := w |}.
Proof.
  intros (s & Hs & Hl & _)%begin_library Hok. pose proof Hok as [? ? ? Ha Hf Hn Hr]. cbn in *.
  eapply host_ok_world; [exact Hok|try done..]; [by destruct ld|].
  intros Hq. apply Forall_app. split; [by apply Hr|]. constructor; [|done]. rewrite Hl.
  eapply Forall_forall in Ha; [|exact Hs]. by apply (acc_marked _ _ _ Ha), (acc_signed _ _ _ Ha).
Qed.

Lemma count_fault_acceptable s : acceptable policy keys s -> acceptable policy keys (count_fault s).
Proof. by intros []; split. Qed.

Lemma complete_step name o ld calls calls' w w' : ok {| ho_loader := ld; ho_calls := calls; ho_world := w |} ->
  mapped w' = mapped w -> calls' `sublist_of` calls ->
  ok {| ho_loader := exec_complete name o ld; ho_calls := calls'; ho_world := w' |}.
Proof.
  intros Hok Hw Hc. pose proof Hok as [? ? ? Ha Hf Hn Hr]. cbn in *. unfold exec_complete.
  set (ld1 := if oc_faulted o then fault_named name ld else ld).
  assert (ld1 = set_loaded (loaded ld1) ld /\ Forall (acceptable policy keys) (loaded ld1) /\ NoDup (sk_name <$> loaded ld1)) as (E & Ha1 & Hn1).
  { subst ld1. destruct (oc_faulted o); [|by destruct ld]. unfold fault_named.
    destruct (position name (loaded ld)) as [i|]; [|by destruct ld]. split; [done|]. cbn. split.
    - apply Forall_alter; [done|]. intros s Hs Has. by apply count_fault_acceptable.
    - assert (sk_name (L := L) <$> alter count_fault i (loaded ld) = sk_name <$> loaded ld) as ->; [|done].
      apply list_eq. intros j. rewrite !list_lookup_fmap. destruct (decide (i = j)) as [->|Hij].
      + rewrite list_lookup_alter_eq. by destruct (loaded ld !! j).
      + by rewrite list_lookup_alter_ne. }
  pose proof (filter_sublist (fun s => negb (should_unload s)) (loaded ld1)) as Hs.
  eapply host_ok_world; [exact Hok|exact Hw|by rewrite E|..]; cbn.
  - by eapply Forall_sub.
  - apply Forall_forall. intros s [_ Hu]%list_elem_of_In%filter_In. unfold should_unload in Hu.
    apply negb_true_iff, N.leb_gt in Hu. lia.
  - by eapply sublist_names.
  - intros Hq. eapply Forall_sub; [exact Hc|by apply Hr].
Qed.

Lemma run_quiet iv w : mapped (run iv w).2 = mapped w.
Proof. unfold run. rewrite bind_run. cbn. apply execute_maps. Qed.

Lemma step_keeps h h' : step h h' -> ok h -> ok h'.
Proof.
  destruct 1 as [[ld cs w] path r ld' w' E|[ld cs w] names ld' w' E|[ld cs w] name|[ld cs w] name args iv E|[ld cs w] i iv o w' Hi E];
    cbn [ho_loader ho_calls ho_world] in *; intros Hok.
  - apply (load_skill_step _ _ _ _ path) in Hok. by rewrite E in Hok.
  - apply load_all_step in Hok. by rewrite E in Hok.
  - by apply unload_step.
  - by eapply begin_step.
  - eapply complete_step; [exact Hok| |apply sublist_delete]. by rewrite <- (run_quiet iv w), E.
Qed.

Lemma steps_keep h h' : rtc step h h' -> ok h -> ok h'.
Proof. induction 1 as [|h1 h2 h3 Hs _ IH]; [done|]. intros Hok. apply IH. by eapply step_keeps. Qed.

End history.

(** The host before anything is loaded. *)
Definition started (ld : SkillLoader (L := L)) (w : W) : Host := {| ho_loader := ld; ho_calls := []; ho_world := w |}.

Lemma started_ok dir policy w0 : let '(ld, w) := new_with_policy dir policy w0 in
  host_ok policy (trusted_keys ld) (mapped w0) (started ld w).
Proof.
  unfold new_with_policy. rewrite bind_run. set (m := load_from_dir (signature_key_dir policy)). cbn.
  split; cbn; [done|done| |done|done|constructor|done]. intros _.
  assert (maps (fun _ => False) m) as Hm; [|by destruct (Hm w0) as (n & E & F); exists n; split; [|apply (Forall_impl _ _ _ F)]].
  unfold m, load_from_dir. apply maps_bind; [by eauto with quiet|]. intros [names|e]; [|apply maps_ret]. apply load_keys_maps.
Qed.

(** C15: Where signatures are required, the loader has mapped no code but bytes
    over which one of its trusted keys verifies a signature, in every
    interleaving of loads, unloads and calls; and every skill it offers and
    every call under way is of such code, so marked in its audit. *)
Theorem mapped_code_was_signed dir policy (w0 : W) h :
  let '(ld, w) := new_with_policy dir policy w0 in
  require_signature policy = true -> rtc step (started ld w) h ->
  (exists new, mapped (ho_world h) = mapped w0 ++ new /\ Forall (signed_by_trusted (trusted_keys ld)) new) /\
  Forall (fun s : LoadedSkill => sa_signed (sk_manifest s) = true /\ signed_by_trusted (trusted_keys ld) (code (sk_lib s)))
         (loaded (ho_loader h)) /\
  Forall (fun iv => signed_by_trusted (trusted_keys ld) (code (iv_lib iv))) (ho_calls h).
Proof.
  pose proof (started_ok dir policy w0) as H0. destruct (new_with_policy dir policy w0) as [ld w]. intros Hreq Hs.
  pose proof (steps_keep _ _ _ _ _ Hs H0) as [_ _ Hm Ha _ _ Hr]. split; [by apply Hm|]. split; [|by apply Hr].
  eapply Forall_impl; [exact Ha|]. intros s Hacc. pose proof (acc_signed _ _ _ Hacc Hreq) as Hs'.
  split; [done|]. by apply (acc_marked _ _ _ Hacc).
Qed.

(** C16: Under every policy and interleaving, the skills that are offered have
    distinct names and readable schemas, fewer than three faults, no permission
    that is denied, an audit that says signed only of verified bytes, and, where
    a manifest is required, one that names the skill and its version. *)
Theorem loaded_skills_obey_the_policy dir policy (w0 : W) h :
  let '(ld, w) := new_with_policy dir policy w0 in
  rtc step (started ld w) h ->
  NoDup (sk_name <$> loaded (ho_loader h)) /\
  Forall (fun s => acceptable policy (trusted_keys ld) s /\ (fault_count s < 3)%N) (loaded (ho_loader h)).
Proof.
  pose proof (started_ok dir policy w0) as H0. destruct (new_with_policy dir policy w0) as [ld w]. intros Hs.
  pose proof (steps_keep _ _ _ _ _ Hs H0) as [_ _ _ Ha Hf Hn _]. split; [done|]. by apply Forall_and.
Qed.

End safety.

(** ** A host on given data *)

(** A directory with one skill and its manifest; the bytes of the library are
    its own table, a signature is the bytes signed, and calls end as listed. *)
Record ToyHost := { th_mapped : list (list ascii); th_fd : list ascii; th_ends : list CallEnd }.
Definition toy_code : list ascii := bytes "elf".
Definition toy_table : SkillVTable := {|
  abi_version := 1; vt_name := Some (bytes "hello"); vt_description := Some (bytes "Says hello");
  vt_version := Some (bytes "1.0"); vt_parameters_json := Some (bytes "{}") |}.
Definition toy_manifest : SkillManifest := {|
  mf_name := "hello"; mf_version := "1.0"; mf_description := ""; mf_permissions := ["network.http"];
  mf_capabilities := []; mf_reviewed_by := ""; mf_signature := "elf"; mf_key_id := "shop" |}.
Definition toy_files : list (string * string) :=
  [("/skills/hello.so", "elf"); ("/skills/hello.skill.json", "{}"); ("/keys/shop.pub", "0123456789abcdef0123456789abcdef")].

#[local] Instance toy_crypto : Ed25519 := {|
  VerifyingKey := list ascii; base64_decode s := Some (bytes s); key_from_bytes b := Some b;
  Signature := list ascii; signature_from_slice b := Some b; verify_strict _ m s := bool_decide (m = s) |}.
#[local] Instance toy_decoder : ManifestDecoder := {| parse_manifest _ := Ok toy_manifest |}.
#[local] Instance toy_utf8 : Utf8 := {| from_utf8_lossy := of_bytes; from_utf8 b := Some (of_bytes b) |}.
#[local] Instance toy_serde : Serde := {| from_str _ := Some (Object []); to_str _ := "{}" |}.

Definition toy_read (p : string) : result string string := ok_or (assoc p toy_files) "not found".
#[local] Instance toy_host : SkillHost ToyHost (list ascii) := {|
  fs_exists p w := (bool_decide (p = "/skills") || is_ok (toy_read p), w);
  fs_read_dir d w := (if String.eqb d "/keys" then Ok ["shop.pub"] else Ok ["hello.skill.json"; "hello.so"], w);
  fs_read p w := (let? s := toy_read p in Ok (bytes s), w);
  fs_read_to_string p w := (toy_read p, w);
  memfd_create _ w := (Ok 3%N, {| th_mapped := th_mapped w; th_fd := []; th_ends := th_ends w |});
  memfd_write _ b w := (Ok tt, {| th_mapped := th_mapped w; th_fd := th_fd w ++ b; th_ends := th_ends w |});
  memfd_seal _ w := (Ok tt, w);
  close_fd _ w := (tt, w);
  dlopen _ w := (Ok (th_fd w), {| th_mapped := th_mapped w ++ [th_fd w]; th_fd := th_fd w; th_ends := th_ends w |});
  skill_init_symbol _ w := (Ok tt, w);
  call_skill_init _ w := (Some toy_table, w);
  call_execute _ _ _ w :=
    (default Overran (head (th_ends w)), {| th_mapped := th_mapped w; th_fd := th_fd w; th_ends := tail (th_ends w) |}) |}.

#[local] Instance toy_laws : SkillHostLaws ToyHost (list ascii).
Proof.
  refine {| mapped := th_mapped; contents w _ := Some (th_fd w); code lib := lib |}; try done.
  - cbn. by intros _ b w c [= <-] _.
  - intros fd w b [= <-]. by right.
  - cbn. intros fd w b lib [= <-] [= <-]. done.
Defined.

Definition toy_policy (denied : list string) (signature : bool) : SkillLoadPolicy := {|
  require_manifest := true; require_signature := signature; denied_permissions := denied;
  signature_key_dir := "/keys"; skill_execution_timeout_ms := 30000 |}.
Definition toy_start (ends : list CallEnd) : ToyHost := {| th_mapped := []; th_fd := []; th_ends := ends |}.

(** The skill is loaded, and gone after three calls that overran. *)
Definition toy_run (policy : SkillLoadPolicy) : list (result string string) * nat :=
  let '(ld, w) := new_with_policy "/skills" policy (toy_start []) in
  let '((_, ld), w) := load_all ld w in
  let '((r1, s), w) := exec_skill "hello" Null (Some ld) w in
  let '((r2, s), w) := exec_skill "hello" Null s w in
  let '((r3, s), w) := exec_skill "hello" Null s w in
  let '((r4, s), w) := exec_skill "hello" Null s w in
  ([r1; r2; r3; r4], match s with Some ld => count ld | None => 0 end).

Example three_timeouts_unload :
  toy_run (toy_policy [] true) =
    (replicate 3 (Err "skill 'hello' exceeded execution timeout of 30000 ms") ++ [Err "unknown tool: hello"], 0).
Proof. vm_compute. reflexivity. Qed.

Example denied_permission_is_refused :
  (let '(ld, w) := new_with_policy "/skills" (toy_policy ["network.http"] true) (toy_start []) in
   (load_skill "/skills/hello.so" ld w).1.1) = Err "skill requests denied permission(s): network.http".
Proof. vm_compute. reflexivity. Qed.

(** Without its manifest, the same library is loaded whatever is denied. *)
Example no_manifest_no_denial :
  is_ok (accept_vtable (L := list ascii)
           {| skills_dir := "/skills"; trusted_keys := ∅; loaded := [];
              ld_policy := {| require_manifest := false; require_signature := false; denied_permissions := ["network.http"];
                              signature_key_dir := "/keys"; skill_execution_timeout_ms := 30000 |} |}
           "/skills/hello.so" Missing false toy_code toy_table) = true.
Proof. vm_compute. reflexivity. Qed.

Definition toy_loaded (policy : SkillLoadPolicy) : Host :=
  let '(ld, w) := new_with_policy "/skills" policy (toy_start []) in
  let r := load_all ld w in {| ho_loader := r.1.2; ho_calls := []; ho_world := r.2 |}.

Lemma toy_reached policy : let '(ld, w) := new_with_policy "/skills" policy (toy_start []) in
  rtc step (started ld w) (toy_loaded policy).
Proof.
  unfold toy_loaded. destruct (new_with_policy "/skills" policy (toy_start [])) as [ld w].
  destruct (load_all ld w) as [[names ld'] w'] eqn:E. apply rtc_once. by apply (s_load_all (started ld w) names).
Qed.

Lemma mapped_code_was_signed_witness :
  mapped (ho_world (toy_loaded (toy_policy [] true))) = [toy_code] /\
  Forall (fun s : LoadedSkill => sa_signed (sk_manifest s) = true) (loaded (ho_loader (toy_loaded (toy_policy [] true)))) /\
  count (ho_loader (toy_loaded (toy_policy [] true))) = 1.
Proof.
  split; [vm_compute; reflexivity|]. split; [|vm_compute; reflexivity].
  pose proof (mapped_code_was_signed "/skills" (toy_policy [] true) (toy_start []) (toy_loaded (toy_policy [] true))) as H.
  pose proof (toy_reached (toy_policy [] true)) as Hr.
  destruct (new_with_policy "/skills" (toy_policy [] true) (toy_start [])) as [ld w].
  destruct (H eq_refl Hr) as (_ & Hs & _). eapply Forall_impl; [exact Hs|]. intros s [E _]. exact E.
Defined.

Lemma loaded_skills_obey_the_policy_witness :
  (sk_name <$> loaded (ho_loader (toy_loaded (toy_policy ["filesystem.write"] false)))) = ["hello"] /\
  Forall (fun s : LoadedSkill => (fault_count s < 3)%N) (loaded (ho_loader (toy_loaded (toy_policy ["filesystem.write"] false)))).
Proof.
  split; [vm_compute; reflexivity|].
  pose proof (loaded_skills_obey_the_policy "/skills" (toy_policy ["filesystem.write"] false) (toy_start [])
                (toy_loaded (toy_policy ["filesystem.write"] false))) as H.
  pose proof (toy_reached (toy_policy ["filesystem.write"] false)) as Hr.
  destruct (new_with_policy "/skills" (toy_policy ["filesystem.write"] false) (toy_start [])) as [ld w].
  destruct (H Hr) as (_ & Hs). eapply Forall_impl; [exact Hs|]. intros s [_ E]. exact E.
Defined.
