(* ===== verification/Ota.v ===== *)
(** * Updates ([core/ota/mod.rs])

    The check for a newer release and the copies of the binaries.  Versions are
    ordered as semantic versions are: the comparison is a total preorder, so
    "newer" is a strict weak order.  The network is [curl], a process. *)

From Stdlib Require Import Ascii String.
From S2P Require Import Prelude RustStr RustNum Json HttpFraming MemoryCanon LlmClient.
Local Open Scope string_scope.
Local Open Scope list_scope.
Local Open Scope rust_scope.

Definition GITHUB_REPO : string := "GeniePod/genie-claw".
(** [CARGO_PKG_VERSION] of the workspace. *)
Definition CURRENT_VERSION : string := "1.0.0-rc.4".

(** ** Versions *)

Record SemVer := { core : N * N * N; pre : list string }.

Definition parse_semver (s : string) : SemVer :=
  let s := trim s in
  let s := default s (strip_prefix s "v") in
  let s := default s (head (split_char s "+")) in
  let '(core_str, pre_str) :=
    match split_once s "-" with Some (c, p) => (c, Some p) | None => (s, None) end in
  let nums := (fun p => default 0%N (parse_u32 (trim p))) <$> split_char core_str "." in
  let num i := default 0%N (nums !! i) in
  {| core := (num 0, num 1, num 2);
     pre := match pre_str with
            | Some p => if is_empty p then [] else split_char p "."
            | None => []
            end |}.

Definition compare_pre_identifier (a b : string) : comparison :=
  match parse_u64 a, parse_u64 b with
  | Some an, Some bn => N.compare an bn
  | Some _, None => Lt
  | None, Some _ => Gt
  | None, None => String.compare a b
  end.

(** [Ordering::then] and the order of tuples. *)
Definition then_cmp (c d : comparison) : comparison := match c with Eq => d | _ => c end.
Definition compare_core (a b : N * N * N) : comparison :=
  then_cmp (N.compare a.1.1 b.1.1) (then_cmp (N.compare a.1.2 b.1.2) (N.compare a.2 b.2)).

(** The loop over the zipped identifiers, and the lengths. *)
Fixpoint compare_zipped (l k : list string) : comparison :=
  match l, k with
  | a :: l, b :: k => then_cmp (compare_pre_identifier a b) (compare_zipped l k)
  | _, _ => Eq
  end.

Definition compare_semver (a b : SemVer) : comparison :=
  then_cmp (compare_core (core a) (core b))
    (match pre a, pre b with
     | [], [] => Eq
     | [], _ => Gt
     | _, [] => Lt
     | l, k => then_cmp (compare_zipped l k) (Nat.compare (length l) (length k))
     end).

Definition version_is_newer (latest current : string) : bool :=
  match compare_semver (parse_semver latest) (parse_semver current) with Gt => true | _ => false end.

(** ** The check *)

Record ReleaseInfo := {
  tag_name : string; version : string; published_at : string; download_url : option string; rl_body : string;
}.
Record UpdateStatus := {
  current_version : string; latest_version : option string; update_available : bool; last_check : option string;
}.

Record ProcessOutput := { po_success : bool; po_stdout : list ascii; po_stderr : list ascii }.

(** A process run under a deadline, and the local calendar. *)
Class Processes (W : Type) := { run_curl : list string -> M W (attempt ProcessOutput) }.
Record Tm := { tm_year : Z; tm_mon : Z; tm_mday : Z; tm_hour : Z; tm_min : Z; tm_sec : Z }.
Class Localtime := { localtime_r : N -> option Tm }.

Section check.
Context {W : Type} `{PR : Processes W} `{LT : Localtime} `{UT : Utf8}.

Definition github_api_get (path : string) : M W (result string string) :=
  let! output := run_curl ["-sS"; "--max-time"; "15"; "-H"; "Accept: application/vnd.github+json";
                           "-H"; "User-Agent: GeniePod-OTA"; "https://api.github.com" +:+ path] in
  ret (match output with
       | Done o => if po_success o then Ok (from_utf8_lossy (po_stdout o))
                   else Err ("GitHub API request failed: " +:+ from_utf8_lossy (po_stderr o))
       | Failed e => Err ("GitHub API curl failed: " +:+ e)
       | Elapsed => Err "GitHub API request timed out after 15s"
       end).

Definition str_field (v : value) (k : string) : string := default "" (get_str v k).

(** The first asset named for the architecture that has an address. *)
Definition arm_asset (a : value) : option string :=
  let name := str_field a "name" in
  if contains name "aarch64" || contains name "arm64" then get_str a "browser_download_url" else None.

Definition release_of (release : value) : ReleaseInfo :=
  let tag := str_field release "tag_name" in
  {| tag_name := tag; version := default tag (strip_prefix tag "v");
     published_at := str_field release "published_at";
     download_url := (get release "assets" ≫= as_array) ≫= find_map arm_asset;
     rl_body := str_field release "body" |}.

(** [serde_json::from_str], with the text of its errors. *)
Variable parse_json : string -> result value string.

Definition fetch_latest_release : M W (result ReleaseInfo string) :=
  let! body := github_api_get ("/repos/" +:+ GITHUB_REPO +:+ "/releases/latest") in
  ret (let? body := body in
       let? release := parse_json body in
       Ok (release_of release)).

Definition now_iso (secs : N) : string :=
  match localtime_r secs with
  | Some tm => show_padded 4 (tm_year tm + 1900) +:+ "-" +:+ show_padded 2 (tm_mon tm + 1) +:+ "-" +:+
               show_padded 2 (tm_mday tm) +:+ "T" +:+ show_padded 2 (tm_hour tm) +:+ ":" +:+
               show_padded 2 (tm_min tm) +:+ ":" +:+ show_padded 2 (tm_sec tm)
  | None => show_N secs
  end.

Definition check_update (secs : N) : M W UpdateStatus :=
  let! latest := fetch_latest_release in
  ret {| current_version := CURRENT_VERSION;
         latest_version := version <$> to_option latest;
         update_available := match latest with
                             | Ok r => version_is_newer (version r) CURRENT_VERSION
                             | Err _ => false
                             end;
         last_check := Some (now_iso secs) |}.

End check.

(** ** The binaries *)

(** The files, and how the copies to come fail: with an error, and what they
    leave in the place of the target, if they got to open it. *)
Record Disk := { files : gmap string (list ascii); copy_failures : list (option (string * option (list ascii))) }.
Record OtaManager := { install_dir : string; staging_dir : string; backup_dir : string }.

Definition ota_new (base_dir : string) : OtaManager := {|
  install_dir := base_dir +:+ "/bin"; staging_dir := base_dir +:+ "/staging"; backup_dir := base_dir +:+ "/backup" |}.

Definition binaries : list string := ["genie-core"; "genie-ctl"; "genie-governor"; "genie-health"; "genie-api"].

(** [tokio::fs::copy]. *)
Definition copy (src dst : string) : M Disk (result unit string) := fun d =>
  let rest := tail (copy_failures d) in
  match head (copy_failures d) with
  | Some (Some (e, None)) => (Err e, {| files := files d; copy_failures := rest |})
  | Some (Some (e, Some part)) => (Err e, {| files := <[dst := part]> (files d); copy_failures := rest |})
  | _ => match files d !! src with
         | Some b => (Ok tt, {| files := <[dst := b]> (files d); copy_failures := rest |})
         | None => (Err "No such file or directory", {| files := files d; copy_failures := rest |})
         end
  end.

(** The loop of [backup_current] and of [rollback]. *)
Fixpoint copy_each (from to : string) (names : list string) : M Disk (result unit string) :=
  match names with
  | [] => ret (Ok tt)
  | bin :: names => fun d =>
      let src := from +:+ "/" +:+ bin in
      if bool_decide (is_Some (files d !! src))
      then (let!? _ := copy src (to +:+ "/" +:+ bin) in copy_each from to names) d
      else copy_each from to names d
  end.

Definition backup_current (m : OtaManager) : M Disk (result unit string) := copy_each (install_dir m) (backup_dir m) binaries.
Definition rollback (m : OtaManager) : M Disk (result unit string) := copy_each (backup_dir m) (install_dir m) binaries.

(** ** The order of versions *)

(** A comparison by which things form classes in a line. *)
Record orders {A} (c : A -> A -> comparison) : Prop := {
  ord_opp x y : c y x = CompOpp (c x y);
  ord_trans x y z r : c x y = r -> c y z = r -> c x z = r;
  ord_eq x y z : c x y = Eq -> c x z = c y z;
}.

Lemma orders_refl {A} (c : A -> A -> comparison) : orders c -> forall x, c x x = Eq.
Proof. intros H x. pose proof (ord_opp _ H x x). by destruct (c x x). Qed.

Lemma orders_N : orders N.compare.
Proof.
  split; [apply N.compare_antisym| |by intros x y z ->%N.compare_eq].
  intros x y z [] H1 H2.
  - apply N.compare_eq in H1, H2. by rewrite H1, H2, N.compare_refl.
  - rewrite N.compare_lt_iff in *. lia.
  - rewrite N.compare_gt_iff in *. lia.
Qed.

Lemma orders_nat : orders Nat.compare.
Proof.
  split; [apply Nat.compare_antisym| |by intros x y z ->%Nat.compare_eq].
  intros x y z [] H1 H2.
  - apply Nat.compare_eq in H1, H2. by rewrite H1, H2, Nat.compare_refl.
  - rewrite Nat.compare_lt_iff in *. lia.
  - rewrite Nat.compare_gt_iff in *. lia.
Qed.

(** An order on the first part, then on the second. *)
Lemma orders_then {A} (c d : A -> A -> comparison) : orders c -> orders d ->
  orders (fun x y => then_cmp (c x y) (d x y)).
Proof.
  intros Hc Hd. split.
  - intros x y. rewrite (ord_opp _ Hc x y), (ord_opp _ Hd x y). by destruct (c x y).
  - intros x y z r. destruct (c x y) eqn:E1; cbn.
    + rewrite (ord_eq _ Hc x y z E1). destruct (c y z); cbn; [|done|done]. apply (ord_trans _ Hd).
    + intros <-. destruct (c y z) eqn:E2; cbn; [|by rewrite (ord_trans _ Hc x y z Lt)|done].
      pose proof (ord_opp _ Hc y z) as O. rewrite E2 in O. pose proof (ord_eq _ Hc z y x O) as Q.
      pose proof (ord_opp _ Hc x z) as O1. pose proof (ord_opp _ Hc x y) as O2. rewrite E1 in O2.
      rewrite Q, O2 in O1. by destruct (c x z).
    + intros <-. destruct (c y z) eqn:E2; cbn; [|done|by rewrite (ord_trans _ Hc x y z Gt)].
      pose proof (ord_opp _ Hc y z) as O. rewrite E2 in O. pose proof (ord_eq _ Hc z y x O) as Q.
      pose proof (ord_opp _ Hc x z) as O1. pose proof (ord_opp _ Hc x y) as O2. rewrite E1 in O2.
      rewrite Q, O2 in O1. by destruct (c x z).
  - intros x y z. destruct (c x y) eqn:E1; cbn; [|done|done]. intros E2.
    by rewrite (ord_eq _ Hc x y z E1), (ord_eq _ Hd x y z E2).
Qed.

Lemma orders_on {A B} (f : A -> B) (c : B -> B -> comparison) : orders c -> orders (fun x y => c (f x) (f y)).
Proof. intros [O T E]. split; eauto. Qed.

Fixpoint lexi {A} (c : A -> A -> comparison) (l k : list A) : comparison :=
  match l, k with
  | [], [] => Eq
  | [], _ => Lt
  | _, [] => Gt
  | a :: l, b :: k => then_cmp (c a b) (lexi c l k)
  end.

Lemma orders_lexi {A} (c : A -> A -> comparison) : orders c -> orders (lexi c).
Proof.
  intros Hc. pose proof (orders_then c) as Ht. split.
  - intros x. induction x as [|a x IH]; intros [|b y]; cbn; try done. rewrite (ord_opp _ Hc a b), IH. by destruct (c a b).
  - intros x. induction x as [|a x IH]; intros [|b y] [|d z] r; cbn; try congruence.
    intros H1 H2. specialize (Ht (fun _ _ => r) Hc).
    pose proof (ord_opp _ Hc a b) as O1. pose proof (ord_opp _ Hc b d) as O2. pose proof (ord_opp _ Hc a d) as O3.
    destruct (c a b) eqn:E1; cbn in H1.
    + rewrite (ord_eq _ Hc a b d E1). destruct (c b d); cbn in *; [by eapply IH|done|done].
    + subst r. destruct (c b d) eqn:E2; cbn in H2; [|by rewrite (ord_trans _ Hc a b d Lt)|done].
      rewrite (ord_eq _ Hc d b a O2), O1 in O3. by destruct (c a d).
    + subst r. destruct (c b d) eqn:E2; cbn in H2; [|done|by rewrite (ord_trans _ Hc a b d Gt)].
      rewrite (ord_eq _ Hc d b a O2), O1 in O3. by destruct (c a d).
  - intros x. induction x as [|a x IH]; intros [|b y] [|d z]; cbn; try done; try (by destruct (c a b)).
    destruct (c a b) eqn:E; cbn; [|done|done]. intros H. by rewrite (ord_eq _ Hc a b d E), (IH y z H).
Qed.

Lemma lexi_zipped l k : lexi compare_pre_identifier l k = then_cmp (compare_zipped l k) (Nat.compare (length l) (length k)).
Proof.
  revert k. induction l as [|a l IH]; intros [|b k]; cbn; try done. rewrite IH.
  by destruct (compare_pre_identifier a b).
Qed.

Lemma orders_string : orders String.compare.
Proof.
  assert (forall s t, String.compare s t = lexi (fun a b => N.compare (N_of_ascii a) (N_of_ascii b)) (bytes s) (bytes t)) as E.
  { intros s. induction s as [|a s IH]; intros [|b t]; cbn; try done. unfold Ascii.compare. rewrite <- IH.
    by destruct (N.compare _ _). }
  pose proof (orders_on bytes _ (orders_lexi _ (orders_on N_of_ascii _ orders_N))) as [O T Q].
  split; intros *; rewrite ?E; eauto.
Qed.

(** The numeric identifiers come first, by their value. *)
Definition pre_key (a : string) : N * N * string :=
  match parse_u64 a with Some n => (0, n, "")%N | None => (1, 0, a)%N end.
Lemma compare_pre_key a b : compare_pre_identifier a b =
  then_cmp (N.compare (pre_key a).1.1 (pre_key b).1.1)
    (then_cmp (N.compare (pre_key a).1.2 (pre_key b).1.2) (String.compare (pre_key a).2 (pre_key b).2)).
Proof.
  unfold compare_pre_identifier, pre_key. destruct (parse_u64 a), (parse_u64 b); cbn; try done.
  by destruct (N.compare _ _).
Qed.

Lemma orders_pre : orders compare_pre_identifier.
Proof.
  pose proof (orders_then _ _ (orders_on (fun a => (pre_key a).1.1) _ orders_N)
    (orders_then _ _ (orders_on (fun a => (pre_key a).1.2) _ orders_N) (orders_on (fun a => (pre_key a).2) _ orders_string))) as [O T Q].
  split; intros *; rewrite ?compare_pre_key; [apply O|apply T|apply Q].
Qed.

Definition release_rank (v : SemVer) : N := match pre v with [] => 1 | _ => 0 end.
Lemma compare_semver_lexi a b : compare_semver a b =
  then_cmp (compare_core (core a) (core b))
    (then_cmp (N.compare (release_rank a) (release_rank b)) (lexi compare_pre_identifier (pre a) (pre b))).
Proof.
  unfold compare_semver, release_rank. destruct (compare_core _ _); [|done|done]. cbn [then_cmp].
  rewrite lexi_zipped. by destruct (pre a), (pre b).
Qed.

Lemma orders_semver : orders compare_semver.
Proof.
  pose proof (orders_then (fun x y : N * N * N => N.compare x.1.1 y.1.1) _ (orders_on (fun x => x.1.1) _ orders_N)
    (orders_then _ _ (orders_on (fun x : N * N * N => x.1.2) _ orders_N) (orders_on snd _ orders_N))) as Hcore.
  pose proof (orders_then _ _ (orders_on core _ Hcore)
    (orders_then _ _ (orders_on release_rank _ orders_N) (orders_on pre _ (orders_lexi _ orders_pre)))) as [O T Q].
  split; intros *; rewrite ?compare_semver_lexi; [apply O|apply T|apply Q].
Qed.

Lemma newer_gt a b : version_is_newer a b = true <-> compare_semver (parse_semver a) (parse_semver b) = Gt.
Proof. unfold version_is_newer. by destruct (compare_semver _ _). Qed.

(** "Newer" is a strict weak order: no version is newer than itself, of two at
    most one is newer than the other, newer than newer is newer, and versions of
    which neither is newer are newer than the same. *)
Lemma newer_is_an_order a b c :
  version_is_newer a a = false /\
  (version_is_newer a b = true -> version_is_newer b a = false) /\
  (version_is_newer a b = true -> version_is_newer b c = true -> version_is_newer a c = true) /\
  (version_is_newer a b = false -> version_is_newer b a = false -> version_is_newer a c = version_is_newer b c).
Proof.
  pose proof orders_semver as H. split.
  { unfold version_is_newer. by rewrite (orders_refl _ H). }
  split; [|split].
  - rewrite newer_gt. intros E. unfold version_is_newer. by rewrite (ord_opp _ H (parse_semver a)), E.
  - rewrite !newer_gt. apply (ord_trans _ H).
  - unfold version_is_newer. rewrite (ord_opp _ H (parse_semver a) (parse_semver b)).
    destruct (compare_semver (parse_semver a) (parse_semver b)) eqn:E; cbn; try done.
    intros _ _. by rewrite (ord_eq _ H _ _ (parse_semver c) E).
Qed.

Example versions_compared :
  (fun p => version_is_newer p.1 p.2) <$>
    [("1.10.0", "1.9.0"); ("1.0.0", "1.0.0-rc.4"); ("v1.0.0-rc.10", CURRENT_VERSION); ("1.0.0-rc.4+7", CURRENT_VERSION);
     ("1.0.0-alpha.1", "1.0.0-alpha"); ("1.0.99999999999", "1.0.1")] = [true; true; true; false; true; false].
Proof. vm_compute. reflexivity. Qed.

(** ** Back to where it was *)

Lemma copy_ok src dst d d' : copy src dst d = (Ok tt, d') ->
  exists b, files d !! src = Some b /\ files d' = <[dst := b]> (files d).
Proof. unfold copy. repeat case_match; intros [= <-]; cbn; eauto. Qed.

Lemma binary_path_inj dir a b : dir +:+ "/" +:+ a = dir +:+ "/" +:+ b -> a = b.
Proof. intros H. apply (f_equal bytes) in H. rewrite !bytes_app in H. by apply bytes_inj, (inj (app (bytes "/"))), (inj (app (bytes dir))). Qed.

(** A loop of copies that succeeds has copied what the source had, and touched
    nothing else. *)
Lemma copy_each_ok from to names d d' : NoDup names -> (forall a b, from +:+ "/" +:+ a <> to +:+ "/" +:+ b) ->
  copy_each from to names d = (Ok tt, d') ->
  (forall n, n ∈ names -> files d' !! (to +:+ "/" +:+ n) =
     match files d !! (from +:+ "/" +:+ n) with Some b => Some b | None => files d !! (to +:+ "/" +:+ n) end) /\
  (forall p, (forall n, n ∈ names -> p <> to +:+ "/" +:+ n) -> files d' !! p = files d !! p).
Proof.
  intros Hnd Hne. revert d. induction names as [|bin names IH]; intros d; cbn [copy_each].
  { intros [= <-]. split; [by intros n ?%elem_of_nil|done]. }
  apply NoDup_cons in Hnd as [Hbin Hnd]. specialize (IH Hnd).
  destruct (files d !! (from +:+ "/" +:+ bin)) as [b|] eqn:Hb.
  - rewrite bool_decide_eq_true_2 by by eexists. unfold ebind.
    destruct (copy _ _ d) as [[[]|e] d1] eqn:Hc; [|done]. apply copy_ok in Hc as (b' & Hb' & Hf).
    rewrite Hb in Hb'. injection Hb' as <-. intros [Hin Hout]%IH. split.
    + intros n [->|Hn]%elem_of_cons.
      * rewrite Hout, Hf, lookup_insert_eq, Hb; [done|]. intros n Hn E%binary_path_inj. by subst.
      * rewrite (Hin n Hn), Hf, !lookup_insert_ne; [done|..].
        -- intros E%binary_path_inj. by subst.
        -- intros E. by apply (Hne n bin).
    + intros p Hp. rewrite Hout, Hf; [|intros n Hn; apply Hp; by right].
      rewrite lookup_insert_ne; [done|]. intros E. apply (Hp bin); [by left|done].
  - rewrite bool_decide_eq_false_2 by by intros [? [=]]. intros [Hin Hout]%IH. split.
    + intros n [->|Hn]%elem_of_cons; [|by apply Hin]. rewrite Hb. apply Hout. intros n Hn E%binary_path_inj. by subst.
    + intros p Hp. apply Hout. intros n Hn. apply Hp. by right.
Qed.

Lemma binaries_distinct : NoDup binaries.
Proof. apply (bool_decide_eq_true_1 _). vm_compute. reflexivity. Qed.

(** What was backed up is brought back: after a backup and a rollback that both
    succeed, whatever was done in between to anything but the backup, every
    binary that was there reads as it did. *)
Lemma rollback_brings_back m d d1 d2 d3 :
  (forall a b, install_dir m +:+ "/" +:+ a <> backup_dir m +:+ "/" +:+ b) ->
  backup_current m d = (Ok tt, d1) ->
  (forall n, n ∈ binaries -> files d2 !! (backup_dir m +:+ "/" +:+ n) = files d1 !! (backup_dir m +:+ "/" +:+ n)) ->
  rollback m d2 = (Ok tt, d3) ->
  forall n b, n ∈ binaries -> files d !! (install_dir m +:+ "/" +:+ n) = Some b ->
  files d3 !! (install_dir m +:+ "/" +:+ n) = Some b.
Proof.
  intros Hne Hb Hsame Hr n b Hn Hd.
  apply copy_each_ok in Hb as [Hb _]; [|apply binaries_distinct|done].
  apply copy_each_ok in Hr as [Hr _]; [|apply binaries_distinct|]; [|intros x y E; by apply (Hne y x)].
  specialize (Hb n Hn). rewrite Hd in Hb. by rewrite (Hr n Hn), (Hsame n Hn), Hb.
Qed.

(** A binary that was not there at the backup is replaced by what an earlier
    backup left: the rollback installs what was not installed. *)
Example stale_backup_is_installed :
  let m := ota_new "/opt" in
  let d := {| files := {["/opt/backup/genie-api" := bytes "old"]}; copy_failures := [] |} in
  let '(r1, d) := backup_current m d in
  let '(r2, d) := rollback m d in
  (r1, r2, files d !! "/opt/bin/genie-api") = (Ok tt, Ok tt, Some (bytes "old")).
Proof. vm_compute. reflexivity. Qed.
