(* ===== verification/Config.v ===== *)
(** * The configuration ([genie-common/src/config.rs])

    The addresses that probes and listeners derive from the service URLs, the
    checks at start, the folding of the environment, and the redacted posture
    that dashboards show.  Reading TOML is the [toml] crate; a configuration is
    the record of the fields that these functions read. *)

From Stdlib Require Import Ascii String.
From S2P Require Import Prelude RustStr RustNum Json HomeTypes RateLimit Redaction LlmProvider Escalation SkillLoader.
Local Open Scope string_scope.
Local Open Scope list_scope.
Local Open Scope rust_scope.

(** ** Data *)

Module AgentRuntimeProfile.
Inductive t : Set := Jetson | RaspberryPi | PortableSbc | Laptop | Mac.
Definition debug (p : t) : string :=
  match p with
  | Jetson => "Jetson" | RaspberryPi => "RaspberryPi" | PortableSbc => "PortableSbc" | Laptop => "Laptop" | Mac => "Mac"
  end.
End AgentRuntimeProfile.

Module RuntimeBoundaryMode.
Inductive t : Set := ExternalRuntime | TransitionalAdapter | Disabled.
Definition debug (m : t) : string :=
  match m with
  | ExternalRuntime => "ExternalRuntime" | TransitionalAdapter => "TransitionalAdapter" | Disabled => "Disabled"
  end.
End RuntimeBoundaryMode.

Module SpeakerIdentityProvider.
Inductive t : Set := None | Fixed | LocalBiometric.
Definition label (p : t) : string :=
  match p with None => "none" | Fixed => "fixed" | LocalBiometric => "local_biometric" end.
End SpeakerIdentityProvider.

Module WebSearchProvider.
Inductive t : Set := Duckduckgo | Searxng.
End WebSearchProvider.

Module ConnectivityTransport.
Inductive t : Set := None | Esp32c6Uart.
End ConnectivityTransport.

Record CoreConfig := {
  bind_host : string; core_port : N; ha_token : string; llm_model_name : string; llm_model_path : string;
  skill_policy : SkillPolicyConfig; tool_policy : ToolPolicyConfig; actuation_safety : ActuationSafetyConfig;
  speaker_enabled : bool; speaker_provider : SpeakerIdentityProvider.t;
}.
Record AgentRuntime := {
  runtime_profile : AgentRuntimeProfile.t; agent : AgentConfig; ai_runtime_boundary : RuntimeBoundaryMode.t;
  voice_runtime_boundary : RuntimeBoundaryMode.t; home_runtime_boundary : RuntimeBoundaryMode.t;
}.
Record ServiceUrls := {
  core_url : string; llm_url : string; api_url : string; homeassistant_url : option string;
  nextcloud_url : option string; jellyfin_url : option string;
}.
Record TelegramConfig := {
  tg_enabled : bool; tg_bot_token : string; tg_allowed_chat_ids : list Z; tg_allow_all_chats : bool;
}.
Record WebSearchConfig := { ws_enabled : bool; ws_provider : WebSearchProvider.t; ws_allow_remote_base_url : bool }.
Record Config := {
  cf_core : CoreConfig; cf_agent : AgentRuntime; optional_ai_provider : OptionalAiProviderConfig;
  privacy_proxy : PrivacyProxyConfig; services : ServiceUrls; telegram : TelegramConfig; web_search : WebSearchConfig;
  connectivity_on : bool; transport : ConnectivityTransport.t; local_api_token : string;
}.

(** ** Addresses *)

Inductive ServiceProbeTarget :=
| Http (addr path : string)
| Https (addr path : string)
| UnsupportedScheme (scheme : string).

Definition split_scheme (url : string) : option (string * string) :=
  match strip_prefix url "http://" with
  | Some rest => Some ("http", rest)
  | None => (fun rest => ("https", rest)) <$> strip_prefix url "https://"
  end.

(** What precedes the scan for the slash, and what is scanned. *)
Definition scan_split (rest : string) : string * string :=
  if starts_with rest "[" then
    match split_once rest "]" with Some (l, r) => (l +:+ "]", r) | None => (rest, "") end
  else ("", rest).

Definition split_authority_and_path (rest : string) : string * string :=
  let '(before, scanned) := scan_split rest in
  match split_once scanned "/" with
  | Some (a, p) => (before +:+ a, "/" +:+ p)
  | None => (rest, "/")
  end.

Definition has_explicit_port (authority : string) : bool :=
  match strip_prefix authority "[" with
  | Some rest => match split_once rest "]" with Some (_, r) => starts_with r ":" | None => false end
  | None => contains authority ":"
  end.
Definition ensure_port (authority : string) (default_port : N) : string :=
  if has_explicit_port authority then authority else authority +:+ ":" +:+ show_N default_port.

Definition parse_service_probe_target (url : string) : ServiceProbeTarget :=
  let '(scheme, rest) := default ("http", url) (split_scheme url) in
  let '(authority, path) := split_authority_and_path rest in
  let path := if is_empty path then "/" else path in
  if String.eqb scheme "http" then Http (ensure_port authority 80) path
  else if String.eqb scheme "https" then Https (ensure_port authority 443) path
  else UnsupportedScheme scheme.

Definition core_http_addr (c : Config) : string :=
  let host := trim (bind_host (cf_core c)) in
  let host := if is_one_of host [""; "0.0.0.0"; "::"] then "127.0.0.1" else host in
  let port := show_N (core_port (cf_core c)) in
  if contains host ":" && negb (starts_with host "[") then "[" +:+ host +:+ "]:" +:+ port
  else host +:+ ":" +:+ port.

Definition core_health_url (c : Config) : string := "http://" +:+ core_http_addr c +:+ "/api/health".

Definition cannot_bind (scheme hint : string) : string :=
  "genie-api cannot bind from [services.api].url: unsupported scheme " +:+ dquote +:+ scheme +:+ dquote +:+ hint.

Definition api_http_addr (c : Config) : result string string :=
  match parse_service_probe_target (api_url (services c)) with
  | Http addr _ => Ok addr
  | Https _ _ => Err (cannot_bind "https" " (use http:// for the local bind address)")
  | UnsupportedScheme scheme => Err (cannot_bind scheme " (use http://)")
  end.

Definition api_status_url (c : Config) : result string string :=
  let? addr := api_http_addr c in Ok ("http://" +:+ addr +:+ "/api/status").

Record ServiceUrlDrift := { dr_service : string; configured_url : string; services_url_addr : string; listen_addr : string }.

Definition record_http_url_drift (drifts : list ServiceUrlDrift) (service url listen : string) : list ServiceUrlDrift :=
  match parse_service_probe_target url with
  | Http addr _ =>
      if negb (String.eqb addr listen) then
        drifts ++ [{| dr_service := service; configured_url := url; services_url_addr := addr; listen_addr := listen |}]
      else drifts
  | Https _ _ | UnsupportedScheme _ => drifts
  end.

Definition service_url_drifts (c : Config) : list ServiceUrlDrift :=
  let drifts := record_http_url_drift [] "core" (core_url (services c)) (core_http_addr c) in
  match api_http_addr c with
  | Ok listen => record_http_url_drift drifts "api" (api_url (services c)) listen
  | Err _ => drifts
  end.

(** ** Start *)

Inductive ActiveLlmProviderKind := Local | OptionalApi.
Definition active_llm_provider_kind (c : Config) : ActiveLlmProviderKind :=
  if ap_enabled (optional_ai_provider c) then OptionalApi else Local.

Section start.
Context (env_var : Environment).

Definition validate_local_llm_provider (c : Config) : result unit string :=
  let url := trim (llm_url (services c)) in
  if is_empty url then Err "[services.llm].url must be set for the local provider"
  else match parse_service_probe_target url with
       | Http _ _ | Https _ _ => Ok tt
       | UnsupportedScheme scheme =>
           Err ("[services.llm].url has unsupported scheme " +:+ dquote +:+ scheme +:+ dquote +:+ " (use http:// or https://)")
       end.

Definition validate_optional_llm_provider (c : Config) : result unit string :=
  ensure_enabled_ready (optional_ai_provider c) (agent (cf_agent c)) env_var.

Definition both_remote_paths : string :=
  "[optional_ai_provider].enabled and [privacy_proxy].enabled cannot both be true: the primary LLM call already goes " +:+
  "directly to [optional_ai_provider].base_url unmasked, so [privacy_proxy]'s anonymizing escalation would never apply " +:+
  "to it. Disable one of the two.".

Definition validate_llm_provider (c : Config) : result unit string :=
  if (agent_context_window_tokens (agent (cf_agent c)) =? 0)%N then
    Err "[agent].context_window_tokens must be greater than 0"
  else if is_empty (trim (llm_model_name (cf_core c))) then Err "[core].llm_model_name must not be empty"
  else if is_empty (llm_model_path (cf_core c)) then Err "[core].llm_model_path must be set"
  else if ap_enabled (optional_ai_provider c) && pp_enabled (privacy_proxy c) then Err both_remote_paths
  else match active_llm_provider_kind c with
       | Local => validate_local_llm_provider c
       | OptionalApi => validate_optional_llm_provider c
       end.

Definition set_local_api_token (t : string) (c : Config) : Config := {|
  cf_core := cf_core c; cf_agent := cf_agent c; optional_ai_provider := optional_ai_provider c;
  privacy_proxy := privacy_proxy c; services := services c; telegram := telegram c; web_search := web_search c;
  connectivity_on := connectivity_on c; transport := transport c; local_api_token := t |}.

Definition resolve_env_overrides (c : Config) : Config :=
  if is_empty (trim (local_api_token c)) then
    match env_var "GENIEPOD_LOCAL_API_TOKEN" with
    | Some token => if is_empty (trim token) then c else set_local_api_token (trim token) c
    | None => c
    end
  else c.

(** [load_from], from the text of the file. *)
Definition load_config (parse_toml : string -> result Config string) (path : string) (contents : result string string)
    : result Config string :=
  match contents with
  | Err e => Err ("failed to read config " +:+ path +:+ ": " +:+ e)
  | Ok text =>
      let? c := parse_toml text in
      let c := resolve_env_overrides c in
      let? _ := validate_llm_provider c in
      Ok c
  end.

(** A secret of the file, else of the environment. *)
Definition config_token (configured variable : string) : option string :=
  let raw := if is_empty configured then default "" (env_var variable) else configured in
  if is_empty (trim raw) then None else Some (trim raw).

Definition homeassistant_token (c : Config) : option string := config_token (ha_token (cf_core c)) "HA_TOKEN".
Definition telegram_bot_token (c : Config) : option string := config_token (tg_bot_token (telegram c)) "TELEGRAM_BOT_TOKEN".

Definition connectivity_enabled (c : Config) : bool :=
  connectivity_on c && match transport c with ConnectivityTransport.None => false | _ => true end.

(** ** The posture *)

(** The names in a directory, if it can be read. *)
Context (read_dir : string -> option (list string)).

Definition has_trusted_skill_keys (dir : string) : bool :=
  match read_dir dir with
  | Some names => existsb (fun n => bool_decide (extension (path_join dir n) = Some "pub")) names
  | None => false
  end.

Definition limited_context_compatible (p : OptionalAiProviderConfig) (a : AgentConfig) : bool :=
  negb (ap_enabled p) || (ap_context_window_tokens p <=? agent_context_window_tokens a)%N.

Definition transitional_test_candidate (p : OptionalAiProviderConfig) (a : AgentConfig) : bool :=
  ap_enabled p && limited_context_compatible p a && negb (is_empty (trim (config_credential_env p))) &&
  (negb (is_remote_url (ap_base_url p)) || allow_remote_base_url p).

Definition local_bind (host : string) : bool := is_one_of host ["127.0.0.1"; "localhost"; "::1"].
Definition searches_remotely (w : WebSearchConfig) : bool :=
  ws_enabled w && match ws_provider w with WebSearchProvider.Searxng => true | _ => false end && ws_allow_remote_base_url w.

Definition flag (b : bool) (name : string) : list string := if b then [name] else [].

Definition risk_flags (c : Config) : list string :=
  let core := cf_core c in
  let t := telegram c in
  let p := optional_ai_provider c in
  flag (negb (local_bind (bind_host core))) "core_api_not_localhost" ++
  flag (tg_enabled t && tg_allow_all_chats t) "telegram_accepts_any_chat" ++
  flag (tg_enabled t && negb (tg_allow_all_chats t) && bool_decide (tg_allowed_chat_ids t = []))
    "telegram_enabled_without_chat_allowlist" ++
  flag (searches_remotely (web_search c)) "web_search_remote_base_url_allowed" ++
  flag (negb (policy_enabled (tool_policy core))) "tool_policy_disabled" ++
  flag (negb (safety_enabled (actuation_safety core))) "actuation_safety_disabled" ++
  flag (negb (is_empty (trim (ha_token core)))) "homeassistant_token_in_config_file" ++
  flag (tg_enabled t && negb (is_empty (trim (tg_bot_token t)))) "telegram_token_in_config_file" ++
  flag (ap_enabled p) "optional_ai_provider_enabled" ++
  flag (ap_enabled p && negb (limited_context_compatible p (agent (cf_agent c))))
    "optional_ai_provider_context_exceeds_agent_budget" ++
  flag (ap_enabled p && is_remote_url (ap_base_url p) && negb (allow_remote_base_url p))
    "optional_ai_provider_remote_url_blocked" ++
  flag (pp_enabled (privacy_proxy c)) "privacy_proxy_escalation_enabled" ++
  flag (pp_enabled (privacy_proxy c) && negb (endpoint_is_valid (privacy_proxy c))) "privacy_proxy_endpoint_not_localhost" ++
  flag (negb (pc_require_manifest (skill_policy core))) "skill_manifest_not_required" ++
  (if negb (pc_require_signature (skill_policy core)) then ["skill_signature_not_required"]
   else flag (negb (has_trusted_skill_keys (pc_signature_key_dir (skill_policy core))))
          "skill_signature_required_but_no_trusted_keys").

Definition debug_provider (k : ProviderKind.t) : string :=
  match k with
  | ProviderKind.OpenAiCompatible => "OpenAiCompatible" | ProviderKind.OpenAi => "OpenAi"
  | ProviderKind.Anthropic => "Anthropic" | ProviderKind.Gemini => "Gemini" | ProviderKind.Custom => "Custom"
  end.
Definition debug_auth (m : AuthMode.t) : string :=
  match m with AuthMode.ApiKey => "ApiKey" | AuthMode.OAuthBearer => "OAuthBearer" end.
Definition debug_trigger (g : EscalationTrigger.t) : string :=
  match g with
  | EscalationTrigger.LocalDecline => "LocalDecline" | EscalationTrigger.ContextOverflow => "ContextOverflow"
  | EscalationTrigger.LocalDeclineOrContextOverflow => "LocalDeclineOrContextOverflow"
  end.

Definition num (n : N) : value := Number (PosInt n).
Definition token_source (configured : string) : value :=
  Str (if is_empty (trim configured) then "environment_or_absent" else "config_file").

Definition household_security_summary (c : Config) : value :=
  let core := cf_core c in
  let a := cf_agent c in
  let t := telegram c in
  let p := optional_ai_provider c in
  let sp := skill_policy core in
  let allowlist := tg_enabled t && negb (tg_allow_all_chats t) && negb (bool_decide (tg_allowed_chat_ids t = [])) in
  Object [
    ("trust_model", Str "single_household_operator_boundary");
    ("raw_config_exposed", Bool false);
    ("raw_config_policy", Str "local_operator_file_only");
    ("agent", Object [
       ("runtime_profile", Str (AgentRuntimeProfile.debug (runtime_profile a)));
       ("context_window_tokens", num (agent_context_window_tokens (agent a)));
       ("ai_runtime_boundary", Str (RuntimeBoundaryMode.debug (ai_runtime_boundary a)));
       ("voice_runtime_boundary", Str (RuntimeBoundaryMode.debug (voice_runtime_boundary a)));
       ("home_runtime_boundary", Str (RuntimeBoundaryMode.debug (home_runtime_boundary a)));
       ("agent_layer_only", Bool true)]);
    ("shared_memory", Object [
       ("mode", Str "household_shared_by_default");
       ("dashboard_manager_enabled", Bool true);
       ("shared_room_safe_prompt_filtering", Bool true);
       ("speaker_identity_enabled", Bool (speaker_enabled core));
       ("speaker_identity_provider", Str (SpeakerIdentityProvider.label (speaker_provider core)));
       ("speaker_label_exposed", Bool false)]);
    ("control_surfaces", Object [
       ("core_api_local_only", Bool (local_bind (bind_host core)));
       ("dashboard_local_only", Bool true);
       ("telegram_enabled", Bool (tg_enabled t));
       ("telegram_allowlist_enabled", Bool allowlist);
       ("homeassistant_bridge_configured", Bool (bool_decide (is_Some (homeassistant_url (services c)))));
       ("connectivity_coprocessor_enabled", Bool (connectivity_enabled c));
       ("optional_ai_provider_enabled", Bool (ap_enabled p))]);
    ("optional_ai_provider", Object [
       ("enabled", Bool (ap_enabled p));
       ("provider", Str (debug_provider (ap_provider p)));
       ("auth_mode", Str (debug_auth (ap_auth_mode p)));
       ("context_window_tokens", num (ap_context_window_tokens p));
       ("limited_context_compatible", Bool (limited_context_compatible p (agent a)));
       ("allow_remote_base_url", Bool (allow_remote_base_url p));
       ("api_key_env_configured", Bool (negb (is_empty (trim (ap_api_key_env p)))));
       ("oauth_token_env_configured", Bool (negb (is_empty (trim (ap_oauth_token_env p)))));
       ("base_url_configured", Bool (negb (is_empty (trim (ap_base_url p)))));
       ("api_key_value_exposed", Bool false);
       ("credential_value_exposed", Bool false)]);
    ("privacy_proxy", Object [
       ("enabled", Bool (pp_enabled (privacy_proxy c)));
       ("trigger", Str (debug_trigger (pp_trigger (privacy_proxy c))));
       ("endpoint_is_localhost", Bool (endpoint_is_valid (privacy_proxy c)));
       ("base_url_exposed", Bool false)]);
    ("policy", Object [
       ("tool_policy_enabled", Bool (policy_enabled (tool_policy core)));
       ("actuation_safety_enabled", Bool (safety_enabled (actuation_safety core)));
       ("sensitive_multi_target_denied", Bool (deny_multi_target_sensitive (actuation_safety core)));
       ("available_state_required", Bool (require_available_state (actuation_safety core)));
       ("skill_manifest_required", Bool (pc_require_manifest sp));
       ("skill_signature_required", Bool (pc_require_signature sp));
       ("skill_signature_scheme", Str "ed25519_detached_over_so_bytes");
       ("skill_signature_key_dir", Str (pc_signature_key_dir sp));
       ("skill_signature_trusted_keys_present", Bool (has_trusted_skill_keys (pc_signature_key_dir sp)));
       ("skill_execution_timeout_ms", num (pc_skill_execution_timeout_ms sp))]);
    ("secret_presence", Object [
       ("homeassistant_token_configured", Bool (bool_decide (is_Some (homeassistant_token c))));
       ("homeassistant_token_source", token_source (ha_token core));
       ("telegram_token_configured", Bool (bool_decide (is_Some (telegram_bot_token c))));
       ("telegram_token_source", token_source (tg_bot_token t))]);
    ("risk_flags", Array (Str <$> risk_flags c))].

End start.

(** ** Theorems *)

(** Of two values, both or neither is blank. *)
Definition same_blank (a b : string) : Prop := is_empty a = is_empty b /\ is_empty (trim a) = is_empty (trim b).

(** Two processes that a person who may not see secrets cannot tell apart:
    tokens, addresses, models, labels and chat ids differ at will, as long as
    the same of them are set, and remote or local. *)
Record alike (c c' : Config) (env env' : Environment) : Prop := {
  al_bind : local_bind (bind_host (cf_core c)) = local_bind (bind_host (cf_core c'));
  al_ha : same_blank (ha_token (cf_core c)) (ha_token (cf_core c'));
  al_skills : skill_policy (cf_core c) = skill_policy (cf_core c');
  al_tools : policy_enabled (tool_policy (cf_core c)) = policy_enabled (tool_policy (cf_core c'));
  al_safety : actuation_safety (cf_core c) = actuation_safety (cf_core c');
  al_speaker : speaker_enabled (cf_core c) = speaker_enabled (cf_core c');
  al_speakers : speaker_provider (cf_core c) = speaker_provider (cf_core c');
  al_agent : cf_agent c = cf_agent c';
  al_provider : (ap_enabled (optional_ai_provider c), ap_provider (optional_ai_provider c), ap_auth_mode (optional_ai_provider c),
     ap_context_window_tokens (optional_ai_provider c), allow_remote_base_url (optional_ai_provider c)) =
    (ap_enabled (optional_ai_provider c'), ap_provider (optional_ai_provider c'), ap_auth_mode (optional_ai_provider c'),
     ap_context_window_tokens (optional_ai_provider c'), allow_remote_base_url (optional_ai_provider c'));
  al_provider_url : same_blank (ap_base_url (optional_ai_provider c)) (ap_base_url (optional_ai_provider c'));
  al_provider_remote : is_remote_url (ap_base_url (optional_ai_provider c)) = is_remote_url (ap_base_url (optional_ai_provider c'));
  al_provider_key : same_blank (ap_api_key_env (optional_ai_provider c)) (ap_api_key_env (optional_ai_provider c'));
  al_provider_oauth : same_blank (ap_oauth_token_env (optional_ai_provider c)) (ap_oauth_token_env (optional_ai_provider c'));
  al_proxy : pp_enabled (privacy_proxy c) = pp_enabled (privacy_proxy c');
  al_proxy_trigger : pp_trigger (privacy_proxy c) = pp_trigger (privacy_proxy c');
  al_proxy_valid : endpoint_is_valid (privacy_proxy c) = endpoint_is_valid (privacy_proxy c');
  al_home : bool_decide (is_Some (homeassistant_url (services c))) = bool_decide (is_Some (homeassistant_url (services c')));
  al_telegram : tg_enabled (telegram c) = tg_enabled (telegram c');
  al_telegram_all : tg_allow_all_chats (telegram c) = tg_allow_all_chats (telegram c');
  al_telegram_token : same_blank (tg_bot_token (telegram c)) (tg_bot_token (telegram c'));
  al_telegram_chats : bool_decide (tg_allowed_chat_ids (telegram c) = []) = bool_decide (tg_allowed_chat_ids (telegram c') = []);
  al_search : web_search c = web_search c';
  al_connectivity : connectivity_on c = connectivity_on c';
  al_transport : transport c = transport c';
  al_env v : is_empty (trim (default "" (env v))) = is_empty (trim (default "" (env' v)));
}.

Lemma set_alike (a b : bool) (x y : string) : a = b ->
  bool_decide (is_Some (if a then None else Some x)) = bool_decide (is_Some (if b then None else Some y)).
Proof. intros <-. apply bool_decide_ext. destruct a; split; intros [? [=]]; eauto. Qed.

Lemma config_token_alike env env' a b v : same_blank a b ->
  is_empty (trim (default "" (env v))) = is_empty (trim (default "" (env' v))) ->
  bool_decide (is_Some (config_token env a v)) = bool_decide (is_Some (config_token env' b v)).
Proof.
  intros [E1 E2] Ev. unfold config_token. rewrite E1. destruct (is_empty b); by apply set_alike.
Qed.


(** ** Addresses again *)

(** What a URL is read as has a port, and a path. *)
Lemma target_has_path url addr path :
  parse_service_probe_target url = Http addr path \/ parse_service_probe_target url = Https addr path ->
  exists rest, path = "/" +:+ rest.
Proof.
  unfold parse_service_probe_target. destruct (default _ _) as [scheme rest].
  assert (exists r, (split_authority_and_path rest).2 = "/" +:+ r) as [r Hr].
  { unfold split_authority_and_path. destruct (scan_split rest) as [b s]. destruct (split_once s "/") as [[a p]|]; by eexists. }
  destruct (split_authority_and_path rest) as [a p]. cbn in Hr. subst p. cbn [is_empty].
  destruct (String.eqb scheme "http"), (String.eqb scheme "https"); intros [H|H]; try done; injection H as <- <-; by exists r.
Qed.

(** No scheme is unsupported: whatever is neither [http] nor [https] is read
    as an authority. *)
Lemma no_scheme_is_unsupported url scheme : parse_service_probe_target url <> UnsupportedScheme scheme.
Proof.
  unfold parse_service_probe_target, split_scheme.
  destruct (strip_prefix url "http://") as [r|]; [|destruct (strip_prefix url "https://") as [r|]]; cbn;
    destruct (split_authority_and_path _) as [a p]; done.
Qed.

Example socket_scheme_is_probed_in_the_clear :
  parse_service_probe_target "wss://home.example:8123/api" = Http "wss:" "//home.example:8123/api".
Proof. vm_compute. reflexivity. Qed.

Definition free (c : ascii) (s : string) : bool := sforall (fun a => negb (Ascii.eqb a c)) s.

Lemma contains_char s c : contains s (char_of c) = negb (free c s).
Proof.
  induction s as [|a s IH]; [done|]. change (contains (String a s) (char_of c)) with
    (starts_with (String a s) (char_of c) || contains s (char_of c)). rewrite IH. unfold free. cbn [sforall].
  cbn [starts_with char_of]. rewrite (Ascii.eqb_sym c a). destruct (Ascii.eqb a c); [|done]. by destruct s.
Qed.

Lemma split_char_free s c l r : split_once s (char_of c) = Some (l, r) -> free c l = true.
Proof.
  revert l. induction s as [|a s IH]; intros l; [done|].
  change (split_once (String a s) (char_of c)) with
    (if starts_with (String a s) (char_of c) then Some ("", sdrop (String.length (char_of c)) (String a s))
     else match split_once s (char_of c) with Some (l, r) => Some (String a l, r) | None => None end).
  cbn [starts_with char_of]. destruct (Ascii.eqb_spec c a) as [->|Hca]; cbn [andb].
  { replace (starts_with s "") with true by (by destruct s). intros [= <- <-]. done. }
  destruct (split_once s (char_of c)) as [[l' r']|]; [|done]. intros [= <- <-].
  unfold free. cbn [sforall]. specialize (IH l' eq_refl). unfold free in IH. rewrite IH, andb_true_r.
  destruct (Ascii.eqb_spec a c); [congruence|done].
Qed.

Lemma free_app c s t : free c (s +:+ t) = free c s && free c t.
Proof. apply sforall_app. Qed.

Lemma bracket_app a t : a <> "" -> starts_with (a +:+ t) "[" = starts_with a "[".
Proof. destruct a as [|b a]; [done|]. intros _. rewrite sapp_cons. cbn. by destruct a, t. Qed.

(** An authority that a URL can be cut at: its brackets, if it starts with
    one, are closed, and no slash follows them. *)
Inductive whole : string -> Prop :=
| whole_plain a : starts_with a "[" = false -> free "/" a = true -> whole a
| whole_bracketed l r : free "]" l = true -> free "/" r = true -> whole (String "[" l +:+ ("]" +:+ r)).

Lemma split_whole a q : whole a -> split_authority_and_path (a +:+ ("/" +:+ q)) = (a, "/" +:+ q).
Proof.
  destruct 1 as [a Hb Hs|l r Hl Hr]; unfold split_authority_and_path, scan_split.
  - assert (starts_with (a +:+ ("/" +:+ q)) "[" = false) as ->.
    { destruct a as [|b a]; [done|]. by rewrite bracket_app. }
    pose proof (split_once_first a q "/" Hs) as E. change (String "/" q) with ("/" +:+ q) in E.
    change (char_of "/") with "/" in E. by rewrite E.
  - assert ((String "[" l +:+ ("]" +:+ r)) +:+ ("/" +:+ q) = String "[" l +:+ String "]" (r +:+ ("/" +:+ q))) as E0
      by (by rewrite <- !sapp_assoc).
    rewrite E0. replace (starts_with (String "[" l +:+ String "]" (r +:+ ("/" +:+ q))) "[") with true
      by (rewrite sapp_cons; cbn; by destruct (String.append l (String "]" (r +:+ ("/" +:+ q))))).
    pose proof (split_once_first (String "[" l) (r +:+ ("/" +:+ q)) "]") as E. change (char_of "]") with "]" in E.
    rewrite E by (cbn; exact Hl).
    pose proof (split_once_first r q "/" Hr) as E2. change (String "/" q) with ("/" +:+ q) in E2.
    change (char_of "/") with "/" in E2. rewrite E2. by rewrite <- sapp_assoc.
Qed.

Lemma port_free n : free "/" (":" +:+ show_N n) = true.
Proof.
  rewrite free_app. cbn [andb]. unfold free. eapply sforall_impl; [|apply show_N_digits].
  intros c Hc. destruct (Ascii.eqb_spec c "/"); [by subst|done].
Qed.

Lemma ensure_whole a n : whole a -> whole (ensure_port a n).
Proof.
  pose proof (port_free n) as Hp. intros Ha. unfold ensure_port. destruct (has_explicit_port a); [done|].
  destruct Ha as [a Hb Hs|l r Hl Hr].
  - apply whole_plain; [|by rewrite free_app, Hs]. destruct a as [|b a]; [done|]. by rewrite bracket_app.
  - assert ((String "[" l +:+ ("]" +:+ r)) +:+ (":" +:+ show_N n) = String "[" l +:+ ("]" +:+ (r +:+ (":" +:+ show_N n)))) as E
      by (by rewrite <- !sapp_assoc).
    rewrite E. apply whole_bracketed; [done|by rewrite free_app, Hr].
Qed.

(** Every URL with closed brackets is cut at a whole authority. *)
Lemma split_is_whole rest a p : split_authority_and_path rest = (a, p) ->
  (starts_with a "[" = true -> contains a "]" = true) -> whole a /\ exists q, p = "/" +:+ q.
Proof.
  unfold split_authority_and_path, scan_split. destruct (starts_with rest "[") eqn:Hb.
  - apply starts_with_spec in Hb as [t ->]. destruct (split_once ("[" +:+ t) "]") as [[l r]|] eqn:Hs.
    + pose proof (split_once_Some _ _ _ _ Hs) as E. apply (split_char_free _ "]") in Hs.
      destruct l as [|b l]; [done|]. rewrite sapp_cons in E. injection E as <- E. cbn [free sforall] in Hs.
      intros H _. destruct (split_once r "/") as [[x y]|] eqn:Hr.
      * injection H as <- <-. split; [|by eexists]. rewrite <- sapp_assoc. constructor; [exact Hs|by apply (split_char_free _ "/") in Hr].
      * injection H as <- <-. split; [|by exists ""]. rewrite sapp_nil_l in E. rewrite E. change (whole (String "[" l +:+ ("]" +:+ r))). constructor; [exact Hs|].
        apply split_once_None in Hr. change "/" with (char_of "/") in Hr. rewrite contains_char in Hr.
        by apply negb_false_iff in Hr.
    + cbn [split_once]. intros [= <- <-] Hc. apply split_once_None in Hs. specialize (Hc ltac:(by apply starts_with_spec; eexists)).
      congruence.
  - intros H _. destruct (split_once rest "/") as [[x y]|] eqn:Hr.
    + injection H as <- <-. split; [|by eexists]. rewrite sapp_nil_l. pose proof (split_once_Some _ _ _ _ Hr) as ->.
      apply whole_plain; [|by apply (split_char_free _ "/") in Hr].
      destruct x as [|b x]; [done|]. by rewrite bracket_app in Hb.
    + injection H as <- <-. split; [|by exists ""]. apply whole_plain; [done|].
      apply split_once_None in Hr. change "/" with (char_of "/") in Hr. rewrite contains_char in Hr. by apply negb_false_iff in Hr.
Qed.

Lemma http_whole a q : whole a -> has_explicit_port a = true ->
  parse_service_probe_target ("http://" +:+ (a +:+ ("/" +:+ q))) = Http a ("/" +:+ q).
Proof.
  intros Ha Hp. unfold parse_service_probe_target, split_scheme.
  replace (strip_prefix ("http://" +:+ (a +:+ ("/" +:+ q))) "http://") with (Some (a +:+ ("/" +:+ q))).
  2: { unfold strip_prefix. replace (starts_with _ _) with true by (symmetry; apply starts_with_spec; by eexists).
       done. }
  cbv beta iota delta [from_option id]. rewrite (split_whole a q Ha). cbn. unfold ensure_port. by rewrite Hp.
Qed.

(** Writing the target of a URL as a URL and reading it again is the target,
    if it has a port: it has none where an opened bracket is not closed, or is
    not followed by one. *)
Lemma target_is_a_normal_form url a p : parse_service_probe_target url = Http a p -> has_explicit_port a = true ->
  parse_service_probe_target ("http://" +:+ (a +:+ p)) = Http a p.
Proof.
  unfold parse_service_probe_target at 1. destruct (default _ _) as [scheme rest].
  destruct (split_authority_and_path rest) as [x y] eqn:Hs.
  destruct (String.eqb scheme "http"); [|by destruct (String.eqb scheme "https")]. intros [= <- <-] Hport.
  destruct (split_is_whole rest x y Hs) as (Hw & q & ->).
  { intros Hb. destruct (contains x "]") eqn:Hc; [done|]. exfalso. revert Hport.
    assert (forall z, contains z "]" = false -> starts_with z "[" = true -> has_explicit_port z = false) as Hno.
    { intros z Hz Hzb. apply starts_with_spec in Hzb as [t ->]. unfold has_explicit_port.
      replace (strip_prefix ("[" +:+ t) "[") with (Some t) by (unfold strip_prefix; cbn; by destruct t).
      destruct (split_once t "]") as [[l r]|] eqn:Ht; [|done]. exfalso.
      apply not_true_iff_false in Hz. apply Hz, contains_app_r. apply split_once_Some in Ht. apply contains_spec. by exists l, r. }
    unfold ensure_port. rewrite (Hno x Hc Hb). rewrite Hno; [done| |].
    - change "]" with (char_of "]") in Hc |- *. rewrite contains_char in Hc |- *. rewrite !free_app.
      apply negb_false_iff in Hc. rewrite Hc. apply negb_false_iff. cbn [andb]. unfold free at 2.
      rewrite (sforall_impl byte_is_digit); [done| |apply show_N_digits].
      intros c Hd. destruct (Ascii.eqb_spec c "]"); [by subst|done].
    - destruct x as [|b x]; [done|]. by rewrite bracket_app. }
  cbn [is_empty]. rewrite sapp_cons. apply http_whole; [by apply ensure_whole|done].
Qed.

(** The address that clients are given for genie-core is the one its health
    probe dials, if the bind host is a host name, an IPv4 or an IPv6 address. *)
Lemma health_probe_reaches_core c : free "/" (trim (bind_host (cf_core c))) = true ->
  free "[" (trim (bind_host (cf_core c))) = true -> free "]" (trim (bind_host (cf_core c))) = true ->
  parse_service_probe_target (core_health_url c) = Http (core_http_addr c) "/api/health".
Proof.
  unfold core_health_url, core_http_addr. set (h0 := trim _). intros Hs Hb He.
  set (h := if is_one_of h0 _ then "127.0.0.1" else h0).
  assert (free "/" h = true /\ free "[" h = true /\ free "]" h = true) as (Hs' & Hb' & He') by (unfold h; by case_match).
  clearbody h. clear h0 Hs Hb He. set (n := core_port (cf_core c)).
  pose proof (port_free n) as Hn.
  assert (forall t, starts_with (h +:+ (":" +:+ t)) "[" = false) as Hnb.
  { intros t. destruct h as [|b h]; [done|]. rewrite bracket_app by done. cbn [starts_with]. cbn [free sforall] in Hb'.
    apply andb_true_iff in Hb' as [Hb' _]. rewrite (Ascii.eqb_sym "[" b). by destruct (Ascii.eqb b "["). }
  destruct (contains h ":" && negb (starts_with h "[")).
  - apply (http_whole _ "api/health").
    + replace ("[" +:+ (h +:+ ("]:" +:+ show_N n))) with (String "[" h +:+ ("]" +:+ (":" +:+ show_N n))) by done.
      by constructor.
    + unfold has_explicit_port. replace (strip_prefix _ "[") with (Some (h +:+ String "]" (":" +:+ show_N n))).
      2: { unfold strip_prefix. cbn. by destruct (h +:+ ("]:" +:+ show_N n)). }
      pose proof (split_once_first h (":" +:+ show_N n) "]" He') as E. change (char_of "]") with "]" in E. rewrite E.
      by destruct (show_N n).
  - apply (http_whole _ "api/health").
    + apply whole_plain; [apply Hnb|by rewrite free_app, Hs'].
    + unfold has_explicit_port, strip_prefix. rewrite Hnb. apply contains_spec. by exists h, (show_N n).
Qed.

(** ** A household *)

Definition house_config (token bot : string) (chats : list Z) : Config := {|
  cf_core := {| bind_host := "::1"; core_port := 3000; ha_token := token; llm_model_name := "phi"; llm_model_path := "/m";
                skill_policy := {| pc_require_manifest := true; pc_require_signature := true;
                                   pc_signature_key_dir := "/keys"; pc_denied_permissions := [];
                                   pc_skill_execution_timeout_ms := 30000 |};
                tool_policy := default_tool_policy; actuation_safety := default_actuation_safety;
                speaker_enabled := false; speaker_provider := SpeakerIdentityProvider.None |};
  cf_agent := {| runtime_profile := AgentRuntimeProfile.Jetson; agent := {| agent_context_window_tokens := 4096 |};
                 ai_runtime_boundary := RuntimeBoundaryMode.ExternalRuntime;
                 voice_runtime_boundary := RuntimeBoundaryMode.TransitionalAdapter;
                 home_runtime_boundary := RuntimeBoundaryMode.TransitionalAdapter |};
  optional_ai_provider := {| ap_enabled := false; ap_provider := ProviderKind.OpenAiCompatible; ap_auth_mode := AuthMode.ApiKey;
                             ap_base_url := ""; ap_model := ""; ap_api_key_env := "KEY"; ap_oauth_token_env := "TOKEN";
                             ap_context_window_tokens := 4096; allow_remote_base_url := false |};
  privacy_proxy := default_privacy_proxy;
  services := {| core_url := "http://127.0.0.1:3000/api/health"; llm_url := "127.0.0.1:8080/health";
                 api_url := "127.0.0.1:4080/api/status"; homeassistant_url := Some "http://10.0.0.2:8123/";
                 nextcloud_url := None; jellyfin_url := None |};
  telegram := {| tg_enabled := true; tg_bot_token := bot; tg_allowed_chat_ids := chats; tg_allow_all_chats := false |};
  web_search := {| ws_enabled := true; ws_provider := WebSearchProvider.Duckduckgo; ws_allow_remote_base_url := false |};
  connectivity_on := false; transport := ConnectivityTransport.None; local_api_token := "" |}.

Example house_addresses :
  (core_health_url (house_config "a" "" []), api_status_url (house_config "a" "" []),
   services_url_addr <$> service_url_drifts (house_config "a" "" [])) =
  ("http://[::1]:3000/api/health", Ok "http://127.0.0.1:4080/api/status", ["127.0.0.1:3000"]).
Proof. vm_compute. reflexivity. Qed.

