(* ===== verification/Probe.v ===== *)
(** * Probes of services ([genie-common/src/probe.rs])

    One outbound exchange over plain TCP or TLS: the request that is written,
    the reading of the answer under a cap, and the verdict on its status.  A
    connection is bytes in pieces ([HttpFraming]), read a kilobyte at most at a
    time.  Below the cap the reading is that of the bytes, however they were
    cut; the cap does not bound a chunked answer. *)

From Stdlib Require Import Ascii String.
From S2P Require Import Prelude RustStr RustNum ControlLine HttpFraming LlmClient Config.
Local Open Scope string_scope.
Local Open Scope list_scope.
Local Open Scope rust_scope.

Definition DEFAULT_PROBE_MAX_RESPONSE_BYTES : N := 64 * 1024.
Definition crlf_crlf : string := crlf +:+ crlf.

Definition INVALID : string := "invalid HTTP response".
Definition TOO_LARGE : string := "response too large".
Definition READ_TIMEOUT : string := "read timeout".
Definition READ_FAILED : string := "failed to read HTTP response".

(** ** Reading *)

(** [read_with_timeout] into a buffer of 1024 bytes; no bytes is the end. *)
Fixpoint read_some (ps : list piece) : result (list ascii) string * list piece :=
  match ps with
  | [] => (Ok [], [])
  | Fault _ :: _ => (Err READ_FAILED, ps)
  | Stall :: _ => (Err READ_TIMEOUT, ps)
  | Data [] :: ps => read_some ps
  | Data l :: ps => (Ok (take 1024 l), match drop 1024 l with [] => ps | rest => Data rest :: ps end)
  end.

Definition len (l : list ascii) : N := N.of_nat (length l).
Definition left_in (ps : list piece) : nat := length (w_bytes (flatten ps)).

(** What a loop that ran out of fuel answers; none does. *)
Definition NO_FUEL : string := "".

(** The loops that read until the buffer has enough, unless it is over the
    cap; the end of the stream is then an invalid answer. *)
Fixpoint fill (enough over : list ascii -> bool) (fuel : nat) (buf : list ascii) (ps : list piece)
    : result (list ascii) string * list piece :=
  if enough buf then (Ok buf, ps)
  else if over buf then (Err TOO_LARGE, ps)
  else match fuel with
       | O => (Err NO_FUEL, ps)
       | S fuel =>
           match read_some ps with
           | (Err e, ps) => (Err e, ps)
           | (Ok [], ps) => (Err INVALID, ps)
           | (Ok chunk, ps) => fill enough over fuel (buf ++ chunk) ps
           end
       end.
Definition fill_from (enough over : list ascii -> bool) (buf : list ascii) (ps : list piece) :=
  fill enough over (S (left_in ps)) buf ps.

Section reading.
Context `{UT : Utf8}.

Definition parse_http_status (buf : list ascii) : result N string :=
  ok_or (split_whitespace (from_utf8_lossy buf) !! 1 ≫= parse_u16) INVALID.

Definition parse_content_length (headers : string) : option N :=
  find_map (fun line =>
    match split_once line ":" with
    | None => None
    | Some (name, value) =>
        if eq_ignore_ascii_case name "content-length" then parse_u64 (trim value) else None
    end) (lines_of headers).

Definition is_chunked (headers : string) : bool :=
  existsb (fun line => eq_ignore_ascii_case line "transfer-encoding: chunked") (lines_of headers).

Context (max_response_bytes : N).

Fixpoint eof_loop (fuel : nat) (body : list ascii) (ps : list piece) : result (list ascii) string :=
  if (max_response_bytes <? len body)%N then Err TOO_LARGE
  else match fuel with
       | O => Err NO_FUEL
       | S fuel =>
           match read_some ps with
           | (Err e, _) => Err e
           | (Ok [], _) => Ok body
           | (Ok chunk, ps) => eof_loop fuel (body ++ chunk) ps
           end
       end.
Definition read_to_eof_capped (body : list ascii) (ps : list piece) : result (list ascii) string :=
  eof_loop (S (left_in ps)) body ps.

Definition read_fixed_body (body : list ascii) (content_length : N) (ps : list piece) : result (list ascii) string :=
  let? body := (fill_from (fun b => negb (len b <? content_length)%N) (fun b => max_response_bytes <? len b)%N body ps).1 in
  Ok (take (N.to_nat content_length) body).

Definition has_lf (l : list ascii) : bool := match position_lf l with Some _ => true | None => false end.

(** The size of a chunk, from its line. *)
Definition chunk_size_of (line : list ascii) : result N string :=
  ok_or (parse_hex (trim (default "" (head (split_char (trim (from_utf8_lossy line)) ";"))))) INVALID.

(** A round of the loop reads one chunk. *)
Fixpoint chunked_loop (fuel : nat) (decoded scratch : list ascii) (ps : list piece) : result (list ascii) string :=
  match fuel with
  | O => Err NO_FUEL
  | S fuel =>
      match fill_from has_lf (fun s => max_response_bytes <? len s)%N scratch ps with
      | (Err e, _) => Err e
      | (Ok scratch, ps) =>
          let line_end := default 0 (position_lf scratch) in
          let? chunk_size := chunk_size_of (take line_end scratch) in
          let scratch := drop (S line_end) scratch in
          if (chunk_size =? 0)%N then Ok decoded
          else if (max_response_bytes <? chunk_size)%N then Err TOO_LARGE
          else
            match fill_from (fun s => negb (len s <? chunk_size + 2)%N)
                    (fun s => max_response_bytes <? len decoded + len s)%N scratch ps with
            | (Err e, _) => Err e
            | (Ok scratch, ps) =>
                chunked_loop fuel (decoded ++ take (N.to_nat chunk_size) scratch) (drop (N.to_nat chunk_size + 2) scratch) ps
            end
      end
  end.
Definition read_chunked_body (scratch : list ascii) (ps : list piece) : result (list ascii) string :=
  chunked_loop (S (length scratch + left_in ps)) [] scratch ps.

Definition read_http_body (headers : string) (body : list ascii) (ps : list piece) : result string string :=
  let? bytes :=
    (if is_chunked headers then read_chunked_body body ps
     else match parse_content_length headers with
          | Some content_length =>
              if (max_response_bytes <? content_length)%N then Err TOO_LARGE
              else read_fixed_body body content_length ps
          | None => read_to_eof_capped body ps
          end) in
  Ok (trim (from_utf8_lossy bytes)).

(** The end of the header, after its blank line. *)
Definition header_end (buf : list ascii) : option nat :=
  (fun lr => String.length lr.1 + 4) <$> split_once (of_bytes buf) crlf_crlf.
Definition has_header (buf : list ascii) : bool := bool_decide (is_Some (header_end buf)).

(** What is made of a buffer with a header in it. *)
Definition after_header (buf : list ascii) (ps : list piece) : result (N * string) string :=
  let stop := default 0 (header_end buf) in
  let? status := parse_http_status (take stop buf) in
  let? body := read_http_body (from_utf8_lossy (take stop buf)) (drop stop buf) ps in
  Ok (status, body).

Definition read_http_response (ps : list piece) : result (N * string) string :=
  match fill_from has_header (fun b => max_response_bytes <? len b)%N [] ps with
  | (Err e, _) => Err e
  | (Ok buf, ps) => after_header buf ps
  end.

End reading.

Definition validate_probe_status (status : N) : result unit string :=
  if (200 <=? status)%N && (status <? 400)%N then Ok tt
  else if (0 <? status)%N then Err ("HTTP " +:+ show_N status)
  else Err INVALID.

(** ** The exchange *)

Definition host_from_addr (addr : string) : string :=
  match strip_prefix addr "[" with
  | Some rest => default rest (head (split_char rest "]"))
  | None =>
      match rsplit_once addr ":" with
      | Some (host, port) => if sforall byte_is_digit port then host else addr
      | None => addr
      end
  end.

Definition request_text (method path host : string) (headers : list (string * string)) (body : option string) : string :=
  method +:+ " " +:+ path +:+ " HTTP/1.1" +:+ crlf +:+ "Host: " +:+ host +:+ crlf +:+
  concat_str ((fun kv => kv.1 +:+ ": " +:+ kv.2 +:+ crlf) <$> headers) +:+
  match body with Some b => "Content-Length: " +:+ show_nat (String.length b) +:+ crlf | None => "" end +:+
  "Connection: close" +:+ crlf_crlf +:+ default "" body.

(** The TLS layer: names it can check a certificate against, the handshake,
    and the exchange over it. *)
Class Tls (W : Type) := {
  server_name_ok : string -> bool;
  tls_connect : string -> string -> M W (attempt unit);
  tls_write : string -> string -> M W (attempt unit);
  tls_reply : string -> string -> M W (list piece);
}.

Section exchange.
Context {W : Type} `{SK : Sockets W} `{TL : Tls W} `{UT : Utf8}.

Definition in_time (timed_out : string) (failure : string -> string) (a : attempt unit) : result unit string :=
  match a with Done _ => Ok tt | Failed e => Err (failure e) | Elapsed => Err timed_out end.

Definition dial (addr : string) : M W (result unit string) :=
  let! a := tcp_connect addr in ret (in_time "connect timeout" (fun e => e) a).

Definition write_failure (_ : string) : string := "failed to write HTTP request".

Definition http_response_plain (addr path method : string) (headers : list (string * string)) (body : option string)
    (max_response_bytes : N) : M W (result (N * string) string) :=
  let!? _ := dial addr in
  let request := request_text method path addr headers body in
  let! written := tcp_write addr request in
  match in_time "request write timed out" write_failure written with
  | Err e => ret (Err e)
  | Ok _ => let! reply := tcp_reply addr request in ret (read_http_response max_response_bytes reply)
  end.

Definition http_response_tls (addr path method : string) (headers : list (string * string)) (body : option string)
    (max_response_bytes : N) : M W (result (N * string) string) :=
  let!? _ := dial addr in
  let host := host_from_addr addr in
  if negb (server_name_ok host) then ret (Err ("invalid TLS server name: " +:+ host))
  else
    let! shaken := tls_connect host addr in
    match in_time "TLS handshake timeout" (fun e => e) shaken with
    | Err e => ret (Err e)
    | Ok _ =>
        let request := request_text method path addr headers body in
        let! written := tls_write addr request in
        match in_time "request write timed out" write_failure written with
        | Err e => ret (Err e)
        | Ok _ => let! reply := tls_reply addr request in ret (read_http_response max_response_bytes reply)
        end
    end.

Definition http_request (addr path : string) (tls : bool) (method : string) (headers : list (string * string))
    (body : option string) (max_response_bytes : N) : M W (result (N * string) string) :=
  if tls then http_response_tls addr path method headers body max_response_bytes
  else http_response_plain addr path method headers body max_response_bytes.

Definition probe_http_get (addr path : string) (tls : bool) : M W (result unit string) :=
  let!? answer := http_request addr path tls "GET" [] None DEFAULT_PROBE_MAX_RESPONSE_BYTES in
  ret (validate_probe_status answer.1).

Definition probe_http_get_body (addr path : string) (tls : bool) : M W (result string string) :=
  let!? answer := http_request addr path tls "GET" [] None DEFAULT_PROBE_MAX_RESPONSE_BYTES in
  ret (let? _ := validate_probe_status answer.1 in Ok answer.2).

Definition unsupported (scheme : string) : string := "unsupported URL scheme for probe: " +:+ scheme.

Definition probe_service_target (target : ServiceProbeTarget) : M W (result unit string) :=
  match target with
  | Http addr path => probe_http_get addr path false
  | Https addr path => probe_http_get addr path true
  | UnsupportedScheme scheme => ret (Err (unsupported scheme))
  end.

Definition probe_configured_url (url : string) : M W (result unit string) :=
  probe_service_target (parse_service_probe_target url).

Definition probe_target_body (target : ServiceProbeTarget) (path : string) : M W (result string string) :=
  match target with
  | Http addr _ => probe_http_get_body addr path false
  | Https addr _ => probe_http_get_body addr path true
  | UnsupportedScheme scheme => ret (Err (unsupported scheme))
  end.

End exchange.

(** ** Reading the bytes *)

(** What the end of a stream makes of a loop that needs more. *)
Definition end_error (e : ending) : string :=
  match e with Eof => INVALID | Broken _ => READ_FAILED | Silent => READ_TIMEOUT end.

Notation bytes_of ps := (w_bytes (flatten ps)).
Notation end_of ps := (w_end (flatten ps)).

Lemma read_some_spec ps :
  match read_some ps with
  | (Ok [], _) => bytes_of ps = [] /\ end_of ps = Eof
  | (Ok chunk, ps') => bytes_of ps = chunk ++ bytes_of ps' /\ end_of ps = end_of ps' /\ length chunk <= 1024
  | (Err e, _) => bytes_of ps = [] /\ end_of ps <> Eof /\ e = end_error (end_of ps)
  end.
Proof.
  induction ps as [|[[|a l]|e|] ps IH]; cbn [read_some flatten w_bytes w_end]; try done.
  assert (take 1024 (a :: l) = a :: take 1023 l) as -> by done.
  pose proof (take_drop 1024 (a :: l)) as E. cbn [take drop] in E |- *.
  split; [|split; [destruct (drop 1023 l); done|cbn; rewrite length_take; lia]].
  rewrite <- E at 1. destruct (drop 1023 l) as [|b k] eqn:D; cbn [flatten w_bytes].
  - by rewrite app_nil_r.
  - by rewrite <- (assoc_L (++)).
Qed.

Section filling.
Context (enough over : list ascii -> bool).

(** While the cap is not reached, filling depends on the bytes: it has enough
    when the whole would do, and then it is a prefix of the whole. *)
Lemma fill_spec fuel buf ps : left_in ps < fuel ->
  (forall b c, b ++ c = buf ++ bytes_of ps -> over b = false) ->
  match fill enough over fuel buf ps with
  | (Ok b, ps') => enough b = true /\ b ++ bytes_of ps' = buf ++ bytes_of ps /\ end_of ps' = end_of ps
  | (Err e, _) => e = end_error (end_of ps) /\ enough (buf ++ bytes_of ps) = false
  end.
Proof.
  revert buf ps. induction fuel as [|fuel IH]; intros buf ps Hf Hover; [lia|]. cbn [fill].
  destruct (enough buf) eqn:He; [done|]. rewrite (Hover buf (bytes_of ps) eq_refl).
  pose proof (read_some_spec ps) as Hr. destruct (read_some ps) as [[[|a chunk]|e] ps'].
  - destruct Hr as [-> ->]. by rewrite app_nil_r.
  - destruct Hr as (E & Ee & _). specialize (IH (buf ++ a :: chunk) ps').
    rewrite E, Ee in *. unfold left_in in *. rewrite E in Hf. cbn in Hf. rewrite length_app in Hf.
    rewrite <- (assoc_L (++)) in IH. apply IH; [lia|]. intros b c Hbc. by apply (Hover b c).
  - destruct Hr as (-> & _ & ->). by rewrite app_nil_r.
Qed.

(** Filling never runs out of fuel, and reads a kilobyte past the cap at most. *)
Lemma fill_fuel fuel buf ps : left_in ps < fuel ->
  match fill enough over fuel buf ps with (Err e, _) => e <> NO_FUEL | _ => True end.
Proof.
  revert buf ps. induction fuel as [|fuel IH]; intros buf ps Hf; [lia|]. cbn [fill].
  destruct (enough buf); [done|]. destruct (over buf); [done|].
  pose proof (read_some_spec ps) as Hr. destruct (read_some ps) as [[[|a chunk]|e] ps']; [done| |].
  - apply IH. destruct Hr as (E & _). unfold left_in in *. rewrite E, length_app in Hf. cbn in Hf. lia.
  - destruct Hr as (_ & Hn & ->). by destruct (end_of ps).
Qed.
End filling.

Lemma fill_bound enough cap fuel buf ps b ps' : (len buf <= cap + 1024)%N ->
  fill enough (fun b => cap <? len b)%N fuel buf ps = (Ok b, ps') -> (len b <= cap + 1024)%N.
Proof.
  revert buf ps. induction fuel as [|fuel IH]; intros buf ps Hb; cbn [fill].
  all: destruct (enough buf); [by intros [= <- _]|]; destruct (N.ltb_spec cap (len buf)) as [|Hle]; [done|].
  1: done.
  pose proof (read_some_spec ps) as Hr. destruct (read_some ps) as [[[|a chunk]|e] ps1]; [done| |done].
  destruct Hr as (_ & _ & Hl). apply IH. unfold len in *. rewrite length_app. lia.
Qed.

(** ** The reference *)

Section reference.
Context `{UT : Utf8} (cap : N).

Fixpoint ref_chunked (fuel : nat) (decoded s : list ascii) (e : ending) : result (list ascii) string :=
  match fuel with
  | O => Err NO_FUEL
  | S fuel =>
      match position_lf s with
      | None => Err (end_error e)
      | Some i =>
          let? size := chunk_size_of (take i s) in
          let s := drop (S i) s in
          if (size =? 0)%N then Ok decoded
          else if (cap <? size)%N then Err TOO_LARGE
          else if (len s <? size + 2)%N then Err (end_error e)
          else ref_chunked fuel (decoded ++ take (N.to_nat size) s) (drop (N.to_nat size + 2) s) e
      end
  end.

Definition ref_body (headers : string) (s : list ascii) (e : ending) : result (list ascii) string :=
  if is_chunked headers then ref_chunked (S (length s)) [] s e
  else match parse_content_length headers with
       | Some n => if (cap <? n)%N then Err TOO_LARGE
                   else if (len s <? n)%N then Err (end_error e) else Ok (take (N.to_nat n) s)
       | None => match e with Eof => Ok s | _ => Err (end_error e) end
       end.

(** The answer in a run of bytes and the way it ends. *)
Definition ref_response (w : wire) : result (N * string) string :=
  match header_end (w_bytes w) with
  | None => Err (end_error (w_end w))
  | Some stop =>
      let? status := parse_http_status (take stop (w_bytes w)) in
      let? body := ref_body (from_utf8_lossy (take stop (w_bytes w))) (drop stop (w_bytes w)) (w_end w) in
      Ok (status, trim (from_utf8_lossy body))
  end.

Lemma starts_with_more p s t : String.length p <= String.length s -> starts_with (s +:+ t) p = starts_with s p.
Proof.
  revert s. induction p as [|a p IH]; intros s Hl; [by destruct s, t|].
  destruct s as [|b s]; [cbn in Hl; lia|]. rewrite sapp_cons. cbn [starts_with]. rewrite IH; [done|]. cbn in Hl. lia.
Qed.

(** A separator that was found stays the first. *)
Lemma split_once_more s t p l r : split_once s p = Some (l, r) -> split_once (s +:+ t) p = Some (l, r +:+ t).
Proof.
  revert l. induction s as [|a s IH]; intros l H; pose proof (split_once_Some _ _ _ _ H) as Hs;
    pose proof (f_equal String.length Hs) as Hl; rewrite !length_sapp in Hl; cbn [split_once] in H.
  - destruct (starts_with "" p) eqn:Hp; [|done]. injection H as <- <-. cbn in Hl. destruct p; [|cbn in Hl; lia]. by destruct t.
  - pose proof (starts_with_more p (String a s) t ltac:(lia)) as Hm. rewrite sapp_cons in Hm |- *. cbn [split_once]. rewrite Hm.
    destruct (starts_with (String a s) p) eqn:Hp.
    + injection H as <- <-. f_equal. f_equal. apply starts_with_spec in Hp as [z Hz]. rewrite Hz, sdrop_app.
      rewrite <- sapp_cons, Hz, <- sapp_assoc. apply sdrop_app.
    + destruct (split_once s p) as [[l' r']|] eqn:E; [|done]. injection H as <- <-. by rewrite (IH l' eq_refl).
Qed.

Lemma header_end_more b c n : header_end b = Some n -> header_end (b ++ c) = Some n.
Proof.
  unfold header_end. rewrite of_bytes_app. destruct (split_once (of_bytes b) crlf_crlf) as [[l r]|] eqn:E; [|done].
  intros [= <-]. by rewrite (split_once_more _ _ _ _ _ E).
Qed.

Lemma header_end_le b n : header_end b = Some n -> n <= length b.
Proof.
  unfold header_end. destruct (split_once (of_bytes b) crlf_crlf) as [[l r]|] eqn:E; [|done]. intros [= <-].
  apply split_once_Some, (f_equal String.length) in E. rewrite !length_sapp in E. cbn [fst].
  replace (String.length (of_bytes b)) with (length b) in E; [change (String.length crlf_crlf) with 4 in E; lia|].
  by rewrite <- length_bytes, bytes_of_bytes.
Qed.

Lemma has_lf_more b c : has_lf b = true -> position_lf (b ++ c) = position_lf b.
Proof. unfold has_lf. rewrite position_lf_app. by destruct (position_lf b). Qed.

Lemma len_app b c : len (b ++ c) = (len b + len c)%N.
Proof. unfold len. rewrite length_app. lia. Qed.

Lemma fill_from_spec enough over buf ps : (forall b c, b ++ c = buf ++ bytes_of ps -> over b = false) ->
  match fill_from enough over buf ps with
  | (Ok b, ps') => enough b = true /\ b ++ bytes_of ps' = buf ++ bytes_of ps /\ end_of ps' = end_of ps
  | (Err e, _) => e = end_error (end_of ps) /\ enough (buf ++ bytes_of ps) = false
  end.
Proof. intros H. apply fill_spec; [lia|done]. Qed.

(** The chunks are those of the bytes. *)
Lemma chunked_loop_ref fuel decoded scratch ps : (len decoded + len (scratch ++ bytes_of ps) <= cap)%N ->
  chunked_loop cap fuel decoded scratch ps = ref_chunked fuel decoded (scratch ++ bytes_of ps) (end_of ps).
Proof.
  revert decoded scratch ps. induction fuel as [|fuel IH]; intros decoded scratch ps Hcap; [done|].
  cbn [chunked_loop ref_chunked].
  pose proof (fill_from_spec has_lf (fun s => cap <? len s)%N scratch ps) as Hf.
  destruct (fill_from has_lf _ scratch ps) as [[b|e] ps1].
  2: { destruct Hf as [-> Hn]; [|unfold has_lf in Hn; by destruct (position_lf _)].
       intros b c E. apply N.ltb_ge. rewrite <- E, len_app in Hcap. lia. }
  destruct Hf as (Hb & E & Ee).
  { intros x y E. apply N.ltb_ge. rewrite <- E, len_app in Hcap. lia. }
  rewrite <- E, <- Ee in *. rewrite (has_lf_more _ _ Hb). unfold has_lf in Hb.
  destruct (position_lf b) as [i|] eqn:Hi; [|done]. cbn [default]. cbv beta iota delta [from_option id].
  pose proof (position_lf_lt _ _ Hi) as Hlt. rewrite take_app_le by lia.
  destruct (chunk_size_of (take i b)) as [size|]; [|done]. cbn [rbind].
  rewrite drop_app_le by lia. set (s1 := drop (S i) b).
  destruct (size =? 0)%N; [done|]. destruct (cap <? size)%N; [done|].
  assert (len decoded + len (s1 ++ bytes_of ps1) <= cap)%N as Hcap1.
  { rewrite len_app in Hcap |- *. unfold s1, len in *. rewrite length_drop. lia. }
  pose proof (fill_from_spec (fun s => negb (len s <? size + 2)%N) (fun s => cap <? len decoded + len s)%N s1 ps1) as Hf.
  destruct (fill_from _ _ s1 ps1) as [[b2|e] ps2].
  2: { destruct Hf as [-> Hn]; [|cbv beta in Hn; apply negb_false_iff in Hn; by rewrite Hn].
       intros x y E2. apply N.ltb_ge. rewrite <- E2, len_app in Hcap1. lia. }
  destruct Hf as (Hb2 & E2 & Ee2).
  { intros x y E2. apply N.ltb_ge. rewrite <- E2, len_app in Hcap1. lia. }
  cbv beta in Hb2. apply negb_true_iff, N.ltb_ge in Hb2. rewrite <- E2, <- Ee2 in *.
  replace (len (b2 ++ bytes_of ps2) <? size + 2)%N with false by (symmetry; apply N.ltb_ge; rewrite len_app; lia).
  unfold len in Hb2. rewrite take_app_le, drop_app_le by lia. apply IH.
  rewrite len_app in Hcap1 |- *. rewrite !len_app. unfold len in *. rewrite length_take, length_drop. lia.
Qed.

Lemma eof_loop_ref fuel body ps : left_in ps < fuel -> (len (body ++ bytes_of ps) <= cap)%N ->
  eof_loop cap fuel body ps = match end_of ps with Eof => Ok (body ++ bytes_of ps) | e => Err (end_error e) end.
Proof.
  revert body ps. induction fuel as [|fuel IH]; intros body ps Hf Hcap; [lia|]. cbn [eof_loop].
  replace (cap <? len body)%N with false by (symmetry; apply N.ltb_ge; rewrite len_app in Hcap; lia).
  pose proof (read_some_spec ps) as Hr. destruct (read_some ps) as [[[|a chunk]|e] ps'].
  - destruct Hr as [-> ->]. by rewrite app_nil_r.
  - destruct Hr as (E & Ee & _). rewrite E, Ee, (assoc_L (++)) in *. apply IH; [|done].
    unfold left_in in *. rewrite E, length_app in Hf. cbn in Hf. lia.
  - destruct Hr as (_ & Hn & ->). by destruct (end_of ps).
Qed.

Lemma read_http_body_ref headers body ps : (len (body ++ bytes_of ps) <= cap)%N ->
  read_http_body cap headers body ps =
    rbind (ref_body headers (body ++ bytes_of ps) (end_of ps)) (fun b => Ok (trim (from_utf8_lossy b))).
Proof.
  intros Hcap. unfold read_http_body, ref_body. f_equal. destruct (is_chunked headers).
  { unfold read_chunked_body. rewrite length_app. by apply chunked_loop_ref. }
  destruct (parse_content_length headers) as [n|].
  - destruct (cap <? n)%N; [done|]. unfold read_fixed_body.
    pose proof (fill_from_spec (fun b => negb (len b <? n)%N) (fun b => cap <? len b)%N body ps) as Hf.
    destruct (fill_from _ _ body ps) as [[b|e] ps1]; cbn [fst rbind].
    + destruct Hf as (Hb & E & _).
      { intros x y E. apply N.ltb_ge. rewrite <- E, len_app in Hcap. lia. }
      cbv beta in Hb. apply negb_true_iff, N.ltb_ge in Hb. rewrite <- E.
      replace (len (b ++ bytes_of ps1) <? n)%N with false by (symmetry; apply N.ltb_ge; rewrite len_app; lia).
      unfold len in Hb. by rewrite take_app_le by lia.
    + destruct Hf as [-> Hn]; [|cbv beta in Hn; apply negb_false_iff in Hn; by rewrite Hn].
      intros x y E. apply N.ltb_ge. rewrite <- E, len_app in Hcap. lia.
  - unfold read_to_eof_capped. rewrite eof_loop_ref by (lia || done). by destruct (end_of ps).
Qed.

(** C25: An answer of at most the cap is read as the bytes it is, in whatever
    pieces they arrive: its status, and the body that its header frames; and it
    fails as the bytes do that come short. *)
Theorem answer_is_read_as_bytes ps : (len (bytes_of ps) <= cap)%N -> read_http_response cap ps = ref_response (flatten ps).
Proof.
  intros Hcap. unfold read_http_response, ref_response.
  pose proof (fill_from_spec has_header (fun b => cap <? len b)%N [] ps) as Hf. cbn [app] in Hf.
  assert (forall x y, x ++ y = bytes_of ps -> (cap <? len x)%N = false) as Hno.
  { intros x y E. apply N.ltb_ge. rewrite <- E, len_app in Hcap. lia. }
  specialize (Hf Hno). destruct (fill_from has_header _ [] ps) as [[b|e] ps1].
  - destruct Hf as (Hb & E & Ee). unfold has_header in Hb. apply bool_decide_eq_true in Hb as [stop Hs].
    rewrite <- E in *. rewrite (header_end_more _ (bytes_of ps1) _ Hs). unfold after_header. rewrite Hs.
    cbv beta iota delta [from_option id]. pose proof (header_end_le _ _ Hs) as Hle.
    rewrite take_app_le, drop_app_le by done. destruct (parse_http_status (take stop b)) as [status|]; [|done]. cbn [rbind].
    rewrite read_http_body_ref, Ee.
    + by destruct (ref_body _ _ _).
    + rewrite !len_app in *. unfold len in *. rewrite length_drop. lia.
  - destruct Hf as [-> Hn]. unfold has_header in Hn. apply bool_decide_eq_false in Hn. destruct (header_end (bytes_of ps)); [|done].
    exfalso. apply Hn. by eexists.
Qed.
End reference.

(** No reading runs out of fuel. *)
Section fuel.
Context `{UT : Utf8} (cap : N).

Lemma fill_from_fuel enough over buf ps :
  match fill_from enough over buf ps with (Err e, _) => e <> NO_FUEL | _ => True end.
Proof. apply fill_fuel. lia. Qed.

(** Whatever the cap, filling only moves bytes from the stream to the buffer. *)
Lemma fill_moves enough over fuel buf ps b ps' : fill enough over fuel buf ps = (Ok b, ps') ->
  b ++ bytes_of ps' = buf ++ bytes_of ps /\ enough b = true.
Proof.
  revert buf ps. induction fuel as [|fuel IH]; intros buf ps; cbn [fill].
  all: destruct (enough buf) eqn:He; [by intros [= <- <-]|]; destruct (over buf); [done|].
  1: done.
  pose proof (read_some_spec ps) as Hr. destruct (read_some ps) as [[[|a chunk]|e] ps1]; [done| |done].
  destruct Hr as (-> & _). rewrite (assoc_L (++)). apply IH.
Qed.

Lemma chunk_size_fuel l e : chunk_size_of l = Err e -> e <> NO_FUEL.
Proof. unfold chunk_size_of. destruct (parse_hex _); [done|]. by intros [= <-]. Qed.

Lemma chunked_fuel fuel decoded scratch ps : length scratch + left_in ps < fuel ->
  chunked_loop cap fuel decoded scratch ps <> Err NO_FUEL.
Proof.
  revert decoded scratch ps. induction fuel as [|fuel IH]; intros decoded scratch ps Hf; [lia|]. cbn [chunked_loop].
  pose proof (fill_from_fuel has_lf (fun s => cap <? len s)%N scratch ps) as H1.
  destruct (fill_from has_lf _ scratch ps) as [[b|e] ps1] eqn:E1; [|cbn in H1; congruence].
  apply fill_moves in E1 as [E1 Hlf]. apply (f_equal length) in E1. rewrite !length_app in E1.
  destruct (chunk_size_of _) as [size|e] eqn:Es; cbn [rbind]; [|intros [= ->]; by apply chunk_size_fuel in Es].
  destruct (size =? 0)%N; [done|]. destruct (cap <? size)%N; [done|].
  set (s1 := drop _ b).
  pose proof (fill_from_fuel (fun s => negb (len s <? size + 2)%N) (fun s => cap <? len decoded + len s)%N s1 ps1) as H2.
  destruct (fill_from _ _ s1 ps1) as [[b2|e] ps2] eqn:E2; [|cbn in H2; congruence].
  apply fill_moves in E2 as [E2 _]. apply (f_equal length) in E2. rewrite !length_app in E2. apply IH.
  unfold left_in in *. rewrite length_drop. unfold s1 in E2. rewrite length_drop in E2.
  destruct b as [|x b]; [done|]. cbn [length] in *. lia.
Qed.
End fuel.

(** ** The cap *)

(** A body framed by its length, or by the end of the stream, has the cap for
    a bound. *)
Lemma fixed_body_bounded cap body n ps b : (n <= cap)%N -> read_fixed_body cap body n ps = Ok b -> (len b <= cap)%N.
Proof.
  intros Hn. unfold read_fixed_body. intros H. apply rbind_ok in H as (x & _ & H). injection H as <-.
  unfold len. rewrite length_take. lia.
Qed.

Lemma eof_body_bounded cap body ps b : read_to_eof_capped cap body ps = Ok b -> (len b <= cap)%N.
Proof.
  unfold read_to_eof_capped. generalize (S (left_in ps)) as fuel. intros fuel. revert body ps.
  induction fuel as [|fuel IH]; intros body ps; cbn [eof_loop]; destruct (N.ltb_spec cap (len body)); try done.
  destruct (read_some ps) as [[[|a chunk]|e] ps']; [by intros [= <-]|apply IH|done].
Qed.

(** A chunked body has not: where each chunk arrives in one piece, none of the
    checks against the cap sees what was decoded before.  A peer that sends [n]
    chunks of four bytes is answered with all of them under a cap of eight. *)
Definition small_chunk : list ascii := bytes ("4" +:+ crlf +:+ "wxyz" +:+ crlf).
Definition chunk_flood (n : nat) : list piece := replicate n (Data small_chunk) ++ [Data (bytes ("0" +:+ crlf +:+ crlf))].

Lemma flood_round `{UT : Utf8} fuel decoded ps : chunk_size_of (bytes ("4" +:+ char_of cr)) = Ok 4%N ->
  chunked_loop 8 (S fuel) decoded [] (Data small_chunk :: ps) = chunked_loop 8 fuel (decoded ++ bytes "wxyz") [] ps.
Proof.
  intros Hs. cbn [chunked_loop].
  assert (fill_from has_lf (fun s => 8 <? len s)%N [] (Data small_chunk :: ps) = (Ok small_chunk, ps)) as -> by done.
  change (take (default 0 (position_lf small_chunk)) small_chunk) with (bytes ("4" +:+ char_of cr)). rewrite Hs. cbn [rbind].
  change (drop (S (default 0 (position_lf small_chunk))) small_chunk) with (bytes ("wxyz" +:+ crlf)).
  change (4 =? 0)%N with false. change (8 <? 4)%N with false. cbv beta iota.
  assert (fill_from (fun s => negb (len s <? 4 + 2)%N) (fun s => 8 <? len decoded + len s)%N (bytes ("wxyz" +:+ crlf)) ps
          = (Ok (bytes ("wxyz" +:+ crlf)), ps)) as -> by done.
  done.
Qed.

Lemma chunked_body_exceeds_the_cap `{UT : Utf8} n fuel decoded :
  chunk_size_of (bytes ("4" +:+ char_of cr)) = Ok 4%N -> chunk_size_of (bytes ("0" +:+ char_of cr)) = Ok 0%N -> n < fuel ->
  chunked_loop 8 fuel decoded [] (chunk_flood n) = Ok (decoded ++ mjoin (replicate n (bytes "wxyz"))).
Proof.
  intros H4 H0. revert fuel decoded. induction n as [|n IH]; intros fuel decoded Hf; (destruct fuel as [|fuel]; [lia|]).
  - unfold chunk_flood. cbn [replicate app chunked_loop mjoin]. set (stop := bytes ("0" +:+ crlf +:+ crlf)).
    assert (fill_from has_lf (fun s => 8 <? len s)%N [] [Data stop] = (Ok stop, [])) as -> by done.
    change (take (default 0 (position_lf stop)) stop) with (bytes ("0" +:+ char_of cr)). rewrite H0. cbn. by rewrite app_nil_r.
  - change (chunk_flood (S n)) with (Data small_chunk :: chunk_flood n). rewrite flood_round, IH by (lia || done).
    cbn [replicate]. cbn [mjoin list_join]. by rewrite (assoc_L (++)).
Qed.

(** ** Answers *)

Definition status_line : string := "HTTP/1.1 200 OK" +:+ crlf.
Definition ascii_utf8 : Utf8 := {| from_utf8_lossy := of_bytes; from_utf8 l := Some (of_bytes l) |}.

Definition keep_alive_answer : list piece :=
  [Data (bytes status_line); Data (bytes ("Content-Length: 5" +:+ crlf +:+ crlf +:+ "he")); Data (bytes "llo world"); Stall].

Lemma answer_is_read_as_bytes_witness :
  read_http_response (UT := ascii_utf8) 64 keep_alive_answer = Ok (200%N, "hello") /\
  read_http_response (UT := ascii_utf8) 64 keep_alive_answer = ref_response (UT := ascii_utf8) 64 (flatten keep_alive_answer).
Proof.
  split; [vm_compute; reflexivity|].
  apply (answer_is_read_as_bytes (UT := ascii_utf8) 64 keep_alive_answer). vm_compute. discriminate.
Defined.

(** The coding is found only by the exact line; another spelling is read to the
    end, sizes and all. *)
Example coding_needs_its_exact_line :
  read_http_response (UT := ascii_utf8) 99
    [Data (bytes (status_line +:+ "Transfer-Encoding:chunked" +:+ crlf +:+ crlf +:+ "2" +:+ crlf +:+ "ok" +:+ crlf))] =
  Ok (200%N, "2" +:+ crlf +:+ "ok").
Proof. vm_compute. reflexivity. Qed.

(** Any service whose second word is a number is alive. *)
Example not_http_is_healthy :
  read_http_response (UT := ascii_utf8) 99 [Data (bytes ("SMTP 250 ready" +:+ crlf +:+ crlf))] = Ok (250%N, "").
Proof. vm_compute. reflexivity. Qed.

Example hosts_of_addresses :
  host_from_addr <$> ["[::1]:443"; "127.0.0.1:8443"; "home.example"; "::1"] = ["::1"; "127.0.0.1"; "home.example"; ":"].
Proof. vm_compute. reflexivity. Qed.
