(* ===== verification/Health.v ===== *)
(** * The health monitor ([genie-health/src/checker.rs])

    Which services are probed, the log of the probes in a database whose
    statements may fail, and the alerts.  The theorem on alerts is about every
    sequence of rounds: a service is alerted at the first failure of a run and
    at every tenth, and at no other time. *)

From Stdlib Require Import Ascii String.
From S2P Require Import Prelude RustStr RustNum Json Sql HttpFraming LlmClient Config Probe.
Local Open Scope string_scope.
Local Open Scope list_scope.
Local Open Scope rust_scope.

(** ** Data *)

Record HealthConfig := { interval_secs : N; alert_enabled : bool; alert_webhook_url : string }.

Record ServiceStatus := {
  hs_name : string; hs_url : string; hs_healthy : bool; hs_response_ms : N; hs_error : option string;
}.

(** A row of [health_log]. *)
Record HealthRow := { hr_ts_ms : N; hr_service : string; hr_healthy : N; hr_response_ms : N; hr_error : option string }.

Record HealthMonitor := {
  hm_config : Config; hm_health : HealthConfig; hm_db : Conn (list HealthRow); failure_counts : gmap string N;
}.

Definition collect_endpoints (c : Config) : list (string * string) :=
  [("core", core_health_url c); ("llm", llm_url (services c))] ++
  match api_status_url c with Ok url => [("api", url)] | Err _ => [] end ++
  match homeassistant_url (services c) with Some url => [("homeassistant", url)] | None => [] end ++
  match nextcloud_url (services c) with Some url => [("nextcloud", url)] | None => [] end ++
  match jellyfin_url (services c) with Some url => [("jellyfin", url)] | None => [] end.

(** ** The log *)

(** SQLite keeps signed integers: a larger parameter is refused by the driver. *)
Definition i64_max : N := 9223372036854775807.
Definition fits_sqlite (n : N) : bool := (n <=? i64_max)%N.

Definition log_row (ts_ms : N) (s : ServiceStatus) : HealthRow := {|
  hr_ts_ms := ts_ms; hr_service := hs_name s; hr_healthy := if hs_healthy s then 1 else 0;
  hr_response_ms := hs_response_ms s; hr_error := hs_error s |}.

(** An insertion or a deletion that fails is logged and forgotten. *)
Definition insert_health_log (ts_ms : N) (s : ServiceStatus) (db : Conn (list HealthRow)) : Conn (list HealthRow) :=
  if fits_sqlite ts_ms && fits_sqlite (hs_response_ms s)
  then (update (fun rows => rows ++ [log_row ts_ms s]) db).2
  else db.

Definition prune_health_log (cutoff_ts_ms : N) (db : Conn (list HealthRow)) : Conn (list HealthRow) :=
  if fits_sqlite cutoff_ts_ms
  then (update (List.filter (fun r => negb (hr_ts_ms r <? cutoff_ts_ms)%N)) db).2
  else db.

(** ** Checks and alerts *)

(** The wall clock and the monotonic one, in milliseconds. *)
Class Clocks (W : Type) := { wall_ms : M W N; instant_ms : M W N }.

Section monitor.
Context {W : Type} `{CK : Clocks W} `{SK : Sockets W} `{TL : Tls W} `{UT : Utf8} `{SD : Serde}.

Definition check_http (name url : string) : M W ServiceStatus :=
  let! start := instant_ms in
  let! verdict := probe_configured_url url in
  let! stop := instant_ms in
  ret {| hs_name := name; hs_url := url; hs_healthy := is_ok verdict; hs_response_ms := u64_wrap (stop - start);
         hs_error := match verdict with Ok _ => None | Err e => Some e end |}.

Definition post_request (path host body : string) : string :=
  "POST " +:+ path +:+ " HTTP/1.1" +:+ crlf +:+ "Host: " +:+ host +:+ crlf +:+
  "Content-Type: application/json" +:+ crlf +:+ "Content-Length: " +:+ show_nat (String.length body) +:+ crlf +:+
  "Connection: close" +:+ crlf_crlf +:+ body.

(** The verdict on the first read, of 256 bytes at most. *)
Definition post_verdict (buf : list ascii) : result unit string :=
  let response := from_utf8_lossy buf in
  if starts_with response "HTTP/1." then
    let status_code := default 0%N (split_whitespace response !! 1 ≫= parse_u16) in
    if (200 <=? status_code)%N && (status_code <? 400)%N then Ok tt else Err ("HTTP " +:+ show_N status_code)
  else Err INVALID.

Definition send_http_post (url body : string) : M W (result unit string) :=
  let url_parsed := default url (strip_prefix url "http://") in
  let '(host_port, path) := default (url_parsed, "") (split_once url_parsed "/") in
  let path := "/" +:+ path in
  let! connected := tcp_connect host_port in
  match in_time "timeout" (fun e => e) connected with
  | Err e => ret (Err e)
  | Ok _ =>
      let request := post_request path host_port body in
      let! written := tcp_write host_port request in
      match written with
      | Failed e => ret (Err e)
      | Done _ | Elapsed =>
          let! reply := tcp_reply host_port request in
          ret (match (read_some reply).1 with
               | Ok bytes => post_verdict (take 256 bytes)
               | Err e => Err e
               end)
      end
  end.

Definition alert_message (s : ServiceStatus) : string :=
  "[GeniePod] " +:+ hs_name s +:+ " is DOWN: " +:+ default "unreachable" (hs_error s).
Definition alert_payload (s : ServiceStatus) : string :=
  to_str (Object [("message", Str (alert_message s)); ("service", Str (hs_name s)); ("severity", Str "critical")]).

(** [send_alert]: whether a request was made. *)
Definition send_alert (h : HealthConfig) (s : ServiceStatus) : M W bool :=
  if negb (alert_enabled h) || is_empty (alert_webhook_url h) then ret false
  else
    let! _ := send_http_post (alert_webhook_url h +:+ "/api/alert") (alert_payload s) in
    ret true.

Definition alert_due (count : N) : bool := (count =? 1)%N || (count mod 10 =? 0)%N.

Definition set_counts (m : HealthMonitor) (db : Conn (list HealthRow)) (counts : gmap string N) : HealthMonitor :=
  {| hm_config := hm_config m; hm_health := hm_health m; hm_db := db; failure_counts := counts |}.

(** What a check leaves of the counts, and whether it calls [send_alert]. *)
Definition count_status (s : ServiceStatus) (counts : gmap string N) : bool * gmap string N :=
  if hs_healthy s then (false, delete (hs_name s) counts)
  else
    let count := u32_wrap (default 0%N (counts !! hs_name s) + 1) in
    (alert_due count, <[hs_name s := count]> counts).

(** What is known of a check: its status, whether it called [send_alert], and
    whether a request was made. *)
Record Checked := { ck_status : ServiceStatus; ck_due : bool; ck_posted : bool }.

(** One round of the loop of [check_all]. *)
Definition check_service (ts_ms : N) (endpoint : string * string) (m : HealthMonitor) : M W (Checked * HealthMonitor) :=
  let! status := check_http endpoint.1 endpoint.2 in
  let db := insert_health_log ts_ms status (hm_db m) in
  let '(due, counts) := count_status status (failure_counts m) in
  let! posted := (if due then send_alert (hm_health m) status else ret false) in
  ret ({| ck_status := status; ck_due := due; ck_posted := posted |}, set_counts m db counts).

Fixpoint check_services (ts_ms : N) (endpoints : list (string * string)) (m : HealthMonitor)
    : M W (list Checked * HealthMonitor) :=
  match endpoints with
  | [] => ret ([], m)
  | e :: endpoints =>
      let! r := check_service ts_ms e m in
      let! rs := check_services ts_ms endpoints r.2 in
      ret (r.1 :: rs.1, rs.2)
  end.

Definition DAY_MS : N := 24 * 3600 * 1000.

Definition check_all (m : HealthMonitor) : M W (list Checked * HealthMonitor) :=
  let! ts_ms := wall_ms in
  let! r := check_services ts_ms (collect_endpoints (hm_config m)) m in
  ret (r.1, set_counts r.2 (prune_health_log (ts_ms - DAY_MS) (hm_db r.2)) (failure_counts r.2)).

(** The ticks of [run]. *)
Fixpoint check_rounds (n : nat) (m : HealthMonitor) : M W (list Checked * HealthMonitor) :=
  match n with
  | O => ret ([], m)
  | S n =>
      let! r := check_all m in
      let! rs := check_rounds n r.2 in
      ret (r.1 ++ rs.1, rs.2)
  end.

Definition new_monitor (c : Config) (h : HealthConfig) (db : Conn (list HealthRow)) : HealthMonitor :=
  {| hm_config := c; hm_health := h; hm_db := db; failure_counts := ∅ |}.

(** ** Alerts follow the runs of failures *)

(** The length of the run of failures of a service at the end of a history. *)
Definition run_step (name : string) (run : N) (s : ServiceStatus) : N :=
  if String.eqb (hs_name s) name then (if hs_healthy s then 0 else run + 1)%N else run.
Definition failing_run (name : string) (history : list ServiceStatus) : N := foldl (run_step name) 0%N history.

Lemma failing_run_snoc name history s : failing_run name (history ++ [s]) = run_step name (failing_run name history) s.
Proof. apply foldl_snoc. Qed.

Lemma failing_run_le name history : (failing_run name history <= N.of_nat (length history))%N.
Proof.
  induction history as [|s l IH] using rev_ind; [done|]. rewrite failing_run_snoc, length_app. unfold run_step. cbn.
  destruct (String.eqb _ _), (hs_healthy s); lia.
Qed.

(** The counts are the runs of the history. *)
Definition counted (history : list ServiceStatus) (counts : gmap string N) : Prop :=
  forall name, counts !! name = let run := failing_run name history in if (run =? 0)%N then None else Some run.

(** A history of checks, each alerted as its run says. *)
Definition alerted_as_due (h : HealthConfig) (history : list ServiceStatus) (checks : list Checked) : Prop :=
  forall before c after, checks = before ++ c :: after ->
  let run := failing_run (hs_name (ck_status c)) (history ++ (ck_status <$> before) ++ [ck_status c]) in
  ck_due c = (run =? 1)%N || (negb (run =? 0)%N && (run mod 10 =? 0)%N) /\
  ck_posted c = ck_due c && alert_enabled h && negb (is_empty (alert_webhook_url h)).

Lemma count_status_run history s counts : counted history counts ->
  (N.of_nat (length history) < u32_max)%N ->
  let run := failing_run (hs_name s) (history ++ [s]) in
  (count_status s counts).1 = (run =? 1)%N || (negb (run =? 0)%N && (run mod 10 =? 0)%N) /\
  counted (history ++ [s]) (count_status s counts).2.
Proof.
  intros Hc Hl. cbv zeta. pose proof (failing_run_le (hs_name s) history) as Hle.
  assert (default 0%N (counts !! hs_name s) = failing_run (hs_name s) history) as Hd.
  { rewrite Hc. cbv zeta. destruct (N.eqb_spec (failing_run (hs_name s) history) 0) as [->|]; done. }
  unfold count_status. rewrite failing_run_snoc. unfold run_step. rewrite String.eqb_refl.
  destruct (hs_healthy s) eqn:Hh; cbn [fst snd].
  - split; [done|]. intros name. cbv zeta. rewrite failing_run_snoc. unfold run_step. rewrite Hh.
    destruct (String.eqb_spec (hs_name s) name) as [->|Hn]; [by rewrite lookup_delete_eq|].
    rewrite lookup_delete_ne by done. apply Hc.
  - rewrite Hd. set (run := failing_run (hs_name s) history) in *.
    assert (u32_wrap (run + 1) = run + 1)%N as ->. { unfold u32_wrap. apply N.mod_small. unfold u32_max in Hl. lia. }
    split.
    + unfold alert_due. destruct (N.eqb_spec (run + 1) 0) as [E|E]; [lia|]. done.
    + intros name. cbv zeta. rewrite failing_run_snoc. unfold run_step. rewrite Hh.
      destruct (String.eqb_spec (hs_name s) name) as [<-|Hn].
      * rewrite lookup_insert_eq. fold run. destruct (N.eqb_spec (run + 1) 0) as [E|E]; [lia|done].
      * rewrite lookup_insert_ne by done. apply Hc.
Qed.

Lemma alerted_nil h history : alerted_as_due h history [].
Proof. intros [|c before] x after; by intros [=]. Qed.

Lemma alerted_cons h history c checks :
  (let run := failing_run (hs_name (ck_status c)) (history ++ [ck_status c]) in
   ck_due c = (run =? 1)%N || (negb (run =? 0)%N && (run mod 10 =? 0)%N) /\
   ck_posted c = ck_due c && alert_enabled h && negb (is_empty (alert_webhook_url h))) ->
  alerted_as_due h (history ++ [ck_status c]) checks -> alerted_as_due h history (c :: checks).
Proof.
  intros Hc Hcs [|b before] x after; intros [= <- E]; [exact Hc|].
  specialize (Hcs before x after E). cbv zeta in *. cbn [fmap list_fmap app]. by rewrite <- (assoc_L (++) history [_]) in Hcs.
Qed.

Lemma alerted_app h history l k : alerted_as_due h history l -> alerted_as_due h (history ++ (ck_status <$> l)) k ->
  alerted_as_due h history (l ++ k).
Proof.
  revert history. induction l as [|c l IH]; intros history Hl Hk; [by rewrite app_nil_r in Hk|].
  cbn [app]. apply alerted_cons; [exact (Hl [] c l eq_refl)|]. apply IH.
  - intros before x after E. specialize (Hl (c :: before) x after ltac:(by rewrite E)). cbv zeta in *.
    by rewrite <- (assoc_L (++) history [_]).
  - by rewrite <- (assoc_L (++) history [_]).
Qed.

Lemma send_alert_posts h s w : (send_alert h s w).1 = alert_enabled h && negb (is_empty (alert_webhook_url h)).
Proof.
  unfold send_alert. destruct (alert_enabled h); [|done]. destruct (is_empty (alert_webhook_url h)); [done|].
  cbn [negb orb]. by rewrite bind_run.
Qed.

(** What a sequence of checks from a counted history keeps. *)
Record followed (history : list ServiceStatus) (m : HealthMonitor) (checks : list Checked) (m' : HealthMonitor) : Prop := {
  fo_alerted : alerted_as_due (hm_health m) history checks;
  fo_counted : counted (history ++ (ck_status <$> checks)) (failure_counts m');
  fo_health : hm_health m' = hm_health m;
  fo_config : hm_config m' = hm_config m;
}.

Lemma check_service_follows ts e m history w : counted history (failure_counts m) ->
  (N.of_nat (length history) < u32_max)%N ->
  followed history m [(check_service ts e m w).1.1] (check_service ts e m w).1.2.
Proof.
  intros Hc Hl. unfold check_service. rewrite bind_run. set (st := (check_http e.1 e.2 w).1). set (w1 := (check_http e.1 e.2 w).2).
  destruct (count_status_run history st _ Hc Hl) as [Hd Hk]. cbv zeta in Hd.
  destruct (count_status st (failure_counts m)) as [due counts]. cbn [fst snd] in Hd, Hk. rewrite bind_run.
  assert (((if due then send_alert (hm_health m) st else ret false) w1).1 =
          due && (alert_enabled (hm_health m) && negb (is_empty (alert_webhook_url (hm_health m))))) as Hp.
  { destruct due; [apply send_alert_posts|done]. }
  cbn. split; cbn; [|done|done|done].
  apply alerted_cons; [|apply alerted_nil]. cbn. split; [exact Hd|]. rewrite <- andb_assoc. exact Hp.
Qed.

Lemma followed_app history m1 l m2 k m3 : followed history m1 l m2 -> followed (history ++ (ck_status <$> l)) m2 k m3 ->
  followed history m1 (l ++ k) m3.
Proof.
  intros [A1 B1 C1 D1] [A2 B2 C2 D2]. split.
  - apply alerted_app; [done|]. by rewrite <- C1.
  - by rewrite fmap_app, (assoc_L (++)).
  - by rewrite C2.
  - by rewrite D2.
Qed.

Lemma check_services_follow ts eps m history w : counted history (failure_counts m) ->
  (N.of_nat (length history + length eps) <= u32_max)%N ->
  followed history m (check_services ts eps m w).1.1 (check_services ts eps m w).1.2 /\
  length (check_services ts eps m w).1.1 = length eps.
Proof.
  revert m history w. induction eps as [|e eps IH]; intros m history w Hc Hl; cbn [check_services].
  - split; [|done]. split; [apply alerted_nil|by rewrite app_nil_r|done|done].
  - cbn [length] in Hl. pose proof (check_service_follows ts e m history w Hc ltac:(lia)) as H1.
    rewrite bind_run. set (r := check_service ts e m w) in *.
    destruct (IH r.1.2 (history ++ [ck_status r.1.1]) r.2 (fo_counted _ _ _ _ H1)) as [H2 Hn].
    { rewrite length_app. cbn [length]. lia. }
    rewrite bind_run. cbn. split; [by apply (followed_app _ _ [_] r.1.2)|by rewrite Hn].
Qed.

Lemma endpoints_le c : length (collect_endpoints c) <= 6.
Proof. unfold collect_endpoints. rewrite !length_app. repeat case_match; cbn; lia. Qed.

Lemma check_all_follows m history w : counted history (failure_counts m) ->
  (N.of_nat (length history + 6) <= u32_max)%N ->
  followed history m (check_all m w).1.1 (check_all m w).1.2 /\ length (check_all m w).1.1 <= 6.
Proof.
  intros Hc Hl. unfold check_all. rewrite bind_run. set (ts := (wall_ms w).1). set (w1 := (wall_ms w).2).
  pose proof (endpoints_le (hm_config m)) as He. rewrite bind_run.
  assert (N.of_nat (length history + length (collect_endpoints (hm_config m))) <= u32_max)%N as Hb by lia.
  destruct (check_services_follow ts (collect_endpoints (hm_config m)) m history w1 Hc Hb) as [[A B C D] Hn].
  unfold ret. cbn [fst snd]. split; [by split|]. by rewrite Hn.
Qed.

Lemma check_rounds_follow n m history w : counted history (failure_counts m) ->
  (N.of_nat (length history + 6 * n) <= u32_max)%N ->
  followed history m (check_rounds n m w).1.1 (check_rounds n m w).1.2.
Proof.
  revert m history w. induction n as [|n IH]; intros m history w Hc Hl; cbn [check_rounds].
  - split; [apply alerted_nil|by rewrite app_nil_r|done|done].
  - destruct (check_all_follows m history w Hc ltac:(lia)) as [H1 Hn]. rewrite bind_run.
    set (r := check_all m w) in *.
    pose proof (IH r.1.2 (history ++ (ck_status <$> r.1.1)) r.2 (fo_counted _ _ _ _ H1)) as H2.
    rewrite bind_run. cbn. eapply followed_app; [exact H1|]. apply H2.
    rewrite length_app, length_fmap. lia.
Qed.


(** ** The log holds a day *)

Lemma insert_rows ts s db r : r ∈ tables (insert_health_log ts s db) -> r ∈ tables db \/ r = log_row ts s.
Proof.
  unfold insert_health_log. destruct (_ && _); [|by left].
  destruct (update (fun rows => rows ++ [log_row ts s]) db) as [x db'] eqn:E. cbn.
  apply statement_fate in E as [[-> _]|(a & t & [= <- <-] & _ & ->)]; [by left|].
  intros [H|H]%elem_of_app; [by left|right]. by apply list_elem_of_singleton in H.
Qed.

(** Where no statement fails and the clock is within SQLite's integers, no row
    is older than a day after a round. *)
Lemma log_holds_a_day m w : ((wall_ms w).1 <= i64_max)%N ->
  quiet (hm_db (check_services (wall_ms w).1 (collect_endpoints (hm_config m)) m (wall_ms w).2).1.2) ->
  Forall (fun r => (wall_ms w).1 - DAY_MS <= hr_ts_ms r)%N (tables (hm_db (check_all m w).1.2)).
Proof.
  intros Hts Hq. unfold check_all. rewrite !bind_run. cbn [fst snd ret set_counts hm_db]. unfold prune_health_log.
  replace (fits_sqlite _) with true by (symmetry; apply N.leb_le; lia).
  rewrite update_quiet by done. cbn [snd]. apply Forall_forall. cbn [tables set_tables].
  intros r [_ Hr]%list_elem_of_In%filter_In. apply negb_true_iff, N.ltb_ge in Hr. lia.
Qed.

End monitor.

(** ** A household *)

(** A world where time stands still, no connection succeeds but to genie-api,
    and requests are recorded. *)
Record ToyNet := { tn_posts : list string; tn_api_up : bool }.
#[local] Instance toy_clocks : Clocks ToyNet := {| wall_ms w := (100000000%N, w); instant_ms w := (5%N, w) |}.
#[local] Instance toy_sockets : Sockets ToyNet := {|
  tcp_connect addr w := (if String.eqb addr "127.0.0.1:4080" && negb (tn_api_up w) then Failed "refused" else Done tt, w);
  tcp_write addr request w :=
    (Done tt, {| tn_posts := tn_posts w ++ (if starts_with request "POST" then [addr] else []); tn_api_up := tn_api_up w |});
  tcp_reply addr _ w := ([Data (bytes (status_line +:+ "Content-Length: 0" +:+ crlf_crlf))], w) |}.
#[local] Instance toy_tls : Tls ToyNet := {|
  server_name_ok _ := true; tls_connect _ _ w := (Done tt, w); tls_write _ _ w := (Done tt, w); tls_reply _ _ w := ([], w) |}.
#[local] Instance health_utf8 : Utf8 := ascii_utf8.
#[local] Instance health_serde : Serde := {| from_str _ := None; to_str _ := "{}" |}.

Definition toy_health : HealthConfig :=
  {| interval_secs := 30; alert_enabled := true; alert_webhook_url := "http://127.0.0.1:9000" |}.
Definition toy_db : Conn (list HealthRow) := {| tables := []; faults := [] |}.

Example eleven_failures_alert_twice :
  let '(checks, m, w) := check_rounds 11 (new_monitor (house_config "" "" []) toy_health toy_db)
                           {| tn_posts := []; tn_api_up := false |} in
  (tn_posts w, failure_counts m !! "api", length (tables (hm_db m))) = (["127.0.0.1:9000"; "127.0.0.1:9000"], Some 11%N, 44).
Proof. vm_compute. reflexivity. Qed.

Definition three_rounds : list Checked * HealthMonitor :=
  (check_rounds 3 (new_monitor (house_config "" "" []) toy_health toy_db) {| tn_posts := []; tn_api_up := false |}).1.

