(* ===== verification/SpeakerIdentity.v ===== *)
(** * Who speaks ([core/voice/identity.rs])

    Enrolled voices and their recognition: the reading of a WAV file, the
    fingerprint of its voiced frames, the profiles in a directory and the best
    match among them, which decides what the memory may say.  Floats compute in
    the kernel; the transcendental functions of the platform, the JSON of a
    profile and the file system are classes.  An index out of range is a panic,
    and so is a value. *)

From Stdlib Require Import Ascii String.
From S2P Require Import Prelude RustStr RustNum MemoryPolicy Config SkillLoader.
Local Open Scope string_scope.
Local Open Scope list_scope.
Local Open Scope rust_scope.

(** ** Data *)

Record SpeakerIdentity := { si_name : option string; confidence : IdentityConfidence.t }.
Definition unknown_speaker : SpeakerIdentity := {| si_name := None; confidence := IdentityConfidence.Unknown |}.

Record SpeakerIdentityRequest := { wav_path : option string; transcript : string; detected_language : option string }.
Record LocalBiometricRecognizer := { profile_dir : string; min_score : f32 }.
Record SpeakerMatch := { sm_name : string; sm_score : f32; sm_profile_path : string }.
Record SpeakerProfile := {
  schema_version : N; fingerprint_version : string; sp_name : string; created_ms : N; sp_sample_rate : N;
  sample_count : nat; fingerprint : list f32;
}.
Record WavAudio := { sample_rate : N; samples : list f32 }.

Definition PROFILE_SCHEMA_VERSION : N := 1.
Definition FINGERPRINT_VERSION : string := "genie_acoustic_v1".
Definition MIN_PROFILE_SAMPLES : nat := 1600.
Definition BAND_RANGES_HZ : list (Z * Z) :=
  [(80, 180); (180, 300); (300, 500); (500, 800); (800, 1200); (1200, 1800); (1800, 2600); (2600, 3600)]%Z.

Record SpeakerIdentityConfig := {
  sc_enabled : bool; sc_provider : SpeakerIdentityProvider.t; fixed_name : string; fixed_confidence : string;
  local_profile_dir : string; local_min_score : f32;
}.
Inductive Recognizer := NoSpeaker | FixedSpeaker (i : SpeakerIdentity) | LocalVoice (r : LocalBiometricRecognizer).

Definition identity_confidence_from_str (value : string) : IdentityConfidence.t :=
  let v := to_ascii_lowercase (trim value) in
  if String.eqb v "high" then IdentityConfidence.High
  else if String.eqb v "medium" then IdentityConfidence.Medium
  else if String.eqb v "low" then IdentityConfidence.Low
  else IdentityConfidence.Unknown.

(** [SpeakerIdentityProvider::from_config]. *)
Definition provider_from_config (c : SpeakerIdentityConfig) : Recognizer :=
  if negb (sc_enabled c) then NoSpeaker
  else match sc_provider c with
       | SpeakerIdentityProvider.None => NoSpeaker
       | SpeakerIdentityProvider.Fixed =>
           let name := trim (fixed_name c) in
           if is_empty name then NoSpeaker
           else FixedSpeaker {| si_name := Some name; confidence := identity_confidence_from_str (fixed_confidence c) |}
       | SpeakerIdentityProvider.LocalBiometric =>
           LocalVoice {| profile_dir := local_profile_dir c; min_score := local_min_score c |}
       end.

Definition build_memory_read_context (text : string) (speaker : SpeakerIdentity) : MemoryReadContext :=
  memory_read_context_from_text text (confidence speaker) true.

(** ** WAV files *)

(** A call that may panic. *)
Inductive outcome (A : Type) := Value (r : result A string) | Panic.
Arguments Value {A} r. Arguments Panic {A}.
Definition obind {A B} (o : outcome A) (f : A -> outcome B) : outcome B :=
  match o with Value (Ok a) => f a | Value (Err e) => Value (Err e) | Panic => Panic end.

Definition byte_at (data : list ascii) (i : nat) : option N := N_of_ascii <$> data !! i.
Definition u16_le (data : list ascii) (i : nat) : option N :=
  a ← byte_at data i; b ← byte_at data (i + 1); Some (a + 256 * b)%N.
Definition u32_le (data : list ascii) (i : nat) : option N :=
  a ← u16_le data i; b ← u16_le data (i + 2); Some (a + 65536 * b)%N.
Definition slice (data : list ascii) (i n : nat) : string := of_bytes (take n (drop i data)).

Record WavHead := {
  audio_format : option N; channels : option N; rate : option N; bits_per_sample : option N;
  data_range : option (nat * nat);
}.
Definition no_chunks : WavHead :=
  {| audio_format := None; channels := None; rate := None; bits_per_sample := None; data_range := None |}.

(** The four fields of a [fmt ] chunk; out of the data, the indexing panics. *)
Definition read_fmt (data : list ascii) (start : nat) (h : WavHead) : outcome WavHead :=
  match u16_le data start, u16_le data (start + 2), u32_le data (start + 4), u16_le data (start + 14) with
  | Some f, Some c, Some r, Some b =>
      Value (Ok {| audio_format := Some f; channels := Some c; rate := Some r; bits_per_sample := Some b;
                   data_range := data_range h |})
  | _, _, _, _ => Panic
  end.

(** The loop over the chunks; every round moves on by eight bytes at least. *)
Fixpoint wav_chunks (fuel : nat) (data : list ascii) (offset : nat) (h : WavHead) : outcome WavHead :=
  match fuel with
  | O => Value (Ok h)
  | S fuel =>
      if Nat.leb (offset + 8) (length data) then
        match u32_le data (offset + 4) with
        | None => Panic
        | Some size =>
            let chunk_start := offset + 8 in
            let chunk_end := N.to_nat (N.min (u64_saturate (N.of_nat chunk_start + size)) (N.of_nat (length data))) in
            let next := chunk_end + N.to_nat (size mod 2) in
            let id := slice data offset 4 in
            if String.eqb id "fmt " then
              if (size <? 16)%N || Nat.ltb (length data) chunk_end then Value (Err "invalid WAV fmt chunk")
              else obind (read_fmt data chunk_start h) (wav_chunks fuel data next)
            else if String.eqb id "data" then
              wav_chunks fuel data next
                {| audio_format := audio_format h; channels := channels h; rate := rate h;
                   bits_per_sample := bits_per_sample h; data_range := Some (chunk_start, chunk_end) |}
            else wav_chunks fuel data next h
        end
      else Value (Ok h)
  end.

Definition i16_of (n : N) : Z := if (n <? 32768)%N then Z.of_N n else (Z.of_N n - 65536)%Z.

(** The mean of the channels of a frame. *)
Definition mix_frame (data : list ascii) (cursor channels : nat) : option f32 :=
  let sample ch := (fun n => f32_div (f32_of_Z (i16_of n)) (f32_of_Z 32768)) <$> u16_le data (cursor + ch * 2) in
  mixed ← foldl (fun acc ch => m ← acc; s ← sample ch; Some (f32_add m s)) (Some (f32_of_Z 0)) (seq 0 channels);
  Some (f32_div mixed (f32_of_Z (Z.of_nat channels))).

Fixpoint mix_frames (n : nat) (data : list ascii) (cursor channels : nat) : option (list f32) :=
  match n with
  | O => Some []
  | S n => s ← mix_frame data cursor channels; l ← mix_frames n data (cursor + channels * 2) channels; Some (s :: l)
  end.

Definition unsupported (what : string) : string := "unsupported WAV file: " +:+ what.

(** [read_wav_mono_f32], of the bytes of the file. *)
Definition wav_of_bytes (data : list ascii) : outcome WavAudio :=
  if Nat.ltb (length data) 44 || negb (String.eqb (slice data 0 4) "RIFF") || negb (String.eqb (slice data 8 4) "WAVE")
  then Value (Err (unsupported "expected RIFF/WAVE"))
  else
    obind (wav_chunks (length data) data 12 no_chunks) (fun h =>
      if negb (bool_decide (audio_format h = Some 1%N)) || negb (bool_decide (bits_per_sample h = Some 16%N))
      then Value (Err (unsupported "expected 16-bit PCM"))
      else
        let ch := N.to_nat (default 0%N (channels h)) in
        if Nat.eqb ch 0 then Value (Err (unsupported "missing channel count"))
        else if (default 0 (rate h) =? 0)%N then Value (Err (unsupported "missing sample rate"))
        else match data_range h with
             | None => Value (Err (unsupported "missing data chunk"))
             | Some (start, stop) =>
                 match mix_frames ((stop - start) / (ch * 2)) data start ch with
                 | Some l => Value (Ok {| sample_rate := default 0%N (rate h); samples := l |})
                 | None => Panic
                 end
             end).

(** ** The fingerprint *)

Definition f32_sub := SFsub 24 128.
Definition f32_sqrt := SFsqrt 24 128.
Definition f32_of_nat (n : nat) : f32 := f32_of_Z (Z.of_nat n).
Definition f32_sum (l : list f32) : f32 := foldl f32_add (S754_zero true) l.
(** [f32::clamp] of a number. *)
Definition clamp (lo hi x : f32) : f32 := if SFltb x lo then lo else if SFltb hi x then hi else x.
(** [f32::round], half away from zero, [as usize]. *)
Definition round_N (x : f32) : N :=
  match x with
  | S754_infinity false => u64_max
  | S754_finite false m e =>
      N.min (Z.to_N (if (0 <=? e)%Z then Z.pos m * 2 ^ e else (Z.pos m + 2 ^ (- e - 1)) / 2 ^ (- e))%Z) u64_max
  | _ => 0%N
  end.

Class VoiceMath := { f32_cos : f32 -> f32; f32_log10 : f32 -> f32; f32_powf : f32 -> f32 -> f32 }.

Definition TINY : f32 := f32_dec 1 (-9).
Definition PI : f32 := f32_dec 314159274 (-8).
Definition half : f32 := f32_dec 5 (-1).

Definition voiced_samples (l : list f32) : list f32 :=
  let max_amp := foldl fl_max (f32_of_Z 0) (SFabs <$> l) in
  if SFleb max_amp (f32_dec 1 (-4)) then []
  else
    let threshold := fl_max (f32_mul max_amp (f32_dec 8 (-2))) (f32_dec 6 (-3)) in
    List.filter (fun s => SFleb threshold (SFabs s)) l.

Definition crosses (p : f32 * f32) : bool :=
  let zero := f32_of_Z 0 in
  (SFleb zero p.1 && SFltb p.2 zero) || (SFltb p.1 zero && SFleb zero p.2).
Definition zero_crossing_rate (frame : list f32) : f32 :=
  if Nat.ltb (length frame) 2 then f32_of_Z 0
  else f32_div (f32_of_nat (length (List.filter crosses (zip frame (tail frame))))) (f32_of_nat (length frame - 1)).

Definition spectral_centroid (bands : list f32) : f32 :=
  let total := f32_sum bands in
  if SFleb total TINY then f32_of_Z 0
  else f32_div (f32_sum (imap (fun idx power => f32_mul (f32_add (f32_of_nat idx) half) power) bands)) total.

Section fingerprint.
Context `{VM : VoiceMath}.

Definition hann_window (n : nat) : list f32 :=
  let denom := f32_of_nat (Nat.max (n - 1) 1) in
  (fun idx => f32_sub half (f32_mul half (f32_cos (f32_div (f32_mul (f32_mul (f32_of_Z 2) PI) (f32_of_nat idx)) denom)))) <$> seq 0 n.

(** The last two states of the filter. *)
Definition goertzel_step (coeff : f32) (q : f32 * f32) (sample : f32) : f32 * f32 :=
  (f32_add (f32_sub (f32_mul coeff q.1) q.2) sample, q.1).
Definition goertzel_power (windowed : list f32) (rate : N) (frequency_hz : f32) : f32 :=
  let omega := f32_div (f32_mul (f32_mul (f32_of_Z 2) PI) frequency_hz) (f32_of_Z (Z.of_N rate)) in
  let coeff := f32_mul (f32_of_Z 2) (f32_cos omega) in
  let '(q1, q2) := foldl (goertzel_step coeff) (f32_of_Z 0, f32_of_Z 0) windowed in
  fl_max (f32_sub (f32_add (f32_mul q1 q1) (f32_mul q2 q2)) (f32_mul (f32_mul coeff q1) q2)) (f32_of_Z 0).

Definition band_powers (frame : list f32) (rate : N) (window : list f32) : list f32 :=
  let windowed := zip_with f32_mul frame window in
  (fun b => goertzel_power windowed rate (f32_mul (f32_add (f32_of_Z b.1) (f32_of_Z b.2)) half)) <$> BAND_RANGES_HZ.

Definition frame_features (frame : list f32) (rate : N) (window : list f32) : list f32 :=
  let rms := f32_sqrt (f32_div (f32_sum ((fun s => f32_mul s s) <$> frame)) (f32_of_nat (length frame))) in
  let bands := band_powers frame rate window in
  let total_power := fl_max (f32_sum bands) TINY in
  let tiny := f32_dec 1 (-6) in
  [f32_div (f32_add (f32_log10 (fl_max rms tiny)) (f32_of_Z 6)) (f32_of_Z 6);
   zero_crossing_rate frame;
   f32_div (spectral_centroid bands) (f32_of_nat (length BAND_RANGES_HZ))] ++
  ((fun power => f32_add (f32_div (f32_log10 (fl_max (f32_div power total_power) tiny)) (f32_of_Z 6)) (f32_of_Z 1)) <$> bands).

Definition normalize_vector (values : list f32) : list f32 :=
  let norm := f32_sqrt (f32_sum ((fun v => f32_mul v v) <$> values)) in
  if SFltb TINY norm then (fun v => f32_div v norm) <$> values else values.

(** The frames of [n] samples, [hop] apart, a hundred and sixty at most. *)
Fixpoint frames (fuel n hop : nat) (voiced : list f32) : list (list f32) :=
  match fuel with
  | O => []
  | S fuel => if Nat.leb n (length voiced) then take n voiced :: frames fuel n hop (drop hop voiced) else []
  end.

Definition zero_features (n : nat) : list f32 := replicate n (f32_of_Z 0).
Definition mean_of (n : nat) (l : list (list f32)) : list f32 :=
  (fun v => f32_div v (f32_of_nat (length l))) <$> foldl (zip_with f32_add) (zero_features n) l.
Definition deviation_of (n : nat) (mean : list f32) (l : list (list f32)) : list f32 :=
  (fun v => f32_sqrt (f32_div v (f32_of_nat (length l)))) <$>
    foldl (fun acc frame => zip_with (fun a vm => f32_add a (f32_mul (f32_sub vm.1 vm.2) (f32_sub vm.1 vm.2))) acc (zip frame mean))
          (zero_features n) l.

Definition extract_fingerprint (audio : WavAudio) : result (list f32) string :=
  let voiced := voiced_samples (samples audio) in
  if Nat.ltb (length voiced) MIN_PROFILE_SAMPLES
  then Err "voice sample is too short or too quiet for speaker identification"
  else
    let frame_len := N.to_nat (N.max 256 (N.min (round_N (f32_mul (f32_of_Z (Z.of_N (sample_rate audio))) (f32_dec 32 (-3)))) 2048)) in
    let hop := Nat.max (frame_len / 2) 128 in
    let window := hann_window frame_len in
    let features := (fun f => frame_features f (sample_rate audio) window) <$> frames 160 frame_len hop voiced in
    match features with
    | [] => Err "voice sample has no usable voiced frames"
    | first :: _ =>
        let mean := mean_of (length first) features in
        Ok (normalize_vector (mean ++ deviation_of (length first) mean features))
    end.

Definition fingerprint_score (a b : list f32) : f32 :=
  match a, b with
  | [], _ | _, [] => f32_of_Z 0
  | _, _ =>
      if negb (Nat.eqb (length a) (length b)) then f32_of_Z 0
      else
        let zero := f32_of_Z 0 in
        let one := f32_of_Z 1 in
        let dot := f32_sum (zip_with f32_mul a b) in
        let distance := f32_sqrt (f32_sum (zip_with (fun x y => f32_mul (f32_sub x y) (f32_sub x y)) a b)) in
        let similarity := clamp zero one dot in
        let distance_penalty := clamp zero one (f32_div distance (f32_dec 35 (-2))) in
        f32_powf (clamp zero one (f32_mul similarity (f32_sub one distance_penalty))) (f32_dec 45 (-2))
  end.

End fingerprint.

(** ** Profiles *)

(** The loop of [sanitize_profile_name]. *)
Definition sanitize_char (out c : string) : string :=
  if char_byte is_ascii_alphanumeric c then out +:+ to_ascii_lowercase c
  else if (is_whitespace c || is_one_of c ["-"; "_"]) && negb (ends_with out "-") then out +:+ "-"
  else out.
Definition sanitize_profile_name (name : string) : string :=
  let trimmed := trim_matches (String.eqb "-") (foldl sanitize_char "" (chars name)) in
  if is_empty trimmed then "speaker" else trimmed.

Definition profile_path (dir name : string) : string := path_join dir (sanitize_profile_name name +:+ ".speaker.json").

(** The files, the JSON of a profile and the clock. *)
Class ProfileFiles (W : Type) := {
  pf_exists : string -> M W bool;
  pf_is_file : string -> M W bool;
  pf_entries : string -> M W (result (list (result string string)) string);
  pf_read : string -> M W (result (list ascii) string);
  pf_write : string -> list ascii -> M W (result unit string);
  pf_remove : string -> M W (result unit string);
  pf_create_dir_all : string -> M W (result unit string);
  pf_chmod_700 : string -> M W (result unit string);
  pf_now_ms : M W N;
}.
Class ProfileJson := {
  parse_profile : list ascii -> result SpeakerProfile string;
  print_profile : SpeakerProfile -> result (list ascii) string;
}.

Section profiles.
Context {W : Type} `{PF : ProfileFiles W} `{PJ : ProfileJson} `{VM : VoiceMath}.

Definition read_profile (path : string) : M W (result SpeakerProfile string) :=
  let! bytes := pf_read path in
  ret (rbind bytes parse_profile).

Definition is_profile_file (path : string) : M W bool :=
  let! file := pf_is_file path in
  ret (file && match file_name path with Some n => ends_with n ".speaker.json" | None => false end).

Definition read_wav (path : string) : M W (outcome WavAudio) :=
  let! data := pf_read path in
  ret (match data with Ok b => wav_of_bytes b | Err e => Value (Err e) end).

(** An audio file, to its fingerprint. *)
Definition fingerprint_of_file (path : string) : M W (outcome (WavAudio * list f32)) :=
  let! audio := read_wav path in
  ret (obind audio (fun a => Value (let? f := extract_fingerprint a in Ok (a, f)))).

Definition profile_of (name : string) (now : N) (audio : WavAudio) (print : list f32) : SpeakerProfile := {|
  schema_version := PROFILE_SCHEMA_VERSION; fingerprint_version := FINGERPRINT_VERSION; sp_name := name;
  created_ms := now; sp_sample_rate := sample_rate audio; sample_count := length (samples audio); fingerprint := print |}.

(** The directory is made and closed to others, then the profile is written. *)
Definition save_profile (dir name : string) (p : SpeakerProfile) : M W (result SpeakerProfile string) :=
  let!? _ := pf_create_dir_all dir in
  let!? _ := pf_chmod_700 dir in
  match print_profile p with
  | Err e => ret (Err e)
  | Ok bytes => let!? _ := pf_write (profile_path dir name) bytes in ret (Ok p)
  end.

Definition enroll_speaker_file (dir name wav : string) : M W (outcome SpeakerProfile) :=
  let name := trim name in
  if is_empty name then ret (Value (Err "speaker name is required"))
  else
    let! f := fingerprint_of_file wav in
    match f with
    | Panic => ret Panic
    | Value (Err e) => ret (Value (Err e))
    | Value (Ok (audio, print)) =>
        let! now := pf_now_ms in
        let! r := save_profile dir name (profile_of name now audio print) in
        ret (Value r)
    end.

(** The profile of a directory entry, if it is one that can be read. *)
Definition entry_profile (path : string) : M W (option SpeakerProfile) :=
  let! profile := is_profile_file path in
  if profile then let! p := read_profile path in ret (to_option p) else ret None.

Fixpoint insert_profile (p : SpeakerProfile) (l : list SpeakerProfile) : list SpeakerProfile :=
  match l with
  | [] => [p]
  | q :: l => if String.leb (sp_name p) (sp_name q) then p :: q :: l else q :: insert_profile p l
  end.

Fixpoint read_entries (entries : list (result string string)) : M W (result (list SpeakerProfile) string) :=
  match entries with
  | [] => ret (Ok [])
  | Err e :: _ => ret (Err e)
  | Ok path :: entries =>
      let! p := entry_profile path in
      let!? rest := read_entries entries in
      ret (Ok (match p with Some p => p :: rest | None => rest end))
  end.

Definition list_speaker_profiles (dir : string) : M W (result (list SpeakerProfile) string) :=
  let! found := pf_exists dir in
  if negb found then ret (Ok [])
  else
    let!? entries := pf_entries dir in
    let!? profiles := read_entries entries in
    ret (Ok (foldr insert_profile [] profiles)).

Definition remove_speaker_profile (dir name : string) : M W (result string string) :=
  let name := trim name in
  if is_empty name then ret (Err "speaker name is required")
  else
    let path := profile_path dir name in
    let! found := pf_exists path in
    if negb found then ret (Err ("speaker profile not found: " +:+ path))
    else let!? _ := pf_remove path in ret (Ok path).

(** ** The best match *)

Definition best_step (print : list f32) (min : f32) (path : string) (p : SpeakerProfile) (best : option SpeakerMatch)
    : option SpeakerMatch :=
  if negb (String.eqb (fingerprint_version p) FINGERPRINT_VERSION) then best
  else
    let score := fingerprint_score print (fingerprint p) in
    if SFleb min score && match best with None => true | Some b => SFltb (sm_score b) score end
    then Some {| sm_name := sp_name p; sm_score := score; sm_profile_path := path |}
    else best.

Fixpoint identify_entries (print : list f32) (min : f32) (entries : list (result string string)) (best : option SpeakerMatch)
    : M W (result (option SpeakerMatch) string) :=
  match entries with
  | [] => ret (Ok best)
  | Err e :: _ => ret (Err e)
  | Ok path :: entries =>
      let! p := entry_profile path in
      identify_entries print min entries (match p with Some p => best_step print min path p best | None => best end)
  end.

Definition identify_fingerprint (dir : string) (print : list f32) (min : f32) : M W (result (option SpeakerMatch) string) :=
  let! found := pf_exists dir in
  if negb found then ret (Ok None)
  else
    let!? entries := pf_entries dir in
    identify_entries print min entries None.

Definition identify_speaker_file (dir wav : string) (min : f32) : M W (outcome (option SpeakerMatch)) :=
  let! f := fingerprint_of_file wav in
  match f with
  | Panic => ret Panic
  | Value (Err e) => ret (Value (Err e))
  | Value (Ok (_, print)) => let! m := identify_fingerprint dir print min in ret (Value m)
  end.

(** [LocalBiometricRecognizer::identify]; [None] is the panic it resumes. *)
Definition identify_local (r : LocalBiometricRecognizer) (rq : SpeakerIdentityRequest) : M W (option SpeakerIdentity) :=
  match wav_path rq with
  | None => ret (Some unknown_speaker)
  | Some path =>
      let! result := identify_speaker_file (profile_dir r) path (min_score r) in
      ret (match result with
           | Panic => None
           | Value (Ok (Some m)) =>
               Some {| si_name := Some (sm_name m);
                       confidence := if SFleb (f32_dec 92 (-2)) (sm_score m) then IdentityConfidence.High
                                     else IdentityConfidence.Medium |}
           | Value (Ok None) | Value (Err _) => Some unknown_speaker
           end)
  end.

Definition identify (provider : Recognizer) (rq : SpeakerIdentityRequest) : M W (option SpeakerIdentity) :=
  match provider with
  | NoSpeaker => ret (Some unknown_speaker)
  | FixedSpeaker i => ret (Some i)
  | LocalVoice r => identify_local r rq
  end.

(** ** Lemmas *)

Section best.
Context (print : list f32) (min : f32).
Notation score pp := (fingerprint_score print (fingerprint (snd pp))).

Definition fits (pp : string * SpeakerProfile) : Prop :=
  fingerprint_version pp.2 = FINGERPRINT_VERSION /\ SFleb min (score pp) = true.

(** The best of the profiles read so far, with their paths: one of those that
    fit, and none that fits is better. *)
Definition seen_best (seen : list (string * SpeakerProfile)) (best : option SpeakerMatch) : Prop :=
  match best with
  | None => forall pp, pp ∈ seen -> ~ fits pp
  | Some b => (exists pp, pp ∈ seen /\ fits pp /\ sm_name b = sp_name pp.2 /\ sm_profile_path b = pp.1 /\ sm_score b = score pp) /\
              forall pp, pp ∈ seen -> fits pp -> SFltb (sm_score b) (score pp) = false
  end.

Lemma seen_skip seen best new : seen_best seen best ->
  (fits new -> exists b, best = Some b /\ SFltb (sm_score b) (score new) = false) -> seen_best (seen ++ [new]) best.
Proof.
  intros H Hnew. destruct best as [b|]; cbn in *.
  - destruct H as [(pp & Hin & Hr) Hm]. split; [exists pp; split; [apply elem_of_app; by left|done]|].
    intros q [Hq|Hq]%elem_of_app Hf; [by apply Hm|]. apply list_elem_of_singleton in Hq. subst q.
    by destruct (Hnew Hf) as (b' & [= <-] & ?).
  - intros q [Hq|Hq]%elem_of_app; [by apply H|]. apply list_elem_of_singleton in Hq. subst q.
    intros Hf. by destruct (Hnew Hf) as (b & ? & _).
Qed.

Lemma seen_take seen best path p : seen_best seen best -> fits (path, p) ->
  (forall b, best = Some b -> SFltb (sm_score b) (fingerprint_score print (fingerprint p)) = true) ->
  seen_best (seen ++ [(path, p)])
    (Some {| sm_name := sp_name p; sm_score := fingerprint_score print (fingerprint p); sm_profile_path := path |}).
Proof.
  intros H Hf Hgt. split; [exists (path, p); split; [apply elem_of_app; right; by apply list_elem_of_singleton|done]|].
  cbn. intros q [Hq|Hq]%elem_of_app Hfq.
  - destruct best as [b|]; cbn in H; [|by destruct (H q Hq)]. destruct H as [_ Hm].
    destruct (SFltb _ (score q)) eqn:Hlt; [|done]. rewrite <- (Hm q Hq Hfq). symmetry. by eapply SFltb_trans; [apply Hgt|].
  - apply list_elem_of_singleton in Hq. subst q. apply SFltb_irrefl.
Qed.

Lemma best_step_seen path p seen best : seen_best seen best ->
  seen_best (seen ++ [(path, p)]) (best_step print min path p best).
Proof.
  intros H. unfold best_step. destruct (String.eqb_spec (fingerprint_version p) FINGERPRINT_VERSION) as [Hv|Hv]; cbn [negb].
  2: { apply seen_skip; [done|]. by intros [? _]. }
  destruct (SFleb min (fingerprint_score print (fingerprint p))) eqn:Hmin; cbn [andb].
  2: { apply seen_skip; [done|]. intros [_ Hs]. cbn in Hs. congruence. }
  destruct best as [b|].
  - destruct (SFltb (sm_score b) (fingerprint_score print (fingerprint p))) eqn:Hb.
    + eapply seen_take; [exact H|done|]. by intros ? [= <-].
    + apply seen_skip; [done|]. by eauto.
  - eapply seen_take; [exact H|done|done].
Qed.

(** Entries that were read, in their order. *)
Inductive read_as : list (result string string) -> W -> list (string * SpeakerProfile) -> W -> Prop :=
| ra_nil w : read_as [] w [] w
| ra_skip path entries w w1 l w2 : entry_profile path w = (None, w1) -> read_as entries w1 l w2 ->
    read_as (Ok path :: entries) w l w2
| ra_read path p entries w w1 l w2 : entry_profile path w = (Some p, w1) -> read_as entries w1 l w2 ->
    read_as (Ok path :: entries) w ((path, p) :: l) w2.

(** The match is the best enrolled voice: its profile is in the directory, of
    the version that is compared, its score reaches the minimum, and no other
    that is read has a higher one; no match means that none reaches it. *)
Lemma identified_is_best entries seen best w r w' : seen_best seen best ->
  identify_entries print min entries best w = (Ok r, w') ->
  exists l, read_as entries w l w' /\ seen_best (seen ++ l) r.
Proof.
  revert seen best w. induction entries as [|[path|e] entries IH]; intros seen best w Hs; cbn [identify_entries].
  - intros [= <- <-]. exists []. rewrite app_nil_r. split; [constructor|done].
  - rewrite bind_run. destruct (entry_profile path w) as [[p|] w1] eqn:E; cbn [fst snd]; intros H.
    + apply (IH (seen ++ [(path, p)])) in H as (l & Hr & Hb); [|by apply best_step_seen].
      exists ((path, p) :: l). rewrite <- (assoc_L (++)) in Hb. split; [by eapply ra_read|done].
    + apply (IH seen) in H as (l & Hr & Hb); [|done]. exists l. split; [by eapply ra_skip|done].
  - done.
Qed.
End best.

(** A voice that is recognised is trusted to Medium at least, and a speaker
    without a name to nothing. *)
Lemma recognised_confidence r rq w i w' : identify_local r rq w = (Some i, w') ->
  match si_name i with
  | Some _ => confidence i = IdentityConfidence.Medium \/ confidence i = IdentityConfidence.High
  | None => confidence i = IdentityConfidence.Unknown
  end.
Proof.
  unfold identify_local. destruct (wav_path rq); [|by intros [= <- _]]. rewrite bind_run.
  destruct (identify_speaker_file _ _ _ w) as [[[[m|]|e]|] w1]; cbn; intros [= <- _]; cbn; try done.
  case_match; auto.
Qed.
End profiles.

(** ** WAV files again *)

(** The data is read without a panic unless a [fmt ] chunk is cut off. *)
Definition wav_header (chunks : string) : list ascii := bytes ("RIFF" +:+ "0000" +:+ "WAVE" +:+ chunks).
Definition le32 (n : N) : string :=
  of_bytes ((fun k => ascii_of_N (N.shiftr n k mod 256)) <$> [0; 8; 16; 24]%N).
Definition le16 (n : N) : string := of_bytes ((fun k => ascii_of_N (N.shiftr n k mod 256)) <$> [0; 8]%N).
Definition fmt_chunk (format ch rate bits : N) : string :=
  "fmt " +:+ le32 16 +:+ le16 format +:+ le16 ch +:+ le32 rate +:+ le32 (rate * 2 * ch) +:+ le16 (2 * ch) +:+ le16 bits.

Example stereo_is_mixed :
  wav_of_bytes (wav_header (fmt_chunk 1 2 16000 16 +:+ "data" +:+ le32 8 +:+ le16 16384 +:+ le16 0 +:+ le16 32768 +:+ le16 32768)) =
  Value (Ok {| sample_rate := 16000; samples := [f32_dec 25 (-2); SFopp (f32_of_Z 1)] |}).
Proof. vm_compute. reflexivity. Qed.

(** A file that ends within its [fmt ] chunk panics the reader, since the end
    of the chunk that is compared with the length of the file was cut to it. *)
Example cut_format_chunk_panics :
  wav_of_bytes (wav_header ("LIST" +:+ le32 20 +:+ "01234567890123456789" +:+ "fmt " +:+ le32 16 +:+ le16 1)) = Panic.
Proof. vm_compute. reflexivity. Qed.

(** Two names may have one profile, and the second to enroll takes it over. *)
Example names_share_a_profile :
  profile_path "/p" "Ann Lee" = profile_path "/p" "ann-lee" /\
  profile_path "/p" (utf8 [230; 157; 142]%N) = profile_path "/p" (utf8 [231; 142; 139]%N).
Proof. split; vm_compute; reflexivity. Qed.
