(* ===== verification/VoiceIntent.v ===== *)
(** * Whether a transcript is meant for the house ([core/voice/intent.rs])

    The gate on what a shared room says: fillers and narration are dropped
    before they reach the model, requests never are. *)

From Stdlib Require Import Ascii String.
From S2P Require Import Prelude RustStr RustNum.
Local Open Scope string_scope.
Local Open Scope list_scope.

Inductive VoiceIntentDecision := Accept | Reject (reason : string).

(** The loop of [normalize_transcript]: the text so far, and whether it ends in
    the space of a run of white space. *)
Definition normalize_char (st : string * bool) (ch : string) : string * bool :=
  let '(out, pending_space) := st in
  if is_whitespace ch then
    if nonempty out && negb pending_space then (out +:+ " ", true) else (out, pending_space)
  else (out +:+ to_ascii_lowercase ch, false).

(** [String::pop] of a space. *)
Definition pop_space (s : string) : string := default s (strip_suffix s " ").

Definition normalize_transcript (text : string) : string :=
  let '(out, pending_space) := foldl normalize_char ("", false) (chars text) in
  if pending_space then pop_space out else out.

Definition REQUEST_STARTS : list string :=
  ["what "; "what's "; "whats "; "who "; "when "; "where "; "why "; "how "; "can you "; "could you "; "would you ";
   "will you "; "please "; "turn "; "set "; "play "; "search "; "look up "; "remember "; "forget "; "open "; "close ";
   "lock "; "unlock "; "dim "; "brighten "; "check "; "tell me "; "show me "; "is "; "are "; "do "; "did "; "weather ";
   "timer "; "remind "; "calculate "; "call "; "text "].
Definition REQUEST_WORDS : list string :=
  [" genie"; " jarvis"; " assistant"; " lights"; " light "; " thermostat"; " temperature"; " home assistant"; " music";
   " tv"; " volume"; " alarm"; " reminder"; " kitchen"; " bedroom"; " living room"; " garage"; " front door"; " weather";
   " time is it"; " status"; " search the web"].
Definition NARRATION_STARTS : list string :=
  ["the "; "a "; "an "; "he "; "she "; "they "; "it "; "we "; "this "; "that "].
Definition NARRATION_REQUESTS : list string :=
  ["please"; "can you"; "could you"; "would you"; " turn"; " set"; " play"; " search"; "remember"; "forget"; "weather";
   "timer"; "remind"; "assistant"; "genie"; "jarvis"].
Definition FILLERS : list string :=
  ["okay"; "ok"; "hmm"; "uh"; "um"; "mm"; "huh"; "right"; "yeah"; "yep"; "nope"; "thanks"; "thank you"; "good night"; "goodbye"].

Definition looks_like_direct_request (text : string) : bool :=
  ends_with text "?" || starts_any text REQUEST_STARTS || contains_any text REQUEST_WORDS.

Definition looks_like_ambient_narration (text : string) (words : nat) : bool :=
  Nat.leb 9 words && starts_any text NARRATION_STARTS && negb (ends_with text "?") &&
  negb (contains_any text NARRATION_REQUESTS).

Definition is_low_signal_filler (text : string) : bool := is_one_of text FILLERS.
Definition word_count (text : string) : nat := length (split_whitespace text).

Definition assess_transcript (text : string) : VoiceIntentDecision :=
  let lower := normalize_transcript text in
  if is_empty lower then Reject "empty transcript"
  else
    let words := word_count lower in
    if is_low_signal_filler lower then Reject "low-signal filler"
    else if looks_like_direct_request lower then Accept
    else if looks_like_ambient_narration lower words then Reject "ambient narration"
    else Accept.

(** ** The one pass is the two it replaced *)

Lemma join_snoc sep l x : l <> [] -> join sep (l ++ [x]) = join sep l +:+ (sep +:+ x).
Proof.
  induction l as [|a l IH]; [done|]. intros _. destruct l as [|b l]; [done|]. specialize (IH ltac:(done)).
  change ((a :: b :: l) ++ [x]) with (a :: ((b :: l) ++ [x])).
  change (join sep (a :: ((b :: l) ++ [x]))) with (a +:+ (sep +:+ join sep ((b :: l) ++ [x]))).
  rewrite IH. change (join sep (a :: b :: l)) with (a +:+ (sep +:+ join sep (b :: l))). by rewrite <- !sapp_assoc.
Qed.

Lemma substring_whole s t : String.substring 0 (String.length s) (s +:+ t) = s.
Proof. induction s as [|a s IH]; [by destruct t|]. rewrite sapp_cons. cbn. by rewrite IH. Qed.

(** The state of the loop after some words and the start of another. *)
Definition state_of (ws : list string) (cur : string) : string * bool :=
  match ws, cur with
  | [], "" => ("", false)
  | _, "" => (to_ascii_lowercase (join " " ws) +:+ " ", true)
  | _, _ => (to_ascii_lowercase (join " " (ws ++ [cur])), false)
  end.

Lemma state_of_word ws cur : cur <> "" -> state_of ws cur = (to_ascii_lowercase (join " " (ws ++ [cur])), false).
Proof. by destruct cur, ws. Qed.

Lemma state_step ws cur c : (forall w, w ∈ ws -> w <> "") -> c <> "" ->
  normalize_char (state_of ws cur) c =
    if is_whitespace c then (if is_empty cur then state_of ws cur else state_of (ws ++ [cur]) "")
    else state_of ws (cur +:+ c).
Proof.
  intros Hws Hc. unfold normalize_char. destruct (is_whitespace c).
  - destruct cur as [|a cur].
    + destruct ws as [|w ws]; cbn; [done|]. by rewrite andb_false_r.
    + rewrite state_of_word by done. cbn [is_empty].
      assert (nonempty (to_ascii_lowercase (join " " (ws ++ [String a cur]))) = true) as ->.
      { destruct ws as [|w ws]; [done|]. destruct w as [|b w]; [by destruct (Hws "" ltac:(left))|]. by destruct ws. }
      cbn [andb negb]. by destruct ws.
  - assert (cur +:+ c <> "") as Hne by (destruct cur; [by rewrite sapp_nil_l|done]). rewrite (state_of_word ws _ Hne).
    destruct cur as [|a cur].
    + rewrite sapp_nil_l. destruct ws as [|w ws]; cbn [state_of]; [done|].
      rewrite join_snoc by done. by rewrite !lower_app, <- sapp_assoc.
    + rewrite state_of_word by done. f_equal. rewrite <- lower_app. f_equal. destruct ws as [|w ws]; [done|].
      rewrite !join_snoc by done. by rewrite <- !sapp_assoc.
Qed.

Lemma loop_words cs ws cur : (forall w, w ∈ ws -> w <> "") -> (forall c, c ∈ cs -> c <> "") ->
  let '(out, pending) := foldl normalize_char (state_of ws cur) cs in
  (if pending then pop_space out else out) = to_ascii_lowercase (join " " (ws ++ words_of cur cs)).
Proof.
  revert ws cur. induction cs as [|c cs IH]; intros ws cur Hws Hcs.
  - cbn [foldl words_of]. destruct cur as [|a cur].
    + destruct ws as [|w ws]; [done|]. cbn [state_of is_empty]. rewrite app_nil_r. unfold pop_space, strip_suffix.
      replace (ends_with _ " ") with true by (symmetry; apply ends_with_spec; by eexists).
      rewrite length_sapp. cbn [String.length default]. rewrite Nat.add_sub. apply substring_whole.
    + by rewrite state_of_word.
  - cbn [foldl]. rewrite state_step by (done || apply Hcs; left).
    assert (forall c, c ∈ cs -> c <> "") as Hcs' by (intros x Hx; apply Hcs; by right).
    cbn [words_of]. destruct (is_whitespace c); [|by apply IH].
    destruct cur as [|a cur]; cbn [is_empty]; [by apply IH|].
    change (String a cur :: words_of "" cs) with ([String a cur] ++ words_of "" cs). rewrite (assoc_L (++)). apply IH; [|done].
    intros w [Hw|Hw]%elem_of_app; [by apply Hws|]. apply list_elem_of_singleton in Hw. by subst.
Qed.

(** The words of the text in lower case, with one space between them. *)
Lemma normalize_is_words text :
  normalize_transcript text = to_ascii_lowercase (join " " (split_whitespace text)).
Proof.
  unfold normalize_transcript, split_whitespace. pose proof (loop_words (chars text) [] "") as H. cbn [state_of app] in H.
  specialize (H ltac:(by intros w ?%elem_of_nil) (chars_nonempty text)).
  by destruct (foldl normalize_char ("", false) (chars text)).
Qed.

(** A question is never dropped, whatever precedes it. *)
Lemma question_is_accepted text : ends_with (normalize_transcript text) "?" = true -> assess_transcript text = Accept.
Proof.
  intros H. unfold assess_transcript. destruct (is_empty _) eqn:He; [by destruct (normalize_transcript text)|].
  assert (is_low_signal_filler (normalize_transcript text) = false) as ->.
  { unfold is_low_signal_filler, is_one_of. apply not_true_iff_false. intros Hf. apply eqb_elem in Hf.
    assert (forallb (fun f => negb (ends_with f "?")) FILLERS = true) as Hall by (vm_compute; reflexivity).
    rewrite forallb_elem in Hall. specialize (Hall _ Hf). by rewrite H in Hall. }
  unfold looks_like_direct_request. by rewrite H.
Qed.

(** Only fillers and long sentences are dropped. *)
Lemma dropped_is_filler_or_long text reason : assess_transcript text = Reject reason ->
  normalize_transcript text = "" \/ normalize_transcript text ∈ FILLERS \/ 9 <= word_count (normalize_transcript text).
Proof.
  unfold assess_transcript. destruct (normalize_transcript text) as [|a s] eqn:E; [by left|]. cbn [is_empty].
  destruct (is_low_signal_filler (String a s)) eqn:Hf; [right; left; by apply eqb_elem in Hf|].
  destruct (looks_like_direct_request _); [done|]. destruct (looks_like_ambient_narration _ _) eqn:Hn; [|done].
  right; right. unfold looks_like_ambient_narration in Hn. apply andb_true_iff in Hn as [[[Hn _]%andb_true_iff _]%andb_true_iff _]. by apply Nat.leb_le.
Qed.

(** Narration that names a device is taken for a request. *)
Example narration_with_a_device : assess_transcript "The dog was asleep on the sofa when the lights came back" = Accept.
Proof. vm_compute. reflexivity. Qed.
Example narration_is_dropped :
  assess_transcript "  They said  that it would rain all day on Sunday " = Reject "ambient narration".
Proof. vm_compute. reflexivity. Qed.
